(* ===== verification/_CoqProject ===== *)
-Q . S2P
Prelude.v
TimeVal.v
Clib.v
Util.v
MinHeap.v
EvMap.v
Changelist.v
EpollTable.v
Epoll.v
EventBase.v
EventCore.v
EventLoop.v
EventInv.v
EventProps.v
EventTimers.v
EventAdd.v
EventConfig.v
EventLoopInv.v
EventLoopTotal.v
EventDispatch.v
EventSignals.v
EventExamples.v
BufferCore.v
BufferMove.v
BufferSearch.v
BufferInv.v
BufferPrepend.v
BufferDrain.v
BufferCallbacks.v
BufferMoveProps.v
BufferPullup.v
BufferSearchProps.v
BufferLines.v
BufferRead.v
Tagging.v
TaggingProps.v
BufferExamples.v
TokenBucket.v
Bevent.v
RateLim.v
BeventSock.v
BeventInv.v
BeventStep.v
RateLimProps.v
BeventExamples.v
Inet.v
InetProps.v
Addrinfo.v
Uri.v
UriProps.v
BufferStream.v
BufferPrintf.v
HttpHeaders.v
HttpHeaderProps.v
HttpMsg.v
HttpChunks.v
HttpMsgProps.v
HttpExamples.v
DnsPacket.v
DnsNames.v
DnsPacketProps.v
DnsResponse.v
DnsClient.v
DnsClientInv.v
DnsClientQueues.v
DnsClientHandles.v
DnsClientRuns.v
DnsExamples.v
HashTable.v
HashTableProps.v
DebugMap.v
DebugMapProps.v
FdBackends.v
FdBackendProps.v
SelectProps.v
Listener.v
ListenerProps.v
DnsConfig.v
DnsConfigProps.v
DnsHosts.v
