(* ===== verification/Prelude.v ===== *)
(** * libevent: a verification library

    A model of the core of libevent, an event notification library in C, with the
    theorems that make it correct.  File and function names are those of src/.

    ** The program

    A program creates an _event base_ (event.c) and adds _events_ to it: a
    descriptor that becomes ready, a signal, a timeout.  The base keeps the added
    events in maps by descriptor and signal (evmap.c), in a heap of timeouts
    (minheap-internal.h) or in queues of common timeouts, tells a _backend_
    (epoll.c; directly or through a changelist) what to watch, and in its loop
    waits, expires timeouts and runs the callbacks of the active events by
    priority.  On top of it, _evbuffers_ (buffer.c) are queues of bytes in chained
    blocks, _bufferevents_ (bufferevent.c, bufferevent_sock.c) couple two of them
    with the events of a socket and may be limited in rate
    (bufferevent_ratelim.c), and protocols are built on these: tagged records
    (event_tagging.c), HTTP (http.c) and DNS (evdns.c), with string and address utilities in
    evutil.c.

    ** The files

    Each component has a file of definitions, translated function by function
    (a definition keeps the name of the C function; helpers that are parts of a
    function have names of their own), and files of theorems over it.

    - Prelude.v: machine integers as [Z] with explicit wrap-around ([wrap],
      [swrap]), flags ([&?]), assertions, bytes, shared lemmas and hints.
    - TimeVal.v: [struct timeval] (event2/util.h) and the clock of evutil_time.c.
    - Clib.v, Util.v: the C library on strings and numbers; the string functions
      of evutil.c and strlcpy.c.
    - MinHeap.v: minheap-internal.h over any store of events ([HeapStore]).
    - EvMap.v, Changelist.v: evmap.c over any backend ([BackendOps],
      [BackendLaws]).
    - EpollTable.v, Epoll.v: epolltable-internal.h and epoll.c over any kernel
      that does what epoll_ctl(2) documents ([EpollKernel], [EpollLaws]).
    - FdBackends.v: poll.c and select.c; FdBackendProps.v and SelectProps.v: that
      both do what a map from descriptors to events says.
    - EventBase.v (state, queues, cached time), EventCore.v (adding, deleting and
      activating), EventLoop.v (closures, active queues, the loop), EventConfig.v
      (configurations, creating a base): event.c.  EventInv.v has the invariant
      [base_ok]; EventProps.v, EventAdd.v, EventTimers.v, EventLoopInv.v,
      EventLoopTotal.v, EventDispatch.v and EventSignals.v the theorems;
      EventExamples.v a base.
    - BufferCore.v (chains, adding, removing, callbacks), BufferMove.v (space,
      moves, input/output), BufferSearch.v (positions, searching, lines):
      buffer.c.  BufferInv.v has the invariant [buf_ok] and the abstraction
      [content]; BufferDrain.v, BufferPrepend.v, BufferCallbacks.v,
      BufferMoveProps.v, BufferPullup.v, BufferSearchProps.v, BufferLines.v and
      BufferRead.v the theorems.
    - Tagging.v, TaggingProps.v: event_tagging.c over the buffers;
      BufferExamples.v buffers and streams.
    - TokenBucket.v: the token buckets of bufferevent_ratelim.c.
    - Bevent.v, RateLim.v, BeventSock.v: bufferevents, rate limits and groups,
      and the callbacks of sockets, over any implementation of events
      ([EventApi], [EventLaws]); BeventInv.v, BeventStep.v, RateLimProps.v the
      theorems, BeventExamples.v an implementation and runs.
    - Inet.v, InetProps.v, Addrinfo.v: addresses as text, socket addresses and the resolver-free part of getaddrinfo
      (evutil.c).
    - Uri.v, UriProps.v: the URIs of http.c.
    - BufferStream.v, BufferPrintf.v: a buffer as a stream of bytes that is
      written at the end and read at the front, for the protocols above;
      [evbuffer_add_printf].
    - HttpHeaders.v, HttpMsg.v: headers, queries, first lines, chunked bodies and
      replies of http.c; HttpHeaderProps.v, HttpChunks.v, HttpMsgProps.v the
      theorems, HttpExamples.v messages.
    - DnsPacket.v (names, queries, answers, responses), DnsClient.v (requests,
      nameservers, timeouts, searching): evdns.c, over an environment that answers
      for the network, timers and memory ([DnsEnv], [DnsEnvOk]); DnsNames.v,
      DnsPacketProps.v and DnsResponse.v the theorems on packets;
      DnsClientInv.v, DnsClientQueues.v, DnsClientHandles.v and DnsClientRuns.v
      the invariant of the client and its runs; DnsExamples.v packets and runs.
    - DnsConfig.v: options, resolv.conf, search domains, nameservers and hosts
      files of evdns.c; DnsConfigProps.v the ranges of what is configured,
      DnsHosts.v sequences of calls, and the lookup of names of a hosts file.
    - Listener.v, ListenerProps.v: the listeners of
      listener.c, their callbacks and what becomes of accepted descriptors.
    - HashTable.v, HashTableProps.v: the macros of ht-internal.h, against finite
      maps; DebugMap.v, DebugMapProps.v: the table of debug mode (event.c) over
      them.

    ** How the code is modelled

    Structures are records, with the pointers between them as addresses in a
    finite map (events, bufferevents) or as positions in a list (chains).  A
    result [None] of a model of a function that returns [option] is a run that the
    C code must not have: a failed assertion, an access outside of an array, a
    pointer to a freed object, an integer that overflows where that is undefined.
    Theorems that an operation "returns" say that the result is [Some].  Memory
    allocation is an argument that answers each request; a failure takes the
    branch of the code.  System calls, user callbacks and clocks are arguments
    too.  Integers have the width of the code and wrap around or give [None] where
    they overflow (seconds of a time included); the counters of the heap of
    timeouts, which count objects in memory, are natural numbers.  What is assumed
    of system calls, callbacks and clocks are the laws of the classes above, each with an
    instance in an Examples file or at the end of the file of theorems.

    ** What the theorems show

    - Base: the operations on events do what they say on every branch and keep
      [base_ok].  The loop does not get stuck for callbacks that are programs of
      these operations: each iteration ends, and the loop returns or goes on.
      Timeouts expire exactly when due; callbacks that only observe run once, by
      priority, in order.  Common timeouts are modelled, but the theorems on
      adding, dispatching and the loop are about a base without them.
    - Maps and backend: the events of a descriptor and what the kernel watches
      stay in agreement, by refinement through evmap.c and epoll.c; the table of
      512 operations is the function of its generator.  This is up to edge
      triggering, which epoll.c loses.  The poll and select backends report what
      is watched and ready, and poll what was hung up or failed besides.
    - Buffers: each operation is the function on byte lists it promises, or
      fails without effect; searching and lines agree with a definition on the
      content alone; the search terminates.
    - Bufferevents: a registered event is enabled and not suspended (or its
      socket is connecting), over all runs of operations that complete; what the rate limiter suspends is resumed; the limiter bounds the
      rate over any run.
    - Encodings: tagged records, addresses, socket addresses and URIs survive
      writing and reading; parsers of untrusted text return on every input.  What a
      URI object holds is of a grammar that is stated apart from the code.
    - HTTP: headers are parsed to the same result in whatever pieces they
      arrive; requests and chunked bodies survive the wire.
    - DNS: queries and responses survive the wire, compressed names included;
      the parsers stay inside of any packet; over all runs of the client no
      event gets stuck, ids are distinct, counters exact, and every handle is
      called back once.  The runs exclude search domains, removing all
      nameservers, and a callback that cannot be scheduled for lack of memory,
      where the code has the faults that DnsExamples.v and the findings show; the
      random generator draws every transaction id again at some time.
    - DNS configuration: whatever the bytes of the files, the parsers return and
      leave every option in range; a name is found where the hosts file has it.
    - Listeners: every accepted descriptor is given away or closed, once; the
      exception, a callback that frees its listener, is part of the theorem.
    - Hash tables are finite maps, however they grow; debug mode, which keeps its
      records in one, ends the program exactly when its specification does.

    ** Bounds and fuel

    Loops that are structural in C are structural here.  Fuel appears where the
    C loop is bounded by a value: the search in a buffer takes one step per byte
    and chain; doubling a size until it is large enough 64 steps; numbers are
    encoded in at most 17 bytes and tags in 5; the parser of IPv6 text takes one
    step per character; printing a number 64 digits; HTTP headers take one step
    per byte, chunks two, formatted text two rounds; a DNS name takes at most
    the length of the packet and of the output and two steps, writing one a step
    per dot, the words of a line of configuration a step for each byte, choosing a nameserver a step per nameserver, starting the waiting
    requests a step for each.  That the fuel is enough is
    part of the theorems about the function.  The rejection loop of
    [evutil_weakrand_range_] ends within 2^31 draws, the period of the
    generator; a queue of callbacks within INT_MAX of them.  The event loop has no
    bound: its theorem is about any number of iterations.  The choice of a DNS
    transaction id ends when the generator draws a free one; the fuel is an
    argument that the environment gives for the state of the generator.

    ** What is not modelled, and why

    Threads and locks (the model is of one thread; the order of locking in the
    deferred callbacks of buffers is modelled because it is wrong); the backends
    other than epoll, poll and select, IOCP and TLS, which wrap system interfaces that are not in
    the repository; file segments, sendfile and mmap in buffer.c; the calls
    of debug mode in the operations on events, finalizers and the dump functions of event.c; filtering and paired
    bufferevents; the connections and servers of http.c; the
    getaddrinfo and server ports of evdns.c; evrpc.c and signal.c;
    the third-party arc4random.c; samples, tests and build files. *)

From stdpp Require Export base list list_numbers gmap fin_maps sorting strings.
From Stdlib Require Export ZArith Lia.

(** ** Scopes and hint databases of the development *)

Declare Scope c_scope.
Delimit Scope c_scope with C.

Create HintDb ev.
Create HintDb evz.

#[global] Open Scope Z_scope.

(** ** Machine integers

    A [w]-bit unsigned integer is a [Z] together with the explicit reduction
    modulo [2^w] where the C code can wrap. *)

Definition wrap (w x : Z) : Z := x mod 2 ^ w.
Abbreviation u8 := (wrap 8).
Abbreviation u16 := (wrap 16).
Abbreviation u32 := (wrap 32).
Abbreviation u64 := (wrap 64).

(** Conversion of an unsigned [w]-bit pattern to the signed reading. *)
Definition swrap (w x : Z) : Z := (x + 2 ^ (w - 1)) mod 2 ^ w - 2 ^ (w - 1).
Abbreviation i16 := (swrap 16).
Abbreviation i32 := (swrap 32).
Abbreviation i64 := (swrap 64).

Abbreviation INT_MAX := 2147483647.
Abbreviation UINT_MAX := 4294967295.
Abbreviation EV_SIZE_MAX := 18446744073709551615.
Abbreviation EV_SSIZE_MAX := 9223372036854775807.
Abbreviation LONG_MAX := 9223372036854775807.

(** [x & m] used as a C condition. *)
Definition flag (x m : Z) : bool := negb (Z.land x m =? 0).
Notation "x &? m" := (flag x m) (at level 35, no associativity) : c_scope.
Open Scope c_scope.

(** C's [EVUTIL_ASSERT]: the model gets stuck when it fails. *)
Definition evassert (b : bool) : option unit := if b then Some tt else None.
Notation "'ASSERT' b ;; k" := (mbind (λ _ : unit, k) (evassert b))
  (at level 100, b at next level, k at level 200, right associativity) : c_scope.

(** Bytes and C strings: a C string is the list of its non-NUL characters. *)
Abbreviation bytes := (list Z).
Definition is_byte (b : Z) : Prop := 0 <= b < 256.

Fixpoint bytes_of_string (s : string) : bytes :=
  match s with
  | EmptyString => []
  | String c s' => Z.of_nat (Ascii.nat_of_ascii c) :: bytes_of_string s'
  end.

Lemma wrap_small w x : 0 <= x < 2 ^ w → wrap w x = x.
Proof. apply Z.mod_small. Qed.

Lemma wrap_range w x : 0 <= w → 0 <= wrap w x < 2 ^ w.
Proof. intros. apply Z.mod_pos_bound. lia. Qed.

Lemma i32_small x : -2147483648 <= x < 2147483648 → i32 x = x.
Proof. intros. unfold swrap. simpl. rewrite Z.mod_small; lia. Qed.

Lemma evassert_true b : b = true → evassert b = Some tt.
Proof. by intros ->. Qed.

Lemma bind_some_eq {A B} (x : A) (f : A → option B) : Some x ≫= f = f x.
Proof. done. Qed.

(** ** Single-bit masks *)

Lemma land_pow2 x k : 0 <= k → Z.land x (2 ^ k) = if Z.testbit x k then 2 ^ k else 0.
Proof.
  intros Hk. apply Z.bits_inj'. intros n Hn. rewrite Z.land_spec, Z.pow2_bits_eqb by done.
  destruct (Z.eqb_spec k n) as [->|Hne].
  - destruct (Z.testbit x n); [by rewrite Z.pow2_bits_true|by rewrite Z.bits_0].
  - rewrite andb_false_r. destruct (Z.testbit x k); [|by rewrite Z.bits_0].
    by rewrite Z.pow2_bits_false by done.
Qed.

Lemma flag_pow2 x k : 0 <= k → flag x (2 ^ k) = Z.testbit x k.
Proof.
  intros Hk. unfold flag. rewrite land_pow2 by done. destruct (Z.testbit x k); [|done].
  assert (0 < 2 ^ k) by lia. by destruct (Z.eqb_spec (2 ^ k) 0); [lia|].
Qed.

Lemma land_flag x k : 0 <= k → Z.land x (2 ^ k) = if flag x (2 ^ k) then 2 ^ k else 0.
Proof. intros. by rewrite flag_pow2, land_pow2. Qed.

Lemma flag_lor x y m : flag (Z.lor x y) m = flag x m || flag y m.
Proof.
  unfold flag. rewrite Z.land_lor_distr_l.
  destruct (Z.eqb_spec (Z.lor (Z.land x m) (Z.land y m)) 0) as [H|H].
  - apply Z.lor_eq_0_iff in H as [-> ->]. done.
  - destruct (Z.eqb_spec (Z.land x m) 0) as [H1|], (Z.eqb_spec (Z.land y m) 0) as [H2|]; try done.
    rewrite H1, H2 in H. done.
Qed.

Lemma flag_orb x a b : x &? Z.lor a b = (x &? a) || (x &? b).
Proof.
  unfold flag. rewrite (Z.land_lor_distr_r x a b).
  destruct (Z.eqb_spec (Z.land x a) 0) as [->|Ha]; [done|].
  destruct (Z.eqb_spec (Z.lor (Z.land x a) (Z.land x b)) 0) as [H|]; [|done].
  by apply Z.lor_eq_0_iff in H as [? _].
Qed.

(** Clearing the bits of [y]. *)
Lemma flag_land_lnot x y k : 0 <= k → Z.land x (Z.lnot y) &? 2 ^ k = (x &? 2 ^ k) && negb (y &? 2 ^ k).
Proof. intros Hk. rewrite !flag_pow2, Z.land_spec, Z.lnot_spec by done. done. Qed.

(** Disjoint bits are added by [|]. *)
Lemma lor_shiftl_add a v k : 0 <= k → 0 <= v < 2 ^ k → Z.lor v (Z.shiftl a k) = v + a * 2 ^ k.
Proof.
  intros Hk Hv. rewrite <- Z.shiftl_mul_pow2 by lia. symmetry. apply Z.add_nocarry_lor.
  apply Z.bits_inj'. intros n Hn. rewrite Z.land_spec, Z.shiftl_spec, Z.bits_0 by lia.
  destruct (decide (n < k)) as [Hlt|Hge].
  - rewrite (Z.testbit_neg_r a) by lia. apply andb_false_r.
  - rewrite <- (Z.mod_small v (2 ^ k)) by lia. rewrite Z.mod_pow2_bits_high by lia. done.
Qed.

(** ** Queues: the lists of compat/sys/queue.h

    A [LIST] or [TAILQ] is the list of its elements, first to last.  Unlinking
    an element that is not on the list is undefined in C: [None] here. *)

Definition unlink {A} `{EqDecision A} (x : A) (l : list A) : option (list A) :=
  if decide (x ∈ l) then Some (filter (.≠ x) l) else None.

Section queues.
Context {A : Type} `{EqDecision A}.
Implicit Types (x y : A) (l : list A).

Lemma unlink_in x l : x ∈ l → unlink x l = Some (filter (.≠ x) l).
Proof. intros. unfold unlink. by rewrite decide_True. Qed.

Lemma filter_ne_notin x l : x ∉ l → filter (.≠ x) l = l.
Proof.
  induction l as [|y l IH]; intros Hx; [done|]. rewrite not_elem_of_cons in Hx.
  destruct Hx. rewrite filter_cons_True by congruence. by rewrite IH.
Qed.

Lemma filter_ne_perm x l : NoDup l → x ∈ l → l ≡ₚ x :: filter (.≠ x) l.
Proof.
  induction 1 as [|y l Hy Hnd IH]; [by intros ?%not_elem_of_nil|].
  destruct (decide (y = x)) as [->|Hne].
  - intros _. rewrite filter_cons_False by naive_solver. by rewrite filter_ne_notin.
  - intros [?|Hin]%elem_of_cons; [congruence|]. rewrite filter_cons_True by done.
    rewrite (IH Hin) at 1. apply perm_swap.
Qed.

Lemma elem_of_filter_ne x y l : y ∈ filter (.≠ x) l ↔ y ≠ x ∧ y ∈ l.
Proof. by rewrite list_elem_of_filter. Qed.

Lemma NoDup_filter_ne x l : NoDup l → NoDup (filter (.≠ x) l).
Proof. apply NoDup_filter. Qed.

Lemma length_filter_ne x l : NoDup l → x ∈ l → length l = S (length (filter (.≠ x) l)).
Proof. intros Hnd Hx. by rewrite (filter_ne_perm x l Hnd Hx) at 1. Qed.
End queues.
#[export] Hint Resolve NoDup_filter_ne : ev.

(** ** Lists used as arrays *)

Section arrays.
Context {A : Type}.
Implicit Types l : list A.

(** A store of [x] at [i] that the C array would refuse out of range. *)
Definition store_at (i : nat) (x : A) l : option (list A) :=
  if decide (i < length l)%nat then Some (<[i := x]> l) else None.

Lemma store_at_ok i x l : (i < length l)%nat → store_at i x l = Some (<[i:=x]> l).
Proof. intros. unfold store_at. by rewrite decide_True. Qed.

Lemma lookup_some_lt l i : (i < length l)%nat → ∃ x, l !! i = Some x.
Proof. apply lookup_lt_is_Some_2. Qed.

(** Exchanging two cells permutes the array. *)
Lemma insert_swap_perm l i j x y :
  l !! i = Some x → l !! j = Some y → <[j:=x]> (<[i:=y]> l) ≡ₚ l.
Proof.
  intros Hi Hj. destruct (decide (i = j)) as [->|Hne].
  { simplify_eq. by rewrite (list_insert_id l j x Hi), (list_insert_id l j x Hi). }
  assert (∀ i j x y, (i < j)%nat → l !! i = Some x → l !! j = Some y →
    <[j:=x]> (<[i:=y]> l) ≡ₚ l) as Hlt.
  { clear. intros i j x y Hij Hi Hj.
    assert (Hlj : (j < length l)%nat) by (eapply lookup_lt_Some; exact Hj).
    rewrite <- (take_drop_middle _ _ _ Hj) at 2.
    rewrite (insert_take_drop _ j) by (rewrite length_insert; lia).
    rewrite (drop_insert_lt) by lia.
    assert (Hi' : take j l !! i = Some x) by (rewrite lookup_take_lt by lia; done).
    assert (take j (<[i:=y]> l) = <[i:=y]> (take j l)) as ->
      by (rewrite take_insert_lt by lia; done).
    rewrite <- (take_drop_middle _ _ _ Hi') at 2.
    rewrite (insert_take_drop _ i) by (eapply lookup_lt_Some; exact Hi').
    rewrite <- !app_assoc, <- !app_comm_cons. f_equiv.
    rewrite <- !Permutation_middle. apply perm_swap. }
  destruct (decide (i < j)%nat); [by apply Hlt|].
  rewrite list_insert_insert_ne by done. apply Hlt; [lia|done..].
Qed.
End arrays.

(** ** Blocks of memory

    An access outside of the block is stuck. *)

(** [memcpy (buf + i, d, length d)]. *)
Definition memcpy_at (i : nat) (d buf : bytes) : option bytes :=
  if (i + length d <=? length buf)%nat
  then Some (take i buf ++ d ++ drop (i + length d) buf) else None.

(** Reading [n] bytes at [buf + i]. *)
Definition mread (i n : nat) (buf : bytes) : option bytes :=
  if (i + n <=? length buf)%nat then Some (take n (drop i buf)) else None.

Lemma memcpy_at_ok i d buf :
  (i + length d <= length buf)%nat →
  memcpy_at i d buf = Some (take i buf ++ d ++ drop (i + length d) buf).
Proof. intros. unfold memcpy_at. by rewrite (proj2 (Nat.leb_le _ _)). Qed.

Lemma mread_ok i n buf : (i + n <= length buf)%nat → mread i n buf = Some (take n (drop i buf)).
Proof. intros. unfold mread. by rewrite (proj2 (Nat.leb_le _ _)). Qed.

Lemma length_memcpy i (d buf : bytes) :
  (i + length d <= length buf)%nat →
  length (take i buf ++ d ++ drop (i + length d) buf) = length buf.
Proof. intros. rewrite !length_app, length_take, length_drop. lia. Qed.

Lemma memcpy_at_length i d buf buf' : memcpy_at i d buf = Some buf' → length buf' = length buf.
Proof.
  unfold memcpy_at. destruct (i + length d <=? length buf)%nat eqn:E; [|done]. intros [= <-].
  apply Nat.leb_le in E. by apply length_memcpy.
Qed.

(** ** Lists of lists *)

Lemma join_insert {A} (hs : list (list A)) i l l' : hs !! i = Some l → mjoin (<[i := l']> hs) ++ l ≡ₚ mjoin hs ++ l'.
Proof.
  revert i. induction hs as [|h hs IH]; intros [|i] Hi; [done..| |].
  - injection Hi as ->. cbn. rewrite <- !app_assoc, (Permutation_app_comm l' _), (Permutation_app_comm l _), <- !app_assoc.
    apply Permutation_app_head, Permutation_app_comm.
  - cbn. rewrite <- !app_assoc. apply Permutation_app_head. by apply IH.
Qed.

Lemma join_snoc {A} (hs : list (list A)) i l x : hs !! i = Some l → mjoin (<[i := l ++ [x]]> hs) ≡ₚ x :: mjoin hs.
Proof.
  intros Hi. apply (Permutation_app_inv_r l). rewrite (join_insert hs i l (l ++ [x]) Hi). cbn.
  rewrite app_assoc. symmetry. apply Permutation_cons_append.
Qed.
