(* ===== verification/TimeVal.v ===== *)
(** * struct timeval and the monotonic clock

    The macros of include/event2/util.h on [struct timeval]
    ([evutil_timeradd], [evutil_timersub], [evutil_timercmp], ...), the
    conversion to milliseconds and the clock ratchet of evutil_time.c.

    [time_t] and [suseconds_t] are signed 64-bit numbers here; the sums and
    differences wrap around, and the lemmas on them say for which times they do
    not (beyond those the behaviour is undefined in C). *)

From S2P Require Import Prelude.

Record timeval := mk_timeval { tv_sec : Z; tv_usec : Z }.

#[export] Instance timeval_eq_dec : EqDecision timeval.
Proof. solve_decision. Defined.

#[export] Instance timeval_inhabited : Inhabited timeval := populate (mk_timeval 0 0).

(** ** Operations *)

Definition evutil_timeradd (t u : timeval) : timeval :=
  let s := i64 (tv_sec t + tv_sec u) in
  let us := i64 (tv_usec t + tv_usec u) in
  if 1000000 <=? us then mk_timeval (i64 (s + 1)) (i64 (us - 1000000)) else mk_timeval s us.

Definition evutil_timersub (t u : timeval) : timeval :=
  let s := i64 (tv_sec t - tv_sec u) in
  let us := i64 (tv_usec t - tv_usec u) in
  if us <? 0 then mk_timeval (i64 (s - 1)) (i64 (us + 1000000)) else mk_timeval s us.

Definition evutil_timerclear : timeval := mk_timeval 0 0.

Definition evutil_timerisset (t : timeval) : bool :=
  negb (tv_sec t =? 0) || negb (tv_usec t =? 0).

(** [evutil_timercmp(tvp, uvp, cmp)], the comparison being an argument. *)
Definition evutil_timercmp (t u : timeval) (cmp : Z → Z → bool) : bool :=
  if tv_sec t =? tv_sec u then cmp (tv_usec t) (tv_usec u)
  else cmp (tv_sec t) (tv_sec u).

Definition MAX_SECONDS_IN_MSEC_LONG : Z := (LONG_MAX - 999) ÷ 1000.

Definition evutil_tv_to_msec_ (tv : timeval) : Z :=
  if (1000000 <? tv_usec tv) || (MAX_SECONDS_IN_MSEC_LONG <? tv_sec tv) then -1
  else tv_sec tv * 1000 + (tv_usec tv + 999) ÷ 1000.

(** [struct evutil_monotonic_timer], the two fields the ratchet uses and the
    POSIX clock id. *)
Record evutil_monotonic_timer := mk_timer {
  monotonic_clock : Z;
  adjust_monotonic_clock : timeval;
  last_time : timeval
}.

Definition adjust_monotonic_time (base : evutil_monotonic_timer) (tv : timeval)
    : evutil_monotonic_timer * timeval :=
  let tv1 := evutil_timeradd tv (adjust_monotonic_clock base) in
  if evutil_timercmp tv1 (last_time base) Z.ltb then
    let adjust := evutil_timersub (last_time base) tv1 in
    let adj := evutil_timeradd adjust (adjust_monotonic_clock base) in
    let tv2 := last_time base in
    (mk_timer (monotonic_clock base) adj tv2, tv2)
  else (mk_timer (monotonic_clock base) (adjust_monotonic_clock base) tv1, tv1).

(** [evutil_gettime_monotonic_] (POSIX version).  [gettimeofday] and
    [clock_gettime] are the system's clocks: [None] is a failure;
    [clock_gettime] returns seconds and nanoseconds. *)
Definition evutil_gettime_monotonic_ (gettimeofday : option timeval)
    (clock_gettime : Z → option (Z * Z)) (base : evutil_monotonic_timer)
    : option (evutil_monotonic_timer * timeval) :=
  if monotonic_clock base <? 0 then
    tp ← gettimeofday; Some (adjust_monotonic_time base tp)
  else
    '(sec, nsec) ← clock_gettime (monotonic_clock base);
    Some (base, mk_timeval sec (nsec ÷ 1000)).

(** ** Normal timevals and their order *)

(** A normalised timeval denotes a number of microseconds. *)
Definition tv_norm (t : timeval) : Prop := 0 <= tv_usec t < 1000000.
Definition tv_us (t : timeval) : Z := tv_sec t * 1000000 + tv_usec t.

Definition tv_lt (t u : timeval) : Prop :=
  tv_sec t < tv_sec u ∨ (tv_sec t = tv_sec u ∧ tv_usec t < tv_usec u).
Definition tv_le (t u : timeval) : Prop :=
  tv_sec t < tv_sec u ∨ (tv_sec t = tv_sec u ∧ tv_usec t <= tv_usec u).

Ltac tv_solve :=
  repeat match goal with
  | t : timeval |- _ => destruct t
  end;
  unfold tv_lt, tv_le, tv_norm, tv_us, evutil_timercmp, evutil_timerclear in *; simpl in *;
  repeat (case_match; simpl in * ); try lia.

Lemma timercmp_lt t u : evutil_timercmp t u Z.ltb = true ↔ tv_lt t u.
Proof. tv_solve. Qed.
Lemma timercmp_gt t u : evutil_timercmp t u Z.gtb = true ↔ tv_lt u t.
Proof. tv_solve. Qed.
Lemma timercmp_le t u : evutil_timercmp t u Z.leb = true ↔ tv_le t u.
Proof. tv_solve. Qed.
Lemma timercmp_ge t u : evutil_timercmp t u Z.geb = true ↔ tv_le u t.
Proof. tv_solve. Qed.

Lemma tv_not_lt t u : ¬ tv_lt t u ↔ tv_le u t.
Proof. tv_solve. Qed.
Lemma tv_not_le t u : ¬ tv_le t u ↔ tv_lt u t.
Proof. tv_solve. Qed.
Lemma tv_lt_le t u : tv_lt t u → tv_le t u.
Proof. tv_solve. Qed.
Lemma tv_le_lt_trans t u v : tv_le t u → tv_lt u v → tv_lt t v.
Proof. tv_solve. Qed.
Lemma tv_lt_le_trans t u v : tv_lt t u → tv_le u v → tv_lt t v.
Proof. tv_solve. Qed.
#[export] Instance tv_le_refl : Reflexive tv_le.
Proof. intros t. tv_solve. Qed.
#[export] Instance tv_le_trans : Transitive tv_le.
Proof. intros t u v. tv_solve. Qed.
#[export] Instance tv_le_total : Total tv_le.
Proof. intros t u. tv_solve. Qed.
#[export] Instance tv_le_dec t u : Decision (tv_le t u).
Proof. unfold tv_le. apply _. Defined.
#[export] Instance tv_lt_dec t u : Decision (tv_lt t u).
Proof. unfold tv_lt. apply _. Defined.

#[export] Hint Resolve tv_lt_le tv_le_lt_trans tv_lt_le_trans : ev.

Lemma tv_lt_us t u : tv_norm t → tv_norm u → tv_lt t u ↔ tv_us t < tv_us u.
Proof. intros; tv_solve. Qed.
Lemma tv_le_us t u : tv_norm t → tv_norm u → tv_le t u ↔ tv_us t <= tv_us u.
Proof. intros; tv_solve. Qed.

(** Addition and subtraction are addition and subtraction of microseconds when the
    seconds fit, and keep timevals normalised. *)
Definition add_fits (t u : timeval) : Prop := -2 ^ 63 <= tv_sec t + tv_sec u < 2 ^ 63 - 1.
Definition sub_fits (t u : timeval) : Prop := -2 ^ 63 < tv_sec t - tv_sec u < 2 ^ 63.
Lemma i64_id x : -2 ^ 63 <= x < 2 ^ 63 → i64 x = x.
Proof. intros. unfold swrap. rewrite Z.mod_small; lia. Qed.
Lemma timeradd_eq t u : tv_norm t → tv_norm u → add_fits t u →
  evutil_timeradd t u = if 1000000 <=? tv_usec t + tv_usec u
    then mk_timeval (tv_sec t + tv_sec u + 1) (tv_usec t + tv_usec u - 1000000)
    else mk_timeval (tv_sec t + tv_sec u) (tv_usec t + tv_usec u).
Proof. unfold tv_norm, add_fits, evutil_timeradd. intros. by rewrite !i64_id by (rewrite ?i64_id; lia). Qed.
Lemma timersub_eq t u : tv_norm t → tv_norm u → sub_fits t u →
  evutil_timersub t u = if tv_usec t - tv_usec u <? 0
    then mk_timeval (tv_sec t - tv_sec u - 1) (tv_usec t - tv_usec u + 1000000)
    else mk_timeval (tv_sec t - tv_sec u) (tv_usec t - tv_usec u).
Proof. unfold tv_norm, sub_fits, evutil_timersub. intros. by rewrite !i64_id by (rewrite ?i64_id; lia). Qed.
Lemma timeradd_us t u : tv_norm t → tv_norm u → add_fits t u → tv_us (evutil_timeradd t u) = tv_us t + tv_us u.
Proof. intros. rewrite timeradd_eq by done. tv_solve. Qed.
Lemma timersub_us t u : tv_norm t → tv_norm u → sub_fits t u → tv_us (evutil_timersub t u) = tv_us t - tv_us u.
Proof. intros. rewrite timersub_eq by done. tv_solve. Qed.
Lemma timeradd_norm t u : tv_norm t → tv_norm u → tv_norm (evutil_timeradd t u).
Proof.
  unfold tv_norm, evutil_timeradd. intros. rewrite (i64_id (tv_usec t + tv_usec u)) by lia.
  destruct (Z.leb_spec 1000000 (tv_usec t + tv_usec u)); cbn [tv_usec]; rewrite ?i64_id; lia.
Qed.
Lemma timersub_norm t u : tv_norm t → tv_norm u → tv_norm (evutil_timersub t u).
Proof.
  unfold tv_norm, evutil_timersub. intros. rewrite (i64_id (tv_usec t - tv_usec u)) by lia.
  destruct (Z.ltb_spec (tv_usec t - tv_usec u) 0); cbn [tv_usec]; rewrite ?i64_id; lia.
Qed.
Lemma tv_us_inj t u : tv_norm t → tv_norm u → tv_us t = tv_us u → t = u.
Proof.
  destruct t as [s a], u as [s' a']. unfold tv_norm, tv_us; simpl. intros ???.
  f_equal; lia.
Qed.

#[export] Hint Resolve timeradd_norm timersub_norm : ev.

(** The times reported for a sequence of readings of the wall clock. *)
Fixpoint clock_times (base : evutil_monotonic_timer) (readings : list timeval) : list timeval :=
  match readings with
  | [] => []
  | tv :: readings =>
    let '(base, t) := adjust_monotonic_time base tv in t :: clock_times base readings
  end.

(** Times of a wall clock: normalised and within 2^60 seconds. *)
Definition tv_sane (t : timeval) : Prop := tv_norm t ∧ -2 ^ 60 <= tv_sec t <= 2 ^ 60.

Lemma adjust_monotonic_time_le base tv : let '(base', t) := adjust_monotonic_time base tv in
  tv_le (last_time base) t ∧ last_time base' = t.
Proof.
  unfold adjust_monotonic_time. destruct (evutil_timercmp _ _ Z.ltb) eqn:Hc; [done|]. split; [|done].
  apply tv_not_lt. rewrite <- timercmp_lt, Hc. done.
Qed.

Lemma adjust_monotonic_time_offset base tv : tv_sane tv → tv_sane (adjust_monotonic_clock base) → tv_sane (last_time base) →
  let '(base', t) := adjust_monotonic_time base tv in tv_us t = tv_us tv + tv_us (adjust_monotonic_clock base').
Proof.
  intros [N1 F1] [N2 F2] [N3 F3]. unfold adjust_monotonic_time.
  pose proof (timeradd_norm _ _ N1 N2) as N4. assert (A1 : add_fits tv (adjust_monotonic_clock base)) by (unfold add_fits; lia).
  pose proof (timeradd_us _ _ N1 N2 A1) as U1. set (t1 := evutil_timeradd tv (adjust_monotonic_clock base)) in *.
  assert (F4 : -2 ^ 61 <= tv_sec t1 <= 2 ^ 61 + 1) by (unfold tv_us, tv_norm in *; lia).
  destruct (evutil_timercmp _ _ Z.ltb); cbn [adjust_monotonic_clock]; [|done].
  assert (A2 : sub_fits (last_time base) t1) by (unfold sub_fits; lia). pose proof (timersub_norm _ _ N3 N4) as N5.
  pose proof (timersub_us _ _ N3 N4 A2) as U2. set (d := evutil_timersub (last_time base) t1) in *.
  assert (A3 : add_fits d (adjust_monotonic_clock base)) by (unfold add_fits, tv_us, tv_norm in *; lia).
  rewrite timeradd_us by done. lia.
Qed.

(** The monotonic clock built on [gettimeofday] never runs backwards: over
    any sequence of readings of the wall clock, which may jump in either
    direction, the times reported are non-decreasing; and it does not stall: the
    offset kept after a reading is the difference between the time reported and
    the wall clock, so that the next reading advances with the wall clock. *)
Theorem monotonic_clock_never_backwards base readings :
  StronglySorted tv_le (last_time base :: clock_times base readings) ∧
  ∀ tv, tv_sane tv → tv_sane (adjust_monotonic_clock base) → tv_sane (last_time base) →
    let '(base', t) := adjust_monotonic_time base tv in
    tv_us t = tv_us tv + tv_us (adjust_monotonic_clock base').
Proof.
  split; [|intros; by apply adjust_monotonic_time_offset].
  revert base. induction readings as [|tv readings IH]; intros base; simpl; [repeat constructor|].
  pose proof (adjust_monotonic_time_le base tv) as Hle. destruct (adjust_monotonic_time base tv) as [base' t].
  destruct Hle as [Hle Hlast]. specialize (IH base'). rewrite Hlast in IH. constructor; [done|].
  constructor; [done|]. apply StronglySorted_inv in IH as [_ IH].
  eapply Forall_impl; [exact IH|]. intros u Hu. by transitivity t.
Qed.
