(* ===== verification/Clib.v ===== *)
(** * The C library on strings

    What evutil.c, http.c and evdns.c use of the C library: searching in and
    comparing strings, numbers read with [strtol], [atoi] and [sscanf] and
    printed with [printf].  A string is the list of its characters without the
    final NUL; a [char] is the number of its byte. *)

From S2P Require Import Prelude.

(** The C string at the start of a block of memory. *)
Fixpoint c_text (s : bytes) : bytes :=
  match s with
  | [] => []
  | c :: s' => if c =? 0 then [] else c :: c_text s'
  end.

Lemma c_text_id s : (0 ∉ s) → c_text s = s.
Proof.
  induction s as [|c s IH]; [done|]. rewrite not_elem_of_cons. intros [Hc Hs]. cbn.
  by rewrite (proj2 (Z.eqb_neq c 0)), IH by (done || congruence).
Qed.

(** The character at offset [i] of the string; the NUL at its end. *)
Definition char_at (s : bytes) (i : nat) : Z := default 0 (s !! i).

(** A [char] is signed where two of them are compared. *)
Abbreviation schar := (swrap 8).

Definition isspace (c : Z) : bool := (c =? 32) || ((9 <=? c) && (c <=? 13)).

(** The longest prefix whose characters satisfy [p], and the rest. *)
Fixpoint span (p : Z → bool) (s : bytes) : bytes * bytes :=
  match s with
  | [] => ([], [])
  | c :: s' => if p c then let '(a, b) := span p s' in (c :: a, b) else ([], s)
  end.

(** [strchr] of a character that is not NUL, as an offset. *)
Fixpoint strchr (c : Z) (s : bytes) : option nat :=
  match s with
  | [] => None
  | d :: s' => if d =? c then Some O else S <$> strchr c s'
  end.

(** [strrchr] *)
Fixpoint strrchr (c : Z) (s : bytes) : option nat :=
  match s with
  | [] => None
  | d :: s' =>
    match strrchr c s' with
    | Some i => Some (S i)
    | None => if d =? c then Some O else None
    end
  end.

(** [strpbrk] *)
Fixpoint strpbrk (set : bytes) (s : bytes) : option nat :=
  match s with
  | [] => None
  | d :: s' => if bool_decide (d ∈ set) then Some O else S <$> strpbrk set s'
  end.

(** [strncmp(s, t, n) == 0] *)
Fixpoint strncmp_eq (s t : bytes) (n : nat) : bool :=
  match n, s, t with
  | O, _, _ | _, [], [] => true
  | S n, c :: s, d :: t => (c =? d) && strncmp_eq s t n
  | _, _, _ => false
  end.

(** ** Numbers *)

Definition digit_value (c : Z) : Z :=
  if (48 <=? c) && (c <=? 57) then c - 48
  else if (97 <=? c) && (c <=? 122) then c - 87
  else if (65 <=? c) && (c <=? 90) then c - 55
  else 36.

Definition is_digit_of (base c : Z) : bool := digit_value c <? base.

Definition number (base : Z) (ds : bytes) : Z := foldl (λ a c, a * base + digit_value c) 0 ds.

Definition skip_sign (s : bytes) : bool * bytes :=
  match s with
  | c :: s' => if c =? 45 then (true, s') else if c =? 43 then (false, s') else (false, s)
  | [] => (false, s)
  end.

(** In base 16 a number may start with 0x. *)
Definition skip_0x (base : Z) (s : bytes) : bytes :=
  match s with
  | z :: x :: c :: s' =>
    if (base =? 16) && (z =? 48) && ((x =? 120) || (x =? 88)) && is_digit_of 16 c then c :: s' else s
  | _ => s
  end.

(** The parts of a number as [strtol] reads it: whether it is negative, its
    digits and what follows them; [None] when there is no digit. *)
Definition scan_number (base : Z) (s : bytes) : option (bool * bytes * bytes) :=
  let '(neg, s) := skip_sign (snd (span isspace s)) in
  let '(ds, rest) := span (is_digit_of base) (skip_0x base s) in
  match ds with [] => None | _ => Some (neg, ds, rest) end.

(** [strtol(s, &end, base)]: the value, and what [end] points to. *)
Definition strtol (base : Z) (s : bytes) : Z * bytes :=
  match scan_number base s with
  | None => (0, s)
  | Some (neg, ds, rest) =>
    let v := number base ds in
    (if neg then Z.max (- LONG_MAX - 1) (- v) else Z.min LONG_MAX v, rest)
  end.

Definition atoi (s : bytes) : Z := i32 (fst (strtol 10 s)).

(** [%u] of [sscanf]: the value of [strtoul] as an [unsigned]. *)
Definition scan_u (s : bytes) : option (Z * bytes) :=
  '(neg, ds, rest) ← scan_number 10 s;
  let v := number 10 ds in
  Some (u32 (if EV_SIZE_MAX <? v then EV_SIZE_MAX else if (neg : bool) then u64 (- v) else v), rest).

(** [sscanf(s, "%u.%u...", ...)] for [n] numbers: those converted, and what
    follows the last one when all were. *)
Fixpoint scan_dotted (n : nat) (s : bytes) : list Z * option bytes :=
  match n with
  | O => ([], Some s)
  | S n' =>
    match scan_u s with
    | None => ([], None)
    | Some (v, rest) =>
      match n', rest with
      | O, _ => ([v], Some rest)
      | _, c :: rest =>
        if c =? 46 then let '(vs, r) := scan_dotted n' rest in (v :: vs, r) else ([v], None)
      | _, [] => ([v], None)
      end
    end
  end.

(** [sscanf(s, "%u.%u.%u.%u%c", ...)]: the numbers and how many conversions
    were made. *)
Definition sscanf_quad (s : bytes) : list Z * nat :=
  let '(vs, r) := scan_dotted 4 s in
  (vs, length vs + match r with Some (_ :: _) => 1 | _ => 0 end)%nat.

Definition digit_char (d : Z) : Z := if d <? 10 then 48 + d else 87 + d.

Fixpoint print_digits (fuel : nat) (base n : Z) : bytes :=
  match fuel with
  | O => []
  | S fuel =>
    if n <? base then [digit_char n]
    else print_digits fuel base (n `div` base) ++ [digit_char (n mod base)]
  end.

(** [%u], [%x]; a number of 64 bits has at most 64 digits. *)
Definition print_u (base n : Z) : bytes := print_digits 64 base n.

(** [%d] *)
Definition print_d (n : Z) : bytes := if n <? 0 then 45 :: print_u 10 (- n) else print_u 10 n.

(** [snprintf(buf, buflen, ...)] of the formatted [text] in a buffer that is
    not empty: what the buffer holds and the length of the text. *)
Definition snprintf (buflen : Z) (text : bytes) : bytes * Z :=
  (take (Z.to_nat (buflen - 1)) text, Z.of_nat (length text)).

(** ** Lemmas *)

Lemma span_stop p s rest :
  Forall (λ c, p c = true) s → (∀ c s', rest = c :: s' → p c = false) → span p (s ++ rest) = (s, rest).
Proof.
  intros Hs Hr. induction Hs as [|c s Hc Hs IH]; simpl.
  - destruct rest as [|c s']; [done|]. simpl. by rewrite (Hr c s' eq_refl).
  - by rewrite Hc, IH.
Qed.

Lemma span_split p s : fst (span p s) ++ snd (span p s) = s.
Proof. induction s as [|c s IH]; [done|]. simpl. destruct (p c), (span p s); simpl in *; congruence. Qed.

Lemma span_fst p s : Forall (λ c, p c = true) (fst (span p s)).
Proof.
  induction s as [|c s IH]; [constructor|]. simpl.
  destruct (p c) eqn:E, (span p s); simpl in *; constructor; done.
Qed.

Lemma strchr_app c s rest : c ∉ s → strchr c (s ++ c :: rest) = Some (length s).
Proof.
  induction s as [|d s IH]; intros Hc; simpl; [by rewrite Z.eqb_refl|].
  rewrite not_elem_of_cons in Hc. destruct Hc as [H1 H2].
  destruct (Z.eqb_spec d c); [congruence|]. by rewrite IH.
Qed.

Lemma strchr_none c s : c ∉ s → strchr c s = None.
Proof.
  induction s as [|d s IH]; intros Hc; [done|]. rewrite not_elem_of_cons in Hc. destruct Hc. simpl.
  destruct (Z.eqb_spec d c); [congruence|]. by rewrite IH.
Qed.

Lemma strchr_some c s i : strchr c s = Some i → s !! i = Some c ∧ c ∉ take i s.
Proof.
  revert i. induction s as [|d s IH]; intros i; simpl; [done|].
  destruct (Z.eqb_spec d c) as [->|Hne]; [intros [= <-]; split; [done|apply not_elem_of_nil]|].
  destruct (strchr c s) as [j|] eqn:Hj; [|done]. intros [= <-]. destruct (IH j eq_refl) as [H1 H2].
  split; [done|]. simpl. rewrite not_elem_of_cons. split; [congruence|done].
Qed.

(** *** Printed numbers *)

Definition base_ok (base : Z) : Prop := 2 <= base <= 36.

Lemma digit_value_char d : 0 <= d < 36 → digit_value (digit_char d) = d.
Proof.
  intros Hd. unfold digit_char, digit_value. destruct (Z.ltb_spec d 10).
  - by rewrite (proj2 (Z.leb_le 48 _)), (proj2 (Z.leb_le _ 57)) by lia; cbn; lia.
  - rewrite (proj2 (Z.leb_gt (87 + d) 57)) by lia. rewrite andb_false_r.
    rewrite (proj2 (Z.leb_le 97 _)), (proj2 (Z.leb_le _ 122)) by lia. cbn. lia.
Qed.

Lemma number_app base s t : number base (s ++ t) = foldl (λ a c, a * base + digit_value c) (number base s) t.
Proof. apply foldl_app. Qed.

Section print.
Context (base : Z) (Hbase : base_ok base).

Lemma print_digits_number fuel n : 0 <= n < base ^ Z.of_nat fuel → number base (print_digits fuel base n) = n.
Proof using Hbase.
  unfold base_ok in Hbase. revert n. induction fuel as [|fuel IH]; intros n Hn; cbn [print_digits].
  - cbn in Hn. cbn. lia.
  - rewrite Nat2Z.inj_succ, Z.pow_succ_r in Hn by lia. destruct (Z.ltb_spec n base).
    + cbn. rewrite digit_value_char; lia.
    + rewrite number_app, IH.
      * cbn. rewrite digit_value_char by (pose proof (Z.mod_pos_bound n base); lia).
        pose proof (Z.div_mod n base). lia.
      * split; [apply Z.div_pos; lia|]. apply Z.div_lt_upper_bound; lia.
Qed.

Lemma print_digits_digits fuel n : 0 <= n → Forall (λ c, is_digit_of base c = true) (print_digits fuel base n).
Proof using Hbase.
  unfold base_ok in Hbase. revert n. induction fuel as [|fuel IH]; intros n Hn; cbn [print_digits]; [constructor|].
  assert (∀ d, 0 <= d < base → is_digit_of base (digit_char d) = true) as Hd.
  { intros d ?. unfold is_digit_of. rewrite digit_value_char by lia. apply Z.ltb_lt. lia. }
  destruct (Z.ltb_spec n base); [repeat constructor; apply Hd; lia|].
  apply Forall_app. split; [apply IH, Z.div_pos; lia|].
  repeat constructor. apply Hd. apply Z.mod_pos_bound. lia.
Qed.

Lemma print_digits_length fuel n k :
  0 <= n < base ^ Z.of_nat k → (0 < k)%nat → (length (print_digits fuel base n) <= k)%nat.
Proof using Hbase.
  unfold base_ok in Hbase. revert n k. induction fuel as [|fuel IH]; intros n k Hn Hk; cbn [print_digits]; [cbn; lia|].
  destruct (Z.ltb_spec n base); [cbn; lia|]. rewrite length_app. cbn [length].
  destruct k as [|k]; [lia|]. rewrite Nat2Z.inj_succ, Z.pow_succ_r in Hn by lia.
  destruct k as [|k]; [cbn in Hn; lia|].
  assert (length (print_digits fuel base (n `div` base)) <= S k)%nat; [|lia].
  apply IH; [|lia]. split; [apply Z.div_pos; lia|]. apply Z.div_lt_upper_bound; lia.
Qed.

Lemma print_digits_nonempty fuel n : print_digits (S fuel) base n ≠ [].
Proof using Type. cbn. destruct (n <? base); [done|]. by destruct (print_digits fuel base (n `div` base)). Qed.
End print.

(** What follows a printed number so that [strtol] stops there. *)
Definition stops (base : Z) (rest : bytes) : Prop :=
  ∀ c s', rest = c :: s' → is_digit_of base c = false ∧ c ≠ 120 ∧ c ≠ 88.

Lemma digit_char_cases c base : is_digit_of base c = true → base <= 36 →
  48 <= c <= 57 ∨ 97 <= c <= 122 ∨ 65 <= c <= 90.
Proof.
  unfold is_digit_of, digit_value. rewrite Z.ltb_lt.
  destruct (Z.leb_spec 48 c), (Z.leb_spec c 57), (Z.leb_spec 97 c), (Z.leb_spec c 122),
    (Z.leb_spec 65 c), (Z.leb_spec c 90); cbn; lia.
Qed.

Lemma hex_digit_not_x c : is_digit_of 16 c = true → c ≠ 120 ∧ c ≠ 88.
Proof. intros H. split; intros ->; done. Qed.

Lemma skip_0x_digits base ds rest :
  ds ≠ [] → Forall (λ c, is_digit_of base c = true) ds → stops base rest → skip_0x base (ds ++ rest) = ds ++ rest.
Proof.
  intros Hne Hds Hr. destruct ds as [|z ds]; [done|]. cbn [app]. unfold skip_0x.
  destruct (ds ++ rest) as [|x [|c s']] eqn:E; [done..|].
  destruct (Z.eqb_spec base 16) as [->|]; [|done].
  assert (x ≠ 120 ∧ x ≠ 88) as [H1 H2].
  { inversion Hds as [|?? _ Hds']; subst. destruct ds as [|x' ds].
    - cbn in E. subst rest. by destruct (Hr x _ eq_refl).
    - injection E as -> _. inversion Hds'; subst. by apply hex_digit_not_x. }
  rewrite (proj2 (Z.eqb_neq x 120)), (proj2 (Z.eqb_neq x 88)) by done. cbn.
  by rewrite andb_false_r.
Qed.

Lemma scan_number_digits base ds rest :
  base <= 36 → ds ≠ [] → Forall (λ c, is_digit_of base c = true) ds → stops base rest →
  scan_number base (ds ++ rest) = Some (false, ds, rest).
Proof.
  intros Hb Hne Hds Hr. unfold scan_number.
  destruct ds as [|d ds'] eqn:Eds; [done|]. rewrite <- Eds in *.
  assert (is_digit_of base d = true) as Hd by (rewrite Eds in Hds; by inversion Hds).
  apply digit_char_cases in Hd; [|done].
  assert (span isspace (ds ++ rest) = ([], ds ++ rest)) as ->.
  { subst. cbn [app span]. assert (isspace d = false) as ->; [|done]. unfold isspace.
    destruct (Z.eqb_spec d 32), (Z.leb_spec 9 d), (Z.leb_spec d 13); cbn; lia. }
  cbn [snd]. assert (skip_sign (ds ++ rest) = (false, ds ++ rest)) as ->.
  { subst. cbn [app skip_sign]. rewrite (proj2 (Z.eqb_neq d 45)), (proj2 (Z.eqb_neq d 43)) by lia. done. }
  rewrite skip_0x_digits by done. rewrite span_stop by (try done; intros c s' E; by destruct (Hr c s' E)).
  by subst.
Qed.

Lemma print_u_scan base n rest :
  base_ok base → 0 <= n → stops base rest →
  scan_number base (print_u base n ++ rest) = Some (false, print_u base n, rest).
Proof.
  intros Hb Hn Hr. apply scan_number_digits; [unfold base_ok in Hb; lia| |by apply print_digits_digits|done].
  apply print_digits_nonempty.
Qed.

Lemma print_u_number base n : base_ok base → 0 <= n < 2 ^ 64 → number base (print_u base n) = n.
Proof.
  intros Hb Hn. apply print_digits_number; [done|]. split; [lia|].
  apply Z.lt_le_trans with (2 ^ 64); [lia|]. change (Z.of_nat 64) with 64.
  apply Z.pow_le_mono_l. unfold base_ok in Hb. lia.
Qed.

(** [strtol] reads back what [%x] or [%u] printed. *)
Lemma strtol_print base n rest :
  base_ok base → 0 <= n <= LONG_MAX → stops base rest → strtol base (print_u base n ++ rest) = (n, rest).
Proof.
  intros Hb Hn Hr. unfold strtol. rewrite print_u_scan, print_u_number by (done || lia).
  by rewrite Z.min_r by lia.
Qed.

Lemma scan_u_print n rest : 0 <= n < 2 ^ 32 → stops 10 rest → scan_u (print_u 10 n ++ rest) = Some (n, rest).
Proof.
  intros Hn Hr. unfold scan_u. rewrite print_u_scan by (done || lia). rewrite bind_some_eq.
  rewrite print_u_number by (done || lia). rewrite (proj2 (Z.ltb_ge _ _)) by lia. by rewrite wrap_small.
Qed.

(** A dotted quad, as [%d.%d.%d.%d] prints it. *)
Definition print_quad (a b c d : Z) : bytes :=
  print_u 10 a ++ 46 :: print_u 10 b ++ 46 :: print_u 10 c ++ 46 :: print_u 10 d.

Lemma stops_cons base c s : is_digit_of base c = false → c ≠ 120 → c ≠ 88 → stops base (c :: s).
Proof. by intros H1 H2 H3 c' s' [= <- _]. Qed.
Lemma stops_nil base : stops base [].
Proof. by intros ??. Qed.
#[export] Hint Resolve stops_nil : ev.
#[export] Hint Extern 2 (stops _ (_ :: _)) => apply stops_cons; [reflexivity|lia|lia] : ev.

Lemma sscanf_quad_print a b c d :
  is_byte a → is_byte b → is_byte c → is_byte d → sscanf_quad (print_quad a b c d) = ([a; b; c; d], 4%nat).
Proof.
  unfold is_byte. intros Ha Hb Hc Hd. unfold sscanf_quad, print_quad. cbn [scan_dotted].
  do 3 (rewrite scan_u_print by (eauto with ev; lia); cbn [Z.eqb Pos.eqb]).
  rewrite <- (app_nil_r (print_u 10 d)), scan_u_print by (eauto with ev; lia). done.
Qed.

Lemma print_u_chars base n : base_ok base → 0 <= n →
  Forall (λ c, is_digit_of base c = true) (print_u base n).
Proof. intros. by apply print_digits_digits. Qed.

Lemma print_d_chars n c : 0 <= n → c ∈ print_d n → 48 <= c <= 57.
Proof.
  intros Hn. unfold print_d. rewrite (proj2 (Z.ltb_ge n 0)) by lia. intros Hin.
  pose proof (proj1 (Forall_forall _ _) (print_u_chars 10 n ltac:(done) Hn) c Hin) as H. cbn in H.
  unfold is_digit_of, digit_value in H. rewrite Z.ltb_lt in H.
  destruct (Z.leb_spec 48 c), (Z.leb_spec c 57), (Z.leb_spec 97 c), (Z.leb_spec c 122), (Z.leb_spec 65 c), (Z.leb_spec c 90); cbn in H; lia.
Qed.

Lemma print_u_length base n k :
  base_ok base → 0 <= n < base ^ Z.of_nat k → (0 < k)%nat → (length (print_u base n) <= k)%nat.
Proof. intros. by apply print_digits_length. Qed.

Lemma print_u_cons base n : ∃ c s, print_u base n = c :: s.
Proof.
  destruct (print_u base n) as [|c s] eqn:E; [|eauto]. exfalso. by apply (print_digits_nonempty base 63 n).
Qed.
