(* ===== verification/Util.v ===== *)
(** * String utilities of evutil.c

    The locale-independent character classes and case tables, comparison of
    strings without regard to case, trimming, hexadecimal digits, bounded copies
    and formatting, and the seed of the weak random numbers. *)

From S2P Require Import Prelude.
From S2P Require Import Clib.

(** ** Character classes *)

Definition EVUTIL_ISALPHA_TABLE : list Z := [0; 0; 0x7fffffe; 0x7fffffe; 0; 0; 0; 0].
Definition EVUTIL_ISALNUM_TABLE : list Z := [0; 0x3ff0000; 0x7fffffe; 0x7fffffe; 0; 0; 0; 0].
Definition EVUTIL_ISSPACE_TABLE : list Z := [0x3e00; 0x1; 0; 0; 0; 0; 0; 0].
Definition EVUTIL_ISXDIGIT_TABLE : list Z := [0; 0x3ff0000; 0x7e; 0x7e; 0; 0; 0; 0].
Definition EVUTIL_ISDIGIT_TABLE : list Z := [0; 0x3ff0000; 0; 0; 0; 0; 0; 0].
Definition EVUTIL_ISPRINT_TABLE : list Z := [0; 0xffffffff; 0xffffffff; 0x7fffffff; 0; 0; 0; 0x0].
Definition EVUTIL_ISUPPER_TABLE : list Z := [0; 0; 0x7fffffe; 0; 0; 0; 0; 0].
Definition EVUTIL_ISLOWER_TABLE : list Z := [0; 0; 0; 0x7fffffe; 0; 0; 0; 0].

Definition IMPL_CTYPE_FN (table : list Z) (c : Z) : bool :=
  let u := u8 c in
  default 0 (table !! Z.to_nat (Z.land (Z.shiftr u 5) 7)) &? Z.shiftl 1 (Z.land u 31).

Definition EVUTIL_ISALPHA_ : Z → bool := IMPL_CTYPE_FN EVUTIL_ISALPHA_TABLE.
Definition EVUTIL_ISALNUM_ : Z → bool := IMPL_CTYPE_FN EVUTIL_ISALNUM_TABLE.
Definition EVUTIL_ISSPACE_ : Z → bool := IMPL_CTYPE_FN EVUTIL_ISSPACE_TABLE.
Definition EVUTIL_ISDIGIT_ : Z → bool := IMPL_CTYPE_FN EVUTIL_ISDIGIT_TABLE.
Definition EVUTIL_ISXDIGIT_ : Z → bool := IMPL_CTYPE_FN EVUTIL_ISXDIGIT_TABLE.
Definition EVUTIL_ISPRINT_ : Z → bool := IMPL_CTYPE_FN EVUTIL_ISPRINT_TABLE.
Definition EVUTIL_ISLOWER_ : Z → bool := IMPL_CTYPE_FN EVUTIL_ISLOWER_TABLE.
Definition EVUTIL_ISUPPER_ : Z → bool := IMPL_CTYPE_FN EVUTIL_ISUPPER_TABLE.

Definition EVUTIL_TOUPPER_TABLE : list Z :=
  [0; 1; 2; 3; 4; 5; 6; 7; 8; 9; 10; 11; 12; 13; 14; 15;
   16; 17; 18; 19; 20; 21; 22; 23; 24; 25; 26; 27; 28; 29; 30; 31;
   32; 33; 34; 35; 36; 37; 38; 39; 40; 41; 42; 43; 44; 45; 46; 47;
   48; 49; 50; 51; 52; 53; 54; 55; 56; 57; 58; 59; 60; 61; 62; 63;
   64; 65; 66; 67; 68; 69; 70; 71; 72; 73; 74; 75; 76; 77; 78; 79;
   80; 81; 82; 83; 84; 85; 86; 87; 88; 89; 90; 91; 92; 93; 94; 95;
   96; 65; 66; 67; 68; 69; 70; 71; 72; 73; 74; 75; 76; 77; 78; 79;
   80; 81; 82; 83; 84; 85; 86; 87; 88; 89; 90; 123; 124; 125; 126; 127;
   128; 129; 130; 131; 132; 133; 134; 135; 136; 137; 138; 139; 140; 141; 142; 143;
   144; 145; 146; 147; 148; 149; 150; 151; 152; 153; 154; 155; 156; 157; 158; 159;
   160; 161; 162; 163; 164; 165; 166; 167; 168; 169; 170; 171; 172; 173; 174; 175;
   176; 177; 178; 179; 180; 181; 182; 183; 184; 185; 186; 187; 188; 189; 190; 191;
   192; 193; 194; 195; 196; 197; 198; 199; 200; 201; 202; 203; 204; 205; 206; 207;
   208; 209; 210; 211; 212; 213; 214; 215; 216; 217; 218; 219; 220; 221; 222; 223;
   224; 225; 226; 227; 228; 229; 230; 231; 232; 233; 234; 235; 236; 237; 238; 239;
   240; 241; 242; 243; 244; 245; 246; 247; 248; 249; 250; 251; 252; 253; 254; 255].

Definition EVUTIL_TOLOWER_TABLE : list Z :=
  [0; 1; 2; 3; 4; 5; 6; 7; 8; 9; 10; 11; 12; 13; 14; 15;
   16; 17; 18; 19; 20; 21; 22; 23; 24; 25; 26; 27; 28; 29; 30; 31;
   32; 33; 34; 35; 36; 37; 38; 39; 40; 41; 42; 43; 44; 45; 46; 47;
   48; 49; 50; 51; 52; 53; 54; 55; 56; 57; 58; 59; 60; 61; 62; 63;
   64; 97; 98; 99; 100; 101; 102; 103; 104; 105; 106; 107; 108; 109; 110; 111;
   112; 113; 114; 115; 116; 117; 118; 119; 120; 121; 122; 91; 92; 93; 94; 95;
   96; 97; 98; 99; 100; 101; 102; 103; 104; 105; 106; 107; 108; 109; 110; 111;
   112; 113; 114; 115; 116; 117; 118; 119; 120; 121; 122; 123; 124; 125; 126; 127;
   128; 129; 130; 131; 132; 133; 134; 135; 136; 137; 138; 139; 140; 141; 142; 143;
   144; 145; 146; 147; 148; 149; 150; 151; 152; 153; 154; 155; 156; 157; 158; 159;
   160; 161; 162; 163; 164; 165; 166; 167; 168; 169; 170; 171; 172; 173; 174; 175;
   176; 177; 178; 179; 180; 181; 182; 183; 184; 185; 186; 187; 188; 189; 190; 191;
   192; 193; 194; 195; 196; 197; 198; 199; 200; 201; 202; 203; 204; 205; 206; 207;
   208; 209; 210; 211; 212; 213; 214; 215; 216; 217; 218; 219; 220; 221; 222; 223;
   224; 225; 226; 227; 228; 229; 230; 231; 232; 233; 234; 235; 236; 237; 238; 239;
   240; 241; 242; 243; 244; 245; 246; 247; 248; 249; 250; 251; 252; 253; 254; 255].

(** The result is a [char], kept as its byte. *)
Definition EVUTIL_TOLOWER_ (c : Z) : Z := default 0 (EVUTIL_TOLOWER_TABLE !! Z.to_nat (u8 c)).
Definition EVUTIL_TOUPPER_ (c : Z) : Z := default 0 (EVUTIL_TOUPPER_TABLE !! Z.to_nat (u8 c)).

(** ** Comparison without regard to case *)

Fixpoint evutil_ascii_strcasecmp (s1 s2 : bytes) : Z :=
  let c1 := schar (EVUTIL_TOLOWER_ (char_at s1 0)) in
  let c2 := schar (EVUTIL_TOLOWER_ (char_at s2 0)) in
  if c1 <? c2 then -1
  else if c2 <? c1 then 1
  else if c1 =? 0 then 0
  else
    match s1, s2 with
    | _ :: s1, _ :: s2 => evutil_ascii_strcasecmp s1 s2
    | _, _ => 0
    end.

Fixpoint evutil_ascii_strncasecmp (s1 s2 : bytes) (n : nat) : Z :=
  match n with
  | O => 0
  | S n =>
    let c1 := schar (EVUTIL_TOLOWER_ (char_at s1 0)) in
    let c2 := schar (EVUTIL_TOLOWER_ (char_at s2 0)) in
    if c1 <? c2 then -1
    else if c2 <? c1 then 1
    else if c1 =? 0 then 0
    else evutil_ascii_strncasecmp (drop 1 s1) (drop 1 s2) n
  end.

(** ** Trimming, digits, copies *)

Definition is_lws (c : Z) : bool := (c =? 32) || (c =? 9).

(** [i] is the offset of [cp]. *)
Fixpoint rtrim_loop (i : nat) (s : bytes) : bytes :=
  if is_lws (char_at s i) then
    let s := take i s in
    match i with
    | O => s
    | S i => rtrim_loop i s
    end
  else s.

Definition evutil_rtrim_lws_ (str : option bytes) : option bytes :=
  match str with
  | None => None
  | Some [] => Some []
  | Some s => Some (rtrim_loop (length s - 1) s)
  end.

Definition evutil_hex_char_to_int_ (c : Z) : Z :=
  if (48 <=? c) && (c <=? 57) then c - 48
  else if c =? 65 then 10 else if c =? 97 then 10
  else if c =? 66 then 11 else if c =? 98 then 11
  else if c =? 67 then 12 else if c =? 99 then 12
  else if c =? 68 then 13 else if c =? 100 then 13
  else if c =? 69 then 14 else if c =? 101 then 14
  else if c =? 70 then 15 else if c =? 102 then 15
  else -1.

(** The copying loop of [event_strlcpy_] for [n] characters: what it wrote
    before a NUL, and what is left of the source. *)
Fixpoint strlcpy_loop (n : nat) (src : bytes) : bytes * bytes :=
  match n, src with
  | S n, c :: src => let '(d, s) := strlcpy_loop n src in (c :: d, s)
  | _, _ => ([], src)
  end.

(** The string in [dst] afterwards ([None] when nothing was written) and the
    result. *)
Definition event_strlcpy_ (src : bytes) (siz : Z) : option bytes * Z :=
  (if siz =? 0 then None else Some (fst (strlcpy_loop (Z.to_nat (siz - 1)) src)), Z.of_nat (length src)).

(** The formatted [text] in a buffer of [buflen] bytes. *)
Definition evutil_vsnprintf (buflen : Z) (text : bytes) : option bytes * Z :=
  if buflen =? 0 then (None, 0)
  else let '(b, r) := snprintf buflen text in (Some b, r).
Definition evutil_snprintf : Z → bytes → option bytes * Z := evutil_vsnprintf.

Definition evutil_strtoll (s : bytes) (base : Z) : Z * bytes := strtol base s.

(** The seed, from the clock and the process number when it is 0. *)
Definition evutil_weakrand_seed_ (seed tv_sec tv_usec pid : Z) : Z :=
  if seed =? 0 then u32 (u32 (u32 tv_sec + u32 tv_usec) + u32 pid) else seed.

(** ** Properties *)

Lemma byte_cases (P : Z → bool) : forallb P (seqZ 0 256) = true → ∀ c, is_byte c → P c = true.
Proof. intros H c Hc. rewrite forallb_forall in H. apply H, list_elem_of_In, elem_of_seqZ. unfold is_byte in Hc. lia. Qed.

(** Each table is the class of the POSIX locale. *)
Definition ctype_agrees (c : Z) : bool :=
  let digit := (48 <=? c) && (c <=? 57) in
  let upper := (65 <=? c) && (c <=? 90) in
  let lower := (97 <=? c) && (c <=? 122) in
  eqb (EVUTIL_ISDIGIT_ c) digit && eqb (EVUTIL_ISUPPER_ c) upper && eqb (EVUTIL_ISLOWER_ c) lower &&
  eqb (EVUTIL_ISALPHA_ c) (upper || lower) && eqb (EVUTIL_ISALNUM_ c) (digit || upper || lower) &&
  eqb (EVUTIL_ISXDIGIT_ c) (digit || ((65 <=? c) && (c <=? 70)) || ((97 <=? c) && (c <=? 102))) &&
  eqb (EVUTIL_ISSPACE_ c) (isspace c) && eqb (EVUTIL_ISPRINT_ c) ((32 <=? c) && (c <=? 126)) &&
  (EVUTIL_TOLOWER_ c =? if upper then c + 32 else c) && (EVUTIL_TOUPPER_ c =? if lower then c - 32 else c).

Lemma ctype_tables c : is_byte c → ctype_agrees c = true.
Proof. apply byte_cases. vm_compute. reflexivity. Qed.

Lemma isxdigit_digit c : is_byte c → EVUTIL_ISXDIGIT_ c = is_digit_of 16 c.
Proof.
  intros Hc. apply eqb_true_iff. revert c Hc. apply (byte_cases (λ c, eqb (EVUTIL_ISXDIGIT_ c) (is_digit_of 16 c))).
  vm_compute. reflexivity.
Qed.

Lemma isdigit_digit c : is_byte c → EVUTIL_ISDIGIT_ c = is_digit_of 10 c.
Proof.
  intros Hc. apply eqb_true_iff. revert c Hc. apply (byte_cases (λ c, eqb (EVUTIL_ISDIGIT_ c) (is_digit_of 10 c))).
  vm_compute. reflexivity.
Qed.

Lemma tolower_byte c : is_byte c → is_byte (EVUTIL_TOLOWER_ c).
Proof.
  intros Hc. assert ((0 <=? EVUTIL_TOLOWER_ c) && (EVUTIL_TOLOWER_ c <? 256) = true) as H.
  { revert c Hc. apply (byte_cases (λ c, (0 <=? EVUTIL_TOLOWER_ c) && (EVUTIL_TOLOWER_ c <? 256))). vm_compute. reflexivity. }
  apply andb_true_iff in H as [?%Z.leb_le ?%Z.ltb_lt]. unfold is_byte. lia.
Qed.

Lemma tolower_zero c : is_byte c → EVUTIL_TOLOWER_ c = 0 → c = 0.
Proof.
  intros Hc H. assert (negb (EVUTIL_TOLOWER_ c =? 0) || (c =? 0) = true) as Hb.
  { clear H. revert c Hc. apply (byte_cases (λ c, negb (EVUTIL_TOLOWER_ c =? 0) || (c =? 0))). vm_compute. reflexivity. }
  rewrite H in Hb. cbn in Hb. by apply Z.eqb_eq.
Qed.

Lemma schar_inj a b : is_byte a → is_byte b → schar a = schar b → a = b.
Proof. unfold is_byte, swrap. change (2 ^ (8 - 1)) with 128. change (2 ^ 8) with 256. intros. Z.to_euclidean_division_equations. lia. Qed.

Lemma schar_zero a : is_byte a → schar a = 0 → a = 0.
Proof. intros Ha H. apply schar_inj; [done|unfold is_byte; lia|done]. Qed.

(** The characters of a C string are bytes other than NUL. *)
Definition c_string (s : bytes) : Prop := Forall (λ c, 0 < c < 256) s.

Lemma c_string_char_at s i : c_string s → is_byte (char_at s i).
Proof.
  intros Hs. unfold char_at. destruct (s !! i) as [c|] eqn:E; cbn; [|unfold is_byte; lia].
  pose proof (proj1 (Forall_lookup _ _) Hs i c E) as H. cbn in H. unfold is_byte. lia.
Qed.

(** Two strings that differ in case only. *)
Definition same_name (s1 s2 : bytes) : Prop := EVUTIL_TOLOWER_ <$> s1 = EVUTIL_TOLOWER_ <$> s2.

#[export] Instance same_name_equiv : Equivalence same_name.
Proof. unfold same_name. split; red; intros; congruence. Qed.
#[export] Instance same_name_dec s1 s2 : Decision (same_name s1 s2).
Proof. unfold same_name. apply _. Defined.

Definition lower_char (c : Z) : Z := schar (EVUTIL_TOLOWER_ c).

Lemma lower_char_inj a b : is_byte a → is_byte b → lower_char a = lower_char b → EVUTIL_TOLOWER_ a = EVUTIL_TOLOWER_ b.
Proof. intros. by apply schar_inj; [apply tolower_byte..|]. Qed.

Lemma lower_char_zero c : is_byte c → lower_char c = 0 → c = 0.
Proof. intros Hc H. apply tolower_zero; [done|]. apply schar_zero; [by apply tolower_byte|done]. Qed.

(** One comparison of characters, as both functions make it. *)
Lemma three_way (x y : Z) (k : Z) :
  (if x <? y then -1 else if y <? x then 1 else if x =? 0 then 0 else k) =
  if decide (x = y) then (if x =? 0 then 0 else k) else (if x <? y then -1 else 1).
Proof.
  destruct (Z.ltb_spec x y), (Z.ltb_spec y x), (decide (x = y)); try lia; done.
Qed.

(** [evutil_ascii_strcasecmp] is 0 exactly for strings that differ in case only,
    and exchanging its arguments exchanges the sign. *)
Lemma strcasecmp_zero s1 s2 :
  c_string s1 → c_string s2 → evutil_ascii_strcasecmp s1 s2 = 0 ↔ same_name s1 s2.
Proof.
  intros H1. revert s2. induction H1 as [|c s1 Hc H1 IH]; intros s2 H2; destruct H2 as [|d s2 Hd H2].
  - done.
  - cbn [evutil_ascii_strcasecmp]. rewrite three_way.
    change (schar (EVUTIL_TOLOWER_ (char_at (d :: s2) 0))) with (lower_char d).
    change (schar (EVUTIL_TOLOWER_ (char_at [] 0))) with 0.
    assert (lower_char d ≠ 0) by (intros E; apply lower_char_zero in E; unfold is_byte in *; lia).
    rewrite decide_False by congruence. unfold same_name. destruct (0 <? lower_char d); split; done.
  - cbn [evutil_ascii_strcasecmp]. rewrite three_way.
    change (schar (EVUTIL_TOLOWER_ (char_at (c :: s1) 0))) with (lower_char c).
    change (schar (EVUTIL_TOLOWER_ (char_at [] 0))) with 0.
    assert (lower_char c ≠ 0) by (intros E; apply lower_char_zero in E; unfold is_byte in *; lia).
    rewrite decide_False by congruence. unfold same_name. destruct (lower_char c <? 0); split; done.
  - cbn [evutil_ascii_strcasecmp]. rewrite three_way.
    change (schar (EVUTIL_TOLOWER_ (char_at (c :: s1) 0))) with (lower_char c).
    change (schar (EVUTIL_TOLOWER_ (char_at (d :: s2) 0))) with (lower_char d).
    assert (lower_char c ≠ 0) as Hnz by (intros E; apply lower_char_zero in E; unfold is_byte in *; lia).
    rewrite (proj2 (Z.eqb_neq _ _) Hnz). unfold same_name. cbn [fmap list_fmap]. fold (same_name s1 s2).
    destruct (decide (lower_char c = lower_char d)) as [E|E].
    + rewrite (IH s2 H2). apply lower_char_inj in E; [|unfold is_byte; lia..]. unfold same_name. rewrite E.
      split; [by intros ->|by intros [=]].
    + split; [destruct (lower_char c <? lower_char d); done|]. intros [= E' _]. unfold lower_char in E. congruence.
Qed.

Lemma strcasecmp_antisym s1 s2 :
  c_string s1 → c_string s2 → evutil_ascii_strcasecmp s2 s1 = - evutil_ascii_strcasecmp s1 s2.
Proof.
  intros H1. revert s2. induction H1 as [|c s1 Hc H1 IH]; intros s2 H2; destruct H2 as [|d s2 Hd H2];
    cbn [evutil_ascii_strcasecmp]; rewrite ?three_way; try done.
  all: repeat match goal with |- context [schar ?e] => let x := fresh "x" in set (x := schar e) end.
  all: repeat match goal with |- context [decide ?P] => destruct (decide P) end; try congruence.
  all: repeat match goal with |- context [?a <? ?b] => destruct (Z.ltb_spec a b) end; try lia.
  all: repeat match goal with |- context [?a =? ?b] => destruct (Z.eqb_spec a b) end; try lia.
  by apply IH.
Qed.

(** Trimming removes exactly the blanks at the end. *)
Lemma rtrim_snoc s c : evutil_rtrim_lws_ (Some (s ++ [c])) = if is_lws c then evutil_rtrim_lws_ (Some s) else Some (s ++ [c]).
Proof.
  assert (∃ x l, s ++ [c] = x :: l) as (x & l & E) by (destruct s; cbn; eauto).
  unfold evutil_rtrim_lws_ at 1. rewrite E. cbn [length]. rewrite <- E.
  assert (length l = length s) as Hl.
  { apply (f_equal length) in E. rewrite length_app in E. cbn in E. lia. }
  replace (S (length l) - 1)%nat with (length s) by lia.
  assert (char_at (s ++ [c]) (length s) = c) as Hc.
  { unfold char_at. rewrite lookup_app_r, Nat.sub_diag by lia. done. }
  assert (take (length s) (s ++ [c]) = s) as Ht by (rewrite take_app_le, take_ge by lia; done).
  destruct (length s) as [|k] eqn:Hk; cbn [rtrim_loop]; rewrite Hc; destruct (is_lws c); try done; rewrite Ht.
  - by destruct s.
  - destruct s as [|y s]; [done|]. unfold evutil_rtrim_lws_. cbn [length] in *. by replace (S (length s) - 1)%nat with k by lia.
Qed.

(** [evutil_rtrim_lws_] keeps a prefix that does not end in a blank and cuts off
    blanks only. *)
Lemma rtrim_correct s : ∃ t u, evutil_rtrim_lws_ (Some s) = Some t ∧ s = t ++ u ∧ Forall (λ c, is_lws c = true) u ∧
  (∀ t' c, t = t' ++ [c] → is_lws c = false).
Proof.
  induction s as [|c s IH] using rev_ind.
  - exists [], []. split_and!; [done..|]. by intros [] ?.
  - rewrite rtrim_snoc. destruct (is_lws c) eqn:Hc.
    + destruct IH as (t & u & -> & -> & Hu & Ht). exists t, (u ++ [c]). split_and!; [done|by rewrite app_assoc| |done].
      apply Forall_app. split; [done|]. by repeat constructor.
    + exists (s ++ [c]), []. split_and!; [done|by rewrite app_nil_r|constructor|].
      intros t' c' [_ [= <-]]%app_inj_2; done.
Qed.

Lemma strlcpy_loop_take n src : fst (strlcpy_loop n src) = take n src.
Proof.
  revert src. induction n as [|n IH]; intros [|c src]; try done. cbn.
  specialize (IH src). destruct (strlcpy_loop n src). cbn in *. by rewrite IH.
Qed.
