(* ===== verification/MinHeap.v ===== *)
(** * The timer heap (minheap-internal.h)

    A binary min-heap of [struct event *] ordered by [ev_timeout].  The heap
    stores in each event the index of its slot ([min_heap_idx]), so the heap
    and the memory of the events are updated together: the operations thread a
    store of events, of which they only use what the class [HeapStore] says.

    The slots are the C array [p] of [a] cells, of which the first [n] are in
    use.  An access outside the array makes an operation return [None]; the
    theorems show that this never happens on a well-formed heap. *)

From S2P Require Import Prelude TimeVal.

(** Pointers to events; [NULL] is 0. *)
Abbreviation evp := Z.
Abbreviation NULL := 0.

(** ** What the heap needs of the memory of events *)

Class HeapStore (St : Type) := {
  hs_valid : St → evp → Prop;
  hs_timeout : St → evp → timeval;
  hs_idx : St → evp → Z;
  hs_set_idx : evp → Z → St → St
}.

Class HeapStoreLaws (St : Type) `{HeapStore St} := {
  hs_valid_set s e e' i : hs_valid (hs_set_idx e i s) e' ↔ hs_valid s e';
  hs_timeout_set s e e' i : hs_timeout (hs_set_idx e i s) e' = hs_timeout s e';
  hs_idx_set_eq s e i : hs_valid s e → hs_idx (hs_set_idx e i s) e = i;
  hs_idx_set_ne s e e' i : e ≠ e' → hs_idx (hs_set_idx e i s) e' = hs_idx s e'
}.

(** The size [a] doubles as an unsigned int; the number [n] of events in use is a natural
    number, for fewer than 2^32 events. *)
Record min_heap_t := mk_heap { hp : list evp; hn : nat; ha : Z }.

Section ops.
Context {St : Type} `{HeapStore St}.
(** [mm_realloc] of the given number of bytes succeeds. *)
Variable mm_realloc_ok : Z → bool.

Definition min_heap_ctor_ : min_heap_t := mk_heap [] 0 0.
Definition min_heap_elem_init_ (e : evp) (st : St) : St := hs_set_idx e (-1) st.
Definition min_heap_empty_ (s : min_heap_t) : bool := (hn s =? 0)%nat.
Definition min_heap_size_ (s : min_heap_t) : nat := hn s.
Definition min_heap_top_ (s : min_heap_t) : option evp :=
  if (hn s =? 0)%nat then Some NULL else hp s !! 0%nat.
Definition min_heap_elt_is_top_ (st : St) (e : evp) : bool := hs_idx st e =? 0.

Definition min_heap_elem_greater (st : St) (a b : evp) : bool :=
  evutil_timercmp (hs_timeout st a) (hs_timeout st b) Z.gtb.

(** [(s->p[i] = e)->ev_timeout_pos.min_heap_idx = i] *)
Definition set_slot (p : list evp) (st : St) (i : nat) (e : evp)
    : option (list evp * St) :=
  p' ← store_at i e p; Some (p', hs_set_idx e (Z.of_nat i) st).

(** The [while] loop of [min_heap_shift_up_]; [fuel] bounds the iterations. *)
Fixpoint shift_up_loop (fuel : nat) (p : list evp) (st : St) (hole_index : nat)
    (e : evp) : option (list evp * St) :=
  match fuel with
  | O => None
  | S fuel =>
    if (hole_index =? 0)%nat then set_slot p st hole_index e else
    let parent := ((hole_index - 1) / 2)%nat in
    pe ← p !! parent;
    if min_heap_elem_greater st pe e then
      '(p, st) ← set_slot p st hole_index pe;
      shift_up_loop fuel p st parent e
    else set_slot p st hole_index e
  end.

Definition min_heap_shift_up_ (p : list evp) (st : St) (hole_index : nat) (e : evp) :=
  shift_up_loop (S hole_index) p st hole_index e.

(** The first iteration of the [do] loop is unconditional. *)
Definition min_heap_shift_up_unconditional_ (p : list evp) (st : St)
    (hole_index : nat) (e : evp) : option (list evp * St) :=
  let parent := ((hole_index - 1) / 2)%nat in
  pe ← p !! parent;
  '(p, st) ← set_slot p st hole_index pe;
  shift_up_loop (S parent) p st parent e.

Fixpoint shift_down_loop (fuel : nat) (n : nat) (p : list evp) (st : St)
    (hole_index : nat) (e : evp) : option (list evp * St) :=
  match fuel with
  | O => None
  | S fuel =>
    let min_child := (2 * (hole_index + 1))%nat in
    if (n <? min_child)%nat then set_slot p st hole_index e else
    min_child ←
      (if (min_child =? n)%nat then Some (min_child - 1)%nat else
       r ← p !! min_child; l ← p !! (min_child - 1)%nat;
       Some (if min_heap_elem_greater st r l then min_child - 1 else min_child)%nat);
    c ← p !! min_child;
    if negb (min_heap_elem_greater st e c) then set_slot p st hole_index e else
    '(p, st) ← set_slot p st hole_index c;
    shift_down_loop fuel n p st min_child e
  end.

Definition min_heap_shift_down_ (n : nat) (p : list evp) (st : St)
    (hole_index : nat) (e : evp) :=
  shift_down_loop (S n) n p st hole_index e.

(** [unsigned] arithmetic: doubling the capacity wraps at 32 bits. *)
Definition min_heap_reserve_ (s : min_heap_t) (n : nat) : min_heap_t * Z :=
  if ha s <? Z.of_nat n then
    let a := if negb (ha s =? 0) then u32 (ha s * 2) else 8 in
    let a := if a <? Z.of_nat n then Z.of_nat n else a in
    if negb (mm_realloc_ok (a * 8)) then (s, -1)
    else (mk_heap (resize (Z.to_nat a) NULL (hp s)) (hn s) a, 0)
  else (s, 0).

Definition min_heap_push_ (s : min_heap_t) (st : St) (e : evp)
    : option (min_heap_t * St * Z) :=
  let '(s, r) := min_heap_reserve_ s (hn s + 1) in
  if negb (r =? 0) then Some (s, st, -1) else
  '(p, st) ← min_heap_shift_up_ (hp s) st (hn s) e;
  Some (mk_heap p (hn s + 1) (ha s), st, 0).

Definition min_heap_pop_ (s : min_heap_t) (st : St) : option (min_heap_t * St * evp) :=
  if (hn s =? 0)%nat then Some (s, st, NULL) else
  e ← hp s !! 0%nat;
  let n := (hn s - 1)%nat in
  last ← hp s !! n;
  '(p, st) ← min_heap_shift_down_ n (hp s) st 0 last;
  Some (mk_heap p n (ha s), hs_set_idx e (-1) st, e).

Definition min_heap_erase_ (s : min_heap_t) (st : St) (e : evp)
    : option (min_heap_t * St * Z) :=
  let idx := hs_idx st e in
  if negb (idx =? -1) then
    if (hn s =? 0)%nat then None else
    let n := (hn s - 1)%nat in
    last ← hp s !! n;
    let parent := Z.to_nat ((idx - 1) ÷ 2) in
    up ← (if idx >? 0 then pe ← hp s !! parent; Some (min_heap_elem_greater st pe last)
          else Some false);
    '(p, st) ← (if (up : bool)
                then min_heap_shift_up_unconditional_ (hp s) st (Z.to_nat idx) last
                else min_heap_shift_down_ n (hp s) st (Z.to_nat idx) last);
    Some (mk_heap p n (ha s), hs_set_idx e (-1) st, 0)
  else Some (s, st, -1).

Definition min_heap_adjust_ (s : min_heap_t) (st : St) (e : evp)
    : option (min_heap_t * St * Z) :=
  let idx := hs_idx st e in
  if idx =? -1 then min_heap_push_ s st e else
  let parent := Z.to_nat ((idx - 1) ÷ 2) in
  up ← (if idx >? 0 then pe ← hp s !! parent; Some (min_heap_elem_greater st pe e)
        else Some false);
  '(p, st) ← (if (up : bool)
              then min_heap_shift_up_unconditional_ (hp s) st (Z.to_nat idx) e
              else min_heap_shift_down_ (hn s) (hp s) st (Z.to_nat idx) e);
  Some (mk_heap p (hn s) (ha s), st, 0).
End ops.

(** ** Well-formed heaps *)

Definition parent (i : nat) : nat := ((i - 1) / 2)%nat.

Lemma parent_spec i : (0 < i)%nat → (2 * parent i + 1 <= i <= 2 * parent i + 2)%nat.
Proof. intros. unfold parent. pose proof (Nat.div_mod_eq (i - 1) 2).
  pose proof (Nat.mod_upper_bound (i - 1) 2). lia. Qed.

(** Adds the two bounds of [parent i] to the context for every [parent i] with
    [0 < i] in sight. *)
Ltac parents :=
  repeat match goal with
  | |- context [parent ?i] => lazymatch goal with
      | _ : (2 * parent i + 1 <= i <= _)%nat |- _ => fail | _ => idtac end;
      assert (2 * parent i + 1 <= i <= 2 * parent i + 2)%nat by (apply parent_spec; lia)
  | _ : context [parent ?i] |- _ => lazymatch goal with
      | _ : (2 * parent i + 1 <= i <= _)%nat |- _ => fail | _ => idtac end;
      assert (2 * parent i + 1 <= i <= 2 * parent i + 2)%nat by (apply parent_spec; lia)
  end.
Ltac plia := parents; lia.

Section wf.
Context {St : Type} `{HeapStoreLaws St}.
Implicit Types (st : St) (p : list evp) (e x : evp).

Definition kle st (a b : evp) : Prop := tv_le (hs_timeout st a) (hs_timeout st b).

Definition heap_ordered st p (n : nat) : Prop :=
  ∀ i pe x, (0 < i < n)%nat → p !! parent i = Some pe → p !! i = Some x → kle st pe x.

Definition idx_ok st p (n : nat) : Prop :=
  ∀ i x, (i < n)%nat → p !! i = Some x → hs_valid st x ∧ hs_idx st x = Z.of_nat i.

Record heap_wf st (s : min_heap_t) : Prop := {
  wf_n : (hn s <= length (hp s))%nat;
  wf_a : Z.of_nat (length (hp s)) = ha s;
  wf_order : heap_ordered st (hp s) (hn s);
  wf_idx : idx_ok st (hp s) (hn s)
}.

(** The events in the heap. *)
Definition elems (s : min_heap_t) : list evp := take (hn s) (hp s).

(** [st'] differs from [st] in the heap indices of events of [X] only. *)
Definition store_frame (X : list evp) st st' : Prop :=
  (∀ x, hs_timeout st' x = hs_timeout st x) ∧
  (∀ x, hs_valid st' x ↔ hs_valid st x) ∧
  (∀ x, x ∉ X → hs_idx st' x = hs_idx st x).

#[export] Instance store_frame_proper :
  Proper ((≡ₚ) ==> (=) ==> (=) ==> iff) store_frame.
Proof.
  intros X Y HXY ? st -> ? st' ->. unfold store_frame.
  by setoid_rewrite HXY.
Qed.

Lemma store_frame_refl X st : store_frame X st st.
Proof. done. Qed.

Lemma store_frame_trans X Y st st1 st2 :
  store_frame X st st1 → store_frame Y st1 st2 → (∀ x, x ∈ X ∨ x ∈ Y → x ∈ Y) →
  store_frame Y st st2.
Proof.
  intros (HA & HB & HC) (HA' & HB' & HC') HXY. split_and!; intros x.
  - congruence.
  - by rewrite HB'.
  - intros Hx. rewrite HC' by done. apply HC. naive_solver.
Qed.

Lemma set_idx_frame X st e i : e ∈ X → store_frame X st (hs_set_idx e i st).
Proof.
  intros He. split_and!; intros x.
  - apply hs_timeout_set.
  - apply hs_valid_set.
  - intros Hx. apply hs_idx_set_ne. congruence.
Qed.

Lemma kle_frame X st st' a b : store_frame X st st' → kle st' a b ↔ kle st a b.
Proof. intros (Ht & _). unfold kle. by rewrite !Ht. Qed.

Lemma greater_true st a b : min_heap_elem_greater st a b = true → kle st b a.
Proof. unfold min_heap_elem_greater. rewrite timercmp_gt. apply tv_lt_le. Qed.
Lemma greater_false st a b : min_heap_elem_greater st a b = false ↔ kle st a b.
Proof.
  unfold min_heap_elem_greater, kle. rewrite <- tv_not_lt, <- timercmp_gt.
  by rewrite not_true_iff_false.
Qed.
Lemma kle_refl st a : kle st a a.
Proof. unfold kle. done. Qed.
Lemma kle_trans st a b c : kle st a b → kle st b c → kle st a c.
Proof. unfold kle. intros. by etrans. Qed.

(** ** A heap with a hole

    While an event [e] sifts, slot [hole] is free and every other slot
    [i < n] is consistent. *)
Record holed st p (n hole : nat) e : Prop := {
  h_lt : (hole < n)%nat;
  h_len : (n <= length p)%nat;
  h_valid : hs_valid st e;
  h_idx : ∀ i x, (i < n)%nat → i ≠ hole → p !! i = Some x →
    hs_valid st x ∧ hs_idx st x = Z.of_nat i ∧ x ≠ e
}.

(** Order of a holed heap away from the hole. *)
Definition far_ordered st p (n hole : nat) : Prop :=
  (∀ i pe x, (0 < i < n)%nat → i ≠ hole → parent i ≠ hole →
    p !! parent i = Some pe → p !! i = Some x → kle st pe x) ∧
  (∀ i pe x, (0 < hole)%nat → (0 < i < n)%nat → parent i = hole →
    p !! parent hole = Some pe → p !! i = Some x → kle st pe x).

Definition above_children st p (n hole : nat) e : Prop :=
  ∀ i x, (0 < i < n)%nat → parent i = hole → p !! i = Some x → kle st e x.
Definition below_parent st p (hole : nat) e : Prop :=
  ∀ pe, (0 < hole)%nat → p !! parent hole = Some pe → kle st pe e.

(** What a completed sift of [e] into the holed heap [p] guarantees. *)
Definition sifted st p (n hole : nat) e (r : option (list evp * St)) : Prop :=
  ∃ p' st', r = Some (p', st') ∧ length p' = length p ∧
    take n p' ≡ₚ take n (<[hole:=e]> p) ∧
    heap_ordered st' p' n ∧ idx_ok st' p' n ∧
    store_frame (take n (<[hole:=e]> p)) st st'.

Lemma elem_of_take_lookup p n i x : (i < n)%nat → p !! i = Some x → x ∈ take n p.
Proof. intros Hi Hx. apply (list_elem_of_lookup_2 _ i). by rewrite lookup_take_lt. Qed.

(** Filling the hole. *)
Lemma fill_hole st p n hole e :
  holed st p n hole e → far_ordered st p n hole →
  above_children st p n hole e → below_parent st p hole e →
  sifted st p n hole e (set_slot p st hole e).
Proof.
  intros [Hlt Hlen Hv Hidx] [Hfar _] Hch Hpar. unfold set_slot.
  rewrite store_at_ok by lia. simpl. eexists _, _; split_and!; [done|..].
  - apply length_insert.
  - done.
  - intros i pe x Hi Hp Hx.
    rewrite (kle_frame [e]) by (apply set_idx_frame; set_solver).
    destruct (decide (i = hole)) as [->|Hne].
    { rewrite list_lookup_insert_eq in Hx by lia. simplify_eq.
      rewrite list_lookup_insert_ne in Hp by plia. apply Hpar; [lia|done]. }
    rewrite list_lookup_insert_ne in Hx by done.
    destruct (decide (parent i = hole)) as [Heq|Hne'].
    { rewrite Heq, list_lookup_insert_eq in Hp by lia. simplify_eq. by apply (Hch i). }
    rewrite list_lookup_insert_ne in Hp by done. by apply (Hfar i).
  - intros i x Hi Hx. destruct (decide (i = hole)) as [->|Hne].
    { rewrite list_lookup_insert_eq in Hx by lia. simplify_eq.
      rewrite hs_valid_set. split; [done|by apply hs_idx_set_eq]. }
    rewrite list_lookup_insert_ne in Hx by done.
    destruct (Hidx i x Hi Hne Hx) as (? & ? & ?).
    rewrite hs_valid_set, hs_idx_set_ne by done. done.
  - apply set_idx_frame. apply (elem_of_take_lookup _ _ hole); [done|].
    by apply list_lookup_insert_eq; lia.
Qed.

(** Moving the event [x] of slot [j] into the hole: [j] becomes the hole. *)
Lemma move_hole st p n hole e j x :
  holed st p n hole e → (j < n)%nat → j ≠ hole → p !! j = Some x →
  holed (hs_set_idx x (Z.of_nat hole) st) (<[hole:=x]> p) n j e.
Proof.
  intros [Hlt Hlen Hv Hidx] Hj Hne Hx. destruct (Hidx j x Hj Hne Hx) as (Hvx & Hjx & Hxe).
  split; [done|by rewrite length_insert|by apply hs_valid_set|].
  intros i y Hi Hij Hy. destruct (decide (i = hole)) as [->|Hih].
  { rewrite list_lookup_insert_eq in Hy by lia. simplify_eq.
    rewrite hs_valid_set, hs_idx_set_eq by done. done. }
  rewrite list_lookup_insert_ne in Hy by done.
  destruct (Hidx i y Hi Hih Hy) as (? & Hiy & ?).
  rewrite hs_valid_set, hs_idx_set_ne by (intros ->; lia). done.
Qed.

Lemma move_hole_perm p n hole e j x :
  (hole < n)%nat → (j < n)%nat → (n <= length p)%nat → j ≠ hole → p !! j = Some x →
  take n (<[j:=e]> (<[hole:=x]> p)) ≡ₚ take n (<[hole:=e]> p).
Proof.
  intros Hh Hj Hl Hne Hx. rewrite !take_insert_lt by lia.
  assert (<[hole:=x]> (take n p) = <[hole:=x]> (<[hole:=e]> (take n p))) as ->
    by by rewrite list_insert_insert_eq.
  apply insert_swap_perm.
  - apply list_lookup_insert_eq. rewrite length_take. lia.
  - rewrite list_lookup_insert_ne by done. by rewrite lookup_take_lt.
Qed.

(** Composing one move with the sift that follows it. *)
Lemma sifted_step st p n hole e j x r :
  holed st p n hole e → (j < n)%nat → j ≠ hole → p !! j = Some x →
  sifted (hs_set_idx x (Z.of_nat hole) st) (<[hole:=x]> p) n j e r →
  sifted st p n hole e r.
Proof.
  intros Hh Hj Hne Hx (p' & st' & -> & Hlen & Hperm & Ho & Hi & Hf).
  assert (Hmp := move_hole_perm p n hole e j x ltac:(apply Hh) Hj ltac:(apply Hh) Hne Hx).
  eexists _, _; split_and!; [done|..].
  - by rewrite Hlen, length_insert.
  - by rewrite Hperm.
  - done.
  - done.
  - eapply store_frame_trans.
    + apply (set_idx_frame [x] st x). set_solver.
    + destruct Hf as (? & ? & Hf). split_and!; [done..|]. intros y Hy. apply Hf.
      by rewrite Hmp.
    + intros y [->%list_elem_of_singleton|]; [|done].
      apply (elem_of_take_lookup _ _ j); [done|].
      by rewrite list_lookup_insert_ne.
Qed.

(** ** The sift loops *)

Lemma shift_up_loop_sifted fuel : ∀ st p n hole e,
  (0 < fuel)%nat → (hole ≠ 0 → S (parent hole) < fuel)%nat →
  holed st p n hole e → far_ordered st p n hole → above_children st p n hole e →
  sifted st p n hole e (shift_up_loop fuel p st hole e).
Proof.
  induction fuel as [|fuel IH]; intros st p n hole e Hfuel0 Hfuel Hh Hfar Hch; [lia|].
  cbn [shift_up_loop]. fold (parent hole).
  destruct (Nat.eqb_spec hole 0) as [->|Hpos].
  { apply fill_hole; [done..|]. intros pe ?. lia. }
  pose proof (h_lt _ _ _ _ _ Hh). pose proof (h_len _ _ _ _ _ Hh).
  destruct (lookup_some_lt p (parent hole)) as [pe Hpe]; [plia|].
  rewrite Hpe. cbn [mbind option_bind].
  destruct (min_heap_elem_greater st pe e) eqn:Hg.
  2:{ apply fill_hole; [done..|]. intros pe' ? Hpe'. simplify_eq. by apply greater_false. }
  unfold set_slot. rewrite store_at_ok by lia. cbn [mbind option_bind].
  apply (sifted_step _ _ _ _ _ (parent hole) pe); [done|plia..|done|].
  destruct Hfar as [Hfar1 Hfar2].
  assert (Hf : store_frame [pe] st (hs_set_idx pe (Z.of_nat hole) st))
    by (apply set_idx_frame; set_solver).
  apply IH; [plia|intros; plia|apply move_hole; [done|plia..|done]|split|].
  - intros i ppe x Hi Hne Hne' Hp Hx. rewrite (kle_frame _ _ _ _ _ Hf).
    rewrite list_lookup_insert_ne in Hx by (intros ->; done).
    destruct (decide (parent i = hole)) as [Heq|].
    + rewrite Heq, list_lookup_insert_eq in Hp by lia. simplify_eq.
      apply (Hfar2 i); [lia|done..].
    + rewrite list_lookup_insert_ne in Hp by done. apply (Hfar1 i); [lia| |done..]. plia.
  - intros i ppe x Hpos' Hi Heq Hp Hx. rewrite (kle_frame _ _ _ _ _ Hf).
    rewrite list_lookup_insert_ne in Hp by plia.
    assert (kle st ppe pe) by (apply (Hfar1 (parent hole)); [plia..|done|done]).
    destruct (decide (i = hole)) as [->|].
    + rewrite list_lookup_insert_eq in Hx by lia. by simplify_eq.
    + rewrite list_lookup_insert_ne in Hx by done.
      apply (kle_trans _ _ pe); [done|]. apply (Hfar1 i); [done..| |by rewrite Heq|done].
      plia.
  - intros i x Hi Heq Hx. rewrite (kle_frame _ _ _ _ _ Hf).
    destruct (decide (i = hole)) as [->|].
    + rewrite list_lookup_insert_eq in Hx by lia. simplify_eq. by apply greater_true.
    + rewrite list_lookup_insert_ne in Hx by done.
      apply (kle_trans _ _ pe); [by apply greater_true|].
      apply (Hfar1 i); [done..| |by rewrite Heq|done]. plia.
Qed.

Lemma shift_up_unconditional_eq st p hole e pe :
  (0 < hole)%nat → p !! parent hole = Some pe → min_heap_elem_greater st pe e = true →
  min_heap_shift_up_unconditional_ p st hole e
    = shift_up_loop (S (S (parent hole))) p st hole e.
Proof.
  intros Hpos Hpe Hg. unfold min_heap_shift_up_unconditional_.
  remember (S (parent hole)) as f eqn:Hf. cbn [shift_up_loop].
  fold (parent hole). destruct (Nat.eqb_spec hole 0); [lia|].
  rewrite Hpe. cbn [mbind option_bind]. by rewrite Hg, Hf.
Qed.

(** The smaller child of [hole], as the [min_child] computation picks it. *)
Lemma pick_min_child st p n hole :
  (2 * (hole + 1) <= n)%nat → (n <= length p)%nat →
  ∃ j c, p !! j = Some c ∧ (j < n)%nat ∧ parent j = hole ∧ (0 < j)%nat ∧
    above_children st p n hole c ∧
    (let m := (2 * (hole + 1))%nat in
     if (m =? n)%nat then Some (m - 1)%nat else
       r ← p !! m; l ← p !! (m - 1)%nat;
       Some (if min_heap_elem_greater st r l then m - 1 else m)%nat) = Some j.
Proof.
  intros Hm Hn. cbv zeta. set (m := (2 * (hole + 1))%nat) in *.
  assert (Hmeq : m = (2 * hole + 2)%nat) by (subst m; lia). clearbody m.
  assert (Hch : ∀ i, (0 < i)%nat → parent i = hole → i = m ∨ i = (m - 1)%nat) by (intros; plia).
  assert (Hpm : parent m = hole ∧ parent (m - 1) = hole) by plia.
  destruct (lookup_some_lt p (m - 1)) as [l Hl]; [lia|].
  destruct (Nat.eqb_spec m n) as [Hmn|Hmn].
  { exists (m - 1)%nat, l. split_and!; [done|lia|apply Hpm|lia| |done].
    intros i x Hi Hpi Hx. destruct (Hch i) as [->| ->]; [lia|done|lia|].
    simplify_eq. apply kle_refl. }
  destruct (lookup_some_lt p m) as [r Hr]; [lia|].
  rewrite Hr, Hl. cbn [mbind option_bind].
  destruct (min_heap_elem_greater st r l) eqn:Hg.
  - exists (m - 1)%nat, l. split_and!; [done|lia|apply Hpm|lia| |done].
    intros i x Hi Hpi Hx. destruct (Hch i) as [->| ->]; [lia|done|..]; simplify_eq.
    + by apply greater_true.
    + apply kle_refl.
  - exists m, r. split_and!; [done|lia|apply Hpm|lia| |done].
    intros i x Hi Hpi Hx. destruct (Hch i) as [->| ->]; [lia|done|..]; simplify_eq.
    + apply kle_refl.
    + by apply greater_false.
Qed.

Lemma shift_down_loop_sifted fuel : ∀ st p n hole e,
  (n - hole < fuel)%nat → holed st p n hole e → far_ordered st p n hole →
  below_parent st p hole e →
  sifted st p n hole e (shift_down_loop fuel n p st hole e).
Proof.
  induction fuel as [|fuel IH]; intros st p n hole e Hfuel Hh Hfar Hpar; [lia|].
  cbn [shift_down_loop].
  pose proof (h_lt _ _ _ _ _ Hh). pose proof (h_len _ _ _ _ _ Hh).
  destruct (Nat.ltb_spec n (2 * (hole + 1))) as [Hleaf|Hin].
  { apply fill_hole; [done..| |done]. intros i x Hi Hpi. plia. }
  destruct (pick_min_child st p n hole) as (j & c & Hc & Hj & Hpj & Hj0 & Hmin & Hpick);
    [done..|].
  cbv zeta in Hpick. rewrite Hpick. cbn [mbind option_bind]. rewrite Hc. cbn [mbind option_bind].
  destruct (min_heap_elem_greater st e c) eqn:Hg; cbn [negb].
  2:{ apply fill_hole; [done..| |done]. intros i x Hi Hpi Hx.
      apply (kle_trans _ _ c); [by apply greater_false|by apply (Hmin i)]. }
  unfold set_slot. rewrite store_at_ok by lia. cbn [mbind option_bind].
  apply (sifted_step _ _ _ _ _ j c); [done|plia..|done|].
  destruct Hfar as [Hfar1 Hfar2].
  assert (Hf : store_frame [c] st (hs_set_idx c (Z.of_nat hole) st))
    by (apply set_idx_frame; set_solver).
  apply IH; [plia|apply move_hole; [done|plia..|done]|split|].
  - intros i ppe x Hi Hne Hne' Hp Hx. rewrite (kle_frame _ _ _ _ _ Hf).
    destruct (decide (i = hole)) as [->|].
    { rewrite list_lookup_insert_eq in Hx by lia. simplify_eq.
      rewrite list_lookup_insert_ne in Hp by plia. apply (Hfar2 j); [lia|done..]. }
    rewrite list_lookup_insert_ne in Hx by done.
    destruct (decide (parent i = hole)) as [Heq|].
    + rewrite Heq, list_lookup_insert_eq in Hp by lia. simplify_eq. by apply (Hmin i).
    + rewrite list_lookup_insert_ne in Hp by done. by apply (Hfar1 i).
  - intros i ppe x _ Hi Heq Hp Hx. rewrite (kle_frame _ _ _ _ _ Hf).
    rewrite Hpj, list_lookup_insert_eq in Hp by lia. simplify_eq.
    rewrite list_lookup_insert_ne in Hx by plia.
    apply (Hfar1 i); [done|plia|plia|done|done].
  - intros pe _ Hp. rewrite (kle_frame _ _ _ _ _ Hf).
    rewrite Hpj, list_lookup_insert_eq in Hp by lia. simplify_eq. by apply greater_true.
Qed.

(** ** Heaps and holes *)

Lemma wf_NoDup st s : heap_wf st s → NoDup (elems s).
Proof.
  intros [Hn _ _ Hi]. apply NoDup_alt. intros i j x Hx Hy.
  assert (Hxi := lookup_lt_Some _ _ _ Hx). assert (Hyj := lookup_lt_Some _ _ _ Hy).
  unfold elems in *. rewrite length_take in *.
  rewrite lookup_take_lt in Hx, Hy by lia.
  destruct (Hi i x ltac:(lia) Hx), (Hi j x ltac:(lia) Hy). lia.
Qed.

Lemma elems_lookup st s x :
  heap_wf st s → x ∈ elems s →
  hp s !! Z.to_nat (hs_idx st x) = Some x ∧ 0 <= hs_idx st x < Z.of_nat (hn s) ∧ hs_valid st x.
Proof.
  intros [Hn _ _ Hi] [i Hx]%list_elem_of_lookup.
  assert (Hlt := lookup_lt_Some _ _ _ Hx). unfold elems in *. rewrite length_take in Hlt.
  rewrite lookup_take_lt in Hx by lia. destruct (Hi i x ltac:(lia) Hx) as [? ->].
  rewrite Nat2Z.id. split_and!; [done|lia..|done].
Qed.

Lemma ordered_far st p n n' hole :
  heap_ordered st p n → (n' <= n)%nat → (n <= length p)%nat → (hole < n)%nat →
  far_ordered st p n' hole.
Proof.
  intros Ho Hn Hl Hh. split.
  - intros i pe x Hi _ _ Hp Hx. apply (Ho i); [lia|done..].
  - intros i pe x Hpos Hi Heq Hp Hx. destruct (lookup_some_lt p hole) as [y Hy]; [lia|].
    apply (kle_trans _ _ y); [apply (Ho hole); [lia|done..]|].
    apply (Ho i); [lia| |done]. by rewrite Heq.
Qed.

(** The first element of an ordered heap is a minimum. *)
Lemma ordered_root st p n r : heap_ordered st p n → (n <= length p)%nat →
  p !! 0%nat = Some r → ∀ i x, (i < n)%nat → p !! i = Some x → kle st r x.
Proof.
  intros Ho Hl Hr i. induction i as [i IH] using lt_wf_ind. intros x Hi Hx.
  destruct (decide (i = 0)%nat) as [->|]; [simplify_eq; apply kle_refl|].
  destruct (lookup_some_lt p (parent i)) as [pe Hpe]; [plia|].
  apply (kle_trans _ _ pe); [apply (IH (parent i)); [plia..|done]|].
  apply (Ho i); [lia|done..].
Qed.

(** Clearing the index of an event that left the heap keeps it well formed. *)
Lemma clear_idx_wf st p n a e :
  (n <= length p)%nat → Z.of_nat (length p) = a →
  heap_ordered st p n → idx_ok st p n → e ∉ take n p →
  heap_wf (hs_set_idx e (-1) st) (mk_heap p n a).
Proof.
  intros Hn Hl Ho Hi Hnin. split; simpl; [done|done|..].
  - intros i pe x ???. rewrite (kle_frame [e] st) by (apply set_idx_frame; set_solver).
    by apply (Ho i).
  - intros i x Hix Hx. rewrite hs_valid_set. destruct (Hi i x Hix Hx).
    rewrite hs_idx_set_ne; [done|]. intros <-. apply Hnin.
    by apply (elem_of_take_lookup _ _ i).
Qed.

(** Replacing slot [hole] by the last one drops exactly its event. *)
Lemma replace_by_last_perm p n hole e last :
  (hole < n)%nat → p !! hole = Some e → p !! n = Some last →
  e :: take n (<[hole:=last]> p) ≡ₚ take (S n) p.
Proof.
  intros Hh He Hlast. assert (Hl := lookup_lt_Some _ _ _ Hlast).
  rewrite <- (insert_swap_perm (take (S n) p) hole n e last)
    by (rewrite lookup_take_lt by lia; done).
  rewrite (take_S_r _ _ _ Hlast), insert_app_l by (rewrite length_take; lia).
  replace n with (length (<[hole:=last]> (take n p)) + 0)%nat at 2
    by (rewrite length_insert, length_take; lia).
  rewrite insert_app_r. simpl. rewrite <- Permutation_cons_append.
  by rewrite take_insert_lt by lia.
Qed.

(** The last step of a removal: the hole of [e] was filled with [last], or
    [e] was the last event itself. *)
Definition removed st s e (r : option (list evp * St)) : Prop :=
  ∃ p' st', r = Some (p', st') ∧
    let st'' := hs_set_idx e (-1) st' in
    let s' := mk_heap p' (hn s - 1) (ha s) in
    heap_wf st'' s' ∧ e :: elems s' ≡ₚ elems s ∧ hs_idx st'' e = -1 ∧
    store_frame (elems s) st st''.

Lemma remove_finish_last st s e :
  heap_wf st s → (0 < hn s)%nat → hp s !! (hn s - 1)%nat = Some e →
  removed st s e (set_slot (hp s) st (hn s - 1) e).
Proof.
  intros Hwf Hpos He. destruct (id Hwf) as [Hn Ha Ho Hi].
  set (n := (hn s - 1)%nat) in *. assert (Hhn : hn s = S n) by lia.
  destruct (Hi n e ltac:(lia) He) as [Hve Hie].
  pose proof (wf_NoDup _ _ Hwf) as Hnd. unfold set_slot.
  rewrite store_at_ok by lia. simpl. eexists _, _; split; [done|].
  rewrite (list_insert_id _ _ _ He). unfold elems in *; simpl. fold n.
  rewrite Hhn, (take_S_r _ _ _ He) in *.
  apply NoDup_app in Hnd as (_ & Hnd & _).
  split_and!.
  - apply clear_idx_wf; [lia|done|..].
    + intros i pe x ???. rewrite (kle_frame [e] st) by (apply set_idx_frame; set_solver).
      apply (Ho i); [lia|done..].
    + intros i x Hix Hx. rewrite hs_valid_set. destruct (Hi i x ltac:(lia) Hx).
      rewrite hs_idx_set_ne; [done|]. intros <-. lia.
    + intros ?. eapply Hnd; [done|set_solver].
  - by rewrite <- Permutation_cons_append.
  - apply hs_idx_set_eq. by apply hs_valid_set.
  - eapply (store_frame_trans [e]); [apply (set_idx_frame [e] st e); set_solver|
      apply set_idx_frame; set_solver|set_solver].
Qed.

Lemma remove_finish st s hole e last r :
  heap_wf st s → (hole < hn s - 1)%nat → hp s !! hole = Some e →
  hp s !! (hn s - 1)%nat = Some last →
  sifted st (hp s) (hn s - 1) hole last r → removed st s e r.
Proof.
  intros Hwf Hlt He Hlast (p' & st' & -> & Hl & Hp & Ho' & Hi' & Hf).
  destruct (id Hwf) as [Hn Ha Ho Hi].
  set (n := (hn s - 1)%nat) in *. assert (Hhn : hn s = S n) by lia.
  destruct (Hi hole e ltac:(lia) He) as [Hve Hie].
  assert (Hperm := replace_by_last_perm _ _ _ _ _ Hlt He Hlast).
  pose proof (wf_NoDup _ _ Hwf) as Hnd.
  eexists _, _; split; [done|]. unfold elems in *; simpl. fold n.
  rewrite Hhn, <- Hperm in *. split_and!.
  - apply clear_idx_wf; [lia|lia|done..|].
    rewrite <- Hp in Hnd. by apply NoDup_cons in Hnd as [? _].
  - by rewrite Hp.
  - apply hs_idx_set_eq. by destruct Hf as (_ & -> & _).
  - eapply store_frame_trans; [exact Hf|apply set_idx_frame; by left|].
    intros x [Hx|?]; [by right|done].
Qed.

(** Slots other than the hole of [e] when the last event replaces it. *)
Lemma remove_holed st s hole last :
  heap_wf st s → (hole < hn s - 1)%nat → hp s !! (hn s - 1)%nat = Some last →
  holed st (hp s) (hn s - 1) hole last.
Proof.
  intros [Hn _ _ Hi] Hh Hlast. destruct (Hi (hn s - 1)%nat last ltac:(lia) Hlast).
  split; [done|lia|done|]. intros i x Hi' Hne Hx.
  destruct (Hi i x ltac:(lia) Hx). split_and!; [done..|]. intros <-. lia.
Qed.

(** The sift that fills the hole of a removed event, whichever way it goes. *)
Lemma remove_sift st s hole e last :
  heap_wf st s → (hole < hn s - 1)%nat → hp s !! hole = Some e →
  hp s !! (hn s - 1)%nat = Some last →
  (∀ pe, (0 < hole)%nat → hp s !! parent hole = Some pe →
    min_heap_elem_greater st pe last = true →
    removed st s e (min_heap_shift_up_unconditional_ (hp s) st hole last)) ∧
  (below_parent st (hp s) hole last →
    removed st s e (min_heap_shift_down_ (hn s - 1) (hp s) st hole last)).
Proof.
  intros Hwf Hlt He Hlast. destruct (id Hwf) as [Hn Ha Ho Hi].
  assert (Hh := remove_holed _ _ _ _ Hwf Hlt Hlast).
  assert (Hfar := ordered_far st (hp s) (hn s) (hn s - 1) hole Ho ltac:(lia) Hn ltac:(lia)).
  split.
  - intros pe Hpos Hpe Hg. rewrite (shift_up_unconditional_eq _ _ _ _ pe) by done.
    apply (remove_finish _ _ hole _ last); [done..|].
    apply shift_up_loop_sifted; [lia..|done|done|].
    intros i x Hi' Heq Hx. apply (kle_trans _ _ pe); [by apply greater_true|].
    destruct Hfar as [_ Hfar]. by apply (Hfar i).
  - intros Hb. apply (remove_finish _ _ hole _ last); [done..|].
    apply shift_down_loop_sifted; [lia|done..].
Qed.

(** ** The operations *)

Lemma reserve_wf ok st s n' s' r :
  heap_wf st s → (n' = hn s + 1)%nat → min_heap_reserve_ ok s n' = (s', r) →
  (r = -1 ∧ s' = s ∧ ha s = Z.of_nat (hn s) ∧
    ok ((if ha s =? 0 then 8 else Z.max (u32 (ha s * 2)) (ha s + 1)) * 8) = false) ∨
  (r = 0 ∧ heap_wf st s' ∧ hn s' = hn s ∧ elems s' = elems s ∧ (hn s < length (hp s'))%nat).
Proof.
  intros [Hn Ha Ho Hi] -> Hr. unfold min_heap_reserve_ in Hr.
  destruct (Z.ltb_spec (ha s) (Z.of_nat (hn s + 1))) as [Hlt|Hge].
  2:{ simplify_eq. right. split_and!; [done|done|done|done|lia]. }
  assert (Hfull : ha s = Z.of_nat (hn s)) by lia.
  set (a := if negb (ha s =? 0) then u32 (ha s * 2) else 8) in Hr.
  set (a' := if a <? Z.of_nat (hn s + 1) then Z.of_nat (hn s + 1) else a) in Hr.
  assert (Ha' : Z.of_nat (hn s) + 1 <= a') by (subst a'; destruct (Z.ltb_spec a (Z.of_nat (hn s + 1))); lia).
  destruct (ok (a' * 8)) eqn:Hok; simpl in Hr; simplify_eq.
  - right. split_and!; [done| |done| |].
    + assert (Hlk : ∀ i, (i < hn s)%nat →
        resize (Z.to_nat a') NULL (hp s) !! i = hp s !! i).
      { intros i Hi'. rewrite lookup_resize by lia. done. }
      split; simpl; [rewrite length_resize; lia|rewrite length_resize; lia|..].
      * intros i pe x Hi' Hp Hx. rewrite Hlk in Hx, Hp by plia. by apply (Ho i).
      * intros i x Hi' Hx. rewrite Hlk in Hx by lia. by apply Hi.
    + unfold elems; simpl. by rewrite take_resize_le, resize_le by lia.
    + simpl. rewrite length_resize. lia.
  - left. split_and!; [done|done|done|]. rewrite <- Hok. f_equal. f_equal.
    subst a' a. destruct (Z.eqb_spec (ha s') 0); cbn [negb];
      [destruct (Z.ltb_spec 8 (Z.of_nat (hn s' + 1)))|
       destruct (Z.ltb_spec (u32 (ha s' * 2)) (Z.of_nat (hn s' + 1)))]; lia.
Qed.

(** Inserting into the slot after the last one. *)
Lemma insert_sift st s e :
  heap_wf st s → (hn s < length (hp s))%nat → hs_valid st e → e ∉ elems s →
  sifted st (hp s) (hn s + 1) (hn s) e (min_heap_shift_up_ (hp s) st (hn s) e).
Proof.
  intros [Hn Ha Ho Hi] Hlt Hv Hnin. apply shift_up_loop_sifted; [lia|intros; plia|..].
  - split; [lia|lia|done|]. intros i x Hi' Hne Hx.
    destruct (Hi i x ltac:(lia) Hx). split_and!; [done..|]. intros ->. apply Hnin.
    by apply (elem_of_take_lookup _ _ i); [lia|].
  - split; intros i pe x; [|intros; plia]. intros Hi' ? _. apply Ho. lia.
  - intros i x ??. plia.
Qed.

Lemma push_spec ok st s e :
  heap_wf st s → hs_valid st e → e ∉ elems s →
  (min_heap_push_ ok s st e = Some (s, st, -1) ∧ ha s = Z.of_nat (hn s) ∧
    ∃ sz, ok sz = false) ∨
  ∃ s' st', min_heap_push_ ok s st e = Some (s', st', 0) ∧
    heap_wf st' s' ∧ elems s' ≡ₚ e :: elems s ∧ store_frame (e :: elems s) st st'.
Proof.
  intros Hwf Hv Hnin. unfold min_heap_push_.
  destruct (min_heap_reserve_ ok s (hn s + 1)) as [s1 r] eqn:Hr.
  destruct (reserve_wf _ _ _ _ _ _ Hwf eq_refl Hr)
    as [(-> & -> & ? & Hok)|(-> & Hwf1 & Hn1 & He1 & Hl1)]; simpl; [by eauto|right].
  rewrite <- He1 in Hnin. rewrite <- Hn1 in Hl1.
  destruct (insert_sift st s1 e Hwf1 Hl1 Hv Hnin) as (p & st' & -> & Hl & Hp & Ho & Hi & Hf).
  simpl. rewrite Hn1 in *.
  assert (Htk : take (hn s + 1) (<[hn s:=e]> (hp s1)) ≡ₚ e :: elems s).
  { rewrite Nat.add_1_r, (take_S_r _ _ e), take_insert_ge by (done || by apply list_lookup_insert_eq).
    rewrite <- Permutation_cons_append. rewrite <- He1. unfold elems. by rewrite Hn1. }
  rewrite Htk in Hp, Hf. eexists _, _; split_and!; [done| |exact Hp|done].
  destruct Hwf1 as [? Ha1 _ _]. split; simpl; [lia|lia|done..].
Qed.

Lemma pop_spec st s :
  heap_wf st s → (0 < hn s)%nat →
  ∃ s' st' e, min_heap_pop_ s st = Some (s', st', e) ∧ heap_wf st' s' ∧
    e :: elems s' ≡ₚ elems s ∧ (∀ x, x ∈ elems s → kle st e x) ∧
    hs_idx st' e = -1 ∧ store_frame (elems s) st st'.
Proof.
  intros Hwf Hpos. destruct (id Hwf) as [Hn Ha Ho Hi]. unfold min_heap_pop_.
  destruct (Nat.eqb_spec (hn s) 0); [lia|].
  destruct (lookup_some_lt (hp s) 0) as [e He]; [lia|].
  destruct (lookup_some_lt (hp s) (hn s - 1)) as [last Hlast]; [lia|].
  assert (removed st s e (min_heap_shift_down_ (hn s - 1) (hp s) st 0 last))
    as (p' & st' & Hr & ? & ? & ? & ?).
  { destruct (decide (hn s = 1)%nat) as [H1|].
    - rewrite H1 in *. simpl in *. simplify_eq.
      pose proof (remove_finish_last st s e Hwf ltac:(lia)) as Hrm.
      rewrite H1 in Hrm. by apply Hrm.
    - eapply (remove_sift st s 0 e last); [done|lia|done|done|]. intros pe ?. lia. }
  rewrite He. cbn [mbind option_bind]. rewrite Hlast. cbn [mbind option_bind].
  rewrite Hr. cbn [mbind option_bind]. eexists _, _, _; split_and!; [done..| |done|done].
  intros x [i Hx]%list_elem_of_lookup. unfold elems in Hx.
  assert (Hlt := lookup_lt_Some _ _ _ Hx). rewrite length_take in Hlt.
  rewrite lookup_take_lt in Hx by lia. apply (ordered_root st (hp s) (hn s) e Ho Hn He i); [lia|done].
Qed.

(** The parent index computed with C's truncating division. *)
Lemma parent_quot i : (0 < i)%nat → Z.to_nat ((Z.of_nat i - 1) ÷ 2) = parent i.
Proof.
  intros. unfold parent. rewrite Z.quot_div_nonneg by lia.
  replace (Z.of_nat i - 1) with (Z.of_nat (i - 1)) by lia.
  change 2 with (Z.of_nat 2). by rewrite <- Nat2Z.inj_div, Nat2Z.id.
Qed.

(** The direction the removal of slot [hole] sifts [last] in. *)
Definition sift_up_first st p (idx : Z) last : option bool :=
  if idx >? 0 then pe ← p !! Z.to_nat ((idx - 1) ÷ 2); Some (min_heap_elem_greater st pe last)
  else Some false.

Lemma sift_up_first_spec st p n hole last :
  (hole < n <= length p)%nat →
  (∃ pe, sift_up_first st p (Z.of_nat hole) last = Some true ∧ (0 < hole)%nat ∧
    p !! parent hole = Some pe ∧ min_heap_elem_greater st pe last = true) ∨
  (sift_up_first st p (Z.of_nat hole) last = Some false ∧ below_parent st p hole last).
Proof.
  intros Hh. unfold sift_up_first. destruct (Z.gtb_spec (Z.of_nat hole) 0).
  - rewrite parent_quot by lia.
    destruct (lookup_some_lt p (parent hole)) as [pe Hpe]; [plia|].
    rewrite Hpe. cbn [mbind option_bind].
    destruct (min_heap_elem_greater st pe last) eqn:Hg.
    + left. exists pe. split_and!; [done|lia|done|done].
    + right. split; [done|]. intros pe' ? Hpe'. simplify_eq. by apply greater_false.
  - right. split; [done|]. intros pe ?. lia.
Qed.

Lemma remove_at st s hole e last :
  heap_wf st s → (hole < hn s)%nat → hp s !! hole = Some e →
  hp s !! (hn s - 1)%nat = Some last →
  ∃ up, sift_up_first st (hp s) (Z.of_nat hole) last = Some up ∧
    removed st s e (if (up : bool) then min_heap_shift_up_unconditional_ (hp s) st hole last
                    else min_heap_shift_down_ (hn s - 1) (hp s) st hole last).
Proof.
  intros Hwf Hlt He Hlast. destruct (id Hwf) as [Hn Ha Ho Hi].
  assert (Hrs := remove_sift st s hole e last Hwf).
  destruct (sift_up_first_spec st (hp s) (hn s) hole last ltac:(lia))
    as [(pe & Heq & Hpos & Hpe & Hg)|[Heq Hb]]; rewrite Heq; eexists; (split; [done|]);
    destruct (decide (hole = hn s - 1)%nat) as [->|Hne]; simplify_eq.
  - exfalso. assert (Hle := Ho (hn s - 1)%nat pe e ltac:(lia) Hpe He).
    apply greater_false in Hle. congruence.
  - by eapply Hrs; [lia|..].
  - unfold min_heap_shift_down_. cbn [shift_down_loop].
    destruct (Nat.ltb_spec (hn s - 1) (2 * (hn s - 1 + 1))); [|lia].
    by apply remove_finish_last; [|lia|].
  - by apply Hrs; [lia|..].
Qed.

Lemma erase_spec st s e :
  heap_wf st s → e ∈ elems s →
  ∃ s' st', min_heap_erase_ s st e = Some (s', st', 0) ∧ heap_wf st' s' ∧
    e :: elems s' ≡ₚ elems s ∧ hs_idx st' e = -1 ∧ store_frame (elems s) st st'.
Proof.
  intros Hwf Hin. destruct (id Hwf) as [Hn _ _ _].
  destruct (elems_lookup _ _ _ Hwf Hin) as (He & Hidx & Hv).
  destruct (lookup_some_lt (hp s) (hn s - 1)) as [last Hlast]; [lia|].
  destruct (remove_at st s (Z.to_nat (hs_idx st e)) e last) as (up & Hup & Hrem);
    [done|lia|done|done|]. rewrite Z2Nat.id in Hup by lia.
  destruct Hrem as (p' & st' & Hr & ? & ? & ? & ?).
  unfold min_heap_erase_. destruct (Z.eqb_spec (hs_idx st e) (-1)); [lia|]. cbn [negb].
  destruct (Nat.eqb_spec (hn s) 0); [lia|]. rewrite Hlast. cbn [mbind option_bind].
  unfold sift_up_first in Hup. rewrite Hup. cbn [mbind option_bind].
  rewrite Hr. cbn [mbind option_bind]. by eauto 10.
Qed.

(** [min_heap_adjust_] after the timeout of [e] changed in the store: [st0]
    is the store before the change. *)
Lemma adjust_spec ok st0 st s e :
  heap_wf st0 s → e ∈ elems s →
  (∀ x, x ≠ e → hs_timeout st x = hs_timeout st0 x) →
  (∀ x, hs_valid st x ↔ hs_valid st0 x) → (∀ x, hs_idx st x = hs_idx st0 x) →
  ∃ s' st', min_heap_adjust_ ok s st e = Some (s', st', 0) ∧ heap_wf st' s' ∧
    elems s' ≡ₚ elems s ∧ store_frame (elems s) st st'.
Proof.
  intros Hwf Hin Ht Hvv Hidx'. destruct (id Hwf) as [Hn Ha Ho Hi].
  destruct (elems_lookup _ _ _ Hwf Hin) as (He & Hidx & Hv).
  unfold min_heap_adjust_. rewrite Hidx'.
  destruct (Z.eqb_spec (hs_idx st0 e) (-1)); [lia|].
  set (hole := Z.to_nat (hs_idx st0 e)) in *.
  assert (Hie : hs_idx st0 e = Z.of_nat hole) by lia. rewrite Hie in *. clearbody hole.
  assert (Hne : ∀ i x, (i < hn s)%nat → i ≠ hole → hp s !! i = Some x → x ≠ e).
  { intros i x Hix Hih Hx ->. destruct (Hi i e Hix Hx). lia. }
  assert (Hh : holed st (hp s) (hn s) hole e).
  { split; [lia|done|by apply Hvv|]. intros i x Hix Hih Hx. destruct (Hi i x Hix Hx).
    rewrite Hvv, Hidx'. split_and!; [done..|]. by eapply Hne. }
  assert (Hfar : far_ordered st (hp s) (hn s) hole).
  { destruct (ordered_far st0 _ _ (hn s) hole Ho ltac:(lia) Hn ltac:(lia)) as [Hf1 Hf2].
    split.
    - intros i pe x Hix Hih Hpi Hp Hx. unfold kle.
      rewrite (Ht pe) by (eapply (Hne (parent i)); [plia|done|done]).
      rewrite (Ht x) by (by eapply (Hne i); [lia|..]). by apply (Hf1 i).
    - intros i pe x Hpos Hix Hpi Hp Hx. unfold kle.
      rewrite (Ht pe) by (eapply (Hne (parent hole)); [plia|plia|done]).
      rewrite (Ht x) by (eapply (Hne i); [lia|plia|done]). by apply (Hf2 i). }
  assert (∃ up, sift_up_first st (hp s) (Z.of_nat hole) e = Some up ∧
    sifted st (hp s) (hn s) hole e
      (if (up : bool) then min_heap_shift_up_unconditional_ (hp s) st hole e
       else min_heap_shift_down_ (hn s) (hp s) st hole e)) as (up & Hup & Hs).
  { destruct (sift_up_first_spec st (hp s) (hn s) hole e ltac:(lia))
      as [(pe & Heq & Hpos & Hpe & Hg)|[Heq Hb]]; rewrite Heq; eexists; (split; [done|]).
    - rewrite (shift_up_unconditional_eq _ _ _ _ pe) by done.
      apply shift_up_loop_sifted; [lia..|done|done|].
      intros i x Hix Heqi Hx. apply (kle_trans _ _ pe); [by apply greater_true|].
      destruct Hfar as [_ Hfar]. by apply (Hfar i).
    - apply shift_down_loop_sifted; [lia|done..]. }
  unfold sift_up_first in Hup. rewrite Hup. cbn [mbind option_bind].
  unfold sifted in Hs. rewrite (list_insert_id _ _ _ He) in Hs.
  destruct Hs as (p' & st' & Hr & Hl & Hp & Ho' & Hi' & Hf).
  rewrite Hr. cbn [mbind option_bind]. eexists _, _; split_and!; [done| |done|done].
  split; simpl; [lia|lia|done..].
Qed.
End wf.

(** ** A concrete store: events as (timeout, index) cells *)

Definition cells := gmap evp (timeval * Z).

#[export] Instance cells_store : HeapStore cells := {
  hs_valid m e := is_Some ((m : gmap evp (timeval * Z)) !! e);
  hs_timeout m e := from_option fst inhabitant ((m : gmap evp (timeval * Z)) !! e);
  hs_idx m e := from_option snd (-1) ((m : gmap evp (timeval * Z)) !! e);
  hs_set_idx e i m := alter (λ c, (c.1, i)) e (m : gmap evp (timeval * Z))
}.

#[export] Instance cells_laws : HeapStoreLaws cells.
Proof.
  split; unfold hs_valid, hs_timeout, hs_idx, hs_set_idx, cells_store, cells; intros *.
  - rewrite lookup_alter. case_decide; subst; [|done]. by destruct (s !! e').
  - rewrite lookup_alter. case_decide; subst; [|done]. by destruct (s !! e').
  - intros [c Hc]. by rewrite lookup_alter_eq, Hc.
  - intros Hne. by rewrite lookup_alter_ne.
Qed.

(** ** The properties of the timer heap *)

Section properties.
Context {St : Type} `{HeapStoreLaws St}.

(** [min_heap_push_] of an event that is not in the heap either fails with
    -1 and changes nothing (only when the array is full and [mm_realloc]
    fails), or returns 0, keeps the heap well formed (ordered, every event's
    [min_heap_idx] naming its slot) and adds exactly that event; it never
    accesses the array out of bounds and touches no other event. *)
Theorem min_heap_push_correct ok (st : St) s e :
  heap_wf st s → hs_valid st e → e ∉ elems s →
  (min_heap_push_ ok s st e = Some (s, st, -1) ∧ ha s = Z.of_nat (hn s) ∧
    ∃ sz, ok sz = false) ∨
  ∃ s' st', min_heap_push_ ok s st e = Some (s', st', 0) ∧
    heap_wf st' s' ∧ elems s' ≡ₚ e :: elems s ∧ store_frame (e :: elems s) st st'.
Proof. apply push_spec. Qed.

(** [min_heap_pop_] on a non-empty well-formed heap removes exactly one
    event, whose timeout is minimal among all events of the heap, marks it as
    outside the heap (index -1) and keeps the heap well formed. *)
Theorem min_heap_pop_min (st : St) s :
  heap_wf st s → (0 < hn s)%nat →
  ∃ s' st' e, min_heap_pop_ s st = Some (s', st', e) ∧ heap_wf st' s' ∧
    e :: elems s' ≡ₚ elems s ∧ (∀ x, x ∈ elems s → kle st e x) ∧
    hs_idx st' e = -1 ∧ store_frame (elems s) st st'.
Proof. apply pop_spec. Qed.

(** [min_heap_erase_] of any event of the heap, wherever its slot is,
    removes exactly that event, keeps the heap well formed whether the last
    event has to move up or down, and resets the index of the event to -1. *)
Theorem min_heap_erase_correct (st : St) s e :
  heap_wf st s → e ∈ elems s →
  ∃ s' st', min_heap_erase_ s st e = Some (s', st', 0) ∧ heap_wf st' s' ∧
    e :: elems s' ≡ₚ elems s ∧ hs_idx st' e = -1 ∧ store_frame (elems s) st st'.
Proof. apply erase_spec. Qed.

(** After the timeout of an event of the heap changed to any value,
    [min_heap_adjust_] makes the heap well formed again without losing or
    adding an event. *)
Theorem min_heap_adjust_correct ok (st0 st : St) s e :
  heap_wf st0 s → e ∈ elems s →
  (∀ x, x ≠ e → hs_timeout st x = hs_timeout st0 x) →
  (∀ x, hs_valid st x ↔ hs_valid st0 x) → (∀ x, hs_idx st x = hs_idx st0 x) →
  ∃ s' st', min_heap_adjust_ ok s st e = Some (s', st', 0) ∧ heap_wf st' s' ∧
    elems s' ≡ₚ elems s ∧ store_frame (elems s) st st'.
Proof. apply adjust_spec. Qed.
End properties.

(** ** Witnesses *)

Definition ex_cells : cells :=
  list_to_map [(1, (mk_timeval 5 0, 0)); (2, (mk_timeval 7 3, 1)); (3, (mk_timeval 6 0, 2));
               (4, (mk_timeval 1 2, -1))].
Definition ex_cells' : cells := <[2 := (mk_timeval 0 1, 1)]> (ex_cells : gmap evp (timeval * Z)).
Definition ex_heap : min_heap_t := mk_heap [1; 2; 3; 0; 0; 0; 0; 0] 3 8.

Lemma ex_heap_wf : heap_wf ex_cells ex_heap.
Proof.
  split; simpl; [lia|lia|..].
  - intros i pe x Hi Hp Hx. destruct i as [|[|[|i]]]; [lia|..|lia]; vm_compute in Hp, Hx;
      simplify_eq; unfold kle; apply (proj1 (timercmp_le _ _)); vm_compute; reflexivity.
  - intros i x Hi Hx. destruct i as [|[|[|i]]]; [..|lia]; vm_compute in Hx; simplify_eq;
      (split; [by eexists; vm_compute|by vm_compute]).
Qed.

Lemma min_heap_push_witness :
  ∃ s' st', min_heap_push_ (λ _, true) ex_heap ex_cells 4 = Some (s', st', 0) ∧
    heap_wf st' s' ∧ elems s' ≡ₚ [4; 1; 2; 3].
Proof.
  destruct (min_heap_push_correct (λ _, true) ex_cells ex_heap 4) as [(_ & _ & sz & [=])|Hok].
  - exact ex_heap_wf.
  - eexists; vm_compute; reflexivity.
  - vm_compute. intros Hin. repeat (apply elem_of_cons in Hin as [[=]|Hin]).
    by apply not_elem_of_nil in Hin.
  - destruct Hok as (s' & st' & ? & ? & ? & _). by exists s', st'.
Defined.

Lemma min_heap_pop_witness :
  ∃ s' st' e, min_heap_pop_ ex_heap ex_cells = Some (s', st', e) ∧ heap_wf st' s'.
Proof.
  destruct (min_heap_pop_min ex_cells ex_heap ex_heap_wf) as (s' & st' & e & ? & ? & _).
  - simpl. lia.
  - by exists s', st', e.
Defined.

Lemma min_heap_erase_witness :
  ∃ s' st', min_heap_erase_ ex_heap ex_cells 2 = Some (s', st', 0) ∧ heap_wf st' s' ∧
    2 :: elems s' ≡ₚ [1; 2; 3].
Proof.
  destruct (min_heap_erase_correct ex_cells ex_heap 2 ex_heap_wf)
    as (s' & st' & ? & ? & ? & _).
  - vm_compute. right. left.
  - by exists s', st'.
Defined.

Lemma min_heap_adjust_witness :
  ∃ s' st', min_heap_adjust_ (λ _, true) ex_heap ex_cells' 2 = Some (s', st', 0) ∧
    heap_wf st' s' ∧ elems s' ≡ₚ [1; 2; 3].
Proof.
  destruct (min_heap_adjust_correct (λ _, true) ex_cells ex_cells' ex_heap 2 ex_heap_wf)
    as (s' & st' & ? & ? & ? & _).
  - vm_compute. right. left.
  - intros x Hx. unfold hs_timeout, cells_store, ex_cells'. by rewrite lookup_insert_ne.
  - intros x. unfold hs_valid, cells_store, ex_cells'.
    destruct (decide (x = 2)) as [->|]; [|by rewrite lookup_insert_ne].
    rewrite lookup_insert_eq. split; intros _; eexists; vm_compute; reflexivity.
  - intros x. unfold hs_idx, cells_store, ex_cells'.
    destruct (decide (x = 2)) as [->|]; [|by rewrite lookup_insert_ne].
    rewrite lookup_insert_eq. vm_compute. reflexivity.
  - by exists s', st'.
Defined.
