(* ===== verification/EvMap.v ===== *)
(** * The maps from descriptors and signals to events (evmap.c)

    For every file descriptor the map keeps the list of the added events and
    counts how many of them wait for reading, writing and closing; the backend
    is told only when a count leaves or reaches zero.  Signals have a list per
    signal number.

    The descriptors index an array of entries (the configuration without
    [EVMAP_USE_HT]).  A backend is a [struct eventop]: the class [EventOp] with
    its [add] and [del], its per-descriptor data [F] ([fdinfo]) and its own
    state [B]. *)

From S2P Require Import Prelude TimeVal MinHeap.

(** Event flags of include/event2/event.h. *)
Abbreviation EV_TIMEOUT := 0x01.
Abbreviation EV_READ := 0x02.
Abbreviation EV_WRITE := 0x04.
Abbreviation EV_SIGNAL := 0x08.
Abbreviation EV_PERSIST := 0x10.
Abbreviation EV_ET := 0x20.
Abbreviation EV_FINALIZE := 0x40.
Abbreviation EV_CLOSED := 0x80.

(** ** Backends *)

(** [op_add b fd old events fdinfo] and [op_del] return the new backend state,
    the new fdinfo and 0 or -1. *)
Class EventOp (B F : Type) := {
  fdinfo0 : F;
  op_add : B → Z → Z → Z → F → B * F * Z;
  op_del : B → Z → Z → Z → F → B * F * Z
}.

Record evmap_io (F : Type) := mk_io {
  io_events : list evp;
  nread : Z;
  nwrite : Z;
  nclose : Z;
  io_fdinfo : F
}.
Arguments mk_io {F}.
Arguments io_events {F}.
Arguments nread {F}.
Arguments nwrite {F}.
Arguments nclose {F}.
Arguments io_fdinfo {F}.

(** [struct event_io_map]: the entries, [None] for a NULL pointer; [nentries]
    is the length. *)
Abbreviation io_map F := (list (option (evmap_io F))).
(** [struct event_signal_map] with [struct evmap_signal] entries. *)
Abbreviation signal_map := (list (option (list evp))).

Section evmap.
Context {B F : Type} `{EventOp B F}.
(** The [ev_events] field of the events in memory. *)
Variable ev_events : evp → Z.
(** Whether [mm_realloc] and [mm_calloc] succeed on a size. *)
Variable mm_realloc_ok mm_calloc_ok : Z → bool.
(** [event_debug_mode_on_] *)
Variable debug_mode : bool.
(** [sizeof(struct evmap_io) + fdinfo_len] and [sizeof(struct evmap_signal)] *)
Variable sizeof_io sizeof_signal : Z.

(** The doubling loop on [int]s.  [None]: the shift overflows, the loop does
    not end. *)
Fixpoint make_space_loop (fuel : nat) (nentries slot : Z) : option Z :=
  if nentries <=? slot then
    match fuel with
    | O => None
    | S fuel => make_space_loop fuel (i32 (nentries * 2)) slot
    end
  else Some nentries.

(** The sizes are [int]s.  [None]: the loop does not end, or the product overflows.
    [Some None]: -1. *)
Definition evmap_make_space {E} (map : list (option E)) (slot msize : Z)
    : option (option (list (option E))) :=
  let n := Z.of_nat (length map) in
  if n <=? slot then
    nentries ← make_space_loop 64 (if negb (n =? 0) then n else 32) slot;
    if INT_MAX <? nentries * msize then None
    else if negb (mm_realloc_ok (nentries * msize)) then Some None
    else Some (Some (resize (Z.to_nat nentries) None map))
  else Some (Some map).

Definition evmap_io_init : evmap_io F := mk_io [] 0 0 0 fdinfo0.

Definition old_mask (c : evmap_io F) : Z :=
  let old := 0 in
  let old := if negb (nread c =? 0) then Z.lor old EV_READ else old in
  let old := if negb (nwrite c =? 0) then Z.lor old EV_WRITE else old in
  if negb (nclose c =? 0) then Z.lor old EV_CLOSED else old.

(** One of the three counters: the new count and the new [res]. *)
Definition incr_count (events bit n res : Z) : Z * Z :=
  if events &? bit then
    (n + 1, if n + 1 =? 1 then Z.lor res bit else res)
  else (n, res).

Definition decr_count (events bit n res : Z) : option (Z * Z) :=
  if events &? bit then
    ASSERT (0 <=? n - 1) ;;
    Some (n - 1, if n - 1 =? 0 then Z.lor res bit else res)
  else Some (n, res).

(** The part of [evmap_io_add_] after the slot was found: the new context
    (unless the result is -1) and the backend. *)
Definition io_add_ctx (be : B) (c : evmap_io F) (fd : Z) (ev : evp)
    : evmap_io F * B * Z :=
  let old := old_mask c in
  let '(nr, res) := incr_count (ev_events ev) EV_READ (nread c) 0 in
  let '(nw, res) := incr_count (ev_events ev) EV_WRITE (nwrite c) res in
  let '(nc, res) := incr_count (ev_events ev) EV_CLOSED (nclose c) res in
  if (0xffff <? nr) || (0xffff <? nw) || (0xffff <? nc) then (c, be, -1) else
  if debug_mode && match io_events c with
     | old_ev :: _ =>
       negb (Z.land (ev_events old_ev) EV_ET =? Z.land (ev_events ev) EV_ET)
     | [] => false end
  then (c, be, -1) else
  if negb (res =? 0) then
    let '(be, fi, r) :=
      op_add be fd old (Z.lor (Z.land (ev_events ev) EV_ET) res) (io_fdinfo c) in
    if r =? -1 then (mk_io (io_events c) (nread c) (nwrite c) (nclose c) fi, be, -1)
    else (mk_io (ev :: io_events c) (u16 nr) (u16 nw) (u16 nc) fi, be, 1)
  else (mk_io (ev :: io_events c) (u16 nr) (u16 nw) (u16 nc) (io_fdinfo c), be, 0).

Definition evmap_io_add_ (be : B) (io : io_map F) (fd : Z) (ev : evp)
    : option (io_map F * B * Z) :=
  if fd <? 0 then Some (io, be, 0) else
  sp ← evmap_make_space io fd 8;
  match sp with
  | None => Some (io, be, -1)
  | Some io =>
    slot ← io !! Z.to_nat fd;
    match slot with
    | Some c =>
      let '(c, be, r) := io_add_ctx be c fd ev in
      Some (<[Z.to_nat fd := Some c]> io, be, r)
    | None =>
      if negb (mm_calloc_ok sizeof_io) then Some (io, be, -1) else
      let '(c, be, r) := io_add_ctx be evmap_io_init fd ev in
      Some (<[Z.to_nat fd := Some c]> io, be, r)
    end
  end.

Definition io_del_ctx (be : B) (c : evmap_io F) (fd : Z) (ev : evp)
    : option (evmap_io F * B * Z) :=
  let old := old_mask c in
  '(nr, res) ← decr_count (ev_events ev) EV_READ (nread c) 0;
  '(nw, res) ← decr_count (ev_events ev) EV_WRITE (nwrite c) res;
  '(nc, res) ← decr_count (ev_events ev) EV_CLOSED (nclose c) res;
  let '(be, fi, retval) :=
    if negb (res =? 0) then
      let '(be, fi, r) := op_del be fd old res (io_fdinfo c) in
      (be, fi, if r =? -1 then -1 else 1)
    else (be, io_fdinfo c, 0) in
  evs ← unlink ev (io_events c);
  Some (mk_io evs (u16 nr) (u16 nw) (u16 nc) fi, be, retval).

Definition evmap_io_del_ (be : B) (io : io_map F) (fd : Z) (ev : evp)
    : option (io_map F * B * Z) :=
  if fd <? 0 then Some (io, be, 0) else
  if Z.of_nat (length io) <=? fd then Some (io, be, -1) else
  slot ← io !! Z.to_nat fd;
  c ← slot;
  '(c, be, r) ← io_del_ctx be c fd ev;
  Some (<[Z.to_nat fd := Some c]> io, be, r).

(** The events [evmap_io_active_] makes active, with the result of each. *)
Definition evmap_io_active_ (io : io_map F) (fd events : Z) : list (evp * Z) :=
  if (fd <? 0) || (Z.of_nat (length io) <=? fd) then [] else
  match io !! Z.to_nat fd with
  | Some (Some c) =>
    (λ ev, (ev, Z.land (ev_events ev) events)) <$>
      filter (λ ev, ev_events ev &? events = true) (io_events c)
  | _ => []
  end.

(** ** Signals.  [evsig] is the backend used for signals. *)
Context {BS : Type}.
Variable sig_add sig_del : BS → Z → BS * Z.

(** A negative signal number indexes before the array: [None]. *)
Definition evmap_signal_add_ (be : BS) (map : signal_map) (sig : Z) (ev : evp)
    : option (signal_map * BS * Z) :=
  if sig <? 0 then None else
  sp ← evmap_make_space map sig 8;
  match sp with
  | None => Some (map, be, -1)
  | Some map =>
    slot ← map !! Z.to_nat sig;
    if bool_decide (slot = None) && negb (mm_calloc_ok sizeof_signal)
    then Some (map, be, -1) else
    let evs := default [] slot in
    let map := <[Z.to_nat sig := Some evs]> map in
    let '(be, r) := match evs with [] => sig_add be sig | _ => (be, 0) end in
    if r =? -1 then Some (map, be, -1)
    else Some (<[Z.to_nat sig := Some (ev :: evs)]> map, be, 1)
  end.

Definition evmap_signal_del_ (be : BS) (map : signal_map) (sig : Z) (ev : evp)
    : option (signal_map * BS * Z) :=
  if Z.of_nat (length map) <=? sig then Some (map, be, -1) else
  if sig <? 0 then None else
  slot ← map !! Z.to_nat sig;
  evs ← slot;
  evs ← unlink ev evs;
  let map := <[Z.to_nat sig := Some evs]> map in
  match evs with
  | [] => let '(be, r) := sig_del be sig in
          Some (map, be, if r =? -1 then -1 else 1)
  | _ => Some (map, be, 1)
  end.

Definition evmap_signal_active_ (map : signal_map) (sig : Z) : list evp :=
  if (sig <? 0) || (Z.of_nat (length map) <=? sig) then [] else
  match map !! Z.to_nat sig with
  | Some (Some evs) => evs
  | _ => []
  end.
End evmap.

(** ** Requested events

    The events a descriptor must be watched for: the disjunction of what its
    added events wait for. *)

Abbreviation EV_RWC := 0x86.

Section counts.
Variable ev_events : evp → Z.

Fixpoint wanted (evs : list evp) : Z :=
  match evs with
  | [] => 0
  | ev :: evs => Z.lor (Z.land (ev_events ev) EV_RWC) (wanted evs)
  end.

Definition count_bit (bit : Z) (evs : list evp) : Z :=
  Z.of_nat (length (filter (λ ev, ev_events ev &? bit = true) evs)).

Lemma count_bit_cons bit ev evs :
  count_bit bit (ev :: evs) = (if ev_events ev &? bit then 1 else 0) + count_bit bit evs.
Proof.
  unfold count_bit. rewrite filter_cons. case_decide as Hd.
  - rewrite Hd. simpl. lia.
  - apply not_true_is_false in Hd. rewrite Hd. done.
Qed.

Lemma count_bit_nonneg bit evs : 0 <= count_bit bit evs.
Proof. unfold count_bit. lia. Qed.

#[export] Instance count_bit_perm bit : Proper ((≡ₚ) ==> (=)) (count_bit bit).
Proof. intros l l' Hl. unfold count_bit. by rewrite Hl. Qed.

Lemma count_bit_unlink bit ev evs : NoDup evs → ev ∈ evs →
  count_bit bit (filter (.≠ ev) evs)
    = count_bit bit evs - (if ev_events ev &? bit then 1 else 0).
Proof.
  intros Hnd Hin. rewrite (filter_ne_perm ev evs) at 2 by done.
  rewrite count_bit_cons. lia.
Qed.

(** The mask with the given bits. *)
Definition rwc (r w c : bool) : Z :=
  Z.lor (Z.lor (if r then EV_READ else 0) (if w then EV_WRITE else 0))
        (if c then EV_CLOSED else 0).

Lemma land_rwc x : Z.land x EV_RWC = rwc (x &? EV_READ) (x &? EV_WRITE) (x &? EV_CLOSED).
Proof.
  change EV_RWC with (Z.lor (Z.lor (2 ^ 1) (2 ^ 2)) (2 ^ 7)).
  rewrite !Z.land_lor_distr_r, !land_flag by lia. done.
Qed.

Lemma rwc_lor r w c r' w' c' :
  Z.lor (rwc r w c) (rwc r' w' c') = rwc (r || r') (w || w') (c || c').
Proof. by destruct r, w, c, r', w', c'. Qed.

Lemma wanted_counts evs :
  wanted evs = rwc (0 <? count_bit EV_READ evs) (0 <? count_bit EV_WRITE evs)
                   (0 <? count_bit EV_CLOSED evs).
Proof.
  induction evs as [|ev evs IH]; [done|]. cbn [wanted].
  rewrite IH, land_rwc, rwc_lor, !count_bit_cons.
  pose proof (count_bit_nonneg EV_READ evs). pose proof (count_bit_nonneg EV_WRITE evs).
  pose proof (count_bit_nonneg EV_CLOSED evs).
  f_equal; case_match; simpl; rewrite ?Z.add_0_l; try done; symmetry; apply Z.ltb_lt; lia.
Qed.
End counts.

(** ** The invariant of the map *)

Section invariant.
Context {B F : Type} `{EventOp B F}.
Variable ev_events : evp → Z.

(** What [evmap_io_check_integrity_fn] verifies of an entry, and the bounds
    of its 16-bit counters. *)
Record io_ok (c : evmap_io F) : Prop := {
  io_nodup : NoDup (io_events c);
  io_nread : nread c = count_bit ev_events EV_READ (io_events c);
  io_nwrite : nwrite c = count_bit ev_events EV_WRITE (io_events c);
  io_nclose : nclose c = count_bit ev_events EV_CLOSED (io_events c);
  io_bound : nread c <= 0xffff ∧ nwrite c <= 0xffff ∧ nclose c <= 0xffff
}.

Definition map_ok (io : io_map F) : Prop :=
  ∀ i c, io !! i = Some (Some c) → io_ok c.

(** The events added for a descriptor. *)
Definition evs_at (io : io_map F) (fd : Z) : list evp :=
  if fd <? 0 then [] else
  match io !! Z.to_nat fd with Some (Some c) => io_events c | _ => [] end.

Lemma old_mask_wanted c : io_ok c → old_mask c = wanted ev_events (io_events c).
Proof.
  intros [_ Hr Hw Hc _]. rewrite wanted_counts, <- Hr, <- Hw, <- Hc. unfold old_mask.
  pose proof (count_bit_nonneg ev_events EV_READ (io_events c)).
  pose proof (count_bit_nonneg ev_events EV_WRITE (io_events c)).
  pose proof (count_bit_nonneg ev_events EV_CLOSED (io_events c)).
  destruct (Z.eqb_spec (nread c) 0), (Z.ltb_spec 0 (nread c)); try lia;
  destruct (Z.eqb_spec (nwrite c) 0), (Z.ltb_spec 0 (nwrite c)); try lia;
  destruct (Z.eqb_spec (nclose c) 0), (Z.ltb_spec 0 (nclose c)); try lia; done.
Qed.

(** The bits that an added event turns on. *)
Definition new_bits (evs : list evp) (ev : evp) : Z :=
  Z.land (Z.land (ev_events ev) EV_RWC) (Z.lnot (wanted ev_events evs)).

Lemma new_bits_rwc c ev : io_ok c →
  new_bits (io_events c) ev =
    rwc ((ev_events ev &? EV_READ) && (nread c =? 0))
        ((ev_events ev &? EV_WRITE) && (nwrite c =? 0))
        ((ev_events ev &? EV_CLOSED) && (nclose c =? 0)).
Proof.
  intros Hok. unfold new_bits. rewrite <- (old_mask_wanted c Hok), land_rwc. unfold old_mask.
  destruct (nread c =? 0), (nwrite c =? 0), (nclose c =? 0),
    (ev_events ev &? EV_READ), (ev_events ev &? EV_WRITE), (ev_events ev &? EV_CLOSED);
    reflexivity.
Qed.

(** The three counters of [evmap_io_add_]. *)
Lemma incr_counts c ev : io_ok c → ev ∉ io_events c →
  ∃ nr nw nc, (let '(nr, res) := incr_count (ev_events ev) EV_READ (nread c) 0 in
    let '(nw, res) := incr_count (ev_events ev) EV_WRITE (nwrite c) res in
    let '(nc, res) := incr_count (ev_events ev) EV_CLOSED (nclose c) res in
    (nr, nw, nc, res)) = (nr, nw, nc, new_bits (io_events c) ev) ∧
  nr = count_bit ev_events EV_READ (ev :: io_events c) ∧
  nw = count_bit ev_events EV_WRITE (ev :: io_events c) ∧
  nc = count_bit ev_events EV_CLOSED (ev :: io_events c).
Proof.
  intros Hok Hnin. rewrite new_bits_rwc by done. destruct (id Hok) as [_ Hr Hw Hc _].
  rewrite !count_bit_cons, <- Hr, <- Hw, <- Hc. unfold incr_count.
  replace (nread c + 1 =? 1) with (nread c =? 0) by lia.
  replace (nwrite c + 1 =? 1) with (nwrite c =? 0) by lia.
  replace (nclose c + 1 =? 1) with (nclose c =? 0) by lia.
  destruct (ev_events ev &? EV_READ), (ev_events ev &? EV_WRITE), (ev_events ev &? EV_CLOSED);
    eexists _, _, _; (split; [|split_and!]);
    try (destruct (nread c =? 0), (nwrite c =? 0), (nclose c =? 0); reflexivity); lia.
Qed.

Lemma io_ok_intro evs nr nw nc fi :
  NoDup evs → nr = count_bit ev_events EV_READ evs → nw = count_bit ev_events EV_WRITE evs →
  nc = count_bit ev_events EV_CLOSED evs → nr <= 0xffff → nw <= 0xffff → nc <= 0xffff →
  io_ok (mk_io evs (u16 nr) (u16 nw) (u16 nc) fi).
Proof.
  intros Hnd -> -> -> Hr Hw Hc.
  pose proof (count_bit_nonneg ev_events EV_READ evs).
  pose proof (count_bit_nonneg ev_events EV_WRITE evs).
  pose proof (count_bit_nonneg ev_events EV_CLOSED evs).
  rewrite !wrap_small by lia. by split.
Qed.

(** How adding [ev] to a descriptor with events [evs] deals with the backend:
    not at all when the bits of [ev] are already watched or an error came
    first, otherwise one [add] of exactly the missing bits. *)
Definition add_outcome be (evs : list evp) fd ev be' (r : Z) : Prop :=
  let nb := new_bits evs ev in
  (be' = be ∧ (r = -1 ∨ (r = 0 ∧ nb = 0))) ∨
  ∃ fi fi' rb, nb ≠ 0 ∧
    op_add be fd (wanted ev_events evs) (Z.lor (Z.land (ev_events ev) EV_ET) nb) fi
      = (be', fi', rb) ∧
    r = (if rb =? -1 then -1 else 1).

Lemma io_add_ctx_spec dbg be c fd ev : io_ok c → ev ∉ io_events c →
  ∃ c' be' r, io_add_ctx ev_events dbg be c fd ev = (c', be', r) ∧ io_ok c' ∧
    io_events c' = (if r =? -1 then io_events c else ev :: io_events c) ∧
    add_outcome be (io_events c) fd ev be' r.
Proof.
  intros Hok Hnin. unfold io_add_ctx, add_outcome. set (nb := new_bits _ _).
  destruct (incr_counts c ev Hok Hnin) as (nr & nw & nc & Heq & Hr & Hw & Hc).
  fold nb in Heq. clearbody nb.
  destruct (incr_count _ EV_READ _ 0) as [nr' res1].
  destruct (incr_count _ EV_WRITE _ res1) as [nw' res2].
  destruct (incr_count _ EV_CLOSED _ res2) as [nc' res3].
  injection Heq as -> -> -> ->. rewrite (old_mask_wanted c Hok).
  destruct ((0xffff <? nr) || (0xffff <? nw) || (0xffff <? nc)) eqn:Hbig.
  { eexists _, _, _; split_and!; [done..|]. by left; eauto. }
  destruct (dbg && _); [eexists _, _, _; split_and!; [done..|]; by left; eauto|].
  assert (Hok' : ∀ fi, io_ok (mk_io (ev :: io_events c) (u16 nr) (u16 nw) (u16 nc) fi)).
  { intros fi. apply io_ok_intro; [by constructor; [|apply Hok]|done..|lia|lia|lia]. }
  destruct (Z.eqb_spec nb 0) as [->|Hnz]; cbn [negb].
  { eexists _, _, _; split_and!; [done..|]. by left; eauto. }
  destruct (op_add _ _ _ _ _) as [[be' fi] rb] eqn:Hop.
  destruct (Z.eqb_spec rb (-1)) as [->|Hrb]; eexists _, _, _; (split_and!; [done|..]).
  - by destruct Hok; split.
  - done.
  - right. by eexists _, _, (-1).
  - done.
  - done.
  - right. eexists _, _, rb. split_and!; [done..|]. by destruct (Z.eqb_spec rb (-1)).
Qed.

(** ** Growing the array *)

Lemma make_space_loop_ok fuel : ∀ n slot,
  0 < n → slot < 2 ^ 30 → slot < n * 2 ^ Z.of_nat fuel →
  ∃ m, make_space_loop fuel n slot = Some m ∧ slot < m ∧ n <= m ∧ (m = n ∨ m <= 2 * slot).
Proof.
  induction fuel as [|fuel IH]; intros n slot Hn Hs Hf; cbn [make_space_loop];
    destruct (Z.leb_spec n slot) as [Hle|Hgt].
  - exfalso. simpl in Hf. lia.
  - exists n. split_and!; [done|lia|lia|by left].
  - rewrite i32_small by lia.
    destruct (IH (n * 2) slot) as (m & -> & ? & ? & ?); [lia|lia| |exists m; split_and!; [done|lia..]].
    rewrite Nat2Z.inj_succ, Z.pow_succ_r in Hf by lia. lia.
  - exists n. split_and!; [done|lia|lia|by left].
Qed.

(** The sizes the doubling runs through from 32: after [2^30] the [int]
    overflows to the minimum, then stays at 0. *)
Definition doubled_sizes : list Z :=
  0 :: -2147483648 :: map (λ k, 32 * 2 ^ Z.of_nat k) (seq 0 26).

Lemma doubled_sizes_closed :
  forallb (λ n, (n <=? 2 ^ 30) && bool_decide (i32 (n * 2) ∈ doubled_sizes)) doubled_sizes
    = true.
Proof. vm_compute. reflexivity. Qed.

(** For a descriptor of [2^30] or more the loop never ends, whatever the fuel. *)
Lemma make_space_loop_diverges fuel : ∀ n slot, 2 ^ 30 <= slot → n ∈ doubled_sizes →
  make_space_loop fuel n slot = None.
Proof.
  induction fuel as [|fuel IH]; intros n slot Hs Hn;
    pose proof (proj1 (forallb_forall _ _) doubled_sizes_closed n
      (proj1 (list_elem_of_In _ _) Hn)) as [Hle%Z.leb_le Hc%bool_decide_eq_true_1]%andb_prop;
    cbn [make_space_loop]; (destruct (Z.leb_spec n slot); [|lia]); [done|]. by apply IH.
Qed.

Lemma make_space_spec {E} ok (map : list (option E)) slot msize :
  0 <= slot < 2 ^ 27 → 0 <= msize <= 8 →
  ∃ r, evmap_make_space ok map slot msize = Some r ∧
    match r with
    | None => ∃ sz, ok sz = false
    | Some map' => (Z.to_nat slot < length map')%nat ∧
        ∀ i, mjoin (map' !! i) = mjoin (map !! i)
    end.
Proof.
  intros Hs Hsz. unfold evmap_make_space.
  destruct (Z.leb_spec (Z.of_nat (length map)) slot) as [Hle|Hgt].
  2:{ eexists; split; [done|]. split; [lia|done]. }
  set (n := if negb (Z.of_nat (length map) =? 0) then Z.of_nat (length map) else 32).
  assert (Hn : 0 < n ∧ Z.of_nat (length map) <= n)
    by (subst n; destruct (Z.eqb_spec (Z.of_nat (length map)) 0); simpl; lia).
  destruct (make_space_loop_ok 64 n slot) as (m & -> & Hm & Hnm & Hmax); [lia|lia|lia|].
  assert (m <= 2 ^ 28 - 1) as Hmb by (destruct Hmax as [->|?]; [subst n; case_match; lia|lia]).
  cbn [mbind option_bind]. rewrite (proj2 (Z.ltb_ge _ _)) by nia. destruct (ok (m * msize)) eqn:Hok; simpl;
    [|exists None; split; [done|by eexists]].
  eexists; split; [done|]. split; [rewrite length_resize; lia|].
  intros i. destruct (decide (i < length map)%nat).
  - by rewrite lookup_resize by lia.
  - rewrite (lookup_ge_None_2 map) by lia. destruct (decide (i < Z.to_nat m)%nat).
    + by rewrite lookup_resize_new by lia.
    + by rewrite lookup_resize_old by lia.
Qed.

Lemma evs_at_mjoin io io' fd :
  (∀ i, mjoin (io' !! i) = mjoin (io !! i)) → evs_at io' fd = evs_at io fd.
Proof.
  intros Heq. unfold evs_at. case_match; [done|]. specialize (Heq (Z.to_nat fd)).
  destruct (io' !! _) as [[]|], (io !! _) as [[]|]; simpl in Heq; by simplify_eq.
Qed.

Lemma map_ok_mjoin io io' :
  (∀ i, mjoin (io' !! i) = mjoin (io !! i)) → map_ok io → map_ok io'.
Proof.
  intros Heq Hok i c Hc. specialize (Heq i). rewrite Hc in Heq. simpl in Heq.
  apply (Hok i). by destruct (io !! i) as [[]|]; simpl in Heq; simplify_eq.
Qed.

Lemma evs_at_insert io fd c fd' :
  0 <= fd → (Z.to_nat fd < length io)%nat →
  evs_at (<[Z.to_nat fd := Some c]> io) fd' =
    if decide (fd' = fd) then io_events c else evs_at io fd'.
Proof.
  intros Hfd Hlen. unfold evs_at. case_decide; subst.
  - destruct (Z.ltb_spec fd 0); [lia|]. by rewrite list_lookup_insert_eq.
  - destruct (Z.ltb_spec fd' 0); [done|]. by rewrite list_lookup_insert_ne by lia.
Qed.

Lemma map_ok_insert io i c : map_ok io → io_ok c → map_ok (<[i := Some c]> io).
Proof.
  intros Hok Hc j c' Hj. destruct (decide (i = j)) as [->|].
  - rewrite list_lookup_insert in Hj. case_decide; simplify_eq; [done|]. by apply (Hok j).
  - rewrite list_lookup_insert_ne in Hj by done. by apply (Hok j).
Qed.

Lemma io_init_ok : io_ok evmap_io_init.
Proof. split; simpl; [constructor|done..|lia]. Qed.

(** The three counters of [evmap_io_del_]: no assertion fails, and the bits
    reported are those no remaining event wants. *)
Definition gone_bits (evs : list evp) (ev : evp) : Z :=
  Z.land (wanted ev_events evs) (Z.lnot (wanted ev_events (filter (.≠ ev) evs))).

Lemma decr_counts c ev : io_ok c → ev ∈ io_events c →
  ∃ nr nw nc, ('(nr, res) ← decr_count (ev_events ev) EV_READ (nread c) 0;
    '(nw, res) ← decr_count (ev_events ev) EV_WRITE (nwrite c) res;
    '(nc, res) ← decr_count (ev_events ev) EV_CLOSED (nclose c) res;
    Some (nr, nw, nc, res)) = Some (nr, nw, nc, gone_bits (io_events c) ev) ∧
  nr = count_bit ev_events EV_READ (filter (.≠ ev) (io_events c)) ∧
  nw = count_bit ev_events EV_WRITE (filter (.≠ ev) (io_events c)) ∧
  nc = count_bit ev_events EV_CLOSED (filter (.≠ ev) (io_events c)).
Proof.
  intros Hok Hin. unfold gone_bits. rewrite !wanted_counts.
  destruct (id Hok) as [Hnd Hr Hw Hc _].
  pose proof (count_bit_nonneg ev_events EV_READ (filter (.≠ ev) (io_events c))) as Pr.
  pose proof (count_bit_nonneg ev_events EV_WRITE (filter (.≠ ev) (io_events c))) as Pw.
  pose proof (count_bit_nonneg ev_events EV_CLOSED (filter (.≠ ev) (io_events c))) as Pc.
  rewrite !count_bit_unlink, <- Hr, <- Hw, <- Hc in * by done. unfold decr_count.
  exists (nread c - (if ev_events ev &? EV_READ then 1 else 0)),
    (nwrite c - (if ev_events ev &? EV_WRITE then 1 else 0)),
    (nclose c - (if ev_events ev &? EV_CLOSED then 1 else 0)). split; [|done].
  destruct (ev_events ev &? EV_READ), (ev_events ev &? EV_WRITE), (ev_events ev &? EV_CLOSED);
    rewrite ?Z.sub_0_r in *; rewrite ?evassert_true by lia; cbn [mbind option_bind];
    rewrite ?evassert_true by lia; cbn [mbind option_bind];
    rewrite ?evassert_true by lia; cbn [mbind option_bind];
    repeat match goal with |- context [?n - 1 =? 0] =>
      destruct (Z.eqb_spec (n - 1) 0), (Z.ltb_spec 0 (n - 1)), (Z.ltb_spec 0 n); try lia end;
    repeat match goal with |- context [0 <? ?n] => destruct (0 <? n) end; reflexivity.
Qed.

Lemma io_del_ctx_spec be c fd ev : io_ok c → ev ∈ io_events c →
  let gb := gone_bits (io_events c) ev in
  ∃ c' be' r, io_del_ctx ev_events be c fd ev = Some (c', be', r) ∧ io_ok c' ∧
    io_events c' = filter (.≠ ev) (io_events c) ∧
    ((gb = 0 ∧ r = 0 ∧ be' = be) ∨
     (gb ≠ 0 ∧ ∃ rb, op_del be fd (wanted ev_events (io_events c)) gb (io_fdinfo c)
        = (be', io_fdinfo c', rb) ∧ r = if rb =? -1 then -1 else 1)).
Proof.
  intros Hok Hin gb. unfold io_del_ctx.
  destruct (decr_counts c ev Hok Hin) as (nr & nw & nc & Heq & Hr & Hw & Hc).
  fold gb in Heq. clearbody gb.
  destruct (decr_count _ EV_READ _ 0) as [[nr' res1]|]; simpl in Heq |- *; [|done].
  destruct (decr_count _ EV_WRITE _ res1) as [[nw' res2]|]; simpl in Heq |- *; [|done].
  destruct (decr_count _ EV_CLOSED _ res2) as [[nc' res3]|]; simpl in Heq |- *; [|done].
  injection Heq as -> -> -> ->. rewrite (old_mask_wanted c Hok), unlink_in by done.
  assert (Hok' : ∀ fi, io_ok (mk_io (filter (.≠ ev) (io_events c)) (u16 nr) (u16 nw) (u16 nc) fi)).
  { intros fi. destruct (id Hok) as [? Hr' Hw' Hc' ?].
    assert (nr <= nread c ∧ nw <= nwrite c ∧ nc <= nclose c) as (? & ? & ?).
    { rewrite Hr, Hw, Hc, Hr', Hw', Hc', !count_bit_unlink by done.
      split_and!; case_match; lia. }
    apply io_ok_intro; [by apply NoDup_filter_ne|done..|lia|lia|lia]. }
  destruct (Z.eqb_spec gb 0) as [->|Hnz]; cbn [negb mbind option_bind].
  - eexists _, _, _; split_and!; [done|done|done|by left].
  - destruct (op_del _ _ _ _ _) as [[be' fi] rb] eqn:Hop.
    eexists _, _, _; split_and!; [done|done|done|]. right. split; [done|]. by exists rb.
Qed.

(** What an operation on the entry of [fd] did to the map: the new list of
    events of that descriptor, everything else unchanged. *)
Definition map_update (io io' : io_map F) (fd : Z) (evs : list evp) : Prop :=
  map_ok io' ∧ ∀ fd', evs_at io' fd' = if decide (fd' = fd) then evs else evs_at io fd'.

Lemma map_update_id io fd : map_ok io → map_update io io fd (evs_at io fd).
Proof. intros. split; [done|]. intros fd'. by case_decide; subst. Qed.

Lemma io_add_spec ro co dbg sz be io fd ev :
  map_ok io → fd < 2 ^ 27 → ev ∉ evs_at io fd →
  ∃ io' be' r, evmap_io_add_ ev_events ro co dbg sz be io fd ev = Some (io', be', r) ∧
    map_update io io' fd (if (fd <? 0) || (r =? -1) then evs_at io fd else ev :: evs_at io fd) ∧
    (if fd <? 0 then r = 0 ∧ be' = be else add_outcome be (evs_at io fd) fd ev be' r).
Proof.
  intros Hok Hfd Hnin. unfold evmap_io_add_. destruct (Z.ltb_spec fd 0) as [Hneg|Hpos].
  { eexists _, _, _; split_and!; [done|by apply map_update_id|done..]. }
  destruct (make_space_spec ro io fd 8 ltac:(lia) ltac:(lia)) as ([io1|] & -> & Hsp);
    cbn [mbind option_bind].
  2:{ eexists _, _, _; split_and!; [done|by apply map_update_id|]. by left; eauto. }
  destruct Hsp as [Hlen Heq].
  assert (Hok1 := map_ok_mjoin _ _ Heq Hok).
  assert (Hevs : ∀ fd', evs_at io1 fd' = evs_at io fd') by (intros; by apply evs_at_mjoin).
  destruct (lookup_some_lt io1 (Z.to_nat fd) Hlen) as [slot Hslot].
  rewrite Hslot. cbn [mbind option_bind].
  assert (Hput : ∀ c, io_ok c → io_events c = evs_at io fd →
    ∃ io' be' r, (let '(c, be, r) := io_add_ctx ev_events dbg be c fd ev in
        Some (<[Z.to_nat fd := Some c]> io1, be, r)) = Some (io', be', r) ∧
      map_update io io' fd (if r =? -1 then evs_at io fd else ev :: evs_at io fd) ∧
      add_outcome be (evs_at io fd) fd ev be' r).
  { intros c Hc Hce. rewrite <- Hce in *.
    destruct (io_add_ctx_spec dbg be c fd ev Hc Hnin) as (c' & be' & r & -> & Hc' & He & Ho).
    eexists _, _, _; split_and!; [done| |done]. rewrite <- He.
    split; [by apply map_ok_insert|]. intros fd'. rewrite evs_at_insert by lia.
    case_decide; [done|]. apply Hevs. }
  assert (Hat : evs_at io fd = match slot with Some c => io_events c | None => [] end).
  { rewrite <- Hevs. unfold evs_at. destruct (Z.ltb_spec fd 0); [lia|]. by rewrite Hslot. }
  cbn [orb]. destruct slot as [c|]; [by apply Hput; [apply (Hok1 (Z.to_nat fd))|]|].
  destruct (co sz); simpl; [by apply Hput; [apply io_init_ok|]|].
  eexists _, _, _; split_and!; [done| |by left; eauto].
  split; [done|]. intros fd'. rewrite Hevs. by case_decide; subst.
Qed.

(** Removing an event of the map never fails an assertion; the backend is told
    once, exactly of the bits that no remaining event wants. *)
Lemma io_del_spec be io fd ev :
  map_ok io → ev ∈ evs_at io fd →
  ∃ io' be' r, evmap_io_del_ ev_events be io fd ev = Some (io', be', r) ∧
    map_update io io' fd (filter (.≠ ev) (evs_at io fd)) ∧
    let gb := gone_bits (evs_at io fd) ev in
    ((gb = 0 ∧ r = 0 ∧ be' = be) ∨
     (gb ≠ 0 ∧ ∃ fi fi' rb,
        op_del be fd (wanted ev_events (evs_at io fd)) gb fi = (be', fi', rb) ∧
        r = if rb =? -1 then -1 else 1)).
Proof.
  intros Hok Hin. unfold evmap_io_del_, evs_at in *.
  destruct (Z.ltb_spec fd 0) as [|Hpos]; [by apply not_elem_of_nil in Hin|].
  destruct (io !! Z.to_nat fd) as [[c|]|] eqn:Hc; [|by apply not_elem_of_nil in Hin..].
  assert (Hlt := lookup_lt_Some _ _ _ Hc).
  destruct (Z.leb_spec (Z.of_nat (length io)) fd); [lia|]. cbn [mbind option_bind].
  destruct (io_del_ctx_spec be c fd ev (Hok _ _ Hc) Hin)
    as (c' & be' & r & -> & Hc' & He & Ho). cbn [mbind option_bind].
  eexists _, _, _; split_and!; [done| |].
  - split; [by apply map_ok_insert|]. intros fd'.
    rewrite evs_at_insert, He by lia. by case_decide.
  - destruct Ho as [?|(? & rb & ? & ?)]; [by left|right; split; [done|]]. by eexists _, _, rb.
Qed.
End invariant.

(** ** The contract of a backend

    The comments of [struct eventop] (event-internal.h): [add] enables the given
    events on a descriptor of which [old] were enabled, [del] disables them, and
    both report failure with -1.  [reg b fd] is the set of events the backend
    [b] has enabled for [fd]. *)

Class EventOpLaws {B F : Type} `{EventOp B F} (reg : B → Z → Z) := {
  op_add_law b fd old ev fi b' fi' r :
    op_add b fd old ev fi = (b', fi', r) → reg b fd = old →
    reg b' fd = (if r =? -1 then old else Z.lor old (Z.land ev EV_RWC)) ∧
    ∀ fd', fd' ≠ fd → reg b' fd' = reg b fd';
  op_del_law b fd old ev fi b' fi' r :
    op_del b fd old ev fi = (b', fi', r) → reg b fd = old →
    reg b' fd = (if r =? -1 then old else Z.land old (Z.lnot ev)) ∧
    ∀ fd', fd' ≠ fd → reg b' fd' = reg b fd'
}.

Section properties.
Context {B F : Type} `{EventOpLaws B F reg}.
Variable ev_events : evp → Z.

(** The backend watches each descriptor for exactly what its events want. *)
Definition in_sync (b : B) (io : io_map F) : Prop :=
  ∀ fd, 0 <= fd → reg b fd = wanted ev_events (evs_at io fd).

Lemma lor_new_bits evs ev :
  Z.lor (wanted ev_events evs)
    (Z.land (Z.lor (Z.land (ev_events ev) EV_ET) (new_bits ev_events evs ev)) EV_RWC)
  = wanted ev_events (ev :: evs).
Proof.
  cbn [wanted]. unfold new_bits. rewrite wanted_counts, (land_rwc (ev_events ev)).
  rewrite Z.land_lor_distr_l, <- (Z.land_assoc (ev_events ev)). change (Z.land EV_ET EV_RWC) with 0.
  rewrite Z.land_0_r, Z.lor_0_l.
  destruct (0 <? _), (0 <? _), (0 <? _), (_ &? EV_READ), (_ &? EV_WRITE), (_ &? EV_CLOSED);
    reflexivity.
Qed.

Lemma wanted_unlink evs ev : NoDup evs → ev ∈ evs →
  Z.land (wanted ev_events evs) (Z.lnot (gone_bits ev_events evs ev))
  = wanted ev_events (filter (.≠ ev) evs).
Proof.
  intros Hnd Hin. unfold gone_bits. rewrite !wanted_counts.
  assert (Hmono : ∀ bit, (0 <? count_bit ev_events bit (filter (.≠ ev) evs)) = true →
    (0 <? count_bit ev_events bit evs) = true).
  { intros bit. rewrite count_bit_unlink by done. case_match; lia. }
  generalize (Hmono EV_READ), (Hmono EV_WRITE), (Hmono EV_CLOSED).
  destruct (0 <? count_bit _ EV_READ evs), (0 <? count_bit _ EV_WRITE evs),
    (0 <? count_bit _ EV_CLOSED evs), (0 <? count_bit _ EV_READ (filter _ _)),
    (0 <? count_bit _ EV_WRITE (filter _ _)), (0 <? count_bit _ EV_CLOSED (filter _ _));
    intros; try reflexivity; naive_solver.
Qed.

(** C38. [evmap_io_add_] on a consistent map never accesses the entries out of
    bounds and keeps every entry consistent (the counters are the numbers of
    added events waiting for each condition, as [evmap_check_integrity_]
    verifies, and fit their 16 bits); unless it returns -1 or the descriptor
    is negative the event is at the head of the list of its descriptor, and
    no other list changes.  For descriptors below 2^27: beyond that the size in
    bytes of the new array, computed as an int, overflows (evmap.c:213). *)
Theorem evmap_io_add_correct ro co dbg sz (be : B) (io : io_map F) fd ev :
  map_ok ev_events io → fd < 2 ^ 27 → ev ∉ evs_at io fd →
  ∃ io' be' r, evmap_io_add_ ev_events ro co dbg sz be io fd ev = Some (io', be', r) ∧
    map_update ev_events io io' fd
      (if (fd <? 0) || (r =? -1) then evs_at io fd else ev :: evs_at io fd).
Proof.
  intros Hok Hfd Hnin.
  destruct (io_add_spec ev_events ro co dbg sz be io fd ev Hok Hfd Hnin)
    as (io' & be' & r & ? & ? & _). by exists io', be', r.
Qed.

Lemma io_add_sync ro co dbg sz (be : B) (io : io_map F) fd ev :
  map_ok ev_events io → fd < 2 ^ 27 → in_sync be io → ev ∉ evs_at io fd →
  ∃ io' be' r, evmap_io_add_ ev_events ro co dbg sz be io fd ev = Some (io', be', r) ∧
    in_sync be' io'.
Proof.
  intros Hok Hfd Hs Hev.
  destruct (io_add_spec ev_events ro co dbg sz be io fd ev Hok Hfd Hev)
    as (io' & be' & r & -> & [_ Hup] & Hout).
  eexists _, _, _; split; [done|]. intros fd' Hfd'. rewrite Hup.
  destruct (Z.ltb_spec fd 0).
  { destruct Hout as [-> ->]. cbn [orb]. case_decide; [lia|]. by apply Hs. }
  cbn [orb]. destruct Hout as [(-> & Hr)|(fi & fi' & rb & Hnb & Hop & ->)].
  + rewrite Hs by done. case_decide; [subst|done].
    destruct Hr as [->|[-> Hnb]]; [done|]. cbn [Z.eqb].
    rewrite <- lor_new_bits, Hnb, Z.lor_0_r, <- Z.land_assoc.
    by rewrite Z.land_0_r, Z.lor_0_r.
  + destruct (op_add_law _ _ _ _ _ _ _ _ Hop (Hs fd ltac:(lia))) as [Heq Hne].
    case_decide; subst; [|by rewrite Hne, Hs by done].
    rewrite Heq. destruct (rb =? -1); [done|]. apply lor_new_bits.
Qed.

Lemma io_del_sync (be : B) (io : io_map F) fd ev :
  map_ok ev_events io → in_sync be io → ev ∈ evs_at io fd →
  ∃ io' be' r, evmap_io_del_ ev_events be io fd ev = Some (io', be', r) ∧
    (r ≠ -1 → in_sync be' io').
Proof.
  intros Hok Hs Hev.
  destruct (io_del_spec ev_events be io fd ev Hok Hev)
    as (io' & be' & r & -> & [_ Hup] & Hout).
  assert (0 <= fd).
  { unfold evs_at in Hev. destruct (Z.ltb_spec fd 0); [|lia]. by apply not_elem_of_nil in Hev. }
  assert (Hnd : NoDup (evs_at io fd)).
  { unfold evs_at. case_match; [constructor|].
    destruct (io !! Z.to_nat fd) as [[c|]|] eqn:Hc; [by apply (Hok _ _ Hc)|constructor..]. }
  eexists _, _, _; split; [done|]. intros Hr fd' Hfd'. rewrite Hup.
  destruct Hout as [(Hgb & -> & ->)|(Hgb & fi & fi' & rb & Hop & ->)].
  + rewrite Hs by done. case_decide; [subst|done].
    rewrite <- (wanted_unlink (evs_at io fd) ev Hnd Hev), Hgb. by rewrite Z.land_m1_r.
  + destruct (op_del_law _ _ _ _ _ _ _ _ Hop (Hs fd ltac:(lia))) as [Heq Hne].
    case_decide; subst; [|by rewrite Hne, Hs by done].
    rewrite Heq. destruct (rb =? -1); [done|]. by apply wanted_unlink.
Qed.

(** [evmap_io_add_] and [evmap_io_del_] keep the backend in step: if it
    watches every descriptor for exactly what the added events want, it still
    does after any add (whatever its result) and after any del that does not
    return -1. *)
Theorem evmap_io_sync ro co dbg sz (be : B) (io : io_map F) fd ev :
  map_ok ev_events io → fd < 2 ^ 27 → in_sync be io →
  (ev ∉ evs_at io fd → ∃ io' be' r,
    evmap_io_add_ ev_events ro co dbg sz be io fd ev = Some (io', be', r) ∧ in_sync be' io') ∧
  (ev ∈ evs_at io fd → ∃ io' be' r,
    evmap_io_del_ ev_events be io fd ev = Some (io', be', r) ∧ (r ≠ -1 → in_sync be' io')).
Proof. intros. split; intros; [by apply io_add_sync|by apply io_del_sync]. Qed.
End properties.

Section signal_properties.
Context {BS : Type}.
Variable sig_add sig_del : BS → Z → BS * Z.

Definition sig_evs (map : signal_map) (sig : Z) : list evp :=
  if sig <? 0 then [] else
  match map !! Z.to_nat sig with Some (Some evs) => evs | _ => [] end.

Lemma sig_evs_insert map sig evs sig' :
  0 <= sig → (Z.to_nat sig < length map)%nat →
  sig_evs (<[Z.to_nat sig := Some evs]> map) sig' =
    if decide (sig' = sig) then evs else sig_evs map sig'.
Proof.
  intros Hs Hlen. unfold sig_evs. case_decide; subst.
  - destruct (Z.ltb_spec sig 0); [lia|]. by rewrite list_lookup_insert_eq.
  - destruct (Z.ltb_spec sig' 0); [done|]. by rewrite list_lookup_insert_ne by lia.
Qed.

Lemma sig_evs_mjoin (map map' : signal_map) sig :
  (∀ i, mjoin (map' !! i) = mjoin (map !! i)) → sig_evs map' sig = sig_evs map sig.
Proof.
  intros Heq. unfold sig_evs. case_match; [done|]. specialize (Heq (Z.to_nat sig)).
  destruct (map' !! _) as [[]|], (map !! _) as [[]|]; simpl in Heq; by simplify_eq.
Qed.

Lemma signal_add_spec ro co sz (be : BS) map sig ev :
  0 <= sig < 2 ^ 27 →
  (∃ map' be' r, evmap_signal_add_ ro co sz sig_add be map sig ev = Some (map', be', r) ∧
    (∀ sig', sig_evs map' sig' = if decide (sig' = sig ∧ r ≠ -1)
       then ev :: sig_evs map sig' else sig_evs map sig') ∧
    ((be' = be ∧ (r = -1 ∨ sig_evs map sig ≠ [])) ∨
     (sig_evs map sig = [] ∧ be' = (sig_add be sig).1 ∧
      (r = -1 ↔ (sig_add be sig).2 = -1)))).
Proof.
  intros Hs.
  unfold evmap_signal_add_. destruct (Z.ltb_spec sig 0); [lia|].
  destruct (make_space_spec ro map sig 8 Hs ltac:(lia)) as ([m1|] & -> & Hsp); cbn [mbind option_bind].
  2:{ eexists _, _, _; split_and!; [done| |by left; eauto].
      intros sig'. rewrite decide_False; [done|naive_solver]. }
  destruct Hsp as [Hlen Heq].
  assert (Hev : ∀ s, sig_evs m1 s = sig_evs map s) by (intros; by apply sig_evs_mjoin).
  destruct (lookup_some_lt m1 (Z.to_nat sig) Hlen) as [slot Hslot].
  rewrite Hslot. cbn [mbind option_bind].
  assert (Hd : default [] slot = sig_evs map sig).
  { rewrite <- Hev. unfold sig_evs. destruct (Z.ltb_spec sig 0); [lia|].
    rewrite Hslot. by destruct slot. }
  destruct (_ && _).
  { eexists _, _, _; split_and!; [done| |by left; eauto].
    intros sig'. rewrite decide_False; [done|naive_solver]. }
  rewrite Hd.
  assert (∃ be' rb, match sig_evs map sig with [] => sig_add be sig | _ => (be, 0) end
      = (be', rb) ∧ ((sig_evs map sig ≠ [] ∧ be' = be ∧ rb = 0) ∨
        (sig_evs map sig = [] ∧ be' = (sig_add be sig).1 ∧ rb = (sig_add be sig).2)))
    as (be' & rb & -> & Hbe).
  { destruct (sig_evs map sig); [destruct (sig_add be sig) as [be' rb]|];
      eexists _, _; naive_solver. }
  destruct (Z.eqb_spec rb (-1)) as [->|Hrb]; eexists _, _, _; (split_and!; [done|..]).
  + intros sig'. rewrite sig_evs_insert by lia. rewrite (decide_False (P := _ ∧ _)) by naive_solver.
    case_decide; [by subst|apply Hev].
  + destruct Hbe as [(? & -> & [=])|(? & -> & ?)]. right. naive_solver.
  + intros sig'. rewrite list_insert_insert_eq, sig_evs_insert by lia.
    destruct (decide (sig' = sig)) as [->|]; [rewrite decide_True by naive_solver; done|].
    rewrite decide_False by naive_solver. apply Hev.
  + destruct Hbe as [(? & -> & ?)|(? & -> & ->)]; [left|right]; naive_solver.
Qed.

Lemma signal_del_spec (be : BS) map sig ev :
  0 <= sig < 2 ^ 27 →
  (ev ∈ sig_evs map sig →
   ∃ map' be' r, evmap_signal_del_ sig_del be map sig ev = Some (map', be', r) ∧
    (∀ sig', sig_evs map' sig' = if decide (sig' = sig)
       then filter (.≠ ev) (sig_evs map sig') else sig_evs map sig') ∧
    (if decide (filter (.≠ ev) (sig_evs map sig) = [])
     then be' = (sig_del be sig).1 else be' = be)).
Proof.
  intros Hs.
  intros Hin. unfold evmap_signal_del_, sig_evs in *. destruct (Z.ltb_spec sig 0); [lia|].
  destruct (map !! Z.to_nat sig) as [[evs|]|] eqn:Hm; [|by apply not_elem_of_nil in Hin..].
  assert (Hlt := lookup_lt_Some _ _ _ Hm).
  destruct (Z.leb_spec (Z.of_nat (length map)) sig); [lia|]. cbn [mbind option_bind].
  rewrite unlink_in by done. cbn [mbind option_bind]. fold (sig_evs map).
  assert (Hup : ∀ sig', sig_evs (<[Z.to_nat sig := Some (filter (.≠ ev) evs)]> map) sig'
    = if decide (sig' = sig) then filter (.≠ ev) (sig_evs map sig') else sig_evs map sig').
  { intros sig'. rewrite sig_evs_insert by lia. case_decide; [|done]. subst.
    unfold sig_evs. destruct (Z.ltb_spec sig 0); [lia|]. by rewrite Hm. }
  destruct (filter (.≠ ev) evs) as [|e0 l0] eqn:Hf.
  + destruct (sig_del be sig) as [be' rb]. eexists _, _, _; split_and!; [done|exact Hup|done].
  + eexists _, _, _; split_and!; [done|exact Hup|done].
Qed.

(** For a signal number in range, [evmap_signal_add_] asks the backend for
    the signal exactly when its list was empty, and adds the event unless that
    request or an allocation failed; [evmap_signal_del_] of an added event
    removes it and tells the backend exactly when the list becomes empty. *)
Theorem evmap_signal_add_del_correct ro co sz (be : BS) map sig ev :
  0 <= sig < 2 ^ 27 →
  (∃ map' be' r, evmap_signal_add_ ro co sz sig_add be map sig ev = Some (map', be', r) ∧
    (∀ sig', sig_evs map' sig' = if decide (sig' = sig ∧ r ≠ -1)
       then ev :: sig_evs map sig' else sig_evs map sig') ∧
    ((be' = be ∧ (r = -1 ∨ sig_evs map sig ≠ [])) ∨
     (sig_evs map sig = [] ∧ be' = (sig_add be sig).1 ∧
      (r = -1 ↔ (sig_add be sig).2 = -1)))) ∧
  (ev ∈ sig_evs map sig →
   ∃ map' be' r, evmap_signal_del_ sig_del be map sig ev = Some (map', be', r) ∧
    (∀ sig', sig_evs map' sig' = if decide (sig' = sig)
       then filter (.≠ ev) (sig_evs map sig') else sig_evs map sig') ∧
    (if decide (filter (.≠ ev) (sig_evs map sig) = [])
     then be' = (sig_del be sig).1 else be' = be)).
Proof. split; [by apply signal_add_spec|by apply signal_del_spec]. Qed.
End signal_properties.

(** Adding an event for a descriptor of [2^30] or more to a map that has not
    grown yet never returns: the [int] size of [evmap_make_space] overflows and
    the doubling loop stays at 0, whatever number of iterations is allowed. *)
Theorem evmap_make_space_huge_fd_hangs {B F} `{EventOp B F} evf ro co dbg sz (be : B) fd ev :
  2 ^ 30 <= fd →
  (∀ fuel, make_space_loop fuel 32 fd = None) ∧
  evmap_io_add_ (F := F) evf ro co dbg sz be [] fd ev = None.
Proof.
  intros Hfd. assert (Hd : ∀ fuel, make_space_loop fuel 32 fd = None).
  { intros fuel. apply make_space_loop_diverges; [done|]. vm_compute. right. right. left. }
  split; [done|]. unfold evmap_io_add_. destruct (Z.ltb_spec fd 0); [lia|].
  unfold evmap_make_space. simpl length. destruct (Z.leb_spec (Z.of_nat 0) fd); [|lia].
  change (negb (Z.of_nat 0 =? 0)) with false. cbv iota. by rewrite Hd.
Qed.

(** ** A reference backend and the witnesses *)

Definition ref_reg (b : gmap Z Z) (fd : Z) : Z := default 0 (b !! fd).

#[export] Instance ref_op : EventOp (gmap Z Z) unit := {
  fdinfo0 := tt;
  op_add b fd old ev _ := (<[fd := Z.lor old (Z.land ev EV_RWC)]> b, tt, 0);
  op_del b fd old ev _ := (<[fd := Z.land old (Z.lnot ev)]> b, tt, 0)
}.

#[export] Instance ref_laws : EventOpLaws ref_reg.
Proof.
  split; intros b fd old ev fi b' fi' r Heq _; simpl in Heq; simplify_eq; unfold ref_reg;
    (split; [by rewrite lookup_insert_eq|intros fd' Hne; by rewrite lookup_insert_ne]).
Qed.

Definition ex_events (e : evp) : Z := if e =? 1 then EV_READ else Z.lor EV_READ EV_WRITE.
Definition ex_io : io_map unit :=
  [None; Some (mk_io [1] 1 0 0 tt)].

Lemma ex_io_ok : map_ok ex_events ex_io.
Proof.
  intros [|[|i]] c Hc; simpl in Hc; simplify_eq. split; simpl.
  - apply NoDup_singleton.
  - vm_compute. reflexivity.
  - vm_compute. reflexivity.
  - vm_compute. reflexivity.
  - lia.
Qed.

Lemma evmap_io_add_witness :
  ∃ io' be' r, evmap_io_add_ ex_events (λ _, true) (λ _, true) false 48
    (∅ : gmap Z Z) ex_io 1 2 = Some (io', be', r) ∧ map_ok ex_events io'.
Proof.
  destruct (evmap_io_add_correct ex_events (λ _, true) (λ _, true) false 48 (∅ : gmap Z Z) ex_io 1 2)
    as (io' & be' & r & ? & ? & _).
  - exact ex_io_ok.
  - lia.
  - vm_compute. intros Hin. apply list_elem_of_singleton in Hin. done.
  - by exists io', be', r.
Defined.

Lemma ex_in_sync : in_sync (reg := ref_reg) ex_events {[1 := EV_READ]} ex_io.
Proof.
  intros fd Hfd. unfold evs_at. destruct (Z.ltb_spec fd 0); [lia|].
  destruct (decide (fd = 1)) as [->|Hne]; [vm_compute; reflexivity|].
  unfold ref_reg. rewrite lookup_singleton_ne by done. simpl.
  destruct (Z.to_nat fd) as [|[|n]] eqn:Hn; [done|lia|done].
Qed.

Lemma evmap_io_sync_witness :
  ∃ io' be' r, evmap_io_add_ ex_events (λ _, true) (λ _, true) false 48
    ({[1 := EV_READ]} : gmap Z Z) ex_io 1 2 = Some (io', be', r) ∧
    in_sync (reg := ref_reg) ex_events be' io'.
Proof.
  destruct (evmap_io_sync (reg := ref_reg) ex_events (λ _, true) (λ _, true) false 48
    {[1 := EV_READ]} ex_io 1 2) as [Hadd _].
  - exact ex_io_ok.
  - lia.
  - exact ex_in_sync.
  - apply Hadd. vm_compute. intros Hin. apply list_elem_of_singleton in Hin. done.
Defined.

Lemma evmap_signal_witness :
  ∃ map' be' r, evmap_signal_add_ (λ _, true) (λ _, true) 16 (λ (n : nat) _, (S n, 0))
    0%nat [] 2 7 = Some (map', be', r) ∧ sig_evs map' 3 = [].
Proof.
  destruct (evmap_signal_add_del_correct (λ (n : nat) _, (S n, 0)) (λ n _, (n, 0))
    (λ _, true) (λ _, true) 16 0%nat [] 2 7) as [(map' & be' & r & Heq & Hevs & _) _].
  - lia.
  - exists map', be', r. split; [exact Heq|]. rewrite Hevs. vm_compute. reflexivity.
Defined.

Lemma evmap_make_space_witness :
  evmap_io_add_ ex_events (λ _, true) (λ _, true) false 48 (∅ : gmap Z Z) ([] : io_map unit)
    (2 ^ 30) 1 = None.
Proof.
  apply (evmap_make_space_huge_fd_hangs ex_events (λ _, true) (λ _, true) false 48
    (∅ : gmap Z Z) (2 ^ 30) 1). lia.
Defined.
