(* ===== verification/Changelist.v ===== *)
(** * The changelist (the second half of evmap.c, changelist-internal.h)

    A backend that batches its system calls queues one [event_change] per
    descriptor and applies them all before it waits.  The per-descriptor data
    of the maps is then the index of the queued change plus one.  The theorems
    show that the queue coalesces a sequence of adds and dels into the change
    that has the same effect. *)

From S2P Require Import Prelude MinHeap EvMap.

Abbreviation EV_CHANGE_ADD := 0x01.
Abbreviation EV_CHANGE_DEL := 0x02.
Abbreviation EV_CHANGE_SIGNAL := EV_SIGNAL.
Abbreviation EV_CHANGE_PERSIST := EV_PERSIST.
Abbreviation EV_CHANGE_ET := EV_ET.

Record event_change := mk_change {
  ch_fd : Z;
  old_events : Z;
  read_change : Z;
  write_change : Z;
  close_change : Z
}.

(** The first [n_changes] elements of the [changes] array and its capacity. *)
Record event_changelist := mk_changelist {
  changes : list event_change;
  changes_size : Z
}.

Definition n_changes (cl : event_changelist) : Z := Z.of_nat (length (changes cl)).

Definition event_changelist_init_ : event_changelist := mk_changelist [] 0.

Section changelist.
(** Whether [mm_realloc] succeeds on a size. *)
Variable mm_realloc_ok : Z → bool.

Definition sizeof_event_change : Z := 12.

Definition event_changelist_grow (cl : event_changelist) : event_changelist * Z :=
  let new_size := if changes_size cl <? 64 then 64 else i32 (changes_size cl * 2) in
  if mm_realloc_ok (new_size * sizeof_event_change)
  then (mk_changelist (changes cl) new_size, 0)
  else (cl, -1).

(** The list, the descriptor's [idxplus1] and the index of the change in the
    array, or [None] for NULL. *)
Definition event_changelist_get_or_construct (cl : event_changelist) (fd old idxplus1 : Z)
    : option (event_changelist * Z * option nat) :=
  if idxplus1 =? 0 then
    ASSERT (n_changes cl <=? changes_size cl) ;;
    let '(cl, r) := if n_changes cl =? changes_size cl
      then event_changelist_grow cl else (cl, 0) in
    if r <? 0 then Some (cl, idxplus1, None) else
    let idx := n_changes cl in
    Some (mk_changelist (changes cl ++ [mk_change fd old 0 0 0]) (changes_size cl),
          idx + 1, Some (Z.to_nat idx))
  else
    change ← changes cl !! Z.to_nat (idxplus1 - 1);
    ASSERT (ch_fd change =? fd) ;;
    Some (cl, idxplus1, Some (Z.to_nat (idxplus1 - 1))).

(** The assignments of [event_changelist_add_] to the change. *)
Definition change_add (events : Z) (c : event_change) : event_change :=
  let how := Z.lor EV_CHANGE_ADD
    (Z.land events (Z.lor (Z.lor EV_ET EV_PERSIST) EV_SIGNAL)) in
  mk_change (ch_fd c) (old_events c)
    (if events &? Z.lor EV_READ EV_SIGNAL then how else read_change c)
    (if events &? EV_WRITE then how else write_change c)
    (if events &? EV_CLOSED then how else close_change c).

(** The assignments of [event_changelist_del_] to the change. *)
Definition change_del (events : Z) (c : event_change) : event_change :=
  mk_change (ch_fd c) (old_events c)
    (if events &? Z.lor EV_READ EV_SIGNAL then
       if negb (old_events c &? Z.lor EV_READ EV_SIGNAL) then 0 else EV_CHANGE_DEL
     else read_change c)
    (if events &? EV_WRITE then
       if negb (old_events c &? EV_WRITE) then 0 else EV_CHANGE_DEL
     else write_change c)
    (if events &? EV_CLOSED then
       if negb (old_events c &? EV_CLOSED) then 0 else EV_CHANGE_DEL
     else close_change c).

Definition event_changelist_add_ (cl : event_changelist) (fd old events idxplus1 : Z)
    : option (event_changelist * Z * Z) :=
  '(cl, idxplus1, change) ← event_changelist_get_or_construct cl fd old idxplus1;
  match change with
  | None => Some (cl, idxplus1, -1)
  | Some i =>
    Some (mk_changelist (alter (change_add events) i (changes cl)) (changes_size cl), idxplus1, 0)
  end.

Definition event_changelist_del_ (cl : event_changelist) (fd old events idxplus1 : Z)
    : option (event_changelist * Z * Z) :=
  '(cl, idxplus1, change) ← event_changelist_get_or_construct cl fd old idxplus1;
  match change with
  | None => Some (cl, idxplus1, -1)
  | Some i =>
    Some (mk_changelist (alter (change_del events) i (changes cl)) (changes_size cl), idxplus1, 0)
  end.

(** The [idxplus1] a change belongs to: in the map of signals (here the
    fdinfo of each of its slots) or of descriptors. *)
Definition event_change_get_fdinfo (io : io_map Z) (sigmap : list (option Z))
    (change : event_change) : option Z :=
  if ch_fd change <? 0 then None else
  if read_change change &? EV_CHANGE_SIGNAL
  then mjoin (sigmap !! Z.to_nat (ch_fd change))
  else io_fdinfo <$> mjoin (io !! Z.to_nat (ch_fd change)).

Definition set_fdinfo (io : io_map Z) (sigmap : list (option Z))
    (change : event_change) (v : Z) : io_map Z * list (option Z) :=
  if read_change change &? EV_CHANGE_SIGNAL
  then (io, <[Z.to_nat (ch_fd change) := Some v]> sigmap)
  else (alter (fmap (λ c, mk_io (io_events c) (nread c) (nwrite c) (nclose c) v))
          (Z.to_nat (ch_fd change)) io, sigmap).

Fixpoint remove_all_loop (cs : list event_change) (i : Z)
    (io : io_map Z) (sigmap : list (option Z)) : option (io_map Z * list (option Z)) :=
  match cs with
  | [] => Some (io, sigmap)
  | ch :: cs =>
    idxplus1 ← event_change_get_fdinfo io sigmap ch;
    ASSERT (idxplus1 =? i + 1) ;;
    let '(io, sigmap) := set_fdinfo io sigmap ch 0 in
    remove_all_loop cs (i + 1) io sigmap
  end.

Definition event_changelist_remove_all_ (cl : event_changelist)
    (io : io_map Z) (sigmap : list (option Z))
    : option (event_changelist * io_map Z * list (option Z)) :=
  '(io, sigmap) ← remove_all_loop (changes cl) 0 io sigmap;
  Some (mk_changelist [] (changes_size cl), io, sigmap).

(** [event_changelist_assert_ok] as a decidable check. *)
Definition event_changelist_assert_ok (cl : event_changelist)
    (io : io_map Z) (sigmap : list (option Z)) : bool :=
  (n_changes cl <=? changes_size cl) &&
  forallb (λ '(i, c), (0 <=? ch_fd c) &&
      bool_decide (event_change_get_fdinfo io sigmap c = Some (Z.of_nat i + 1)))
    (imap pair (changes cl)) &&
  forallb (λ '(fd, slot), match slot with
      | Some c => if io_fdinfo c =? 0 then true else
          match changes cl !! Z.to_nat (io_fdinfo c - 1) with
          | Some ch => ch_fd ch =? Z.of_nat fd | None => false end
      | None => true end) (imap pair io).

Definition event_changelist_freemem_ (cl : event_changelist) : event_changelist :=
  event_changelist_init_.
End changelist.

(** ** What a change asks for *)

(** Whether the event is wanted after the change [chg], if it was [old] before. *)
Definition effective (chg : Z) (old : bool) : bool :=
  if chg &? EV_CHANGE_ADD then true
  else if chg &? EV_CHANGE_DEL then false else old.

Definition change_target (c : event_change) : Z :=
  rwc (effective (read_change c) (old_events c &? EV_READ))
      (effective (write_change c) (old_events c &? EV_WRITE))
      (effective (close_change c) (old_events c &? EV_CLOSED)).

Definition find_change (cs : list event_change) (fd : Z) : option event_change :=
  head (filter (λ c, ch_fd c = fd) cs).

(** What the descriptor will be watched for once the queue is applied, if it
    is watched for [kern fd] now. *)
Definition cl_view (kern : Z → Z) (cs : list event_change) (fd : Z) : Z :=
  match find_change cs fd with Some c => change_target c | None => kern fd end.

(** [k] is the [idxplus1] of the descriptor [fd]. *)
Definition idx_at (cs : list event_change) (fd k : Z) : Prop :=
  if decide (k = 0) then fd ∉ (ch_fd <$> cs)
  else 0 < k ∧ ch_fd <$> cs !! Z.to_nat (k - 1) = Some fd.

Record cl_ok (cl : event_changelist) : Prop := {
  cl_fds : NoDup (ch_fd <$> changes cl);
  cl_size : n_changes cl <= changes_size cl
}.

(** The relation between the old and the new queue when [fd], whose index was
    [k], is changed so that it will be watched for [want old]. *)
Definition cl_update (kern : Z → Z) (cl : event_changelist) (fd k : Z)
    (want : Z → Z) (cl' : event_changelist) (k' r : Z) : Prop :=
  cl_ok cl' ∧ idx_at (changes cl') fd k' ∧
  (∀ fd' j, fd' ≠ fd → idx_at (changes cl) fd' j → idx_at (changes cl') fd' j) ∧
  ((r = -1 ∧ cl_view kern (changes cl') fd = cl_view kern (changes cl) fd) ∨
   (r = 0 ∧ cl_view kern (changes cl') fd = want (cl_view kern (changes cl) fd))) ∧
  (∀ fd', fd' ≠ fd → cl_view kern (changes cl') fd' = cl_view kern (changes cl) fd').

Section lemmas.
Implicit Types (cs : list event_change) (c : event_change).

Lemma change_target_rwc c : Z.land (change_target c) EV_RWC = change_target c.
Proof. unfold change_target. by destruct (effective _ _), (effective _ _), (effective _ _). Qed.

Lemma flag_how x : Z.lor EV_CHANGE_ADD x &? EV_CHANGE_ADD = true.
Proof. by rewrite flag_lor. Qed.

Lemma effective_add (b : bool) x chg old :
  effective (if b then Z.lor EV_CHANGE_ADD x else chg) old = effective chg old || b.
Proof.
  destruct b; [|by rewrite orb_false_r]. unfold effective at 1. by rewrite flag_how, orb_true_r.
Qed.

Lemma effective_del (b b' : bool) chg old : b' = old →
  effective (if b then if negb b' then 0 else EV_CHANGE_DEL else chg) old
  = effective chg old && negb b.
Proof.
  intros ->. destruct b; [|by rewrite andb_true_r]. rewrite andb_false_r. by destruct old.
Qed.

Lemma effective_del_read (b b1 b2 : bool) chg :
  effective (if b then if negb (b1 || b2) then 0 else EV_CHANGE_DEL else chg) b1
  = effective chg b1 && negb b.
Proof.
  destruct b; [|by rewrite andb_true_r]. rewrite andb_false_r. by destruct b1, b2.
Qed.

Lemma change_add_target events c : events &? EV_SIGNAL = false →
  change_target (change_add events c) = Z.lor (change_target c) (Z.land events EV_RWC).
Proof.
  intros Hs. unfold change_target, change_add. simpl.
  rewrite flag_orb, Hs, orb_false_r, land_rwc, rwc_lor.
  by rewrite !effective_add.
Qed.

Lemma rwc_lnot r w cl events :
  Z.land (rwc r w cl) (Z.lnot events) =
  rwc (r && negb (events &? EV_READ)) (w && negb (events &? EV_WRITE))
      (cl && negb (events &? EV_CLOSED)).
Proof.
  apply Z.bits_inj'. intros n Hn. rewrite Z.land_spec, Z.lnot_spec by done.
  change EV_READ with (2 ^ 1) at 1. change EV_WRITE with (2 ^ 2) at 1.
  change EV_CLOSED with (2 ^ 7) at 1. rewrite !flag_pow2 by lia.
  assert (Hb : ∀ r w cl, Z.testbit (rwc r w cl) n =
    (r && (n =? 1)) || (w && (n =? 2)) || (cl && (n =? 7))).
  { intros r' w' c'. unfold rwc. rewrite !Z.lor_spec.
    assert (Ht : ∀ (b : bool) k, 0 <= k → Z.testbit (if b then 2 ^ k else 0) n = b && (n =? k)).
    { intros b k Hk. destruct b; [rewrite Z.pow2_bits_eqb by lia; rewrite Z.eqb_sym; done|].
      by rewrite Z.bits_0. }
    rewrite <- (Ht r' 1), <- (Ht w' 2), <- (Ht c' 7) by lia. done. }
  rewrite !Hb.
  destruct (Z.eqb_spec n 1) as [->|]; [|destruct (Z.eqb_spec n 2) as [->|];
    [|destruct (Z.eqb_spec n 7) as [->|]]]; simpl;
    rewrite ?andb_true_r, ?andb_false_r, ?orb_false_r; done.
Qed.

Lemma change_del_target events c : events &? EV_SIGNAL = false →
  change_target (change_del events c) = Z.land (change_target c) (Z.lnot events).
Proof.
  intros Hs. unfold change_target. rewrite rwc_lnot. unfold change_del. simpl.
  rewrite !flag_orb, Hs, orb_false_r. by rewrite effective_del_read, !effective_del.
Qed.

Lemma find_change_lookup cs fd c i :
  NoDup (ch_fd <$> cs) → cs !! i = Some c → ch_fd c = fd → find_change cs fd = Some c.
Proof.
  unfold find_change. revert i. induction cs as [|c0 cs IH]; intros i Hnd Hi Hfd; [done|].
  rewrite fmap_cons in Hnd. apply NoDup_cons in Hnd as [Hc0 Hnd]. destruct i as [|i]; simplify_eq/=.
  - by rewrite filter_cons_True.
  - rewrite filter_cons_False; [eauto|]. intros Heq. apply Hc0. rewrite Heq.
    apply list_elem_of_fmap. exists c. split; [done|]. by eapply list_elem_of_lookup_2.
Qed.

Lemma find_change_None cs fd : fd ∉ (ch_fd <$> cs) → find_change cs fd = None.
Proof.
  unfold find_change. intros Hn. induction cs as [|c cs IH]; [done|].
  rewrite fmap_cons, not_elem_of_cons in Hn. destruct Hn as [? Hn].
  rewrite filter_cons_False by congruence. auto.
Qed.

Lemma find_change_snoc cs c fd : ch_fd c ≠ fd → find_change (cs ++ [c]) fd = find_change cs fd.
Proof.
  intros. unfold find_change. rewrite filter_app, filter_cons_False by done.
  by rewrite app_nil_r.
Qed.

Section alter.
Context (f : event_change → event_change) (Hf : ∀ c, ch_fd (f c) = ch_fd c).

Lemma alter_fds cs i : ch_fd <$> alter f i cs = ch_fd <$> cs.
Proof.
  revert i. induction cs as [|c cs IH]; intros [|i]; [done..| |].
  - simpl. rewrite Hf. done.
  - simpl. f_equal. apply IH.
Qed.

Lemma find_change_alter_ne cs i c fd :
  cs !! i = Some c → ch_fd c ≠ fd → find_change (alter f i cs) fd = find_change cs fd.
Proof.
  unfold find_change. revert i. induction cs as [|c0 cs IH]; intros [|i] Hi Hne; simplify_eq/=.
  - rewrite !filter_cons_False; [done|congruence|by rewrite Hf].
  - destruct (decide (ch_fd c0 = fd)); [by rewrite !filter_cons_True|].
    rewrite !filter_cons_False by done. eauto.
Qed.
End alter.

Lemma idx_at_fds cs cs' fd k : ch_fd <$> cs' = ch_fd <$> cs → idx_at cs fd k → idx_at cs' fd k.
Proof.
  unfold idx_at. intros Heq. rewrite Heq. case_decide; [done|].
  by rewrite <- !list_lookup_fmap, Heq.
Qed.
End lemmas.

Section construct.
Variable ro : Z → bool.
Implicit Types (cl : event_changelist) (kern : Z → Z).

(** The change of [fd] exists after [get_or_construct], still asking for what
    the queue asked before, unless the array could not grow. *)
Lemma get_or_construct_spec kern cl fd old k :
  cl_ok cl → n_changes cl < 2 ^ 30 → idx_at (changes cl) fd k →
  cl_view kern (changes cl) fd = old → Z.land old EV_RWC = old →
  ∃ cl' k' mi, event_changelist_get_or_construct ro cl fd old k = Some (cl', k', mi) ∧
    cl_ok cl' ∧ idx_at (changes cl') fd k' ∧
    (∀ fd' j, fd' ≠ fd → idx_at (changes cl) fd' j → idx_at (changes cl') fd' j) ∧
    (∀ fd', cl_view kern (changes cl') fd' = cl_view kern (changes cl) fd') ∧
    (∀ i, mi = Some i → ∃ c, changes cl' !! i = Some c ∧ ch_fd c = fd).
Proof.
  intros [Hnd Hsz] Hn Hk Hv Hold. unfold event_changelist_get_or_construct.
  destruct (Z.eqb_spec k 0) as [->|Hk0].
  2:{ unfold idx_at in Hk. rewrite decide_False in Hk by done. destruct Hk as [Hk Hl].
      destruct (changes cl !! Z.to_nat (k - 1)) as [c|] eqn:Hc; simplify_eq/=.
      rewrite Z.eqb_refl. simpl. eexists _, _, _. split_and!; [done|done| |done..|].
      - unfold idx_at. rewrite decide_False, Hc by done. done.
      - intros i [= <-]. eauto. }
  rewrite (evassert_true _ (proj2 (Z.leb_le _ _) Hsz)). cbn [mbind option_bind].
  set (g := if n_changes cl =? changes_size cl then _ else _).
  assert (∃ size r, g = (mk_changelist (changes cl) size, r) ∧ n_changes cl <= size ∧
    ((r <? 0) = false → n_changes cl + 1 <= size)) as (size & r & -> & Hs1 & Hs2).
  { subst g. destruct cl as [cs sz]; unfold n_changes in *; simpl in *.
    destruct (Z.eqb_spec (Z.of_nat (length cs)) sz); [|eexists _, _; split; [done|lia]].
    unfold event_changelist_grow; simpl.
    assert (Hg : sz < (if sz <? 64 then 64 else i32 (sz * 2))).
    { destruct (Z.ltb_spec sz 64); [lia|]. unfold swrap. rewrite Z.mod_small; lia. }
    destruct (ro _); eexists _, _; (split; [done|]); lia. }
  unfold idx_at in Hk. rewrite decide_True in Hk by done.
  destruct (r <? 0); cbn [mbind option_bind].
  { eexists _, _, _. split_and!; [done|by split| |done..]. by unfold idx_at; rewrite decide_True. }
  specialize (Hs2 eq_refl). unfold n_changes in *. simpl in *.
  eexists _, _, _. split_and!; [done|..].
  - split; simpl; [|unfold n_changes; simpl; rewrite length_app; simpl; lia].
    rewrite fmap_app. simpl. apply NoDup_app. split_and!; [done| |apply NoDup_singleton].
    intros x Hx [=->]%list_elem_of_singleton. done.
  - unfold idx_at. simpl. rewrite decide_False by lia. split; [lia|].
    rewrite lookup_app_r by lia.
    by replace (Z.to_nat _ - length (changes cl))%nat with 0%nat by lia.
  - intros fd' j Hne. unfold idx_at. simpl. case_decide.
    + rewrite fmap_app. simpl. rewrite elem_of_app, list_elem_of_singleton. naive_solver.
    + intros [Hj Hl]. split; [done|].
      destruct (changes cl !! Z.to_nat (j - 1)) eqn:Hc; [|done].
      erewrite lookup_app_l_Some by done. done.
  - intros fd'. unfold cl_view. simpl. destruct (decide (fd' = fd)) as [->|Hne].
    + erewrite find_change_lookup with (i := length (changes cl)); simpl.
      2:{ rewrite fmap_app. simpl. apply NoDup_app. split_and!; [done| |apply NoDup_singleton].
          intros x Hx [=->]%list_elem_of_singleton. done. }
      2:{ rewrite lookup_app_r by lia. by rewrite Nat.sub_diag. }
      2:{ done. }
      rewrite <- Hv. unfold cl_view. rewrite find_change_None by done.
      unfold cl_view in Hv. rewrite find_change_None in Hv by done. rewrite Hv.
      unfold change_target. simpl. cbn [effective]. rewrite <- Hold at 4. by rewrite land_rwc.
    + by rewrite find_change_snoc by done.
  - intros i [= <-]. simpl. eexists. rewrite lookup_app_r by lia.
    replace (Z.to_nat _ - length (changes cl))%nat with 0%nat by lia. done.
Qed.

Lemma alter_update kern cl fd k f want cl' k' i :
  (∀ c, ch_fd (f c) = ch_fd c) → (∀ c, change_target (f c) = want (change_target c)) →
  cl_ok cl' → idx_at (changes cl') fd k' →
  (∀ fd' j, fd' ≠ fd → idx_at (changes cl) fd' j → idx_at (changes cl') fd' j) →
  (∀ fd', cl_view kern (changes cl') fd' = cl_view kern (changes cl) fd') →
  (∃ c, changes cl' !! i = Some c ∧ ch_fd c = fd) →
  cl_update kern cl fd k want
    (mk_changelist (alter f i (changes cl')) (changes_size cl')) k' 0.
Proof.
  intros Hf Ht [Hnd Hsz] Hk Hoth Hv (c & Hc & Hfd).
  assert (Hfds : ch_fd <$> alter f i (changes cl') = ch_fd <$> changes cl') by by apply alter_fds.
  split_and!; simpl.
  - split; simpl; [by rewrite Hfds|]. unfold n_changes in *. simpl. by rewrite length_alter.
  - by eapply idx_at_fds.
  - intros fd' j Hne Hj. eapply idx_at_fds; [done|auto].
  - right. split; [done|]. rewrite <- (Hv fd). unfold cl_view.
    rewrite (find_change_lookup (changes cl') fd c i) by done.
    erewrite (find_change_lookup _ fd (f c) i); [done|by rewrite Hfds| |by rewrite Hf].
    by rewrite list_lookup_alter_eq, Hc.
  - intros fd' Hne. rewrite <- (Hv fd'). unfold cl_view.
    by rewrite (find_change_alter_ne f Hf _ _ c) by (done || congruence).
Qed.

Context (kern : Z → Z) (cl : event_changelist) (fd events k : Z).
Context (Hok : cl_ok cl) (Hn : n_changes cl < 2 ^ 30) (Hk : idx_at (changes cl) fd k)
  (Hkern : Z.land (cl_view kern (changes cl) fd) EV_RWC = cl_view kern (changes cl) fd)
  (Hsig : events &? EV_SIGNAL = false).

Lemma changelist_add_spec :
  ∃ cl' k' r, event_changelist_add_ ro cl fd (cl_view kern (changes cl) fd) events k
      = Some (cl', k', r) ∧
    cl_update kern cl fd k (λ old, Z.lor old (Z.land events EV_RWC)) cl' k' r.
Proof.
  destruct (get_or_construct_spec kern cl fd _ k Hok Hn Hk eq_refl Hkern)
    as (cl' & k' & mi & Heq & Hok' & Hk' & Hoth & Hv & Hi).
  unfold event_changelist_add_. rewrite Heq. cbn [mbind option_bind].
  destruct mi as [i|]; eexists _, _, _; (split; [done|]).
  - apply alter_update; auto. intros c. by apply change_add_target.
  - split_and!; auto.
Qed.

Lemma changelist_del_spec :
  ∃ cl' k' r, event_changelist_del_ ro cl fd (cl_view kern (changes cl) fd) events k
      = Some (cl', k', r) ∧
    cl_update kern cl fd k (λ old, Z.land old (Z.lnot events)) cl' k' r.
Proof.
  destruct (get_or_construct_spec kern cl fd _ k Hok Hn Hk eq_refl Hkern)
    as (cl' & k' & mi & Heq & Hok' & Hk' & Hoth & Hv & Hi).
  unfold event_changelist_del_. rewrite Heq. cbn [mbind option_bind].
  destruct mi as [i|]; eexists _, _, _; (split; [done|]).
  - apply alter_update; auto. intros c. by apply change_del_target.
  - split_and!; auto.
Qed.

(** [event_changelist_add_] and [event_changelist_del_] coalesce: if the
    descriptor will be watched for [old] once the queue is applied, then after
    an add (a del) of [events] it will be watched for [old] and [events]
    ([old] without [events]) and no other descriptor is affected; the queue
    keeps one change per descriptor, at the index its fdinfo records.  When
    the array cannot grow the result is -1 and nothing changes. *)
Theorem changelist_coalesces :
  (∃ cl' k' r, event_changelist_add_ ro cl fd (cl_view kern (changes cl) fd) events k
      = Some (cl', k', r) ∧
    cl_update kern cl fd k (λ old, Z.lor old (Z.land events EV_RWC)) cl' k' r) ∧
  (∃ cl' k' r, event_changelist_del_ ro cl fd (cl_view kern (changes cl) fd) events k
      = Some (cl', k', r) ∧
    cl_update kern cl fd k (λ old, Z.land old (Z.lnot events)) cl' k' r).
Proof. split; [apply changelist_add_spec|apply changelist_del_spec]. Qed.
End construct.

Section remove_all.
Implicit Types (io : io_map Z) (cs : list event_change).

Definition clear_idx (m : evmap_io Z) : evmap_io Z :=
  mk_io (io_events m) (nread m) (nwrite m) (nclose m) 0.

(** The changes [cs] are those from index [i] on, and the map knows it. *)
Definition changes_at io cs (i : Z) : Prop :=
  ∀ j c, cs !! j = Some c → 0 <= ch_fd c ∧ read_change c &? EV_CHANGE_SIGNAL = false ∧
    ∃ m, io !! Z.to_nat (ch_fd c) = Some (Some m) ∧ io_fdinfo m = i + Z.of_nat j + 1.

Lemma changes_at_tail io c cs i :
  0 <= i → changes_at io (c :: cs) i →
  changes_at (alter (fmap clear_idx) (Z.to_nat (ch_fd c)) io) cs (i + 1).
Proof.
  intros Hi Hall j c' Hc'. destruct (Hall (S j) c' Hc') as (Hfd' & Hsig' & m' & Hm' & Hx').
  destruct (Hall 0%nat c eq_refl) as (Hfd & _ & m & Hm & Hx).
  split_and!; [done|done|]. exists m'. split; [|lia].
  rewrite list_lookup_alter_ne; [done|]. intros Heq. rewrite Heq in Hm. simplify_eq. lia.
Qed.

Lemma remove_all_loop_spec cs : ∀ io sigmap i, 0 <= i → changes_at io cs i →
  ∃ io', remove_all_loop cs i io sigmap = Some (io', sigmap) ∧
    ∀ n, io' !! n = if decide (n ∈ (Z.to_nat ∘ ch_fd <$> cs))
      then fmap clear_idx <$> io !! n else io !! n.
Proof.
  induction cs as [|c cs IH]; intros io sigmap i Hi Hall; [by exists io|].
  destruct (Hall 0%nat c eq_refl) as (Hfd & Hsig & m & Hm & Hx).
  destruct (IH _ sigmap (i + 1) ltac:(lia) (changes_at_tail _ _ _ _ Hi Hall)) as (io' & Hio' & Hl).
  exists io'. cbn [remove_all_loop]. unfold event_change_get_fdinfo, set_fdinfo.
  rewrite Hsig, Hm. destruct (Z.ltb_spec (ch_fd c) 0); [lia|].
  cbn [mbind option_bind mjoin option_join option_fmap option_map fmap].
  rewrite Hx, evassert_true by (apply Z.eqb_eq; lia). cbn [mbind option_bind].
  split; [exact Hio'|]. intros n. rewrite Hl, fmap_cons.
  destruct (decide (n = Z.to_nat (ch_fd c))) as [->|Hne].
  - rewrite list_lookup_alter_eq, Hm. simpl. rewrite (decide_True (P := _ ∈ _ :: _)) by (left).
    by case_decide.
  - rewrite list_lookup_alter_ne by done.
    destruct (decide (n ∈ Z.to_nat ∘ ch_fd <$> cs)).
    + by rewrite decide_True by (by right).
    + rewrite decide_False; [done|]. rewrite elem_of_cons. naive_solver.
Qed.

Lemma assert_ok_sound cl io sigmap :
  event_changelist_assert_ok cl io sigmap = true →
  Forall (λ c, read_change c &? EV_CHANGE_SIGNAL = false) (changes cl) →
  changes_at io (changes cl) 0 ∧
  ∀ n m, io !! n = Some (Some m) → io_fdinfo m ≠ 0 → n ∈ (Z.to_nat ∘ ch_fd <$> changes cl).
Proof.
  unfold event_changelist_assert_ok. rewrite !andb_true_iff, !forallb_forall.
  intros [[_ H1] H2] Hsig. rewrite Forall_lookup in Hsig. split.
  - intros j c Hc. specialize (H1 (j, c)). apply andb_prop in H1 as [Hfd Hx].
    2:{ apply list_elem_of_In, list_elem_of_lookup. exists j. by rewrite list_lookup_imap, Hc. }
    specialize (Hsig _ _ Hc). simpl in Hfd, Hx. apply bool_decide_eq_true in Hx.
    unfold event_change_get_fdinfo in Hx. rewrite Hsig in Hx.
    destruct (Z.ltb_spec (ch_fd c) 0); [done|]. split_and!; [lia|done|].
    destruct (io !! Z.to_nat (ch_fd c)) as [[m|]|]; simplify_eq/=. exists m. split; [done|lia].
  - intros n m Hm Hnz. specialize (H2 (n, Some m)). simpl in H2.
    destruct (Z.eqb_spec (io_fdinfo m) 0); [done|].
    destruct (changes cl !! _) as [ch|] eqn:Hch.
    2:{ exfalso. enough (false = true) by done. apply H2.
        apply list_elem_of_In, list_elem_of_lookup. exists n.
        by rewrite list_lookup_imap, Hm. }
    apply list_elem_of_fmap. exists ch. split; [|by eapply list_elem_of_lookup_2].
    assert (ch_fd ch = Z.of_nat n) as Hfd; [|simpl; lia].
    apply Z.eqb_eq, H2, list_elem_of_In, list_elem_of_lookup. exists n.
    by rewrite list_lookup_imap, Hm.
Qed.

Lemma assert_ok_remove_all cl io sigmap :
  event_changelist_assert_ok cl io sigmap = true →
  Forall (λ c, read_change c &? EV_CHANGE_SIGNAL = false) (changes cl) →
  ∃ cl' io', event_changelist_remove_all_ cl io sigmap = Some (cl', io', sigmap) ∧
    changes cl' = [] ∧ io' = fmap (M := list) (fmap (M := option) clear_idx) io ∧
    event_changelist_assert_ok cl' io' sigmap = true.
Proof.
  intros Hok Hsig. destruct (assert_ok_sound _ _ _ Hok Hsig) as [Hat Hin].
  destruct (remove_all_loop_spec (changes cl) io sigmap 0 ltac:(lia) Hat) as (io' & Heq & Hl).
  assert (Hio' : io' = fmap (M := list) (fmap (M := option) clear_idx) io).
  { apply list_eq. intros n. rewrite Hl, list_lookup_fmap.
    case_decide as Hn; [done|]. destruct (io !! n) as [[m|]|] eqn:Hm; simpl; [|done..].
    do 2 f_equal. destruct m as [evs r w c x]. unfold clear_idx; simpl. f_equal.
    destruct (decide (x = 0)); [done|]. destruct Hn. by eapply Hin. }
  unfold event_changelist_remove_all_. rewrite Heq. cbn [mbind option_bind].
  eexists _, _. split_and!; [done|done|done|].
  unfold event_changelist_assert_ok. simpl. rewrite andb_true_r, andb_true_iff.
  split.
  { apply andb_prop in Hok as [[Hsz _]%andb_prop _]. apply Z.leb_le in Hsz.
    apply Z.leb_le. unfold n_changes in *. simpl. lia. } apply forallb_forall. intros [n s] Hs.
  apply list_elem_of_In, list_elem_of_lookup in Hs as [j Hj].
  rewrite list_lookup_imap, Hio', list_lookup_fmap in Hj.
  destruct (io !! j) as [[m|]|]; by simplify_eq/=.
Qed.

(** [event_changelist_remove_all_] on a queue that passes
    [event_changelist_assert_ok] (and holds no signal) runs to the end without
    failing an assertion: it empties the queue, sets every fdinfo to 0 and
    leaves the rest of the map alone, so the check passes again. *)
Theorem changelist_remove_all_correct cl io sigmap :
  event_changelist_assert_ok cl io sigmap = true →
  Forall (λ c, read_change c &? EV_CHANGE_SIGNAL = false) (changes cl) →
  ∃ cl' io', event_changelist_remove_all_ cl io sigmap = Some (cl', io', sigmap) ∧
    changes cl' = [] ∧ io' = fmap (M := list) (fmap (M := option) clear_idx) io ∧
    event_changelist_assert_ok cl' io' sigmap = true.
Proof. apply assert_ok_remove_all. Qed.
End remove_all.

(** ** Witnesses *)

(** Descriptor 3 is watched for reading; a change that adds writing is queued. *)
Definition ex_cl : event_changelist :=
  mk_changelist [mk_change 3 EV_READ 0 EV_CHANGE_ADD 0] 64.
Definition ex_cl_io : io_map Z :=
  [None; None; None; Some (mk_io [1] 1 1 0 1)].

Lemma changelist_coalesces_witness :
  ∃ cl' k' r, event_changelist_del_ (λ _, true) ex_cl 3 0x06 EV_WRITE 1 = Some (cl', k', r) ∧
    cl_update (λ _, EV_READ) ex_cl 3 1 (λ old, Z.land old (Z.lnot EV_WRITE)) cl' k' r.
Proof.
  apply (changelist_coalesces (λ _, true) (λ _, EV_READ) ex_cl 3 EV_WRITE 1).
  - split; [apply NoDup_singleton|vm_compute; discriminate].
  - vm_compute. reflexivity.
  - vm_compute. split; reflexivity.
  - reflexivity.
  - reflexivity.
Defined.

Lemma changelist_remove_all_witness :
  ∃ cl' io', event_changelist_remove_all_ ex_cl ex_cl_io [] = Some (cl', io', []) ∧
    event_changelist_assert_ok cl' io' [] = true.
Proof.
  destruct (changelist_remove_all_correct ex_cl ex_cl_io []) as (cl' & io' & ? & _ & _ & ?).
  - vm_compute. reflexivity.
  - repeat constructor.
  - by exists cl', io'.
Defined.
