(* ===== verification/EpollTable.v ===== *)
(** * The operation table of the epoll backend (epolltable-internal.h)

    [epoll_op_table] gives, for the events a descriptor was watched for and the
    change wanted for each of reading, writing and closing, the [epoll_ctl]
    operation and its events.  The table is transcribed entry by entry, one
    block of 64 per value of the old events; the theorems of Epoll.v show that
    it is the function its generator describes. *)

From S2P Require Import Prelude.

Abbreviation EPOLLIN := 0x001.
Abbreviation EPOLLOUT := 0x004.
Abbreviation EPOLLERR := 0x008.
Abbreviation EPOLLHUP := 0x010.
Abbreviation EPOLLRDHUP := 0x2000.
Abbreviation EPOLLET := 0x80000000.
Abbreviation EPOLL_CTL_ADD := 1.
Abbreviation EPOLL_CTL_DEL := 2.
Abbreviation EPOLL_CTL_MOD := 3.

Record operation := mk_operation { op_events : Z; op_op : Z }.

#[local] Notation "a .| b" := (Z.lor a b) (at level 50, left associativity) : c_scope.
#[local] Notation "{ e , o }" := (mk_operation e o) (at level 0, e at level 99, o at level 99) : c_scope.

(** old=0 *)
Definition epoll_op_table_0 : list operation := [
  { 0, 0 };
  { EPOLLRDHUP, EPOLL_CTL_ADD };
  { EPOLLRDHUP, EPOLL_CTL_DEL };
  { 0, 255 };
  { EPOLLIN, EPOLL_CTL_ADD };
  { EPOLLIN .| EPOLLRDHUP, EPOLL_CTL_ADD };
  { EPOLLIN, EPOLL_CTL_ADD };
  { 0, 255 };
  { EPOLLIN, EPOLL_CTL_DEL };
  { EPOLLRDHUP, EPOLL_CTL_ADD };
  { EPOLLIN .| EPOLLRDHUP, EPOLL_CTL_DEL };
  { 0, 255 };
  { 0, 255 };
  { 0, 255 };
  { 0, 255 };
  { 0, 255 };
  { EPOLLOUT, EPOLL_CTL_ADD };
  { EPOLLOUT .| EPOLLRDHUP, EPOLL_CTL_ADD };
  { EPOLLOUT, EPOLL_CTL_ADD };
  { 0, 255 };
  { EPOLLIN .| EPOLLOUT, EPOLL_CTL_ADD };
  { EPOLLIN .| EPOLLOUT .| EPOLLRDHUP, EPOLL_CTL_ADD };
  { EPOLLIN .| EPOLLOUT, EPOLL_CTL_ADD };
  { 0, 255 };
  { EPOLLOUT, EPOLL_CTL_ADD };
  { EPOLLOUT .| EPOLLRDHUP, EPOLL_CTL_ADD };
  { EPOLLOUT, EPOLL_CTL_ADD };
  { 0, 255 };
  { 0, 255 };
  { 0, 255 };
  { 0, 255 };
  { 0, 255 };
  { EPOLLOUT, EPOLL_CTL_DEL };
  { EPOLLRDHUP, EPOLL_CTL_ADD };
  { EPOLLOUT .| EPOLLRDHUP, EPOLL_CTL_DEL };
  { 0, 255 };
  { EPOLLIN, EPOLL_CTL_ADD };
  { EPOLLIN .| EPOLLRDHUP, EPOLL_CTL_ADD };
  { EPOLLIN, EPOLL_CTL_ADD };
  { 0, 255 };
  { EPOLLIN .| EPOLLOUT, EPOLL_CTL_DEL };
  { EPOLLRDHUP, EPOLL_CTL_ADD };
  { EPOLLIN .| EPOLLOUT .| EPOLLRDHUP, EPOLL_CTL_DEL };
  { 0, 255 };
  { 0, 255 };
  { 0, 255 };
  { 0, 255 };
  { 0, 255 };
  { 0, 255 };
  { 0, 255 };
  { 0, 255 };
  { 0, 255 };
  { 0, 255 };
  { 0, 255 };
  { 0, 255 };
  { 0, 255 };
  { 0, 255 };
  { 0, 255 };
  { 0, 255 };
  { 0, 255 };
  { 0, 255 };
  { 0, 255 };
  { 0, 255 };
  { 0, 255 }
].

(** old=r *)
Definition epoll_op_table_1 : list operation := [
  { 0, 0 };
  { EPOLLIN .| EPOLLRDHUP, EPOLL_CTL_MOD };
  { EPOLLIN, EPOLL_CTL_MOD };
  { 0, 255 };
  { EPOLLIN, EPOLL_CTL_MOD };
  { EPOLLIN .| EPOLLRDHUP, EPOLL_CTL_MOD };
  { EPOLLIN, EPOLL_CTL_MOD };
  { 0, 255 };
  { EPOLLIN, EPOLL_CTL_DEL };
  { EPOLLRDHUP, EPOLL_CTL_MOD };
  { EPOLLIN .| EPOLLRDHUP, EPOLL_CTL_DEL };
  { 0, 255 };
  { 0, 255 };
  { 0, 255 };
  { 0, 255 };
  { 0, 255 };
  { EPOLLIN .| EPOLLOUT, EPOLL_CTL_MOD };
  { EPOLLIN .| EPOLLOUT .| EPOLLRDHUP, EPOLL_CTL_MOD };
  { EPOLLIN .| EPOLLOUT, EPOLL_CTL_MOD };
  { 0, 255 };
  { EPOLLIN .| EPOLLOUT, EPOLL_CTL_MOD };
  { EPOLLIN .| EPOLLOUT .| EPOLLRDHUP, EPOLL_CTL_MOD };
  { EPOLLIN .| EPOLLOUT, EPOLL_CTL_MOD };
  { 0, 255 };
  { EPOLLOUT, EPOLL_CTL_MOD };
  { EPOLLOUT .| EPOLLRDHUP, EPOLL_CTL_MOD };
  { EPOLLOUT, EPOLL_CTL_MOD };
  { 0, 255 };
  { 0, 255 };
  { 0, 255 };
  { 0, 255 };
  { 0, 255 };
  { EPOLLIN, EPOLL_CTL_MOD };
  { EPOLLIN .| EPOLLRDHUP, EPOLL_CTL_MOD };
  { EPOLLIN, EPOLL_CTL_MOD };
  { 0, 255 };
  { EPOLLIN, EPOLL_CTL_MOD };
  { EPOLLIN .| EPOLLRDHUP, EPOLL_CTL_MOD };
  { EPOLLIN, EPOLL_CTL_MOD };
  { 0, 255 };
  { EPOLLIN .| EPOLLOUT, EPOLL_CTL_DEL };
  { EPOLLRDHUP, EPOLL_CTL_MOD };
  { EPOLLIN .| EPOLLOUT .| EPOLLRDHUP, EPOLL_CTL_DEL };
  { 0, 255 };
  { 0, 255 };
  { 0, 255 };
  { 0, 255 };
  { 0, 255 };
  { 0, 255 };
  { 0, 255 };
  { 0, 255 };
  { 0, 255 };
  { 0, 255 };
  { 0, 255 };
  { 0, 255 };
  { 0, 255 };
  { 0, 255 };
  { 0, 255 };
  { 0, 255 };
  { 0, 255 };
  { 0, 255 };
  { 0, 255 };
  { 0, 255 };
  { 0, 255 }
].

(** old=w *)
Definition epoll_op_table_2 : list operation := [
  { 0, 0 };
  { EPOLLOUT .| EPOLLRDHUP, EPOLL_CTL_MOD };
  { EPOLLOUT, EPOLL_CTL_MOD };
  { 0, 255 };
  { EPOLLIN .| EPOLLOUT, EPOLL_CTL_MOD };
  { EPOLLIN .| EPOLLOUT .| EPOLLRDHUP, EPOLL_CTL_MOD };
  { EPOLLIN .| EPOLLOUT, EPOLL_CTL_MOD };
  { 0, 255 };
  { EPOLLOUT, EPOLL_CTL_MOD };
  { EPOLLOUT .| EPOLLRDHUP, EPOLL_CTL_MOD };
  { EPOLLOUT, EPOLL_CTL_MOD };
  { 0, 255 };
  { 0, 255 };
  { 0, 255 };
  { 0, 255 };
  { 0, 255 };
  { EPOLLOUT, EPOLL_CTL_MOD };
  { EPOLLOUT .| EPOLLRDHUP, EPOLL_CTL_MOD };
  { EPOLLOUT, EPOLL_CTL_MOD };
  { 0, 255 };
  { EPOLLIN .| EPOLLOUT, EPOLL_CTL_MOD };
  { EPOLLIN .| EPOLLOUT .| EPOLLRDHUP, EPOLL_CTL_MOD };
  { EPOLLIN .| EPOLLOUT, EPOLL_CTL_MOD };
  { 0, 255 };
  { EPOLLOUT, EPOLL_CTL_MOD };
  { EPOLLOUT .| EPOLLRDHUP, EPOLL_CTL_MOD };
  { EPOLLOUT, EPOLL_CTL_MOD };
  { 0, 255 };
  { 0, 255 };
  { 0, 255 };
  { 0, 255 };
  { 0, 255 };
  { EPOLLOUT, EPOLL_CTL_DEL };
  { EPOLLRDHUP, EPOLL_CTL_MOD };
  { EPOLLOUT .| EPOLLRDHUP, EPOLL_CTL_DEL };
  { 0, 255 };
  { EPOLLIN, EPOLL_CTL_MOD };
  { EPOLLIN .| EPOLLRDHUP, EPOLL_CTL_MOD };
  { EPOLLIN, EPOLL_CTL_MOD };
  { 0, 255 };
  { EPOLLIN .| EPOLLOUT, EPOLL_CTL_DEL };
  { EPOLLRDHUP, EPOLL_CTL_MOD };
  { EPOLLIN .| EPOLLOUT .| EPOLLRDHUP, EPOLL_CTL_DEL };
  { 0, 255 };
  { 0, 255 };
  { 0, 255 };
  { 0, 255 };
  { 0, 255 };
  { 0, 255 };
  { 0, 255 };
  { 0, 255 };
  { 0, 255 };
  { 0, 255 };
  { 0, 255 };
  { 0, 255 };
  { 0, 255 };
  { 0, 255 };
  { 0, 255 };
  { 0, 255 };
  { 0, 255 };
  { 0, 255 };
  { 0, 255 };
  { 0, 255 };
  { 0, 255 }
].

(** old=rw *)
Definition epoll_op_table_3 : list operation := [
  { 0, 0 };
  { EPOLLIN .| EPOLLOUT .| EPOLLRDHUP, EPOLL_CTL_MOD };
  { EPOLLIN .| EPOLLOUT, EPOLL_CTL_MOD };
  { 0, 255 };
  { EPOLLIN .| EPOLLOUT, EPOLL_CTL_MOD };
  { EPOLLIN .| EPOLLOUT .| EPOLLRDHUP, EPOLL_CTL_MOD };
  { EPOLLIN .| EPOLLOUT, EPOLL_CTL_MOD };
  { 0, 255 };
  { EPOLLOUT, EPOLL_CTL_MOD };
  { EPOLLOUT .| EPOLLRDHUP, EPOLL_CTL_MOD };
  { EPOLLOUT, EPOLL_CTL_MOD };
  { 0, 255 };
  { 0, 255 };
  { 0, 255 };
  { 0, 255 };
  { 0, 255 };
  { EPOLLIN .| EPOLLOUT, EPOLL_CTL_MOD };
  { EPOLLIN .| EPOLLOUT .| EPOLLRDHUP, EPOLL_CTL_MOD };
  { EPOLLIN .| EPOLLOUT, EPOLL_CTL_MOD };
  { 0, 255 };
  { EPOLLIN .| EPOLLOUT, EPOLL_CTL_MOD };
  { EPOLLIN .| EPOLLOUT .| EPOLLRDHUP, EPOLL_CTL_MOD };
  { EPOLLIN .| EPOLLOUT, EPOLL_CTL_MOD };
  { 0, 255 };
  { EPOLLOUT, EPOLL_CTL_MOD };
  { EPOLLOUT .| EPOLLRDHUP, EPOLL_CTL_MOD };
  { EPOLLOUT, EPOLL_CTL_MOD };
  { 0, 255 };
  { 0, 255 };
  { 0, 255 };
  { 0, 255 };
  { 0, 255 };
  { EPOLLIN, EPOLL_CTL_MOD };
  { EPOLLIN .| EPOLLRDHUP, EPOLL_CTL_MOD };
  { EPOLLIN, EPOLL_CTL_MOD };
  { 0, 255 };
  { EPOLLIN, EPOLL_CTL_MOD };
  { EPOLLIN .| EPOLLRDHUP, EPOLL_CTL_MOD };
  { EPOLLIN, EPOLL_CTL_MOD };
  { 0, 255 };
  { EPOLLIN .| EPOLLOUT, EPOLL_CTL_DEL };
  { EPOLLRDHUP, EPOLL_CTL_MOD };
  { EPOLLIN .| EPOLLOUT .| EPOLLRDHUP, EPOLL_CTL_DEL };
  { 0, 255 };
  { 0, 255 };
  { 0, 255 };
  { 0, 255 };
  { 0, 255 };
  { 0, 255 };
  { 0, 255 };
  { 0, 255 };
  { 0, 255 };
  { 0, 255 };
  { 0, 255 };
  { 0, 255 };
  { 0, 255 };
  { 0, 255 };
  { 0, 255 };
  { 0, 255 };
  { 0, 255 };
  { 0, 255 };
  { 0, 255 };
  { 0, 255 };
  { 0, 255 }
].

(** old=c *)
Definition epoll_op_table_4 : list operation := [
  { 0, 0 };
  { EPOLLRDHUP, EPOLL_CTL_MOD };
  { EPOLLRDHUP, EPOLL_CTL_DEL };
  { 0, 255 };
  { EPOLLIN .| EPOLLRDHUP, EPOLL_CTL_MOD };
  { EPOLLIN .| EPOLLRDHUP, EPOLL_CTL_MOD };
  { EPOLLIN, EPOLL_CTL_MOD };
  { 0, 255 };
  { EPOLLRDHUP, EPOLL_CTL_MOD };
  { EPOLLRDHUP, EPOLL_CTL_MOD };
  { EPOLLIN .| EPOLLRDHUP, EPOLL_CTL_DEL };
  { 0, 255 };
  { 0, 255 };
  { 0, 255 };
  { 0, 255 };
  { 0, 255 };
  { EPOLLOUT .| EPOLLRDHUP, EPOLL_CTL_MOD };
  { EPOLLOUT .| EPOLLRDHUP, EPOLL_CTL_MOD };
  { EPOLLOUT, EPOLL_CTL_MOD };
  { 0, 255 };
  { EPOLLIN .| EPOLLOUT .| EPOLLRDHUP, EPOLL_CTL_MOD };
  { EPOLLIN .| EPOLLOUT .| EPOLLRDHUP, EPOLL_CTL_MOD };
  { EPOLLIN .| EPOLLOUT, EPOLL_CTL_MOD };
  { 0, 255 };
  { EPOLLOUT .| EPOLLRDHUP, EPOLL_CTL_MOD };
  { EPOLLOUT .| EPOLLRDHUP, EPOLL_CTL_MOD };
  { EPOLLOUT, EPOLL_CTL_MOD };
  { 0, 255 };
  { 0, 255 };
  { 0, 255 };
  { 0, 255 };
  { 0, 255 };
  { EPOLLRDHUP, EPOLL_CTL_MOD };
  { EPOLLRDHUP, EPOLL_CTL_MOD };
  { EPOLLOUT .| EPOLLRDHUP, EPOLL_CTL_DEL };
  { 0, 255 };
  { EPOLLIN .| EPOLLRDHUP, EPOLL_CTL_MOD };
  { EPOLLIN .| EPOLLRDHUP, EPOLL_CTL_MOD };
  { EPOLLIN, EPOLL_CTL_MOD };
  { 0, 255 };
  { EPOLLRDHUP, EPOLL_CTL_MOD };
  { EPOLLRDHUP, EPOLL_CTL_MOD };
  { EPOLLIN .| EPOLLOUT .| EPOLLRDHUP, EPOLL_CTL_DEL };
  { 0, 255 };
  { 0, 255 };
  { 0, 255 };
  { 0, 255 };
  { 0, 255 };
  { 0, 255 };
  { 0, 255 };
  { 0, 255 };
  { 0, 255 };
  { 0, 255 };
  { 0, 255 };
  { 0, 255 };
  { 0, 255 };
  { 0, 255 };
  { 0, 255 };
  { 0, 255 };
  { 0, 255 };
  { 0, 255 };
  { 0, 255 };
  { 0, 255 };
  { 0, 255 }
].

(** old=cr *)
Definition epoll_op_table_5 : list operation := [
  { 0, 0 };
  { EPOLLIN .| EPOLLRDHUP, EPOLL_CTL_MOD };
  { EPOLLIN, EPOLL_CTL_MOD };
  { 0, 255 };
  { EPOLLIN .| EPOLLRDHUP, EPOLL_CTL_MOD };
  { EPOLLIN .| EPOLLRDHUP, EPOLL_CTL_MOD };
  { EPOLLIN, EPOLL_CTL_MOD };
  { 0, 255 };
  { EPOLLRDHUP, EPOLL_CTL_MOD };
  { EPOLLRDHUP, EPOLL_CTL_MOD };
  { EPOLLIN .| EPOLLRDHUP, EPOLL_CTL_DEL };
  { 0, 255 };
  { 0, 255 };
  { 0, 255 };
  { 0, 255 };
  { 0, 255 };
  { EPOLLIN .| EPOLLOUT .| EPOLLRDHUP, EPOLL_CTL_MOD };
  { EPOLLIN .| EPOLLOUT .| EPOLLRDHUP, EPOLL_CTL_MOD };
  { EPOLLIN .| EPOLLOUT, EPOLL_CTL_MOD };
  { 0, 255 };
  { EPOLLIN .| EPOLLOUT .| EPOLLRDHUP, EPOLL_CTL_MOD };
  { EPOLLIN .| EPOLLOUT .| EPOLLRDHUP, EPOLL_CTL_MOD };
  { EPOLLIN .| EPOLLOUT, EPOLL_CTL_MOD };
  { 0, 255 };
  { EPOLLOUT .| EPOLLRDHUP, EPOLL_CTL_MOD };
  { EPOLLOUT .| EPOLLRDHUP, EPOLL_CTL_MOD };
  { EPOLLOUT, EPOLL_CTL_MOD };
  { 0, 255 };
  { 0, 255 };
  { 0, 255 };
  { 0, 255 };
  { 0, 255 };
  { EPOLLIN .| EPOLLRDHUP, EPOLL_CTL_MOD };
  { EPOLLIN .| EPOLLRDHUP, EPOLL_CTL_MOD };
  { EPOLLIN, EPOLL_CTL_MOD };
  { 0, 255 };
  { EPOLLIN .| EPOLLRDHUP, EPOLL_CTL_MOD };
  { EPOLLIN .| EPOLLRDHUP, EPOLL_CTL_MOD };
  { EPOLLIN, EPOLL_CTL_MOD };
  { 0, 255 };
  { EPOLLRDHUP, EPOLL_CTL_MOD };
  { EPOLLRDHUP, EPOLL_CTL_MOD };
  { EPOLLIN .| EPOLLOUT .| EPOLLRDHUP, EPOLL_CTL_DEL };
  { 0, 255 };
  { 0, 255 };
  { 0, 255 };
  { 0, 255 };
  { 0, 255 };
  { 0, 255 };
  { 0, 255 };
  { 0, 255 };
  { 0, 255 };
  { 0, 255 };
  { 0, 255 };
  { 0, 255 };
  { 0, 255 };
  { 0, 255 };
  { 0, 255 };
  { 0, 255 };
  { 0, 255 };
  { 0, 255 };
  { 0, 255 };
  { 0, 255 };
  { 0, 255 }
].

(** old=cw *)
Definition epoll_op_table_6 : list operation := [
  { 0, 0 };
  { EPOLLOUT .| EPOLLRDHUP, EPOLL_CTL_MOD };
  { EPOLLOUT, EPOLL_CTL_MOD };
  { 0, 255 };
  { EPOLLIN .| EPOLLOUT .| EPOLLRDHUP, EPOLL_CTL_MOD };
  { EPOLLIN .| EPOLLOUT .| EPOLLRDHUP, EPOLL_CTL_MOD };
  { EPOLLIN .| EPOLLOUT, EPOLL_CTL_MOD };
  { 0, 255 };
  { EPOLLOUT .| EPOLLRDHUP, EPOLL_CTL_MOD };
  { EPOLLOUT .| EPOLLRDHUP, EPOLL_CTL_MOD };
  { EPOLLOUT, EPOLL_CTL_MOD };
  { 0, 255 };
  { 0, 255 };
  { 0, 255 };
  { 0, 255 };
  { 0, 255 };
  { EPOLLOUT .| EPOLLRDHUP, EPOLL_CTL_MOD };
  { EPOLLOUT .| EPOLLRDHUP, EPOLL_CTL_MOD };
  { EPOLLOUT, EPOLL_CTL_MOD };
  { 0, 255 };
  { EPOLLIN .| EPOLLOUT .| EPOLLRDHUP, EPOLL_CTL_MOD };
  { EPOLLIN .| EPOLLOUT .| EPOLLRDHUP, EPOLL_CTL_MOD };
  { EPOLLIN .| EPOLLOUT, EPOLL_CTL_MOD };
  { 0, 255 };
  { EPOLLOUT .| EPOLLRDHUP, EPOLL_CTL_MOD };
  { EPOLLOUT .| EPOLLRDHUP, EPOLL_CTL_MOD };
  { EPOLLOUT, EPOLL_CTL_MOD };
  { 0, 255 };
  { 0, 255 };
  { 0, 255 };
  { 0, 255 };
  { 0, 255 };
  { EPOLLRDHUP, EPOLL_CTL_MOD };
  { EPOLLRDHUP, EPOLL_CTL_MOD };
  { EPOLLOUT .| EPOLLRDHUP, EPOLL_CTL_DEL };
  { 0, 255 };
  { EPOLLIN .| EPOLLRDHUP, EPOLL_CTL_MOD };
  { EPOLLIN .| EPOLLRDHUP, EPOLL_CTL_MOD };
  { EPOLLIN, EPOLL_CTL_MOD };
  { 0, 255 };
  { EPOLLRDHUP, EPOLL_CTL_MOD };
  { EPOLLRDHUP, EPOLL_CTL_MOD };
  { EPOLLIN .| EPOLLOUT .| EPOLLRDHUP, EPOLL_CTL_DEL };
  { 0, 255 };
  { 0, 255 };
  { 0, 255 };
  { 0, 255 };
  { 0, 255 };
  { 0, 255 };
  { 0, 255 };
  { 0, 255 };
  { 0, 255 };
  { 0, 255 };
  { 0, 255 };
  { 0, 255 };
  { 0, 255 };
  { 0, 255 };
  { 0, 255 };
  { 0, 255 };
  { 0, 255 };
  { 0, 255 };
  { 0, 255 };
  { 0, 255 };
  { 0, 255 }
].

(** old=crw *)
Definition epoll_op_table_7 : list operation := [
  { 0, 0 };
  { EPOLLIN .| EPOLLOUT .| EPOLLRDHUP, EPOLL_CTL_MOD };
  { EPOLLIN .| EPOLLOUT, EPOLL_CTL_MOD };
  { 0, 255 };
  { EPOLLIN .| EPOLLOUT .| EPOLLRDHUP, EPOLL_CTL_MOD };
  { EPOLLIN .| EPOLLOUT .| EPOLLRDHUP, EPOLL_CTL_MOD };
  { EPOLLIN .| EPOLLOUT, EPOLL_CTL_MOD };
  { 0, 255 };
  { EPOLLOUT .| EPOLLRDHUP, EPOLL_CTL_MOD };
  { EPOLLOUT .| EPOLLRDHUP, EPOLL_CTL_MOD };
  { EPOLLOUT, EPOLL_CTL_MOD };
  { 0, 255 };
  { 0, 255 };
  { 0, 255 };
  { 0, 255 };
  { 0, 255 };
  { EPOLLIN .| EPOLLOUT .| EPOLLRDHUP, EPOLL_CTL_MOD };
  { EPOLLIN .| EPOLLOUT .| EPOLLRDHUP, EPOLL_CTL_MOD };
  { EPOLLIN .| EPOLLOUT, EPOLL_CTL_MOD };
  { 0, 255 };
  { EPOLLIN .| EPOLLOUT .| EPOLLRDHUP, EPOLL_CTL_MOD };
  { EPOLLIN .| EPOLLOUT .| EPOLLRDHUP, EPOLL_CTL_MOD };
  { EPOLLIN .| EPOLLOUT, EPOLL_CTL_MOD };
  { 0, 255 };
  { EPOLLOUT .| EPOLLRDHUP, EPOLL_CTL_MOD };
  { EPOLLOUT .| EPOLLRDHUP, EPOLL_CTL_MOD };
  { EPOLLOUT, EPOLL_CTL_MOD };
  { 0, 255 };
  { 0, 255 };
  { 0, 255 };
  { 0, 255 };
  { 0, 255 };
  { EPOLLIN .| EPOLLRDHUP, EPOLL_CTL_MOD };
  { EPOLLIN .| EPOLLRDHUP, EPOLL_CTL_MOD };
  { EPOLLIN, EPOLL_CTL_MOD };
  { 0, 255 };
  { EPOLLIN .| EPOLLRDHUP, EPOLL_CTL_MOD };
  { EPOLLIN .| EPOLLRDHUP, EPOLL_CTL_MOD };
  { EPOLLIN, EPOLL_CTL_MOD };
  { 0, 255 };
  { EPOLLRDHUP, EPOLL_CTL_MOD };
  { EPOLLRDHUP, EPOLL_CTL_MOD };
  { EPOLLIN .| EPOLLOUT .| EPOLLRDHUP, EPOLL_CTL_DEL };
  { 0, 255 };
  { 0, 255 };
  { 0, 255 };
  { 0, 255 };
  { 0, 255 };
  { 0, 255 };
  { 0, 255 };
  { 0, 255 };
  { 0, 255 };
  { 0, 255 };
  { 0, 255 };
  { 0, 255 };
  { 0, 255 };
  { 0, 255 };
  { 0, 255 };
  { 0, 255 };
  { 0, 255 };
  { 0, 255 };
  { 0, 255 };
  { 0, 255 };
  { 0, 255 }
].

Definition epoll_op_table : list operation :=
  epoll_op_table_0 ++ epoll_op_table_1 ++ epoll_op_table_2 ++ epoll_op_table_3 ++
  epoll_op_table_4 ++ epoll_op_table_5 ++ epoll_op_table_6 ++ epoll_op_table_7.
