(* ===== verification/Epoll.v ===== *)
(** * The epoll backend (epoll.c)

    A change of the interest in a descriptor is looked up in the operation table
    and made with [epoll_ctl]; changes come directly from the maps
    ([epoll_nochangelist_add/del]) or from the changelist just before
    [epoll_wait].  The kernel is a parameter: [EpollKernel] has the system
    calls, [EpollLaws] what epoll_ctl(2) documents of them.  The theorems show
    that the table is the function its generator describes, that the kernel ends
    up watching exactly what the maps want, and that the backend is a lawful
    [EventOp], so that the theorems of EvMap.v apply to it. *)

From S2P Require Import Prelude TimeVal MinHeap EvMap EpollTable Changelist.

(** errno values *)
Abbreviation EPERM := 1.
Abbreviation ENOENT := 2.
Abbreviation EINTR := 4.
Abbreviation EBADF := 9.
Abbreviation EEXIST := 17.

Class EpollKernel (K : Type) := {
  (** [epoll_ctl k op fd events]: 0, or the errno of a failure. *)
  epoll_ctl : K → Z → Z → Z → K * Z;
  (** [epoll_wait k maxevents timeout]: an errno or the (fd, events) reported. *)
  epoll_wait : K → Z → Z → K * (Z + list (Z * Z));
  (** [timerfd_settime k fd value], with the value in seconds and nanoseconds. *)
  timerfd_settime : K → Z → Z * Z → K
}.

Definition EPOLL_OP_TABLE_INDEX (c : event_change) : Z :=
  Z.lor (Z.lor (Z.lor (Z.lor
    (Z.land (close_change c) (Z.lor EV_CHANGE_ADD EV_CHANGE_DEL))
    (Z.shiftl (Z.land (read_change c) (Z.lor EV_CHANGE_ADD EV_CHANGE_DEL)) 2))
    (Z.shiftl (Z.land (write_change c) (Z.lor EV_CHANGE_ADD EV_CHANGE_DEL)) 4))
    (Z.shiftl (Z.land (old_events c) (Z.lor EV_READ EV_WRITE)) 5))
    (Z.shiftl (Z.land (old_events c) EV_CLOSED) 1).

(** [MAX_EPOLL_TIMEOUT_MSEC], [MAX_NEVENT] *)
Definition MAX_EPOLL_TIMEOUT_MSEC : Z := 35 * 60 * 1000.
Definition INITIAL_NEVENT : Z := 32.
Definition MAX_NEVENT : Z := 4096.

(** The size of the [events] array and the timerfd (-1 when not used). *)
Record epollop := mk_epollop { nevents : Z; timerfd : Z }.

Section epoll.
Context {K : Type} `{EpollKernel K}.

Definition epoll_apply_one_change (k : K) (ch : event_change) : option (K * Z) :=
  entry ← epoll_op_table !! Z.to_nat (EPOLL_OP_TABLE_INDEX ch);
  let op := op_op entry in
  let events := op_events entry in
  if events =? 0 then ASSERT (op =? 0) ;; Some (k, 0) else
  let events := if Z.lor (read_change ch) (write_change ch) &? EV_CHANGE_ET
    then Z.lor events EPOLLET else events in
  let '(k, errno) := epoll_ctl k op (ch_fd ch) events in
  if errno =? 0 then Some (k, 0) else
  if op =? EPOLL_CTL_MOD then
    if errno =? ENOENT then
      let '(k, errno) := epoll_ctl k EPOLL_CTL_ADD (ch_fd ch) events in
      if negb (errno =? 0) then Some (k, -1) else Some (k, 0)
    else Some (k, -1)
  else if op =? EPOLL_CTL_ADD then
    if errno =? EEXIST then
      let '(k, errno) := epoll_ctl k EPOLL_CTL_MOD (ch_fd ch) events in
      if negb (errno =? 0) then Some (k, -1) else Some (k, 0)
    else Some (k, -1)
  else if op =? EPOLL_CTL_DEL then
    if (errno =? ENOENT) || (errno =? EBADF) || (errno =? EPERM)
    then Some (k, 0) else Some (k, -1)
  else Some (k, -1).

Fixpoint apply_changes_loop (k : K) (cs : list event_change) (r : Z) : option (K * Z) :=
  match cs with
  | [] => Some (k, r)
  | ch :: cs =>
    '(k, r1) ← epoll_apply_one_change k ch;
    apply_changes_loop k cs (if r1 <? 0 then -1 else r)
  end.

Definition epoll_apply_changes (k : K) (cl : event_changelist) : option (K * Z) :=
  apply_changes_loop k (changes cl) 0.

Definition nochangelist_add_change (fd old events : Z) : event_change :=
  let how := Z.lor EV_CHANGE_ADD (Z.land events EV_ET) in
  mk_change fd old
    (if events &? EV_READ then how else 0)
    (if events &? EV_WRITE then how else 0)
    (if events &? EV_CLOSED then how else 0).

Definition epoll_nochangelist_add (k : K) (fd old events : Z) : option (K * Z) :=
  epoll_apply_one_change k (nochangelist_add_change fd old events).

Definition nochangelist_del_change (fd old events : Z) : event_change :=
  mk_change fd old
    (if events &? EV_READ then EV_CHANGE_DEL else 0)
    (if events &? EV_WRITE then EV_CHANGE_DEL else 0)
    (if events &? EV_CLOSED then EV_CHANGE_DEL else 0).

Definition epoll_nochangelist_del (k : K) (fd old events : Z) : option (K * Z) :=
  epoll_apply_one_change k (nochangelist_del_change fd old events).

(** ** Dispatch *)

(** The timer set on the timerfd and the timeout for [epoll_wait]. *)
Definition dispatch_timeout (op : epollop) (tv : option timeval) : option (Z * Z) * Z :=
  if 0 <=? timerfd op then
    match tv with
    | None => (Some (0, 0), -1)
    | Some tv =>
      (Some (tv_sec tv, tv_usec tv * 1000),
       if (tv_sec tv =? 0) && (tv_usec tv =? 0) then 0 else -1)
    end
  else
    match tv with
    | None => (None, -1)
    | Some tv =>
      let timeout := evutil_tv_to_msec_ tv in
      (None, if (timeout <? 0) || (MAX_EPOLL_TIMEOUT_MSEC <? timeout)
             then MAX_EPOLL_TIMEOUT_MSEC else timeout)
    end.

Definition epoll_to_ev (what : Z) : Z :=
  if what &? Z.lor EPOLLHUP EPOLLERR then Z.lor EV_READ EV_WRITE else
  let ev := if what &? EPOLLIN then EV_READ else 0 in
  let ev := if what &? EPOLLOUT then Z.lor ev EV_WRITE else ev in
  if what &? EPOLLRDHUP then Z.lor ev EV_CLOSED else ev.

(** The calls of [evmap_io_active_] for the reported events. *)
Fixpoint dispatch_events (op : epollop) (evs : list (Z * Z)) : list (Z * Z) :=
  match evs with
  | [] => []
  | (fd, what) :: evs =>
    if fd =? timerfd op then dispatch_events op evs else
    let ev := epoll_to_ev what in
    if ev =? 0 then dispatch_events op evs
    else (fd, Z.lor ev EV_ET) :: dispatch_events op evs
  end.

Record epoll_state := mk_epoll {
  ep_kernel : K;
  ep_op : epollop;
  ep_changelist : event_changelist;
  ep_io : io_map Z;
  ep_sigmap : list (option Z)
}.

Variable mm_realloc_ok : Z → bool.
Definition sizeof_epoll_event : Z := 12.

(** The new state, the descriptors made active and the result. *)
Definition epoll_dispatch (s : epoll_state) (tv : option timeval)
    : option (epoll_state * list (Z * Z) * Z) :=
  let op := ep_op s in
  let '(timer, timeout) := dispatch_timeout op tv in
  let k := match timer with
    | Some v => timerfd_settime (ep_kernel s) (timerfd op) v | None => ep_kernel s end in
  '(k, _) ← epoll_apply_changes k (ep_changelist s);
  '(cl, io, sigmap) ← event_changelist_remove_all_ (ep_changelist s) (ep_io s) (ep_sigmap s);
  let '(k, res) := epoll_wait k (nevents op) timeout in
  match res with
  | inl errno =>
    Some (mk_epoll k op cl io sigmap, [], if negb (errno =? EINTR) then -1 else 0)
  | inr evs =>
    let n := Z.of_nat (length evs) in
    ASSERT (n <=? nevents op) ;;
    let act := dispatch_events op evs in
    let op := if (n =? nevents op) && (nevents op <? MAX_NEVENT) then
        let new_nevents := nevents op * 2 in
        if mm_realloc_ok (new_nevents * sizeof_epoll_event)
        then mk_epollop new_nevents (timerfd op) else op
      else op in
    Some (mk_epoll k op cl io sigmap, act, 0)
  end.
End epoll.
Arguments epoll_state K : clear implicits.
Arguments mk_epoll {K}.

(** ** The table and its generator

    [get] of make_epoll_table.py. *)

Inductive chg := Nochange | Add | Del | Xxx.
#[export] Instance chg_eq : EqDecision chg.
Proof. solve_decision. Defined.

Definition chg_of (x : Z) : chg :=
  match Z.land x 3 with 0 => Nochange | 1 => Add | 2 => Del | _ => Xxx end.

Definition joined (r w c : bool) : Z :=
  Z.lor (Z.lor (if r then EPOLLIN else 0) (if w then EPOLLOUT else 0))
        (if c then EPOLLRDHUP else 0).

Definition op_reference (old_r old_w old_c : bool) (wc rc cc : chg) : operation :=
  let same a b := bool_decide (a = b) in
  let any x := same rc x || same wc x || same cc x in
  if any Xxx then mk_operation 0 255 else
  if any Add then
    mk_operation
      (joined (same rc Add || negb (same rc Del) && old_r)
              (same wc Add || negb (same wc Del) && old_w)
              (same cc Add || negb (same cc Del) && old_c))
      (if negb old_r && negb old_w && negb old_c then EPOLL_CTL_ADD else EPOLL_CTL_MOD)
  else if any Del then
    let r := old_r && negb (same rc Del) in
    let w := old_w && negb (same wc Del) in
    let c := old_c && negb (same cc Del) in
    if r || w || c then mk_operation (joined r w c) EPOLL_CTL_MOD
    else mk_operation (joined (same rc Del) (same wc Del) (same cc Del)) EPOLL_CTL_DEL
  else mk_operation 0 0.

Lemma land_3_cases x : Z.land x 3 = 0 ∨ Z.land x 3 = 1 ∨ Z.land x 3 = 2 ∨ Z.land x 3 = 3.
Proof.
  change 3 with (Z.ones 2). rewrite Z.land_ones by lia.
  change (2 ^ 2) with 4. pose proof (Z.mod_pos_bound x 4 ltac:(lia)).
  change (Z.ones 2) with 3. lia.
Qed.

Lemma old_split x :
  Z.land x (Z.lor EV_READ EV_WRITE) =
    Z.lor (if x &? EV_READ then EV_READ else 0) (if x &? EV_WRITE then EV_WRITE else 0) ∧
  Z.land x EV_CLOSED = if x &? EV_CLOSED then EV_CLOSED else 0.
Proof.
  split; [rewrite Z.land_lor_distr_r; f_equal|]; unfold flag;
    [apply (land_flag x 1)|apply (land_flag x 2)|apply (land_flag x 7)]; lia.
Qed.

Lemma epoll_table_lookup ch :
  epoll_op_table !! Z.to_nat (EPOLL_OP_TABLE_INDEX ch) =
  Some (op_reference (old_events ch &? EV_READ) (old_events ch &? EV_WRITE)
          (old_events ch &? EV_CLOSED)
          (chg_of (write_change ch)) (chg_of (read_change ch)) (chg_of (close_change ch))).
Proof.
  unfold EPOLL_OP_TABLE_INDEX, chg_of. change (Z.lor EV_CHANGE_ADD EV_CHANGE_DEL) with 3.
  destruct (old_split (old_events ch)) as [-> ->].
  destruct (land_3_cases (write_change ch)) as [->|[->|[->| ->]]],
    (land_3_cases (read_change ch)) as [->|[->|[->| ->]]],
    (land_3_cases (close_change ch)) as [->|[->|[->| ->]]],
    (old_events ch &? EV_READ), (old_events ch &? EV_WRITE), (old_events ch &? EV_CLOSED);
    vm_compute; reflexivity.
Qed.

(** C39. All 512 entries of [epoll_op_table], at the index
    [EPOLL_OP_TABLE_INDEX] computes for any change whatever, are the entries the
    generator's rules prescribe for the change; in particular the lookup is in
    bounds.  One rule is not the one of the comment in epolltable-internal.h: an
    entry for adding and deleting at once has 255 for its operation and 0 for
    its events, where the comment says -1. *)
Theorem epoll_op_table_correct ch :
  length epoll_op_table = 512%nat ∧ 0 <= EPOLL_OP_TABLE_INDEX ch < 512 ∧
  epoll_op_table !! Z.to_nat (EPOLL_OP_TABLE_INDEX ch) =
  Some (op_reference (old_events ch &? EV_READ) (old_events ch &? EV_WRITE)
          (old_events ch &? EV_CLOSED)
          (chg_of (write_change ch)) (chg_of (read_change ch)) (chg_of (close_change ch))).
Proof.
  pose proof (epoll_table_lookup ch) as Hl. split_and!; [done| | |done].
  - unfold EPOLL_OP_TABLE_INDEX. rewrite !Z.lor_nonneg. repeat split;
      rewrite ?Z.shiftl_nonneg, ?Z.land_nonneg; right; done.
  - apply lookup_lt_Some in Hl. change (length epoll_op_table) with 512%nat in Hl. lia.
Qed.

(** ** The kernel *)

(** [interest k fd]: the events the kernel watches the open file of [fd] for, if
    it is registered; [watchable k fd]: [fd] is open and its file supports epoll.
    The laws are those of epoll_ctl(2): an operation that succeeds does what it
    says and touches no other descriptor; one that fails changes nothing; ENOENT
    is the answer for a descriptor that is not registered, EBADF for one that is
    not open (or when there is no epoll instance), EPERM for a file that does not
    support epoll, and only a descriptor that can be watched is registered. *)
Class EpollLaws {K} `{EpollKernel K} (interest : K → Z → option Z) := {
  watchable : K → Z → Prop;
  interest_watchable k fd ev : interest k fd = Some ev → watchable k fd;
  ctl_done k op fd ev k' :
    epoll_ctl k op fd ev = (k', 0) → op ∈ [EPOLL_CTL_ADD; EPOLL_CTL_MOD; EPOLL_CTL_DEL] →
    interest k' fd = (if decide (op = EPOLL_CTL_DEL) then None else Some ev) ∧
    ∀ fd', fd' ≠ fd → interest k' fd' = interest k fd';
  ctl_failed k op fd ev k' e :
    epoll_ctl k op fd ev = (k', e) → e ≠ 0 → ∀ fd', interest k' fd' = interest k fd';
  ctl_enoent k op fd ev k' :
    epoll_ctl k op fd ev = (k', ENOENT) → interest k fd = None;
  ctl_ebadf k op fd ev k' : epoll_ctl k op fd ev = (k', EBADF) → ¬ watchable k fd;
  ctl_eperm k op fd ev k' : epoll_ctl k op fd ev = (k', EPERM) → ¬ watchable k fd;
  settime_interest k t v fd : interest (timerfd_settime k t v) fd = interest k fd;
  wait_maxevents k n t evs : 0 <= n → (epoll_wait k n t).2 = inr evs → Z.of_nat (length evs) <= n
}.

(** What the kernel watches a descriptor for, as event flags: reading, writing
    and closing.  EPOLLET is left out; the backend does not keep it (see
    [epoll_del_drops_edge_trigger]). *)
Definition epoll_reg {K} (interest : K → Z → option Z) (k : K) (fd : Z) : Z :=
  match interest k fd with
  | Some ev => rwc (ev &? EPOLLIN) (ev &? EPOLLOUT) (ev &? EPOLLRDHUP)
  | None => 0
  end.

(** A change asks for something. *)
Definition has_change (ch : event_change) : bool :=
  negb (bool_decide (chg_of (read_change ch) = Nochange ∧
    chg_of (write_change ch) = Nochange ∧ chg_of (close_change ch) = Nochange)).

Definition change_ok (ch : event_change) : Prop :=
  chg_of (read_change ch) ≠ Xxx ∧ chg_of (write_change ch) ≠ Xxx ∧
  chg_of (close_change ch) ≠ Xxx.

Lemma chg_flags x :
  (x &? EV_CHANGE_ADD = bool_decide (chg_of x = Add ∨ chg_of x = Xxx)) ∧
  (x &? EV_CHANGE_DEL = bool_decide (chg_of x = Del ∨ chg_of x = Xxx)).
Proof.
  assert (Hf : ∀ m, Z.land 3 m = m → x &? m = (Z.land x 3 &? m)).
  { intros m Hm. unfold flag. by rewrite <- Z.land_assoc, Hm. }
  rewrite (Hf EV_CHANGE_ADD), (Hf EV_CHANGE_DEL) by done. unfold chg_of.
  destruct (land_3_cases x) as [->|[->|[->| ->]]]; done.
Qed.

Lemma effective_chg x old : chg_of x ≠ Xxx →
  effective x old = match chg_of x with Add => true | Del => false | _ => old end.
Proof.
  intros Hx. unfold effective. destruct (chg_flags x) as [-> ->].
  by destruct (chg_of x).
Qed.

Definition reg_of_events (ev : Z) : Z :=
  rwc (ev &? EPOLLIN) (ev &? EPOLLOUT) (ev &? EPOLLRDHUP).

Lemma joined_flags r w c (et : bool) :
  reg_of_events (if et then Z.lor (joined r w c) EPOLLET else joined r w c) = rwc r w c.
Proof. by destruct r, w, c, et. Qed.

Lemma joined_zero r w c : (joined r w c =? 0) = negb (r || w || c).
Proof. by destruct r, w, c. Qed.

(** The entry of a change that is not nonsensical, by cases. *)
Lemma op_reference_cases ch : change_ok ch →
  let o := op_reference (old_events ch &? EV_READ) (old_events ch &? EV_WRITE)
          (old_events ch &? EV_CLOSED)
          (chg_of (write_change ch)) (chg_of (read_change ch)) (chg_of (close_change ch)) in
  (has_change ch = false ∧ o = mk_operation 0 0 ∧
    change_target ch = Z.land (old_events ch) EV_RWC) ∨
  (has_change ch = true ∧ op_op o = EPOLL_CTL_DEL ∧ (op_events o =? 0) = false ∧
    change_target ch = 0) ∨
  (has_change ch = true ∧ (op_op o = EPOLL_CTL_ADD ∨ op_op o = EPOLL_CTL_MOD) ∧
    (op_events o =? 0) = false ∧
    ∀ et : bool, reg_of_events (if et then Z.lor (op_events o) EPOLLET else op_events o)
      = change_target ch).
Proof.
  intros (Hr & Hw & Hc). unfold change_target, has_change. rewrite land_rwc.
  rewrite !effective_chg by done.
  destruct (old_events ch &? EV_READ), (old_events ch &? EV_WRITE), (old_events ch &? EV_CLOSED),
    (chg_of (read_change ch)), (chg_of (write_change ch)), (chg_of (close_change ch)); try done;
  first [left; repeat split; done
    |right; left; repeat split; done
    |right; right; split_and!; [done|first [left; done|right; done]|done|intros []; done]].
Qed.

Section properties.
Context {K : Type} `{EpollLaws K interest}.
Abbreviation reg := (epoll_reg interest).
Implicit Types k : K.

Lemma reg_ctl_done k op fd ev k' :
  epoll_ctl k op fd ev = (k', 0) → op = EPOLL_CTL_ADD ∨ op = EPOLL_CTL_MOD →
  reg k' fd = reg_of_events ev ∧ ∀ fd', fd' ≠ fd → reg k' fd' = reg k fd'.
Proof.
  intros Hctl Hop. destruct (ctl_done _ _ _ _ _ Hctl) as [Hin Hoth].
  { rewrite !elem_of_cons. naive_solver. }
  unfold epoll_reg. rewrite decide_False in Hin by naive_solver. rewrite Hin.
  split; [done|]. intros fd' Hne. by rewrite Hoth.
Qed.

Lemma reg_ctl_failed k op fd ev k' e :
  epoll_ctl k op fd ev = (k', e) → e ≠ 0 → ∀ fd', reg k' fd' = reg k fd'.
Proof. intros Hctl He fd'. unfold epoll_reg. by rewrite (ctl_failed _ _ _ _ _ _ Hctl He). Qed.

(** The outcome of one change, whatever the kernel watched before: on success
    of a change that asks for something, exactly the target of the change. *)
Definition change_outcome k (ch : event_change) k' (r : Z) : Prop :=
  (∀ fd', fd' ≠ ch_fd ch → reg k' fd' = reg k fd') ∧
  (r = -1 ∧ reg k' (ch_fd ch) = reg k (ch_fd ch) ∨
   r = 0 ∧ reg k' (ch_fd ch) = if has_change ch then change_target ch else reg k (ch_fd ch)).

(** An operation that, on the errno [e], is tried again as [op']. *)
Lemma retry_outcome k k1 k2 ch op op' ev errno errno2 :
  epoll_ctl k op (ch_fd ch) ev = (k1, errno) → errno ≠ 0 →
  epoll_ctl k1 op' (ch_fd ch) ev = (k2, errno2) →
  op' = EPOLL_CTL_ADD ∨ op' = EPOLL_CTL_MOD →
  has_change ch = true → reg_of_events ev = change_target ch →
  change_outcome k ch k2 (if negb (errno2 =? 0) then -1 else 0).
Proof.
  intros H1 He1 H2 Hop Hc Ht. pose proof (reg_ctl_failed _ _ _ _ _ _ H1 He1) as Hk1.
  unfold change_outcome. rewrite Hc.
  destruct (Z.eqb_spec errno2 0) as [->|He2]; simpl.
  - destruct (reg_ctl_done _ _ _ _ _ H2 Hop) as [Hr Hoth]. split; [|right; by rewrite Hr].
    intros fd' Hne. by rewrite Hoth.
  - pose proof (reg_ctl_failed _ _ _ _ _ _ H2 He2) as Hk2.
    split; [intros; by rewrite Hk2|left; by rewrite Hk2].
Qed.

Lemma ctl_outcome_failed k ch op ev k1 errno :
  epoll_ctl k op (ch_fd ch) ev = (k1, errno) → errno ≠ 0 → change_outcome k ch k1 (-1).
Proof.
  intros Hctl He. pose proof (reg_ctl_failed _ _ _ _ _ _ Hctl He) as Hk1.
  split; [intros; apply Hk1|left; by rewrite Hk1].
Qed.

Lemma ctl_del_unneeded k op fd ev k' e :
  epoll_ctl k op fd ev = (k', e) → e ∈ [ENOENT; EBADF; EPERM] → interest k fd = None.
Proof.
  intros Hctl He. destruct (interest k fd) as [ev'|] eqn:Hi; [|done].
  rewrite !elem_of_cons, elem_of_nil in He. pose proof (interest_watchable _ _ _ Hi).
  destruct He as [->|[->|[->|[]]]].
  - by rewrite (ctl_enoent _ _ _ _ _ Hctl) in Hi.
  - by destruct (ctl_ebadf _ _ _ _ _ Hctl).
  - by destruct (ctl_eperm _ _ _ _ _ Hctl).
Qed.

Lemma del_outcome k ch ev k1 errno :
  epoll_ctl k EPOLL_CTL_DEL (ch_fd ch) ev = (k1, errno) →
  errno = 0 ∨ errno ∈ [ENOENT; EBADF; EPERM] →
  has_change ch = true → change_target ch = 0 → change_outcome k ch k1 0.
Proof.
  intros Hctl He Hc Ht. unfold change_outcome. rewrite Hc, Ht.
  destruct (decide (errno = 0)) as [->|Hne].
  - destruct (ctl_done _ _ _ _ _ Hctl) as [Hin Hoth].
    { rewrite !elem_of_cons. naive_solver. }
    rewrite decide_True in Hin by done. unfold epoll_reg. rewrite Hin.
    split; [intros fd' Hfd'; by rewrite Hoth|by right].
  - destruct He as [?|He]; [done|]. pose proof (ctl_failed _ _ _ _ _ _ Hctl Hne) as Hsame.
    unfold epoll_reg. rewrite Hsame, (ctl_del_unneeded _ _ _ _ _ _ Hctl He).
    split; [intros fd' _; by rewrite Hsame|by right].
Qed.

Lemma add_mod_outcome k ch op ev :
  op = EPOLL_CTL_ADD ∨ op = EPOLL_CTL_MOD → has_change ch = true →
  reg_of_events ev = change_target ch →
  ∃ k' r, (let '(k, errno) := epoll_ctl k op (ch_fd ch) ev in
    if errno =? 0 then Some (k, 0) else
    if op =? EPOLL_CTL_MOD then
      if errno =? ENOENT then
        let '(k, errno) := epoll_ctl k EPOLL_CTL_ADD (ch_fd ch) ev in
        if negb (errno =? 0) then Some (k, -1) else Some (k, 0)
      else Some (k, -1)
    else if op =? EPOLL_CTL_ADD then
      if errno =? EEXIST then
        let '(k, errno) := epoll_ctl k EPOLL_CTL_MOD (ch_fd ch) ev in
        if negb (errno =? 0) then Some (k, -1) else Some (k, 0)
      else Some (k, -1)
    else if op =? EPOLL_CTL_DEL then
      if (errno =? ENOENT) || (errno =? EBADF) || (errno =? EPERM)
      then Some (k, 0) else Some (k, -1)
    else Some (k, -1)) = Some (k', r) ∧ change_outcome k ch k' r.
Proof.
  intros Hop Hc Ht. destruct (epoll_ctl k op (ch_fd ch) ev) as [k1 errno] eqn:Hctl.
  destruct (Z.eqb_spec errno 0) as [->|He].
  { exists k1, 0. split; [done|]. destruct (reg_ctl_done _ _ _ _ _ Hctl Hop) as [Hr Hoth].
    split; [done|]. right. by rewrite Hc, Hr. }
  pose proof (ctl_outcome_failed _ _ _ _ _ _ Hctl He) as Hfail.
  destruct Hop as [-> | ->]; cbn [Z.eqb Pos.eqb];
    match goal with |- context [errno =? ?e] => destruct (errno =? e) end;
    try (by exists k1, (-1));
    match goal with |- context [epoll_ctl k1 ?o ?f ?v] =>
      destruct (epoll_ctl k1 o f v) as [k2 errno2] eqn:Hctl2 end;
    exists k2, (if negb (errno2 =? 0) then -1 else 0);
    (split; [by destruct (errno2 =? 0)|]);
    eapply retry_outcome; eauto.
Qed.

Lemma apply_one_change_spec k ch : change_ok ch →
  ∃ k' r, epoll_apply_one_change k ch = Some (k', r) ∧ change_outcome k ch k' r.
Proof.
  intros Hok. unfold epoll_apply_one_change. rewrite epoll_table_lookup. cbn [mbind option_bind].
  destruct (op_reference_cases ch Hok) as [(Hc & -> & Ht)|[(Hc & Hop & Hz & Ht)|(Hc & Hop & Hz & Ht)]].
  - exists k, 0. split; [done|]. split; [done|]. right. by rewrite Hc.
  - rewrite Hz, Hop. destruct (epoll_ctl k _ _ _) as [k1 errno] eqn:Hctl.
    exists k1. destruct (Z.eqb_spec errno 0) as [->|He].
    { exists 0. split; [done|]. by eapply del_outcome; eauto. }
    cbn [Z.eqb Pos.eqb]. destruct ((errno =? ENOENT) || _ || _) eqn:Hen.
    + exists 0. split; [done|]. eapply del_outcome; eauto.
      right. rewrite !elem_of_cons. lia.
    + exists (-1). split; [done|]. by eapply ctl_outcome_failed.
  - rewrite Hz. by apply add_mod_outcome.
Qed.

(** [epoll_apply_one_change] on a change that does not both add and delete
    never fails its assertion.  When it returns 0 the kernel watches the
    descriptor for exactly what the change asks, whatever the kernel knew of it
    before (the retries of MOD as ADD after ENOENT and of ADD as MOD after
    EEXIST, and the ignored failures of DEL, included); when it returns -1, or
    when the change asks for nothing, the interest is what it was.  No other
    descriptor is affected. *)
Theorem epoll_apply_one_change_correct k ch :
  change_ok ch →
  ∃ k' r, epoll_apply_one_change k ch = Some (k', r) ∧
    (∀ fd', fd' ≠ ch_fd ch → reg k' fd' = reg k fd') ∧
    (r = -1 ∧ reg k' (ch_fd ch) = reg k (ch_fd ch) ∨
     r = 0 ∧ reg k' (ch_fd ch)
       = if has_change ch then change_target ch else reg k (ch_fd ch)).
Proof. apply apply_one_change_spec. Qed.
End properties.

(** ** The backend for the maps *)

Section backend.
Context {K : Type} `{EpollLaws K interest}.
Abbreviation reg := (epoll_reg interest).
Implicit Types k : K.

Lemma chg_of_add x : Z.land x 3 = 0 → chg_of (Z.lor EV_CHANGE_ADD x) = Add.
Proof. intros Hx. unfold chg_of. by rewrite Z.land_lor_distr_l, Hx. Qed.

Lemma land_et_3 events : Z.land (Z.land events EV_ET) 3 = 0.
Proof. by rewrite <- Z.land_assoc, Z.land_0_r. Qed.

Lemma nochangelist_add_change_spec fd old events :
  let ch := nochangelist_add_change fd old events in
  change_ok ch ∧ change_target ch = Z.lor (Z.land old EV_RWC) (Z.land events EV_RWC) ∧
  (has_change ch = false → Z.land events EV_RWC = 0).
Proof.
  simpl. unfold change_ok, change_target, has_change, nochangelist_add_change. simpl.
  rewrite !effective_add, !land_rwc, rwc_lor.
  destruct (events &? EV_READ), (events &? EV_WRITE), (events &? EV_CLOSED);
    rewrite ?chg_of_add by apply land_et_3; rewrite ?orb_true_r, ?orb_false_r;
    split_and!; done.
Qed.

Lemma nochangelist_del_change_spec fd old events :
  let ch := nochangelist_del_change fd old events in
  change_ok ch ∧ change_target ch = Z.land (Z.land old EV_RWC) (Z.lnot events) ∧
  (has_change ch = false → change_target ch = Z.land old EV_RWC).
Proof.
  simpl. unfold change_ok, change_target, has_change, nochangelist_del_change. simpl.
  rewrite !land_rwc, rwc_lnot.
  destruct (events &? EV_READ), (events &? EV_WRITE), (events &? EV_CLOSED);
    destruct (old &? EV_READ), (old &? EV_WRITE), (old &? EV_CLOSED); done.
Qed.

Lemma reg_rwc k fd : Z.land (reg k fd) EV_RWC = reg k fd.
Proof. unfold epoll_reg. case_match; [|done]. by destruct (_ &? _), (_ &? _), (_ &? _). Qed.

Definition backend_result (k : K) (o : option (K * Z)) : K * unit * Z :=
  match o with Some (k', r) => (k', tt, r) | None => (k, tt, -1) end.

#[export] Instance epollops : EventOp K unit := {
  fdinfo0 := tt;
  op_add k fd old events _ := backend_result k (epoll_nochangelist_add k fd old events);
  op_del k fd old events _ := backend_result k (epoll_nochangelist_del k fd old events)
}.

#[export] Instance epollops_laws : EventOpLaws reg.
Proof.
  split; intros k fd old ev [] k' [] r Heq Hold; simpl in Heq; symmetry in Heq.
  - destruct (nochangelist_add_change_spec fd old ev) as (Hok & Ht & Hno).
    destruct (apply_one_change_spec k _ Hok) as (k1 & r1 & Hap & Hoth & Hout).
    unfold epoll_nochangelist_add in Heq. rewrite Hap in Heq. simplify_eq/=.
    split; [|done]. destruct Hout as [[-> ?]|[-> ->]]; [done|]. simpl.
    rewrite Ht, reg_rwc. case_match eqn:Hc; [done|]. by rewrite (Hno eq_refl), Z.lor_0_r.
  - destruct (nochangelist_del_change_spec fd old ev) as (Hok & Ht & Hno).
    destruct (apply_one_change_spec k _ Hok) as (k1 & r1 & Hap & Hoth & Hout).
    unfold epoll_nochangelist_del in Heq. rewrite Hap in Heq. simplify_eq/=.
    split; [|done]. destruct Hout as [[-> ?]|[-> ->]]; [done|]. simpl. rewrite reg_rwc in *.
    case_match eqn:Hc; [done|]. rewrite <- Ht. symmetry. by apply Hno.
Qed.

(** C40. The maps of evmap.c over the epoll backend: if the kernel watches
    every descriptor for exactly the conditions (reading, writing, closing) that
    the added events want, it still does after [evmap_io_add_], whatever that
    returns, and after [evmap_io_del_] unless that returns -1.  For descriptors
    below 2^27, beyond which the size of the map overflows an int.  Whether a
    descriptor is watched edge-triggered is not part of the claim: the backend
    loses EPOLLET (epoll.c:284 and 408). *)
Theorem epoll_evmap_in_sync evf ro co dbg sz k (io : io_map unit) fd ev :
  map_ok evf io → fd < 2 ^ 27 → in_sync (reg := epoll_reg interest) evf k io →
  (ev ∉ evs_at io fd → ∃ io' k' r,
    evmap_io_add_ evf ro co dbg sz k io fd ev = Some (io', k', r) ∧
    in_sync (reg := epoll_reg interest) evf k' io') ∧
  (ev ∈ evs_at io fd → ∃ io' k' r,
    evmap_io_del_ evf k io fd ev = Some (io', k', r) ∧
    (r ≠ -1 → in_sync (reg := epoll_reg interest) evf k' io')).
Proof. intros. split; intros; [by apply io_add_sync|by apply io_del_sync]. Qed.

(** ** Applying the changelist *)

Definition cl_synced k (cs : list event_change) : Prop :=
  ∀ c, c ∈ cs → change_ok c ∧ reg k (ch_fd c) = Z.land (old_events c) EV_RWC.

Lemma no_change_target c : change_ok c → has_change c = false →
  change_target c = Z.land (old_events c) EV_RWC.
Proof.
  intros Hok Hc. destruct (op_reference_cases c Hok) as [(_ & _ & ?)|[(? & _)|(? & _)]];
    congruence.
Qed.

Lemma apply_changes_loop_spec cs : ∀ k r,
  NoDup (ch_fd <$> cs) → cl_synced k cs → r = 0 ∨ r = -1 →
  ∃ k' r', apply_changes_loop k cs r = Some (k', r') ∧ (r' = 0 ∨ r' = -1) ∧
    (r' = 0 → r = 0 ∧ ∀ fd, reg k' fd = cl_view (reg k) cs fd) ∧
    (∀ fd, fd ∉ (ch_fd <$> cs) → reg k' fd = reg k fd).
Proof.
  induction cs as [|c cs IH]; intros k r Hnd Hs Hr; [by exists k, r|].
  rewrite fmap_cons in Hnd. apply NoDup_cons in Hnd as [Hc Hnd]. cbn [apply_changes_loop].
  destruct (Hs c (list_elem_of_here _ _)) as [Hok Hold].
  destruct (apply_one_change_spec k c Hok) as (k1 & r1 & -> & Hoth & Hout). cbn [mbind option_bind].
  assert (Hs1 : cl_synced k1 cs).
  { intros c' Hc'. destruct (Hs c' (list_elem_of_further _ _ _ Hc')) as [? <-]. split; [done|].
    apply Hoth. intros Heq. apply Hc. rewrite <- Heq. by apply list_elem_of_fmap_2. }
  destruct (IH k1 (if r1 <? 0 then -1 else r) Hnd Hs1) as (k' & r' & -> & Hr' & Hv & Hframe).
  { destruct (r1 <? 0); auto. }
  exists k', r'. split_and!; [done|done| |].
  - intros Hz. destruct (Hv Hz) as [Hr0 Hk']. destruct Hout as [[-> _]|[-> Hreg]]; [done|].
    split; [done|]. intros fd. rewrite Hk'. unfold cl_view, find_change.
    destruct (decide (ch_fd c = fd)) as [<-|Hne].
    + rewrite filter_cons_True by done. simpl.
      change (head (filter _ cs)) with (find_change cs (ch_fd c)).
      rewrite find_change_None by done. rewrite Hreg. destruct (has_change c) eqn:Hh; [done|].
      rewrite Hold. symmetry. by apply no_change_target.
    + rewrite filter_cons_False by done. destruct (head _); [done|]. by apply Hoth.
  - intros fd. rewrite fmap_cons, not_elem_of_cons. intros [Hne Hni].
    rewrite (Hframe fd Hni). by apply Hoth.
Qed.

(** [epoll_dispatch] with a changelist that describes the kernel (one
    consistent change per descriptor, as the maps record) applies it and waits:
    it never fails an assertion, the queue is empty afterwards with every fdinfo 0; and when every
    change succeeds the kernel waits on each descriptor for exactly what the
    queue asked. *)
Theorem epoll_dispatch_correct ro (s : epoll_state K) tv :
  cl_ok (ep_changelist s) → cl_synced (ep_kernel s) (changes (ep_changelist s)) →
  event_changelist_assert_ok (ep_changelist s) (ep_io s) (ep_sigmap s) = true →
  Forall (λ c, read_change c &? EV_CHANGE_SIGNAL = false) (changes (ep_changelist s)) →
  0 <= nevents (ep_op s) →
  ∃ k0 k r s' act res,
    (∀ fd, interest k0 fd = interest (ep_kernel s) fd) ∧
    epoll_apply_changes k0 (ep_changelist s) = Some (k, r) ∧
    (r = 0 → ∀ fd, reg k fd = cl_view (reg (ep_kernel s)) (changes (ep_changelist s)) fd) ∧
    epoll_dispatch ro s tv = Some (s', act, res) ∧
    ep_kernel s' = (epoll_wait k (nevents (ep_op s)) (dispatch_timeout (ep_op s) tv).2).1 ∧
    changes (ep_changelist s') = [] ∧
    ep_io s' = fmap (M := list) (fmap (M := option) clear_idx) (ep_io s).
Proof.
  intros Hcl Hsync Hok Hsig Hwait. unfold epoll_dispatch.
  destruct (dispatch_timeout (ep_op s) tv) as [timer timeout] eqn:Hto.
  set (k0 := match timer with Some _ => _ | None => _ end).
  assert (Hk0 : ∀ fd, interest k0 fd = interest (ep_kernel s) fd).
  { intros fd. subst k0. destruct timer; [apply settime_interest|done]. }
  assert (Hreg0 : ∀ fd, reg k0 fd = reg (ep_kernel s) fd).
  { intros fd. unfold epoll_reg. by rewrite Hk0. }
  destruct (apply_changes_loop_spec (changes (ep_changelist s)) k0 0 (cl_fds _ Hcl))
    as (k & r & Hap & _ & Hv & _); [|by left|].
  { intros c Hc. rewrite Hreg0. by apply Hsync. }
  unfold epoll_apply_changes. rewrite Hap. cbn [mbind option_bind].
  destruct (assert_ok_remove_all _ _ _ Hok Hsig) as (cl' & io' & -> & Hcl' & Hio' & _).
  cbn [mbind option_bind]. simpl.
  exists k0, k, r. pose proof (wait_maxevents k (nevents (ep_op s)) timeout) as Hmax.
  destruct (epoll_wait k (nevents (ep_op s)) timeout) as [k2 [errno|evs]].
  2:{ rewrite (evassert_true _ (proj2 (Z.leb_le _ _) (Hmax evs Hwait eq_refl))). cbn [mbind option_bind].
      eexists _, _, _. split_and!; [done|exact Hap| |done..].
      intros Hr fd. destruct (Hv Hr) as [_ ->]. unfold cl_view. by destruct (find_change _ _). }
  eexists _, _, _. split_and!; [done|exact Hap| |done..].
  intros Hr fd. destruct (Hv Hr) as [_ ->]. unfold cl_view. by destruct (find_change _ _).
Qed.

(** ** Edge triggering *)

(** A MOD that succeeds leaves exactly the events of the table entry. *)
Lemma apply_mod_interest k ch k' ev :
  epoll_op_table !! Z.to_nat (EPOLL_OP_TABLE_INDEX ch) = Some (mk_operation ev EPOLL_CTL_MOD) →
  ev ≠ 0 → Z.lor (read_change ch) (write_change ch) &? EV_CHANGE_ET = false →
  epoll_apply_one_change k ch = Some (k', 0) → interest k' (ch_fd ch) = Some ev.
Proof.
  intros Hl Hev Het. unfold epoll_apply_one_change. rewrite Hl. cbn [mbind option_bind op_op op_events].
  destruct (Z.eqb_spec ev 0); [done|]. rewrite Het.
  destruct (epoll_ctl k EPOLL_CTL_MOD (ch_fd ch) ev) as [k1 e1] eqn:H1.
  destruct (Z.eqb_spec e1 0) as [->|].
  { intros [= <-]. destruct (ctl_done _ _ _ _ _ H1) as [-> _]; [|done].
    rewrite !elem_of_cons. naive_solver. }
  cbn [Z.eqb Pos.eqb]. destruct (e1 =? ENOENT); [|done].
  destruct (epoll_ctl k1 EPOLL_CTL_ADD (ch_fd ch) ev) as [k2 e2] eqn:H2.
  destruct (Z.eqb_spec e2 0) as [->|]; simpl; [|done]. intros [= <-].
  destruct (ctl_done _ _ _ _ _ H2) as [-> _]; [|done]. rewrite !elem_of_cons. naive_solver.
Qed.

(** Deleting one of two edge-triggered events of a descriptor makes the
    other level-triggered: whenever [epoll_nochangelist_del] takes reading away
    from a descriptor watched for reading and writing (or writing, leaving
    reading) and returns 0, the kernel watches it without EPOLLET, whatever the
    flags of the remaining event, because a delete carries no EV_ET. *)
Theorem epoll_del_drops_edge_trigger k fd k' events :
  events = EV_READ ∨ events = EV_WRITE →
  epoll_nochangelist_del k fd (Z.lor EV_READ EV_WRITE) events = Some (k', 0) →
  ∃ ev, interest k' fd = Some ev ∧ ev &? EPOLLET = false ∧
    reg k' fd = Z.land (Z.lor EV_READ EV_WRITE) (Z.lnot events).
Proof.
  intros [-> | ->] Hdel.
  - apply (apply_mod_interest _ _ _ EPOLLOUT) in Hdel; [|done..]. simpl in Hdel.
    exists EPOLLOUT. unfold epoll_reg. by rewrite Hdel.
  - apply (apply_mod_interest _ _ _ EPOLLIN) in Hdel; [|done..]. simpl in Hdel.
    exists EPOLLIN. unfold epoll_reg. by rewrite Hdel.
Qed.
End backend.

(** The timeout [epoll_dispatch] passes to [epoll_wait] (without a timerfd)
    for a normalised, non-negative [tv] is between 0 and 35 minutes, and either
    that maximum or the duration rounded up to the next millisecond: the loop
    never wakes up before the timeout because of rounding. *)
Theorem epoll_timeout_rounds_up op tv :
  timerfd op < 0 → tv_norm tv → 0 <= tv_sec tv →
  let '(timer, timeout) := dispatch_timeout op (Some tv) in
  timer = None ∧ 0 <= timeout <= MAX_EPOLL_TIMEOUT_MSEC ∧
  (timeout = MAX_EPOLL_TIMEOUT_MSEC ∨
   tv_us tv <= timeout * 1000 < tv_us tv + 1000).
Proof.
  intros Hfd Hn Hs. unfold dispatch_timeout. destruct (Z.leb_spec 0 (timerfd op)); [lia|].
  unfold tv_norm, tv_us, evutil_tv_to_msec_, MAX_SECONDS_IN_MSEC_LONG, MAX_EPOLL_TIMEOUT_MSEC in *.
  split; [done|]. destruct ((1000000 <? tv_usec tv) || _) eqn:Hbig; [simpl; lia|].
  apply orb_false_iff in Hbig as [_ Hbig].
  assert (Hd := Z.quot_div_nonneg (tv_usec tv + 999) 1000 ltac:(lia) ltac:(lia)). rewrite Hd.
  pose proof (Z.div_mod (tv_usec tv + 999) 1000 ltac:(lia)).
  pose proof (Z.mod_pos_bound (tv_usec tv + 999) 1000 ltac:(lia)).
  destruct ((_ <? 0) || _) eqn:Hc; lia.
Qed.

(** ** A reference kernel and the witnesses *)

#[export] Instance ref_kernel : EpollKernel (gmap Z Z) := {
  epoll_ctl k op fd ev :=
    match k !! fd with
    | Some _ =>
      if op =? EPOLL_CTL_ADD then (k, EEXIST)
      else if op =? EPOLL_CTL_MOD then (<[fd := ev]> k, 0)
      else if op =? EPOLL_CTL_DEL then (delete fd k, 0) else (k, 22)
    | None =>
      if op =? EPOLL_CTL_ADD then (<[fd := ev]> k, 0)
      else if op =? EPOLL_CTL_MOD then (k, ENOENT)
      else if op =? EPOLL_CTL_DEL then (k, ENOENT) else (k, 22)
    end;
  epoll_wait k n timeout := (k, inr []);
  timerfd_settime k fd v := k
}.

Definition ref_interest (k : gmap Z Z) (fd : Z) : option Z := k !! fd.

#[export] Instance ref_kernel_laws : EpollLaws ref_interest.
Proof.
  refine {| watchable _ _ := True |}; [done|..].
  - intros k op fd ev k' Hctl Hop. rewrite !elem_of_cons, elem_of_nil in Hop.
    unfold ref_interest. simpl in Hctl. destruct (k !! fd), Hop as [->|[->|[->|[]]]]; simplify_eq/=;
      (split; [by rewrite ?lookup_insert_eq, ?lookup_delete_eq|]);
      intros fd' Hne; by rewrite ?lookup_insert_ne, ?lookup_delete_ne.
  - intros k op fd ev k' e Hctl He fd'. simpl in Hctl.
    repeat case_match; by simplify_eq.
  - intros k op fd ev k' Hctl. simpl in Hctl. unfold ref_interest.
    repeat case_match; by simplify_eq.
  - intros k op fd ev k' Hctl. simpl in Hctl. repeat case_match; by simplify_eq.
  - intros k op fd ev k' Hctl. simpl in Hctl. repeat case_match; by simplify_eq.
  - done.
  - intros k n t evs Hn [= <-]. done.
Qed.

(** Descriptor 3 is watched for reading. *)
Definition ex_kernel : gmap Z Z := {[3 := EPOLLIN]}.

Lemma epoll_apply_one_change_witness :
  ∃ k', epoll_apply_one_change ex_kernel (mk_change 3 EV_READ 0 EV_CHANGE_ADD 0) = Some (k', 0) ∧
    epoll_reg ref_interest k' 3 = Z.lor EV_READ EV_WRITE.
Proof.
  destruct (epoll_apply_one_change_correct ex_kernel (mk_change 3 EV_READ 0 EV_CHANGE_ADD 0))
    as (k' & r & Heq & _ & Hr).
  - unfold change_ok. split_and!; vm_compute; discriminate.
  - exists k'. destruct Hr as [[-> _]|[-> Hr]]; [vm_compute in Heq; discriminate|].
    split; [exact Heq|exact Hr].
Defined.

Definition ex_epoll_io : io_map unit := [None; None; None; Some (mk_io [1] 1 0 0 tt)].

Lemma epoll_evmap_in_sync_witness :
  ∃ io' k' r, evmap_io_add_ (H := epollops) ex_events (λ _, true) (λ _, true) false 48
      ex_kernel ex_epoll_io 3 2 = Some (io', k', r) ∧ in_sync (reg := epoll_reg ref_interest) ex_events k' io'.
Proof.
  destruct (epoll_evmap_in_sync ex_events (λ _, true) (λ _, true) false 48 ex_kernel ex_epoll_io 3 2)
    as [Hadd _].
  - intros [|[|[|[|i]]]] c Hc; simpl in Hc; simplify_eq.
    split; simpl; [apply NoDup_singleton|vm_compute; reflexivity..|lia].
  - lia.
  - intros fd Hfd. unfold evs_at. destruct (Z.ltb_spec fd 0); [lia|].
    destruct (decide (fd = 3)) as [->|Hne]; [vm_compute; reflexivity|].
    unfold epoll_reg, ref_interest, ex_kernel. rewrite lookup_singleton_ne by done.
    by destruct (Z.to_nat fd) as [|[|[|[|n]]]] eqn:Hn; [..|lia|].
  - apply Hadd. vm_compute. intros Hin. apply list_elem_of_singleton in Hin. done.
Defined.

Definition ex_epoll : epoll_state (gmap Z Z) :=
  mk_epoll ex_kernel (mk_epollop 32 (-1)) ex_cl ex_cl_io [].

Lemma epoll_dispatch_witness :
  ∃ s' act res, epoll_dispatch (λ _, true) ex_epoll None = Some (s', act, res) ∧
    changes (ep_changelist s') = [].
Proof.
  destruct (epoll_dispatch_correct (λ _, true) ex_epoll None)
    as (_ & _ & _ & s' & act & res & _ & _ & _ & Hd & _ & Hch & _).
  - split; [apply NoDup_singleton|vm_compute; discriminate].
  - intros c ->%list_elem_of_singleton. split; [unfold change_ok; split_and!; vm_compute; discriminate|].
    vm_compute. reflexivity.
  - vm_compute. reflexivity.
  - repeat constructor.
  - simpl. lia.
  - by exists s', act, res.
Defined.

Lemma epoll_del_drops_edge_trigger_witness :
  ∃ k', epoll_nochangelist_del {[3 := Z.lor EPOLLET (Z.lor EPOLLIN EPOLLOUT)]} 3
      (Z.lor EV_READ EV_WRITE) EV_WRITE = Some (k', 0) ∧
    ∃ ev, k' !! 3 = Some ev ∧ ev &? EPOLLET = false.
Proof.
  eexists. split; [vm_compute; reflexivity|].
  destruct (epoll_del_drops_edge_trigger (interest := ref_interest)
    {[3 := Z.lor EPOLLET (Z.lor EPOLLIN EPOLLOUT)]} 3 {[3 := EPOLLIN]} EV_WRITE)
    as (ev & Hi & Het & _).
  - by right.
  - vm_compute. reflexivity.
  - exists ev. split; [exact Hi|exact Het].
Defined.

Lemma epoll_timeout_witness :
  let '(timer, timeout) := dispatch_timeout (mk_epollop 32 (-1)) (Some (mk_timeval 1 1)) in
  timeout = 1001 ∧ timer = None.
Proof.
  destruct (epoll_timeout_rounds_up (mk_epollop 32 (-1)) (mk_timeval 1 1)) as (Ht & _ & _).
  - simpl. lia.
  - unfold tv_norm. simpl. lia.
  - simpl. lia.
  - split; [vm_compute; reflexivity|exact Ht].
Defined.
