(* ===== verification/EventBase.v ===== *)
(** * The state of an event base and its queues (event.c, event_struct.h, event-internal.h)

    The memory of the events is a finite map from addresses to [struct event];
    deferred callbacks ([struct event_callback]) live in the same map, without
    EVLIST_INIT.  An event base owns the queues of active callbacks, one per
    priority, the queue of callbacks to activate in the next iteration, the
    timer heap, the queues of common timeouts, the maps of EvMap.v and the
    counters.  Each operation returns [None] where the C code would fail an
    assertion, exit, or touch memory that is not there.

    The code runs in the thread of the loop, so that no other thread has to be
    notified or waited for.  What is outside the library (the backend, the
    clocks, the allocator) is the class [EventEnv]. *)

From S2P Require Import Prelude TimeVal MinHeap EvMap.

Abbreviation EVLIST_TIMEOUT := 0x01.
Abbreviation EVLIST_INSERTED := 0x02.
Abbreviation EVLIST_SIGNAL := 0x04.
Abbreviation EVLIST_ACTIVE := 0x08.
Abbreviation EVLIST_INTERNAL := 0x10.
Abbreviation EVLIST_ACTIVE_LATER := 0x20.
Abbreviation EVLIST_FINALIZING := 0x40.
Abbreviation EVLIST_INIT := 0x80.
Abbreviation EVLIST_ALL := 0xff.

Abbreviation EV_CLOSURE_EVENT := 0.
Abbreviation EV_CLOSURE_EVENT_SIGNAL := 1.
Abbreviation EV_CLOSURE_EVENT_PERSIST := 2.
Abbreviation EV_CLOSURE_CB_SELF := 3.
Abbreviation EV_CLOSURE_CB_FINALIZE := 4.
Abbreviation EV_CLOSURE_EVENT_FINALIZE := 5.
Abbreviation EV_CLOSURE_EVENT_FINALIZE_FREE := 6.

Abbreviation EVENT_DEL_NOBLOCK := 0.
Abbreviation EVENT_DEL_BLOCK := 1.
Abbreviation EVENT_DEL_AUTOBLOCK := 2.
Abbreviation EVENT_DEL_EVEN_IF_FINALIZING := 3.

Abbreviation EVENT_BASE_FLAG_NO_CACHE_TIME := 0x08.
Abbreviation CLOCK_SYNC_INTERVAL := 5.

(** ** Events

    [ev_idx] is the [min_heap_idx] of the union [ev_timeout_pos].  The union
    [ev_] holds, after the list links, the [ev_timeout] of an I/O event or the
    [ev_ncalls] and [ev_pncalls] of a signal event: [ev_w0] and [ev_w1] are its
    two 64-bit words. *)

Record event := mk_event {
  ev_flags : Z;
  ev_pri : Z;
  ev_closure : Z;
  ev_idx : Z;
  ev_fd : Z;
  ev_w0 : Z;
  ev_w1 : Z;
  ev_events : Z;
  ev_res : Z;
  ev_timeout : timeval
}.

Definition set_ev_flags (v : Z) (r : event) : event :=
  mk_event v (ev_pri r) (ev_closure r) (ev_idx r) (ev_fd r) (ev_w0 r) (ev_w1 r) (ev_events r)
    (ev_res r) (ev_timeout r).
Definition set_ev_pri (v : Z) (r : event) : event :=
  mk_event (ev_flags r) v (ev_closure r) (ev_idx r) (ev_fd r) (ev_w0 r) (ev_w1 r) (ev_events r)
    (ev_res r) (ev_timeout r).
Definition set_ev_closure (v : Z) (r : event) : event :=
  mk_event (ev_flags r) (ev_pri r) v (ev_idx r) (ev_fd r) (ev_w0 r) (ev_w1 r) (ev_events r)
    (ev_res r) (ev_timeout r).
Definition set_ev_idx (v : Z) (r : event) : event :=
  mk_event (ev_flags r) (ev_pri r) (ev_closure r) v (ev_fd r) (ev_w0 r) (ev_w1 r) (ev_events r)
    (ev_res r) (ev_timeout r).
Definition set_ev_fd (v : Z) (r : event) : event :=
  mk_event (ev_flags r) (ev_pri r) (ev_closure r) (ev_idx r) v (ev_w0 r) (ev_w1 r) (ev_events r)
    (ev_res r) (ev_timeout r).
Definition set_ev_w0 (v : Z) (r : event) : event :=
  mk_event (ev_flags r) (ev_pri r) (ev_closure r) (ev_idx r) (ev_fd r) v (ev_w1 r) (ev_events r)
    (ev_res r) (ev_timeout r).
Definition set_ev_w1 (v : Z) (r : event) : event :=
  mk_event (ev_flags r) (ev_pri r) (ev_closure r) (ev_idx r) (ev_fd r) (ev_w0 r) v (ev_events r)
    (ev_res r) (ev_timeout r).
Definition set_ev_events (v : Z) (r : event) : event :=
  mk_event (ev_flags r) (ev_pri r) (ev_closure r) (ev_idx r) (ev_fd r) (ev_w0 r) (ev_w1 r) v
    (ev_res r) (ev_timeout r).
Definition set_ev_res (v : Z) (r : event) : event :=
  mk_event (ev_flags r) (ev_pri r) (ev_closure r) (ev_idx r) (ev_fd r) (ev_w0 r) (ev_w1 r)
    (ev_events r) v (ev_timeout r).
Definition set_ev_timeout (v : timeval) (r : event) : event :=
  mk_event (ev_flags r) (ev_pri r) (ev_closure r) (ev_idx r) (ev_fd r) (ev_w0 r) (ev_w1 r)
    (ev_events r) (ev_res r) v.

Definition ev_io_timeout (ev : event) : timeval := mk_timeval (ev_w0 ev) (ev_w1 ev).
Definition set_ev_io_timeout (t : timeval) (ev : event) : event :=
  set_ev_w0 (tv_sec t) (set_ev_w1 (tv_usec t) ev).
(** [short ev_ncalls] is the low half-word of the first word. *)
Definition ev_ncalls (ev : event) : Z := i16 (ev_w0 ev).
Definition set_ev_ncalls (n : Z) (ev : event) : event :=
  set_ev_w0 (ev_w0 ev - u16 (ev_w0 ev) + u16 n) ev.
Definition ev_pncalls (ev : event) : Z := ev_w1 ev.
Definition set_ev_pncalls (p : Z) (ev : event) : event := set_ev_w1 p ev.

(** Memories that differ in heap indices only. *)
Definition rest (ev : event) : event := set_ev_idx 0 ev.
Definition meq (m m' : gmap evp event) : Prop := ∀ x, rest <$> m !! x = rest <$> m' !! x.

(** The memory of events as the heap sees it.  The reference memory [ref] only
    occurs in [hs_valid]: nothing but heap indices differs from it. *)
#[export] Instance ev_store (ref : gmap evp event) : HeapStore (gmap evp event) := {
  hs_valid m e := is_Some (m !! e) ∧ meq m ref;
  hs_timeout m e := from_option ev_timeout inhabitant (m !! e);
  hs_idx m e := from_option ev_idx (-1) (m !! e);
  hs_set_idx e i m := alter (set_ev_idx i) e m
}.

Record common_timeout_list := mk_ctl {
  ctl_events : list evp;
  ctl_duration : timeval;
  ctl_timeout_event : evp
}.

(** ** The world outside *)

(** What a backend reports from its dispatch function. *)
Inductive report :=
  | ReportIo (fd events : Z)
  | ReportSignal (sig ncalls : Z).

Class EventEnv := {
  EB : Type;
  EF : Type;
  EBS : Type;
  EW : Type;
  env_op :: EventOp EB EF;
  env_sig_add : EBS → Z → EBS * Z;
  env_sig_del : EBS → Z → EBS * Z;
  (** [evsel->dispatch]: [None] is -1. *)
  env_dispatch : EB → EBS → EW → option timeval → EB * EBS * EW * option (list report);
  (** The readings of [gettimeofday] and [clock_gettime] now. *)
  env_clock : EW → EW * (option timeval * (Z → option (Z * Z)));
  env_realloc_ok : Z → bool;
  env_calloc_ok : Z → bool;
  env_sizeof_io : Z;
  env_sizeof_signal : Z;
  (** What the links of a queue of common timeouts leave in [min_heap_idx]. *)
  env_link_bits : Z
}.

Section base.
Context `{EventEnv}.

Record event_base := mk_base {
  b_evs : gmap evp event;
  b_activequeues : list (list evp);
  b_later : list evp;
  b_ctls : list common_timeout_list;
  b_ctls_allocated : Z;
  b_timeheap : min_heap_t;
  b_io : io_map EF;
  b_sigmap : signal_map;
  b_be : EB;
  b_sbe : EBS;
  event_count : Z;
  event_count_max : Z;
  event_count_active : Z;
  event_count_active_max : Z;
  virtual_event_count : Z;
  virtual_event_count_max : Z;
  event_gotterm : Z;
  event_break : Z;
  event_continue : Z;
  event_running_priority : Z;
  running_loop : Z;
  n_deferreds_queued : Z;
  current_event : evp;
  tv_cache : timeval;
  monotonic_timer : evutil_monotonic_timer;
  tv_clock_diff : timeval;
  last_updated_clock_diff : Z;
  b_flags : Z;
  max_dispatch_time : timeval;
  max_dispatch_callbacks : Z;
  limit_callbacks_after_prio : Z;
  b_frames : gmap Z Z;
  b_next_frame : Z;
  b_world : EW
}.

Definition set_b_evs (v : gmap evp event) (r : event_base) : event_base :=
  mk_base v (b_activequeues r) (b_later r) (b_ctls r) (b_ctls_allocated r) (b_timeheap r)
    (b_io r) (b_sigmap r) (b_be r) (b_sbe r) (event_count r) (event_count_max r)
    (event_count_active r) (event_count_active_max r) (virtual_event_count r)
    (virtual_event_count_max r) (event_gotterm r) (event_break r) (event_continue r)
    (event_running_priority r) (running_loop r) (n_deferreds_queued r) (current_event r)
    (tv_cache r) (monotonic_timer r) (tv_clock_diff r) (last_updated_clock_diff r) (b_flags r)
    (max_dispatch_time r) (max_dispatch_callbacks r) (limit_callbacks_after_prio r) (b_frames r)
    (b_next_frame r) (b_world r).
Definition set_b_activequeues (v : list (list evp)) (r : event_base) : event_base :=
  mk_base (b_evs r) v (b_later r) (b_ctls r) (b_ctls_allocated r) (b_timeheap r) (b_io r)
    (b_sigmap r) (b_be r) (b_sbe r) (event_count r) (event_count_max r) (event_count_active r)
    (event_count_active_max r) (virtual_event_count r) (virtual_event_count_max r)
    (event_gotterm r) (event_break r) (event_continue r) (event_running_priority r)
    (running_loop r) (n_deferreds_queued r) (current_event r) (tv_cache r) (monotonic_timer r)
    (tv_clock_diff r) (last_updated_clock_diff r) (b_flags r) (max_dispatch_time r)
    (max_dispatch_callbacks r) (limit_callbacks_after_prio r) (b_frames r) (b_next_frame r)
    (b_world r).
Definition set_b_later (v : list evp) (r : event_base) : event_base :=
  mk_base (b_evs r) (b_activequeues r) v (b_ctls r) (b_ctls_allocated r) (b_timeheap r) (b_io r)
    (b_sigmap r) (b_be r) (b_sbe r) (event_count r) (event_count_max r) (event_count_active r)
    (event_count_active_max r) (virtual_event_count r) (virtual_event_count_max r)
    (event_gotterm r) (event_break r) (event_continue r) (event_running_priority r)
    (running_loop r) (n_deferreds_queued r) (current_event r) (tv_cache r) (monotonic_timer r)
    (tv_clock_diff r) (last_updated_clock_diff r) (b_flags r) (max_dispatch_time r)
    (max_dispatch_callbacks r) (limit_callbacks_after_prio r) (b_frames r) (b_next_frame r)
    (b_world r).
Definition set_b_ctls (v : list common_timeout_list) (r : event_base) : event_base :=
  mk_base (b_evs r) (b_activequeues r) (b_later r) v (b_ctls_allocated r) (b_timeheap r)
    (b_io r) (b_sigmap r) (b_be r) (b_sbe r) (event_count r) (event_count_max r)
    (event_count_active r) (event_count_active_max r) (virtual_event_count r)
    (virtual_event_count_max r) (event_gotterm r) (event_break r) (event_continue r)
    (event_running_priority r) (running_loop r) (n_deferreds_queued r) (current_event r)
    (tv_cache r) (monotonic_timer r) (tv_clock_diff r) (last_updated_clock_diff r) (b_flags r)
    (max_dispatch_time r) (max_dispatch_callbacks r) (limit_callbacks_after_prio r) (b_frames r)
    (b_next_frame r) (b_world r).
Definition set_b_ctls_allocated (v : Z) (r : event_base) : event_base :=
  mk_base (b_evs r) (b_activequeues r) (b_later r) (b_ctls r) v (b_timeheap r) (b_io r)
    (b_sigmap r) (b_be r) (b_sbe r) (event_count r) (event_count_max r) (event_count_active r)
    (event_count_active_max r) (virtual_event_count r) (virtual_event_count_max r)
    (event_gotterm r) (event_break r) (event_continue r) (event_running_priority r)
    (running_loop r) (n_deferreds_queued r) (current_event r) (tv_cache r) (monotonic_timer r)
    (tv_clock_diff r) (last_updated_clock_diff r) (b_flags r) (max_dispatch_time r)
    (max_dispatch_callbacks r) (limit_callbacks_after_prio r) (b_frames r) (b_next_frame r)
    (b_world r).
Definition set_b_timeheap (v : min_heap_t) (r : event_base) : event_base :=
  mk_base (b_evs r) (b_activequeues r) (b_later r) (b_ctls r) (b_ctls_allocated r) v (b_io r)
    (b_sigmap r) (b_be r) (b_sbe r) (event_count r) (event_count_max r) (event_count_active r)
    (event_count_active_max r) (virtual_event_count r) (virtual_event_count_max r)
    (event_gotterm r) (event_break r) (event_continue r) (event_running_priority r)
    (running_loop r) (n_deferreds_queued r) (current_event r) (tv_cache r) (monotonic_timer r)
    (tv_clock_diff r) (last_updated_clock_diff r) (b_flags r) (max_dispatch_time r)
    (max_dispatch_callbacks r) (limit_callbacks_after_prio r) (b_frames r) (b_next_frame r)
    (b_world r).
Definition set_b_io (v : io_map EF) (r : event_base) : event_base :=
  mk_base (b_evs r) (b_activequeues r) (b_later r) (b_ctls r) (b_ctls_allocated r)
    (b_timeheap r) v (b_sigmap r) (b_be r) (b_sbe r) (event_count r) (event_count_max r)
    (event_count_active r) (event_count_active_max r) (virtual_event_count r)
    (virtual_event_count_max r) (event_gotterm r) (event_break r) (event_continue r)
    (event_running_priority r) (running_loop r) (n_deferreds_queued r) (current_event r)
    (tv_cache r) (monotonic_timer r) (tv_clock_diff r) (last_updated_clock_diff r) (b_flags r)
    (max_dispatch_time r) (max_dispatch_callbacks r) (limit_callbacks_after_prio r) (b_frames r)
    (b_next_frame r) (b_world r).
Definition set_b_sigmap (v : signal_map) (r : event_base) : event_base :=
  mk_base (b_evs r) (b_activequeues r) (b_later r) (b_ctls r) (b_ctls_allocated r)
    (b_timeheap r) (b_io r) v (b_be r) (b_sbe r) (event_count r) (event_count_max r)
    (event_count_active r) (event_count_active_max r) (virtual_event_count r)
    (virtual_event_count_max r) (event_gotterm r) (event_break r) (event_continue r)
    (event_running_priority r) (running_loop r) (n_deferreds_queued r) (current_event r)
    (tv_cache r) (monotonic_timer r) (tv_clock_diff r) (last_updated_clock_diff r) (b_flags r)
    (max_dispatch_time r) (max_dispatch_callbacks r) (limit_callbacks_after_prio r) (b_frames r)
    (b_next_frame r) (b_world r).
Definition set_b_be (v : EB) (r : event_base) : event_base :=
  mk_base (b_evs r) (b_activequeues r) (b_later r) (b_ctls r) (b_ctls_allocated r)
    (b_timeheap r) (b_io r) (b_sigmap r) v (b_sbe r) (event_count r) (event_count_max r)
    (event_count_active r) (event_count_active_max r) (virtual_event_count r)
    (virtual_event_count_max r) (event_gotterm r) (event_break r) (event_continue r)
    (event_running_priority r) (running_loop r) (n_deferreds_queued r) (current_event r)
    (tv_cache r) (monotonic_timer r) (tv_clock_diff r) (last_updated_clock_diff r) (b_flags r)
    (max_dispatch_time r) (max_dispatch_callbacks r) (limit_callbacks_after_prio r) (b_frames r)
    (b_next_frame r) (b_world r).
Definition set_b_sbe (v : EBS) (r : event_base) : event_base :=
  mk_base (b_evs r) (b_activequeues r) (b_later r) (b_ctls r) (b_ctls_allocated r)
    (b_timeheap r) (b_io r) (b_sigmap r) (b_be r) v (event_count r) (event_count_max r)
    (event_count_active r) (event_count_active_max r) (virtual_event_count r)
    (virtual_event_count_max r) (event_gotterm r) (event_break r) (event_continue r)
    (event_running_priority r) (running_loop r) (n_deferreds_queued r) (current_event r)
    (tv_cache r) (monotonic_timer r) (tv_clock_diff r) (last_updated_clock_diff r) (b_flags r)
    (max_dispatch_time r) (max_dispatch_callbacks r) (limit_callbacks_after_prio r) (b_frames r)
    (b_next_frame r) (b_world r).
Definition set_event_count (v : Z) (r : event_base) : event_base :=
  mk_base (b_evs r) (b_activequeues r) (b_later r) (b_ctls r) (b_ctls_allocated r)
    (b_timeheap r) (b_io r) (b_sigmap r) (b_be r) (b_sbe r) v (event_count_max r)
    (event_count_active r) (event_count_active_max r) (virtual_event_count r)
    (virtual_event_count_max r) (event_gotterm r) (event_break r) (event_continue r)
    (event_running_priority r) (running_loop r) (n_deferreds_queued r) (current_event r)
    (tv_cache r) (monotonic_timer r) (tv_clock_diff r) (last_updated_clock_diff r) (b_flags r)
    (max_dispatch_time r) (max_dispatch_callbacks r) (limit_callbacks_after_prio r) (b_frames r)
    (b_next_frame r) (b_world r).
Definition set_event_count_max (v : Z) (r : event_base) : event_base :=
  mk_base (b_evs r) (b_activequeues r) (b_later r) (b_ctls r) (b_ctls_allocated r)
    (b_timeheap r) (b_io r) (b_sigmap r) (b_be r) (b_sbe r) (event_count r) v
    (event_count_active r) (event_count_active_max r) (virtual_event_count r)
    (virtual_event_count_max r) (event_gotterm r) (event_break r) (event_continue r)
    (event_running_priority r) (running_loop r) (n_deferreds_queued r) (current_event r)
    (tv_cache r) (monotonic_timer r) (tv_clock_diff r) (last_updated_clock_diff r) (b_flags r)
    (max_dispatch_time r) (max_dispatch_callbacks r) (limit_callbacks_after_prio r) (b_frames r)
    (b_next_frame r) (b_world r).
Definition set_event_count_active (v : Z) (r : event_base) : event_base :=
  mk_base (b_evs r) (b_activequeues r) (b_later r) (b_ctls r) (b_ctls_allocated r)
    (b_timeheap r) (b_io r) (b_sigmap r) (b_be r) (b_sbe r) (event_count r) (event_count_max r)
    v (event_count_active_max r) (virtual_event_count r) (virtual_event_count_max r)
    (event_gotterm r) (event_break r) (event_continue r) (event_running_priority r)
    (running_loop r) (n_deferreds_queued r) (current_event r) (tv_cache r) (monotonic_timer r)
    (tv_clock_diff r) (last_updated_clock_diff r) (b_flags r) (max_dispatch_time r)
    (max_dispatch_callbacks r) (limit_callbacks_after_prio r) (b_frames r) (b_next_frame r)
    (b_world r).
Definition set_event_count_active_max (v : Z) (r : event_base) : event_base :=
  mk_base (b_evs r) (b_activequeues r) (b_later r) (b_ctls r) (b_ctls_allocated r)
    (b_timeheap r) (b_io r) (b_sigmap r) (b_be r) (b_sbe r) (event_count r) (event_count_max r)
    (event_count_active r) v (virtual_event_count r) (virtual_event_count_max r)
    (event_gotterm r) (event_break r) (event_continue r) (event_running_priority r)
    (running_loop r) (n_deferreds_queued r) (current_event r) (tv_cache r) (monotonic_timer r)
    (tv_clock_diff r) (last_updated_clock_diff r) (b_flags r) (max_dispatch_time r)
    (max_dispatch_callbacks r) (limit_callbacks_after_prio r) (b_frames r) (b_next_frame r)
    (b_world r).
Definition set_virtual_event_count (v : Z) (r : event_base) : event_base :=
  mk_base (b_evs r) (b_activequeues r) (b_later r) (b_ctls r) (b_ctls_allocated r)
    (b_timeheap r) (b_io r) (b_sigmap r) (b_be r) (b_sbe r) (event_count r) (event_count_max r)
    (event_count_active r) (event_count_active_max r) v (virtual_event_count_max r)
    (event_gotterm r) (event_break r) (event_continue r) (event_running_priority r)
    (running_loop r) (n_deferreds_queued r) (current_event r) (tv_cache r) (monotonic_timer r)
    (tv_clock_diff r) (last_updated_clock_diff r) (b_flags r) (max_dispatch_time r)
    (max_dispatch_callbacks r) (limit_callbacks_after_prio r) (b_frames r) (b_next_frame r)
    (b_world r).
Definition set_virtual_event_count_max (v : Z) (r : event_base) : event_base :=
  mk_base (b_evs r) (b_activequeues r) (b_later r) (b_ctls r) (b_ctls_allocated r)
    (b_timeheap r) (b_io r) (b_sigmap r) (b_be r) (b_sbe r) (event_count r) (event_count_max r)
    (event_count_active r) (event_count_active_max r) (virtual_event_count r) v
    (event_gotterm r) (event_break r) (event_continue r) (event_running_priority r)
    (running_loop r) (n_deferreds_queued r) (current_event r) (tv_cache r) (monotonic_timer r)
    (tv_clock_diff r) (last_updated_clock_diff r) (b_flags r) (max_dispatch_time r)
    (max_dispatch_callbacks r) (limit_callbacks_after_prio r) (b_frames r) (b_next_frame r)
    (b_world r).
Definition set_event_gotterm (v : Z) (r : event_base) : event_base :=
  mk_base (b_evs r) (b_activequeues r) (b_later r) (b_ctls r) (b_ctls_allocated r)
    (b_timeheap r) (b_io r) (b_sigmap r) (b_be r) (b_sbe r) (event_count r) (event_count_max r)
    (event_count_active r) (event_count_active_max r) (virtual_event_count r)
    (virtual_event_count_max r) v (event_break r) (event_continue r) (event_running_priority r)
    (running_loop r) (n_deferreds_queued r) (current_event r) (tv_cache r) (monotonic_timer r)
    (tv_clock_diff r) (last_updated_clock_diff r) (b_flags r) (max_dispatch_time r)
    (max_dispatch_callbacks r) (limit_callbacks_after_prio r) (b_frames r) (b_next_frame r)
    (b_world r).
Definition set_event_break (v : Z) (r : event_base) : event_base :=
  mk_base (b_evs r) (b_activequeues r) (b_later r) (b_ctls r) (b_ctls_allocated r)
    (b_timeheap r) (b_io r) (b_sigmap r) (b_be r) (b_sbe r) (event_count r) (event_count_max r)
    (event_count_active r) (event_count_active_max r) (virtual_event_count r)
    (virtual_event_count_max r) (event_gotterm r) v (event_continue r)
    (event_running_priority r) (running_loop r) (n_deferreds_queued r) (current_event r)
    (tv_cache r) (monotonic_timer r) (tv_clock_diff r) (last_updated_clock_diff r) (b_flags r)
    (max_dispatch_time r) (max_dispatch_callbacks r) (limit_callbacks_after_prio r) (b_frames r)
    (b_next_frame r) (b_world r).
Definition set_event_continue (v : Z) (r : event_base) : event_base :=
  mk_base (b_evs r) (b_activequeues r) (b_later r) (b_ctls r) (b_ctls_allocated r)
    (b_timeheap r) (b_io r) (b_sigmap r) (b_be r) (b_sbe r) (event_count r) (event_count_max r)
    (event_count_active r) (event_count_active_max r) (virtual_event_count r)
    (virtual_event_count_max r) (event_gotterm r) (event_break r) v (event_running_priority r)
    (running_loop r) (n_deferreds_queued r) (current_event r) (tv_cache r) (monotonic_timer r)
    (tv_clock_diff r) (last_updated_clock_diff r) (b_flags r) (max_dispatch_time r)
    (max_dispatch_callbacks r) (limit_callbacks_after_prio r) (b_frames r) (b_next_frame r)
    (b_world r).
Definition set_event_running_priority (v : Z) (r : event_base) : event_base :=
  mk_base (b_evs r) (b_activequeues r) (b_later r) (b_ctls r) (b_ctls_allocated r)
    (b_timeheap r) (b_io r) (b_sigmap r) (b_be r) (b_sbe r) (event_count r) (event_count_max r)
    (event_count_active r) (event_count_active_max r) (virtual_event_count r)
    (virtual_event_count_max r) (event_gotterm r) (event_break r) (event_continue r) v
    (running_loop r) (n_deferreds_queued r) (current_event r) (tv_cache r) (monotonic_timer r)
    (tv_clock_diff r) (last_updated_clock_diff r) (b_flags r) (max_dispatch_time r)
    (max_dispatch_callbacks r) (limit_callbacks_after_prio r) (b_frames r) (b_next_frame r)
    (b_world r).
Definition set_running_loop (v : Z) (r : event_base) : event_base :=
  mk_base (b_evs r) (b_activequeues r) (b_later r) (b_ctls r) (b_ctls_allocated r)
    (b_timeheap r) (b_io r) (b_sigmap r) (b_be r) (b_sbe r) (event_count r) (event_count_max r)
    (event_count_active r) (event_count_active_max r) (virtual_event_count r)
    (virtual_event_count_max r) (event_gotterm r) (event_break r) (event_continue r)
    (event_running_priority r) v (n_deferreds_queued r) (current_event r) (tv_cache r)
    (monotonic_timer r) (tv_clock_diff r) (last_updated_clock_diff r) (b_flags r)
    (max_dispatch_time r) (max_dispatch_callbacks r) (limit_callbacks_after_prio r) (b_frames r)
    (b_next_frame r) (b_world r).
Definition set_n_deferreds_queued (v : Z) (r : event_base) : event_base :=
  mk_base (b_evs r) (b_activequeues r) (b_later r) (b_ctls r) (b_ctls_allocated r)
    (b_timeheap r) (b_io r) (b_sigmap r) (b_be r) (b_sbe r) (event_count r) (event_count_max r)
    (event_count_active r) (event_count_active_max r) (virtual_event_count r)
    (virtual_event_count_max r) (event_gotterm r) (event_break r) (event_continue r)
    (event_running_priority r) (running_loop r) v (current_event r) (tv_cache r)
    (monotonic_timer r) (tv_clock_diff r) (last_updated_clock_diff r) (b_flags r)
    (max_dispatch_time r) (max_dispatch_callbacks r) (limit_callbacks_after_prio r) (b_frames r)
    (b_next_frame r) (b_world r).
Definition set_current_event (v : evp) (r : event_base) : event_base :=
  mk_base (b_evs r) (b_activequeues r) (b_later r) (b_ctls r) (b_ctls_allocated r)
    (b_timeheap r) (b_io r) (b_sigmap r) (b_be r) (b_sbe r) (event_count r) (event_count_max r)
    (event_count_active r) (event_count_active_max r) (virtual_event_count r)
    (virtual_event_count_max r) (event_gotterm r) (event_break r) (event_continue r)
    (event_running_priority r) (running_loop r) (n_deferreds_queued r) v (tv_cache r)
    (monotonic_timer r) (tv_clock_diff r) (last_updated_clock_diff r) (b_flags r)
    (max_dispatch_time r) (max_dispatch_callbacks r) (limit_callbacks_after_prio r) (b_frames r)
    (b_next_frame r) (b_world r).
Definition set_tv_cache (v : timeval) (r : event_base) : event_base :=
  mk_base (b_evs r) (b_activequeues r) (b_later r) (b_ctls r) (b_ctls_allocated r)
    (b_timeheap r) (b_io r) (b_sigmap r) (b_be r) (b_sbe r) (event_count r) (event_count_max r)
    (event_count_active r) (event_count_active_max r) (virtual_event_count r)
    (virtual_event_count_max r) (event_gotterm r) (event_break r) (event_continue r)
    (event_running_priority r) (running_loop r) (n_deferreds_queued r) (current_event r) v
    (monotonic_timer r) (tv_clock_diff r) (last_updated_clock_diff r) (b_flags r)
    (max_dispatch_time r) (max_dispatch_callbacks r) (limit_callbacks_after_prio r) (b_frames r)
    (b_next_frame r) (b_world r).
Definition set_monotonic_timer (v : evutil_monotonic_timer) (r : event_base) : event_base :=
  mk_base (b_evs r) (b_activequeues r) (b_later r) (b_ctls r) (b_ctls_allocated r)
    (b_timeheap r) (b_io r) (b_sigmap r) (b_be r) (b_sbe r) (event_count r) (event_count_max r)
    (event_count_active r) (event_count_active_max r) (virtual_event_count r)
    (virtual_event_count_max r) (event_gotterm r) (event_break r) (event_continue r)
    (event_running_priority r) (running_loop r) (n_deferreds_queued r) (current_event r)
    (tv_cache r) v (tv_clock_diff r) (last_updated_clock_diff r) (b_flags r)
    (max_dispatch_time r) (max_dispatch_callbacks r) (limit_callbacks_after_prio r) (b_frames r)
    (b_next_frame r) (b_world r).
Definition set_tv_clock_diff (v : timeval) (r : event_base) : event_base :=
  mk_base (b_evs r) (b_activequeues r) (b_later r) (b_ctls r) (b_ctls_allocated r)
    (b_timeheap r) (b_io r) (b_sigmap r) (b_be r) (b_sbe r) (event_count r) (event_count_max r)
    (event_count_active r) (event_count_active_max r) (virtual_event_count r)
    (virtual_event_count_max r) (event_gotterm r) (event_break r) (event_continue r)
    (event_running_priority r) (running_loop r) (n_deferreds_queued r) (current_event r)
    (tv_cache r) (monotonic_timer r) v (last_updated_clock_diff r) (b_flags r)
    (max_dispatch_time r) (max_dispatch_callbacks r) (limit_callbacks_after_prio r) (b_frames r)
    (b_next_frame r) (b_world r).
Definition set_last_updated_clock_diff (v : Z) (r : event_base) : event_base :=
  mk_base (b_evs r) (b_activequeues r) (b_later r) (b_ctls r) (b_ctls_allocated r)
    (b_timeheap r) (b_io r) (b_sigmap r) (b_be r) (b_sbe r) (event_count r) (event_count_max r)
    (event_count_active r) (event_count_active_max r) (virtual_event_count r)
    (virtual_event_count_max r) (event_gotterm r) (event_break r) (event_continue r)
    (event_running_priority r) (running_loop r) (n_deferreds_queued r) (current_event r)
    (tv_cache r) (monotonic_timer r) (tv_clock_diff r) v (b_flags r) (max_dispatch_time r)
    (max_dispatch_callbacks r) (limit_callbacks_after_prio r) (b_frames r) (b_next_frame r)
    (b_world r).
Definition set_b_flags (v : Z) (r : event_base) : event_base :=
  mk_base (b_evs r) (b_activequeues r) (b_later r) (b_ctls r) (b_ctls_allocated r)
    (b_timeheap r) (b_io r) (b_sigmap r) (b_be r) (b_sbe r) (event_count r) (event_count_max r)
    (event_count_active r) (event_count_active_max r) (virtual_event_count r)
    (virtual_event_count_max r) (event_gotterm r) (event_break r) (event_continue r)
    (event_running_priority r) (running_loop r) (n_deferreds_queued r) (current_event r)
    (tv_cache r) (monotonic_timer r) (tv_clock_diff r) (last_updated_clock_diff r) v
    (max_dispatch_time r) (max_dispatch_callbacks r) (limit_callbacks_after_prio r) (b_frames r)
    (b_next_frame r) (b_world r).
Definition set_max_dispatch_time (v : timeval) (r : event_base) : event_base :=
  mk_base (b_evs r) (b_activequeues r) (b_later r) (b_ctls r) (b_ctls_allocated r)
    (b_timeheap r) (b_io r) (b_sigmap r) (b_be r) (b_sbe r) (event_count r) (event_count_max r)
    (event_count_active r) (event_count_active_max r) (virtual_event_count r)
    (virtual_event_count_max r) (event_gotterm r) (event_break r) (event_continue r)
    (event_running_priority r) (running_loop r) (n_deferreds_queued r) (current_event r)
    (tv_cache r) (monotonic_timer r) (tv_clock_diff r) (last_updated_clock_diff r) (b_flags r) v
    (max_dispatch_callbacks r) (limit_callbacks_after_prio r) (b_frames r) (b_next_frame r)
    (b_world r).
Definition set_max_dispatch_callbacks (v : Z) (r : event_base) : event_base :=
  mk_base (b_evs r) (b_activequeues r) (b_later r) (b_ctls r) (b_ctls_allocated r)
    (b_timeheap r) (b_io r) (b_sigmap r) (b_be r) (b_sbe r) (event_count r) (event_count_max r)
    (event_count_active r) (event_count_active_max r) (virtual_event_count r)
    (virtual_event_count_max r) (event_gotterm r) (event_break r) (event_continue r)
    (event_running_priority r) (running_loop r) (n_deferreds_queued r) (current_event r)
    (tv_cache r) (monotonic_timer r) (tv_clock_diff r) (last_updated_clock_diff r) (b_flags r)
    (max_dispatch_time r) v (limit_callbacks_after_prio r) (b_frames r) (b_next_frame r)
    (b_world r).
Definition set_limit_callbacks_after_prio (v : Z) (r : event_base) : event_base :=
  mk_base (b_evs r) (b_activequeues r) (b_later r) (b_ctls r) (b_ctls_allocated r)
    (b_timeheap r) (b_io r) (b_sigmap r) (b_be r) (b_sbe r) (event_count r) (event_count_max r)
    (event_count_active r) (event_count_active_max r) (virtual_event_count r)
    (virtual_event_count_max r) (event_gotterm r) (event_break r) (event_continue r)
    (event_running_priority r) (running_loop r) (n_deferreds_queued r) (current_event r)
    (tv_cache r) (monotonic_timer r) (tv_clock_diff r) (last_updated_clock_diff r) (b_flags r)
    (max_dispatch_time r) (max_dispatch_callbacks r) v (b_frames r) (b_next_frame r) (b_world r).
Definition set_b_frames (v : gmap Z Z) (r : event_base) : event_base :=
  mk_base (b_evs r) (b_activequeues r) (b_later r) (b_ctls r) (b_ctls_allocated r)
    (b_timeheap r) (b_io r) (b_sigmap r) (b_be r) (b_sbe r) (event_count r) (event_count_max r)
    (event_count_active r) (event_count_active_max r) (virtual_event_count r)
    (virtual_event_count_max r) (event_gotterm r) (event_break r) (event_continue r)
    (event_running_priority r) (running_loop r) (n_deferreds_queued r) (current_event r)
    (tv_cache r) (monotonic_timer r) (tv_clock_diff r) (last_updated_clock_diff r) (b_flags r)
    (max_dispatch_time r) (max_dispatch_callbacks r) (limit_callbacks_after_prio r) v
    (b_next_frame r) (b_world r).
Definition set_b_next_frame (v : Z) (r : event_base) : event_base :=
  mk_base (b_evs r) (b_activequeues r) (b_later r) (b_ctls r) (b_ctls_allocated r)
    (b_timeheap r) (b_io r) (b_sigmap r) (b_be r) (b_sbe r) (event_count r) (event_count_max r)
    (event_count_active r) (event_count_active_max r) (virtual_event_count r)
    (virtual_event_count_max r) (event_gotterm r) (event_break r) (event_continue r)
    (event_running_priority r) (running_loop r) (n_deferreds_queued r) (current_event r)
    (tv_cache r) (monotonic_timer r) (tv_clock_diff r) (last_updated_clock_diff r) (b_flags r)
    (max_dispatch_time r) (max_dispatch_callbacks r) (limit_callbacks_after_prio r) (b_frames r)
    v (b_world r).
Definition set_b_world (v : EW) (r : event_base) : event_base :=
  mk_base (b_evs r) (b_activequeues r) (b_later r) (b_ctls r) (b_ctls_allocated r)
    (b_timeheap r) (b_io r) (b_sigmap r) (b_be r) (b_sbe r) (event_count r) (event_count_max r)
    (event_count_active r) (event_count_active_max r) (virtual_event_count r)
    (virtual_event_count_max r) (event_gotterm r) (event_break r) (event_continue r)
    (event_running_priority r) (running_loop r) (n_deferreds_queued r) (current_event r)
    (tv_cache r) (monotonic_timer r) (tv_clock_diff r) (last_updated_clock_diff r) (b_flags r)
    (max_dispatch_time r) (max_dispatch_callbacks r) (limit_callbacks_after_prio r) (b_frames r)
    (b_next_frame r) v.

Definition get_ev (b : event_base) (e : evp) : option event := b_evs b !! e.
Definition upd_ev (e : evp) (f : event → event) (b : event_base) : event_base :=
  set_b_evs (alter f e (b_evs b)) b.
Definition add_flag (m : Z) (ev : event) : event := set_ev_flags (Z.lor (ev_flags ev) m) ev.
Definition clear_flag (m : Z) (ev : event) : event :=
  set_ev_flags (Z.land (ev_flags ev) (Z.lnot m)) ev.
Definition nactivequeues (b : event_base) : Z := Z.of_nat (length (b_activequeues b)).
Definition n_common_timeouts (b : event_base) : Z := Z.of_nat (length (b_ctls b)).

(** [ev->ev_events] as the maps read it. *)
Definition events_of (m : gmap evp event) (e : evp) : Z := from_option ev_events 0 (m !! e).

(** ** Time *)

(** On failure the caller's [struct timeval] stays uninitialised: [None]. *)
Definition gettime (b : event_base) : option (event_base * option timeval) :=
  if negb (tv_sec (tv_cache b) =? 0) then Some (b, Some (tv_cache b)) else
  let '(w, (tod, mono)) := env_clock (b_world b) in
  let b := set_b_world w b in
  match evutil_gettime_monotonic_ tod mono (monotonic_timer b) with
  | None => Some (b, None)
  | Some (timer, tp) =>
    let b := set_monotonic_timer timer b in
    if last_updated_clock_diff b + CLOCK_SYNC_INTERVAL <? tv_sec tp then
      let '(w, (tod, _)) := env_clock (b_world b) in
      let b := set_b_world w b in
      tv ← tod;
      Some (set_last_updated_clock_diff (tv_sec tp)
              (set_tv_clock_diff (evutil_timersub tv tp) b), Some tp)
    else Some (b, Some tp)
  end.

(** [gettime] where the caller goes on to use the time. *)
Definition gettime_ok (b : event_base) : option (event_base * timeval) :=
  '(b, t) ← gettime b; now ← t; Some (b, now).

Definition clear_time_cache (b : event_base) : event_base :=
  set_tv_cache (mk_timeval 0 (tv_usec (tv_cache b))) b.

Definition update_time_cache (b : event_base) : option event_base :=
  let b := clear_time_cache b in
  if negb (b_flags b &? EVENT_BASE_FLAG_NO_CACHE_TIME) then
    '(b, t) ← gettime b;
    Some (match t with Some t => set_tv_cache t b | None => b end)
  else Some b.

Definition event_base_update_cache_time (b : event_base) : option (event_base * Z) :=
  if negb (running_loop b =? 0) then b ← update_time_cache b; Some (b, 0)
  else Some (b, 0).

Definition event_base_gettimeofday_cached (b : event_base) : option (event_base * option timeval) :=
  if tv_sec (tv_cache b) =? 0 then
    let '(w, (tod, _)) := env_clock (b_world b) in Some (set_b_world w b, tod)
  else Some (b, Some (evutil_timeradd (tv_cache b) (tv_clock_diff b))).

Definition event_gettime_monotonic (b : event_base) : option (event_base * option timeval) :=
  let '(w, (tod, mono)) := env_clock (b_world b) in
  let b := set_b_world w b in
  match evutil_gettime_monotonic_ tod mono (monotonic_timer b) with
  | None => Some (b, None)
  | Some (timer, tp) => Some (set_monotonic_timer timer b, Some tp)
  end.

(** ** Common timeouts *)

Definition MICROSECONDS_MASK : Z := 0x000fffff.
Definition COMMON_TIMEOUT_IDX_MASK : Z := 0x0ff00000.
Definition COMMON_TIMEOUT_IDX_SHIFT : Z := 20.
Definition COMMON_TIMEOUT_MASK : Z := 0xf0000000.
Definition COMMON_TIMEOUT_MAGIC : Z := 0x50000000.
Definition MAX_COMMON_TIMEOUTS : Z := 256.

Definition COMMON_TIMEOUT_IDX (tv : timeval) : Z :=
  Z.shiftr (Z.land (tv_usec tv) COMMON_TIMEOUT_IDX_MASK) COMMON_TIMEOUT_IDX_SHIFT.

Definition is_common_timeout (tv : timeval) (b : event_base) : bool :=
  if negb (Z.land (tv_usec tv) COMMON_TIMEOUT_MASK =? COMMON_TIMEOUT_MAGIC) then false
  else COMMON_TIMEOUT_IDX tv <? n_common_timeouts b.

Definition is_same_common_timeout (tv1 tv2 : timeval) : bool :=
  Z.land (tv_usec tv1) (Z.lnot MICROSECONDS_MASK)
  =? Z.land (tv_usec tv2) (Z.lnot MICROSECONDS_MASK).

Definition get_common_timeout_list (b : event_base) (tv : timeval)
    : option (nat * common_timeout_list) :=
  let i := Z.to_nat (COMMON_TIMEOUT_IDX tv) in
  ctl ← b_ctls b !! i; Some (i, ctl).

Definition mask_usec (tv : timeval) : timeval :=
  mk_timeval (tv_sec tv) (Z.land (tv_usec tv) MICROSECONDS_MASK).

(** The backward search of [insert_common_timeout_inorder], on the reversed
    queue. *)
Fixpoint insert_inorder_rev (m : gmap evp event) (t : timeval) (ev : evp) (rq : list evp)
    : option (list evp) :=
  match rq with
  | [] => Some [ev]
  | e :: rq' =>
    ee ← m !! e;
    ASSERT (is_same_common_timeout (ev_timeout ee) t) ;;
    if evutil_timercmp t (ev_timeout ee) Z.geb then Some (ev :: rq)
    else q ← insert_inorder_rev m t ev rq'; Some (e :: q)
  end.

Definition set_ctl_events (q : list evp) (ctl : common_timeout_list) : common_timeout_list :=
  mk_ctl q (ctl_duration ctl) (ctl_timeout_event ctl).

Definition insert_common_timeout_inorder (b : event_base) (i : nat) (e : evp)
    : option event_base :=
  ctl ← b_ctls b !! i;
  ev ← get_ev b e;
  rq ← insert_inorder_rev (b_evs b) (ev_timeout ev) e (reverse (ctl_events ctl));
  Some (upd_ev e (set_ev_idx env_link_bits)
    (set_b_ctls (<[i := set_ctl_events (reverse rq) ctl]> (b_ctls b)) b)).

(** ** The queues *)

Definition DECR_EVENT_COUNT (flags : Z) (b : event_base) : event_base :=
  set_event_count (event_count b - (if flags &? EVLIST_INTERNAL then 0 else 1)) b.

Definition INCR_EVENT_COUNT (flags : Z) (b : event_base) : event_base :=
  let b := set_event_count (event_count b + (if flags &? EVLIST_INTERNAL then 0 else 1)) b in
  set_event_count_max (Z.max (event_count_max b) (event_count b)) b.

Definition event_queue_remove_inserted (b : event_base) (e : evp) : option event_base :=
  ev ← get_ev b e;
  if negb (ev_flags ev &? EVLIST_INSERTED) then None else
  Some (upd_ev e (clear_flag EVLIST_INSERTED) (DECR_EVENT_COUNT (ev_flags ev) b)).

(** [TAILQ_REMOVE] from and [TAILQ_INSERT_TAIL] to a queue of active callbacks. *)
Definition remove_from_active (pri : Z) (e : evp) (b : event_base) : option event_base :=
  if pri <? 0 then None else
  q ← b_activequeues b !! Z.to_nat pri;
  q ← unlink e q;
  Some (set_b_activequeues (<[Z.to_nat pri := q]> (b_activequeues b)) b).

Definition append_to_active (pri : Z) (e : evp) (b : event_base) : option event_base :=
  ASSERT (pri <? nactivequeues b) ;;
  if pri <? 0 then None else
  q ← b_activequeues b !! Z.to_nat pri;
  Some (set_b_activequeues (<[Z.to_nat pri := q ++ [e]]> (b_activequeues b)) b).

Definition event_queue_remove_active (b : event_base) (e : evp) : option event_base :=
  ev ← get_ev b e;
  if negb (ev_flags ev &? EVLIST_ACTIVE) then None else
  let b := upd_ev e (clear_flag EVLIST_ACTIVE) (DECR_EVENT_COUNT (ev_flags ev) b) in
  let b := set_event_count_active (event_count_active b - 1) b in
  remove_from_active (ev_pri ev) e b.

Definition event_queue_remove_active_later (b : event_base) (e : evp) : option event_base :=
  ev ← get_ev b e;
  if negb (ev_flags ev &? EVLIST_ACTIVE_LATER) then None else
  let b := upd_ev e (clear_flag EVLIST_ACTIVE_LATER) (DECR_EVENT_COUNT (ev_flags ev) b) in
  let b := set_event_count_active (event_count_active b - 1) b in
  q ← unlink e (b_later b);
  Some (set_b_later q b).

Definition event_queue_remove_timeout (b : event_base) (e : evp) : option event_base :=
  ev ← get_ev b e;
  if negb (ev_flags ev &? EVLIST_TIMEOUT) then None else
  let b := upd_ev e (clear_flag EVLIST_TIMEOUT) (DECR_EVENT_COUNT (ev_flags ev) b) in
  if is_common_timeout (ev_timeout ev) b then
    '(i, ctl) ← get_common_timeout_list b (ev_timeout ev);
    q ← unlink e (ctl_events ctl);
    Some (set_b_ctls (<[i := set_ctl_events q ctl]> (b_ctls b)) b)
  else
    '(h, m, _) ← min_heap_erase_ (H := ev_store ∅) (b_timeheap b) (b_evs b) e;
    Some (set_b_timeheap h (set_b_evs m b)).

Definition event_queue_insert_inserted (b : event_base) (e : evp) : option event_base :=
  ev ← get_ev b e;
  if ev_flags ev &? EVLIST_INSERTED then None else
  Some (upd_ev e (add_flag EVLIST_INSERTED) (INCR_EVENT_COUNT (ev_flags ev) b)).

Definition count_active (b : event_base) : event_base :=
  let b := set_event_count_active (event_count_active b + 1) b in
  set_event_count_active_max (Z.max (event_count_active_max b) (event_count_active b)) b.

Definition event_queue_insert_active (b : event_base) (e : evp) : option event_base :=
  ev ← get_ev b e;
  if ev_flags ev &? EVLIST_ACTIVE then Some b else
  let b := upd_ev e (add_flag EVLIST_ACTIVE) (INCR_EVENT_COUNT (ev_flags ev) b) in
  append_to_active (ev_pri ev) e (count_active b).

Definition event_queue_insert_active_later (b : event_base) (e : evp) : option event_base :=
  ev ← get_ev b e;
  if ev_flags ev &? Z.lor EVLIST_ACTIVE_LATER EVLIST_ACTIVE then Some b else
  let b := upd_ev e (add_flag EVLIST_ACTIVE_LATER) (INCR_EVENT_COUNT (ev_flags ev) b) in
  let b := count_active b in
  ASSERT (ev_pri ev <? nactivequeues b) ;;
  Some (set_b_later (b_later b ++ [e]) b).

(** The result of [min_heap_push_] is ignored. *)
Definition event_queue_insert_timeout (b : event_base) (e : evp) : option event_base :=
  ev ← get_ev b e;
  if ev_flags ev &? EVLIST_TIMEOUT then None else
  let b := upd_ev e (add_flag EVLIST_TIMEOUT) (INCR_EVENT_COUNT (ev_flags ev) b) in
  if is_common_timeout (ev_timeout ev) b then
    '(i, _) ← get_common_timeout_list b (ev_timeout ev);
    insert_common_timeout_inorder b i e
  else
    '(h, m, _) ← min_heap_push_ (H := ev_store ∅) env_realloc_ok (b_timeheap b) (b_evs b) e;
    Some (set_b_timeheap h (set_b_evs m b)).

(** The loop runs once per element of the queue it empties. *)
Fixpoint make_later_loop (q : list evp) (b : event_base) : option event_base :=
  match q with
  | [] => Some b
  | e :: q' =>
    ev ← get_ev b e;
    let b := set_b_later q' b in
    let b := upd_ev e (λ ev, add_flag EVLIST_ACTIVE (clear_flag EVLIST_ACTIVE_LATER ev)) b in
    b ← append_to_active (ev_pri ev) e b;
    make_later_loop q' (set_n_deferreds_queued
      (n_deferreds_queued b + (if ev_closure ev =? EV_CLOSURE_CB_SELF then 1 else 0)) b)
  end.

Definition event_queue_make_later_events_active (b : event_base) : option event_base :=
  make_later_loop (b_later b) b.
End base.
Arguments event_base {_}.
