(* ===== verification/EventCore.v ===== *)
(** * Adding, deleting, activating events and the event loop (event.c)

    The operations on events over the state and queues of EventBase.v, each
    translated whole, and the loop that dispatches the backend, expires
    timeouts and runs the active callbacks by priority. *)

From S2P Require Import Prelude TimeVal MinHeap EvMap EventBase.

Abbreviation EVENT_MAX_PRIORITIES := 256.
Abbreviation EVENT_BASE_COUNT_ACTIVE := 1.
Abbreviation EVENT_BASE_COUNT_VIRTUAL := 2.
Abbreviation EVENT_BASE_COUNT_ADDED := 4.
Abbreviation EVENT_FINALIZE_FREE_ := 0x10000.
Abbreviation EVLOOP_ONCE := 0x01.
Abbreviation EVLOOP_NONBLOCK := 0x02.
Abbreviation EVLOOP_NO_EXIT_ON_EMPTY := 0x04.
Abbreviation MAX_DEFERREDS_QUEUED := 32.
Abbreviation EV_RWCS := 0x8e.

Section core.
Context `{EventEnv}.
Implicit Types b : event_base.

(** [if (ev->ev_ncalls && ev->ev_pncalls) *ev->ev_pncalls = 0;]  The pointer is
    the address of a local variable of [event_signal_closure], which must still
    be running. *)
Definition abort_signal_loop (b : event_base) (ev : event) : option event_base :=
  if negb (ev_ncalls ev =? 0) && negb (ev_pncalls ev =? 0) then
    _ ← b_frames b !! ev_pncalls ev;
    Some (set_b_frames (<[ev_pncalls ev := 0]> (b_frames b)) b)
  else Some b.

Definition event_remove_timer_nolock_ (b : event_base) (e : evp) : option (event_base * Z) :=
  ev ← get_ev b e;
  if ev_flags ev &? EVLIST_TIMEOUT then
    b ← event_queue_remove_timeout b e;
    Some (upd_ev e (set_ev_io_timeout evutil_timerclear) b, 0)
  else Some (b, 0).

(** ** Adding an event *)

(** The call of [evmap_io_add_] or [evmap_signal_add_]. *)
Definition add_to_map (b : event_base) (e : evp) (ev : event) : option (event_base * Z) :=
  if ev_events ev &? EV_RWC then
    '(io, be, r) ← evmap_io_add_ (events_of (b_evs b)) env_realloc_ok env_calloc_ok false
      env_sizeof_io (b_be b) (b_io b) (ev_fd ev) e;
    Some (set_b_io io (set_b_be be b), r)
  else if ev_events ev &? EV_SIGNAL then
    '(sm, sbe, r) ← evmap_signal_add_ env_realloc_ok env_calloc_ok env_sizeof_signal
      env_sig_add (b_sbe b) (b_sigmap b) (ev_fd ev) e;
    Some (set_b_sigmap sm (set_b_sbe sbe b), r)
  else Some (b, 0).

(** The part of [event_add_nolock_] that registers the event: the state and
    [res]. *)
Definition add_registration (b : event_base) (e : evp) (ev : event) : option (event_base * Z) :=
  if (ev_events ev &? EV_RWCS) &&
     negb (ev_flags ev &? Z.lor (Z.lor EVLIST_INSERTED EVLIST_ACTIVE) EVLIST_ACTIVE_LATER) then
    '(b, res) ← add_to_map b e ev;
    b ← (if negb (res =? -1) then event_queue_insert_inserted b e else Some b);
    Some (b, if res =? 1 then 0 else res)
  else Some (b, 0).

(** The new [ev_timeout]. *)
Definition deadline (common : bool) (now tv : timeval) (tv_is_absolute : bool) : timeval :=
  if tv_is_absolute then tv
  else if common then
    let t := evutil_timeradd now (mask_usec tv) in
    mk_timeval (tv_sec t)
      (Z.lor (tv_usec t) (Z.land (tv_usec tv) (Z.lnot MICROSECONDS_MASK)))
  else evutil_timeradd now tv.

(** Rescheduling the timeout before the callback of an event active because of
    its timeout could run removes it from the active list. *)
Definition cancel_active_timeout (b : event_base) (e : evp) : option event_base :=
  ev ← get_ev b e;
  if (ev_flags ev &? EVLIST_ACTIVE) && (ev_res ev &? EV_TIMEOUT) then
    b ← (if ev_events ev &? EV_SIGNAL then abort_signal_loop b ev else Some b);
    event_queue_remove_active b e
  else Some b.

(** The part of [event_add_nolock_] that sets the timeout; [schedule] is
    [common_timeout_schedule]. *)
Definition add_timeout (schedule : event_base → common_timeout_list → event → option event_base)
    (b : event_base) (e : evp) (tv : timeval) (tv_is_absolute : bool) : option event_base :=
  ev ← get_ev b e;
  let b := if (ev_closure ev =? EV_CLOSURE_EVENT_PERSIST) && negb tv_is_absolute
    then upd_ev e (set_ev_io_timeout tv) b else b in
  b ← (if ev_flags ev &? EVLIST_TIMEOUT then event_queue_remove_timeout b e else Some b);
  b ← cancel_active_timeout b e;
  '(b, now) ← gettime_ok b;
  let common_timeout := is_common_timeout tv b in
  let b := upd_ev e (set_ev_timeout (deadline common_timeout now tv tv_is_absolute)) b in
  b ← event_queue_insert_timeout b e;
  if common_timeout then
    ev ← get_ev b e;
    '(_, ctl) ← get_common_timeout_list b (ev_timeout ev);
    if bool_decide (head (ctl_events ctl) = Some e) then schedule b ctl ev else Some b
  else Some b.

Definition event_add_body (schedule : event_base → common_timeout_list → event → option event_base)
    (b : event_base) (e : evp) (tv : option timeval) (tv_is_absolute : bool)
    : option (event_base * Z) :=
  ev ← get_ev b e;
  ASSERT (negb (ev_flags ev &? Z.lnot EVLIST_ALL)) ;;
  if ev_flags ev &? EVLIST_FINALIZING then Some (b, -1) else
  let '(h, r) := if bool_decide (is_Some tv) && negb (ev_flags ev &? EVLIST_TIMEOUT)
    then min_heap_reserve_ env_realloc_ok (b_timeheap b) (1 + min_heap_size_ (b_timeheap b))
    else (b_timeheap b, 0) in
  if r =? -1 then Some (b, -1) else
  let b := set_b_timeheap h b in
  '(b, res) ← add_registration b e ev;
  match tv with
  | Some tv =>
    if negb (res =? -1) then b ← add_timeout schedule b e tv tv_is_absolute; Some (b, res)
    else Some (b, res)
  | None => Some (b, res)
  end.

(** [common_timeout_schedule] adds the queue's own event, at an absolute time
    that is not a common timeout, so it does not recur. *)
Definition common_timeout_schedule (b : event_base) (ctl : common_timeout_list) (head_ev : event)
    : option event_base :=
  '(b, _) ← event_add_body (λ _ _ _, None) b (ctl_timeout_event ctl)
    (Some (mask_usec (ev_timeout head_ev))) true;
  Some b.

Definition event_add_nolock_ := event_add_body common_timeout_schedule.

(** ** Deleting an event *)

Definition del_from_map (b : event_base) (e : evp) (ev : event) : option (event_base * Z) :=
  if ev_events ev &? EV_RWC then
    '(io, be, r) ← evmap_io_del_ (events_of (b_evs b)) (b_be b) (b_io b) (ev_fd ev) e;
    Some (set_b_io io (set_b_be be b), r)
  else
    '(sm, sbe, r) ← evmap_signal_del_ env_sig_del (b_sbe b) (b_sigmap b) (ev_fd ev) e;
    Some (set_b_sigmap sm (set_b_sbe sbe b), r).

Definition event_del_nolock_ (b : event_base) (e : evp) (blocking : Z)
    : option (event_base * Z) :=
  ev ← get_ev b e;
  if negb (blocking =? EVENT_DEL_EVEN_IF_FINALIZING) && (ev_flags ev &? EVLIST_FINALIZING)
  then Some (b, 0) else
  ASSERT (negb (ev_flags ev &? Z.lnot EVLIST_ALL)) ;;
  b ← (if ev_events ev &? EV_SIGNAL then abort_signal_loop b ev else Some b);
  b ← (if ev_flags ev &? EVLIST_TIMEOUT then event_queue_remove_timeout b e else Some b);
  b ← (if ev_flags ev &? EVLIST_ACTIVE then event_queue_remove_active b e
       else if ev_flags ev &? EVLIST_ACTIVE_LATER then event_queue_remove_active_later b e
       else Some b);
  if ev_flags ev &? EVLIST_INSERTED then
    b ← event_queue_remove_inserted b e;
    '(b, res) ← del_from_map b e ev;
    Some (b, if res =? 1 then 0 else res)
  else Some (b, 0).

(** ** Activation *)

Definition event_callback_activate_nolock_ (b : event_base) (e : evp) : option (event_base * Z) :=
  ev ← get_ev b e;
  if ev_flags ev &? EVLIST_FINALIZING then Some (b, 0) else
  let st := Z.land (ev_flags ev) (Z.lor EVLIST_ACTIVE EVLIST_ACTIVE_LATER) in
  if st =? EVLIST_ACTIVE_LATER then
    b ← event_queue_remove_active_later b e;
    b ← event_queue_insert_active b e; Some (b, 0)
  else if st =? EVLIST_ACTIVE then Some (b, 0)
  else if st =? 0 then
    b ← event_queue_insert_active b e; Some (b, 1)
  else None.

Definition event_callback_activate_later_nolock_ (b : event_base) (e : evp)
    : option (event_base * Z) :=
  ev ← get_ev b e;
  if ev_flags ev &? Z.lor EVLIST_ACTIVE EVLIST_ACTIVE_LATER then Some (b, 0) else
  b ← event_queue_insert_active_later b e; Some (b, 1).

Definition event_active_nolock_ (b : event_base) (e : evp) (res ncalls : Z) : option event_base :=
  ev ← get_ev b e;
  if ev_flags ev &? EVLIST_FINALIZING then Some b else
  let st := Z.land (ev_flags ev) (Z.lor EVLIST_ACTIVE EVLIST_ACTIVE_LATER) in
  if st =? EVLIST_ACTIVE then
    Some (upd_ev e (set_ev_res (i16 (Z.lor (ev_res ev) res))) b)
  else if negb ((st =? EVLIST_ACTIVE_LATER) || (st =? 0)) then None else
  let b := upd_ev e (set_ev_res
    (if st =? 0 then i16 res else i16 (Z.lor (ev_res ev) res))) b in
  let b := if ev_pri ev <? event_running_priority b then set_event_continue 1 b else b in
  let b := if ev_events ev &? EV_SIGNAL
    then upd_ev e (λ ev, set_ev_pncalls 0 (set_ev_ncalls ncalls ev)) b else b in
  '(b, _) ← event_callback_activate_nolock_ b e;
  Some b.

Definition event_active_later_nolock_ (b : event_base) (e : evp) (res : Z) : option event_base :=
  ev ← get_ev b e;
  if ev_flags ev &? Z.lor EVLIST_ACTIVE EVLIST_ACTIVE_LATER then
    Some (upd_ev e (set_ev_res (i16 (Z.lor (ev_res ev) res))) b)
  else
    '(b, _) ← event_callback_activate_later_nolock_ (upd_ev e (set_ev_res (i16 res)) b) e;
    Some b.

Definition event_callback_cancel_nolock_ (b : event_base) (e : evp) (even_if_finalizing : bool)
    : option (event_base * Z) :=
  ev ← get_ev b e;
  if (ev_flags ev &? EVLIST_FINALIZING) && negb even_if_finalizing then Some (b, 0) else
  if ev_flags ev &? EVLIST_INIT then
    event_del_nolock_ b e
      (if even_if_finalizing then EVENT_DEL_EVEN_IF_FINALIZING else EVENT_DEL_AUTOBLOCK)
  else
  let st := Z.land (ev_flags ev) (Z.lor EVLIST_ACTIVE EVLIST_ACTIVE_LATER) in
  if st =? EVLIST_ACTIVE then b ← event_queue_remove_active b e; Some (b, 0)
  else if st =? EVLIST_ACTIVE_LATER then b ← event_queue_remove_active_later b e; Some (b, 0)
  else if st =? 0 then Some (b, 0) else None.

Definition event_deferred_cb_schedule_ (b : event_base) (e : evp) : option (event_base * Z) :=
  if MAX_DEFERREDS_QUEUED <? n_deferreds_queued b then event_callback_activate_later_nolock_ b e
  else
    '(b, r) ← event_callback_activate_nolock_ b e;
    Some (if negb (r =? 0) then set_n_deferreds_queued (n_deferreds_queued b + 1) b else b, r).

(** ** Finalizing *)

Definition event_finalize_nolock_ (b : event_base) (flags : Z) (e : evp) : option (event_base * Z) :=
  let closure := if flags &? EVENT_FINALIZE_FREE_
    then EV_CLOSURE_EVENT_FINALIZE_FREE else EV_CLOSURE_EVENT_FINALIZE in
  '(b, _) ← event_del_nolock_ b e EVENT_DEL_NOBLOCK;
  let b := upd_ev e (set_ev_closure closure) b in
  b ← event_active_nolock_ b e EV_FINALIZE 1;
  Some (upd_ev e (add_flag EVLIST_FINALIZING) b, 0).

Definition event_callback_finalize_nolock_ (b : event_base) (e : evp) : option event_base :=
  ev ← get_ev b e;
  '(b, _) ← (if ev_flags ev &? EVLIST_INIT then event_del_nolock_ b e EVENT_DEL_NOBLOCK
             else event_callback_cancel_nolock_ b e false);
  let b := upd_ev e (set_ev_closure EV_CLOSURE_CB_FINALIZE) b in
  '(b, _) ← event_callback_activate_nolock_ b e;
  Some (upd_ev e (add_flag EVLIST_FINALIZING) b).

(** The loop of [event_callback_finalize_many_] and [n_pending]. *)
Fixpoint finalize_many_loop (b : event_base) (es : list evp) (n_pending : Z)
    : option (event_base * Z) :=
  match es with
  | [] => Some (b, n_pending)
  | e :: es =>
    if e =? current_event b then
      b ← event_callback_finalize_nolock_ b e; finalize_many_loop b es (n_pending + 1)
    else
      '(b, _) ← event_callback_cancel_nolock_ b e false; finalize_many_loop b es n_pending
  end.

Definition event_callback_finalize_many_ (b : event_base) (es : list evp) : option (event_base * Z) :=
  '(b, n_pending) ← finalize_many_loop b es 0;
  b ← (if n_pending =? 0 then e0 ← head es; event_callback_finalize_nolock_ b e0 else Some b);
  Some (b, 0).

(** ** Assignment, priorities and queries *)

(** [event_assign] with a base; the memory of the event may hold anything. *)
Definition event_assign (b : event_base) (e : evp) (fd events : Z) : option (event_base * Z) :=
  ev ← get_ev b e;
  let ev := set_ev_fd fd (set_ev_events events (set_ev_res 0 (set_ev_flags EVLIST_INIT
    (set_ev_pncalls 0 (set_ev_ncalls 0 ev))))) in
  if (events &? EV_SIGNAL) && (events &? EV_RWC) then
    Some (set_b_evs (<[e := ev]> (b_evs b)) b, -1) else
  let ev := if events &? EV_SIGNAL then set_ev_closure EV_CLOSURE_EVENT_SIGNAL ev
    else if events &? EV_PERSIST then
      set_ev_closure EV_CLOSURE_EVENT_PERSIST (set_ev_io_timeout evutil_timerclear ev)
    else set_ev_closure EV_CLOSURE_EVENT ev in
  let ev := set_ev_pri (u8 (nactivequeues b ÷ 2)) (set_ev_idx (-1) ev) in
  Some (set_b_evs (<[e := ev]> (b_evs b)) b, 0).

Definition event_priority_set (b : event_base) (e : evp) (pri : Z) : option (event_base * Z) :=
  ev ← get_ev b e;
  if ev_flags ev &? EVLIST_ACTIVE then Some (b, -1) else
  if (pri <? 0) || (nactivequeues b <=? pri) then Some (b, -1) else
  Some (upd_ev e (set_ev_pri (u8 pri)) b, 0).

(** The result and the time stored through [tv], if it is not NULL. *)
Definition event_pending (b : event_base) (e : evp) (event : Z) : option (Z * option timeval) :=
  ev ← get_ev b e;
  let flags := if ev_flags ev &? EVLIST_INSERTED then Z.land (ev_events ev) EV_RWCS else 0 in
  let flags := if ev_flags ev &? Z.lor EVLIST_ACTIVE EVLIST_ACTIVE_LATER
    then Z.lor flags (ev_res ev) else flags in
  let flags := if ev_flags ev &? EVLIST_TIMEOUT then Z.lor flags EV_TIMEOUT else flags in
  let event := Z.land event (Z.lor EV_RWCS EV_TIMEOUT) in
  Some (Z.land flags event,
    if Z.land flags event &? EV_TIMEOUT
    then Some (evutil_timeradd (tv_clock_diff b) (mask_usec (ev_timeout ev))) else None).

Definition event_base_priority_init (b : event_base) (npriorities : Z) : event_base * Z :=
  if negb (event_count_active b =? 0) || (npriorities <? 1)
     || (EVENT_MAX_PRIORITIES <=? npriorities) then (b, -1) else
  if npriorities =? nactivequeues b then (b, 0) else
  let b := if negb (nactivequeues b =? 0) then set_b_activequeues [] b else b in
  if negb (env_calloc_ok (npriorities * 16)) then (set_b_activequeues [] b, -1) else
  (set_b_activequeues (replicate (Z.to_nat npriorities) []) b, 0).

Definition event_base_get_num_events (b : event_base) (type : Z) : Z :=
  let r := if type &? EVENT_BASE_COUNT_ACTIVE then event_count_active b else 0 in
  let r := if type &? EVENT_BASE_COUNT_VIRTUAL then r + virtual_event_count b else r in
  if type &? EVENT_BASE_COUNT_ADDED then r + event_count b else r.

Definition event_base_get_max_events (b : event_base) (type : Z) (clear : bool)
    : event_base * Z :=
  let '(b, r) := if type &? EVENT_BASE_COUNT_ACTIVE
    then (if clear then set_event_count_active_max 0 b else b, event_count_active_max b)
    else (b, 0) in
  let '(b, r) := if type &? EVENT_BASE_COUNT_VIRTUAL
    then (if clear then set_virtual_event_count_max 0 b else b, r + virtual_event_count_max b)
    else (b, r) in
  if type &? EVENT_BASE_COUNT_ADDED
  then (if clear then set_event_count_max 0 b else b, r + event_count_max b)
  else (b, r).

Definition event_base_add_virtual_ (b : event_base) : event_base :=
  let b := set_virtual_event_count (virtual_event_count b + 1) b in
  set_virtual_event_count_max (Z.max (virtual_event_count_max b) (virtual_event_count b)) b.

Definition event_base_del_virtual_ (b : event_base) : option event_base :=
  ASSERT (0 <? virtual_event_count b) ;;
  Some (set_virtual_event_count (virtual_event_count b - 1) b).

Definition event_haveevents (b : event_base) : bool :=
  (0 <? virtual_event_count b) || (0 <? event_count b).

Definition event_base_loopbreak (b : event_base) : event_base := set_event_break 1 b.
Definition event_base_loopcontinue (b : event_base) : event_base := set_event_continue 1 b.

(** ** Common timeouts *)

(** The address [new_ctl] of a new queue's event is given by the allocator. *)
Definition event_base_init_common_timeout (b : event_base) (duration : timeval) (new_ctl : evp)
    : option (event_base * option timeval) :=
  let duration := if 1000000 <? tv_usec duration then
      let usec := if is_common_timeout duration b
        then Z.land (tv_usec duration) MICROSECONDS_MASK else tv_usec duration in
      mk_timeval (tv_sec duration + usec ÷ 1000000) (Z.rem usec 1000000)
    else duration in
  match list_find (λ ctl, tv_sec duration = tv_sec (ctl_duration ctl) ∧
      tv_usec duration = Z.land (tv_usec (ctl_duration ctl)) MICROSECONDS_MASK) (b_ctls b) with
  | Some (_, ctl) =>
    ASSERT (is_common_timeout (ctl_duration ctl) b) ;; Some (b, Some (ctl_duration ctl))
  | None =>
    if n_common_timeouts b =? MAX_COMMON_TIMEOUTS then Some (b, None) else
    let n := if n_common_timeouts b <? 16 then 16 else n_common_timeouts b * 2 in
    if (b_ctls_allocated b =? n_common_timeouts b) && negb (env_realloc_ok (n * 8))
    then Some (b, None) else
    let b := if b_ctls_allocated b =? n_common_timeouts b then set_b_ctls_allocated n b else b in
    if negb (env_calloc_ok 184) then Some (b, None) else
    let result := mk_timeval (tv_sec duration)
      (Z.lor (Z.lor (tv_usec duration) COMMON_TIMEOUT_MAGIC)
             (Z.shiftl (n_common_timeouts b) COMMON_TIMEOUT_IDX_SHIFT)) in
    let b := set_b_evs (<[new_ctl := mk_event 0 0 0 0 0 0 0 0 0 (mk_timeval 0 0)]> (b_evs b)) b in
    '(b, _) ← event_assign b new_ctl (-1) 0;
    let b := upd_ev new_ctl (add_flag EVLIST_INTERNAL) b in
    '(b, _) ← event_priority_set b new_ctl 0;
    let b := set_b_ctls (b_ctls b ++ [mk_ctl [] result new_ctl]) b in
    ASSERT (is_common_timeout result b) ;;
    Some (b, Some result)
  end.

(** The loop of [common_timeout_callback]: the events of the queue that are due.
    Fuel: every iteration takes one event off the queue. *)
Fixpoint common_timeout_loop (fuel : nat) (b : event_base) (i : nat) (now : timeval)
    : option (event_base * option evp) :=
  match fuel with
  | O => None
  | S fuel =>
    ctl ← b_ctls b !! i;
    match head (ctl_events ctl) with
    | None => Some (b, None)
    | Some e =>
      ev ← get_ev b e;
      let t := ev_timeout ev in
      if (tv_sec now <? tv_sec t) ||
         ((tv_sec t =? tv_sec now) &&
          (tv_usec now <? Z.land (tv_usec t) MICROSECONDS_MASK)) then Some (b, Some e) else
      '(b, _) ← event_del_nolock_ b e EVENT_DEL_NOBLOCK;
      b ← event_active_nolock_ b e EV_TIMEOUT 1;
      common_timeout_loop fuel b i now
    end
  end.

Definition common_timeout_callback (b : event_base) (i : nat) : option event_base :=
  '(b, now) ← gettime_ok b;
  ctl ← b_ctls b !! i;
  '(b, e) ← common_timeout_loop (S (length (ctl_events ctl))) b i now;
  match e with
  | None => Some b
  | Some e => ev ← get_ev b e; ctl ← b_ctls b !! i; common_timeout_schedule b ctl ev
  end.

(** ** Timeouts *)

(** The new [*tv_p]: [None] for NULL. *)
Definition timeout_next (b : event_base) : option (event_base * option timeval) :=
  top ← min_heap_top_ (b_timeheap b);
  if top =? NULL then Some (b, None) else
  ev ← get_ev b top;
  '(b, t) ← gettime b;
  now ← t;
  if evutil_timercmp (ev_timeout ev) now Z.leb then Some (b, Some evutil_timerclear) else
  let tv := evutil_timersub (ev_timeout ev) now in
  ASSERT (0 <=? tv_sec tv) ;;
  ASSERT (0 <=? tv_usec tv) ;;
  Some (b, Some tv).

(** Fuel: every iteration takes one event off the heap. *)
Fixpoint timeout_process_loop (fuel : nat) (b : event_base) (now : timeval) : option event_base :=
  match fuel with
  | O => None
  | S fuel =>
    top ← min_heap_top_ (b_timeheap b);
    if top =? NULL then Some b else
    ev ← get_ev b top;
    if evutil_timercmp (ev_timeout ev) now Z.gtb then Some b else
    '(b, _) ← event_del_nolock_ b top EVENT_DEL_NOBLOCK;
    b ← event_active_nolock_ b top EV_TIMEOUT 1;
    timeout_process_loop fuel b now
  end.

Definition timeout_process (b : event_base) : option event_base :=
  if min_heap_empty_ (b_timeheap b) then Some b else
  '(b, now) ← gettime_ok b;
  timeout_process_loop (S (min_heap_size_ (b_timeheap b))) b now.
End core.
