(* ===== verification/EventLoop.v ===== *)
(** * Running the callbacks and the event loop (event.c)

    The closures that run a callback, the processing of the active queues by
    priority and [event_base_loop].  A user callback is an arbitrary function on
    the state of the base: it may add, delete and activate events.  Loops that C
    does not bound take fuel; [None] also stands for running out of it. *)

From S2P Require Import Prelude TimeVal MinHeap EvMap EventBase EventCore.

Section loop.
Context `{EventEnv}.
Implicit Types b : event_base.

(** The user's callback of an event or of a deferred callback, with the result
    it is passed. *)
Variable run_callback : event_base → evp → Z → option event_base.

(** The callback of an event: the queues of common timeouts have their own. *)
Definition invoke (b : event_base) (e : evp) (res : Z) : option event_base :=
  match list_find (λ ctl, ctl_timeout_event ctl = e) (b_ctls b) with
  | Some (i, _) => common_timeout_callback b i
  | None => run_callback b e res
  end.

(** The loop of [event_signal_closure]; [p] is the address of its local variable
    [ncalls]. *)
Fixpoint signal_closure_loop (fuel : nat) (b : event_base) (e : evp) (p : Z) : option event_base :=
  match fuel with
  | O => None
  | S fuel =>
    ncalls ← b_frames b !! p;
    if ncalls =? 0 then Some b else
    let ncalls := i16 (ncalls - 1) in
    let b := set_b_frames (<[p := ncalls]> (b_frames b)) b in
    ev ← get_ev b e;
    let b := upd_ev e (set_ev_ncalls ncalls) b in
    let b := if ncalls =? 0 then upd_ev e (set_ev_pncalls 0) b else b in
    b ← invoke b e (ev_res ev);
    if negb (event_break b =? 0) then
      ncalls ← b_frames b !! p;
      Some (if negb (ncalls =? 0) then upd_ev e (set_ev_pncalls 0) b else b)
    else signal_closure_loop fuel b e p
  end.

Definition event_signal_closure (b : event_base) (e : evp) : option event_base :=
  ev ← get_ev b e;
  let ncalls := ev_ncalls ev in
  let p := b_next_frame b in
  let b := set_b_next_frame (p + 1) (set_b_frames (<[p := ncalls]> (b_frames b)) b) in
  let b := if negb (ncalls =? 0) then upd_ev e (set_ev_pncalls p) b else b in
  b ← signal_closure_loop (S (Z.to_nat (2 ^ 16))) b e p;
  Some (set_b_frames (delete p (b_frames b)) b).

(** When the persistent event is to run next. *)
Definition persist_run_at (b : event_base) (ev : event) (now : timeval) : timeval :=
  let common := is_common_timeout (ev_timeout ev) b in
  let usec_mask := if common
    then Z.land (tv_usec (ev_io_timeout ev)) (Z.lnot MICROSECONDS_MASK) else 0 in
  let delay := if common then mask_usec (ev_io_timeout ev) else ev_io_timeout ev in
  let relative_to := if ev_res ev &? EV_TIMEOUT
    then (if common then mask_usec (ev_timeout ev) else ev_timeout ev) else now in
  let run_at := evutil_timeradd relative_to delay in
  let run_at := if evutil_timercmp run_at now Z.ltb then evutil_timeradd now delay else run_at in
  mk_timeval (tv_sec run_at) (Z.lor (tv_usec run_at) usec_mask).

Definition event_persist_closure (b : event_base) (e : evp) : option event_base :=
  ev ← get_ev b e;
  b ← (if negb (tv_sec (ev_io_timeout ev) =? 0) || negb (tv_usec (ev_io_timeout ev) =? 0) then
         ASSERT (is_same_common_timeout (ev_timeout ev) (ev_io_timeout ev)) ;;
         '(b, now) ← gettime_ok b;
         '(b, _) ← event_add_nolock_ b e (Some (persist_run_at b ev now)) true;
         Some b
       else Some b);
  ev ← get_ev b e;
  invoke b e (ev_res ev).

(** The [switch] on the closure of the callback taken off its queue. *)
Definition run_closure (b : event_base) (e : evp) : option event_base :=
  ev ← get_ev b e;
  let is_event := ev_flags ev &? EVLIST_INIT in
  let c := ev_closure ev in
  if c =? EV_CLOSURE_EVENT_SIGNAL then ASSERT is_event ;; event_signal_closure b e
  else if c =? EV_CLOSURE_EVENT_PERSIST then ASSERT is_event ;; event_persist_closure b e
  else if c =? EV_CLOSURE_EVENT then ASSERT is_event ;; invoke b e (ev_res ev)
  else if c =? EV_CLOSURE_CB_SELF then invoke b e 0
  else if (c =? EV_CLOSURE_EVENT_FINALIZE) || (c =? EV_CLOSURE_EVENT_FINALIZE_FREE) then
    ASSERT is_event ;;
    ASSERT (ev_flags ev &? EVLIST_FINALIZING) ;;
    b ← invoke (set_current_event NULL b) e 0;
    Some (if c =? EV_CLOSURE_EVENT_FINALIZE_FREE then set_b_evs (delete e (b_evs b)) b else b)
  else if c =? EV_CLOSURE_CB_FINALIZE then
    ASSERT (ev_flags ev &? EVLIST_FINALIZING) ;;
    invoke (set_current_event NULL b) e 0
  else None.

(** Taking the callback off the active queue, or deleting the event. *)
Definition take_active (b : event_base) (e : evp) : option event_base :=
  ev ← get_ev b e;
  if ev_flags ev &? EVLIST_INIT then
    if (ev_events ev &? EV_PERSIST) || (ev_flags ev &? EVLIST_FINALIZING)
    then event_queue_remove_active b e
    else '(b, _) ← event_del_nolock_ b e EVENT_DEL_NOBLOCK; Some b
  else event_queue_remove_active b e.

(** The first callback of the queue [i]. *)
Definition first_active (b : event_base) (i : nat) : option (option evp) :=
  q ← b_activequeues b !! i; Some (head q).

Fixpoint process_queue_loop (fuel : nat) (b : event_base) (i : nat) (count max_to_process : Z)
    (endtime : option timeval) : option (event_base * Z) :=
  match fuel with
  | O => None
  | S fuel =>
    first ← first_active b i;
    match first with
    | None => Some (b, count)
    | Some e =>
      b ← take_active b e;
      ev ← get_ev b e;
      let count := if negb (ev_flags ev &? EVLIST_INTERNAL) then count + 1 else count in
      b ← run_closure (set_current_event e b) e;
      let b := set_current_event NULL b in
      if negb (event_break b =? 0) then Some (b, -1) else
      if max_to_process <=? count then Some (b, count) else
      '(b, late) ← (match endtime with
        | Some endtime =>
          if negb (count =? 0) then
            b ← update_time_cache b;
            '(b, now) ← gettime_ok b;
            Some (b, evutil_timercmp now endtime Z.geb)
          else Some (b, false)
        | None => Some (b, false) end);
      if (late : bool) then Some (b, count) else
      if negb (event_continue b =? 0) then Some (b, count) else
      process_queue_loop fuel b i count max_to_process endtime
    end
  end.

Definition event_process_active_single_queue (fuel : nat) (b : event_base) (i : nat)
    (max_to_process : Z) (endtime : option timeval) : option (event_base * Z) :=
  process_queue_loop fuel b i 0 max_to_process endtime.

(** The [for] loop of [event_process_active] from priority [i] on; [n] bounds
    the number of priorities left. *)
Fixpoint process_active_loop (fuel : nat) (b : event_base) (i : nat) (n : nat) (c : Z)
    (maxcb limit_after_prio : Z) (endtime : option timeval) : option (event_base * Z) :=
  match n with
  | O => None
  | S n =>
    if negb (Z.of_nat i <? nactivequeues b) then Some (b, c) else
    first ← first_active b i;
    match first with
    | None => process_active_loop fuel b (S i) n c maxcb limit_after_prio endtime
    | Some _ =>
      let b := set_event_running_priority (Z.of_nat i) b in
      '(b, c) ← (if Z.of_nat i <? limit_after_prio
        then event_process_active_single_queue fuel b i INT_MAX None
        else event_process_active_single_queue fuel b i maxcb endtime);
      if c <? 0 then Some (b, c)
      else if 0 <? c then Some (b, c)
      else process_active_loop fuel b (S i) n c maxcb limit_after_prio endtime
    end
  end.

Definition event_process_active (fuel : nat) (b : event_base) : option (event_base * Z) :=
  let maxcb := max_dispatch_callbacks b in
  let limit_after_prio := limit_callbacks_after_prio b in
  '(b, endtime) ← (if 0 <=? tv_sec (max_dispatch_time b) then
      b ← update_time_cache b;
      '(b, tv) ← gettime_ok b;
      Some (b, Some (evutil_timeradd (max_dispatch_time b) tv))
    else Some (b, None));
  '(b, c) ← process_active_loop fuel b 0 (Z.to_nat EVENT_MAX_PRIORITIES) 0 maxcb limit_after_prio
    endtime;
  Some (set_event_running_priority (-1) b, c).

(** ** Dispatch *)

(** [evmap_io_active_] and [evmap_signal_active_] for a report of the backend. *)
Fixpoint active_all (b : event_base) (evs : list (evp * Z)) (ncalls : Z) : option event_base :=
  match evs with
  | [] => Some b
  | (e, res) :: evs => b ← event_active_nolock_ b e res ncalls; active_all b evs ncalls
  end.

Definition apply_report (b : event_base) (r : report) : option event_base :=
  match r with
  | ReportIo fd events =>
    active_all b (evmap_io_active_ (events_of (b_evs b)) (b_io b) fd events) 1
  | ReportSignal sig ncalls =>
    active_all b ((λ e, (e, EV_SIGNAL)) <$> evmap_signal_active_ (b_sigmap b) sig) ncalls
  end.

Fixpoint apply_reports (b : event_base) (rs : list report) : option event_base :=
  match rs with
  | [] => Some b
  | r :: rs => b ← apply_report b r; apply_reports b rs
  end.

Definition dispatch (b : event_base) (tv : option timeval) : option (event_base * Z) :=
  let '(be, sbe, w, rs) := env_dispatch (b_be b) (b_sbe b) (b_world b) tv in
  let b := set_b_be be (set_b_sbe sbe (set_b_world w b)) in
  match rs with
  | None => Some (b, -1)
  | Some rs => b ← apply_reports b rs; Some (b, 0)
  end.

(** ** The loop *)

(** One iteration of the [while] of [event_base_loop]. *)
Inductive loop_step := LoopContinue | LoopDone | LoopReturn (retval : Z).

Definition loop_iteration (fuel : nat) (b : event_base) (flags : Z)
    : option (event_base * loop_step) :=
  let b := set_n_deferreds_queued 0 (set_event_continue 0 b) in
  if negb (event_gotterm b =? 0) then Some (b, LoopDone) else
  if negb (event_break b =? 0) then Some (b, LoopDone) else
  '(b, tv_p) ← (if (event_count_active b =? 0) && negb (flags &? EVLOOP_NONBLOCK)
    then timeout_next b else Some (b, Some evutil_timerclear));
  if negb (flags &? EVLOOP_NO_EXIT_ON_EMPTY) && negb (event_haveevents b)
     && (event_count_active b =? 0) then Some (b, LoopReturn 1) else
  b ← event_queue_make_later_events_active b;
  '(b, res) ← dispatch (clear_time_cache b) tv_p;
  if res =? -1 then Some (b, LoopReturn (-1)) else
  b ← update_time_cache b;
  b ← timeout_process b;
  if negb (event_count_active b =? 0) then
    '(b, n) ← event_process_active fuel b;
    Some (b, if (flags &? EVLOOP_ONCE) && (event_count_active b =? 0) && negb (n =? 0)
             then LoopDone else LoopContinue)
  else Some (b, if flags &? EVLOOP_NONBLOCK then LoopDone else LoopContinue).

Fixpoint loop_while (fuel : nat) (b : event_base) (flags : Z) : option (event_base * Z) :=
  match fuel with
  | O => None
  | S fuel' =>
    '(b, step) ← loop_iteration fuel b flags;
    match step with
    | LoopContinue => loop_while fuel' b flags
    | LoopDone => Some (b, 0)
    | LoopReturn r => Some (b, r)
    end
  end.

Definition event_base_loop (fuel : nat) (b : event_base) (flags : Z) : option (event_base * Z) :=
  if negb (running_loop b =? 0) then Some (b, -1) else
  let b := clear_time_cache (set_running_loop 1 b) in
  let b := set_event_gotterm 0 (set_event_break 0 b) in
  '(b, retval) ← loop_while fuel b flags;
  Some (set_running_loop 0 (clear_time_cache b), retval).
End loop.
