(* ===== verification/EventInv.v ===== *)
(** * The invariant of an event base

    [base_ok] says that the queues, the heap, the maps and the counters of a
    base agree with the flags of the events: what
    [event_base_assert_ok_nolock_] checks, in both directions, and the
    accounting of [event_count].  Each queue operation of EventBase.v is shown
    to keep it. *)

From S2P Require Import Prelude TimeVal MinHeap EvMap EventBase EventCore.

(** ** Flags *)

Lemma flag_clear_ne f a m : Z.land a m = 0 → Z.land f (Z.lnot a) &? m = f &? m.
Proof.
  intros Ham. unfold flag. rewrite <- Z.land_assoc. do 2 f_equal. f_equal.
  apply Z.bits_inj'. intros n Hn. rewrite Z.land_spec, Z.lnot_spec by done.
  apply (f_equal (λ z, Z.testbit z n)) in Ham. rewrite Z.land_spec, Z.bits_0 in Ham.
  destruct (Z.testbit a n), (Z.testbit m n); done.
Qed.

Lemma flag_clear_eq f a m : Z.land (Z.lnot a) m = 0 → Z.land f (Z.lnot a) &? m = false.
Proof. intros Ham. unfold flag. by rewrite <- Z.land_assoc, Ham, Z.land_0_r. Qed.

Lemma flag_sub f a m : Z.land a m = m → f &? a = false → f &? m = false.
Proof.
  unfold flag. intros Ham Hf. apply negb_false_iff, Z.eqb_eq in Hf.
  rewrite <- Ham, Z.land_assoc, Hf. done.
Qed.

(** Rewrites the flags of an updated event; the masks are constants. *)
Ltac flags :=
  repeat first
    [ rewrite flag_lor
    | rewrite flag_clear_ne by reflexivity
    | rewrite flag_clear_eq by reflexivity ];
  repeat match goal with
    | |- context [flag (Zpos ?a) (Zpos ?b)] =>
      let v := eval vm_compute in (flag (Zpos a) (Zpos b)) in
      change (flag (Zpos a) (Zpos b)) with v
    | |- context [flag (Zpos ?a) (Z.lnot (Zpos ?b))] =>
      let v := eval vm_compute in (flag (Zpos a) (Z.lnot (Zpos b))) in
      change (flag (Zpos a) (Z.lnot (Zpos b))) with v
    end;
  rewrite ?orb_false_r, ?orb_true_r.

(** ** What the parts of the base see of an event *)

Definition actv1 (ev : event) : option Z :=
  if ev_flags ev &? EVLIST_ACTIVE then Some (ev_pri ev) else None.
Definition latv1 (ev : event) : bool := ev_flags ev &? EVLIST_ACTIVE_LATER.
Definition tmov1 (ev : event) : option timeval :=
  if ev_flags ev &? EVLIST_TIMEOUT then Some (ev_timeout ev) else None.
Definition insv1 (ev : event) : option (Z * Z) :=
  if ev_flags ev &? EVLIST_INSERTED then Some (ev_events ev, ev_fd ev) else None.
(** What the event contributes to [event_count]. *)
Definition b2z (x : bool) : Z := if x then 1 else 0.
Definition wt1 (ev : event) : Z :=
  if ev_flags ev &? EVLIST_INTERNAL then 0 else
  b2z (ev_flags ev &? EVLIST_TIMEOUT) + b2z (ev_flags ev &? EVLIST_INSERTED) +
  b2z (ev_flags ev &? EVLIST_ACTIVE) + b2z (ev_flags ev &? EVLIST_ACTIVE_LATER).

Abbreviation memory := (gmap evp event).

Definition actv (m : memory) (e : evp) : option Z := m !! e ≫= actv1.
Definition latv (m : memory) (e : evp) : bool := from_option latv1 false (m !! e).
Definition tmov (m : memory) (e : evp) : option timeval := m !! e ≫= tmov1.
Definition insv (m : memory) (e : evp) : option (Z * Z) := m !! e ≫= insv1.
Definition total (m : memory) : Z := map_fold (λ _ z acc, z + acc) 0 (wt1 <$> m).

Lemma from_rest {A} (f : event → A) (m m' : memory) x :
  (∀ ev, f (rest ev) = f ev) → meq m m' → f <$> m !! x = f <$> m' !! x.
Proof.
  intros Hf Hm. specialize (Hm x).
  destruct (m !! x) as [a|], (m' !! x) as [b|]; [|done..]. cbn in Hm |- *.
  apply (inj Some) in Hm. rewrite <- (Hf a), <- (Hf b). by rewrite Hm.
Qed.

Section views.
Implicit Types (m : memory) (ev : event).

#[export] Instance meq_equiv : Equivalence meq.
Proof.
  split.
  - intros m x. done.
  - intros m m' Hm x. by rewrite Hm.
  - intros m1 m2 m3 H1 H2 x. by rewrite H1.
Qed.

Lemma meq_view {A} (f : event → option A) m m' x :
  (∀ ev, f (rest ev) = f ev) → meq m m' → m !! x ≫= f = m' !! x ≫= f.
Proof.
  intros Hf Hm. pose proof (from_rest f m m' x Hf Hm) as Heq.
  destruct (m !! x), (m' !! x); by simplify_eq/=.
Qed.

Lemma meq_actv m m' x : meq m m' → actv m x = actv m' x.
Proof. by apply meq_view. Qed.
Lemma meq_tmov m m' x : meq m m' → tmov m x = tmov m' x.
Proof. by apply meq_view. Qed.
Lemma meq_insv m m' x : meq m m' → insv m x = insv m' x.
Proof. by apply meq_view. Qed.
Lemma meq_latv m m' x : meq m m' → latv m x = latv m' x.
Proof.
  intros Hm. pose proof (from_rest latv1 m m' x (λ _, eq_refl) Hm) as Heq. unfold latv.
  destruct (m !! x), (m' !! x); by simplify_eq/=.
Qed.
Lemma meq_events_of m m' x : meq m m' → events_of m x = events_of m' x.
Proof.
  intros Hm. pose proof (from_rest ev_events m m' x (λ _, eq_refl) Hm) as Heq. unfold events_of.
  destruct (m !! x), (m' !! x); by simplify_eq/=.
Qed.
Lemma meq_total m m' : meq m m' → total m = total m'.
Proof.
  intros Hm. unfold total. f_equal. apply map_eq. intros x. rewrite !lookup_fmap.
  by apply from_rest.
Qed.

Lemma meq_lookup m m' x ev : meq m m' → m !! x = Some ev →
  ∃ ev', m' !! x = Some ev' ∧ rest ev' = rest ev.
Proof.
  intros Hm Hx. specialize (Hm x). rewrite Hx in Hm. destruct (m' !! x) as [ev'|]; [|done].
  cbn in Hm. apply (inj Some) in Hm. by exists ev'.
Qed.

Lemma meq_alter m m' e f :
  (∀ a b, rest a = rest b → rest (f a) = rest (f b)) → meq m m' →
  meq (alter f e m) (alter f e m').
Proof.
  intros Hf Hm x. specialize (Hm x). rewrite !lookup_alter. case_decide; [subst|done].
  destruct (m !! x), (m' !! x); [|done..]. cbn in Hm |- *. apply (inj Some) in Hm.
  f_equal. by apply Hf.
Qed.

(** Views of a memory where one event was updated. *)
Section alter.
Context (m : memory) (e : evp) (ev : event) (f : event → event) (He : m !! e = Some ev).

Lemma actv_alter x : actv (alter f e m) x = if decide (x = e) then actv1 (f ev) else actv m x.
Proof. unfold actv. rewrite lookup_alter. repeat case_decide; subst; try done. by rewrite He. Qed.
Lemma tmov_alter x : tmov (alter f e m) x = if decide (x = e) then tmov1 (f ev) else tmov m x.
Proof. unfold tmov. rewrite lookup_alter. repeat case_decide; subst; try done. by rewrite He. Qed.
Lemma insv_alter x : insv (alter f e m) x = if decide (x = e) then insv1 (f ev) else insv m x.
Proof. unfold insv. rewrite lookup_alter. repeat case_decide; subst; try done. by rewrite He. Qed.
Lemma latv_alter x : latv (alter f e m) x = if decide (x = e) then latv1 (f ev) else latv m x.
Proof. unfold latv. rewrite lookup_alter. repeat case_decide; subst; try done. by rewrite He. Qed.

Lemma actv_alter_same x : actv1 (f ev) = actv1 ev → actv (alter f e m) x = actv m x.
Proof. intros Hf. rewrite actv_alter. case_decide; [subst|done]. unfold actv. by rewrite He. Qed.
Lemma tmov_alter_same x : tmov1 (f ev) = tmov1 ev → tmov (alter f e m) x = tmov m x.
Proof. intros Hf. rewrite tmov_alter. case_decide; [subst|done]. unfold tmov. by rewrite He. Qed.
Lemma insv_alter_same x : insv1 (f ev) = insv1 ev → insv (alter f e m) x = insv m x.
Proof. intros Hf. rewrite insv_alter. case_decide; [subst|done]. unfold insv. by rewrite He. Qed.
Lemma latv_alter_same x : latv1 (f ev) = latv1 ev → latv (alter f e m) x = latv m x.
Proof. intros Hf. rewrite latv_alter. case_decide; [subst|done]. unfold latv. by rewrite He. Qed.
Lemma events_of_alter x : ev_events (f ev) = ev_events ev →
  events_of (alter f e m) x = events_of m x.
Proof.
  intros Hf. unfold events_of. rewrite lookup_alter. case_decide; [subst|done]. by rewrite He.
Qed.

Lemma total_alter : total (alter f e m) = total m - wt1 ev + wt1 (f ev).
Proof.
  unfold total.
  assert (Hm : wt1 <$> alter f e m = <[e := wt1 (f ev)]> (delete e (wt1 <$> m))).
  { apply map_eq. intros x. rewrite lookup_fmap, lookup_alter.
    destruct (decide (x = e)) as [->|Hne].
    - rewrite decide_True by done. by rewrite lookup_insert_eq, He.
    - rewrite decide_False by done. by rewrite lookup_insert_ne, lookup_delete_ne, lookup_fmap. }
  assert (Hm0 : wt1 <$> m = <[e := wt1 ev]> (delete e (wt1 <$> m))).
  { rewrite insert_delete_id; [done|]. by rewrite lookup_fmap, He. }
  rewrite Hm. rewrite Hm0 at 2.
  rewrite !map_fold_insert_L; try (by rewrite lookup_delete_eq); try (intros; lia).
Qed.
End alter.
End views.

(** ** The invariant *)

Definition common_at (n : Z) (t : timeval) : bool :=
  if negb (Z.land (tv_usec t) COMMON_TIMEOUT_MASK =? COMMON_TIMEOUT_MAGIC) then false
  else COMMON_TIMEOUT_IDX t <? n.

(** The bits of [tv_usec] that mark the common timeout of index [i]. *)
Definition common_bits (i : nat) : Z :=
  Z.lor COMMON_TIMEOUT_MAGIC (Z.shiftl (Z.of_nat i) COMMON_TIMEOUT_IDX_SHIFT).
Definition upper_bits (t : timeval) : Z := Z.land (tv_usec t) (Z.lnot MICROSECONDS_MASK).

(** The queue of priority [i] holds the callbacks active with that priority. *)
Definition active_ok (v : evp → option Z) (qs : list (list evp)) : Prop :=
  (∀ e i, v e = Some i ↔ 0 <= i ∧ ∃ q, qs !! Z.to_nat i = Some q ∧ e ∈ q) ∧
  (∀ i q, qs !! i = Some q → NoDup q).

Definition later_ok (v : evp → bool) (l : list evp) : Prop :=
  NoDup l ∧ ∀ e, e ∈ l ↔ v e = true.

(** The heap holds the events waiting for a timeout that is not common. *)
Definition heap_ok (m : memory) (n : Z) (h : min_heap_t) : Prop :=
  heap_wf (H := ev_store m) m h ∧
  ∀ e, e ∈ elems h ↔ ∃ t, tmov m e = Some t ∧ common_at n t = false.

Definition ctl_le (v : evp → option timeval) (a b : evp) : Prop :=
  ∀ ta tb, v a = Some ta → v b = Some tb → tv_le ta tb.

(** The queue of the common timeout [i] holds the events waiting for it, in
    order. *)
Definition ctl_ok (v : evp → option timeval) (n : Z) (i : nat) (q : list evp) : Prop :=
  NoDup q ∧ StronglySorted (ctl_le v) q ∧
  ∀ e, e ∈ q ↔ ∃ t, v e = Some t ∧ common_at n t = true ∧ COMMON_TIMEOUT_IDX t = Z.of_nat i ∧
    upper_bits t = common_bits i.

Definition ctls_ok (v : evp → option timeval) (ctls : list common_timeout_list) : Prop :=
  (∀ i ctl, ctls !! i = Some ctl → ctl_ok v (Z.of_nat (length ctls)) i (ctl_events ctl)) ∧
  (∀ e t, v e = Some t → common_at (Z.of_nat (length ctls)) t = true →
    upper_bits t = common_bits (Z.to_nat (COMMON_TIMEOUT_IDX t))).

(** The entry of a descriptor holds the events added for it. *)
Definition iomap_ok {F} (evf : evp → Z) (v : evp → option (Z * Z)) (io : io_map F) : Prop :=
  map_ok evf io ∧
  ∀ e fd, 0 <= fd → e ∈ evs_at io fd ↔ ∃ evts, v e = Some (evts, fd) ∧ evts &? EV_RWC = true.

Definition sigmap_ok (v : evp → option (Z * Z)) (map : signal_map) : Prop :=
  ∀ e sig, 0 <= sig →
    e ∈ sig_evs map sig ↔ ∃ evts, v e = Some (evts, sig) ∧ evts &? EV_RWC = false.

Record ev_wf (nq : Z) (ev : event) : Prop := {
  wf_flags : ev_flags ev &? Z.lnot EVLIST_ALL = false;
  wf_excl : (ev_flags ev &? EVLIST_ACTIVE) && (ev_flags ev &? EVLIST_ACTIVE_LATER) = false;
  wf_final : ev_flags ev &? EVLIST_FINALIZING = true →
    ev_flags ev &? EVLIST_TIMEOUT = false ∧ ev_flags ev &? EVLIST_INSERTED = false;
  wf_pri : 0 <= ev_pri ev < nq;
  wf_fd : ev_fd ev < 2 ^ 27 ∧ (ev_events ev &? EV_RWC = false → ev_events ev &? EV_SIGNAL = true →
    0 <= ev_fd ev);
  wf_ins : ev_flags ev &? EVLIST_INSERTED = true →
    ev_events ev &? EV_RWC = false → ev_events ev &? EV_SIGNAL = true
}.

Section inv.
Context `{EventEnv}.
Implicit Types (b : event_base) (m : memory) (e x : evp) (ev : event).

Definition queued (b : event_base) : Z :=
  Z.of_nat (length (concat (b_activequeues b)) + length (b_later b)).

Record base_ok b : Prop := {
  ok_active : active_ok (actv (b_evs b)) (b_activequeues b);
  ok_later : later_ok (latv (b_evs b)) (b_later b);
  ok_heap : heap_ok (b_evs b) (n_common_timeouts b) (b_timeheap b);
  ok_ctls : ctls_ok (tmov (b_evs b)) (b_ctls b);
  ok_io : iomap_ok (events_of (b_evs b)) (insv (b_evs b)) (b_io b);
  ok_sig : sigmap_ok (insv (b_evs b)) (b_sigmap b);
  ok_evs : ∀ e ev, get_ev b e = Some ev → ev_wf (nactivequeues b) ev;
  ok_count_active : event_count_active b = queued b;
  ok_count : event_count b = total (b_evs b);
  ok_null : b_evs b !! NULL = None
}.

(** The fields of the base that the queue operations leave alone. *)
Definition env_part b :=
  (b_frames b, b_next_frame b, b_world b, tv_cache b, monotonic_timer b, tv_clock_diff b,
   last_updated_clock_diff b, b_flags b,
   (max_dispatch_time b, max_dispatch_callbacks b, limit_callbacks_after_prio b,
    event_gotterm b, event_break b, event_continue b, event_running_priority b, running_loop b,
    n_deferreds_queued b, current_event b, virtual_event_count b, virtual_event_count_max b),
   b_ctls_allocated b, ha (b_timeheap b), length (b_activequeues b),
   (λ ctl, (ctl_duration ctl, ctl_timeout_event ctl)) <$> b_ctls b).

(** A queue operation that succeeds, updates [e] with [f] and changes no other
    event, except for heap indices. *)
Definition queue_op b e (f : event → event) (r : option event_base) : Prop :=
  ∃ b', r = Some b' ∧ base_ok b' ∧ meq (b_evs b') (alter f e (b_evs b)) ∧
    env_part b' = env_part b.

Lemma env_part_ncommon b b' : env_part b' = env_part b → n_common_timeouts b' = n_common_timeouts b.
Proof.
  unfold env_part, n_common_timeouts. intros Heq. injection Heq. intros Hc **.
  apply (f_equal length) in Hc. rewrite !length_fmap in Hc. lia.
Qed.

Lemma env_part_nactive b b' : env_part b' = env_part b → nactivequeues b' = nactivequeues b.
Proof. unfold env_part, nactivequeues. intros Heq. injection Heq. intros. lia. Qed.

(** *** Each part depends on its view only *)

Lemma active_ok_ext v v' qs : (∀ x, v' x = v x) → active_ok v qs → active_ok v' qs.
Proof. intros Hv [H1 H2]. split; [|done]. intros. by rewrite Hv. Qed.

Lemma later_ok_ext v v' l : (∀ x, v' x = v x) → later_ok v l → later_ok v' l.
Proof. intros Hv [H1 H2]. split; [done|]. intros. by rewrite Hv. Qed.

Lemma ctls_ok_ext v v' ctls : (∀ x, v' x = v x) → ctls_ok v ctls → ctls_ok v' ctls.
Proof.
  intros Hv [H1 H2]. split; [|intros e t; rewrite Hv; apply H2].
  intros i ctl Hi. destruct (H1 i ctl Hi) as (Hnd & Hs & Hin). split_and!; [done| |].
  - revert Hs. generalize (ctl_events ctl). induction 1 as [|e q Hs IH Hall]; constructor; [done|].
    eapply Forall_impl; [exact Hall|]. intros y Hy ta tb. rewrite !Hv. apply Hy.
  - intros e. by rewrite Hv.
Qed.

Lemma iomap_ok_ext {F} evf evf' v v' (io : io_map F) :
  (∀ x, evf' x = evf x) → (∀ x, v' x = v x) → iomap_ok evf v io → iomap_ok evf' v' io.
Proof.
  intros Hf Hv [H1 H2]. split; [|intros; rewrite Hv; by apply H2].
  intros i c Hc. destruct (H1 i c Hc) as [? Hr Hw Hcl ?].
  assert (Hcb : ∀ bit evs, count_bit evf' bit evs = count_bit evf bit evs).
  { intros bit evs. unfold count_bit. do 2 f_equal. apply list_filter_iff. intros x. by rewrite Hf. }
  split; rewrite ?Hcb; done.
Qed.

Lemma sigmap_ok_ext v v' map : (∀ x, v' x = v x) → sigmap_ok v map → sigmap_ok v' map.
Proof. intros Hv H1 e sig Hs. rewrite Hv. by apply H1. Qed.

(** The heap is well formed in any memory with the same timeouts and indices. *)
Lemma heap_wf_transfer m m' h :
  heap_wf (H := ev_store m) m h →
  (∀ x, x ∈ elems h → is_Some (m' !! x) ∧ ev_timeout <$> m' !! x = ev_timeout <$> m !! x ∧
    ev_idx <$> m' !! x = ev_idx <$> m !! x) →
  heap_wf (H := ev_store m') m' h.
Proof.
  intros [Hn Ha Hord Hidx] Hx.
  assert (Hin : ∀ i x, (i < hn h)%nat → hp h !! i = Some x → x ∈ elems h).
  { intros i x Hi Hl. apply list_elem_of_lookup. exists i. unfold elems.
    by rewrite lookup_take_lt. }
  assert (Ht : ∀ x, x ∈ elems h → hs_timeout (HeapStore := ev_store m') m' x
    = hs_timeout (HeapStore := ev_store m) m x).
  { intros x Hxin. destruct (Hx x Hxin) as (_ & Ht & _). simpl.
    destruct (m' !! x), (m !! x); by simplify_eq/=. }
  split; [done|done| |].
  - intros i pe x Hi Hp Hl. unfold kle. rewrite (Ht pe), (Ht x).
    + by apply (Hord i pe x).
    + by apply (Hin i); [lia|].
    + apply (Hin (parent i)); [|done]. parents. lia.
  - intros i x Hi Hl. destruct (Hidx i x Hi Hl) as [_ Hid].
    destruct (Hx x (Hin i x Hi Hl)) as (Hs & _ & Hie). split; [split; [done|reflexivity]|].
    simpl in Hid |- *. destruct (m' !! x), (m !! x); simplify_eq/=; congruence.
Qed.

Lemma elems_valid m h x : heap_wf (H := ev_store m) m h → x ∈ elems h → is_Some (m !! x).
Proof.
  intros [_ _ _ Hidx] Hx. apply list_elem_of_lookup in Hx as [i Hi]. unfold elems in Hi.
  apply lookup_take_Some in Hi as [Hi Hlt]. by destruct (Hidx i x Hlt Hi) as [[? _] _].
Qed.
End inv.

#[export] Instance ev_store_laws ref : @HeapStoreLaws memory (ev_store ref).
Proof.
  assert (Hm : ∀ s e i, meq (alter (set_ev_idx i) e s) s).
  { intros s e i x. rewrite lookup_alter. case_decide; [subst|done]. by destruct (s !! x). }
  split; simpl; intros s e.
  - intros e' i. rewrite lookup_alter_is_Some. by rewrite (Hm s e i).
  - intros e' i. rewrite lookup_alter. case_decide; [subst|done]. by destruct (s !! e').
  - intros i [[ev Hev] _]. by rewrite lookup_alter_eq, Hev.
  - intros e' i Hne. by rewrite lookup_alter_ne.
Qed.

#[export] Instance meq_proper_l : Proper (meq ==> meq ==> iff) meq.
Proof. intros m1 m1' H1 m2 m2' H2. by rewrite H1, H2. Qed.

Section queues.
Context `{EventEnv}.
Implicit Types (b : event_base) (m : memory) (e x : evp) (ev : event).

(** Removing from and adding to one of the lists, seen from the views. *)
Lemma active_ok_remove v v' qs e i q :
  active_ok v qs → v e = Some i → qs !! Z.to_nat i = Some q →
  v' e = None → (∀ x, x ≠ e → v' x = v x) →
  active_ok v' (<[Z.to_nat i := filter (.≠ e) q]> qs).
Proof.
  intros [H1 H2] He Hq Hv' Hoth. assert (Hlt := lookup_lt_Some _ _ _ Hq). split.
  - intros x j. destruct (decide (x = e)) as [->|Hne].
    + rewrite Hv'. split; [done|]. intros (Hj & q' & Hq' & Hin).
      destruct (decide (Z.to_nat i = Z.to_nat j)) as [Hij|Hij].
      * rewrite Hij, list_lookup_insert_eq in Hq' by lia. simplify_eq.
        by apply elem_of_filter_ne in Hin as [? _].
      * rewrite list_lookup_insert_ne in Hq' by done.
        assert (v e = Some j) by (apply H1; eauto). destruct Hij. congruence.
    + rewrite Hoth, H1 by done. f_equiv.
      destruct (decide (Z.to_nat i = Z.to_nat j)) as [Hij|Hij].
      * rewrite <- Hij, list_lookup_insert_eq by done. rewrite Hq. split.
        -- intros (? & [= <-] & Hx). eexists; split; [done|]. by apply elem_of_filter_ne.
        -- intros (? & [= <-] & Hx). apply elem_of_filter_ne in Hx as [_ Hx]. eauto.
      * by rewrite list_lookup_insert_ne.
  - intros j q' Hj. apply list_lookup_insert_Some in Hj as [(<- & <- & _)|[_ Hj]]; [|by eapply H2].
    apply NoDup_filter_ne. by eapply H2.
Qed.

Lemma active_ok_add v v' qs e i q :
  active_ok v qs → v e = None → 0 <= i → qs !! Z.to_nat i = Some q →
  v' e = Some i → (∀ x, x ≠ e → v' x = v x) →
  active_ok v' (<[Z.to_nat i := q ++ [e]]> qs).
Proof.
  intros [H1 H2] He Hi Hq Hv' Hoth. assert (Hlt := lookup_lt_Some _ _ _ Hq).
  assert (Hnin : ∀ j q', 0 <= j → qs !! Z.to_nat j = Some q' → e ∉ q').
  { intros j q' Hj Hq' Hin. assert (v e = Some j) by (apply H1; eauto). congruence. }
  split.
  - intros x j. destruct (decide (x = e)) as [->|Hne].
    + rewrite Hv'. split.
      * intros [= <-]. split; [done|]. exists (q ++ [e]). rewrite list_lookup_insert_eq by done.
        split; [done|]. rewrite elem_of_app. right. by apply list_elem_of_singleton.
      * intros (Hj & q' & Hq' & Hin). destruct (decide (Z.to_nat i = Z.to_nat j)); [f_equal; lia|].
        rewrite list_lookup_insert_ne in Hq' by done. by destruct (Hnin j q').
    + rewrite Hoth, H1 by done. f_equiv.
      destruct (decide (Z.to_nat i = Z.to_nat j)) as [Hij|Hij].
      * rewrite <- Hij, list_lookup_insert_eq by done. rewrite Hq. split.
        -- intros (? & [= <-] & Hx). eexists; split; [done|]. rewrite elem_of_app. by left.
        -- intros (? & [= <-] & [Hx|Hx]%elem_of_app); [eauto|].
           by apply list_elem_of_singleton in Hx.
      * by rewrite list_lookup_insert_ne.
  - intros j q' Hj. apply list_lookup_insert_Some in Hj as [(<- & <- & _)|[_ Hj]]; [|by eapply H2].
    apply NoDup_app. split_and!; [by eapply H2| |apply NoDup_singleton].
    intros x Hx ->%list_elem_of_singleton. by destruct (Hnin i q).
Qed.

Lemma later_ok_remove v v' l e :
  later_ok v l → v' e = false → (∀ x, x ≠ e → v' x = v x) → later_ok v' (filter (.≠ e) l).
Proof.
  intros [H1 H2] He Hoth. split; [by apply NoDup_filter_ne|]. intros x.
  rewrite elem_of_filter_ne. destruct (decide (x = e)) as [->|Hne]; [by rewrite He; naive_solver|].
  rewrite Hoth, H2 by done. naive_solver.
Qed.

Lemma later_ok_add v v' l e :
  later_ok v l → v e = false → v' e = true → (∀ x, x ≠ e → v' x = v x) → later_ok v' (l ++ [e]).
Proof.
  intros [H1 H2] He He' Hoth. split.
  - apply NoDup_app. split_and!; [done| |apply NoDup_singleton].
    intros x Hx ->%list_elem_of_singleton. apply H2 in Hx. congruence.
  - intros x. rewrite elem_of_app, list_elem_of_singleton.
    destruct (decide (x = e)) as [->|Hne]; [naive_solver|]. rewrite Hoth, H2 by done. naive_solver.
Qed.

Lemma length_concat_insert {A} (qs : list (list A)) i q q' :
  qs !! i = Some q →
  (length (concat (<[i := q']> qs)) + length q = length (concat qs) + length q')%nat.
Proof.
  revert i. induction qs as [|q0 qs IH]; intros [|i] Hi; simplify_eq/=.
  - rewrite !length_app. lia.
  - rewrite !length_app. specialize (IH i Hi). lia.
Qed.

(** The timeouts and indices the heap reads are unchanged by [f]. *)
Definition heap_neutral (f : event → event) : Prop :=
  ∀ ev, ev_timeout (f ev) = ev_timeout ev ∧ ev_idx (f ev) = ev_idx ev.

Lemma heap_ok_alter m n h e f :
  heap_ok m n h → heap_neutral f → (∀ x, tmov (alter f e m) x = tmov m x) →
  heap_ok (alter f e m) n h.
Proof.
  intros [Hwf Hin] Hf Hv. split; [|intros x; by rewrite Hv].
  apply (heap_wf_transfer m); [done|]. intros x Hx.
  destruct (elems_valid _ _ _ Hwf Hx) as [ev Hev]. rewrite lookup_alter.
  case_decide; [subst|by rewrite Hev]. rewrite Hev. simpl. destruct (Hf ev) as [-> ->]. eauto.
Qed.

Lemma ev_wf_alter b e ev f :
  base_ok b → get_ev b e = Some ev → ev_wf (nactivequeues b) (f ev) →
  ∀ x ev', alter f e (b_evs b) !! x = Some ev' → ev_wf (nactivequeues b) ev'.
Proof.
  intros Hok He Hf x ev'. rewrite lookup_alter. case_decide; [subst|apply (ok_evs _ Hok)].
  unfold get_ev in He. rewrite He. simpl. by intros [= <-].
Qed.

(** The weight of an event whose flag [a] is cleared or set. *)
Lemma wt1_clear ev a :
  a ∈ [EVLIST_TIMEOUT; EVLIST_INSERTED; EVLIST_ACTIVE; EVLIST_ACTIVE_LATER] →
  ev_flags ev &? a = true →
  wt1 (clear_flag a ev) = wt1 ev - (if ev_flags ev &? EVLIST_INTERNAL then 0 else 1).
Proof.
  rewrite !elem_of_cons, elem_of_nil. unfold wt1, clear_flag, set_ev_flags. simpl.
  intros [->|[->|[->|[->|[]]]]] Ha; flags; rewrite Ha; case_match; simpl; lia.
Qed.

Lemma wt1_add ev a :
  a ∈ [EVLIST_TIMEOUT; EVLIST_INSERTED; EVLIST_ACTIVE; EVLIST_ACTIVE_LATER] →
  ev_flags ev &? a = false →
  wt1 (add_flag a ev) = wt1 ev + (if ev_flags ev &? EVLIST_INTERNAL then 0 else 1).
Proof.
  rewrite !elem_of_cons, elem_of_nil. unfold wt1, add_flag, set_ev_flags. simpl.
  intros [->|[->|[->|[->|[]]]]] Ha; flags; rewrite Ha; case_match; simpl; lia.
Qed.

Lemma queued_active b e q i :
  b_activequeues b !! i = Some q → NoDup q → e ∈ q →
  queued (set_b_activequeues (<[i := filter (.≠ e) q]> (b_activequeues b)) b) = queued b - 1.
Proof.
  intros Hq Hnd Hin. unfold queued. simpl.
  pose proof (length_concat_insert _ _ _ (filter (.≠ e) q) Hq).
  pose proof (length_filter_ne e q Hnd Hin). lia.
Qed.

Lemma wf_clear nq ev a :
  a ∈ [EVLIST_TIMEOUT; EVLIST_INSERTED; EVLIST_ACTIVE; EVLIST_ACTIVE_LATER] →
  ev_wf nq ev → ev_wf nq (clear_flag a ev).
Proof.
  rewrite !elem_of_cons, elem_of_nil. intros Ha [H1 H2 H3 H4 H5 H6].
  destruct Ha as [->|[->|[->|[->|[]]]]]; (split; simpl; flags; rewrite ?andb_false_r; try done;
    intros Hx; destruct (H3 Hx); done).
Qed.

Lemma null_alter m e f : m !! NULL = None → alter f e m !! NULL = None.
Proof. intros Hn. apply lookup_alter_None. done. Qed.

End queues.

(** A view that the update of [e] does not change. *)
Ltac same_view He :=
  intros ?; first [apply (actv_alter_same _ _ _ _ He) | apply (latv_alter_same _ _ _ _ He)
    | apply (tmov_alter_same _ _ _ _ He) | apply (insv_alter_same _ _ _ _ He)
    | apply (events_of_alter _ _ _ _ He)];
  unfold actv1, latv1, tmov1, insv1, clear_flag, add_flag; simpl; flags; done.

(** The parts of the invariant that do not see the update of [e]. *)
Ltac part Hok He := first
  [ eapply active_ok_ext; [same_view He|apply Hok]
  | eapply later_ok_ext; [same_view He|apply Hok]
  | apply heap_ok_alter; [apply Hok|done|same_view He]
  | eapply ctls_ok_ext; [same_view He|apply Hok]
  | eapply iomap_ok_ext; [same_view He|same_view He|apply Hok]
  | eapply sigmap_ok_ext; [same_view He|apply Hok]
  | apply null_alter; apply Hok ].

Ltac in_list := rewrite !elem_of_cons; naive_solver.

(** ** The queue operations *)

Section queue_ops.
Context `{EventEnv}.
Implicit Types (b : event_base) (m : memory) (e x : evp) (ev : event).

Lemma remove_active_spec b e ev :
  base_ok b → get_ev b e = Some ev → ev_flags ev &? EVLIST_ACTIVE = true →
  queue_op b e (clear_flag EVLIST_ACTIVE) (event_queue_remove_active b e).
Proof.
  intros Hok He Hf. pose proof (ok_evs _ Hok _ _ He) as Hwf. unfold get_ev in He.
  assert (Hv : actv (b_evs b) e = Some (ev_pri ev)).
  { unfold actv. rewrite He. simpl. unfold actv1. by rewrite Hf. }
  destruct (proj1 (proj1 (ok_active _ Hok) e _) Hv) as (Hp & q & Hq & Hin).
  pose proof (proj2 (ok_active _ Hok) _ _ Hq) as Hnd.
  unfold event_queue_remove_active, get_ev. rewrite He. cbn [mbind option_bind]. rewrite Hf.
  cbn [negb]. unfold remove_from_active. destruct (Z.ltb_spec (ev_pri ev) 0); [lia|]. simpl.
  rewrite Hq. cbn [mbind option_bind]. rewrite unlink_in by done. cbn [mbind option_bind].
  eexists; split_and!; [done| |done|unfold env_part; simpl; by rewrite length_insert].
  split; simpl; try part Hok He.
  - eapply active_ok_remove; eauto; [apply Hok| |].
    + rewrite (actv_alter _ _ _ _ He), decide_True by done. unfold actv1, clear_flag. simpl. by flags.
    + intros x Hx. by rewrite (actv_alter _ _ _ _ He), decide_False.
  - unfold nactivequeues. simpl. rewrite length_insert.
    apply (ev_wf_alter b e ev); [done|done|]. apply wf_clear; [in_list|done].
  - rewrite (ok_count_active _ Hok). by rewrite <- (queued_active b e q _ Hq Hnd Hin).
  - rewrite (total_alter _ _ _ _ He), wt1_clear by (in_list || done).
    rewrite (ok_count _ Hok). lia.
Qed.

Lemma remove_active_later_spec b e ev :
  base_ok b → get_ev b e = Some ev → ev_flags ev &? EVLIST_ACTIVE_LATER = true →
  queue_op b e (clear_flag EVLIST_ACTIVE_LATER) (event_queue_remove_active_later b e).
Proof.
  intros Hok He Hf. pose proof (ok_evs _ Hok _ _ He) as Hwf. unfold get_ev in He.
  assert (Hin : e ∈ b_later b).
  { apply (ok_later _ Hok). unfold latv. rewrite He. done. }
  unfold event_queue_remove_active_later, get_ev. rewrite He. cbn [mbind option_bind]. rewrite Hf.
  cbn [negb]. simpl. rewrite unlink_in by done. cbn [mbind option_bind].
  eexists; split_and!; [done| |done..]. split; simpl; try part Hok He.
  - eapply later_ok_remove; [apply Hok| |].
    + rewrite (latv_alter _ _ _ _ He), decide_True by done. unfold latv1, clear_flag. simpl. by flags.
    + intros x Hx. by rewrite (latv_alter _ _ _ _ He), decide_False.
  - apply (ev_wf_alter b e ev); [done|done|]. apply wf_clear; [in_list|done].
  - rewrite (ok_count_active _ Hok). unfold queued. simpl.
    pose proof (length_filter_ne e _ (proj1 (ok_later _ Hok)) Hin). lia.
  - rewrite (total_alter _ _ _ _ He), wt1_clear by (in_list || done).
    rewrite (ok_count _ Hok). lia.
Qed.

Lemma wf_add nq ev a :
  a ∈ [EVLIST_TIMEOUT; EVLIST_INSERTED; EVLIST_ACTIVE; EVLIST_ACTIVE_LATER] →
  ev_wf nq ev →
  (a = EVLIST_TIMEOUT ∨ a = EVLIST_INSERTED → ev_flags ev &? EVLIST_FINALIZING = false) →
  (a = EVLIST_INSERTED → ev_events ev &? EV_RWC = false → ev_events ev &? EV_SIGNAL = true) →
  (a = EVLIST_ACTIVE → ev_flags ev &? EVLIST_ACTIVE_LATER = false) →
  (a = EVLIST_ACTIVE_LATER → ev_flags ev &? EVLIST_ACTIVE = false) →
  ev_wf nq (add_flag a ev).
Proof.
  rewrite !elem_of_cons, elem_of_nil. intros Ha [H1 H2 H3 H4 H5 H6] Hfin Hins Hact Hlat.
  destruct Ha as [->|[->|[->|[->|[]]]]]; (split; simpl; flags; try done).
  - intros Hx. rewrite Hfin in Hx by auto. done.
  - intros Hx. rewrite Hfin in Hx by auto. done.
  - auto.
  - by rewrite Hact.
  - by rewrite Hlat.
Qed.

Lemma insert_active_spec b e ev :
  base_ok b → get_ev b e = Some ev → ev_flags ev &? EVLIST_ACTIVE = false →
  ev_flags ev &? EVLIST_ACTIVE_LATER = false →
  queue_op b e (add_flag EVLIST_ACTIVE) (event_queue_insert_active b e).
Proof.
  intros Hok He Hf Hl. pose proof (ok_evs _ Hok _ _ He) as Hwf. unfold get_ev in He.
  assert (Hv : actv (b_evs b) e = None).
  { unfold actv. rewrite He. simpl. unfold actv1. by rewrite Hf. }
  destruct (wf_pri _ _ Hwf) as [Hp Hpn].
  destruct (lookup_some_lt (b_activequeues b) (Z.to_nat (ev_pri ev))) as [q Hq].
  { unfold nactivequeues in Hpn. lia. }
  unfold event_queue_insert_active, get_ev. rewrite He. cbn [mbind option_bind]. rewrite Hf.
  unfold append_to_active. rewrite evassert_true by (apply Z.ltb_lt; done).
  cbn [mbind option_bind]. destruct (Z.ltb_spec (ev_pri ev) 0); [lia|]. simpl.
  rewrite Hq. cbn [mbind option_bind].
  eexists; split_and!; [done| |done|unfold env_part; simpl; by rewrite length_insert].
  split; simpl; try part Hok He.
  - eapply active_ok_add; eauto; [apply Hok| |].
    + rewrite (actv_alter _ _ _ _ He), decide_True by done. unfold actv1, add_flag. simpl. by flags.
    + intros x Hx. by rewrite (actv_alter _ _ _ _ He), decide_False.
  - unfold nactivequeues. simpl. rewrite length_insert.
    apply (ev_wf_alter b e ev); [done|done|]. apply wf_add; [in_list|done|naive_solver..].
  - rewrite (ok_count_active _ Hok). unfold queued. simpl.
    pose proof (length_concat_insert _ _ _ (q ++ [e]) Hq) as Hc. rewrite length_app in Hc.
    simpl in Hc. lia.
  - rewrite (total_alter _ _ _ _ He), wt1_add by (in_list || done).
    rewrite (ok_count _ Hok). lia.
Qed.

Lemma insert_active_later_spec b e ev :
  base_ok b → get_ev b e = Some ev → ev_flags ev &? EVLIST_ACTIVE = false →
  ev_flags ev &? EVLIST_ACTIVE_LATER = false →
  queue_op b e (add_flag EVLIST_ACTIVE_LATER) (event_queue_insert_active_later b e).
Proof.
  intros Hok He Hf Hl. pose proof (ok_evs _ Hok _ _ He) as Hwf. unfold get_ev in He.
  unfold event_queue_insert_active_later, get_ev. rewrite He. cbn [mbind option_bind].
  assert (ev_flags ev &? Z.lor EVLIST_ACTIVE_LATER EVLIST_ACTIVE = false) as ->.
  { by rewrite flag_orb, Hf, Hl. }
  rewrite evassert_true by (apply Z.ltb_lt; apply Hwf). cbn [mbind option_bind].
  eexists; split_and!; [done| |done..]. split; simpl; try part Hok He.
  - eapply later_ok_add; [apply Hok| | |].
    + unfold latv. rewrite He. done.
    + rewrite (latv_alter _ _ _ _ He), decide_True by done. unfold latv1, add_flag. simpl. by flags.
    + intros x Hx. by rewrite (latv_alter _ _ _ _ He), decide_False.
  - apply (ev_wf_alter b e ev); [done|done|]. apply wf_add; [in_list|done|naive_solver..].
  - rewrite (ok_count_active _ Hok). unfold queued. simpl. rewrite length_app. simpl. lia.
  - rewrite (total_alter _ _ _ _ He), wt1_add by (in_list || done).
    rewrite (ok_count _ Hok). lia.
Qed.

Lemma ev_wf_rest nq ev ev' : rest ev' = rest ev → ev_wf nq ev' → ev_wf nq ev.
Proof.
  intros Hr [H1 H2 H3 H4 H5 H6].
  pose proof (f_equal ev_flags Hr) as Hf. pose proof (f_equal ev_pri Hr) as Hp.
  pose proof (f_equal ev_fd Hr) as Hd. pose proof (f_equal ev_events Hr) as He. simpl in *.
  split; rewrite <- ?Hf, <- ?Hp, <- ?Hd, <- ?He; done.
Qed.

(** ** The timer heap *)

(** The invariant apart from the heap, in a memory with other heap indices. *)
Lemma base_ok_heap b m h :
  active_ok (actv (b_evs b)) (b_activequeues b) → later_ok (latv (b_evs b)) (b_later b) →
  ctls_ok (tmov (b_evs b)) (b_ctls b) →
  iomap_ok (events_of (b_evs b)) (insv (b_evs b)) (b_io b) →
  sigmap_ok (insv (b_evs b)) (b_sigmap b) →
  (∀ e ev, get_ev b e = Some ev → ev_wf (nactivequeues b) ev) →
  event_count_active b = queued b → event_count b = total (b_evs b) →
  b_evs b !! NULL = None → meq m (b_evs b) →
  heap_wf (H := ev_store m) m h →
  (∀ e, e ∈ elems h ↔ ∃ t, tmov (b_evs b) e = Some t ∧ common_at (n_common_timeouts b) t = false) →
  base_ok (set_b_timeheap h (set_b_evs m b)).
Proof.
  intros Ha Hl Hc Hi Hs Hwf Hca Hct Hn Hm Hh Hin. split; simpl; try done.
  - eapply active_ok_ext; [|exact Ha]. intros x. by apply meq_actv.
  - eapply later_ok_ext; [|exact Hl]. intros x. by apply meq_latv.
  - split; [done|]. intros x. rewrite (meq_tmov _ _ _ Hm). apply Hin.
  - eapply ctls_ok_ext; [|exact Hc]. intros x. by apply meq_tmov.
  - eapply iomap_ok_ext; [| |exact Hi]; intros x; [by apply meq_events_of|by apply meq_insv].
  - eapply sigmap_ok_ext; [|exact Hs]. intros x. by apply meq_insv.
  - intros x ev Hx. destruct (meq_lookup _ _ _ _ Hm Hx) as (ev' & Hx' & Hr).
    eapply ev_wf_rest; [exact Hr|]. by eapply Hwf.
  - rewrite Hct. symmetry. by apply meq_total.
  - destruct (m !! NULL) as [ev|] eqn:Hx; [|done].
    destruct (meq_lookup _ _ _ _ Hm Hx) as (? & ? & _). congruence.
Qed.

Lemma heap_wf_reref ref m h : heap_wf (H := ev_store ref) m h → heap_wf (H := ev_store m) m h.
Proof.
  intros [Hn Ha Hord Hidx]. split; [done|done|exact Hord|].
  intros i x Hi Hx. destruct (Hidx i x Hi Hx) as [[? _] ?]. done.
Qed.

(** Erasing, and pushing when there is room, keep the capacity. *)
Lemma erase_ha ref h m e h' m' r :
  min_heap_erase_ (H := ev_store ref) h m e = Some (h', m', r) → ha h' = ha h.
Proof.
  unfold min_heap_erase_. intros Heq. repeat (case_match; try done; simplify_option_eq; try done).
Qed.

Lemma push_ha ref ro h m e h' m' r :
  min_heap_push_ (H := ev_store ref) ro h m e = Some (h', m', r) →
  Z.of_nat (hn h) < ha h → ha h' = ha h.
Proof.
  unfold min_heap_push_, min_heap_reserve_. intros Heq Hroom. revert Heq.
  destruct (Z.ltb_spec (ha h) (Z.of_nat (hn h + 1))); [lia|]. simpl.
  intros Heq. simplify_option_eq. by case_match; simplify_eq.
Qed.

Lemma erase_memory m h e :
  heap_wf (H := ev_store m) m h → e ∈ elems h →
  ∃ h' m', min_heap_erase_ (H := ev_store ∅) h m e = Some (h', m', 0) ∧
    heap_wf (H := ev_store m') m' h' ∧ meq m' m ∧ e :: elems h' ≡ₚ elems h ∧ ha h' = ha h.
Proof.
  intros Hwf He. destruct (erase_spec (H := ev_store m) m h e Hwf He)
    as (h' & m' & Heq & Hwf' & Hp & _ & (_ & Hv & _)).
  exists h', m'. split_and!; [exact Heq|by eapply heap_wf_reref| |done|by eapply erase_ha].
  apply (Hv e). split; [by eapply elems_valid|reflexivity].
Qed.

Lemma push_memory ro m h e :
  heap_wf (H := ev_store m) m h → is_Some (m !! e) → e ∉ elems h →
  (Z.of_nat (hn h) < ha h) →
  ∃ h' m', min_heap_push_ (H := ev_store ∅) ro h m e = Some (h', m', 0) ∧
    heap_wf (H := ev_store m') m' h' ∧ meq m' m ∧ elems h' ≡ₚ e :: elems h ∧ ha h' = ha h.
Proof.
  intros Hwf He Hnin Hroom.
  destruct (push_spec (H := ev_store m) ro m h e Hwf ltac:(split; [done|reflexivity]) Hnin)
    as [(_ & Hfull & _)|(h' & m' & Heq & Hwf' & Hp & (_ & Hv & _))]; [lia|].
  exists h', m'. split_and!; [exact Heq|by eapply heap_wf_reref| |done|by eapply push_ha].
  apply (Hv e). split; [done|reflexivity].
Qed.

Lemma elems_NoDup m h : heap_wf (H := ev_store m) m h → NoDup (elems h).
Proof. apply (wf_NoDup (H := ev_store m)). Qed.

(** ** The queues of common timeouts *)

Lemma idx_nonneg t : 0 <= COMMON_TIMEOUT_IDX t.
Proof.
  unfold COMMON_TIMEOUT_IDX. apply Z.shiftr_nonneg, Z.land_nonneg. right. done.
Qed.

Lemma common_at_idx n t : common_at n t = true → COMMON_TIMEOUT_IDX t < n.
Proof. unfold common_at. case_match; [done|]. apply Z.ltb_lt. Qed.

(** The event waits for a common timeout, or not. *)
Definition waits_common (n : Z) (o : option timeval) : Prop :=
  ∃ t, o = Some t ∧ common_at n t = true.

Lemma sorted_ext v v' q :
  (∀ x, x ∈ q → v' x = v x) → StronglySorted (ctl_le v) q → StronglySorted (ctl_le v') q.
Proof.
  intros Hv. induction 1 as [|e q Hs IH Hall]; constructor.
  - apply IH. intros x Hx. apply Hv. by right.
  - rewrite Forall_forall in *. intros x Hx ta tb.
    rewrite (Hv e), (Hv x) by (left || by right). by apply Hall.
Qed.

Lemma ctls_ok_other v v' ctls e :
  ctls_ok v ctls → (∀ x, x ≠ e → v' x = v x) →
  ¬ waits_common (Z.of_nat (length ctls)) (v e) → ¬ waits_common (Z.of_nat (length ctls)) (v' e) →
  ctls_ok v' ctls.
Proof.
  intros [H1 H2] Hoth Hv Hv'. split.
  - intros i ctl Hi. destruct (H1 i ctl Hi) as (Hnd & Hs & Hin).
    assert (Hne : ∀ x, x ∈ ctl_events ctl → x ≠ e).
    { intros x Hx ->. apply Hv. apply Hin in Hx as (t & ? & ? & _). by exists t. }
    split_and!; [done| |].
    + eapply sorted_ext; [|exact Hs]. intros x Hx. apply Hoth. by apply Hne.
    + intros x. destruct (decide (x = e)) as [->|Hx]; [|by rewrite Hoth, Hin].
      split; [intros Hx; by destruct (Hne e Hx)|]. intros (t & Ht & Hc & _). destruct Hv'. by exists t.
  - intros x t Hx Hc. destruct (decide (x = e)) as [->|Hne]; [destruct Hv'; by exists t|].
    rewrite Hoth in Hx by done. by eapply H2.
Qed.

(** The relation of the entry [i], updated to [q'], to the rest of the table. *)
Lemma ctls_ok_update v v' ctls e i ctl q' :
  ctls_ok v ctls → ctls !! i = Some ctl → (∀ x, x ≠ e → v' x = v x) →
  (∀ t, v e = Some t → common_at (Z.of_nat (length ctls)) t = true →
    COMMON_TIMEOUT_IDX t = Z.of_nat i) →
  (∀ t, v' e = Some t → common_at (Z.of_nat (length ctls)) t = true →
    COMMON_TIMEOUT_IDX t = Z.of_nat i ∧ upper_bits t = common_bits i) →
  ctl_ok v' (Z.of_nat (length ctls)) i q' →
  ctls_ok v' (<[i := set_ctl_events q' ctl]> ctls).
Proof.
  intros [H1 H2] Hi Hoth Hv Hv' Hok. split; rewrite length_insert.
  - intros j c Hj. apply list_lookup_insert_Some in Hj as [(<- & <- & _)|[Hne Hj]]; [done|].
    destruct (H1 j c Hj) as (Hnd & Hs & Hin).
    assert (Hnin : e ∉ ctl_events c).
    { intros Hx. apply Hin in Hx as (t & Ht & Hc & Hix & _). specialize (Hv t Ht Hc). lia. }
    split_and!; [done| |].
    + eapply sorted_ext; [|exact Hs]. intros x Hx. apply Hoth. by intros ->.
    + intros x. destruct (decide (x = e)) as [->|Hx]; [|by rewrite Hoth, Hin].
      split; [done|]. intros (t & Ht & Hc & Hix & _). destruct (Hv' t Ht Hc). lia.
  - intros x t Hx Hc. destruct (decide (x = e)) as [->|Hne].
    + destruct (Hv' t Hx Hc) as [-> ->]. by rewrite Nat2Z.id.
    + rewrite Hoth in Hx by done. by eapply H2.
Qed.

Lemma StronglySorted_filter {A} (R : A → A → Prop) (P : A → Prop) `{∀ a, Decision (P a)} l :
  StronglySorted R l → StronglySorted R (filter P l).
Proof.
  induction 1 as [|a l Hs IH Hall]; [constructor|]. rewrite filter_cons. case_decide; [|done].
  constructor; [done|]. rewrite Forall_forall in *. intros y Hy.
  apply Hall. by apply list_elem_of_filter in Hy as [_ ?].
Qed.

Lemma ctl_ok_remove v v' n i q e :
  ctl_ok v n i q → v' e = None → (∀ x, x ≠ e → v' x = v x) → ctl_ok v' n i (filter (.≠ e) q).
Proof.
  intros (Hnd & Hs & Hin) He Hoth. split_and!; [by apply NoDup_filter_ne| |].
  - eapply sorted_ext; [|by apply StronglySorted_filter].
    intros x Hx. apply elem_of_filter_ne in Hx as [Hx _]. by apply Hoth.
  - intros x. rewrite elem_of_filter_ne. destruct (decide (x = e)) as [->|Hne].
    + rewrite He. naive_solver.
    + rewrite Hoth by done. rewrite Hin. naive_solver.
Qed.

Lemma remove_timeout_spec b e ev :
  base_ok b → get_ev b e = Some ev → ev_flags ev &? EVLIST_TIMEOUT = true →
  queue_op b e (clear_flag EVLIST_TIMEOUT) (event_queue_remove_timeout b e).
Proof.
  intros Hok He Hf. pose proof (ok_evs _ Hok _ _ He) as Hwf. unfold get_ev in He.
  assert (Hv : tmov (b_evs b) e = Some (ev_timeout ev)).
  { unfold tmov. rewrite He. simpl. unfold tmov1. by rewrite Hf. }
  set (m1 := alter (clear_flag EVLIST_TIMEOUT) e (b_evs b)).
  assert (Hv1 : tmov m1 e = None).
  { subst m1. rewrite (tmov_alter _ _ _ _ He), decide_True by done. unfold tmov1, clear_flag.
    simpl. by flags. }
  assert (Hoth : ∀ x, x ≠ e → tmov m1 x = tmov (b_evs b) x).
  { intros x Hx. subst m1. by rewrite (tmov_alter _ _ _ _ He), decide_False. }
  assert (Hcnt : event_count b - (if ev_flags ev &? EVLIST_INTERNAL then 0 else 1) = total m1).
  { subst m1. rewrite (total_alter _ _ _ _ He), wt1_clear by (in_list || done).
    rewrite (ok_count _ Hok). lia. }
  assert (Hheap1 : heap_wf (H := ev_store m1) m1 (b_timeheap b)).
  { apply (heap_wf_transfer (b_evs b)); [apply Hok|]. intros x Hx. subst m1. rewrite lookup_alter.
    destruct (elems_valid _ _ _ (proj1 (ok_heap _ Hok)) Hx) as [evx Hevx].
    case_decide; [subst x|by rewrite Hevx]. rewrite Hevx. simpl. eauto. }
  unfold event_queue_remove_timeout, get_ev. rewrite He. cbn [mbind option_bind]. rewrite Hf.
  cbn [negb]. change (is_common_timeout (ev_timeout ev) _)
    with (common_at (n_common_timeouts b) (ev_timeout ev)).
  destruct (common_at (n_common_timeouts b) (ev_timeout ev)) eqn:Hc.
  - set (i := Z.to_nat (COMMON_TIMEOUT_IDX (ev_timeout ev))).
    pose proof (idx_nonneg (ev_timeout ev)) as Hi0. pose proof (common_at_idx _ _ Hc) as Hin.
    destruct (lookup_some_lt (b_ctls b) i) as [ctl Hctl].
    { unfold n_common_timeouts in Hin. lia. }
    destruct (ok_ctls _ Hok) as [Hcs Hup]. pose proof (Hcs i ctl Hctl) as Hcok.
    assert (Hiz : COMMON_TIMEOUT_IDX (ev_timeout ev) = Z.of_nat i) by lia.
    assert (Hein : e ∈ ctl_events ctl).
    { apply (proj2 (proj2 Hcok)). exists (ev_timeout ev). split_and!; [done..|].
      rewrite (Hup _ _ Hv Hc). done. }
    unfold get_common_timeout_list. cbn [b_ctls upd_ev set_b_evs DECR_EVENT_COUNT set_event_count].
    fold i. rewrite Hctl. cbn [mbind option_bind]. rewrite unlink_in by done.
    cbn [mbind option_bind].
    clearbody i. eexists; split_and!; [done| |done|].
    2:{ unfold env_part; simpl. rewrite list_fmap_insert. simpl.
        rewrite list_insert_id; [done|]. by rewrite list_lookup_fmap, Hctl. }
    split; simpl; [part Hok He|part Hok He| | |part Hok He|part Hok He| | | |part Hok He]; fold m1.
    + unfold n_common_timeouts. simpl. rewrite length_insert. split; [done|].
      intros x. destruct (decide (x = e)) as [->|Hx].
      * rewrite Hv1, (proj2 (ok_heap _ Hok)), Hv.
        split; [intros (t & [= <-] & Hc'); congruence|intros (t & [=] & _)].
      * rewrite Hoth by done. apply (proj2 (ok_heap _ Hok)).
    + apply (ctls_ok_update (tmov (b_evs b)) (tmov m1) (b_ctls b) e i ctl);
        [by split|done|done| | |by eapply ctl_ok_remove].
      * intros t Ht _. congruence.
      * intros t Ht. congruence.
    + apply (ev_wf_alter b e ev); [done|done|]. apply wf_clear; [in_list|done].
    + apply Hok.
    + done.
  - assert (Hein : e ∈ elems (b_timeheap b)).
    { apply (proj2 (ok_heap _ Hok)). eauto. }
    cbn [b_timeheap b_evs upd_ev set_b_evs DECR_EVENT_COUNT set_event_count]. fold m1.
    destruct (erase_memory m1 _ e Hheap1 Hein) as (h' & m' & -> & Hwf' & Hm' & Hp & Hha).
    cbn [mbind option_bind]. eexists; split_and!; [done| |exact Hm'|unfold env_part; simpl; by rewrite Hha].
    pose proof (elems_NoDup _ _ Hheap1) as Hnd. rewrite <- Hp in Hnd.
    apply NoDup_cons in Hnd as [Hnin _].
    apply (base_ok_heap (upd_ev e (clear_flag EVLIST_TIMEOUT) (DECR_EVENT_COUNT (ev_flags ev) b)));
      simpl; [part Hok He|part Hok He| |part Hok He|part Hok He| | | |part Hok He|done|done|]; fold m1.
    + eapply ctls_ok_other; [apply Hok|done|..].
      * rewrite Hv. intros (t & [= <-] & Hc'). unfold n_common_timeouts in Hc. congruence.
      * rewrite Hv1. by intros (t & ? & _).
    + apply (ev_wf_alter b e ev); [done|done|]. apply wf_clear; [in_list|done].
    + apply Hok.
    + done.
    + intros x. destruct (decide (x = e)) as [->|Hx].
      { rewrite Hv1. split; [done|intros (t & [=] & _)]. }
      rewrite Hoth by done. change (n_common_timeouts (upd_ev _ _ _)) with (n_common_timeouts b).
      rewrite <- (proj2 (ok_heap _ Hok)), <- Hp, elem_of_cons. intuition.
Qed.

Lemma StronglySorted_snoc {A} (R : A → A → Prop) l a :
  StronglySorted R l → Forall (λ y, R y a) l → StronglySorted R (l ++ [a]).
Proof.
  induction 1 as [|y l Hs IH Hall]; intros Hf; simpl; [repeat constructor|].
  apply Forall_cons in Hf as [Hy Hf]. constructor; [auto|].
  apply Forall_app. split; [done|]. by repeat constructor.
Qed.

Lemma StronglySorted_reverse {A} (R : A → A → Prop) l :
  StronglySorted R l → StronglySorted (flip R) (reverse l).
Proof.
  induction 1 as [|a l Hs IH Hall]; [constructor|]. rewrite reverse_cons.
  apply StronglySorted_snoc; [done|]. apply Forall_reverse. exact Hall.
Qed.

Lemma same_common_upper t u : is_same_common_timeout t u = (upper_bits t =? upper_bits u).
Proof. done. Qed.

Lemma insert_inorder_rev_spec m v t e rq :
  (∀ x, x ∈ rq → ∃ evx, m !! x = Some evx ∧ v x = Some (ev_timeout evx) ∧
    upper_bits (ev_timeout evx) = upper_bits t) →
  v e = Some t → StronglySorted (flip (ctl_le v)) rq →
  ∃ rq', insert_inorder_rev m t e rq = Some rq' ∧ rq' ≡ₚ e :: rq ∧
    StronglySorted (flip (ctl_le v)) rq'.
Proof.
  intros Hm He. induction 1 as [|x rq Hs IH Hall]; simpl.
  { exists [e]. split_and!; [done|done|repeat constructor]. }
  destruct (Hm x (list_elem_of_here _ _)) as (evx & Hx & Hvx & Hup). rewrite Hx.
  cbn [mbind option_bind]. rewrite same_common_upper, Hup, Z.eqb_refl. cbn [evassert mbind option_bind].
  destruct (evutil_timercmp t (ev_timeout evx) Z.geb) eqn:Hcmp.
  - exists (e :: x :: rq). split_and!; [done..|]. constructor; [by constructor|].
    apply timercmp_ge in Hcmp. constructor.
    + intros ta tb Ha Hb. simplify_eq. done.
    + rewrite Forall_forall in *. intros y Hy ta tb Ha Hb. simplify_eq.
      etrans; [by apply (Hall y Hy)|done].
  - destruct IH as (rq' & -> & Hp & Hs'); [intros y Hy; apply Hm; by right|].
    cbn [mbind option_bind]. exists (x :: rq'). split_and!; [done|rewrite Hp; apply perm_swap|].
    constructor; [done|]. rewrite Forall_forall. intros y. rewrite Hp. intros [->|Hy]%elem_of_cons.
    + intros ta tb Ha Hb. simplify_eq. apply tv_lt_le, tv_not_le.
      rewrite <- timercmp_ge, Hcmp. done.
    + rewrite Forall_forall in Hall. by apply Hall.
Qed.

Lemma ctl_ok_add v v' n i q q' e t :
  ctl_ok v n i q → e ∉ q → v' e = Some t → common_at n t = true →
  COMMON_TIMEOUT_IDX t = Z.of_nat i → upper_bits t = common_bits i →
  (∀ x, x ≠ e → v' x = v x) → q' ≡ₚ e :: q → StronglySorted (ctl_le v') q' →
  ctl_ok v' n i q'.
Proof.
  intros (Hnd & _ & Hin) Hnin Ht Hc Hi Hup Hoth Hp Hs. split_and!; [|done|].
  - rewrite Hp. by apply NoDup_cons.
  - intros x. rewrite Hp, elem_of_cons. destruct (decide (x = e)) as [->|Hne].
    + rewrite Ht. split; [eauto|by left].
    + rewrite Hoth by done. rewrite Hin. naive_solver.
Qed.

Lemma insert_common_spec b i e ev ctl v :
  b_ctls b !! i = Some ctl → b_evs b !! e = Some ev → tmov (b_evs b) e = Some (ev_timeout ev) →
  ctl_ok v (n_common_timeouts b) i (ctl_events ctl) → e ∉ ctl_events ctl →
  common_at (n_common_timeouts b) (ev_timeout ev) = true →
  COMMON_TIMEOUT_IDX (ev_timeout ev) = Z.of_nat i → upper_bits (ev_timeout ev) = common_bits i →
  (∀ x, x ≠ e → tmov (b_evs b) x = v x) →
  ∃ q', insert_common_timeout_inorder b i e =
      Some (upd_ev e (set_ev_idx env_link_bits)
        (set_b_ctls (<[i := set_ctl_events q' ctl]> (b_ctls b)) b)) ∧
    ctl_ok (tmov (b_evs b)) (n_common_timeouts b) i q'.
Proof.
  intros Hctl He Ht (Hnd & Hs & Hin) Hnin Hc Hi Hup Hoth.
  destruct (insert_inorder_rev_spec (b_evs b) (tmov (b_evs b)) (ev_timeout ev) e
    (reverse (ctl_events ctl))) as (rq' & Hrq & Hp & Hs').
  - intros x Hx. rewrite elem_of_reverse in Hx. apply Hin in Hx as Hx'.
    destruct Hx' as (t & Hvx & _ & _ & Hupx).
    assert (x ≠ e) as Hne by congruence. rewrite <- Hoth in Hvx by done.
    unfold tmov in Hvx. destruct (b_evs b !! x) as [evx|] eqn:Hx1; [|done].
    exists evx. split_and!; [done| |].
    + unfold tmov. rewrite Hx1. cbn in Hvx |- *. unfold tmov1 in *. by case_match.
    + cbn in Hvx. unfold tmov1 in Hvx. case_match; [|done]. simplify_eq. congruence.
  - done.
  - apply StronglySorted_reverse. eapply sorted_ext; [|exact Hs].
    intros x Hx. apply Hoth. by intros ->.
  - exists (reverse rq'). unfold insert_common_timeout_inorder, get_ev. rewrite Hctl, He.
    cbn [mbind option_bind]. rewrite Hrq. split; [done|].
    eapply (ctl_ok_add v); [by split_and!|done|done|done|done|done|done| |].
    + rewrite reverse_Permutation, Hp. by rewrite reverse_Permutation.
    + apply StronglySorted_reverse in Hs'. exact Hs'.
Qed.

Lemma set_timeheap_id b m : set_b_timeheap (b_timeheap b) (set_b_evs m b) = set_b_evs m b.
Proof. by destruct b. Qed.

Lemma insert_timeout_spec b e ev :
  base_ok b → get_ev b e = Some ev → ev_flags ev &? EVLIST_TIMEOUT = false →
  ev_flags ev &? EVLIST_FINALIZING = false →
  (Z.of_nat (hn (b_timeheap b)) < ha (b_timeheap b)) →
  (common_at (n_common_timeouts b) (ev_timeout ev) = true →
    upper_bits (ev_timeout ev) = common_bits (Z.to_nat (COMMON_TIMEOUT_IDX (ev_timeout ev)))) →
  queue_op b e (add_flag EVLIST_TIMEOUT) (event_queue_insert_timeout b e).
Proof.
  intros Hok He Hf Hfin Hroom Hcup. pose proof (ok_evs _ Hok _ _ He) as Hwf. unfold get_ev in He.
  assert (Hv : tmov (b_evs b) e = None).
  { unfold tmov. rewrite He. simpl. unfold tmov1. by rewrite Hf. }
  set (m1 := alter (add_flag EVLIST_TIMEOUT) e (b_evs b)).
  assert (Hv1 : tmov m1 e = Some (ev_timeout ev)).
  { subst m1. rewrite (tmov_alter _ _ _ _ He), decide_True by done. unfold tmov1, add_flag.
    simpl. by flags. }
  assert (He1 : m1 !! e = Some (add_flag EVLIST_TIMEOUT ev)).
  { subst m1. by rewrite lookup_alter_eq, He. }
  assert (Hoth : ∀ x, x ≠ e → tmov m1 x = tmov (b_evs b) x).
  { intros x Hx. subst m1. by rewrite (tmov_alter _ _ _ _ He), decide_False. }
  assert (Hcnt : event_count b + (if ev_flags ev &? EVLIST_INTERNAL then 0 else 1) = total m1).
  { subst m1. rewrite (total_alter _ _ _ _ He), wt1_add by (in_list || done).
    rewrite (ok_count _ Hok). lia. }
  assert (Henin : e ∉ elems (b_timeheap b)).
  { rewrite (proj2 (ok_heap _ Hok)), Hv. by intros (t & ? & _). }
  assert (Hheap1 : ∀ m2, (∀ x, x ≠ e → m2 !! x = b_evs b !! x) →
    heap_wf (H := ev_store m2) m2 (b_timeheap b)).
  { intros m2 Hm2. apply (heap_wf_transfer (b_evs b)); [apply Hok|]. intros x Hx.
    rewrite Hm2 by congruence. by destruct (elems_valid _ _ _ (proj1 (ok_heap _ Hok)) Hx) as [? ->]. }
  assert (Hm1 : ∀ x, x ≠ e → m1 !! x = b_evs b !! x).
  { intros x Hx. subst m1. by rewrite lookup_alter_ne. }
  assert (Hwf1 : ∀ x ev', m1 !! x = Some ev' → ev_wf (nactivequeues b) ev').
  { apply (ev_wf_alter b e ev); [done|done|]. apply wf_add; [in_list|done|naive_solver..]. }
  set (b1 := upd_ev e (add_flag EVLIST_TIMEOUT) (INCR_EVENT_COUNT (ev_flags ev) b)).
  assert (Hb1 : b_evs b1 = m1) by done.
  unfold event_queue_insert_timeout, get_ev. rewrite He. cbn [mbind option_bind]. rewrite Hf.
  fold b1. change (is_common_timeout (ev_timeout ev) b1)
    with (common_at (n_common_timeouts b) (ev_timeout ev)).
  destruct (common_at (n_common_timeouts b) (ev_timeout ev)) eqn:Hc.
  - specialize (Hcup eq_refl). unfold get_common_timeout_list.
    pose proof (idx_nonneg (ev_timeout ev)) as Hi0. pose proof (common_at_idx _ _ Hc) as Hin.
    remember (Z.to_nat (COMMON_TIMEOUT_IDX (ev_timeout ev))) as i eqn:Hi.
    assert (Hiz : COMMON_TIMEOUT_IDX (ev_timeout ev) = Z.of_nat i) by lia. clear Hi.
    destruct (lookup_some_lt (b_ctls b) i) as [ctl Hctl].
    { unfold n_common_timeouts in Hin. lia. }
    change (b_ctls b1) with (b_ctls b). rewrite Hctl. cbn [mbind option_bind].
    pose proof (proj1 (ok_ctls _ Hok) i ctl Hctl) as Hcok.
    destruct (insert_common_spec b1 i e (add_flag EVLIST_TIMEOUT ev) ctl (tmov (b_evs b)))
      as (q' & -> & Hq'); [done..| |done|done|done|done|].
    { intros Hx. apply (proj2 (proj2 Hcok)) in Hx as (t & ? & _). congruence. }
    eexists; split_and!; [done| | |].
    2:{ simpl. fold m1. intros x. rewrite lookup_alter. case_decide; [subst x|done].
        rewrite He1. done. }
    2:{ unfold env_part; simpl. rewrite list_fmap_insert. simpl.
        rewrite list_insert_id; [done|]. by rewrite list_lookup_fmap, Hctl. }
    unfold upd_ev. rewrite <- set_timeheap_id.
    assert (Hm2 : meq (alter (set_ev_idx env_link_bits) e m1) m1).
    { intros x. rewrite lookup_alter. case_decide; [subst x|done]. by rewrite He1. }
    apply base_ok_heap; simpl; fold m1;
      [subst m1; part Hok He|subst m1; part Hok He| |subst m1; part Hok He|subst m1; part Hok He
      |done|apply Hok|done|subst m1; part Hok He|done| |].
    + apply (ctls_ok_update (tmov (b_evs b)) (tmov m1) (b_ctls b) e i ctl);
        [apply Hok|done|done| | |done].
      * intros t Ht. congruence.
      * intros t Ht _. rewrite Hv1 in Ht. by simplify_eq.
    + apply Hheap1. intros x Hx. by rewrite lookup_alter_ne, Hm1.
    + unfold n_common_timeouts. simpl. rewrite length_insert.
      intros x. destruct (decide (x = e)) as [->|Hx].
      * rewrite Hv1. split; [done|]. intros (t & [= <-] & Hc'). unfold n_common_timeouts in Hc. congruence.
      * rewrite Hoth by done. apply (proj2 (ok_heap _ Hok)).
  - change (b_timeheap b1) with (b_timeheap b). rewrite Hb1.
    destruct (push_memory env_realloc_ok m1 (b_timeheap b) e)
      as (h' & m' & -> & Hwf' & Hm' & Hp & Hha); [by apply Hheap1|by eexists|done|done|].
    cbn [mbind option_bind]. eexists; split_and!; [done| |exact Hm'|unfold env_part; simpl; by rewrite Hha].
    apply (base_ok_heap b1); simpl; fold m1;
      [subst m1; part Hok He|subst m1; part Hok He| |subst m1; part Hok He|subst m1; part Hok He
      |done|apply Hok|done|subst m1; part Hok He|done|done|].
    + eapply ctls_ok_other; [apply Hok|done|..].
      * rewrite Hv. by intros (t & ? & _).
      * rewrite Hv1. intros (t & [= <-] & Hc'). unfold n_common_timeouts in Hc. congruence.
    + intros x. rewrite Hp, elem_of_cons. change (n_common_timeouts b1) with (n_common_timeouts b).
      destruct (decide (x = e)) as [->|Hx].
      * rewrite Hv1. split; [eauto|by left].
      * rewrite Hoth by done. rewrite (proj2 (ok_heap _ Hok)). naive_solver.
Qed.
End queue_ops.
