(* ===== verification/EventProps.v ===== *)
(** * Adding, deleting and activating events keeps the base consistent

    The theorems on the operations of EventCore.v, over the invariant of
    EventInv.v. *)

From S2P Require Import Prelude TimeVal MinHeap EvMap EventBase EventCore EventInv.

(** The flags of the queues an event can be on. *)
Abbreviation EVLIST_QUEUED := 0x2b.

Lemma land_lnot_noop f m : f &? m = false → Z.land f (Z.lnot m) = f.
Proof.
  unfold flag. intros Hf%negb_false_iff%Z.eqb_eq. apply Z.bits_inj'. intros n Hn.
  rewrite Z.land_spec, Z.lnot_spec by done.
  apply (f_equal (λ z, Z.testbit z n)) in Hf. rewrite Z.land_spec, Z.bits_0 in Hf.
  by destruct (Z.testbit f n), (Z.testbit m n).
Qed.

Lemma clear_flag_noop m ev : ev_flags ev &? m = false → clear_flag m ev = ev.
Proof. intros Hf. unfold clear_flag, set_ev_flags. rewrite land_lnot_noop by done. by destruct ev. Qed.

Lemma clear_clear a c ev : clear_flag a (clear_flag c ev) = clear_flag (Z.lor c a) ev.
Proof.
  unfold clear_flag, set_ev_flags. simpl. f_equal. rewrite <- Z.land_assoc. f_equal.
  by rewrite Z.lnot_lor.
Qed.

(** Updates that respect memories equal up to heap indices. *)
Class Restful (f : event → event) := restful : ∀ a c, rest a = rest c → rest (f a) = rest (f c).

Ltac restful :=
  unfold Restful; intros [] []; unfold rest, clear_flag, add_flag, set_ev_idx, set_ev_flags, set_ev_timeout,
    set_ev_res, set_ev_io_timeout, set_ev_pncalls, set_ev_ncalls, set_ev_w0, set_ev_w1,
    set_ev_closure; simpl;
  let Heq := fresh in intros Heq; injection Heq; intros; subst; reflexivity.

#[export] Instance clear_flag_restful a : Restful (clear_flag a).
Proof. restful. Qed.
#[export] Instance add_flag_restful a : Restful (add_flag a).
Proof. restful. Qed.
#[export] Instance set_ev_timeout_restful t : Restful (set_ev_timeout t).
Proof. restful. Qed.
#[export] Instance set_ev_io_timeout_restful t : Restful (set_ev_io_timeout t).
Proof. restful. Qed.
#[export] Instance set_ev_res_restful t : Restful (set_ev_res t).
Proof. restful. Qed.

Section props.
Context `{EventEnv}.
Implicit Types (b : event_base) (m : memory) (e x : evp) (ev : event).

(** ** Updates the invariant does not see *)

Definition struct_part b :=
  (b_evs b, b_activequeues b, b_later b, b_ctls b, b_timeheap b, b_io b, b_sigmap b,
   event_count b, event_count_active b).

Lemma base_ok_struct b b' : struct_part b' = struct_part b → base_ok b → base_ok b'.
Proof.
  unfold struct_part. intros Heq [H1 H2 H3 H4 H5 H6 H7 H8 H9 H10].
  unfold n_common_timeouts, nactivequeues, queued, get_ev in *.
  injection Heq as E1 E2 E3 E4 E5 E6 E7 E8 E9.
  split; unfold n_common_timeouts, nactivequeues, queued, get_ev;
    rewrite ?E1, ?E2, ?E3, ?E4, ?E5, ?E6, ?E7, ?E8, ?E9; done.
Qed.

(** [f] changes nothing the queues, the heap or the maps depend on. *)
Definition neutral (f : event → event) : Prop :=
  ∀ ev, ev_flags (f ev) = ev_flags ev ∧ ev_pri (f ev) = ev_pri ev ∧ ev_fd (f ev) = ev_fd ev ∧
    ev_events (f ev) = ev_events ev ∧ ev_timeout (f ev) = ev_timeout ev ∧ ev_idx (f ev) = ev_idx ev.

Lemma neutral_wf nq f ev : neutral f → ev_wf nq ev → ev_wf nq (f ev).
Proof.
  intros Hf [H1 H2 H3 H4 H5 H6]. destruct (Hf ev) as (Ef & Ep & Ed & Ee & _).
  split; rewrite ?Ef, ?Ep, ?Ed, ?Ee; done.
Qed.

Lemma base_ok_neutral b e f : neutral f → base_ok b → base_ok (upd_ev e f b).
Proof.
  intros Hf Hok. destruct (b_evs b !! e) as [ev|] eqn:He.
  2:{ eapply base_ok_struct; [|exact Hok]. unfold struct_part. simpl.
      by rewrite alter_id by congruence. }
  destruct (Hf ev) as (Ef & Ep & Ed & Ee & Et & Ei).
  split; simpl.
  - eapply active_ok_ext; [|apply Hok]. intros x. apply (actv_alter_same _ _ _ _ He).
    unfold actv1. by rewrite Ef, Ep.
  - eapply later_ok_ext; [|apply Hok]. intros x. apply (latv_alter_same _ _ _ _ He).
    unfold latv1. by rewrite Ef.
  - apply heap_ok_alter; [apply Hok| |].
    + intros ev'. destruct (Hf ev') as (_ & _ & _ & _ & ? & ?). done.
    + intros x. apply (tmov_alter_same _ _ _ _ He). unfold tmov1. by rewrite Ef, Et.
  - eapply ctls_ok_ext; [|apply Hok]. intros x. apply (tmov_alter_same _ _ _ _ He).
    unfold tmov1. by rewrite Ef, Et.
  - eapply iomap_ok_ext; [| |apply Hok]; intros x; [by apply (events_of_alter _ _ _ _ He)|].
    apply (insv_alter_same _ _ _ _ He). unfold insv1. by rewrite Ef, Ee, Ed.
  - eapply sigmap_ok_ext; [|apply Hok]. intros x. apply (insv_alter_same _ _ _ _ He).
    unfold insv1. by rewrite Ef, Ee, Ed.
  - apply (ev_wf_alter b e ev); [done|done|]. apply neutral_wf; [done|]. by eapply (ok_evs _ Hok).
  - apply Hok.
  - rewrite (total_alter _ _ _ _ He). unfold wt1. rewrite Ef. rewrite (ok_count _ Hok). lia.
  - apply null_alter, Hok.
Qed.

(** An event that does not wait for a timeout may get another deadline. *)
Lemma base_ok_set_timeout b e ev t :
  base_ok b → get_ev b e = Some ev → ev_flags ev &? EVLIST_TIMEOUT = false →
  base_ok (upd_ev e (set_ev_timeout t) b).
Proof.
  intros Hok He Hf. pose proof (ok_evs _ Hok _ _ He) as Hwf. unfold get_ev in He.
  assert (Hv : ∀ x, tmov (alter (set_ev_timeout t) e (b_evs b)) x = tmov (b_evs b) x).
  { intros x. apply (tmov_alter_same _ _ _ _ He). unfold tmov1. simpl. by rewrite Hf. }
  split; simpl; try (by part Hok He).
  - split; [|intros x; rewrite Hv; apply (proj2 (ok_heap _ Hok))].
    apply (heap_wf_transfer (b_evs b)); [apply Hok|]. intros x Hx.
    destruct (elems_valid _ _ _ (proj1 (ok_heap _ Hok)) Hx) as [evx Hevx].
    rewrite lookup_alter. case_decide; [subst x|by rewrite Hevx].
    apply (proj2 (ok_heap _ Hok)) in Hx as (t' & Ht' & _). unfold tmov in Ht'. rewrite He in Ht'.
    cbn in Ht'. unfold tmov1 in Ht'. by rewrite Hf in Ht'.
  - eapply ctls_ok_ext; [exact Hv|apply Hok].
  - apply (ev_wf_alter b e ev); [done|done|]. by destruct Hwf; split.
  - apply Hok.
  - rewrite (total_alter _ _ _ _ He). change (wt1 (set_ev_timeout t ev)) with (wt1 ev).
    rewrite (ok_count _ Hok). lia.
Qed.

Lemma env_part_frames b b' : env_part b' = env_part b → b_frames b' = b_frames b.
Proof. unfold env_part. congruence. Qed.

(** ** Composition *)

Lemma meq_get b1 m e f ev :
  meq (b_evs b1) (alter f e m) → m !! e = Some ev →
  ∃ ev1, get_ev b1 e = Some ev1 ∧ rest ev1 = rest (f ev).
Proof.
  intros Hm He. symmetry in Hm. unfold get_ev.
  apply (meq_lookup (alter f e m)); [done|]. by rewrite lookup_alter_eq, He.
Qed.

Lemma meq_compose m0 m1 m2 e f g : Restful g →
  meq m1 (alter f e m0) → meq m2 (alter g e m1) → meq m2 (alter (g ∘ f) e m0).
Proof.
  intros Hg H1 H2. rewrite H2, (meq_alter _ _ _ g Hg H1). intros x.
  destruct (decide (x = e)) as [->|Hne]; [|by rewrite !lookup_alter_ne].
  rewrite !lookup_alter_eq. by destruct (m0 !! e).
Qed.

Lemma meq_alter_ext m e f g ev :
  m !! e = Some ev → rest (f ev) = rest (g ev) → meq (alter f e m) (alter g e m).
Proof.
  intros He Hr x. rewrite !lookup_alter. case_decide; [subst x|done]. rewrite He. simpl. by rewrite Hr.
Qed.

Lemma meq_alter_id m e f ev : m !! e = Some ev → rest (f ev) = rest ev → meq m (alter f e m).
Proof.
  intros He Hr x. rewrite lookup_alter. case_decide; [subst x|done]. rewrite He. simpl. by rewrite Hr.
Qed.

Lemma optional_queue_op b e ev a op :
  base_ok b → get_ev b e = Some ev →
  (ev_flags ev &? a = true → queue_op b e (clear_flag a) op) →
  queue_op b e (clear_flag a) (if ev_flags ev &? a then op else Some b).
Proof.
  intros Hok He Hop. destruct (ev_flags ev &? a) eqn:Ha; [auto|].
  exists b. split_and!; [done|done| |done]. eapply meq_alter_id; [exact He|].
  by rewrite clear_flag_noop.
Qed.

Lemma rest_flags ev ev' : rest ev = rest ev' → ev_flags ev = ev_flags ev'.
Proof. intros Hr. exact (f_equal ev_flags Hr). Qed.

(** ** Taking an event out of the maps *)

Lemma iomap_ok_remove {F} evf v v' (io io' : io_map F) e evts fd :
  iomap_ok evf v io → v e = Some (evts, fd) → v' e = None → (∀ x, x ≠ e → v' x = v x) →
  map_update evf io io' fd (filter (.≠ e) (evs_at io fd)) → iomap_ok evf v' io'.
Proof.
  intros [_ Hin] He He' Hoth [Hok' Hup]. split; [done|]. intros x fd' Hfd'. rewrite Hup.
  destruct (decide (x = e)) as [->|Hne].
  - rewrite He'. split; [|by intros (? & ? & _)]. case_decide as Hd.
    + intros Hx. by apply elem_of_filter_ne in Hx as [? _].
    + rewrite Hin by done. intros (evts' & Hx & _). congruence.
  - rewrite Hoth by done. rewrite <- Hin by done. case_decide; [subst|done].
    rewrite elem_of_filter_ne. naive_solver.
Qed.

Lemma sigmap_ok_remove v v' (map map' : signal_map) e evts fd :
  sigmap_ok v map → v e = Some (evts, fd) → v' e = None → (∀ x, x ≠ e → v' x = v x) →
  (∀ sig', sig_evs map' sig' = if decide (sig' = fd)
     then filter (.≠ e) (sig_evs map sig') else sig_evs map sig') →
  sigmap_ok v' map'.
Proof.
  unfold sigmap_ok. intros Hin He He' Hoth Hup x sig Hsig. rewrite Hup.
  destruct (decide (x = e)) as [->|Hne].
  - rewrite He'. split; [|by intros (? & ? & _)]. case_decide as Hd.
    + intros Hx. by apply elem_of_filter_ne in Hx as [? _].
    + rewrite Hin by done. intros (evts' & Hx & _). congruence.
  - rewrite Hoth by done. rewrite <- Hin by done. case_decide; [|done].
    rewrite elem_of_filter_ne. naive_solver.
Qed.

(** The maps of the other kind do not see the event. *)
Lemma iomap_ok_other {F} evf v v' (io : io_map F) e :
  iomap_ok evf v io → (∀ x, x ≠ e → v' x = v x) →
  (∀ evts fd, v e = Some (evts, fd) → 0 <= fd → evts &? EV_RWC = false) →
  (∀ evts fd, v' e = Some (evts, fd) → 0 <= fd → evts &? EV_RWC = false) → iomap_ok evf v' io.
Proof.
  intros [Hok Hin] Hoth Hv Hv'. split; [done|]. intros x fd Hfd.
  destruct (decide (x = e)) as [->|Hne]; [|by rewrite Hoth, Hin].
  rewrite Hin by done. split; intros (evts & Hx & Hr); [rewrite (Hv _ _ Hx Hfd) in Hr
    |rewrite (Hv' _ _ Hx Hfd) in Hr]; done.
Qed.

Lemma sigmap_ok_other v v' map e :
  sigmap_ok v map → (∀ x, x ≠ e → v' x = v x) →
  (∀ evts fd, v e = Some (evts, fd) → evts &? EV_RWC = true) →
  (∀ evts fd, v' e = Some (evts, fd) → evts &? EV_RWC = true) → sigmap_ok v' map.
Proof.
  unfold sigmap_ok. intros Hin Hoth Hv Hv' x sig Hs.
  destruct (decide (x = e)) as [->|Hne]; [|by rewrite Hoth, Hin].
  rewrite Hin by done. split; intros (evts & Hx & Hr); [rewrite (Hv _ _ Hx) in Hr
    |rewrite (Hv' _ _ Hx) in Hr]; done.
Qed.

(** [event_queue_remove_inserted] and the deletion from the map, together. *)
Lemma remove_inserted_spec b e ev ev0 :
  base_ok b → get_ev b e = Some ev → ev_flags ev &? EVLIST_INSERTED = true →
  ev_events ev0 = ev_events ev → ev_fd ev0 = ev_fd ev →
  ∃ b1 b' r, event_queue_remove_inserted b e = Some b1 ∧ del_from_map b1 e ev0 = Some (b', r) ∧
    base_ok b' ∧ meq (b_evs b') (alter (clear_flag EVLIST_INSERTED) e (b_evs b)) ∧
    env_part b' = env_part b ∧ (r = -1 ∨ r = 0 ∨ r = 1).
Proof.
  intros Hok He Hf Hevs Hfd. pose proof (ok_evs _ Hok _ _ He) as Hwf. unfold get_ev in He.
  assert (Hv : insv (b_evs b) e = Some (ev_events ev, ev_fd ev)).
  { unfold insv. rewrite He. simpl. unfold insv1. by rewrite Hf. }
  set (m1 := alter (clear_flag EVLIST_INSERTED) e (b_evs b)).
  assert (Hv1 : insv m1 e = None).
  { subst m1. rewrite (insv_alter _ _ _ _ He), decide_True by done. unfold insv1, clear_flag.
    simpl. by flags. }
  assert (Hoth : ∀ x, x ≠ e → insv m1 x = insv (b_evs b) x).
  { intros x Hx. subst m1. by rewrite (insv_alter _ _ _ _ He), decide_False. }
  assert (Hcnt : event_count b - (if ev_flags ev &? EVLIST_INTERNAL then 0 else 1) = total m1).
  { subst m1. rewrite (total_alter _ _ _ _ He), wt1_clear by (in_list || done).
    rewrite (ok_count _ Hok). lia. }
  assert (Hwf1 : ∀ x ev', m1 !! x = Some ev' → ev_wf (nactivequeues b) ev').
  { apply (ev_wf_alter b e ev); [done|done|]. apply wf_clear; [in_list|done]. }
  unfold event_queue_remove_inserted, get_ev. rewrite He. cbn [mbind option_bind]. rewrite Hf.
  cbn [negb]. set (b1 := upd_ev e _ _). exists b1.
  assert (Hio1 : iomap_ok (events_of m1) (insv (b_evs b)) (b_io b)).
  { eapply iomap_ok_ext; [|done|apply Hok]. intros x. subst m1. by apply (events_of_alter _ _ _ _ He). }
  assert (Hput : ∀ io be sm sbe, iomap_ok (events_of m1) (insv m1) io → sigmap_ok (insv m1) sm →
    base_ok (set_b_io io (set_b_be be (set_b_sigmap sm (set_b_sbe sbe b1))))).
  { intros io be sm sbe Hio Hsm.
    split; simpl; fold m1; [subst m1; part Hok He..|done|done|done|apply Hok|done|subst m1; part Hok He]. }
  unfold del_from_map. rewrite Hevs, Hfd. change (b_evs b1) with m1. change (b_io b1) with (b_io b).
  destruct (ev_events ev &? EV_RWC) eqn:Hrwc.
  - assert (∃ io' be' r, evmap_io_del_ (events_of m1) (b_be b1) (b_io b) (ev_fd ev) e
        = Some (io', be', r) ∧ iomap_ok (events_of m1) (insv m1) io' ∧ (r = -1 ∨ r = 0 ∨ r = 1))
      as (io' & be' & r & -> & Hio' & Hr).
    { destruct (Z.ltb_spec (ev_fd ev) 0) as [Hneg|Hpos].
      - unfold evmap_io_del_. destruct (Z.ltb_spec (ev_fd ev) 0); [|lia].
        eexists _, _, _. split_and!; [done| |auto].
        eapply iomap_ok_other; [exact Hio1|exact Hoth| |congruence].
        intros evts fd. rewrite Hv. intros [= <- <-]. lia.
      - destruct (io_del_spec (events_of m1) (b_be b1) (b_io b) (ev_fd ev) e (proj1 Hio1))
          as (io' & be' & r & Heq & Hup & Hout).
        { apply (proj2 Hio1); [done|]. eauto. }
        eexists _, _, _. split_and!; [exact Heq|by eapply iomap_ok_remove|].
        destruct Hout as [(_ & -> & _)|(_ & ? & ? & rb & _ & ->)]; [auto|].
        destruct (rb =? -1); auto. }
    cbn [mbind option_bind]. eexists _, r. split_and!; [done|done| |done|done|done].
    apply (Hput io' be' (b_sigmap b) (b_sbe b)); [done|].
    eapply sigmap_ok_other; [apply Hok|exact Hoth|congruence|congruence].
  - pose proof (wf_ins _ _ Hwf Hf Hrwc) as Hsig. destruct (wf_fd _ _ Hwf) as [Hlt Hge].
    specialize (Hge Hrwc Hsig). change (b_sigmap b1) with (b_sigmap b).
    destruct (signal_del_spec env_sig_del (b_sbe b1) (b_sigmap b) (ev_fd ev) e ltac:(lia))
      as (sm' & sbe' & r & Heq & Hup & _).
    { apply (ok_sig _ Hok); [done|]. eauto. }
    rewrite Heq. cbn [mbind option_bind]. eexists _, r. split_and!; [done|done| |done|done|].
    + apply (Hput (b_io b) (b_be b) sm' sbe').
      * eapply iomap_ok_other; [exact Hio1|exact Hoth| |congruence].
        intros evts fd. rewrite Hv. by intros [= <- <-].
      * eapply sigmap_ok_remove; [apply Hok|exact Hv|done|done|exact Hup].
    + unfold evmap_signal_del_ in Heq. repeat (simplify_option_eq; auto; case_match); auto.
Qed.

(** ** Deleting *)

(** The pointer through which a running signal callback can be told to stop is
    live. *)
Definition frame_ok b ev : Prop :=
  ev_events ev &? EV_SIGNAL = true → ev_ncalls ev ≠ 0 → ev_pncalls ev ≠ 0 →
  is_Some (b_frames b !! ev_pncalls ev).

Lemma set_frames_id b : set_b_frames (b_frames b) b = b.
Proof. by destruct b. Qed.

(** The same stack frames are live. *)
Definition same_frames (fr fr' : gmap Z Z) : Prop := ∀ p, is_Some (fr !! p) ↔ is_Some (fr' !! p).

Lemma frame_ok_same b b' ev :
  same_frames (b_frames b) (b_frames b') → frame_ok b ev → frame_ok b' ev.
Proof. intros Hs Hf ???. by apply Hs, Hf. Qed.

(** The stack frames after a running signal callback was told to stop. *)
Definition aborted b ev : gmap Z Z :=
  if (ev_events ev &? EV_SIGNAL) && (negb (ev_ncalls ev =? 0) && negb (ev_pncalls ev =? 0))
  then <[ev_pncalls ev := 0]> (b_frames b) else b_frames b.

Lemma abort_signal_spec b ev : frame_ok b ev →
  ∃ fr, (if ev_events ev &? EV_SIGNAL then abort_signal_loop b ev else Some b)
    = Some (set_b_frames fr b) ∧ same_frames (b_frames b) fr ∧ fr = aborted b ev.
Proof.
  intros Hf. unfold aborted. destruct (ev_events ev &? EV_SIGNAL) eqn:Hs.
  2:{ exists (b_frames b). by rewrite set_frames_id. }
  unfold abort_signal_loop. destruct (Z.eqb_spec (ev_ncalls ev) 0); simpl.
  { exists (b_frames b). by rewrite set_frames_id. }
  destruct (Z.eqb_spec (ev_pncalls ev) 0); simpl.
  { exists (b_frames b). by rewrite set_frames_id. }
  destruct (Hf Hs) as [k Hk]; [done..|]. rewrite Hk. cbn [mbind option_bind].
  eexists. split_and!; [done| |done]. intros p. destruct (decide (p = ev_pncalls ev)) as [->|Hne].
  - rewrite lookup_insert_eq, Hk. by split; eauto.
  - by rewrite lookup_insert_ne.
Qed.

Lemma base_ok_frames b fr : base_ok b → base_ok (set_b_frames fr b).
Proof. by apply base_ok_struct. Qed.

Lemma excl_false ev nq : ev_wf nq ev → ev_flags ev &? EVLIST_ACTIVE = true →
  ev_flags ev &? EVLIST_ACTIVE_LATER = false.
Proof. intros Hwf Ha. pose proof (wf_excl _ _ Hwf) as Hx. by rewrite Ha in Hx. Qed.

(** Off the active queues. *)
Lemma deactivate_spec b e ev ev0 :
  base_ok b → get_ev b e = Some ev →
  (∀ a, Z.land EVLIST_TIMEOUT a = 0 → ev_flags ev0 &? a = ev_flags ev &? a) →
  queue_op b e (clear_flag (Z.lor EVLIST_ACTIVE EVLIST_ACTIVE_LATER))
    (if ev_flags ev0 &? EVLIST_ACTIVE then event_queue_remove_active b e
     else if ev_flags ev0 &? EVLIST_ACTIVE_LATER then event_queue_remove_active_later b e
     else Some b).
Proof.
  intros Hok He Hfl. pose proof (ok_evs _ Hok _ _ He) as Hwf. rewrite !Hfl by done.
  destruct (ev_flags ev &? EVLIST_ACTIVE) eqn:Ha.
  - destruct (remove_active_spec b e ev Hok He Ha) as (b' & -> & Hok' & Hm & Henv).
    exists b'. split_and!; [done|done| |done]. rewrite Hm. eapply meq_alter_ext; [exact He|].
    rewrite <- (clear_clear EVLIST_ACTIVE_LATER). rewrite (clear_flag_noop EVLIST_ACTIVE_LATER); [done|].
    simpl. flags. by eapply excl_false.
  - assert (Hopt := optional_queue_op b e ev EVLIST_ACTIVE_LATER
      (event_queue_remove_active_later b e) Hok He (remove_active_later_spec b e ev Hok He)).
    destruct Hopt as (b' & -> & Hok' & Hm & Henv). exists b'. split_and!; [done|done| |done].
    rewrite Hm. eapply meq_alter_ext; [exact He|].
    rewrite <- (clear_clear EVLIST_ACTIVE_LATER). by rewrite (clear_flag_noop EVLIST_ACTIVE).
Qed.

Lemma event_del_spec b e ev bl :
  base_ok b → get_ev b e = Some ev → frame_ok b ev →
  bl = EVENT_DEL_EVEN_IF_FINALIZING ∨ ev_flags ev &? EVLIST_FINALIZING = false →
  ∃ b' r fr, event_del_nolock_ b e bl = Some (b', r) ∧ base_ok b' ∧ (r = 0 ∨ r = -1) ∧
    meq (b_evs b') (alter (clear_flag EVLIST_QUEUED) e (b_evs b)) ∧
    env_part b' = env_part (set_b_frames fr b) ∧ same_frames (b_frames b) fr ∧ fr = aborted b ev.
Proof.
  intros Hok He Hfr Hbl. pose proof (ok_evs _ Hok _ _ He) as Hwf.
  unfold event_del_nolock_. rewrite He. cbn [mbind option_bind].
  assert (negb (bl =? EVENT_DEL_EVEN_IF_FINALIZING) && (ev_flags ev &? EVLIST_FINALIZING) = false) as ->.
  { destruct Hbl as [->| ->]; [done|apply andb_false_r]. }
  rewrite evassert_true by (apply negb_true_iff, Hwf). cbn [mbind option_bind].
  destruct (abort_signal_spec b ev Hfr) as (fr & -> & Hsame & Hab). cbn [mbind option_bind].
  set (b0 := set_b_frames fr b). assert (Hok0 : base_ok b0) by by apply base_ok_frames.
  assert (He0 : get_ev b0 e = Some ev) by done.
  destruct (optional_queue_op b0 e ev EVLIST_TIMEOUT (event_queue_remove_timeout b0 e) Hok0 He0
    (remove_timeout_spec b0 e ev Hok0 He0)) as (b1 & -> & Hok1 & Hm1 & Henv1).
  cbn [mbind option_bind]. destruct (meq_get b1 _ e _ ev Hm1 He0) as (ev1 & He1 & Hr1).
  destruct (deactivate_spec b1 e ev1 ev Hok1 He1) as (b2 & -> & Hok2 & Hm2 & Henv2).
  { intros a Ha. rewrite (rest_flags _ _ Hr1). simpl. by rewrite flag_clear_ne. }
  cbn [mbind option_bind]. pose proof (meq_compose _ _ _ _ _ _ _ Hm1 Hm2) as Hm12.
  destruct (meq_get b2 _ e _ ev Hm12 He0) as (ev2 & He2 & Hr2).
  assert (Hf2 : ev_flags ev2 &? EVLIST_INSERTED = ev_flags ev &? EVLIST_INSERTED).
  { rewrite (rest_flags _ _ Hr2). simpl. by flags. }
  destruct (ev_flags ev &? EVLIST_INSERTED) eqn:Hins.
  - destruct (remove_inserted_spec b2 e ev2 ev Hok2 He2 Hf2)
      as (b3 & b4 & r & -> & Hdel & Hok4 & Hm4 & Henv4 & Hr).
    { symmetry. exact (f_equal ev_events Hr2). }
    { symmetry. exact (f_equal ev_fd Hr2). }
    cbn [mbind option_bind]. rewrite Hdel. cbn [mbind option_bind].
    eexists b4, _, fr. split_and!; [done|done| | |by rewrite Henv4, Henv2|done|done].
    + destruct Hr as [->|[->| ->]]; auto.
    + rewrite (meq_compose _ _ _ _ _ _ _ Hm12 Hm4). eapply meq_alter_ext; [exact He0|].
      simpl. by rewrite !clear_clear.
  - exists b2, 0, fr. split_and!; [done|done|auto| |by rewrite Henv2|done|done].
    rewrite Hm12. eapply meq_alter_ext; [exact He0|]. simpl. rewrite clear_clear.
    change EVLIST_QUEUED with (Z.lor (Z.lor EVLIST_TIMEOUT (Z.lor EVLIST_ACTIVE EVLIST_ACTIVE_LATER))
      EVLIST_INSERTED).
    rewrite <- (clear_clear EVLIST_INSERTED), (clear_flag_noop EVLIST_INSERTED); [done|].
    simpl. by flags.
Qed.

(** C2. [event_del_nolock_] on a consistent base fails no assertion, corrupts no
    queue and always takes the event off every queue it is on (timer heap or
    common-timeout queue, active or active-later queue, descriptor or signal map)
    whatever the backend answers: its queue flags are clear, the counters are
    adjusted, no other event changes and the base is consistent.  An event that
    is finalizing is left alone unless asked otherwise. *)
Theorem event_del_correct b e ev bl :
  base_ok b → get_ev b e = Some ev → frame_ok b ev →
  if negb (bl =? EVENT_DEL_EVEN_IF_FINALIZING) && (ev_flags ev &? EVLIST_FINALIZING)
  then event_del_nolock_ b e bl = Some (b, 0)
  else ∃ b' r, event_del_nolock_ b e bl = Some (b', r) ∧ base_ok b' ∧ (r = 0 ∨ r = -1) ∧
    meq (b_evs b') (alter (clear_flag EVLIST_QUEUED) e (b_evs b)) ∧
    event_count b' = event_count b - wt1 ev.
Proof.
  intros Hok He Hfr. destruct (negb _ && _) eqn:Hfin.
  { unfold event_del_nolock_. rewrite He. cbn [mbind option_bind]. by rewrite Hfin. }
  destruct (event_del_spec b e ev bl Hok He Hfr) as (b' & r & fr & -> & Hok' & Hr & Hm & _).
  { destruct (Z.eqb_spec bl EVENT_DEL_EVEN_IF_FINALIZING); [by left|right; done]. }
  exists b', r. split_and!; [done..|]. rewrite (ok_count _ Hok'), (meq_total _ _ Hm).
  rewrite (total_alter _ _ _ _ He), (ok_count _ Hok).
  assert (wt1 (clear_flag EVLIST_QUEUED ev) = 0) as ->; [|lia].
  unfold wt1. simpl. flags. by case_match.
Qed.

(** ** Activating *)

Lemma add_flag_noop k ev : 0 <= k → ev_flags ev &? 2 ^ k = true → add_flag (2 ^ k) ev = ev.
Proof.
  intros Hk Hf. rewrite flag_pow2 in Hf by done. unfold add_flag, set_ev_flags.
  assert (Z.lor (ev_flags ev) (2 ^ k) = ev_flags ev) as ->; [|by destruct ev].
  apply Z.bits_inj'. intros n Hn. rewrite Z.lor_spec, Z.pow2_bits_eqb by done.
  destruct (Z.eqb_spec k n) as [<-|]; [by rewrite Hf|by rewrite orb_false_r].
Qed.

(** What activation does to an event: the flags. *)
Definition activated (ev : event) : event :=
  add_flag EVLIST_ACTIVE (clear_flag EVLIST_ACTIVE_LATER ev).

#[export] Instance activated_restful : Restful activated.
Proof. intros a c Hr. unfold activated. by apply restful, restful. Qed.

(** The two bits of the [switch]. *)
Lemma active_bits f :
  Z.land f (Z.lor EVLIST_ACTIVE EVLIST_ACTIVE_LATER) =
    Z.lor (if f &? EVLIST_ACTIVE then EVLIST_ACTIVE else 0)
          (if f &? EVLIST_ACTIVE_LATER then EVLIST_ACTIVE_LATER else 0).
Proof.
  rewrite Z.land_lor_distr_r. f_equal; [apply (land_flag f 3)|apply (land_flag f 5)]; lia.
Qed.

Lemma callback_activate_spec b e ev :
  base_ok b → get_ev b e = Some ev → ev_flags ev &? EVLIST_FINALIZING = false →
  ∃ b' r, event_callback_activate_nolock_ b e = Some (b', r) ∧ base_ok b' ∧
    meq (b_evs b') (alter activated e (b_evs b)) ∧ env_part b' = env_part b ∧
    (r = 1 ↔ ev_flags ev &? Z.lor EVLIST_ACTIVE EVLIST_ACTIVE_LATER = false) ∧ (r = 0 ∨ r = 1).
Proof.
  intros Hok He Hfin. pose proof (ok_evs _ Hok _ _ He) as Hwf.
  unfold event_callback_activate_nolock_. rewrite He. cbn [mbind option_bind].
  rewrite Hfin, active_bits, flag_orb. pose proof (wf_excl _ _ Hwf) as Hex.
  destruct (ev_flags ev &? EVLIST_ACTIVE) eqn:Ha, (ev_flags ev &? EVLIST_ACTIVE_LATER) eqn:Hl;
    [done|simpl..].
  - exists b, 0. split_and!; [done|done| |done|done|auto]. eapply meq_alter_id; [exact He|].
    unfold activated. rewrite clear_flag_noop by done. by rewrite (add_flag_noop 3).
  - destruct (remove_active_later_spec b e ev Hok He Hl) as (b1 & -> & Hok1 & Hm1 & Henv1).
    cbn [mbind option_bind]. destruct (meq_get b1 _ e _ ev Hm1 He) as (ev1 & He1 & Hr1).
    destruct (insert_active_spec b1 e ev1 Hok1 He1) as (b2 & -> & Hok2 & Hm2 & Henv2).
    { rewrite (rest_flags _ _ Hr1). simpl. by flags. }
    { rewrite (rest_flags _ _ Hr1). simpl. by flags. }
    cbn [mbind option_bind]. exists b2, 0. split_and!; [done|done| |congruence|done|auto].
    exact (meq_compose _ _ _ _ _ _ _ Hm1 Hm2).
  - destruct (insert_active_spec b e ev Hok He Ha Hl) as (b2 & -> & Hok2 & Hm2 & Henv2).
    cbn [mbind option_bind]. exists b2, 1. split_and!; [done|done| |done|done|auto].
    rewrite Hm2. eapply meq_alter_ext; [exact He|]. unfold activated. by rewrite (clear_flag_noop EVLIST_ACTIVE_LATER).
Qed.

(** [m'] differs from [m] at [e] only, apart from heap indices. *)
Definition meq_except (e : evp) (m m' : memory) : Prop :=
  ∀ x, x ≠ e → rest <$> m' !! x = rest <$> m !! x.

Lemma meq_alter_except m m' e f : meq m' (alter f e m) → meq_except e m m'.
Proof. intros Hm x Hne. by rewrite Hm, lookup_alter_ne. Qed.

Lemma meq_except_trans e m1 m2 m3 : meq_except e m1 m2 → meq_except e m2 m3 → meq_except e m1 m3.
Proof. intros H1 H2 x Hne. by rewrite H2, H1. Qed.

(** The result an activation leaves in the event. *)
Definition merged_res (ev : event) (res : Z) : Z :=
  if ev_flags ev &? Z.lor EVLIST_ACTIVE EVLIST_ACTIVE_LATER
  then i16 (Z.lor (ev_res ev) res) else i16 res.

Definition active_outcome b e ev (res : Z) b' : Prop :=
  base_ok b' ∧ meq_except e (b_evs b) (b_evs b') ∧
  ∃ ev', get_ev b' e = Some ev' ∧ ev_flags ev' = ev_flags (activated ev) ∧
    ev_res ev' = merged_res ev res ∧ ev_timeout ev' = ev_timeout ev ∧
    ev_events ev' = ev_events ev ∧ ev_pri ev' = ev_pri ev ∧ ev_closure ev' = ev_closure ev.

(** The settings of the base, the clock it uses and the cached time. *)
Definition conf b := (max_dispatch_callbacks b, length (b_activequeues b), monotonic_clock (monotonic_timer b), tv_cache b).

Lemma env_conf b b' : env_part b' = env_part b → conf b' = conf b.
Proof. unfold env_part, conf. intros Heq. injection Heq. congruence. Qed.

Lemma event_active_spec b e ev res ncalls :
  base_ok b → get_ev b e = Some ev → ev_flags ev &? EVLIST_FINALIZING = false →
  ∃ b', event_active_nolock_ b e res ncalls = Some b' ∧ active_outcome b e ev res b' ∧
    b_frames b' = b_frames b ∧ n_common_timeouts b' = n_common_timeouts b ∧ conf b' = conf b ∧
    (ev_events ev &? EV_SIGNAL = false → ev_io_timeout <$> get_ev b' e = Some (ev_io_timeout ev)).
Proof.
  intros Hok He Hfin. pose proof (ok_evs _ Hok _ _ He) as Hwf.
  unfold event_active_nolock_, active_outcome, merged_res. rewrite He. cbn [mbind option_bind].
  rewrite Hfin, active_bits, flag_orb. pose proof (wf_excl _ _ Hwf) as Hex.
  assert (Hn : ∀ r, neutral (set_ev_res r)) by done.
  destruct (ev_flags ev &? EVLIST_ACTIVE) eqn:Ha.
  { simpl in Hex. rewrite Hex. cbn [Z.lor Z.eqb Pos.eqb orb].
    eexists; split_and!; [done|by apply base_ok_neutral| | |done|done|done|intros _; unfold get_ev in *; cbn; by rewrite lookup_alter_eq, He].
    - intros x Hne. simpl. by rewrite lookup_alter_ne.
    - exists (set_ev_res (i16 (Z.lor (ev_res ev) res)) ev). unfold get_ev in *.
      cbn [b_evs upd_ev set_b_evs]. rewrite lookup_alter_eq, He. split_and!; [done| |done..]. unfold activated.
      rewrite (clear_flag_noop EVLIST_ACTIVE_LATER) by done. by rewrite (add_flag_noop 3). }
  set (st := Z.lor _ _).
  assert (Hst : st = if ev_flags ev &? EVLIST_ACTIVE_LATER then EVLIST_ACTIVE_LATER else 0) by done.
  clearbody st. assert ((st =? EVLIST_ACTIVE) = false) as -> by (subst st; by case_match).
  assert (negb ((st =? EVLIST_ACTIVE_LATER) || (st =? 0)) = false) as ->
    by (subst st; by case_match).
  assert ((st =? 0) = negb (ev_flags ev &? EVLIST_ACTIVE_LATER)) as -> by (subst st; by case_match).
  set (r := if negb _ then _ else _). set (b1 := upd_ev e (set_ev_res r) b).
  set (b2 := if ev_pri ev <? event_running_priority b1 then _ else _).
  set (b3 := if ev_events ev &? EV_SIGNAL then _ else _).
  assert (Hok1 : base_ok b1) by by apply base_ok_neutral.
  assert (Hok2 : base_ok b2) by (subst b2; destruct (ev_pri ev <? _); [by apply (base_ok_struct b1)|done]).
  assert (Hok3 : base_ok b3) by (subst b3; destruct (ev_events ev &? _); [by apply base_ok_neutral|done]).
  assert (Hev3 : ∃ ev3, get_ev b3 e = Some ev3 ∧ ev_flags ev3 = ev_flags ev ∧ ev_res ev3 = r ∧
    ev_timeout ev3 = ev_timeout ev ∧ ev_events ev3 = ev_events ev ∧ ev_pri ev3 = ev_pri ev ∧
    ev_closure ev3 = ev_closure ev ∧ (ev_events ev &? EV_SIGNAL = false → ev_io_timeout ev3 = ev_io_timeout ev)).
  { subst b3 b2 b1. unfold get_ev in *. destruct (_ <? _), (ev_events ev &? EV_SIGNAL); simpl;
      rewrite ?lookup_alter_eq, He; simpl; eexists; split_and!; done. }
  destruct Hev3 as (ev3 & He3 & Hf3 & Hr3 & Ht3 & Hevs3 & Hp3 & Hc3 & Hio3).
  assert (Hex3 : meq_except e (b_evs b) (b_evs b3)).
  { subst b3 b2 b1. intros x Hne. destruct (_ <? _), (ev_events ev &? EV_SIGNAL); simpl;
      by rewrite ?lookup_alter_ne. }
  destruct (callback_activate_spec b3 e ev3 Hok3 He3) as (b4 & r4 & -> & Hok4 & Hm4 & Henv4 & _).
  { by rewrite Hf3. }
  cbn [mbind option_bind]. exists b4. destruct (meq_get b4 _ e _ ev3 Hm4 He3) as (ev4 & He4 & Hr4).
  split_and!; [done|done| | | | |rewrite (env_conf _ _ Henv4); subst b3 b2 b1; by destruct (ev_pri ev <? _), (ev_events ev &? _)|
    intros Hs; rewrite He4; cbn; f_equal; rewrite <- (Hio3 Hs); exact (f_equal ev_io_timeout Hr4)].
  - eapply meq_except_trans; [exact Hex3|]. by eapply meq_alter_except.
  - exists ev4. split_and!; [done|..].
    + rewrite (rest_flags _ _ Hr4). simpl. by rewrite Hf3.
    + rewrite (f_equal ev_res Hr4 : ev_res ev4 = ev_res ev3), Hr3. subst r.
      by destruct (ev_flags ev &? EVLIST_ACTIVE_LATER).
    + by rewrite (f_equal ev_timeout Hr4 : ev_timeout ev4 = ev_timeout ev3).
    + by rewrite (f_equal ev_events Hr4 : ev_events ev4 = ev_events ev3).
    + by rewrite (f_equal ev_pri Hr4 : ev_pri ev4 = ev_pri ev3).
    + by rewrite (f_equal ev_closure Hr4 : ev_closure ev4 = ev_closure ev3).
  - rewrite (env_part_frames _ _ Henv4). subst b3 b2 b1. by destruct (ev_pri ev <? _), (ev_events ev &? _).
  - rewrite (env_part_ncommon _ _ Henv4). subst b3 b2 b1. by destruct (ev_pri ev <? _), (ev_events ev &? _).
Qed.

(** C3. [event_active_nolock_] on a consistent base makes the event active
    exactly once, on the queue of its priority (moving it there if it was to
    become active later) with the results of the pending activations
    joined; no other event changes and the base stays consistent.  A finalizing
    event is left alone. *)
Theorem event_active_correct b e ev res ncalls :
  base_ok b → get_ev b e = Some ev →
  if ev_flags ev &? EVLIST_FINALIZING then event_active_nolock_ b e res ncalls = Some b
  else ∃ b', event_active_nolock_ b e res ncalls = Some b' ∧ active_outcome b e ev res b'.
Proof.
  intros Hok He. destruct (ev_flags ev &? EVLIST_FINALIZING) eqn:Hfin.
  { unfold event_active_nolock_. rewrite He. cbn [mbind option_bind]. by rewrite Hfin. }
  destruct (event_active_spec b e ev res ncalls Hok He Hfin) as (b' & ? & ? & _). eauto.
Qed.
End props.
