(* ===== verification/EventTimers.v ===== *)
(** * Expiring timeouts

    [timeout_process] activates exactly the events of the heap whose deadline
    has come, and [timeout_next] is the time left until the first of them. *)

From S2P Require Import Prelude TimeVal MinHeap EvMap EventBase EventCore EventInv EventProps.

Section timers.
Context `{EventEnv}.
Implicit Types (b : event_base) (m : memory) (e x : evp) (ev : event).

Lemma heap_size b : base_ok b → hn (b_timeheap b) = length (elems (b_timeheap b)).
Proof.
  intros Hok. destruct (ok_heap _ Hok) as [[Hn _ _ _] _]. unfold elems. rewrite length_take. lia.
Qed.

(** The top of the heap: NULL, or an event with the earliest deadline. *)
Lemma heap_top b : base_ok b →
  (elems (b_timeheap b) = [] ∧ min_heap_top_ (b_timeheap b) = Some NULL) ∨
  ∃ e ev, min_heap_top_ (b_timeheap b) = Some e ∧ (e =? NULL) = false ∧
    e ∈ elems (b_timeheap b) ∧ get_ev b e = Some ev ∧
    ∀ x evx, x ∈ elems (b_timeheap b) → get_ev b x = Some evx →
      tv_le (ev_timeout ev) (ev_timeout evx).
Proof.
  intros Hok. pose proof (heap_size b Hok) as Hsz.
  destruct (ok_heap _ Hok) as [Hwf _]. pose proof Hwf as [Hn _ Hord _].
  unfold min_heap_top_. destruct (Nat.eqb_spec (hn (b_timeheap b)) 0) as [Hz|Hz].
  { left. split; [|done]. apply nil_length_inv. lia. }
  right. destruct (lookup_some_lt (hp (b_timeheap b)) 0) as [e He]; [lia|].
  assert (Hin : ∀ i x, (i < hn (b_timeheap b))%nat → hp (b_timeheap b) !! i = Some x →
    x ∈ elems (b_timeheap b)).
  { intros i x Hi Hx. apply list_elem_of_lookup. exists i. unfold elems. by rewrite lookup_take_lt. }
  assert (Hein : e ∈ elems (b_timeheap b)) by (apply (Hin 0%nat); [lia|done]).
  destruct (elems_valid _ _ _ Hwf Hein) as [ev Hev]. exists e, ev. split_and!; [done| |done|done|].
  - apply Z.eqb_neq. intros ->. rewrite (ok_null _ Hok) in Hev. done.
  - intros x evx Hx Hevx. apply list_elem_of_lookup in Hx as [i Hi]. unfold elems in Hi.
    apply lookup_take_Some in Hi as [Hi Hlt].
    pose proof (ordered_root (H := ev_store (b_evs b)) (b_evs b) _ _ e Hord Hn He i x Hlt Hi) as Hk.
    unfold kle in Hk. simpl in Hk. unfold get_ev in Hevx. by rewrite Hev, Hevx in Hk.
Qed.

(** An event of the heap waits for a timeout; it is not finalizing. *)
Lemma heap_member b e ev : base_ok b → e ∈ elems (b_timeheap b) → get_ev b e = Some ev →
  ev_flags ev &? EVLIST_TIMEOUT = true ∧ ev_flags ev &? EVLIST_FINALIZING = false.
Proof.
  intros Hok Hin He. apply (proj2 (ok_heap _ Hok)) in Hin as (t & Ht & _).
  unfold tmov in Ht. unfold get_ev in He. rewrite He in Ht. cbn in Ht. unfold tmov1 in Ht.
  destruct (ev_flags ev &? EVLIST_TIMEOUT) eqn:Hf; [|done]. split; [done|].
  destruct (ev_flags ev &? EVLIST_FINALIZING) eqn:Hfin; [|done].
  destruct (wf_final _ _ (ok_evs _ Hok _ _ He) Hfin). congruence.
Qed.

(** What [timeout_process] does to an event whose deadline has come: it is taken
    off all its queues and made active with the result EV_TIMEOUT. *)
Definition expired ev ev' : Prop :=
  ev_flags ev' = Z.lor (Z.land (ev_flags ev) (Z.lnot EVLIST_QUEUED)) EVLIST_ACTIVE ∧
  ev_res ev' = EV_TIMEOUT ∧ ev_timeout ev' = ev_timeout ev ∧ ev_events ev' = ev_events ev ∧
  ev_pri ev' = ev_pri ev ∧ ev_closure ev' = ev_closure ev.

Lemma in_heap_rest b b' x :
  base_ok b → base_ok b' → n_common_timeouts b' = n_common_timeouts b →
  rest <$> b_evs b' !! x = rest <$> b_evs b !! x →
  x ∈ elems (b_timeheap b') ↔ x ∈ elems (b_timeheap b).
Proof.
  intros Hok Hok' Hn Hr. rewrite (proj2 (ok_heap _ Hok)), (proj2 (ok_heap _ Hok')), Hn.
  assert (tmov (b_evs b') x = tmov (b_evs b) x) as ->; [|done].
  unfold tmov. destruct (b_evs b' !! x) as [a|], (b_evs b !! x) as [c|]; [|done..].
  cbn in Hr |- *. apply (inj Some) in Hr. unfold tmov1.
  by rewrite (f_equal ev_flags Hr : ev_flags a = ev_flags c),
    (f_equal ev_timeout Hr : ev_timeout a = ev_timeout c).
Qed.

(** One iteration: the event at the top of the heap expires. *)
Lemma expire_one b e ev :
  base_ok b → e ∈ elems (b_timeheap b) → get_ev b e = Some ev → frame_ok b ev →
  ∃ b1 r b2, event_del_nolock_ b e EVENT_DEL_NOBLOCK = Some (b1, r) ∧
    event_active_nolock_ b1 e EV_TIMEOUT 1 = Some b2 ∧ base_ok b2 ∧
    same_frames (b_frames b) (b_frames b2) ∧ n_common_timeouts b2 = n_common_timeouts b ∧
    meq_except e (b_evs b) (b_evs b2) ∧ (∃ ev', get_ev b2 e = Some ev' ∧ expired ev ev').
Proof.
  intros Hok Hin He Hfr. destruct (heap_member b e ev Hok Hin He) as [Ht Hfin].
  destruct (event_del_spec b e ev EVENT_DEL_NOBLOCK Hok He Hfr ltac:(by right))
    as (b1 & r & fr & Hdel & Hok1 & _ & Hm1 & Henv1 & Hsf & _).
  destruct (meq_get b1 _ e _ ev Hm1 He) as (ev1 & He1 & Hr1).
  assert (Hfl1 : ev_flags ev1 = Z.land (ev_flags ev) (Z.lnot EVLIST_QUEUED))
    by exact (rest_flags _ _ Hr1).
  destruct (event_active_spec b1 e ev1 EV_TIMEOUT 1 Hok1 He1)
    as (b2 & Hact & (Hok2 & Hex2 & ev2 & He2 & Hf2 & Hres2 & Ht2 & Hev2 & Hp2 & Hc2) & Hfr2 & Hn2 & _).
  { rewrite Hfl1. by flags. }
  exists b1, r, b2. split_and!; [done|done|done| | | |].
  - rewrite Hfr2, (env_part_frames _ _ Henv1). exact Hsf.
  - rewrite Hn2, (env_part_ncommon _ _ Henv1). done.
  - eapply meq_except_trans; [by eapply meq_alter_except|done].
  - exists ev2. split; [done|]. unfold expired.
    split_and!.
    + rewrite Hf2. unfold activated. rewrite clear_flag_noop; [|rewrite Hfl1; by flags].
      unfold add_flag. simpl. by rewrite Hfl1.
    + rewrite Hres2. unfold merged_res. rewrite flag_orb, Hfl1. by flags.
    + rewrite Ht2. exact (f_equal ev_timeout Hr1).
    + rewrite Hev2. exact (f_equal ev_events Hr1).
    + rewrite Hp2. exact (f_equal ev_pri Hr1).
    + rewrite Hc2. exact (f_equal ev_closure Hr1).
Qed.

Lemma not_expired_in_heap b e ev ev' :
  base_ok b → get_ev b e = Some ev' → expired ev ev' → e ∉ elems (b_timeheap b).
Proof.
  intros Hok He [Hf _] Hin. destruct (heap_member b e ev' Hok Hin He) as [Ht _].
  rewrite Hf in Ht. revert Ht. by flags.
Qed.

(** The heap after the event [e], and no other, left it. *)
Lemma elems_without b b2 e :
  base_ok b → base_ok b2 → n_common_timeouts b2 = n_common_timeouts b →
  e ∉ elems (b_timeheap b2) → meq_except e (b_evs b) (b_evs b2) →
  (∀ x, x ∈ elems (b_timeheap b2) ↔ x ≠ e ∧ x ∈ elems (b_timeheap b)).
Proof.
  intros Hok Hok2 Hn Hnin Hex x. destruct (decide (x = e)) as [->|Hne]; [naive_solver|].
  rewrite (in_heap_rest b b2); [naive_solver|done..|by apply Hex].
Qed.

Lemma elems_shrink b b2 e :
  base_ok b → base_ok b2 →
  (∀ x, x ∈ elems (b_timeheap b2) ↔ x ≠ e ∧ x ∈ elems (b_timeheap b)) →
  (hn (b_timeheap b2) <= hn (b_timeheap b))%nat ∧
  (e ∈ elems (b_timeheap b) → (hn (b_timeheap b2) < hn (b_timeheap b))%nat).
Proof.
  intros Hok Hok2 Hel. rewrite !heap_size by done.
  pose proof (elems_NoDup _ _ (proj1 (ok_heap _ Hok))) as Hnd.
  pose proof (elems_NoDup _ _ (proj1 (ok_heap _ Hok2))) as Hnd2.
  assert (Hp : elems (b_timeheap b2) ≡ₚ filter (.≠ e) (elems (b_timeheap b))).
  { apply NoDup_Permutation; [done|by apply NoDup_filter_ne|]. intros x.
    rewrite Hel, elem_of_filter_ne. done. }
  rewrite Hp. split; [apply length_filter|]. intros Hin. rewrite (length_filter_ne e _ Hnd Hin). lia.
Qed.

(** The fate of the event [x] of memory [b]. *)
Definition fate b (now : timeval) b' x ev : Prop :=
  ∃ ev', get_ev b' x = Some ev' ∧
    if decide (x ∈ elems (b_timeheap b) ∧ tv_le (ev_timeout ev) now)
    then expired ev ev' else rest ev' = rest ev.

Lemma expired_rest ev0 ev1 ev ev' :
  rest ev0 = rest ev1 → rest ev = rest ev' → expired ev1 ev → expired ev0 ev'.
Proof.
  intros Hr Hr' (H1 & H2 & H3 & H4 & H5 & H6). unfold expired.
  pose proof (rest_flags _ _ Hr) as E1. pose proof (rest_flags _ _ Hr') as E2.
  pose proof (f_equal ev_res Hr' : ev_res ev = ev_res ev').
  pose proof (f_equal ev_timeout Hr' : ev_timeout ev = ev_timeout ev').
  pose proof (f_equal ev_timeout Hr : ev_timeout ev0 = ev_timeout ev1).
  pose proof (f_equal ev_events Hr' : ev_events ev = ev_events ev').
  pose proof (f_equal ev_events Hr : ev_events ev0 = ev_events ev1).
  pose proof (f_equal ev_pri Hr' : ev_pri ev = ev_pri ev').
  pose proof (f_equal ev_pri Hr : ev_pri ev0 = ev_pri ev1).
  pose proof (f_equal ev_closure Hr' : ev_closure ev = ev_closure ev').
  pose proof (f_equal ev_closure Hr : ev_closure ev0 = ev_closure ev1).
  split_and!; congruence.
Qed.

Lemma frame_ok_rest b b' ev ev' :
  rest ev' = rest ev → same_frames (b_frames b) (b_frames b') → frame_ok b ev → frame_ok b' ev'.
Proof.
  intros Hr Hs Hf. unfold frame_ok, ev_ncalls, ev_pncalls in *.
  rewrite (f_equal ev_events Hr : ev_events ev' = ev_events ev),
    (f_equal ev_w0 Hr : ev_w0 ev' = ev_w0 ev), (f_equal ev_w1 Hr : ev_w1 ev' = ev_w1 ev).
  intros. by apply Hs, Hf.
Qed.

Lemma meq_except_get e m m' x ev :
  meq_except e m m' → x ≠ e → m !! x = Some ev → ∃ ev', m' !! x = Some ev' ∧ rest ev' = rest ev.
Proof.
  intros Hex Hne Hx. specialize (Hex x Hne). rewrite Hx in Hex.
  destruct (m' !! x) as [ev'|]; [|done]. cbn in Hex. apply (inj Some) in Hex. eauto.
Qed.

Lemma timeout_process_loop_spec now : ∀ fuel b,
  base_ok b → (∀ x ev, x ∈ elems (b_timeheap b) → get_ev b x = Some ev → frame_ok b ev) →
  (hn (b_timeheap b) < fuel)%nat →
  ∃ b', timeout_process_loop fuel b now = Some b' ∧ base_ok b' ∧
    ∀ x ev, get_ev b x = Some ev → fate b now b' x ev.
Proof.
  induction fuel as [|fuel IH]; intros b Hok Hfr Hfuel; [lia|]. cbn [timeout_process_loop].
  destruct (heap_top b Hok) as [[Hnil ->]|(e & ev & -> & Hnz & Hin & He & Hmin)];
    cbn [mbind option_bind].
  { exists b. split_and!; [done|done|]. intros x ev He. exists ev. split; [done|].
    rewrite decide_False; [done|]. rewrite Hnil. by intros [?%not_elem_of_nil _]. }
  rewrite Hnz, He. cbn [mbind option_bind].
  destruct (evutil_timercmp (ev_timeout ev) now Z.gtb) eqn:Hcmp.
  { apply timercmp_gt in Hcmp. exists b. split_and!; [done|done|]. intros x evx Hx. exists evx.
    split; [done|]. rewrite decide_False; [done|]. intros [Hxin Hle].
    assert (tv_le (ev_timeout ev) now) as Hle' by (etrans; [by eapply Hmin|done]).
    by apply tv_not_lt in Hle'. }
  assert (Hdue : tv_le (ev_timeout ev) now).
  { apply tv_not_lt. rewrite <- timercmp_gt, Hcmp. done. }
  destruct (expire_one b e ev Hok Hin He (Hfr e ev Hin He))
    as (b1 & r & b2 & -> & Hact & Hok2 & Hsf & Hn2 & Hex & ev' & He' & Hexp).
  cbn [mbind option_bind]. rewrite Hact. cbn [mbind option_bind].
  pose proof (elems_without b b2 e Hok Hok2 Hn2 (not_expired_in_heap b2 e ev ev' Hok2 He' Hexp) Hex)
    as Hel.
  destruct (elems_shrink b b2 e Hok Hok2 Hel) as [_ Hlt]. specialize (Hlt Hin).
  destruct (IH b2 Hok2) as (b' & -> & Hok' & Hfate); [|lia|].
  { intros x evx Hx Hevx. apply Hel in Hx as [Hne Hx].
    destruct (elems_valid _ _ _ (proj1 (ok_heap _ Hok)) Hx) as [ev0 Hev0].
    destruct (meq_except_get _ _ _ _ _ Hex Hne Hev0) as (ev2 & Hev2 & Hr2).
    unfold get_ev in Hevx. rewrite Hev2 in Hevx. apply (inj Some) in Hevx as <-.
    eapply frame_ok_rest; [exact Hr2|done|by eapply Hfr]. }
  exists b'. split_and!; [done|done|]. intros x evx Hx.
  destruct (decide (x = e)) as [->|Hne].
  - destruct (Hfate e ev' He') as (ev2 & He2 & Hf2).
    rewrite He in Hx. apply (inj Some) in Hx as <-.
    rewrite decide_False in Hf2 by (rewrite Hel; naive_solver).
    exists ev2. split; [done|]. rewrite decide_True by done. by eapply expired_rest.
  - destruct (meq_except_get _ _ _ _ _ Hex Hne Hx) as (evx2 & Hx2 & Hr2).
    destruct (Hfate x evx2 Hx2) as (ev2 & He2 & Hf2). exists ev2. split; [done|].
    rewrite (f_equal ev_timeout Hr2 : ev_timeout evx2 = ev_timeout evx) in Hf2.
    destruct (decide (x ∈ elems (b_timeheap b) ∧ tv_le (ev_timeout evx) now)) as [[??]|Hn].
    + rewrite decide_True in Hf2 by (by rewrite Hel). eapply expired_rest; [by symmetry|done|done].
    + rewrite decide_False in Hf2 by (rewrite Hel; naive_solver). congruence.
Qed.

Lemma gettime_struct b b' t : gettime b = Some (b', t) →
  struct_part b' = struct_part b ∧ b_frames b' = b_frames b.
Proof.
  unfold gettime. intros Heq. repeat (case_match; simplify_option_eq; try done).
Qed.

Lemma gettime_conf b b' t : gettime b = Some (b', t) → conf b' = conf b.
Proof.
  unfold gettime, evutil_gettime_monotonic_, adjust_monotonic_time, conf. intros Heq. repeat (case_match; simplify_option_eq; try done).
Qed.

(** C4. [timeout_process], when the clock can be read, expires exactly the events
    of the timer heap whose deadline is not after the current time: each is taken
    off all its queues and becomes active with the result EV_TIMEOUT; no other
    event changes.  It terminates (one iteration per expired event), fails no
    assertion and leaves the base consistent. *)
Theorem timeout_process_exact b bt now :
  base_ok b → (∀ x ev, x ∈ elems (b_timeheap b) → get_ev b x = Some ev → frame_ok b ev) →
  gettime b = Some (bt, Some now) →
  ∃ b', timeout_process b = Some b' ∧ base_ok b' ∧
    ∀ x ev, get_ev b x = Some ev → fate b now b' x ev.
Proof.
  intros Hok Hfr Hgt. unfold timeout_process, min_heap_empty_, gettime_ok.
  destruct (Nat.eqb_spec (hn (b_timeheap b)) 0) as [Hz|Hz].
  { exists b. split_and!; [done|done|]. intros x ev Hx. exists ev. split; [done|].
    rewrite decide_False; [done|]. intros [Hin _]. pose proof (heap_size b Hok) as Hs.
    rewrite Hz in Hs. symmetry in Hs. apply nil_length_inv in Hs. rewrite Hs in Hin.
    by apply not_elem_of_nil in Hin. }
  rewrite Hgt. cbn [mbind option_bind]. destruct (gettime_struct _ _ _ Hgt) as [Hst Hfrm].
  assert (Hh : b_timeheap bt = b_timeheap b) by (unfold struct_part in Hst; congruence).
  assert (Hm : b_evs bt = b_evs b) by (unfold struct_part in Hst; congruence).
  destruct (timeout_process_loop_spec now (S (min_heap_size_ (b_timeheap bt))) bt)
    as (b' & -> & Hok' & Hfate).
  - by eapply base_ok_struct.
  - intros x ev. unfold get_ev. rewrite Hh, Hm. intros Hx Hev. specialize (Hfr x ev Hx Hev).
    unfold frame_ok in *. by rewrite Hfrm.
  - unfold min_heap_size_. lia.
  - exists b'. split_and!; [done|done|]. intros x ev Hx. specialize (Hfate x ev).
    unfold get_ev, fate in *. rewrite Hm, Hh in Hfate. by apply Hfate.
Qed.

(** The time to wait: none if no event waits in the heap, otherwise the time from
    [now] to the earliest deadline, or zero. *)
Definition earliest b (now : timeval) (tv : option timeval) : Prop :=
  match tv with
  | None => elems (b_timeheap b) = []
  | Some tv =>
    0 <= tv_us tv ∧
    (∃ x ev, x ∈ elems (b_timeheap b) ∧ get_ev b x = Some ev ∧
       tv_us tv = Z.max 0 (tv_us (ev_timeout ev) - tv_us now)) ∧
    ∀ x ev, x ∈ elems (b_timeheap b) → get_ev b x = Some ev →
      tv_us tv <= Z.max 0 (tv_us (ev_timeout ev) - tv_us now)
  end.

(** [timeout_next], when the clock can be read: no timeout to wait for (NULL)
    exactly if the heap is empty, otherwise the time from now to the earliest
    deadline of the heap, or zero if that has passed; it never is negative. *)
Theorem timeout_next_earliest b bt now :
  base_ok b → gettime b = Some (bt, Some now) → tv_norm now →
  (∀ x ev, x ∈ elems (b_timeheap b) → get_ev b x = Some ev →
    tv_norm (ev_timeout ev) ∧ (tv_us now < tv_us (ev_timeout ev) → sub_fits (ev_timeout ev) now)) →
  ∃ b' tv, timeout_next b = Some (b', tv) ∧ earliest b now tv.
Proof.
  intros Hok Hgt Hnow Hnorm. unfold timeout_next.
  destruct (heap_top b Hok) as [[Hnil ->]|(e & ev & -> & Hnz & Hin & He & Hmin)];
    cbn [mbind option_bind].
  { exists b, None. done. }
  rewrite Hnz, He. cbn [mbind option_bind]. rewrite Hgt. cbn [mbind option_bind].
  pose proof (Hnorm e ev Hin He) as [Hev Hfits].
  assert (Hle : ∀ x evx, x ∈ elems (b_timeheap b) → get_ev b x = Some evx →
    tv_us (ev_timeout ev) <= tv_us (ev_timeout evx)).
  { intros x evx Hx Hevx. apply tv_le_us; [done|by eapply Hnorm|eauto]. }
  destruct (evutil_timercmp (ev_timeout ev) now Z.leb) eqn:Hcmp.
  - apply timercmp_le, tv_le_us in Hcmp; [|done..]. eexists bt, _. split; [done|].
    assert (Hz : tv_us evutil_timerclear = 0) by done. split_and!; [done| |].
    + exists e, ev. split_and!; [done|done|]. rewrite Hz. lia.
    + intros. rewrite Hz. lia.
  - assert (Hlt : tv_us now < tv_us (ev_timeout ev)).
    { apply tv_lt_us; [done..|]. apply tv_not_le. rewrite <- timercmp_le, Hcmp. done. }
    pose proof (timersub_us (ev_timeout ev) now Hev Hnow (Hfits Hlt)) as Hus.
    pose proof (timersub_norm (ev_timeout ev) now Hev Hnow) as Hn.
    assert (0 <= tv_sec (evutil_timersub (ev_timeout ev) now)) as Hsec.
    { assert (0 < tv_us (evutil_timersub (ev_timeout ev) now)) as Hpos by lia.
      unfold tv_us in Hpos. unfold tv_norm in Hn. lia. }
    rewrite (evassert_true _ (proj2 (Z.leb_le _ _) Hsec)). cbn [mbind option_bind].
    rewrite (evassert_true _ (proj2 (Z.leb_le _ _) (proj1 Hn))). cbn [mbind option_bind].
    eexists bt, _. split; [done|]. split_and!; [lia| |].
    + exists e, ev. split_and!; [done|done|lia].
    + intros x evx Hx Hevx. pose proof (Hle x evx Hx Hevx). lia.
Qed.

(** ** The events to activate later *)

Lemma later_step b e ev q' :
  base_ok b → b_later b = e :: q' → get_ev b e = Some ev →
  ∃ b', append_to_active (ev_pri ev) e (upd_ev e (λ ev, add_flag EVLIST_ACTIVE
      (clear_flag EVLIST_ACTIVE_LATER ev)) (set_b_later q' b)) = Some b' ∧
    base_ok b' ∧ b_later b' = q' ∧ b_evs b' = alter activated e (b_evs b) ∧
    b_ctls b' = b_ctls b ∧
    ∃ q, b_activequeues b !! Z.to_nat (ev_pri ev) = Some q ∧
      b_activequeues b' = <[Z.to_nat (ev_pri ev) := q ++ [e]]> (b_activequeues b).
Proof.
  intros Hok Hl He. pose proof (ok_evs _ Hok _ _ He) as Hwf. unfold get_ev in He.
  destruct (ok_later _ Hok) as [Hnd Hlin]. rewrite Hl in Hnd. apply NoDup_cons in Hnd as [Hnin Hnd].
  assert (Hlf : ev_flags ev &? EVLIST_ACTIVE_LATER = true).
  { assert (latv (b_evs b) e = true) as Hv by (apply Hlin; rewrite Hl; by left).
    unfold latv in Hv. by rewrite He in Hv. }
  assert (Hact : ev_flags ev &? EVLIST_ACTIVE = false).
  { pose proof (wf_excl _ _ Hwf) as Hx. rewrite Hlf, andb_true_r in Hx. done. }
  destruct (wf_pri _ _ Hwf) as [Hp Hpn].
  destruct (lookup_some_lt (b_activequeues b) (Z.to_nat (ev_pri ev))) as [q Hq].
  { unfold nactivequeues in Hpn. lia. }
  unfold append_to_active. rewrite evassert_true by (apply Z.ltb_lt; done).
  cbn [mbind option_bind]. destruct (Z.ltb_spec (ev_pri ev) 0); [lia|]. simpl.
  rewrite Hq. cbn [mbind option_bind]. eexists; split_and!; [done| |done|done|done|by eexists].
  split; simpl; fold activated; try (by unfold activated; part Hok He).
  - eapply (active_ok_add (actv (b_evs b))); eauto; [apply Hok| | |].
    + unfold actv. rewrite He. simpl. unfold actv1. by rewrite Hact.
    + rewrite (actv_alter _ _ _ _ He), decide_True by done. unfold actv1, activated, add_flag, clear_flag.
      simpl. by flags.
    + intros x Hx. by rewrite (actv_alter _ _ _ _ He), decide_False.
  - split; [done|]. intros x. rewrite (latv_alter _ _ _ _ He). case_decide as Hx.
    + subst x. unfold latv1, activated, add_flag, clear_flag. simpl. flags. done.
    + rewrite <- Hlin, Hl, elem_of_cons. naive_solver.
  - unfold nactivequeues. simpl. rewrite length_insert. apply (ev_wf_alter b e ev); [done|done|].
    unfold activated. apply wf_add; [in_list|apply wf_clear; [in_list|done]|naive_solver..| |].
    + intros _. simpl. by flags.
    + naive_solver.
  - rewrite (ok_count_active _ Hok). unfold queued. simpl.
    pose proof (length_concat_insert _ _ _ (q ++ [e]) Hq) as Hc. rewrite length_app in Hc.
    rewrite Hl. simpl in *. lia.
  - rewrite (total_alter _ _ _ _ He), (ok_count _ Hok).
    assert (wt1 (activated ev) = wt1 ev); [|lia]. unfold activated.
    rewrite wt1_add, wt1_clear by (try (simpl; flags); in_list || done). simpl. flags. lia.
Qed.

(** The deferred-callback count does not matter for consistency. *)
Lemma base_ok_deferreds b n : base_ok b → base_ok (set_n_deferreds_queued n b).
Proof. by intros [? ? ? ? ? ? ? ? ? ?]. Qed.

(** The events of [l] that run with priority [i], in order. *)
Definition with_priority b (i : nat) (l : list evp) : list evp :=
  filter (λ e, (Z.to_nat ∘ ev_pri <$> get_ev b e) = Some i) l.

(** Activating [e] changes no priority. *)
Lemma with_priority_ext b b' i l :
  (∀ x, (ev_pri <$> get_ev b' x) = (ev_pri <$> get_ev b x)) →
  with_priority b' i l = with_priority b i l.
Proof.
  intros Hx. unfold with_priority. apply list_filter_iff. intros x.
  by rewrite !option_fmap_compose, Hx.
Qed.

Lemma make_later_loop_spec l b :
  base_ok b → b_later b = l →
  ∃ b', make_later_loop l b = Some b' ∧ base_ok b' ∧ b_later b' = [] ∧ b_ctls b' = b_ctls b ∧
    (∀ e ev, get_ev b e = Some ev →
       get_ev b' e = Some (if decide (e ∈ l) then activated ev else ev)) ∧
    (∀ i q, b_activequeues b !! i = Some q →
       b_activequeues b' !! i = Some (q ++ with_priority b i l)).
Proof.
  revert b. induction l as [|e l IH]; intros b Hok Hl; cbn [make_later_loop].
  { exists b. split_and!; [done..| |].
    - intros e ev He. by rewrite decide_False by (apply not_elem_of_nil).
    - intros i q Hq. by rewrite app_nil_r. }
  destruct (ok_later _ Hok) as [Hnd Hlin].
  assert (∃ ev, get_ev b e = Some ev) as [ev He].
  { assert (latv (b_evs b) e = true) as Hv by (apply Hlin; rewrite Hl; by left).
    unfold latv in Hv. unfold get_ev. destruct (b_evs b !! e); [by eexists|done]. }
  rewrite He. cbn [mbind option_bind].
  destruct (later_step b e ev l Hok Hl He) as (b1 & -> & Hok1 & Hl1 & Hevs & Hc1 & q0 & Hq0 & Hqs).
  cbn [mbind option_bind]. rewrite Hl in Hnd. apply NoDup_cons in Hnd as [Hnin Hnd].
  edestruct (IH (set_n_deferreds_queued (n_deferreds_queued b1 +
    (if ev_closure ev =? EV_CLOSURE_CB_SELF then 1 else 0)) b1)) as (b' & -> & Hok' & Hl' & Hc' & Hg & Hq);
    [by apply base_ok_deferreds|done|].
  assert (Hget : ∀ x, get_ev b1 x = if decide (x = e) then activated <$> get_ev b x else get_ev b x).
  { intros x. unfold get_ev. rewrite Hevs. case_decide as Hx; [subst x; apply lookup_alter_eq|].
    by apply lookup_alter_ne. }
  exists b'. split_and!; [done..|by rewrite Hc'| |].
  - intros x evx Hx. specialize (Hget x). rewrite Hx in Hget.
    destruct (decide (x = e)) as [->|Hne].
    + rewrite decide_True by (by left). rewrite (Hg e _ Hget). by rewrite decide_False.
    + rewrite (Hg x _ Hget). f_equal. apply decide_ext. rewrite elem_of_cons. naive_solver.
  - intros i q Hi. assert (Hqi := λ q, Hq i q). clear Hq.
    assert (Hwp : with_priority (set_n_deferreds_queued (n_deferreds_queued b1 +
      (if ev_closure ev =? EV_CLOSURE_CB_SELF then 1 else 0)) b1) i l = with_priority b i l).
    { apply with_priority_ext. intros x. change (get_ev (set_n_deferreds_queued _ b1) x) with (get_ev b1 x).
        rewrite Hget. case_decide; [|done]. by destruct (get_ev b x). }
    rewrite Hwp in Hqi. unfold with_priority at 1. rewrite filter_cons, He. simpl.
    destruct (decide (Z.to_nat (ev_pri ev) = i)) as [Hpi|Hpi].
    + rewrite decide_True by (by f_equal). subst i. rewrite Hi in Hq0. injection Hq0 as <-.
      rewrite (Hqi (q ++ [e])); [by rewrite <- app_assoc|]. simpl. rewrite Hqs.
      apply list_lookup_insert_eq. by eapply lookup_lt_Some.
    + rewrite decide_False by (by intros [= ?]). apply Hqi. simpl. rewrite Hqs.
      by rewrite list_lookup_insert_ne.
Qed.

(** At the start of every iteration [event_queue_make_later_events_active] moves
    every event that was activated for later to the active queue of its priority:
    each active queue is extended by exactly those events of its priority, in the
    order they were scheduled, the queue of later events is left empty, each moved
    event is active and not later any more, and no other event changes.  No
    assertion fails and the base stays consistent. *)
Theorem make_later_events_active_correct b :
  base_ok b →
  ∃ b', event_queue_make_later_events_active b = Some b' ∧ base_ok b' ∧ b_later b' = [] ∧
    (∀ e ev, get_ev b e = Some ev →
       get_ev b' e = Some (if decide (e ∈ b_later b) then activated ev else ev)) ∧
    (∀ i q, b_activequeues b !! i = Some q →
       b_activequeues b' !! i = Some (q ++ with_priority b i (b_later b))).
Proof.
  intros Hok. destruct (make_later_loop_spec (b_later b) b Hok eq_refl) as (b' & ? & ? & ? & _ & ? & ?).
  by exists b'.
Qed.
End timers.
