(* ===== verification/EventAdd.v ===== *)
(** * Adding an event

    [event_add_nolock_] on a consistent base, for any event that is not waiting
    for a common timeout and any timeout that is not common. *)

From S2P Require Import Prelude TimeVal MinHeap EvMap.
From S2P Require Import EventBase EventCore EventInv EventProps EventTimers.

Section add.
Context `{EventEnv}.
Implicit Types (b : event_base) (m : memory) (e x : evp) (ev : event).

(** ** Room in the heap *)

Lemma base_ok_new_heap b h :
  base_ok b → heap_wf (H := ev_store (b_evs b)) (b_evs b) h → elems h = elems (b_timeheap b) →
  base_ok (set_b_timeheap h b).
Proof.
  intros [H1 H2 [H3 H3'] H4 H5 H6 H7 H8 H9 H10] Hwf Hel. split; try done. split; [done|].
  simpl. rewrite Hel. exact H3'.
Qed.

Lemma reserve_base b h r :
  base_ok b →
  min_heap_reserve_ env_realloc_ok (b_timeheap b) (1 + min_heap_size_ (b_timeheap b)) = (h, r) →
  r = -1 ∨
  (r = 0 ∧ base_ok (set_b_timeheap h b) ∧ elems h = elems (b_timeheap b) ∧
   Z.of_nat (hn h) < ha h).
Proof.
  intros Hok Hres. destruct (ok_heap _ Hok) as [Hwf _].
  destruct (reserve_wf (H := ev_store (b_evs b)) env_realloc_ok (b_evs b) (b_timeheap b)
    (1 + min_heap_size_ (b_timeheap b)) h r Hwf ltac:(unfold min_heap_size_; lia) Hres) as [(-> & _)|(-> & Hwf' & Hn & Hel & Hlt)]; [by left|].
  right. split_and!; [done|by apply base_ok_new_heap|done|].
  pose proof Hwf' as [_ Ha _ _]. lia.
Qed.

(** ** Putting an event into the maps *)

Lemma iomap_ok_add {F} evf v v' (io io' : io_map F) e evts fd :
  iomap_ok evf v io → v e = None → v' e = Some (evts, fd) → evts &? EV_RWC = true →
  (∀ x, x ≠ e → v' x = v x) →
  map_update evf io io' fd (if fd <? 0 then evs_at io fd else e :: evs_at io fd) →
  iomap_ok evf v' io'.
Proof.
  intros [_ Hin] He He' Hr Hoth [Hok' Hup]. split; [done|]. intros x fd' Hfd'. rewrite Hup.
  destruct (decide (x = e)) as [->|Hne].
  - rewrite He'. case_decide as Hd.
    + subst fd'. destruct (Z.ltb_spec fd 0); [lia|]. split; [eauto|]. intros _. by left.
    + rewrite Hin by done. rewrite He. split; [by intros (? & ? & _)|].
      intros (evts' & [= <- <-] & _). done.
  - rewrite Hoth by done. rewrite <- Hin by done. case_decide; [subst|done].
    destruct (Z.ltb_spec fd 0); [done|]. rewrite elem_of_cons. naive_solver.
Qed.

Lemma sigmap_ok_add v v' (map map' : signal_map) e evts fd :
  sigmap_ok v map → v e = None → v' e = Some (evts, fd) → evts &? EV_RWC = false →
  (∀ x, x ≠ e → v' x = v x) →
  (∀ sig', sig_evs map' sig' = if decide (sig' = fd)
     then e :: sig_evs map sig' else sig_evs map sig') →
  sigmap_ok v' map'.
Proof.
  unfold sigmap_ok. intros Hin He He' Hr Hoth Hup x sig Hsig. rewrite Hup.
  destruct (decide (x = e)) as [->|Hne].
  - rewrite He'. case_decide as Hd; [subst; split; [eauto|by left]|].
    rewrite Hin, He by done. split; [by intros (? & ? & _)|]. intros (evts' & [= <- <-] & _). done.
  - rewrite Hoth by done. rewrite <- Hin by done. case_decide; [|done].
    rewrite elem_of_cons. naive_solver.
Qed.

(** The registration happens exactly if the event has a condition to wait for
    and is neither registered nor active. *)
Definition registers ev : bool :=
  (ev_events ev &? EV_RWCS) &&
  negb (ev_flags ev &? Z.lor (Z.lor EVLIST_INSERTED EVLIST_ACTIVE) EVLIST_ACTIVE_LATER).

Lemma flag_rwcs x : x &? EV_RWCS = (x &? EV_RWC) || (x &? EV_SIGNAL).
Proof. apply (flag_orb x EV_RWC EV_SIGNAL). Qed.

(** The maps after a successful or a failed registration. *)
Lemma add_to_map_spec b e ev :
  base_ok b → get_ev b e = Some ev → ev_flags ev &? EVLIST_INSERTED = false →
  ev_events ev &? EV_RWCS = true →
  ∃ b1 r, add_to_map b e ev = Some (b1, r) ∧ (r = -1 ∨ r = 0 ∨ r = 1) ∧
    b_evs b1 = b_evs b ∧ env_part b1 = env_part b ∧ b_timeheap b1 = b_timeheap b ∧
    (∀ m', (∀ x, events_of m' x = events_of (b_evs b) x) →
       (∀ x, x ≠ e → insv m' x = insv (b_evs b) x) →
       insv m' e = (if r =? -1 then None else Some (ev_events ev, ev_fd ev)) →
       iomap_ok (events_of m') (insv m') (b_io b1) ∧ sigmap_ok (insv m') (b_sigmap b1)) ∧
    struct_part (set_b_io (b_io b) (set_b_sigmap (b_sigmap b) b1)) = struct_part b.
Proof.
  intros Hok He Hf Hev. pose proof (ok_evs _ Hok _ _ He) as Hwf. unfold get_ev in He.
  assert (Hv : insv (b_evs b) e = None).
  { unfold insv. rewrite He. simpl. unfold insv1. by rewrite Hf. }
  destruct (wf_fd _ _ Hwf) as [Hlt Hge]. unfold add_to_map. rewrite flag_rwcs in Hev.
  destruct (ev_events ev &? EV_RWC) eqn:Hrwc.
  - destruct (io_add_spec (events_of (b_evs b)) env_realloc_ok env_calloc_ok false env_sizeof_io
      (b_be b) (b_io b) (ev_fd ev) e (proj1 (ok_io _ Hok)) Hlt) as (io' & be' & r & -> & Hup & Hout).
    { intros Hin. destruct (Z.ltb_spec (ev_fd ev) 0) as [Hneg|Hpos].
      - unfold evs_at in Hin. rewrite (proj2 (Z.ltb_lt _ _) Hneg) in Hin. by apply not_elem_of_nil in Hin.
      - apply (proj2 (ok_io _ Hok)) in Hin as (evts & Hx & _); [|done]. congruence. }
    cbn [mbind option_bind]. eexists _, r. split_and!; [done| |done|done|done| |done].
    { destruct (ev_fd ev <? 0); [by destruct Hout as [-> _]; auto|].
      destruct Hout as [(_ & [->|[-> _]])|(? & ? & rb & _ & _ & ->)]; auto.
      destruct (rb =? -1); auto. }
    intros m' Hevs Hoth Hme. simpl. split.
    + eapply iomap_ok_ext; [exact Hevs|done|].
      destruct (r =? -1) eqn:Hr.
      * rewrite orb_true_r in Hup. split; [apply Hup|]. intros x fd Hfd.
        rewrite (proj2 Hup). destruct (decide (x = e)) as [->|Hne].
        -- rewrite Hme. split; [|by intros (? & ? & _)]. intros Hin.
           assert (e ∈ evs_at (b_io b) fd) as Hin' by (case_decide; [by subst|done]).
           apply (proj2 (ok_io _ Hok)) in Hin' as (? & ? & _); [congruence|done].
        -- rewrite Hoth by done. rewrite <- (proj2 (ok_io _ Hok)) by done. by case_decide; subst.
      * rewrite orb_false_r in Hup. eapply iomap_ok_add; [apply Hok|done|exact Hme|done|done|exact Hup].
    + eapply sigmap_ok_other; [apply Hok|exact Hoth|congruence|].
      intros evts fd. rewrite Hme. destruct (r =? -1); [done|]. by intros [= <- <-].
  - simpl in Hev. rewrite Hev. specialize (Hge eq_refl Hev).
    destruct (signal_add_spec env_sig_add env_sig_del env_realloc_ok env_calloc_ok env_sizeof_signal (b_sbe b)
      (b_sigmap b) (ev_fd ev) e ltac:(lia)) as (sm' & sbe' & r & Heq & Hup & _).
    rewrite Heq. cbn [mbind option_bind]. eexists _, r. split_and!; [done| |done|done|done| |done].
    { unfold evmap_signal_add_ in Heq. repeat (simplify_option_eq; auto; case_match); auto. }
    intros m' Hevs Hoth Hme. simpl. split.
    + eapply iomap_ok_ext; [exact Hevs|done|].
      eapply iomap_ok_other; [apply Hok|exact Hoth|congruence|].
      intros evts fd. rewrite Hme. destruct (r =? -1); [done|]. by intros [= <- <-].
    + destruct (Z.eqb_spec r (-1)) as [->|Hr].
      * intros x sig Hsig. rewrite Hup, decide_False by naive_solver.
        destruct (decide (x = e)) as [->|Hne]; [|by rewrite Hoth; [apply (ok_sig _ Hok)|]].
        rewrite Hme. pose proof (ok_sig _ Hok e sig Hsig) as Hs. rewrite Hv in Hs. rewrite Hs.
        naive_solver.
      * eapply sigmap_ok_add; [apply Hok|done|exact Hme|done|done|]. intros sig'. rewrite Hup.
        destruct (decide (sig' = ev_fd ev)); [by rewrite decide_True|by rewrite decide_False by naive_solver].
Qed.

Lemma registers_flags ev : registers ev = true →
  ev_events ev &? EV_RWCS = true ∧ ev_flags ev &? EVLIST_INSERTED = false ∧
  ev_flags ev &? EVLIST_ACTIVE = false ∧ ev_flags ev &? EVLIST_ACTIVE_LATER = false.
Proof.
  unfold registers. rewrite !flag_orb. intros [? Hn]%andb_prop.
  destruct (ev_flags ev &? EVLIST_INSERTED), (ev_flags ev &? EVLIST_ACTIVE),
    (ev_flags ev &? EVLIST_ACTIVE_LATER); done.
Qed.

Lemma add_registration_spec b e ev :
  base_ok b → get_ev b e = Some ev → ev_flags ev &? EVLIST_FINALIZING = false →
  ∃ b' res, add_registration b e ev = Some (b', res) ∧ base_ok b' ∧ env_part b' = env_part b ∧
    b_timeheap b' = b_timeheap b ∧
    ((res = -1 ∧ registers ev = true ∧ b_evs b' = b_evs b) ∨
     (res = 0 ∧ b_evs b' = if registers ev then alter (add_flag EVLIST_INSERTED) e (b_evs b)
                           else b_evs b)).
Proof.
  intros Hok He Hfin. pose proof (ok_evs _ Hok _ _ He) as Hwf.
  unfold add_registration. fold (registers ev). destruct (registers ev) eqn:Hreg.
  2:{ exists b, 0. split_and!; auto. }
  destruct (registers_flags _ Hreg) as (Hev & Hins & Ha & Hl).
  destruct (add_to_map_spec b e ev Hok He Hins Hev) as (b1 & r & -> & Hr & Hm1 & Henv & Hh & Hmaps & Hst).
  cbn [mbind option_bind]. unfold get_ev in He.
  assert (Hv : insv (b_evs b) e = None).
  { unfold insv. rewrite He. simpl. unfold insv1. by rewrite Hins. }
  unfold struct_part in Hst. simpl in Hst. injection Hst as _ E2 E3 E4 _ E8 E9.
  destruct (Z.eqb_spec r (-1)) as [->|Hne]; simpl.
  { exists b1, (-1). split_and!; [done| |done|done|by left].
    destruct (Hmaps (b_evs b)) as [Hio Hsm]; [done|done|by rewrite Hv|].
    destruct Hok as [H1 H2 H3 H4 H5 H6 H7 H8 H9 H10]. unfold get_ev, queued, n_common_timeouts,
      nactivequeues in *.
    split; unfold get_ev, queued, n_common_timeouts, nactivequeues;
      rewrite ?Hm1, ?E2, ?E3, ?E4, ?Hh, ?E8, ?E9; done. }
  unfold event_queue_insert_inserted, get_ev. rewrite Hm1, He. cbn [mbind option_bind]. rewrite Hins.
  cbn [mbind option_bind].
  assert ((if r =? 1 then 0 else r) = 0) as -> by (destruct (Z.eqb_spec r 1); [done|lia]).
  eexists _, 0. split_and!; [done| |done|done|right; split; [done|simpl; by rewrite Hm1]].
  set (m' := alter (add_flag EVLIST_INSERTED) e (b_evs b)).
  assert (Hm'v : insv m' e = Some (ev_events ev, ev_fd ev)).
  { subst m'. rewrite (insv_alter _ _ _ _ He), decide_True by done. unfold insv1, add_flag.
    simpl. by flags. }
  destruct (Hmaps m') as [Hio Hsm].
  { intros x. subst m'. by apply (events_of_alter _ _ _ _ He). }
  { intros x Hx. subst m'. by rewrite (insv_alter _ _ _ _ He), decide_False. }
  { done. }
  split; unfold n_common_timeouts, nactivequeues, get_ev, queued; simpl;
    rewrite ?Hm1, ?E2, ?E3, ?E4, ?Hh, ?E8, ?E9; fold m';
    [subst m'; part Hok He..|done|done| |apply Hok| |subst m'; part Hok He].
  - apply (ev_wf_alter b e ev); [done|done|]. apply wf_add; [in_list|done|auto| |done|done].
    intros _ Hrwc. rewrite flag_rwcs, Hrwc in Hev. done.
  - subst m'. rewrite (total_alter _ _ _ _ He), wt1_add by (in_list || done).
    rewrite (ok_count _ Hok). lia.
Qed.

(** ** Setting the timeout *)

(** The active event is taken back only if it is active because of its timeout. *)
Definition takes_back ev : bool := (ev_flags ev &? EVLIST_ACTIVE) && (ev_res ev &? EV_TIMEOUT).

Lemma cancel_active_spec b e ev :
  base_ok b → get_ev b e = Some ev → (takes_back ev = true → frame_ok b ev) →
  ∃ b' fr, cancel_active_timeout b e = Some b' ∧ base_ok b' ∧
    meq (b_evs b') (alter (if takes_back ev then clear_flag EVLIST_ACTIVE else id) e (b_evs b)) ∧
    env_part b' = env_part (set_b_frames fr b) ∧ same_frames (b_frames b) fr.
Proof.
  intros Hok He Hfr. unfold cancel_active_timeout. rewrite He. cbn [mbind option_bind].
  fold (takes_back ev). destruct (takes_back ev) eqn:Ht.
  2:{ exists b, (b_frames b). rewrite set_frames_id. split_and!; [done|done| |done|done].
      intros x. by rewrite alter_id. }
  apply andb_prop in Ht as [Ha _].
  destruct (abort_signal_spec b ev (Hfr eq_refl)) as (fr & -> & Hsame & _). cbn [mbind option_bind].
  destruct (remove_active_spec (set_b_frames fr b) e ev) as (b' & -> & Hok' & Hm & Henv);
    [by apply base_ok_frames|done|done|].
  exists b', fr. done.
Qed.

(** A deadline computed from normalised times is not a common timeout. *)
Lemma norm_not_common n t : tv_norm t → common_at n t = false.
Proof.
  unfold tv_norm, common_at. intros Ht.
  assert (Z.land (tv_usec t) COMMON_TIMEOUT_MASK = 0) as ->; [|done].
  apply Z.bits_inj'. intros k Hk. rewrite Z.land_spec, Z.bits_0.
  destruct (decide (20 <= k)) as [Hge|Hlt].
  - rewrite (Z.bits_above_log2 (tv_usec t)); [done|lia|].
    destruct (decide (tv_usec t = 0)) as [->|]; [simpl; lia|].
    assert (Z.log2 (tv_usec t) < 20); [|lia]. apply Z.log2_lt_pow2; lia.
  - assert (Z.testbit COMMON_TIMEOUT_MASK k = false) as ->; [|apply andb_false_r].
    assert (k = 0 ∨ k = 1 ∨ k = 2 ∨ k = 3 ∨ k = 4 ∨ k = 5 ∨ k = 6 ∨ k = 7 ∨ k = 8 ∨ k = 9 ∨
      k = 10 ∨ k = 11 ∨ k = 12 ∨ k = 13 ∨ k = 14 ∨ k = 15 ∨ k = 16 ∨ k = 17 ∨ k = 18 ∨ k = 19)
      as Hk' by lia.
    repeat destruct Hk' as [->|Hk']; try done. by subst.
Qed.

(** What [gettime] depends on. *)
Definition time_part b := (tv_cache b, b_world b, monotonic_timer b, last_updated_clock_diff b).

Lemma gettime_same b b' bt now :
  gettime b = Some (bt, Some now) → time_part b' = time_part b →
  ∃ bt', gettime b' = Some (bt', Some now) ∧ struct_part bt' = struct_part b' ∧
    b_frames bt' = b_frames b'.
Proof.
  unfold time_part. intros Hg Heq. injection Heq as E1 E2 E3 E4.
  assert (∃ bt', gettime b' = Some (bt', Some now)) as [bt' Hg'].
  { revert Hg. unfold gettime. rewrite E1, E2.
    case_match; [intros [= <- <-]; eauto|]. destruct (env_clock (b_world b)) as [w [tod mono]].
    simpl. rewrite E3. destruct (evutil_gettime_monotonic_ _ _ _) as [[timer tp]|]; [|done].
    rewrite E4. simpl. case_match; [|intros [= <- <-]; eauto].
    destruct (env_clock w) as [w' [tod' ?]]. destruct tod'; [|done]. simpl. intros [= <- <-]. eauto. }
  exists bt'. destruct (gettime_struct _ _ _ Hg'). done.
Qed.

Lemma env_time b b' fr : env_part b' = env_part (set_b_frames fr b) → time_part b' = time_part b.
Proof. unfold env_part, time_part. simpl. congruence. Qed.

(** What adding a timeout does to the flags. *)
Definition timed ev : event :=
  add_flag EVLIST_TIMEOUT
    ((if takes_back ev then clear_flag EVLIST_ACTIVE else id) (clear_flag EVLIST_TIMEOUT ev)).

(** The event waits in the heap, or there is room in it. *)
Definition room b e ev : Prop :=
  if ev_flags ev &? EVLIST_TIMEOUT then e ∈ elems (b_timeheap b)
  else Z.of_nat (hn (b_timeheap b)) < ha (b_timeheap b).

Lemma heap_capacity b : base_ok b → Z.of_nat (hn (b_timeheap b)) <= ha (b_timeheap b).
Proof. intros Hok. destruct (ok_heap _ Hok) as [[Hn Ha _ _] _]. lia. Qed.

Lemma not_timeout_not_in_heap b e ev :
  base_ok b → get_ev b e = Some ev → ev_flags ev &? EVLIST_TIMEOUT = false →
  e ∉ elems (b_timeheap b).
Proof. intros Hok He Hf Hin. destruct (heap_member b e ev Hok Hin He). congruence. Qed.

(** Taking the event off the timeout and active queues leaves room in the heap. *)
Lemma add_timeout_prepare b e ev :
  base_ok b → get_ev b e = Some ev → (takes_back ev = true → frame_ok b ev) → room b e ev →
  ∃ b1 b2 fr,
    (if ev_flags ev &? EVLIST_TIMEOUT then event_queue_remove_timeout b e else Some b) = Some b1 ∧
    cancel_active_timeout b1 e = Some b2 ∧ base_ok b2 ∧
    meq (b_evs b2) (alter ((if takes_back ev then clear_flag EVLIST_ACTIVE else id) ∘
      clear_flag EVLIST_TIMEOUT) e (b_evs b)) ∧
    env_part b2 = env_part (set_b_frames fr b) ∧ same_frames (b_frames b) fr ∧
    Z.of_nat (hn (b_timeheap b2)) < ha (b_timeheap b2).
Proof.
  intros Hok He Hfr Hroom.
  destruct (optional_queue_op b e ev EVLIST_TIMEOUT (event_queue_remove_timeout b e) Hok He
    (remove_timeout_spec b e ev Hok He)) as (b1 & -> & Hok1 & Hm1 & Henv1).
  destruct (meq_get b1 _ e _ ev Hm1 He) as (ev1 & He1 & Hr1).
  assert (Htb : takes_back ev1 = takes_back ev).
  { unfold takes_back. rewrite (rest_flags _ _ Hr1).
    rewrite (f_equal ev_res Hr1 : ev_res ev1 = ev_res ev). simpl. by flags. }
  assert (Hfr1 : takes_back ev1 = true → frame_ok b1 ev1).
  { rewrite Htb. intros Ht. specialize (Hfr Ht). unfold frame_ok, ev_ncalls, ev_pncalls in *.
    rewrite (f_equal ev_events Hr1 : ev_events ev1 = ev_events ev),
      (f_equal ev_w0 Hr1 : ev_w0 ev1 = ev_w0 ev), (f_equal ev_w1 Hr1 : ev_w1 ev1 = ev_w1 ev).
    by rewrite (env_part_frames _ _ Henv1). }
  destruct (cancel_active_spec b1 e ev1 Hok1 He1 Hfr1) as (b2 & fr & Hc & Hok2 & Hm2 & Henv2 & Hsf).
  rewrite Htb in Hm2. exists b1, b2, fr.
  assert (Hrest : Restful (if takes_back ev then clear_flag EVLIST_ACTIVE else id))
    by (destruct (takes_back ev); [apply _|by intros ??]).
  pose proof (meq_compose _ _ _ _ _ _ Hrest Hm1 Hm2) as Hm12.
  assert (Henv : env_part b2 = env_part (set_b_frames fr b)).
  { rewrite Henv2. revert Henv1. clear. unfold env_part. simpl. congruence. }
  split_and!; [done|done|done|done|done|by rewrite <- (env_part_frames _ _ Henv1)|].
  destruct (meq_get b2 _ e _ ev Hm12 He) as (ev2 & He2 & Hr2).
  assert (Hnin : e ∉ elems (b_timeheap b2)).
  { apply (not_timeout_not_in_heap b2 e ev2 Hok2 He2). rewrite (rest_flags _ _ Hr2).
    unfold compose. destruct (takes_back ev); simpl; by flags. }
  assert (Hncm : n_common_timeouts b2 = n_common_timeouts b)
    by (rewrite (env_part_ncommon _ _ Henv); done).
  pose proof (elems_without b b2 e Hok Hok2 Hncm Hnin (meq_alter_except _ _ _ _ Hm12)) as Hel.
  destruct (elems_shrink b b2 e Hok Hok2 Hel) as [Hle Hlt].
  assert (Hha : ha (b_timeheap b2) = ha (b_timeheap b)) by (unfold env_part in Henv; simpl in Henv; congruence).
  pose proof (heap_capacity b Hok). unfold room in Hroom.
  destruct (ev_flags ev &? EVLIST_TIMEOUT); [specialize (Hlt Hroom)|]; lia.
Qed.

(** What is left in memory when the timeout [d] of the event was set. *)
Definition timeout_set b e ev (d : timeval) b' : Prop :=
  base_ok b' ∧ meq_except e (b_evs b) (b_evs b') ∧ n_common_timeouts b' = n_common_timeouts b ∧
  ∃ ev', get_ev b' e = Some ev' ∧ ev_flags ev' = ev_flags (timed ev) ∧ ev_timeout ev' = d ∧
    ev_events ev' = ev_events ev ∧ ev_pri ev' = ev_pri ev ∧ ev_res ev' = ev_res ev.

(** A relative timeout of a persistent event is remembered. *)
Definition remembers ev (tv : timeval) (absolute : bool) : event → event :=
  if (ev_closure ev =? EV_CLOSURE_EVENT_PERSIST) && negb absolute
  then set_ev_io_timeout tv else id.

Lemma persist_timeout_neutral ev (tv : timeval) (absolute : bool) :
  neutral (remembers ev tv absolute).
Proof. unfold remembers. case_match; done. Qed.

(** Neither the timeout asked for nor the deadline is a common one. *)
Definition not_common b (now tv : timeval) (absolute : bool) : Prop :=
  common_at (n_common_timeouts b) tv = false ∧
  common_at (n_common_timeouts b) (if absolute then tv else evutil_timeradd now tv) = false.

(** If the event is taken off the active queue, the pointer through which its
    callback can be told to stop must be live. *)
Definition frame_ok_add b ev (tv : timeval) (absolute : bool) : Prop :=
  takes_back ev = true → frame_ok b (remembers ev tv absolute ev).

(** What adding an event keeps of the base and of the event; a persistent event
    remembers its new timeout. *)
Definition add_keeps b e ev (tv : option timeval) (absolute : bool) b' : Prop :=
  conf b' = conf b ∧ ∀ ev', get_ev b' e = Some ev' → ev_closure ev' = ev_closure ev ∧ ev_events ev' = ev_events ev ∧
    (ev_io_timeout ev' = ev_io_timeout ev ∨ tv = Some (ev_io_timeout ev') ∧ absolute = false).

Lemma add_timeout_spec sched b e ev tv absolute bt now :
  base_ok b → get_ev b e = Some ev → ev_flags ev &? EVLIST_FINALIZING = false →
  frame_ok_add b ev tv absolute → room b e ev → not_common b now tv absolute →
  gettime b = Some (bt, Some now) →
  ∃ b', add_timeout sched b e tv absolute = Some b' ∧
    timeout_set b e ev (if absolute then tv else evutil_timeradd now tv) b' ∧ add_keeps b e ev (Some tv) absolute b'.
Proof.
  intros Hok He Hfin Hfr Hroom [Htv Hd] Hgt. pose proof (ok_evs _ Hok _ _ He) as Hwf.
  unfold frame_ok_add in Hfr. unfold add_timeout. rewrite He. cbn [mbind option_bind].
  set (f0 := remembers ev tv absolute) in *.
  assert (Hb0 : (if (ev_closure ev =? EV_CLOSURE_EVENT_PERSIST) && negb absolute
    then upd_ev e (set_ev_io_timeout tv) b else b) = upd_ev e f0 b).
  { subst f0. unfold remembers. destruct (_ && _); [done|]. unfold upd_ev. rewrite alter_id by done.
    by destruct b. }
  rewrite Hb0. set (b0 := upd_ev e f0 b).
  assert (Hok0 : base_ok b0) by (apply base_ok_neutral; [apply persist_timeout_neutral|done]).
  assert (He0 : get_ev b0 e = Some (f0 ev)).
  { unfold get_ev in *. simpl. by rewrite lookup_alter_eq, He. }
  destruct (persist_timeout_neutral ev tv absolute ev) as (Ef & Ep & _ & Ee & _).
  fold f0 in Ef, Ep, Ee. assert (Ec : ev_closure (f0 ev) = ev_closure ev) by (subst f0; unfold remembers; by case_match).
  assert (Eio : ev_io_timeout (f0 ev) = ev_io_timeout ev ∨ Some tv = Some (ev_io_timeout (f0 ev)) ∧ absolute = false).
  { subst f0. unfold remembers. destruct (_ && _) eqn:Hc; [right|by left]. apply andb_prop in Hc as [_ ?%negb_true_iff]. by destruct tv. }
  assert (Er : ev_res (f0 ev) = ev_res ev) by (subst f0; unfold remembers; by case_match).
  assert (Hfr0 : takes_back (f0 ev) = true → frame_ok b0 (f0 ev)).
  { unfold takes_back. rewrite Ef, Er. apply Hfr. }
  assert (Hroom0 : room b0 e (f0 ev)) by (unfold room in *; rewrite Ef; exact Hroom).
  clear Hb0. clearbody f0.
  destruct (add_timeout_prepare b0 e (f0 ev) Hok0 He0 Hfr0 Hroom0)
    as (b1 & b2 & fr & Hrm & Hca & Hok2 & Hm2 & Henv2 & Hsf & Hcap).
  rewrite Ef in Hrm. rewrite Hrm. cbn [mbind option_bind]. rewrite Hca. cbn [mbind option_bind].
  unfold gettime_ok. destruct (gettime_same b b2 bt now Hgt) as (b3 & Hgt3 & Hst3 & Hfr3).
  { rewrite (env_time _ _ _ Henv2). done. }
  pose proof (gettime_conf _ _ _ Hgt3) as Hcf3. rewrite Hgt3. cbn [mbind option_bind].
  assert (Hok3 : base_ok b3) by (by eapply base_ok_struct).
  assert (Hm3 : b_evs b3 = b_evs b2) by (unfold struct_part in Hst3; congruence).
  assert (Hh3 : b_timeheap b3 = b_timeheap b2) by (unfold struct_part in Hst3; congruence).
  change (is_common_timeout tv b3) with (common_at (n_common_timeouts b3) tv).
  assert (Hnc : n_common_timeouts b3 = n_common_timeouts b).
  { transitivity (n_common_timeouts b2); [|by rewrite (env_part_ncommon _ _ Henv2)].
    unfold n_common_timeouts. unfold struct_part in Hst3. congruence. }
  rewrite Hnc, Htv.
  set (d := deadline false now tv absolute).
  assert (Hdc : common_at (n_common_timeouts b) d = false) by (subst d; by destruct absolute).
  destruct (meq_get b2 _ e _ (f0 ev) Hm2 He0) as (ev2 & He2 & Hr2).
  assert (He3 : get_ev b3 e = Some ev2) by (unfold get_ev in *; congruence).
  assert (Hf2 : ev_flags ev2 &? EVLIST_TIMEOUT = false).
  { rewrite (rest_flags _ _ Hr2). unfold compose. destruct (takes_back (f0 ev)); simpl; by flags. }
  set (b4 := upd_ev e (set_ev_timeout d) b3).
  assert (Hok4 : base_ok b4) by (by eapply base_ok_set_timeout).
  assert (He4 : get_ev b4 e = Some (set_ev_timeout d ev2)).
  { unfold get_ev in *. simpl. by rewrite lookup_alter_eq, He3. }
  destruct (insert_timeout_spec b4 e (set_ev_timeout d ev2) Hok4 He4 Hf2)
    as (b5 & -> & Hok5 & Hm5 & Henv5).
  { simpl. rewrite (rest_flags _ _ Hr2). unfold compose. destruct (takes_back (f0 ev)); simpl; flags;
      by rewrite Ef. }
  { change (b_timeheap b4) with (b_timeheap b3). by rewrite Hh3. }
  { change (n_common_timeouts b4) with (n_common_timeouts b3). simpl. by rewrite Hnc, Hdc. }
  cbn [mbind option_bind]. exists b5.
  assert (Hd' : d = if absolute then tv else evutil_timeradd now tv) by done.
  destruct (meq_get b5 _ e _ _ Hm5 He4) as (ev5 & He5 & Hr5).
  split; [done|]. split.
  2:{ split; [rewrite (env_conf _ _ Henv5); change (conf b4) with (conf b3); rewrite Hcf3; exact (env_conf _ _ Henv2)|].
      intros ev' He'. rewrite He5 in He'. injection He' as <-.
      assert (Hr : ∀ {A} (f : event → A), (∀ y, f (rest y) = f y) → (∀ y k, f (set_ev_flags k y) = f y) → (∀ y, f (set_ev_timeout d y) = f y) → f ev5 = f (f0 ev)).
      { intros A f Hg1 Hg2 Hg3. rewrite <- Hg1, Hr5, Hg1. unfold add_flag. rewrite Hg2, Hg3, <- Hg1, Hr2, Hg1. unfold compose, clear_flag, id. destruct (takes_back (f0 ev)); cbv beta; by rewrite ?Hg2. }
      rewrite (Hr _ ev_closure), (Hr _ ev_events), (Hr _ ev_io_timeout) by done. by rewrite Ec, Ee. }
  unfold timeout_set.
  split_and!; [done| |by rewrite (env_part_ncommon _ _ Henv5), <- Hnc|].
  - intros x Hx. rewrite Hm5, lookup_alter_ne by done. simpl. rewrite lookup_alter_ne, Hm3 by done.
    rewrite Hm2, lookup_alter_ne by done. simpl. by rewrite lookup_alter_ne.
  - exists ev5. split_and!; [done| | | | |].
    + rewrite (rest_flags _ _ Hr5). simpl. rewrite (rest_flags _ _ Hr2). unfold timed, takes_back, compose.
      rewrite Ef, Er. destruct (_ && _); simpl; rewrite ?Ef; done.
    + rewrite (f_equal ev_timeout Hr5 : ev_timeout ev5 = d). done.
    + rewrite (f_equal ev_events Hr5 : ev_events ev5 = ev_events ev2).
      rewrite (f_equal ev_events Hr2 : ev_events ev2 = _). unfold compose.
      destruct (takes_back (f0 ev)); simpl; done.
    + rewrite (f_equal ev_pri Hr5 : ev_pri ev5 = ev_pri ev2).
      rewrite (f_equal ev_pri Hr2 : ev_pri ev2 = _). unfold compose.
      destruct (takes_back (f0 ev)); simpl; done.
    + rewrite (f_equal ev_res Hr5 : ev_res ev5 = ev_res ev2).
      rewrite (f_equal ev_res Hr2 : ev_res ev2 = _). unfold compose.
      destruct (takes_back (f0 ev)); simpl; done.
Qed.

Lemma set_timeheap_b b : set_b_timeheap (b_timeheap b) b = b.
Proof. by destruct b. Qed.

(** The outcome of [event_add_nolock_]: -1 and no event changed, or 0 with the
    event registered and its timeout set. *)
Definition add_outcome_ok b e ev (tv : option timeval) (absolute : bool) (now : timeval) b' (r : Z)
    : Prop :=
  base_ok b' ∧ n_common_timeouts b' = n_common_timeouts b ∧
  ((r = -1 ∧ b_evs b' = b_evs b) ∨
   (r = 0 ∧ meq_except e (b_evs b) (b_evs b') ∧
    ∃ ev', get_ev b' e = Some ev' ∧
      let ev1 := if registers ev then add_flag EVLIST_INSERTED ev else ev in
      match tv with
      | None => ev' = ev1
      | Some tv =>
        ev_flags ev' = ev_flags (timed ev1) ∧
        ev_timeout ev' = (if absolute then tv else evutil_timeradd now tv)
      end)).

(** Reserving a place in the heap. *)
Lemma add_reserve b e ev (tv : option timeval) h r :
  base_ok b → (is_Some tv → ev_flags ev &? EVLIST_TIMEOUT = true → e ∈ elems (b_timeheap b)) →
  (if bool_decide (is_Some tv) && negb (ev_flags ev &? EVLIST_TIMEOUT)
   then min_heap_reserve_ env_realloc_ok (b_timeheap b) (1 + min_heap_size_ (b_timeheap b))
   else (b_timeheap b, 0)) = (h, r) →
  r = -1 ∨ (r = 0 ∧ base_ok (set_b_timeheap h b) ∧ (is_Some tv → room (set_b_timeheap h b) e ev)).
Proof.
  intros Hok Hwait Hres. unfold room.
  destruct tv as [t|]; [destruct (ev_flags ev &? EVLIST_TIMEOUT) eqn:Hf|]; simpl in Hres.
  - simplify_eq. right. rewrite set_timeheap_b. split_and!; auto.
  - destruct (reserve_base b h r Hok Hres) as [->|(-> & ? & ? & ?)]; [by left|right]. split_and!; auto.
  - simplify_eq. right. rewrite set_timeheap_b. split_and!; auto. by intros [? ?].
Qed.

(** What registering leaves alone. *)
Lemma registered_same ev :
  let f1 := if registers ev then add_flag EVLIST_INSERTED else id in
  ev_flags (f1 ev) &? EVLIST_FINALIZING = ev_flags ev &? EVLIST_FINALIZING ∧
  ev_flags (f1 ev) &? EVLIST_TIMEOUT = ev_flags ev &? EVLIST_TIMEOUT ∧
  takes_back (f1 ev) = takes_back ev ∧ ev_closure (f1 ev) = ev_closure ev ∧
  ev_events (f1 ev) = ev_events ev ∧ ev_w0 (f1 ev) = ev_w0 ev ∧ ev_w1 (f1 ev) = ev_w1 ev.
Proof. unfold takes_back. destruct (registers ev); simpl; flags; done. Qed.

Lemma frame_ok_add_registered b b' ev ev' tv absolute :
  ev_closure ev' = ev_closure ev → takes_back ev' = takes_back ev → ev_events ev' = ev_events ev →
  ev_w0 ev' = ev_w0 ev → ev_w1 ev' = ev_w1 ev → b_frames b' = b_frames b →
  frame_ok_add b ev tv absolute → frame_ok_add b' ev' tv absolute.
Proof.
  unfold frame_ok_add, remembers, frame_ok. intros -> -> He H0 H1 ->.
  destruct (_ && _); simpl; unfold ev_ncalls, ev_pncalls; simpl; by rewrite ?He, ?H0, ?H1.
Qed.

Lemma event_add_spec b e ev tv absolute bt now :
  base_ok b → get_ev b e = Some ev → ev_flags ev &? EVLIST_FINALIZING = false →
  (is_Some tv → ev_flags ev &? EVLIST_TIMEOUT = true → e ∈ elems (b_timeheap b)) →
  (∀ t, tv = Some t → frame_ok_add b ev t absolute ∧ not_common b now t absolute) →
  gettime b = Some (bt, Some now) →
  ∃ b' r, event_add_nolock_ b e tv absolute = Some (b', r) ∧
    add_outcome_ok b e ev tv absolute now b' r ∧ add_keeps b e ev tv absolute b'.
Proof.
  intros Hok He Hfin Hwait Htv Hgt. pose proof (ok_evs _ Hok _ _ He) as Hwf.
  unfold event_add_nolock_, event_add_body. rewrite He. cbn [mbind option_bind].
  rewrite evassert_true by (apply negb_true_iff, Hwf). cbn [mbind option_bind]. rewrite Hfin.
  destruct (if bool_decide (is_Some tv) && _ then _ else _) as [h r] eqn:Hres.
  destruct (add_reserve b e ev tv h r Hok Hwait Hres) as [->|(-> & Hokh & Hroom)].
  { exists b, (-1). split; [done|]. split; [split_and!; [done|done|by left]|]. split; [done|]. intros ev' He'. rewrite He in He'. injection He' as <-. by auto. }
  simpl. set (b0 := set_b_timeheap h b).
  destruct (add_registration_spec b0 e ev Hokh He Hfin) as (b1 & res & -> & Hok1 & Henv1 & Hh1 & Hres1).
  assert (Hn1 : n_common_timeouts b1 = n_common_timeouts b) by (by rewrite (env_part_ncommon _ _ Henv1)).
  cbn [mbind option_bind].
  destruct Hres1 as [(-> & _ & Hm1)|(-> & Hm1)].
  { assert (add_keeps b e ev tv absolute b1).
    { split; [exact (env_conf _ _ Henv1)|]. intros ev' He'. unfold get_ev in *. rewrite Hm1 in He'. cbn in He'. rewrite He in He'. injection He' as <-. by auto. }
    destruct tv; (exists b1, (-1); split; [done|split; [split_and!; [done|done|by left]|done]]). }
  pose proof (registered_same ev) as Hsame. cbv zeta in Hsame.
  set (f1 := if registers ev then add_flag EVLIST_INSERTED else id) in *.
  assert (Hm1' : b_evs b1 = alter f1 e (b_evs b)).
  { rewrite Hm1. subst f1. case_match; [done|]. by rewrite alter_id. }
  assert (He1 : get_ev b1 e = Some (f1 ev)).
  { unfold get_ev in *. by rewrite Hm1', lookup_alter_eq, He. }
  assert (Hf1 : (if registers ev then add_flag EVLIST_INSERTED ev else ev) = f1 ev)
    by (subst f1; by case_match).
  assert (Hex1 : meq_except e (b_evs b) (b_evs b1)).
  { intros x Hx. by rewrite Hm1', lookup_alter_ne. }
  destruct Hsame as (N1 & N2 & N3 & N4 & N5 & N6 & N7). clearbody f1.
  destruct tv as [t|].
  2:{ exists b1, 0. split; [done|]. split; [split_and!; [done|done|]; right; split_and!; [done|done|]; exists (f1 ev); by rewrite Hf1|].
      split; [exact (env_conf _ _ Henv1)|]. intros ev' He'. rewrite He1 in He'. injection He' as <-. unfold ev_io_timeout. rewrite N4, N5, N6, N7. auto. }
  assert (Hfrm : b_frames b1 = b_frames b) by (unfold env_part in Henv1; simpl in Henv1; congruence).
  destruct (gettime_same b b1 bt now Hgt) as (bt1 & Hgt1 & _).
  { unfold env_part, time_part in *. simpl in Henv1. congruence. }
  destruct (Htv t eq_refl) as [Hfr Hnc].
  destruct (add_timeout_spec common_timeout_schedule b1 e (f1 ev) t absolute bt1 now)
    as (b' & Hadd & (Hok' & Hex' & Hn' & ev' & He' & Hfl & Ht & _) & Hcf' & Hkeep); try done; [by rewrite N1| | | |].
  { by apply (frame_ok_add_registered b b1 ev). }
  { specialize (Hroom (ex_intro _ t eq_refl)). unfold room in *. by rewrite N2, Hh1. }
  { unfold not_common in *. by rewrite Hn1. }
  simpl. rewrite Hadd. cbn [mbind option_bind]. exists b', 0. split; [done|]. split.
  - split_and!; [done|congruence|]. right. split_and!; [done|by eapply meq_except_trans|]. exists ev'. by rewrite Hf1.
  - split; [rewrite Hcf'; exact (env_conf _ _ Henv1)|]. intros ev2 He2. specialize (Hkeep ev2 He2). revert Hkeep.
    rewrite N4, N5. unfold ev_io_timeout at 2. rewrite N6, N7. done.
Qed.

Lemma event_add_finalizing b e ev tv absolute : base_ok b → get_ev b e = Some ev → ev_flags ev &? EVLIST_FINALIZING = true →
  event_add_nolock_ b e tv absolute = Some (b, -1).
Proof.
  intros Hok He Hfin. unfold event_add_nolock_, event_add_body. rewrite He. cbn [mbind option_bind].
  rewrite evassert_true by (apply negb_true_iff, (ok_evs _ Hok _ _ He)). cbn [mbind option_bind]. by rewrite Hfin.
Qed.

(** C1. [event_add_nolock_] of an event that is not on the queue of a common
    timeout and is no persistent event for a signal, with no timeout or a normalised
    one whose deadline fits a time_t, on a consistent base whose clock can be read: it
    fails no assertion and corrupts no queue.
    It returns -1 without changing any event (the event is being finalized, there is no
    memory, or the map or backend refused), or 0; then the event is registered for its
    conditions if it has any
    and was neither registered nor active, and with a timeout it waits for that
    deadline (now plus [tv], or [tv] itself), taken off the active queue if it was
    active because of its previous timeout.  No other event changes and the base
    is consistent.  Descriptors are below 2^27, which is part of consistency. *)
Theorem event_add_correct b e ev tv absolute bt now :
  base_ok b → get_ev b e = Some ev →
  frame_ok b ev → (ev_closure ev = EV_CLOSURE_EVENT_PERSIST → ev_events ev &? EV_SIGNAL = false) →
  (ev_flags ev &? EVLIST_TIMEOUT = true → e ∈ elems (b_timeheap b)) →
  (∀ t, tv = Some t → tv_norm t ∧ (absolute = false → add_fits now t)) → tv_norm now → gettime b = Some (bt, Some now) →
  ∃ b' r, event_add_nolock_ b e tv absolute = Some (b', r) ∧
    add_outcome_ok b e ev tv absolute now b' r ∧
    (ev_flags ev &? EVLIST_FINALIZING = true → r = -1) ∧
    (r = 0 → ∀ t ev', tv = Some t → get_ev b' e = Some ev' →
      tv_us (ev_timeout ev') = (if absolute then 0 else tv_us now) + tv_us t).
Proof.
  intros Hok He Hfr Hcl Hwait Htv Hnow Hgt. destruct (ev_flags ev &? EVLIST_FINALIZING) eqn:Hfin.
  { exists b, (-1). split; [by apply event_add_finalizing with ev|]. split; [split_and!; [done|done|by left]|done]. }
  destruct (event_add_spec b e ev tv absolute bt now) as (b' & r & Heq & Hout & _); [exact Hok|exact He|exact Hfin|by intros _| |exact Hgt|].
  - intros t Ht. destruct (Htv t Ht) as [Hn _]. split.
    + intros _. unfold remembers. destruct (_ && _) eqn:Hc; [|done].
      apply andb_prop in Hc as [Hc%Z.eqb_eq _]. intros Hs. simpl in Hs. by rewrite (Hcl Hc) in Hs.
    + split; apply norm_not_common; [done|]. destruct absolute; [done|by apply timeradd_norm].
  - exists b', r. split; [done|]. split; [done|]. split; [done|]. intros -> t ev' -> He'.
    destruct (Htv t eq_refl) as [Hn Hfits]. destruct Hout as (_ & _ & [[? _]|(_ & _ & ev1 & He1 & _ & Hd)]); [done|].
    rewrite He' in He1. injection He1 as <-. rewrite Hd. destruct absolute; [lia|]. apply timeradd_us; auto.
Qed.
End add.
