(* ===== verification/EventConfig.v ===== *)
(** * Configuring and creating an event base (event.c, evutil_time.c)

    [struct event_config] and its setters, the choice of the backend and
    [event_base_new_with_config] without thread support.  The table of backends
    [eventops], the environment variables and the clocks are parameters. *)

From S2P Require Import Prelude TimeVal MinHeap EvMap EventBase EventCore EventInv EventProps.
From S2P Require Import Util.

Abbreviation EVENT_BASE_FLAG_IGNORE_ENV := 0x02.
Abbreviation EVENT_BASE_FLAG_PRECISE_TIMER := 0x20.
Abbreviation EV_MONOT_PRECISE := 1.
Abbreviation EV_MONOT_FALLBACK := 2.
Abbreviation CLOCK_MONOTONIC := 1.
Abbreviation CLOCK_MONOTONIC_COARSE := 6.

(** ** The configuration *)

Record event_config := mk_config {
  cfg_entries : list bytes;
  cfg_n_cpus_hint : Z;
  cfg_max_dispatch_interval : timeval;
  cfg_max_dispatch_callbacks : Z;
  cfg_limit_callbacks_after_prio : Z;
  cfg_require_features : Z;
  cfg_flags : Z
}.

Definition event_config_new (calloc_ok : bool) : option event_config :=
  if negb calloc_ok then None else
  Some (mk_config [] 0 (mk_timeval (-1) 0) INT_MAX 1 0 0).

(** The setters take a pointer that may be NULL. *)
Definition event_config_set_flag (cfg : option event_config) (flag : Z)
    : option event_config * Z :=
  match cfg with
  | None => (None, -1)
  | Some cfg => (Some (mk_config (cfg_entries cfg) (cfg_n_cpus_hint cfg)
      (cfg_max_dispatch_interval cfg) (cfg_max_dispatch_callbacks cfg)
      (cfg_limit_callbacks_after_prio cfg) (cfg_require_features cfg)
      (Z.lor (cfg_flags cfg) flag)), 0)
  end.

(** [malloc_ok] and [strdup_ok]: whether the two allocations succeed. *)
Definition event_config_avoid_method (malloc_ok strdup_ok : bool) (cfg : event_config)
    (method : bytes) : event_config * Z :=
  if negb malloc_ok then (cfg, -1) else
  if negb strdup_ok then (cfg, -1) else
  (mk_config (cfg_entries cfg ++ [method]) (cfg_n_cpus_hint cfg) (cfg_max_dispatch_interval cfg)
    (cfg_max_dispatch_callbacks cfg) (cfg_limit_callbacks_after_prio cfg)
    (cfg_require_features cfg) (cfg_flags cfg), 0).

Definition event_config_require_features (cfg : option event_config) (features : Z)
    : option event_config * Z :=
  match cfg with
  | None => (None, -1)
  | Some cfg => (Some (mk_config (cfg_entries cfg) (cfg_n_cpus_hint cfg)
      (cfg_max_dispatch_interval cfg) (cfg_max_dispatch_callbacks cfg)
      (cfg_limit_callbacks_after_prio cfg) features (cfg_flags cfg)), 0)
  end.

Definition event_config_set_num_cpus_hint (cfg : option event_config) (cpus : Z)
    : option event_config * Z :=
  match cfg with
  | None => (None, -1)
  | Some cfg => (Some (mk_config (cfg_entries cfg) cpus (cfg_max_dispatch_interval cfg)
      (cfg_max_dispatch_callbacks cfg) (cfg_limit_callbacks_after_prio cfg)
      (cfg_require_features cfg) (cfg_flags cfg)), 0)
  end.

Definition event_config_set_max_dispatch_interval (cfg : event_config)
    (max_interval : option timeval) (max_callbacks min_priority : Z) : event_config :=
  mk_config (cfg_entries cfg) (cfg_n_cpus_hint cfg)
    (match max_interval with
     | Some tv => tv
     | None => mk_timeval (-1) (tv_usec (cfg_max_dispatch_interval cfg))
     end)
    (if 0 <=? max_callbacks then max_callbacks else INT_MAX)
    (if min_priority <? 0 then 0 else min_priority)
    (cfg_require_features cfg) (cfg_flags cfg).

Definition event_config_is_avoided_method (cfg : event_config) (method : bytes) : bool :=
  existsb (λ entry, bool_decide (entry = method)) (cfg_entries cfg).


(** [char environment[64]] holds 63 characters. *)
Definition event_is_method_disabled (getenv : bytes → bool) (name : bytes) : bool :=
  let environment := take 63 (bytes_of_string "EVENT_NO" ++ name) in
  getenv (take 8 environment ++ (EVUTIL_TOUPPER_ <$> drop 8 environment)).

Section create.
Context `{EventEnv}.
Implicit Types (b : event_base) (w : EW).

(** An entry of [eventops]: [init] makes the state of the backend and of its
    signal handling, or fails. *)
Record eventop := mk_eventop {
  op_name : bytes;
  op_features : Z;
  op_init : EW → EW * option (EB * EBS)
}.

(** [clock_gettime(clock, &ts) == 0] *)
Definition clock_works w (clock : Z) : EW * bool :=
  let '(w, (_, mono)) := env_clock w in (w, bool_decide (is_Some (mono clock))).

Definition evutil_configure_monotonic_time_ w (timer : evutil_monotonic_timer) (flags : Z)
    : EW * evutil_monotonic_timer :=
  let with_clock c := mk_timer c (adjust_monotonic_clock timer) (last_time timer) in
  let precise := flags &? EV_MONOT_PRECISE in
  let fallback := flags &? EV_MONOT_FALLBACK in
  let '(w, coarse) := if negb precise && negb fallback
    then clock_works w CLOCK_MONOTONIC_COARSE else (w, false) in
  if coarse then (w, with_clock CLOCK_MONOTONIC_COARSE) else
  let '(w, mono) := if negb fallback then clock_works w CLOCK_MONOTONIC else (w, false) in
  if mono then (w, with_clock CLOCK_MONOTONIC) else (w, with_clock (-1)).

(** The backend may be used: the two [if]s of the loop over [eventops]. *)
Definition usable (getenv : bytes → bool) (check_env : bool) (cfg : option event_config)
    (op : eventop) : bool :=
  match cfg with
  | Some cfg => negb (event_config_is_avoided_method cfg (op_name op))
      && (Z.land (op_features op) (cfg_require_features cfg) =? cfg_require_features cfg)
  | None => true
  end && negb (check_env && event_is_method_disabled getenv (op_name op)).

(** The loop over [eventops]. *)
Fixpoint select_backend (getenv : bytes → bool) (check_env : bool) (cfg : option event_config)
    (eventops : list eventop) w : EW * option (eventop * (EB * EBS)) :=
  match eventops with
  | [] => (w, None)
  | op :: eventops =>
    if usable getenv check_env cfg op then
      match op_init op w with
      | (w, Some be) => (w, Some (op, be))
      | (w, None) => select_backend getenv check_env cfg eventops w
      end
    else select_backend getenv check_env cfg eventops w
  end.

(** The base as [mm_calloc] and the initialisers leave it, before the choice of
    the backend; [evs] is the memory of the events of the program. *)
Definition blank_base (evs : gmap evp event) (be : EB) (sbe : EBS) w
    (timer : evutil_monotonic_timer) (flags : Z) : event_base :=
  mk_base evs [] [] [] 0 min_heap_ctor_ [] [] be sbe 0 0 0 0 0 0 0 0 0 0 0 0 NULL
    evutil_timerclear timer evutil_timerclear 0 flags evutil_timerclear 0 0 ∅ 1 w.

(** The limits on dispatching set from the configuration. *)
Definition set_limits (cfg : option event_config) b : event_base :=
  let b := match cfg with
    | Some cfg => set_limit_callbacks_after_prio (cfg_limit_callbacks_after_prio cfg)
        (set_max_dispatch_time (cfg_max_dispatch_interval cfg) b)
    | None => set_limit_callbacks_after_prio 1
        (set_max_dispatch_time (mk_timeval (-1) (tv_usec (max_dispatch_time b))) b)
    end in
  let b := set_max_dispatch_callbacks
    match cfg with
    | Some cfg => if 0 <=? cfg_max_dispatch_callbacks cfg
                  then cfg_max_dispatch_callbacks cfg else INT_MAX
    | None => INT_MAX
    end b in
  if (max_dispatch_callbacks b =? INT_MAX) && (tv_sec (max_dispatch_time b) =? -1)
  then set_limit_callbacks_after_prio INT_MAX b else b.

(** [Some None] is the NULL that reports a failure.  [be0] and [sbe0] stand for
    the state of the backend before its [init]. *)
Definition event_base_new_with_config (getenv : bytes → bool) (eventops : list eventop)
    (calloc_ok : bool) (evs : gmap evp event) (be0 : EB) (sbe0 : EBS) w
    (cfg : option event_config) : option (option (event_base * eventop)) :=
  if negb calloc_ok then Some None else
  let flags := match cfg with Some cfg => cfg_flags cfg | None => 0 end in
  let should_check_environment := negb (flags &? EVENT_BASE_FLAG_IGNORE_ENV) in
  let precise_time := flags &? EVENT_BASE_FLAG_PRECISE_TIMER in
  let '(precise_time, flags) := if should_check_environment && negb precise_time
    then (getenv (bytes_of_string "EVENT_PRECISE_TIMER"),
          Z.lor flags EVENT_BASE_FLAG_PRECISE_TIMER)
    else (precise_time, flags) in
  let '(w, timer) := evutil_configure_monotonic_time_ w
    (mk_timer 0 evutil_timerclear evutil_timerclear) (if precise_time then EV_MONOT_PRECISE else 0) in
  '(b, _) ← gettime (blank_base evs be0 sbe0 w timer flags);
  let b := set_limits cfg b in
  match select_backend getenv should_check_environment cfg eventops (b_world b) with
  | (_, None) => Some None
  | (w, Some (op, (be, sbe))) =>
    let b := set_b_be be (set_b_sbe sbe (set_b_world w b)) in
    let '(b, r) := event_base_priority_init b 1 in
    Some (if r <? 0 then None else Some (b, op))
  end.

Definition event_base_new (getenv : bytes → bool) (eventops : list eventop)
    (config_ok calloc_ok : bool) (evs : gmap evp event) (be0 : EB) (sbe0 : EBS) w
    : option (option (event_base * eventop)) :=
  match event_config_new config_ok with
  | Some cfg => event_base_new_with_config getenv eventops calloc_ok evs be0 sbe0 w (Some cfg)
  | None => Some None
  end.

(** ** A new base is consistent *)

(** The event is on no queue. *)
Definition idle (ev : event) : Prop := ev_flags ev &? EVLIST_QUEUED = false.

Lemma idle_flag ev m : idle ev → Z.land EVLIST_QUEUED m = m → ev_flags ev &? m = false.
Proof. unfold idle. intros Hi Hm. by eapply flag_sub. Qed.

(** The events of the program before the first is added. *)
Definition idle_memory (nq : Z) (m : gmap evp event) : Prop :=
  m !! NULL = None ∧ ∀ e ev, m !! e = Some ev → idle ev ∧ ev_wf nq ev.

Lemma idle_views nq m : idle_memory nq m →
  (∀ e, actv m e = None) ∧ (∀ e, latv m e = false) ∧ (∀ e, tmov m e = None) ∧
  (∀ e, insv m e = None) ∧ total m = 0.
Proof.
  intros [_ Hm].
  assert (Hf : ∀ e ev k, m !! e = Some ev → Z.land EVLIST_QUEUED k = k → ev_flags ev &? k = false).
  { intros e ev k He. apply idle_flag. by apply (Hm e). }
  split_and!; try (intros e; unfold actv, latv, tmov, insv; destruct (m !! e) as [ev|] eqn:He;
    [|done]; cbn; unfold actv1, latv1, tmov1, insv1; by rewrite (Hf e ev)).
  unfold total. apply (map_fold_weak_ind (λ acc m', (∀ x z, m' !! x = Some z → z = 0) → acc = 0));
    [done| |].
  - intros x z m' acc Hx IH Hz. rewrite (Hz x z) by (by rewrite lookup_insert_eq).
    rewrite IH; [done|]. intros y zy Hy. apply (Hz y). rewrite lookup_insert_ne; [done|congruence].
  - intros x z. rewrite lookup_fmap. destruct (m !! x) as [ev|] eqn:He; [|done]. intros [= <-].
    unfold wt1. destruct (ev_flags ev &? EVLIST_INTERNAL); [done|]. by rewrite !(Hf x ev) by done.
Qed.

Definition empty_queues b : Prop :=
  Forall (.= []) (b_activequeues b) ∧ b_later b = [] ∧ b_ctls b = [] ∧
  b_timeheap b = min_heap_ctor_ ∧ b_io b = [] ∧ b_sigmap b = [] ∧
  event_count b = 0 ∧ event_count_active b = 0.

Lemma empty_base_ok b : empty_queues b → idle_memory (nactivequeues b) (b_evs b) → base_ok b.
Proof.
  intros (Hq & Hl & Hc & Hh & Hio & Hs & Hn & Hna) Hm.
  destruct (idle_views _ _ Hm) as (Va & Vl & Vt & Vi & Vn). destruct Hm as [Hnull Hm].
  rewrite Forall_lookup in Hq. split.
  - split; [|intros i q Hi; rewrite (Hq i q Hi); constructor]. intros e i. rewrite Va. split; [done|].
    intros (_ & q & Hi & Hin). rewrite (Hq _ _ Hi) in Hin. by apply not_elem_of_nil in Hin.
  - rewrite Hl. split; [constructor|]. intros e. rewrite Vl. split; [|done].
    by intros ?%not_elem_of_nil.
  - rewrite Hh. split; [|].
    + split; simpl; [lia|done|intros i ? ? Hi; lia|intros i x Hi; lia].
    + intros e. rewrite Vt. split; [by intros ?%not_elem_of_nil|by intros (? & ? & _)].
  - rewrite Hc. split; [done|]. intros e t. by rewrite Vt.
  - rewrite Hio. split; [by intros i c|]. intros e fd Hfd. rewrite Vi. unfold evs_at.
    destruct (Z.ltb_spec fd 0); [lia|]. rewrite lookup_nil.
    split; [by intros ?%not_elem_of_nil|by intros (? & ? & _)].
  - rewrite Hs. intros e sig Hsig. rewrite Vi. unfold sig_evs.
    rewrite lookup_nil. split; [|by intros (? & ? & _)].
    destruct (sig <? 0); by intros ?%not_elem_of_nil.
  - intros e ev He. by apply (Hm e).
  - rewrite Hna. unfold queued. rewrite Hl. assert (concat (b_activequeues b) = []) as ->; [|done].
    apply concat_nil_Forall. apply Forall_lookup. done.
  - by rewrite Hn, Vn.
  - done.
Qed.

(** ** The choice of the backend *)

(** The backends that may be used were tried in the order of the table, each
    [init] in the world the one before left, and all failed. *)
Inductive all_fail (ok : eventop → bool) : EW → list eventop → EW → Prop :=
| fail_nil w : all_fail ok w [] w
| fail_skip w op ops w' : ok op = false → all_fail ok w ops w' → all_fail ok w (op :: ops) w'
| fail_init w op w1 ops w' : ok op = true → op_init op w = (w1, None) → all_fail ok w1 ops w' →
    all_fail ok w (op :: ops) w'.

(** [op] is the first backend that may be used and could be initialised, with the
    states [be]. *)
Definition first_usable (ok : eventop → bool) w (ops : list eventop) (op : eventop) (be : EB * EBS) w' : Prop :=
  ∃ pre post w1, ops = pre ++ op :: post ∧ all_fail ok w pre w1 ∧ ok op = true ∧ op_init op w1 = (w', Some be).

Lemma select_backend_spec getenv env cfg ops w :
  match select_backend getenv env cfg ops w with
  | (w', Some (op, be)) => first_usable (usable getenv env cfg) w ops op be w'
  | (w', None) => all_fail (usable getenv env cfg) w ops w'
  end.
Proof.
  revert w. induction ops as [|op ops IH]; intros w; cbn [select_backend]; [constructor|].
  destruct (usable getenv env cfg op) eqn:Hu; [destruct (op_init op w) as [w1 [be|]] eqn:Hi|].
  - exists [], ops, w. split_and!; [done|constructor|done..].
  - specialize (IH w1). destruct (select_backend _ _ _ _ _) as [w' [[op' be]|]]; [|by eapply fail_init].
    destruct IH as (pre & post & w2 & -> & Hf & ?). exists (op :: pre), post, w2. split_and!; [done|by eapply fail_init|naive_solver..].
  - specialize (IH w). destruct (select_backend _ _ _ _ _) as [w' [[op' be]|]]; [|by apply fail_skip].
    destruct IH as (pre & post & w2 & -> & Hf & ?). exists (op :: pre), post, w2. split_and!; [done|by apply fail_skip|naive_solver..].
Qed.

Lemma blank_gettime evs be0 sbe0 w timer flags :
  (∀ w, is_Some (env_clock w).2.1) →
  ∃ b t, gettime (blank_base evs be0 sbe0 w timer flags) = Some (b, t) ∧ empty_queues b ∧
    b_evs b = evs ∧ b_activequeues b = [] ∧ virtual_event_count b = 0 ∧ running_loop b = 0.
Proof.
  intros Htod. unfold gettime. simpl. destruct (env_clock w) as [w1 [tod mono]] eqn:Hc.
  destruct (evutil_gettime_monotonic_ _ _ _) as [[t' tp]|].
  2:{ eexists _, _. by split_and!. }
  destruct (_ <? _).
  - simpl. pose proof (Htod w1) as [tv Htv]. destruct (env_clock w1) as [w2 [tod2 mono2]].
    simpl in Htv. rewrite Htv. eexists _, _. by split_and!.
  - eexists _, _. by split_and!.
Qed.

(** The number of callbacks and the time after which a round of dispatching ends
    are those of the configuration, none without one, and apply to every priority
    from that of the configuration on (without one from 1 on); without any limit no
    priority is cut short. *)
Definition unlimited b : Prop := max_dispatch_callbacks b = INT_MAX ∧ tv_sec (max_dispatch_time b) = -1.
Definition limits_ok (cfg : option event_config) b : Prop :=
  match cfg with
  | None => unlimited b
  | Some cfg => max_dispatch_time b = cfg_max_dispatch_interval cfg ∧
      (0 <= cfg_max_dispatch_callbacks cfg → max_dispatch_callbacks b = cfg_max_dispatch_callbacks cfg) ∧
      (cfg_max_dispatch_callbacks cfg < 0 → max_dispatch_callbacks b = INT_MAX) ∧
      (¬ unlimited b → limit_callbacks_after_prio b = cfg_limit_callbacks_after_prio cfg)
  end ∧ (unlimited b → limit_callbacks_after_prio b = INT_MAX).

Lemma set_limits_ok cfg b : limits_ok cfg (set_limits cfg b).
Proof.
  unfold set_limits, limits_ok, unlimited. destruct cfg as [cfg|]; simpl; [|by split_and!].
  destruct (Z.leb_spec 0 (cfg_max_dispatch_callbacks cfg)) as [Hp|Hp]; simpl;
    [destruct (Z.eqb_spec (cfg_max_dispatch_callbacks cfg) INT_MAX) as [Hx|Hx]; simpl|];
    try (destruct (Z.eqb_spec (tv_sec (cfg_max_dispatch_interval cfg)) (-1)); simpl);
    split_and!; naive_solver lia.
Qed.

Lemma set_limits_rest cfg b :
  (empty_queues b → empty_queues (set_limits cfg b)) ∧ b_evs (set_limits cfg b) = b_evs b ∧
  b_activequeues (set_limits cfg b) = b_activequeues b ∧
  virtual_event_count (set_limits cfg b) = virtual_event_count b ∧
  running_loop (set_limits cfg b) = running_loop b.
Proof. unfold set_limits. destruct cfg, (_ && _); done. Qed.

(** C9. [event_base_new_with_config], in a program that has events but has added
    none, with a wall clock that can be read, always returns.  NULL means that
    there was no memory or that every backend that the configuration and the
    environment allow was tried and failed to initialise.  Otherwise the backend is the first
    of the table that the configuration (not avoided, has the required features)
    and the environment allow and that could be initialised, after those before it had failed; the base
    has the state it was initialised with, is consistent, has one priority, no event and
    the limits on callbacks, time and priority of the configuration. *)
Theorem event_base_new_correct getenv eventops calloc_ok evs be0 sbe0 w cfg :
  idle_memory 1 evs → (∀ w, is_Some (env_clock w).2.1) →
  let check_env := negb (match cfg with Some cfg => cfg_flags cfg | None => 0 end
                         &? EVENT_BASE_FLAG_IGNORE_ENV) in
  let ok := usable getenv check_env cfg in
  ∃ r, event_base_new_with_config getenv eventops calloc_ok evs be0 sbe0 w cfg = Some r ∧
  match r with
  | None => calloc_ok = false ∨ env_calloc_ok 16 = false ∨ ∃ w1 w2, all_fail ok w1 eventops w2
  | Some (b, op) => (∃ w1, first_usable ok w1 eventops op (b_be b, b_sbe b) (b_world b)) ∧ base_ok b ∧ b_evs b = evs ∧
      nactivequeues b = 1 ∧ event_haveevents b = false ∧ running_loop b = 0 ∧ limits_ok cfg b
  end.
Proof.
  intros Hm Htod. unfold event_base_new_with_config.
  destruct calloc_ok; simpl negb; cbv iota; [|eexists; split; [done|by left]].
  set (flags := match cfg with Some cfg => cfg_flags cfg | None => 0 end).
  set (env := negb (flags &? EVENT_BASE_FLAG_IGNORE_ENV)). cbv zeta.
  destruct (if env && _ then _ else _) as [precise fl].
  destruct (evutil_configure_monotonic_time_ w _ _) as [w1 timer].
  destruct (blank_gettime evs be0 sbe0 w1 timer fl Htod) as (b & t & -> & Hq & He & Ha & Hv & Hr).
  cbn [mbind option_bind].
  destruct (set_limits_rest cfg b) as (Hq' & He' & Ha' & Hv' & Hr'). specialize (Hq' Hq).
  pose proof (set_limits_ok cfg b) as Hlim. set (b1 := set_limits cfg b) in *. clearbody b1.
  pose proof (select_backend_spec getenv env cfg eventops (b_world b1)) as Hsel.
  destruct (select_backend _ _ _ _ _) as [w2 [[op [be sbe]]|]]; simpl in Hsel;
    [|eexists; split; [done|do 2 right; by eauto]].
  destruct Hq' as (_ & Hl & Hc & Hh & Hio & Hs & Hn & Hna).
  unfold event_base_priority_init, nactivequeues. simpl. rewrite Hna, Ha', Ha. simpl. change (1 * 16) with 16.
  destruct (env_calloc_ok 16) eqn:Hcalloc; simpl; [|eexists; split; [done|by right; left]].
  eexists. split; [done|]. split_and!; try done; simpl; try congruence.
  - by eexists.
  - apply empty_base_ok.
    + split; [repeat constructor|done].
    + unfold nactivequeues. simpl. by rewrite He', He.
  - unfold event_haveevents. simpl. by rewrite Hn, Hv', Hv.
Qed.
End create.
Arguments eventop {_}.
