(* ===== verification/EventLoopInv.v ===== *)
(** * The event loop keeps the base consistent

    Every step of [event_base_loop] preserves the invariant of EventInv.v, for
    programs that use no common timeouts, whatever the callbacks do as long as
    they preserve it themselves.  The callbacks may make the model stop (a failed
    assertion or a dangling pointer): the lemmas are about the runs that go on. *)

From S2P Require Import Prelude TimeVal MinHeap EvMap EventBase EventCore EventLoop.
From S2P Require Import EventInv EventProps EventTimers EventAdd EventConfig.

(** Takes the first statement of a successful run apart. *)
Ltac run H := apply bind_Some in H as (? & ? & H).

Section loop_inv.
Context `{EventEnv}.
Implicit Types (b : event_base) (m : memory) (e x : evp) (ev : event).

Definition loop_inv b : Prop := base_ok b ∧ n_common_timeouts b = 0.

Lemma loop_inv_struct b b' : struct_part b' = struct_part b → loop_inv b → loop_inv b'.
Proof.
  intros Hs [Hok Hn]. split; [by eapply base_ok_struct|]. unfold n_common_timeouts, struct_part in *.
  congruence.
Qed.

Lemma loop_inv_env b b' : loop_inv b → base_ok b' → n_common_timeouts b' = n_common_timeouts b →
  loop_inv b'.
Proof. intros [_ Hn] Hok Hn'. split; [done|congruence]. Qed.

Lemma loop_inv_neutral b e f : neutral f → loop_inv b → loop_inv (upd_ev e f b).
Proof. intros Hf [Hok Hn]. split; [by apply base_ok_neutral|done]. Qed.

Lemma loop_inv_queue_op b e f r b' : loop_inv b → queue_op b e f r → r = Some b' → loop_inv b'.
Proof.
  intros [Hok Hn] (b1 & -> & Hok1 & _ & Henv) [= <-]. split; [done|].
  by rewrite (env_part_ncommon _ _ Henv).
Qed.

(** ** Time *)

Lemma gettime_inv b b' t : loop_inv b → gettime b = Some (b', t) → loop_inv b'.
Proof. intros Hi Hg. destruct (gettime_struct _ _ _ Hg) as [Hs _]. by eapply loop_inv_struct. Qed.

Lemma gettime_ok_inv b b' t : loop_inv b → gettime_ok b = Some (b', t) → loop_inv b'.
Proof.
  intros Hi Hg. unfold gettime_ok in Hg. run Hg. destruct x as [b1 t1]. run Hg.
  simplify_eq. by eapply gettime_inv.
Qed.

Lemma clear_time_cache_inv b : loop_inv b → loop_inv (clear_time_cache b).
Proof. by apply loop_inv_struct. Qed.

Lemma update_time_cache_inv b b' : loop_inv b → update_time_cache b = Some b' → loop_inv b'.
Proof.
  intros Hi Hu. apply clear_time_cache_inv in Hi. unfold update_time_cache in Hu. cbv zeta in Hu.
  destruct (negb _); [|injection Hu as <-; exact Hi]. run Hu. destruct x as [b1 t]. simplify_eq.
  apply gettime_inv in H0; [|done]. destruct t; [|done]. by apply (loop_inv_struct b1).
Qed.

(** ** Operations that may meet a dangling pointer *)

Lemma abort_frame b ev b' :
  (if ev_events ev &? EV_SIGNAL then abort_signal_loop b ev else Some b) = Some b' → frame_ok b ev.
Proof.
  unfold abort_signal_loop. intros Ha Hs Hn Hp. rewrite Hs in Ha.
  rewrite (proj2 (Z.eqb_neq _ _) Hn), (proj2 (Z.eqb_neq _ _) Hp) in Ha. simpl in Ha.
  destruct (b_frames b !! ev_pncalls ev); done.
Qed.

Lemma del_inv b e bl b' r : loop_inv b → event_del_nolock_ b e bl = Some (b', r) → loop_inv b'.
Proof.
  intros Hi Hd. assert (Hd' := Hd). unfold event_del_nolock_ in Hd'. run Hd'. rename x into ev, H0 into He.
  destruct (negb (bl =? _) && _) eqn:Hfin; [by simplify_eq|]. do 2 run Hd'.
  destruct (event_del_spec b e ev bl) as (b1 & r1 & fr & Heq & Hok1 & _ & _ & Henv & _).
  - apply Hi.
  - done.
  - by eapply abort_frame.
  - apply andb_false_iff in Hfin as [Hf%negb_false_iff|?]; [left; by apply Z.eqb_eq|by right].
  - rewrite Hd in Heq. injection Heq as <- <-. apply (loop_inv_env b); [done|done|].
    by rewrite (env_part_ncommon _ _ Henv).
Qed.

Lemma active_inv b e res n b' : loop_inv b → event_active_nolock_ b e res n = Some b' → loop_inv b'.
Proof.
  intros Hi Ha. assert (Ha' := Ha). unfold event_active_nolock_ in Ha'. run Ha'.
  rename x into ev, H0 into He. destruct (ev_flags ev &? EVLIST_FINALIZING) eqn:Hf; [by simplify_eq|].
  destruct (event_active_spec b e ev res n (proj1 Hi) He Hf) as (b1 & Heq & [Hok1 _] & _ & Hn & _).
  rewrite Ha in Heq. injection Heq as <-. by apply (loop_inv_env b).
Qed.

Lemma remove_active_inv b e b' : loop_inv b → event_queue_remove_active b e = Some b' → loop_inv b'.
Proof.
  intros Hi Hr. assert (Hr' := Hr). unfold event_queue_remove_active in Hr'. run Hr'.
  rename x into ev, H0 into He. destruct (ev_flags ev &? EVLIST_ACTIVE) eqn:Hf; [|done].
  eapply loop_inv_queue_op; [done| |exact Hr]. by apply (remove_active_spec b e ev); [apply Hi|..].
Qed.

(** ** Adding an event at an absolute time *)

Lemma common_at_0 t : common_at 0 t = false.
Proof.
  unfold common_at. destruct (negb _); [done|]. apply Z.ltb_ge. unfold COMMON_TIMEOUT_IDX.
  apply Z.shiftr_nonneg, Z.land_nonneg. right. unfold COMMON_TIMEOUT_IDX_MASK. lia.
Qed.

Lemma cancel_frame b e ev b' : get_ev b e = Some ev → cancel_active_timeout b e = Some b' →
  takes_back ev = true → frame_ok b ev.
Proof.
  unfold cancel_active_timeout. intros -> Hc Ht. cbn [mbind option_bind] in Hc.
  fold (takes_back ev) in Hc. rewrite Ht in Hc. run Hc. by eapply abort_frame.
Qed.

(** An [add_timeout] that went through had a clock and no dangling pointer. *)
Lemma add_timeout_needs sched b e ev tv b' :
  base_ok b → get_ev b e = Some ev → add_timeout sched b e tv true = Some b' →
  frame_ok_add b ev tv true ∧ ∃ bt now, gettime b = Some (bt, Some now).
Proof.
  intros Hok He Ha. unfold add_timeout in Ha. rewrite He in Ha. cbn [mbind option_bind] in Ha.
  rewrite andb_false_r in Ha.
  destruct (optional_queue_op b e ev EVLIST_TIMEOUT (event_queue_remove_timeout b e) Hok He
    (remove_timeout_spec b e ev Hok He)) as (b1 & Hb1 & Hok1 & Hm1 & Henv1).
  rewrite Hb1 in Ha. cbn [mbind option_bind] in Ha. run Ha. rename x into b2, H0 into Hc.
  destruct (meq_get b1 _ e _ ev Hm1 He) as (ev1 & He1 & Hr1).
  assert (Htb : takes_back ev1 = takes_back ev).
  { unfold takes_back. rewrite (rest_flags _ _ Hr1).
    rewrite (f_equal ev_res Hr1 : ev_res ev1 = ev_res ev). simpl. by flags. }
  pose proof (cancel_frame b1 e ev1 b2 He1 Hc) as Hfr1. split.
  - unfold frame_ok_add, remembers. rewrite andb_false_r. intros Ht. rewrite Htb in Hfr1.
    specialize (Hfr1 Ht). revert Hfr1. unfold frame_ok, ev_ncalls, ev_pncalls.
    rewrite (f_equal ev_events Hr1 : ev_events ev1 = ev_events ev),
      (f_equal ev_w0 Hr1 : ev_w0 ev1 = ev_w0 ev), (f_equal ev_w1 Hr1 : ev_w1 ev1 = ev_w1 ev).
    by rewrite (env_part_frames _ _ Henv1).
  - run Ha. destruct x as [b3 now]. unfold gettime_ok in H0. run H0. destruct x as [b4 t]. run H0.
    simplify_eq. destruct (cancel_active_spec b1 e ev1 Hok1 He1 Hfr1)
      as (b2' & fr & Hc' & _ & _ & Henv2 & _). rewrite Hc in Hc'. injection Hc' as <-.
    destruct (gettime_same b2 b b3 now) as (bt & Hbt & _); [done| |by exists bt, now].
    rewrite (env_time _ _ _ Henv2). unfold env_part, time_part in *. congruence.
Qed.

Lemma add_abs_inv b e tv b' r :
  loop_inv b → event_add_nolock_ b e (Some tv) true = Some (b', r) → loop_inv b'.
Proof.
  intros [Hok Hn] Ha. unfold event_add_nolock_, event_add_body in Ha. run Ha. rename x into ev, H0 into He.
  run Ha. clear H0. destruct (ev_flags ev &? EVLIST_FINALIZING) eqn:Hfin; [by simplify_eq|].
  destruct (if bool_decide (is_Some (Some tv)) && _ then _ else _) as [h rr] eqn:Hres.
  destruct (add_reserve b e ev (Some tv) h rr Hok) as [->|(-> & Hokh & Hroom)]; [|done| |].
  { intros _ Hf. apply (proj2 (ok_heap _ Hok)). exists (ev_timeout ev). rewrite Hn.
    split; [|apply common_at_0]. unfold tmov. unfold get_ev in He. rewrite He. cbn. unfold tmov1. by rewrite Hf. }
  { simpl in Ha. by simplify_eq. }
  simpl in Ha. set (b0 := set_b_timeheap h b) in *.
  destruct (add_registration_spec b0 e ev Hokh He Hfin) as (b1 & res & Heq & Hok1 & Henv1 & Hh1 & Hres1).
  rewrite Heq in Ha. cbn [mbind option_bind] in Ha.
  assert (Hn1 : n_common_timeouts b1 = 0) by (by rewrite (env_part_ncommon _ _ Henv1)).
  destruct Hres1 as [(-> & _ & Hm1)|(-> & Hm1)]; [simpl in Ha; by simplify_eq|]. simpl in Ha.
  pose proof (registered_same ev) as (N1 & N2 & N3 & N4 & N5 & N6 & N7).
  set (f1 := if registers ev then add_flag EVLIST_INSERTED else id) in *.
  assert (He1 : get_ev b1 e = Some (f1 ev)).
  { unfold get_ev in *. rewrite Hm1. subst f1. destruct (registers ev); [|done].
    by rewrite lookup_alter_eq; simpl; rewrite He. }
  run Ha. rename x into b2. simplify_eq.
  destruct (add_timeout_needs _ _ _ _ _ _ Hok1 He1 H0) as (Hfr & bt & now & Hgt).
  destruct (add_timeout_spec common_timeout_schedule b1 e (f1 ev) tv true bt now)
    as (b3 & Heq3 & (Hok3 & _ & Hn3 & _) & _); try done; [by rewrite N1| | |].
  - specialize (Hroom (ex_intro _ tv eq_refl)). unfold room in *. by rewrite N2, Hh1.
  - split; rewrite Hn1; apply common_at_0.
  - rewrite H0 in Heq3. injection Heq3 as <-. split; [done|congruence].
Qed.

(** ** Timeouts, later events and reports of the backend *)

Lemma timeout_process_inv b b' : loop_inv b → timeout_process b = Some b' → loop_inv b'.
Proof.
  intros Hi Ht. unfold timeout_process in Ht. destruct (min_heap_empty_ _); [by simplify_eq|].
  run Ht. destruct x as [b1 now]. apply gettime_ok_inv in H0; [|done]. clear Hi. revert b1 H0 Ht.
  generalize (S (min_heap_size_ (b_timeheap b))). intros n b1. revert b1.
  assert (Hl : ∀ n b1, loop_inv b1 → timeout_process_loop n b1 now = Some b' → loop_inv b').
  { clear n. induction n as [|n IH]; intros b1 Hi Ht; simpl in Ht; [done|]. run Ht.
    destruct (x =? NULL); [by simplify_eq|]. run Ht. destruct (evutil_timercmp _ _ _); [by simplify_eq|].
    run Ht. destruct x1 as [b2 r]. run Ht. apply del_inv in H2; [|done]. apply active_inv in H3; [|done].
    by eapply IH. }
  intros b1 Hi Ht. by eapply Hl.
Qed.

Lemma make_later_inv b b' :
  loop_inv b → event_queue_make_later_events_active b = Some b' → loop_inv b'.
Proof.
  intros [Hok Hn] Hm. destruct (make_later_loop_spec (b_later b) b Hok eq_refl)
    as (b1 & Heq & Hok1 & _ & Hc & _).
  unfold event_queue_make_later_events_active in Hm. rewrite Hm in Heq. injection Heq as <-.
  split; [done|]. unfold n_common_timeouts in *. by rewrite Hc.
Qed.

Lemma active_all_inv evs n b b' : loop_inv b → active_all b evs n = Some b' → loop_inv b'.
Proof.
  revert b. induction evs as [|[e res] evs IH]; intros b Hi Ha; simpl in Ha; [by simplify_eq|].
  run Ha. apply active_inv in H0; [|done]. by eapply IH.
Qed.

Lemma apply_reports_inv rs b b' : loop_inv b → apply_reports b rs = Some b' → loop_inv b'.
Proof.
  revert b. induction rs as [|r rs IH]; intros b Hi Ha; simpl in Ha; [by simplify_eq|].
  run Ha. eapply IH; [|exact Ha]. destruct r; by eapply active_all_inv.
Qed.

Lemma dispatch_inv b tv b' r : loop_inv b → dispatch b tv = Some (b', r) → loop_inv b'.
Proof.
  intros Hi Hd. unfold dispatch in Hd. destruct (env_dispatch _ _ _ _) as [[[be sbe] w] [rs|]].
  - run Hd. injection Hd as <- _. eapply apply_reports_inv; [|exact H0]. by apply (loop_inv_struct b).
  - injection Hd as <- _. by apply (loop_inv_struct b).
Qed.

Lemma timeout_next_inv b b' tv : loop_inv b → timeout_next b = Some (b', tv) → loop_inv b'.
Proof.
  intros Hi Ht. unfold timeout_next in Ht. run Ht. destruct (x =? NULL); [by simplify_eq|].
  run Ht. run Ht. destruct x1 as [b1 t]. run Ht. apply gettime_inv in H2; [|done].
  destruct (evutil_timercmp _ _ _); [by simplify_eq|]. run Ht. run Ht. by simplify_eq.
Qed.

(** ** Freeing an event *)

Lemma count_bit_ext evf evf' bit l :
  (∀ x, x ∈ l → evf' x = evf x) → count_bit evf' bit l = count_bit evf bit l.
Proof.
  induction l as [|x l IH]; intros Hx; [done|]. rewrite !count_bit_cons, IH; [|intros; apply Hx; by right].
  by rewrite Hx by (by left).
Qed.

Lemma total_free m e ev : m !! e = Some ev → wt1 ev = 0 → total (delete e m) = total m.
Proof.
  intros He Hw. unfold total. rewrite fmap_delete.
  rewrite (map_fold_delete_L (λ _ z acc, z + acc) 0 e (wt1 ev) (wt1 <$> m)); [lia|intros; lia|].
  by rewrite lookup_fmap, He.
Qed.

Lemma base_ok_free b e : base_ok b → (∀ ev, get_ev b e = Some ev → idle ev) →
  base_ok (set_b_evs (delete e (b_evs b)) b).
Proof.
  intros Hok Hidle. destruct (b_evs b !! e) as [ev|] eqn:He.
  2:{ eapply base_ok_struct; [|exact Hok]. unfold struct_part. simpl. by rewrite delete_id. }
  specialize (Hidle ev He).
  assert (Hf : ∀ k, Z.land EVLIST_QUEUED k = k → ev_flags ev &? k = false)
    by (intros k; by apply idle_flag).
  assert (Hv : ∀ {A} (f : event → option A) x, f ev = None →
    delete e (b_evs b) !! x ≫= f = b_evs b !! x ≫= f).
  { intros A f x Hx. destruct (decide (x = e)) as [->|]; [by rewrite lookup_delete_eq, He|].
    by rewrite lookup_delete_ne. }
  assert (Vt : ∀ x, tmov (delete e (b_evs b)) x = tmov (b_evs b) x)
    by (intros x; apply Hv; unfold tmov1; by rewrite Hf).
  assert (Vi : ∀ x, insv (delete e (b_evs b)) x = insv (b_evs b) x)
    by (intros x; apply Hv; unfold insv1; by rewrite Hf).
  split; simpl.
  - eapply active_ok_ext; [|apply Hok]. intros x. apply Hv. unfold actv1. by rewrite Hf.
  - eapply later_ok_ext; [|apply Hok]. intros x. unfold latv.
    destruct (decide (x = e)) as [->|]; [|by rewrite lookup_delete_ne].
    rewrite lookup_delete_eq, He. simpl. unfold latv1. by rewrite Hf.
  - destruct (ok_heap _ Hok) as [Hwf Hin]. split; [|intros x; by rewrite Hin, Vt].
    eapply heap_wf_transfer; [exact Hwf|]. intros x Hx. assert (x ≠ e).
    { intros ->. apply Hin in Hx as (t & Ht & _). unfold tmov in Ht. rewrite He in Ht. cbn in Ht.
      unfold tmov1 in Ht. by rewrite Hf in Ht. }
    rewrite lookup_delete_ne by done. split; [by apply (elems_valid _ _ _ Hwf)|done].
  - eapply ctls_ok_ext; [|apply Hok]. done.
  - destruct (ok_io _ Hok) as [Hmap Hin]. split; [|intros x fd; rewrite Vi; by apply Hin].
    intros i c Hc. destruct (Hmap i c Hc) as [Hnd Hr Hw Hcl Hb].
    assert (Hcb : ∀ bit, count_bit (events_of (delete e (b_evs b))) bit (io_events c) =
      count_bit (events_of (b_evs b)) bit (io_events c)).
    { intros bit. apply count_bit_ext. intros x Hx. unfold events_of. rewrite lookup_delete_ne; [done|].
      intros <-. destruct (proj1 (Hin e (Z.of_nat i) ltac:(lia))) as (evts & Hins & _).
      - unfold evs_at. destruct (Z.ltb_spec (Z.of_nat i) 0); [lia|]. by rewrite Nat2Z.id, Hc.
      - unfold insv in Hins. rewrite He in Hins. cbn in Hins. unfold insv1 in Hins. by rewrite Hf in Hins. }
    split; rewrite ?Hcb; done.
  - eapply sigmap_ok_ext; [|apply Hok]. done.
  - intros x evx. unfold get_ev. simpl. intros Hx. apply lookup_delete_Some in Hx as [_ Hx].
    by apply (ok_evs _ Hok x).
  - apply Hok.
  - rewrite (ok_count _ Hok). symmetry. apply (total_free _ _ ev He). unfold wt1.
    destruct (ev_flags ev &? EVLIST_INTERNAL); [done|]. by rewrite !Hf.
  - destruct (decide (e = NULL)) as [->|]; [apply lookup_delete_eq|].
    rewrite lookup_delete_ne by done. apply Hok.
Qed.

(** ** Callbacks *)

(** An event that is being finalized and on no queue stays so. *)
Definition finalizing_idle b x : Prop :=
  ∃ ev, get_ev b x = Some ev ∧ ev_flags ev &? EVLIST_FINALIZING = true ∧ idle ev.
Definition still_idle b x : Prop := ∀ ev, get_ev b x = Some ev → idle ev.

(** What is expected of the callbacks of the program: they leave a consistent
    base without common timeouts, as all operations on events do, and do not
    reuse an event that is being finalized. *)
Definition callbacks_ok (run_callback : event_base → evp → Z → option event_base) : Prop :=
  ∀ b e res b', loop_inv b → run_callback b e res = Some b' →
    loop_inv b' ∧ ∀ x, finalizing_idle b x → still_idle b' x.

Section callbacks.
Variable run_callback : event_base → evp → Z → option event_base.
Hypothesis Hcb : callbacks_ok run_callback.

Lemma invoke_eq b e res : loop_inv b → invoke run_callback b e res = run_callback b e res.
Proof.
  intros [_ Hn]. unfold invoke. unfold n_common_timeouts in Hn.
  destruct (b_ctls b); [done|]. simpl in Hn. lia.
Qed.

Lemma invoke_inv b e res b' :
  loop_inv b → invoke run_callback b e res = Some b' → loop_inv b'.
Proof. intros Hi. rewrite invoke_eq by done. intros Hr. by eapply Hcb. Qed.

Lemma neutral_ncalls n : neutral (set_ev_ncalls n).
Proof. done. Qed.
Lemma neutral_pncalls p : neutral (set_ev_pncalls p).
Proof. done. Qed.

Lemma signal_loop_inv fuel b e p b' :
  loop_inv b → signal_closure_loop run_callback fuel b e p = Some b' → loop_inv b'.
Proof.
  revert b. induction fuel as [|fuel IH]; intros b Hi Hs; simpl in Hs; [done|]. run Hs.
  destruct (x =? 0); [by simplify_eq|]. run Hs. run Hs. apply invoke_inv in H2.
  - destruct (negb (event_break x1 =? 0)); [|by eapply IH]. run Hs. simplify_eq.
    destruct (negb _); [|done]. by apply loop_inv_neutral.
  - assert (Hi1 : ∀ fr, loop_inv (upd_ev e (set_ev_ncalls (i16 (x - 1))) (set_b_frames fr b))).
    { intros fr. apply loop_inv_neutral; [done|]. by apply (loop_inv_struct b). }
    destruct (_ =? 0); [apply loop_inv_neutral; [done|]|]; apply Hi1.
Qed.

Lemma signal_closure_inv b e b' :
  loop_inv b → event_signal_closure run_callback b e = Some b' → loop_inv b'.
Proof.
  intros Hi Hs. unfold event_signal_closure in Hs. run Hs. cbv zeta in Hs. run Hs. simplify_eq.
  apply (loop_inv_struct x0); [done|]. eapply signal_loop_inv; [|exact H1].
  destruct (negb _); [apply loop_inv_neutral; [done|]|]; by apply (loop_inv_struct b).
Qed.

Lemma persist_closure_inv b e b' :
  loop_inv b → event_persist_closure run_callback b e = Some b' → loop_inv b'.
Proof.
  intros Hi Hp. unfold event_persist_closure in Hp. run Hp. run Hp. run Hp.
  eapply invoke_inv; [|exact Hp]. destruct (_ || _); [|by simplify_eq].
  run H1. run H1. destruct x3 as [b1 now]. run H1. destruct x3 as [b2 r]. simplify_eq.
  eapply add_abs_inv; [|exact H5]. by eapply gettime_ok_inv.
Qed.

(** The finalizing callbacks run on an event that is on no queue. *)
Lemma run_closure_inv b e b' :
  loop_inv b → (∀ ev, get_ev b e = Some ev → ev_flags ev &? EVLIST_FINALIZING = true → idle ev) →
  run_closure run_callback b e = Some b' → loop_inv b'.
Proof.
  intros Hi Hidle Hr. unfold run_closure in Hr. run Hr. rename x into ev, H0 into He.
  destruct (_ =? EV_CLOSURE_EVENT_SIGNAL); [run Hr; by eapply signal_closure_inv|].
  destruct (_ =? EV_CLOSURE_EVENT_PERSIST); [run Hr; by eapply persist_closure_inv|].
  destruct (_ =? EV_CLOSURE_EVENT); [run Hr; by eapply invoke_inv|].
  destruct (_ =? EV_CLOSURE_CB_SELF); [by eapply invoke_inv|].
  assert (Hi0 : loop_inv (set_current_event NULL b)) by (by apply (loop_inv_struct b)).
  destruct (_ || _) eqn:Hfin.
  - run Hr. run Hr. run Hr. rename x1 into b1. rewrite invoke_eq in H2 by done.
    destruct (Hcb _ _ _ _ Hi0 H2) as [Hi1 Hstill]. destruct (_ =? EV_CLOSURE_EVENT_FINALIZE_FREE);
      [|by simplify_eq]. injection Hr as <-. split; [|apply Hi1].
    apply base_ok_free; [apply Hi1|]. apply Hstill. unfold evassert in H1.
    destruct (ev_flags ev &? EVLIST_FINALIZING) eqn:Hf; [|done]. exists ev. split_and!; auto.
  - destruct (_ =? EV_CLOSURE_CB_FINALIZE); [|done]. run Hr. by eapply invoke_inv.
Qed.

(** ** The active queues *)

(** Off the active queue, an event that is being finalized is on no queue. *)
Lemma finalizing_off_queue nq ev ev' : ev_wf nq ev → ev_flags ev &? EVLIST_ACTIVE = true →
  rest ev' = rest (clear_flag EVLIST_ACTIVE ev) → ev_flags ev' &? EVLIST_FINALIZING = true → idle ev'.
Proof.
  intros Hwf Ha Hr. rewrite (rest_flags _ _ Hr). unfold idle. rewrite (rest_flags _ _ Hr). simpl. flags.
  intros Hf. destruct (wf_final _ _ Hwf Hf) as [Ht Hins].
  change EVLIST_QUEUED with (Z.lor EVLIST_TIMEOUT (Z.lor EVLIST_INSERTED
    (Z.lor EVLIST_ACTIVE EVLIST_ACTIVE_LATER))).
  rewrite !flag_orb. flags. by rewrite Ht, Hins, (excl_false _ _ Hwf Ha).
Qed.

Lemma take_active_inv b e b' : loop_inv b → take_active b e = Some b' →
  loop_inv b' ∧ ∀ ev, get_ev b' e = Some ev → ev_flags ev &? EVLIST_FINALIZING = true → idle ev.
Proof.
  intros Hi Ht. unfold take_active in Ht. run Ht. rename x into ev, H0 into He.
  assert (Hrm : event_queue_remove_active b e = Some b' →
    loop_inv b' ∧ ∀ ev, get_ev b' e = Some ev → ev_flags ev &? EVLIST_FINALIZING = true → idle ev).
  { intros Hr. split; [by eapply remove_active_inv|]. intros ev' He' Hf'.
    destruct (ev_flags ev &? EVLIST_ACTIVE) eqn:Ha.
    2:{ unfold event_queue_remove_active in Hr. rewrite He in Hr. cbn in Hr. by rewrite Ha in Hr. }
    destruct (remove_active_spec b e ev (proj1 Hi) He Ha) as (b1 & Heq & _ & Hm & _).
    rewrite Hr in Heq. injection Heq as <-. destruct (meq_get b' _ e _ ev Hm He) as (ev1 & He1 & Hr1).
    rewrite He' in He1. injection He1 as <-.
    by apply (finalizing_off_queue (nactivequeues b) ev); [apply (ok_evs _ (proj1 Hi) e)|..]. }
  destruct (ev_flags ev &? EVLIST_INIT); [|by apply Hrm].
  destruct (_ || _) eqn:Hp; [by apply Hrm|]. apply orb_false_iff in Hp as [_ Hfin].
  run Ht. destruct x as [b1 r]. simplify_eq. split; [by eapply del_inv|]. intros ev' He' _.
  assert (Hd := H0). unfold event_del_nolock_ in Hd. rewrite He in Hd. cbn [mbind option_bind] in Hd.
  rewrite Hfin, andb_false_r in Hd. run Hd. run Hd.
  destruct (event_del_spec b e ev EVENT_DEL_NOBLOCK (proj1 Hi) He) as (b2 & r2 & fr & Heq & _ & _ & Hm & _);
    [by eapply abort_frame|by right|].
  rewrite H0 in Heq. injection Heq as <- <-. destruct (meq_get b' _ e _ ev Hm He) as (ev1 & He1 & Hr1).
  rewrite He' in He1. injection He1 as <-. unfold idle. rewrite (rest_flags _ _ Hr1). simpl. by flags.
Qed.

Lemma process_queue_inv fuel b i count max endtime b' n :
  loop_inv b → process_queue_loop run_callback fuel b i count max endtime = Some (b', n) → loop_inv b'.
Proof.
  revert b count. induction fuel as [|fuel IH]; intros b count Hi Hp; simpl in Hp; [done|].
  run Hp. destruct x as [e|]; [|by simplify_eq]. run Hp. rename x into b1, H1 into Ht.
  destruct (take_active_inv _ _ _ Hi Ht) as [Hi1 Hidle]. run Hp. cbv zeta in Hp. run Hp.
  rename x0 into b2, H2 into Hr. apply run_closure_inv in Hr; [|by apply (loop_inv_struct b1)|done].
  assert (Hi2 : loop_inv (set_current_event NULL b2)) by (by apply (loop_inv_struct b2)).
  set (b3 := set_current_event NULL b2) in *. clearbody b3. revert Hp.
  generalize (if negb (ev_flags x &? EVLIST_INTERNAL) then count + 1 else count). intros c Hp.
  destruct (negb (event_break b2 =? 0)); [by simplify_eq|].
  destruct (max <=? c); [by simplify_eq|]. run Hp. destruct x0 as [b4 late].
  assert (Hi4 : loop_inv b4).
  { destruct endtime; [|by simplify_eq]. destruct (negb (c =? 0)); [|by simplify_eq]. run H2. run H2.
    destruct x1 as [b5 now]. simplify_eq. eapply gettime_ok_inv; [|done]. by eapply update_time_cache_inv. }
  destruct late; [by simplify_eq|]. destruct (negb (event_continue b4 =? 0)); [by simplify_eq|]. by eapply IH.
Qed.

Lemma process_active_loop_inv fuel n b i c max limit endtime b' r :
  loop_inv b → process_active_loop run_callback fuel b i n c max limit endtime = Some (b', r) →
  loop_inv b'.
Proof.
  revert b i c. induction n as [|n IH]; intros b i c Hi Hp; simpl in Hp; [done|].
  destruct (negb _); [by simplify_eq|]. run Hp. destruct x; [|by eapply IH]. run Hp.
  destruct x as [b1 c1]. assert (Hi1 : loop_inv b1).
  { destruct (_ <? limit); (eapply process_queue_inv; [|done]); by apply (loop_inv_struct b). }
  destruct (c1 <? 0); [by simplify_eq|]. destruct (0 <? c1); [by simplify_eq|]. by eapply IH.
Qed.

Lemma process_active_inv fuel b b' n :
  loop_inv b → event_process_active run_callback fuel b = Some (b', n) → loop_inv b'.
Proof.
  intros Hi Hp. unfold event_process_active in Hp. run Hp. destruct x as [b1 endtime].
  assert (Hi1 : loop_inv b1).
  { destruct (_ <=? _); [|by simplify_eq]. run H0. run H0. destruct x0 as [b2 tv]. simplify_eq.
    eapply gettime_ok_inv; [|done]. by eapply update_time_cache_inv. }
  run Hp. destruct x as [b2 c]. simplify_eq. apply process_active_loop_inv in H1; [|done].
  by apply (loop_inv_struct b2).
Qed.

(** ** The loop *)

Lemma loop_iteration_inv fuel b flags b' s :
  loop_inv b → loop_iteration run_callback fuel b flags = Some (b', s) → loop_inv b'.
Proof.
  intros Hi Hl. unfold loop_iteration in Hl. cbv zeta in Hl.
  assert (Hi0 : loop_inv (set_n_deferreds_queued 0 (set_event_continue 0 b)))
    by (by apply (loop_inv_struct b)).
  set (b0 := set_n_deferreds_queued 0 (set_event_continue 0 b)) in *. clearbody b0. clear Hi.
  destruct (negb (event_gotterm b0 =? 0)); [by simplify_eq|].
  destruct (negb (event_break b0 =? 0)); [by simplify_eq|]. run Hl. destruct x as [b1 tv].
  assert (Hi1 : loop_inv b1).
  { destruct (_ && _); [by eapply timeout_next_inv|by simplify_eq]. }
  destruct (_ && _ && _); [by simplify_eq|]. run Hl. apply make_later_inv in H1; [|done].
  run Hl. destruct x0 as [b3 res]. apply dispatch_inv in H2; [|by apply clear_time_cache_inv].
  destruct (res =? -1); [by simplify_eq|]. run Hl. apply update_time_cache_inv in H3; [|done].
  run Hl. apply timeout_process_inv in H4; [|done]. destruct (negb (event_count_active _ =? 0)).
  - run Hl. destruct x2 as [b6 n]. simplify_eq. eapply process_active_inv; [exact H4|done].
  - by simplify_eq.
Qed.

Lemma loop_while_inv fuel b flags b' r :
  loop_inv b → loop_while run_callback fuel b flags = Some (b', r) → loop_inv b'.
Proof.
  revert b. induction fuel as [|fuel IH]; intros b Hi Hl; [done|].
  cbn [loop_while] in Hl. run Hl. destruct x as [b1 s]. apply loop_iteration_inv in H0; [|done].
  destruct s; [by eapply IH|by simplify_eq..].
Qed.

End callbacks.

(** [event_base_loop] keeps the base consistent also with signal events and events
    that are being finalized: whenever it returns, for callbacks that leave the base
    consistent themselves and do not reuse an event being finalized, every queue, the
    timer heap, the maps and the counters agree with the flags of the events.  (That it
    returns or goes on, for plain events, is in EventLoopTotal.v.) *)
Theorem event_base_loop_invariant run_callback fuel b flags b' r :
  callbacks_ok run_callback → loop_inv b →
  event_base_loop run_callback fuel b flags = Some (b', r) → loop_inv b'.
Proof.
  intros Hcb Hi Hl. unfold event_base_loop in Hl. destruct (negb (running_loop b =? 0)); [by simplify_eq|].
  run Hl. destruct x as [b1 r1]. apply loop_while_inv in H0; [|done|by apply (loop_inv_struct b)].
  injection Hl as <- _. by apply (loop_inv_struct b1).
Qed.
End loop_inv.
