(* ===== verification/EventLoopTotal.v ===== *)
(** * The event loop does not get stuck

    For programs whose callbacks add, delete and activate events, the loop fails no
    assertion, follows no dangling pointer and finishes every iteration, and the base
    stays consistent.  The events are plain ones: not for signals (whose closures can
    leave a dangling pointer, EventSignals.v), not internal and not being finalized. *)

From S2P Require Import Prelude TimeVal MinHeap EvMap EventBase EventCore EventLoop.
From S2P Require Import EventInv EventProps EventTimers EventAdd EventConfig EventLoopInv.

(** A timeout that is normalised and a reading of the clock. *)
Definition time_ok (t : timeval) : Prop := tv_norm t ∧ -2 ^ 63 <= tv_sec t < 2 ^ 63.
Definition good_time (t : timeval) : Prop := tv_norm t ∧ 0 <= tv_sec t < 2 ^ 63.

(** A plain event: its deadline is a time once it was set, and a persistent event has a
    deadline when it has a timeout. *)
Record plain (ev : event) : Prop := {
  pl_closure : ev_closure ev = EV_CLOSURE_EVENT ∨ ev_closure ev = EV_CLOSURE_EVENT_PERSIST;
  pl_init : ev_flags ev &? EVLIST_INIT = true;
  pl_internal : ev_flags ev &? EVLIST_INTERNAL = false;
  pl_final : ev_flags ev &? EVLIST_FINALIZING = false;
  pl_signal : ev_events ev &? EV_SIGNAL = false;
  pl_deadline : ev_flags ev &? EVLIST_TIMEOUT = true → time_ok (ev_timeout ev);
  pl_persist : ev_closure ev = EV_CLOSURE_EVENT_PERSIST →
    time_ok (ev_io_timeout ev) ∧ (ev_io_timeout ev ≠ evutil_timerclear → time_ok (ev_timeout ev))
}.

Lemma plain_rest ev ev' : rest ev' = rest ev → plain ev → plain ev'.
Proof. destruct ev, ev'. cbn. intros [= <- <- <- <- <- <- <- <- <-] []. by split. Qed.

Lemma plain_flags ev k : (∀ f, f = EVLIST_INIT ∨ f = EVLIST_INTERNAL ∨ f = EVLIST_FINALIZING → k &? f = ev_flags ev &? f) →
  (k &? EVLIST_TIMEOUT = true → ev_flags ev &? EVLIST_TIMEOUT = true) → plain ev → plain (set_ev_flags k ev).
Proof. intros Hk Ht []. split; cbn; rewrite ?Hk by auto; auto. Qed.

Lemma plain_clear k ev : k = EVLIST_TIMEOUT ∨ k = EVLIST_ACTIVE ∨ k = EVLIST_QUEUED → plain ev → plain (clear_flag k ev).
Proof. intros Hk. apply plain_flags; [intros f Hf|]; destruct Hk as [->|[->| ->]]; try destruct Hf as [->|[->| ->]]; by flags. Qed.

Lemma plain_activated ev : plain ev → plain (activated ev).
Proof.
  change (activated ev) with (set_ev_flags (Z.lor (Z.land (ev_flags ev) (Z.lnot EVLIST_ACTIVE_LATER)) EVLIST_ACTIVE) ev).
  apply plain_flags; [intros f [->|[->| ->]]|]; by flags.
Qed.

Lemma plain_inserted ev : plain ev → plain (add_flag EVLIST_INSERTED ev).
Proof. unfold add_flag. apply plain_flags; [intros f [->|[->| ->]]|]; cbn; by flags. Qed.

Lemma plain_res ev r : plain ev → plain (set_ev_res r ev).
Proof. intros []. by split. Qed.

Lemma timeradd_time t u : tv_norm t → tv_norm u → time_ok (evutil_timeradd t u).
Proof.
  intros Ht Hu. split; [by apply timeradd_norm|]. unfold evutil_timeradd. destruct (_ <=? _); cbn [tv_sec]; unfold swrap; change (2 ^ (64 - 1)) with (2 ^ 63); match goal with |- context [?a mod 2 ^ 64] => pose proof (Z.mod_pos_bound a (2 ^ 64)) end; lia.
Qed.

(** ** Callbacks as programs over the operations on events

    A callback calls one operation after the other; what it does next may depend on what
    they returned. *)

Inductive ev_call :=
  | call_event_add (e : evp) (tv : option timeval)
  | call_event_del (e : evp)
  | call_event_active (e : evp) (res ncalls : Z)
  | call_event_remove_timer (e : evp)
  | call_loopbreak
  | call_loopcontinue.

Inductive script := script_return | script_call (c : ev_call) (k : Z → script).

(** The calls are for events that the callbacks may use, with normalised timeouts. *)
Definition ev_call_ok (mine : evp → Prop) (c : ev_call) : Prop :=
  match c with
  | call_event_add e tv => mine e ∧ (∀ t, tv = Some t → time_ok t)
  | call_event_del e | call_event_active e _ _ | call_event_remove_timer e => mine e
  | call_loopbreak | call_loopcontinue => True
  end.

Fixpoint script_ok (mine : evp → Prop) (s : script) : Prop :=
  match s with
  | script_return => True
  | script_call c k => ev_call_ok mine c ∧ ∀ r, script_ok mine (k r)
  end.

Section total.
Context `{EventEnv}.
Implicit Types (b : event_base) (m : memory) (e x : evp) (ev : event).

(** The clocks can be read, and the monotonic one is not negative. *)
Definition clock_works : Prop :=
  ∀ w, is_Some (fst (snd (env_clock w))) ∧
    ∀ c, ∃ sec nsec, snd (snd (env_clock w)) c = Some (sec, nsec) ∧ 0 <= sec < 2 ^ 63 ∧ 0 <= nsec < 10 ^ 9.
Hypothesis Hclock : clock_works.

(** The events that the callbacks use. *)
Variable mine : evp → Prop.

(** A consistent base without common timeouts, whose events are plain and that uses the
    monotonic clock. *)
Record good b : Prop := {
  gd_inv : loop_inv b;
  gd_plain : ∀ e ev, get_ev b e = Some ev → plain ev;
  gd_mine : ∀ e, mine e → is_Some (get_ev b e);
  gd_max : max_dispatch_callbacks b <= INT_MAX;
  gd_prio : nactivequeues b < EVENT_MAX_PRIORITIES;
  gd_clock : 0 <= monotonic_clock (monotonic_timer b);
  gd_cache : good_time (tv_cache b)
}.

(** A step keeps the base good, frees no event and keeps the priorities. *)
Definition kept b b' : Prop := good b' ∧ (∀ x, is_Some (get_ev b x) → is_Some (get_ev b' x)) ∧ nactivequeues b' = nactivequeues b.

Lemma kept_refl b : good b → kept b b.
Proof. by split. Qed.
Lemma kept_trans b1 b2 b3 : kept b1 b2 → kept b2 b3 → kept b1 b3.
Proof. intros (_ & Hm & Hn) (Hg & Hm' & Hn'). split; [done|]. split; [auto|congruence]. Qed.

Lemma good_conf b b' : good b → loop_inv b' → (∀ e ev, get_ev b' e = Some ev → plain ev) → (∀ e, is_Some (get_ev b e) → is_Some (get_ev b' e)) →
  conf b' = conf b → kept b b'.
Proof.
  intros [] Hi Hp Hm Hc. unfold conf, nactivequeues in *. injection Hc as E1 E2 E3 E4. split; [|split; [done|unfold nactivequeues; lia]].
  split; unfold nactivequeues; rewrite ?E1, ?E2, ?E3, ?E4; auto.
Qed.

(** Only fields that matter to neither change. *)
Lemma kept_struct b b' : good b → struct_part b' = struct_part b → conf b' = conf b → kept b b'.
Proof.
  intros Hg Hs Hc. assert (Hm : b_evs b' = b_evs b) by (unfold struct_part in Hs; congruence).
  apply (good_conf b); [done|by eapply loop_inv_struct, Hg| | |done]; unfold get_ev; rewrite Hm; [apply (gd_plain _ Hg)|done].
Qed.

Lemma meq_some m m' e f x : meq m' (alter f e m) → is_Some (m !! x) → is_Some (m' !! x).
Proof.
  intros Hm [ev Hx]. specialize (Hm x). destruct (m' !! x); [done|]. exfalso. destruct (decide (x = e)) as [->|Hne].
  - by rewrite lookup_alter_eq, Hx in Hm.
  - by rewrite lookup_alter_ne, Hx in Hm.
Qed.

(** One event changes, the others up to their heap indices. *)
Lemma kept_meq b b' e f : good b → loop_inv b' → meq (b_evs b') (alter f e (b_evs b)) → (∀ ev, get_ev b e = Some ev → plain (f ev)) →
  conf b' = conf b → kept b b'.
Proof.
  intros Hg Hi Hm Hf Hc. apply (good_conf b); [done|done| |intros x; by eapply meq_some|done]. intros x ev' Hx. unfold get_ev in *. specialize (Hm x). rewrite Hx in Hm. cbn in Hm.
  destruct (decide (x = e)) as [->|Hne].
  - rewrite lookup_alter_eq in Hm. destruct (b_evs b !! e) as [ev|] eqn:He; cbn in Hm; [|done]. apply (inj Some) in Hm. eapply plain_rest; [exact Hm|by apply Hf].
  - rewrite lookup_alter_ne in Hm by done. destruct (b_evs b !! x) as [ev|] eqn:He; cbn in Hm; [|done]. apply (inj Some) in Hm. eapply plain_rest; [exact Hm|]. by eapply (gd_plain _ Hg).
Qed.

Lemma kept_queue_op b e f r : good b → (∀ ev, get_ev b e = Some ev → plain (f ev)) → queue_op b e f r → ∃ b', r = Some b' ∧ kept b b'.
Proof.
  intros Hg Hf (b' & -> & Hok & Hm & Henv). exists b'. split; [done|]. apply (kept_meq b b' e f); [done| |done|done|by apply env_conf].
  split; [done|]. rewrite (env_part_ncommon _ _ Henv). apply Hg.
Qed.

Lemma plain_frame b ev : plain ev → frame_ok b ev.
Proof. intros Hp Hs. by rewrite (pl_signal _ Hp) in Hs. Qed.

(** ** Time *)

Lemma gettime_kept b : good b → ∃ b' now, gettime b = Some (b', Some now) ∧ kept b b' ∧ good_time now ∧ b_evs b' = b_evs b.
Proof.
  intros Hg. assert (Hr : ∃ b' now, gettime b = Some (b', Some now) ∧ good_time now).
  { unfold gettime, evutil_gettime_monotonic_. destruct (negb _); [eexists _, _; split; [done|apply Hg]|].
    destruct (Hclock (b_world b)) as [_ Hmono]. destruct (env_clock (b_world b)) as [w [tod mono]] eqn:E. cbn in Hmono. cbn.
    rewrite (proj2 (Z.ltb_ge _ _) (gd_clock _ Hg)). destruct (Hmono (monotonic_clock (monotonic_timer b))) as (sec & nsec & -> & Hs & Hn). cbn.
    assert (Hgt : good_time (mk_timeval sec (nsec ÷ 1000))) by (split; [unfold tv_norm; cbn [tv_usec]; rewrite Z.quot_div_nonneg by lia; split; [apply Z.div_pos; lia|apply Z.div_lt_upper_bound; lia]|done]).
    destruct (_ <? _); [|eauto]. destruct (Hclock w) as [[tod' Ht] _]. destruct (env_clock w) as [w' [t' m']]. cbn in Ht. rewrite Ht. cbn. eauto. }
  destruct Hr as (b' & now & Hgt & Hn). exists b', now. destruct (gettime_struct _ _ _ Hgt) as [Hs _]. split; [done|]. split; [|split; [done|unfold struct_part in Hs; congruence]].
  apply kept_struct; [done|done|by eapply gettime_conf].
Qed.

Lemma gettime_ok_kept b : good b → ∃ b' now, gettime_ok b = Some (b', now) ∧ kept b b' ∧ good_time now ∧ b_evs b' = b_evs b.
Proof. intros Hg. destruct (gettime_kept b Hg) as (b' & now & E & Hk). exists b', now. unfold gettime_ok. by rewrite E. Qed.

Lemma cache_kept b t : good b → good_time t → kept b (set_tv_cache t b).
Proof. intros [] Ht. split; [|done]. split; try done. by apply (loop_inv_struct b). Qed.

Lemma clear_cache_kept b : good b → kept b (clear_time_cache b).
Proof. intros Hg. apply cache_kept; [done|]. destruct (gd_cache _ Hg) as [? _]. split; [done|cbn; lia]. Qed.

Lemma update_cache_kept b : good b → ∃ b', update_time_cache b = Some b' ∧ kept b b'.
Proof.
  intros Hg. pose proof (clear_cache_kept b Hg) as Hk. unfold update_time_cache. destruct (negb _); [|eauto].
  destruct (gettime_kept _ (proj1 Hk)) as (b' & now & -> & Hk' & Hn & _). cbn [mbind option_bind]. eexists. split; [done|].
  eapply kept_trans; [exact Hk|]. eapply kept_trans; [exact Hk'|]. apply cache_kept; [apply Hk'|done].
Qed.

(** ** The operations of the callbacks *)

Lemma del_kept b e ev bl : good b → get_ev b e = Some ev → ∃ b' r, event_del_nolock_ b e bl = Some (b', r) ∧ kept b b'.
Proof.
  intros Hg He. pose proof (gd_plain _ Hg _ _ He) as Hp. destruct (event_del_spec b e ev bl) as (b' & r & fr & Heq & Hok & _ & Hm & Henv & _);
    [apply Hg|done|by apply plain_frame|right; apply Hp|].
  exists b', r. split; [done|]. apply (kept_meq b b' e (clear_flag EVLIST_QUEUED)); [done| |done| |exact (env_conf _ _ Henv)].
  - split; [done|]. rewrite (env_part_ncommon _ _ Henv). apply (gd_inv _ Hg).
  - intros ev' He'. rewrite He in He'. injection He' as <-. apply plain_clear; auto.
Qed.

Lemma kept_except b b' e : good b → loop_inv b' → meq_except e (b_evs b) (b_evs b') → conf b' = conf b →
  (∃ ev', get_ev b' e = Some ev' ∧ plain ev') → kept b b'.
Proof.
  intros Hg Hi Hx Hc (ev' & He' & Hp'). apply (good_conf b); [done|done| | |done].
  - intros x evx Hevx. destruct (decide (x = e)) as [->|Hne]; [congruence|]. specialize (Hx x Hne). unfold get_ev in *. rewrite Hevx in Hx.
    destruct (b_evs b !! x) as [ev0|] eqn:E; [|done]. apply (inj Some) in Hx. eapply plain_rest; [exact Hx|by apply (gd_plain _ Hg x)].
  - intros x [evx Hevx]. destruct (decide (x = e)) as [->|Hne]; [by exists ev'|]. specialize (Hx x Hne). unfold get_ev in *. rewrite Hevx in Hx. by destruct (b_evs b' !! x).
Qed.

Lemma active_kept b e ev res n : good b → get_ev b e = Some ev → ∃ b', event_active_nolock_ b e res n = Some b' ∧ kept b b'.
Proof.
  intros Hg He. pose proof (gd_plain _ Hg _ _ He) as Hp.
  destruct (event_active_spec b e ev res n (proj1 (gd_inv _ Hg)) He (pl_final _ Hp)) as (b' & Heq & (Hok & Hx & ev' & He' & Hf & Hr & Ht & Hv & _ & Hcl) & _ & Hn & Hc & Hio).
  exists b'. split; [done|]. apply (kept_except b b' e); [done| |done|done|].
  { split; [done|]. rewrite Hn. apply (gd_inv _ Hg). }
  exists ev'. split; [done|]. specialize (Hio (pl_signal _ Hp)). rewrite He' in Hio. apply (inj Some) in Hio.
  destruct (plain_activated ev Hp). cbn [activated add_flag clear_flag set_ev_flags] in *.
  split; rewrite ?Hf, ?Hcl, ?Hv, ?Ht, ?Hio; done.
Qed.

(** Waiting events are on the heap: there are no common timeouts. *)
Lemma good_waiting b e ev : good b → get_ev b e = Some ev → ev_flags ev &? EVLIST_TIMEOUT = true → e ∈ elems (b_timeheap b).
Proof.
  intros Hg He Hf. destruct (gd_inv _ Hg) as [Hok Hn]. apply (proj2 (ok_heap _ Hok)). exists (ev_timeout ev). rewrite Hn.
  split; [|apply common_at_0]. unfold tmov. unfold get_ev in He. rewrite He. cbn. unfold tmov1. by rewrite Hf.
Qed.

Lemma plain_timed ev ev' t : plain ev → ev_flags ev' = ev_flags (timed ev) → ev_timeout ev' = t → time_ok t → ev_closure ev' = ev_closure ev →
  ev_events ev' = ev_events ev → (ev_closure ev = EV_CLOSURE_EVENT_PERSIST → time_ok (ev_io_timeout ev')) → plain ev'.
Proof.
  intros [] Hf Ht Htok Hc Hv Hio. assert (Hk : ∀ k, k = EVLIST_INIT ∨ k = EVLIST_INTERNAL ∨ k = EVLIST_FINALIZING → ev_flags ev' &? k = ev_flags ev &? k).
  { intros k Hk. rewrite Hf. unfold timed. destruct (takes_back ev); cbn; destruct Hk as [->|[->| ->]]; by flags. }
  split; rewrite ?Hk, ?Hc, ?Hv, ?Ht by auto; auto.
Qed.

Lemma add_kept b e ev tv absolute : good b → get_ev b e = Some ev → (∀ t, tv = Some t → time_ok t) →
  ∃ b' r, event_add_nolock_ b e tv absolute = Some (b', r) ∧ kept b b'.
Proof.
  intros Hg He Htv. pose proof (gd_plain _ Hg _ _ He) as Hp. destruct (gd_inv _ Hg) as [Hok Hn]. destruct (gettime_kept b Hg) as (bt & now & Hgt & _ & Hnow & _).
  destruct (event_add_spec b e ev tv absolute bt now) as (b' & r & Heq & (Hok' & Hn' & Hout) & Hc & Hkeep); [done|done|apply Hp| | |done|].
  - intros _ Hf. by eapply good_waiting.
  - intros t ->. split; [|split; rewrite Hn; apply common_at_0]. intros _ Hs. exfalso. revert Hs. unfold remembers. destruct (_ && _); cbn; by rewrite (pl_signal _ Hp).
  - exists b', r. split; [done|]. assert (Hi : loop_inv b') by (split; [done|congruence]). destruct Hout as [[_ Hm]|(_ & Hx & ev' & He' & Hev')].
    + apply (good_conf b); [done|done| | |done]; unfold get_ev; rewrite Hm; [apply (gd_plain _ Hg)|done].
    + apply (kept_except b b' e); [done..|]. exists ev'. split; [done|]. destruct (Hkeep _ He') as (Hcl & Hv & Hio). pose proof (registered_same ev) as (_ & _ & _ & R1 & R2 & R3 & R4).
      set (f1 := if registers ev then add_flag EVLIST_INSERTED else id) in *.
      assert (Ef1 : (if registers ev then add_flag EVLIST_INSERTED ev else ev) = f1 ev) by (subst f1; by case_match). rewrite Ef1 in Hev'.
      assert (Hp1 : plain (f1 ev)) by (subst f1; destruct (registers ev); [by apply plain_inserted|done]).
      destruct tv as [t|]; [|by rewrite Hev']. destruct Hev' as [Hf Ht]. specialize (Htv t eq_refl).
      apply (plain_timed (f1 ev) ev' _ Hp1 Hf Ht); [|congruence|congruence|].
      * destruct absolute; [done|]. apply timeradd_time; [apply Hnow|apply Htv].
      * intros Hpers. destruct Hio as [-> |[[= <-] _]]; [|done]. apply (pl_persist _ Hp). congruence.
Qed.

Lemma remove_timer_kept b e ev : good b → get_ev b e = Some ev → ∃ b' r, event_remove_timer_nolock_ b e = Some (b', r) ∧ kept b b'.
Proof.
  intros Hg He. unfold event_remove_timer_nolock_. rewrite He. cbn [mbind option_bind]. destruct (ev_flags ev &? EVLIST_TIMEOUT) eqn:Hf; [|eexists _, _; split; [done|by apply kept_refl]].
  destruct (kept_queue_op b e (clear_flag EVLIST_TIMEOUT) (event_queue_remove_timeout b e)) as (b1 & -> & Hk); [done| |apply (remove_timeout_spec b e ev); [apply Hg|done..]|].
  { intros ev' He'. apply plain_clear; [auto|by apply (gd_plain _ Hg e)]. }
  cbn [mbind option_bind]. eexists _, _. split; [done|]. eapply kept_trans; [exact Hk|]. apply (kept_meq b1 _ e (set_ev_io_timeout evutil_timerclear)); [apply Hk| |done| |done].
  - apply loop_inv_neutral; [done|apply Hk].
  - intros ev1 He1. destruct (gd_plain _ (proj1 Hk) _ _ He1). split; cbn; try done.
Qed.

Definition do_call b (c : ev_call) : option (event_base * Z) :=
  match c with
  | call_event_add e tv => event_add_nolock_ b e tv false
  | call_event_del e => event_del_nolock_ b e EVENT_DEL_AUTOBLOCK
  | call_event_active e res n => b ← event_active_nolock_ b e res n; Some (b, 0)
  | call_event_remove_timer e => event_remove_timer_nolock_ b e
  | call_loopbreak => Some (event_base_loopbreak b, 0)
  | call_loopcontinue => Some (event_base_loopcontinue b, 0)
  end.

Fixpoint run_script b (s : script) : option event_base :=
  match s with
  | script_return => Some b
  | script_call c k => '(b, r) ← do_call b c; run_script b (k r)
  end.

Lemma do_call_kept b c : good b → ev_call_ok mine c → ∃ b' r, do_call b c = Some (b', r) ∧ kept b b'.
Proof.
  intros Hg Hc. assert (Hmine : ∀ e, mine e → ∃ ev, get_ev b e = Some ev) by (intros e He; exact (gd_mine _ Hg e He)).
  destruct c as [e tv|e|e res n|e| |]; cbn [do_call ev_call_ok] in *.
  - destruct Hc as [He Htv]. destruct (Hmine e He) as [ev Hev]. by apply (add_kept b e ev).
  - destruct (Hmine e Hc) as [ev Hev]. by apply (del_kept b e ev).
  - destruct (Hmine e Hc) as [ev Hev]. destruct (active_kept b e ev res n Hg Hev) as (b' & -> & Hk). cbn. eauto.
  - destruct (Hmine e Hc) as [ev Hev]. by apply (remove_timer_kept b e ev).
  - eexists _, _. split; [done|]. by apply kept_struct.
  - eexists _, _. split; [done|]. by apply kept_struct.
Qed.

Lemma run_script_kept s : ∀ b, good b → script_ok mine s → ∃ b', run_script b s = Some b' ∧ kept b b'.
Proof.
  induction s as [|c k IH]; intros b Hg Hs; cbn [run_script script_ok] in *; [eexists; split; [done|by apply kept_refl]|]. destruct Hs as [Hc Hk].
  destruct (do_call_kept b c Hg Hc) as (b1 & r & -> & Hk1). cbn [mbind option_bind]. destruct (IH r b1 (proj1 Hk1) (Hk r)) as (b2 & -> & Hk2). exists b2. split; [done|]. by eapply kept_trans.
Qed.

(** ** Running the active callbacks *)

(** What the callback of an event does. *)
Variable prog : event_base → evp → Z → script.
Hypothesis Hprog : ∀ b e res, script_ok mine (prog b e res).

Definition run_prog b e (res : Z) : option event_base := run_script b (prog b e res).

Lemma invoke_kept b e res : good b → ∃ b', invoke run_prog b e res = Some b' ∧ kept b b'.
Proof. intros Hg. rewrite invoke_eq by apply Hg. by apply run_script_kept. Qed.

Lemma norm_same_common t u : tv_norm t → tv_norm u → is_same_common_timeout t u = true.
Proof.
  intros Ht Hu. unfold is_same_common_timeout. apply Z.eqb_eq. assert (Hz : ∀ v, 0 <= v < 1000000 → Z.land v (Z.lnot MICROSECONDS_MASK) = 0).
  { intros v Hv. rewrite <- Z.ldiff_land. change MICROSECONDS_MASK with (Z.ones 20). rewrite Z.ldiff_ones_r by lia. rewrite Z.shiftr_div_pow2, Z.div_small by lia. apply Z.shiftl_0_l. }
  by rewrite !Hz.
Qed.

Lemma persist_at_time b ev now : good b → plain ev → ev_closure ev = EV_CLOSURE_EVENT_PERSIST → ev_io_timeout ev ≠ evutil_timerclear → good_time now → time_ok (persist_run_at b ev now).
Proof.
  intros Hg Hp Hc Hne [Hnow _]. destruct (pl_persist _ Hp Hc) as [[Hio _] Ht]. destruct (Ht Hne) as [Hd _]. unfold persist_run_at.
  assert (is_common_timeout (ev_timeout ev) b = false) as ->.
  { unfold is_common_timeout. change (common_at (n_common_timeouts b) (ev_timeout ev) = false). rewrite (proj2 (gd_inv _ Hg)). apply common_at_0. }
  cbv zeta. rewrite Z.lor_0_r. destruct (evutil_timercmp _ _ _).
  - destruct (timeradd_time now (ev_io_timeout ev) Hnow Hio). by split.
  - destruct (timeradd_time (if ev_res ev &? EV_TIMEOUT then ev_timeout ev else now) (ev_io_timeout ev)) as [? ?]; [by destruct (_ &? _)|done|]. by split.
Qed.

Lemma persist_closure_kept b e ev : good b → get_ev b e = Some ev → ev_closure ev = EV_CLOSURE_EVENT_PERSIST → ∃ b', event_persist_closure run_prog b e = Some b' ∧ kept b b'.
Proof.
  intros Hg He Hc. pose proof (gd_plain _ Hg _ _ He) as Hp. unfold event_persist_closure. rewrite He. cbn [mbind option_bind].
  assert (Hadd : ∃ b1, (if negb (tv_sec (ev_io_timeout ev) =? 0) || negb (tv_usec (ev_io_timeout ev) =? 0) then
      ASSERT (is_same_common_timeout (ev_timeout ev) (ev_io_timeout ev)) ;; '(b, now) ← gettime_ok b; '(b, _) ← event_add_nolock_ b e (Some (persist_run_at b ev now)) true; Some b
      else Some b) = Some b1 ∧ kept b b1).
  { destruct (_ || _) eqn:Hnz; [|eexists; split; [done|by apply kept_refl]].
    assert (Hne : ev_io_timeout ev ≠ evutil_timerclear) by (intros E; by rewrite E in Hnz). destruct (pl_persist _ Hp Hc) as [[Hio _] Ht]. destruct (Ht Hne) as [Hd _].
    rewrite norm_same_common by done. cbn [evassert mbind option_bind]. destruct (gettime_ok_kept b Hg) as (b2 & now & -> & Hk2 & Hnow & Hm2). cbn [mbind option_bind].
    destruct (add_kept b2 e ev (Some (persist_run_at b2 ev now)) true) as (b3 & r & -> & Hk3); [apply Hk2|unfold get_ev in *; by rewrite Hm2| |].
    { intros t [= <-]. apply persist_at_time; [apply Hk2|done..]. }
    eexists. split; [done|]. by eapply kept_trans. }
  destruct Hadd as (b1 & -> & Hk1). cbn [mbind option_bind]. destruct (proj1 (proj2 Hk1) e) as [ev1 ->]; [by exists ev|]. cbn [mbind option_bind].
  destruct (invoke_kept b1 e (ev_res ev1) (proj1 Hk1)) as (b2 & -> & Hk2). exists b2. split; [done|]. by eapply kept_trans.
Qed.

Lemma run_closure_kept b e ev : good b → get_ev b e = Some ev → ∃ b', run_closure run_prog b e = Some b' ∧ kept b b'.
Proof.
  intros Hg He. pose proof (gd_plain _ Hg _ _ He) as Hp. unfold run_closure. rewrite He. cbn [mbind option_bind]. rewrite (pl_init _ Hp).
  destruct (pl_closure _ Hp) as [E|E]; rewrite E; cbn [Z.eqb Pos.eqb evassert mbind option_bind]; [by apply invoke_kept|by apply (persist_closure_kept b e ev)].
Qed.

Lemma take_active_kept b e ev : good b → get_ev b e = Some ev → ev_flags ev &? EVLIST_ACTIVE = true → ∃ b', take_active b e = Some b' ∧ kept b b'.
Proof.
  intros Hg He Ha. pose proof (gd_plain _ Hg _ _ He) as Hp. unfold take_active. rewrite He. cbn [mbind option_bind]. rewrite (pl_init _ Hp), (pl_final _ Hp), orb_false_r.
  destruct (ev_events ev &? EV_PERSIST).
  - apply (kept_queue_op b e (clear_flag EVLIST_ACTIVE)); [done| |by apply (remove_active_spec b e ev); [apply Hg|..]].
    intros ev' He'. apply plain_clear; [auto|by apply (gd_plain _ Hg e)].
  - destruct (del_kept b e ev EVENT_DEL_NOBLOCK Hg He) as (b' & r & -> & Hk). cbn. eauto.
Qed.

(** The first callback of a queue. *)
Lemma first_active_ok b i : good b → (Z.of_nat i < nactivequeues b) → ∃ o, first_active b i = Some o ∧
  match o with Some e => ∃ ev, get_ev b e = Some ev ∧ ev_flags ev &? EVLIST_ACTIVE = true | None => True end.
Proof.
  intros Hg Hi. unfold first_active. destruct (lookup_lt_is_Some_2 (b_activequeues b) i) as [q Hq]; [unfold nactivequeues in Hi; lia|]. rewrite Hq. cbn. eexists. split; [done|].
  destruct q as [|e q]; [done|]. cbn. destruct (proj1 (ok_active _ (proj1 (gd_inv _ Hg))) e (Z.of_nat i)) as [_ Hv].
  assert (Ha : actv (b_evs b) e = Some (Z.of_nat i)) by (apply Hv; split; [lia|]; exists (e :: q); rewrite Nat2Z.id; split; [done|by left]).
  unfold actv in Ha. unfold get_ev. destruct (b_evs b !! e) as [ev|]; [|done]. exists ev. split; [done|]. cbn in Ha. unfold actv1 in Ha. by destruct (ev_flags ev &? EVLIST_ACTIVE).
Qed.

Lemma process_queue_kept i max endtime : ∀ fuel b count, good b → Z.of_nat i < nactivequeues b → 0 <= count → (Z.to_nat (max - count) < fuel)%nat →
  ∃ b' c, process_queue_loop run_prog fuel b i count max endtime = Some (b', c) ∧ kept b b'.
Proof.
  induction fuel as [|fuel IH]; intros b count Hg Hi Hc Hf; [lia|]. cbn [process_queue_loop]. destruct (first_active_ok b i Hg Hi) as ([e|] & -> & He); cbn [mbind option_bind];
    [|eexists _, _; split; [done|by apply kept_refl]].
  destruct He as (ev & He & Ha). destruct (take_active_kept b e ev Hg He Ha) as (b1 & -> & Hk1). cbn [mbind option_bind]. destruct (proj1 (proj2 Hk1) e) as [ev1 He1]; [by exists ev|].
  rewrite He1. cbn [mbind option_bind]. rewrite (pl_internal _ (gd_plain _ (proj1 Hk1) _ _ He1)). cbn [negb].
  destruct (kept_struct b1 (set_current_event e b1) (proj1 Hk1)) as (Hg1 & _ & Hn1); [done..|].
  destruct (run_closure_kept (set_current_event e b1) e ev1 Hg1 He1) as (b2 & -> & Hk2). cbn [mbind option_bind].
  assert (Hk3 : kept b (set_current_event NULL b2)).
  { eapply kept_trans; [exact Hk1|]. apply (kept_trans _ (set_current_event e b1)); [by apply kept_struct; [apply Hk1|..]|]. eapply kept_trans; [exact Hk2|]. by apply kept_struct; [apply Hk2|..]. }
  set (b3 := set_current_event NULL b2) in *. destruct (negb (event_break b3 =? 0)); [eauto|]. destruct (Z.leb_spec max (count + 1)) as [|Hlt]; [eauto|].
  assert (Hlate : ∃ b4 late, (match endtime with Some endtime => if negb (count + 1 =? 0) then b ← update_time_cache b3; '(b, now) ← gettime_ok b; Some (b, evutil_timercmp now endtime Z.geb) else Some (b3, false)
      | None => Some (b3, false) end) = Some (b4, late) ∧ kept b3 b4).
  { destruct endtime; [|eexists _, _; split; [done|apply kept_refl, Hk3]]. destruct (negb _); [|eexists _, _; split; [done|apply kept_refl, Hk3]].
    destruct (update_cache_kept b3 (proj1 Hk3)) as (b4 & -> & Hk4). cbn [mbind option_bind]. destruct (gettime_ok_kept b4 (proj1 Hk4)) as (b5 & now & -> & Hk5 & _). cbn. eexists _, _. split; [done|]. by eapply kept_trans. }
  destruct Hlate as (b4 & late & -> & Hk4). cbn [mbind option_bind]. pose proof (kept_trans _ _ _ Hk3 Hk4) as Hk. destruct late; [eauto|]. destruct (negb _); [eauto|].
  destruct (IH b4 (count + 1)) as (b5 & c & -> & Hk5); [apply Hk|rewrite (proj2 (proj2 Hk)); done|lia|lia|]. eexists _, _. split; [done|]. by eapply kept_trans.
Qed.

Lemma process_active_loop_kept fuel maxcb limit endtime : (Z.to_nat INT_MAX < fuel)%nat → maxcb <= INT_MAX → ∀ n b i c, good b → 0 <= nactivequeues b - Z.of_nat i < Z.of_nat n →
  ∃ b' r, process_active_loop run_prog fuel b i n c maxcb limit endtime = Some (b', r) ∧ kept b b'.
Proof.
  intros Hf Hmax. induction n as [|n IH]; intros b i c Hg Hn; [lia|]. cbn [process_active_loop].
  destruct (Z.ltb_spec (Z.of_nat i) (nactivequeues b)) as [Hi|Hi]; cbn [negb]; [|eexists _, _; split; [done|by apply kept_refl]].
  destruct (first_active_ok b i Hg Hi) as ([e|] & -> & _); cbn [mbind option_bind]; [|apply IH; [done|lia]].
  assert (Hk0 : kept b (set_event_running_priority (Z.of_nat i) b)) by (by apply kept_struct). set (b0 := set_event_running_priority (Z.of_nat i) b) in *.
  assert (Hq : ∃ b1 c1, (if Z.of_nat i <? limit then event_process_active_single_queue run_prog fuel b0 i INT_MAX None else event_process_active_single_queue run_prog fuel b0 i maxcb endtime) = Some (b1, c1) ∧ kept b0 b1).
  { destruct (_ <? limit); apply process_queue_kept; try apply Hk0; try done; rewrite ?(proj2 (proj2 Hk0)); try done; lia. }
  destruct Hq as (b1 & c1 & -> & Hk1). cbn [mbind option_bind]. pose proof (kept_trans _ _ _ Hk0 Hk1) as Hk. destruct (c1 <? 0); [eauto|]. destruct (0 <? c1); [eauto|].
  destruct (IH b1 (S i) c1) as (b2 & r & -> & Hk2); [apply Hk|rewrite (proj2 (proj2 Hk)); lia|]. eexists _, _. split; [done|]. by eapply kept_trans.
Qed.

Lemma process_active_kept fuel b : (Z.to_nat INT_MAX < fuel)%nat → good b → ∃ b' n, event_process_active run_prog fuel b = Some (b', n) ∧ kept b b'.
Proof.
  intros Hf Hg. unfold event_process_active.
  assert (Hend : ∃ b1 endtime, (if 0 <=? tv_sec (max_dispatch_time b) then b ← update_time_cache b; '(b, tv) ← gettime_ok b; Some (b, Some (evutil_timeradd (max_dispatch_time b) tv)) else Some (b, None)) = Some (b1, endtime) ∧ kept b b1).
  { destruct (0 <=? _); [|eexists _, _; split; [done|by apply kept_refl]]. destruct (update_cache_kept b Hg) as (b1 & -> & Hk1). cbn [mbind option_bind].
    destruct (gettime_ok_kept b1 (proj1 Hk1)) as (b2 & now & -> & Hk2 & _). cbn. eexists _, _. split; [done|]. by eapply kept_trans. }
  assert (Hn : nactivequeues b < Z.of_nat (Z.to_nat EVENT_MAX_PRIORITIES)) by (pose proof (gd_prio _ Hg); lia). revert Hn. generalize (Z.to_nat EVENT_MAX_PRIORITIES). intros n Hn.
  destruct Hend as (b1 & endtime & -> & Hk1). cbn [mbind option_bind].
  destruct (process_active_loop_kept fuel (max_dispatch_callbacks b) (limit_callbacks_after_prio b) endtime Hf (gd_max _ Hg) n b1 0 0 (proj1 Hk1)) as (b2 & r & -> & Hk2).
  { rewrite (proj2 (proj2 Hk1)). unfold nactivequeues in *. lia. }
  cbn [mbind option_bind]. eexists _, _. split; [done|]. eapply kept_trans; [exact Hk1|]. eapply kept_trans; [exact Hk2|]. by apply kept_struct; [apply Hk2|..].
Qed.

(** ** The other parts of an iteration *)

Lemma good_frames b : good b → ∀ x ev, x ∈ elems (b_timeheap b) → get_ev b x = Some ev → frame_ok b ev.
Proof. intros Hg x ev _ He. by apply plain_frame, (gd_plain _ Hg x). Qed.

Lemma timeout_loop_kept now : ∀ n b b', good b → timeout_process_loop n b now = Some b' → kept b b'.
Proof.
  induction n as [|n IH]; intros b b' Hg Ht; cbn [timeout_process_loop] in Ht; [done|]. run Ht. rename x into e. destruct (e =? NULL); [injection Ht as <-; by apply kept_refl|].
  run Ht. rename x into ev. destruct (evutil_timercmp _ _ _); [injection Ht as <-; by apply kept_refl|]. destruct (del_kept b e ev EVENT_DEL_NOBLOCK Hg) as (b1 & r & E1 & Hk1); [done|].
  rewrite E1 in Ht. cbn [mbind option_bind] in Ht. destruct (proj1 (proj2 Hk1) e) as [ev1 He1]; [by eexists|]. destruct (active_kept b1 e ev1 EV_TIMEOUT 1 (proj1 Hk1) He1) as (b2 & E2 & Hk2).
  rewrite E2 in Ht. cbn [mbind option_bind] in Ht. eapply kept_trans; [exact Hk1|]. eapply kept_trans; [exact Hk2|]. apply IH; [apply Hk2|done].
Qed.

Lemma timeout_process_kept b : good b → ∃ b', timeout_process b = Some b' ∧ kept b b'.
Proof.
  intros Hg. unfold timeout_process. destruct (min_heap_empty_ _); [eexists; split; [done|by apply kept_refl]|]. destruct (gettime_ok_kept b Hg) as (b1 & now & E & Hk1 & _). rewrite E. cbn [mbind option_bind].
  destruct (timeout_process_loop_spec now (S (min_heap_size_ (b_timeheap b1))) b1) as (b' & E' & _); [apply Hk1|by apply good_frames, Hk1|unfold min_heap_size_; lia|].
  exists b'. split; [done|]. eapply kept_trans; [exact Hk1|]. eapply timeout_loop_kept; [apply Hk1|exact E'].
Qed.

Lemma timeout_next_kept b : good b → ∃ b' tv, timeout_next b = Some (b', tv) ∧ kept b b'.
Proof.
  intros Hg. destruct (gettime_kept b Hg) as (bt & now & Hgt & Hkt & [Hnow Hpos] & _).
  destruct (timeout_next_earliest b bt now) as (b' & tv & E & _); [apply Hg|done|done| |].
  - intros x ev Hx He. destruct (heap_member b x ev (proj1 (gd_inv _ Hg)) Hx He) as [Hf _]. destruct (pl_deadline _ (gd_plain _ Hg _ _ He) Hf) as [Hn Hr]. split; [done|].
    unfold sub_fits, tv_us, tv_norm in *. intros. lia.
  - exists b', tv. split; [done|]. unfold timeout_next in E. apply bind_Some in E as (e & _ & E). destruct (e =? NULL); [injection E as <- _; by apply kept_refl|]. apply bind_Some in E as (ev & _ & E).
    rewrite Hgt in E. cbn [mbind option_bind] in E. destruct (evutil_timercmp _ _ _); [by injection E as <- _|]. apply bind_Some in E as (? & _ & E). apply bind_Some in E as (? & _ & E). by injection E as <- _.
Qed.

Lemma later_loop_conf l : ∀ b b', make_later_loop l b = Some b' → conf b' = conf b.
Proof.
  induction l as [|e l IH]; intros b b' E; cbn [make_later_loop] in E; [by injection E as <-|]. apply bind_Some in E as (ev & _ & E). apply bind_Some in E as (b1 & E1 & E). rewrite (IH _ _ E).
  unfold append_to_active in E1. apply bind_Some in E1 as (? & _ & E1). destruct (_ <? 0); [done|]. apply bind_Some in E1 as (q & _ & [= <-]). unfold conf. cbn. by rewrite length_insert.
Qed.

Lemma later_loop_mem l : ∀ b b' x ev', make_later_loop l b = Some b' → get_ev b' x = Some ev' → is_Some (get_ev b x).
Proof.
  induction l as [|e l IH]; intros b b' x ev' E Hx; cbn [make_later_loop] in E; [injection E as <-; by exists ev'|].
  apply bind_Some in E as (ev & He & E). apply bind_Some in E as (b1 & E1 & E). destruct (IH _ _ x ev' E Hx) as [ev1 Hx1].
  unfold append_to_active in E1. apply bind_Some in E1 as (? & _ & E1). destruct (_ <? 0); [done|]. apply bind_Some in E1 as (q & _ & [= <-]). unfold get_ev in *. cbn in Hx1.
  destruct (decide (x = e)) as [->|Hne]; [by exists ev|]. rewrite lookup_alter_ne in Hx1 by done. by exists ev1.
Qed.

Lemma make_later_kept b : good b → ∃ b', event_queue_make_later_events_active b = Some b' ∧ kept b b'.
Proof.
  intros Hg. unfold event_queue_make_later_events_active. destruct (make_later_loop_spec (b_later b) b) as (b' & E & Hok & _ & Hc & Hev & _); [apply Hg|done|]. exists b'. split; [done|].
  apply (good_conf b); [done| | | |by eapply later_loop_conf].
  - split; [done|]. unfold n_common_timeouts. rewrite Hc. apply (gd_inv _ Hg).
  - intros x ev' Hx. destruct (later_loop_mem _ _ _ x ev' E Hx) as [ev He]. rewrite (Hev x ev He) in Hx. injection Hx as <-. pose proof (gd_plain _ Hg _ _ He). case_decide; [by apply plain_activated|done].
  - intros x [ev He]. rewrite (Hev x ev He). by eexists.
Qed.

Lemma active_all_kept n : ∀ evs b, good b → Forall (λ p, is_Some (get_ev b (fst p))) evs → ∃ b', active_all b evs n = Some b' ∧ kept b b'.
Proof.
  induction evs as [|[e res] evs IH]; intros b Hg Hevs; cbn [active_all]; [eexists; split; [done|by apply kept_refl]|]. apply Forall_cons in Hevs as [[ev He] Hevs].
  destruct (active_kept b e ev res n Hg He) as (b1 & -> & Hk1). cbn [mbind option_bind]. destruct (IH b1 (proj1 Hk1)) as (b2 & -> & Hk2).
  - eapply Forall_impl; [exact Hevs|]. intros p. apply Hk1.
  - exists b2. split; [done|]. by eapply kept_trans.
Qed.

Lemma inserted_some b x p : insv (b_evs b) x = Some p → is_Some (get_ev b x).
Proof. unfold insv, get_ev. by destruct (b_evs b !! x). Qed.

Lemma report_kept b r : good b → ∃ b', apply_report b r = Some b' ∧ kept b b'.
Proof.
  intros Hg. destruct r as [fd events|sig n]; apply active_all_kept; try done; apply Forall_forall.
  - intros p. unfold evmap_io_active_. destruct (_ || _) eqn:Hr; [by intros ?%elem_of_nil|]. apply orb_false_iff in Hr as [Hfd%Z.ltb_ge _].
    destruct (b_io b !! Z.to_nat fd) as [[c|]|] eqn:Hio; [|by intros ?%elem_of_nil..]. intros (e & -> & [_ He]%list_elem_of_filter)%list_elem_of_fmap. cbn [fst].
    destruct (proj1 (proj2 (ok_io _ (proj1 (gd_inv _ Hg))) e fd Hfd)) as (evts & Hv & _); [|by eapply inserted_some]. unfold evs_at. by rewrite (proj2 (Z.ltb_ge _ _) Hfd), Hio.
  - intros p (e & -> & He)%list_elem_of_fmap. cbn [fst]. revert He. unfold evmap_signal_active_. destruct (_ || _) eqn:Hr; [by intros ?%elem_of_nil|]. apply orb_false_iff in Hr as [Hs%Z.ltb_ge _].
    intros He. destruct (proj1 (ok_sig _ (proj1 (gd_inv _ Hg)) e sig Hs)) as (evts & Hv & _); [|by eapply inserted_some]. unfold sig_evs. by rewrite (proj2 (Z.ltb_ge _ _) Hs).
Qed.

Lemma reports_kept rs : ∀ b, good b → ∃ b', apply_reports b rs = Some b' ∧ kept b b'.
Proof.
  induction rs as [|r rs IH]; intros b Hg; cbn [apply_reports]; [eexists; split; [done|by apply kept_refl]|]. destruct (report_kept b r Hg) as (b1 & -> & Hk1). cbn [mbind option_bind].
  destruct (IH b1 (proj1 Hk1)) as (b2 & -> & Hk2). exists b2. split; [done|]. by eapply kept_trans.
Qed.

Lemma dispatch_kept b tv : good b → ∃ b' r, dispatch b tv = Some (b', r) ∧ kept b b'.
Proof.
  intros Hg. unfold dispatch. destruct (env_dispatch _ _ _ _) as [[[be sbe] w] rs]. assert (Hk : kept b (set_b_be be (set_b_sbe sbe (set_b_world w b)))) by (by apply kept_struct).
  destruct rs as [rs|]; [|eauto]. destruct (reports_kept rs _ (proj1 Hk)) as (b1 & -> & Hk1). cbn [mbind option_bind]. eexists _, _. split; [done|]. exact (kept_trans _ _ _ Hk Hk1).
Qed.

(** ** The loop *)

(** Nothing is left to wait for. *)
Definition no_events b : Prop := event_haveevents b = false ∧ event_count_active b = 0.

Lemma loop_iteration_kept fuel b flags : (Z.to_nat INT_MAX < fuel)%nat → good b →
  ∃ b' s, loop_iteration run_prog fuel b flags = Some (b', s) ∧ kept b b' ∧ match s with LoopReturn r => (r = 1 ∧ no_events b') ∨ r = -1 | _ => True end.
Proof.
  intros Hf Hg. unfold loop_iteration. cbv zeta. assert (Hk0 : kept b (set_n_deferreds_queued 0 (set_event_continue 0 b))) by (by apply kept_struct).
  set (b0 := set_n_deferreds_queued 0 (set_event_continue 0 b)) in *. clearbody b0. destruct (negb (event_gotterm b0 =? 0)); [by eexists _, _|]. destruct (negb (event_break b0 =? 0)); [by eexists _, _|].
  assert (Hnext : ∃ b1 tv, (if (event_count_active b0 =? 0) && negb (flags &? EVLOOP_NONBLOCK) then timeout_next b0 else Some (b0, Some evutil_timerclear)) = Some (b1, tv) ∧ kept b0 b1).
  { destruct (_ && _); [by apply timeout_next_kept, Hk0|]. eexists _, _. split; [done|]. apply kept_refl, Hk0. }
  destruct Hnext as (b1 & tv & -> & Hk1). cbn [mbind option_bind]. pose proof (kept_trans _ _ _ Hk0 Hk1) as K1.
  destruct (negb (flags &? EVLOOP_NO_EXIT_ON_EMPTY) && negb (event_haveevents b1) && (event_count_active b1 =? 0)) eqn:Hempty.
  { eexists _, _. split; [done|]. split; [done|]. left. split; [done|]. apply andb_prop in Hempty as [[_ ?%negb_true_iff]%andb_prop ?%Z.eqb_eq]. done. }
  destruct (make_later_kept b1 (proj1 K1)) as (b2 & -> & Hk2). cbn [mbind option_bind]. pose proof (kept_trans _ _ _ K1 Hk2) as K2. pose proof (kept_trans _ _ _ K2 (clear_cache_kept b2 (proj1 K2))) as K2'.
  destruct (dispatch_kept (clear_time_cache b2) tv (proj1 K2')) as (b3 & r & -> & Hk3). cbn [mbind option_bind]. pose proof (kept_trans _ _ _ K2' Hk3) as K3. destruct (r =? -1); [eexists _, _; split; [done|]; auto|].
  destruct (update_cache_kept b3 (proj1 K3)) as (b4 & -> & Hk4). cbn [mbind option_bind]. pose proof (kept_trans _ _ _ K3 Hk4) as K4.
  destruct (timeout_process_kept b4 (proj1 K4)) as (b5 & -> & Hk5). cbn [mbind option_bind]. pose proof (kept_trans _ _ _ K4 Hk5) as K5. destruct (negb (event_count_active b5 =? 0)).
  - destruct (process_active_kept fuel b5 Hf (proj1 K5)) as (b6 & n & -> & Hk6). cbn [mbind option_bind]. pose proof (kept_trans _ _ _ K5 Hk6) as K6. eexists _, _. split; [done|]. split; [done|]. by destruct ((flags &? EVLOOP_ONCE) && (event_count_active b6 =? 0) && negb (n =? 0)).
  - eexists _, _. split; [done|]. split; [done|]. by destruct (flags &? EVLOOP_NONBLOCK).
Qed.

(** [n] iterations after each of which the loop goes on. *)
Inductive continues (flags : Z) : nat → event_base → event_base → Prop :=
  | continues_now b : continues flags 0 b b
  | continues_on n fuel b b1 b' : loop_iteration run_prog fuel b flags = Some (b1, LoopContinue) → continues flags n b1 b' → continues flags (S n) b b'.

Lemma loop_while_kept fuel flags : (Z.to_nat INT_MAX < fuel)%nat → ∀ n b, good b →
  (∃ b' r, loop_while run_prog (n + fuel) b flags = Some (b', r) ∧ kept b b' ∧ (r = 0 ∨ (r = 1 ∧ no_events b') ∨ r = -1)) ∨
  (∃ b', continues flags n b b' ∧ kept b b').
Proof.
  intros Hf. induction n as [|n IH]; intros b Hg; [right; exists b; split; [constructor|by apply kept_refl]|]. cbn [Nat.add loop_while].
  destruct (loop_iteration_kept (S (n + fuel)) b flags ltac:(lia) Hg) as (b1 & s & E & Hk1 & Hs). rewrite E. cbn [mbind option_bind]. destruct s as [| |r].
  - destruct (IH b1 (proj1 Hk1)) as [(b' & r & Hl & Hk' & Hr)|(b' & Hc & Hk')]; [left|right].
    + exists b', r. split; [done|]. split; [by eapply kept_trans|done].
    + exists b'. split; [by econstructor|by eapply kept_trans].
  - left. exists b1, 0. auto.
  - left. exists b1, r. split; [done|]. split; [done|]. right. destruct Hs as [[-> ?]| ->]; auto.
Qed.

(** The events count: a base that has none left has only idle events. *)
Lemma wt1_nonneg ev : 0 <= wt1 ev.
Proof. unfold wt1, b2z. repeat case_match; lia. Qed.

Lemma sum_bounds (m : gmap evp Z) : (∀ e z, m !! e = Some z → 0 <= z) →
  let s := map_fold (λ _ z acc, z + acc) 0 m in 0 <= s ∧ ∀ e z, m !! e = Some z → z <= s.
Proof.
  apply (map_fold_weak_ind (λ (s : Z) (k : gmap evp Z), (∀ e z, k !! e = Some z → 0 <= z) → 0 <= s ∧ ∀ e z, k !! e = Some z → z <= s)); [by split|].
  intros e z m' r Hnone IH Hz. assert (H0 : 0 <= z) by (by apply (Hz e), lookup_insert_eq). destruct IH as [Hr Hall].
  { intros e' z' He'. apply (Hz e'). rewrite lookup_insert_ne by congruence. done. }
  split; [lia|]. intros e' z' [[<- <-]|[_ He']]%lookup_insert_Some; [lia|]. specialize (Hall e' z' He'). lia.
Qed.

Lemma no_events_idle b : good b → no_events b → virtual_event_count b <= 0 ∧ ∀ e ev, get_ev b e = Some ev → idle ev.
Proof.
  intros Hg [Hh _]. unfold event_haveevents in Hh. apply orb_false_iff in Hh as [Hv%Z.ltb_ge Hc%Z.ltb_ge]. split; [done|]. intros e ev He. rewrite (ok_count _ (proj1 (gd_inv _ Hg))) in Hc.
  destruct (sum_bounds (wt1 <$> b_evs b)) as [_ Hle].
  { intros x z Hx. rewrite lookup_fmap in Hx. destruct (b_evs b !! x); [|done]. injection Hx as <-. apply wt1_nonneg. }
  specialize (Hle e (wt1 ev)). rewrite lookup_fmap in Hle. unfold get_ev in He. rewrite He in Hle. specialize (Hle eq_refl). change (wt1 ev <= total (b_evs b)) in Hle.
  assert (Hw : wt1 ev <= 0) by lia. unfold wt1 in Hw. rewrite (pl_internal _ (gd_plain _ Hg e ev He)) in Hw. unfold idle.
  change EVLIST_QUEUED with (Z.lor EVLIST_TIMEOUT (Z.lor EVLIST_INSERTED (Z.lor EVLIST_ACTIVE EVLIST_ACTIVE_LATER))). rewrite !flag_orb. unfold b2z in Hw.
  destruct (ev_flags ev &? EVLIST_TIMEOUT), (ev_flags ev &? EVLIST_INSERTED), (ev_flags ev &? EVLIST_ACTIVE), (ev_flags ev &? EVLIST_ACTIVE_LATER); try done; lia.
Qed.

(** The state in which the first iteration starts. *)
Definition loop_start b : event_base := set_event_gotterm 0 (set_event_break 0 (clear_time_cache (set_running_loop 1 b))).

(** C5. [event_base_loop] does not get stuck.  The callbacks are arbitrary programs that
    add (with normalised timeouts), delete and activate events, remove their timeouts and
    break or continue the loop, each call depending on the results of those before; the
    events are plain (not for signals, not internal, not being finalized), there are no
    common timeouts, the clock can be read and descriptors are below 2^27.  Then, with whatever flags and whatever the
    backend reports, for every number [n]: the loop returns within [n] iterations, or it
    has completed [n] iterations and goes on.  Every iteration ends (each queue runs at
    most INT_MAX callbacks), no assertion fails, no dangling pointer is followed, and
    afterwards every queue, the timer heap, the maps and the counters agree with the flags
    of the events.  The result is 0, -1, or 1, and with 1 no event is left that waits for
    anything or is active. *)
Theorem event_base_loop_total fuel n b flags : good b → (Z.to_nat INT_MAX < fuel)%nat →
  (∃ b' r, event_base_loop run_prog (n + fuel) b flags = Some (b', r) ∧ good b' ∧
     (r = 0 ∨ r = -1 ∨ r = 1 ∧ virtual_event_count b' <= 0 ∧ ∀ e ev, get_ev b' e = Some ev → idle ev)) ∨
  (running_loop b = 0 ∧ ∃ b', continues flags n (loop_start b) b' ∧ good b').
Proof.
  intros Hg Hf. unfold event_base_loop. destruct (Z.eqb_spec (running_loop b) 0) as [Hz|_]; cbn [negb]; [|left; exists b, (-1); auto].
  assert (Hk : kept b (loop_start b)).
  { assert (Hk1 : kept b (set_running_loop 1 b)) by (by apply kept_struct). pose proof (clear_cache_kept _ (proj1 Hk1)) as Hk2.
    eapply kept_trans; [exact Hk1|]. eapply kept_trans; [exact Hk2|]. by apply kept_struct; [apply Hk2|..]. }
  fold (loop_start b). destruct (loop_while_kept fuel flags Hf n (loop_start b) (proj1 Hk)) as [(b1 & r & -> & Hk1 & Hr)|(b1 & Hc & Hk1)]; [left|right; split; [done|]; exists b1; split; [done|apply Hk1]].
  cbn [mbind option_bind]. pose proof (clear_cache_kept b1 (proj1 Hk1)) as Hk2. assert (Hg3 : good (set_running_loop 0 (clear_time_cache b1))) by (apply (kept_struct (clear_time_cache b1)); [apply Hk2|done..]).
  eexists _, r. split; [done|]. split; [done|]. destruct Hr as [?|[[? Hno]|?]]; auto. right; right. split; [done|]. by apply no_events_idle.
Qed.
End total.
