(* ===== verification/EventDispatch.v ===== *)
(** * The order in which callbacks run

    [event_process_active] runs the callbacks of the most urgent priority that
    has any, each exactly once and in the order in which they became active, and
    leaves the less urgent priorities for the next iteration.  The callbacks here
    record that they ran ([note]) and leave the base alone. *)

From S2P Require Import Prelude TimeVal MinHeap EvMap EventBase EventCore EventLoop.
From S2P Require Import EventInv EventProps EventTimers EventAdd EventConfig EventLoopInv.

Section dispatch.
Context `{EventEnv}.
Implicit Types (b : event_base) (m : memory) (e x : evp) (ev : event) (q : list evp).

(** ** Deleting an event and the active queues *)

Lemma abort_queues b ev b' :
  (if ev_events ev &? EV_SIGNAL then abort_signal_loop b ev else Some b) = Some b' →
  b_activequeues b' = b_activequeues b ∧ b_evs b' = b_evs b.
Proof.
  unfold abort_signal_loop. destruct (ev_events ev &? EV_SIGNAL); [|by intros [= <-]].
  destruct (_ && _); [|by intros [= <-]]. destruct (b_frames b !! _); [|done]. by intros [= <-].
Qed.

Lemma remove_timeout_queues b e b' :
  event_queue_remove_timeout b e = Some b' → b_activequeues b' = b_activequeues b.
Proof.
  unfold event_queue_remove_timeout. intros Hr. run Hr. destruct (negb _); [done|]. cbv zeta in Hr.
  destruct (is_common_timeout _ _).
  - run Hr. destruct x0 as [i ctl]. run Hr. by simplify_eq.
  - run Hr. destruct x0 as [[h m] r]. by simplify_eq.
Qed.

Lemma remove_active_queues b e b' : event_queue_remove_active b e = Some b' →
  ∃ ev q, get_ev b e = Some ev ∧ b_activequeues b !! Z.to_nat (ev_pri ev) = Some q ∧
    b_activequeues b' = <[Z.to_nat (ev_pri ev) := filter (.≠ e) q]> (b_activequeues b).
Proof.
  unfold event_queue_remove_active, remove_from_active, unlink. intros Hr. run Hr.
  destruct (negb _); [done|]. destruct (_ <? 0); [done|]. run Hr. run Hr.
  destruct (decide (e ∈ x0)); [|done]. simplify_eq. simpl in *. eauto.
Qed.

Lemma remove_inserted_queues b e ev b1 b' r :
  event_queue_remove_inserted b e = Some b1 → del_from_map b1 e ev = Some (b', r) →
  b_activequeues b' = b_activequeues b.
Proof.
  unfold event_queue_remove_inserted, del_from_map. intros Hr Hd. run Hr. destruct (negb _); [done|].
  destruct (ev_events ev &? EV_RWC).
  - run Hd. destruct x0 as [[io be] r0]. by simplify_eq.
  - run Hd. destruct x0 as [[sm sbe] r0]. by simplify_eq.
Qed.

(** Deleting an active event takes it off its queue and keeps the order of the
    rest. *)
Lemma del_active_queues b e ev bl b' r :
  base_ok b → get_ev b e = Some ev → ev_flags ev &? EVLIST_FINALIZING = false →
  ev_flags ev &? EVLIST_ACTIVE = true → event_del_nolock_ b e bl = Some (b', r) →
  ∃ q, b_activequeues b !! Z.to_nat (ev_pri ev) = Some q ∧
    b_activequeues b' = <[Z.to_nat (ev_pri ev) := filter (.≠ e) q]> (b_activequeues b).
Proof.
  intros Hok He Hfin Ha Hd. unfold event_del_nolock_ in Hd. rewrite He in Hd. cbn [mbind option_bind] in Hd.
  rewrite Hfin, andb_false_r in Hd. run Hd. run Hd. rename x0 into b1, H1 into Hab.
  destruct (abort_queues _ _ _ Hab) as [Hq1 Hm1].
  assert (Hok1 : base_ok b1).
  { destruct (abort_signal_spec b ev) as (fr & Heq & _); [by eapply abort_frame|].
    rewrite Hab in Heq. injection Heq as ->. by apply base_ok_frames. }
  assert (He1 : get_ev b1 e = Some ev) by (unfold get_ev in *; by rewrite Hm1).
  run Hd. rename x0 into b2, H1 into Hb2.
  destruct (optional_queue_op b1 e ev EVLIST_TIMEOUT (event_queue_remove_timeout b1 e) Hok1 He1
    (remove_timeout_spec b1 e ev Hok1 He1)) as (b2' & Hb2' & _ & Hm2 & _).
  rewrite Hb2 in Hb2'. injection Hb2' as <-.
  assert (Hq2 : b_activequeues b2 = b_activequeues b).
  { rewrite <- Hq1. destruct (ev_flags ev &? EVLIST_TIMEOUT); [by eapply remove_timeout_queues|].
    by simplify_eq. }
  destruct (meq_get b2 _ e _ ev Hm2 He1) as (ev2 & He2 & Hr2).
  rewrite Ha in Hd. run Hd. rename x0 into b3, H1 into Hb3.
  apply remove_active_queues in Hb3 as (ev2' & q & He2' & Hq & Hb3). rewrite He2 in He2'.
  injection He2' as <-. rewrite (f_equal ev_pri Hr2 : ev_pri ev2 = ev_pri ev) in Hq, Hb3.
  exists q. rewrite <- Hq2. split; [done|]. rewrite <- Hb3. destruct (ev_flags ev &? EVLIST_INSERTED).
  - run Hd. run Hd. destruct x1 as [b5 r5]. injection Hd as <- _. by eapply remove_inserted_queues.
  - by simplify_eq.
Qed.

(** ** Taking the first callback *)

(** The event is plain or persistent without a timeout to set again. *)
Definition simple b e : Prop := ∃ ev, get_ev b e = Some ev ∧ ev_flags ev &? EVLIST_INIT = true ∧
  ev_flags ev &? EVLIST_FINALIZING = false ∧ frame_ok b ev ∧
  (ev_closure ev = EV_CLOSURE_EVENT ∨
   ev_closure ev = EV_CLOSURE_EVENT_PERSIST ∧ ev_io_timeout ev = evutil_timerclear).

(** [b'] differs from [b] in the queues, counters and memory of [e] only. *)
Definition step_frame b e b' : Prop :=
  (∃ fr, env_part b' = env_part (set_b_frames fr b) ∧ same_frames (b_frames b) fr) ∧
  meq_except e (b_evs b) (b_evs b').

Lemma queue_head b i e q : base_ok b → b_activequeues b !! i = Some (e :: q) →
  ∃ ev, get_ev b e = Some ev ∧ ev_flags ev &? EVLIST_ACTIVE = true ∧ Z.to_nat (ev_pri ev) = i ∧
    filter (.≠ e) (e :: q) = q.
Proof.
  intros Hok Hq. destruct (ok_active _ Hok) as [Hv Hnd].
  assert (Hv' : actv (b_evs b) e = Some (Z.of_nat i)).
  { apply Hv. split; [lia|]. exists (e :: q). rewrite Nat2Z.id. split; [done|by left]. }
  unfold actv in Hv'. unfold get_ev. destruct (b_evs b !! e) as [ev|]; [|done]. cbn in Hv'.
  unfold actv1 in Hv'. destruct (ev_flags ev &? EVLIST_ACTIVE) eqn:Ha; [|done]. injection Hv' as Hp.
  exists ev. split_and!; [done|done|lia|].
  specialize (Hnd i _ Hq). apply NoDup_cons in Hnd as [Hnin _]. rewrite filter_cons_False by naive_solver.
  by apply filter_ne_notin.
Qed.

Lemma take_active_simple b i e q :
  base_ok b → b_activequeues b !! i = Some (e :: q) → simple b e →
  ∃ b' ev', take_active b e = Some b' ∧ base_ok b' ∧
    b_activequeues b' = <[i := q]> (b_activequeues b) ∧ step_frame b e b' ∧
    get_ev b' e = Some ev' ∧
    ∃ k ev, get_ev b e = Some ev ∧ Z.land k 0xd0 = 0 ∧ rest ev' = rest (clear_flag k ev).
Proof.
  intros Hok Hq (ev & He & Hinit & Hfin & Hfr & Hcl).
  destruct (queue_head b i e q Hok Hq) as (ev0 & He0 & Ha & Hpi & Hfl).
  rewrite He in He0. injection He0 as <-. unfold take_active. rewrite He. cbn [mbind option_bind].
  rewrite Hinit, Hfin, orb_false_r. destruct (ev_events ev &? EV_PERSIST).
  - destruct (remove_active_spec b e ev Hok He Ha) as (b' & Heq & Hok' & Hm & Henv).
    destruct (remove_active_queues _ _ _ Heq) as (ev1 & q1 & He1 & Hq1 & Hb'). rewrite He in He1.
    injection He1 as <-. rewrite Hpi in Hq1, Hb'. rewrite Hq in Hq1. injection Hq1 as <-. rewrite Hfl in Hb'.
    destruct (meq_get b' _ e _ ev Hm He) as (ev' & He' & Hr'). exists b', ev'. split_and!; try done.
    + split; [exists (b_frames b); by rewrite set_frames_id|by eapply meq_alter_except].
    + by exists EVLIST_ACTIVE, ev.
  - destruct (event_del_spec b e ev EVENT_DEL_NOBLOCK Hok He Hfr) as (b' & r & fr & Heq & Hok' & _ & Hm & Henv & Hsf & _);
      [by right|]. rewrite Heq. cbn [mbind option_bind].
    destruct (del_active_queues b e ev _ b' r Hok He Hfin Ha Heq) as (q1 & Hq1 & Hb').
    rewrite Hpi in Hq1, Hb'. rewrite Hq in Hq1. injection Hq1 as <-. rewrite Hfl in Hb'.
    destruct (meq_get b' _ e _ ev Hm He) as (ev' & He' & Hr'). exists b', ev'. split_and!; try done.
    + split; [by exists fr|by eapply meq_alter_except].
    + by exists EVLIST_QUEUED, ev.
Qed.

(** ** Running a queue *)

Section observers.
(** What the callback of an event, called with a result, records. *)
Variable note : evp → Z → EW → EW.

Definition observe b e (res : Z) : option event_base :=
  Some (set_b_world (note e res (b_world b)) b).

Definition res_of b e : Z := from_option ev_res 0 (get_ev b e).
Definition internal b e : bool := from_option (λ ev, ev_flags ev &? EVLIST_INTERNAL) false (get_ev b e).

(** What is recorded when the callbacks of [q] run in order. *)
Fixpoint observed b q (w : EW) : EW :=
  match q with
  | [] => w
  | e :: q => observed b q (note e (res_of b e) w)
  end.

(** The number of callbacks of [q] that are not the library's own. *)
Fixpoint real_count b q : Z :=
  match q with
  | [] => 0
  | e :: q => (if internal b e then 0 else 1) + real_count b q
  end.

Definition undisturbed b : Prop :=
  event_break b = 0 ∧ event_continue b = 0 ∧ n_common_timeouts b = 0.

Lemma observed_ext b b' q w :
  (∀ x, x ∈ q → rest <$> get_ev b' x = rest <$> get_ev b x) →
  observed b' q w = observed b q w ∧ real_count b' q = real_count b q.
Proof.
  revert w. induction q as [|e q IH]; intros w Hx; simpl; [done|].
  assert (Hrest : rest <$> get_ev b' e = rest <$> get_ev b e) by (apply Hx; by left).
  assert (res_of b' e = res_of b e ∧ internal b' e = internal b e) as [-> ->].
  { unfold res_of, internal. destruct (get_ev b' e) as [v'|], (get_ev b e) as [v|]; try done.
    cbn in Hrest |- *. apply (inj Some) in Hrest.
    rewrite (f_equal ev_res Hrest : ev_res v' = ev_res v).
    by rewrite (f_equal ev_flags Hrest : ev_flags v' = ev_flags v). }
  destruct (IH (note e (res_of b e) w)) as [-> ->]; [intros; apply Hx; by right|done].
Qed.

Lemma real_count_bound b q : 0 <= real_count b q <= Z.of_nat (length q).
Proof. induction q as [|e q IH]; simpl; [lia|]. destruct (internal b e); lia. Qed.

Lemma simple_rest b b' x : same_frames (b_frames b) (b_frames b') →
  rest <$> get_ev b' x = rest <$> get_ev b x → simple b x → simple b' x.
Proof.
  intros Hsf Hr (ev & He & Hi & Hf & Hfr & Hc). rewrite He in Hr.
  destruct (get_ev b' x) as [ev'|] eqn:He'; [|done]. cbn in Hr. apply (inj Some) in Hr.
  exists ev'. rewrite (rest_flags _ _ Hr). split_and!; [done..|by eapply frame_ok_rest|].
  rewrite (f_equal ev_closure Hr : ev_closure ev' = ev_closure ev). unfold ev_io_timeout in *.
  by rewrite (f_equal ev_w0 Hr : ev_w0 ev' = ev_w0 ev), (f_equal ev_w1 Hr : ev_w1 ev' = ev_w1 ev).
Qed.

(** The closure of a simple event only calls its callback. *)
Lemma run_closure_simple b e ev : n_common_timeouts b = 0 → get_ev b e = Some ev →
  ev_flags ev &? EVLIST_INIT = true →
  (ev_closure ev = EV_CLOSURE_EVENT ∨
   ev_closure ev = EV_CLOSURE_EVENT_PERSIST ∧ ev_io_timeout ev = evutil_timerclear) →
  run_closure observe b e = observe b e (ev_res ev).
Proof.
  intros Hn He Hi Hc. assert (Hc0 : b_ctls b = []).
  { unfold n_common_timeouts in Hn. destruct (b_ctls b); [done|]. simpl in Hn. lia. }
  assert (Hinv : invoke observe b e (ev_res ev) = observe b e (ev_res ev))
    by (unfold invoke; by rewrite Hc0).
  unfold run_closure. rewrite He. cbn [mbind option_bind]. rewrite Hi.
  destruct Hc as [->|[-> Hio]]; simpl; [done|].
  unfold event_persist_closure. rewrite He. cbn [mbind option_bind]. rewrite Hio. simpl.
  rewrite He. by cbn [mbind option_bind].
Qed.

(** Off the queue, the event keeps what its callback depends on. *)
Lemma taken_fields k ev ev' : Z.land k 0xd0 = 0 → rest ev' = rest (clear_flag k ev) →
  ev_res ev' = ev_res ev ∧ ev_closure ev' = ev_closure ev ∧ ev_io_timeout ev' = ev_io_timeout ev ∧
  ev_flags ev' &? EVLIST_INIT = ev_flags ev &? EVLIST_INIT ∧
  ev_flags ev' &? EVLIST_INTERNAL = ev_flags ev &? EVLIST_INTERNAL.
Proof.
  intros Hk Hr. assert (Hfl : ∀ f : Z, Z.land 0xd0 f = f → ev_flags ev' &? f = ev_flags ev &? f).
  { intros f Hm. rewrite (rest_flags _ _ Hr). simpl. apply flag_clear_ne.
    rewrite <- Hm, Z.land_assoc, Hk. done. }
  split_and!; [by rewrite (f_equal ev_res Hr : ev_res ev' = ev_res ev)
    |by rewrite (f_equal ev_closure Hr : ev_closure ev' = ev_closure ev)
    | |by apply Hfl|by apply Hfl].
  unfold ev_io_timeout.
  by rewrite (f_equal ev_w0 Hr : ev_w0 ev' = ev_w0 ev), (f_equal ev_w1 Hr : ev_w1 ev' = ev_w1 ev).
Qed.

Lemma undisturbed_env b b' fr : env_part b' = env_part (set_b_frames fr b) →
  undisturbed b → undisturbed b' ∧ b_world b' = b_world b ∧ b_frames b' = fr.
Proof.
  intros Henv (Hb & Hc & Hn). unfold undisturbed. rewrite (env_part_ncommon _ _ Henv).
  unfold env_part in Henv. simpl in Henv. repeat split; try done; congruence.
Qed.

Lemma process_queue_simple q b i count fuel :
  base_ok b → undisturbed b → b_activequeues b !! i = Some q → Forall (simple b) q →
  (length q < fuel)%nat → 0 <= count → count + Z.of_nat (length q) < INT_MAX →
  ∃ b', process_queue_loop observe fuel b i count INT_MAX None = Some (b', count + real_count b q) ∧
    base_ok b' ∧ undisturbed b' ∧ b_activequeues b' = <[i := []]> (b_activequeues b) ∧
    b_world b' = observed b q (b_world b).
Proof.
  revert b count fuel. induction q as [|e q IH]; intros b count fuel Hok Hun Hq Hs Hfuel Hc Hmax;
    (destruct fuel as [|fuel]; [simpl in Hfuel; lia|]); cbn [process_queue_loop];
    unfold first_active; rewrite Hq; cbn [mbind option_bind head].
  { exists b. simpl. rewrite Z.add_0_r. split_and!; [done..| |done]. by rewrite list_insert_id. }
  apply Forall_cons in Hs as [(ev & He & Hinit & Hfin & Hfr & Hcl) Hs].
  destruct (take_active_simple b i e q Hok Hq) as (b1 & ev1 & -> & Hok1 & Hq1 & [(fr & Henv & Hsf) Hex]
    & He1 & k & ev0 & He0 & Hk & Hr1); [by exists ev|].
  rewrite He in He0. injection He0 as <-. cbn [mbind option_bind]. rewrite He1. cbn [mbind option_bind].
  destruct (taken_fields k ev ev1 Hk Hr1) as (Er & Ec & Eio & Ei & Eint).
  destruct (undisturbed_env _ _ _ Henv Hun) as (Hun1 & Hw1 & Hfr1).
  rewrite (run_closure_simple (set_current_event e b1) e ev1);
    [|apply Hun1|done|by rewrite Ei|by rewrite Ec, Eio].
  cbn [observe mbind option_bind]. set (b3 := set_current_event NULL _).
  assert (Hb3 : event_break b3 = 0) by apply Hun1. rewrite Hb3. cbn [negb Z.eqb].
  assert (Hint : internal b e = ev_flags ev &? EVLIST_INTERNAL) by (unfold internal; by rewrite He).
  rewrite Eint, <- Hint. set (c1 := if negb (internal b e) then count + 1 else count).
  assert (Hc1 : c1 = count + (if internal b e then 0 else 1)) by (subst c1; destruct (internal b e); simpl; lia).
  simpl in Hmax. destruct (Z.leb_spec INT_MAX c1); [destruct (internal b e); lia|].
  cbn [mbind option_bind]. assert (Hb3c : event_continue b3 = 0) by apply Hun1. rewrite Hb3c. cbn [negb Z.eqb].
  assert (Hne : ∀ x, x ∈ q → x ≠ e).
  { intros x Hx ->. pose proof (proj2 (ok_active _ Hok) i _ Hq) as Hnd. by apply NoDup_cons in Hnd as [? _]. }
  assert (Hrest : ∀ x, x ∈ q → rest <$> get_ev b3 x = rest <$> get_ev b x)
    by (intros x Hx; by apply Hex, Hne).
  destruct (observed_ext b b3 q (b_world b3) Hrest) as [Hobs Hcnt].
  destruct (IH b3 c1 fuel) as (b' & -> & Hok' & Hun' & Hq' & Hw').
  - by apply (base_ok_struct b1).
  - exact Hun1.
  - simpl. rewrite Hq1. apply list_lookup_insert_eq. by eapply lookup_lt_Some.
  - apply Forall_forall. intros x Hx. rewrite Forall_forall in Hs. apply (simple_rest b); [|by apply Hrest|by apply Hs].
    simpl. by rewrite Hfr1.
  - simpl in Hfuel. lia.
  - destruct (internal b e); lia.
  - destruct (internal b e); lia.
  - exists b'. split_and!; [|done|done| |].
    + rewrite Hcnt, Hc1. simpl. do 2 f_equal. lia.
    + rewrite Hq'. simpl. rewrite Hq1. apply list_insert_insert_eq.
    + rewrite Hw', Hobs. simpl. unfold res_of. rewrite He. simpl. by rewrite Er, Hw1.
Qed.

(** The more urgent priorities have nothing to run. *)
Lemma skip_empty b i q n j c fuel maxcb limit endtime :
  b_activequeues b !! i = Some q → (∀ k qk, (k < i)%nat → b_activequeues b !! k = Some qk → qk = []) →
  (j <= i)%nat → (i - j < n)%nat →
  process_active_loop observe fuel b j n c maxcb limit endtime =
  process_active_loop observe fuel b i (n - (i - j)) c maxcb limit endtime.
Proof.
  intros Hq Hempty. assert (Hlen := lookup_lt_Some _ _ _ Hq).
  remember (i - j)%nat as d eqn:Hd. revert j n Hd. induction d as [|d IH]; intros j n Hd Hj Hn.
  { replace j with i by lia. by rewrite Nat.sub_0_r. }
  destruct n as [|n]; [lia|]. cbn [process_active_loop]. unfold nactivequeues.
  destruct (Z.ltb_spec (Z.of_nat j) (Z.of_nat (length (b_activequeues b)))); [|lia]. simpl negb. cbv iota.
  destruct (lookup_some_lt (b_activequeues b) j) as [qj Hqj]; [lia|].
  unfold first_active. rewrite Hqj. cbn [mbind option_bind].
  rewrite (Hempty j qj) by (done || lia). simpl. apply IH; lia.
Qed.

(** The loop over the priorities runs the first queue that is not empty. *)
Lemma process_loop_order b i q fuel n c maxcb limit :
  base_ok b → undisturbed b → maxcb = INT_MAX → (i < n)%nat →
  (∀ k qk, (k < i)%nat → b_activequeues b !! k = Some qk → qk = []) →
  b_activequeues b !! i = Some q → Forall (simple b) q → 0 < real_count b q →
  Z.of_nat (length q) < INT_MAX → (length q < fuel)%nat →
  ∃ b', process_active_loop observe fuel b 0 n c maxcb limit None = Some (b', real_count b q) ∧
    base_ok b' ∧ b_activequeues b' = <[i := []]> (b_activequeues b) ∧
    b_world b' = observed b q (b_world b).
Proof.
  intros Hok Hun -> Hn Hempty Hq Hs Hreal Hlen Hfuel.
  rewrite (skip_empty b i q) by (done || lia).
  destruct (n - (i - 0))%nat as [|n'] eqn:Hn'; [lia|].
  cbn [process_active_loop]. unfold nactivequeues. assert (Hi := lookup_lt_Some _ _ _ Hq).
  destruct (Z.ltb_spec (Z.of_nat i) (Z.of_nat (length (b_activequeues b)))); [|lia]. simpl negb. cbv iota.
  unfold first_active. rewrite Hq. cbn [mbind option_bind].
  destruct q as [|e q]; [simpl in Hreal; lia|]. cbn [head].
  set (b0 := set_event_running_priority (Z.of_nat i) b).
  destruct (process_queue_simple (e :: q) b0 i 0 fuel) as (b' & Heq & Hok' & _ & Hq' & Hw').
  { by apply (base_ok_struct b). } { exact Hun. } { done. }
  { eapply Forall_impl; [exact Hs|]. done. } { done. } { done. } { lia. }
  destruct (observed_ext b b0 (e :: q) (b_world b0)) as [Hobs Hcnt]; [done|].
  rewrite Z.add_0_l, Hcnt in Heq. unfold event_process_active_single_queue. rewrite Heq.
  exists b'. split; [|by rewrite Hw', Hobs].
  destruct (_ <? limit); cbn [mbind option_bind];
    (destruct (Z.ltb_spec (real_count b (e :: q)) 0); [lia|]);
    (destruct (Z.ltb_spec 0 (real_count b (e :: q))); [done|lia]).
Qed.

(** Without a limit on time. *)
Lemma process_active_unlimited b fuel :
  tv_sec (max_dispatch_time b) < 0 →
  event_process_active observe fuel b =
  ('(b, c) ← process_active_loop observe fuel b 0 (Z.to_nat EVENT_MAX_PRIORITIES) 0
     (max_dispatch_callbacks b) (limit_callbacks_after_prio b) None;
   Some (set_event_running_priority (-1) b, c)).
Proof.
  intros Htime. unfold event_process_active.
  assert ((0 <=? tv_sec (max_dispatch_time b)) = false) as -> by (apply Z.leb_gt; lia).
  by rewrite bind_some_eq.
Qed.

(** C7. [event_process_active] respects priorities and runs callbacks in order.
    The claim is about callbacks that only observe that they run and with which
    result ([observe]: they call nothing of the library, so that the queues do
    not change under the loop), in a base without common timeouts, without a
    limit on dispatching (no maximal interval, no maximal number of callbacks) and
    without a pending loopbreak or loopcontinue.  If [i] is the most urgent
    priority with active callbacks and its queue [q] holds events that are plain
    or persistent without a timeout (no signals, no finalizers, no deferred
    callbacks), at least one of them not internal, then exactly the callbacks of
    [q] run, each once, in the order of the queue, each with the result its event
    was activated with; the number of those that are not internal is returned,
    the queue is empty afterwards, the queues of the less urgent priorities are
    left alone and the base is consistent.  The loop over the queue ends after
    one iteration per callback. *)
Theorem process_active_order b i q fuel :
  base_ok b → undisturbed b → tv_sec (max_dispatch_time b) < 0 → max_dispatch_callbacks b = INT_MAX →
  nactivequeues b < EVENT_MAX_PRIORITIES →
  (∀ k qk, (k < i)%nat → b_activequeues b !! k = Some qk → qk = []) →
  b_activequeues b !! i = Some q → Forall (simple b) q → 0 < real_count b q →
  Z.of_nat (length q) < INT_MAX → (length q < fuel)%nat →
  ∃ b', event_process_active observe fuel b = Some (b', real_count b q) ∧ base_ok b' ∧
    b_activequeues b' = <[i := []]> (b_activequeues b) ∧
    b_world b' = observed b q (b_world b).
Proof.
  intros Hok Hun Htime Hmax Hnq Hempty Hq Hs Hreal Hlen Hfuel. rewrite process_active_unlimited by done.
  assert (Hi := lookup_lt_Some _ _ _ Hq). unfold nactivequeues in Hnq.
  assert (Hn : (i < Z.to_nat EVENT_MAX_PRIORITIES)%nat) by lia. revert Hn.
  generalize (Z.to_nat EVENT_MAX_PRIORITIES). intros n Hn.
  destruct (process_loop_order b i q fuel n 0 (max_dispatch_callbacks b) (limit_callbacks_after_prio b))
    as (b' & -> & Hok' & Hq' & Hw'); try done.
  rewrite bind_some_eq. eexists. split; [done|]. split; [by apply (base_ok_struct b')|done].
Qed.
End observers.
End dispatch.
