(* ===== verification/EventSignals.v ===== *)
(** * Running the callback of a signal event (event.c, event_signal_closure)

    The callback of a signal event runs once for every delivery of the signal.
    A callback that deletes its event stops the loop through the pointer
    [ev_pncalls] to a local variable of the closure; the pointer outlives it. *)

From S2P Require Import Prelude TimeVal MinHeap EvMap EventBase EventCore EventLoop.
From S2P Require Import EventInv EventProps EventTimers EventAdd EventConfig EventLoopInv EventDispatch.

Section signals.
Context `{EventEnv}.
Implicit Types (b : event_base) (e : evp) (ev : event) (p n : Z).

Lemma i16_small n : 0 <= n < 2 ^ 15 → i16 n = n.
Proof. intros Hn. unfold swrap. rewrite Z.mod_small; lia. Qed.

(** Setting [ev_ncalls] and reading it back. *)
Lemma ncalls_set n ev : 0 <= n < 2 ^ 15 → ev_ncalls (set_ev_ncalls n ev) = n.
Proof.
  intros Hn. unfold ev_ncalls, set_ev_ncalls. simpl. unfold wrap, swrap.
  rewrite (Z.mod_small n (2 ^ 16)) by lia.
  pose proof (Z.div_mod (ev_w0 ev) (2 ^ 16) ltac:(lia)) as Hd.
  replace (ev_w0 ev - ev_w0 ev mod 2 ^ 16 + n + 2 ^ (16 - 1))
    with (n + 2 ^ 15 + (ev_w0 ev / 2 ^ 16) * 2 ^ 16) by (change (16 - 1) with 15; lia).
  rewrite Z.mod_add by lia. rewrite Z.mod_small by lia. change (2 ^ (16 - 1)) with (2 ^ 15). lia.
Qed.

(** One round of the loop up to the callback. *)
Definition before_call b e p n : event_base :=
  let b := set_b_frames (<[p := n]> (b_frames b)) b in
  let b := upd_ev e (set_ev_ncalls n) b in
  if n =? 0 then upd_ev e (set_ev_pncalls 0) b else b.

Lemma signal_loop_step (cb : event_base → evp → Z → option event_base) fuel b e ev p n :
  b_frames b !! p = Some (n + 1) → 0 <= n < 2 ^ 15 → get_ev b e = Some ev → b_ctls b = [] →
  signal_closure_loop cb (S fuel) b e p =
  (b ← cb (before_call b e p n) e (ev_res ev);
   if negb (event_break b =? 0) then
     ncalls ← b_frames b !! p;
     Some (if negb (ncalls =? 0) then upd_ev e (set_ev_pncalls 0) b else b)
   else signal_closure_loop cb fuel b e p).
Proof.
  intros Hp Hn He Hc. cbn [signal_closure_loop]. rewrite Hp, bind_some_eq.
  destruct (Z.eqb_spec (n + 1) 0); [lia|]. replace (n + 1 - 1) with n by lia. rewrite i16_small by done.
  change (get_ev (set_b_frames (<[p := n]> (b_frames b)) b) e) with (get_ev b e).
  rewrite He, bind_some_eq. unfold before_call, invoke.
  destruct (n =? 0); simpl; by rewrite Hc.
Qed.

(** ** Callbacks that leave the base alone *)

Lemma observe_ok note : callbacks_ok (observe note).
Proof.
  intros b e res b' Hi [= <-]. split; [by apply (loop_inv_struct b)|].
  intros x (ev & He & _ & Hidle) ev' He'. change (get_ev b x = Some ev') in He'.
  rewrite He in He'. by injection He' as <-.
Qed.

Lemma before_call_same b e p n :
  b_ctls (before_call b e p n) = b_ctls b ∧ event_break (before_call b e p n) = event_break b ∧
  b_world (before_call b e p n) = b_world b ∧
  b_frames (before_call b e p n) = <[p := n]> (b_frames b) ∧
  get_ev (before_call b e p n) e = (λ ev, (if n =? 0 then set_ev_pncalls 0 else id)
    (set_ev_ncalls n ev)) <$> get_ev b e.
Proof.
  unfold before_call, get_ev. destruct (n =? 0); simpl; split_and!; try done;
    rewrite ?lookup_alter_eq; by destruct (b_evs b !! e).
Qed.

Lemma signal_loop_calls note (n : nat) : ∀ fuel b e ev p,
  (n < fuel)%nat → Z.of_nat n < 2 ^ 15 → b_frames b !! p = Some (Z.of_nat n) →
  get_ev b e = Some ev → b_ctls b = [] → event_break b = 0 →
  ∃ b', signal_closure_loop (observe note) fuel b e p = Some b' ∧
    b_world b' = Nat.iter n (note e (ev_res ev)) (b_world b) ∧
    b_frames b' = <[p := 0]> (b_frames b) ∧ (n = 0%nat → b' = b) ∧
    ∃ ev', get_ev b' e = Some ev' ∧ ((0 < n)%nat → ev_ncalls ev' = 0 ∧ ev_pncalls ev' = 0).
Proof.
  induction n as [|n IH]; intros fuel b e ev p Hf Hn Hp He Hc Hb; (destruct fuel as [|fuel]; [lia|]).
  { cbn [signal_closure_loop]. rewrite Hp, bind_some_eq. exists b. simpl. split_and!; [done|done| |done|].
    - by rewrite insert_id.
    - exists ev. split; [done|lia]. }
  assert (Hp' : b_frames b !! p = Some (Z.of_nat n + 1)) by (rewrite Hp; f_equal; lia).
  rewrite (signal_loop_step _ fuel b e ev p (Z.of_nat n) Hp' ltac:(lia) He Hc).
  destruct (before_call_same b e p (Z.of_nat n)) as (Hc1 & Hb1 & Hw1 & Hf1 & He1).
  rewrite He in He1. cbn [fmap option_fmap option_map] in He1.
  set (b1 := before_call b e p (Z.of_nat n)) in *. clearbody b1.
  change (observe note b1 e (ev_res ev)) with (Some (set_b_world (note e (ev_res ev) (b_world b1)) b1)).
  rewrite bind_some_eq. set (b2 := set_b_world _ b1).
  assert (Hb2 : event_break b2 = 0) by (by simpl; rewrite Hb1). rewrite Hb2. cbn [negb Z.eqb].
  set (ev1 := (if Z.of_nat n =? 0 then set_ev_pncalls 0 else id) (set_ev_ncalls (Z.of_nat n) ev)) in *.
  assert (Hres : ev_res ev1 = ev_res ev) by (subst ev1; by destruct (_ =? _)).
  destruct (IH fuel b2 e ev1 p) as (b' & -> & Hw & Hfr & Hz0 & ev' & He' & Hz); [lia|lia| |done| |done|].
  { simpl. by rewrite Hf1, lookup_insert_eq. } { simpl. by rewrite Hc1. }
  exists b'. split_and!; [done| | |done|].
  - rewrite Hw, Hres. simpl. rewrite Hw1. by rewrite <- Nat.iter_succ_r.
  - rewrite Hfr. simpl. by rewrite Hf1, insert_insert_eq.
  - exists ev'. split; [done|]. intros _. destruct n as [|n]; [|apply Hz; lia].
    rewrite (Hz0 eq_refl) in He'. change (get_ev b2 e) with (get_ev b1 e) in He'.
    rewrite He1 in He'. injection He' as <-. subst ev1. simpl.
    split; [|done]. by apply (ncalls_set 0 ev).
Qed.

(** [event_signal_closure] calls the callback of the event exactly
    [ev_ncalls] times, once for every delivery of the signal that was reported
    (if no callback breaks the loop), leaves [ev_ncalls] and [ev_pncalls] zero,
    its local variable dead and the base consistent. *)
Theorem signal_closure_calls note b e ev (n : nat) :
  loop_inv b → get_ev b e = Some ev → ev_ncalls ev = Z.of_nat n → event_break b = 0 →
  ∃ b', event_signal_closure (observe note) b e = Some b' ∧ base_ok b' ∧
    b_world b' = Nat.iter n (note e (ev_res ev)) (b_world b) ∧
    b_frames b' = delete (b_next_frame b) (b_frames b) ∧
    ∃ ev', get_ev b' e = Some ev' ∧ ((0 < n)%nat → ev_ncalls ev' = 0 ∧ ev_pncalls ev' = 0).
Proof.
  intros Hi He Hn Hb. assert (Hn15 : Z.of_nat n < 2 ^ 15).
  { rewrite <- Hn. unfold ev_ncalls, swrap. pose proof (Z.mod_pos_bound (ev_w0 ev + 2 ^ (16 - 1)) (2 ^ 16)).
    change (2 ^ (16 - 1)) with (2 ^ 15) in *. lia. }
  assert (Hc : b_ctls b = []).
  { destruct Hi as [_ Hz]. unfold n_common_timeouts in Hz. destruct (b_ctls b); [done|]. simpl in Hz. lia. }
  unfold event_signal_closure. rewrite He, bind_some_eq, Hn. cbv zeta.
  set (b0 := if negb (Z.of_nat n =? 0) then _ else _).
  assert (Hb0 : b_frames b0 = <[b_next_frame b := Z.of_nat n]> (b_frames b) ∧ b_ctls b0 = [] ∧
    event_break b0 = 0 ∧ b_world b0 = b_world b ∧ ∃ ev0, get_ev b0 e = Some ev0 ∧ ev_res ev0 = ev_res ev).
  { subst b0. destruct (negb _); simpl; split_and!; try done; [|by exists ev].
    exists (set_ev_pncalls (b_next_frame b) ev). unfold get_ev in *. simpl. by rewrite lookup_alter_eq, He. }
  assert (Hi0 : loop_inv b0).
  { subst b0. destruct (negb _); [apply loop_inv_neutral; [done|]|]; by apply (loop_inv_struct b). }
  clearbody b0. destruct Hb0 as (Hf0 & Hc0 & Hbr0 & Hw0 & ev0 & He0 & Hr0).
  destruct (signal_loop_calls note n (S (Z.to_nat (2 ^ 16))) b0 e ev0 (b_next_frame b))
    as (b' & Heq & Hw & Hfr & _ & ev' & He' & Hz); [lia|done| |done|done|done|].
  { by rewrite Hf0, lookup_insert_eq. }
  pose proof (signal_loop_inv _ (observe_ok note) _ _ _ _ _ Hi0 Heq) as [Hok' _].
  rewrite Heq, bind_some_eq. eexists. split; [done|]. split; [by apply base_ok_frames|]. split_and!.
  - by rewrite <- Hw0, <- Hr0.
  - simpl. by rewrite Hfr, Hf0, insert_insert_eq, delete_insert_eq.
  - by exists ev'.
Qed.

(** ** A callback that deletes its event *)

Definition delete_self b e (res : Z) : option event_base :=
  '(b, _) ← event_del_nolock_ b e EVENT_DEL_NOBLOCK; Some b.

(** Deleting the event while its callback runs stops the loop. *)
Lemma delete_self_spec b e ev p k :
  base_ok b → get_ev b e = Some ev → ev_events ev &? EV_SIGNAL = true →
  ev_flags ev &? EVLIST_FINALIZING = false → ev_ncalls ev ≠ 0 → ev_pncalls ev = p → p ≠ 0 →
  b_frames b !! p = Some k → event_break b = 0 →
  ∃ b' ev' res, delete_self b e res = Some b' ∧ b_frames b' !! p = Some 0 ∧ event_break b' = 0 ∧
    get_ev b' e = Some ev' ∧ ev_events ev' &? EV_SIGNAL = true ∧
    ev_flags ev' &? EVLIST_FINALIZING = false ∧ ev_ncalls ev' ≠ 0 ∧ ev_pncalls ev' = p.
Proof.
  intros Hok He Hs Hf Hn Hp Hp0 Hfr Hb.
  destruct (event_del_spec b e ev EVENT_DEL_NOBLOCK Hok He) as (b' & r & fr & Hd & _ & _ & Hm & Henv & _ & Hab).
  { intros _ _ _. rewrite Hp. by eexists. } { by right. }
  destruct (meq_get b' _ e _ ev Hm He) as (ev' & He' & Hr').
  exists b', ev', 0. unfold delete_self. rewrite Hd. split_and!; [done| | |done| | | |].
  - unfold env_part in Henv. simpl in Henv. assert (b_frames b' = fr) as -> by congruence. rewrite Hab.
    unfold aborted. rewrite Hs, Hp, (proj2 (Z.eqb_neq _ _) Hn), (proj2 (Z.eqb_neq _ _) Hp0). simpl.
    by rewrite lookup_insert_eq.
  - unfold env_part in Henv. simpl in Henv. congruence.
  - by rewrite (f_equal ev_events Hr' : ev_events ev' = ev_events ev).
  - rewrite (rest_flags _ _ Hr'). simpl. by flags.
  - unfold ev_ncalls in *. by rewrite (f_equal ev_w0 Hr' : ev_w0 ev' = ev_w0 ev).
  - unfold ev_pncalls in *. by rewrite (f_equal ev_w1 Hr' : ev_w1 ev' = ev_w1 ev).
Qed.

(** C8. A signal event delivered at least twice whose callback deletes the event:
    the closure stops as intended, but the event keeps a non-zero [ev_ncalls] and
    the pointer [ev_pncalls] to the local variable of the closure that has
    returned.  The next [event_del_nolock_] of the event, as in [event_free],
    writes through that pointer. *)
Theorem signal_delete_leaves_dangling_pointer b e ev n bl :
  base_ok b → n_common_timeouts b = 0 → get_ev b e = Some ev → ev_events ev &? EV_SIGNAL = true →
  ev_flags ev &? EVLIST_FINALIZING = false → ev_ncalls ev = n → 2 <= n → 0 < b_next_frame b →
  event_break b = 0 →
  ∃ b', event_signal_closure delete_self b e = Some b' ∧ event_del_nolock_ b' e bl = None.
Proof.
  intros Hok Hz He Hs Hf Hn Hn2 Hp Hb.
  assert (Hn15 : n < 2 ^ 15).
  { rewrite <- Hn. unfold ev_ncalls, swrap. pose proof (Z.mod_pos_bound (ev_w0 ev + 2 ^ (16 - 1)) (2 ^ 16)).
    change (2 ^ (16 - 1)) with (2 ^ 15) in *. lia. }
  assert (Hc : b_ctls b = []).
  { unfold n_common_timeouts in Hz. destruct (b_ctls b); [done|]. simpl in Hz. lia. }
  unfold event_signal_closure. rewrite He, bind_some_eq, Hn. cbv zeta.
  rewrite (proj2 (Z.eqb_neq n 0)) by lia. cbn [negb].
  set (p := b_next_frame b) in *. set (b0 := upd_ev e (set_ev_pncalls p) _).
  assert (He0 : get_ev b0 e = Some (set_ev_pncalls p ev)).
  { unfold get_ev in *. simpl. by rewrite lookup_alter_eq, He. }
  assert (Hok0 : base_ok b0) by (apply base_ok_neutral; [done|]; by apply (base_ok_struct b)).
  assert (Hf0 : b_frames b0 !! p = Some (n - 1 + 1)).
  { simpl. rewrite lookup_insert_eq. f_equal. lia. }
  assert (Hb0 : event_break b0 = 0 ∧ b_ctls b0 = []) by done. clearbody b0. destruct Hb0 as [Hb0 Hc0].
  rewrite (signal_loop_step _ _ b0 e _ p (n - 1) Hf0 ltac:(lia) He0 Hc0).
  destruct (before_call_same b0 e p (n - 1)) as (_ & Hb1 & _ & Hf1 & He1).
  assert (Hok1 : base_ok (before_call b0 e p (n - 1))).
  { unfold before_call. destruct (n - 1 =? 0); repeat (apply base_ok_neutral; [done|]);
      by apply (base_ok_struct b0). }
  rewrite He0, (proj2 (Z.eqb_neq (n - 1) 0)) in He1 by lia. cbn [fmap option_fmap option_map] in He1.
  destruct (delete_self_spec _ e _ p (n - 1) Hok1 He1) as (b2 & ev2 & res & Hd & Hf2 & Hb2 & He2 & Hs2 & Hfin2 & Hn2' & Hp2);
    [done|done| |done|lia|by rewrite Hf1, lookup_insert_eq|congruence|].
  { unfold id. rewrite ncalls_set; lia. }
  change (delete_self (before_call b0 e p (n - 1)) e (ev_res (set_ev_pncalls p ev)))
    with (delete_self (before_call b0 e p (n - 1)) e res).
  rewrite Hd, bind_some_eq, Hb2. cbn [negb Z.eqb].
  destruct (Z.to_nat (2 ^ 16)) as [|fuel] eqn:Hfuel; [lia|]. cbn [signal_closure_loop].
  rewrite Hf2, bind_some_eq. cbn [Z.eqb]. rewrite bind_some_eq. eexists. split; [done|].
  unfold event_del_nolock_. change (get_ev (set_b_frames _ b2) e) with (get_ev b2 e).
  rewrite He2, bind_some_eq, Hfin2, andb_false_r. unfold evassert. destruct (negb _); [|done].
  rewrite bind_some_eq, Hs2. unfold abort_signal_loop.
  rewrite (proj2 (Z.eqb_neq _ _) Hn2'), Hp2, (proj2 (Z.eqb_neq p 0)) by lia. cbn [negb andb].
  change (b_frames (set_b_frames (delete p (b_frames b2)) b2)) with (delete p (b_frames b2)).
  by rewrite lookup_delete_eq.
Qed.
End signals.
