(* ===== verification/EventExamples.v ===== *)
(** * A concrete event base

    An environment with a simple backend and clock, and a base with two events,
    on which the theorems about events are applied. *)

From S2P Require Import Prelude TimeVal MinHeap EvMap EventBase.
From S2P Require Import EventCore EventInv EventProps EventTimers EventAdd EventConfig EventLoopInv EventDispatch EventLoop EventSignals EventLoopTotal.

(** The clock advances a second with every reading (and starts again in the end); the
    backend is the
    reference backend of EvMap.v and reports nothing. *)
#[export] Instance ex_env : EventEnv := {|
  EB := gmap Z Z;
  EF := unit;
  EBS := nat;
  EW := Z;
  env_op := ref_op;
  env_sig_add n _ := (S n, 0);
  env_sig_del n _ := (n, 0);
  env_dispatch be sbe w _ := (be, sbe, w, Some []);
  env_clock w := (w + 1, (Some (mk_timeval (w `mod` 2 ^ 62) 0), λ _, Some (w `mod` 2 ^ 62, 0)));
  env_realloc_ok _ := true;
  env_calloc_ok _ := true;
  env_sizeof_io := 48;
  env_sizeof_signal := 16;
  env_link_bits := 0
|}.

(** A read event on descriptor 5, and a pure timer of the lower priority. *)
Definition ex_read : event :=
  mk_event EVLIST_INIT 0 EV_CLOSURE_EVENT (-1) 5 0 0 EV_READ 0 evutil_timerclear.
Definition ex_timer : event :=
  mk_event EVLIST_INIT 1 EV_CLOSURE_EVENT (-1) (-1) 0 0 0 0 evutil_timerclear.
Definition ex_memory : gmap evp event := {[ 1 := ex_read; 2 := ex_timer ]}.

Definition ex_b0 : event_base :=
  set_b_activequeues [[]; []] (blank_base ex_memory ∅ 0%nat 1000
    (mk_timer CLOCK_MONOTONIC evutil_timerclear evutil_timerclear) 0).

Lemma ex_memory_idle : idle_memory 2 ex_memory.
Proof.
  split; [done|]. intros e ev He. unfold ex_memory in He.
  apply lookup_insert_Some in He as [[<- <-]|[_ [<- <-]%lookup_singleton_Some]];
    (split; [done|]; split; by vm_compute).
Qed.

Lemma ex_b0_ok : base_ok ex_b0.
Proof. apply empty_base_ok; [split; [repeat constructor|done]|apply ex_memory_idle]. Qed.

(** The base after the clock was read. *)
Definition after_gettime (b : event_base) : event_base := from_option fst b (gettime b).

Definition ex_tv : timeval := mk_timeval 10 500.

Lemma event_add_witness :
  ∃ b' r, event_add_nolock_ ex_b0 1 (Some ex_tv) false = Some (b', r) ∧ base_ok b'.
Proof.
  destruct (event_add_correct ex_b0 1 ex_read (Some ex_tv) false (after_gettime ex_b0) (mk_timeval 1000 0)) as (b' & r & Heq & (Hok & _) & _).
  - exact ex_b0_ok.
  - reflexivity.
  - done.
  - done.
  - done.
  - intros t [= <-]. split; [vm_compute; split; congruence|intros _; vm_compute; split; [congruence|reflexivity]].
  - vm_compute. split; congruence.
  - reflexivity.
  - exists b', r. split; [exact Heq|exact Hok].
Defined.

(** The base after that call, with the read event waiting, and 20 seconds later. *)
Definition ex_b1 : event_base :=
  from_option fst ex_b0 (event_add_nolock_ ex_b0 1 (Some ex_tv) false).
Definition ex_b2 : event_base := set_b_world 1020 ex_b1.

Lemma base_ok_world `{EventEnv} b w : base_ok b → base_ok (set_b_world w b).
Proof. by intros [? ? ? ? ? ? ? ? ? ?]. Qed.

Lemma ex_b1_ok : base_ok ex_b1.
Proof.
  destruct (event_add_spec ex_b0 1 ex_read (Some ex_tv) false (after_gettime ex_b0) (mk_timeval 1000 0))
    as (b' & r & Heq & [Hok _] & _); [apply ex_b0_ok|done|done|done| |reflexivity|].
  - intros t [= <-]. split; [intros Ht; vm_compute in Ht; discriminate|by vm_compute].
  - unfold ex_b1. by rewrite Heq.
Qed.

Lemma ex_b2_ok : base_ok ex_b2.
Proof. apply base_ok_world, ex_b1_ok. Qed.

Lemma ex_heap : elems (b_timeheap ex_b2) = [1].
Proof. vm_compute. reflexivity. Qed.

Definition ex_waiting : event := default ex_read (get_ev ex_b2 1).

Lemma ex_waiting_eq : get_ev ex_b2 1 = Some ex_waiting.
Proof. vm_compute. reflexivity. Qed.

Lemma timeout_process_witness :
  ∃ b' ev', timeout_process ex_b2 = Some b' ∧ get_ev b' 1 = Some ev' ∧
    ev_flags ev' = Z.lor EVLIST_INIT EVLIST_ACTIVE ∧ ev_res ev' = EV_TIMEOUT.
Proof.
  destruct (timeout_process_exact ex_b2 (after_gettime ex_b2) (mk_timeval 1020 0)) as (b' & Heq & Hok & Hfate).
  - exact ex_b2_ok.
  - intros x ev Hx. rewrite ex_heap in Hx. apply list_elem_of_singleton in Hx as ->.
    rewrite ex_waiting_eq. intros [= <-] Hs. vm_compute in Hs. discriminate.
  - reflexivity.
  - destruct (Hfate 1 _ ex_waiting_eq) as (ev' & He' & Hev). exists b', ev'.
    split; [exact Heq|]. split; [exact He'|]. rewrite decide_True in Hev.
    + destruct Hev as (Hfl & Hr & _). rewrite Hfl, Hr. vm_compute. split; reflexivity.
    + split; [rewrite ex_heap; by left|]. vm_compute. by left.
Defined.

Lemma timeout_next_witness :
  ∃ b' tv, timeout_next ex_b1 = Some (b', Some tv) ∧ 0 <= tv_us tv <= 10000500.
Proof.
  assert (Hheap : elems (b_timeheap ex_b1) = [1]) by (vm_compute; reflexivity).
  destruct (timeout_next_earliest ex_b1 (after_gettime ex_b1) (mk_timeval 1002 0))
    as (b' & tv & Heq & Htv).
  - exact ex_b1_ok.
  - reflexivity.
  - vm_compute. split; congruence.
  - intros x ev Hx. rewrite Hheap in Hx. apply list_elem_of_singleton in Hx as ->.
    intros Hev. vm_compute in Hev. injection Hev as <-. split; [vm_compute; split; congruence|vm_compute; split; reflexivity].
  - destruct tv as [tv|]; [|unfold earliest in Htv; rewrite Hheap in Htv; discriminate].
    exists b', tv. split; [exact Heq|]. destruct Htv as (Hpos & _ & Hle).
    specialize (Hle 1 ex_waiting). rewrite Hheap in Hle.
    assert (Hb : Z.max 0 (tv_us (ev_timeout ex_waiting) - tv_us (mk_timeval 1002 0)) = 8000500)
      by (vm_compute; reflexivity).
    rewrite Hb in Hle. split; [exact Hpos|]. transitivity 8000500; [|lia].
    apply Hle; [by left|vm_compute; reflexivity].
Defined.

Lemma event_del_witness :
  ∃ b' r, event_del_nolock_ ex_b2 1 EVENT_DEL_NOBLOCK = Some (b', r) ∧ base_ok b' ∧
    event_count b' = 0.
Proof.
  destruct (event_del_correct ex_b2 1 ex_waiting EVENT_DEL_NOBLOCK) as (b' & r & Heq & Hok & _ & _ & Hn).
  - exact ex_b2_ok.
  - exact ex_waiting_eq.
  - intros Hs. vm_compute in Hs. discriminate.
  - exists b', r. split; [exact Heq|]. split; [exact Hok|]. rewrite Hn. vm_compute. reflexivity.
Defined.

Lemma event_active_witness :
  ∃ b' ev', event_active_nolock_ ex_b2 1 EV_READ 1 = Some b' ∧ get_ev b' 1 = Some ev' ∧
    ev_res ev' = EV_READ.
Proof.
  destruct (event_active_correct ex_b2 1 ex_waiting EV_READ 1) as (b' & Heq & _ & _ & ev' & He & _ & Hr & _).
  - exact ex_b2_ok.
  - exact ex_waiting_eq.
  - exists b', ev'. split; [exact Heq|]. split; [exact He|]. rewrite Hr. vm_compute. reflexivity.
Defined.

(** The two events scheduled to become active later. *)
Definition later (b : event_base) (e : evp) : event_base :=
  default b (event_queue_insert_active_later b e).

Lemma later_ok_base b e ev : base_ok b → get_ev b e = Some ev →
  ev_flags ev &? EVLIST_ACTIVE = false → ev_flags ev &? EVLIST_ACTIVE_LATER = false →
  base_ok (later b e).
Proof.
  intros Hok He Ha Hl. destruct (insert_active_later_spec b e ev Hok He Ha Hl) as (b' & Heq & Hok' & _).
  unfold later. by rewrite Heq.
Qed.

Definition ex_b3 : event_base := later (later ex_b2 2) 1.

Lemma ex_b3_ok : base_ok ex_b3.
Proof.
  apply (later_ok_base _ 1 ex_waiting); [|by vm_compute..].
  apply (later_ok_base _ 2 ex_timer); [apply ex_b2_ok|by vm_compute..].
Qed.

Lemma make_later_witness :
  ∃ b', event_queue_make_later_events_active ex_b3 = Some b' ∧ b_later b' = [] ∧
    b_activequeues b' !! 0%nat = Some [1] ∧ b_activequeues b' !! 1%nat = Some [2].
Proof.
  destruct (make_later_events_active_correct ex_b3 ex_b3_ok) as (b' & Heq & _ & Hl & _ & Hq).
  exists b'. split; [exact Heq|]. split; [exact Hl|]. split.
  - rewrite (Hq 0%nat []); vm_compute; reflexivity.
  - rewrite (Hq 1%nat []); vm_compute; reflexivity.
Defined.

(** A table with a backend that cannot be initialised, one that the configuration
    avoids and one that can be used. *)
Definition ex_eventops : list eventop :=
  [ mk_eventop (bytes_of_string "evport") 0 (λ w, (w, None));
    mk_eventop (bytes_of_string "kqueue") 7 (λ w, (w, Some (∅ : gmap Z Z, 0%nat)));
    mk_eventop (bytes_of_string "epoll") 3 (λ w, (w, Some (∅ : gmap Z Z, 0%nat))) ].
Definition ex_config : event_config :=
  mk_config [bytes_of_string "kqueue"] 0 (mk_timeval (-1) 0) INT_MAX 1 2 0.

Lemma event_base_new_witness :
  ∃ b op, event_base_new_with_config (λ _, false) ex_eventops true ∅ ∅ 0%nat 1000 (Some ex_config)
    = Some (Some (b, op)) ∧ base_ok b ∧ op_name op = bytes_of_string "epoll".
Proof.
  destruct (event_base_new_correct (λ _, false) ex_eventops true ∅ ∅ 0%nat 1000 (Some ex_config))
    as (r & Heq & Hr).
  - split; [done|]. intros e ev He. done.
  - intros w. by eexists.
  - assert (Hn : (λ r, op_name r.2) <$> mjoin (event_base_new_with_config (λ _, false) ex_eventops
      true ∅ ∅ 0%nat 1000 (Some ex_config)) = Some (bytes_of_string "epoll"))
      by (vm_compute; reflexivity).
    rewrite Heq in Hn. destruct r as [[b op]|]; [|discriminate Hn].
    exists b, op. split; [exact Heq|]. split; [apply Hr|]. by apply (inj Some) in Hn.
Defined.

(** The two events active, with different priorities. *)
Definition activate (b : event_base) (e : evp) : event_base :=
  default b (event_active_nolock_ b e EV_READ 1).

Lemma activate_ok b e ev : base_ok b → get_ev b e = Some ev →
  ev_flags ev &? EVLIST_FINALIZING = false → base_ok (activate b e).
Proof.
  intros Hok He Hf. destruct (event_active_spec b e ev EV_READ 1 Hok He Hf) as (b' & Heq & [Hok' _] & _).
  unfold activate. by rewrite Heq.
Qed.

Definition ex_b4 : event_base := set_limits None (activate (activate ex_b2 2) 1).

Lemma ex_b4_ok : base_ok ex_b4.
Proof.
  apply (base_ok_struct (activate (activate ex_b2 2) 1)); [by vm_compute|].
  apply (activate_ok _ 1 ex_waiting); [|by vm_compute..].
  apply (activate_ok _ 2 ex_timer); [apply ex_b2_ok|by vm_compute..].
Qed.

(** Callbacks that append the address of their event to a number. *)
Definition ex_note (e : evp) (res : Z) (w : EW) : EW := (w : Z) * 10 + e.

Lemma process_active_witness :
  ∃ b', event_process_active (observe ex_note) 5 ex_b4 = Some (b', 1) ∧
    b_activequeues b' = [[]; [2]] ∧ (b_world b' : Z) = 10201.
Proof.
  destruct (process_active_order ex_note ex_b4 0 [1] 5) as (b' & Heq & Hok & Hq & Hw).
  - exact ex_b4_ok.
  - by vm_compute.
  - by vm_compute.
  - by vm_compute.
  - by vm_compute.
  - intros k qk Hk. lia.
  - by vm_compute.
  - apply Forall_singleton. eexists. split; [vm_compute; reflexivity|].
    split; [by vm_compute|]. split; [by vm_compute|]. split; [|by left].
    intros Hs. vm_compute in Hs. discriminate.
  - by vm_compute.
  - by vm_compute.
  - simpl. lia.
  - exists b'. split; [exact Heq|]. rewrite Hq, Hw. split; vm_compute; reflexivity.
Defined.

(** A callback that sets the timer and, if it could, deletes the read event. *)
Definition ex_script (b : event_base) (e : evp) (res : Z) : script :=
  script_call (call_event_add 2 (Some ex_tv)) (λ r, if r =? 0 then script_call (call_event_del 1) (λ _, script_return) else script_return).

Definition ex_mine (e : evp) : Prop := e = 1 ∨ e = 2.

Lemma ex_b4_good : good ex_mine ex_b4.
Proof.
  split; [split; [exact ex_b4_ok|by vm_compute]| | |by vm_compute..|split; vm_compute; split; congruence].
  - assert (Hall : map_Forall (λ _ ev, plain ev) (b_evs ex_b4)).
    { assert (E : ∃ ev1 ev2, b_evs ex_b4 = {[ 1 := ev1; 2 := ev2 ]} ∧ plain ev1 ∧ plain ev2).
      { eexists _, _. split; [vm_compute; reflexivity|]. split; (split; [by left|by vm_compute..|intros _; split; vm_compute; split; congruence|intros Hc; vm_compute in Hc; discriminate]). }
      destruct E as (ev1 & ev2 & -> & H1 & H2). apply map_Forall_insert_2; [done|]. by apply map_Forall_singleton. }
    intros e ev He. by apply (Hall e).
  - intros e [->| ->]; vm_compute; eauto.
Qed.

Lemma event_base_loop_witness :
  (∃ b' r, event_base_loop (run_prog ex_script) (10 + S (Z.to_nat INT_MAX)) ex_b4 EVLOOP_ONCE = Some (b', r) ∧ good ex_mine b') ∨
  (∃ b', continues ex_script EVLOOP_ONCE 10 (loop_start ex_b4) b' ∧ good ex_mine b').
Proof.
  destruct (event_base_loop_total (H := ex_env)) with (mine := ex_mine) (prog := ex_script) (fuel := S (Z.to_nat INT_MAX)) (n := 10%nat) (b := ex_b4) (flags := EVLOOP_ONCE)
    as [(b' & r & E & Hg & _)|(_ & b' & Hc & Hg)].
  - intros w. split; [eexists; reflexivity|]. intros c. exists (w `mod` 2 ^ 62), 0. split; [reflexivity|]. pose proof (Z.mod_pos_bound w (2 ^ 62)). lia.
  - intros b e res. cbn. split; [split; [by right|]|].
    + intros t [= <-]. vm_compute. split; split; congruence.
    + intros r. destruct (r =? 0); cbn; [split; [by left|done]|done].
  - exact ex_b4_good.
  - lia.
  - left. exists b', r. split; [exact E|exact Hg].
  - right. exists b'. split; [exact Hc|exact Hg].
Defined.

(** A signal event with two deliveries pending. *)
Definition ex_signal : event :=
  mk_event EVLIST_INIT 0 EV_CLOSURE_EVENT_SIGNAL (-1) 15 2 0 EV_SIGNAL EV_SIGNAL evutil_timerclear.
Definition ex_b5 : event_base :=
  set_b_activequeues [[]] (blank_base {[ 3 := ex_signal ]} ∅ 0%nat 1000
    (mk_timer CLOCK_MONOTONIC evutil_timerclear evutil_timerclear) 0).

Lemma ex_b5_ok : base_ok ex_b5.
Proof.
  apply empty_base_ok; [split; [repeat constructor|done]|]. split; [done|]. intros e ev He.
  change (({[ 3 := ex_signal ]} : gmap evp event) !! e = Some ev) in He.
  apply lookup_singleton_Some in He as [<- <-]. split; [done|]. split; by vm_compute.
Qed.

Lemma signal_closure_witness :
  ∃ b', event_signal_closure (observe ex_note) ex_b5 3 = Some b' ∧ (b_world b' : Z) = 100033.
Proof.
  destruct (signal_closure_calls ex_note ex_b5 3 ex_signal 2) as (b' & Heq & _ & Hw & _).
  - split; [exact ex_b5_ok|]. reflexivity.
  - reflexivity.
  - vm_compute. reflexivity.
  - reflexivity.
  - exists b'. split; [exact Heq|]. rewrite Hw. vm_compute. reflexivity.
Defined.

Lemma signal_delete_witness :
  ∃ b', event_signal_closure delete_self ex_b5 3 = Some b' ∧
    event_del_nolock_ b' 3 EVENT_DEL_AUTOBLOCK = None.
Proof.
  apply (signal_delete_leaves_dangling_pointer ex_b5 3 ex_signal 2 EVENT_DEL_AUTOBLOCK).
  - exact ex_b5_ok.
  - reflexivity.
  - reflexivity.
  - reflexivity.
  - reflexivity.
  - vm_compute. reflexivity.
  - lia.
  - vm_compute. reflexivity.
  - reflexivity.
Defined.
