(* ===== verification/BufferCore.v ===== *)
(** * Byte buffers: data and operations (buffer.c, evbuffer-internal.h)

    An [evbuffer] is a linked list of chains, each a block of memory of which
    the bytes from [misalign] to [misalign + off] are data.  The list of
    chains is a Rocq list; [last_with_datap] is the index of the chain it
    points at (index 0 is [&buf->first]; it equals the length of the list when
    the pointer it designates is NULL).  Memory is explicit: the contents of a
    chain's block is a list of bytes, fresh memory holds a value that is no
    byte, and a [memcpy] out of the bounds of a block makes the operation
    return [None], as a failed [EVUTIL_ASSERT] does.  An allocation may fail at
    each call of [mm_malloc]: the operations take an oracle that says which
    calls succeed.  Callbacks are observers: each call is logged with the
    information it is given. *)

From S2P Require Import Prelude.

(** ** Flags of a chain *)

Abbreviation EVBUFFER_IMMUTABLE := 8.
Abbreviation EVBUFFER_REFERENCE := 4.
Abbreviation EVBUFFER_MEM_PINNED_R := 16.
Abbreviation EVBUFFER_MEM_PINNED_ANY := 48.

Abbreviation EVBUFFER_CHAIN_SIZE := 48.
Abbreviation MIN_BUFFER_SIZE := 1024.
Abbreviation EVBUFFER_CHAIN_MAX := EV_SSIZE_MAX.
Abbreviation EVBUFFER_CHAIN_MAX_AUTO_SIZE := 4096%nat.

(** ** Memory *)

Definition POISON : Z := -1.

(** [m n] says whether the [n]-th allocation of an operation succeeds. *)
Abbreviation mallocs := (nat → bool).
Definition later_mallocs (k : nat) (m : mallocs) : mallocs := λ n, m (k + n)%nat.

(** ** Chains *)

Record evbuffer_chain := mk_chain {
  c_buffer : bytes;
  c_misalign : nat;
  c_off : nat;
  c_flags : Z
}.

Definition set_c_buffer (v : bytes) (r : evbuffer_chain) : evbuffer_chain :=
  mk_chain v (c_misalign r) (c_off r) (c_flags r).
Definition set_c_misalign (v : nat) (r : evbuffer_chain) : evbuffer_chain :=
  mk_chain (c_buffer r) v (c_off r) (c_flags r).
Definition set_c_off (v : nat) (r : evbuffer_chain) : evbuffer_chain :=
  mk_chain (c_buffer r) (c_misalign r) v (c_flags r).
Definition set_c_flags (v : Z) (r : evbuffer_chain) : evbuffer_chain :=
  mk_chain (c_buffer r) (c_misalign r) (c_off r) v.

Definition buffer_len (c : evbuffer_chain) : nat := length (c_buffer c).

(** The bytes of a chain that are data. *)
Definition data_of (c : evbuffer_chain) : bytes := take (c_off c) (drop (c_misalign c) (c_buffer c)).

Definition CHAIN_SPACE_PTR (c : evbuffer_chain) : nat := (c_misalign c + c_off c)%nat.

Definition CHAIN_SPACE_LEN (c : evbuffer_chain) : nat :=
  if c_flags c &? EVBUFFER_IMMUTABLE then 0%nat
  else (buffer_len c - (c_misalign c + c_off c))%nat.

Definition CHAIN_PINNED (c : evbuffer_chain) : bool := c_flags c &? EVBUFFER_MEM_PINNED_ANY.
Definition CHAIN_PINNED_R (c : evbuffer_chain) : bool := c_flags c &? EVBUFFER_MEM_PINNED_R.

(** [while (to_alloc < size) to_alloc <<= 1]: 64 doublings pass any [size_t]. *)
Fixpoint double_until (fuel : nat) (to_alloc size : Z) : Z :=
  match fuel with
  | O => to_alloc
  | S fuel => if to_alloc <? size then double_until fuel (Z.shiftl to_alloc 1) size else to_alloc
  end.

Definition chain_alloc_size (size : Z) : Z :=
  if size <? EVBUFFER_CHAIN_MAX `div` 2 then double_until 64 MIN_BUFFER_SIZE size else size.

Definition evbuffer_chain_new (ok : bool) (size : Z) : option evbuffer_chain :=
  if EVBUFFER_CHAIN_MAX - EVBUFFER_CHAIN_SIZE <? size then None
  else if ok then
    let to_alloc := chain_alloc_size (size + EVBUFFER_CHAIN_SIZE) in
    Some (mk_chain (replicate (Z.to_nat (to_alloc - EVBUFFER_CHAIN_SIZE)) POISON) 0 0 0)
  else None.

Definition evbuffer_chain_pin_ (flag : Z) (c : evbuffer_chain) : option evbuffer_chain :=
  ASSERT (Z.land (c_flags c) flag =? 0) ;;
  Some (set_c_flags (Z.lor (c_flags c) flag) c).

Definition evbuffer_chain_unpin_ (flag : Z) (c : evbuffer_chain) : option evbuffer_chain :=
  ASSERT (negb (Z.land (c_flags c) flag =? 0)) ;;
  Some (set_c_flags (Z.land (c_flags c) (Z.lnot flag)) c).

Definition evbuffer_chain_align (c : evbuffer_chain) : option evbuffer_chain :=
  ASSERT (negb (c_flags c &? EVBUFFER_IMMUTABLE)) ;;
  ASSERT (negb (c_flags c &? EVBUFFER_MEM_PINNED_ANY)) ;;
  d ← mread (c_misalign c) (c_off c) (c_buffer c);
  buf ← memcpy_at 0 d (c_buffer c);
  Some (set_c_misalign 0 (set_c_buffer buf c)).

Abbreviation MAX_TO_COPY_IN_EXPAND := 4096%nat.
Abbreviation MAX_TO_REALIGN_IN_EXPAND := 2048%nat.

Definition evbuffer_chain_should_realign (c : evbuffer_chain) (datlen : Z) : bool :=
  (datlen <=? Z.of_nat (buffer_len c - c_off c)%nat) &&
  (c_off c <? buffer_len c `div` 2)%nat && (c_off c <=? MAX_TO_REALIGN_IN_EXPAND)%nat.

(** Copying [d] to the space after the data, as [memcpy (CHAIN_SPACE_PTR (chain), d, len);
    chain->off += len]. *)
Definition chain_write_end (d : bytes) (c : evbuffer_chain) : option evbuffer_chain :=
  buf ← memcpy_at (CHAIN_SPACE_PTR c) d (c_buffer c);
  Some (set_c_off (c_off c + length d)%nat (set_c_buffer buf c)).

(** Dropping [n] bytes at the front of a chain. *)
Definition chain_advance (n : nat) (c : evbuffer_chain) : evbuffer_chain :=
  set_c_misalign (c_misalign c + n)%nat (set_c_off (c_off c - n)%nat c).

(** ** Buffers and their callbacks *)

Abbreviation EVBUFFER_CB_ENABLED := 1.
Abbreviation EVBUFFER_CB_NODEFER := 2.
Abbreviation EVBUFFER_CB_OBSOLETE := 262144.
Abbreviation EVBUFFER_CB_INTERNAL_FLAGS := 4294901760.

Record evbuffer_cb_entry := mk_cb_entry {
  e_id : Z;       (* the address of the entry *)
  e_func : Z;     (* cb.cb_func or cb.cb_obsolete *)
  e_cbarg : Z;
  e_flags : Z
}.

Record evbuffer_cb_info := mk_cb_info {
  orig_size : Z;
  n_added : Z;
  n_deleted : Z
}.

(** A call of a callback, with what it is given. *)
Inductive cb_call :=
  | CallFunc (func : Z) (info : evbuffer_cb_info) (arg : Z)
  | CallObsolete (func : Z) (old_len new_len : Z) (arg : Z).

Record evbuffer := mk_evbuffer {
  bf_chains : list evbuffer_chain;
  bf_lwd : nat;
  bf_total_len : Z;
  bf_n_add : Z;
  bf_n_del : Z;
  bf_freeze_start : bool;
  bf_freeze_end : bool;
  bf_deferred_cbs : bool;
  bf_flags : Z;
  bf_refcnt : Z;
  bf_callbacks : list evbuffer_cb_entry;
  bf_lock : Z;
  bf_deferred_pending : bool;
  bf_log : list cb_call
}.

Definition set_bf_chains (v : list evbuffer_chain) (r : evbuffer) : evbuffer :=
  mk_evbuffer v (bf_lwd r) (bf_total_len r) (bf_n_add r) (bf_n_del r) (bf_freeze_start r)
    (bf_freeze_end r) (bf_deferred_cbs r) (bf_flags r) (bf_refcnt r) (bf_callbacks r)
    (bf_lock r) (bf_deferred_pending r) (bf_log r).
Definition set_bf_lwd (v : nat) (r : evbuffer) : evbuffer :=
  mk_evbuffer (bf_chains r) v (bf_total_len r) (bf_n_add r) (bf_n_del r) (bf_freeze_start r)
    (bf_freeze_end r) (bf_deferred_cbs r) (bf_flags r) (bf_refcnt r) (bf_callbacks r)
    (bf_lock r) (bf_deferred_pending r) (bf_log r).
Definition set_bf_total_len (v : Z) (r : evbuffer) : evbuffer :=
  mk_evbuffer (bf_chains r) (bf_lwd r) v (bf_n_add r) (bf_n_del r) (bf_freeze_start r)
    (bf_freeze_end r) (bf_deferred_cbs r) (bf_flags r) (bf_refcnt r) (bf_callbacks r)
    (bf_lock r) (bf_deferred_pending r) (bf_log r).
Definition set_bf_n_add (v : Z) (r : evbuffer) : evbuffer :=
  mk_evbuffer (bf_chains r) (bf_lwd r) (bf_total_len r) v (bf_n_del r) (bf_freeze_start r)
    (bf_freeze_end r) (bf_deferred_cbs r) (bf_flags r) (bf_refcnt r) (bf_callbacks r)
    (bf_lock r) (bf_deferred_pending r) (bf_log r).
Definition set_bf_n_del (v : Z) (r : evbuffer) : evbuffer :=
  mk_evbuffer (bf_chains r) (bf_lwd r) (bf_total_len r) (bf_n_add r) v (bf_freeze_start r)
    (bf_freeze_end r) (bf_deferred_cbs r) (bf_flags r) (bf_refcnt r) (bf_callbacks r)
    (bf_lock r) (bf_deferred_pending r) (bf_log r).
Definition set_bf_freeze_start (v : bool) (r : evbuffer) : evbuffer :=
  mk_evbuffer (bf_chains r) (bf_lwd r) (bf_total_len r) (bf_n_add r) (bf_n_del r) v
    (bf_freeze_end r) (bf_deferred_cbs r) (bf_flags r) (bf_refcnt r) (bf_callbacks r)
    (bf_lock r) (bf_deferred_pending r) (bf_log r).
Definition set_bf_freeze_end (v : bool) (r : evbuffer) : evbuffer :=
  mk_evbuffer (bf_chains r) (bf_lwd r) (bf_total_len r) (bf_n_add r) (bf_n_del r)
    (bf_freeze_start r) v (bf_deferred_cbs r) (bf_flags r) (bf_refcnt r) (bf_callbacks r)
    (bf_lock r) (bf_deferred_pending r) (bf_log r).
Definition set_bf_deferred_cbs (v : bool) (r : evbuffer) : evbuffer :=
  mk_evbuffer (bf_chains r) (bf_lwd r) (bf_total_len r) (bf_n_add r) (bf_n_del r)
    (bf_freeze_start r) (bf_freeze_end r) v (bf_flags r) (bf_refcnt r) (bf_callbacks r)
    (bf_lock r) (bf_deferred_pending r) (bf_log r).
Definition set_bf_flags (v : Z) (r : evbuffer) : evbuffer :=
  mk_evbuffer (bf_chains r) (bf_lwd r) (bf_total_len r) (bf_n_add r) (bf_n_del r)
    (bf_freeze_start r) (bf_freeze_end r) (bf_deferred_cbs r) v (bf_refcnt r) (bf_callbacks r)
    (bf_lock r) (bf_deferred_pending r) (bf_log r).
Definition set_bf_refcnt (v : Z) (r : evbuffer) : evbuffer :=
  mk_evbuffer (bf_chains r) (bf_lwd r) (bf_total_len r) (bf_n_add r) (bf_n_del r)
    (bf_freeze_start r) (bf_freeze_end r) (bf_deferred_cbs r) (bf_flags r) v (bf_callbacks r)
    (bf_lock r) (bf_deferred_pending r) (bf_log r).
Definition set_bf_callbacks (v : list evbuffer_cb_entry) (r : evbuffer) : evbuffer :=
  mk_evbuffer (bf_chains r) (bf_lwd r) (bf_total_len r) (bf_n_add r) (bf_n_del r)
    (bf_freeze_start r) (bf_freeze_end r) (bf_deferred_cbs r) (bf_flags r) (bf_refcnt r) v
    (bf_lock r) (bf_deferred_pending r) (bf_log r).
Definition set_bf_lock (v : Z) (r : evbuffer) : evbuffer :=
  mk_evbuffer (bf_chains r) (bf_lwd r) (bf_total_len r) (bf_n_add r) (bf_n_del r)
    (bf_freeze_start r) (bf_freeze_end r) (bf_deferred_cbs r) (bf_flags r) (bf_refcnt r)
    (bf_callbacks r) v (bf_deferred_pending r) (bf_log r).
Definition set_bf_deferred_pending (v : bool) (r : evbuffer) : evbuffer :=
  mk_evbuffer (bf_chains r) (bf_lwd r) (bf_total_len r) (bf_n_add r) (bf_n_del r)
    (bf_freeze_start r) (bf_freeze_end r) (bf_deferred_cbs r) (bf_flags r) (bf_refcnt r)
    (bf_callbacks r) (bf_lock r) v (bf_log r).
Definition set_bf_log (v : list cb_call) (r : evbuffer) : evbuffer :=
  mk_evbuffer (bf_chains r) (bf_lwd r) (bf_total_len r) (bf_n_add r) (bf_n_del r)
    (bf_freeze_start r) (bf_freeze_end r) (bf_deferred_cbs r) (bf_flags r) (bf_refcnt r)
    (bf_callbacks r) (bf_lock r) (bf_deferred_pending r) v.

Definition evbuffer_new (ok : bool) : option evbuffer :=
  if ok then Some (mk_evbuffer [] 0 0 0 0 false false false 0 1 [] 0 false []) else None.

Definition set_chain (p : nat) (c : evbuffer_chain) (b : evbuffer) : evbuffer :=
  set_bf_chains (<[p := c]> (bf_chains b)) b.

Definition add_total (n : Z) (b : evbuffer) : evbuffer := set_bf_total_len (u64 (bf_total_len b + n)) b.
Definition add_n_add (n : Z) (b : evbuffer) : evbuffer := set_bf_n_add (u64 (bf_n_add b + n)) b.
Definition add_n_del (n : Z) (b : evbuffer) : evbuffer := set_bf_n_del (u64 (bf_n_del b + n)) b.

(** [buf->last]. *)
Definition bf_last (b : evbuffer) : option evbuffer_chain := last (bf_chains b).

Definition evbuffer_set_flags (flags : Z) (b : evbuffer) : evbuffer :=
  set_bf_flags (Z.lor (bf_flags b) (u32 flags)) b.
Definition evbuffer_clear_flags (flags : Z) (b : evbuffer) : evbuffer :=
  set_bf_flags (Z.land (bf_flags b) (Z.lnot (u32 flags))) b.
Definition evbuffer_incref_ (b : evbuffer) : evbuffer := set_bf_refcnt (bf_refcnt b + 1) b.

Definition EVBUFFER_LOCK (b : evbuffer) : evbuffer := set_bf_lock (bf_lock b + 1) b.
Definition EVBUFFER_UNLOCK (b : evbuffer) : evbuffer := set_bf_lock (bf_lock b - 1) b.

Definition evbuffer_incref_and_lock_ (b : evbuffer) : evbuffer :=
  set_bf_refcnt (bf_refcnt b + 1) (EVBUFFER_LOCK b).

(** One entry of the walk over the callbacks. *)
Definition call_entry (info : evbuffer_cb_info) (new_size : Z) (e : evbuffer_cb_entry) : cb_call :=
  if e_flags e &? EVBUFFER_CB_OBSOLETE
  then CallObsolete (e_func e) (orig_size info) new_size (e_cbarg e)
  else CallFunc (e_func e) info (e_cbarg e).

Definition cb_mask (running_deferred deferred : bool) : Z * Z * bool :=
  if running_deferred then (Z.lor EVBUFFER_CB_NODEFER EVBUFFER_CB_ENABLED, EVBUFFER_CB_ENABLED, true)
  else if deferred then
    (Z.lor EVBUFFER_CB_NODEFER EVBUFFER_CB_ENABLED, Z.lor EVBUFFER_CB_NODEFER EVBUFFER_CB_ENABLED, false)
  else (EVBUFFER_CB_ENABLED, EVBUFFER_CB_ENABLED, true).

Definition evbuffer_run_callbacks (running_deferred : bool) (b : evbuffer) : evbuffer :=
  let '(mask, masked_val, clear) := cb_mask running_deferred (bf_deferred_cbs b) in
  match bf_callbacks b with
  | [] => set_bf_n_del 0 (set_bf_n_add 0 b)
  | _ =>
    if (bf_n_add b =? 0) && (bf_n_del b =? 0) then b
    else
      let new_size := bf_total_len b in
      let info := mk_cb_info (u64 (new_size + bf_n_del b - bf_n_add b)) (bf_n_add b) (bf_n_del b) in
      let b := if clear then set_bf_n_del 0 (set_bf_n_add 0 b) else b in
      let called := filter (λ e, Z.land (e_flags e) mask = masked_val) (bf_callbacks b) in
      set_bf_log (bf_log b ++ (call_entry info new_size <$> called)) b
  end.

Definition evbuffer_invoke_callbacks_ (b : evbuffer) : evbuffer :=
  match bf_callbacks b with
  | [] => set_bf_n_del 0 (set_bf_n_add 0 b)
  | _ =>
    let b :=
      if bf_deferred_cbs b then
        EVBUFFER_UNLOCK
          (if bf_deferred_pending b then b
           else evbuffer_incref_and_lock_ (set_bf_deferred_pending true b))
      else b in
    evbuffer_run_callbacks false b
  end.

(** The reference count reaching zero destroys the buffer: [None] as a value. *)
Definition evbuffer_decref_and_unlock_ (b : evbuffer) : option (option evbuffer) :=
  ASSERT (0 <? bf_refcnt b) ;;
  let b := set_bf_refcnt (bf_refcnt b - 1) b in
  if 0 <? bf_refcnt b then Some (Some (EVBUFFER_UNLOCK b)) else Some None.

Definition evbuffer_deferred_callback (b : evbuffer) : option (option evbuffer) :=
  let b := EVBUFFER_LOCK (set_bf_deferred_pending false b) in
  evbuffer_decref_and_unlock_ (evbuffer_run_callbacks true b).

Definition evbuffer_remove_all_callbacks (b : evbuffer) : evbuffer := set_bf_callbacks [] b.

(** [None] stands for the returned NULL, when the entry at address [id] cannot be allocated. *)
Definition evbuffer_add_cb (ok : bool) (id func arg : Z) (b : evbuffer) : option evbuffer :=
  if ok then
    Some (set_bf_callbacks (mk_cb_entry id func arg EVBUFFER_CB_ENABLED :: bf_callbacks b) b)
  else None.

(** The entry that [evbuffer_add_cb] returns is used without a check: [None] is
    the access through a null pointer. *)
Definition evbuffer_setcb (ok : bool) (id func arg : Z) (b : evbuffer) : option evbuffer :=
  let b := evbuffer_remove_all_callbacks b in
  if func =? 0 then Some b
  else
    b ← evbuffer_add_cb ok id 0 arg b;
    Some (set_bf_callbacks
      [mk_cb_entry id func arg (Z.lor EVBUFFER_CB_ENABLED EVBUFFER_CB_OBSOLETE)] b).

Definition evbuffer_remove_cb_entry (id : Z) (b : evbuffer) : evbuffer :=
  set_bf_callbacks (filter (λ e, e_id e ≠ id) (bf_callbacks b)) b.

Definition evbuffer_remove_cb (func arg : Z) (b : evbuffer) : Z * evbuffer :=
  match list_find (λ e, e_func e = func ∧ e_cbarg e = arg) (bf_callbacks b) with
  | Some (_, e) => (0, evbuffer_remove_cb_entry (e_id e) b)
  | None => (-1, b)
  end.

Definition set_entry_flags (id : Z) (f : Z → Z) (b : evbuffer) : evbuffer :=
  set_bf_callbacks ((λ e, if e_id e =? id
    then mk_cb_entry (e_id e) (e_func e) (e_cbarg e) (f (e_flags e)) else e) <$> bf_callbacks b) b.

Definition evbuffer_cb_set_flags (id flags : Z) (b : evbuffer) : evbuffer :=
  set_entry_flags id (λ f, Z.lor f (Z.land flags (Z.lnot EVBUFFER_CB_INTERNAL_FLAGS))) b.

Definition evbuffer_cb_clear_flags (id flags : Z) (b : evbuffer) : evbuffer :=
  set_entry_flags id
    (λ f, Z.land f (Z.lnot (Z.land flags (Z.lnot EVBUFFER_CB_INTERNAL_FLAGS)))) b.

Definition evbuffer_freeze (start : bool) (b : evbuffer) : evbuffer :=
  if start then set_bf_freeze_start true b else set_bf_freeze_end true b.
Definition evbuffer_unfreeze (start : bool) (b : evbuffer) : evbuffer :=
  if start then set_bf_freeze_start false b else set_bf_freeze_end false b.

Definition evbuffer_get_length (b : evbuffer) : Z := bf_total_len b.
Definition evbuffer_get_contiguous_space (b : evbuffer) : Z :=
  match bf_chains b with c :: _ => Z.of_nat (c_off c) | [] => 0 end.

(** ** The end of the list of chains *)

Definition evbuffer_chains_all_empty (l : list evbuffer_chain) : bool :=
  forallb (λ c, (c_off c =? 0)%nat) l.

(** How many chains the search for the first victim passes. *)
Fixpoint victim (l : list evbuffer_chain) : nat :=
  match l with
  | c :: l => if negb (c_off c =? 0)%nat || CHAIN_PINNED c then S (victim l) else 0
  | [] => 0
  end.

(** The chains that stay; the place of the next chain is after them. *)
Definition evbuffer_free_trailing_empty_chains (b : evbuffer) : option (list evbuffer_chain) :=
  let ch := (bf_lwd b + victim (drop (bf_lwd b) (bf_chains b)))%nat in
  ASSERT (evbuffer_chains_all_empty (drop ch (bf_chains b))) ;;
  Some (take ch (bf_chains b)).

Definition evbuffer_chain_insert (c : evbuffer_chain) (b : evbuffer) : option evbuffer :=
  b' ← match bf_chains b !! bf_lwd b with
       | None =>
         ASSERT (bf_lwd b =? 0)%nat ;;
         ASSERT (length (bf_chains b) =? 0)%nat ;;
         Some (set_bf_chains [c] b)
       | Some _ =>
         kept ← evbuffer_free_trailing_empty_chains b;
         let b' := set_bf_chains (kept ++ [c]) b in
         Some (if (c_off c =? 0)%nat then b' else set_bf_lwd (length kept) b')
       end;
  Some (add_total (Z.of_nat (c_off c)) b').

Definition evbuffer_chain_insert_new (ok : bool) (datlen : Z) (b : evbuffer) :
    option (option evbuffer) :=
  match evbuffer_chain_new ok datlen with
  | None => Some None
  | Some c => b ← evbuffer_chain_insert c b; Some (Some b)
  end.

Fixpoint advance (l : list evbuffer_chain) : nat :=
  match l with
  | c :: l => if (c_off c =? 0)%nat then 0 else S (advance l)
  | [] => 0
  end.

Definition advance_last_with_data (b : evbuffer) : evbuffer :=
  match bf_chains b !! bf_lwd b with
  | None => b
  | Some _ => set_bf_lwd (bf_lwd b + advance (drop (S (bf_lwd b)) (bf_chains b)))%nat b
  end.

(** ** Adding data at the end *)

Definition counted (n : nat) (b : evbuffer) : evbuffer :=
  add_n_add (Z.of_nat n) (add_total (Z.of_nat n) b).

(** Chain [c], number [p], has room for [remain] bytes only: the others go to a new chain. *)
Definition add_another_chain (ok : bool) (p : nat) (c : evbuffer_chain) (remain : nat) (data : bytes)
    (b : evbuffer) : option (Z * evbuffer) :=
  let datlen := length data in
  let to_alloc := buffer_len c in
  let to_alloc :=
    if (to_alloc <=? EVBUFFER_CHAIN_MAX_AUTO_SIZE / 2)%nat then (to_alloc * 2)%nat else to_alloc in
  let to_alloc := if (to_alloc <? datlen)%nat then datlen else to_alloc in
  match evbuffer_chain_new ok (Z.of_nat to_alloc) with
  | None => Some (-1, b)
  | Some tmp =>
    b ← (if (remain =? 0)%nat then Some b
         else c' ← chain_write_end (take remain data) c; Some (counted remain (set_chain p c' b)));
    buf ← memcpy_at 0 (drop remain data) (c_buffer tmp);
    let tmp := set_c_off (datlen - remain)%nat (set_c_buffer buf tmp) in
    b ← evbuffer_chain_insert tmp b;
    Some (0, evbuffer_invoke_callbacks_ (add_n_add (Z.of_nat (datlen - remain)) b))
  end.

(** Everything [evbuffer_add] does once it has a chain, number [p], to add to. *)
Definition add_to_chain (ok : bool) (p : nat) (data : bytes) (b : evbuffer) : option (Z * evbuffer) :=
  let datlen := length data in
  c ← bf_chains b !! p;
  if c_flags c &? EVBUFFER_IMMUTABLE then add_another_chain ok p c 0 data b
  else
    ASSERT (Z.of_nat (c_misalign c) <=? EVBUFFER_CHAIN_MAX) ;;
    let remain := (buffer_len c - c_misalign c - c_off c)%nat in
    if (datlen <=? remain)%nat then
      c' ← chain_write_end data c;
      Some (0, evbuffer_invoke_callbacks_ (counted datlen (set_chain p c' b)))
    else if negb (CHAIN_PINNED c) && evbuffer_chain_should_realign c (Z.of_nat datlen) then
      c ← evbuffer_chain_align c;
      buf ← memcpy_at (c_off c) data (c_buffer c);
      let c' := set_c_off (c_off c + datlen)%nat (set_c_buffer buf c) in
      Some (0, evbuffer_invoke_callbacks_ (counted datlen (set_chain p c' b)))
    else add_another_chain ok p c remain data b.

Definition evbuffer_add (m : mallocs) (data : bytes) (b : evbuffer) : option (Z * evbuffer) :=
  let datlen := Z.of_nat (length data) in
  if bf_freeze_end b then Some (-1, b)
  else if EV_SIZE_MAX - bf_total_len b <? datlen then Some (-1, b)
  else
    match bf_chains b with
    | [] =>
      match evbuffer_chain_new (m 0%nat) datlen with
      | None => Some (-1, b)
      | Some c =>
        b ← evbuffer_chain_insert c b;
        add_to_chain (m 1%nat) (length (bf_chains b) - 1) data b
      end
    | _ =>
      let p := if (bf_lwd b <? length (bf_chains b))%nat then bf_lwd b
               else (length (bf_chains b) - 1)%nat in
      add_to_chain (m 1%nat) p data b
    end.

(** ** Adding data in front *)

(** A new chain in front of the list, with [data] at its end. *)
Definition prepend_chain (ok : bool) (data : bytes) (b : evbuffer) : option (Z * evbuffer) :=
  match evbuffer_chain_new ok (Z.of_nat (length data)) with
  | None => Some (-1, b)
  | Some tmp =>
    ASSERT (length data <=? buffer_len tmp)%nat ;;
    let misalign := (buffer_len tmp - length data)%nat in
    buf ← memcpy_at misalign data (c_buffer tmp);
    let tmp := mk_chain buf misalign (length data) (c_flags tmp) in
    let n := Z.of_nat (length data) in
    let b := set_bf_lwd (S (bf_lwd b)) (set_bf_chains (tmp :: bf_chains b) b) in
    Some (0, evbuffer_invoke_callbacks_ (add_n_add n (add_total n b)))
  end.

Definition prepend_to_first (ok : bool) (data : bytes) (b : evbuffer) : option (Z * evbuffer) :=
  chain ← bf_chains b !! 0%nat;
  if chain.(c_flags) &? EVBUFFER_IMMUTABLE then prepend_chain ok data b
  else
    ASSERT (Z.of_nat (c_misalign chain) <=? EVBUFFER_CHAIN_MAX) ;;
    let chain := if (c_off chain =? 0)%nat then set_c_misalign (buffer_len chain) chain else chain in
    let datlen := length data in
    if (datlen <=? c_misalign chain)%nat then
      buf ← memcpy_at (c_misalign chain - datlen) data (c_buffer chain);
      let chain := mk_chain buf (c_misalign chain - datlen) (c_off chain + datlen) (c_flags chain) in
      let n := Z.of_nat datlen in
      Some (0, evbuffer_invoke_callbacks_ (add_n_add n (add_total n (set_chain 0 chain b))))
    else if (c_misalign chain =? 0)%nat then prepend_chain ok data (set_chain 0 chain b)
    else
      let k := c_misalign chain in
      buf ← memcpy_at 0 (drop (datlen - k) data) (c_buffer chain);
      let chain := mk_chain buf 0 (c_off chain + k) (c_flags chain) in
      prepend_chain ok (take (datlen - k) data)
        (add_n_add (Z.of_nat k) (add_total (Z.of_nat k) (set_chain 0 chain b))).

Definition evbuffer_prepend (m : mallocs) (data : bytes) (b : evbuffer) : option (Z * evbuffer) :=
  let datlen := Z.of_nat (length data) in
  if bf_freeze_start b then Some (-1, b)
  else if EV_SIZE_MAX - bf_total_len b <? datlen then Some (-1, b)
  else
    match bf_chains b with
    | [] =>
      match evbuffer_chain_new (m 0%nat) datlen with
      | None => Some (-1, b)
      | Some c => b ← evbuffer_chain_insert c b; prepend_to_first (m 1%nat) data b
      end
    | _ => prepend_to_first (m 1%nat) data b
    end.

(** ** Removing data at the front *)

Definition HAS_PINNED_R (b : evbuffer) : bool :=
  match bf_last b with Some c => CHAIN_PINNED_R c | None => false end.

Definition ZERO_CHAIN (b : evbuffer) : evbuffer :=
  set_bf_total_len 0 (set_bf_lwd 0 (set_bf_chains [] b)).

(** The loop of [evbuffer_drain]: [i] is the number of the chain in the
    original list, [lwd] the index of [last_with_datap].  A chain that is not
    the first and whose predecessor is freed is the new first chain. *)
Fixpoint drain_loop (l : list evbuffer_chain) (remaining lwd i : nat) :
    option (list evbuffer_chain * nat * nat) :=
  match l with
  | [] => None
  | c :: l' =>
    if (c_off c <=? remaining)%nat then
      let remaining := (remaining - c_off c)%nat in
      let lwd := if (i =? lwd)%nat || (S i =? lwd)%nat then 0%nat else lwd in
      if CHAIN_PINNED_R c then
        ASSERT (remaining =? 0)%nat ;;
        Some (mk_chain (c_buffer c) (c_misalign c + c_off c) 0 (c_flags c) :: l', remaining,
              if (lwd =? 0)%nat then 0%nat else (lwd - i)%nat)
      else drain_loop l' remaining lwd (S i)
    else Some (l, remaining, if (lwd =? 0)%nat then 0%nat else (lwd - i)%nat)
  end.

Definition evbuffer_drain (len : Z) (b : evbuffer) : option (Z * evbuffer) :=
  let old_len := bf_total_len b in
  if old_len =? 0 then Some (0, b)
  else if bf_freeze_start b then Some (-1, b)
  else if (old_len <=? len) && negb (HAS_PINNED_R b) then
    Some (0, evbuffer_invoke_callbacks_ (add_n_del old_len (ZERO_CHAIN b)))
  else
    let len := if old_len <=? len then old_len else len in
    let b := set_bf_total_len (u64 (old_len - len)) b in
    '(l, remaining, lwd) ← drain_loop (bf_chains b) (Z.to_nat len) (bf_lwd b) 0;
    match l with
    | [] => None
    | c :: l' =>
      ASSERT (remaining <? c_off c)%nat ;;
      let b := set_bf_lwd lwd (set_bf_chains (chain_advance remaining c :: l') b) in
      Some (0, evbuffer_invoke_callbacks_ (add_n_del len b))
    end.

(** ** Copying data out *)

(** A position in a buffer: [None] for the chain is the NULL pointer. *)
Record evbuffer_ptr := mk_ptr {
  p_pos : Z;
  p_chain : option nat;
  p_pos_in_chain : nat
}.

(** The copying loop, over the chains from the current one on. *)
Fixpoint copyout_loop (l : list evbuffer_chain) (pos_in_chain datlen : nat) : option bytes :=
  if (datlen =? 0)%nat then Some []
  else
    match l with
    | [] => None
    | c :: l' =>
      let copylen := (c_off c - pos_in_chain)%nat in
      if (copylen <=? datlen)%nat then
        d ← mread (c_misalign c + pos_in_chain) copylen (c_buffer c);
        ASSERT (negb (length l' =? 0)%nat || (datlen - copylen =? 0)%nat) ;;
        r ← copyout_loop l' 0 (datlen - copylen);
        Some (d ++ r)
      else
        ASSERT (datlen + pos_in_chain <=? c_off c)%nat ;;
        mread (c_misalign c + pos_in_chain) datlen (c_buffer c)
    end.

(** The result and the bytes copied to [data_out]. *)
Definition evbuffer_copyout_from (pos : option evbuffer_ptr) (datlen : Z) (b : evbuffer) :
    option (Z * bytes) :=
  let finish (l : list evbuffer_chain) (pos_in_chain : nat) (datlen : Z) :=
    if datlen =? 0 then Some (0, [])
    else if bf_freeze_start b then Some (-1, [])
    else d ← copyout_loop l pos_in_chain (Z.to_nat datlen); Some (datlen, d) in
  match pos with
  | Some p =>
    if u64 (EV_SSIZE_MAX - p_pos p) <? datlen then Some (-1, [])
    else
      let datlen := if bf_total_len b <? u64 (datlen + p_pos p)
                    then u64 (bf_total_len b - p_pos p) else datlen in
      finish (match p_chain p with Some i => drop i (bf_chains b) | None => [] end)
        (p_pos_in_chain p) datlen
  | None =>
    finish (bf_chains b) 0%nat (if bf_total_len b <? datlen then bf_total_len b else datlen)
  end.

Definition evbuffer_copyout (datlen : Z) (b : evbuffer) : option (Z * bytes) :=
  evbuffer_copyout_from None datlen b.

(** The result (converted to [int]), the bytes copied and the buffer. *)
Definition evbuffer_remove (datlen : Z) (b : evbuffer) : option (Z * bytes * evbuffer) :=
  '(n, d) ← evbuffer_copyout_from None datlen b;
  if 0 <? n then
    '(r, b) ← evbuffer_drain n b;
    Some (i32 (if r <? 0 then -1 else n), d, b)
  else Some (i32 n, d, b).
