(* ===== verification/BufferMove.v ===== *)
(** * Byte buffers: space, moves between buffers and input/output (buffer.c)

    The operations that reserve space at the end of a buffer, hand it to a
    reader and commit what was read, those that move chains from one buffer to
    another, and those that make data contiguous.  A vector that points into a
    chain carries the number of the chain and the offset in its block; it is
    meaningful for the list of chains it was made from. *)

From S2P Require Import Prelude BufferCore.

(** ** Making space at the end of a buffer *)

(** Number of the chain in which [datlen] bytes can be written, or [None] when
    an allocation fails. *)
Definition expand_done (p : nat) (datlen : Z) (b : evbuffer) : option (option nat * evbuffer) :=
  c ← bf_chains b !! p;
  ASSERT (datlen <=? Z.of_nat (CHAIN_SPACE_LEN c)) ;;
  Some (Some p, b).

Definition expand_insert_new (ok : bool) (datlen : Z) (b : evbuffer) :
    option (option nat * evbuffer) :=
  r ← evbuffer_chain_insert_new ok datlen b;
  match r with
  | None => Some (None, b)
  | Some b => expand_done (length (bf_chains b) - 1) datlen b
  end.

Definition evbuffer_expand_singlechain (ok : bool) (datlen : Z) (b : evbuffer) :
    option (option nat * evbuffer) :=
  let chainp :=
    match bf_chains b !! bf_lwd b with
    | Some c => if (CHAIN_SPACE_LEN c =? 0)%nat then S (bf_lwd b) else bf_lwd b
    | None => bf_lwd b
    end in
  match bf_chains b !! chainp with
  | None => expand_insert_new ok datlen b
  | Some c =>
    if c_flags c &? Z.lor EVBUFFER_IMMUTABLE EVBUFFER_MEM_PINNED_ANY then
      expand_insert_new ok datlen b
    else if datlen <=? Z.of_nat (CHAIN_SPACE_LEN c) then expand_done chainp datlen b
    else if (c_off c =? 0)%nat then expand_insert_new ok datlen b
    else if evbuffer_chain_should_realign c datlen then
      c' ← evbuffer_chain_align c;
      expand_done chainp datlen (set_chain chainp c' b)
    else if (CHAIN_SPACE_LEN c <? buffer_len c / 8)%nat || (MAX_TO_COPY_IN_EXPAND <? c_off c)%nat ||
            (EVBUFFER_CHAIN_MAX - Z.of_nat (c_off c) <=? datlen) then
      match bf_chains b !! S chainp with
      | Some next =>
        if datlen <=? Z.of_nat (CHAIN_SPACE_LEN next) then expand_done (S chainp) datlen b
        else expand_insert_new ok datlen b
      | None => expand_insert_new ok datlen b
      end
    else
      match evbuffer_chain_new ok (Z.of_nat (c_off c) + datlen) with
      | None => Some (None, b)
      | Some tmp =>
        d ← mread (c_misalign c) (c_off c) (c_buffer c);
        buf ← memcpy_at 0 d (c_buffer tmp);
        expand_done chainp datlen (set_chain chainp (set_c_off (c_off c) (set_c_buffer buf tmp)) b)
      end
  end.

Definition evbuffer_expand (ok : bool) (datlen : Z) (b : evbuffer) : option (Z * evbuffer) :=
  '(r, b) ← evbuffer_expand_singlechain ok datlen b;
  Some (match r with Some _ => 0 | None => -1 end, b).

(** How the walk over the chains with space ended. *)
Inductive scan_end := ScanEnough | ScanFull | ScanOffEnd.

(** The walk of [evbuffer_expand_fast_]: empty chains are realigned on the way. *)
Fixpoint expand_scan (l : list evbuffer_chain) (is_lwd : bool) (datlen : Z) (n used : nat)
    (avail : Z) : option (list evbuffer_chain * scan_end * nat * Z) :=
  match l with
  | [] => Some ([], ScanOffEnd, used, avail)
  | c :: l' =>
    '(c, used, avail) ←
      (if (c_off c =? 0)%nat then
         Some (set_c_misalign 0 c, S used, avail + Z.of_nat (buffer_len c))
       else
         ASSERT is_lwd ;;
         let space := CHAIN_SPACE_LEN c in
         Some (if (space =? 0)%nat then (c, used, avail)
               else (c, S used, avail + Z.of_nat space)));
    if datlen <=? avail then Some (c :: l', ScanEnough, used, avail)
    else if (used =? n)%nat then Some (c :: l', ScanFull, used, avail)
    else
      '(l', e, used, avail) ← expand_scan l' false datlen n used avail;
      Some (c :: l', e, used, avail)
  end.

Definition evbuffer_expand_fast_ (ok : bool) (datlen : Z) (n : nat) (b : evbuffer) :
    option (Z * evbuffer) :=
  ASSERT (2 <=? n)%nat ;;
  if match bf_last b with None => true | Some c => c_flags c &? EVBUFFER_IMMUTABLE end then
    match evbuffer_chain_new ok datlen with
    | None => Some (-1, b)
    | Some c => b ← evbuffer_chain_insert c b; Some (0, b)
    end
  else
    let lwd := bf_lwd b in
    let before := take lwd (bf_chains b) in
    '(l, e, used, avail) ← expand_scan (drop lwd (bf_chains b)) true datlen n 0 0;
    let b := set_bf_chains (before ++ l) b in
    match e with
    | ScanEnough => Some (0, b)
    | _ =>
      if (used <? n)%nat then
        ASSERT (match e with ScanOffEnd => true | _ => false end) ;;
        match evbuffer_chain_new ok (datlen - avail) with
        | None => Some (-1, b)
        | Some tmp => Some (0, set_bf_chains (bf_chains b ++ [tmp]) b)
        end
      else
        c ← bf_chains b !! lwd;
        let rmv_all := (c_off c =? 0)%nat in
        ASSERT (negb rmv_all || (lwd =? 0)%nat) ;;
        let avail := if rmv_all then 0 else Z.of_nat (CHAIN_SPACE_LEN c) in
        let victims := drop (if rmv_all then lwd else S lwd) (bf_chains b) in
        ASSERT (evbuffer_chains_all_empty victims) ;;
        ASSERT (avail <=? datlen) ;;
        match evbuffer_chain_new ok (datlen - avail) with
        | None =>
          Some (-1, if rmv_all then ZERO_CHAIN b
                    else set_bf_chains (take (S lwd) (bf_chains b)) b)
        | Some tmp =>
          Some (0, if rmv_all then set_bf_lwd 0 (set_bf_chains [tmp] b)
                   else set_bf_chains (take (S lwd) (bf_chains b) ++ [tmp]) b)
        end
    end.

(** ** Vectors of free space *)

Record evbuffer_iovec := mk_iovec {
  v_chain : nat;
  v_base : nat;
  v_len : nat
}.

Definition space_vec (i : nat) (c : evbuffer_chain) (len : nat) : evbuffer_iovec :=
  mk_iovec i (CHAIN_SPACE_PTR c) len.

Fixpoint setup_vecs (l : list evbuffer_chain) (i n_avail : nat) (howmuch so_far : Z) (exact : bool) :
    option (list evbuffer_iovec) :=
  match n_avail with
  | O => Some []
  | S n_avail =>
    if so_far <? howmuch then
      match l with
      | [] => None
      | c :: l =>
        let avail := CHAIN_SPACE_LEN c in
        let avail := if (howmuch - so_far <? Z.of_nat avail) && exact
                     then Z.to_nat (howmuch - so_far) else avail in
        vs ← setup_vecs l (S i) n_avail howmuch (so_far + Z.of_nat avail) exact;
        Some (space_vec i c avail :: vs)
      end
    else Some []
  end.

(** The vectors and the number of the first chain, or [None] when [howmuch] is negative. *)
Definition evbuffer_read_setup_vecs_ (howmuch : Z) (n_avail : nat) (exact : bool) (b : evbuffer) :
    option (option (list evbuffer_iovec * nat)) :=
  if howmuch <? 0 then Some None
  else
    c ← bf_chains b !! bf_lwd b;
    let first := if (CHAIN_SPACE_LEN c =? 0)%nat then S (bf_lwd b) else bf_lwd b in
    vs ← setup_vecs (drop first (bf_chains b)) first n_avail howmuch 0 exact;
    Some (Some (vs, first)).

(** The vectors filled in, when there are any. *)
Definition evbuffer_reserve_space (ok : bool) (size : Z) (n_vecs : Z) (b : evbuffer) :
    option (Z * list evbuffer_iovec * evbuffer) :=
  if bf_freeze_end b then Some (-1, [], b)
  else if n_vecs <? 1 then Some (-1, [], b)
  else if n_vecs =? 1 then
    '(r, b) ← evbuffer_expand_singlechain ok (u64 size) b;
    match r with
    | None => Some (-1, [], b)
    | Some p =>
      c ← bf_chains b !! p;
      ASSERT ((size <? 0) || (size <=? Z.of_nat (CHAIN_SPACE_LEN c))) ;;
      Some (1, [space_vec p c (CHAIN_SPACE_LEN c)], b)
    end
  else
    '(r, b) ← evbuffer_expand_fast_ ok (u64 size) (Z.to_nat n_vecs) b;
    if r <? 0 then Some (-1, [], b)
    else
      r ← evbuffer_read_setup_vecs_ size (Z.to_nat n_vecs) false b;
      match r with
      | None => Some (-1, [], b)
      | Some (vs, _) => Some (Z.of_nat (length vs), vs, b)
      end.

(** The user of a vector writes [d] to the memory it designates. *)
Definition iovec_fill (v : evbuffer_iovec) (d : bytes) (b : evbuffer) : option evbuffer :=
  c ← bf_chains b !! v_chain v;
  buf ← memcpy_at (v_base v) d (c_buffer c);
  Some (set_chain (v_chain v) (set_c_buffer buf c) b).

(** Pass 1 of [evbuffer_commit_space]: the vectors are those of the chains from number [i] on. *)
Fixpoint vecs_match (vs : list evbuffer_iovec) (l : list evbuffer_chain) (i : nat) : bool :=
  match vs, l with
  | [], _ => true
  | _, [] => false
  | v :: vs, c :: l =>
    (v_chain v =? i)%nat && (v_base v =? CHAIN_SPACE_PTR c)%nat &&
    (v_len v <=? CHAIN_SPACE_LEN c)%nat && vecs_match vs l (S i)
  end.

(** Pass 2: the chains, the index of the last one that got bytes, and their number. *)
Fixpoint commit_vecs (vs : list evbuffer_iovec) (l : list evbuffer_chain) (i lwd : nat) :
    list evbuffer_chain * nat * nat :=
  match vs, l with
  | v :: vs, c :: l =>
    let lwd := if (v_len v =? 0)%nat then lwd else i in
    let '(l, lwd, added) := commit_vecs vs l (S i) lwd in
    (set_c_off (c_off c + v_len v)%nat c :: l, lwd, (v_len v + added)%nat)
  | _, _ => (l, lwd, 0%nat)
  end.

Definition commit_finish (added : nat) (b : evbuffer) : Z * evbuffer :=
  (0, evbuffer_invoke_callbacks_ (add_n_add (Z.of_nat added) (add_total (Z.of_nat added) b))).

(** The vectors from the first chain with space in it. *)
Definition commit_general (vs : list evbuffer_iovec) (b : evbuffer) : Z * evbuffer :=
  match bf_chains b !! bf_lwd b with
  | None => (-1, b)
  | Some c =>
    let first := if (CHAIN_SPACE_LEN c =? 0)%nat then S (bf_lwd b) else bf_lwd b in
    if vecs_match vs (drop first (bf_chains b)) first then
      let '(l, lwd, added) := commit_vecs vs (drop first (bf_chains b)) first (bf_lwd b) in
      commit_finish added (set_bf_lwd lwd (set_bf_chains (take first (bf_chains b) ++ l) b))
    else (-1, b)
  end.

Definition evbuffer_commit_space (vs : list evbuffer_iovec) (b : evbuffer) : Z * evbuffer :=
  if bf_freeze_end b then (-1, b)
  else
    match vs, bf_last b with
    | [], _ => (0, b)
    | [v], Some c =>
      let p := (length (bf_chains b) - 1)%nat in
      if (v_chain v =? p)%nat && (v_base v =? CHAIN_SPACE_PTR c)%nat then
        if (CHAIN_SPACE_LEN c <? v_len v)%nat then (-1, b)
        else
          let b := set_chain p (set_c_off (c_off c + v_len v)%nat c) b in
          commit_finish (v_len v)
            (if (v_len v =? 0)%nat then b else advance_last_with_data b)
      else commit_general vs b
    | _, _ => commit_general vs b
    end.

(** [n] pieces of data are appended; the number of bytes that were added. *)
Fixpoint add_iovec_loop (m : mallocs) (vec : list bytes) (res : Z) (b : evbuffer) :
    option (Z * evbuffer) :=
  match vec with
  | [] => Some (res, b)
  | d :: vec =>
    '(r, b) ← evbuffer_add m d b;
    if r <? 0 then Some (res, b)
    else add_iovec_loop (later_mallocs 2 m) vec (u64 (res + Z.of_nat (length d))) b
  end.

Definition evbuffer_add_iovec (m : mallocs) (vec : list bytes) (b : evbuffer) :
    option (Z * evbuffer) :=
  let to_alloc := foldl (λ a d, u64 (a + Z.of_nat (length d))) 0 vec in
  '(r, b) ← evbuffer_expand_fast_ (m 0%nat) to_alloc 2 b;
  if r <? 0 then Some (0, b) else add_iovec_loop (later_mallocs 1 m) vec 0 b.

Definition evbuffer_add_reference (ok : bool) (data : bytes) (b : evbuffer) :
    option (Z * evbuffer) :=
  if negb ok then Some (-1, b)
  else if bf_freeze_end b then Some (-1, b)
  else
    let c := mk_chain data 0 (length data) (Z.lor EVBUFFER_REFERENCE EVBUFFER_IMMUTABLE) in
    b ← evbuffer_chain_insert c b;
    Some (0, evbuffer_invoke_callbacks_ (add_n_add (Z.of_nat (length data)) b)).

(** ** Reading from and writing to a descriptor *)

Abbreviation EVBUFFER_MAX_READ := 4096.
Abbreviation NUM_READ_IOVEC := 4%nat.
Abbreviation NUM_WRITE_IOVEC := 128%nat.

(** [readv] stores the bytes it got in the vectors, in order. *)
Fixpoint readv_store (vs : list evbuffer_iovec) (d : bytes) (b : evbuffer) : option evbuffer :=
  match vs with
  | [] => if decide (d = []) then Some b else None
  | v :: vs =>
    b ← iovec_fill v (take (v_len v) d) b;
    readv_store vs (drop (v_len v) d) b
  end.

(** Accounting for [remaining] bytes in the chains from number [i] on. *)
Fixpoint read_commit (l : list evbuffer_chain) (nvecs i remaining lwd : nat) :
    option (list evbuffer_chain * nat) :=
  match nvecs with
  | O => Some (l, lwd)
  | S nvecs =>
    match l with
    | [] => None
    | c :: l =>
      let space := CHAIN_SPACE_LEN c in
      if (space <? remaining)%nat then
        '(l, lwd) ← read_commit l nvecs (S i) (remaining - space) lwd;
        Some (set_c_off (c_off c + space)%nat c :: l, lwd)
      else Some (set_c_off (c_off c + remaining)%nat c :: l, i)
    end
  end.

(** [howmuch] as limited by what the socket says is readable. *)
Definition howmuch_to_read (fionread howmuch : Z) : Z :=
  let n := if (fionread <=? 0) || (EVBUFFER_MAX_READ <? fionread) then EVBUFFER_MAX_READ
           else fionread in
  if (howmuch <? 0) || (n <? howmuch) then n else howmuch.

(** [fionread] is what [ioctl (FIONREAD)] says, [rd] what [readv] returns: the
    bytes it stored, or an error. *)
Definition evbuffer_read (ok : bool) (fionread : Z) (rd : option bytes) (howmuch : Z) (b : evbuffer) :
    option (Z * evbuffer) :=
  if bf_freeze_end b then Some (-1, b)
  else
    let howmuch := howmuch_to_read fionread howmuch in
    '(r, b) ← evbuffer_expand_fast_ ok howmuch NUM_READ_IOVEC b;
    if r =? -1 then Some (-1, b)
    else
      r ← evbuffer_read_setup_vecs_ howmuch NUM_READ_IOVEC true b;
      match r with
      | None => None
      | Some (vs, first) =>
        match rd with
        | None => Some (-1, b)
        | Some [] => Some (0, b)
        | Some d =>
          b ← readv_store vs d b;
          '(l, lwd) ← read_commit (drop first (bf_chains b)) (length vs) first (length d) (bf_lwd b);
          let n := Z.of_nat (length d) in
          let b := set_bf_lwd lwd (set_bf_chains (take first (bf_chains b) ++ l) b) in
          Some (n, evbuffer_invoke_callbacks_ (add_n_add n (add_total n b)))
        end
      end.

(** The pieces of data handed to [writev]. *)
Fixpoint write_vecs (l : list evbuffer_chain) (i : nat) (howmuch : Z) : list bytes :=
  match i, l with
  | S i, c :: l =>
    if howmuch =? 0 then []
    else if Z.of_nat (c_off c) <=? howmuch then
      data_of c :: write_vecs l i (howmuch - Z.of_nat (c_off c))
    else [take (Z.to_nat howmuch) (data_of c)]
  | _, _ => []
  end.

(** [wr] is what [writev] returns for the bytes it is given. *)
Definition evbuffer_write_iovec (wr : bytes → Z) (howmuch : Z) (b : evbuffer) : Z :=
  if howmuch <? 0 then -1
  else
    match write_vecs (bf_chains b) NUM_WRITE_IOVEC howmuch with
    | [] => 0
    | vs => wr (concat vs)
    end.

Definition evbuffer_write_atmost (wr : bytes → Z) (howmuch : Z) (b : evbuffer) :
    option (Z * evbuffer) :=
  if bf_freeze_start b then Some (-1, b)
  else
    let howmuch := if (howmuch <? 0) || (bf_total_len b <? howmuch) then i64 (bf_total_len b)
                   else howmuch in
    let n := if 0 <? howmuch then evbuffer_write_iovec wr howmuch b else -1 in
    if 0 <? n then '(_, b) ← evbuffer_drain n b; Some (n, b) else Some (n, b).

Definition evbuffer_write (wr : bytes → Z) (b : evbuffer) : option (Z * evbuffer) :=
  evbuffer_write_atmost wr (-1) b.

(** ** Moving chains between buffers *)

(** The source without its read-pinned chains, and those chains (their data is
    copied to a chain of its own); [None] when that copy cannot be allocated. *)
Definition PRESERVE_PINNED (ok : bool) (src : evbuffer) :
    option (option (evbuffer * list evbuffer_chain)) :=
  if negb (HAS_PINNED_R src) then Some (Some (src, []))
  else
    c ← bf_chains src !! bf_lwd src;
    let pinned := if CHAIN_PINNED_R c then bf_lwd src else S (bf_lwd src) in
    chain ← bf_chains src !! pinned;
    ASSERT (CHAIN_PINNED_R chain) ;;
    if (c_off chain =? 0)%nat then
      Some (Some (set_bf_chains (take pinned (bf_chains src)) src, drop pinned (bf_chains src)))
    else
      ASSERT (pinned =? bf_lwd src)%nat ;;
      match evbuffer_chain_new ok (Z.of_nat (c_off chain)) with
      | None => Some None
      | Some tmp =>
        d ← mread (c_misalign chain) (c_off chain) (c_buffer chain);
        buf ← memcpy_at 0 d (c_buffer tmp);
        let tmp := set_c_off (c_off chain) (set_c_buffer buf tmp) in
        let chain := set_c_misalign (c_misalign chain + c_off chain) (set_c_off 0 chain) in
        Some (Some (set_bf_chains (take pinned (bf_chains src) ++ [tmp]) src,
                    chain :: drop (S pinned) (bf_chains src)))
      end.

Definition RESTORE_PINNED (pinned : list evbuffer_chain) (src : evbuffer) : evbuffer :=
  set_bf_total_len 0 (set_bf_lwd 0 (set_bf_chains pinned src)).

Definition COPY_CHAIN (src dst : evbuffer) : evbuffer :=
  set_bf_total_len (bf_total_len src) (set_bf_lwd (bf_lwd src) (set_bf_chains (bf_chains src) dst)).

Definition APPEND_CHAIN (src dst : evbuffer) : option evbuffer :=
  kept ← evbuffer_free_trailing_empty_chains dst;
  Some (add_total (bf_total_len src)
    (set_bf_lwd (length kept + bf_lwd src)%nat (set_bf_chains (kept ++ bf_chains src) dst))).

Definition PREPEND_CHAIN (src dst : evbuffer) : evbuffer :=
  let lwd := match bf_chains dst !! bf_lwd dst with
             | None => bf_lwd src
             | Some _ => (length (bf_chains src) + bf_lwd dst)%nat
             end in
  add_total (bf_total_len src)
    (set_bf_lwd lwd (set_bf_chains (bf_chains src ++ bf_chains dst) dst)).

(** The body that [evbuffer_add_buffer] and [evbuffer_prepend_buffer] share, for
    two distinct buffers: the new [outbuf] and [inbuf]. *)
Definition move_buffer (ok frozen : bool) (link : evbuffer → evbuffer → option evbuffer)
    (outbuf inbuf : evbuffer) : option (Z * evbuffer * evbuffer) :=
  let in_total_len := bf_total_len inbuf in
  if in_total_len =? 0 then Some (0, outbuf, inbuf)
  else if frozen then Some (-1, outbuf, inbuf)
  else
    r ← PRESERVE_PINNED ok inbuf;
    match r with
    | None => Some (-1, outbuf, inbuf)
    | Some (src, pinned) =>
      out ← (if bf_total_len outbuf =? 0 then Some (COPY_CHAIN src outbuf) else link src outbuf);
      let inb := add_n_del in_total_len (RESTORE_PINNED pinned src) in
      let out := add_n_add in_total_len out in
      Some (0, evbuffer_invoke_callbacks_ out, evbuffer_invoke_callbacks_ inb)
    end.

Definition evbuffer_add_buffer (ok : bool) (outbuf inbuf : evbuffer) :
    option (Z * evbuffer * evbuffer) :=
  move_buffer ok (bf_freeze_end outbuf || bf_freeze_start inbuf) APPEND_CHAIN outbuf inbuf.

Definition evbuffer_prepend_buffer (ok : bool) (outbuf inbuf : evbuffer) :
    option (Z * evbuffer * evbuffer) :=
  move_buffer ok (bf_freeze_start outbuf || bf_freeze_start inbuf)
    (λ src dst, Some (PREPEND_CHAIN src dst)) outbuf inbuf.

(** The chains that [evbuffer_remove_buffer] takes whole: those chains, their
    bytes, the rest of the source, what remains to move, and [last_with_datap] in
    the numbering of the original list, where 0 is [&src->first]; [i] is the
    number of the first chain of [l]. *)
Fixpoint remove_chains (l : list evbuffer_chain) (datlen : nat) (lwd i : nat) :
    option (list evbuffer_chain * nat * list evbuffer_chain * nat * nat) :=
  match l with
  | [] => None
  | c :: l' =>
    if (c_off c <=? datlen)%nat then
      ASSERT (negb (i =? lwd)%nat) ;;
      let lwd := if (lwd =? S i)%nat then 0%nat else lwd in
      '(taken, nread, rest, datlen, lwd) ← remove_chains l' (datlen - c_off c) lwd (S i);
      Some (c :: taken, (c_off c + nread)%nat, rest, datlen, lwd)
    else Some ([], 0%nat, l, datlen, lwd)
  end.

(** [src] and [dst] are distinct; the result, [dst] and [src]. *)
Definition evbuffer_remove_buffer (m : mallocs) (src dst : evbuffer) (datlen : Z) :
    option (Z * evbuffer * evbuffer) :=
  if datlen =? 0 then Some (0, dst, src)
  else if bf_freeze_end dst || bf_freeze_start src then Some (-1, dst, src)
  else if bf_total_len src <=? datlen then
    '(_, dst', src') ← evbuffer_add_buffer (m 0%nat) dst src;
    Some (i32 (bf_total_len src), dst', src')
  else
    '(taken, nread, rest, datlen, lwd) ← remove_chains (bf_chains src) (Z.to_nat datlen) (bf_lwd src) 0;
    dst ← (if (nread =? 0)%nat then Some dst
           else
             kept ← evbuffer_free_trailing_empty_chains dst;
             let dst := advance_last_with_data (set_bf_chains (kept ++ taken) dst) in
             Some (add_n_add (Z.of_nat nread) (add_total (Z.of_nat nread) dst)));
    match rest with
    | [] => None
    | c :: rest' =>
      (* [src->first] changes only when some bytes were in the chains taken *)
      let front := if (nread =? 0)%nat then taken else [] in
      let lwd := if (nread =? 0)%nat then lwd else (lwd - length taken)%nat in
      d ← mread (c_misalign c) datlen (c_buffer c);
      '(_, dst) ← evbuffer_add (later_mallocs 1 m) d dst;
      let nread := Z.of_nat (nread + datlen) in
      let src := set_bf_lwd lwd (set_bf_chains (front ++ chain_advance datlen c :: rest') src) in
      let src := set_bf_n_del (u64 (bf_n_del src + nread))
                   (set_bf_total_len (u64 (bf_total_len src - nread)) src) in
      if nread =? 0 then Some (i32 nread, dst, src)
      else Some (i32 nread, evbuffer_invoke_callbacks_ dst, evbuffer_invoke_callbacks_ src)
    end.

(** ** Making data contiguous *)

(** Whether a chain that must be copied from is pinned. *)
Fixpoint pullup_pinned (l : list evbuffer_chain) (remaining : nat) : bool :=
  match l with
  | [] => false
  | c :: l =>
    if CHAIN_PINNED c then true
    else if (remaining <=? c_off c)%nat then false
    else pullup_pinned l (remaining - c_off c)
  end.

(** The chains that are pulled whole into the block: their data, how many they
    are, the rest of the list and what remains to copy. *)
Fixpoint pullup_loop (l : list evbuffer_chain) (size : nat) :
    option (bytes * nat * list evbuffer_chain * nat) :=
  match l with
  | [] => Some ([], 0%nat, [], size)
  | c :: l' =>
    if (c_off c <=? size)%nat then
      d ← mread (c_misalign c) (c_off c) (c_buffer c);
      '(ds, k, rest, size) ← pullup_loop l' (size - c_off c);
      Some (d ++ ds, S k, rest, size)
    else Some ([], 0%nat, l, size)
  end.

(** Copying to the block [tmp] at offset [at_], from the chains [l] of which the
    first has number [i]; [size] bytes are missing. *)
Definition pullup_into (tmp : evbuffer_chain) (at_ size : nat) (l : list evbuffer_chain) (i : nat)
    (b : evbuffer) : option evbuffer :=
  '(ds, k, rest, missing) ← pullup_loop l size;
  '(d, rest) ←
    match rest with
    | [] => Some ([], [])
    | c :: rest =>
      d ← mread (c_misalign c) missing (c_buffer c);
      Some (d, chain_advance missing c :: rest)
    end;
  buf ← memcpy_at at_ (ds ++ d) (c_buffer tmp);
  let chains := set_c_buffer buf tmp :: rest in
  let lwd := bf_lwd b in
  let removed_last_with_data := (i <=? lwd)%nat && (lwd <? i + k)%nat in
  let removed_last_with_datap := (i <? lwd)%nat && (lwd <=? i + k)%nat in
  let lwd :=
    if removed_last_with_data then 0%nat
    else if removed_last_with_datap then
      match rest with c :: _ => if (c_off c =? 0)%nat then 0%nat else 1%nat | [] => 0%nat end
    else if (lwd =? 0)%nat then 0%nat else (S lwd - (i + k))%nat in
  Some (set_bf_lwd lwd (set_bf_chains chains b)).

(** The contiguous bytes at the front of the first chain, [None] for NULL, and the buffer. *)
Definition evbuffer_pullup (ok : bool) (size : Z) (b : evbuffer) :
    option (option bytes * evbuffer) :=
  let size := if size <? 0 then i64 (bf_total_len b) else size in
  if (size =? 0) || (bf_total_len b <? u64 size) then Some (None, b)
  else
    let size := Z.to_nat size in
    match bf_chains b with
    | [] => None
    | c :: l =>
      if (size <=? c_off c)%nat then Some (Some (take size (data_of c)), b)
      else if pullup_pinned l (size - c_off c) then Some (None, b)
      else
        b' ←
          (if CHAIN_PINNED c then
             if (CHAIN_SPACE_LEN c <? size - c_off c)%nat then Some None
             else
               b ← pullup_into (set_c_off size c) (CHAIN_SPACE_PTR c) (size - c_off c) l 1 b;
               Some (Some b)
           else if (size <=? buffer_len c - c_misalign c)%nat then
             b ← pullup_into (set_c_off size c) (c_misalign c + c_off c) (size - c_off c) l 1 b;
             Some (Some b)
           else
             match evbuffer_chain_new ok (Z.of_nat size) with
             | None => Some None
             | Some tmp =>
               b ← pullup_into (set_c_off size tmp) 0 size (bf_chains b) 0 b;
               Some (Some b)
             end);
        match b' with
        | None => Some (None, b)
        | Some b => c ← bf_chains b !! 0%nat; Some (Some (take size (data_of c)), b)
        end
    end.
