(* ===== verification/BufferSearch.v ===== *)
(** * Byte buffers: positions, searching and lines (buffer.c)

    A position in a buffer is a number of bytes together with the chain and the
    place in the chain where that byte is.  The loops that walk over bytes and
    chains are structural on the list of chains, except the search, which has
    fuel: one unit per byte and per chain of the buffer is enough, as
    [evbuffer_search_correct] shows. *)

From S2P Require Import Prelude BufferCore BufferMove.

Definition PTR_NOT_FOUND : evbuffer_ptr := mk_ptr (-1) None 0.

(** [chain->next], as a number. *)
Definition next_chain (b : evbuffer) (i : nat) : option nat :=
  if (S i <? length (bf_chains b))%nat then Some (S i) else None.

Definition first_chain (b : evbuffer) : option nat :=
  match bf_chains b with [] => None | _ => Some 0%nat end.

(** ** Moving a position *)

(** The walk to the chain that holds byte [position + left] counted from the
    start of the chain number [i], the first of [l]; and what is left. *)
Fixpoint ptr_walk (l : list evbuffer_chain) (i : nat) (position left_ : Z) :
    option nat * Z * Z :=
  match l with
  | [] => (None, position, left_)
  | c :: l =>
    if Z.of_nat (c_off c) <=? u64 (position + left_)
    then ptr_walk l (S i) 0 (u64 (left_ - (Z.of_nat (c_off c) - position)))
    else (Some i, position, left_)
  end.

Definition ptr_place (l : list evbuffer_chain) (i : nat) (pos position left_ : Z) :
    Z * evbuffer_ptr :=
  let '(ch, position, left_) := ptr_walk l i position left_ in
  match ch with
  | Some i => (0, mk_ptr pos (Some i) (Z.to_nat (position + left_)))
  | None => if left_ =? 0 then (0, mk_ptr pos None 0) else (-1, PTR_NOT_FOUND)
  end.

Inductive evbuffer_ptr_how := EVBUFFER_PTR_SET | EVBUFFER_PTR_ADD.

Definition evbuffer_ptr_set (pos : evbuffer_ptr) (position : Z) (how : evbuffer_ptr_how)
    (b : evbuffer) : option (Z * evbuffer_ptr) :=
  match how with
  | EVBUFFER_PTR_SET => Some (ptr_place (bf_chains b) 0 (i64 position) 0 position)
  | EVBUFFER_PTR_ADD =>
    if (p_pos pos <? 0) || (EV_SIZE_MAX - position <? p_pos pos) then Some (-1, pos)
    else
      let in_chain := Z.of_nat (p_pos_in_chain pos) in
      ASSERT (in_chain <=? EV_SIZE_MAX - position) ;;
      let start := match p_chain pos with Some i => i | None => length (bf_chains b) end in
      Some (ptr_place (drop start (bf_chains b)) start (i64 (p_pos pos + position)) in_chain position)
  end.

Definition evbuffer_ptr_subtract (pos : evbuffer_ptr) (howfar : Z) (b : evbuffer) :
    option (Z * evbuffer_ptr) :=
  if p_pos pos <? 0 then Some (-1, pos)
  else if p_pos pos <? howfar then Some (-1, pos)
  else
    match p_chain pos with
    | Some i =>
      if howfar <=? Z.of_nat (p_pos_in_chain pos) then
        Some (0, mk_ptr (p_pos pos - howfar) (Some i) (p_pos_in_chain pos - Z.to_nat howfar))
      else evbuffer_ptr_set pos (p_pos pos - howfar) EVBUFFER_PTR_SET b
    | None => evbuffer_ptr_set pos (p_pos pos - howfar) EVBUFFER_PTR_SET b
    end.

(** ** Comparing and searching *)

(** C's [memcmp] on bytes, and [memchr]. *)
Fixpoint memcmp (a b : bytes) : Z :=
  match a, b with
  | x :: a, y :: b => if x =? y then memcmp a b else if x <? y then -1 else 1
  | _, _ => 0
  end.

Fixpoint memchr (d : bytes) (c : Z) : option nat :=
  match d with
  | [] => None
  | x :: d => if x =? c then Some 0%nat else S <$> memchr d c
  end.

Fixpoint memcmp_loop (l : list evbuffer_chain) (position : nat) (mem : bytes) : option Z :=
  match l with
  | [] => Some 0
  | c :: l =>
    if (length mem =? 0)%nat then Some 0
    else
      let n_comparable := if (c_off c <? length mem + position)%nat
                          then (c_off c - position)%nat else length mem in
      d ← mread (c_misalign c + position) n_comparable (c_buffer c);
      let r := memcmp d (take n_comparable mem) in
      if r =? 0 then memcmp_loop l 0 (drop n_comparable mem) else Some r
  end.

Definition evbuffer_ptr_memcmp (pos : evbuffer_ptr) (mem : bytes) (b : evbuffer) : option Z :=
  let len := Z.of_nat (length mem) in
  if (p_pos pos <? 0) || (EV_SIZE_MAX - len <? p_pos pos) || (bf_total_len b <? p_pos pos + len)
  then Some (-1)
  else
    memcmp_loop (match p_chain pos with Some i => drop i (bf_chains b) | None => [] end)
      (p_pos_in_chain pos) mem.

Fixpoint search_loop (fuel : nat) (b : evbuffer) (what : bytes) (first : Z)
    (end_ : option evbuffer_ptr) (pos : evbuffer_ptr) : option evbuffer_ptr :=
  match fuel with
  | O => None
  | S fuel =>
    match p_chain pos with
    | None => Some PTR_NOT_FOUND
    | Some i =>
      c ← bf_chains b !! i;
      let in_chain := p_pos_in_chain pos in
      d ← mread (c_misalign c + in_chain) (c_off c - in_chain) (c_buffer c);
      match memchr d first with
      | Some k =>
        let pos := mk_ptr (p_pos pos + Z.of_nat k) (Some i) (in_chain + k) in
        r ← evbuffer_ptr_memcmp pos what b;
        if r =? 0 then
          if match end_ with Some e => p_pos e <? p_pos pos + Z.of_nat (length what) | None => false end
          then Some PTR_NOT_FOUND else Some pos
        else
          search_loop fuel b what first end_
            (if (S (p_pos_in_chain pos) =? c_off c)%nat
             then mk_ptr (p_pos pos + 1) (next_chain b i) 0
             else mk_ptr (p_pos pos + 1) (Some i) (S (p_pos_in_chain pos)))
      | None =>
        if bool_decide (p_chain <$> end_ = Some (Some i)) then Some PTR_NOT_FOUND
        else
          search_loop fuel b what first end_
            (mk_ptr (p_pos pos + Z.of_nat (c_off c - in_chain)) (next_chain b i) 0)
      end
    end
  end.

Definition search_fuel (b : evbuffer) : nat :=
  S (length (concat (data_of <$> bf_chains b)) + length (bf_chains b)).

Definition evbuffer_search_range (what : bytes) (start end_ : option evbuffer_ptr) (b : evbuffer) :
    option evbuffer_ptr :=
  let pos := match start with Some p => p | None => mk_ptr 0 (first_chain b) 0 end in
  match what with
  | [] => Some pos
  | first :: _ =>
    if EV_SSIZE_MAX <? Z.of_nat (length what) then Some pos
    else search_loop (search_fuel b) b what first end_ pos
  end.

Definition evbuffer_search (what : bytes) (start : option evbuffer_ptr) (b : evbuffer) :
    option evbuffer_ptr :=
  evbuffer_search_range what start None b.

(** The bytes from the match on, as many as were searched for, made contiguous. *)
Definition evbuffer_find (ok : bool) (what : bytes) (b : evbuffer) :
    option (option bytes * evbuffer) :=
  ptr ← evbuffer_search what None b;
  if p_pos ptr <? 0 then Some (None, b)
  else
    '(r, b) ← evbuffer_pullup ok (p_pos ptr + Z.of_nat (length what)) b;
    Some (match r with Some d => Some (drop (Z.to_nat (p_pos ptr)) d) | None => None end, b).

(** ** Characters and lines *)

(** Walking to the first byte for which [f] finds something: [f] is [memchr] or
    [find_eol_char] on the rest of a chain. *)
Fixpoint scan_chains (f : bytes → option nat) (l : list evbuffer_chain) (i in_chain : nat) (pos : Z) :
    option (option evbuffer_ptr) :=
  match l with
  | [] => Some None
  | c :: l =>
    d ← mread (c_misalign c + in_chain) (c_off c - in_chain) (c_buffer c);
    match f d with
    | Some k => Some (Some (mk_ptr (pos + Z.of_nat k) (Some i) (in_chain + k)))
    | None => scan_chains f l (S i) 0 (pos + Z.of_nat (c_off c - in_chain))
    end
  end.

Definition scan_from (f : bytes → option nat) (it : evbuffer_ptr) (b : evbuffer) :
    option (option evbuffer_ptr) :=
  match p_chain it with
  | None => Some None
  | Some i => scan_chains f (drop i (bf_chains b)) i (p_pos_in_chain it) (p_pos it)
  end.

Definition evbuffer_strchr (it : evbuffer_ptr) (chr : Z) (b : evbuffer) :
    option (option evbuffer_ptr) :=
  scan_from (λ d, memchr d chr) it b.

Abbreviation CHUNK_SZ := 128%nat.

(** [find_eol_char], in chunks; one unit of fuel per byte is enough. *)
Fixpoint find_eol_chunks (fuel : nat) (s : bytes) : option nat :=
  match fuel with
  | O => None
  | S fuel =>
    match s with
    | [] => None
    | _ =>
      let chunk := take CHUNK_SZ s in
      let cr := memchr chunk 13 in
      let lf := memchr chunk 10 in
      match cr, lf with
      | Some cr, Some lf => Some (if (lf <? cr)%nat then lf else cr)
      | Some cr, None => Some cr
      | None, Some lf => Some lf
      | None, None => (λ k, CHUNK_SZ + k)%nat <$> find_eol_chunks fuel (drop CHUNK_SZ s)
      end
    end
  end.

Definition find_eol_char (s : bytes) : option nat := find_eol_chunks (length s) s.

Definition evbuffer_find_eol_char (it : evbuffer_ptr) (b : evbuffer) :
    option (option evbuffer_ptr) :=
  scan_from find_eol_char it b.

(** Number of leading bytes that are in [chrset]. *)
Fixpoint span (chrset s : bytes) : nat :=
  match s with
  | x :: s => if bool_decide (x ∈ chrset) then S (span chrset s) else 0
  | [] => 0
  end.

Fixpoint strspn_loop (chrset : bytes) (l : list evbuffer_chain) (in_chain : nat) : option nat :=
  match l with
  | [] => Some 0%nat
  | c :: l =>
    d ← mread (c_misalign c + in_chain) (c_off c - in_chain) (c_buffer c);
    let n := span chrset d in
    if (n <? length d)%nat then Some n
    else k ← strspn_loop chrset l 0; Some (n + k)%nat
  end.

(** The number of bytes skipped, an [int] ([None] when it overflows); the position it
    leaves is not used by its callers. *)
Definition evbuffer_strspn (ptr : evbuffer_ptr) (chrset : bytes) (b : evbuffer) : option nat :=
  match p_chain ptr with
  | None => Some 0%nat
  | Some i =>
    count ← strspn_loop chrset (drop i (bf_chains b)) (p_pos_in_chain ptr);
    if INT_MAX <? Z.of_nat count then None else Some count
  end.

Definition evbuffer_getchr (it : evbuffer_ptr) (b : evbuffer) : option Z :=
  match p_chain it with
  | None => Some (-1)
  | Some i => c ← bf_chains b !! i; c_buffer c !! (c_misalign c + p_pos_in_chain it)%nat
  end.

Inductive evbuffer_eol_style :=
  | EVBUFFER_EOL_ANY | EVBUFFER_EOL_CRLF | EVBUFFER_EOL_CRLF_STRICT | EVBUFFER_EOL_LF
  | EVBUFFER_EOL_NUL.

Definition one_char (r : option evbuffer_ptr) : option (evbuffer_ptr * nat) :=
  match r with Some it => Some (it, 1%nat) | None => None end.

(** [None] as a value: no end of line.  Otherwise its place and its length. *)
Definition eol_at (it : evbuffer_ptr) (style : evbuffer_eol_style) (b : evbuffer) :
    option (option (evbuffer_ptr * nat)) :=
  match style with
  | EVBUFFER_EOL_ANY =>
    r ← evbuffer_find_eol_char it b;
    match r with
    | None => Some None
    | Some it => n ← evbuffer_strspn it [13; 10] b; Some (Some (it, n))
    end
  | EVBUFFER_EOL_CRLF_STRICT =>
    it ← evbuffer_search [13; 10] (Some it) b;
    Some (if p_pos it <? 0 then None else Some (it, 2%nat))
  | EVBUFFER_EOL_CRLF =>
    let start_pos := p_pos it in
    r ← evbuffer_strchr it 10 b;
    match r with
    | None => Some None
    | Some it =>
      if p_pos it =? start_pos then Some (Some (it, 1%nat))
      else
        '(r, it2) ← evbuffer_ptr_subtract it 1 b;
        if r <? 0 then Some (Some (it, 1%nat))
        else
          ch ← evbuffer_getchr it2 b;
          Some (Some (if ch =? 13 then (it2, 2%nat) else (it, 1%nat)))
    end
  | EVBUFFER_EOL_LF =>
    r ← evbuffer_strchr it 10 b; Some (one_char r)
  | EVBUFFER_EOL_NUL =>
    r ← evbuffer_strchr it 0 b; Some (one_char r)
  end.

(** The position and [*eol_len_out]. *)
Definition evbuffer_search_eol (start : option evbuffer_ptr) (style : evbuffer_eol_style)
    (b : evbuffer) : option (evbuffer_ptr * nat) :=
  if match start with Some p => bool_decide (p_chain p = None) | None => false end
  then Some (PTR_NOT_FOUND, 0%nat)
  else
    let it := match start with Some p => p | None => mk_ptr 0 (first_chain b) 0 end in
    r ← eol_at it style b;
    Some (match r with Some (it, n) => (it, n) | None => (PTR_NOT_FOUND, 0%nat) end).

(** The line, without its end, or NULL ([None]), and the buffer. *)
Definition evbuffer_readln (ok : bool) (style : evbuffer_eol_style) (b : evbuffer) :
    option (option bytes * evbuffer) :=
  if bf_freeze_start b then Some (None, b)
  else
    '(it, extra_drain) ← evbuffer_search_eol None style b;
    if p_pos it <? 0 then Some (None, b)
    else if negb ok then Some (None, b)
    else
      '(_, line, b) ← evbuffer_remove (p_pos it) b;
      '(_, b) ← evbuffer_drain (Z.of_nat extra_drain) b;
      Some (Some line, b).

Definition evbuffer_readline (ok : bool) (b : evbuffer) : option (option bytes * evbuffer) :=
  evbuffer_readln ok EVBUFFER_EOL_ANY b.

(** ** Looking at the data in place *)

Fixpoint peek_loop (l : list evbuffer_chain) (idx n_vec : nat) (len_so_far len : Z) :
    nat * list bytes :=
  match l with
  | [] => (idx, [])
  | c :: l =>
    if (0 <=? len) && (len <=? len_so_far) then (idx, [])
    else if (idx <? n_vec)%nat then
      let '(n, vs) := peek_loop l (S idx) n_vec (len_so_far + Z.of_nat (c_off c)) len in
      (n, data_of c :: vs)
    else if len <? 0 then (idx, [])
    else peek_loop l (S idx) n_vec (len_so_far + Z.of_nat (c_off c)) len
  end.

(** The number of extents and the data of those that were filled in. *)
Definition evbuffer_peek (len : Z) (start_at : option evbuffer_ptr) (n_vec : nat) (b : evbuffer) :
    option (nat * list bytes) :=
  let total rest := if (n_vec =? 0)%nat && (len <? 0) then i64 (bf_total_len b) - rest else len in
  match start_at with
  | None => Some (peek_loop (bf_chains b) 0 n_vec 0 (total 0))
  | Some p =>
    match p_chain p with
    | None => Some (0%nat, [])
    | Some i =>
      c ← bf_chains b !! i;
      d ← mread (c_misalign c + p_pos_in_chain p) (c_off c - p_pos_in_chain p) (c_buffer c);
      let '(n, vs) := peek_loop (drop (S i) (bf_chains b)) 1 n_vec (Z.of_nat (length d)) (total (p_pos p)) in
      Some (n, if (0 <? n_vec)%nat then d :: vs else vs)
    end
  end.
