(* ===== verification/BufferInv.v ===== *)
(** * Byte buffers: the invariant, and adding and removing data

    The abstraction of a buffer is the list of its bytes, [content].  The
    invariant [buf_ok] says that the data of each chain lies in its block, that
    [last_with_datap] designates a chain after which all chains are empty, and
    that [total_len] counts the bytes.  Each operation is described as a new
    list of chains with the counters it leaves ([with_data]), after which the
    callbacks run. *)

From S2P Require Import Prelude BufferCore.

Definition bytes_of (cs : list evbuffer_chain) : bytes := concat (data_of <$> cs).
Definition content (b : evbuffer) : bytes := bytes_of (bf_chains b).

Definition chain_ok (c : evbuffer_chain) : Prop :=
  (c_misalign c + c_off c <= buffer_len c)%nat ∧
  (c_flags c &? EVBUFFER_IMMUTABLE = true ∨ Z.of_nat (buffer_len c) <= EVBUFFER_CHAIN_MAX).

Definition empty_chain (c : evbuffer_chain) : Prop := c_off c = 0%nat.

(** The chains and the index of [last_with_datap]. *)
Record list_ok (cs : list evbuffer_chain) (lwd : nat) : Prop := {
  lo_chains : Forall chain_ok cs;
  lo_lwd : (lwd < length cs)%nat ∨ (cs = [] ∧ lwd = 0%nat);
  lo_after : Forall empty_chain (drop (S lwd) cs)
}.

Record buf_ok (b : evbuffer) : Prop := {
  bo_list : list_ok (bf_chains b) (bf_lwd b);
  bo_total : bf_total_len b = Z.of_nat (length (content b));
  bo_max : bf_total_len b <= EV_SIZE_MAX;
  bo_add : 0 <= bf_n_add b <= EV_SIZE_MAX;
  bo_del : 0 <= bf_n_del b <= EV_SIZE_MAX
}.

(** The chains [cs] have flags of chains of [cs0], or none. *)
Definition flags_in (cs cs0 : list evbuffer_chain) : Prop :=
  Forall (λ c, c_flags c = 0 ∨ c_flags c ∈ (c_flags <$> cs0)) cs.

(** No chain is pinned for reading. *)
Definition unpinned (b : evbuffer) : Prop := Forall (λ c, CHAIN_PINNED_R c = false) (bf_chains b).

(** A buffer with other chains and counters. *)
Definition with_data (cs : list evbuffer_chain) (lwd : nat) (total n_add n_del : Z) (b : evbuffer) :
    evbuffer :=
  set_bf_n_del n_del (set_bf_n_add n_add (set_bf_total_len total
    (set_bf_lwd lwd (set_bf_chains cs b)))).

(** The buffer after [add] bytes were added and [del] removed, before its callbacks run. *)
Definition changed (cs : list evbuffer_chain) (lwd : nat) (add del : nat) (b : evbuffer) : evbuffer :=
  with_data cs lwd (Z.of_nat (length (bytes_of cs))) (u64 (bf_n_add b + Z.of_nat add))
    (u64 (bf_n_del b + Z.of_nat del)) b.

Lemma u64_small x : 0 <= x <= EV_SIZE_MAX → u64 x = x.
Proof. intros. apply wrap_small. change (2 ^ 64) with 18446744073709551616. lia. Qed.

Lemma u64_range x : 0 <= u64 x <= EV_SIZE_MAX.
Proof. pose proof (wrap_range 64 x). change (2 ^ 64) with 18446744073709551616 in *. lia. Qed.

Lemma wrap_wrap_add w x y : 0 < w → wrap w (wrap w x + y) = wrap w (x + y).
Proof. intros. unfold wrap. by rewrite Zplus_mod_idemp_l. Qed.

(** ** Memory and chains *)

(** What is written at [i] is read back. *)
Lemma take_drop_memcpy i (d buf : bytes) :
  (i + length d <= length buf)%nat →
  take (length d) (drop i (take i buf ++ d ++ drop (i + length d) buf)) = d.
Proof.
  intros. rewrite drop_app_length' by (rewrite length_take; lia). by rewrite take_app_length.
Qed.

(** Data before the place of the write, followed by what is written. *)
Lemma take_drop_memcpy_before m o (d buf : bytes) :
  (m + o + length d <= length buf)%nat →
  take (o + length d) (drop m (take (m + o) buf ++ d ++ drop (m + o + length d) buf)) =
    take o (drop m buf) ++ d.
Proof.
  intros. rewrite drop_app_le by (rewrite length_take; lia).
  rewrite <-take_drop_commute.
  rewrite take_app_ge by (rewrite length_take, length_drop; lia).
  rewrite length_take, length_drop.
  by rewrite take_app_length' by lia.
Qed.

Lemma length_data_of c : chain_ok c → length (data_of c) = c_off c.
Proof. intros [H _]. unfold data_of, buffer_len in *. rewrite length_take, length_drop. lia. Qed.

Lemma data_of_empty c : empty_chain c → data_of c = [].
Proof. unfold data_of. by intros ->. Qed.

Lemma chain_read c : chain_ok c → mread (c_misalign c) (c_off c) (c_buffer c) = Some (data_of c).
Proof. intros [H _]. by rewrite mread_ok. Qed.

Lemma chain_read_part c k n :
  chain_ok c → (k + n <= c_off c)%nat →
  mread (c_misalign c + k) n (c_buffer c) = Some (take n (drop k (data_of c))).
Proof.
  intros [H _] Hn. unfold buffer_len in *. rewrite mread_ok by lia. f_equal. unfold data_of.
  rewrite (take_drop_commute (take _ _)), take_take, Nat.min_l by lia.
  by rewrite <-take_drop_commute, drop_drop.
Qed.

Lemma chain_write_end_ok d c :
  chain_ok c → (c_misalign c + c_off c + length d <= buffer_len c)%nat →
  ∃ c', chain_write_end d c = Some c' ∧ chain_ok c' ∧ data_of c' = data_of c ++ d ∧
    c_off c' = (c_off c + length d)%nat ∧ c_flags c' = c_flags c.
Proof.
  intros [H1 H2] Hd. unfold chain_write_end, CHAIN_SPACE_PTR, buffer_len in *.
  rewrite memcpy_at_ok by lia. eexists. split_and!; [done| |by apply take_drop_memcpy_before|done..].
  unfold chain_ok, buffer_len. cbn. rewrite length_memcpy by lia. split; [lia|done].
Qed.

Lemma chain_align_ok c :
  chain_ok c → c_flags c &? EVBUFFER_IMMUTABLE = false → CHAIN_PINNED c = false →
  ∃ c', evbuffer_chain_align c = Some c' ∧ chain_ok c' ∧ data_of c' = data_of c ∧
    c_off c' = c_off c ∧ c_misalign c' = 0%nat ∧ c_flags c' = c_flags c ∧
    buffer_len c' = buffer_len c.
Proof.
  intros Hc Him Hp. unfold evbuffer_chain_align. unfold CHAIN_PINNED in Hp.
  rewrite Him, Hp. cbn [negb evassert]. rewrite !bind_some_eq, chain_read by done.
  rewrite bind_some_eq. pose proof (length_data_of c Hc) as Hl. destruct Hc as [H1 H2].
  unfold buffer_len in *. rewrite memcpy_at_ok by lia. rewrite bind_some_eq.
  eexists. split_and!; [done| | |done..|].
  - unfold chain_ok, buffer_len. cbn [c_misalign c_off c_buffer c_flags set_c_misalign set_c_buffer].
    rewrite length_memcpy by lia. split; [lia|done].
  - unfold data_of at 1. cbn [c_misalign c_off c_buffer set_c_misalign set_c_buffer].
    rewrite <-Hl at 1. by apply take_drop_memcpy; lia.
  - unfold buffer_len. cbn [c_buffer set_c_misalign set_c_buffer]. by apply length_memcpy; lia.
Qed.

Lemma chain_advance_ok n c :
  chain_ok c → (n <= c_off c)%nat →
  chain_ok (chain_advance n c) ∧ data_of (chain_advance n c) = drop n (data_of c) ∧
  c_off (chain_advance n c) = (c_off c - n)%nat.
Proof.
  intros [H1 H2] Hn. unfold chain_ok, chain_advance, data_of, buffer_len in *. cbn.
  split_and!; [lia|done| |done].
  rewrite <-drop_drop, take_drop_commute. do 2 f_equal. lia.
Qed.

(** ** Allocation of a chain *)

Lemma double_until_ge fuel a size :
  0 < a → 0 < size → size <= a * 2 ^ Z.of_nat fuel → size <= double_until fuel a size.
Proof.
  revert a. induction fuel as [|fuel IH]; intros a Ha Hs Hle; cbn.
  - rewrite Z.mul_1_r in Hle. done.
  - destruct (Z.ltb_spec a size) as [Hlt|Hge]; [|lia].
    apply IH; [rewrite Z.shiftl_mul_pow2; lia|done|].
    rewrite Z.shiftl_mul_pow2 by lia. rewrite Nat2Z.inj_succ, Z.pow_succ_r in Hle by lia. lia.
Qed.

Lemma double_until_lt fuel a size :
  0 < a → double_until fuel a size < Z.max (a + 1) (2 * size).
Proof.
  revert a. induction fuel as [|fuel IH]; intros a Ha; cbn; [lia|].
  destruct (Z.ltb_spec a size) as [Hlt|Hge]; [|lia].
  specialize (IH (Z.shiftl a 1)). rewrite Z.shiftl_mul_pow2 in * by lia. lia.
Qed.

Lemma chain_alloc_size_range size :
  EVBUFFER_CHAIN_SIZE <= size <= EVBUFFER_CHAIN_MAX →
  size <= chain_alloc_size size <= EVBUFFER_CHAIN_MAX.
Proof.
  intros H. unfold chain_alloc_size.
  destruct (Z.ltb_spec size (EVBUFFER_CHAIN_MAX `div` 2)) as [Hlt|Hge]; [|lia].
  change (EVBUFFER_CHAIN_MAX `div` 2) with 4611686018427387903 in Hlt. split.
  - apply double_until_ge; [lia..|]. change (2 ^ Z.of_nat 64) with 18446744073709551616. lia.
  - pose proof (double_until_lt 64 MIN_BUFFER_SIZE size). lia.
Qed.

Lemma chain_new_ok ok size c :
  0 <= size → evbuffer_chain_new ok size = Some c →
  chain_ok c ∧ c_off c = 0%nat ∧ c_misalign c = 0%nat ∧ c_flags c = 0 ∧
  size <= Z.of_nat (buffer_len c).
Proof.
  intros Hs. unfold evbuffer_chain_new.
  destruct (Z.ltb_spec (EVBUFFER_CHAIN_MAX - EVBUFFER_CHAIN_SIZE) size) as [|Hle]; [done|].
  destruct ok; [|done]. intros [= <-].
  pose proof (chain_alloc_size_range (size + EVBUFFER_CHAIN_SIZE)).
  unfold chain_ok, buffer_len. cbn [c_misalign c_off c_buffer c_flags].
  rewrite length_replicate. split_and!; [lia|right; lia|done..|lia].
Qed.

Lemma chain_new_none ok size :
  evbuffer_chain_new ok size = None →
  ok = false ∨ EVBUFFER_CHAIN_MAX - EVBUFFER_CHAIN_SIZE < size.
Proof. unfold evbuffer_chain_new. destruct (Z.ltb_spec (EVBUFFER_CHAIN_MAX - EVBUFFER_CHAIN_SIZE) size), ok; naive_solver. Qed.

Lemma with_data_self b :
  with_data (bf_chains b) (bf_lwd b) (bf_total_len b) (bf_n_add b) (bf_n_del b) b = b.
Proof. by destruct b. Qed.

(** ** Lists of chains *)

Lemma bytes_of_app l1 l2 : bytes_of (l1 ++ l2) = bytes_of l1 ++ bytes_of l2.
Proof. unfold bytes_of. by rewrite fmap_app, concat_app. Qed.

Lemma bytes_of_cons c l : bytes_of (c :: l) = data_of c ++ bytes_of l.
Proof. done. Qed.

Lemma bytes_of_empty l : Forall empty_chain l → bytes_of l = [].
Proof.
  induction 1 as [|c l Hc Hl IH]; [done|]. by rewrite bytes_of_cons, IH, (data_of_empty c Hc).
Qed.

Lemma bytes_of_insert cs p c c' d :
  cs !! p = Some c → Forall empty_chain (drop (S p) cs) → data_of c' = data_of c ++ d →
  bytes_of (<[p := c']> cs) = bytes_of cs ++ d.
Proof.
  intros Hp He Hd. pose proof (lookup_lt_Some _ _ _ Hp).
  rewrite insert_take_drop by done. rewrite <-(take_drop_middle cs p c Hp) at 3.
  rewrite !bytes_of_app, !bytes_of_cons, Hd, (bytes_of_empty _ He).
  by rewrite <-!app_assoc, !app_nil_r.
Qed.

Lemma bytes_of_insert_same cs p c c' :
  cs !! p = Some c → data_of c' = data_of c → bytes_of (<[p := c']> cs) = bytes_of cs.
Proof.
  intros Hp Hd. pose proof (lookup_lt_Some _ _ _ Hp).
  rewrite insert_take_drop by done. rewrite <-(take_drop_middle cs p c Hp) at 3.
  by rewrite !bytes_of_app, !bytes_of_cons, Hd.
Qed.

Lemma all_empty_spec l : evbuffer_chains_all_empty l = true ↔ Forall empty_chain l.
Proof.
  induction l as [|c l IH]; cbn; [done|].
  rewrite andb_true_iff, IH, Nat.eqb_eq, Forall_cons. done.
Qed.

Lemma drop_empty_mono n m cs :
  (n <= m)%nat → Forall empty_chain (drop n cs) → Forall empty_chain (drop m cs).
Proof.
  intros Hnm H. replace m with (n + (m - n))%nat by lia. rewrite <-drop_drop. by apply Forall_drop.
Qed.

Lemma list_ok_nil : list_ok [] 0.
Proof. constructor; [constructor|by right|constructor]. Qed.

Lemma flags_in_sub cs cs0 : cs ⊆ cs0 → flags_in cs cs0.
Proof.
  intros Hs. apply Forall_forall. intros c Hc. right. apply list_elem_of_fmap. exists c. auto.
Qed.

Lemma flags_in_insert cs p c c' :
  cs !! p = Some c → c_flags c' = c_flags c → flags_in (<[p := c']> cs) cs.
Proof.
  intros Hp Hf. apply Forall_insert; [by apply flags_in_sub|]. right. rewrite Hf.
  apply list_elem_of_fmap. exists c. split; [done|]. by eapply list_elem_of_lookup_2.
Qed.

Lemma flags_in_trans cs1 cs2 cs3 : flags_in cs1 cs2 → flags_in cs2 cs3 → flags_in cs1 cs3.
Proof.
  unfold flags_in. rewrite !Forall_forall. intros H12 H23 c Hc.
  destruct (H12 c Hc) as [|(c2 & -> & Hc2)%list_elem_of_fmap]; [by left|]. auto.
Qed.

Lemma unpinned_flags_in cs b b' : unpinned b → bf_chains b' = cs → flags_in cs (bf_chains b) → unpinned b'.
Proof.
  unfold unpinned, flags_in. intros Hu -> Hf. eapply Forall_impl; [done|]. intros c [H0|Hin].
  - unfold CHAIN_PINNED_R. by rewrite H0.
  - apply list_elem_of_fmap in Hin as (c0 & Hc0 & Hin). rewrite Forall_forall in Hu.
    unfold CHAIN_PINNED_R. rewrite Hc0. by apply Hu.
Qed.

(** Nothing is pinned, for reading or for writing. *)
Definition nopins (b : evbuffer) : Prop := Forall (λ c, CHAIN_PINNED c = false) (bf_chains b).

Lemma nopins_flags_in b b' : nopins b → flags_in (bf_chains b') (bf_chains b) → nopins b'.
Proof.
  unfold nopins, flags_in. intros Hu Hf. eapply Forall_impl; [done|]. intros c [H0|Hin].
  - unfold CHAIN_PINNED. by rewrite H0.
  - apply list_elem_of_fmap in Hin as (c0 & Hc0 & Hin). rewrite Forall_forall in Hu.
    unfold CHAIN_PINNED. rewrite Hc0. by apply Hu.
Qed.

Lemma nopins_unpinned b : nopins b → unpinned b.
Proof.
  unfold nopins, unpinned. intros H. eapply Forall_impl; [done|]. intros c. unfold CHAIN_PINNED, CHAIN_PINNED_R.
  change EVBUFFER_MEM_PINNED_ANY with (Z.lor EVBUFFER_MEM_PINNED_R 32). rewrite flag_orb.
  by intros [? _]%orb_false_iff.
Qed.

Lemma list_ok_lookup cs lwd i c : list_ok cs lwd → cs !! i = Some c → chain_ok c.
Proof. intros [H _ _] Hi. by eapply Forall_lookup_1. Qed.

Lemma list_ok_insert cs lwd p c c' :
  list_ok cs lwd → cs !! p = Some c → chain_ok c' → (p <= lwd)%nat ∨ empty_chain c' →
  list_ok (<[p := c']> cs) lwd.
Proof.
  intros [H1 H2 H3] Hp Hc' Hle. pose proof (lookup_lt_Some _ _ _ Hp). constructor.
  - by apply Forall_insert.
  - rewrite length_insert. destruct H2 as [|[-> ->]]; [by left|]. cbn in *. lia.
  - destruct (decide (p <= lwd)%nat) as [Hle'|Hgt].
    + by rewrite drop_insert_lt by lia.
    + rewrite drop_insert_ge by lia. apply Forall_insert; [done|]. destruct Hle; [lia|done].
Qed.

Lemma subseteq_take n (cs : list evbuffer_chain) : take n cs ⊆ cs.
Proof. intros c Hc. rewrite <-(take_drop n cs). apply elem_of_app. by left. Qed.

(** Chains that are empty and not pinned are at the end. *)
Lemma victim_le l : (victim l <= length l)%nat.
Proof. induction l as [|c l IH]; cbn; [done|]. case_match; cbn; lia. Qed.

Lemma victim_empty l :
  Forall empty_chain (drop 1 l) → Forall empty_chain (drop (victim l) l).
Proof.
  intros H. destruct l as [|c l]; [constructor|]. cbn in *. rewrite drop_0 in H.
  destruct (Nat.eqb_spec (c_off c) 0) as [Hc|Hc]; cbn.
  - destruct (CHAIN_PINNED c); cbn; [by apply Forall_drop|]. by constructor.
  - by apply Forall_drop.
Qed.

Lemma bytes_of_take_empty n cs :
  Forall empty_chain (drop n cs) → bytes_of (take n cs) = bytes_of cs.
Proof.
  intros He. rewrite <-(take_drop n cs) at 2. by rewrite bytes_of_app, (bytes_of_empty _ He), app_nil_r.
Qed.

(** Freeing the trailing chains keeps the data and a place at the end for more. *)
Lemma free_trailing_ok b :
  list_ok (bf_chains b) (bf_lwd b) →
  ∃ kept, evbuffer_free_trailing_empty_chains b = Some kept ∧
    Forall chain_ok kept ∧ bytes_of kept = content b ∧ (bf_lwd b <= length kept)%nat ∧
    Forall empty_chain (drop (S (bf_lwd b)) kept) ∧ kept ⊆ bf_chains b.
Proof.
  intros [H1 H2 H3]. unfold evbuffer_free_trailing_empty_chains.
  set (cs := bf_chains b) in *. set (lwd := bf_lwd b) in *.
  assert (Forall empty_chain (drop (lwd + victim (drop lwd cs)) cs)) as He.
  { rewrite <-drop_drop. apply victim_empty. by rewrite drop_drop, Nat.add_1_r. }
  rewrite evassert_true by by apply all_empty_spec. rewrite bind_some_eq.
  eexists. split; [done|]. split_and!.
  - by apply Forall_take.
  - by apply bytes_of_take_empty.
  - rewrite length_take. destruct H2 as [|[Hn ->]]; [|lia]. pose proof (victim_le (drop lwd cs)). lia.
  - rewrite skipn_firstn_comm. by apply Forall_take.
  - apply subseteq_take.
Qed.

(** The list after [evbuffer_chain_insert]. *)
Lemma chain_insert_ok c b :
  list_ok (bf_chains b) (bf_lwd b) → chain_ok c →
  ∃ cs lwd, evbuffer_chain_insert c b =
      Some (with_data cs lwd (u64 (bf_total_len b + Z.of_nat (c_off c))) (bf_n_add b) (bf_n_del b) b) ∧
    list_ok cs lwd ∧ bytes_of cs = content b ++ data_of c ∧
    cs !! (length cs - 1)%nat = Some c ∧ (bf_chains b = [] → cs = [c] ∧ lwd = 0%nat) ∧
    (c_flags c = 0 → flags_in cs (bf_chains b)).
Proof.
  intros Hl Hc. unfold evbuffer_chain_insert. destruct (bf_chains b !! bf_lwd b) as [c0|] eqn:Hlk.
  - destruct (free_trailing_ok b Hl) as (kept & -> & Hk1 & Hk2 & Hk3 & Hk4 & Hk5).
    rewrite !bind_some_eq.
    eexists (kept ++ [c]), (if (c_off c =? 0)%nat then bf_lwd b else length kept).
    split; [by destruct b; cbn; destruct (Nat.eqb_spec (c_off c) 0)|].
    split_and!.
    + constructor; [by apply Forall_app; auto|left; rewrite length_app; cbn; case_match; lia|].
      destruct (Nat.eqb_spec (c_off c) 0) as [H0|H0].
      * destruct (decide (bf_lwd b = length kept)) as [->|];
          [by rewrite drop_ge by (rewrite length_app; cbn; lia)|].
        rewrite drop_app_le by lia. apply Forall_app. auto.
      * by rewrite drop_ge by (rewrite length_app; cbn; lia).
    + by rewrite bytes_of_app, Hk2, bytes_of_cons, app_nil_r.
    + rewrite length_app. cbn. rewrite lookup_app_r by lia. by replace (_ - _ - _)%nat with 0%nat by lia.
    + intros Hn. by rewrite Hn in Hlk.
    + intros Hf. apply Forall_app. split; [by apply flags_in_sub|]. constructor; [by left|constructor].
  - destruct Hl as [H1 [H2|[H2 H2']] H3]; [apply lookup_ge_None in Hlk; lia|].
    rewrite H2, H2'. cbn [Nat.eqb evassert length]. rewrite !bind_some_eq.
    eexists [c], 0%nat. split; [by destruct b; cbn in *; subst|].
    unfold content. rewrite H2. split_and!; [|by rewrite bytes_of_cons, app_nil_r|done..|].
    2: { intros Hf. constructor; [by left|constructor]. }
    constructor; [by constructor|cbn; lia|constructor].
Qed.

(** ** The callbacks do not touch the data *)

Lemma run_callbacks_frame r b :
  bf_chains (evbuffer_run_callbacks r b) = bf_chains b ∧
  bf_lwd (evbuffer_run_callbacks r b) = bf_lwd b ∧
  bf_total_len (evbuffer_run_callbacks r b) = bf_total_len b ∧
  bf_freeze_start (evbuffer_run_callbacks r b) = bf_freeze_start b ∧
  bf_freeze_end (evbuffer_run_callbacks r b) = bf_freeze_end b.
Proof.
  unfold evbuffer_run_callbacks. destruct (cb_mask r (bf_deferred_cbs b)) as [[mask val] clear].
  destruct (bf_callbacks b); [done|]. destruct (_ && _); [done|]. by destruct clear.
Qed.

Lemma invoke_callbacks_frame b :
  bf_chains (evbuffer_invoke_callbacks_ b) = bf_chains b ∧
  bf_lwd (evbuffer_invoke_callbacks_ b) = bf_lwd b ∧
  bf_total_len (evbuffer_invoke_callbacks_ b) = bf_total_len b ∧
  bf_freeze_start (evbuffer_invoke_callbacks_ b) = bf_freeze_start b ∧
  bf_freeze_end (evbuffer_invoke_callbacks_ b) = bf_freeze_end b.
Proof.
  unfold evbuffer_invoke_callbacks_. destruct (bf_callbacks b); [done|].
  destruct (bf_deferred_cbs b); [destruct (bf_deferred_pending b)|];
    match goal with |- context [evbuffer_run_callbacks ?r ?x] =>
      destruct (run_callbacks_frame r x) as (-> & -> & -> & -> & ->) end; done.
Qed.

Lemma content_invoke b : content (evbuffer_invoke_callbacks_ b) = content b.
Proof. unfold content. by rewrite (proj1 (invoke_callbacks_frame b)). Qed.

Lemma run_callbacks_counters r b :
  buf_ok b →
  0 <= bf_n_add (evbuffer_run_callbacks r b) <= EV_SIZE_MAX ∧
  0 <= bf_n_del (evbuffer_run_callbacks r b) <= EV_SIZE_MAX.
Proof.
  intros [_ _ _ H1 H2].
  unfold evbuffer_run_callbacks. destruct (cb_mask r (bf_deferred_cbs b)) as [[mask val] clear].
  destruct (bf_callbacks b); cbn; [lia|]. destruct (_ && _); [done|]. destruct clear; cbn; [lia|done].
Qed.

Lemma invoke_callbacks_counters b :
  buf_ok b →
  0 <= bf_n_add (evbuffer_invoke_callbacks_ b) <= EV_SIZE_MAX ∧
  0 <= bf_n_del (evbuffer_invoke_callbacks_ b) <= EV_SIZE_MAX.
Proof.
  intros H. unfold evbuffer_invoke_callbacks_. destruct (bf_callbacks b); [cbn; lia|].
  apply run_callbacks_counters. destruct H.
  destruct (bf_deferred_cbs b); [destruct (bf_deferred_pending b)|]; by constructor.
Qed.

Lemma buf_ok_invoke b : buf_ok b → buf_ok (evbuffer_invoke_callbacks_ b).
Proof.
  intros H. destruct (invoke_callbacks_counters b H) as [Ha Hd]. destruct H as [H1 H2 H3 _ _].
  destruct (invoke_callbacks_frame b) as (E1 & E2 & E3 & _).
  constructor; [by rewrite E1, E2|by rewrite content_invoke, E3|by rewrite E3|done..].
Qed.

Lemma buf_ok_changed cs lwd a d b :
  list_ok cs lwd → Z.of_nat (length (bytes_of cs)) <= EV_SIZE_MAX → buf_ok (changed cs lwd a d b).
Proof. intros Hl Hm. constructor; [done..|apply u64_range|apply u64_range]. Qed.

(** ** [evbuffer_add] *)

(** The sizes of the allocations of [evbuffer_add] stay within the limit. *)
Definition alloc_fits (n : nat) (b : evbuffer) : Prop :=
  Z.of_nat n <= EVBUFFER_CHAIN_MAX - EVBUFFER_CHAIN_SIZE ∧
  Forall (λ c, 2 * Z.of_nat (buffer_len c) <= EVBUFFER_CHAIN_MAX - EVBUFFER_CHAIN_SIZE) (bf_chains b).

(** The outcomes of adding [data] with the list of chains [cs] before. *)
Inductive add_outcome (data : bytes) (fits : Prop) (b : evbuffer) : option (Z * evbuffer) → Prop :=
  | AddDone cs lwd :
      list_ok cs lwd → bytes_of cs = content b ++ data → flags_in cs (bf_chains b) →
      add_outcome data fits b
        (Some (0, evbuffer_invoke_callbacks_ (changed cs lwd (length data) 0 b)))
  | AddNoMem : ¬ fits → add_outcome data fits b (Some (-1, b)).

Lemma changed_counted cs lwd n b :
  buf_ok b → Z.of_nat (length (content b) + n) <= EV_SIZE_MAX →
  length (bytes_of cs) = (length (content b) + n)%nat →
  add_n_add (Z.of_nat n) (add_total (Z.of_nat n) (set_bf_lwd lwd (set_bf_chains cs b))) =
    changed cs lwd n 0 b.
Proof.
  intros [_ Ht _ _ Hd] Hm Hl. unfold changed, with_data. rewrite Hl, Nat2Z.inj_add, <-Ht.
  rewrite (u64_small (bf_n_del b + Z.of_nat 0)) by lia. unfold add_n_add, add_total.
  rewrite Nat2Z.inj_add, <-Ht in Hm. cbn [bf_total_len set_bf_lwd set_bf_chains].
  rewrite (u64_small (bf_total_len b + Z.of_nat n)) by lia. rewrite Z.add_0_r. by destruct b.
Qed.

(** The data goes to the chain that [last_with_datap] designates. *)
Lemma add_in_place data fits c c' b :
  buf_ok b → bf_chains b !! bf_lwd b = Some c → chain_ok c' → data_of c' = data_of c ++ data →
  c_flags c' = c_flags c →
  Z.of_nat (length (content b) + length data) <= EV_SIZE_MAX →
  add_outcome data fits b (Some (0, evbuffer_invoke_callbacks_
    (counted (length data) (set_chain (bf_lwd b) c' b)))).
Proof.
  intros Hb Hc Hc' Hd Hfl Hm. pose proof (bo_list _ Hb) as Hl.
  assert (bytes_of (<[bf_lwd b := c']> (bf_chains b)) = content b ++ data) as Hcs.
  { eapply bytes_of_insert; [done|apply Hl|done]. }
  assert (set_chain (bf_lwd b) c' b =
    set_bf_lwd (bf_lwd b) (set_bf_chains (<[bf_lwd b := c']> (bf_chains b)) b)) as -> by by destruct b.
  unfold counted. rewrite changed_counted; [|done..|by rewrite Hcs, length_app]. constructor; [|done|by eapply flags_in_insert].
  eapply list_ok_insert; [done..|by left].
Qed.

(** The first [remain] bytes are put in the old chain; the counters are then
    those of the whole once the others are counted. *)
Lemma add_first_part data remain c b :
  buf_ok b → bf_chains b !! bf_lwd b = Some c →
  (c_misalign c + c_off c + remain <= buffer_len c)%nat → (remain <= length data)%nat →
  Z.of_nat (length (content b) + length data) <= EV_SIZE_MAX →
  ∃ b1, (if (remain =? 0)%nat then Some b
         else c' ← chain_write_end (take remain data) c; Some (counted remain (set_chain (bf_lwd b) c' b))) =
      Some b1 ∧ list_ok (bf_chains b1) (bf_lwd b1) ∧ content b1 = content b ++ take remain data ∧
    flags_in (bf_chains b1) (bf_chains b) ∧
    ∀ cs lwd, bytes_of cs = content b ++ data →
      add_n_add (Z.of_nat (length data - remain))
        (with_data cs lwd (u64 (bf_total_len b1 + Z.of_nat (length data - remain)))
           (bf_n_add b1) (bf_n_del b1) b1) = changed cs lwd (length data) 0 b.
Proof.
  intros Hb Hc Hr Hrl Hm. pose proof (bo_list _ Hb) as Hl. pose proof (bo_total _ Hb) as Htot.
  assert (∀ cs lwd, bytes_of cs = content b ++ data →
    changed cs lwd (length data) 0 b =
      with_data cs lwd (bf_total_len b + Z.of_nat (length data))
        (u64 (bf_n_add b + Z.of_nat (length data))) (bf_n_del b) b) as Hch.
  { intros cs lwd Hcs. unfold changed. rewrite Hcs, length_app, Nat2Z.inj_add, <-Htot.
    by rewrite Z.add_0_r, (u64_small (bf_n_del b)) by apply Hb. }
  destruct (Nat.eqb_spec remain 0) as [->|Hne].
  - exists b. split_and!; [done..|by rewrite app_nil_r|by apply flags_in_sub|]. intros cs lwd Hcs. rewrite (Hch cs lwd Hcs).
    rewrite Nat.sub_0_r, (u64_small (bf_total_len b + _)) by lia. by destruct b.
  - destruct (chain_write_end_ok (take remain data) c) as (c' & -> & Hc' & Hd' & _ & Hf').
    { by eapply list_ok_lookup. } { rewrite length_take. lia. }
    rewrite bind_some_eq. eexists. split; [done|]. split_and!.
    + eapply list_ok_insert; [done..|by left].
    + unfold content. cbn. eapply bytes_of_insert; [done|apply Hl|done].
    + by eapply flags_in_insert.
    + intros cs lwd Hcs. rewrite (Hch cs lwd Hcs).
      assert (∀ x, u64 (u64 (x + Z.of_nat remain) + Z.of_nat (length data - remain)) =
                   u64 (x + Z.of_nat (length data))) as Hadd.
      { intros x. rewrite wrap_wrap_add by lia. f_equal. lia. }
      unfold with_data, counted, add_n_add, add_total. cbn. rewrite !Hadd.
      by rewrite (u64_small (bf_total_len b + Z.of_nat (length data))) by lia.
Qed.

(** A fresh chain holds what is copied to its start. *)
Lemma fill_chain_ok d tmp :
  chain_ok tmp → c_misalign tmp = 0%nat → (length d <= buffer_len tmp)%nat →
  ∃ buf, memcpy_at 0 d (c_buffer tmp) = Some buf ∧
    chain_ok (set_c_off (length d) (set_c_buffer buf tmp)) ∧
    data_of (set_c_off (length d) (set_c_buffer buf tmp)) = d.
Proof.
  intros [Ht1 Ht2] Hmis Hlen. unfold buffer_len in *. rewrite memcpy_at_ok by lia.
  eexists. split; [done|]. unfold chain_ok, data_of, buffer_len. cbn. rewrite Hmis.
  rewrite !length_app, length_take, length_drop. split; [split; [lia|]|].
  - destruct Ht2; [by left|right; lia].
  - apply (take_drop_memcpy 0 d). cbn. lia.
Qed.

(** What did not fit goes to a new chain. *)
Lemma add_another_chain_ok ok remain c data fits b :
  buf_ok b → bf_chains b !! bf_lwd b = Some c →
  (c_misalign c + c_off c + remain <= buffer_len c)%nat → (remain <= length data)%nat →
  Z.of_nat (length (content b) + length data) <= EV_SIZE_MAX →
  (fits → ok = true ∧ alloc_fits (length data) b) →
  add_outcome data fits b (add_another_chain ok (bf_lwd b) c remain data b).
Proof.
  intros Hb Hc Hr Hrl Hm Hfits. unfold add_another_chain. cbv zeta.
  set (ta := if (buffer_len c <=? _)%nat then _ else _).
  set (size := if (ta <? length data)%nat then _ else _).
  assert (length data <= size <= length data `max` (2 * buffer_len c))%nat as Hsize.
  { assert (ta <= 2 * buffer_len c)%nat by (unfold ta; case_match; lia).
    unfold size. destruct (Nat.ltb_spec ta (length data)); lia. }
  destruct (evbuffer_chain_new ok _) as [tmp|] eqn:Hnew; cycle 1.
  { apply AddNoMem. intros [Hok [Hf1 Hf2]]%Hfits.
    apply (Forall_lookup_1 _ _ _ _ Hf2) in Hc. cbv beta in Hc.
    destruct (chain_new_none _ _ Hnew); [congruence|lia]. }
  apply chain_new_ok in Hnew as (Ht & _ & Hmis & Hfl & Hlen); [|lia].
  destruct (add_first_part data remain c b) as (b1 & -> & Hl1 & Hc1 & Hfl1 & Hfin); [done..|].
  destruct (fill_chain_ok (drop remain data) tmp) as (buf & -> & Htmp & Hdt);
    [done..|rewrite length_drop; lia|].
  rewrite !bind_some_eq. cbv zeta. rewrite length_drop in Htmp, Hdt.
  destruct (chain_insert_ok _ b1 Hl1 Htmp) as (cs & lwd & -> & Hcs & Hby & _ & _ & Hfl2).
  rewrite bind_some_eq. cbn [c_off set_c_off].
  assert (bytes_of cs = content b ++ data) as Hby'.
  { by rewrite Hby, Hdt, Hc1, <-app_assoc, take_drop. }
  rewrite Hfin by done. constructor; [done..|]. eapply flags_in_trans; [by apply Hfl2|done].
Qed.

(** Realigning a chain makes room for the data. *)
Lemma realign_write_ok c data :
  chain_ok c → c_flags c &? EVBUFFER_IMMUTABLE = false → CHAIN_PINNED c = false →
  evbuffer_chain_should_realign c (Z.of_nat (length data)) = true →
  ∃ c1 buf, evbuffer_chain_align c = Some c1 ∧ memcpy_at (c_off c1) data (c_buffer c1) = Some buf ∧
    chain_ok (set_c_off (c_off c1 + length data)%nat (set_c_buffer buf c1)) ∧
    data_of (set_c_off (c_off c1 + length data)%nat (set_c_buffer buf c1)) = data_of c ++ data ∧
    c_flags c1 = c_flags c.
Proof.
  intros Hc Him Hp Hre. destruct (chain_align_ok c) as (c1 & -> & Hc1 & Hd1 & Ho1 & Hm1 & Hf1 & Hb1); [done..|].
  unfold evbuffer_chain_should_realign in Hre. rewrite !andb_true_iff, Z.leb_le in Hre.
  destruct Hre as [[Hre _] _]. pose proof (proj1 Hc).
  destruct (chain_write_end_ok data c1 Hc1) as (c2 & Hw & Hc2 & Hd2 & _); [rewrite Hm1, Ho1, Hb1; lia|].
  unfold chain_write_end, CHAIN_SPACE_PTR in Hw. rewrite Hm1 in Hw. cbn [Nat.add] in Hw.
  apply bind_Some in Hw as (buf & Hw & [= <-]). exists c1, buf. rewrite <-Hd1. auto.
Qed.

Lemma add_to_chain_ok ok data b c :
  buf_ok b → bf_chains b !! bf_lwd b = Some c →
  Z.of_nat (length (content b) + length data) <= EV_SIZE_MAX →
  add_outcome data
    (c_flags c &? EVBUFFER_IMMUTABLE = false ∧ (length data <= buffer_len c - c_misalign c - c_off c)%nat ∨
     ok = true ∧ alloc_fits (length data) b) b
    (add_to_chain ok (bf_lwd b) data b).
Proof.
  intros Hb Hc Hm. pose proof (bo_list _ Hb) as Hl. pose proof (list_ok_lookup _ _ _ _ Hl Hc) as Hok.
  unfold add_to_chain. rewrite Hc, bind_some_eq. destruct (Hok) as [Hlen Hmax]. cbv zeta.
  destruct (c_flags c &? EVBUFFER_IMMUTABLE) eqn:Him.
  { apply add_another_chain_ok; try done; [lia..|]. by intros [[? ?]|?]. }
  rewrite evassert_true by (apply Z.leb_le; destruct Hmax; [done|lia]). rewrite bind_some_eq.
  destruct (Nat.leb_spec (length data) (buffer_len c - c_misalign c - c_off c)) as [Hfit|Hfit].
  { destruct (chain_write_end_ok data c Hok) as (c' & -> & Hc' & Hd' & _ & Hf'); [lia|].
    rewrite bind_some_eq. by eapply add_in_place. }
  destruct (negb (CHAIN_PINNED c) && _) eqn:Hre.
  - apply andb_true_iff in Hre as [Hp%negb_true_iff Hre].
    destruct (realign_write_ok c data) as (c1 & buf & -> & Hw & Hc' & Hd' & Hf'); [done..|].
    rewrite bind_some_eq, Hw, bind_some_eq. cbv zeta. by eapply add_in_place.
  - apply add_another_chain_ok; try done; [lia..|]. intros [[_ ?]|?]; [lia|done].
Qed.

(** The whole of [evbuffer_add]. *)
Lemma evbuffer_add_spec m data b :
  buf_ok b →
  evbuffer_add m data b = Some (-1, b) ∧
    (bf_freeze_end b = true ∨ EV_SIZE_MAX < Z.of_nat (length (content b) + length data)) ∨
  bf_freeze_end b = false ∧ Z.of_nat (length (content b) + length data) <= EV_SIZE_MAX ∧
  add_outcome data ((∀ n, m n = true) ∧ alloc_fits (length data) b) b (evbuffer_add m data b).
Proof.
  intros Hb. unfold evbuffer_add. destruct (bf_freeze_end b); [auto|]. cbv zeta.
  pose proof (bo_total _ Hb) as Ht.
  destruct (Z.ltb_spec (EV_SIZE_MAX - bf_total_len b) (Z.of_nat (length data))) as [Hlt|Hge];
    [left; split; [done|right; lia]|].
  right. split; [done|]. assert (Z.of_nat (length (content b) + length data) <= EV_SIZE_MAX) as Hm by lia.
  split; [done|]. clear Hge. destruct (bf_chains b) as [|c0 cs0] eqn:Hcs.
  - destruct (evbuffer_chain_new _ _) as [c|] eqn:Hnew; cycle 1.
    { apply AddNoMem. intros [Hall [Hf _]]. destruct (chain_new_none _ _ Hnew); [|lia].
      by rewrite Hall in H. }
    apply chain_new_ok in Hnew as (Hc & Ho & Hmis & Hfl & Hlen); [|lia].
    destruct (chain_insert_ok c b) as (cs & lwd & -> & Hl & Hby & _ & Hnil & _); [apply Hb|done|].
    destruct (Hnil Hcs) as [-> ->]. rewrite bind_some_eq. cbn [length bf_chains].
    rewrite Ho, Z.add_0_r, u64_small by (destruct Hb; lia).
    set (b1 := with_data _ _ _ _ _ _).
    assert (content b1 = content b) as Hc1.
    { change (bytes_of [c] = bytes_of (bf_chains b)). by rewrite Hcs, bytes_of_cons, (data_of_empty c Ho). }
    assert (buf_ok b1) as Hb1.
    { destruct Hb. constructor; [done|by rewrite Hc1|done..]. }
    pose proof (add_to_chain_ok (m 1%nat) data b1 c Hb1 eq_refl) as Hadd.
    rewrite Hc1 in Hadd. specialize (Hadd Hm). change (bf_lwd b1) with 0%nat in Hadd.
    inversion Hadd as [cs lwd Hl' Hby' Hfl' Heq|Hno Heq].
    + rewrite Hc1 in Hby'. change (length _ - 1)%nat with 0%nat. rewrite <-Heq. assert (changed cs lwd (length data) 0 b1 = changed cs lwd (length data) 0 b) as ->
        by by destruct b. constructor; [done..|].
      rewrite Hcs. eapply flags_in_trans; [done|]. constructor; [by left|constructor].
    + destruct Hno. left. rewrite Hfl, Ho, Hmis. split; [done|lia].
  - destruct (lo_lwd _ _ (bo_list _ Hb)) as [Hlwd|[Hn _]]; [|congruence].
    rewrite Hcs in Hlwd. rewrite (proj2 (Nat.ltb_lt _ _) Hlwd).
    destruct (lookup_lt_is_Some_2 _ _ Hlwd) as [c Hc]. rewrite <-Hcs in Hc.
    destruct (add_to_chain_ok (m 1%nat) data b c Hb Hc Hm) as [cs lwd Hl' Hby' Hfl'|Hno].
    + by constructor.
    + apply AddNoMem. intros [Hall Hf]. destruct Hno. right. by rewrite Hall.
Qed.

(** When [evbuffer_add] succeeds. *)
Lemma evbuffer_add_total m d b :
  buf_ok b → bf_freeze_end b = false → Z.of_nat (length (content b) + length d) <= EV_SIZE_MAX →
  (∀ n, m n = true) → alloc_fits (length d) b →
  ∃ b', evbuffer_add m d b = Some (0, b') ∧ buf_ok b' ∧ content b' = content b ++ d.
Proof.
  intros Hb Hfr Hm Hok Hfits. destruct (evbuffer_add_spec m d b Hb) as [[_ [?|?]]|(_ & _ & Ho)]; [congruence|lia|].
  inversion Ho as [cs lwd Hl Hby Hfl Heq|Hno]; [|by destruct Hno].
  eexists. split; [done|]. rewrite content_invoke. split; [|done].
  apply buf_ok_invoke, buf_ok_changed; [done|]. by rewrite Hby, length_app.
Qed.

(** What a successful [evbuffer_add] leaves. *)
Lemma evbuffer_add_success m d b b' :
  buf_ok b → evbuffer_add m d b = Some (0, b') →
  buf_ok b' ∧ content b' = content b ++ d ∧ flags_in (bf_chains b') (bf_chains b) ∧
  bf_freeze_start b' = bf_freeze_start b ∧ bf_freeze_end b' = bf_freeze_end b.
Proof.
  intros Hb Hadd. destruct (evbuffer_add_spec m d b Hb) as [[E _]|(_ & Hm & Ho)]; [congruence|].
  destruct Ho as [cs lwd Hl Hby Hfl|]; [|congruence]. injection Hadd as <-. rewrite content_invoke.
  destruct (invoke_callbacks_frame (changed cs lwd (length d) 0 b)) as (E1 & _ & _ & E2 & E3).
  rewrite E1, E2, E3. split_and!; [|done..].
  apply buf_ok_invoke, buf_ok_changed; [done|]. by rewrite Hby, length_app.
Qed.

(** C10. [evbuffer_add] on a well-formed buffer never fails an assertion nor
    writes out of a block.  It returns 0 with the data appended to the content,
    or -1 with the buffer untouched; it returns 0 when the end is not frozen,
    the length does not overflow and memory is available. *)
Theorem evbuffer_add_correct m data b :
  buf_ok b →
  ∃ r b', evbuffer_add m data b = Some (r, b') ∧ buf_ok b' ∧
    (r = 0 ∧ bf_freeze_end b = false ∧ content b' = content b ++ data ∨ r = -1 ∧ b' = b) ∧
    (bf_freeze_end b = false → Z.of_nat (length (content b) + length data) <= EV_SIZE_MAX →
     (∀ n, m n = true) → alloc_fits (length data) b → r = 0).
Proof.
  intros Hb. destruct (evbuffer_add_spec m data b Hb) as [[-> Hno]|(Hfr & Hm & [cs lwd Hl Hby Hfl|Hno])].
  - eexists _, _. split_and!; [done..|by right|]. intros Hfr Hm. destruct Hno; [congruence|lia].
  - eexists _, _. split; [done|]. split_and!; [|left; rewrite content_invoke; by split_and!|done].
    apply buf_ok_invoke, buf_ok_changed; [done|]. by rewrite Hby, length_app.
  - eexists _, _. split_and!; [done..|by right|]. intros _ _ ? ?. by destruct Hno.
Qed.
