(* ===== verification/BufferPrepend.v ===== *)
(** * Byte buffers: adding data in front *)

From S2P Require Import Prelude BufferCore BufferInv.

Lemma bytes_of_insert_front cs c c' d :
  cs !! 0%nat = Some c → data_of c' = d ++ data_of c → bytes_of (<[0%nat := c']> cs) = d ++ bytes_of cs.
Proof.
  destruct cs as [|c0 cs]; [done|]. intros [= ->] Hd. cbn [insert list_insert].
  by rewrite !bytes_of_cons, Hd, <-app_assoc.
Qed.

(** Writing [d] just before the data. *)
Lemma write_front_ok c d :
  chain_ok c → (length d <= c_misalign c)%nat →
  ∃ buf, memcpy_at (c_misalign c - length d) d (c_buffer c) = Some buf ∧
    chain_ok (mk_chain buf (c_misalign c - length d) (c_off c + length d) (c_flags c)) ∧
    data_of (mk_chain buf (c_misalign c - length d) (c_off c + length d) (c_flags c)) = d ++ data_of c.
Proof.
  intros [H1 H2] Hd. unfold chain_ok, data_of, buffer_len in *. cbn.
  rewrite memcpy_at_ok by lia. eexists. split; [done|]. rewrite length_memcpy by lia.
  split_and!; [lia|done|].
  rewrite drop_app_length' by (rewrite length_take; lia).
  rewrite take_app_ge by lia. f_equal.
  replace (c_off c + length d - length d)%nat with (c_off c) by lia.
  do 2 f_equal. lia.
Qed.

(** The outcomes of a new chain in front of the list. *)
Lemma prepend_chain_ok ok d b :
  list_ok (bf_chains b) (bf_lwd b) → bf_chains b ≠ [] →
  prepend_chain ok d b = Some (-1, b) ∧
    (ok = false ∨ EVBUFFER_CHAIN_MAX - EVBUFFER_CHAIN_SIZE < Z.of_nat (length d)) ∨
  ∃ cs lwd, prepend_chain ok d b =
      Some (0, evbuffer_invoke_callbacks_ (counted (length d) (set_bf_lwd lwd (set_bf_chains cs b)))) ∧
    list_ok cs lwd ∧ bytes_of cs = d ++ content b ∧ flags_in cs (bf_chains b).
Proof.
  intros [H1 H2 H3] Hne. unfold prepend_chain.
  destruct (evbuffer_chain_new _ _) as [tmp|] eqn:Hnew.
  - right. apply chain_new_ok in Hnew as (Hc & Ho & Hmis & Hfl & Hlen); [|lia].
    rewrite evassert_true by (apply Nat.leb_le; lia). rewrite bind_some_eq. cbv zeta.
    destruct (write_front_ok (mk_chain (c_buffer tmp) (buffer_len tmp) 0 (c_flags tmp)) d) as (buf & Hw & Hok & Hd).
    { unfold chain_ok, buffer_len. cbn. rewrite Nat.add_0_r. split; [done|]. by destruct Hc. }
    { cbn. lia. }
    cbn [c_misalign c_buffer c_off c_flags Nat.add] in *. rewrite Hw, bind_some_eq.
    eexists (_ :: bf_chains b), (S (bf_lwd b)). split; [done|].
    split_and!; [|by rewrite bytes_of_cons, Hd, app_nil_r|constructor; [by left|by apply flags_in_sub]].
    constructor; [by constructor|cbn; left; destruct H2 as [|[? _]]; [lia|done]|done].
  - left. split; [done|]. by apply chain_new_none.
Qed.

(** The outcomes of [evbuffer_prepend]: when memory is missing, a suffix of the
    data may already be in the buffer. *)
Inductive prepend_outcome (data : bytes) (fits : Prop) (b : evbuffer) : option (Z * evbuffer) → Prop :=
  | PrependDone cs lwd :
      list_ok cs lwd → bytes_of cs = data ++ content b → flags_in cs (bf_chains b) →
      prepend_outcome data fits b
        (Some (0, evbuffer_invoke_callbacks_ (changed cs lwd (length data) 0 b)))
  | PrependNoMem cs lwd k :
      ¬ fits → (k <= length data)%nat → list_ok cs lwd → bytes_of cs = drop (length data - k) data ++ content b →
      prepend_outcome data fits b (Some (-1, changed cs lwd k 0 b)).

Lemma changed_changed cs lwd cs' lwd' n k b :
  changed cs' lwd' n 0 (changed cs lwd k 0 b) = changed cs' lwd' (k + n) 0 b.
Proof.
  unfold changed, with_data. cbn [bf_n_add bf_n_del set_bf_n_add set_bf_n_del].
  rewrite !wrap_wrap_add, !Z.add_0_r, <-Z.add_assoc, <-Nat2Z.inj_add by lia. done.
Qed.

(** The first chain as [evbuffer_prepend] takes it: an empty one is empty at the beginning. *)
Lemma first_chain_ready c :
  chain_ok c →
  let c' := if (c_off c =? 0)%nat then set_c_misalign (buffer_len c) c else c in
  chain_ok c' ∧ data_of c' = data_of c ∧ c_off c' = c_off c ∧ c_flags c' = c_flags c.
Proof.
  intros [H1 H2]. cbv zeta. destruct (Nat.eqb_spec (c_off c) 0) as [H0|H0]; [|done].
  unfold chain_ok, data_of, buffer_len in *. cbn. rewrite H0. split_and!; [lia|done..].
Qed.

(** A chain in front, once the last [k] bytes have been put in the first one. *)
Lemma prepend_rest_ok ok data fits k cs1 lwd1 b :
  buf_ok b → Z.of_nat (length (content b) + length data) <= EV_SIZE_MAX →
  (k <= length data)%nat → list_ok cs1 lwd1 → cs1 ≠ [] →
  bytes_of cs1 = drop (length data - k) data ++ content b → flags_in cs1 (bf_chains b) →
  (fits → ok = true ∧ Z.of_nat (length data) <= EVBUFFER_CHAIN_MAX - EVBUFFER_CHAIN_SIZE) →
  prepend_outcome data fits b (prepend_chain ok (take (length data - k) data) (changed cs1 lwd1 k 0 b)).
Proof.
  intros Hb Hm Hk Hl1 Hn1 Hby1 Hfl1 Hfits.
  assert (buf_ok (changed cs1 lwd1 k 0 b)) as Hb1.
  { apply buf_ok_changed; [done|]. rewrite Hby1, length_app, length_drop. lia. }
  destruct (prepend_chain_ok ok (take (length data - k) data) (changed cs1 lwd1 k 0 b))
    as [[-> Hfail]|(cs & lwd & -> & Hcs & Hby & Hfl)]; [done..| |].
  - apply PrependNoMem; try done. intros [Hok' Hfit]%Hfits.
    rewrite length_take in Hfail. destruct Hfail; [congruence|lia].
  - change (content (changed cs1 lwd1 k 0 b)) with (bytes_of cs1) in Hby.
    rewrite Hby1, app_assoc, take_drop in Hby. unfold counted.
    rewrite changed_counted; [|done|..];
      [|change (content (changed cs1 lwd1 k 0 b)) with (bytes_of cs1);
        rewrite ?Hby, Hby1, !length_app, length_drop, length_take; lia..].
    rewrite changed_changed, length_take.
    replace (k + (length data - k) `min` length data)%nat with (length data) by lia.
    constructor; [done..|]. by eapply flags_in_trans.
Qed.

Lemma set_chains_changed cs b :
  buf_ok b → bytes_of cs = content b → set_bf_chains cs b = changed cs (bf_lwd b) 0 0 b.
Proof.
  intros [_ Ht _ Ha Hd] Hcs. unfold changed. rewrite Hcs, <-Ht, !Z.add_0_r, !u64_small by done.
  by destruct b.
Qed.

(** Replacing the first chain by one with [d] in front of its data. *)
Lemma first_chain_changed c c' d b :
  buf_ok b → bf_chains b !! 0%nat = Some c → chain_ok c' → data_of c' = d ++ data_of c →
  c_flags c' = c_flags c → Z.of_nat (length (content b) + length d) <= EV_SIZE_MAX →
  let cs := <[0%nat := c']> (bf_chains b) in
  list_ok cs (bf_lwd b) ∧ cs ≠ [] ∧ bytes_of cs = d ++ content b ∧ flags_in cs (bf_chains b) ∧
  counted (length d) (set_chain 0 c' b) = changed cs (bf_lwd b) (length d) 0 b.
Proof.
  intros Hb Hc Hc' Hd Hf Hm cs. assert (bytes_of cs = d ++ content b) as Hby by by eapply bytes_of_insert_front.
  split_and!; [|intros Hn; unfold cs in Hn; by destruct (bf_chains b)|done|by eapply flags_in_insert|].
  - eapply list_ok_insert; [apply Hb|done..|left; lia].
  - rewrite <-changed_counted; [by destruct b|done..|rewrite Hby, length_app; lia].
Qed.

Lemma prepend_to_first_ok ok data b c :
  buf_ok b → bf_chains b !! 0%nat = Some c →
  Z.of_nat (length (content b) + length data) <= EV_SIZE_MAX →
  prepend_outcome data (ok = true ∧ Z.of_nat (length data) <= EVBUFFER_CHAIN_MAX - EVBUFFER_CHAIN_SIZE ∨
      c_flags c &? EVBUFFER_IMMUTABLE = false ∧ c_off c = 0%nat ∧ (length data <= buffer_len c)%nat) b
    (prepend_to_first ok data b).
Proof.
  intros Hb Hc Hm. pose proof (bo_list _ Hb) as Hl. pose proof (list_ok_lookup _ _ _ _ Hl Hc) as Hok.
  assert (bf_chains b ≠ []) as Hne by (intros Hn; by rewrite Hn in Hc).
  unfold prepend_to_first. rewrite Hc, bind_some_eq.
  destruct (c_flags c &? EVBUFFER_IMMUTABLE) eqn:Him.
  { pose proof (prepend_rest_ok ok data (ok = true ∧ Z.of_nat (length data) <= EVBUFFER_CHAIN_MAX - EVBUFFER_CHAIN_SIZE ∨
      true = false ∧ c_off c = 0%nat ∧ (length data <= buffer_len c)%nat) 0 (bf_chains b) (bf_lwd b) b) as Hr.
    rewrite Nat.sub_0_r, take_ge, drop_ge in Hr by lia. rewrite <-set_chains_changed in Hr by done.
    replace (set_bf_chains (bf_chains b) b) with b in Hr by by destruct b.
    apply Hr; [done..|lia|done|done|done|by apply flags_in_sub|naive_solver]. }
  destruct (first_chain_ready c Hok) as (Hok1 & Hd1 & Ho1 & Hf1).
  destruct (Hok) as [Hlen Hmax].
  rewrite evassert_true by (apply Z.leb_le; destruct Hmax; [congruence|lia]). rewrite bind_some_eq.
  cbv zeta. set (c1 := if (c_off c =? 0)%nat then _ else _) in *.
  destruct (Nat.leb_spec (length data) (c_misalign c1)) as [Hfit|Hfit].
  { destruct (write_front_ok c1 data Hok1 Hfit) as (buf & -> & Hc' & Hd'). rewrite bind_some_eq.
    destruct (first_chain_changed c _ data b Hb Hc Hc') as (Hl' & _ & Hby' & Hfl' & Heq); [by rewrite Hd', Hd1|done|done|].
    unfold counted in Heq. rewrite Heq. by constructor. }
  assert (∀ P, ok = true ∧ P ∨ false = false ∧ c_off c = 0%nat ∧ (length data <= buffer_len c)%nat → ok = true ∧ P)
    as Hfits.
  { intros P [?|(_ & H0 & H1)]; [done|]. unfold c1 in Hfit. rewrite H0 in Hfit. cbn in Hfit. lia. }
  destruct (Nat.eqb_spec (c_misalign c1) 0) as [H0|H0].
  - destruct (first_chain_changed c c1 [] b Hb Hc Hok1 Hd1) as (Hl' & Hn' & Hby' & Hfl' & Heq); [done|cbn; lia|].
    pose proof (prepend_rest_ok ok data _ 0 _ _ b Hb Hm ltac:(lia) Hl' Hn' ltac:(by rewrite drop_ge by lia) Hfl' (Hfits _)) as Hr.
    rewrite Nat.sub_0_r, take_ge in Hr by lia. rewrite <-set_chains_changed in Hr by done. exact Hr.
  - set (d := drop (length data - c_misalign c1) data).
    assert (length d = c_misalign c1) as Hld by (unfold d; rewrite length_drop; lia).
    destruct (write_front_ok c1 d Hok1 ltac:(lia)) as (buf & Hw & Hc' & Hd').
    rewrite Hld, Nat.sub_diag in *. rewrite Hw, bind_some_eq.
    destruct (first_chain_changed c _ d b Hb Hc Hc') as (Hl' & Hn' & Hby' & Hfl' & Heq);
      [by rewrite Hd', Hd1|done|lia|].
    unfold counted in Heq. rewrite Hld in Heq. rewrite Heq.
    apply prepend_rest_ok; try done; [lia|]. apply Hfits.
Qed.

(** The whole of [evbuffer_prepend]. *)
Lemma evbuffer_prepend_spec m data b :
  buf_ok b →
  evbuffer_prepend m data b = Some (-1, b) ∧
    (bf_freeze_start b = true ∨ EV_SIZE_MAX < Z.of_nat (length (content b) + length data)) ∨
  bf_freeze_start b = false ∧ Z.of_nat (length (content b) + length data) <= EV_SIZE_MAX ∧
  prepend_outcome data
    ((∀ n, m n = true) ∧ Z.of_nat (length data) <= EVBUFFER_CHAIN_MAX - EVBUFFER_CHAIN_SIZE) b
    (evbuffer_prepend m data b).
Proof.
  intros Hb. unfold evbuffer_prepend. destruct (bf_freeze_start b); [auto|]. cbv zeta.
  pose proof (bo_total _ Hb) as Ht.
  destruct (Z.ltb_spec (EV_SIZE_MAX - bf_total_len b) (Z.of_nat (length data))) as [Hlt|Hge];
    [left; split; [done|right; lia]|].
  right. split; [done|]. assert (Z.of_nat (length (content b) + length data) <= EV_SIZE_MAX) as Hm by lia.
  split; [done|]. clear Hge. destruct (bf_chains b) as [|c0 cs0] eqn:Hcs.
  - destruct (evbuffer_chain_new _ _) as [c|] eqn:Hnew; cycle 1.
    { assert (b = changed (bf_chains b) (bf_lwd b) 0 0 b) as E.
      { rewrite <-set_chains_changed by done. by destruct b. }
      enough (∀ fits, ¬ fits → prepend_outcome data fits b (Some (-1, changed (bf_chains b) (bf_lwd b) 0 0 b))) as Hp.
      { rewrite <-E in Hp. apply Hp. intros [Hall Hf].
        destruct (chain_new_none _ _ Hnew) as [Hn|]; [by rewrite Hall in Hn|lia]. }
      constructor; [done|lia|apply Hb|by rewrite drop_ge by lia]. }
    apply chain_new_ok in Hnew as (Hc & Ho & Hmis & Hfl & Hlen); [|lia].
    destruct (chain_insert_ok c b) as (cs & lwd & -> & Hl & Hby & _ & Hnil & _); [apply Hb|done|].
    destruct (Hnil Hcs) as [-> ->]. rewrite bind_some_eq.
    rewrite Ho, Z.add_0_r, u64_small by (destruct Hb; lia).
    set (b1 := with_data _ _ _ _ _ _).
    assert (content b1 = content b) as Hc1.
    { change (bytes_of [c] = bytes_of (bf_chains b)). by rewrite Hcs, bytes_of_cons, (data_of_empty c Ho). }
    assert (buf_ok b1) as Hb1.
    { destruct Hb. constructor; [done|by rewrite Hc1|done..]. }
    assert (∀ cs lwd k, changed cs lwd k 0 b1 = changed cs lwd k 0 b) as Hch by by destruct b.
    pose proof (prepend_to_first_ok (m 1%nat) data b1 c Hb1 eq_refl) as Hadd.
    rewrite Hc1 in Hadd. specialize (Hadd Hm).
    inversion Hadd as [cs lwd Hl' Hby' Hfl' Heq|cs lwd k Hno Hk Hl' Hby' Heq].
    + rewrite Hc1 in Hby'. rewrite Hch. constructor; [done..|].
      rewrite Hcs. eapply flags_in_trans; [done|]. constructor; [by left|constructor].
    + destruct Hno. right. rewrite Hfl, Ho. split_and!; [done..|lia].
  - assert (bf_chains b !! 0%nat = Some c0) as Hc by by rewrite Hcs.
    destruct (prepend_to_first_ok (m 1%nat) data b c0 Hb Hc Hm) as [cs lwd Hl' Hby' Hfl'|cs lwd k Hno Hk Hl' Hby'].
    + by constructor.
    + constructor; [|done..]. intros [Hall Hf]. destruct Hno. left. by rewrite Hall.
Qed.

(** [evbuffer_prepend] on a well-formed buffer never fails an assertion nor
    writes out of a block.  When it returns 0 the data is in front of the old
    content.  When it returns -1, what is in front of the old content is a
    suffix of the data (possibly not empty: the part that fitted in the first
    chain before the allocation failed); it returns 0 when the start is not
    frozen, the length does not overflow and memory is available. *)
Theorem evbuffer_prepend_correct m data b :
  buf_ok b →
  ∃ r b', evbuffer_prepend m data b = Some (r, b') ∧ buf_ok b' ∧
    (r = 0 ∧ bf_freeze_start b = false ∧ content b' = data ++ content b ∨
     r = -1 ∧ ∃ k, content b' = drop k data ++ content b) ∧
    (bf_freeze_start b = false → Z.of_nat (length (content b) + length data) <= EV_SIZE_MAX →
     (∀ n, m n = true) → Z.of_nat (length data) <= EVBUFFER_CHAIN_MAX - EVBUFFER_CHAIN_SIZE → r = 0).
Proof.
  intros Hb.
  destruct (evbuffer_prepend_spec m data b Hb)
    as [[-> Hno]|(Hfr & Hm & [cs lwd Hl Hby Hfl|cs lwd k Hno Hk Hl Hby])].
  - eexists _, _. split_and!; [done..| |].
    + right. split; [done|]. exists (length data). by rewrite drop_ge by lia.
    + intros Hfr Hm. destruct Hno; [congruence|lia].
  - eexists _, _. split; [done|]. split_and!; [|left; rewrite content_invoke; by split_and!|done].
    apply buf_ok_invoke, buf_ok_changed; [done|]. rewrite Hby, length_app. lia.
  - eexists _, _. split; [done|]. split_and!.
    + apply buf_ok_changed; [done|]. rewrite Hby, length_app, length_drop. lia.
    + right. split; [done|]. by eexists.
    + intros _ _ ? ?. by destruct Hno.
Qed.
