(* ===== verification/BufferDrain.v ===== *)
(** * Byte buffers: removing and copying data out, and what the callbacks are told *)

From S2P Require Import Prelude BufferCore BufferInv.

(** ** [evbuffer_drain] *)

(** The loop stops in the chain that holds the first byte that stays. *)
Lemma drain_loop_ok l remaining lwd i :
  Forall chain_ok l → Forall (λ c, CHAIN_PINNED_R c = false) l →
  (remaining < length (bytes_of l))%nat → lwd = 0%nat ∨ (i <= lwd)%nat →
  ∃ k c rest rem, drop k l = c :: rest ∧ (rem < c_off c)%nat ∧
    drain_loop l remaining lwd i = Some (c :: rest, rem, (lwd - (i + k))%nat) ∧
    drop rem (data_of c) ++ bytes_of rest = drop remaining (bytes_of l).
Proof.
  revert remaining lwd i. induction l as [|c l IH]; intros remaining lwd i Hok Hp Hr Hlwd; [by inversion Hr|].
  apply Forall_cons in Hok as [Hc Hok], Hp as [Hpc Hp]. rewrite bytes_of_cons, length_app in Hr.
  pose proof (length_data_of c Hc) as Hld. cbn [drain_loop]. cbv zeta.
  destruct (Nat.leb_spec (c_off c) remaining) as [Hle|Hgt].
  - rewrite Hpc. set (lwd' := if _ || _ then 0%nat else lwd).
    assert (lwd' - S i = lwd - S i ∧ (lwd' = 0 ∨ S i <= lwd') ∧ (lwd' = 0 → lwd <= S i))%nat as (E1 & E2 & E3).
    { unfold lwd'. destruct (Nat.eqb_spec i lwd), (Nat.eqb_spec (S i) lwd); cbn; lia. }
    destruct (IH (remaining - c_off c)%nat lwd' (S i) Hok Hp) as (k & c' & rest & rem & H1 & H2 & H3 & H4);
      [lia|done|].
    exists (S k), c', rest, rem. split_and!; [done..|rewrite H3; do 2 f_equal; lia|].
    rewrite H4, bytes_of_cons, drop_app_ge by lia. by rewrite Hld.
  - exists 0%nat, c, l, remaining. split_and!; [by rewrite drop_0|done| |].
    + do 3 f_equal. case_match; rewrite ?Nat.eqb_eq, ?Nat.eqb_neq in *; lia.
    + by rewrite bytes_of_cons, drop_app_le by lia.
Qed.

(** The chain with the first byte that stays is not after [last_with_datap]. *)
Lemma drain_list_ok cs lwd k c rest rem :
  list_ok cs lwd → drop k cs = c :: rest → (rem < c_off c)%nat →
  list_ok (chain_advance rem c :: rest) (lwd - k).
Proof.
  intros [H1 H2 H3] Hk Hrem.
  assert (cs !! k = Some c) as Hc by (rewrite <-(Nat.add_0_r k), <-lookup_drop, Hk; done).
  assert (k <= lwd)%nat as Hle.
  { destruct (decide (k <= lwd)%nat) as [|Hgt]; [done|].
    assert (c_off c = 0%nat); [|lia]. apply (Forall_lookup_1 _ _ (k - S lwd) c H3).
    rewrite lookup_drop, <-Hc. f_equal. lia. }
  assert (Forall chain_ok (c :: rest)) as [Hok Hrest]%Forall_cons by (rewrite <-Hk; by apply Forall_drop).
  constructor.
  - constructor; [apply (chain_advance_ok rem c Hok); lia|done].
  - left. apply (f_equal length) in Hk. rewrite length_drop in Hk. cbn in *.
    destruct H2 as [|[-> ->]]; cbn in *; lia.
  - assert (drop (S (lwd - k)) (c :: rest) = drop (S lwd) cs) as E.
    { rewrite <-Hk, drop_drop. f_equal. lia. }
    cbn in E |- *. by rewrite E.
Qed.

(** The outcome of removing [len] bytes (all of them when [len] is larger). *)
Lemma evbuffer_drain_spec len b :
  buf_ok b → unpinned b → 0 <= len → bf_total_len b ≠ 0 → bf_freeze_start b = false →
  let n := Z.to_nat (Z.min len (bf_total_len b)) in
  ∃ cs lwd, evbuffer_drain len b = Some (0, evbuffer_invoke_callbacks_ (changed cs lwd 0 n b)) ∧
    list_ok cs lwd ∧ bytes_of cs = drop n (content b) ∧ flags_in cs (bf_chains b).
Proof.
  intros Hb Hu Hlen Ht0 Hfr n. destruct (Hb) as [Hl Ht Hmax Ha Hd]. unfold evbuffer_drain.
  cbv zeta. rewrite (proj2 (Z.eqb_neq _ _) Ht0), Hfr.
  assert (∀ cs lwd, length (bytes_of cs) = (length (content b) - n)%nat →
    add_n_del (Z.of_nat n) (set_bf_lwd lwd (set_bf_chains cs (set_bf_total_len (bf_total_len b - Z.of_nat n) b))) =
    changed cs lwd 0 n b) as Hch.
  { intros cs lwd Hcs. unfold changed, with_data, add_n_del. rewrite Hcs. cbn [bf_n_del set_bf_lwd set_bf_chains set_bf_total_len].
    rewrite Z.add_0_r, (u64_small (bf_n_add b)) by done.
    replace (bf_total_len b - Z.of_nat n) with (Z.of_nat (length (content b) - n)) by lia. by destruct b. }
  destruct (Z.leb_spec (bf_total_len b) len) as [Hall|Hpart]; cbn [andb].
  - assert (HAS_PINNED_R b = false) as ->.
    { unfold HAS_PINNED_R, bf_last. destruct (last (bf_chains b)) as [c|] eqn:Hc; [|done].
      apply last_Some_elem_of in Hc. unfold unpinned in Hu. rewrite Forall_forall in Hu. by apply Hu. }
    assert (n = length (content b)) as Hn by lia.
    exists [], 0%nat. split_and!; [|apply list_ok_nil|by rewrite Hn, drop_all|constructor].
    cbn [negb]. rewrite <-(Hch [] 0%nat) by (rewrite Hn; cbn; lia).
    rewrite Ht, Hn, Z.sub_diag. by destruct b.
  - assert (n = Z.to_nat len) as Hn by lia.
    destruct (drain_loop_ok (bf_chains b) (Z.to_nat len) (bf_lwd b) 0) as (k & c & rest & rem & H1 & H2 & H3 & H4);
      [apply Hl|done|unfold content in *; lia|lia|].
    rewrite (u64_small (bf_total_len b - len)) by lia. cbn [bf_chains bf_lwd set_bf_total_len].
    rewrite H3, bind_some_eq. cbv iota beta. rewrite evassert_true by by apply Nat.ltb_lt.
    rewrite bind_some_eq. pose proof (drain_list_ok _ _ _ _ _ _ Hl H1 H2) as Hl'.
    assert (chain_ok c) as Hc.
    { assert (Forall chain_ok (c :: rest)) as [? _]%Forall_cons by (rewrite <-H1; apply Forall_drop, Hl). done. }
    destruct (chain_advance_ok rem c Hc ltac:(lia)) as (_ & Hda & _).
    assert (bytes_of (chain_advance rem c :: rest) = drop n (content b)) as Hby.
    { by rewrite bytes_of_cons, Hda, H4, Hn. }
    eexists (chain_advance rem c :: rest), (bf_lwd b - k)%nat. split_and!; [|done|done|].
    + rewrite <-Hch by (rewrite Hby, length_drop; lia).
      replace (Z.of_nat n) with len by lia. done.
    + assert (c :: rest ⊆ bf_chains b) as Hsub.
      { rewrite <-H1. intros x Hx. rewrite <-(take_drop k (bf_chains b)). apply elem_of_app. by right. }
      apply flags_in_sub in Hsub. apply Forall_cons in Hsub as [? ?]. by constructor.
Qed.

(** Every outcome of [evbuffer_drain]. *)
Lemma evbuffer_drain_total len b :
  buf_ok b → unpinned b → 0 <= len →
  ∃ r b', evbuffer_drain len b = Some (r, b') ∧ buf_ok b' ∧ unpinned b' ∧
    (r = 0 ∧ content b' = drop (Z.to_nat (Z.min len (bf_total_len b))) (content b) ∨
     r = -1 ∧ b' = b ∧ bf_freeze_start b = true).
Proof.
  intros Hb Hu Hlen. destruct (Z.eqb_spec (bf_total_len b) 0) as [H0|H0].
  - exists 0, b. unfold evbuffer_drain. cbv zeta. rewrite H0. split_and!; [done..|]. left. split; [done|].
    replace (Z.to_nat (Z.min len 0)) with 0%nat by lia. by rewrite drop_0.
  - destruct (bf_freeze_start b) eqn:Hfr.
    + exists (-1), b. unfold evbuffer_drain. cbv zeta. rewrite (proj2 (Z.eqb_neq _ _) H0), Hfr. auto 10.
    + destruct (evbuffer_drain_spec len b) as (cs & lwd & -> & Hl & Hby & Hfl); [done..|].
      eexists _, _. split_and!; [done| | |left; by rewrite content_invoke].
      * apply buf_ok_invoke, buf_ok_changed; [done|]. rewrite Hby, length_drop. destruct Hb. lia.
      * eapply unpinned_flags_in; [done| |done]. by rewrite (proj1 (invoke_callbacks_frame _)).
Qed.

(** C11. [evbuffer_drain] on a well-formed buffer without read-pinned chains (with
    one it can fail an assertion) returns -1 and leaves the buffer untouched exactly
    if there is data and the start is frozen; otherwise it returns 0, removes exactly the
    first [len] bytes (all when there are fewer), keeps the invariant and fails no
    assertion. *)
Theorem evbuffer_drain_correct len b :
  buf_ok b → unpinned b → 0 <= len →
  ∃ r b', evbuffer_drain len b = Some (r, b') ∧ buf_ok b' ∧ unpinned b' ∧
    if bf_freeze_start b && negb (bf_total_len b =? 0) then r = -1 ∧ b' = b
    else r = 0 ∧ content b' = drop (Z.to_nat (Z.min len (bf_total_len b))) (content b).
Proof.
  intros Hb Hu Hlen. destruct (evbuffer_drain_total len b Hb Hu Hlen) as (r & b' & Heq & Hb' & Hu' & Hcase).
  exists r, b'. split_and!; [done..|]. revert Heq. unfold evbuffer_drain. cbv zeta. destruct (Z.eqb_spec (bf_total_len b) 0) as [H0|H0].
  - intros [= <- <-]. rewrite andb_false_r. destruct Hcase as [Hc|[? _]]; [exact Hc|done].
  - destruct (bf_freeze_start b); cbn [andb negb]; [by intros [= <- <-]|]. intros _. by destruct Hcase as [Hc|(_ & _ & ?)].
Qed.

(** When the last chain is pinned for reading, a loop that has to pass all the
    data ends in a pinned chain, which it has emptied. *)
Lemma drain_loop_pinned l remaining lwd i c :
  last l = Some c → CHAIN_PINNED_R c = true → (length (bytes_of l) <= remaining)%nat → Forall chain_ok l →
  drain_loop l remaining lwd i = None ∨
  ∃ c' rest rem lwd', drain_loop l remaining lwd i = Some (c' :: rest, rem, lwd') ∧ c_off c' = 0%nat.
Proof.
  revert remaining lwd i. induction l as [|c0 l IH]; intros remaining lwd i Hlast Hp Hr Hok; [done|].
  apply Forall_cons in Hok as [Hc0 Hok]. rewrite bytes_of_cons, length_app, length_data_of in Hr by done.
  cbn [drain_loop]. rewrite (proj2 (Nat.leb_le _ _)) by lia. cbv zeta.
  destruct (CHAIN_PINNED_R c0) eqn:Hp0.
  - destruct (_ - _ =? 0)%nat; [right|by left]. cbn [evassert]. rewrite bind_some_eq. by eexists _, _, _, _.
  - destruct l as [|c1 l]; [cbn in Hlast; congruence|]. apply IH; [done..|lia|done].
Qed.

(** Draining all the data of a buffer whose last chain is pinned for reading
    always fails an assertion: the pinned chain is emptied, and the check after
    the loop asks for a byte that stays in it. *)
Theorem drain_all_pinned_aborts len b :
  buf_ok b → HAS_PINNED_R b = true → bf_total_len b ≠ 0 → bf_freeze_start b = false →
  bf_total_len b <= len → evbuffer_drain len b = None.
Proof.
  intros Hb Hp H0 Hfr Hle. unfold evbuffer_drain. cbv zeta.
  rewrite (proj2 (Z.eqb_neq _ _) H0), Hfr, Hp, (proj2 (Z.leb_le _ _) Hle). cbn [negb andb].
  cbn [bf_chains bf_lwd set_bf_total_len]. unfold HAS_PINNED_R, bf_last in Hp.
  destruct (last (bf_chains b)) as [c|] eqn:Hlast; [|done]. pose proof (bo_total _ Hb) as Ht.
  destruct (drain_loop_pinned (bf_chains b) (Z.to_nat (bf_total_len b)) (bf_lwd b) 0 c Hlast Hp)
    as [->|(c' & rest & rem & lwd' & -> & Hc')];
    [unfold content in Ht; lia|apply (bo_list _ Hb)|done|].
  rewrite bind_some_eq, Hc'. by destruct rem.
Qed.

(** ** Copying out *)

Lemma copyout_loop_ok l pos n :
  Forall chain_ok l → (n <= length (drop pos (bytes_of l)))%nat →
  match l with c :: _ => (pos <= c_off c)%nat | [] => True end →
  copyout_loop l pos n = Some (take n (drop pos (bytes_of l))).
Proof.
  revert pos n. induction l as [|c l IH]; intros pos n Hok Hn Hpos; cbn [copyout_loop];
    destruct (Nat.eqb_spec n 0) as [->|Hn0]; [done| |done|].
  { change (bytes_of []) with (@nil Z) in Hn. rewrite drop_nil in Hn. cbn in Hn. lia. }
  apply Forall_cons in Hok as [Hc Hok]. pose proof (length_data_of c Hc) as Hld. cbv zeta.
  rewrite bytes_of_cons, drop_app_le in * by lia. rewrite length_app, length_drop in Hn.
  destruct (Nat.leb_spec (c_off c - pos) n) as [Hle|Hgt].
  - rewrite chain_read_part by (done || lia). rewrite bind_some_eq.
    rewrite evassert_true, bind_some_eq; cycle 1.
    { destruct l as [|c' l]; [|done]. cbn in Hn. cbn. apply Nat.eqb_eq. lia. }
    rewrite IH; [|done|rewrite drop_0; lia|by destruct l; [|lia]].
    rewrite bind_some_eq, drop_0. f_equal.
    rewrite (take_app_ge (drop pos (data_of c))) by (rewrite length_drop; lia).
    rewrite length_drop, Hld. f_equal. rewrite take_ge by (rewrite length_drop; lia). done.
  - rewrite evassert_true by (apply Nat.leb_le; lia). rewrite bind_some_eq, chain_read_part by (done || lia).
    f_equal. by rewrite take_app_le by (rewrite length_drop; lia).
Qed.

(** What [evbuffer_copyout] returns and copies. *)
Lemma evbuffer_copyout_spec n b :
  buf_ok b → 0 <= n → bf_freeze_start b = false →
  evbuffer_copyout n b = Some (Z.min n (bf_total_len b), take (Z.to_nat n) (content b)).
Proof.
  intros [Hl Ht Hm _ _] Hn Hfr. unfold evbuffer_copyout, evbuffer_copyout_from. rewrite Hfr.
  assert ((if bf_total_len b <? n then bf_total_len b else n) = Z.min n (bf_total_len b)) as ->.
  { destruct (Z.ltb_spec (bf_total_len b) n); lia. }
  destruct (Z.eqb_spec (Z.min n (bf_total_len b)) 0) as [H0|H0].
  { rewrite H0. do 2 f_equal. destruct (content b) as [|x l]; [by rewrite take_nil|].
    cbn in Ht. by replace (Z.to_nat n) with 0%nat by lia. }
  rewrite copyout_loop_ok; [|apply Hl|rewrite drop_0; unfold content in *; lia|by destruct (bf_chains b); [|lia]].
  rewrite bind_some_eq, drop_0. do 2 f_equal. unfold content in *.
  destruct (decide (n <= bf_total_len b)) as [Hle|Hgt]; [by rewrite Z.min_l|].
  rewrite !take_ge by lia. done.
Qed.

(** The bytes removed are the first ones; what stays are the others. *)
Lemma evbuffer_remove_spec n b :
  buf_ok b → unpinned b → 0 <= n → bf_freeze_start b = false →
  ∃ b', evbuffer_remove n b = Some (i32 (Z.min n (bf_total_len b)), take (Z.to_nat n) (content b), b') ∧
    buf_ok b' ∧ unpinned b' ∧ bf_freeze_start b' = false ∧ content b' = drop (Z.to_nat n) (content b).
Proof.
  intros Hb Hu Hn Hfr. unfold evbuffer_remove. fold (evbuffer_copyout n b).
  rewrite evbuffer_copyout_spec by done. rewrite bind_some_eq. pose proof (bo_total _ Hb) as Ht.
  assert (drop (Z.to_nat (Z.min n (bf_total_len b))) (content b) = drop (Z.to_nat n) (content b)) as Hdrop.
  { destruct (decide (n <= bf_total_len b)); [by rewrite Z.min_l|]. by rewrite !drop_ge by lia. }
  destruct (Z.ltb_spec 0 (Z.min n (bf_total_len b))) as [Hpos|Hz].
  - destruct (evbuffer_drain_spec (Z.min n (bf_total_len b)) b) as (cs & lwd & -> & Hl & Hby & Hfl); [done|done|lia..|done|].
    rewrite bind_some_eq. eexists. split; [done|]. rewrite Z.min_l in Hby by lia. rewrite content_invoke.
    split_and!; [|eapply unpinned_flags_in; [done| |done]; by rewrite (proj1 (invoke_callbacks_frame _))|
      by destruct (invoke_callbacks_frame (changed cs lwd 0 (Z.to_nat (Z.min (Z.min n (bf_total_len b)) (bf_total_len b))) b))
        as (_ & _ & _ & -> & _)|by rewrite <-Hdrop].
    apply buf_ok_invoke, buf_ok_changed; [done|]. rewrite Hby, length_drop. destruct Hb. lia.
  - exists b. split_and!; [done..|]. rewrite <-Hdrop. by replace (Z.to_nat _) with 0%nat by lia.
Qed.

(** C12. First in, first out: after pieces of data were added one after the other
    to an empty buffer, [evbuffer_remove] gives back their concatenation in
    chunks of any sizes: removing [n] bytes yields the first [n] of them and
    leaves the rest, and removing the rest leaves the buffer empty. *)
Theorem buffer_fifo_roundtrip m1 m2 d1 d2 b b1 b2 n :
  buf_ok b → unpinned b → content b = [] → bf_freeze_start b2 = false → 0 <= n <= Z.of_nat (length (d1 ++ d2)) →
  evbuffer_add m1 d1 b = Some (0, b1) → evbuffer_add m2 d2 b1 = Some (0, b2) →
  ∃ b3 b4, evbuffer_remove n b2 = Some (i32 n, take (Z.to_nat n) (d1 ++ d2), b3) ∧
    evbuffer_remove (bf_total_len b3) b3 =
      Some (i32 (Z.of_nat (length (d1 ++ d2)) - n), drop (Z.to_nat n) (d1 ++ d2), b4) ∧
    content b4 = [].
Proof.
  intros Hb Hu Hc Hfr Hn H1 H2.
  destruct (evbuffer_add_success _ _ _ _ Hb H1) as (Hb1 & Hc1 & Hf1 & _).
  destruct (evbuffer_add_success _ _ _ _ Hb1 H2) as (Hb2 & Hc2 & Hf2 & _).
  assert (unpinned b1) as Hu1 by by eapply unpinned_flags_in.
  assert (unpinned b2) as Hu2 by by eapply unpinned_flags_in.
  rewrite Hc1, Hc in Hc2. cbn [app] in Hc2. pose proof (bo_total _ Hb2) as Ht2. rewrite Hc2 in Ht2.
  destruct (evbuffer_remove_spec n b2) as (b3 & -> & Hb3 & Hu3 & Hfr3 & Hc3); [done..|lia|done|].
  pose proof (bo_total _ Hb3) as Ht3. rewrite Hc3, Hc2, length_drop in Ht3.
  destruct (evbuffer_remove_spec (bf_total_len b3) b3) as (b4 & Hr4 & _ & _ & _ & Hc4); [done..|lia|done|].
  exists b3, b4. rewrite Hr4, Z.min_id, Z.min_l, Hc2 by lia. split_and!; [done| |].
  - rewrite Hc3, Hc2. rewrite take_ge by (rewrite length_drop; lia).
    do 4 f_equal. lia.
  - rewrite Hc4. apply drop_ge. rewrite Hc3, Hc2, length_drop. lia.
Qed.
