(* ===== verification/BufferCallbacks.v ===== *)
(** * Byte buffers: what the callbacks are told

    The counters [n_add_for_cb] and [n_del_for_cb] record what happened since the
    callbacks ran; with the current length they give the length at that time,
    [cb_base].  Deferred callbacks see the sum of several operations. *)

From S2P Require Import Prelude BufferCore BufferInv BufferPrepend BufferDrain.

(** The length of the buffer when its counters were last reset. *)
Definition cb_base (b : evbuffer) : Z := u64 (bf_total_len b + bf_n_del b - bf_n_add b).

(** The calls of the enabled callbacks that match [mask], as the walk makes them. *)
Definition calls_for (mask val : Z) (b : evbuffer) : list cb_call :=
  call_entry (mk_cb_info (cb_base b) (bf_n_add b) (bf_n_del b)) (bf_total_len b) <$>
    filter (λ e, Z.land (e_flags e) mask = val) (bf_callbacks b).

(** An operation on one buffer. *)
Inductive buffer_op :=
  | OpAdd (m : mallocs) (d : bytes)
  | OpPrepend (m : mallocs) (d : bytes)
  | OpDrain (n : Z).

Definition run_op (op : buffer_op) (b : evbuffer) : option (Z * evbuffer) :=
  match op with
  | OpAdd m d => evbuffer_add m d b
  | OpPrepend m d => evbuffer_prepend m d b
  | OpDrain n => evbuffer_drain n b
  end.

(** The bytes it adds and those it removes when it succeeds. *)
Definition op_added (op : buffer_op) : nat :=
  match op with OpAdd _ d | OpPrepend _ d => length d | OpDrain _ => 0 end.
Definition op_deleted (op : buffer_op) (b : evbuffer) : nat :=
  match op with OpDrain n => Z.to_nat (Z.min n (bf_total_len b)) | _ => 0 end.

Definition op_content (op : buffer_op) (b : evbuffer) : bytes :=
  match op with
  | OpAdd _ d => content b ++ d
  | OpPrepend _ d => d ++ content b
  | OpDrain n => drop (op_deleted op b) (content b)
  end.

Lemma cb_base_changed cs lwd a d b :
  bf_total_len b = Z.of_nat (length (content b)) →
  (length (bytes_of cs) + d = length (content b) + a)%nat →
  cb_base (changed cs lwd a d b) = cb_base b.
Proof.
  intros Ht Hlen. unfold cb_base, changed, with_data.
  cbn [bf_total_len bf_n_del bf_n_add set_bf_n_del set_bf_n_add set_bf_total_len set_bf_lwd set_bf_chains].
  unfold wrap. rewrite Zminus_mod_idemp_r, <-Zminus_mod_idemp_l, Zplus_mod_idemp_r, Zminus_mod_idemp_l.
  f_equal. lia.
Qed.

(** A successful operation with an effect, before and after its callbacks run. *)
Lemma run_op_spec op b b' :
  buf_ok b → unpinned b → (match op with OpDrain n => 0 <= n ∧ bf_total_len b ≠ 0 | _ => True end) →
  run_op op b = Some (0, b') →
  ∃ cs lwd, b' = evbuffer_invoke_callbacks_ (changed cs lwd (op_added op) (op_deleted op b) b) ∧
    list_ok cs lwd ∧ bytes_of cs = op_content op b ∧ flags_in cs (bf_chains b) ∧
    (length (bytes_of cs) + op_deleted op b = length (content b) + op_added op)%nat ∧
    Z.of_nat (length (bytes_of cs)) <= EV_SIZE_MAX.
Proof.
  intros Hb Hu Hop Hrun. destruct op as [m d|m d|n]; cbn [run_op op_added op_deleted op_content] in *.
  - destruct (evbuffer_add_spec m d b Hb) as [[E _]|(_ & Hm & Ho)]; [congruence|].
    destruct Ho as [cs lwd Hl Hby Hfl|]; [|congruence]. injection Hrun as <-. exists cs, lwd.
    rewrite Hby, length_app. split_and!; auto; lia.
  - destruct (evbuffer_prepend_spec m d b Hb) as [[E _]|(_ & Hm & Ho)]; [congruence|].
    destruct Ho as [cs lwd Hl Hby Hfl|]; [|congruence]. injection Hrun as <-. exists cs, lwd.
    rewrite Hby, length_app. split_and!; auto; lia.
  - destruct Hop as [Hn H0]. destruct (bf_freeze_start b) eqn:Hfr.
    { unfold evbuffer_drain in Hrun. cbv zeta in Hrun. by rewrite (proj2 (Z.eqb_neq _ _) H0), Hfr in Hrun. }
    destruct (evbuffer_drain_spec n b) as (cs & lwd & E & Hl & Hby & Hfl); [done..|].
    rewrite E in Hrun. injection Hrun as <-. exists cs, lwd. rewrite Hby, length_drop.
    pose proof (bo_total _ Hb). pose proof (bo_max _ Hb). split_and!; auto; lia.
Qed.

(** Running the callbacks, in the three situations. *)
Lemma invoke_immediate b :
  bf_callbacks b ≠ [] → bf_deferred_cbs b = false →
  bf_log (evbuffer_invoke_callbacks_ b) = bf_log b ++
    (if (bf_n_add b =? 0) && (bf_n_del b =? 0) then []
     else calls_for EVBUFFER_CB_ENABLED EVBUFFER_CB_ENABLED b) ∧
  (0 = bf_n_add (evbuffer_invoke_callbacks_ b)) ∧ (0 = bf_n_del (evbuffer_invoke_callbacks_ b)).
Proof.
  intros Hne Hd. unfold evbuffer_invoke_callbacks_, evbuffer_run_callbacks, calls_for.
  destruct (bf_callbacks b) as [|e l] eqn:Hcb; [done|]. rewrite Hd. cbv zeta. rewrite Hd, Hcb. cbn [cb_mask].
  destruct (Z.eqb_spec (bf_n_add b) 0), (Z.eqb_spec (bf_n_del b) 0); cbn [andb];
    [rewrite app_nil_r; auto|split_and!; cbn; by rewrite ?Hcb..].
Qed.

Lemma invoke_deferred b :
  bf_callbacks b ≠ [] → bf_deferred_cbs b = true →
  let b' := evbuffer_invoke_callbacks_ b in
  bf_n_add b' = bf_n_add b ∧ bf_n_del b' = bf_n_del b ∧ bf_total_len b' = bf_total_len b ∧
  bf_callbacks b' = bf_callbacks b ∧ bf_deferred_cbs b' = true ∧ bf_deferred_pending b' = true ∧
  bf_lock b' = bf_lock b - (if bf_deferred_pending b then 1 else 0).
Proof.
  intros Hne Hd b'. unfold b', evbuffer_invoke_callbacks_. rewrite Hd.
  destruct (bf_callbacks b) as [|e l] eqn:Hcb; [done|].
  unfold evbuffer_run_callbacks.
  destruct (bf_deferred_pending b) eqn:Hp; cbn; rewrite ?Hd; cbn; rewrite ?Hcb;
    destruct (_ && _); cbn; rewrite ?Hcb, ?Hd, ?Hp; split_and!; auto; lia.
Qed.

Definition drain_applies (op : buffer_op) (b : evbuffer) : Prop :=
  match op with OpDrain n => 0 <= n ∧ bf_total_len b ≠ 0 | _ => True end.

(** The callbacks that run at once are told the truth: after a successful
    operation that changed something on a buffer whose counters were reset, each
    enabled callback is called once, in the order of the list, with the length
    before the operation, the numbers of bytes added and deleted by it, and
    (through the obsolete interface) the length after it; the counters are reset. *)
Theorem callbacks_told_exactly op b b' :
  buf_ok b → unpinned b → drain_applies op b → run_op op b = Some (0, b') →
  bf_callbacks b ≠ [] → bf_deferred_cbs b = false → bf_n_add b = 0 → bf_n_del b = 0 →
  (0 < op_added op + op_deleted op b)%nat → Z.of_nat (op_added op) <= EV_SIZE_MAX →
  content b' = op_content op b ∧
  bf_log b' = bf_log b ++
    (call_entry (mk_cb_info (Z.of_nat (length (content b))) (Z.of_nat (op_added op))
                   (Z.of_nat (op_deleted op b)))
       (Z.of_nat (length (content b'))) <$>
     filter (λ e, Z.land (e_flags e) EVBUFFER_CB_ENABLED = EVBUFFER_CB_ENABLED) (bf_callbacks b)) ∧
  bf_n_add b' = 0 ∧ bf_n_del b' = 0.
Proof.
  intros Hb Hu Hop Hrun Hcb Hdef Ha Hd Hpos Hmax.
  destruct (run_op_spec op b b' Hb Hu Hop Hrun) as (cs & lwd & -> & Hl & Hby & _ & Hlen & _).
  rewrite content_invoke. set (b1 := changed _ _ _ _ b).
  destruct (invoke_immediate b1 Hcb Hdef) as (-> & <- & <-).
  assert (bf_n_add b1 = Z.of_nat (op_added op)) as Ea.
  { unfold b1, changed, with_data. cbn. by rewrite Ha, Z.add_0_l, u64_small by lia. }
  assert (bf_n_del b1 = Z.of_nat (op_deleted op b)) as Ed.
  { unfold b1, changed, with_data. cbn. rewrite Hd, Z.add_0_l, u64_small; [done|].
    unfold op_deleted. destruct op; destruct Hb; lia. }
  split_and!; [done| |done..]. f_equal. unfold calls_for. rewrite Ea, Ed.
  assert (cb_base b1 = Z.of_nat (length (content b))) as ->.
  { unfold b1. rewrite cb_base_changed by (done || apply Hb). unfold cb_base.
    rewrite Ha, Hd, Z.add_0_r, Z.sub_0_r, u64_small by (destruct Hb; lia). apply Hb. }
  assert ((Z.of_nat (op_added op) =? 0) && (Z.of_nat (op_deleted op b) =? 0) = false) as ->; [|done].
  apply andb_false_iff. rewrite !Z.eqb_neq. lia.
Qed.

(** A sequence of operations, all of which succeed. *)
Fixpoint run_ops (ops : list buffer_op) (b : evbuffer) : option evbuffer :=
  match ops with
  | [] => Some b
  | op :: ops => '(r, b) ← run_op op b; if r =? 0 then run_ops ops b else None
  end.

(** The operations of a sequence, each in the state in which it runs, have an effect. *)
Fixpoint ops_apply (ops : list buffer_op) (b : evbuffer) : Prop :=
  match ops with
  | [] => True
  | op :: ops => drain_applies op b ∧
      match run_op op b with Some (_, b) => ops_apply ops b | None => False end
  end.

(** One operation on a buffer with deferred callbacks. *)
Lemma run_op_deferred op b b' :
  buf_ok b → unpinned b → drain_applies op b → run_op op b = Some (0, b') →
  bf_callbacks b ≠ [] → bf_deferred_cbs b = true →
  buf_ok b' ∧ unpinned b' ∧ content b' = op_content op b ∧
  bf_callbacks b' = bf_callbacks b ∧ bf_deferred_cbs b' = true ∧ cb_base b' = cb_base b ∧
  bf_n_add b' = u64 (bf_n_add b + Z.of_nat (op_added op)) ∧
  bf_n_del b' = u64 (bf_n_del b + Z.of_nat (op_deleted op b)) ∧
  bf_deferred_pending b' = true ∧ bf_lock b' = bf_lock b - (if bf_deferred_pending b then 1 else 0).
Proof.
  intros Hb Hu Hop Hrun Hcb Hdef.
  destruct (run_op_spec op b b' Hb Hu Hop Hrun) as (cs & lwd & -> & Hl & Hby & Hfl & Hlen & Hmax).
  rewrite content_invoke. set (b1 := changed _ _ _ _ b).
  assert (buf_ok b1) as Hb1 by by apply buf_ok_changed.
  destruct (invoke_deferred b1 Hcb Hdef) as (E1 & E2 & E3 & E4 & E5 & E6 & E7). cbv zeta in *.
  split_and!; try done.
  - by apply buf_ok_invoke.
  - eapply unpinned_flags_in; [done| |done]. by rewrite (proj1 (invoke_callbacks_frame _)).
  - rewrite <-(cb_base_changed cs lwd (op_added op) (op_deleted op b) b) by (done || apply Hb).
    unfold cb_base. by rewrite E1, E2, E3.
Qed.

(** The bytes added by a sequence of operations. *)
Fixpoint ops_added (ops : list buffer_op) : nat :=
  match ops with [] => 0 | op :: ops => op_added op + ops_added ops end.

Lemma run_ops_deferred ops b b' :
  buf_ok b → unpinned b → ops_apply ops b → run_ops ops b = Some b' →
  bf_callbacks b ≠ [] → bf_deferred_cbs b = true →
  buf_ok b' ∧ bf_callbacks b' = bf_callbacks b ∧ bf_deferred_cbs b' = true ∧ cb_base b' = cb_base b ∧
  u64 (bf_n_add b') = u64 (bf_n_add b + Z.of_nat (ops_added ops)).
Proof.
  revert b. induction ops as [|op ops IH]; intros b Hb Hu Hap Hrun Hcb Hdef; cbn in Hrun, Hap.
  - injection Hrun as <-. cbn. rewrite Z.add_0_r. auto.
  - destruct Hap as [Hop Hap]. destruct (run_op op b) as [[r b1]|] eqn:E; [|done].
    rewrite bind_some_eq in Hrun. destruct (Z.eqb_spec r 0) as [->|]; [|done].
    destruct (run_op_deferred op b b1) as (Hb1 & Hu1 & _ & Hc1 & Hd1 & Hbase & Ha & _); [done..|].
    destruct (IH b1) as (Hb' & Hc' & Hd' & Hbase' & Ha'); [done..|by rewrite Hc1|done|].
    split_and!; [done|congruence|done|congruence|].
    rewrite Ha', Ha, wrap_wrap_add by lia. f_equal. cbn. lia.
Qed.

(** Deferred callbacks see the sum of what happened: after any sequence of
    successful operations on a buffer with deferred callbacks and reset counters,
    the deferred run tells each callback that is enabled and not excluded from
    deferring the length before the whole sequence and the total of the bytes
    added by it, and resets the counters. *)
Theorem deferred_callbacks_told_sum ops b b' :
  buf_ok b → unpinned b → ops_apply ops b → run_ops ops b = Some b' →
  bf_callbacks b ≠ [] → bf_deferred_cbs b = true → bf_n_add b = 0 → bf_n_del b = 0 →
  Z.of_nat (ops_added ops) <= EV_SIZE_MAX → (0 < ops_added ops)%nat →
  let b'' := evbuffer_run_callbacks true b' in
  bf_log b'' = bf_log b' ++
    (call_entry (mk_cb_info (Z.of_nat (length (content b))) (Z.of_nat (ops_added ops)) (bf_n_del b'))
       (Z.of_nat (length (content b'))) <$>
     filter (λ e, Z.land (e_flags e) (Z.lor EVBUFFER_CB_NODEFER EVBUFFER_CB_ENABLED) = EVBUFFER_CB_ENABLED)
       (bf_callbacks b)) ∧
  bf_n_add b'' = 0 ∧ bf_n_del b'' = 0 ∧
  bf_n_del b' = u64 (Z.of_nat (length (content b) + ops_added ops) - Z.of_nat (length (content b'))).
Proof.
  intros Hb Hu Hap Hrun Hcb Hdef Ha Hd Hmax Hpos b''.
  destruct (run_ops_deferred ops b b') as (Hb' & Hc' & Hd' & Hbase & Hadd); [done..|].
  rewrite Ha, Z.add_0_l, !u64_small in Hadd by (done || lia || apply Hb').
  assert (cb_base b = Z.of_nat (length (content b))) as Hb0.
  { unfold cb_base. rewrite Ha, Hd, Z.add_0_r, Z.sub_0_r, u64_small by (destruct Hb; lia). apply Hb. }
  assert (bf_n_del b' = u64 (Z.of_nat (length (content b) + ops_added ops) - Z.of_nat (length (content b')))) as Hdel.
  { rewrite <-(bo_total _ Hb'), Nat2Z.inj_add, <-Hb0, <-Hbase, <-Hadd. unfold cb_base, wrap.
    rewrite <-Zminus_mod_idemp_l, Zplus_mod_idemp_l, Zminus_mod_idemp_l.
    replace (bf_total_len b' + bf_n_del b' - bf_n_add b' + bf_n_add b' - bf_total_len b') with (bf_n_del b') by lia.
    symmetry. by apply u64_small, Hb'. }
  unfold b'', evbuffer_run_callbacks. cbn [cb_mask].
  destruct (bf_callbacks b') as [|e l] eqn:El; [congruence|].
  rewrite (proj2 (Z.eqb_neq (bf_n_add b') 0)) by lia. cbn [andb]. cbv zeta.
  split_and!; [|done..]. cbn [bf_log set_bf_log bf_callbacks set_bf_n_del set_bf_n_add].
  fold (cb_base b'). rewrite Hbase, Hb0, Hadd, El, <-Hc', (bo_total _ Hb'). done.
Qed.

(** C37. With deferred callbacks, a second operation before the deferred callback
    has run releases the buffer's lock once more than it was taken. *)
Theorem deferred_pending_drops_lock op1 op2 b b1 b2 :
  buf_ok b → unpinned b → drain_applies op1 b → drain_applies op2 b1 →
  bf_callbacks b ≠ [] → bf_deferred_cbs b = true → bf_deferred_pending b = false →
  run_op op1 b = Some (0, b1) → run_op op2 b1 = Some (0, b2) →
  bf_lock b1 = bf_lock b ∧ bf_lock b2 = bf_lock b1 - 1.
Proof.
  intros Hb Hu Ho1 Ho2 Hcb Hdef Hp H1 H2.
  destruct (run_op_deferred op1 b b1) as (Hb1 & Hu1 & _ & Hc1 & Hd1 & _ & _ & _ & Hp1 & Hl1); [done..|].
  destruct (run_op_deferred op2 b1 b2) as (_ & _ & _ & _ & _ & _ & _ & _ & _ & Hl2); [done..|by rewrite Hc1|done|].
  rewrite Hp in Hl1. rewrite Hp1 in Hl2. lia.
Qed.
