(* ===== verification/BufferMoveProps.v ===== *)
(** * Byte buffers: moving data between buffers *)

From S2P Require Import Prelude BufferCore BufferInv BufferMove.

Lemma unpinned_last b : unpinned b → HAS_PINNED_R b = false.
Proof.
  intros Hu. unfold HAS_PINNED_R, bf_last. destruct (last (bf_chains b)) as [c|] eqn:Hc; [|done].
  apply last_Some_elem_of in Hc. unfold unpinned in Hu. rewrite Forall_forall in Hu. by apply Hu.
Qed.

Lemma content_nil_total b : buf_ok b → bf_total_len b = 0 ↔ content b = [].
Proof.
  intros [_ Ht _ _ _]. rewrite Ht. split; [|by intros ->].
  intros H. apply length_zero_iff_nil. lia.
Qed.

(** Appending a well-formed list to chains that leave a place at the end. *)
Lemma list_ok_append kept cs lwd :
  Forall chain_ok kept → list_ok cs lwd → cs ≠ [] → list_ok (kept ++ cs) (length kept + lwd).
Proof.
  intros Hk [H1 H2 H3] Hne. constructor.
  - by apply Forall_app.
  - left. rewrite length_app. destruct H2 as [|[? _]]; [lia|done].
  - by rewrite <-Nat.add_succ_r, drop_app_add.
Qed.

Lemma list_ok_prepend cs1 cs2 lwd2 :
  Forall chain_ok cs1 → list_ok cs2 lwd2 → (lwd2 < length cs2)%nat →
  list_ok (cs1 ++ cs2) (length cs1 + lwd2).
Proof. intros H1 H2 Hlt. apply list_ok_append; [done..|]. by intros ->; cbn in Hlt; lia. Qed.

(** What linking the chains of [src] to those of [dst] must give. *)
Definition links (link : evbuffer → evbuffer → option evbuffer) (join : bytes → bytes → bytes) : Prop :=
  ∀ src dst, buf_ok src → buf_ok dst → content src ≠ [] → content dst ≠ [] →
    Z.of_nat (length (content dst) + length (content src)) <= EV_SIZE_MAX →
    ∃ cs lwd, link src dst =
        Some (with_data cs lwd (Z.of_nat (length (content dst) + length (content src)))
                (bf_n_add dst) (bf_n_del dst) dst) ∧
      list_ok cs lwd ∧ bytes_of cs = join (content src) (content dst).

Lemma append_links : links APPEND_CHAIN (λ s d, d ++ s).
Proof.
  intros src dst Hs Hd Hns Hnd Hm. unfold APPEND_CHAIN.
  destruct (free_trailing_ok dst (bo_list _ Hd)) as (kept & -> & Hk1 & Hk2 & _). rewrite bind_some_eq.
  exists (kept ++ bf_chains src), (length kept + bf_lwd src)%nat. split_and!.
  - unfold add_total, with_data. cbn [bf_total_len set_bf_lwd set_bf_chains].
    rewrite (bo_total _ Hs), (bo_total _ Hd), u64_small, Nat2Z.inj_add by lia. by destruct dst.
  - apply list_ok_append; [done|apply Hs|]. intros Hn. apply Hns. unfold content. by rewrite Hn.
  - rewrite bytes_of_app, Hk2. done.
Qed.

Lemma prepend_links : links (λ src dst, Some (PREPEND_CHAIN src dst)) (λ s d, s ++ d).
Proof.
  intros src dst Hs Hd Hns Hnd Hm. unfold PREPEND_CHAIN.
  assert (bf_lwd dst < length (bf_chains dst))%nat as Hlt.
  { destruct (lo_lwd _ _ (bo_list _ Hd)) as [|[Hn _]]; [done|]. destruct Hnd. unfold content. by rewrite Hn. }
  destruct (lookup_lt_is_Some_2 _ _ Hlt) as [c ->].
  eexists _, _. split_and!.
  - unfold add_total, with_data. cbn [bf_total_len set_bf_lwd set_bf_chains].
    rewrite (bo_total _ Hs), (bo_total _ Hd), u64_small, Nat2Z.inj_add by lia. by destruct dst.
  - apply list_ok_prepend; [apply Hs|apply Hd|done].
  - by rewrite bytes_of_app.
Qed.

(** The result of moving all of [inbuf] to [outbuf]. *)
Definition moved (join : bytes → bytes → bytes) (frozen : bool) (out inb : evbuffer)
    (r : option (Z * evbuffer * evbuffer)) : Prop :=
  ∃ ret out' inb', r = Some (ret, out', inb') ∧ buf_ok out' ∧ buf_ok inb' ∧
    (ret = 0 ∧ content out' = join (content inb) (content out) ∧ content inb' = [] ∨
     ret = -1 ∧ frozen = true ∧ out' = out ∧ inb' = inb).

Lemma move_buffer_spec ok frozen link join out inb :
  links link join → join [] (content out) = content out → join (content inb) [] = content inb →
  (∀ s d, length (join s d) = length s + length d)%nat →
  buf_ok out → buf_ok inb → unpinned inb →
  Z.of_nat (length (content out) + length (content inb)) <= EV_SIZE_MAX →
  moved join frozen out inb (move_buffer ok frozen link out inb).
Proof.
  intros Hlink Hj1 Hj2 Hjl Ho Hi Hu Hm. unfold move_buffer. cbv zeta.
  destruct (Z.eqb_spec (bf_total_len inb) 0) as [H0|H0].
  { apply content_nil_total in H0; [|done]. exists 0, out, inb. split_and!; [done..|].
    left. by rewrite H0. }
  destruct frozen; [exists (-1), out, inb; by split_and!; auto|].
  unfold PRESERVE_PINNED. rewrite (unpinned_last inb Hu). cbn [negb]. rewrite bind_some_eq.
  assert (∃ cs lwd, (if bf_total_len out =? 0 then Some (COPY_CHAIN inb out) else link inb out) =
      Some (with_data cs lwd (Z.of_nat (length (content out) + length (content inb)))
             (bf_n_add out) (bf_n_del out) out) ∧
      list_ok cs lwd ∧ bytes_of cs = join (content inb) (content out)) as (cs & lwd & -> & Hl & Hby).
  { destruct (Z.eqb_spec (bf_total_len out) 0) as [H1|H1].
    - apply content_nil_total in H1; [|done]. exists (bf_chains inb), (bf_lwd inb).
      split_and!; [|apply Hi|by rewrite H1, Hj2]. unfold COPY_CHAIN.
      rewrite H1, (bo_total _ Hi). by destruct out.
    - apply Hlink; [done..| | |done]; by rewrite <-content_nil_total. }
  rewrite bind_some_eq. eexists _, _, _. split; [done|].
  assert (∀ n, buf_ok (add_n_add n (with_data cs lwd (Z.of_nat (length (content out) + length (content inb)))
             (bf_n_add out) (bf_n_del out) out))) as Hok1.
  { intros n. constructor; [done| |done|apply u64_range|apply Ho].
    change (content (add_n_add _ _)) with (bytes_of cs). rewrite Hby, Hjl, Nat.add_comm. done. }
  assert (∀ n, buf_ok (add_n_del n (RESTORE_PINNED [] inb))) as Hok2.
  { intros n. constructor; [apply list_ok_nil|done|done|apply Hi|apply u64_range]. }
  split_and!; [by apply buf_ok_invoke|by apply buf_ok_invoke|]. left. by rewrite !content_invoke.
Qed.

(** [evbuffer_add_buffer] moves everything: for two well-formed buffers (the
    source without read-pinned chains) it returns 0 with the source's content
    appended to the destination and the source empty, or -1 with both untouched
    when one of the ends is frozen. *)
Theorem evbuffer_add_buffer_correct ok out inb :
  buf_ok out → buf_ok inb → unpinned inb →
  Z.of_nat (length (content out) + length (content inb)) <= EV_SIZE_MAX →
  moved (λ s d, d ++ s) (bf_freeze_end out || bf_freeze_start inb) out inb (evbuffer_add_buffer ok out inb).
Proof.
  intros. apply move_buffer_spec; [apply append_links|by rewrite app_nil_r|done| |done..].
  intros. rewrite length_app. lia.
Qed.

(** [evbuffer_prepend_buffer] moves everything in front: for two well-formed
    buffers (the source without read-pinned chains) it returns 0 with the
    source's content before the destination's and the source empty, or -1 with
    both untouched when one of the starts is frozen. *)
Theorem evbuffer_prepend_buffer_correct ok out inb :
  buf_ok out → buf_ok inb → unpinned inb →
  Z.of_nat (length (content out) + length (content inb)) <= EV_SIZE_MAX →
  moved (λ s d, s ++ d) (bf_freeze_start out || bf_freeze_start inb) out inb
    (evbuffer_prepend_buffer ok out inb).
Proof.
  intros. apply move_buffer_spec; [apply prepend_links|done|by rewrite app_nil_r| |done..].
  intros. by rewrite length_app.
Qed.
