(* ===== verification/BufferPullup.v ===== *)
(** * Byte buffers: making data contiguous *)

From S2P Require Import Prelude BufferCore BufferInv BufferMove.

(** The chains that are pulled whole hold a prefix of the bytes. *)
Lemma pullup_loop_ok l size :
  Forall chain_ok l → (size <= length (bytes_of l))%nat →
  ∃ ds k missing, pullup_loop l size = Some (ds, k, drop k l, missing) ∧
    ds = bytes_of (take k l) ∧ (k <= length l)%nat ∧ (length ds + missing = size)%nat ∧
    match drop k l with [] => missing = 0%nat | c :: _ => (missing < c_off c)%nat end.
Proof.
  revert size. induction l as [|c l IH]; intros size Hok Hs.
  { cbn in Hs. exists [], 0%nat, size. cbn. split_and!; auto; lia. }
  apply Forall_cons in Hok as [Hc Hok]. pose proof (length_data_of c Hc) as Hld.
  rewrite bytes_of_cons, length_app in Hs. cbn [pullup_loop].
  destruct (Nat.leb_spec (c_off c) size) as [Hle|Hgt].
  - rewrite chain_read, bind_some_eq by done.
    destruct (IH (size - c_off c)%nat) as (ds & k & missing & -> & -> & Hk & Hm & Hn); [done|lia|].
    rewrite bind_some_eq. exists (data_of c ++ bytes_of (take k l)), (S k), missing.
    split_and!; [done|by rewrite firstn_cons, bytes_of_cons|cbn; lia|rewrite length_app; lia|done].
  - exists [], 0%nat, size. rewrite drop_0. split_and!; [done..|lia|done|done].
Qed.

(** A list whose head takes the bytes of the first [i + k] chains. *)
Lemma pullup_list_ok cs lwd n c c' rest :
  list_ok cs lwd → chain_ok c' → drop n cs = c :: rest → (0 < c_off c)%nat →
  ∀ c1, chain_ok c1 → list_ok (c' :: c1 :: rest) (S lwd - n).
Proof.
  intros [H1 H2 H3] Hc' Hn Hc c1 Hc1.
  assert (cs !! n = Some c) as Hlk by (rewrite <-(Nat.add_0_r n), <-lookup_drop, Hn; done).
  assert (n <= lwd)%nat as Hle.
  { destruct (decide (n <= lwd)%nat) as [|Hgt]; [done|].
    assert (c_off c = 0%nat); [|lia]. apply (Forall_lookup_1 _ _ (n - S lwd) c H3).
    rewrite lookup_drop, <-Hlk. f_equal. lia. }
  assert (Forall chain_ok (c :: rest)) as [_ Hrest]%Forall_cons by (rewrite <-Hn; by apply Forall_drop).
  constructor.
  - constructor; [done|]. by constructor.
  - left. apply (f_equal length) in Hn. rewrite length_drop in Hn. cbn in *.
    destruct H2 as [|[-> ->]]; cbn in *; lia.
  - assert (drop (S (S lwd - n)) (c' :: c :: rest) = drop (S lwd) cs) as E.
    { rewrite <-Hn. replace (S lwd - n)%nat with (S (lwd - n)) by lia. cbn. rewrite drop_drop. f_equal. lia. }
    replace (S lwd - n)%nat with (S (lwd - n)) in * by lia. cbn in E |- *. by rewrite E.
Qed.

(** The new index of [last_with_datap]. *)
Lemma pullup_lwd_ok cs lwd' lwd c' rest' i k missing size :
  list_ok cs lwd → chain_ok c' → (i <= 1)%nat → (k <= length (drop i cs))%nat → cs ≠ [] →
  (length (bytes_of (take k (drop i cs))) + missing = size)%nat →
  (i = 0%nat → ∃ c, cs !! 0%nat = Some c ∧ (c_off c <= size)%nat) →
  match drop k (drop i cs) with [] => missing = 0%nat | c :: _ => (missing < c_off c)%nat end →
  match drop k (drop i cs) with [] => rest' = []
  | c :: rest => rest' = chain_advance missing c :: rest ∧ chain_ok c end →
  lwd' = (if (i <=? lwd)%nat && (lwd <? i + k)%nat then 0%nat
          else if (i <? lwd)%nat && (lwd <=? i + k)%nat then
            match rest' with c :: _ => if (c_off c =? 0)%nat then 0%nat else 1%nat | [] => 0%nat end
          else if (lwd =? 0)%nat then 0%nat else (S lwd - (i + k))%nat) →
  list_ok (c' :: rest') lwd'.
Proof.
  intros Hl Hc' Hi Hk Hne Hlen Hfirst Hm Hr ->. rewrite drop_drop in *.
  rewrite length_drop in Hk. destruct (drop (i + k) cs) as [|c rest] eqn:Hdrop.
  - subst rest'. assert (length cs <= i + k)%nat as Hge.
    { apply (f_equal length) in Hdrop. rewrite length_drop in Hdrop. cbn in Hdrop. lia. }
    assert (lwd < length cs)%nat by (destruct (lo_lwd _ _ Hl) as [|[? _]]; [lia|done]).
    replace (if _ && _ then _ else _) with 0%nat; [constructor; [by constructor|cbn; lia|constructor]|].
    destruct (Nat.leb_spec i lwd), (Nat.ltb_spec lwd (i + k)), (Nat.ltb_spec i lwd),
      (Nat.leb_spec lwd (i + k)), (Nat.eqb_spec lwd 0); cbn; lia.
  - destruct Hr as [-> Hc]. destruct (chain_advance_ok missing c Hc) as (Hc1 & _ & Ho); [lia|].
    pose proof (pullup_list_ok cs lwd (i + k) c c' rest Hl Hc' Hdrop ltac:(lia) _ Hc1) as Hgoal.
    assert (i + k <= lwd)%nat as Hle.
    { destruct (decide (i + k <= lwd)%nat) as [|Hgt]; [done|].
      assert (cs !! (i + k)%nat = Some c) as Hlk by (rewrite <-(Nat.add_0_r (i + k)), <-lookup_drop, Hdrop; done).
      assert (c_off c = 0%nat); [|lia]. apply (Forall_lookup_1 _ _ (i + k - S lwd) c (lo_after _ _ Hl)).
      rewrite lookup_drop, <-Hlk. f_equal. lia. }
    assert (i = 0 → k ≠ 0)%nat as Hk0.
    { intros -> ->. destruct (Hfirst eq_refl) as (c0 & Hc0 & Hoff). destruct cs as [|c1 cs]; [done|].
      cbn in Hdrop, Hc0. injection Hdrop as -> ->. injection Hc0 as ->.
      cbn in Hlen. lia. }
    replace (if _ && _ then _ else _) with (S lwd - (i + k))%nat; [done|]. rewrite Ho.
    destruct (Nat.leb_spec i lwd), (Nat.ltb_spec lwd (i + k)), (Nat.ltb_spec i lwd),
      (Nat.leb_spec lwd (i + k)), (Nat.eqb_spec lwd 0), (Nat.eqb_spec (c_off c - missing) 0); cbn; lia.
Qed.

(** Other chains with the same flags; everything but the data is as it was. *)
Definition same_rest (b b' : evbuffer) : Prop :=
  flags_in (bf_chains b') (bf_chains b) ∧
  bf_freeze_start b' = bf_freeze_start b ∧ bf_freeze_end b' = bf_freeze_end b.

(** Copying to [tmp], whose first [at_] bytes of data are those of the first [i] chains. *)
Lemma pullup_into_ok tmp at_ size i b :
  buf_ok b → (i <= 1)%nat → (i <= length (bf_chains b))%nat →
  (0 < size)%nat → (c_misalign tmp <= at_)%nat →
  (at_ + size <= buffer_len tmp)%nat →
  (c_flags tmp &? EVBUFFER_IMMUTABLE = true ∨ Z.of_nat (buffer_len tmp) <= EVBUFFER_CHAIN_MAX) →
  c_off tmp = (at_ - c_misalign tmp + size)%nat →
  take (at_ - c_misalign tmp) (drop (c_misalign tmp) (c_buffer tmp)) = bytes_of (take i (bf_chains b)) →
  (size <= length (bytes_of (drop i (bf_chains b))))%nat →
  (i = 0%nat → ∃ c, bf_chains b !! 0%nat = Some c ∧ (c_off c <= size)%nat) →
  (c_flags tmp = 0 ∨ c_flags tmp ∈ (c_flags <$> bf_chains b)) →
  ∃ b', pullup_into tmp at_ size (drop i (bf_chains b)) i b = Some b' ∧ buf_ok b' ∧ content b' = content b ∧
    same_rest b b' ∧
    ∃ c, bf_chains b' !! 0%nat = Some c ∧ c_off c = c_off tmp ∧ chain_ok c.
Proof.
  intros Hb Hi Hil Hsz Hmis Hat Hfl Hoff Hpre Hbytes Hfirst Hftmp. destruct (Hb) as [Hl Ht Hmax Ha Hd].
  set (cs := bf_chains b) in *. set (l := drop i cs) in *.
  unfold pullup_into.
  destruct (pullup_loop_ok l size) as (ds & k & missing & -> & Hds & Hk & Hlen & Hmiss);
    [by apply Forall_drop, Hl|done|]. rewrite bind_some_eq.
  (* the part of the next chain, and the rest of the list *)
  assert (∃ d rest', match drop k l with [] => Some ([], []) | c :: rest =>
      d ← mread (c_misalign c) missing (c_buffer c); Some (d, chain_advance missing c :: rest) end = Some (d, rest') ∧
      length d = missing ∧ d ++ bytes_of rest' = bytes_of (drop k l) ∧
      match drop k l with [] => rest' = [] | c :: rest => rest' = chain_advance missing c :: rest ∧ chain_ok c end)
    as (d & rest' & -> & Hd1 & Hd2 & Hd3).
  { destruct (drop k l) as [|c rest] eqn:Hdrop.
    - exists [], []. by rewrite Hmiss.
    - assert (Forall chain_ok (c :: rest)) as [Hc _]%Forall_cons by (rewrite <-Hdrop; by apply Forall_drop, Forall_drop, Hl).
      pose proof (chain_read_part c 0 missing Hc ltac:(lia)) as Hr. rewrite Nat.add_0_r, drop_0 in Hr. rewrite Hr, bind_some_eq.
      eexists _, _. split_and!; [done|rewrite length_take, length_data_of by done; lia| |done|done].
      rewrite !bytes_of_cons. destruct (chain_advance_ok missing c Hc ltac:(lia)) as (_ & -> & _).
      by rewrite app_assoc, take_drop. }
  rewrite bind_some_eq. unfold buffer_len in *.
  rewrite memcpy_at_ok by (rewrite length_app; lia). rewrite bind_some_eq. cbv zeta.
  set (buf := take at_ _ ++ _). set (c' := set_c_buffer buf tmp).
  assert (length buf = length (c_buffer tmp)) as Hbl by (apply length_memcpy; rewrite length_app; lia).
  assert (chain_ok c') as Hc'.
  { unfold chain_ok, c', buffer_len. cbn. rewrite Hbl, Hoff. split; [lia|done]. }
  assert (data_of c' = bytes_of (take i cs) ++ ds ++ d) as Hdata.
  { unfold data_of, c', buf. cbn. rewrite Hoff.
    replace at_ with (c_misalign tmp + (at_ - c_misalign tmp))%nat at 2 3 by lia.
    replace (at_ - c_misalign tmp + size)%nat with (at_ - c_misalign tmp + length (ds ++ d))%nat
      by (rewrite length_app; lia).
    rewrite take_drop_memcpy_before by (rewrite length_app; lia). by rewrite Hpre. }
  assert (bytes_of (c' :: rest') = content b) as Hby.
  { rewrite bytes_of_cons, Hdata, <-!app_assoc, Hd2, Hds, <-bytes_of_app, take_drop, <-bytes_of_app.
    unfold l. by rewrite take_drop. }
  set (lwd' := if _ && _ then 0%nat else _).
  exists (set_bf_lwd lwd' (set_bf_chains (c' :: rest') b)). split; [done|].
  split_and!; [|done| |by exists c'].
  2: { split; [|done]. cbn [bf_chains set_bf_lwd set_bf_chains]. constructor; [done|].
       assert (flags_in (drop k l) cs) as Hfin.
       { apply flags_in_sub. intros x Hx. rewrite <-(take_drop i cs). apply elem_of_app. right.
         rewrite <-(take_drop k (drop i cs)). apply elem_of_app. by right. }
       destruct (drop k l) as [|c rest]; [subst rest'; constructor|]. destruct Hd3 as [-> _].
       apply Forall_cons in Hfin as [? ?]. by constructor. }
  constructor; cbn [bf_chains bf_lwd set_bf_lwd set_bf_chains bf_total_len bf_n_add bf_n_del]; [|by rewrite <-Hby in Ht|done..].
  apply (pullup_lwd_ok cs lwd' (bf_lwd b) c' rest' i k missing size); try done.
  - intros Hn. unfold l in Hbytes. rewrite Hn, drop_nil in Hbytes. cbn in Hbytes. lia.
  - by subst ds.
Qed.

(** A buffer that is left alone, or the first [size] bytes made contiguous. *)
Definition pulled_up (size : nat) (b : evbuffer) (r : option bytes) (b' : evbuffer) : Prop :=
  r = None ∧ b' = b ∨
  r = Some (take size (content b)) ∧ buf_ok b' ∧ content b' = content b ∧ same_rest b b' ∧
    ∃ c, bf_chains b' !! 0%nat = Some c ∧ (size <= c_off c)%nat.

Lemma first_bytes cs c n :
  cs !! 0%nat = Some c → chain_ok c → (n <= c_off c)%nat → take n (data_of c) = take n (bytes_of cs).
Proof.
  destruct cs as [|c0 cs]; [done|]. intros [= ->] Hc Hn.
  by rewrite bytes_of_cons, take_app_le by (rewrite length_data_of; done).
Qed.

Lemma pullup_pinned_none l n : Forall (λ c, CHAIN_PINNED c = false) l → pullup_pinned l n = false.
Proof.
  intros H. revert n. induction H as [|c l Hc Hl IH]; intros n; cbn; [done|]. rewrite Hc. by case_match.
Qed.

(** Pulling up into the first chain, after its data, or into a fresh chain. *)
Lemma pullup_into_first c n b :
  buf_ok b → bf_chains b !! 0%nat = Some c → (c_off c < n)%nat → (n <= length (content b))%nat →
  (c_misalign c + n <= buffer_len c)%nat →
  ∃ b', pullup_into (set_c_off n c) (c_misalign c + c_off c) (n - c_off c) (drop 1 (bf_chains b)) 1 b = Some b' ∧
    buf_ok b' ∧ content b' = content b ∧ same_rest b b' ∧ ∃ c', bf_chains b' !! 0%nat = Some c' ∧ c_off c' = n ∧ chain_ok c'.
Proof.
  intros Hb Hc Hoff Hn Hroom. pose proof (list_ok_lookup _ _ _ _ (bo_list _ Hb) Hc) as Hok.
  pose proof (length_data_of c Hok) as Hld. pose proof (lookup_lt_Some _ _ _ Hc) as Hlen.
  destruct (bf_chains b) as [|c0 l] eqn:Hcs; [done|]. injection Hc as ->.
  unfold content in Hn. rewrite Hcs, bytes_of_cons, length_app in Hn. rewrite <-Hcs in *.
  apply pullup_into_ok; cbn [c_misalign c_off c_buffer c_flags set_c_off buffer_len];
    try (done || lia); try (rewrite Hcs; cbn; lia); try (unfold buffer_len; cbn; unfold buffer_len in *; lia).
  - apply Hok.
  - rewrite Hcs. cbn [take firstn]. unfold bytes_of. cbn. rewrite app_nil_r. unfold data_of. do 2 f_equal. lia.
  - rewrite Hcs. change (drop 1 (c :: l)) with l. lia.
  - right. rewrite Hcs. by left.
Qed.

Lemma pullup_into_new ok c tmp n b :
  buf_ok b → bf_chains b !! 0%nat = Some c → (c_off c < n)%nat → (n <= length (content b))%nat →
  evbuffer_chain_new ok (Z.of_nat n) = Some tmp →
  ∃ b', pullup_into (set_c_off n tmp) 0 n (bf_chains b) 0 b = Some b' ∧
    buf_ok b' ∧ content b' = content b ∧ same_rest b b' ∧ ∃ c', bf_chains b' !! 0%nat = Some c' ∧ c_off c' = n ∧ chain_ok c'.
Proof.
  intros Hb Hc Hoff Hn Hnew. apply chain_new_ok in Hnew as ([_ Hmx] & Ho & Hmis & Hfl & Hlen); [|lia].
  change (bf_chains b) with (drop 0 (bf_chains b)) at 1.
  apply pullup_into_ok; cbn [c_misalign c_off c_buffer c_flags set_c_off buffer_len]; rewrite ?Hmis;
    try (done || lia).
  - change (buffer_len (set_c_off n tmp)) with (buffer_len tmp). lia.
  - intros _. exists c. split; [done|lia].
Qed.

(** Every outcome of [evbuffer_pullup]. *)
Lemma evbuffer_pullup_spec ok size b :
  buf_ok b → bf_total_len b <= EV_SSIZE_MAX → size <= EV_SSIZE_MAX →
  let n := Z.to_nat (if size <? 0 then bf_total_len b else size) in
  ∃ r b', evbuffer_pullup ok size b = Some (r, b') ∧ pulled_up n b r b' ∧
    (n ≠ 0%nat → (n <= length (content b))%nat →
     Forall (λ c, CHAIN_PINNED c = false) (bf_chains b) → ok = true →
     Z.of_nat n <= EVBUFFER_CHAIN_MAX - EVBUFFER_CHAIN_SIZE → r ≠ None).
Proof.
  intros Hb Hmax Hsz n. destruct (Hb) as [Hl Ht _ _ _]. unfold evbuffer_pullup.
  assert ((if size <? 0 then i64 (bf_total_len b) else size) = Z.of_nat n) as ->.
  { unfold n. destruct (Z.ltb_spec size 0); [|lia]. unfold swrap. rewrite Z.mod_small; lia. }
  rewrite (u64_small (Z.of_nat n)) by (unfold n; destruct (Z.ltb_spec size 0); lia).
  destruct (Z.eqb_spec (Z.of_nat n) 0) as [H0|H0]; cbn [orb].
  { exists None, b. split_and!; [done|by left|lia]. }
  destruct (Z.ltb_spec (bf_total_len b) (Z.of_nat n)) as [Hlt|Hge].
  { exists None, b. split_and!; [done|by left|lia]. }
  rewrite Nat2Z.id. destruct (bf_chains b) as [|c l] eqn:Hcs.
  { unfold content in Ht. rewrite Hcs in Ht. cbn in Ht. lia. }
  assert (bf_chains b !! 0%nat = Some c) as Hc by by rewrite Hcs.
  pose proof (list_ok_lookup _ _ _ _ (bo_list _ Hb) Hc) as Hok.
  destruct (Nat.leb_spec n (c_off c)) as [Hle|Hgt].
  { eexists _, _. split_and!; [done| |done]. right. rewrite (first_bytes (bf_chains b)) by done.
    split_and!; [done..| |by exists c]. split; [by apply flags_in_sub|done]. }
  destruct (pullup_pinned l (n - c_off c)) eqn:Hpin.
  { exists None, b. split_and!; [done|by left|]. intros _ _ Hall _ _.
    apply Forall_cons in Hall as [_ Hall]. by rewrite pullup_pinned_none in Hpin. }
  (* what is left to do once a way was found *)
  assert (∀ b', buf_ok b' ∧ content b' = content b ∧ same_rest b b' ∧ (∃ c', bf_chains b' !! 0%nat = Some c' ∧ c_off c' = n ∧ chain_ok c') →
    ∃ r b'', (c ← bf_chains b' !! 0%nat; Some (Some (take n (data_of c)), b')) = Some (r, b'') ∧
      pulled_up n b r b'' ∧ r ≠ None) as Hfin.
  { intros b' (Hb' & Hc' & Hsr & c' & Hlk & Ho' & Hok'). rewrite Hlk, bind_some_eq. eexists _, _. split_and!; [done| |done].
    right. rewrite (first_bytes (bf_chains b')) by (done || lia). fold (content b'). rewrite Hc'.
    split_and!; [done..|]. exists c'. split; [done|lia]. }
  destruct (CHAIN_PINNED c) eqn:Hcp; [|destruct (Nat.leb_spec n (buffer_len c - c_misalign c)) as [Hfit|Hfit]].
  - unfold CHAIN_SPACE_PTR. destruct (Nat.ltb_spec (CHAIN_SPACE_LEN c) (n - c_off c)) as [Hs|Hs].
    { rewrite bind_some_eq. exists None, b. split_and!; [done|by left|]. intros _ _ Hall.
      apply Forall_cons in Hall as [? _]. congruence. }
    destruct (pullup_into_first c n b) as (b' & Heq & Hb'); [done..|lia|lia| |].
    { unfold CHAIN_SPACE_LEN in Hs. destruct (c_flags c &? EVBUFFER_IMMUTABLE); [lia|]. destruct Hok. lia. }
    rewrite Hcs in Heq. change (drop 1 (c :: l)) with l in Heq. rewrite Heq, !bind_some_eq. destruct (Hfin b' Hb') as (r & b'' & ? & ? & ?). eauto 10.
  - destruct (pullup_into_first c n b) as (b' & Heq & Hb'); [done..|lia|lia|lia|].
    rewrite Hcs in Heq. change (drop 1 (c :: l)) with l in Heq. rewrite Heq, !bind_some_eq. destruct (Hfin b' Hb') as (r & b'' & ? & ? & ?). eauto 10.
  - destruct (evbuffer_chain_new ok (Z.of_nat n)) as [tmp|] eqn:Hnew.
    + destruct (pullup_into_new ok c tmp n b) as (b' & Heq & Hb'); [done..|lia|lia|done|].
      rewrite Hcs in Heq. rewrite Heq, !bind_some_eq. destruct (Hfin b' Hb') as (r & b'' & ? & ? & ?). eauto 10.
    + rewrite bind_some_eq. exists None, b. split_and!; [done|by left|]. intros _ _ _ Hok' Hf.
      destruct (chain_new_none _ _ Hnew); [congruence|lia].
Qed.

(** C13. [evbuffer_pullup] makes the first [size] bytes (all of them when [size] is
    negative) contiguous: on a well-formed buffer it fails no assertion and
    copies within bounds; either it returns NULL and leaves the buffer alone, or
    the first chain holds [size] bytes at least, what is returned are the first
    [size] bytes of the content, and the content is unchanged.  It returns NULL
    only for no bytes or more than there are, for pinned chains, or when the new
    chain cannot be allocated. *)
Theorem evbuffer_pullup_correct ok size b :
  buf_ok b → bf_total_len b <= EV_SSIZE_MAX → size <= EV_SSIZE_MAX →
  let n := Z.to_nat (if size <? 0 then bf_total_len b else size) in
  ∃ r b', evbuffer_pullup ok size b = Some (r, b') ∧ pulled_up n b r b' ∧
    (n ≠ 0%nat → (n <= length (content b))%nat →
     Forall (λ c, CHAIN_PINNED c = false) (bf_chains b) → ok = true →
     Z.of_nat n <= EVBUFFER_CHAIN_MAX - EVBUFFER_CHAIN_SIZE → r ≠ None).
Proof. apply evbuffer_pullup_spec. Qed.
