(* ===== verification/BufferSearchProps.v ===== *)
(** * Byte buffers: searching and reading lines are what they are on the content *)

From S2P Require Import Prelude BufferCore BufferInv BufferMove BufferSearch BufferDrain.

(** ** C's byte functions *)

Lemma memchr_some d c k :
  memchr d c = Some k → d !! k = Some c ∧ ∀ j, (j < k)%nat → d !! j ≠ Some c.
Proof.
  revert k. induction d as [|x d IH]; intros k; cbn; [done|].
  destruct (Z.eqb_spec x c) as [->|Hne]; [intros [= <-]; split; [done|lia]|].
  destruct (memchr d c) as [k'|]; [|done]. intros [= <-]. destruct (IH k' eq_refl) as [H1 H2].
  split; [done|]. intros [|j] Hj; cbn; [congruence|]. apply H2. lia.
Qed.

Lemma memchr_none d c : memchr d c = None → ∀ j, d !! j ≠ Some c.
Proof.
  induction d as [|x d IH]; cbn; [done|].
  destruct (Z.eqb_spec x c) as [->|Hne]; [done|]. destruct (memchr d c); [done|].
  intros _ [|j]; cbn; [congruence|]. by apply IH.
Qed.

Lemma memcmp_zero a b : length a = length b → memcmp a b = 0 ↔ a = b.
Proof.
  revert b. induction a as [|x a IH]; intros [|y b] Hl; cbn; try done.
  destruct (Z.eqb_spec x y) as [->|Hne].
  - rewrite IH by (cbn in Hl; lia). split; congruence.
  - destruct (x <? y); split; (done || congruence).
Qed.

(** ** Positions *)

Definition offset_of (b : evbuffer) (i : nat) : nat := length (bytes_of (take i (bf_chains b))).

(** The position designates the byte number [p_pos] of the content, or its end. *)
Definition ptr_ok (b : evbuffer) (p : evbuffer_ptr) : Prop :=
  match p_chain p with
  | Some i => ∃ c, bf_chains b !! i = Some c ∧ (p_pos_in_chain p <= c_off c)%nat ∧
      p_pos p = Z.of_nat (offset_of b i + p_pos_in_chain p)
  | None => p_pos p = Z.of_nat (length (content b))
  end.

(** [what] is in [s] at byte [j]. *)
Definition occurs (what s : bytes) (j : nat) : Prop := take (length what) (drop j s) = what.

Lemma content_split b i c :
  bf_chains b !! i = Some c →
  content b = bytes_of (take i (bf_chains b)) ++ data_of c ++ bytes_of (drop (S i) (bf_chains b)).
Proof.
  intros Hc. unfold content. rewrite <-(take_drop_middle _ _ _ Hc) at 1.
  by rewrite bytes_of_app, bytes_of_cons.
Qed.

Lemma drop_content b i c k :
  buf_ok b → bf_chains b !! i = Some c → (k <= c_off c)%nat →
  drop (offset_of b i + k) (content b) = drop k (data_of c) ++ bytes_of (drop (S i) (bf_chains b)).
Proof.
  intros Hb Hc Hk. rewrite (content_split b i c Hc). unfold offset_of. rewrite drop_app_add.
  apply drop_app_le. rewrite length_data_of; [done|]. by eapply list_ok_lookup; [apply Hb|].
Qed.

Lemma drop_content_chains b i k :
  buf_ok b → (i < length (bf_chains b))%nat →
  drop (offset_of b i + k) (content b) = drop k (bytes_of (drop i (bf_chains b))).
Proof.
  intros _ _. unfold content. rewrite <-(take_drop i (bf_chains b)) at 1.
  rewrite bytes_of_app. apply drop_app_add.
Qed.

Lemma offset_next b i c :
  buf_ok b → bf_chains b !! i = Some c → offset_of b (S i) = (offset_of b i + c_off c)%nat.
Proof.
  intros Hb Hc. unfold offset_of. rewrite (take_S_r _ _ c) by done.
  rewrite bytes_of_app, length_app, bytes_of_cons, app_nil_r, length_data_of; [done|].
  by eapply list_ok_lookup; [apply Hb|].
Qed.

Lemma offset_le b i : (offset_of b i <= length (content b))%nat.
Proof.
  unfold offset_of, content. rewrite <-(take_drop i (bf_chains b)) at 2.
  rewrite bytes_of_app, length_app. lia.
Qed.

(** Going to the next chain. *)
Lemma ptr_ok_next b i c :
  buf_ok b → bf_chains b !! i = Some c →
  ptr_ok b (mk_ptr (Z.of_nat (offset_of b i + c_off c)) (next_chain b i) 0).
Proof.
  intros Hb Hc. unfold ptr_ok, next_chain. cbn [p_chain p_pos p_pos_in_chain]. rewrite <-(offset_next b i c Hb Hc).
  destruct (Nat.ltb_spec (S i) (length (bf_chains b))) as [Hlt|Hge].
  - destruct (lookup_lt_is_Some_2 _ _ Hlt) as [c' Hc']. exists c'. rewrite Nat.add_0_r. split_and!; [done|lia|done].
  - unfold offset_of, content. by rewrite take_ge by lia.
Qed.

Lemma ptr_ok_first b : buf_ok b → ptr_ok b (mk_ptr 0 (first_chain b) 0).
Proof.
  intros Hb. unfold ptr_ok, first_chain. cbn. destruct (bf_chains b) as [|c l] eqn:E.
  - unfold content. by rewrite E.
  - exists c. cbn. split_and!; [done|lia|done].
Qed.

(** ** Comparing at a position *)

Lemma memcmp_loop_ok l position mem :
  Forall chain_ok l → (length mem <= length (drop position (bytes_of l)))%nat →
  match l with c :: _ => (position <= c_off c)%nat | [] => True end →
  ∃ r, memcmp_loop l position mem = Some r ∧
    (r = 0 ↔ take (length mem) (drop position (bytes_of l)) = mem).
Proof.
  revert position mem. induction l as [|c l IH]; intros position mem Hok Hlen Hpos; cbn [memcmp_loop].
  { exists 0. split; [done|]. change (bytes_of []) with (@nil Z) in *. rewrite drop_nil in *.
    destruct mem; [done|cbn in Hlen; lia]. }
  apply Forall_cons in Hok as [Hc Hok]. pose proof (length_data_of c Hc) as Hld.
  destruct (Nat.eqb_spec (length mem) 0) as [H0|H0].
  { exists 0. split; [done|]. destruct mem; [done|cbn in H0; lia]. }
  rewrite bytes_of_cons, drop_app_le in * by lia. rewrite length_app, length_drop in Hlen.
  cbv zeta. set (n := if (c_off c <? _)%nat then _ else _).
  assert (n = (length mem `min` (c_off c - position)))%nat as ->.
  { unfold n. destruct (Nat.ltb_spec (c_off c) (length mem + position)); lia. }
  set (n := (length mem `min` (c_off c - position))%nat).
  rewrite chain_read_part by (done || lia). rewrite bind_some_eq.
  assert (take (length mem) (drop position (data_of c) ++ bytes_of l) =
    take n (drop position (data_of c)) ++ take (length mem - n) (bytes_of l)) as ->.
  { rewrite take_app, length_drop, Hld. destruct (decide (length mem <= c_off c - position)%nat).
    - replace n with (length mem) by lia. f_equal. replace (length mem - _)%nat with 0%nat by lia.
      by replace (length mem - length mem)%nat with 0%nat by lia.
    - replace n with (c_off c - position)%nat by lia. by rewrite !(take_ge (drop position _)) by (rewrite length_drop; lia). }
  destruct (Z.eqb_spec (memcmp (take n (drop position (data_of c))) (take n mem)) 0) as [Heq|Hne].
  - rewrite memcmp_zero in Heq by (rewrite !length_take, length_drop; lia).
    destruct (IH 0%nat (drop n mem) Hok) as (r & -> & Hr);
      [rewrite drop_0, length_drop; lia|by destruct l; [|lia]|].
    exists r. split; [done|]. rewrite Hr, Heq, length_drop, drop_0.
    transitivity (take n mem ++ take (length mem - n) (bytes_of l) = take n mem ++ drop n mem);
      [|by rewrite take_drop]. split; [by intros ->|]. intros H. by apply app_inv_head in H.
  - eexists. split; [done|]. split; [done|]. intros H. destruct Hne.
    apply memcmp_zero; [rewrite !length_take, length_drop; lia|].
    apply (f_equal (take n)) in H. rewrite take_app_length' in H; [done|].
    rewrite length_take, length_drop. lia.
Qed.

Lemma ptr_memcmp_ok b p what :
  buf_ok b → ptr_ok b p → is_Some (p_chain p) → Z.of_nat (length what) <= EV_SSIZE_MAX →
  what ≠ [] →
  ∃ r, evbuffer_ptr_memcmp p what b = Some r ∧ (r = 0 ↔ occurs what (content b) (Z.to_nat (p_pos p))).
Proof.
  intros Hb Hp [i Hi] Hlen Hne. unfold ptr_ok in Hp. rewrite Hi in Hp. destruct Hp as (c & Hc & Hk & Hpos).
  unfold evbuffer_ptr_memcmp. rewrite Hi. cbv zeta. destruct (Hb) as [Hl Ht Hm _ _].
  pose proof (lookup_lt_Some _ _ _ Hc) as Hlt.
  assert (offset_of b i + c_off c <= length (content b))%nat as Hbound.
  { rewrite <-(offset_next b i c Hb Hc). apply offset_le. }
  destruct (Z.ltb_spec (p_pos p) 0); [lia|]. cbn [orb].
  destruct (Z.ltb_spec (bf_total_len b) (p_pos p + Z.of_nat (length what))) as [Hover|Hin].
  - rewrite orb_true_r. exists (-1). split; [done|]. split; [done|]. unfold occurs. intros Ho.
    apply (f_equal length) in Ho. rewrite length_take, length_drop in Ho.
    assert (length what ≠ 0%nat) by (by destruct what). lia.
  - rewrite (proj2 (Z.ltb_ge _ _)) by lia. cbn [orb].
    unfold occurs. rewrite Hpos, Nat2Z.id, drop_content_chains by done.
    apply memcmp_loop_ok; [by apply Forall_drop, Hl| |].
    + rewrite <-drop_content_chains, length_drop by done. lia.
    + rewrite (drop_S _ c) by done. done.
Qed.

Lemma occurs_first first what s j : occurs (first :: what) s j → s !! j = Some first.
Proof.
  unfold occurs. intros H. rewrite <-(Nat.add_0_r j), <-lookup_drop.
  destruct (drop j s) as [|x l]; [done|]. cbn in *. congruence.
Qed.

(** ** The search *)

(** Bytes and chains that the search has not passed. *)
Definition search_measure (b : evbuffer) (p : evbuffer_ptr) : nat :=
  (length (content b) - Z.to_nat (p_pos p) +
   match p_chain p with Some i => length (bf_chains b) - i | None => 0 end)%nat.

(** The first place, from byte [from] on, where [what] occurs, or that there is none. *)
Definition first_occurrence (what s : bytes) (from : nat) (b : evbuffer) (r : evbuffer_ptr) : Prop :=
  r = PTR_NOT_FOUND ∧ (∀ j, (from <= j)%nat → ¬ occurs what s j) ∨
  ptr_ok b r ∧ ∃ k, p_pos r = Z.of_nat k ∧ (from <= k)%nat ∧ occurs what s k ∧
    ∀ j, (from <= j < k)%nat → ¬ occurs what s j.

Lemma first_occurrence_skip what s from from' b r :
  (from <= from')%nat → (∀ j, (from <= j < from')%nat → ¬ occurs what s j) →
  first_occurrence what s from' b r → first_occurrence what s from b r.
Proof.
  intros Hle Hskip [[-> Hno]|(Hp & k & Hk & Hf & Ho & Hno)]; [left|right].
  - split; [done|]. intros j Hj. destruct (decide (from' <= j)%nat); [by apply Hno|apply Hskip; lia].
  - split; [done|]. exists k. split_and!; [done|lia|done|].
    intros j Hj. destruct (decide (from' <= j)%nat); [apply Hno; lia|apply Hskip; lia].
Qed.

Lemma lookup_content b i c k j :
  buf_ok b → bf_chains b !! i = Some c → (k <= c_off c)%nat → (j < c_off c - k)%nat →
  content b !! (offset_of b i + k + j)%nat = drop k (data_of c) !! j.
Proof.
  intros Hb Hc Hk Hj. rewrite <-lookup_drop, (drop_content b i c k) by done.
  apply lookup_app_l. rewrite length_drop, length_data_of; [done|]. by eapply list_ok_lookup; [apply Hb|].
Qed.

Lemma search_loop_ok fuel b first what p :
  buf_ok b → ptr_ok b p → (search_measure b p < fuel)%nat → Z.of_nat (length (first :: what)) <= EV_SSIZE_MAX →
  ∃ r, search_loop fuel b (first :: what) first None p = Some r ∧
    first_occurrence (first :: what) (content b) (Z.to_nat (p_pos p)) b r.
Proof.
  intros Hb. revert p. induction fuel as [|fuel IH]; intros p Hp Hfuel Hlen; [lia|]. cbn [search_loop].
  destruct (p_chain p) as [i|] eqn:Hi.
  2: { unfold ptr_ok in Hp. rewrite Hi in Hp. eexists. split; [done|]. left. split; [done|].
       intros j Hj Ho%occurs_first. apply lookup_lt_Some in Ho. lia. }
  assert (Hp' := Hp). unfold ptr_ok in Hp. rewrite Hi in Hp. destruct Hp as (c & Hc & Hk & Hpos).
  pose proof (list_ok_lookup _ _ _ _ (bo_list _ Hb) Hc) as Hok. pose proof (lookup_lt_Some _ _ _ Hc) as Hlt.
  assert (offset_of b i + c_off c <= length (content b))%nat as Hbound.
  { rewrite <-(offset_next b i c Hb Hc). apply offset_le. }
  unfold search_measure in Hfuel. rewrite Hi in Hfuel. rewrite Hpos, Nat2Z.id in *.
  set (k := p_pos_in_chain p) in *. set (o := offset_of b i) in *.
  rewrite Hc, bind_some_eq. cbv zeta. rewrite chain_read_part by (done || lia). rewrite bind_some_eq.
  rewrite (take_ge (drop k _)) by (rewrite length_drop, length_data_of; done).
  assert (∀ j, (j < c_off c - k)%nat → occurs (first :: what) (content b) (o + k + j) →
    drop k (data_of c) !! j = Some first) as Hocc.
  { intros j Hj Ho%occurs_first. pose proof (lookup_content b i c k j Hb Hc Hk Hj) as Hl.
    fold o in Hl. congruence. }
  destruct (memchr (drop k (data_of c)) first) as [n|] eqn:Hm.
  - apply memchr_some in Hm as [Hn Hbefore]. pose proof (lookup_lt_Some _ _ _ Hn) as Hnl.
    rewrite length_drop, length_data_of in Hnl by done.
    set (q := mk_ptr _ (Some i) (k + n)).
    assert (p_pos q = Z.of_nat (o + k + n)) as Hq by (cbn; lia).
    assert (ptr_ok b q) as Hqok. { exists c. split_and!; [done|cbn; lia|rewrite Hq; cbn; f_equal; lia]. }
    destruct (ptr_memcmp_ok b q (first :: what)) as (r & -> & Hr); [done..|].
    rewrite Hq, Nat2Z.id in Hr. rewrite bind_some_eq.
    assert (∀ j, (o + k <= j < o + k + n)%nat → ¬ occurs (first :: what) (content b) j) as Hskip.
    { intros j Hj Ho. apply (Hbefore (j - (o + k))%nat); [lia|]. apply Hocc; [lia|].
      by replace (o + k + (j - (o + k)))%nat with j by lia. }
    destruct (Z.eqb_spec r 0) as [H0|H0].
    + eexists. split; [done|]. right. split; [done|]. exists (o + k + n)%nat.
      split_and!; [done|lia|by apply Hr|done].
    + assert (¬ occurs (first :: what) (content b) (o + k + n)) as Hnot by by rewrite <-Hr.
      set (q' := if (S (p_pos_in_chain q) =? c_off c)%nat then _ else _).
      assert (p_pos q' = Z.of_nat (o + k + n + 1)) as Hq'.
      { unfold q'. destruct (_ =? _)%nat; cbn; lia. }
      assert (ptr_ok b q' ∧ (search_measure b q' < fuel)%nat) as [Hq'ok Hms].
      { unfold q'. change (p_pos_in_chain q) with (k + n)%nat.
        destruct (Nat.eqb_spec (S (k + n)) (c_off c)) as [He|He]; split.
        - replace (p_pos q + 1) with (Z.of_nat (o + c_off c)) by lia. by apply ptr_ok_next.
        - unfold search_measure, next_chain. cbn [p_pos p_chain]. rewrite Hq.
          destruct (Nat.ltb_spec (S i) (length (bf_chains b))); lia.
        - exists c. split_and!; [done|cbn; lia|rewrite Hq; cbn; lia].
        - unfold search_measure. cbn [p_pos p_chain]. rewrite Hq. lia. }
      destruct (IH q' Hq'ok Hms Hlen) as (r' & -> & Hr'). exists r'. split; [done|].
      rewrite Hq', Nat2Z.id in Hr'. eapply first_occurrence_skip; [|  |done]; [lia|].
      intros j Hj. destruct (decide (j = o + k + n)%nat) as [->|]; [done|]. apply Hskip. lia.
  - pose proof (memchr_none _ _ Hm) as Hnone.
    rewrite bool_decide_eq_false_2 by done.
    set (q := mk_ptr _ _ 0). assert (p_pos q = Z.of_nat (o + c_off c)) as Hq by (cbn; lia).
    destruct (IH q) as (r' & -> & Hr').
    + unfold q. replace (Z.of_nat (o + k) + _) with (Z.of_nat (o + c_off c)) by lia. by apply ptr_ok_next.
    + unfold search_measure, q, next_chain. cbn [p_pos p_chain].
      destruct (Nat.ltb_spec (S i) (length (bf_chains b))); lia.
    + done.
    + exists r'. split; [done|]. rewrite Hq, Nat2Z.id in Hr'.
      eapply first_occurrence_skip; [|  |done]; [lia|].
      intros j Hj Ho. apply (Hnone (j - (o + k))%nat), Hocc; [lia|].
      by replace (o + k + (j - (o + k)))%nat with j by lia.
Qed.

Lemma evbuffer_search_spec what start b :
  buf_ok b → what ≠ [] → Z.of_nat (length what) <= EV_SSIZE_MAX → ptr_ok b (default (mk_ptr 0 (first_chain b) 0) start) →
  ∃ r, evbuffer_search what start b = Some r ∧
    first_occurrence what (content b) (Z.to_nat (p_pos (default (mk_ptr 0 (first_chain b) 0) start))) b r.
Proof.
  intros Hb Hne Hlen Hp. unfold evbuffer_search, evbuffer_search_range. destruct what as [|first what]; [done|].
  rewrite (proj2 (Z.ltb_ge _ _)) by lia.
  replace (match start with Some p => p | None => mk_ptr 0 (first_chain b) 0 end) with (default (mk_ptr 0 (first_chain b) 0) start)
    by by destruct start.
  apply search_loop_ok; [done..| |done]. unfold search_measure, search_fuel.
  change (concat (data_of <$> bf_chains b)) with (content b). destruct (p_chain _); lia.
Qed.

(** C14. [evbuffer_search] returns, and finds the first occurrence: on a
    well-formed buffer, from a valid position (the start by default), for a
    non-empty string, the search stops within its fuel, one step per byte and per
    chain, and the position returned is the least at which the string occurs in
    the content, over chain boundaries, or "not found" when there is none. *)
Theorem evbuffer_search_correct what start b :
  buf_ok b → what ≠ [] → Z.of_nat (length what) <= EV_SSIZE_MAX →
  ptr_ok b (default (mk_ptr 0 (first_chain b) 0) start) →
  ∃ r, evbuffer_search what start b = Some r ∧
    first_occurrence what (content b) (Z.to_nat (p_pos (default (mk_ptr 0 (first_chain b) 0) start))) b r.
Proof. apply evbuffer_search_spec. Qed.
