(* ===== verification/BufferLines.v ===== *)
(** * Byte buffers: reading a line

    The end of a line is defined on the content alone ([eol_ref]); the routines
    that look for it over the chains find it, and [evbuffer_readln] takes the
    line and its end off the buffer. *)

From S2P Require Import Prelude BufferCore BufferInv BufferMove BufferSearch BufferDrain BufferSearchProps.

(** ** Reference definitions on lists of bytes *)

Fixpoint find_first (P : Z → bool) (s : bytes) : option nat :=
  match s with
  | [] => None
  | x :: s => if P x then Some 0%nat else S <$> find_first P s
  end.

Fixpoint find_sub (what s : bytes) : option nat :=
  if decide (take (length what) s = what) then Some 0%nat
  else match s with [] => None | _ :: s => S <$> find_sub what s end.

Definition is_eol (x : Z) : bool := (x =? 13) || (x =? 10).

(** Where the first line ends, and the length of its end. *)
Definition eol_ref (style : evbuffer_eol_style) (s : bytes) : option (nat * nat) :=
  match style with
  | EVBUFFER_EOL_ANY =>
    k ← find_first is_eol s; Some (k, span [13; 10] (drop k s))
  | EVBUFFER_EOL_CRLF_STRICT => k ← find_sub [13; 10] s; Some (k, 2%nat)
  | EVBUFFER_EOL_CRLF =>
    k ← find_first (λ x, x =? 10) s;
    Some (if bool_decide (k ≠ 0%nat ∧ s !! (k - 1)%nat = Some 13) then (k - 1, 2)%nat else (k, 1)%nat)
  | EVBUFFER_EOL_LF => k ← find_first (λ x, x =? 10) s; Some (k, 1%nat)
  | EVBUFFER_EOL_NUL => k ← find_first (λ x, x =? 0) s; Some (k, 1%nat)
  end.

(** The length of the end of line fits an [int]; only the style that takes a whole
    run of CR and LF has long ones. *)
Definition eol_fits (style : evbuffer_eol_style) (s : bytes) : Prop :=
  match eol_ref style s with Some (_, n) => Z.of_nat n <= INT_MAX | None => True end.

Lemma eol_fits_short style s : style ≠ EVBUFFER_EOL_ANY → eol_fits style s.
Proof.
  intros Hs. assert (∀ k n, eol_ref style s = Some (k, n) → n = 1%nat ∨ n = 2%nat) as Hn.
  { intros k n. destruct style; [done|..]; cbn [eol_ref]; intros (x & _ & E)%bind_Some; repeat case_match; simplify_eq; auto. }
  unfold eol_fits. destruct (eol_ref style s) as [[k n]|]; [|done]. destruct (Hn k n eq_refl); lia.
Qed.

Lemma find_first_app P a b :
  find_first P (a ++ b) =
    match find_first P a with Some k => Some k | None => (λ k, length a + k)%nat <$> find_first P b end.
Proof.
  induction a as [|x a IH]; cbn; [by destruct (find_first P b)|]. destruct (P x); [done|].
  rewrite IH. destruct (find_first P a); [done|]. by destruct (find_first P b).
Qed.

Lemma find_first_lt P s k : find_first P s = Some k → (k < length s)%nat ∧ ∃ x, s !! k = Some x ∧ P x = true.
Proof.
  revert k. induction s as [|x s IH]; intros k; cbn; [done|]. destruct (P x) eqn:Hx.
  - intros [= <-]. split; [lia|]. by exists x.
  - destruct (find_first P s) as [k'|]; [|done]. intros [= <-]. destruct (IH k' eq_refl). split; [lia|done].
Qed.

Lemma memchr_find_first d c : memchr d c = find_first (λ x, x =? c) d.
Proof. induction d as [|x d IH]; cbn; [done|]. by rewrite IH. Qed.

Lemma find_first_or P Q s :
  find_first (λ x, P x || Q x) s =
    match find_first P s, find_first Q s with
    | Some k, Some l => Some (if (l <? k)%nat then l else k)
    | Some k, None => Some k
    | None, r => r
    end.
Proof.
  induction s as [|x s IH]; cbn; [done|]. destruct (P x), (Q x); cbn; [done| | |].
  - by destruct (find_first Q s).
  - by destruct (find_first P s).
  - rewrite IH. destruct (find_first P s) as [k|], (find_first Q s) as [l|]; try done.
    change (Some (S (if (l <? k)%nat then l else k)) = Some (if (S l <? S k)%nat then S l else S k)).
    by destruct (Nat.ltb_spec l k), (Nat.ltb_spec (S l) (S k)); try lia.
Qed.

(** Looking in chunks is looking in the whole. *)
Lemma find_eol_chunks_ok fuel s : (length s <= fuel)%nat → find_eol_chunks fuel s = find_first is_eol s.
Proof.
  revert s. induction fuel as [|fuel IH]; intros s Hs; [by destruct s; cbn in *; [|lia]|].
  cbn [find_eol_chunks]. destruct s as [|x s']; [done|]. set (s := x :: s') in *. cbv zeta.
  rewrite !memchr_find_first, IH by (rewrite length_drop; cbn in *; lia).
  transitivity (find_first is_eol (take CHUNK_SZ s ++ drop CHUNK_SZ s)); [|by rewrite take_drop].
  rewrite find_first_app.
  assert (find_first is_eol (take CHUNK_SZ s) = _) as -> by apply find_first_or.
  destruct (find_first (λ x, x =? 13) (take CHUNK_SZ s)) as [cr|],
    (find_first (λ x, x =? 10) (take CHUNK_SZ s)) as [lf|]; try done.
  destruct (find_first is_eol (drop CHUNK_SZ s)) as [k|] eqn:E; [|done].
  change (Some (CHUNK_SZ + k)%nat = Some (length (take CHUNK_SZ s) + k)%nat). f_equal.
  destruct (decide (CHUNK_SZ <= length s)%nat) as [Hl|Hl]; [rewrite length_take; lia|].
  by rewrite drop_ge in E by lia.
Qed.

Lemma span_app cs a b :
  span cs (a ++ b) = if (span cs a <? length a)%nat then span cs a else (length a + span cs b)%nat.
Proof.
  induction a as [|x a IH]; cbn [span app length]; [done|].
  destruct (bool_decide (x ∈ cs)); [|done]. rewrite IH.
  change (S (span cs a) <? S (length a))%nat with (span cs a <? length a)%nat. by case_match.
Qed.

Lemma span_le cs a : (span cs a <= length a)%nat.
Proof. induction a as [|x a IH]; cbn; [done|]. case_bool_decide; lia. Qed.

Lemma find_sub_some what s k :
  find_sub what s = Some k ↔ occurs what s k ∧ (k <= length s)%nat ∧ ∀ j, (j < k)%nat → ¬ occurs what s j.
Proof.
  revert k. induction s as [|x s IH]; intros k; cbn [find_sub]; unfold occurs in *.
  - destruct (decide (take (length what) [] = what)) as [Hd|Hd]; cbn; split; try done.
    + intros [= <-]. split_and!; [done|lia|lia].
    + intros (_ & Hk & _). f_equal. lia.
    + intros (Ho & Hk & _). destruct k; [by rewrite drop_0 in Ho|lia].
  - destruct (decide (take (length what) (x :: s) = what)) as [Hd|Hd]; split.
    + intros [= <-]. split_and!; [done|lia|lia].
    + intros (_ & _ & Hno). destruct k as [|k]; [done|]. destruct (Hno 0%nat); [lia|done].
    + destruct (find_sub what s) as [k'|]; [|done]. intros [= <-].
      destruct (proj1 (IH k') eq_refl) as (Ho & Hk & Hno). split_and!; [done|cbn; lia|].
      intros [|j] Hj; [done|]. apply Hno. lia.
    + intros (Ho & Hk & Hno). destruct k as [|k]; [done|]. rewrite (proj2 (IH k)); [done|].
      split_and!; [done|cbn in Hk; lia|]. intros j Hj. apply (Hno (S j)). lia.
Qed.

Lemma find_sub_none what s : find_sub what s = None → ∀ j, ¬ occurs what s j.
Proof.
  unfold occurs. induction s as [|x s IH]; cbn [find_sub].
  - destruct (decide _) as [|Hd]; [done|]. intros _ j. by rewrite drop_nil.
  - destruct (decide _) as [|Hd]; [done|]. destruct (find_sub what s); [done|]. intros _ [|j]; [done|].
    by apply IH.
Qed.

(** ** Over the chains *)

(** The position designates byte number [k] of the content. *)
Definition ptr_at (b : evbuffer) (p : evbuffer_ptr) (k : nat) : Prop :=
  ∃ i c, p_chain p = Some i ∧ bf_chains b !! i = Some c ∧ (p_pos_in_chain p < c_off c)%nat ∧
    k = (offset_of b i + p_pos_in_chain p)%nat ∧ p_pos p = Z.of_nat k.

Lemma drop_cons_lookup {A} (l : list A) i c l' : drop i l = c :: l' → l !! i = Some c ∧ drop (S i) l = l'.
Proof.
  intros H. split; [by rewrite <-(Nat.add_0_r i), <-lookup_drop, H|].
  by rewrite <-Nat.add_1_r, <-drop_drop, H.
Qed.

Lemma scan_chains_ok P f b l i k pos :
  buf_ok b → (∀ d, f d = find_first P d) → drop i (bf_chains b) = l →
  match l with c :: _ => (k <= c_off c)%nat | [] => True end → pos = Z.of_nat (offset_of b i + k) →
  ∃ r, scan_chains f l i k pos = Some r ∧
    match find_first P (drop k (bytes_of l)) with
    | Some n => ∃ it, r = Some it ∧ ptr_at b it (offset_of b i + k + n)
    | None => r = None
    end.
Proof.
  intros Hb Hf. revert i k pos. induction l as [|c l IH]; intros i k pos Hl Hk Hpos; cbn [scan_chains].
  { exists None. change (bytes_of []) with (@nil Z). by rewrite drop_nil. }
  destruct (drop_cons_lookup _ _ _ _ Hl) as [Hc Hl'].
  pose proof (list_ok_lookup _ _ _ _ (bo_list _ Hb) Hc) as Hok. pose proof (length_data_of c Hok) as Hld.
  rewrite chain_read_part by (done || lia). rewrite bind_some_eq, Hf.
  rewrite (take_ge (drop k _)) by (rewrite length_drop; lia).
  rewrite bytes_of_cons, drop_app_le, find_first_app by lia.
  destruct (find_first P (drop k (data_of c))) as [n|] eqn:E.
  - eexists. split; [done|]. eexists. split; [done|]. apply find_first_lt in E as [Hn _].
    rewrite length_drop in Hn. exists i, c. cbn. split_and!; [done|done|lia|lia|lia].
  - rewrite length_drop, Hld.
    destruct (IH (S i) 0%nat (pos + Z.of_nat (c_off c - k)) Hl') as (r & -> & Hr);
      [by destruct l; [|lia]|rewrite (offset_next b i c) by done; lia|].
    exists r. split; [done|]. rewrite drop_0 in Hr.
    destruct (find_first P (bytes_of l)) as [n|]; cbn; [|done].
    destruct Hr as (it & -> & Hit). exists it. split; [done|].
    rewrite (offset_next b i c) in Hit by done.
    by replace (offset_of b i + k + (c_off c - k + n))%nat with (offset_of b i + c_off c + 0 + n)%nat by lia.
Qed.

(** Looking from the start of the buffer. *)
Lemma scan_from_start P f b :
  buf_ok b → (∀ d, f d = find_first P d) →
  ∃ r, scan_from f (mk_ptr 0 (first_chain b) 0) b = Some r ∧
    match find_first P (content b) with
    | Some n => ∃ it, r = Some it ∧ ptr_at b it n
    | None => r = None
    end.
Proof.
  intros Hb Hf. unfold scan_from, first_chain. cbn [p_chain p_pos p_pos_in_chain].
  destruct (bf_chains b) as [|c l] eqn:E.
  - exists None. unfold content. by rewrite E.
  - destruct (scan_chains_ok P f b (bf_chains b) 0 0 0 Hb Hf (drop_0 _)) as (r & Hs & Hr);
      [rewrite E; lia|done|].
    exists r. rewrite <-E, drop_0. split; [done|]. rewrite drop_0 in Hr. done.
Qed.

Lemma strspn_loop_ok cs l k :
  Forall chain_ok l → match l with c :: _ => (k <= c_off c)%nat | [] => True end →
  strspn_loop cs l k = Some (span cs (drop k (bytes_of l))).
Proof.
  revert k. induction l as [|c l IH]; intros k Hok Hk; cbn [strspn_loop].
  { change (bytes_of []) with (@nil Z). by rewrite drop_nil. }
  apply Forall_cons in Hok as [Hc Hok]. pose proof (length_data_of c Hc) as Hld.
  rewrite chain_read_part by (done || lia). rewrite bind_some_eq. cbv zeta.
  rewrite (take_ge (drop k _)) by (rewrite length_drop; lia).
  rewrite bytes_of_cons, drop_app_le, span_app by lia.
  destruct (Nat.ltb_spec (span cs (drop k (data_of c))) (length (drop k (data_of c)))) as [Hlt|Hge]; [done|].
  rewrite IH, bind_some_eq, drop_0 by (done || by destruct l; [|lia]).
  pose proof (span_le cs (drop k (data_of c))). do 2 f_equal. lia.
Qed.

Lemma strspn_ok b it k cs :
  buf_ok b → ptr_at b it k → Z.of_nat (span cs (drop k (content b))) <= INT_MAX →
  evbuffer_strspn it cs b = Some (span cs (drop k (content b))).
Proof.
  intros Hb (i & c & Hi & Hc & Hk & -> & _) Hint. unfold evbuffer_strspn. rewrite Hi.
  pose proof (lookup_lt_Some _ _ _ Hc). rewrite drop_content_chains in * by done.
  rewrite strspn_loop_ok; [|apply Forall_drop, Hb|rewrite (drop_S _ c) by done; lia].
  rewrite bind_some_eq. by rewrite (proj2 (Z.ltb_ge _ _)) by done.
Qed.

Lemma getchr_ok b it k :
  buf_ok b → ptr_at b it k → evbuffer_getchr it b = content b !! k ∧ is_Some (content b !! k).
Proof.
  intros Hb (i & c & Hi & Hc & Hk & -> & _). unfold evbuffer_getchr. rewrite Hi, Hc, bind_some_eq.
  pose proof (list_ok_lookup _ _ _ _ (bo_list _ Hb) Hc) as Hok.
  rewrite <-(Nat.add_0_r (offset_of b i)), (lookup_content b i c 0) by (done || lia).
  rewrite drop_0. unfold data_of. rewrite lookup_take_lt, lookup_drop by done. split; [done|].
  apply lookup_lt_is_Some. destruct Hok. unfold buffer_len in *. lia.
Qed.

(** Moving to an absolute position. *)
Lemma ptr_walk_ok b l i n :
  buf_ok b → drop i (bf_chains b) = l → (n < length (bytes_of l))%nat →
  ∃ j c k, ptr_walk l i 0 (Z.of_nat n) = (Some j, 0, Z.of_nat k) ∧ bf_chains b !! j = Some c ∧
    (k < c_off c)%nat ∧ (offset_of b i + n = offset_of b j + k)%nat.
Proof.
  intros Hb. revert i n. induction l as [|c l IH]; intros i n Hl Hn; [by cbn in Hn; lia|].
  destruct (drop_cons_lookup _ _ _ _ Hl) as [Hc Hl'].
  pose proof (list_ok_lookup _ _ _ _ (bo_list _ Hb) Hc) as Hok. pose proof (length_data_of c Hok) as Hld.
  rewrite bytes_of_cons, length_app in Hn.
  assert (Z.of_nat n <= EV_SIZE_MAX) as Hmax.
  { pose proof (bo_total _ Hb). pose proof (bo_max _ Hb).
    assert (length (bytes_of (c :: l)) <= length (content b))%nat; [|rewrite bytes_of_cons, length_app in *; lia].
    rewrite <-Hl. unfold content. rewrite <-(take_drop i (bf_chains b)) at 2.
    rewrite bytes_of_app, length_app. lia. }
  cbn [ptr_walk]. rewrite Z.add_0_l, (u64_small (Z.of_nat n)) by lia.
  destruct (Z.leb_spec (Z.of_nat (c_off c)) (Z.of_nat n)) as [Hle|Hgt].
  - rewrite Z.sub_0_r, u64_small by lia. rewrite <-Nat2Z.inj_sub by lia.
    destruct (IH (S i) (n - c_off c)%nat Hl') as (j & c' & k & -> & Hj & Hk & Ho); [lia|].
    exists j, c', k. rewrite (offset_next b i c) in Ho by done. split_and!; [done..|lia].
  - exists i, c, n. split_and!; [done..|lia|done].
Qed.

Lemma ptr_subtract_one b it k :
  buf_ok b → bf_total_len b <= EV_SSIZE_MAX → ptr_at b it k → k ≠ 0%nat →
  ∃ it2, evbuffer_ptr_subtract it 1 b = Some (0, it2) ∧ ptr_at b it2 (k - 1).
Proof.
  intros Hb Hmax Hit Hk. destruct (Hit) as (i & c & Hi & Hc & Hin & -> & Hpos).
  assert (offset_of b i + p_pos_in_chain it < length (content b))%nat as Hbound.
  { pose proof (offset_le b (S i)). rewrite (offset_next b i c) in * by done. lia. }
  pose proof (bo_total _ Hb). unfold evbuffer_ptr_subtract. rewrite Hpos, Hi.
  rewrite (proj2 (Z.ltb_ge _ 0)), (proj2 (Z.ltb_ge _ 1)) by lia.
  destruct (Z.leb_spec 1 (Z.of_nat (p_pos_in_chain it))) as [Hle|Hgt].
  - eexists. split; [done|]. exists i, c. cbn. split_and!; [done|done|lia|lia|lia].
  - cbn [evbuffer_ptr_set]. unfold ptr_place.
    replace (Z.of_nat _ - 1) with (Z.of_nat (offset_of b i + p_pos_in_chain it - 1)) by lia.
    set (n := (offset_of b i + p_pos_in_chain it - 1)%nat).
    destruct (ptr_walk_ok b (bf_chains b) 0 n Hb (drop_0 _)) as (j & c' & k & -> & Hj & Hk' & Ho);
      [unfold content in *; lia|].
    eexists. split; [done|]. exists j, c'. cbn [p_chain p_pos p_pos_in_chain].
    rewrite Z.add_0_l, Nat2Z.id. change (offset_of b 0) with 0%nat in Ho.
    split_and!; [done..|lia|]. unfold swrap. rewrite Z.mod_small; lia.
Qed.

(** ** Lines *)

(** The end of the first line, found from the start of the buffer. *)
Lemma eol_at_ok style b :
  buf_ok b → bf_total_len b <= EV_SSIZE_MAX → eol_fits style (content b) →
  ∃ r, eol_at (mk_ptr 0 (first_chain b) 0) style b = Some r ∧
    match eol_ref style (content b) with
    | Some (k, n) => ∃ it, r = Some (it, n) ∧ p_pos it = Z.of_nat k
    | None => r = None
    end.
Proof.
  intros Hb Hmax Hfits.
  assert (∀ c, ∃ r, evbuffer_strchr (mk_ptr 0 (first_chain b) 0) c b = Some r ∧
    match find_first (λ x, x =? c) (content b) with
    | Some n => ∃ it, r = Some it ∧ ptr_at b it n | None => r = None end) as Hchr.
  { intros c. apply scan_from_start; [done|]. intros d. apply memchr_find_first. }
  assert (∀ c, ∃ r, (r ← evbuffer_strchr (mk_ptr 0 (first_chain b) 0) c b; Some (one_char r)) = Some r ∧
    match find_first (λ x, x =? c) (content b) with
    | Some k => ∃ it, r = Some (it, 1%nat) ∧ p_pos it = Z.of_nat k | None => r = None end) as Hone.
  { intros c. destruct (Hchr c) as (r & -> & Hr). rewrite bind_some_eq. eexists. split; [done|].
    destruct (find_first _ _) as [k|]; [|by subst r]. destruct Hr as (it & -> & i & c' & _ & _ & _ & _ & Hp).
    by exists it. }
  destruct style; cbn [eol_at eol_ref].
  - unfold eol_fits in Hfits. cbn [eol_ref] in Hfits. destruct (scan_from_start is_eol find_eol_char b Hb) as (r & Hs & Hr).
    { intros d. by apply find_eol_chunks_ok. }
    unfold evbuffer_find_eol_char. rewrite Hs, bind_some_eq.
    destruct (find_first is_eol (content b)) as [k|]; [|subst r; by exists None].
    destruct Hr as (it & -> & Hit). rewrite (strspn_ok b it k) by done. rewrite bind_some_eq.
    eexists. split; [done|]. destruct Hit as (i & c & _ & _ & _ & _ & Hp). by exists it.
  - destruct (Hchr 10) as (r & -> & Hr). rewrite bind_some_eq. cbn [p_pos].
    destruct (find_first _ _) as [k|]; [|subst r; by exists None].
    destruct Hr as (it & -> & Hit). assert (p_pos it = Z.of_nat k) as Hp.
    { by destruct Hit as (? & ? & _ & _ & _ & _ & ?). }
    rewrite Hp, bind_some_eq. destruct (Z.eqb_spec (Z.of_nat k) 0) as [H0|H0].
    { rewrite bool_decide_eq_false_2 by (intros [? _]; lia). eexists. split; [done|]. by exists it. }
    destruct (ptr_subtract_one b it k) as (it2 & -> & Hit2); [done..|lia|]. rewrite bind_some_eq.
    destruct (getchr_ok b it2 (k - 1) Hb Hit2) as [Hg [x Hx]]. cbn [Z.ltb Z.compare].
    rewrite Hg, Hx, bind_some_eq. eexists. split; [done|].
    assert (p_pos it2 = Z.of_nat (k - 1)) as Hp2 by by destruct Hit2 as (? & ? & _ & _ & _ & _ & ?).
    destruct (Z.eqb_spec x 13) as [->|Hne].
    + rewrite bool_decide_eq_true_2 by (split; [lia|done]). by exists it2.
    + rewrite bool_decide_eq_false_2 by (intros [_ ?]; congruence). by exists it.
  - destruct (evbuffer_search_spec [13; 10] (Some (mk_ptr 0 (first_chain b) 0)) b) as (r & -> & Hr);
      [done..|by apply ptr_ok_first|].
    rewrite bind_some_eq. eexists. split; [done|]. 
    destruct Hr as [[-> Hno]|(_ & k & Hk & _ & Ho & Hno)]; change (Z.to_nat _) with 0%nat in Hno.
    + destruct (find_sub [13; 10] (content b)) as [k|] eqn:E; [|done].
      apply find_sub_some in E as [Ho _]. by destruct (Hno k (Nat.le_0_l k)).
    + assert (find_sub [13; 10] (content b) = Some k) as ->.
      { apply find_sub_some. split_and!; [done| |intros j Hj; apply Hno; lia].
        apply occurs_first, lookup_lt_Some in Ho. lia. }
      rewrite bind_some_eq, Hk, (proj2 (Z.ltb_ge (Z.of_nat k) 0)) by lia. by exists r.
  - destruct (Hone 10) as (r & -> & Hr). exists r. split; [done|]. by destruct (find_first _ _).
  - destruct (Hone 0) as (r & -> & Hr). exists r. split; [done|]. by destruct (find_first _ _).
Qed.

(** C15. [evbuffer_readln] reads lines: on a well-formed buffer that is not frozen,
    with memory for the line, for each of the five styles of line ends (whose length
    must fit an int, which only a run of CR and LF can exceed), it
    returns NULL and leaves the buffer alone when the content has no end of line;
    otherwise it returns the bytes before the first one, as the reference
    definition on lists of bytes places it, and removes the line and its end. *)
Theorem evbuffer_readln_correct style b :
  buf_ok b → unpinned b → bf_total_len b <= EV_SSIZE_MAX → bf_freeze_start b = false →
  eol_fits style (content b) →
  match eol_ref style (content b) with
  | None => evbuffer_readln true style b = Some (None, b)
  | Some (k, n) => ∃ b', evbuffer_readln true style b = Some (Some (take k (content b)), b') ∧
      buf_ok b' ∧ content b' = drop (k + n) (content b)
  end.
Proof.
  intros Hb Hu Hmax Hfr Hfits. destruct (eol_at_ok style b Hb Hmax Hfits) as (r & Hr & Href).
  unfold evbuffer_readln, evbuffer_search_eol. rewrite Hfr, Hr. rewrite !bind_some_eq.
  destruct (eol_ref style (content b)) as [[k n]|].
  2: { by rewrite Href. }
  destruct Href as (it & -> & Hp). cbn [negb]. rewrite Hp, (proj2 (Z.ltb_ge (Z.of_nat k) 0)) by lia.
  destruct (evbuffer_remove_spec (Z.of_nat k) b) as (b1 & -> & Hb1 & Hu1 & Hfr1 & Hc1); [done|done|lia|done|].
  rewrite bind_some_eq.
  destruct (evbuffer_drain_total (Z.of_nat n) b1) as (r2 & b2 & -> & Hb2 & _ & Hc2); [done..|lia|].
  rewrite bind_some_eq, Nat2Z.id. exists b2. split_and!; [done..|].
  destruct Hc2 as [[_ ->]|(_ & _ & ?)]; [|congruence]. rewrite Hc1, drop_drop, Nat2Z.id.
  pose proof (bo_total _ Hb1) as Ht1. rewrite Hc1, length_drop, Nat2Z.id in Ht1.
  destruct (decide (Z.of_nat n <= bf_total_len b1)); [by rewrite Z.min_l, Nat2Z.id|].
  by rewrite !drop_ge by lia.
Qed.
