(* ===== verification/BufferRead.v ===== *)
(** * Byte buffers: reading from a descriptor

    [evbuffer_expand_fast_] makes room in the last chains, [readv] fills it, and
    the chains are extended over what was read: together they append the bytes
    read to the content. *)

From S2P Require Import Prelude BufferCore BufferInv BufferMove.

(** The room in the first [n] chains of a list. *)
Fixpoint space_sum (n : nat) (l : list evbuffer_chain) : Z :=
  match n, l with
  | S n, c :: l => Z.of_nat (CHAIN_SPACE_LEN c) + space_sum n l
  | _, _ => 0
  end.

(** What [evbuffer_expand_fast_] relies on besides the invariant: nothing is
    pinned, the chain at [last_with_datap] is empty only when it is the first,
    and the empty chains at the end can be written. *)
Record readable (b : evbuffer) : Prop := {
  rd_ok : buf_ok b;
  rd_pins : Forall (λ c, CHAIN_PINNED c = false) (bf_chains b);
  rd_tight : ∀ c, bf_chains b !! bf_lwd b = Some c → empty_chain c → bf_lwd b = 0%nat;
  rd_write : Forall (λ c, empty_chain c → c_flags c &? EVBUFFER_IMMUTABLE = false) (drop (bf_lwd b) (bf_chains b))
}.

(** The first chain with room, as the setup of the vectors finds it. *)
Definition first_space (b : evbuffer) : nat :=
  match bf_chains b !! bf_lwd b with
  | Some c => if (CHAIN_SPACE_LEN c =? 0)%nat then S (bf_lwd b) else bf_lwd b
  | None => bf_lwd b
  end.

(** Room for [datlen] bytes in [n] chains, the content being as before. *)
Definition has_room (datlen : Z) (n : nat) (b b' : evbuffer) : Prop :=
  buf_ok b' ∧ content b' = content b ∧ is_Some (bf_chains b' !! bf_lwd b') ∧
  datlen <= space_sum n (drop (first_space b') (bf_chains b')) ∧
  bf_freeze_end b' = bf_freeze_end b.

Lemma space_sum_pos n l : 0 <= space_sum n l.
Proof. revert l. induction n as [|n IH]; intros [|c l]; cbn; try done. specialize (IH l). lia. Qed.

Lemma space_sum_mono n m l : (n <= m)%nat → space_sum n l <= space_sum m l.
Proof.
  revert m l. induction n as [|n IH]; intros m l Hm; [apply space_sum_pos|].
  destruct m as [|m]; [lia|]. destruct l as [|c l]; cbn; [done|]. specialize (IH m l). lia.
Qed.

Lemma space_empty c :
  chain_ok c → empty_chain c → c_flags c &? EVBUFFER_IMMUTABLE = false →
  CHAIN_SPACE_LEN (set_c_misalign 0 c) = buffer_len c.
Proof.
  intros _ He Hf. unfold CHAIN_SPACE_LEN. cbn [c_flags set_c_misalign c_misalign c_off]. rewrite Hf, He.
  change (buffer_len (set_c_misalign 0 c)) with (buffer_len c). lia.
Qed.

(** A new chain has the room that was asked for. *)
Lemma new_chain_space ok size c :
  0 <= size → evbuffer_chain_new ok size = Some c →
  chain_ok c ∧ empty_chain c ∧ size <= Z.of_nat (CHAIN_SPACE_LEN c) ∧ CHAIN_PINNED c = false ∧
  c_flags c &? EVBUFFER_IMMUTABLE = false.
Proof.
  intros Hs Hn. destruct (chain_new_ok ok size c Hs Hn) as (Hc & Ho & Hm & Hf & Hl).
  unfold CHAIN_SPACE_LEN, CHAIN_PINNED. rewrite Hf, Ho, Hm.
  change (0 &? EVBUFFER_IMMUTABLE) with false. split_and!; [done|done| |done|done]. cbv iota. lia.
Qed.

(** The chains of [l'] are those of [l], the empty ones possibly realigned. *)
Definition realigned (l l' : list evbuffer_chain) : Prop :=
  Forall2 (λ c c', c' = c ∨ empty_chain c ∧ c' = set_c_misalign 0 c) l l'.

Lemma realigned_ok l l' :
  realigned l l' → Forall chain_ok l → Forall chain_ok l' ∧ bytes_of l' = bytes_of l ∧ length l' = length l.
Proof.
  induction 1 as [|c c' l l' Hc Hl IH]; intros Hok; [done|].
  apply Forall_cons in Hok as [Hc0 Hok]. destruct (IH Hok) as (H1 & H2 & H3).
  rewrite !bytes_of_cons, H2. cbn [length]. rewrite H3.
  destruct Hc as [->|[He ->]]; split_and!; try done; [by constructor| |].
  - constructor; [|done]. destruct Hc0 as [H4 H5]. split; [|done].
    unfold buffer_len in *. cbn. lia.
  - by rewrite !data_of_empty.
Qed.

Lemma realigned_empty l l' : realigned l l' → Forall empty_chain l → Forall empty_chain l'.
Proof.
  induction 1 as [|c c' l l' Hc Hl IH]; intros He; [constructor|].
  apply Forall_cons in He as [He1 He2]. constructor; [|auto]. by destruct Hc as [->|[? ->]].
Qed.

Lemma realigned_refl l : realigned l l.
Proof. induction l; constructor; auto. Qed.

Definition writable_empties (l : list evbuffer_chain) : Prop :=
  Forall (λ c, empty_chain c → c_flags c &? EVBUFFER_IMMUTABLE = false) l.

(** How a walk ends. *)
Definition scan_ends (e : scan_end) (datlen avail : Z) (used n : nat) : Prop :=
  match e with
  | ScanEnough => datlen <= avail ∧ (used <= n)%nat
  | ScanFull => avail < datlen ∧ used = n
  | ScanOffEnd => (used < n)%nat
  end.

(** The walk over empty chains: each is realigned, and its room counted. *)
Lemma scan_empties l datlen n used avail is_lwd :
  Forall chain_ok l → writable_empties l → Forall empty_chain l → (used < n)%nat →
  ∃ l' e used' avail', expand_scan l is_lwd datlen n used avail = Some (l', e, used', avail') ∧
    realigned l l' ∧ (used <= used')%nat ∧ avail' = avail + space_sum (used' - used) l' ∧
    scan_ends e datlen avail' used' n ∧
    (e = ScanOffEnd → (avail' < datlen ∨ l = []) ∧ (used' - used = length l)%nat).
Proof.
  revert used avail is_lwd. induction l as [|c l IH]; intros used avail is_lwd Hok Hw He Hu; cbn [expand_scan].
  { eexists [], ScanOffEnd, used, avail. rewrite Nat.sub_diag. cbn. split_and!; auto; [constructor|lia]. }
  apply Forall_cons in Hok as [Hc Hok], Hw as [Hwc Hw], He as [Hec He].
  pose proof Hec as Hec'. unfold empty_chain in Hec'. rewrite Hec'. cbn [Nat.eqb]. rewrite bind_some_eq.
  pose proof (space_empty c Hc Hec (Hwc Hec)) as Hs. set (c' := set_c_misalign 0 c) in *.
  assert (realigned (c :: l) (c' :: l)) as Hre.
  { constructor; [by right|apply realigned_refl]. }
  cbv iota beta. destruct (Z.leb_spec datlen (avail + Z.of_nat (buffer_len c))) as [Hge|Hlt];
    [|destruct (Nat.eqb_spec (S used) n) as [Hn|Hn]].
  - eexists (c' :: l), ScanEnough, (S used), _. replace (S used - used)%nat with 1%nat by lia. cbn [space_sum].
    rewrite Hs. split_and!; [done..|lia|destruct l; cbn; lia|split; [done|lia]|done].
  - eexists (c' :: l), ScanFull, (S used), _. replace (S used - used)%nat with 1%nat by lia. cbn [space_sum].
    rewrite Hs. split_and!; [done..|lia|destruct l; cbn; lia|done|done].
  - destruct (IH (S used) (avail + Z.of_nat (buffer_len c)) false) as (l' & e & used' & avail' & -> & H1 & H2 & H3 & H4 & H5);
      [done..|lia|].
    rewrite bind_some_eq. exists (c' :: l'), e, used', avail'.
    replace (used' - used)%nat with (S (used' - S used)) by lia. cbn [space_sum]. rewrite Hs.
    split_and!; [done|constructor; [by right|done]|lia|lia|done|].
    intros E. destruct (H5 E) as [H6 H7]. split; [left|cbn; lia]. destruct H6 as [| ->]; [done|].
    inversion H1; subst l'. destruct (used' - S used)%nat; cbn in H3; lia.
Qed.

(** The whole walk, from the chain at [last_with_datap]. *)
Lemma expand_scan_ok c l datlen n :
  Forall chain_ok (c :: l) → writable_empties (c :: l) → Forall empty_chain l → (2 <= n)%nat → 0 <= datlen →
  ∃ c' l' e used avail, expand_scan (c :: l) true datlen n 0 0 = Some (c' :: l', e, used, avail) ∧
    realigned (c :: l) (c' :: l') ∧ scan_ends e datlen avail used n ∧
    (e = ScanOffEnd → avail < datlen ∧
       ((CHAIN_SPACE_LEN c' =? 0)%nat = true ∧ length l' <= used ∨ length (c' :: l') <= used)%nat) ∧
    (¬ empty_chain c → c' = c ∧ Z.of_nat (CHAIN_SPACE_LEN c) <= avail) ∧ 0 <= avail ∧
    avail <= (if (CHAIN_SPACE_LEN c' =? 0)%nat then space_sum used l' else space_sum used (c' :: l')).
Proof.
  intros Hok Hw He Hn Hd. destruct (decide (empty_chain c)) as [Hec|Hnc].
  - destruct (scan_empties (c :: l) datlen n 0 0 true) as (l' & e & used & avail & Hs & H1 & _ & H3 & H4 & H5);
      [done..|by constructor|lia|].
    assert (length l' = length (c :: l)) as Hlen by (symmetry; by eapply Forall2_length).
    destruct l' as [|c' l1]; [done|]. rewrite Nat.sub_0_r in *.
    eexists c', l1, e, used, avail. split_and!; [done..| |done| |].
    + intros E. destruct (H5 E) as [[|] ?]; [|done]. split; [done|right; lia].
    + rewrite H3. pose proof (space_sum_pos used (c' :: l1)). lia.
    + rewrite H3. destruct (Nat.eqb_spec (CHAIN_SPACE_LEN c') 0) as [Hz0|Hz0]; [|lia].
      destruct used as [|used]; [done|].
      change (space_sum (S used) (c' :: l1)) with (Z.of_nat (CHAIN_SPACE_LEN c') + space_sum used l1). rewrite Hz0.
      pose proof (space_sum_mono used (S used) l1). lia.
  - apply Forall_cons in Hok as [Hc Hok], Hw as [_ Hw]. cbn [expand_scan].
    rewrite (proj2 (Nat.eqb_neq _ _) Hnc). cbn [evassert]. rewrite !bind_some_eq. cbv zeta.
    destruct (Nat.eqb_spec (CHAIN_SPACE_LEN c) 0) as [Hz0|Hz0].
    + destruct (Z.leb_spec datlen 0) as [Hz|Hz].
      { eexists c, l, ScanEnough, 0%nat, 0. split_and!; [done|apply realigned_refl|split; [lia|lia]|done|intros _; split; [done|by rewrite Hz0]|lia|].
        rewrite Hz0. done. }
      destruct (Nat.eqb_spec 0 n); [lia|].
      destruct (scan_empties l datlen n 0 0 false) as (l' & e & used & avail & -> & H1 & _ & H3 & H4 & H5);
        [done..|lia|].
      assert (length l' = length l) as Hlen by (symmetry; by eapply Forall2_length).
      rewrite bind_some_eq, Nat.sub_0_r in *. eexists c, l', e, used, avail. rewrite Hz0.
      pose proof (space_sum_pos used l') as Hnn.
      split_and!; [done|constructor; [by left|done]|done| | |lia|cbn; lia].
      * intros E. destruct (H5 E) as [H6 H7]. split; [|left; split; [done|lia]].
        destruct H6 as [| ->]; [done|]. destruct l'; [|done]. rewrite H3. by destruct used.
      * intros _. split; [done|]. rewrite H3. pose proof (space_sum_pos used l'). lia.
    + destruct (Z.leb_spec datlen (0 + Z.of_nat (CHAIN_SPACE_LEN c))) as [Hz|Hz].
      { eexists c, l, ScanEnough, 1%nat, _.
        split_and!; [done|apply realigned_refl|split; [done|lia]|done|intros _; split; [done|lia]|lia|].
        rewrite (proj2 (Nat.eqb_neq _ _) Hz0). cbn [space_sum]. destruct l; cbn; lia. }
      destruct (Nat.eqb_spec 1 n); [lia|].
      destruct (scan_empties l datlen n 1 (0 + Z.of_nat (CHAIN_SPACE_LEN c)) false) as (l' & e & used & avail & -> & H1 & H2 & H3 & H4 & H5);
        [done..|lia|].
      assert (length l' = length l) as Hlen by (symmetry; by eapply Forall2_length).
      rewrite bind_some_eq. eexists c, l', e, used, avail. rewrite (proj2 (Nat.eqb_neq _ _) Hz0).
      pose proof (space_sum_pos (used - 1) l') as Hnn.
      split_and!; [done|constructor; [by left|done]|done| | |lia|].
      * intros E. destruct (H5 E) as [H6 H7]. split; [|right; cbn; lia].
        destruct H6 as [| ->]; [done|]. destruct l'; [|done]. rewrite H3. destruct (used - 1)%nat; cbn; lia.
      * intros _. split; [done|]. rewrite H3. pose proof (space_sum_pos (used - 1) l'). lia.
      * destruct used as [|used]; [lia|]. cbn [space_sum].
        rewrite H3. replace (S used - 1)%nat with used by lia. lia.
Qed.

(** ** Where the room is *)

Lemma space_sum_app n l1 l2 :
  (length l1 <= n)%nat → space_sum n (l1 ++ l2) = space_sum (length l1) l1 + space_sum (n - length l1) l2.
Proof.
  revert n. induction l1 as [|c l1 IH]; intros n Hn; [by rewrite Nat.sub_0_r|].
  destruct n as [|n]; [cbn in Hn; lia|]. cbn [app length space_sum Nat.sub].
  rewrite IH by (cbn in Hn; lia). lia.
Qed.

Lemma space_sum_all n l : (length l <= n)%nat → space_sum n l = space_sum (length l) l.
Proof.
  intros Hn. rewrite <-(app_nil_r l) at 1. rewrite space_sum_app by done.
  by destruct (n - length l)%nat; rewrite Z.add_0_r.
Qed.

(** The room after [last_with_datap], when that is chain [c] followed by [l]. *)
Lemma room_at pre c l datlen n b b' :
  bf_chains b' = pre ++ c :: l → bf_lwd b' = length pre → Forall chain_ok (pre ++ c :: l) → Forall empty_chain l →
  bytes_of (pre ++ c :: l) = content b → buf_ok b → bf_total_len b' = bf_total_len b →
  bf_n_add b' = bf_n_add b → bf_n_del b' = bf_n_del b → bf_freeze_end b' = bf_freeze_end b →
  datlen <= (if (CHAIN_SPACE_LEN c =? 0)%nat then space_sum n l else space_sum n (c :: l)) →
  has_room datlen n b b'.
Proof.
  intros Hcs Hlwd Hok He Hby Hb Ht Ha Hd Hf Hroom.
  assert (bf_chains b' !! bf_lwd b' = Some c) as Hc by (rewrite Hcs, Hlwd; by apply list_lookup_middle).
  assert (content b' = content b) as Hcont by (unfold content at 1; by rewrite Hcs).
  split_and!; try done.
  - destruct Hb. constructor; [|by rewrite Hcont, Ht|by rewrite Ht|by rewrite Ha|by rewrite Hd].
    rewrite Hcs, Hlwd. constructor; [done|left; rewrite length_app; cbn; lia|].
    by rewrite <-Nat.add_1_r, drop_app_add.
  - unfold first_space. rewrite Hc, Hcs, Hlwd. destruct (CHAIN_SPACE_LEN c =? 0)%nat.
    + by rewrite <-Nat.add_1_r, drop_app_add.
    + by rewrite drop_app_length.
Qed.

Lemma victim_unpinned c l :
  Forall (λ c, CHAIN_PINNED c = false) (c :: l) → Forall empty_chain l →
  victim (c :: l) = if (c_off c =? 0)%nat then 0%nat else 1%nat.
Proof.
  intros [Hc Hl]%Forall_cons He. cbn [victim]. rewrite Hc. destruct (Nat.eqb_spec (c_off c) 0); [done|]. cbn.
  destruct l as [|c1 l]; [done|]. apply Forall_cons in Hl as [Hc1 _], He as [He1 _]. unfold empty_chain in He1.
  cbn [victim]. by rewrite He1, Hc1.
Qed.

Lemma lwd_split b :
  buf_ok b → bf_chains b ≠ [] →
  ∃ c l, bf_chains b = take (bf_lwd b) (bf_chains b) ++ c :: l ∧ length (take (bf_lwd b) (bf_chains b)) = bf_lwd b ∧
    drop (bf_lwd b) (bf_chains b) = c :: l ∧ bf_chains b !! bf_lwd b = Some c ∧ Forall empty_chain l.
Proof.
  intros [[H1 H2 H3] _ _ _ _] Hne. destruct H2 as [Hlt|[? _]]; [|done].
  destruct (lookup_lt_is_Some_2 _ _ Hlt) as [c Hc]. exists c, (drop (S (bf_lwd b)) (bf_chains b)).
  split_and!; [by rewrite take_drop_middle|rewrite length_take; lia|by apply drop_S|done|done].
Qed.

(** An empty chain put at the end, when nothing is pinned. *)
Lemma insert_empty_room datlen n tmp b :
  readable b → 0 <= datlen → (2 <= n)%nat → chain_ok tmp → empty_chain tmp → datlen <= Z.of_nat (CHAIN_SPACE_LEN tmp) →
  ∃ b', evbuffer_chain_insert tmp b = Some b' ∧ has_room datlen n b b'.
Proof.
  intros [Hb Hp Ht Hw] Hd Hn Hok He Hs. unfold evbuffer_chain_insert. unfold empty_chain in He.
  assert (u64 (bf_total_len b + Z.of_nat 0) = bf_total_len b) as Htot.
  { rewrite Z.add_0_r. apply u64_small. destruct Hb. lia. }
  assert ((CHAIN_SPACE_LEN tmp =? 0)%nat = true → datlen = 0) as Hz by (intros E%Nat.eqb_eq; lia).
  assert (datlen <= (if (CHAIN_SPACE_LEN tmp =? 0)%nat then space_sum n [] else space_sum n [tmp])) as Hroom1.
  { destruct (CHAIN_SPACE_LEN tmp =? 0)%nat; [rewrite Hz by done; apply space_sum_pos|].
    destruct n as [|[|n]]; [lia..|]. cbn. lia. }
  destruct (decide (bf_chains b = [])) as [Hnil|Hne].
  - rewrite Hnil. destruct (lo_lwd _ _ (bo_list _ Hb)) as [Hlt|[_ Hlwd]]; [rewrite Hnil in Hlt; cbn in Hlt; lia|].
    rewrite Hlwd, lookup_nil. cbn [Nat.eqb evassert length]. rewrite !bind_some_eq, He.
    eexists. split; [done|]. apply (room_at [] tmp []); try done; [by constructor|].
    unfold content. rewrite Hnil. cbn [app]. by rewrite bytes_of_cons, data_of_empty.
  - destruct (lwd_split b Hb Hne) as (c & l & Hcs & Hpre & Hdrop & Hc & Hel). rewrite Hc.
    destruct (free_trailing_ok b (bo_list _ Hb)) as (kept & Hk & Hk1 & Hk2 & _).
    pose proof Hk as Hk'. unfold evbuffer_free_trailing_empty_chains in Hk'. apply bind_Some in Hk' as ([] & _ & [= Hkept]).
    rewrite Hdrop, victim_unpinned in Hkept; [|rewrite <-Hdrop; by apply Forall_drop|done].
    rewrite Hk, !bind_some_eq, He. cbn [Nat.eqb]. eexists. split; [done|].
    destruct (Nat.eqb_spec (c_off c) 0) as [Hc0|Hc0].
    + rewrite Nat.add_0_r in Hkept. apply (room_at kept tmp []); try done.
      * by rewrite <-Hkept.
      * apply Forall_app. split; [done|by constructor].
      * by rewrite bytes_of_app, Hk2, bytes_of_cons, data_of_empty, app_nil_r.
    + assert (kept = take (bf_lwd b) (bf_chains b) ++ [c]) as Hkc.
      { rewrite <-Hkept, Nat.add_1_r. by apply take_S_r. }
      apply (room_at (take (bf_lwd b) (bf_chains b)) c [tmp]); try done.
      * cbn [bf_chains add_total set_bf_total_len set_bf_chains]. by rewrite Hkc, <-app_assoc.
      * rewrite (app_assoc _ [c] [tmp]), <-Hkc. apply Forall_app. split; [done|by constructor].
      * by constructor.
      * rewrite (app_assoc _ [c] [tmp]), <-Hkc. by rewrite bytes_of_app, Hk2, bytes_of_cons, data_of_empty, app_nil_r.
      * destruct n as [|[|n]]; [lia..|]. cbn [space_sum]. destruct (CHAIN_SPACE_LEN c =? 0)%nat; destruct n; cbn; lia.
Qed.

(** ** [evbuffer_expand_fast_] *)

Definition expanded (ok : bool) (datlen : Z) (n : nat) (b : evbuffer) (r : option (Z * evbuffer)) : Prop :=
  ∃ z b', r = Some (z, b') ∧
    (z = 0 ∧ has_room datlen n b b' ∨ z = -1 ∧ buf_ok b' ∧ content b' = content b) ∧
    (ok = true → datlen <= EVBUFFER_CHAIN_MAX - EVBUFFER_CHAIN_SIZE → z = 0).

(** A buffer whose chains from [last_with_datap] on are replaced. *)
Lemma buf_ok_tail pre c l b :
  buf_ok b → bf_lwd b = length pre → Forall chain_ok (pre ++ c :: l) → Forall empty_chain l →
  bytes_of (pre ++ c :: l) = content b →
  buf_ok (set_bf_chains (pre ++ c :: l) b) ∧ content (set_bf_chains (pre ++ c :: l) b) = content b.
Proof.
  intros Hb Hlwd Hok He Hby. destruct (room_at pre c l 0 0 b (set_bf_chains (pre ++ c :: l) b)) as (H1 & H2 & _); try done.
  by destruct (CHAIN_SPACE_LEN c =? 0)%nat.
Qed.

(** All the chains from [last_with_datap] on are replaced by one that is large enough. *)
Lemma expand_replace ok datlen n b pre c' l' avail :
  buf_ok b → bf_lwd b = length pre → Forall chain_ok (pre ++ c' :: l') → Forall empty_chain l' →
  bytes_of (pre ++ c' :: l') = content b → (empty_chain c' → bf_lwd b = 0%nat) →
  (¬ empty_chain c' → Z.of_nat (CHAIN_SPACE_LEN c') <= avail) → avail < datlen → (2 <= n)%nat → 0 <= datlen →
  let b1 := set_bf_chains (pre ++ c' :: l') b in
  let rmv_all := (c_off c' =? 0)%nat in
  let avail := if rmv_all then 0 else Z.of_nat (CHAIN_SPACE_LEN c') in
  let victims := drop (if rmv_all then bf_lwd b else S (bf_lwd b)) (bf_chains b1) in
  expanded ok datlen n b
    (ASSERT (negb rmv_all || (bf_lwd b =? 0)%nat) ;;
     ASSERT (evbuffer_chains_all_empty victims) ;;
     ASSERT (avail <=? datlen) ;;
     match evbuffer_chain_new ok (datlen - avail) with
     | None =>
       Some (-1, if rmv_all then ZERO_CHAIN b1 else set_bf_chains (take (S (bf_lwd b)) (bf_chains b1)) b1)
     | Some tmp =>
       Some (0, if rmv_all then set_bf_lwd 0 (set_bf_chains [tmp] b1)
                else set_bf_chains (take (S (bf_lwd b)) (bf_chains b1) ++ [tmp]) b1)
     end).
Proof.
  intros Hb Hlwd Hok He Hby Htight Hav Hlt Hn Hd. cbv zeta.
  remember (c_off c' =? 0)%nat as rmv_all eqn:Hrv. symmetry in Hrv.
  set (b1 := set_bf_chains (pre ++ c' :: l') b). set (av := if rmv_all then 0 else _).
  set (victims := drop _ (bf_chains b1)).
  assert (bytes_of l' = []) as Hl0 by by apply bytes_of_empty.
  assert (rmv_all = true → empty_chain c' ∧ pre = [] ∧ content b = []) as Hall.
  { intros ->. apply Nat.eqb_eq in Hrv. assert (pre = []) as Hpre.
    { apply length_zero_iff_nil. rewrite <-Hlwd. by apply Htight. }
    split_and!; [done|done|]. rewrite <-Hby, Hpre. cbn [app]. by rewrite bytes_of_cons, Hl0, data_of_empty. }
  assert (rmv_all = false → ¬ empty_chain c') as Hsome by (intros ->; by apply Nat.eqb_neq).
  assert (0 <= av <= datlen) as Hav'.
  { unfold av. destruct rmv_all eqn:E; [lia|]. specialize (Hav (Hsome eq_refl)). lia. }
  rewrite (evassert_true (negb rmv_all || (bf_lwd b =? 0)%nat)) by (destruct rmv_all; [|done]; apply Nat.eqb_eq, Htight; by apply Hall).
  rewrite bind_some_eq.
  rewrite (evassert_true (evbuffer_chains_all_empty victims)).
  2: { apply all_empty_spec. unfold victims. cbn [bf_chains b1 set_bf_chains]. rewrite Hlwd. destruct rmv_all.
       - rewrite drop_app_length. constructor; [by apply Hall|done].
       - by rewrite <-Nat.add_1_r, drop_app_add. }
  rewrite bind_some_eq. rewrite evassert_true by (apply Z.leb_le; lia). rewrite bind_some_eq.
  assert (take (S (bf_lwd b)) (bf_chains b1) = pre ++ [c']) as Htake.
  { cbn [bf_chains b1 set_bf_chains]. rewrite Hlwd.
    replace (S (length pre)) with (length pre + 1)%nat by lia. rewrite take_app_add. done. }
  apply Forall_app in Hok as [Hok1 [Hok2 Hok3]%Forall_cons].
  destruct (evbuffer_chain_new ok (datlen - av)) as [tmp|] eqn:Hnew; eexists _, _; (split; [done|]).
  - apply new_chain_space in Hnew as (Ht1 & Ht2 & Ht3 & _); [|lia]. split; [|done]. left. split; [done|].
    destruct rmv_all eqn:E.
    + destruct (Hall eq_refl) as (_ & _ & Hc0). apply (room_at [] tmp []); try done; [by constructor| |].
      * cbn [app]. by rewrite bytes_of_cons, data_of_empty, Hc0.
      * unfold av in Ht3. destruct n as [|[|n]]; [lia..|]. cbn.
        destruct (Nat.eqb_spec (CHAIN_SPACE_LEN tmp) 0); lia.
    + rewrite Htake. apply (room_at pre c' [tmp]); try done.
      * cbn [bf_chains set_bf_chains]. by rewrite <-app_assoc.
      * apply Forall_app. split; [done|]. constructor; [done|by constructor].
      * by constructor.
      * rewrite <-Hby, !bytes_of_app, !bytes_of_cons, Hl0, (data_of_empty tmp) by done. done.
      * unfold av in Ht3. destruct n as [|[|n]]; [lia..|]. cbn [space_sum].
        destruct (Nat.eqb_spec (CHAIN_SPACE_LEN c') 0); destruct n; cbn; lia.
  - split; [right; split; [done|]|].
    + destruct rmv_all eqn:E.
      * destruct (Hall eq_refl) as (_ & _ & Hc0). destruct Hb.
        split; [|by rewrite Hc0]. constructor; [apply list_ok_nil|done|done|done|done].
      * rewrite Htake. change (set_bf_chains (pre ++ [c']) b1) with (set_bf_chains (pre ++ [c']) b).
        apply buf_ok_tail; try done.
        -- apply Forall_app. split; [done|by constructor].
        -- rewrite <-Hby, !bytes_of_app, !bytes_of_cons, Hl0. done.
    + intros -> Hm. apply chain_new_none in Hnew as [|]; [done|lia].
Qed.

Lemma expand_fast_ok ok datlen n b :
  readable b → 0 <= datlen → (2 <= n)%nat → expanded ok datlen n b (evbuffer_expand_fast_ ok datlen n b).
Proof.
  intros Hr Hd Hn. destruct (Hr) as [Hb Hp Ht Hw]. unfold evbuffer_expand_fast_.
  rewrite (evassert_true (2 <=? n)%nat) by by apply Nat.leb_le. rewrite bind_some_eq.
  destruct (match bf_last b with None => true | Some c => c_flags c &? EVBUFFER_IMMUTABLE end) eqn:Hlast.
  { destruct (evbuffer_chain_new ok datlen) as [tmp|] eqn:Hnew.
    - apply new_chain_space in Hnew as (H1 & H2 & H3 & _); [|done].
      destruct (insert_empty_room datlen n tmp b) as (b' & -> & Hroom); [done..|]. rewrite bind_some_eq.
      exists 0, b'. split_and!; [done|by left|done].
    - exists (-1), b. split_and!; [done|by right|]. intros -> Hm. apply chain_new_none in Hnew as [|]; [done|lia]. }
  assert (bf_chains b ≠ []) as Hne by (intros E; unfold bf_last in Hlast; by rewrite E in Hlast).
  destruct (lwd_split b Hb Hne) as (c & l & Hcs & Hpre & Hdrop & Hc & Hel). cbv zeta.
  set (pre := take (bf_lwd b) (bf_chains b)) in *. rewrite Hdrop in *.
  assert (Forall chain_ok (pre ++ c :: l)) as [Hok1 Hok2]%Forall_app by (rewrite <-Hcs; apply Hb).
  destruct (expand_scan_ok c l datlen n) as (c' & l' & e & used & avail & -> & Hre & Hend & Hoff & Hnon & Hav0 & Hav);
    [done..|]. rewrite bind_some_eq.
  destruct (realigned_ok _ _ Hre Hok2) as (Hok' & Hby' & _).
  assert (Forall empty_chain l') as Hel' by (inversion Hre; by eapply realigned_empty).
  assert (c_off c' = c_off c) as Hco.
  { inversion Hre as [|? ? ? ? [->|[_ ->]]]; done. }
  assert (Forall chain_ok (pre ++ c' :: l')) as Hokall by (apply Forall_app; done).
  assert (bytes_of (pre ++ c' :: l') = content b) as Hbyall.
  { rewrite bytes_of_app, Hby', <-bytes_of_app, <-Hcs. done. }
  destruct e; cbn [scan_ends] in Hend.
  - (* enough *)
    eexists 0, _. split; [done|]. split; [|done]. left. split; [done|].
    apply (room_at pre c' l'); try done. destruct Hend as [H1 H2].
    destruct (CHAIN_SPACE_LEN c' =? 0)%nat;
      [pose proof (space_sum_mono used n l' H2)|pose proof (space_sum_mono used n (c' :: l') H2)]; lia.
  - (* [n] chains are not enough *)
    destruct Hend as [H1 ->]. rewrite (proj2 (Nat.ltb_ge n n)) by lia.
    cbn [bf_chains set_bf_chains]. rewrite <-Hpre at 1. rewrite list_lookup_middle by done. rewrite bind_some_eq.
    apply (expand_replace ok datlen n b pre c' l' avail); try done.
    + intros He. apply (Ht c Hc). unfold empty_chain in *. congruence.
    + intros Hnc. destruct Hnon as [-> ?]; [|done]. unfold empty_chain in *. congruence.
  - (* the end of the list *)
    rewrite (proj2 (Nat.ltb_lt used n)) by done. cbn [evassert]. rewrite bind_some_eq.
    destruct (Hoff eq_refl) as [H1 H2].
    destruct (evbuffer_chain_new ok (datlen - avail)) as [tmp|] eqn:Hnew; eexists _, _; (split; [done|]).
    + apply new_chain_space in Hnew as (T1 & T2 & T3 & _); [|lia]. split; [|done]. left. split; [done|].
      apply (room_at pre c' (l' ++ [tmp])); try done.
      * cbn [bf_chains set_bf_chains]. by rewrite <-app_assoc.
      * rewrite app_comm_cons, app_assoc. apply Forall_app. split; [done|by constructor].
      * apply Forall_app. split; [done|by constructor].
      * rewrite app_comm_cons, app_assoc, bytes_of_app, Hbyall, bytes_of_cons, (data_of_empty tmp), app_nil_r by done. done.
      * assert (∀ L, (length L <= used)%nat → space_sum used L + Z.of_nat (CHAIN_SPACE_LEN tmp) <= space_sum n (L ++ [tmp])) as Hsum.
        { intros L HL. rewrite space_sum_app by lia. rewrite (space_sum_all used L HL).
          destruct (n - length L)%nat as [|[|m]] eqn:E; [lia|cbn; lia..]. }
        destruct (CHAIN_SPACE_LEN c' =? 0)%nat.
        -- assert (length l' <= used)%nat as HL by (destruct H2 as [[_ ?]|?]; cbn in *; lia).
           specialize (Hsum l' HL). lia.
        -- destruct H2 as [[? _]|HL]; [done|]. specialize (Hsum (c' :: l') HL).
           rewrite app_comm_cons. lia.
    + split; [right; split; [done|]|].
      * by apply buf_ok_tail.
      * intros -> Hm. apply chain_new_none in Hnew as [|]; [done|lia].
Qed.

(** ** Filling the room *)

(** Storing at the free end of a chain leaves its data alone; extending the
    chain over what was stored appends it. *)
Lemma fill_space_ok d c :
  chain_ok c → (length d <= CHAIN_SPACE_LEN c)%nat →
  ∃ buf, memcpy_at (CHAIN_SPACE_PTR c) d (c_buffer c) = Some buf ∧
    CHAIN_SPACE_LEN (set_c_buffer buf c) = CHAIN_SPACE_LEN c ∧
    chain_ok (set_c_off (c_off c + length d) (set_c_buffer buf c)) ∧
    data_of (set_c_off (c_off c + length d) (set_c_buffer buf c)) = data_of c ++ d ∧
    (d = [] → set_c_buffer buf c = c).
Proof.
  intros Hc Hd. assert (c_misalign c + c_off c + length d <= buffer_len c)%nat as Hroom.
  { unfold CHAIN_SPACE_LEN in Hd. destruct Hc as [H _]. destruct (c_flags c &? _); lia. }
  destruct (chain_write_end_ok d c Hc Hroom) as (c' & Hw & Hc' & Hd' & _).
  unfold chain_write_end in Hw. apply bind_Some in Hw as (buf & Hbuf & [= <-]). exists buf.
  assert (length buf = length (c_buffer c)) as Hlen.
  { unfold CHAIN_SPACE_PTR, buffer_len in *. rewrite memcpy_at_ok in Hbuf by lia. injection Hbuf as <-. apply length_memcpy. lia. }
  split_and!; [done| |done|done|].
  - unfold CHAIN_SPACE_LEN, buffer_len. cbn. by rewrite Hlen.
  - intros ->. unfold CHAIN_SPACE_PTR, buffer_len in *. rewrite memcpy_at_ok in Hbuf by (cbn in *; lia).
    injection Hbuf as <-. cbn. rewrite Nat.add_0_r, take_drop. by destruct c.
Qed.

Lemma set_chain_middle pre c c' l b :
  bf_chains b = pre ++ c :: l → set_chain (length pre) c' b = set_bf_chains (pre ++ c' :: l) b.
Proof. intros H. unfold set_chain. rewrite H, <-(Nat.add_0_r (length pre)). by rewrite insert_app_r. Qed.

Lemma readv_store_nil b : readv_store [] [] b = Some b.
Proof. cbn. by rewrite decide_True. Qed.

(** There are vectors for all that was asked for; storing nothing in them changes nothing. *)
Lemma setup_vecs_ok n l i howmuch so_far :
  Forall chain_ok l → howmuch - so_far <= space_sum n l →
  ∃ vs, setup_vecs l i n howmuch so_far true = Some vs ∧
    ∀ pre b, bf_chains b = pre ++ l → length pre = i → readv_store vs [] b = Some b.
Proof.
  revert l i so_far. induction n as [|n IH]; intros l i so_far Hok Hroom.
  { exists []. split; [by destruct l|intros; apply readv_store_nil]. }
  destruct (Z.ltb_spec so_far howmuch) as [Hlt|Hge].
  2: { exists []. split; [destruct l; cbn; by rewrite (proj2 (Z.ltb_ge _ _) Hge)|intros; apply readv_store_nil]. }
  destruct l as [|c l]; [cbn in Hroom; lia|]. cbn [setup_vecs]. rewrite (proj2 (Z.ltb_lt _ _) Hlt). apply Forall_cons in Hok as [Hc Hok]. cbv zeta.
  cbn [space_sum] in Hroom. rewrite andb_true_r. set (avail := if _ <? _ then _ else _).
  destruct (IH l (S i) (so_far + Z.of_nat avail) Hok) as (vs & -> & Hvs).
  { unfold avail. destruct (Z.ltb_spec (howmuch - so_far) (Z.of_nat (CHAIN_SPACE_LEN c))); [|lia].
    pose proof (space_sum_pos n l). lia. }
  rewrite bind_some_eq. eexists. split; [done|]. intros pre b Hb Hi. cbn [readv_store].
  unfold iovec_fill. cbn [v_chain v_base v_len space_vec]. rewrite Hb, <-Hi, list_lookup_middle by done.
  rewrite bind_some_eq, take_nil, drop_nil. destruct (fill_space_ok [] c Hc) as (buf & -> & _ & _ & _ & Hsame); [cbn; lia|].
  rewrite bind_some_eq, Hsame, bind_some_eq, (set_chain_middle pre c c l) by done. rewrite <-Hb.
  replace (set_bf_chains (bf_chains b) b) with b by by destruct b.
  apply (Hvs (pre ++ [c])); [by rewrite <-app_assoc|rewrite length_app; cbn; lia].
Qed.

(** Filling the vectors and counting what they got appends the bytes read. *)
Lemma read_chunks n l i howmuch so_far pre d b lwd :
  Forall chain_ok l → Forall empty_chain (drop 1 l) → bf_chains b = pre ++ l → length pre = i →
  howmuch - so_far <= space_sum n l → d ≠ [] → Z.of_nat (length d) <= howmuch - so_far →
  ∃ vs l1 l2 lwd', setup_vecs l i n howmuch so_far true = Some vs ∧
    readv_store vs d b = Some (set_bf_chains (pre ++ l1) b) ∧
    read_commit l1 (length vs) i (length d) lwd = Some (l2, lwd') ∧
    Forall chain_ok l2 ∧ bytes_of l2 = bytes_of l ++ d ∧ length l2 = length l ∧
    (i <= lwd' < i + length l)%nat ∧ Forall empty_chain (drop (S (lwd' - i)) l2).
Proof.
  revert l i so_far pre d b. induction n as [|n IH]; intros l i so_far pre d b Hok He Hb Hi Hroom Hd Hlen;
    (assert (0 < length d)%nat as Hd0 by (destruct d; [done|cbn; lia])).
  { destruct l; cbn in Hroom; lia. }
  destruct l as [|c l]; [cbn in Hroom; lia|]. cbn [setup_vecs].
  rewrite (proj2 (Z.ltb_lt so_far howmuch)) by lia. apply Forall_cons in Hok as [Hc Hok]. cbv zeta.
  cbn [space_sum] in Hroom. rewrite andb_true_r. cbn [drop] in He. rewrite drop_0 in He.
  set (space := CHAIN_SPACE_LEN c) in *. set (avail := if _ <? _ then _ else _).
  assert ((avail <= space)%nat ∧ (avail = space ∨ Z.of_nat avail = howmuch - so_far)) as [Ha1 Ha2].
  { unfold avail. destruct (Z.ltb_spec (howmuch - so_far) (Z.of_nat space)); lia. }
  destruct (fill_space_ok (take avail d) c Hc) as (buf & Hbuf & Hsp & Hok1 & Hd1 & _).
  { rewrite length_take. fold space. lia. }
  fold space in Hsp. set (c1 := set_c_buffer buf c) in *.
  assert (∀ vs, readv_store (space_vec i c avail :: vs) d b =
    readv_store vs (drop avail d) (set_bf_chains (pre ++ c1 :: l) b)) as Hstore.
  { intros vs. cbn [readv_store]. unfold iovec_fill. cbn [v_chain v_base v_len space_vec].
    rewrite Hb, <-Hi, list_lookup_middle by done. rewrite bind_some_eq, Hbuf, !bind_some_eq.
    by rewrite (set_chain_middle pre c c1 l) by done. }
  destruct (Nat.ltb_spec space (length d)) as [Hmore|Hfits].
  - assert (avail = space) as Hav by lia. rewrite Hav in *.
    assert (length (take space d) = space) as Hlt by (rewrite length_take; lia).
    destruct (IH l (S i) (so_far + Z.of_nat space) (pre ++ [c1]) (drop space d) (set_bf_chains (pre ++ c1 :: l) b))
      as (vs & l1 & l2 & lwd' & -> & Hs & Hr & H1 & H2 & H3 & H4 & H5);
      [done|by apply Forall_drop|by rewrite <-app_assoc|rewrite length_app; cbn; lia|lia| |rewrite length_drop; lia|].
    { intros E. apply (f_equal length) in E. rewrite length_drop in E. cbn in E. lia. }
    rewrite bind_some_eq. eexists _, (c1 :: l1), (set_c_off (c_off c1 + space) c1 :: l2), lwd'.
    rewrite Hstore, Hs. cbn [length read_commit]. rewrite Hsp, (proj2 (Nat.ltb_lt _ _) Hmore).
    rewrite length_drop in Hr. rewrite Hr, bind_some_eq. rewrite Hlt in *.
    split_and!; [done|by rewrite <-app_assoc|done|by constructor| |cbn; lia|lia|lia|].
    + rewrite !bytes_of_cons, H2, (bytes_of_empty l He). change (c_off c1) with (c_off c). rewrite Hd1.
      cbn [app]. by rewrite app_nil_r, <-app_assoc, take_drop.
    + replace (S (lwd' - i)) with (S (S (lwd' - S i))) by lia. done.
  - destruct (setup_vecs_ok n l (S i) howmuch (so_far + Z.of_nat avail) Hok) as (vs & -> & Hvs).
    { pose proof (space_sum_pos n l). lia. }
    rewrite bind_some_eq. assert (length d <= avail)%nat as Hda by lia.
    rewrite (take_ge d) in * by done.
    eexists _, (c1 :: l), (set_c_off (c_off c1 + length d) c1 :: l), i.
    rewrite Hstore, (drop_ge d) by done.
    rewrite (Hvs (pre ++ [c1])); [|by rewrite <-app_assoc|rewrite length_app; cbn; lia].
    cbn [length read_commit]. rewrite Hsp, (proj2 (Nat.ltb_ge _ _) Hfits).
    split_and!; [done..|by constructor| |done|lia|lia|].
    + rewrite !bytes_of_cons, (bytes_of_empty l He), !app_nil_r. done.
    + by rewrite Nat.sub_diag.
Qed.

Lemma howmuch_range fionread howmuch : 0 <= howmuch_to_read fionread howmuch <= EVBUFFER_MAX_READ.
Proof.
  unfold howmuch_to_read. destruct (Z.leb_spec fionread 0), (Z.ltb_spec EVBUFFER_MAX_READ fionread), (Z.ltb_spec howmuch 0);
    cbn [orb]; repeat case_match; rewrite ?Z.ltb_lt, ?Z.ltb_ge in *; lia.
Qed.

(** The last chain with data is in the second part. *)
Lemma list_ok_app l1 l2 lwd : Forall chain_ok l1 → Forall chain_ok l2 → (length l1 <= lwd < length l1 + length l2)%nat →
  Forall empty_chain (drop (S (lwd - length l1)) l2) → list_ok (l1 ++ l2) lwd.
Proof.
  intros H1 H2 Hl He. constructor; [by apply Forall_app|left; rewrite length_app; lia|].
  rewrite drop_app_ge by lia. by replace (S lwd - length l1)%nat with (S (lwd - length l1)) by lia.
Qed.

(** C16. [evbuffer_read] appends what was read: on a well-formed buffer with
    nothing pinned, whatever the socket says and however many bytes [readv]
    returns (at most what it was asked for), no assertion fails, the bytes read
    end up at the end of the content in order, over as many chains as needed,
    and their number is returned; an error, an end of file and a failed
    allocation leave the content alone. *)
Theorem evbuffer_read_correct ok fionread rd howmuch b :
  readable b → bf_freeze_end b = false →
  Z.of_nat (length (content b)) + EVBUFFER_MAX_READ <= EV_SIZE_MAX →
  (∀ d, rd = Some d → Z.of_nat (length d) <= howmuch_to_read fionread howmuch) →
  ∃ r b', evbuffer_read ok fionread rd howmuch b = Some (r, b') ∧ buf_ok b' ∧
    (r = -1 ∧ (ok = false ∨ rd = None) ∧ content b' = content b ∨
     ∃ d, rd = Some d ∧ r = Z.of_nat (length d) ∧ content b' = content b ++ d).
Proof.
  intros Hr Hfr Hmax Hrd. unfold evbuffer_read. rewrite Hfr.
  set (lim := howmuch_to_read fionread howmuch) in *.
  pose proof (howmuch_range fionread howmuch : 0 <= lim <= EVBUFFER_MAX_READ) as Hlim.
  destruct (expand_fast_ok ok lim NUM_READ_IOVEC b Hr) as (z & b1 & -> & Hz & Hok); [lia..|].
  rewrite bind_some_eq. destruct Hz as [[-> Hroom]|(-> & Hb1 & Hc1)].
  2: { exists (-1), b1. split_and!; [done..|]. left. split_and!; [done| |done]. left. destruct ok; [|done].
       by specialize (Hok eq_refl ltac:(lia)). }
  destruct Hroom as (Hb1 & Hc1 & [c Hc] & Hspace & _). cbn [Z.eqb].
  unfold evbuffer_read_setup_vecs_. rewrite (proj2 (Z.ltb_ge lim 0)) by lia. rewrite Hc, bind_some_eq.
  unfold first_space in Hspace. rewrite Hc in Hspace.
  set (first := if (CHAIN_SPACE_LEN c =? 0)%nat then _ else _) in *.
  assert (first <= length (bf_chains b1))%nat as Hfl.
  { apply lookup_lt_Some in Hc. unfold first. case_match; lia. }
  destruct rd as [d|]; cycle 1.
  { destruct (setup_vecs_ok NUM_READ_IOVEC (drop first (bf_chains b1)) first lim 0) as (vs & -> & _);
      [apply Forall_drop, Hb1|lia|]. rewrite !bind_some_eq. exists (-1), b1. split_and!; [done..|]. left. auto. }
  specialize (Hrd d eq_refl). destruct d as [|x d'].
  { destruct (setup_vecs_ok NUM_READ_IOVEC (drop first (bf_chains b1)) first lim 0) as (vs & -> & _);
      [apply Forall_drop, Hb1|lia|]. rewrite !bind_some_eq. exists 0, b1. split_and!; [done..|]. right.
    exists []. by rewrite app_nil_r. }
  set (d := x :: d') in *.
  destruct (read_chunks NUM_READ_IOVEC (drop first (bf_chains b1)) first lim 0 (take first (bf_chains b1)) d b1 (bf_lwd b1))
    as (vs & l1 & l2 & lwd' & -> & Hs & Hrc & H1 & H2 & H3 & H4 & H5);
    [apply Forall_drop, Hb1| |by rewrite take_drop|rewrite length_take; lia|lia|done|lia|].
  { rewrite drop_drop. eapply drop_empty_mono; [|apply (bo_list _ Hb1)]. unfold first. case_match; lia. }
  assert (length (take first (bf_chains b1)) = first) as Hft by (rewrite length_take; lia).
  rewrite !bind_some_eq. cbv iota beta. unfold d at 1. cbv iota beta. fold d. rewrite Hs. rewrite bind_some_eq.
  cbn [bf_chains set_bf_chains bf_lwd]. rewrite drop_app_length' by done. fold d. rewrite Hrc, bind_some_eq.
  rewrite (take_app_length' _ l1 first) by done.
  set (cs := take first (bf_chains b1) ++ l2).
  assert (bytes_of cs = content b1 ++ d) as Hby.
  { unfold cs. rewrite bytes_of_app, H2, app_assoc, <-bytes_of_app, take_drop. done. }
  assert (list_ok cs lwd') as Hl by (apply list_ok_app; [apply Forall_take, Hb1|done|rewrite Hft, H3; lia|by rewrite Hft]).
  pose proof (changed_counted cs lwd' (length d) b1 Hb1) as Hch.
  rewrite Hc1 in Hch. specialize (Hch ltac:(lia)). rewrite Hby, length_app, Hc1 in Hch. specialize (Hch eq_refl).
  eexists _, _. split; [done|].
  change (set_bf_lwd lwd' (set_bf_chains cs (set_bf_chains _ b1))) with (set_bf_lwd lwd' (set_bf_chains cs b1)).
  rewrite Hch. split.
  - apply buf_ok_invoke, buf_ok_changed; [done|]. rewrite Hby, length_app, Hc1. lia.
  - right. exists d. split_and!; [done..|]. rewrite content_invoke. change (content (changed _ _ _ _ _)) with (bytes_of cs).
    by rewrite Hby, Hc1.
Qed.
