(* ===== verification/Tagging.v ===== *)
(** * Tagged encoding (event_tagging.c)

    Records are a tag (seven bits per byte, the high bit says that more follow),
    a length (a count of nibbles and the nibbles, two per byte) and the data.
    Encoding appends to a buffer and decoding takes from its front, through the
    operations of the byte buffers; the allocations that [evbuffer_pullup] and
    [evbuffer_add] make are given by an oracle. *)

From S2P Require Import Prelude TimeVal BufferCore BufferMove BufferInv.

(** ** Encoding of integers *)

(** One nibble is stored at place [off] of the array. *)
Definition put_nibble (off : nat) (v d : Z) : Z :=
  if Nat.odd off then Z.lor (Z.land d 240) v else Z.lor (Z.land d 15) (Z.shiftl v 4).

(** [while (number)]: a 64-bit number has 16 nibbles. *)
Fixpoint encode_int_loop (fuel : nat) (data : bytes) (number : Z) (off : nat) : option (bytes * nat) :=
  match fuel with
  | O => None
  | S fuel =>
    if number =? 0 then Some (data, off)
    else
      d ← data !! (off / 2)%nat;
      data ← store_at (off / 2) (put_nibble off (Z.land number 15) d) data;
      encode_int_loop fuel data (Z.shiftr number 4) (S off)
  end.

(** The macro, for a number of [size] bytes: the bytes of [data] that were written. *)
Definition ENCODE_INT_INTERNAL (size : nat) (number : Z) : option bytes :=
  '(data, off) ← encode_int_loop 17 (replicate (size + 1) 0) number 1;
  let nibbles := if (2 <? off)%nat then (off - 2)%nat else 0%nat in
  d ← data !! 0%nat;
  data ← store_at 0 (Z.lor (Z.land d 15) (Z.shiftl (Z.land (Z.of_nat nibbles) 15) 4)) data;
  Some (take ((off + 1) / 2) data).

Definition encode_int_internal (number : Z) : option bytes := ENCODE_INT_INTERNAL 4 number.
Definition encode_int64_internal (number : Z) : option bytes := ENCODE_INT_INTERNAL 8 number.

(** Appending to a buffer: the result of [evbuffer_add] is ignored. *)
Definition tag_add (m : mallocs) (d : bytes) (b : evbuffer) : option evbuffer :=
  '(_, b) ← evbuffer_add m d b; Some b.

Definition evtag_encode_int (m : mallocs) (number : Z) (b : evbuffer) : option evbuffer :=
  d ← encode_int_internal number; tag_add m d b.
Definition evtag_encode_int64 (m : mallocs) (number : Z) (b : evbuffer) : option evbuffer :=
  d ← encode_int64_internal number; tag_add m d b.

(** ** Tags *)

(** The bytes of a tag; [room] is what is left of the array of five bytes. *)
Fixpoint encode_tag_loop (room : nat) (tag : Z) : option bytes :=
  match room with
  | O => None
  | S room =>
    let lower := Z.land tag 127 in
    let tag := Z.shiftr tag 7 in
    if tag =? 0 then Some [lower]
    else rest ← encode_tag_loop room tag; Some (Z.lor lower 128 :: rest)
  end.

Definition tag_bytes (tag : Z) : option bytes := encode_tag_loop 5 tag.

(** The number of bytes and the buffer. *)
Definition evtag_encode_tag (m : mallocs) (tag : Z) (b : evbuffer) : option (Z * evbuffer) :=
  d ← tag_bytes tag; b ← tag_add m d b; Some (Z.of_nat (length d), b).

(** The loop over the bytes that were made contiguous; [count] of the [len] bytes
    of the buffer were seen.  [Some None] stands for the result -1; a byte that was
    not made contiguous is out of bounds. *)
Fixpoint decode_tag_loop (data : bytes) (number shift : Z) (count len : nat) : option (option (Z * nat)) :=
  match data with
  | [] => if (count <? len)%nat then None else Some None
  | lower :: data =>
    if (count <? len)%nat then
      if (28 <=? shift) && ((28 <? shift) || (15 <? Z.land lower 127)) then Some None
      else
        let number := Z.lor number (u32 (Z.shiftl (Z.land lower 127) shift)) in
        if Z.land lower 128 =? 0 then Some (Some (number, S count))
        else decode_tag_loop data number (shift + 7) (S count) len
    else Some None
  end.

(** The result, the tag when there is one, and the buffer. *)
Definition decode_tag_internal (ok dodrain : bool) (b : evbuffer) : option (Z * option Z * evbuffer) :=
  let len := evbuffer_get_length b in
  '(data, b) ← evbuffer_pullup ok (if len <? 5 then len else 5) b;
  match data with
  | None => Some (-1, None, b)
  | Some data =>
    r ← decode_tag_loop data 0 0 0 (Z.to_nat len);
    match r with
    | None => Some (-1, None, b)
    | Some (number, count) =>
      '(_, b) ← (if dodrain then evbuffer_drain (Z.of_nat count) b else Some (0, b));
      Some (if INT_MAX <? Z.of_nat count then INT_MAX else Z.of_nat count, Some number, b)
    end
  end.

Definition evtag_decode_tag (ok : bool) (b : evbuffer) := decode_tag_internal ok true b.
Definition evtag_peek (ok : bool) (b : evbuffer) := decode_tag_internal ok false b.

(** ** Decoding of integers *)

Definition get_nibble (data : bytes) (nibbles : nat) : option Z :=
  d ← data !! (nibbles / 2)%nat;
  Some (if Nat.odd nibbles then Z.land d 15 else Z.shiftr (Z.land d 240) 4).

Fixpoint decode_int_loop (w : Z) (data : bytes) (nibbles : nat) (number : Z) : option Z :=
  match nibbles with
  | O => Some number
  | S n =>
    v ← get_nibble data nibbles;
    decode_int_loop w data n (Z.lor (wrap w (Z.shiftl number 4)) v)
  end.

(** The macro: the encoded length and the number, or -1.  [offset] is added to the
    pointer that [evbuffer_pullup] returned before it is compared with NULL, so a
    NULL is noticed only for [offset] zero: otherwise the access is out of bounds. *)
Definition DECODE_INT_INTERNAL (ok1 ok2 : bool) (w maxnibbles : Z) (offset : nat) (b : evbuffer) :
    option (Z * option Z * evbuffer) :=
  let len := i64 (u64 (evbuffer_get_length b - Z.of_nat offset)) in
  if len <=? 0 then Some (-1, None, b)
  else
    '(data, b) ← evbuffer_pullup ok1 (Z.of_nat offset + 1) b;
    match data with
    | None => if (offset =? 0)%nat then Some (-1, None, b) else None
    | Some data =>
      d ← data !! offset;
      let nibbles := Z.shiftr (Z.land d 240) 4 + 1 in
      if (maxnibbles <? nibbles) || (len <? Z.shiftr nibbles 1 + 1) then Some (-1, None, b)
      else
        let len := Z.shiftr nibbles 1 + 1 in
        '(data, b) ← evbuffer_pullup ok2 (Z.of_nat offset + len) b;
        match data with
        | None => if (offset =? 0)%nat then Some (-1, None, b) else None
        | Some data =>
          number ← decode_int_loop w (drop offset data) (Z.to_nat nibbles) 0;
          Some (len, Some number, b)
        end
    end.

Definition decode_int_internal (m : mallocs) (offset : nat) (b : evbuffer) :=
  DECODE_INT_INTERNAL (m 0%nat) (m 1%nat) 32 8 offset b.
Definition decode_int64_internal (m : mallocs) (offset : nat) (b : evbuffer) :=
  DECODE_INT_INTERNAL (m 0%nat) (m 1%nat) 64 16 offset b.

(** Decoding from the front and removing what was decoded. *)
Definition decode_and_drain (r : option (Z * option Z * evbuffer)) : option (Z * option Z * evbuffer) :=
  '(res, number, b) ← r;
  if res =? -1 then Some (-1, number, b)
  else '(_, b) ← evbuffer_drain res b; Some (0, number, b).

Definition evtag_decode_int (m : mallocs) (b : evbuffer) := decode_and_drain (decode_int_internal m 0 b).
Definition evtag_decode_int64 (m : mallocs) (b : evbuffer) := decode_and_drain (decode_int64_internal m 0 b).

(** ** Records *)

Definition evtag_marshal (m : mallocs) (tag : Z) (data : bytes) (b : evbuffer) : option evbuffer :=
  '(_, b) ← evtag_encode_tag m tag b;
  b ← evtag_encode_int (later_mallocs 2 m) (u32 (Z.of_nat (length data))) b;
  tag_add (later_mallocs 4 m) data b.

(** The new buffers: the one written to and the one that was moved. *)
Definition evtag_marshal_buffer (m : mallocs) (tag : Z) (b data : evbuffer) : option (evbuffer * evbuffer) :=
  '(_, b) ← evtag_encode_tag m tag b;
  b ← evtag_encode_int (later_mallocs 2 m) (u32 (evbuffer_get_length data)) b;
  '(_, b, data) ← evbuffer_add_buffer (m 4%nat) b data;
  Some (b, data).

Definition marshal_encoded (m : mallocs) (tag : Z) (d : option bytes) (b : evbuffer) : option evbuffer :=
  data ← d;
  '(_, b) ← evtag_encode_tag m tag b;
  b ← evtag_encode_int (later_mallocs 2 m) (Z.of_nat (length data)) b;
  tag_add (later_mallocs 4 m) data b.

Definition evtag_marshal_int (m : mallocs) (tag integer : Z) (b : evbuffer) : option evbuffer :=
  marshal_encoded m tag (encode_int_internal integer) b.
Definition evtag_marshal_int64 (m : mallocs) (tag integer : Z) (b : evbuffer) : option evbuffer :=
  marshal_encoded m tag (encode_int64_internal integer) b.

Definition evtag_marshal_string (m : mallocs) (tag : Z) (s : bytes) (b : evbuffer) : option evbuffer :=
  evtag_marshal m tag s b.

(** The fields of the [timeval] are converted to 32 bits. *)
Definition evtag_marshal_timeval (m : mallocs) (tag : Z) (tv : timeval) (b : evbuffer) : option evbuffer :=
  d1 ← encode_int_internal (u32 (tv_sec tv));
  d2 ← encode_int_internal (u32 (tv_usec tv));
  evtag_marshal m tag (d1 ++ d2) b.

(** The length, converted to [int], and the tag. *)
Definition evtag_unmarshal_header (m : mallocs) (b : evbuffer) : option (Z * option Z * evbuffer) :=
  '(r, tag, b) ← decode_tag_internal (m 0%nat) true b;
  if r =? -1 then Some (-1, tag, b)
  else
    '(r, len, b) ← evtag_decode_int (later_mallocs 1 m) b;
    match len with
    | Some len =>
      if r =? -1 then Some (-1, tag, b)
      else if evbuffer_get_length b <? len then Some (-1, tag, b)
      else Some (i32 len, tag, b)
    | None => Some (-1, tag, b)
    end.

Definition evtag_consume (m : mallocs) (b : evbuffer) : option (Z * evbuffer) :=
  '(len, _, b) ← evtag_unmarshal_header m b;
  if len =? -1 then Some (-1, b) else '(_, b) ← evbuffer_drain (u64 len) b; Some (0, b).

(** The result, the tag, the source and the destination.  A length that is negative
    as an [int] is more than can be added to a buffer. *)
Definition evtag_unmarshal (m : mallocs) (src dst : evbuffer) : option (Z * option Z * evbuffer * evbuffer) :=
  '(len, tag, src) ← evtag_unmarshal_header m src;
  if len =? -1 then Some (-1, tag, src, dst)
  else
    '(data, src) ← evbuffer_pullup (m 3%nat) len src;
    '(r, dst) ← (if len <? 0 then Some (-1, dst)
                 else match data with
                      | Some d => evbuffer_add (later_mallocs 4 m) d dst
                      | None => if len =? 0 then evbuffer_add (later_mallocs 4 m) [] dst else None
                      end);
    if r =? -1 then Some (-1, tag, src, dst)
    else '(_, src) ← evbuffer_drain (u64 len) src; Some (len, tag, src, dst).

Definition unmarshal_number (need_tag : Z) (decode : evbuffer → option (Z * option Z * evbuffer))
    (m : mallocs) (b : evbuffer) : option (Z * option Z * evbuffer) :=
  '(r, tag, b) ← decode_tag_internal (m 0%nat) true b;
  if (r =? -1) || negb (bool_decide (tag = Some need_tag)) then Some (-1, None, b)
  else
    '(r, len, b) ← evtag_decode_int (later_mallocs 1 m) b;
    match len with
    | Some len =>
      if r =? -1 then Some (-1, None, b)
      else if evbuffer_get_length b <? len then Some (-1, None, b)
      else
        '(result, integer, b) ← decode b;
        '(_, b) ← evbuffer_drain len b;
        Some (if (result <? 0) || (len <? result) then -1 else result, integer, b)
    | None => Some (-1, None, b)
    end.

Definition evtag_unmarshal_int (m : mallocs) (need_tag : Z) (b : evbuffer) :=
  unmarshal_number need_tag (decode_int_internal (later_mallocs 3 m) 0) m b.
Definition evtag_unmarshal_int64 (m : mallocs) (need_tag : Z) (b : evbuffer) :=
  unmarshal_number need_tag (decode_int64_internal (later_mallocs 3 m) 0) m b.

(** The data, when the tag and the length are those asked for. *)
Definition evtag_unmarshal_fixed (m : mallocs) (need_tag len : Z) (b : evbuffer) :
    option (Z * bytes * evbuffer) :=
  '(tag_len, tag, b) ← evtag_unmarshal_header m b;
  if (tag_len <? 0) || negb (bool_decide (tag = Some need_tag)) then Some (-1, [], b)
  else if negb (u64 tag_len =? len) then Some (-1, [], b)
  else '(_, d, b) ← evbuffer_remove len b; Some (0, d, b).

(** [ok] is the allocation of the string. *)
Definition evtag_unmarshal_string (ok : bool) (m : mallocs) (need_tag : Z) (b : evbuffer) :
    option (Z * option bytes * evbuffer) :=
  '(tag_len, tag, b) ← evtag_unmarshal_header m b;
  if (tag_len =? -1) || negb (bool_decide (tag = Some need_tag)) then Some (-1, None, b)
  else if negb ok then Some (-1, None, b)
  else '(_, d, b) ← evbuffer_remove (u64 tag_len) b; Some (0, Some d, b).

Definition evtag_unmarshal_timeval (m : mallocs) (need_tag : Z) (b : evbuffer) :
    option (Z * option timeval * evbuffer) :=
  '(len, tag, b) ← evtag_unmarshal_header m b;
  if len =? -1 then Some (-1, None, b)
  else
    let done r b := '(_, b) ← evbuffer_drain (u64 len) b; Some (fst r, snd r, b) in
    if negb (bool_decide (tag = Some need_tag)) then done (-1, None) b
    else
      '(offset, sec, b) ← decode_int_internal (later_mallocs 3 m) 0 b;
      if offset =? -1 then done (-1, None) b
      else
        '(offset2, usec, b) ← decode_int_internal (later_mallocs 5 m) (Z.to_nat offset) b;
        match sec, usec with
        | Some sec, Some usec =>
          if (offset2 =? -1) || (len <? offset + offset2) then done (-1, None) b
          else done (0, Some (mk_timeval sec usec)) b
        | _, _ => done (-1, None) b
        end.

(** The length of the whole first record, and of its data. *)
Definition peek_lengths (m : mallocs) (b : evbuffer) : option (Z * option (Z * Z) * evbuffer) :=
  '(len, _, b) ← decode_tag_internal (m 0%nat) false b;
  if len =? -1 then Some (-1, None, b)
  else
    '(res, n, b) ← decode_int_internal (later_mallocs 1 m) (Z.to_nat len) b;
    match n with
    | Some n => if res =? -1 then Some (-1, None, b) else Some (0, Some (u32 (n + (res + len)), n), b)
    | None => Some (-1, None, b)
    end.

Definition evtag_peek_length (m : mallocs) (b : evbuffer) : option (Z * option Z * evbuffer) :=
  '(r, n, b) ← peek_lengths m b; Some (r, match n with Some (t, _) => Some t | None => None end, b).
Definition evtag_payload_length (m : mallocs) (b : evbuffer) : option (Z * option Z * evbuffer) :=
  '(r, n, b) ← peek_lengths m b; Some (r, match n with Some (_, p) => Some p | None => None end, b).
