(* ===== verification/TaggingProps.v ===== *)
(** * Tagged encoding: what is encoded is decoded *)

From S2P Require Import Prelude TimeVal BufferCore BufferMove BufferInv BufferDrain BufferPullup Tagging.

(** ** Nibbles *)

(** A byte and a nibble, checked one by one. *)
Definition bytes_256 : list Z := Z.of_nat <$> seq 0 256.
Definition nibbles_16 : list Z := Z.of_nat <$> seq 0 16.

Definition nibble_of (odd : bool) (d : Z) : Z := if odd then Z.land d 15 else Z.shiftr (Z.land d 240) 4.

Definition put_check (d v : Z) : bool :=
  forallb (λ off, let d' := put_nibble off v d in
    (nibble_of (Nat.odd off) d' =? v) && (nibble_of (negb (Nat.odd off)) d' =? nibble_of (negb (Nat.odd off)) d) &&
    (0 <=? d') && (d' <? 256)) [0%nat; 1%nat].

Lemma put_check_all : forallb (λ d, forallb (put_check d) nibbles_16) bytes_256 = true.
Proof. vm_compute. reflexivity. Qed.

Lemma in_seq_Z n x : 0 <= x < Z.of_nat n → In x (Z.of_nat <$> seq 0 n).
Proof.
  intros Hx. apply list_elem_of_In, list_elem_of_fmap. exists (Z.to_nat x). split; [lia|].
  apply elem_of_seq. lia.
Qed.

Lemma put_nibble_spec off v d :
  0 <= d < 256 → 0 <= v < 16 →
  0 <= put_nibble off v d < 256 ∧ nibble_of (Nat.odd off) (put_nibble off v d) = v ∧
  nibble_of (negb (Nat.odd off)) (put_nibble off v d) = nibble_of (negb (Nat.odd off)) d.
Proof.
  intros Hd Hv. pose proof put_check_all as H. rewrite forallb_forall in H.
  specialize (H d (in_seq_Z 256 d Hd)). rewrite forallb_forall in H. specialize (H v (in_seq_Z 16 v Hv)).
  unfold put_check in H. cbn [forallb] in H. rewrite andb_true_r, !andb_true_iff in H.
  destruct H as [[[[A1 A2] A3] A4] [[[B1 B2] B3] B4]].
  unfold put_nibble in *. change (Nat.odd 0) with false in *. change (Nat.odd 1) with true in *.
  destruct (Nat.odd off); cbn [negb] in *; lia.
Qed.

(** The nibbles of a number, the least significant first. *)
Definition digit (number : Z) (i : nat) : Z := Z.land (Z.shiftr number (4 * Z.of_nat i)) 15.

Lemma land_15 x : Z.land x 15 = x `mod` 16.
Proof. change 15 with (Z.ones 4). now rewrite Z.land_ones by lia. Qed.

Lemma digit_range number i : 0 <= digit number i < 16.
Proof. unfold digit. rewrite land_15. apply Z.mod_pos_bound. lia. Qed.

Lemma digit_S number i : digit number (S i) = digit (Z.shiftr number 4) i.
Proof. unfold digit. rewrite Z.shiftr_shiftr by lia. do 2 f_equal. lia. Qed.

Lemma digit_0 number : digit number 0 = Z.land number 15.
Proof. unfold digit. now rewrite Z.shiftr_0_r. Qed.

Lemma shiftr_digit number i :
  0 <= number → Z.shiftr number (4 * Z.of_nat i) = 16 * Z.shiftr number (4 * Z.of_nat (S i)) + digit number i.
Proof.
  intros Hn. unfold digit. rewrite land_15.
  replace (4 * Z.of_nat (S i)) with (4 * Z.of_nat i + 4) by lia.
  rewrite <- Z.shiftr_shiftr by lia. rewrite (Z.shiftr_div_pow2 _ 4) by lia.
  change (2 ^ 4) with 16. apply Z.div_mod. lia.
Qed.

(** ** Integers *)

Lemma get_nibble_lookup data p d : data !! (p / 2)%nat = Some d → get_nibble data p = Some (nibble_of (Nat.odd p) d).
Proof. intros H. unfold get_nibble. rewrite H. reflexivity. Qed.

(** [put_nibble] changes one nibble of the array. *)
Lemma store_nibble data off v d :
  Forall is_byte data → 0 <= v < 16 → data !! (off / 2)%nat = Some d →
  let data' := <[(off / 2)%nat := put_nibble off v d]> data in
  Forall is_byte data' ∧ get_nibble data' off = Some v ∧
  ∀ p, p ≠ off → get_nibble data' p = get_nibble data p.
Proof.
  intros Hb Hv Hd data'. pose proof (lookup_lt_Some _ _ _ Hd) as Hlt.
  destruct (put_nibble_spec off v d) as (Hr & Hsame & Hother); [exact (Forall_lookup_1 _ _ _ _ Hb Hd)|done|].
  assert (data' !! (off / 2)%nat = Some (put_nibble off v d)) as Hl by (by apply list_lookup_insert_eq).
  split_and!.
  - by apply Forall_insert.
  - erewrite get_nibble_lookup by exact Hl. by rewrite Hsame.
  - intros p Hp. destruct (decide (p / 2 = off / 2)%nat) as [He|Hne].
    + rewrite (get_nibble_lookup data' p (put_nibble off v d)) by (by rewrite He).
      rewrite (get_nibble_lookup data p d) by (by rewrite He).
      replace (Nat.odd p) with (negb (Nat.odd off)); [by rewrite Hother|].
      pose proof (Nat.div_mod p 2 ltac:(lia)). pose proof (Nat.div_mod off 2 ltac:(lia)).
      pose proof (Nat.mod_upper_bound p 2 ltac:(lia)). pose proof (Nat.mod_upper_bound off 2 ltac:(lia)).
      pose proof (Nat.bit0_mod p). pose proof (Nat.bit0_mod off). rewrite Nat.bit0_odd in *.
      destruct (Nat.odd p), (Nat.odd off); cbn [Nat.b2n negb] in *; try done; lia.
    + unfold get_nibble, data'. by rewrite list_lookup_insert_ne by congruence.
Qed.

(** What the loop has written from position [off] on, when it stops at [off']. *)
Record encoded (data : bytes) (number : Z) (off : nat) (data' : bytes) (off' : nat) : Prop := {
  en_length : length data' = length data;
  en_bytes : Forall is_byte data';
  en_le : (off <= off')%nat;
  en_before : ∀ p, (p < off)%nat → get_nibble data' p = get_nibble data p;
  en_digits : ∀ i, (off + i < off')%nat → get_nibble data' (off + i) = Some (digit number i);
  en_high : number < 16 ^ Z.of_nat (off' - off);
  en_low : (off < off')%nat → 16 ^ Z.of_nat (off' - off - 1) <= number }.

Lemma shiftr_4 number : Z.shiftr number 4 = number `div` 16.
Proof. now rewrite Z.shiftr_div_pow2 by lia. Qed.

Lemma encode_int_loop_total n : ∀ fuel data number off,
  0 <= number < 16 ^ Z.of_nat n → (n < fuel)%nat → (off + n <= 2 * length data)%nat → Forall is_byte data →
  ∃ data' off', encode_int_loop fuel data number off = Some (data', off') ∧
    encoded data number off data' off' ∧ (off' <= off + n)%nat.
Proof.
  induction n as [|n IH]; intros fuel data number off Hn Hf Hl Hb; (destruct fuel as [|fuel]; [lia|]);
    cbn [encode_int_loop].
  - rewrite (proj2 (Z.eqb_eq number 0)) by (cbn in Hn; lia). eexists _, _. split; [done|]. split; [|lia].
    split; try done; try lia; rewrite Nat.sub_diag; cbn in *; lia.
  - destruct (Z.eqb_spec number 0) as [->|Hz].
    { eexists _, _. split; [done|]. split; [|lia]. split; try done; try lia; rewrite Nat.sub_diag; done. }
    assert (off / 2 < length data)%nat as Hoff by (apply Nat.Div0.div_lt_upper_bound; lia).
    destruct (lookup_lt_is_Some_2 data (off / 2) Hoff) as [d Hd]. rewrite Hd. cbn [mbind option_bind].
    rewrite store_at_ok by done. cbn [mbind option_bind].
    destruct (store_nibble data off (Z.land number 15) d) as (Hb' & Hat & Hne);
      [done|rewrite <- digit_0; apply digit_range|done|].
    set (data1 := <[(off / 2)%nat := _]> data) in *.
    destruct (IH fuel data1 (Z.shiftr number 4) (S off)) as (data' & off' & He & Hen & Ho).
    { rewrite shiftr_4. rewrite Nat2Z.inj_succ, Z.pow_succ_r in Hn by lia.
      split; [apply Z.div_pos; lia|apply Z.div_lt_upper_bound; lia]. }
    { lia. } { unfold data1. rewrite length_insert. lia. } { done. }
    exists data', off'. split; [done|]. split; [|lia]. destruct Hen as [E1 E2 E3 E4 E5 E6 E7].
    rewrite shiftr_4 in E6, E7. split; try done; try lia.
    + rewrite E1. apply length_insert.
    + intros p Hp. rewrite E4, Hne by lia. done.
    + intros [|i] Hi.
      * rewrite Nat.add_0_r, E4, Hat by lia. by rewrite digit_0.
      * rewrite <- Nat.add_succ_comm, E5 by lia. by rewrite digit_S.
    + replace (off' - off)%nat with (S (off' - S off)) by lia. rewrite Nat2Z.inj_succ, Z.pow_succ_r by lia.
      pose proof (Z.div_mod number 16 ltac:(lia)). pose proof (Z.mod_pos_bound number 16 ltac:(lia)). nia.
    + intros _. destruct (decide (off' = S off)) as [->|].
      * replace (S off - off - 1)%nat with 0%nat by lia. cbn. lia.
      * replace (off' - off - 1)%nat with (S (off' - S off - 1)) by lia. rewrite Nat2Z.inj_succ, Z.pow_succ_r by lia.
        pose proof (Z.div_mod number 16 ltac:(lia)). pose proof (Z.mod_pos_bound number 16 ltac:(lia)).
        specialize (E7 ltac:(lia)). lia.
Qed.

(** The wire format of an integer: the count of its [n] nibbles less one, and the
    nibbles, the least significant first.  [n] is the least that holds the number. *)
Record int_code (number : Z) (n : nat) (enc : bytes) : Prop := {
  ic_count : (1 <= n <= 16)%nat;
  ic_length : length enc = (n / 2 + 1)%nat;
  ic_bytes : Forall is_byte enc;
  ic_head : get_nibble enc 0 = Some (Z.of_nat n - 1);
  ic_digits : ∀ i, (i < n)%nat → get_nibble enc (S i) = Some (digit number i);
  ic_high : 0 <= number < 16 ^ Z.of_nat n;
  ic_low : n = 1%nat ∨ 16 ^ Z.of_nat (n - 1) <= number }.

Lemma get_nibble_take data k p : (p / 2 < k)%nat → get_nibble (take k data) p = get_nibble data p.
Proof. intros H. unfold get_nibble. by rewrite lookup_take_lt. Qed.

Lemma get_nibble_app data rest p : (p / 2 < length data)%nat → get_nibble (data ++ rest) p = get_nibble data p.
Proof. intros H. unfold get_nibble. by rewrite lookup_app_l. Qed.

Lemma half_plus n : ((n + 2) / 2 = n / 2 + 1)%nat.
Proof. replace (n + 2)%nat with (n + 1 * 2)%nat by lia. by rewrite Nat.div_add by lia. Qed.

Lemma ENCODE_INT_INTERNAL_spec size number :
  (1 <= size <= 8)%nat → 0 <= number < 16 ^ Z.of_nat (2 * size) →
  ∃ n enc, ENCODE_INT_INTERNAL size number = Some enc ∧ int_code number n enc ∧ (n <= 2 * size)%nat.
Proof.
  intros Hs Hn. unfold ENCODE_INT_INTERNAL. destruct (Z.eq_dec number 0) as [->|Hz].
  { exists 1%nat, [0]. split; [|split; [|lia]].
    - destruct size as [|size]; [lia|]. reflexivity.
    - split; try done; [lia|by repeat constructor| |by left]. intros [|i] Hi; [done|lia]. }
  destruct (encode_int_loop_total (2 * size) 17 (replicate (size + 1) 0) number 1) as (data & off & He & Hen & Ho);
    [done|lia|rewrite length_replicate; lia|apply Forall_replicate; unfold is_byte; lia|].
  rewrite He. cbn [mbind option_bind]. destruct Hen as [E1 E2 E3 E4 E5 E6 E7]. rewrite length_replicate in E1.
  assert (2 <= off)%nat as Hoff.
  { destruct (decide (off = 1%nat)) as [->|]; [cbn in E6; lia|lia]. }
  assert (∃ n, off = S n ∧ (1 <= n)%nat) as (n & -> & Hn1) by (exists (off - 1)%nat; lia).
  destruct (lookup_lt_is_Some_2 data 0 ltac:(lia)) as [d Hd]. rewrite Hd. cbn [mbind option_bind].
  rewrite store_at_ok by lia. cbn [mbind option_bind].
  replace (if (2 <? S n)%nat then (S n - 2)%nat else 0%nat) with (n - 1)%nat
    by (destruct (Nat.ltb_spec 2 (S n)); lia).
  rewrite (land_15 (Z.of_nat (n - 1))), (Z.mod_small (Z.of_nat (n - 1))) by lia.
  destruct (store_nibble data 0 (Z.of_nat (n - 1)) d) as (Hb & Hat & Hne); [done|lia|done|].
  change (put_nibble 0 (Z.of_nat (n - 1)) d) with (Z.lor (Z.land d 15) (Z.shiftl (Z.of_nat (n - 1)) 4)) in *.
  change (0 / 2)%nat with 0%nat in *. set (data' := <[0%nat := _]> data) in *.
  assert (length data' = (size + 1)%nat) as Hl by (unfold data'; by rewrite length_insert).
  replace (S n + 1)%nat with (n + 2)%nat by lia. rewrite half_plus.
  pose proof (Nat.Div0.div_lt_upper_bound n 2 (size + 1) ltac:(lia)) as Hh.
  eexists n, _. split; [done|]. split; [|lia]. split.
  - lia.
  - rewrite length_take. lia.
  - by apply Forall_take.
  - rewrite get_nibble_take by (change (0 / 2)%nat with 0%nat; lia). rewrite Hat. f_equal. lia.
  - intros i Hi. rewrite get_nibble_take, Hne by (try lia; apply Nat.Div0.div_lt_upper_bound;
      pose proof (Nat.div_mod n 2 ltac:(lia)); pose proof (Nat.mod_upper_bound n 2 ltac:(lia)); lia).
    apply (E5 i). lia.
  - replace (S n - 1)%nat with n in E6 by lia. lia.
  - right. replace (S n - 1 - 1)%nat with (n - 1)%nat in E7 by lia. apply E7. lia.
Qed.

Lemma decode_int_loop_spec w number data n :
  0 <= w → 0 <= number < 2 ^ w →
  (∀ i, (i < n)%nat → get_nibble data (S i) = Some (digit number i)) →
  decode_int_loop w data n (Z.shiftr number (4 * Z.of_nat n)) = Some number.
Proof.
  intros Hw Hn. induction n as [|n IH]; intros Hd; cbn [decode_int_loop].
  { by rewrite Z.shiftr_0_r. }
  rewrite Hd by lia. cbn [mbind option_bind].
  assert (Z.shiftr number (4 * Z.of_nat n) = 16 * Z.shiftr number (4 * Z.of_nat (S n)) + digit number n) as Hs
    by (apply shiftr_digit; lia).
  pose proof (digit_range number n) as Hr.
  assert (0 <= Z.shiftr number (4 * Z.of_nat (S n))) as Hp by (apply Z.shiftr_nonneg; lia).
  assert (Z.shiftr number (4 * Z.of_nat n) <= number) as Hle.
  { rewrite Z.shiftr_div_pow2 by lia. apply Z.div_le_upper_bound; [lia|].
    pose proof (Z.pow_pos_nonneg 2 (4 * Z.of_nat n)). nia. }
  rewrite Z.lor_comm. unfold wrap. rewrite Z.mod_small; rewrite Z.shiftl_mul_pow2 by lia; [|lia].
  rewrite <- Z.shiftl_mul_pow2, lor_shiftl_add by lia.
  replace (digit number n + _ * 2 ^ 4) with (Z.shiftr number (4 * Z.of_nat n)) by lia.
  apply IH. intros i Hi. apply Hd. lia.
Qed.

(** The nibbles of a code, read back from the front of any bytes. *)
Lemma int_code_decode w number n enc rest :
  int_code number n enc → 0 <= w → number < 2 ^ w →
  decode_int_loop w (enc ++ rest) n 0 = Some number.
Proof.
  intros [C1 C2 C3 C4 C5 C6 C7] Hw Hn.
  assert (Z.shiftr number (4 * Z.of_nat n) = 0) as <-.
  { rewrite Z.shiftr_div_pow2 by lia. apply Z.div_small. rewrite Z.pow_mul_r by lia. apply C6. }
  apply decode_int_loop_spec; [done|lia|]. intros i Hi. rewrite get_nibble_app; [by apply C5|].
  rewrite C2. apply Nat.Div0.div_lt_upper_bound.
  pose proof (Nat.div_mod n 2 ltac:(lia)). pose proof (Nat.mod_upper_bound n 2 ltac:(lia)). lia.
Qed.

(** ** Tags *)

Lemma seven_bits_all :
  forallb (λ l, (Z.land l 127 =? l) && (Z.land l 128 =? 0) && (Z.land (Z.lor l 128) 127 =? l) &&
                (Z.land (Z.lor l 128) 128 =? 128) && (Z.lor l 128 <? 256) && (0 <=? Z.lor l 128))
          (Z.of_nat <$> seq 0 128) = true.
Proof. vm_compute. reflexivity. Qed.

Lemma seven_bits l :
  0 <= l < 128 →
  Z.land l 127 = l ∧ Z.land l 128 = 0 ∧ Z.land (Z.lor l 128) 127 = l ∧ Z.land (Z.lor l 128) 128 = 128 ∧
  is_byte (Z.lor l 128).
Proof.
  intros Hl. pose proof seven_bits_all as H. rewrite forallb_forall in H.
  specialize (H l (in_seq_Z 128 l Hl)). rewrite !andb_true_iff in H. unfold is_byte. lia.
Qed.

Lemma land_127 x : Z.land x 127 = x `mod` 128.
Proof. change 127 with (Z.ones 7). now rewrite Z.land_ones by lia. Qed.
Lemma shiftr_7 x : Z.shiftr x 7 = x `div` 128.
Proof. now rewrite Z.shiftr_div_pow2 by lia. Qed.

Lemma encode_tag_loop_total room : ∀ tag,
  0 <= tag < 2 ^ (7 * Z.of_nat room) → (1 <= room)%nat →
  ∃ enc, encode_tag_loop room tag = Some enc ∧ (1 <= length enc <= room)%nat ∧ Forall is_byte enc.
Proof.
  induction room as [|room IH]; intros tag Ht Hr; [lia|]. cbn [encode_tag_loop]. rewrite land_127, shiftr_7.
  pose proof (Z.mod_pos_bound tag 128 ltac:(lia)) as Hm. pose proof (Z.div_mod tag 128 ltac:(lia)) as Hdm.
  destruct (seven_bits _ Hm) as (_ & _ & _ & _ & Hb). destruct (Z.eqb_spec (tag `div` 128) 0) as [He|Hne].
  { eexists. split; [done|]. cbn [length]. split; [lia|]. constructor; [unfold is_byte; lia|done]. }
  destruct room as [|room]; [cbn in Ht; lia|].
  destruct (IH (tag `div` 128)) as (enc & He & Hlen & Henc); [|lia|].
  { split; [apply Z.div_pos; lia|]. apply Z.div_lt_upper_bound; [lia|]. change 128 with (2 ^ 7).
    rewrite <- Z.pow_add_r by lia. replace (7 + 7 * Z.of_nat (S room)) with (7 * Z.of_nat (S (S room))) by lia. lia. }
  rewrite He. cbn [mbind option_bind]. eexists. split; [done|]. cbn [length]. split; [lia|]. by constructor.
Qed.

Lemma decode_tag_loop_spec room : ∀ tag enc data number shift count len,
  encode_tag_loop room tag = Some enc → shift = 35 - 7 * Z.of_nat room → (room <= 5)%nat →
  0 <= tag → tag * 2 ^ shift < 2 ^ 32 → 0 <= number < 2 ^ shift → (count + length enc <= len)%nat →
  decode_tag_loop (enc ++ data) number shift count len = Some (Some (number + tag * 2 ^ shift, (count + length enc)%nat)).
Proof.
  induction room as [|room IH]; intros tag enc data number shift count len He Hsh Hr5 Ht Hts Hn Hl; [done|].
  cbn [encode_tag_loop] in He. rewrite land_127, shiftr_7 in He.
  pose proof (Z.mod_pos_bound tag 128 ltac:(lia)) as Hm. pose proof (Z.div_mod tag 128 ltac:(lia)) as Hdm.
  destruct (seven_bits _ Hm) as (B1 & B2 & B3 & B4 & _).
  assert (0 <= tag `div` 128) as Hd0 by (apply Z.div_pos; lia).
  set (l := tag `mod` 128) in *. set (q := tag `div` 128) in *.
  assert (0 < 2 ^ shift) as Hpos by (apply Z.pow_pos_nonneg; lia).
  assert (((28 <=? shift) && ((28 <? shift) || (15 <? l))) = false) as Hck.
  { destruct (Z.leb_spec 28 shift); [|done]. assert (shift = 28) as Hsh28 by lia. rewrite Hsh28 in *.
    change (2 ^ 28) with 268435456 in *. change (2 ^ 32) with 4294967296 in *. lia. }
  assert (Z.lor number (u32 (Z.shiftl l shift)) = number + l * 2 ^ shift) as Hlor.
  { unfold u32, wrap. rewrite Z.mod_small.
    - apply lor_shiftl_add; lia.
    - rewrite Z.shiftl_mul_pow2 by lia. nia. }
  destruct (Z.eqb_spec q 0) as [Hq|Hq].
  - injection He as <-. cbn [app decode_tag_loop]. cbn [length] in Hl.
    rewrite (proj2 (Nat.ltb_lt count len)) by lia. rewrite B1, Hck, B2, Hlor. cbn [Z.eqb length].
    apply (f_equal Some), (f_equal Some), f_equal2; [|lia]. replace l with tag by lia. done.
  - destruct (encode_tag_loop room q) as [enc'|] eqn:Hen; [|done]. injection He as <-.
    cbn [app decode_tag_loop]. cbn [length] in *.
    rewrite (proj2 (Nat.ltb_lt count len)) by lia. rewrite B3, Hck, B4, Hlor. change (128 =? 0) with false. cbv iota.
    assert (2 ^ (shift + 7) = 2 ^ shift * 128) as Hp7 by (rewrite Z.pow_add_r by lia; done).
    rewrite (IH q enc' data (number + l * 2 ^ shift) (shift + 7) (S count) len Hen);
      [|lia|lia|lia|rewrite Hp7; nia|rewrite Hp7; nia|lia].
    rewrite Hp7. apply (f_equal Some), (f_equal Some), f_equal2; [nia|lia].
Qed.

Lemma tag_bytes_total tag :
  0 <= tag < 2 ^ 32 → ∃ enc, tag_bytes tag = Some enc ∧ (1 <= length enc <= 5)%nat ∧ Forall is_byte enc.
Proof. intros Ht. apply encode_tag_loop_total; [|lia]. change (7 * Z.of_nat 5) with 35. lia. Qed.

Lemma tag_bytes_decode tag enc data len :
  tag_bytes tag = Some enc → 0 <= tag < 2 ^ 32 → (length enc <= len)%nat →
  decode_tag_loop (enc ++ data) 0 0 0 len = Some (Some (tag, length enc)).
Proof.
  intros He Ht Hl. rewrite (decode_tag_loop_spec 5 tag); try done; try lia. do 3 f_equal. lia.
Qed.

(** ** Reading from the front of a buffer *)

(** A buffer that can be read from: well formed, nothing pinned, the start not
    frozen, and small enough for [evbuffer_pullup] to allocate. *)
Record source (b : evbuffer) (d : bytes) : Prop := {
  so_ok : buf_ok b;
  so_pins : nopins b;
  so_start : bf_freeze_start b = false;
  so_content : content b = d;
  so_size : Z.of_nat (length d) <= EVBUFFER_CHAIN_MAX - EVBUFFER_CHAIN_SIZE }.

Lemma source_total b d : source b d → bf_total_len b = Z.of_nat (length d).
Proof. intros [Hb _ _ <- _]. apply Hb. Qed.

Lemma source_pullup n b d :
  source b d → 0 < n <= Z.of_nat (length d) →
  ∃ b', evbuffer_pullup true n b = Some (Some (take (Z.to_nat n) d), b') ∧ source b' d.
Proof.
  intros Hs Hn. pose proof (source_total b d Hs) as Ht. destruct Hs as [Hb Hp Hf <- Hm].
  destruct (evbuffer_pullup_spec true n b Hb) as (r & b' & He & [[-> ->]|Hr] & Hsome); [lia..| |].
  { rewrite (proj2 (Z.ltb_ge n 0)) in Hsome by lia. destruct Hsome; [lia|lia|done|done|lia|done]. }
  rewrite (proj2 (Z.ltb_ge n 0)) in Hr by lia. destruct Hr as (-> & Hb' & Hc & (Hfl & Hfs & _) & _).
  exists b'. split; [done|]. split; try done; [by eapply nopins_flags_in|congruence].
Qed.

Lemma source_drain n b d :
  source b d → 0 <= n <= Z.of_nat (length d) →
  ∃ b', evbuffer_drain n b = Some (0, b') ∧ source b' (drop (Z.to_nat n) d).
Proof.
  intros Hs Hn. pose proof (source_total b d Hs) as Ht. destruct (Hs) as [Hb Hp Hf <- Hm].
  destruct (Z.eq_dec (bf_total_len b) 0) as [H0|H0].
  { exists b. unfold evbuffer_drain. cbv zeta. rewrite H0. split; [done|].
    by replace (Z.to_nat n) with 0%nat by lia. }
  destruct (evbuffer_drain_spec n b) as (cs & lwd & -> & Hl & Hby & Hfl);
    [done|by apply nopins_unpinned|lia|done|done|].
  rewrite Z.min_l in Hby by lia. rewrite Z.min_l by lia. eexists. split; [done|].
  destruct (invoke_callbacks_frame (changed cs lwd 0 (Z.to_nat n) b)) as (E1 & _ & _ & E2 & _).
  split; rewrite ?content_invoke, ?E2; try done.
  - apply buf_ok_invoke, buf_ok_changed; [done|]. rewrite Hby, length_drop. destruct Hb. lia.
  - apply (nopins_flags_in b); [done|]. by rewrite E1.
  - rewrite length_drop. lia.
Qed.

Lemma take_app_min (p r : bytes) k : (length p <= k)%nat → take k (p ++ r) = p ++ take (k - length p) r.
Proof. intros. rewrite take_app, take_ge by lia. done. Qed.

(** Reading a tag at the front. *)
Lemma decode_tag_internal_spec dodrain tag enc rest b :
  0 <= tag < 2 ^ 32 → tag_bytes tag = Some enc → source b (enc ++ rest) →
  ∃ b', decode_tag_internal true dodrain b = Some (Z.of_nat (length enc), Some tag, b') ∧
    source b' (if dodrain then rest else enc ++ rest).
Proof.
  intros Ht He Hs. destruct (tag_bytes_total tag Ht) as (enc' & He' & Hlen & _).
  rewrite He in He'. injection He' as <-. unfold decode_tag_internal, evbuffer_get_length.
  rewrite (source_total _ _ Hs). set (len := Z.of_nat (length (enc ++ rest))).
  assert (length enc <= length (enc ++ rest))%nat as Hle by (rewrite length_app; lia).
  destruct (source_pullup (if len <? 5 then len else 5) b _ Hs) as (b1 & -> & Hs1).
  { destruct (Z.ltb_spec len 5); lia. }
  rewrite bind_some_eq. cbv iota beta.
  assert (length enc <= Z.to_nat (if (len <? 5)%Z then len else 5%Z))%nat as Hk by (destruct (Z.ltb_spec len 5); lia).
  rewrite take_app_min by done. rewrite (tag_bytes_decode tag) by (done || lia).
  rewrite bind_some_eq. cbv iota beta.
  replace (INT_MAX <? Z.of_nat (length enc)) with false by (symmetry; apply Z.ltb_ge; lia).
  destruct dodrain; [|by exists b1].
  destruct (source_drain (Z.of_nat (length enc)) b1 _ Hs1) as (b2 & -> & Hs2); [lia|].
  rewrite Nat2Z.id, drop_app_length in Hs2. by exists b2.
Qed.

Lemma shiftr_nibble d : Z.shiftr (Z.land d 240) 4 = nibble_of false d.
Proof. done. Qed.

(** Reading an integer at an offset. *)
Lemma DECODE_INT_INTERNAL_spec w maxn number n enc pre rest b :
  int_code number n enc → 0 <= w → number < 2 ^ w → Z.of_nat n <= maxn → source b (pre ++ enc ++ rest) →
  ∃ b', DECODE_INT_INTERNAL true true w maxn (length pre) b = Some (Z.of_nat (length enc), Some number, b') ∧
    source b' (pre ++ enc ++ rest).
Proof.
  intros Hcode Hw Hn Hmax Hs. pose proof (ic_count _ _ _ Hcode) as Hcnt. pose proof (ic_length _ _ _ Hcode) as Hlen.
  assert (length (pre ++ enc ++ rest) = length pre + length enc + length rest)%nat as Hall by (rewrite !length_app; lia).
  pose proof (so_size _ _ Hs) as Hsz.
  unfold DECODE_INT_INTERNAL, evbuffer_get_length. rewrite (source_total _ _ Hs), Hall.
  replace (i64 (u64 (Z.of_nat (length pre + length enc + length rest) - Z.of_nat (length pre))))
    with (Z.of_nat (length enc + length rest)).
  2:{ rewrite u64_small by lia. unfold swrap. rewrite Z.mod_small; lia. }
  cbv zeta. rewrite (proj2 (Z.leb_gt _ _)) by lia.
  destruct (source_pullup (Z.of_nat (length pre) + 1) b _ Hs) as (b1 & -> & Hs1); [lia|].
  rewrite bind_some_eq. cbv iota beta.
  destruct enc as [|d enc]; [cbn in Hlen; lia|].
  replace (take (Z.to_nat (Z.of_nat (length pre) + 1)) (pre ++ (d :: enc) ++ rest) !! length pre) with (Some d).
  2:{ rewrite lookup_take_lt by lia. by rewrite lookup_app_r, Nat.sub_diag by lia. }
  rewrite bind_some_eq.
  assert (nibble_of false d + 1 = Z.of_nat n) as Hnib.
  { pose proof (ic_head _ _ _ Hcode) as H. rewrite (get_nibble_lookup _ 0 d) in H by done. apply (inj Some) in H.
    change (Nat.odd 0) with false in H. lia. }
  rewrite shiftr_nibble, Hnib.
  assert (Z.shiftr (Z.of_nat n) 1 + 1 = Z.of_nat (length (d :: enc))) as ->.
  { rewrite Z.shiftr_div_pow2 by lia. change (2 ^ 1) with (Z.of_nat 2). rewrite <- Nat2Z.inj_div. lia. }
  rewrite (proj2 (Z.ltb_ge maxn (Z.of_nat n))), (proj2 (Z.ltb_ge _ (Z.of_nat (length (d :: enc))))) by lia.
  cbn [orb].
  destruct (source_pullup (Z.of_nat (length pre) + Z.of_nat (length (d :: enc))) b1 _ Hs1) as (b2 & -> & Hs2); [lia|].
  rewrite bind_some_eq. cbv iota beta. rewrite take_app_min, drop_app_length by lia.
  rewrite take_app_min by lia. rewrite Nat2Z.id.
  rewrite (int_code_decode w number n) by done. rewrite bind_some_eq. by exists b2.
Qed.

(** The two widths. *)
Lemma encode_int_internal_spec number :
  0 <= number < 2 ^ 32 → ∃ n enc, encode_int_internal number = Some enc ∧ int_code number n enc ∧ (n <= 8)%nat.
Proof. intros H. apply (ENCODE_INT_INTERNAL_spec 4); [lia|]. change (16 ^ Z.of_nat (2 * 4)) with (2 ^ 32). done. Qed.

Lemma encode_int64_internal_spec number :
  0 <= number < 2 ^ 64 → ∃ n enc, encode_int64_internal number = Some enc ∧ int_code number n enc ∧ (n <= 16)%nat.
Proof. intros H. apply (ENCODE_INT_INTERNAL_spec 8); [lia|]. change (16 ^ Z.of_nat (2 * 8)) with (2 ^ 64). done. Qed.

Definition mem_ok (m : mallocs) : Prop := ∀ n, m n = true.

Lemma all_ok_later k m : mem_ok m → mem_ok (later_mallocs k m).
Proof. intros H n. apply H. Qed.

Lemma decode_int_internal_spec m number enc pre rest b :
  mem_ok m → 0 <= number < 2 ^ 32 → encode_int_internal number = Some enc → source b (pre ++ enc ++ rest) →
  ∃ b', decode_int_internal m (length pre) b = Some (Z.of_nat (length enc), Some number, b') ∧
    source b' (pre ++ enc ++ rest).
Proof.
  intros Hm Hn He Hs. destruct (encode_int_internal_spec number Hn) as (n & enc' & He' & Hc & Hn8).
  rewrite He in He'. injection He' as <-. unfold decode_int_internal. rewrite !Hm.
  eapply DECODE_INT_INTERNAL_spec; [done|lia|lia|lia|done].
Qed.

Lemma decode_int64_internal_spec m number enc pre rest b :
  mem_ok m → 0 <= number < 2 ^ 64 → encode_int64_internal number = Some enc → source b (pre ++ enc ++ rest) →
  ∃ b', decode_int64_internal m (length pre) b = Some (Z.of_nat (length enc), Some number, b') ∧
    source b' (pre ++ enc ++ rest).
Proof.
  intros Hm Hn He Hs. destruct (encode_int64_internal_spec number Hn) as (n & enc' & He' & Hc & Hn8).
  rewrite He in He'. injection He' as <-. unfold decode_int64_internal. rewrite !Hm.
  eapply DECODE_INT_INTERNAL_spec; [done|lia|lia|lia|done].
Qed.

Lemma evtag_decode_int_spec m number enc rest b :
  mem_ok m → 0 <= number < 2 ^ 32 → encode_int_internal number = Some enc → source b (enc ++ rest) →
  ∃ b', evtag_decode_int m b = Some (0, Some number, b') ∧ source b' rest.
Proof.
  intros Hm Hn He Hs. unfold evtag_decode_int.
  destruct (decode_int_internal_spec m number enc [] rest b Hm Hn He Hs) as (b1 & Hd & Hs1).
  change (length (A:=Z) []) with 0%nat in Hd. rewrite Hd. unfold decode_and_drain. rewrite bind_some_eq. cbv iota beta.
  rewrite (proj2 (Z.eqb_neq (Z.of_nat (length enc)) (-1))) by lia. cbn [app] in Hs1.
  destruct (source_drain (Z.of_nat (length enc)) b1 _ Hs1) as (b2 & -> & Hs2); [rewrite length_app; lia|].
  rewrite Nat2Z.id, drop_app_length in Hs2. rewrite bind_some_eq. by exists b2.
Qed.

(** ** Records *)

(** A record as the wire format has it. *)
Definition wire_record (tag : Z) (data : bytes) : option bytes :=
  t ← tag_bytes tag; l ← encode_int_internal (Z.of_nat (length data)); Some (t ++ l ++ data).

Lemma evtag_unmarshal_header_spec m tag data enc rest b :
  mem_ok m → 0 <= tag < 2 ^ 32 → Z.of_nat (length data) < 2 ^ 31 → wire_record tag data = Some enc →
  source b (enc ++ rest) →
  ∃ b', evtag_unmarshal_header m b = Some (Z.of_nat (length data), Some tag, b') ∧ source b' (data ++ rest).
Proof.
  intros Hm Ht Hd He Hs. unfold wire_record in He.
  destruct (tag_bytes tag) as [t|] eqn:Htag; [|done]. rewrite bind_some_eq in He.
  destruct (encode_int_internal _) as [l|] eqn:Hl; [|done]. rewrite bind_some_eq in He. injection He as <-.
  rewrite <- !(assoc_L app) in Hs. unfold evtag_unmarshal_header. rewrite Hm.
  destruct (decode_tag_internal_spec true tag t _ b Ht Htag Hs) as (b1 & -> & Hs1).
  rewrite bind_some_eq. cbv iota beta. rewrite (proj2 (Z.eqb_neq (Z.of_nat (length t)) (-1))) by lia.
  destruct (evtag_decode_int_spec (later_mallocs 1 m) (Z.of_nat (length data)) l (data ++ rest) b1)
    as (b2 & -> & Hs2); [by apply all_ok_later|lia|done|done|].
  rewrite bind_some_eq. cbv iota beta. change (0 =? -1) with false. cbv iota.
  unfold evbuffer_get_length. rewrite (source_total _ _ Hs2), (proj2 (Z.ltb_ge _ (Z.of_nat (length data))))
    by (rewrite length_app; lia).
  exists b2. split; [|done]. unfold swrap. rewrite Z.mod_small by lia. do 3 f_equal. lia.
Qed.

Lemma evtag_unmarshal_spec m tag data enc rest src dst :
  mem_ok m → 0 <= tag < 2 ^ 32 → Z.of_nat (length data) < 2 ^ 31 → wire_record tag data = Some enc →
  source src (enc ++ rest) → buf_ok dst → bf_freeze_end dst = false → alloc_fits (length data) dst →
  Z.of_nat (length (content dst) + length data) <= EV_SIZE_MAX →
  ∃ src' dst', evtag_unmarshal m src dst = Some (Z.of_nat (length data), Some tag, src', dst') ∧
    source src' rest ∧ buf_ok dst' ∧ content dst' = content dst ++ data.
Proof.
  intros Hm Ht Hd He Hs Hb Hfr Hfits Hmax. unfold evtag_unmarshal.
  destruct (evtag_unmarshal_header_spec m tag data enc rest src Hm Ht Hd He Hs) as (src1 & -> & Hs1).
  rewrite bind_some_eq. cbv iota beta. rewrite (proj2 (Z.eqb_neq (Z.of_nat (length data)) (-1))) by lia.
  rewrite Hm.
  assert (∃ src2, evbuffer_pullup true (Z.of_nat (length data)) src1 =
            Some (if (length data =? 0)%nat then None else Some data, src2) ∧ source src2 (data ++ rest))
    as (src2 & -> & Hs2).
  { destruct data as [|x data']; [by exists src1|].
    destruct (source_pullup (Z.of_nat (length (x :: data'))) src1 _ Hs1) as (src2 & -> & Hs2);
      [rewrite length_app; cbn [length]; lia|].
    rewrite Nat2Z.id, take_app_length. by exists src2. }
  rewrite bind_some_eq. cbv iota beta. rewrite (proj2 (Z.ltb_ge (Z.of_nat (length data)) 0)) by lia.
  destruct (evbuffer_add_total (later_mallocs 4 m) data dst Hb) as (dst' & Hadd & Hb' & Hc);
    [done..|by apply all_ok_later|done|].
  assert (match (if (length data =? 0)%nat then None else Some data) with
          | Some d => evbuffer_add (later_mallocs 4 m) d dst
          | None => if Z.of_nat (length data) =? 0 then evbuffer_add (later_mallocs 4 m) [] dst else None
          end = Some (0, dst')) as ->.
  { by destruct data as [|x data']. }
  rewrite bind_some_eq. cbv iota beta. change (0 =? -1) with false. cbv iota.
  rewrite u64_small by lia.
  destruct (source_drain (Z.of_nat (length data)) src2 _ Hs2) as (src3 & -> & Hs3); [rewrite length_app; lia|].
  rewrite Nat2Z.id, drop_app_length in Hs3. rewrite bind_some_eq. by exists src3, dst'.
Qed.

(** ** Writing at the end of a buffer *)

(** All of the bytes were added, or none. *)
Record appended (b : evbuffer) (d : bytes) (b' : evbuffer) : Prop := {
  ap_ok : buf_ok b';
  ap_pins : nopins b → nopins b';
  ap_start : bf_freeze_start b' = bf_freeze_start b;
  ap_end : bf_freeze_end b' = bf_freeze_end b;
  ap_content : content b' = content b ++ d }.

Lemma tag_add_spec m d b :
  buf_ok b → ∃ b' d', tag_add m d b = Some b' ∧ appended b d' b' ∧ (d' = d ∨ d' = []).
Proof.
  intros Hb. unfold tag_add.
  assert ((∃ b', evbuffer_add m d b = Some (0, b')) ∨ evbuffer_add m d b = Some (-1, b)) as [(b' & Hadd)|Hadd].
  { destruct (evbuffer_add_spec m d b Hb) as [[-> _]|(_ & _ & [cs lwd _ _ _|_])]; eauto. }
  - rewrite Hadd, bind_some_eq. destruct (evbuffer_add_success m d b b' Hb Hadd) as (Hb' & Hc & Hf & Hs & He).
    exists b', d. split; [done|]. split; [|by left]. split; try done. intros Hp. by eapply nopins_flags_in.
  - rewrite Hadd, bind_some_eq. exists b, []. split; [done|]. split; [|by right]. split; try done.
    by rewrite app_nil_r.
Qed.

Lemma appended_trans b d1 b1 d2 b2 : appended b d1 b1 → appended b1 d2 b2 → appended b (d1 ++ d2) b2.
Proof.
  intros [A1 A2 A3 A4 A5] [B1 B2 B3 B4 B5]. split; try done; [tauto|congruence|congruence|].
  by rewrite B5, A5, (assoc_L app).
Qed.

(** The pieces of a record, each of which was added or not. *)
Definition piece (d d' : bytes) : Prop := d' = d ∨ d' = [].

Lemma pieces_all d1 d2 d3 p1 p2 p3 :
  piece d1 p1 → piece d2 p2 → piece d3 p3 →
  length (p1 ++ p2 ++ p3) = length (d1 ++ d2 ++ d3) → p1 ++ p2 ++ p3 = d1 ++ d2 ++ d3.
Proof.
  assert (∀ d : bytes, length d = 0%nat → d = []) as Hnil by (intros []; done).
  assert (∀ d p, piece d p → (length p <= length d)%nat ∧ (length p = length d → p = d)) as Hp.
  { intros d p [-> | ->]; [done|]. cbn. split; [lia|]. intros H. symmetry. auto. }
  intros [H1 E1]%Hp [H2 E2]%Hp [H3 E3]%Hp. rewrite !length_app. intros Hl.
  rewrite E1, E2, E3 by lia. done.
Qed.

Lemma marshal_pieces m tag d1 d2 d3 b :
  buf_ok b → tag_bytes tag = Some d1 →
  ∃ b1 b2 b' p, evtag_encode_tag m tag b = Some (Z.of_nat (length d1), b1) ∧
    tag_add (later_mallocs 2 m) d2 b1 = Some b2 ∧ tag_add (later_mallocs 4 m) d3 b2 = Some b' ∧
    appended b p b' ∧ (length p = length (d1 ++ d2 ++ d3) → p = d1 ++ d2 ++ d3).
Proof.
  intros Hb Ht. unfold evtag_encode_tag. rewrite Ht.
  destruct (tag_add_spec m d1 b Hb) as (b1 & p1 & H1 & A1 & P1).
  destruct (tag_add_spec (later_mallocs 2 m) d2 b1 (ap_ok _ _ _ A1)) as (b2 & p2 & H2 & A2 & P2).
  destruct (tag_add_spec (later_mallocs 4 m) d3 b2 (ap_ok _ _ _ A2)) as (b3 & p3 & H3 & A3 & P3).
  exists b1, b2, b3, (p1 ++ p2 ++ p3). rewrite bind_some_eq, H1, bind_some_eq. split_and!; [done..| |].
  - eapply appended_trans; [done|]. by eapply appended_trans.
  - by apply pieces_all.
Qed.

Lemma evtag_marshal_spec m tag data enc b :
  buf_ok b → Z.of_nat (length data) < 2 ^ 32 → wire_record tag data = Some enc →
  ∃ b' p, evtag_marshal m tag data b = Some b' ∧ appended b p b' ∧ (length p = length enc → p = enc).
Proof.
  intros Hb Hd He. unfold wire_record in He.
  destruct (tag_bytes tag) as [t|] eqn:Htag; [|done]. rewrite bind_some_eq in He.
  destruct (encode_int_internal _) as [l|] eqn:Hl; [|done]. rewrite bind_some_eq in He. injection He as <-.
  destruct (marshal_pieces m tag t l data b Hb Htag) as (b1 & b2 & b' & p & H1 & H2 & H3 & Ha & Hp).
  exists b', p. split_and!; [|done..]. unfold evtag_marshal, evtag_encode_int.
  rewrite H1, bind_some_eq. unfold u32, wrap. rewrite Z.mod_small by lia. rewrite Hl, bind_some_eq, H2, bind_some_eq. done.
Qed.

(** ** A stream is a queue of records *)

(** Tags are 32-bit numbers; a length of 2^31 or more is negative as an [int]. *)
Definition valid_record (r : Z * bytes) : Prop := 0 <= fst r < 2 ^ 32 ∧ Z.of_nat (length (snd r)) < 2 ^ 31.

Fixpoint wire (rs : list (Z * bytes)) : option bytes :=
  match rs with
  | [] => Some []
  | (tag, data) :: rs => e ← wire_record tag data; w ← wire rs; Some (e ++ w)
  end.

Lemma wire_record_total tag data :
  valid_record (tag, data) → ∃ enc, wire_record tag data = Some enc.
Proof.
  intros [Ht Hd]. cbn [fst snd] in *. unfold wire_record. destruct (tag_bytes_total tag Ht) as (t & -> & _).
  destruct (encode_int_internal_spec (Z.of_nat (length data))) as (n & l & -> & _); [lia|].
  eexists. reflexivity.
Qed.

Lemma wire_snoc rs tag data w enc :
  wire rs = Some w → wire_record tag data = Some enc → wire (rs ++ [(tag, data)]) = Some (w ++ enc).
Proof.
  revert w. induction rs as [|[t d] rs IH]; intros w Hw He.
  - injection Hw as <-. cbn [app wire]. rewrite He. cbn. by rewrite app_nil_r.
  - cbn [app wire] in *. destruct (wire_record t d) as [e|]; [|done]. rewrite bind_some_eq in Hw |- *.
    destruct (wire rs) as [w'|]; [|done]. rewrite bind_some_eq in Hw. injection Hw as <-.
    rewrite (IH w' eq_refl He). rewrite bind_some_eq. by rewrite (assoc_L app).
Qed.

(** The buffer holds the records [rs], the oldest first. *)
Record stream (b : evbuffer) (rs : list (Z * bytes)) : Prop := {
  st_valid : Forall valid_record rs;
  st_wire : ∃ w, wire rs = Some w ∧ source b w }.

(** What a reader's destination needs. *)
Definition writable (n : nat) (b : evbuffer) : Prop :=
  buf_ok b ∧ bf_freeze_end b = false ∧ alloc_fits n b ∧ Z.of_nat (length (content b) + n) <= EV_SIZE_MAX.

Lemma stream_marshal m tag data enc b rs :
  stream b rs → valid_record (tag, data) → wire_record tag data = Some enc →
  ∃ b', evtag_marshal m tag data b = Some b' ∧ buf_ok b' ∧
    (bf_total_len b' = bf_total_len b + Z.of_nat (length enc) →
     bf_total_len b' <= EVBUFFER_CHAIN_MAX - EVBUFFER_CHAIN_SIZE → stream b' (rs ++ [(tag, data)])).
Proof.
  intros [Hv (w & Hw & Hs)] Hr He. pose proof (source_total _ _ Hs) as Ht. destruct (Hs) as [Hb Hp Hf Hc Hsz].
  destruct (evtag_marshal_spec m tag data enc b Hb) as (b' & p & Hm & [A1 A2 A3 A4 A5] & Hall);
    [destruct Hr; cbn [snd] in *; lia|done|].
  exists b'. split_and!; [done..|]. intros Hlen Hmax. rewrite Hc in A5.
  assert (bf_total_len b' = Z.of_nat (length w + length p)) as Hl.
  { rewrite (bo_total _ A1), A5, length_app. lia. }
  assert (p = enc) as -> by (apply Hall; lia). split; [by apply Forall_app_2; [|constructor]|].
  exists (w ++ enc). split; [by apply wire_snoc|]. split; [done|by apply A2|by rewrite A3|by rewrite A5|rewrite length_app; lia].
Qed.

Lemma stream_unmarshal m tag data rs src dst :
  stream src ((tag, data) :: rs) → mem_ok m → writable (length data) dst →
  ∃ src' dst', evtag_unmarshal m src dst = Some (Z.of_nat (length data), Some tag, src', dst') ∧
    stream src' rs ∧ buf_ok dst' ∧ content dst' = content dst ++ data.
Proof.
  intros [Hv (w & Hw & Hs)] Hm (Hb & Hfr & Hfits & Hmax). apply Forall_cons in Hv as [[Ht Hd] Hv]. cbn [fst snd] in *.
  cbn [wire] in Hw. destruct (wire_record tag data) as [e|] eqn:He; [|done]. rewrite bind_some_eq in Hw.
  destruct (wire rs) as [w'|] eqn:Hw'; [|done]. rewrite bind_some_eq in Hw. injection Hw as <-.
  destruct (evtag_unmarshal_spec m tag data e w' src dst) as (src' & dst' & Hu & Hs' & Hb' & Hc); try done.
  exists src', dst'. split_and!; try done. split; [done|]. by exists w'.
Qed.

(** C20. A buffer that is written with [evtag_marshal] and read with
    [evtag_unmarshal] is a queue of records.  Writing a record never fails an
    assertion, and when the buffer grew by the whole record (no allocation
    failed) the record is the new last one; reading from a queue that is not empty
    yields the tag and the length of the first record, appends exactly its data to
    the destination, and leaves the other records. *)
Theorem evtag_stream_is_queue b rs :
  stream b rs →
  (∀ m tag data, valid_record (tag, data) →
     ∃ enc b', wire_record tag data = Some enc ∧ evtag_marshal m tag data b = Some b' ∧ buf_ok b' ∧
       (bf_total_len b' = bf_total_len b + Z.of_nat (length enc) →
        bf_total_len b' <= EVBUFFER_CHAIN_MAX - EVBUFFER_CHAIN_SIZE → stream b' (rs ++ [(tag, data)]))) ∧
  (∀ m dst tag data rs', rs = (tag, data) :: rs' → mem_ok m → writable (length data) dst →
     ∃ b' dst', evtag_unmarshal m b dst = Some (Z.of_nat (length data), Some tag, b', dst') ∧
       stream b' rs' ∧ buf_ok dst' ∧ content dst' = content dst ++ data).
Proof.
  intros Hs. split.
  - intros m tag data Hr. destruct (wire_record_total tag data Hr) as [enc He].
    destruct (stream_marshal m tag data enc b rs Hs Hr He) as (b' & ? & ? & ?). by exists enc, b'.
  - intros m dst tag data rs' -> Hm Hw. by apply stream_unmarshal.
Qed.

(** ** Numbers in records *)

Lemma unmarshal_number_spec (decode : evbuffer → option (Z * option Z * evbuffer)) m tag x l enc rest b :
  mem_ok m → valid_record (tag, l) → wire_record tag l = Some enc → source b (enc ++ rest) →
  (∀ b, source b (l ++ rest) → ∃ b', decode b = Some (Z.of_nat (length l), Some x, b') ∧ source b' (l ++ rest)) →
  ∃ b', unmarshal_number tag decode m b = Some (Z.of_nat (length l), Some x, b') ∧ source b' rest.
Proof.
  intros Hm [Ht Hd] He Hs Hdec. cbn [fst snd] in *. unfold wire_record in He.
  destruct (tag_bytes tag) as [t|] eqn:Htag; [|done]. rewrite bind_some_eq in He.
  destruct (encode_int_internal _) as [len|] eqn:Hl; [|done]. rewrite bind_some_eq in He. injection He as <-.
  rewrite <- !(assoc_L app) in Hs. unfold unmarshal_number. rewrite Hm.
  destruct (decode_tag_internal_spec true tag t _ b Ht Htag Hs) as (b1 & -> & Hs1).
  rewrite bind_some_eq. cbv iota beta. rewrite (proj2 (Z.eqb_neq (Z.of_nat (length t)) (-1))) by lia.
  rewrite bool_decide_true by done. cbn [orb negb].
  destruct (evtag_decode_int_spec (later_mallocs 1 m) (Z.of_nat (length l)) len (l ++ rest) b1)
    as (b2 & -> & Hs2); [by apply all_ok_later|lia|done|done|].
  rewrite bind_some_eq. cbv iota beta. change (0 =? -1) with false. cbv iota.
  unfold evbuffer_get_length. rewrite (source_total _ _ Hs2), (proj2 (Z.ltb_ge _ (Z.of_nat (length l))))
    by (rewrite length_app; lia).
  destruct (Hdec b2 Hs2) as (b3 & -> & Hs3). rewrite bind_some_eq. cbv iota beta.
  destruct (source_drain (Z.of_nat (length l)) b3 _ Hs3) as (b4 & -> & Hs4); [rewrite length_app; lia|].
  rewrite Nat2Z.id, drop_app_length in Hs4. rewrite bind_some_eq. cbv iota beta.
  rewrite (proj2 (Z.ltb_ge (Z.of_nat (length l)) 0)), (proj2 (Z.ltb_ge (Z.of_nat (length l)) (Z.of_nat (length l)))) by lia.
  by exists b4.
Qed.

Lemma marshal_encoded_spec m tag l enc b :
  buf_ok b → wire_record tag l = Some enc →
  ∃ b' p, marshal_encoded m tag (Some l) b = Some b' ∧ appended b p b' ∧ (length p = length enc → p = enc).
Proof.
  intros Hb He. unfold wire_record in He.
  destruct (tag_bytes tag) as [t|] eqn:Htag; [|done]. rewrite bind_some_eq in He.
  destruct (encode_int_internal _) as [len|] eqn:Hl; [|done]. rewrite bind_some_eq in He. injection He as <-.
  destruct (marshal_pieces m tag t len l b Hb Htag) as (b1 & b2 & b' & p & H1 & H2 & H3 & Ha & Hp).
  exists b', p. split_and!; [|done..]. unfold marshal_encoded, evtag_encode_int.
  rewrite bind_some_eq, H1, bind_some_eq, Hl, bind_some_eq, H2, bind_some_eq. done.
Qed.

Lemma marshal_number_roundtrip (decode : mallocs → evbuffer → option (Z * option Z * evbuffer)) m1 m2 tag x l b :
  source b [] → mem_ok m2 → valid_record (tag, l) → (length l <= 16)%nat →
  (∀ m b rest, mem_ok m → source b (l ++ rest) →
     ∃ b', decode m b = Some (Z.of_nat (length l), Some x, b') ∧ source b' (l ++ rest)) →
  ∃ enc b1, wire_record tag l = Some enc ∧ marshal_encoded m1 tag (Some l) b = Some b1 ∧ buf_ok b1 ∧
    (bf_total_len b1 = Z.of_nat (length enc) →
     ∃ b2, unmarshal_number tag (decode (later_mallocs 3 m2)) m2 b1 = Some (Z.of_nat (length l), Some x, b2) ∧
       buf_ok b2 ∧ content b2 = []).
Proof.
  intros Hs Hm2 Hr Hl16 Hdec. destruct (wire_record_total tag l Hr) as [enc He].
  destruct (Hs) as [Hb Hp Hf Hc Hsz].
  destruct (marshal_encoded_spec m1 tag l enc b Hb He) as (b1 & p & Hmar & [A1 A2 A3 A4 A5] & Hall).
  exists enc, b1. split_and!; [done..|]. intros Hlen. rewrite Hc in A5. cbn [app] in A5.
  rewrite (bo_total _ A1), A5 in Hlen. assert (p = enc) as -> by (apply Hall; lia).
  assert (length enc <= 37)%nat as Hbound.
  { unfold wire_record in He. destruct (tag_bytes_total tag (proj1 Hr)) as (t & Ht & Htl & _).
    destruct (encode_int_internal_spec (Z.of_nat (length l))) as (n & e & Hel & Hcode & Hn8); [lia|].
    rewrite Ht, bind_some_eq, Hel, bind_some_eq in He. injection He as <-.
    pose proof (ic_length _ _ _ Hcode). pose proof (Nat.Div0.div_le_mono n 8 2 Hn8). change (8 / 2)%nat with 4%nat in *.
    rewrite !length_app. lia. }
  destruct (unmarshal_number_spec (decode (later_mallocs 3 m2)) m2 tag x l enc [] b1) as (b2 & Hu & [B1 _ _ B2 _]); try done.
  - split; [done|by apply A2|congruence|by rewrite app_nil_r|rewrite app_nil_r; lia].
  - intros b0 Hs0. apply Hdec; [by apply all_ok_later|done].
  - by exists b2.
Qed.

(** What [evtag_marshal_int] and [evtag_marshal_int64] write into an empty
    buffer, [evtag_unmarshal_int] and [evtag_unmarshal_int64] read back, for every
    32-bit tag and every 32-bit (64-bit) number: the result is the length of the
    encoded number, the number is the one written, and the buffer is empty again.
    The writers ignore failures of [evbuffer_add]: the length of the buffer tells
    that there was none. *)
Theorem evtag_int_roundtrip m1 m2 tag b :
  source b [] → mem_ok m2 → 0 <= tag < 2 ^ 32 →
  (∀ x, 0 <= x < 2 ^ 32 →
     ∃ l enc b1, encode_int_internal x = Some l ∧ wire_record tag l = Some enc ∧
       evtag_marshal_int m1 tag x b = Some b1 ∧ buf_ok b1 ∧
       (bf_total_len b1 = Z.of_nat (length enc) →
        ∃ b2, evtag_unmarshal_int m2 tag b1 = Some (Z.of_nat (length l), Some x, b2) ∧ buf_ok b2 ∧ content b2 = [])) ∧
  (∀ x, 0 <= x < 2 ^ 64 →
     ∃ l enc b1, encode_int64_internal x = Some l ∧ wire_record tag l = Some enc ∧
       evtag_marshal_int64 m1 tag x b = Some b1 ∧ buf_ok b1 ∧
       (bf_total_len b1 = Z.of_nat (length enc) →
        ∃ b2, evtag_unmarshal_int64 m2 tag b1 = Some (Z.of_nat (length l), Some x, b2) ∧ buf_ok b2 ∧ content b2 = [])).
Proof.
  intros Hs Hm2 Ht. split; intros x Hx.
  - destruct (encode_int_internal_spec x Hx) as (n & l & Hl & Hc & Hn). exists l. unfold evtag_marshal_int. rewrite Hl.
    pose proof (ic_length _ _ _ Hc) as Hlen. pose proof (Nat.Div0.div_le_mono n 8 2 Hn). change (8 / 2)%nat with 4%nat in *.
    destruct (marshal_number_roundtrip (λ m, decode_int_internal m 0) m1 m2 tag x l b) as (enc & b1 & H1 & H2 & H3 & H4);
      [done|done|split; [done|cbn [snd]; lia]|lia| |by exists enc, b1].
    intros m b0 rest Hm Hs0. by apply (decode_int_internal_spec m x l [] rest b0).
  - destruct (encode_int64_internal_spec x Hx) as (n & l & Hl & Hc & Hn). exists l. unfold evtag_marshal_int64. rewrite Hl.
    pose proof (ic_length _ _ _ Hc) as Hlen. pose proof (Nat.Div0.div_le_mono n 16 2 Hn). change (16 / 2)%nat with 8%nat in *.
    destruct (marshal_number_roundtrip (λ m, decode_int64_internal m 0) m1 m2 tag x l b) as (enc & b1 & H1 & H2 & H3 & H4);
      [done|done|split; [done|cbn [snd]; lia]|lia| |by exists enc, b1].
    intros m b0 rest Hm Hs0. by apply (decode_int64_internal_spec m x l [] rest b0).
Qed.

(** A tag of five bytes that all say that more follow: with a sixth byte in the
    buffer the loop goes on to it, although only five bytes were made contiguous,
    and finds only afterwards that the tag does not fit. *)
Lemma decode_tag_reads_sixth_byte n : decode_tag_loop [128; 128; 128; 128; 128] 0 0 0 (6 + n) = None.
Proof. reflexivity. Qed.
