(* ===== verification/BufferExamples.v ===== *)
(** * Byte buffers and tagged encoding: concrete buffers and streams on which the theorems apply *)

From S2P Require Import Prelude BufferCore BufferMove BufferSearch BufferInv BufferPrepend BufferDrain.
From S2P Require Import BufferCallbacks BufferMoveProps BufferPullup BufferSearchProps BufferLines BufferRead.
From S2P Require Import Tagging TaggingProps.

Definition all_ok : mallocs := λ _, true.
Definition none_ok : mallocs := λ _, false.

Definition after (r : option (Z * evbuffer)) (b : evbuffer) : evbuffer :=
  match r with Some (_, b') => b' | None => b end.

Definition hello : bytes := bytes_of_string "hello".
Definition two_lines : bytes := bytes_of_string "ab" ++ [13; 10] ++ bytes_of_string "cd" ++ [10].

Definition bx0 : evbuffer := mk_evbuffer [] 0 0 0 0 false false false 0 1 [] 0 false [].
Definition bx1 : evbuffer := after (evbuffer_add all_ok hello bx0) bx0.
Definition bx2 : evbuffer := after (evbuffer_add all_ok two_lines bx1) bx1.
(** Two chains: a referenced block of text and the text added after it. *)
Definition bx3 : evbuffer := after (evbuffer_add_reference true hello bx0) bx0.
Definition bx4 : evbuffer := after (evbuffer_add all_ok two_lines bx3) bx3.
(** A callback; then deferred callbacks. *)
Definition bc0 : evbuffer := default bx0 (evbuffer_add_cb true 1 100 7 bx0).
Definition bd0 : evbuffer := set_bf_deferred_cbs true bc0.
(** One chain of data, pinned for reading. *)
Definition bp0 : evbuffer := mk_evbuffer [mk_chain hello 0 5 16] 0 5 0 0 false false false 0 1 [] 0 false [].

(** Small buffers are well-formed by inspection. *)
Lemma buf_ok_small b :
  list_ok (bf_chains b) (bf_lwd b) → bf_total_len b = Z.of_nat (length (content b)) →
  bf_total_len b <= 1000 → bf_n_add b = 0 → bf_n_del b = 0 → buf_ok b.
Proof. intros Hl Ht Hm Ha Hd. constructor; [done..|lia|rewrite Ha; lia|rewrite Hd; lia]. Qed.

Lemma bx0_ok : buf_ok bx0.
Proof. apply buf_ok_small; [apply list_ok_nil|done..]. Qed.

Lemma bc0_ok : buf_ok bc0.
Proof. apply buf_ok_small; [apply list_ok_nil|done..]. Qed.

Lemma bd0_ok : buf_ok bd0.
Proof. apply buf_ok_small; [apply list_ok_nil|done..]. Qed.

Lemma chain_hello_ok fl : chain_ok (mk_chain hello 0 5 fl).
Proof. split; [vm_compute; lia|right; vm_compute; discriminate]. Qed.

Lemma bp0_ok : buf_ok bp0.
Proof.
  apply buf_ok_small; [|done..]. constructor; [constructor; [apply chain_hello_ok|constructor]|vm_compute; auto|constructor].
Qed.

Lemma bx3_chains : bf_chains bx3 = [mk_chain hello 0 5 12].
Proof. by vm_compute. Qed.

Lemma bx3_ok : buf_ok bx3.
Proof.
  apply buf_ok_small; [|vm_compute; congruence..].
  rewrite bx3_chains.
  replace (bf_lwd bx3) with 0%nat by by vm_compute.
  constructor; [constructor; [apply chain_hello_ok|constructor]|vm_compute; auto|constructor].
Qed.

Lemma bx1_add : evbuffer_add all_ok hello bx0 = Some (0, bx1).
Proof. by vm_compute. Qed.
Lemma bx2_add : evbuffer_add all_ok two_lines bx1 = Some (0, bx2).
Proof. by vm_compute. Qed.
Lemma bx4_add : evbuffer_add all_ok two_lines bx3 = Some (0, bx4).
Proof. by vm_compute. Qed.

Lemma unpinned_nil b : bf_chains b = [] → unpinned b.
Proof. intros H. unfold unpinned. rewrite H. constructor. Qed.

Lemma bx2_ok : buf_ok bx2 ∧ unpinned bx2 ∧ content bx2 = hello ++ two_lines.
Proof.
  destruct (evbuffer_add_success _ _ _ _ bx0_ok bx1_add) as (H1 & C1 & F1 & _).
  destruct (evbuffer_add_success _ _ _ _ H1 bx2_add) as (H2 & C2 & F2 & _).
  assert (unpinned bx1) by (eapply unpinned_flags_in; [apply (unpinned_nil bx0 eq_refl)|done..]).
  split_and!; [done|by eapply unpinned_flags_in|by rewrite C2, C1].
Qed.

Lemma bx4_ok : buf_ok bx4 ∧ unpinned bx4 ∧ content bx4 = hello ++ two_lines.
Proof.
  destruct (evbuffer_add_success _ _ _ _ bx3_ok bx4_add) as (H2 & C2 & F2 & _).
  split_and!; [done| |by rewrite C2].
  eapply unpinned_flags_in; [|done..]. by vm_compute; repeat constructor.
Qed.

(** ** The theorems at these buffers *)

Lemma evbuffer_add_correct_witness :
  ∃ r b', evbuffer_add all_ok two_lines bx3 = Some (r, b') ∧ buf_ok b' ∧ r = 0.
Proof.
  destruct (evbuffer_add_correct all_ok two_lines bx3 bx3_ok) as (r & b' & H1 & H2 & _ & H3).
  exists r, b'. split_and!; [exact H1|exact H2|]. apply H3; [vm_compute; reflexivity|vm_compute; discriminate|done|].
  split; [vm_compute; discriminate|]. rewrite bx3_chains. constructor; [vm_compute; discriminate|constructor].
Defined.

Lemma evbuffer_prepend_correct_witness :
  ∃ r b', evbuffer_prepend all_ok two_lines bx3 = Some (r, b') ∧ buf_ok b' ∧ r = 0.
Proof.
  destruct (evbuffer_prepend_correct all_ok two_lines bx3 bx3_ok) as (r & b' & H1 & H2 & _ & H3).
  exists r, b'. split_and!; [exact H1|exact H2|].
  apply H3; [vm_compute; reflexivity|vm_compute; discriminate|done|vm_compute; discriminate].
Defined.

Lemma evbuffer_drain_correct_witness :
  ∃ r b', evbuffer_drain 7 bx4 = Some (r, b') ∧ buf_ok b'.
Proof.
  destruct bx4_ok as (Hb & Hu & _).
  destruct (evbuffer_drain_correct 7 bx4 Hb Hu ltac:(lia)) as (r & b' & H1 & H2 & _).
  exists r, b'. split; [exact H1|exact H2].
Defined.

Lemma drain_all_pinned_aborts_witness : evbuffer_drain 5 bp0 = None.
Proof.
  apply (drain_all_pinned_aborts 5 bp0 bp0_ok); [vm_compute; reflexivity|discriminate|vm_compute; reflexivity|vm_compute; discriminate].
Defined.

Lemma buffer_fifo_roundtrip_witness :
  ∃ b3 b4, evbuffer_remove 7 bx2 = Some (i32 7, take (Z.to_nat 7) (hello ++ two_lines), b3) ∧
    evbuffer_remove (bf_total_len b3) b3 =
      Some (i32 (Z.of_nat (length (hello ++ two_lines)) - 7), drop (Z.to_nat 7) (hello ++ two_lines), b4) ∧
    content b4 = [].
Proof.
  apply (buffer_fifo_roundtrip all_ok all_ok hello two_lines bx0 bx1 bx2 7 bx0_ok);
    [apply (unpinned_nil bx0 eq_refl)|vm_compute; reflexivity|vm_compute; reflexivity|vm_compute; intuition discriminate|
     exact bx1_add|exact bx2_add].
Defined.

Lemma callbacks_told_exactly_witness :
  bf_log (after (run_op (OpAdd all_ok hello) bc0) bc0) = [CallFunc 100 (mk_cb_info 0 5 0) 7].
Proof.
  assert (run_op (OpAdd all_ok hello) bc0 = Some (0, after (run_op (OpAdd all_ok hello) bc0) bc0)) as Hrun
    by (vm_compute; reflexivity).
  destruct (callbacks_told_exactly (OpAdd all_ok hello) bc0 _ bc0_ok (unpinned_nil bc0 eq_refl) I Hrun)
    as (_ & Hlog & _); [discriminate|vm_compute; reflexivity..|cbn; lia|vm_compute; discriminate|].
  rewrite Hlog. vm_compute. reflexivity.
Defined.

Definition ops_ex : list buffer_op := [OpAdd all_ok hello; OpDrain 2; OpAdd all_ok hello].

Lemma deferred_callbacks_told_sum_witness :
  ∃ b', run_ops ops_ex bd0 = Some b' ∧
    bf_log (evbuffer_run_callbacks true b') = bf_log b' ++ [CallFunc 100 (mk_cb_info 0 10 2) 7].
Proof.
  destruct (run_ops ops_ex bd0) as [b'|] eqn:E; [|vm_compute in E; discriminate].
  assert (ops_apply ops_ex bd0) as Hap.
  { split; [exact I|]. vm_compute. intuition discriminate. }
  destruct (deferred_callbacks_told_sum ops_ex bd0 b' bd0_ok (unpinned_nil bd0 eq_refl) Hap E)
    as (Hlog & _ & _ & Hdel); [discriminate|vm_compute; reflexivity..|vm_compute; discriminate|vm_compute; lia|].
  exists b'. split; [vm_compute; reflexivity|]. rewrite Hlog. f_equal. vm_compute in E. injection E as <-. reflexivity.
Defined.

Lemma deferred_pending_drops_lock_witness :
  ∃ b1 b2, bf_lock b1 = bf_lock bd0 ∧ bf_lock b2 = bf_lock b1 - 1.
Proof.
  set (op := OpAdd all_ok hello).
  exists (after (run_op op bd0) bd0), (after (run_op op (after (run_op op bd0) bd0)) bd0).
  apply (deferred_pending_drops_lock op op bd0 _ _ bd0_ok (unpinned_nil bd0 eq_refl) I I);
    [discriminate|vm_compute; reflexivity..|vm_compute; reflexivity|vm_compute; reflexivity].
Defined.

Lemma evbuffer_add_buffer_correct_witness :
  moved (λ s d, d ++ s) false bx3 bx2 (evbuffer_add_buffer true bx3 bx2).
Proof.
  destruct bx2_ok as (Hb & Hu & _).
  apply (evbuffer_add_buffer_correct true bx3 bx2 bx3_ok Hb Hu). vm_compute. discriminate.
Defined.

Lemma evbuffer_prepend_buffer_correct_witness :
  moved (λ s d, s ++ d) false bx3 bx2 (evbuffer_prepend_buffer true bx3 bx2).
Proof.
  destruct bx2_ok as (Hb & Hu & _).
  apply (evbuffer_prepend_buffer_correct true bx3 bx2 bx3_ok Hb Hu). vm_compute. discriminate.
Defined.

Lemma evbuffer_pullup_correct_witness :
  ∃ r b', evbuffer_pullup true 8 bx4 = Some (r, b') ∧ pulled_up 8 bx4 r b' ∧ r ≠ None.
Proof.
  destruct bx4_ok as (Hb & _ & Hc).
  destruct (evbuffer_pullup_correct true 8 bx4 Hb) as (r & b' & H1 & H2 & H3);
    [vm_compute; discriminate|vm_compute; discriminate|].
  exists r, b'. split_and!; [exact H1|exact H2|].
  apply H3; [discriminate|rewrite Hc; vm_compute; lia| |vm_compute; reflexivity|vm_compute; discriminate].
  vm_compute. repeat constructor.
Defined.

Lemma evbuffer_search_correct_witness :
  ∃ r, evbuffer_search [111; 97] None bx4 = Some r ∧
    first_occurrence [111; 97] (content bx4) 0 bx4 r.
Proof.
  destruct bx4_ok as (Hb & _ & _).
  apply (evbuffer_search_correct [111; 97] None bx4 Hb); [discriminate|vm_compute; discriminate|].
  apply (ptr_ok_first bx4 Hb).
Defined.

Lemma evbuffer_readln_correct_witness :
  ∃ b', evbuffer_readln true EVBUFFER_EOL_CRLF bx4 = Some (Some (hello ++ bytes_of_string "ab"), b').
Proof.
  destruct bx4_ok as (Hb & Hu & Hc).
  pose proof (evbuffer_readln_correct EVBUFFER_EOL_CRLF bx4 Hb Hu) as H. rewrite Hc in H.
  destruct H as (b' & H & _); [vm_compute; discriminate|vm_compute; reflexivity|vm_compute; discriminate|]. exists b'. exact H.
Defined.

Lemma bx4_readable : readable bx4.
Proof.
  destruct bx4_ok as (Hb & _ & _). constructor; [exact Hb|vm_compute; repeat constructor| |].
  - intros c Hc He. assert (c_off <$> (bf_chains bx4 !! bf_lwd bx4) = Some 7%nat) as H by (vm_compute; reflexivity).
    rewrite Hc in H. injection H as H. unfold empty_chain in He. congruence.
  - replace (drop (bf_lwd bx4) (bf_chains bx4)) with (drop 1 (bf_chains bx4)) by (vm_compute; reflexivity).
    vm_compute. repeat constructor; discriminate.
Qed.

Lemma evbuffer_read_correct_witness :
  ∃ r b', evbuffer_read true 100 (Some hello) 50 bx4 = Some (r, b') ∧ buf_ok b' ∧ content b' = content bx4 ++ hello.
Proof.
  destruct (evbuffer_read_correct true 100 (Some hello) 50 bx4 bx4_readable) as (r & b' & H1 & H2 & H3);
    [vm_compute; reflexivity|vm_compute; discriminate|intros d [= <-]; vm_compute; discriminate|].
  exists r, b'. split_and!; [exact H1|exact H2|]. destruct H3 as [(_ & [H|H] & _)|(d & [= <-] & _ & H)];
    [discriminate|discriminate|exact H].
Defined.

(** * Tagged encoding: concrete streams on which the theorems apply *)

(** The encodings of the comments of the source and of its tests. *)
Example tag_66 : tag_bytes 0x66 = Some [0x66].
Proof. reflexivity. Qed.
Example tag_166 : tag_bytes 0x166 = Some [0xe6; 0x02].
Proof. reflexivity. Qed.
Example int_af0 : encode_int_internal 0xaf0 = Some [0x20; 0xfa].
Proof. reflexivity. Qed.
Example int_1000 : encode_int_internal 0x1000 = Some [0x30; 0x00; 0x10].
Proof. reflexivity. Qed.
Example int_dead : encode_int_internal 0xdeadbeef = Some [0x7f; 0xee; 0xbd; 0xae; 0xd0].
Proof. reflexivity. Qed.
Example int_0 : encode_int64_internal 0 = Some [0x00].
Proof. reflexivity. Qed.

Definition tx1 : evbuffer := default bx0 (evtag_marshal all_ok 300 hello bx0).

Lemma bx0_source : source bx0 [].
Proof. split; [exact bx0_ok|constructor|reflexivity|reflexivity|vm_compute; discriminate]. Qed.

Lemma bx0_stream : stream bx0 [].
Proof. split; [constructor|]. exists []. split; [reflexivity|exact bx0_source]. Qed.

Lemma tx1_stream : stream tx1 [(300, hello)].
Proof.
  destruct (stream_marshal all_ok 300 hello (match wire_record 300 hello with Some e => e | None => [] end) bx0 [] bx0_stream)
    as (b' & H1 & _ & H3); [split; vm_compute; intuition discriminate|reflexivity|].
  assert (b' = tx1) as -> by (unfold tx1; rewrite H1; reflexivity).
  apply H3; vm_compute; [reflexivity|discriminate].
Qed.

Lemma bx0_writable : writable 5 bx0.
Proof.
  split; [exact bx0_ok|]. split; [reflexivity|]. split; [|vm_compute; discriminate].
  split; [vm_compute; discriminate|constructor].
Qed.

Lemma evtag_stream_is_queue_witness :
  ∃ b' dst', evtag_unmarshal all_ok tx1 bx0 = Some (5, Some 300, b', dst') ∧ stream b' [] ∧ content dst' = hello.
Proof.
  destruct (evtag_stream_is_queue tx1 [(300, hello)] tx1_stream) as [_ H].
  destruct (H all_ok bx0 300 hello [] eq_refl (λ _, eq_refl) bx0_writable) as (b' & dst' & H1 & H2 & _ & H3).
  exists b', dst'. split; [exact H1|]. split; [exact H2|exact H3].
Defined.

Lemma evtag_int_roundtrip_witness :
  ∃ b1 b2, evtag_marshal_int64 all_ok 7 (2 ^ 64 - 1) bx0 = Some b1 ∧
    evtag_unmarshal_int64 all_ok 7 b1 = Some (9, Some (2 ^ 64 - 1), b2) ∧ content b2 = [].
Proof.
  destruct (evtag_int_roundtrip all_ok all_ok 7 bx0 bx0_source (λ _, eq_refl) ltac:(lia)) as [_ H].
  destruct (H (2 ^ 64 - 1) ltac:(lia)) as (l & enc & b1 & Hl & He & Hm & _ & Hu).
  assert (encode_int64_internal (2 ^ 64 - 1) = Some (replicate 8 255 ++ [240])) as Hl' by (vm_compute; reflexivity).
  assert (l = replicate 8 255 ++ [240]) as -> by congruence.
  assert (wire_record 7 (replicate 8 255 ++ [240]) = Some (7 :: 9 :: replicate 8 255 ++ [240])) as He'
    by (vm_compute; reflexivity).
  assert (enc = 7 :: 9 :: replicate 8 255 ++ [240]) as -> by congruence.
  assert (b1 = default bx0 (evtag_marshal_int64 all_ok 7 (2 ^ 64 - 1) bx0)) as -> by (rewrite Hm; reflexivity).
  destruct Hu as (b2 & Hb2 & _ & Hc); [vm_compute; reflexivity|].
  eexists _, b2. split; [exact Hm|]. split; [exact Hb2|exact Hc].
Defined.
