(* ===== verification/TokenBucket.v ===== *)
(** * Token buckets (bufferevent_ratelim.c, ratelim-internal.h)

    A bucket holds the number of bytes that may be read and written now; every
    tick of the clock adds the rate, up to a maximum.  Limits are 64-bit signed
    numbers that may be negative, rates and maxima are [size_t], and ticks are
    32-bit numbers that wrap around. *)

From S2P Require Import Prelude TimeVal.

(** ** Data *)

Record ev_token_bucket := mk_bucket {
  read_limit : Z;
  write_limit : Z;
  last_updated : Z
}.

Record ev_token_bucket_cfg := mk_bucket_cfg {
  read_rate : Z;
  read_maximum : Z;
  write_rate : Z;
  write_maximum : Z;
  tick_timeout : timeval;
  msec_per_tick : Z
}.

#[export] Instance ev_token_bucket_eq_dec : EqDecision ev_token_bucket.
Proof. solve_decision. Defined.
#[export] Instance ev_token_bucket_cfg_eq_dec : EqDecision ev_token_bucket_cfg.
Proof. solve_decision. Defined.

Abbreviation EV_RATE_LIMIT_MAX := EV_SSIZE_MAX.

(** ** Operations *)

Definition ev_token_bucket_init_ (cfg : ev_token_bucket_cfg) (current_tick : Z) (reinitialize : bool)
    (b : ev_token_bucket) : ev_token_bucket :=
  if reinitialize then
    mk_bucket (if i64 (read_maximum cfg) <? read_limit b then i64 (read_maximum cfg) else read_limit b)
      (if i64 (write_maximum cfg) <? write_limit b then i64 (write_maximum cfg) else write_limit b)
      (last_updated b)
  else mk_bucket (i64 (read_rate cfg)) (i64 (write_rate cfg)) current_tick.

(** One limit: the arithmetic is that of [size_t]. *)
Definition refill (maximum rate limit n_ticks : Z) : Z :=
  if u64 (maximum - limit) `div` n_ticks <? rate then i64 maximum
  else i64 (u64 (limit + u64 (n_ticks * rate))).

Definition ev_token_bucket_update_ (cfg : ev_token_bucket_cfg) (current_tick : Z) (b : ev_token_bucket) :
    Z * ev_token_bucket :=
  let n_ticks := u32 (current_tick - last_updated b) in
  if (n_ticks =? 0) || (INT_MAX <? n_ticks) then (0, b)
  else (1, mk_bucket (refill (read_maximum cfg) (read_rate cfg) (read_limit b) n_ticks)
             (refill (write_maximum cfg) (write_rate cfg) (write_limit b) n_ticks) current_tick).

(** [None] is the division by a tick of no length. *)
Definition ev_token_bucket_get_tick_ (tv : timeval) (cfg : ev_token_bucket_cfg) : option Z :=
  let msec := u64 (u64 (tv_sec tv) * 1000 + tv_usec tv ÷ 1000) in
  if msec_per_tick cfg =? 0 then None else Some (u32 (msec `div` msec_per_tick cfg)).

(** The common-timeout bits of the microseconds are masked. *)
Definition COMMON_TIMEOUT_MICROSECONDS_MASK : Z := 1048575.

Definition ev_token_bucket_cfg_new (ok : bool) (read_rate read_burst write_rate write_burst : Z)
    (tick_len : option timeval) : option ev_token_bucket_cfg :=
  let tick := default (mk_timeval 1 0) tick_len in
  if (read_burst <? read_rate) || (write_burst <? write_rate) || (read_rate <? 1) || (write_rate <? 1)
  then None
  else if (EV_RATE_LIMIT_MAX <? read_rate) || (EV_RATE_LIMIT_MAX <? write_rate) ||
          (EV_RATE_LIMIT_MAX <? read_burst) || (EV_RATE_LIMIT_MAX <? write_burst)
  then None
  else if ok then
    Some (mk_bucket_cfg read_rate read_burst write_rate write_burst tick
      (u32 (tv_sec tick * 1000 + Z.land (tv_usec tick) COMMON_TIMEOUT_MICROSECONDS_MASK ÷ 1000)))
  else None.

Definition ev_token_bucket_decrement_read (b : ev_token_bucket) (n : Z) : ev_token_bucket :=
  mk_bucket (i64 (read_limit b - n)) (write_limit b) (last_updated b).
Definition ev_token_bucket_decrement_write (b : ev_token_bucket) (n : Z) : ev_token_bucket :=
  mk_bucket (read_limit b) (i64 (write_limit b - n)) (last_updated b).

(** ** Well-formed configurations and buckets *)

Record cfg_ok (cfg : ev_token_bucket_cfg) : Prop := {
  co_read : 1 <= read_rate cfg <= read_maximum cfg;
  co_write : 1 <= write_rate cfg <= write_maximum cfg;
  co_read_max : read_maximum cfg <= EV_SSIZE_MAX;
  co_write_max : write_maximum cfg <= EV_SSIZE_MAX }.

Record bucket_ok (cfg : ev_token_bucket_cfg) (b : ev_token_bucket) : Prop := {
  bk_read : - EV_SSIZE_MAX <= read_limit b <= read_maximum cfg;
  bk_write : - EV_SSIZE_MAX <= write_limit b <= write_maximum cfg }.

Lemma i64_small x : - EV_SSIZE_MAX <= x <= EV_SSIZE_MAX → i64 x = x.
Proof. intros H. unfold swrap. rewrite Z.mod_small; lia. Qed.

Lemma i64_u64 x : - EV_SSIZE_MAX <= x <= EV_SSIZE_MAX → i64 (u64 x) = x.
Proof.
  intros H. unfold swrap, wrap. rewrite Zplus_mod_idemp_l. rewrite Z.mod_small; lia.
Qed.

(** The division by the number of ticks decides without overflow whether the
    bucket would run over. *)
Lemma refill_spec maximum rate limit n :
  1 <= rate <= maximum → maximum <= EV_SSIZE_MAX → - EV_SSIZE_MAX <= limit <= maximum → 0 < n <= INT_MAX →
  refill maximum rate limit n = Z.min maximum (limit + n * rate).
Proof.
  intros Hr Hm Hl Hn. unfold refill. rewrite (wrap_small 64 (maximum - limit)) by lia.
  pose proof (Z.div_mod (maximum - limit) n ltac:(lia)) as Hd.
  pose proof (Z.mod_pos_bound (maximum - limit) n ltac:(lia)) as Hmod.
  destruct (Z.ltb_spec ((maximum - limit) `div` n) rate) as [Hlt|Hge].
  - rewrite i64_small by lia. rewrite Z.min_l; [done|]. nia.
  - assert (n * rate <= maximum - limit) as Hfit by nia.
    rewrite (wrap_small 64 (n * rate)) by nia. rewrite i64_u64 by nia. rewrite Z.min_r; lia.
Qed.

Lemma refill_range maximum rate limit n :
  1 <= rate <= maximum → maximum <= EV_SSIZE_MAX → - EV_SSIZE_MAX <= limit <= maximum → 0 < n <= INT_MAX →
  limit <= refill maximum rate limit n <= maximum.
Proof. intros. rewrite refill_spec by done. nia. Qed.

(** The ticks that an update counts. *)
Definition ticks (current_tick : Z) (b : ev_token_bucket) : Z :=
  let n := u32 (current_tick - last_updated b) in if INT_MAX <? n then 0 else n.

Lemma update_spec cfg t b :
  cfg_ok cfg → bucket_ok cfg b →
  let b' := snd (ev_token_bucket_update_ cfg t b) in
  read_limit b' = Z.min (read_maximum cfg) (read_limit b + ticks t b * read_rate cfg) ∧
  write_limit b' = Z.min (write_maximum cfg) (write_limit b + ticks t b * write_rate cfg) ∧
  bucket_ok cfg b'.
Proof.
  intros [C1 C2 C3 C4] [B1 B2]. unfold ev_token_bucket_update_, ticks. cbv zeta.
  pose proof (wrap_range 32 (t - last_updated b) ltac:(lia)) as Hn.
  set (n := u32 (t - last_updated b)) in *.
  destruct (Z.eqb_spec n 0) as [H0|H0]; cbn [orb].
  { rewrite H0. cbn [snd]. change (INT_MAX <? 0) with false. cbv iota. split_and!; [lia..|done]. }
  destruct (Z.ltb_spec INT_MAX n) as [Hgt|Hle]; cbn [orb snd].
  { split_and!; [lia..|done]. }
  cbn [read_limit write_limit]. rewrite !refill_spec by lia. split_and!; [done..|].
  split; cbn [read_limit write_limit]; nia.
Qed.

(** [ev_token_bucket_update_] computes, without overflow, what its comment says
    it would "naively" compute: every tick since the last update adds the rate,
    and the sum is clipped to the maximum; when no tick passed or the clock went
    back nothing changes. *)
Theorem token_bucket_update_is_naive cfg t b :
  cfg_ok cfg → bucket_ok cfg b →
  let '(r, b') := ev_token_bucket_update_ cfg t b in
  (r = 1 ↔ 0 < ticks t b) ∧ (r = 0 → b' = b) ∧ (r = 0 ∨ r = 1 ∧ last_updated b' = t) ∧
  read_limit b' = Z.min (read_maximum cfg) (read_limit b + ticks t b * read_rate cfg) ∧
  write_limit b' = Z.min (write_maximum cfg) (write_limit b + ticks t b * write_rate cfg) ∧
  bucket_ok cfg b'.
Proof.
  intros Hc Hb. pose proof (update_spec cfg t b Hc Hb) as (H1 & H2 & H3).
  destruct (ev_token_bucket_update_ cfg t b) as [r b'] eqn:He. cbn [snd] in *. split_and!; [| | |done..].
  all: revert He; unfold ev_token_bucket_update_, ticks; cbv zeta;
    pose proof (wrap_range 32 (t - last_updated b) ltac:(lia)) as Hn; set (n := u32 (t - last_updated b)) in *;
    destruct (Z.eqb_spec n 0), (Z.ltb_spec INT_MAX n); cbn [orb]; intros [= <- <-]; try done; try lia; auto.
Qed.

(** ** The rate over a run *)

(** What happens to a bucket: an update at a tick, and transfers. *)
Inductive bucket_op :=
  | BTick (t : Z)
  | BRead (n : Z)
  | BWrite (n : Z).

Definition run_bucket_op (cfg : ev_token_bucket_cfg) (op : bucket_op) (b : ev_token_bucket) : ev_token_bucket :=
  match op with
  | BTick t => snd (ev_token_bucket_update_ cfg t b)
  | BRead n => ev_token_bucket_decrement_read b n
  | BWrite n => ev_token_bucket_decrement_write b n
  end.

(** A transfer is of at most what the bucket holds. *)
Definition allowed (op : bucket_op) (b : ev_token_bucket) : Prop :=
  match op with
  | BTick _ => True
  | BRead n => 0 <= n <= Z.max 0 (read_limit b)
  | BWrite n => 0 <= n <= Z.max 0 (write_limit b)
  end.

(** A run on a clock whose ticks are [now], which does not go back and of which the
    code sees the lowest 32 bits: the sums of what was read and of what was written,
    and the tick at the end. *)
Inductive bucket_run (cfg : ev_token_bucket_cfg) (start : Z) (b : ev_token_bucket) :
    list bucket_op → ev_token_bucket → Z → Z → Z → Prop :=
  | run_nil : bucket_run cfg start b [] b 0 0 start
  | run_tick ops b1 r w now t :
      bucket_run cfg start b ops b1 r w now → now <= t →
      bucket_run cfg start b (ops ++ [BTick (u32 t)]) (run_bucket_op cfg (BTick (u32 t)) b1) r w t
  | run_read ops b1 r w now n :
      bucket_run cfg start b ops b1 r w now → allowed (BRead n) b1 →
      bucket_run cfg start b (ops ++ [BRead n]) (run_bucket_op cfg (BRead n) b1) (r + n) w now
  | run_write ops b1 r w now n :
      bucket_run cfg start b ops b1 r w now → allowed (BWrite n) b1 →
      bucket_run cfg start b (ops ++ [BWrite n]) (run_bucket_op cfg (BWrite n) b1) r (w + n) now.

Lemma ticks_nonneg t b : 0 <= ticks t b.
Proof.
  unfold ticks. cbv zeta. pose proof (wrap_range 32 (t - last_updated b) ltac:(lia)).
  destruct (INT_MAX <? u32 (t - last_updated b)); lia.
Qed.

(** An update counts at most the ticks that passed, and remembers them. *)
Lemma ticks_passed cfg t seen b : last_updated b = u32 seen → seen <= t →
  ∃ seen', ticks (u32 t) b <= seen' - seen ∧ seen' <= t ∧ last_updated (snd (ev_token_bucket_update_ cfg (u32 t) b)) = u32 seen'.
Proof.
  intros Hl Ht. unfold ticks, ev_token_bucket_update_. cbv zeta. rewrite Hl.
  assert (E : u32 (u32 t - u32 seen) = u32 (t - seen)) by (unfold wrap; by rewrite <- Zminus_mod).
  rewrite E. pose proof (Z.mod_le (t - seen) (2 ^ 32) ltac:(lia) ltac:(lia) : u32 (t - seen) <= t - seen) as Hle.
  pose proof (wrap_range 32 (t - seen) ltac:(lia)). destruct (Z.eqb_spec (u32 (t - seen)) 0) as [H0|H0]; cbn [orb snd].
  { exists seen. rewrite H0. change (INT_MAX <? 0) with false. cbv iota. split_and!; [lia|lia|done]. }
  destruct (Z.ltb_spec INT_MAX (u32 (t - seen))); cbn [snd last_updated]; [exists seen|exists t]; split_and!; (done || lia).
Qed.

Lemma bucket_run_potential cfg start b ops b' r w now :
  cfg_ok cfg → bucket_ok cfg b → last_updated b = u32 start → bucket_run cfg start b ops b' r w now →
  ∃ seen, last_updated b' = u32 seen ∧ start <= seen <= now ∧ bucket_ok cfg b' ∧
  r + read_limit b' <= read_limit b + (seen - start) * read_rate cfg ∧
  w + write_limit b' <= write_limit b + (seen - start) * write_rate cfg ∧
  (Z.min 0 (read_limit b) <= read_limit b') ∧ (Z.min 0 (write_limit b) <= write_limit b').
Proof.
  intros Hc Hb Hs. induction 1 as [|ops b1 r w now t _ IH Ht|ops b1 r w now n _ IH Ha|ops b1 r w now n _ IH Ha];
    [exists start; split_and!; try done; lia|..]; destruct IH as (seen & Hl & Hsn & Hb1 & Hr & Hw & Hr0 & Hw0);
    destruct (Hc) as [C1 C2 C3 C4]; destruct (Hb1) as [B1 B2]; cbn [run_bucket_op allowed] in *.
  - pose proof (update_spec cfg (u32 t) b1 Hc Hb1) as (E1 & E2 & Hb2). pose proof (ticks_nonneg (u32 t) b1) as Hn.
    destruct (ticks_passed cfg t seen b1 Hl ltac:(lia)) as (seen' & Hk & Hs' & Hl'). exists seen'. rewrite E1, E2.
    assert (Hm : ∀ rate, 1 <= rate → 0 <= ticks (u32 t) b1 * rate ∧ ticks (u32 t) b1 * rate + (seen - start) * rate <= (seen' - start) * rate) by (intros; nia).
    destruct (Hm (read_rate cfg) ltac:(lia)), (Hm (write_rate cfg) ltac:(lia)). split_and!; [done|lia|lia|done|lia..].
  - destruct Hb. exists seen. unfold ev_token_bucket_decrement_read. rewrite i64_small by lia. cbn [read_limit write_limit last_updated].
    split_and!; [done|lia|lia|split; cbn; lia| lia..].
  - destruct Hb. exists seen. unfold ev_token_bucket_decrement_write. rewrite i64_small by lia. cbn [read_limit write_limit last_updated].
    split_and!; [done|lia|lia|split; cbn; lia| lia..].
Qed.

(** C19. The promise of rate limiting: as long as no transfer is larger than what
    the bucket holds, what is read over any run is at most what the bucket held at
    its beginning (which is at most the burst size) plus the rate for every tick
    of the clock that passed since then, and the same for what is written; however
    often the bucket is updated and however the 32-bit number of the tick wraps around.
    The bucket was last updated at the start of the run. *)
Theorem token_bucket_bounds_rate cfg start b ops b' r w now :
  cfg_ok cfg → bucket_ok cfg b → last_updated b = u32 start → bucket_run cfg start b ops b' r w now →
  bucket_ok cfg b' ∧
  r <= Z.max 0 (read_limit b) + (now - start) * read_rate cfg ∧ r <= read_maximum cfg + (now - start) * read_rate cfg ∧
  w <= Z.max 0 (write_limit b) + (now - start) * write_rate cfg ∧ w <= write_maximum cfg + (now - start) * write_rate cfg.
Proof.
  intros Hc Hb Hs Hrun. destruct (bucket_run_potential cfg start b ops b' r w now Hc Hb Hs Hrun) as (seen & _ & Hseen & Hb' & H1 & H2 & H3 & H4).
  destruct Hb, Hc. split_and!; [done|nia..].
Qed.

(** A bucket that is empty holds something again once enough ticks have passed. *)
Lemma update_refills cfg t b :
  cfg_ok cfg → bucket_ok cfg b → 0 < ticks t b → - read_limit b < ticks t b * read_rate cfg →
  0 < read_limit (snd (ev_token_bucket_update_ cfg t b)).
Proof.
  intros Hc Hb Ht Hr. destruct (update_spec cfg t b Hc Hb) as (-> & _). destruct Hc. lia.
Qed.

(** A limit above the maximum, which a negative decrement can bring about, is not
    clipped by an update: the difference wraps around and the rate is added. *)
Lemma overfull_not_clipped maximum rate limit n :
  1 <= rate → 0 < n → maximum < limit → limit + n * rate <= EV_SSIZE_MAX → 0 <= maximum →
  refill maximum rate limit n = limit + n * rate.
Proof.
  intros Hr Hn Hm Ho Hx. unfold refill.
  replace (u64 (maximum - limit)) with (2 ^ 64 - (limit - maximum)).
  2:{ unfold wrap. rewrite <- (Z_mod_plus_full (maximum - limit) 1 (2 ^ 64)). rewrite Z.mod_small by nia. lia. }
  destruct (Z.ltb_spec ((2 ^ 64 - (limit - maximum)) `div` n) rate) as [Hlt|Hge].
  - pose proof (Z.div_mod (2 ^ 64 - (limit - maximum)) n ltac:(lia)).
    pose proof (Z.mod_pos_bound (2 ^ 64 - (limit - maximum)) n ltac:(lia)). nia.
  - rewrite (wrap_small 64 (n * rate)) by nia. apply i64_u64. nia.
Qed.

Lemma cfg_new_ok ok rr rb wr wb tl cfg :
  ev_token_bucket_cfg_new ok rr rb wr wb tl = Some cfg → cfg_ok cfg ∧ 0 <= msec_per_tick cfg < 2 ^ 32.
Proof.
  unfold ev_token_bucket_cfg_new. cbv zeta.
  destruct (Z.ltb_spec rb rr), (Z.ltb_spec wb wr), (Z.ltb_spec rr 1), (Z.ltb_spec wr 1); cbn [orb]; try done.
  destruct (Z.ltb_spec EV_RATE_LIMIT_MAX rr), (Z.ltb_spec EV_RATE_LIMIT_MAX wr), (Z.ltb_spec EV_RATE_LIMIT_MAX rb),
    (Z.ltb_spec EV_RATE_LIMIT_MAX wb); cbn [orb]; try done.
  destruct ok; [|done]. intros [= <-]. split; [split; cbn; lia|]. cbn [msec_per_tick]. apply wrap_range. lia.
Qed.

Lemma init_ok cfg t b reinit :
  cfg_ok cfg → (reinit = true → - EV_SSIZE_MAX <= read_limit b ∧ - EV_SSIZE_MAX <= write_limit b) →
  bucket_ok cfg (ev_token_bucket_init_ cfg t reinit b).
Proof.
  intros [C1 C2 C3 C4] Hr. unfold ev_token_bucket_init_. rewrite !i64_small by lia.
  destruct reinit; [destruct (Hr eq_refl)|]; split; cbn [read_limit write_limit]; try lia.
  - destruct (Z.ltb_spec (read_maximum cfg) (read_limit b)); lia.
  - destruct (Z.ltb_spec (write_maximum cfg) (write_limit b)); lia.
Qed.

(** ** Examples *)

Definition cfg_4k : ev_token_bucket_cfg :=
  mk_bucket_cfg 1024 4096 512 2048 (mk_timeval 1 0) 1000.

Lemma cfg_4k_ok : cfg_ok cfg_4k.
Proof. split; cbn; lia. Qed.

Definition bucket_0 : ev_token_bucket := mk_bucket 1024 512 4294967294.

Lemma bucket_0_ok : bucket_ok cfg_4k bucket_0.
Proof. split; cbn; lia. Qed.

(** The tick number wraps around: from 2^32 - 2 to 1 are three ticks. *)
Lemma token_bucket_update_is_naive_witness :
  let '(r, b') := ev_token_bucket_update_ cfg_4k 1 bucket_0 in
  r = 1 ∧ ticks 1 bucket_0 = 3 ∧ read_limit b' = Z.min 4096 (1024 + 3 * 1024) ∧
  write_limit b' = Z.min 2048 (512 + 3 * 512) ∧ bucket_ok cfg_4k b'.
Proof.
  pose proof (token_bucket_update_is_naive cfg_4k 1 bucket_0 cfg_4k_ok bucket_0_ok) as H.
  destruct (ev_token_bucket_update_ cfg_4k 1 bucket_0) as [r b'] eqn:He.
  destruct H as (H1 & _ & _ & H2 & H3 & H4). split; [apply H1; vm_compute; reflexivity|].
  split; [vm_compute; reflexivity|]. split; [exact H2|]. split; [exact H3|exact H4].
Defined.

(** One tick, over the end of the 32 bits, between two reads. *)
Lemma token_bucket_bounds_rate_witness :
  ∃ b', bucket_run cfg_4k 4294967294 bucket_0 [BRead 1000; BTick 0; BRead 1048] b' 2048 0 4294967296 ∧
    2048 <= Z.max 0 1024 + (4294967296 - 4294967294) * 1024.
Proof.
  assert (bucket_run cfg_4k 4294967294 bucket_0 [BRead 1000; BTick 0; BRead 1048] (mk_bucket 1024 1536 0) 2048 0 4294967296) as Hrun.
  { apply (run_read cfg_4k 4294967294 bucket_0 [BRead 1000; BTick 0] (mk_bucket 2072 1536 0) 1000 0 4294967296 1048); [|cbn; lia].
    apply (run_tick cfg_4k 4294967294 bucket_0 [BRead 1000] (mk_bucket 24 512 4294967294) 1000 0 4294967294 4294967296); [|lia].
    apply (run_read cfg_4k 4294967294 bucket_0 [] bucket_0 0 0 4294967294 1000); [constructor|cbn; lia]. }
  exists (mk_bucket 1024 1536 0). split; [exact Hrun|].
  apply (token_bucket_bounds_rate cfg_4k 4294967294 bucket_0 _ _ _ _ _ cfg_4k_ok bucket_0_ok eq_refl Hrun).
Defined.
