(* ===== verification/Bevent.v ===== *)
(** * Buffered events: data and operations (bufferevent.c, bufferevent_sock.c)

    A buffered event couples an input and an output buffer with two events of the
    event base, one for reading and one for writing, that are registered as long
    as the direction is enabled and nothing suspends it.  The store of all
    buffered events and rate-limiting groups is a map from addresses.

    The events are reached through an interface, [EventApi]: adding, deleting and
    asking whether an event is pending, on an abstract state.  User callbacks are
    an arbitrary function on the store.  Locks are not modelled; the [trylock]s of
    the rate-limiting groups are an oracle. *)

From S2P Require Import Prelude TimeVal EvMap TokenBucket BufferCore BufferMove.

(** ** Constants *)

Abbreviation EV_TIMEOUT := 1.
Abbreviation BEV_EVENT_READING := 1.
Abbreviation BEV_EVENT_WRITING := 2.
Abbreviation BEV_EVENT_EOF := 16.
Abbreviation BEV_EVENT_ERROR := 32.
Abbreviation BEV_EVENT_TIMEOUT := 64.
Abbreviation BEV_EVENT_CONNECTED := 128.
Abbreviation BEV_OPT_CLOSE_ON_FREE := 1.
Abbreviation BEV_OPT_DEFER_CALLBACKS := 4.
Abbreviation BEV_OPT_UNLOCK_CALLBACKS := 8.
Abbreviation BEV_TRIG_IGNORE_WATERMARKS := 65536.
Abbreviation BEV_TRIG_ALL_OPTS := 65540.
Abbreviation BEV_SUSPEND_WM := 1.
Abbreviation BEV_SUSPEND_BW := 2.
Abbreviation BEV_SUSPEND_BW_GROUP := 4.
Abbreviation BEV_SUSPEND_LOOKUP := 8.
Abbreviation MAX_SINGLE_READ_DEFAULT := 16384.
Abbreviation MAX_SINGLE_WRITE_DEFAULT := 16384.

(** The addresses of the callbacks that libevent installs itself. *)
Abbreviation INBUF_WM_CB := 1.
Abbreviation OUTBUF_CB := 2.

(** ** The interface to the events *)

(** The events of the buffered events and groups. *)
Inductive bev_event :=
  | EvRead (a : Z)
  | EvWrite (a : Z)
  | EvRefill (a : Z)
  | EvMaster (g : Z).

#[export] Instance bev_event_eq_dec : EqDecision bev_event.
Proof. solve_decision. Defined.

(** Events on a descriptor, as opposed to timers. *)
Definition io_event (e : bev_event) : bool := match e with EvRead _ | EvWrite _ => true | _ => false end.

(** [event_add], [event_del], [event_remove_timer] and [event_pending], for the
    descriptor's condition of [EvRead] and [EvWrite] and the timeout of the others; a
    result of [None] stands for an assertion that fails. *)
Class EventApi (E : Type) := {
  event_add : E → bev_event → option timeval → option (Z * E);
  event_del : E → bev_event → option (Z * E);
  event_remove_timer : E → bev_event → option (Z * E);
  is_pending : E → bev_event → bool;
  events_ok : E → Prop;
}.

(** What the event base promises: an event that was added is pending and one that
    was deleted is not, whatever the result; no other event is affected. *)
Class EventLaws (E : Type) `{EventApi E} : Prop := {
  add_total s e tv : events_ok s → (∀ t, tv = Some t → tv_norm t) →
    ∃ r s', event_add s e tv = Some (r, s') ∧ events_ok s' ∧ (r = 0 ∨ r = -1) ∧
      (r = 0 → is_pending s' e = true) ∧ (r = -1 → is_pending s' e = is_pending s e) ∧
      ∀ e', e' ≠ e → is_pending s' e' = is_pending s e';
  del_total s e : events_ok s →
    ∃ r s', event_del s e = Some (r, s') ∧ events_ok s' ∧ (r = 0 ∨ r = -1) ∧ is_pending s' e = false ∧
      ∀ e', e' ≠ e → is_pending s' e' = is_pending s e';
  remove_timer_total s e : events_ok s → io_event e = true →
    ∃ r s', event_remove_timer s e = Some (r, s') ∧ events_ok s' ∧ ∀ e', is_pending s' e' = is_pending s e';
}.

(** ** Data *)

(** [struct bufferevent_rate_limit]: the address of the group (0 for NULL), the
    bucket, the configuration with its address, and whether the refill event was
    assigned. *)
Record bufferevent_rate_limit := mk_rlim {
  rl_group : Z;
  rl_limit : ev_token_bucket;
  rl_cfg : option (Z * ev_token_bucket_cfg);
  rl_initialized : bool
}.

Definition set_rl_group (v : Z) (r : bufferevent_rate_limit) : bufferevent_rate_limit :=
  mk_rlim v (rl_limit r) (rl_cfg r) (rl_initialized r).
Definition set_rl_limit (v : ev_token_bucket) (r : bufferevent_rate_limit) : bufferevent_rate_limit :=
  mk_rlim (rl_group r) v (rl_cfg r) (rl_initialized r).
Definition set_rl_cfg (v : option (Z * ev_token_bucket_cfg)) (r : bufferevent_rate_limit) : bufferevent_rate_limit :=
  mk_rlim (rl_group r) (rl_limit r) v (rl_initialized r).
Definition set_rl_initialized (v : bool) (r : bufferevent_rate_limit) : bufferevent_rate_limit :=
  mk_rlim (rl_group r) (rl_limit r) (rl_cfg r) v.

(** [struct bufferevent] and [struct bufferevent_private].  Callbacks are addresses,
    0 being NULL; [read_watermarks_cb] is the address of the entry on the input. *)
Record bufferevent := mk_bev {
  bev_input : evbuffer;
  bev_output : evbuffer;
  wm_read_low : Z;
  wm_read_high : Z;
  wm_write_low : Z;
  wm_write_high : Z;
  bev_readcb : Z;
  bev_writecb : Z;
  bev_errorcb : Z;
  bev_cbarg : Z;
  timeout_read : timeval;
  timeout_write : timeval;
  bev_enabled : Z;
  bev_fd : Z;
  read_watermarks_cb : Z;
  readcb_pending : bool;
  writecb_pending : bool;
  connecting : bool;
  connection_refused : bool;
  eventcb_pending : Z;
  errno_pending : Z;
  read_suspended : Z;
  write_suspended : Z;
  deferred_scheduled : bool;
  bev_options : Z;
  bev_refcnt : Z;
  max_single_read : Z;
  max_single_write : Z;
  rate_limiting : option bufferevent_rate_limit;
  bev_finalizing : bool
}.

Definition set_bev_input (v : evbuffer) (r : bufferevent) : bufferevent :=
  mk_bev v (bev_output r) (wm_read_low r) (wm_read_high r) (wm_write_low r) (wm_write_high r)
    (bev_readcb r) (bev_writecb r) (bev_errorcb r) (bev_cbarg r) (timeout_read r)
    (timeout_write r) (bev_enabled r) (bev_fd r) (read_watermarks_cb r) (readcb_pending r)
    (writecb_pending r) (connecting r) (connection_refused r) (eventcb_pending r)
    (errno_pending r) (read_suspended r) (write_suspended r) (deferred_scheduled r)
    (bev_options r) (bev_refcnt r) (max_single_read r) (max_single_write r) (rate_limiting r)
    (bev_finalizing r).
Definition set_bev_output (v : evbuffer) (r : bufferevent) : bufferevent :=
  mk_bev (bev_input r) v (wm_read_low r) (wm_read_high r) (wm_write_low r) (wm_write_high r)
    (bev_readcb r) (bev_writecb r) (bev_errorcb r) (bev_cbarg r) (timeout_read r)
    (timeout_write r) (bev_enabled r) (bev_fd r) (read_watermarks_cb r) (readcb_pending r)
    (writecb_pending r) (connecting r) (connection_refused r) (eventcb_pending r)
    (errno_pending r) (read_suspended r) (write_suspended r) (deferred_scheduled r)
    (bev_options r) (bev_refcnt r) (max_single_read r) (max_single_write r) (rate_limiting r)
    (bev_finalizing r).
Definition set_wm_read_low (v : Z) (r : bufferevent) : bufferevent :=
  mk_bev (bev_input r) (bev_output r) v (wm_read_high r) (wm_write_low r) (wm_write_high r)
    (bev_readcb r) (bev_writecb r) (bev_errorcb r) (bev_cbarg r) (timeout_read r)
    (timeout_write r) (bev_enabled r) (bev_fd r) (read_watermarks_cb r) (readcb_pending r)
    (writecb_pending r) (connecting r) (connection_refused r) (eventcb_pending r)
    (errno_pending r) (read_suspended r) (write_suspended r) (deferred_scheduled r)
    (bev_options r) (bev_refcnt r) (max_single_read r) (max_single_write r) (rate_limiting r)
    (bev_finalizing r).
Definition set_wm_read_high (v : Z) (r : bufferevent) : bufferevent :=
  mk_bev (bev_input r) (bev_output r) (wm_read_low r) v (wm_write_low r) (wm_write_high r)
    (bev_readcb r) (bev_writecb r) (bev_errorcb r) (bev_cbarg r) (timeout_read r)
    (timeout_write r) (bev_enabled r) (bev_fd r) (read_watermarks_cb r) (readcb_pending r)
    (writecb_pending r) (connecting r) (connection_refused r) (eventcb_pending r)
    (errno_pending r) (read_suspended r) (write_suspended r) (deferred_scheduled r)
    (bev_options r) (bev_refcnt r) (max_single_read r) (max_single_write r) (rate_limiting r)
    (bev_finalizing r).
Definition set_wm_write_low (v : Z) (r : bufferevent) : bufferevent :=
  mk_bev (bev_input r) (bev_output r) (wm_read_low r) (wm_read_high r) v (wm_write_high r)
    (bev_readcb r) (bev_writecb r) (bev_errorcb r) (bev_cbarg r) (timeout_read r)
    (timeout_write r) (bev_enabled r) (bev_fd r) (read_watermarks_cb r) (readcb_pending r)
    (writecb_pending r) (connecting r) (connection_refused r) (eventcb_pending r)
    (errno_pending r) (read_suspended r) (write_suspended r) (deferred_scheduled r)
    (bev_options r) (bev_refcnt r) (max_single_read r) (max_single_write r) (rate_limiting r)
    (bev_finalizing r).
Definition set_wm_write_high (v : Z) (r : bufferevent) : bufferevent :=
  mk_bev (bev_input r) (bev_output r) (wm_read_low r) (wm_read_high r) (wm_write_low r) v
    (bev_readcb r) (bev_writecb r) (bev_errorcb r) (bev_cbarg r) (timeout_read r)
    (timeout_write r) (bev_enabled r) (bev_fd r) (read_watermarks_cb r) (readcb_pending r)
    (writecb_pending r) (connecting r) (connection_refused r) (eventcb_pending r)
    (errno_pending r) (read_suspended r) (write_suspended r) (deferred_scheduled r)
    (bev_options r) (bev_refcnt r) (max_single_read r) (max_single_write r) (rate_limiting r)
    (bev_finalizing r).
Definition set_bev_readcb (v : Z) (r : bufferevent) : bufferevent :=
  mk_bev (bev_input r) (bev_output r) (wm_read_low r) (wm_read_high r) (wm_write_low r)
    (wm_write_high r) v (bev_writecb r) (bev_errorcb r) (bev_cbarg r) (timeout_read r)
    (timeout_write r) (bev_enabled r) (bev_fd r) (read_watermarks_cb r) (readcb_pending r)
    (writecb_pending r) (connecting r) (connection_refused r) (eventcb_pending r)
    (errno_pending r) (read_suspended r) (write_suspended r) (deferred_scheduled r)
    (bev_options r) (bev_refcnt r) (max_single_read r) (max_single_write r) (rate_limiting r)
    (bev_finalizing r).
Definition set_bev_writecb (v : Z) (r : bufferevent) : bufferevent :=
  mk_bev (bev_input r) (bev_output r) (wm_read_low r) (wm_read_high r) (wm_write_low r)
    (wm_write_high r) (bev_readcb r) v (bev_errorcb r) (bev_cbarg r) (timeout_read r)
    (timeout_write r) (bev_enabled r) (bev_fd r) (read_watermarks_cb r) (readcb_pending r)
    (writecb_pending r) (connecting r) (connection_refused r) (eventcb_pending r)
    (errno_pending r) (read_suspended r) (write_suspended r) (deferred_scheduled r)
    (bev_options r) (bev_refcnt r) (max_single_read r) (max_single_write r) (rate_limiting r)
    (bev_finalizing r).
Definition set_bev_errorcb (v : Z) (r : bufferevent) : bufferevent :=
  mk_bev (bev_input r) (bev_output r) (wm_read_low r) (wm_read_high r) (wm_write_low r)
    (wm_write_high r) (bev_readcb r) (bev_writecb r) v (bev_cbarg r) (timeout_read r)
    (timeout_write r) (bev_enabled r) (bev_fd r) (read_watermarks_cb r) (readcb_pending r)
    (writecb_pending r) (connecting r) (connection_refused r) (eventcb_pending r)
    (errno_pending r) (read_suspended r) (write_suspended r) (deferred_scheduled r)
    (bev_options r) (bev_refcnt r) (max_single_read r) (max_single_write r) (rate_limiting r)
    (bev_finalizing r).
Definition set_bev_cbarg (v : Z) (r : bufferevent) : bufferevent :=
  mk_bev (bev_input r) (bev_output r) (wm_read_low r) (wm_read_high r) (wm_write_low r)
    (wm_write_high r) (bev_readcb r) (bev_writecb r) (bev_errorcb r) v (timeout_read r)
    (timeout_write r) (bev_enabled r) (bev_fd r) (read_watermarks_cb r) (readcb_pending r)
    (writecb_pending r) (connecting r) (connection_refused r) (eventcb_pending r)
    (errno_pending r) (read_suspended r) (write_suspended r) (deferred_scheduled r)
    (bev_options r) (bev_refcnt r) (max_single_read r) (max_single_write r) (rate_limiting r)
    (bev_finalizing r).
Definition set_timeout_read (v : timeval) (r : bufferevent) : bufferevent :=
  mk_bev (bev_input r) (bev_output r) (wm_read_low r) (wm_read_high r) (wm_write_low r)
    (wm_write_high r) (bev_readcb r) (bev_writecb r) (bev_errorcb r) (bev_cbarg r) v
    (timeout_write r) (bev_enabled r) (bev_fd r) (read_watermarks_cb r) (readcb_pending r)
    (writecb_pending r) (connecting r) (connection_refused r) (eventcb_pending r)
    (errno_pending r) (read_suspended r) (write_suspended r) (deferred_scheduled r)
    (bev_options r) (bev_refcnt r) (max_single_read r) (max_single_write r) (rate_limiting r)
    (bev_finalizing r).
Definition set_timeout_write (v : timeval) (r : bufferevent) : bufferevent :=
  mk_bev (bev_input r) (bev_output r) (wm_read_low r) (wm_read_high r) (wm_write_low r)
    (wm_write_high r) (bev_readcb r) (bev_writecb r) (bev_errorcb r) (bev_cbarg r)
    (timeout_read r) v (bev_enabled r) (bev_fd r) (read_watermarks_cb r) (readcb_pending r)
    (writecb_pending r) (connecting r) (connection_refused r) (eventcb_pending r)
    (errno_pending r) (read_suspended r) (write_suspended r) (deferred_scheduled r)
    (bev_options r) (bev_refcnt r) (max_single_read r) (max_single_write r) (rate_limiting r)
    (bev_finalizing r).
Definition set_bev_enabled (v : Z) (r : bufferevent) : bufferevent :=
  mk_bev (bev_input r) (bev_output r) (wm_read_low r) (wm_read_high r) (wm_write_low r)
    (wm_write_high r) (bev_readcb r) (bev_writecb r) (bev_errorcb r) (bev_cbarg r)
    (timeout_read r) (timeout_write r) v (bev_fd r) (read_watermarks_cb r) (readcb_pending r)
    (writecb_pending r) (connecting r) (connection_refused r) (eventcb_pending r)
    (errno_pending r) (read_suspended r) (write_suspended r) (deferred_scheduled r)
    (bev_options r) (bev_refcnt r) (max_single_read r) (max_single_write r) (rate_limiting r)
    (bev_finalizing r).
Definition set_bev_fd (v : Z) (r : bufferevent) : bufferevent :=
  mk_bev (bev_input r) (bev_output r) (wm_read_low r) (wm_read_high r) (wm_write_low r)
    (wm_write_high r) (bev_readcb r) (bev_writecb r) (bev_errorcb r) (bev_cbarg r)
    (timeout_read r) (timeout_write r) (bev_enabled r) v (read_watermarks_cb r)
    (readcb_pending r) (writecb_pending r) (connecting r) (connection_refused r)
    (eventcb_pending r) (errno_pending r) (read_suspended r) (write_suspended r)
    (deferred_scheduled r) (bev_options r) (bev_refcnt r) (max_single_read r)
    (max_single_write r) (rate_limiting r) (bev_finalizing r).
Definition set_read_watermarks_cb (v : Z) (r : bufferevent) : bufferevent :=
  mk_bev (bev_input r) (bev_output r) (wm_read_low r) (wm_read_high r) (wm_write_low r)
    (wm_write_high r) (bev_readcb r) (bev_writecb r) (bev_errorcb r) (bev_cbarg r)
    (timeout_read r) (timeout_write r) (bev_enabled r) (bev_fd r) v (readcb_pending r)
    (writecb_pending r) (connecting r) (connection_refused r) (eventcb_pending r)
    (errno_pending r) (read_suspended r) (write_suspended r) (deferred_scheduled r)
    (bev_options r) (bev_refcnt r) (max_single_read r) (max_single_write r) (rate_limiting r)
    (bev_finalizing r).
Definition set_readcb_pending (v : bool) (r : bufferevent) : bufferevent :=
  mk_bev (bev_input r) (bev_output r) (wm_read_low r) (wm_read_high r) (wm_write_low r)
    (wm_write_high r) (bev_readcb r) (bev_writecb r) (bev_errorcb r) (bev_cbarg r)
    (timeout_read r) (timeout_write r) (bev_enabled r) (bev_fd r) (read_watermarks_cb r) v
    (writecb_pending r) (connecting r) (connection_refused r) (eventcb_pending r)
    (errno_pending r) (read_suspended r) (write_suspended r) (deferred_scheduled r)
    (bev_options r) (bev_refcnt r) (max_single_read r) (max_single_write r) (rate_limiting r)
    (bev_finalizing r).
Definition set_writecb_pending (v : bool) (r : bufferevent) : bufferevent :=
  mk_bev (bev_input r) (bev_output r) (wm_read_low r) (wm_read_high r) (wm_write_low r)
    (wm_write_high r) (bev_readcb r) (bev_writecb r) (bev_errorcb r) (bev_cbarg r)
    (timeout_read r) (timeout_write r) (bev_enabled r) (bev_fd r) (read_watermarks_cb r)
    (readcb_pending r) v (connecting r) (connection_refused r) (eventcb_pending r)
    (errno_pending r) (read_suspended r) (write_suspended r) (deferred_scheduled r)
    (bev_options r) (bev_refcnt r) (max_single_read r) (max_single_write r) (rate_limiting r)
    (bev_finalizing r).
Definition set_connecting (v : bool) (r : bufferevent) : bufferevent :=
  mk_bev (bev_input r) (bev_output r) (wm_read_low r) (wm_read_high r) (wm_write_low r)
    (wm_write_high r) (bev_readcb r) (bev_writecb r) (bev_errorcb r) (bev_cbarg r)
    (timeout_read r) (timeout_write r) (bev_enabled r) (bev_fd r) (read_watermarks_cb r)
    (readcb_pending r) (writecb_pending r) v (connection_refused r) (eventcb_pending r)
    (errno_pending r) (read_suspended r) (write_suspended r) (deferred_scheduled r)
    (bev_options r) (bev_refcnt r) (max_single_read r) (max_single_write r) (rate_limiting r)
    (bev_finalizing r).
Definition set_connection_refused (v : bool) (r : bufferevent) : bufferevent :=
  mk_bev (bev_input r) (bev_output r) (wm_read_low r) (wm_read_high r) (wm_write_low r)
    (wm_write_high r) (bev_readcb r) (bev_writecb r) (bev_errorcb r) (bev_cbarg r)
    (timeout_read r) (timeout_write r) (bev_enabled r) (bev_fd r) (read_watermarks_cb r)
    (readcb_pending r) (writecb_pending r) (connecting r) v (eventcb_pending r)
    (errno_pending r) (read_suspended r) (write_suspended r) (deferred_scheduled r)
    (bev_options r) (bev_refcnt r) (max_single_read r) (max_single_write r) (rate_limiting r)
    (bev_finalizing r).
Definition set_eventcb_pending (v : Z) (r : bufferevent) : bufferevent :=
  mk_bev (bev_input r) (bev_output r) (wm_read_low r) (wm_read_high r) (wm_write_low r)
    (wm_write_high r) (bev_readcb r) (bev_writecb r) (bev_errorcb r) (bev_cbarg r)
    (timeout_read r) (timeout_write r) (bev_enabled r) (bev_fd r) (read_watermarks_cb r)
    (readcb_pending r) (writecb_pending r) (connecting r) (connection_refused r) v
    (errno_pending r) (read_suspended r) (write_suspended r) (deferred_scheduled r)
    (bev_options r) (bev_refcnt r) (max_single_read r) (max_single_write r) (rate_limiting r)
    (bev_finalizing r).
Definition set_errno_pending (v : Z) (r : bufferevent) : bufferevent :=
  mk_bev (bev_input r) (bev_output r) (wm_read_low r) (wm_read_high r) (wm_write_low r)
    (wm_write_high r) (bev_readcb r) (bev_writecb r) (bev_errorcb r) (bev_cbarg r)
    (timeout_read r) (timeout_write r) (bev_enabled r) (bev_fd r) (read_watermarks_cb r)
    (readcb_pending r) (writecb_pending r) (connecting r) (connection_refused r)
    (eventcb_pending r) v (read_suspended r) (write_suspended r) (deferred_scheduled r)
    (bev_options r) (bev_refcnt r) (max_single_read r) (max_single_write r) (rate_limiting r)
    (bev_finalizing r).
Definition set_read_suspended (v : Z) (r : bufferevent) : bufferevent :=
  mk_bev (bev_input r) (bev_output r) (wm_read_low r) (wm_read_high r) (wm_write_low r)
    (wm_write_high r) (bev_readcb r) (bev_writecb r) (bev_errorcb r) (bev_cbarg r)
    (timeout_read r) (timeout_write r) (bev_enabled r) (bev_fd r) (read_watermarks_cb r)
    (readcb_pending r) (writecb_pending r) (connecting r) (connection_refused r)
    (eventcb_pending r) (errno_pending r) v (write_suspended r) (deferred_scheduled r)
    (bev_options r) (bev_refcnt r) (max_single_read r) (max_single_write r) (rate_limiting r)
    (bev_finalizing r).
Definition set_write_suspended (v : Z) (r : bufferevent) : bufferevent :=
  mk_bev (bev_input r) (bev_output r) (wm_read_low r) (wm_read_high r) (wm_write_low r)
    (wm_write_high r) (bev_readcb r) (bev_writecb r) (bev_errorcb r) (bev_cbarg r)
    (timeout_read r) (timeout_write r) (bev_enabled r) (bev_fd r) (read_watermarks_cb r)
    (readcb_pending r) (writecb_pending r) (connecting r) (connection_refused r)
    (eventcb_pending r) (errno_pending r) (read_suspended r) v (deferred_scheduled r)
    (bev_options r) (bev_refcnt r) (max_single_read r) (max_single_write r) (rate_limiting r)
    (bev_finalizing r).
Definition set_deferred_scheduled (v : bool) (r : bufferevent) : bufferevent :=
  mk_bev (bev_input r) (bev_output r) (wm_read_low r) (wm_read_high r) (wm_write_low r)
    (wm_write_high r) (bev_readcb r) (bev_writecb r) (bev_errorcb r) (bev_cbarg r)
    (timeout_read r) (timeout_write r) (bev_enabled r) (bev_fd r) (read_watermarks_cb r)
    (readcb_pending r) (writecb_pending r) (connecting r) (connection_refused r)
    (eventcb_pending r) (errno_pending r) (read_suspended r) (write_suspended r) v
    (bev_options r) (bev_refcnt r) (max_single_read r) (max_single_write r) (rate_limiting r)
    (bev_finalizing r).
Definition set_bev_options (v : Z) (r : bufferevent) : bufferevent :=
  mk_bev (bev_input r) (bev_output r) (wm_read_low r) (wm_read_high r) (wm_write_low r)
    (wm_write_high r) (bev_readcb r) (bev_writecb r) (bev_errorcb r) (bev_cbarg r)
    (timeout_read r) (timeout_write r) (bev_enabled r) (bev_fd r) (read_watermarks_cb r)
    (readcb_pending r) (writecb_pending r) (connecting r) (connection_refused r)
    (eventcb_pending r) (errno_pending r) (read_suspended r) (write_suspended r)
    (deferred_scheduled r) v (bev_refcnt r) (max_single_read r) (max_single_write r)
    (rate_limiting r) (bev_finalizing r).
Definition set_bev_refcnt (v : Z) (r : bufferevent) : bufferevent :=
  mk_bev (bev_input r) (bev_output r) (wm_read_low r) (wm_read_high r) (wm_write_low r)
    (wm_write_high r) (bev_readcb r) (bev_writecb r) (bev_errorcb r) (bev_cbarg r)
    (timeout_read r) (timeout_write r) (bev_enabled r) (bev_fd r) (read_watermarks_cb r)
    (readcb_pending r) (writecb_pending r) (connecting r) (connection_refused r)
    (eventcb_pending r) (errno_pending r) (read_suspended r) (write_suspended r)
    (deferred_scheduled r) (bev_options r) v (max_single_read r) (max_single_write r)
    (rate_limiting r) (bev_finalizing r).
Definition set_max_single_read (v : Z) (r : bufferevent) : bufferevent :=
  mk_bev (bev_input r) (bev_output r) (wm_read_low r) (wm_read_high r) (wm_write_low r)
    (wm_write_high r) (bev_readcb r) (bev_writecb r) (bev_errorcb r) (bev_cbarg r)
    (timeout_read r) (timeout_write r) (bev_enabled r) (bev_fd r) (read_watermarks_cb r)
    (readcb_pending r) (writecb_pending r) (connecting r) (connection_refused r)
    (eventcb_pending r) (errno_pending r) (read_suspended r) (write_suspended r)
    (deferred_scheduled r) (bev_options r) (bev_refcnt r) v (max_single_write r)
    (rate_limiting r) (bev_finalizing r).
Definition set_max_single_write (v : Z) (r : bufferevent) : bufferevent :=
  mk_bev (bev_input r) (bev_output r) (wm_read_low r) (wm_read_high r) (wm_write_low r)
    (wm_write_high r) (bev_readcb r) (bev_writecb r) (bev_errorcb r) (bev_cbarg r)
    (timeout_read r) (timeout_write r) (bev_enabled r) (bev_fd r) (read_watermarks_cb r)
    (readcb_pending r) (writecb_pending r) (connecting r) (connection_refused r)
    (eventcb_pending r) (errno_pending r) (read_suspended r) (write_suspended r)
    (deferred_scheduled r) (bev_options r) (bev_refcnt r) (max_single_read r) v
    (rate_limiting r) (bev_finalizing r).
Definition set_rate_limiting (v : option bufferevent_rate_limit) (r : bufferevent) : bufferevent :=
  mk_bev (bev_input r) (bev_output r) (wm_read_low r) (wm_read_high r) (wm_write_low r)
    (wm_write_high r) (bev_readcb r) (bev_writecb r) (bev_errorcb r) (bev_cbarg r)
    (timeout_read r) (timeout_write r) (bev_enabled r) (bev_fd r) (read_watermarks_cb r)
    (readcb_pending r) (writecb_pending r) (connecting r) (connection_refused r)
    (eventcb_pending r) (errno_pending r) (read_suspended r) (write_suspended r)
    (deferred_scheduled r) (bev_options r) (bev_refcnt r) (max_single_read r)
    (max_single_write r) v (bev_finalizing r).
Definition set_bev_finalizing (v : bool) (r : bufferevent) : bufferevent :=
  mk_bev (bev_input r) (bev_output r) (wm_read_low r) (wm_read_high r) (wm_write_low r)
    (wm_write_high r) (bev_readcb r) (bev_writecb r) (bev_errorcb r) (bev_cbarg r)
    (timeout_read r) (timeout_write r) (bev_enabled r) (bev_fd r) (read_watermarks_cb r)
    (readcb_pending r) (writecb_pending r) (connecting r) (connection_refused r)
    (eventcb_pending r) (errno_pending r) (read_suspended r) (write_suspended r)
    (deferred_scheduled r) (bev_options r) (bev_refcnt r) (max_single_read r)
    (max_single_write r) (rate_limiting r) v.

(** [struct bufferevent_rate_limit_group]; the members are addresses, the first of the
    list first. *)
Record bufferevent_rate_limit_group := mk_group {
  g_members : list Z;
  g_rate_limit : ev_token_bucket;
  g_rate_limit_cfg : ev_token_bucket_cfg;
  g_read_suspended : bool;
  g_write_suspended : bool;
  g_pending_unsuspend_read : bool;
  g_pending_unsuspend_write : bool;
  g_total_read : Z;
  g_total_written : Z;
  g_n_members : Z;
  g_min_share : Z;
  g_configured_min_share : Z;
  g_weakrand_seed : Z
}.

Definition set_g_members (v : list Z) (r : bufferevent_rate_limit_group) : bufferevent_rate_limit_group :=
  mk_group v (g_rate_limit r) (g_rate_limit_cfg r) (g_read_suspended r) (g_write_suspended r)
    (g_pending_unsuspend_read r) (g_pending_unsuspend_write r) (g_total_read r)
    (g_total_written r) (g_n_members r) (g_min_share r) (g_configured_min_share r)
    (g_weakrand_seed r).
Definition set_g_rate_limit (v : ev_token_bucket) (r : bufferevent_rate_limit_group) : bufferevent_rate_limit_group :=
  mk_group (g_members r) v (g_rate_limit_cfg r) (g_read_suspended r) (g_write_suspended r)
    (g_pending_unsuspend_read r) (g_pending_unsuspend_write r) (g_total_read r)
    (g_total_written r) (g_n_members r) (g_min_share r) (g_configured_min_share r)
    (g_weakrand_seed r).
Definition set_g_rate_limit_cfg (v : ev_token_bucket_cfg) (r : bufferevent_rate_limit_group) : bufferevent_rate_limit_group :=
  mk_group (g_members r) (g_rate_limit r) v (g_read_suspended r) (g_write_suspended r)
    (g_pending_unsuspend_read r) (g_pending_unsuspend_write r) (g_total_read r)
    (g_total_written r) (g_n_members r) (g_min_share r) (g_configured_min_share r)
    (g_weakrand_seed r).
Definition set_g_read_suspended (v : bool) (r : bufferevent_rate_limit_group) : bufferevent_rate_limit_group :=
  mk_group (g_members r) (g_rate_limit r) (g_rate_limit_cfg r) v (g_write_suspended r)
    (g_pending_unsuspend_read r) (g_pending_unsuspend_write r) (g_total_read r)
    (g_total_written r) (g_n_members r) (g_min_share r) (g_configured_min_share r)
    (g_weakrand_seed r).
Definition set_g_write_suspended (v : bool) (r : bufferevent_rate_limit_group) : bufferevent_rate_limit_group :=
  mk_group (g_members r) (g_rate_limit r) (g_rate_limit_cfg r) (g_read_suspended r) v
    (g_pending_unsuspend_read r) (g_pending_unsuspend_write r) (g_total_read r)
    (g_total_written r) (g_n_members r) (g_min_share r) (g_configured_min_share r)
    (g_weakrand_seed r).
Definition set_g_pending_unsuspend_read (v : bool) (r : bufferevent_rate_limit_group) : bufferevent_rate_limit_group :=
  mk_group (g_members r) (g_rate_limit r) (g_rate_limit_cfg r) (g_read_suspended r)
    (g_write_suspended r) v (g_pending_unsuspend_write r) (g_total_read r) (g_total_written r)
    (g_n_members r) (g_min_share r) (g_configured_min_share r) (g_weakrand_seed r).
Definition set_g_pending_unsuspend_write (v : bool) (r : bufferevent_rate_limit_group) : bufferevent_rate_limit_group :=
  mk_group (g_members r) (g_rate_limit r) (g_rate_limit_cfg r) (g_read_suspended r)
    (g_write_suspended r) (g_pending_unsuspend_read r) v (g_total_read r) (g_total_written r)
    (g_n_members r) (g_min_share r) (g_configured_min_share r) (g_weakrand_seed r).
Definition set_g_total_read (v : Z) (r : bufferevent_rate_limit_group) : bufferevent_rate_limit_group :=
  mk_group (g_members r) (g_rate_limit r) (g_rate_limit_cfg r) (g_read_suspended r)
    (g_write_suspended r) (g_pending_unsuspend_read r) (g_pending_unsuspend_write r) v
    (g_total_written r) (g_n_members r) (g_min_share r) (g_configured_min_share r)
    (g_weakrand_seed r).
Definition set_g_total_written (v : Z) (r : bufferevent_rate_limit_group) : bufferevent_rate_limit_group :=
  mk_group (g_members r) (g_rate_limit r) (g_rate_limit_cfg r) (g_read_suspended r)
    (g_write_suspended r) (g_pending_unsuspend_read r) (g_pending_unsuspend_write r)
    (g_total_read r) v (g_n_members r) (g_min_share r) (g_configured_min_share r)
    (g_weakrand_seed r).
Definition set_g_n_members (v : Z) (r : bufferevent_rate_limit_group) : bufferevent_rate_limit_group :=
  mk_group (g_members r) (g_rate_limit r) (g_rate_limit_cfg r) (g_read_suspended r)
    (g_write_suspended r) (g_pending_unsuspend_read r) (g_pending_unsuspend_write r)
    (g_total_read r) (g_total_written r) v (g_min_share r) (g_configured_min_share r)
    (g_weakrand_seed r).
Definition set_g_min_share (v : Z) (r : bufferevent_rate_limit_group) : bufferevent_rate_limit_group :=
  mk_group (g_members r) (g_rate_limit r) (g_rate_limit_cfg r) (g_read_suspended r)
    (g_write_suspended r) (g_pending_unsuspend_read r) (g_pending_unsuspend_write r)
    (g_total_read r) (g_total_written r) (g_n_members r) v (g_configured_min_share r)
    (g_weakrand_seed r).
Definition set_g_configured_min_share (v : Z) (r : bufferevent_rate_limit_group) : bufferevent_rate_limit_group :=
  mk_group (g_members r) (g_rate_limit r) (g_rate_limit_cfg r) (g_read_suspended r)
    (g_write_suspended r) (g_pending_unsuspend_read r) (g_pending_unsuspend_write r)
    (g_total_read r) (g_total_written r) (g_n_members r) (g_min_share r) v (g_weakrand_seed r).
Definition set_g_weakrand_seed (v : Z) (r : bufferevent_rate_limit_group) : bufferevent_rate_limit_group :=
  mk_group (g_members r) (g_rate_limit r) (g_rate_limit_cfg r) (g_read_suspended r)
    (g_write_suspended r) (g_pending_unsuspend_read r) (g_pending_unsuspend_write r)
    (g_total_read r) (g_total_written r) (g_n_members r) (g_min_share r)
    (g_configured_min_share r) v.

(** A call of a user callback: of [readcb], [writecb] or [errorcb], or of a callback
    that the user put on a buffer. *)
Inductive user_call :=
  | CallRead (func a arg : Z)
  | CallWrite (func a arg : Z)
  | CallEvent (func a what arg : Z)
  | CallBuffer (c : cb_call).

(** The store, with the state of the events. *)
Record world (E : Type) := mk_world {
  w_bevs : gmap Z bufferevent;
  w_groups : gmap Z bufferevent_rate_limit_group;
  w_events : E
}.
Arguments mk_world {E} _ _ _.
Arguments w_bevs {E} _.
Arguments w_groups {E} _.
Arguments w_events {E} _.

(** ** Operations *)

Section ops.
Context {E : Type} `{EventApi E}.
(** What the user's callbacks do to the store. *)
Context (user : user_call → world E → world E).

Implicit Types (w : world E) (a : Z) (e : bev_event).

Definition bev w a : option bufferevent := w_bevs w !! a.
Definition upd_bev a (f : bufferevent → bufferevent) w : world E :=
  mk_world (alter f a (w_bevs w)) (w_groups w) (w_events w).
Definition upd_group (g : Z) (f : bufferevent_rate_limit_group → bufferevent_rate_limit_group) w : world E :=
  mk_world (w_bevs w) (alter f g (w_groups w)) (w_events w).
Definition set_events (s : E) w : world E := mk_world (w_bevs w) (w_groups w) s.

Definition w_add e (tv : option timeval) w : option (Z * world E) :=
  '(r, s) ← event_add (w_events w) e tv; Some (r, set_events s w).
Definition w_del e w : option (Z * world E) :=
  '(r, s) ← event_del (w_events w) e; Some (r, set_events s w).

Definition w_remove_timer e w : option (Z * world E) :=
  '(r, s) ← event_remove_timer (w_events w) e; Some (r, set_events s w).

Definition bufferevent_add_event_ e (tv : timeval) w : option (Z * world E) :=
  if negb (evutil_timerisset tv) then w_add e None w else w_add e (Some tv) w.

(** *** The operations of a socket: [be_ops] *)

Definition be_socket_enable a (event : Z) w : option (Z * world E) :=
  b ← bev w a;
  '(r, w) ← (if event &? EV_READ then bufferevent_add_event_ (EvRead a) (timeout_read b) w else Some (0, w));
  if r =? -1 then Some (-1, w)
  else
    '(r, w) ← (if event &? EV_WRITE then bufferevent_add_event_ (EvWrite a) (timeout_write b) w else Some (0, w));
    if r =? -1 then Some (-1, w) else Some (0, w).

Definition be_socket_disable a (event : Z) w : option (Z * world E) :=
  b ← bev w a;
  '(r, w) ← (if event &? EV_READ then w_del (EvRead a) w else Some (0, w));
  if r =? -1 then Some (-1, w)
  else
    '(r, w) ← (if (event &? EV_WRITE) && negb (connecting b) then w_del (EvWrite a) w else Some (0, w));
    if r =? -1 then Some (-1, w) else Some (0, w).

(** *** Suspending a direction *)

Definition bufferevent_suspend_read_ a (what : Z) w : option (world E) :=
  b ← bev w a;
  w ← (if read_suspended b =? 0 then '(_, w) ← be_socket_disable a EV_READ w; Some w else Some w);
  Some (upd_bev a (λ b, set_read_suspended (Z.lor (read_suspended b) what) b) w).

Definition bufferevent_unsuspend_read_ a (what : Z) w : option (world E) :=
  b ← bev w a;
  let susp := Z.land (read_suspended b) (u16 (Z.lnot what)) in
  let w := upd_bev a (set_read_suspended susp) w in
  if (susp =? 0) && (bev_enabled b &? EV_READ)
  then '(_, w) ← be_socket_enable a EV_READ w; Some w else Some w.

Definition bufferevent_suspend_write_ a (what : Z) w : option (world E) :=
  b ← bev w a;
  w ← (if write_suspended b =? 0 then '(_, w) ← be_socket_disable a EV_WRITE w; Some w else Some w);
  Some (upd_bev a (λ b, set_write_suspended (Z.lor (write_suspended b) what) b) w).

Definition bufferevent_unsuspend_write_ a (what : Z) w : option (world E) :=
  b ← bev w a;
  let susp := Z.land (write_suspended b) (u16 (Z.lnot what)) in
  let w := upd_bev a (set_write_suspended susp) w in
  if (susp =? 0) && (bev_enabled b &? EV_WRITE)
  then '(_, w) ← be_socket_enable a EV_WRITE w; Some w else Some w.

Definition bufferevent_wm_suspend_read a w := bufferevent_suspend_read_ a BEV_SUSPEND_WM w.
Definition bufferevent_wm_unsuspend_read a w := bufferevent_unsuspend_read_ a BEV_SUSPEND_WM w.

(** *** Callbacks on the buffers *)

Definition bufferevent_inbuf_wm_cb a w : option (world E) :=
  b ← bev w a;
  if wm_read_high b <=? evbuffer_get_length (bev_input b)
  then bufferevent_wm_suspend_read a w else bufferevent_wm_unsuspend_read a w.

Definition bufferevent_socket_outbuf_cb a (info : evbuffer_cb_info) w : option (world E) :=
  b ← bev w a;
  if negb (n_added info =? 0) && (bev_enabled b &? EV_WRITE) &&
     negb (is_pending (w_events w) (EvWrite a)) && (write_suspended b =? 0)
  then '(_, w) ← bufferevent_add_event_ (EvWrite a) (timeout_write b) w; Some w else Some w.

Definition buffer_call (c : cb_call) w : option (world E) :=
  match c with
  | CallFunc func info arg =>
    if func =? INBUF_WM_CB then bufferevent_inbuf_wm_cb arg w
    else if func =? OUTBUF_CB then bufferevent_socket_outbuf_cb arg info w
    else Some (user (CallBuffer c) w)
  | CallObsolete _ _ _ _ => Some (user (CallBuffer c) w)
  end.

Fixpoint buffer_calls (l : list cb_call) w : option (world E) :=
  match l with [] => Some w | c :: l => w ← buffer_call c w; buffer_calls l w end.

(** The calls that operations on the buffers have made are carried out. *)
Definition run_input_calls a w : option (world E) :=
  b ← bev w a;
  buffer_calls (bf_log (bev_input b)) (upd_bev a (λ b, set_bev_input (set_bf_log [] (bev_input b)) b) w).
Definition run_output_calls a w : option (world E) :=
  b ← bev w a;
  buffer_calls (bf_log (bev_output b)) (upd_bev a (λ b, set_bev_output (set_bf_log [] (bev_output b)) b) w).

(** *** References *)

Definition bufferevent_incref a w : option (world E) :=
  _ ← bev w a; Some (upd_bev a (λ b, set_bev_refcnt (bev_refcnt b + 1) b) w).
Definition bufferevent_incref_and_lock_ a w := bufferevent_incref a w.

(** The last reference: the events are cancelled and the finalizer is scheduled. *)
Definition bufferevent_decref_and_unlock_ a w : option (Z * world E) :=
  b ← bev w a;
  ASSERT (0 <? bev_refcnt b) ;;
  let w := upd_bev a (set_bev_refcnt (bev_refcnt b - 1)) w in
  if negb (bev_refcnt b - 1 =? 0) then Some (0, w)
  else
    '(_, w) ← w_del (EvRead a) w;
    '(_, w) ← w_del (EvWrite a) w;
    '(_, w) ← (match rate_limiting b with
               | Some rl => if rl_initialized rl then w_del (EvRefill a) w else Some (0, w)
               | None => Some (0, w)
               end);
    Some (1, upd_bev a (λ b, set_bev_finalizing true (set_deferred_scheduled false b)) w).

Definition bufferevent_decref a w := bufferevent_decref_and_unlock_ a w.

(** *** User callbacks *)

Definition SCHEDULE_DEFERRED a w : option (world E) :=
  b ← bev w a;
  if deferred_scheduled b then Some w
  else bufferevent_incref a (upd_bev a (set_deferred_scheduled true) w).

Definition bufferevent_run_readcb_ a (options : Z) w : option (world E) :=
  b ← bev w a;
  if bev_readcb b =? 0 then Some w
  else if Z.lor (bev_options b) options &? BEV_OPT_DEFER_CALLBACKS
  then SCHEDULE_DEFERRED a (upd_bev a (set_readcb_pending true) w)
  else Some (user (CallRead (bev_readcb b) a (bev_cbarg b)) w).

Definition bufferevent_run_writecb_ a (options : Z) w : option (world E) :=
  b ← bev w a;
  if bev_writecb b =? 0 then Some w
  else if Z.lor (bev_options b) options &? BEV_OPT_DEFER_CALLBACKS
  then SCHEDULE_DEFERRED a (upd_bev a (set_writecb_pending true) w)
  else Some (user (CallWrite (bev_writecb b) a (bev_cbarg b)) w).

(** [err] is the error of the socket at the time. *)
Definition bufferevent_run_eventcb_ a (err what options : Z) w : option (world E) :=
  b ← bev w a;
  if bev_errorcb b =? 0 then Some w
  else if Z.lor (bev_options b) options &? BEV_OPT_DEFER_CALLBACKS
  then SCHEDULE_DEFERRED a
         (upd_bev a (λ b, set_errno_pending err (set_eventcb_pending (i16 (Z.lor (eventcb_pending b) what)) b)) w)
  else Some (user (CallEvent (bev_errorcb b) a what (bev_cbarg b)) w).

Definition bufferevent_trigger_nolock_ a (iotype options : Z) w : option (world E) :=
  b ← bev w a;
  w ← (if (iotype &? EV_READ) && ((options &? BEV_TRIG_IGNORE_WATERMARKS) ||
            (wm_read_low b <=? evbuffer_get_length (bev_input b)))
       then bufferevent_run_readcb_ a options w else Some w);
  b ← bev w a;
  if (iotype &? EV_WRITE) && ((options &? BEV_TRIG_IGNORE_WATERMARKS) ||
       (evbuffer_get_length (bev_output b) <=? wm_write_low b))
  then bufferevent_run_writecb_ a options w else Some w.

Definition bufferevent_trigger a (iotype options : Z) w : option (world E) :=
  w ← bufferevent_incref_and_lock_ a w;
  w ← bufferevent_trigger_nolock_ a iotype (Z.land options BEV_TRIG_ALL_OPTS) w;
  '(_, w) ← bufferevent_decref_and_unlock_ a w; Some w.

Definition bufferevent_trigger_event a (err what options : Z) w : option (world E) :=
  w ← bufferevent_incref_and_lock_ a w;
  w ← bufferevent_run_eventcb_ a err what (Z.land options BEV_TRIG_ALL_OPTS) w;
  '(_, w) ← bufferevent_decref_and_unlock_ a w; Some w.

(** The four steps of the deferred callback. *)
Definition deferred_connected a w : option (world E) :=
  b ← bev w a;
  if (eventcb_pending b &? BEV_EVENT_CONNECTED) && negb (bev_errorcb b =? 0) then
    let w := upd_bev a (λ b, set_eventcb_pending (Z.land (eventcb_pending b) (Z.lnot BEV_EVENT_CONNECTED)) b) w in
    Some (user (CallEvent (bev_errorcb b) a BEV_EVENT_CONNECTED (bev_cbarg b)) w)
  else Some w.

Definition deferred_read a w : option (world E) :=
  b ← bev w a;
  if readcb_pending b && negb (bev_readcb b =? 0)
  then Some (user (CallRead (bev_readcb b) a (bev_cbarg b)) (upd_bev a (set_readcb_pending false) w))
  else Some w.

Definition deferred_write a w : option (world E) :=
  b ← bev w a;
  if writecb_pending b && negb (bev_writecb b =? 0)
  then Some (user (CallWrite (bev_writecb b) a (bev_cbarg b)) (upd_bev a (set_writecb_pending false) w))
  else Some w.

Definition deferred_event a w : option (world E) :=
  b ← bev w a;
  if negb (eventcb_pending b =? 0) && negb (bev_errorcb b =? 0)
  then Some (user (CallEvent (bev_errorcb b) a (eventcb_pending b) (bev_cbarg b))
         (upd_bev a (λ b, set_errno_pending 0 (set_eventcb_pending 0 b)) w))
  else Some w.

(** The base takes the callback off its queue before it runs it. *)
Definition bufferevent_run_deferred_callbacks_locked a w : option (world E) :=
  w ← deferred_connected a (upd_bev a (set_deferred_scheduled false) w);
  w ← deferred_read a w;
  w ← deferred_write a w;
  w ← deferred_event a w;
  '(_, w) ← bufferevent_decref_and_unlock_ a w; Some w.

Definition bufferevent_setcb a (readcb writecb eventcb cbarg : Z) w : option (world E) :=
  _ ← bev w a;
  Some (upd_bev a (λ b, set_bev_cbarg cbarg
    (set_bev_errorcb eventcb (set_bev_writecb writecb (set_bev_readcb readcb b)))) w).

(** [ctrl] of a socket refuses [BEV_CTRL_CANCEL_ALL]. *)
Definition bufferevent_free a w : option (world E) :=
  w ← bufferevent_setcb a 0 0 0 0 w;
  '(_, w) ← bufferevent_decref_and_unlock_ a w; Some w.

(** *** Enabling and disabling *)

Definition bufferevent_enable a (event : Z) w : option (Z * world E) :=
  w ← bufferevent_incref_and_lock_ a w;
  b ← bev w a;
  let impl_events := if negb (read_suspended b =? 0) then Z.land event (Z.lnot EV_READ) else event in
  let impl_events := if negb (write_suspended b =? 0) then Z.land impl_events (Z.lnot EV_WRITE) else impl_events in
  let w := upd_bev a (λ b, set_bev_enabled (Z.lor (bev_enabled b) event) b) w in
  '(r, w) ← (if negb (impl_events =? 0) then be_socket_enable a impl_events w else Some (0, w));
  '(_, w) ← bufferevent_decref_and_unlock_ a w;
  Some (if r <? 0 then -1 else 0, w).

Definition bufferevent_disable a (event : Z) w : option (Z * world E) :=
  _ ← bev w a;
  '(r, w) ← be_socket_disable a event (upd_bev a (λ b, set_bev_enabled (Z.land (bev_enabled b) (Z.lnot event)) b) w);
  Some (if r <? 0 then -1 else 0, w).

Definition bufferevent_disable_hard_ a (event : Z) w : option (Z * world E) :=
  _ ← bev w a;
  '(r, w) ← be_socket_disable a event
    (upd_bev a (λ b, set_connecting false (set_bev_enabled (Z.land (bev_enabled b) (Z.lnot event)) b)) w);
  Some (if r <? 0 then -1 else 0, w).

(** *** Timeouts *)

Definition adj_existing_timeout e (tv : timeval) w : option (Z * world E) :=
  if is_pending (w_events w) e then
    if evutil_timerisset tv then '(r, w) ← bufferevent_add_event_ e tv w; Some (if r <? 0 then -1 else 0, w)
    else '(_, w) ← w_remove_timer e w; Some (0, w)
  else Some (0, w).

Definition bufferevent_generic_adj_existing_timeouts_ a w : option (Z * world E) :=
  b ← bev w a;
  '(r1, w) ← adj_existing_timeout (EvRead a) (timeout_read b) w;
  '(r2, w) ← adj_existing_timeout (EvWrite a) (timeout_write b) w;
  Some (if (r1 =? -1) || (r2 =? -1) then -1 else 0, w).

Definition bufferevent_set_timeouts a (tv_read tv_write : option timeval) w : option (Z * world E) :=
  _ ← bev w a;
  bufferevent_generic_adj_existing_timeouts_ a
    (upd_bev a (λ b, set_timeout_write (default evutil_timerclear tv_write)
      (set_timeout_read (default evutil_timerclear tv_read) b)) w).

(** *** Watermarks *)

(** [ok] and [id] are the allocation of the callback's entry.  An entry that could
    not be allocated is used without a check: [None]. *)
Definition bufferevent_setwatermark a (ok : bool) (id events lowmark highmark : Z) w : option (world E) :=
  b ← bev w a;
  let w := if events &? EV_WRITE
    then upd_bev a (λ b, set_wm_write_high highmark (set_wm_write_low lowmark b)) w else w in
  if events &? EV_READ then
    let w := upd_bev a (λ b, set_wm_read_high highmark (set_wm_read_low lowmark b)) w in
    if negb (highmark =? 0) then
      w ← (if read_watermarks_cb b =? 0 then
             i ← evbuffer_add_cb ok id INBUF_WM_CB a (bev_input b);
             Some (upd_bev a (λ b, set_read_watermarks_cb id (set_bev_input i b)) w)
           else Some w);
      let w := upd_bev a (λ b, set_bev_input (evbuffer_cb_set_flags (read_watermarks_cb b)
                 (Z.lor EVBUFFER_CB_ENABLED EVBUFFER_CB_NODEFER) (bev_input b)) b) w in
      if highmark <=? evbuffer_get_length (bev_input b)
      then bufferevent_wm_suspend_read a w else bufferevent_wm_unsuspend_read a w
    else
      let w := if negb (read_watermarks_cb b =? 0)
        then upd_bev a (λ b, set_bev_input (evbuffer_cb_clear_flags (read_watermarks_cb b)
               EVBUFFER_CB_ENABLED (bev_input b)) b) w
        else w in
      bufferevent_wm_unsuspend_read a w
  else Some w.

Definition bufferevent_getwatermark a (events : Z) w : option (Z * Z * Z) :=
  b ← bev w a;
  Some (if events =? EV_WRITE then (0, wm_write_low b, wm_write_high b)
        else if events =? EV_READ then (0, wm_read_low b, wm_read_high b) else (-1, 0, 0)).

(** *** Reading and writing *)

Definition bufferevent_write a (m : mallocs) (data : bytes) w : option (Z * world E) :=
  b ← bev w a;
  '(r, o) ← evbuffer_add m data (bev_output b);
  w ← run_output_calls a (upd_bev a (set_bev_output o) w);
  Some (if r =? -1 then -1 else 0, w).

Definition bufferevent_write_buffer a (ok : bool) (buf : evbuffer) w : option (Z * evbuffer * world E) :=
  b ← bev w a;
  '(r, o, buf) ← evbuffer_add_buffer ok (bev_output b) buf;
  w ← run_output_calls a (upd_bev a (set_bev_output o) w);
  Some (if r =? -1 then -1 else 0, buf, w).

Definition bufferevent_read a (size : Z) w : option (Z * bytes * world E) :=
  b ← bev w a;
  '(r, d, i) ← evbuffer_remove size (bev_input b);
  w ← run_input_calls a (upd_bev a (set_bev_input i) w);
  Some (u64 r, d, w).

Definition bufferevent_read_buffer a (ok : bool) (buf : evbuffer) w : option (Z * evbuffer * world E) :=
  b ← bev w a;
  '(r, buf, i) ← evbuffer_add_buffer ok buf (bev_input b);
  w ← run_input_calls a (upd_bev a (set_bev_input i) w);
  Some (r, buf, w).
End ops.
