(* ===== verification/RateLim.v ===== *)
(** * Rate limiting of buffered events and groups (bufferevent_ratelim.c)

    A buffered event with a configuration has a token bucket of its own; it may
    also be a member of a group, which has another one.  When a bucket is
    exhausted the direction is suspended and a timer refills the bucket: that of
    the buffered event is added when it is needed, that of a group runs all the
    time.  [trylock] says which members can be locked by the group. *)

From S2P Require Import Prelude TimeVal EvMap TokenBucket BufferCore Bevent.

(** ** The weak random numbers of evutil.c *)

Definition evutil_weakrand_ (seed : Z) : Z := Z.land (u32 (u32 (seed * 1103515245) + 12345)) 2147483647.

(** The loop draws numbers until one is in the range. *)
Fixpoint weakrand_loop (fuel : nat) (seed divisor top : Z) : option (Z * Z) :=
  match fuel with
  | O => None
  | S fuel =>
    let seed := evutil_weakrand_ seed in
    if seed `div` divisor <? top then Some (seed `div` divisor, seed) else weakrand_loop fuel seed divisor top
  end.

(** The result and the new seed; [None] is a division by zero or no fuel. *)
Definition evutil_weakrand_range_ (fuel : nat) (seed top : Z) : option (Z * Z) :=
  if (top <=? 0) || (INT_MAX <? top) then None else weakrand_loop fuel seed (INT_MAX `div` top) top.

Section ratelim.
Context {E : Type} `{EventApi E}.
(** The time of the loop, the locks that can be taken and the draws of the random
    numbers. *)
Context (now : timeval) (trylock : Z → bool) (fuel : nat).

Implicit Types (w : world E) (a g : Z).

Definition group w g : option bufferevent_rate_limit_group := w_groups w !! g.
Definition upd_rlim a (f : bufferevent_rate_limit → bufferevent_rate_limit) w : world E :=
  upd_bev a (λ b, set_rate_limiting (f <$> rate_limiting b) b) w.
Definition upd_limit a (f : ev_token_bucket → ev_token_bucket) w : world E :=
  upd_rlim a (λ rl, set_rl_limit (f (rl_limit rl)) rl) w.

(** The rate limit of a buffered event, through its pointer. *)
Definition rlim w a : option bufferevent_rate_limit := b ← bev w a; rate_limiting b.

Definition bufferevent_update_buckets a w : option (world E) :=
  rl ← rlim w a;
  '(_, cfg) ← rl_cfg rl;
  tick ← ev_token_bucket_get_tick_ now cfg;
  Some (if negb (tick =? last_updated (rl_limit rl))
        then upd_limit a (λ l, snd (ev_token_bucket_update_ cfg tick l)) w else w).

Definition LIM (is_write : bool) (l : ev_token_bucket) : Z := if is_write then write_limit l else read_limit l.
Definition GROUP_SUSPENDED (is_write : bool) (gr : bufferevent_rate_limit_group) : bool :=
  if is_write then g_write_suspended gr else g_read_suspended gr.

(** The share of a member of a group. *)
Definition group_share (is_write : bool) a g w : option (Z * world E) :=
  gr ← group w g;
  if GROUP_SUSPENDED is_write gr then
    w ← (if is_write then bufferevent_suspend_write_ a BEV_SUSPEND_BW_GROUP w
         else bufferevent_suspend_read_ a BEV_SUSPEND_BW_GROUP w);
    Some (0, w)
  else if g_n_members gr =? 0 then None
  else
    let share := LIM is_write (g_rate_limit gr) ÷ g_n_members gr in
    Some (if share <? g_min_share gr then g_min_share gr else share, w).

Definition bufferevent_get_rlim_max_ a (is_write : bool) w : option (Z * world E) :=
  b ← bev w a;
  let max_so_far := if is_write then max_single_write b else max_single_read b in
  match rate_limiting b with
  | None => Some (max_so_far, w)
  | Some rl =>
    '(max_so_far, w) ← (match rl_cfg rl with
                        | Some _ =>
                          w ← bufferevent_update_buckets a w;
                          rl ← rlim w a;
                          Some (LIM is_write (rl_limit rl), w)
                        | None => Some (max_so_far, w)
                        end);
    '(max_so_far, w) ← (if rl_group rl =? 0 then Some (max_so_far, w)
                        else
                          '(share, w) ← group_share is_write a (rl_group rl) w;
                          Some (if share <? max_so_far then share else max_so_far, w));
    Some (if max_so_far <? 0 then 0 else max_so_far, w)
  end.

Definition bufferevent_get_read_max_ a w := bufferevent_get_rlim_max_ a false w.
Definition bufferevent_get_write_max_ a w := bufferevent_get_rlim_max_ a true w.

(** ** Groups: suspending and resuming all members *)

Fixpoint suspend_members (f : Z → world E → option (world E)) (l : list Z) w : option (world E) :=
  match l with
  | [] => Some w
  | a :: l => w ← (if trylock a then f a w else Some w); suspend_members f l w
  end.

Definition bev_group_suspend_reading_ g w : option (world E) :=
  gr ← group w g;
  suspend_members (λ a, bufferevent_suspend_read_ a BEV_SUSPEND_BW_GROUP) (g_members gr)
    (upd_group g (λ gr, set_g_pending_unsuspend_read false (set_g_read_suspended true gr)) w).

Definition bev_group_suspend_writing_ g w : option (world E) :=
  gr ← group w g;
  suspend_members (λ a, bufferevent_suspend_write_ a BEV_SUSPEND_BW_GROUP) (g_members gr)
    (upd_group g (λ gr, set_g_pending_unsuspend_write false (set_g_write_suspended true gr)) w).

(** The position of a random member, and the new seed; [None] of the inner option
    stands for NULL. *)
Definition bev_group_random_element_ (gr : bufferevent_rate_limit_group) : option (option nat * Z) :=
  if g_n_members gr =? 0 then Some (None, g_weakrand_seed gr)
  else
    ASSERT (negb (match g_members gr with [] => true | _ => false end)) ;;
    '(which, seed) ← evutil_weakrand_range_ fuel (g_weakrand_seed gr) (g_n_members gr);
    if (Z.to_nat which <? length (g_members gr))%nat then Some (Some (Z.to_nat which), seed) else None.

(** The members in the order of [FOREACH_RANDOM_ORDER]: from a random one to the
    last, then from the first to the one before it. *)
Definition FOREACH_RANDOM_ORDER (gr : bufferevent_rate_limit_group) : option (list Z * Z) :=
  '(first, seed) ← bev_group_random_element_ gr;
  Some (match first with
        | Some i => drop i (g_members gr) ++ take i (g_members gr)
        | None => g_members gr
        end, seed).

Fixpoint unsuspend_members (f : Z → world E → option (world E)) (l : list Z) (again : bool) w :
    option (bool * world E) :=
  match l with
  | [] => Some (again, w)
  | a :: l =>
    if trylock a then w ← f a w; unsuspend_members f l again w else unsuspend_members f l true w
  end.

Definition bev_group_unsuspend_reading_ g w : option (world E) :=
  gr ← group w g;
  '(order, seed) ← FOREACH_RANDOM_ORDER gr;
  '(again, w) ← unsuspend_members (λ a, bufferevent_unsuspend_read_ a BEV_SUSPEND_BW_GROUP) order false
    (upd_group g (λ gr, set_g_weakrand_seed seed (set_g_read_suspended false gr)) w);
  Some (upd_group g (set_g_pending_unsuspend_read again) w).

Definition bev_group_unsuspend_writing_ g w : option (world E) :=
  gr ← group w g;
  '(order, seed) ← FOREACH_RANDOM_ORDER gr;
  '(again, w) ← unsuspend_members (λ a, bufferevent_unsuspend_write_ a BEV_SUSPEND_BW_GROUP) order false
    (upd_group g (λ gr, set_g_weakrand_seed seed (set_g_write_suspended false gr)) w);
  Some (upd_group g (set_g_pending_unsuspend_write again) w).

(** ** Spending *)

(** The refill event is added with the length of a tick. *)
Definition add_refill a w : option (Z * world E) :=
  rl ← rlim w a;
  '(_, cfg) ← rl_cfg rl;
  w_add (EvRefill a) (Some (tick_timeout cfg)) w.

Definition decrement_own_read a (n : Z) w : option (Z * world E) :=
  let w := upd_limit a (λ l, ev_token_bucket_decrement_read l n) w in
  b ← bev w a;
  rl ← rlim w a;
  if read_limit (rl_limit rl) <=? 0 then
    w ← bufferevent_suspend_read_ a BEV_SUSPEND_BW w;
    '(r, w) ← add_refill a w;
    Some (if r <? 0 then -1 else 0, w)
  else if read_suspended b &? BEV_SUSPEND_BW then
    w ← (if negb (write_suspended b &? BEV_SUSPEND_BW)
         then '(_, w) ← w_del (EvRefill a) w; Some w else Some w);
    w ← bufferevent_unsuspend_read_ a BEV_SUSPEND_BW w;
    Some (0, w)
  else Some (0, w).

Definition decrement_group_read g (n : Z) w : option (world E) :=
  let w := upd_group g (λ gr, set_g_total_read (u64 (g_total_read gr + n))
    (set_g_rate_limit (ev_token_bucket_decrement_read (g_rate_limit gr) n) gr)) w in
  gr ← group w g;
  if read_limit (g_rate_limit gr) <=? 0 then bev_group_suspend_reading_ g w
  else if g_read_suspended gr then bev_group_unsuspend_reading_ g w else Some w.

Definition bufferevent_decrement_read_buckets_ a (n : Z) w : option (Z * world E) :=
  b ← bev w a;
  match rate_limiting b with
  | None => Some (0, w)
  | Some rl =>
    '(r, w) ← (match rl_cfg rl with Some _ => decrement_own_read a n w | None => Some (0, w) end);
    w ← (if rl_group rl =? 0 then Some w else decrement_group_read (rl_group rl) n w);
    Some (r, w)
  end.

Definition decrement_own_write a (n : Z) w : option (Z * world E) :=
  let w := upd_limit a (λ l, ev_token_bucket_decrement_write l n) w in
  b ← bev w a;
  rl ← rlim w a;
  if write_limit (rl_limit rl) <=? 0 then
    w ← bufferevent_suspend_write_ a BEV_SUSPEND_BW w;
    '(r, w) ← add_refill a w;
    Some (if r <? 0 then -1 else 0, w)
  else if write_suspended b &? BEV_SUSPEND_BW then
    w ← (if negb (read_suspended b &? BEV_SUSPEND_BW)
         then '(_, w) ← w_del (EvRefill a) w; Some w else Some w);
    w ← bufferevent_unsuspend_write_ a BEV_SUSPEND_BW w;
    Some (0, w)
  else Some (0, w).

Definition decrement_group_write g (n : Z) w : option (world E) :=
  let w := upd_group g (λ gr, set_g_total_written (u64 (g_total_written gr + n))
    (set_g_rate_limit (ev_token_bucket_decrement_write (g_rate_limit gr) n) gr)) w in
  gr ← group w g;
  if write_limit (g_rate_limit gr) <=? 0 then bev_group_suspend_writing_ g w
  else if g_write_suspended gr then bev_group_unsuspend_writing_ g w else Some w.

Definition bufferevent_decrement_write_buckets_ a (n : Z) w : option (Z * world E) :=
  b ← bev w a;
  match rate_limiting b with
  | None => Some (0, w)
  | Some rl =>
    '(r, w) ← (match rl_cfg rl with Some _ => decrement_own_write a n w | None => Some (0, w) end);
    w ← (if rl_group rl =? 0 then Some w else decrement_group_write (rl_group rl) n w);
    Some (r, w)
  end.

(** ** Refilling *)

(** A direction that is suspended for lack of bandwidth is resumed when there is
    some, or else another refill is needed. *)
Definition refill_direction (is_write : bool) (suspended limit : Z) (again : bool) a w : option (bool * world E) :=
  if suspended &? BEV_SUSPEND_BW then
    if 0 <? limit then
      w ← (if is_write then bufferevent_unsuspend_write_ a BEV_SUSPEND_BW w
           else bufferevent_unsuspend_read_ a BEV_SUSPEND_BW w);
      Some (again, w)
    else Some (true, w)
  else Some (again, w).

Definition bev_refill_callback_ a w : option (world E) :=
  b ← bev w a;
  match rate_limiting b with
  | Some rl =>
    match rl_cfg rl with
    | None => Some w
    | Some (_, cfg) =>
      tick ← ev_token_bucket_get_tick_ now cfg;
      let w := upd_limit a (λ l, snd (ev_token_bucket_update_ cfg tick l)) w in
      rl ← rlim w a;
      '(again, w) ← refill_direction false (read_suspended b) (read_limit (rl_limit rl)) false a w;
      '(again, w) ← refill_direction true (write_suspended b) (write_limit (rl_limit rl)) again a w;
      if again : bool then '(_, w) ← add_refill a w; Some w else Some w
    end
  | None => Some w
  end.

Definition bev_group_refill_callback_ g w : option (world E) :=
  gr ← group w g;
  tick ← ev_token_bucket_get_tick_ now (g_rate_limit_cfg gr);
  let w := upd_group g (λ gr, set_g_rate_limit
    (snd (ev_token_bucket_update_ (g_rate_limit_cfg gr) tick (g_rate_limit gr))) gr) w in
  gr ← group w g;
  w ← (if g_pending_unsuspend_read gr ||
          (g_read_suspended gr && (g_min_share gr <=? read_limit (g_rate_limit gr)))
       then bev_group_unsuspend_reading_ g w else Some w);
  gr ← group w g;
  if g_pending_unsuspend_write gr ||
     (g_write_suspended gr && (g_min_share gr <=? write_limit (g_rate_limit gr)))
  then bev_group_unsuspend_writing_ g w else Some w.

(** ** Configuration *)

(** [mm_calloc] of the rate limit. *)
Definition new_rlim : bufferevent_rate_limit := mk_rlim 0 (mk_bucket 0 0 0) None false.

(** The direction is suspended or resumed according to the new limit. *)
Definition resume_or_suspend (is_write : bool) (limit : Z) a w : option (bool * world E) :=
  if 0 <? limit then
    w ← (if is_write then bufferevent_unsuspend_write_ a BEV_SUSPEND_BW w
         else bufferevent_unsuspend_read_ a BEV_SUSPEND_BW w);
    Some (false, w)
  else
    w ← (if is_write then bufferevent_suspend_write_ a BEV_SUSPEND_BW w
         else bufferevent_suspend_read_ a BEV_SUSPEND_BW w);
    Some (true, w).

(** A configuration is given by its address and contents; [ok] is the allocation of
    the rate limit. *)
Definition bufferevent_set_rate_limit a (ok : bool) (cfg : option (Z * ev_token_bucket_cfg)) w :
    option (Z * world E) :=
  b ← bev w a;
  match cfg with
  | None =>
    match rate_limiting b with
    | None => Some (0, w)
    | Some rl =>
      let w := upd_rlim a (set_rl_cfg None) w in
      w ← bufferevent_unsuspend_read_ a BEV_SUSPEND_BW w;
      w ← bufferevent_unsuspend_write_ a BEV_SUSPEND_BW w;
      w ← (if rl_initialized rl then '(_, w) ← w_del (EvRefill a) w; Some w else Some w);
      Some (0, w)
    end
  | Some (p, c) =>
    tick ← ev_token_bucket_get_tick_ now c;
    let old := rate_limiting b ≫= rl_cfg in
    if bool_decide ((fst <$> old) = Some p) then Some (0, w)
    else
      match (match rate_limiting b with Some rl => Some rl | None => if ok then Some new_rlim else None end) with
      | None => Some (-1, w)
      | Some rl =>
        let reinit := match old with Some _ => true | None => false end in
        let limit := ev_token_bucket_init_ c tick reinit (rl_limit rl) in
        let w := upd_bev a (set_rate_limiting (Some (set_rl_limit limit (set_rl_cfg (Some (p, c)) rl)))) w in
        w ← (if reinit then ASSERT (rl_initialized rl) ;; '(_, w) ← w_del (EvRefill a) w; Some w else Some w);
        let w := upd_rlim a (set_rl_initialized true) w in
        '(s1, w) ← resume_or_suspend false (read_limit limit) a w;
        '(s2, w) ← resume_or_suspend true (write_limit limit) a w;
        w ← (if s1 || s2 then '(_, w) ← w_add (EvRefill a) (Some (tick_timeout c)) w; Some w else Some w);
        Some (0, w)
      end
  end.

Definition set_min_share (share : Z) (gr : bufferevent_rate_limit_group) : Z * bufferevent_rate_limit_group :=
  if EV_SSIZE_MAX <? share then (-1, gr)
  else
    let gr := set_g_configured_min_share share gr in
    let share := if read_rate (g_rate_limit_cfg gr) <? share then read_rate (g_rate_limit_cfg gr) else share in
    let share := if write_rate (g_rate_limit_cfg gr) <? share then write_rate (g_rate_limit_cfg gr) else share in
    (0, set_g_min_share share gr).

Definition bufferevent_rate_limit_group_set_min_share g (share : Z) w : option (Z * world E) :=
  gr ← group w g;
  let '(r, gr) := set_min_share share gr in
  Some (r, upd_group g (λ _, gr) w).

(** The address of the new group, and the seed of its random numbers. *)
Definition bufferevent_rate_limit_group_new g (ok : bool) (seed : Z) (cfg : ev_token_bucket_cfg) w :
    option (Z * world E) :=
  tick ← ev_token_bucket_get_tick_ now cfg;
  if negb ok then Some (0, w)
  else
    let limit := ev_token_bucket_init_ cfg tick false (mk_bucket 0 0 0) in
    let gr := mk_group [] limit cfg false false false false 0 0 0 0 0 0 in
    '(_, w) ← w_add (EvMaster g) (Some (tick_timeout cfg)) (mk_world (w_bevs w) (<[g := gr]> (w_groups w)) (w_events w));
    '(_, w) ← bufferevent_rate_limit_group_set_min_share g 64 w;
    Some (g, upd_group g (set_g_weakrand_seed seed) w).

Definition bufferevent_rate_limit_group_set_cfg g (cfg : ev_token_bucket_cfg) w : option (Z * world E) :=
  gr ← group w g;
  let same_tick := evutil_timercmp (tick_timeout (g_rate_limit_cfg gr)) (tick_timeout cfg) Z.eqb in
  let l := g_rate_limit gr in
  let l := mk_bucket (if i64 (read_maximum cfg) <? read_limit l then i64 (read_maximum cfg) else read_limit l)
    (if i64 (write_maximum cfg) <? write_limit l then i64 (write_maximum cfg) else write_limit l) (last_updated l) in
  let w := upd_group g (λ gr, set_g_rate_limit l (set_g_rate_limit_cfg cfg gr)) w in
  w ← (if negb same_tick then '(_, w) ← w_add (EvMaster g) (Some (tick_timeout cfg)) w; Some w else Some w);
  '(_, w) ← bufferevent_rate_limit_group_set_min_share g (u64 (g_configured_min_share gr)) w;
  Some (0, w).

Definition bufferevent_rate_limit_group_free g w : option (world E) :=
  gr ← group w g;
  ASSERT (g_n_members gr =? 0) ;;
  '(_, w) ← w_del (EvMaster g) w;
  Some (mk_world (w_bevs w) (delete g (w_groups w)) (w_events w)).

(** ** Membership *)

Definition bufferevent_remove_from_rate_limit_group_internal_ a (unsuspend : bool) w : option (world E) :=
  b ← bev w a;
  w ← (match rate_limiting b with
       | Some rl =>
         if rl_group rl =? 0 then Some w
         else
           gr ← group w (rl_group rl);
           l ← unlink a (g_members gr);
           Some (upd_group (rl_group rl) (λ gr, set_g_members l (set_g_n_members (g_n_members gr - 1) gr))
             (upd_rlim a (set_rl_group 0) w))
       | None => Some w
       end);
  if unsuspend then
    w ← bufferevent_unsuspend_read_ a BEV_SUSPEND_BW_GROUP w;
    bufferevent_unsuspend_write_ a BEV_SUSPEND_BW_GROUP w
  else Some w.

Definition bufferevent_remove_from_rate_limit_group a w :=
  bufferevent_remove_from_rate_limit_group_internal_ a true w.

Definition join_group a g w : option (world E) :=
  gr ← group w g;
  let w := upd_group g (λ gr, set_g_members (a :: g_members gr) (set_g_n_members (g_n_members gr + 1) gr))
    (upd_rlim a (set_rl_group g) w) in
  w ← (if g_read_suspended gr then bufferevent_suspend_read_ a BEV_SUSPEND_BW_GROUP w else Some w);
  if g_write_suspended gr then bufferevent_suspend_write_ a BEV_SUSPEND_BW_GROUP w else Some w.

Definition bufferevent_add_to_rate_limit_group a g (ok : bool) w : option (Z * world E) :=
  b ← bev w a;
  match (match rate_limiting b with
         | Some rl => Some (rl, w)
         | None =>
           if ok then
             let rl := set_rl_initialized true new_rlim in
             Some (rl, upd_bev a (set_rate_limiting (Some rl)) w)
           else None
         end) with
  | None => Some (-1, w)
  | Some (rl, w) =>
    if rl_group rl =? g then Some (0, w)
    else
      w ← (if rl_group rl =? 0 then Some w else bufferevent_remove_from_rate_limit_group a w);
      w ← join_group a g w;
      Some (0, w)
  end.

(** ** Access for the program *)

Definition bufferevent_get_read_limit a w : option (Z * world E) :=
  b ← bev w a;
  match rate_limiting b ≫= rl_cfg with
  | Some _ => w ← bufferevent_update_buckets a w; rl ← rlim w a; Some (read_limit (rl_limit rl), w)
  | None => Some (EV_SSIZE_MAX, w)
  end.

Definition bufferevent_get_write_limit a w : option (Z * world E) :=
  b ← bev w a;
  match rate_limiting b ≫= rl_cfg with
  | Some _ => w ← bufferevent_update_buckets a w; rl ← rlim w a; Some (write_limit (rl_limit rl), w)
  | None => Some (EV_SSIZE_MAX, w)
  end.

Definition bufferevent_set_max_single_read a (size : Z) w : option (world E) :=
  _ ← bev w a;
  Some (upd_bev a (set_max_single_read
    (if (size =? 0) || (EV_SSIZE_MAX <? size) then MAX_SINGLE_READ_DEFAULT else size)) w).
Definition bufferevent_set_max_single_write a (size : Z) w : option (world E) :=
  _ ← bev w a;
  Some (upd_bev a (set_max_single_write
    (if (size =? 0) || (EV_SSIZE_MAX <? size) then MAX_SINGLE_WRITE_DEFAULT else size)) w).

Definition bufferevent_get_max_to_read a w := bufferevent_get_read_max_ a w.
Definition bufferevent_get_max_to_write a w := bufferevent_get_write_max_ a w.

Definition bufferevent_decrement_read_limit a (decr : Z) w : option (Z * world E) :=
  b ← bev w a;
  rl ← rate_limiting b;
  _ ← rl_cfg rl;
  let old_limit := read_limit (rl_limit rl) in
  let new_limit := i64 (old_limit - decr) in
  let w := upd_limit a (λ l, ev_token_bucket_decrement_read l decr) w in
  if (0 <? old_limit) && (new_limit <=? 0) then
    w ← bufferevent_suspend_read_ a BEV_SUSPEND_BW w;
    '(r, w) ← add_refill a w;
    Some (if r <? 0 then -1 else 0, w)
  else if (old_limit <=? 0) && (0 <? new_limit) then
    w ← (if negb (write_suspended b &? BEV_SUSPEND_BW)
         then '(_, w) ← w_del (EvRefill a) w; Some w else Some w);
    w ← bufferevent_unsuspend_read_ a BEV_SUSPEND_BW w;
    Some (0, w)
  else Some (0, w).

Definition bufferevent_decrement_write_limit a (decr : Z) w : option (Z * world E) :=
  b ← bev w a;
  rl ← rate_limiting b;
  _ ← rl_cfg rl;
  let old_limit := write_limit (rl_limit rl) in
  let new_limit := i64 (old_limit - decr) in
  let w := upd_limit a (λ l, ev_token_bucket_decrement_write l decr) w in
  if (0 <? old_limit) && (new_limit <=? 0) then
    w ← bufferevent_suspend_write_ a BEV_SUSPEND_BW w;
    '(r, w) ← add_refill a w;
    Some (if r <? 0 then -1 else 0, w)
  else if (old_limit <=? 0) && (0 <? new_limit) then
    w ← (if negb (read_suspended b &? BEV_SUSPEND_BW)
         then '(_, w) ← w_del (EvRefill a) w; Some w else Some w);
    w ← bufferevent_unsuspend_write_ a BEV_SUSPEND_BW w;
    Some (0, w)
  else Some (0, w).

Definition bufferevent_rate_limit_group_decrement_read g (decr : Z) w : option (Z * world E) :=
  gr ← group w g;
  let old_limit := read_limit (g_rate_limit gr) in
  let new_limit := i64 (old_limit - decr) in
  let w := upd_group g (λ gr, set_g_rate_limit (ev_token_bucket_decrement_read (g_rate_limit gr) decr) gr) w in
  w ← (if (0 <? old_limit) && (new_limit <=? 0) then bev_group_suspend_reading_ g w
       else if (old_limit <=? 0) && (0 <? new_limit) then bev_group_unsuspend_reading_ g w else Some w);
  Some (0, w).

Definition bufferevent_rate_limit_group_decrement_write g (decr : Z) w : option (Z * world E) :=
  gr ← group w g;
  let old_limit := write_limit (g_rate_limit gr) in
  let new_limit := i64 (old_limit - decr) in
  let w := upd_group g (λ gr, set_g_rate_limit (ev_token_bucket_decrement_write (g_rate_limit gr) decr) gr) w in
  w ← (if (0 <? old_limit) && (new_limit <=? 0) then bev_group_suspend_writing_ g w
       else if (old_limit <=? 0) && (0 <? new_limit) then bev_group_unsuspend_writing_ g w else Some w);
  Some (0, w).

Definition bufferevent_rate_limit_group_reset_totals g w : option (world E) :=
  _ ← group w g; Some (upd_group g (λ gr, set_g_total_written 0 (set_g_total_read 0 gr)) w).
End ratelim.
