(* ===== verification/BeventSock.v ===== *)
(** * Buffered events on sockets (bufferevent_sock.c)

    The callbacks of the two events of a socket, creation, connecting and
    finalizing.  What the system calls return is an argument: the bytes that
    [readv] delivers or its error, how much [writev] takes, the state of a
    connection attempt. *)

From S2P Require Import Prelude TimeVal EvMap TokenBucket BufferCore BufferMove Bevent RateLim.

(** The errors of the socket that the callbacks tell apart. *)
Inductive sock_error := ErrRetriable | ErrRefused | ErrOther (err : Z).

Definition errno_of (e : sock_error) : Z := match e with ErrRetriable => 11 | ErrRefused => 111 | ErrOther err => err end.

Section sock.
Context {E : Type} `{EventApi E}.
Context (user : user_call → world E → world E).
Context (now : timeval) (trylock : Z → bool) (fuel : nat).

Implicit Types (w : world E) (a : Z).

(** The label [error] of the two callbacks. *)
Definition io_error a (event err what : Z) w : option (world E) :=
  '(_, w) ← bufferevent_disable a event w;
  bufferevent_run_eventcb_ user a err what 0 w.

(** The result of [evbuffer_read] on the input, which is frozen otherwise. *)
Definition read_input a (ok : bool) (fionread : Z) (rd : option bytes) (howmuch : Z) w : option (Z * world E) :=
  b ← bev w a;
  '(res, i) ← evbuffer_read ok fionread rd (i32 howmuch) (evbuffer_unfreeze false (bev_input b));
  w ← run_input_calls user a (upd_bev a (set_bev_input i) w);
  Some (res, upd_bev a (λ b, set_bev_input (evbuffer_freeze false (bev_input b)) b) w).

(** The body of [bufferevent_readcb], between taking and dropping the reference. *)
Definition readcb_body a (event : Z) (ok : bool) (fionread : Z) (rd : option bytes) (err : sock_error) w :
    option (world E) :=
  if event =? EV_TIMEOUT then io_error a EV_READ (errno_of err) (Z.lor BEV_EVENT_READING BEV_EVENT_TIMEOUT) w
  else
    b ← bev w a;
    let howmuch := if wm_read_high b =? 0 then -1
                   else i64 (u64 (wm_read_high b - evbuffer_get_length (bev_input b))) in
    if negb (wm_read_high b =? 0) && (howmuch <=? 0) then bufferevent_wm_suspend_read a w
    else
      '(readmax, w) ← bufferevent_get_read_max_ now a w;
      let howmuch := if (howmuch <? 0) || (readmax <? howmuch) then readmax else howmuch in
      b ← bev w a;
      if negb (read_suspended b =? 0) then Some w
      else
        '(res, w) ← read_input a ok fionread rd howmuch w;
        if (res =? -1) && match err with ErrRetriable => true | _ => false end then Some w
        else if (res =? -1) && match err with ErrRefused => true | _ => false end
        then Some (upd_bev a (set_connection_refused true) w)
        else if res <=? 0 then
          io_error a EV_READ (errno_of err)
            (Z.lor BEV_EVENT_READING (if res =? -1 then BEV_EVENT_ERROR else BEV_EVENT_EOF)) w
        else
          '(_, w) ← bufferevent_decrement_read_buckets_ trylock fuel a res w;
          bufferevent_trigger_nolock_ user a EV_READ 0 w.

Definition bufferevent_readcb a (event : Z) (ok : bool) (fionread : Z) (rd : option bytes) (err : sock_error) w :
    option (world E) :=
  w ← bufferevent_incref_and_lock_ a w;
  w ← readcb_body a event ok fionread rd err w;
  '(_, w) ← bufferevent_decref_and_unlock_ a w; Some w.

Definition write_output a (wr : bytes → Z) (atmost : Z) w : option (Z * world E) :=
  b ← bev w a;
  '(res, o) ← evbuffer_write_atmost wr atmost (evbuffer_unfreeze true (bev_output b));
  w ← run_output_calls user a (upd_bev a (set_bev_output o) w);
  Some (res, upd_bev a (λ b, set_bev_output (evbuffer_freeze true (bev_output b)) b) w).

(** The event for writing is deleted when there is nothing more to write. *)
Definition del_if_drained a w : option (world E) :=
  b ← bev w a;
  if evbuffer_get_length (bev_output b) =? 0 then '(_, w) ← w_del (EvWrite a) w; Some w else Some w.

(** After a connection attempt was dealt with. *)
Definition writecb_write a (connected : bool) (wr : bytes → Z) (err : sock_error) w : option (world E) :=
  '(atmost, w) ← bufferevent_get_write_max_ now a w;
  b ← bev w a;
  if negb (write_suspended b =? 0) then Some w
  else
    '(res, w) ← (if evbuffer_get_length (bev_output b) =? 0 then Some (0, w) else write_output a wr atmost w);
    if negb (evbuffer_get_length (bev_output b) =? 0) && (res =? -1) && match err with ErrRetriable => true | _ => false end
    then del_if_drained a w
    else if negb (evbuffer_get_length (bev_output b) =? 0) && (res <=? 0) then
      io_error a EV_WRITE (errno_of err)
        (Z.lor BEV_EVENT_WRITING (if res =? -1 then BEV_EVENT_ERROR else BEV_EVENT_EOF)) w
    else
      w ← (if evbuffer_get_length (bev_output b) =? 0 then Some w
           else '(_, w) ← bufferevent_decrement_write_buckets_ trylock fuel a res w; Some w);
      w ← del_if_drained a w;
      if negb (res =? 0) || negb connected then bufferevent_trigger_nolock_ user a EV_WRITE 0 w else Some w.

(** [c] is the result of [evutil_socket_finished_connecting_]. *)
Definition writecb_body a (event c : Z) (wr : bytes → Z) (err : sock_error) w : option (world E) :=
  if event =? EV_TIMEOUT then io_error a EV_WRITE (errno_of err) (Z.lor BEV_EVENT_WRITING BEV_EVENT_TIMEOUT) w
  else
    b ← bev w a;
    if connecting b then
      let c := if connection_refused b then -1 else c in
      let w := upd_bev a (set_connection_refused false) w in
      if c =? 0 then Some w
      else
        let w := upd_bev a (set_connecting false) w in
        if c <? 0 then
          '(_, w) ← w_del (EvWrite a) w;
          '(_, w) ← w_del (EvRead a) w;
          bufferevent_run_eventcb_ user a (errno_of err) BEV_EVENT_ERROR 0 w
        else
          w ← bufferevent_run_eventcb_ user a (errno_of err) BEV_EVENT_CONNECTED 0 w;
          b ← bev w a;
          if negb (bev_enabled b &? EV_WRITE) || negb (write_suspended b =? 0)
          then '(_, w) ← w_del (EvWrite a) w; Some w
          else writecb_write a true wr err w
    else writecb_write a false wr err w.

Definition bufferevent_writecb a (event c : Z) (wr : bytes → Z) (err : sock_error) w : option (world E) :=
  w ← bufferevent_incref_and_lock_ a w;
  w ← writecb_body a event c wr err w;
  '(_, w) ← bufferevent_decref_and_unlock_ a w; Some w.

(** ** Creation *)

(** A buffered event at address [a] with zeroed memory and two new buffers, or -1.
    [m] are the allocations of the buffers. *)
Definition bufferevent_init_common_ (m : mallocs) (options : Z) : option bufferevent :=
  input ← evbuffer_new (m 0%nat);
  output ← evbuffer_new (m 1%nat);
  if Z.land options (Z.lor BEV_OPT_DEFER_CALLBACKS BEV_OPT_UNLOCK_CALLBACKS) =? BEV_OPT_UNLOCK_CALLBACKS then None
  else Some (mk_bev input output 0 0 0 0 0 0 0 0 evutil_timerclear evutil_timerclear EV_WRITE (-1) 0
    false false false false 0 0 0 0 false options 1 MAX_SINGLE_READ_DEFAULT MAX_SINGLE_WRITE_DEFAULT None false).

(** The result is whether it was created; [id] is the address of the entry of the
    callback on the output, whose allocation is not checked. *)
Definition bufferevent_socket_new a (m : mallocs) (id fd options : Z) w : bool * world E :=
  if negb (m 0%nat) then (false, w)
  else
    match bufferevent_init_common_ (later_mallocs 1 m) options with
    | None => (false, w)
    | Some b =>
      let o := bev_output b in
      let o := match evbuffer_add_cb (m 3%nat) id OUTBUF_CB a o with Some o => o | None => o end in
      let b := set_bev_fd fd (set_bev_output (evbuffer_freeze true o)
                 (set_bev_input (evbuffer_freeze false (bev_input b)) b)) in
      (true, mk_world (<[a := b]> (w_bevs w)) (w_groups w) (w_events w))
    end.

(** [be_socket_setfd]: the events are assigned anew and what is enabled is added. *)
Definition be_socket_setfd a (fd : Z) w : option (world E) :=
  '(_, w) ← w_del (EvRead a) w;
  '(_, w) ← w_del (EvWrite a) w;
  b ← bev w a;
  let w := upd_bev a (λ b, set_bev_fd fd (set_bev_output (evbuffer_unfreeze true (bev_output b))
    (set_bev_input (evbuffer_unfreeze false (bev_input b)) b))) w in
  if 0 <=? fd then '(_, w) ← bufferevent_enable a (bev_enabled b) w; Some w else Some w.

(** ** Connecting *)

(** [sa] says whether an address is given, [sock] is the descriptor that [socket]
    returns and [r] the result of [evutil_socket_connect_]. *)
Definition bufferevent_socket_connect a (sa : bool) (sock r err : Z) w : option (Z * world E) :=
  w ← bufferevent_incref_and_lock_ a w;
  b ← bev w a;
  let fd := if bev_fd b <? 0 then sock else bev_fd b in
  '(result, w) ←
    (if (bev_fd b <? 0) && (negb sa || (sock <? 0)) then Some (-1, w)
     else
       let r := if sa then r else 0 in
       if r <? 0 then w ← bufferevent_run_eventcb_ user a err BEV_EVENT_ERROR 0 w; Some (-1, w)
       else
         w ← be_socket_setfd a fd w;
         if r =? 0 then
           '(e, w) ← be_socket_enable a EV_WRITE w;
           if e =? 0 then Some (0, upd_bev a (set_connecting true) w) else Some (-1, w)
         else if r =? 1 then
           w ← bufferevent_trigger_nolock_ user a EV_WRITE BEV_OPT_DEFER_CALLBACKS (upd_bev a (set_connecting true) w);
           Some (0, w)
         else
           w ← bufferevent_run_eventcb_ user a err BEV_EVENT_ERROR BEV_OPT_DEFER_CALLBACKS w;
           '(_, w) ← bufferevent_disable a (Z.lor EV_WRITE EV_READ) w;
           Some (0, w) : option (Z * world E));
  '(_, w) ← bufferevent_decref_and_unlock_ a w;
  Some (result, w).

(** The lookup of a name suspends both directions until its callback is run. *)
Definition bufferevent_socket_connect_hostname a (family_ok : bool) (port : Z) w : option (Z * world E) :=
  if negb family_ok then Some (-1, w)
  else if (port <? 1) || (65535 <? port) then Some (-1, w)
  else
    w ← bufferevent_suspend_write_ a BEV_SUSPEND_LOOKUP w;
    w ← bufferevent_suspend_read_ a BEV_SUSPEND_LOOKUP w;
    w ← bufferevent_incref a w;
    Some (0, w).

Definition bufferevent_connect_getaddrinfo_cb a (cancelled : bool) (result sock r err : Z) w : option (world E) :=
  w ← bufferevent_unsuspend_write_ a BEV_SUSPEND_LOOKUP w;
  w ← bufferevent_unsuspend_read_ a BEV_SUSPEND_LOOKUP w;
  w ← (if cancelled then Some w
       else if negb (result =? 0) then bufferevent_run_eventcb_ user a err BEV_EVENT_ERROR 0 w
       else '(_, w) ← bufferevent_socket_connect a true sock r err w; Some w);
  '(_, w) ← bufferevent_decref_and_unlock_ a w; Some w.

(** ** Finalizing *)

(** What is left when no callback runs any more: the buffered event leaves its
    group and is freed.  [closed] are the descriptors closed. *)
Definition bufferevent_finalize_cb_ a w : option (list Z * world E) :=
  b ← bev w a;
  let closed := if (bev_options b &? BEV_OPT_CLOSE_ON_FREE) && (0 <=? bev_fd b) then [bev_fd b] else [] in
  w ← (match rate_limiting b with
       | Some rl => if rl_group rl =? 0 then Some w else bufferevent_remove_from_rate_limit_group_internal_ a false w
       | None => Some w
       end);
  Some (closed, mk_world (delete a (w_bevs w)) (w_groups w) (w_events w)).
End sock.
