(* ===== verification/BeventInv.v ===== *)
(** * Buffered events: the registered events follow the flags

    The invariant of a store: an event of a socket is registered only while its
    direction is enabled and nothing suspends it.  Every operation keeps it, for
    any implementation of the event interface that obeys its laws and any user
    callbacks that keep it themselves. *)

From S2P Require Import Prelude TimeVal EvMap TokenBucket BufferCore BufferMove Bevent RateLim BeventSock.

(** ** Postconditions of computations that may fail *)

Definition ens {A} (m : option A) (Q : A → Prop) : Prop := match m with Some x => Q x | None => True end.

Lemma ens_bind {A B} (m : option A) (f : A → option B) P Q :
  ens m P → (∀ x, P x → ens (f x) Q) → ens (m ≫= f) Q.
Proof. destruct m as [x|]; [|done]. intros HP HQ. by apply HQ. Qed.

Lemma ens_mono {A} (m : option A) (P Q : A → Prop) : ens m P → (∀ x, P x → Q x) → ens m Q.
Proof. destruct m; [|done]. cbn. auto. Qed.

Lemma ens_lookup {A B} (m : option A) (f : A → option B) Q :
  (∀ x, m = Some x → ens (f x) Q) → ens (m ≫= f) Q.
Proof. destruct m as [x|]; [|done]. intros Hf. by apply Hf. Qed.

Section inv.
Context {E : Type} `{EventLaws E}.
Context (user : user_call → world E → world E).
Context (now : timeval) (trylock : Z → bool) (fuel : nat).

Implicit Types (w : world E) (a g : Z) (e : bev_event) (s : E).

(** ** The invariant *)

(** When the event for writing may be registered: while a connection is attempted,
    while the attempt is wound up (the addresses [X]), or else when writing is
    enabled and not suspended. *)
Definition may_write (X : gset Z) a (b : bufferevent) : Prop :=
  a ∈ X ∨ connecting b = true ∨ bev_enabled b &? EV_WRITE = true ∧ write_suspended b = 0.

Record bev_ok (X : gset Z) s a (b : bufferevent) : Prop := {
  bv_timeout_read : tv_norm (timeout_read b);
  bv_timeout_write : tv_norm (timeout_write b);
  bv_tick : ∀ rl p c, rate_limiting b = Some rl → rl_cfg rl = Some (p, c) → tv_norm (tick_timeout c);
  bv_read : is_pending s (EvRead a) = true → bev_enabled b &? EV_READ = true ∧ read_suspended b = 0;
  bv_write : is_pending s (EvWrite a) = true → may_write X a b }.

Record world_ok (X : gset Z) w : Prop := {
  wo_events : events_ok (w_events w);
  wo_bevs : ∀ a b, bev w a = Some b → bev_ok X (w_events w) a b;
  wo_groups : ∀ g gr, group w g = Some gr → tv_norm (tick_timeout (g_rate_limit_cfg gr)) }.

Implicit Types X : gset Z.

(** Fewer pending events are fine. *)
Lemma bev_ok_fewer X s s' a b :
  bev_ok X s a b → (∀ e, is_pending s' e = true → is_pending s e = true) → bev_ok X s' a b.
Proof. intros [B1 B2 B3 B4 B5] Hs. split; eauto. Qed.

Lemma upd_bev_ok X a f w :
  world_ok X w → (∀ b, bev w a = Some b → bev_ok X (w_events w) a b → bev_ok X (w_events w) a (f b)) →
  world_ok X (upd_bev a f w).
Proof.
  intros [W1 W2 W3] Hf. split; [done| |done]. intros a' b'. unfold bev, upd_bev in *. cbn [w_bevs w_events].
  destruct (decide (a' = a)) as [->|Hne].
  - rewrite lookup_alter_eq. destruct (w_bevs w !! a) as [b|] eqn:Hb; [|done]. intros [= <-]. auto.
  - rewrite lookup_alter_ne by done. apply W2.
Qed.

Lemma upd_group_ok X g f w :
  world_ok X w → (∀ gr, tv_norm (tick_timeout (g_rate_limit_cfg gr)) → tv_norm (tick_timeout (g_rate_limit_cfg (f gr)))) →
  world_ok X (upd_group g f w).
Proof.
  intros [W1 W2 W3] Hf. split; [done|done|]. intros g' gr'. unfold group, upd_group in *. cbn [w_groups].
  destruct (decide (g' = g)) as [->|Hne].
  - rewrite lookup_alter_eq. destruct (w_groups w !! g) as [gr|] eqn:Hg; [|done]. intros [= <-]. eauto.
  - rewrite lookup_alter_ne by done. apply W3.
Qed.

(** A change of a buffered event that the invariant does not look at. *)
Definition invisible (f : bufferevent → bufferevent) : Prop := ∀ b,
  timeout_read (f b) = timeout_read b ∧ timeout_write (f b) = timeout_write b ∧
  rate_limiting (f b) = rate_limiting b ∧ bev_enabled (f b) = bev_enabled b ∧
  read_suspended (f b) = read_suspended b ∧ write_suspended (f b) = write_suspended b ∧
  connecting (f b) = connecting b.

Lemma invisible_ok X a f w : world_ok X w → invisible f → world_ok X (upd_bev a f w).
Proof.
  intros Hw Hf. apply upd_bev_ok; [done|]. intros b _ [B1 B2 B3 B4 B5].
  destruct (Hf b) as (E1 & E2 & E3 & E4 & E5 & E6 & E7). split; unfold may_write in *; rewrite ?E1, ?E2, ?E3, ?E4, ?E5, ?E6, ?E7; auto.
Qed.

(** ** Adding and deleting events *)

(** What changes when an event is added or deleted. *)
Definition same_store w w' : Prop := w_bevs w' = w_bevs w ∧ w_groups w' = w_groups w.

Lemma set_events_ok X w s' :
  world_ok X w → events_ok s' →
  (∀ a b, bev w a = Some b → bev_ok X s' a b) → world_ok X (set_events s' w).
Proof. intros [W1 W2 W3] Hs Hb. split; [done| |done]. intros a b Hab. by apply Hb. Qed.

Lemma w_del_ok X e w :
  world_ok X w →
  ens (w_del e w) (λ x, world_ok X (snd x) ∧ same_store w (snd x) ∧ is_pending (w_events (snd x)) e = false ∧
    ∀ e', e' ≠ e → is_pending (w_events (snd x)) e' = is_pending (w_events w) e').
Proof.
  intros Hw. unfold w_del. destruct (del_total (w_events w) e (wo_events _ _ Hw)) as (r & s' & -> & Hs & _ & Hp & Ho).
  rewrite bind_some_eq. cbn. split_and!; try done. apply set_events_ok; [done..|]. intros a b Hb.
  apply (bev_ok_fewer X (w_events w)); [by apply Hw|]. intros e' He'.
  destruct (decide (e' = e)) as [->|Hne]; [congruence|]. by rewrite <- Ho.
Qed.

Lemma w_add_ok X e tv w :
  world_ok X w → (∀ t, tv = Some t → tv_norm t) →
  (∀ a b, bev w a = Some b →
     (e = EvRead a → bev_enabled b &? EV_READ = true ∧ read_suspended b = 0) ∧
     (e = EvWrite a → may_write X a b)) →
  ens (w_add e tv w) (λ x, world_ok X (snd x) ∧ same_store w (snd x)).
Proof.
  intros Hw Htv Hb. unfold w_add.
  destruct (add_total (w_events w) e tv (wo_events _ _ Hw) Htv) as (r & s' & -> & Hs & _ & _ & _ & Ho).
  rewrite bind_some_eq. cbn. split; [|done]. apply set_events_ok; [done..|]. intros a b Hab.
  destruct (wo_bevs _ _ Hw a b Hab) as [B1 B2 B3 B4 B5]. destruct (Hb a b Hab) as [H1 H2]. split; try done.
  - intros Hp. destruct (decide (e = EvRead a)); [by apply H1|]. apply B4. by rewrite <- Ho.
  - intros Hp. destruct (decide (e = EvWrite a)); [by apply H2|]. apply B5. by rewrite <- Ho.
Qed.

Lemma w_remove_timer_ok X e w :
  world_ok X w → io_event e = true → ens (w_remove_timer e w) (λ x, world_ok X (snd x) ∧ same_store w (snd x)).
Proof.
  intros Hw He. unfold w_remove_timer.
  destruct (remove_timer_total (w_events w) e (wo_events _ _ Hw) He) as (r & s' & -> & Hs & Ho).
  rewrite bind_some_eq. cbn. split; [|done]. apply set_events_ok; [done..|]. intros a b Hab.
  apply (bev_ok_fewer X (w_events w)); [by apply Hw|]. intros e'. by rewrite Ho.
Qed.

Lemma add_event_ok X e tv w :
  world_ok X w → tv_norm tv →
  (∀ a b, bev w a = Some b →
     (e = EvRead a → bev_enabled b &? EV_READ = true ∧ read_suspended b = 0) ∧
     (e = EvWrite a → may_write X a b)) →
  ens (bufferevent_add_event_ e tv w) (λ x, world_ok X (snd x) ∧ same_store w (snd x)).
Proof.
  intros Hw Htv Hb. unfold bufferevent_add_event_. destruct (negb _); apply w_add_ok; try done.
  by intros t [= <-].
Qed.

(** ** The operations of a socket *)

Lemma be_socket_enable_ok X a event w :
  world_ok X w →
  (∀ b, bev w a = Some b →
     (event &? EV_READ = true → bev_enabled b &? EV_READ = true ∧ read_suspended b = 0) ∧
     (event &? EV_WRITE = true → may_write X a b)) →
  ens (be_socket_enable a event w) (λ x, world_ok X (snd x) ∧ same_store w (snd x)).
Proof.
  intros Hw Hb. unfold be_socket_enable. apply ens_lookup. intros b Hab.
  destruct (Hb b Hab) as [Hr Hwr]. pose proof (wo_bevs _ _ Hw a b Hab) as [B1 B2 _ _ _].
  apply ens_bind with (λ x, world_ok X (snd x) ∧ same_store w (snd x)).
  { destruct (event &? EV_READ); [|done]. apply add_event_ok; [done..|]. intros a' b' Hab'.
    split; [intros [= ->]|done]. replace b' with b by congruence. auto. }
  intros [r w1] [Hw1 [S1 S2]]. cbn [snd] in *. destruct (r =? -1); [done|].
  apply ens_bind with (λ x, world_ok X (snd x) ∧ same_store w (snd x)).
  { destruct (event &? EV_WRITE); [|done]. eapply ens_mono; [apply add_event_ok; [done..|]|].
    - intros a' b' Hab'. split; [done|]. intros [= ->]. unfold bev in *. rewrite S1 in Hab'.
      replace b' with b by congruence. auto.
    - intros x [Hx [T1 T2]]. split; [done|]. split; congruence. }
  intros [r2 w2] [Hw2 S]. destruct (r2 =? -1); done.
Qed.

Lemma be_socket_disable_ok X a event w :
  world_ok X w →
  ens (be_socket_disable a event w) (λ x, world_ok X (snd x) ∧ same_store w (snd x) ∧
    (event &? EV_READ = true → is_pending (w_events (snd x)) (EvRead a) = false) ∧
    (fst x = 0 ∨ event &? EV_READ = false → event &? EV_WRITE = true → (∀ b, bev w a = Some b → connecting b = false) →
     is_pending (w_events (snd x)) (EvWrite a) = false) ∧
    ∀ e, is_pending (w_events (snd x)) e = true → is_pending (w_events w) e = true).
Proof.
  intros Hw. unfold be_socket_disable. apply ens_lookup. intros b Hab.
  apply ens_bind with (λ x, world_ok X (snd x) ∧ same_store w (snd x) ∧
    (event &? EV_READ = true → is_pending (w_events (snd x)) (EvRead a) = false) ∧
    (event &? EV_READ = false → fst x = 0) ∧ ∀ e, is_pending (w_events (snd x)) e = true → is_pending (w_events w) e = true).
  { destruct (event &? EV_READ); [|done]. eapply ens_mono; [by apply w_del_ok|].
    intros x (Hx & S & Hp & Ho). split_and!; try done. intros e He.
    destruct (decide (e = EvRead a)) as [->|Hne]; [congruence|]. by rewrite <- Ho. }
  intros [r w1] (Hw1 & S & Hr & Hr0 & Ho). cbn [fst snd] in *. destruct (Z.eqb_spec r (-1)) as [->|Hr1].
  { cbn. split_and!; try done. intros [?|Hf]; [done|]. by specialize (Hr0 Hf). }
  assert (connecting b = false ∨ connecting b = true) as [Hc|Hc] by (destruct (connecting b); auto).
  - rewrite Hc, andb_true_r. destruct (event &? EV_WRITE) eqn:Hew; cycle 1.
    { rewrite bind_some_eq. cbn. split_and!; done. }
    apply ens_bind with (λ x, world_ok X (snd x) ∧ same_store w1 (snd x) ∧ is_pending (w_events (snd x)) (EvWrite a) = false ∧
      ∀ e', e' ≠ EvWrite a → is_pending (w_events (snd x)) e' = is_pending (w_events w1) e').
    { by apply w_del_ok. }
    intros [r2 w2] (Hw2 & S2 & Hp2 & Ho2). cbn [snd] in *.
    assert (same_store w w2) as Hss by (destruct S, S2; split; congruence).
    assert (∀ e, is_pending (w_events w2) e = true → is_pending (w_events w) e = true) as Hall.
    { intros e He. apply Ho. destruct (decide (e = EvWrite a)) as [->|Hne]; [congruence|]. by rewrite <- Ho2. }
    destruct (r2 =? -1); cbn [ens fst snd]; split_and!; try done; intros Hev; rewrite Ho2 by done; auto.
  - rewrite Hc, andb_false_r, bind_some_eq. cbn. split_and!; try done. intros _ _ Hcf. rewrite (Hcf b Hab) in Hc. done.
Qed.

(** ** Suspending and resuming *)

Lemma suspend_read_ok X a what w : world_ok X w → ens (bufferevent_suspend_read_ a what w) (world_ok X).
Proof.
  intros Hw. unfold bufferevent_suspend_read_. apply ens_lookup. intros b Hab.
  apply ens_bind with (λ w1, world_ok X w1 ∧ is_pending (w_events w1) (EvRead a) = false).
  { destruct (Z.eqb_spec (read_suspended b) 0) as [Hz|Hz].
    - eapply ens_bind; [by apply be_socket_disable_ok|]. intros [r w1] (Hw1 & _ & Hr & _). cbn in *. auto.
    - cbn. split; [done|]. destruct (is_pending _ _) eqn:Hp; [|done].
      by destruct (bv_read _ _ _ _ (wo_bevs _ _ Hw a b Hab) Hp). }
  intros w1 [Hw1 Hp]. cbn. apply upd_bev_ok; [done|]. intros b1 _ [B1 B2 B3 B4 B5].
  split; try done. intros Hp'. congruence.
Qed.


Lemma suspend_write_ok X a what w : world_ok X w → ens (bufferevent_suspend_write_ a what w) (world_ok X).
Proof.
  intros Hw. unfold bufferevent_suspend_write_. apply ens_lookup. intros b Hab.
  pose proof (wo_bevs _ _ Hw a b Hab) as [B1 B2 B3 B4 B5].
  apply ens_bind with (λ w1, world_ok X w1 ∧ same_store w w1 ∧
    (is_pending (w_events w1) (EvWrite a) = true → a ∈ X ∨ connecting b = true)).
  { destruct (Z.eqb_spec (write_suspended b) 0) as [Hz|Hz].
    - eapply ens_bind; [by apply be_socket_disable_ok|]. intros [r w1] (Hw1 & S & _ & Hd & _). cbn in *.
      split_and!; [done..|]. intros Hp. destruct (connecting b) eqn:Hc; [by right|]. rewrite Hd in Hp; try done; [by right|].
      intros b' Hb'. congruence.
    - cbn. split_and!; [done..|]. intros Hp. destruct (B5 Hp) as [?|[?|[_ ?]]]; auto. }
  intros w1 (Hw1 & [S1 S2] & Hp). cbn. apply upd_bev_ok; [done|]. intros b1 Hb1 [C1 C2 C3 C4 C5].
  split; try done. intros Hp'. unfold bev in *. rewrite S1 in Hb1. replace b1 with b in * by congruence.
  destruct (Hp Hp') as [?|?]; [by left|by right; left].
Qed.

Lemma unsuspend_read_ok X a what w : world_ok X w → ens (bufferevent_unsuspend_read_ a what w) (world_ok X).
Proof.
  intros Hw. unfold bufferevent_unsuspend_read_. apply ens_lookup. intros b Hab. cbv zeta.
  set (susp := Z.land (read_suspended b) _).
  assert (world_ok X (upd_bev a (set_read_suspended susp) w)) as Hw1.
  { apply upd_bev_ok; [done|]. intros b1 Hb1 [B1 B2 B3 B4 B5]. replace b1 with b in * by congruence.
    split; try done. intros Hp. destruct (B4 Hp) as [? Hz]. split; [done|]. cbn. unfold susp. by rewrite Hz. }
  destruct (Z.eqb_spec susp 0) as [Hz|Hz]; [|done]. destruct (bev_enabled b &? EV_READ) eqn:Hen; [|done]. cbn [andb].
  eapply ens_bind; [apply be_socket_enable_ok; [done|]|].
  - intros b1 Hb1. unfold bev, upd_bev in Hb1. cbn [w_bevs] in Hb1. rewrite lookup_alter_eq in Hb1.
    unfold bev in Hab. rewrite Hab in Hb1. injection Hb1 as <-. split; [done|]. by intros ?.
  - by intros [r w2] [? _].
Qed.

Lemma unsuspend_write_ok X a what w : world_ok X w → ens (bufferevent_unsuspend_write_ a what w) (world_ok X).
Proof.
  intros Hw. unfold bufferevent_unsuspend_write_. apply ens_lookup. intros b Hab. cbv zeta.
  set (susp := Z.land (write_suspended b) _).
  assert (world_ok X (upd_bev a (set_write_suspended susp) w)) as Hw1.
  { apply upd_bev_ok; [done|]. intros b1 Hb1 [B1 B2 B3 B4 B5]. replace b1 with b in * by congruence.
    split; try done. intros Hp. destruct (B5 Hp) as [?|[?|[? Hz]]]; [by left|by right; left|].
    right; right. split; [done|]. cbn. unfold susp. by rewrite Hz. }
  destruct (Z.eqb_spec susp 0) as [Hz|Hz]; [|done]. destruct (bev_enabled b &? EV_WRITE) eqn:Hen; [|done]. cbn [andb].
  eapply ens_bind; [apply be_socket_enable_ok; [done|]|].
  - intros b1 Hb1. unfold bev, upd_bev in Hb1. cbn [w_bevs] in Hb1. rewrite lookup_alter_eq in Hb1.
    unfold bev in Hab. rewrite Hab in Hb1. injection Hb1 as <-. split; [by intros ?|]. intros _. right; right. done.
  - by intros [r w2] [? _].
Qed.

(** ** References and callbacks *)

Lemma incref_ok X a w : world_ok X w → ens (bufferevent_incref a w) (world_ok X).
Proof. intros Hw. apply ens_lookup. intros b _. by apply invisible_ok. Qed.

Lemma w_del_ok' X e w : world_ok X w → ens (w_del e w) (λ x, world_ok X (snd x)).
Proof. intros Hw. eapply ens_mono; [by apply w_del_ok|]. by intros x [? _]. Qed.

Lemma decref_ok X a w : world_ok X w → ens (bufferevent_decref_and_unlock_ a w) (λ x, world_ok X (snd x)).
Proof.
  intros Hw. unfold bufferevent_decref_and_unlock_. apply ens_lookup. intros b _. unfold evassert.
  destruct (0 <? bev_refcnt b); [|done]. rewrite bind_some_eq. cbv zeta.
  assert (world_ok X (upd_bev a (set_bev_refcnt (bev_refcnt b - 1)) w)) as Hw1 by by apply invisible_ok.
  destruct (negb _); [done|].
  eapply ens_bind; [by apply w_del_ok'|]. intros [r1 w1] Hw2. eapply ens_bind; [by apply w_del_ok'|].
  intros [r2 w2] Hw3. eapply (ens_bind _ _ (λ x, world_ok X (snd x))).
  - destruct (rate_limiting b) as [rl|]; [|done]. destruct (rl_initialized rl); [|done]. by apply w_del_ok'.
  - intros [r3 w3] Hw4. by apply invisible_ok.
Qed.

Lemma schedule_ok X a w : world_ok X w → ens (SCHEDULE_DEFERRED a w) (world_ok X).
Proof.
  intros Hw. apply ens_lookup. intros b _. destruct (deferred_scheduled b); [done|].
  by apply incref_ok, invisible_ok.
Qed.

(** The user's callbacks keep the invariant. *)
Context (user_ok : ∀ X c w, world_ok X w → world_ok X (user c w)).

Lemma run_readcb_ok X a o w : world_ok X w → ens (bufferevent_run_readcb_ user a o w) (world_ok X).
Proof.
  intros Hw. apply ens_lookup. intros b _. destruct (_ =? 0); [done|]. destruct (_ &? _); [|by apply user_ok].
  by apply schedule_ok, invisible_ok.
Qed.

Lemma run_writecb_ok X a o w : world_ok X w → ens (bufferevent_run_writecb_ user a o w) (world_ok X).
Proof.
  intros Hw. apply ens_lookup. intros b _. destruct (_ =? 0); [done|]. destruct (_ &? _); [|by apply user_ok].
  by apply schedule_ok, invisible_ok.
Qed.

Lemma run_eventcb_ok X a err what o w : world_ok X w → ens (bufferevent_run_eventcb_ user a err what o w) (world_ok X).
Proof.
  intros Hw. apply ens_lookup. intros b _. destruct (_ =? 0); [done|]. destruct (_ &? _); [|by apply user_ok].
  by apply schedule_ok, invisible_ok.
Qed.

Lemma trigger_nolock_ok X a io o w : world_ok X w → ens (bufferevent_trigger_nolock_ user a io o w) (world_ok X).
Proof.
  intros Hw. apply ens_lookup. intros b _. eapply (ens_bind _ _ (world_ok X)).
  - destruct (_ && _); [by apply run_readcb_ok|done].
  - intros w1 Hw1. apply ens_lookup. intros b1 _. destruct (_ && _); [by apply run_writecb_ok|done].
Qed.

Lemma trigger_ok X a io o w : world_ok X w → ens (bufferevent_trigger user a io o w) (world_ok X).
Proof.
  intros Hw. eapply ens_bind; [by apply incref_ok|]. intros w1 Hw1. eapply ens_bind; [by apply trigger_nolock_ok|].
  intros w2 Hw2. eapply ens_bind; [by apply decref_ok|]. by intros [r w3].
Qed.

Lemma trigger_event_ok X a err what o w : world_ok X w → ens (bufferevent_trigger_event user a err what o w) (world_ok X).
Proof.
  intros Hw. eapply ens_bind; [by apply incref_ok|]. intros w1 Hw1. eapply ens_bind; [by apply run_eventcb_ok|].
  intros w2 Hw2. eapply ens_bind; [by apply decref_ok|]. by intros [r w3].
Qed.

Lemma deferred_callbacks_ok X a w : world_ok X w → ens (bufferevent_run_deferred_callbacks_locked user a w) (world_ok X).
Proof.
  intros Hw. eapply (ens_bind _ _ (world_ok X)).
  { apply ens_lookup. intros b _. assert (world_ok X (upd_bev a (set_deferred_scheduled false) w)) as Hw0 by by apply invisible_ok.
    destruct (_ && _); [|done]. by apply user_ok, invisible_ok. }
  intros w1 Hw1. eapply (ens_bind _ _ (world_ok X)).
  { apply ens_lookup. intros b _. destruct (_ && _); [|done]. by apply user_ok, invisible_ok. }
  intros w2 Hw2. eapply (ens_bind _ _ (world_ok X)).
  { apply ens_lookup. intros b _. destruct (_ && _); [|done]. by apply user_ok, invisible_ok. }
  intros w3 Hw3. eapply (ens_bind _ _ (world_ok X)).
  { apply ens_lookup. intros b _. destruct (_ && _); [|done]. by apply user_ok, invisible_ok. }
  intros w4 Hw4. eapply ens_bind; [by apply decref_ok|]. by intros [r w5].
Qed.

Lemma setcb_ok X a c1 c2 c3 arg w : world_ok X w → ens (bufferevent_setcb a c1 c2 c3 arg w) (world_ok X).
Proof. intros Hw. apply ens_lookup. intros b _. by apply invisible_ok. Qed.

Lemma free_ok X a w : world_ok X w → ens (bufferevent_free a w) (world_ok X).
Proof.
  intros Hw. eapply ens_bind; [by apply setcb_ok|]. intros w1 Hw1. eapply ens_bind; [by apply decref_ok|]. by intros [r w2].
Qed.

(** ** Callbacks on the buffers *)

Lemma inbuf_wm_cb_ok X a w : world_ok X w → ens (bufferevent_inbuf_wm_cb a w) (world_ok X).
Proof.
  intros Hw. apply ens_lookup. intros b _. destruct (_ <=? _); [by apply suspend_read_ok|by apply unsuspend_read_ok].
Qed.

Lemma outbuf_cb_ok X a info w : world_ok X w → ens (bufferevent_socket_outbuf_cb a info w) (world_ok X).
Proof.
  intros Hw. apply ens_lookup. intros b Hab. destruct (_ && _) eqn:Hc; [|done].
  rewrite !andb_true_iff in Hc. destruct Hc as [[[_ Hen] _] Hs%Z.eqb_eq].
  eapply ens_bind; [apply add_event_ok; [done|apply (wo_bevs _ _ Hw a b Hab)|]|by intros [r w1] [? _]].
  intros a' b' Hab'. split; [done|]. intros [= ->]. replace b' with b by congruence. by right; right.
Qed.

Lemma buffer_calls_ok X l w : world_ok X w → ens (buffer_calls user l w) (world_ok X).
Proof.
  revert w. induction l as [|c l IH]; intros w Hw; [done|]. cbn [buffer_calls]. eapply (ens_bind _ _ (world_ok X)); [|auto].
  destruct c as [f info arg|f o n arg]; cbn [buffer_call]; [|by apply user_ok].
  destruct (f =? INBUF_WM_CB); [by apply inbuf_wm_cb_ok|]. destruct (f =? OUTBUF_CB); [by apply outbuf_cb_ok|].
  by apply user_ok.
Qed.

Lemma run_input_calls_ok X a w : world_ok X w → ens (run_input_calls user a w) (world_ok X).
Proof. intros Hw. apply ens_lookup. intros b _. by apply buffer_calls_ok, invisible_ok. Qed.
Lemma run_output_calls_ok X a w : world_ok X w → ens (run_output_calls user a w) (world_ok X).
Proof. intros Hw. apply ens_lookup. intros b _. by apply buffer_calls_ok, invisible_ok. Qed.

(** ** Enabling, timeouts and watermarks *)

Lemma bev_upd a f w b : bev (upd_bev a f w) a = Some b → ∃ b0, bev w a = Some b0 ∧ b = f b0.
Proof.
  unfold bev, upd_bev. cbn [w_bevs]. rewrite lookup_alter_eq. destruct (w_bevs w !! a) as [b0|]; [|done].
  intros [= <-]. eauto.
Qed.

Lemma clear_read x y : Z.land x (Z.lnot y) &? EV_READ = (x &? EV_READ) && negb (y &? EV_READ).
Proof. apply (flag_land_lnot x y 1). lia. Qed.
Lemma clear_write x y : Z.land x (Z.lnot y) &? EV_WRITE = (x &? EV_WRITE) && negb (y &? EV_WRITE).
Proof. apply (flag_land_lnot x y 2). lia. Qed.

Lemma enable_ok X a event w : world_ok X w → ens (bufferevent_enable a event w) (λ x, world_ok X (snd x)).
Proof.
  intros Hw. eapply ens_bind; [by apply incref_ok|]. intros w1 Hw1. apply ens_lookup. intros b Hb. cbv zeta.
  set (w2 := upd_bev a _ w1).
  assert (world_ok X w2) as Hw2.
  { apply upd_bev_ok; [done|]. intros b0 _ [B1 B2 B3 B4 B5]. split; try done; cbn [bev_enabled set_bev_enabled].
    - intros Hp. destruct (B4 Hp) as [Hen ?]. split; [|done]. cbn. rewrite flag_lor, Hen. done.
    - intros Hp. unfold may_write in *. cbn. rewrite flag_lor. destruct (B5 Hp) as [?|[?|[Hen ?]]]; [by left|by right; left|].
      right; right. by rewrite Hen. }
  set (impl := if negb (write_suspended b =? 0) then _ else _).
  assert ((impl &? EV_READ = true → event &? EV_READ = true ∧ read_suspended b = 0) ∧
          (impl &? EV_WRITE = true → event &? EV_WRITE = true ∧ write_suspended b = 0)) as [Hir Hiw].
  { unfold impl. destruct (Z.eqb_spec (read_suspended b) 0), (Z.eqb_spec (write_suspended b) 0); cbn [negb];
      rewrite ?clear_read, ?clear_write, ?clear_read, ?clear_write; cbn [negb]; rewrite ?andb_false_r, ?andb_true_r; auto; done. }
  eapply (ens_bind _ _ (λ x, world_ok X (snd x))).
  - destruct (negb (impl =? 0)); [|done]. eapply ens_mono; [apply be_socket_enable_ok; [done|]|by intros x [? _]].
    intros b2 Hb2. apply bev_upd in Hb2 as (b0 & Hb0 & ->). replace b0 with b by congruence.
    split; [intros [Hev Hs]%Hir|intros [Hev Hs]%Hiw; right; right]; cbn; rewrite flag_lor, Hev, orb_true_r; done.
  - intros [r w3] Hw3. eapply ens_bind; [by apply decref_ok|]. by intros [r' w4].
Qed.

(** A change of a buffered event and the deletion of its events commute. *)
Lemma disable_upd a event f w :
  (∀ b, connecting (f b) = connecting b) →
  be_socket_disable a event (upd_bev a f w) = '(r, w) ← be_socket_disable a event w; Some (r, upd_bev a f w).
Proof.
  intros Hf. unfold be_socket_disable.
  assert (bev (upd_bev a f w) a = f <$> bev w a) as -> by (unfold bev; cbn; by rewrite lookup_alter_eq).
  destruct (bev w a) as [b|]; [|done]. cbn [fmap option_fmap option_map]. rewrite !bind_some_eq, Hf.
  assert (∀ e w, w_del e (upd_bev a f w) = '(r, w) ← w_del e w; Some (r, upd_bev a f w)) as Hd.
  { intros e w0. unfold w_del. cbn [w_events upd_bev]. by destruct (event_del (w_events w0) e) as [[r s']|]. }
  destruct (event &? EV_READ); rewrite ?Hd.
  - destruct (w_del (EvRead a) w) as [[r w1]|]; [|done]. rewrite !bind_some_eq. destruct (r =? -1); [done|].
    destruct (_ && _); rewrite ?Hd; [|done]. destruct (w_del (EvWrite a) w1) as [[r2 w2]|]; [|done].
    rewrite !bind_some_eq. by destruct (r2 =? -1).
  - rewrite !bind_some_eq. cbn [Z.eqb]. destruct (_ && _); rewrite ?Hd; [|done].
    destruct (w_del (EvWrite a) w) as [[r2 w2]|]; [|done]. rewrite !bind_some_eq. by destruct (r2 =? -1).
Qed.

Lemma be_socket_disable_result a event w : ens (be_socket_disable a event w) (λ x, fst x = 0 ∨ fst x = -1).
Proof.
  apply ens_lookup. intros b _. apply ens_lookup. intros [r w1] _. destruct (r =? -1); [by right|].
  apply ens_lookup. intros [r2 w2] _. destruct (r2 =? -1); cbn; auto.
Qed.

(** Disabling one direction always works; for both, deleting the event for reading
    must not fail. *)
Lemma disable_ok X a event w :
  world_ok X w → ens (bufferevent_disable a event w)
    (λ x, event &? EV_READ = false ∨ event &? EV_WRITE = false ∨ fst x = 0 → world_ok X (snd x)).
Proof.
  intros Hw. apply ens_lookup. intros b Hab. rewrite disable_upd by done.
  pose proof (be_socket_disable_ok X a event w Hw) as Hd. pose proof (be_socket_disable_result a event w) as Hres.
  destruct (be_socket_disable a event w) as [[r w1]|]; [|done]. destruct Hd as (Hw1 & [S1 _] & Hr & Hwr & _).
  rewrite !bind_some_eq. cbn [ens fst snd] in *. intros Hcase.
  apply upd_bev_ok; [done|]. intros b0 Hb0 [B1 B2 B3 B4 B5]. unfold bev in *. rewrite S1 in Hb0. replace b0 with b in * by congruence.
  split; try done; unfold may_write in *; cbn [bev_enabled set_bev_enabled read_suspended write_suspended connecting].
  - intros Hp. destruct (B4 Hp) as [Hen Hs]. split; [|done]. rewrite clear_read, Hen.
    destruct (event &? EV_READ) eqn:Her; [|done]. by rewrite Hr in Hp.
  - intros Hp. destruct (B5 Hp) as [?|[?|[Hen Hs]]]; [by left|by right; left|].
    destruct (event &? EV_WRITE) eqn:Hew; cycle 1; [right; right; by rewrite clear_write, Hen, Hew|].
    destruct (connecting b) eqn:Hc; [by right; left|]. rewrite Hwr in Hp; [done| |done|].
    + destruct Hcase as [?|[?|Hr0]]; [by right|done|]. left. destruct Hres as [->| ->]; done.
    + intros b' Hb'. congruence.
Qed.

Lemma timeouts_upd_ok X a t1 t2 w :
  world_ok X w → tv_norm t1 → tv_norm t2 → world_ok X (upd_bev a (λ b, set_timeout_write t2 (set_timeout_read t1 b)) w).
Proof. intros Hw H1 H2. apply upd_bev_ok; [done|]. intros b _ [B1 B2 B3 B4 B5]. split; done. Qed.

Lemma adj_existing_ok X e tv w :
  world_ok X w → io_event e = true → tv_norm tv →
  ens (adj_existing_timeout e tv w) (λ x, world_ok X (snd x) ∧ same_store w (snd x)).
Proof.
  intros Hw Hio Htv. unfold adj_existing_timeout. destruct (is_pending (w_events w) e) eqn:Hp; [|done].
  destruct (evutil_timerisset tv).
  - eapply ens_bind; [apply add_event_ok; [done..|]|by intros [r w1]].
    intros a b Hab. destruct (wo_bevs _ _ Hw a b Hab) as [_ _ _ B4 B5]. split; intros ->; auto.
  - eapply ens_bind; [by apply w_remove_timer_ok|]. by intros [r w1].
Qed.

Lemma set_timeouts_ok X a tr tw w :
  world_ok X w → (∀ t, tr = Some t → tv_norm t) → (∀ t, tw = Some t → tv_norm t) →
  ens (bufferevent_set_timeouts a tr tw w) (λ x, world_ok X (snd x)).
Proof.
  intros Hw H1 H2. apply ens_lookup. intros b Hab.
  assert (∀ t, (∀ t', t = Some t' → tv_norm t') → tv_norm (default evutil_timerclear t)) as Hdef.
  { intros [t|] Ht; cbn; [auto|]. unfold tv_norm. cbn. lia. }
  pose proof (timeouts_upd_ok X a (default evutil_timerclear tr) (default evutil_timerclear tw) w Hw (Hdef _ H1) (Hdef _ H2)) as Hw1.
  set (w1 := upd_bev a _ w) in *. apply ens_lookup. intros b1 Hb1. destruct (wo_bevs _ _ Hw1 a b1 Hb1) as [B1 B2 _ _ _].
  eapply ens_bind; [by apply adj_existing_ok|]. intros [r2 w2] [Hw2 _].
  eapply ens_bind; [by apply adj_existing_ok|]. by intros [r3 w3] [Hw3 _].
Qed.

Lemma setwatermark_ok X a ok id events low high w :
  world_ok X w → ens (bufferevent_setwatermark a ok id events low high w) (world_ok X).
Proof.
  intros Hw. apply ens_lookup. intros b Hab. cbv zeta.
  set (w1 := if events &? EV_WRITE then _ else w).
  assert (world_ok X w1) as Hw1 by (unfold w1; destruct (events &? EV_WRITE); [by apply invisible_ok|done]).
  destruct (events &? EV_READ); [|done]. set (w2 := upd_bev a (λ b, set_wm_read_high _ _) w1).
  assert (world_ok X w2) as Hw2 by by apply invisible_ok.
  destruct (negb (high =? 0)).
  - eapply (ens_bind _ _ (world_ok X)).
    + destruct (_ =? 0); [|done]. apply ens_lookup. intros i _. by apply invisible_ok.
    + intros w3 Hw3. assert (world_ok X (upd_bev a (λ b, set_bev_input (evbuffer_cb_set_flags (read_watermarks_cb b)
        (Z.lor EVBUFFER_CB_ENABLED EVBUFFER_CB_NODEFER) (bev_input b)) b) w3)) by by apply invisible_ok.
      destruct (_ <=? _); [by apply suspend_read_ok|by apply unsuspend_read_ok].
  - apply unsuspend_read_ok. destruct (negb _); [by apply invisible_ok|done].
Qed.

(** ** Reading and writing *)

Lemma write_ok X a m d w : world_ok X w → ens (bufferevent_write user a m d w) (λ x, world_ok X (snd x)).
Proof.
  intros Hw. apply ens_lookup. intros b _. apply ens_lookup. intros [r o] _.
  eapply ens_bind; [by apply run_output_calls_ok, invisible_ok|]. done.
Qed.

Lemma write_buffer_ok X a ok buf w : world_ok X w → ens (bufferevent_write_buffer user a ok buf w) (λ x, world_ok X (snd x)).
Proof.
  intros Hw. apply ens_lookup. intros b _. apply ens_lookup. intros [[r o] buf'] _.
  eapply ens_bind; [by apply run_output_calls_ok, invisible_ok|]. done.
Qed.

Lemma read_ok X a n w : world_ok X w → ens (bufferevent_read user a n w) (λ x, world_ok X (snd x)).
Proof.
  intros Hw. apply ens_lookup. intros b _. apply ens_lookup. intros [[r d] i] _.
  eapply ens_bind; [by apply run_input_calls_ok, invisible_ok|]. done.
Qed.

Lemma read_buffer_ok X a ok buf w : world_ok X w → ens (bufferevent_read_buffer user a ok buf w) (λ x, world_ok X (snd x)).
Proof.
  intros Hw. apply ens_lookup. intros b _. apply ens_lookup. intros [[r buf'] i] _.
  eapply ens_bind; [by apply run_input_calls_ok, invisible_ok|]. done.
Qed.
End inv.
