(* ===== verification/BeventStep.v ===== *)
(** * Buffered events: every step keeps the invariant

    Rate limiting and the callbacks of sockets, and the theorem over all runs. *)

From S2P Require Import Prelude TimeVal EvMap TokenBucket BufferCore BufferMove Bevent RateLim BeventSock BeventInv.

Section step.
Context {E : Type} `{EventLaws E}.
Context (user : user_call → world E → world E).
Context (user_ok : ∀ X c w, world_ok X w → world_ok X (user c w)).
Context (now : timeval) (trylock : Z → bool) (fuel : nat).

Implicit Types (w : world E) (a g : Z) (X : gset Z).

Notation wok X := (λ x, world_ok X (snd x)).

(** ** Rate limiting *)

Lemma upd_rlim_ok X a f w :
  world_ok X w → (∀ rl p c, rl_cfg (f rl) = Some (p, c) → rl_cfg rl = Some (p, c)) → world_ok X (upd_rlim a f w).
Proof.
  intros Hw Hf. apply upd_bev_ok; [done|]. intros b _ [B1 B2 B3 B4 B5]. split; try done.
  intros rl p c. cbn. destruct (rate_limiting b) as [rl0|] eqn:Hrl; [|done]. cbn. intros [= <-] Hc. eauto.
Qed.

Lemma upd_limit_ok X a f w : world_ok X w → world_ok X (upd_limit a f w).
Proof. intros Hw. by apply upd_rlim_ok. Qed.

Lemma update_buckets_ok X a w : world_ok X w → ens (bufferevent_update_buckets now a w) (world_ok X).
Proof.
  intros Hw. apply ens_lookup. intros rl _. apply ens_lookup. intros [p c] _. apply ens_lookup. intros t _.
  cbn. destruct (negb _); [by apply upd_limit_ok|done].
Qed.

Lemma group_share_ok X is_write a g w : world_ok X w → ens (group_share is_write a g w) (wok X).
Proof.
  intros Hw. apply ens_lookup. intros gr _. destruct (GROUP_SUSPENDED is_write gr).
  - eapply (ens_bind _ _ (world_ok X)); [|done]. destruct is_write; [by apply suspend_write_ok|by apply suspend_read_ok].
  - destruct (_ =? 0); done.
Qed.

Lemma get_rlim_max_ok X a is_write w : world_ok X w → ens (bufferevent_get_rlim_max_ now a is_write w) (wok X).
Proof.
  intros Hw. apply ens_lookup. intros b _. cbv zeta. destruct (rate_limiting b) as [rl|]; [|done].
  eapply (ens_bind _ _ (wok X)).
  { destruct (rl_cfg rl); [|done]. eapply ens_bind; [by apply update_buckets_ok|]. intros w1 Hw1.
    apply ens_lookup. by intros rl1 _. }
  intros [m w1] Hw1. cbn [snd] in *. eapply (ens_bind _ _ (wok X)); [|by intros [m2 w2]].
  destruct (rl_group rl =? 0); [done|]. eapply ens_bind; [by apply group_share_ok|]. by intros [sh w2].
Qed.

Lemma suspend_members_ok X f l w :
  (∀ a w, world_ok X w → ens (f a w) (world_ok X)) → world_ok X w → ens (suspend_members trylock f l w) (world_ok X).
Proof.
  intros Hf. revert w. induction l as [|a l IH]; intros w Hw; [done|]. cbn [suspend_members].
  eapply (ens_bind _ _ (world_ok X)); [|auto]. destruct (trylock a); [by apply Hf|done].
Qed.

Lemma unsuspend_members_ok X f l again w :
  (∀ a w, world_ok X w → ens (f a w) (world_ok X)) → world_ok X w →
  ens (unsuspend_members trylock f l again w) (wok X).
Proof.
  intros Hf. revert again w. induction l as [|a l IH]; intros again w Hw; [done|]. cbn [unsuspend_members].
  destruct (trylock a); [|by apply IH]. eapply ens_bind; [by apply Hf|]. intros w1 Hw1. by apply IH.
Qed.

Lemma group_suspend_reading_ok X g w : world_ok X w → ens (bev_group_suspend_reading_ trylock g w) (world_ok X).
Proof.
  intros Hw. apply ens_lookup. intros gr _. apply suspend_members_ok; [|by apply upd_group_ok].
  intros. by apply suspend_read_ok.
Qed.
Lemma group_suspend_writing_ok X g w : world_ok X w → ens (bev_group_suspend_writing_ trylock g w) (world_ok X).
Proof.
  intros Hw. apply ens_lookup. intros gr _. apply suspend_members_ok; [|by apply upd_group_ok].
  intros. by apply suspend_write_ok.
Qed.

Lemma group_unsuspend_reading_ok X g w : world_ok X w → ens (bev_group_unsuspend_reading_ trylock fuel g w) (world_ok X).
Proof.
  intros Hw. apply ens_lookup. intros gr _. apply ens_lookup. intros [o s] _.
  eapply ens_bind; [apply (unsuspend_members_ok X); [intros; by apply unsuspend_read_ok|by apply upd_group_ok]|].
  intros [again w1] Hw1. by apply upd_group_ok.
Qed.
Lemma group_unsuspend_writing_ok X g w : world_ok X w → ens (bev_group_unsuspend_writing_ trylock fuel g w) (world_ok X).
Proof.
  intros Hw. apply ens_lookup. intros gr _. apply ens_lookup. intros [o s] _.
  eapply ens_bind; [apply (unsuspend_members_ok X); [intros; by apply unsuspend_write_ok|by apply upd_group_ok]|].
  intros [again w1] Hw1. by apply upd_group_ok.
Qed.

(** Adding a timer never breaks the invariant. *)
Lemma w_add_timer_ok X e tv w : world_ok X w → io_event e = false → tv_norm tv → ens (w_add e (Some tv) w) (wok X).
Proof.
  intros Hw He Htv. eapply ens_mono; [apply w_add_ok; [done|by intros t [= <-]|]|by intros x [? _]].
  intros a b _. split; intros ->; done.
Qed.

Lemma add_refill_ok X a w : world_ok X w → ens (add_refill a w) (wok X).
Proof.
  intros Hw. apply ens_lookup. intros rl Hrl. apply ens_lookup. intros [p c] Hc. apply w_add_timer_ok; [done..|].
  unfold rlim in Hrl. destruct (bev w a) as [b|] eqn:Hb; [|done]. eapply (bv_tick _ _ _ _ (wo_bevs _ _ Hw a b Hb)); eauto.
Qed.

Lemma del_unless_ok X (c : bool) e w : world_ok X w →
  ens (if c then '(_, w) ← w_del e w; Some w else Some w) (world_ok X).
Proof. intros Hw. destruct c; [|done]. eapply ens_bind; [by apply w_del_ok'|]. by intros [r w1]. Qed.

Lemma own_read_ok X a n w : world_ok X w → ens (decrement_own_read a n w) (wok X).
Proof.
  intros Hw. unfold decrement_own_read. cbv zeta.
  pose proof (upd_limit_ok X a (λ l, ev_token_bucket_decrement_read l n) w Hw) as Hw1. set (w1 := upd_limit _ _ w) in *.
  apply ens_lookup. intros b _. apply ens_lookup. intros rl _. destruct (_ <=? 0).
  - eapply ens_bind; [by apply suspend_read_ok|]. intros w2 Hw2. eapply ens_bind; [by apply add_refill_ok|]. by intros [r w3].
  - destruct (_ &? _); [|done]. eapply ens_bind; [by apply (del_unless_ok X)|]. intros w2 Hw2.
    eapply ens_bind; [by apply unsuspend_read_ok|]. done.
Qed.

Lemma own_write_ok X a n w : world_ok X w → ens (decrement_own_write a n w) (wok X).
Proof.
  intros Hw. unfold decrement_own_write. cbv zeta.
  pose proof (upd_limit_ok X a (λ l, ev_token_bucket_decrement_write l n) w Hw) as Hw1. set (w1 := upd_limit _ _ w) in *.
  apply ens_lookup. intros b _. apply ens_lookup. intros rl _. destruct (_ <=? 0).
  - eapply ens_bind; [by apply suspend_write_ok|]. intros w2 Hw2. eapply ens_bind; [by apply add_refill_ok|]. by intros [r w3].
  - destruct (_ &? _); [|done]. eapply ens_bind; [by apply (del_unless_ok X)|]. intros w2 Hw2.
    eapply ens_bind; [by apply unsuspend_write_ok|]. done.
Qed.

Lemma group_read_ok X g n w : world_ok X w → ens (decrement_group_read trylock fuel g n w) (world_ok X).
Proof.
  intros Hw. unfold decrement_group_read. cbv zeta. set (w1 := upd_group g _ w).
  assert (world_ok X w1) as Hw1 by by apply upd_group_ok. apply ens_lookup. intros gr _.
  destruct (_ <=? 0); [by apply group_suspend_reading_ok|]. destruct (g_read_suspended gr); [by apply group_unsuspend_reading_ok|done].
Qed.
Lemma group_write_ok X g n w : world_ok X w → ens (decrement_group_write trylock fuel g n w) (world_ok X).
Proof.
  intros Hw. unfold decrement_group_write. cbv zeta. set (w1 := upd_group g _ w).
  assert (world_ok X w1) as Hw1 by by apply upd_group_ok. apply ens_lookup. intros gr _.
  destruct (_ <=? 0); [by apply group_suspend_writing_ok|]. destruct (g_write_suspended gr); [by apply group_unsuspend_writing_ok|done].
Qed.

Lemma decrement_read_ok X a n w : world_ok X w → ens (bufferevent_decrement_read_buckets_ trylock fuel a n w) (wok X).
Proof.
  intros Hw. apply ens_lookup. intros b _. destruct (rate_limiting b) as [rl|]; [|done].
  eapply (ens_bind _ _ (wok X)); [destruct (rl_cfg rl); [by apply own_read_ok|done]|]. intros [r w1] Hw1.
  eapply (ens_bind _ _ (world_ok X)); [destruct (_ =? 0); [done|by apply group_read_ok]|done].
Qed.
Lemma decrement_write_ok X a n w : world_ok X w → ens (bufferevent_decrement_write_buckets_ trylock fuel a n w) (wok X).
Proof.
  intros Hw. apply ens_lookup. intros b _. destruct (rate_limiting b) as [rl|]; [|done].
  eapply (ens_bind _ _ (wok X)); [destruct (rl_cfg rl); [by apply own_write_ok|done]|]. intros [r w1] Hw1.
  eapply (ens_bind _ _ (world_ok X)); [destruct (_ =? 0); [done|by apply group_write_ok]|done].
Qed.

Lemma refill_direction_ok X is_write susp lim again a w : world_ok X w → ens (refill_direction is_write susp lim again a w) (wok X).
Proof.
  intros Hw. unfold refill_direction. destruct (_ &? _); [|done]. destruct (_ <? _); [|done].
  eapply (ens_bind _ _ (world_ok X)); [|done]. destruct is_write; [by apply unsuspend_write_ok|by apply unsuspend_read_ok].
Qed.

Lemma refill_callback_ok X a w : world_ok X w → ens (bev_refill_callback_ now a w) (world_ok X).
Proof.
  intros Hw. apply ens_lookup. intros b _. destruct (rate_limiting b) as [rl|]; [|done].
  destruct (rl_cfg rl) as [[p c]|]; [|done]. apply ens_lookup. intros t _. cbv zeta.
  pose proof (upd_limit_ok X a (λ l, snd (ev_token_bucket_update_ c t l)) w Hw) as Hw1. set (w1 := upd_limit _ _ w) in *.
  apply ens_lookup. intros rl1 _. eapply ens_bind; [by apply refill_direction_ok|]. intros [ag w2] Hw2.
  eapply ens_bind; [by apply refill_direction_ok|]. intros [ag2 w3] Hw3. destruct ag2; [|done].
  eapply ens_bind; [by apply add_refill_ok|]. by intros [r w4].
Qed.

Lemma group_refill_ok X g w : world_ok X w → ens (bev_group_refill_callback_ now trylock fuel g w) (world_ok X).
Proof.
  intros Hw. apply ens_lookup. intros gr _. apply ens_lookup. intros t _. cbv zeta. set (w1 := upd_group g _ w).
  assert (world_ok X w1) as Hw1 by by apply upd_group_ok. apply ens_lookup. intros gr1 _.
  eapply (ens_bind _ _ (world_ok X)); [destruct (_ || _); [by apply group_unsuspend_reading_ok|done]|].
  intros w2 Hw2. apply ens_lookup. intros gr2 _. destruct (_ || _); [by apply group_unsuspend_writing_ok|done].
Qed.

Lemma resume_or_suspend_ok X is_write lim a w : world_ok X w → ens (resume_or_suspend is_write lim a w) (wok X).
Proof.
  intros Hw. unfold resume_or_suspend. destruct (0 <? lim); (eapply (ens_bind _ _ (world_ok X)); [|done]); destruct is_write.
  - by apply unsuspend_write_ok.
  - by apply unsuspend_read_ok.
  - by apply suspend_write_ok.
  - by apply suspend_read_ok.
Qed.

Lemma set_rate_limit_ok X a ok cfg w :
  world_ok X w → (∀ p c, cfg = Some (p, c) → tv_norm (tick_timeout c)) →
  ens (bufferevent_set_rate_limit now a ok cfg w) (wok X).
Proof.
  intros Hw Hcfg. apply ens_lookup. intros b Hab. destruct cfg as [[p c]|]; cycle 1.
  { destruct (rate_limiting b) as [rl|]; [|done]. cbv zeta.
    assert (world_ok X (upd_rlim a (set_rl_cfg None) w)) as Hw1 by by apply upd_rlim_ok.
    eapply ens_bind; [by apply unsuspend_read_ok|]. intros w2 Hw2. eapply ens_bind; [by apply unsuspend_write_ok|].
    intros w3 Hw3. eapply ens_bind; [by apply (del_unless_ok X)|]. done. }
  apply ens_lookup. intros t _. cbv zeta. destruct (bool_decide _); [done|].
  destruct (match rate_limiting b with Some rl => Some rl | None => _ end) as [rl|]; [|done].
  set (reinit := match rate_limiting b ≫= rl_cfg with Some _ => true | None => false end).
  set (limit := ev_token_bucket_init_ c t reinit (rl_limit rl)). set (w1 := upd_bev a _ w).
  assert (world_ok X w1) as Hw1.
  { apply upd_bev_ok; [done|]. intros b0 _ [B1 B2 B3 B4 B5]. split; try done. intros rl0 p0 c0. cbn.
    intros [= <-]. cbn. intros [= <- <-]. by eapply Hcfg. }
  eapply (ens_bind _ _ (world_ok X)).
  { destruct reinit; [|done]. unfold evassert. destruct (rl_initialized rl); [|done]. rewrite bind_some_eq.
    apply (del_unless_ok X true). done. }
  intros w2 Hw2. assert (world_ok X (upd_rlim a (set_rl_initialized true) w2)) as Hw3 by by apply upd_rlim_ok.
  eapply ens_bind; [by apply resume_or_suspend_ok|]. intros [s1 w4] Hw4.
  eapply ens_bind; [by apply resume_or_suspend_ok|]. intros [s2 w5] Hw5. eapply (ens_bind _ _ (world_ok X)); [|done].
  destruct (s1 || s2); [|done]. eapply ens_bind; [apply (w_add_timer_ok X); [done|done|by eapply Hcfg]|]. by intros [r w6].
Qed.

Lemma group_min_share_ok X g share w :
  world_ok X w → ens (bufferevent_rate_limit_group_set_min_share g share w) (wok X).
Proof.
  intros Hw. apply ens_lookup. intros gr Hg. unfold set_min_share.
  destruct (EV_SSIZE_MAX <? share); cbn; apply upd_group_ok; try done; intros gr0 _; cbn; by eapply (wo_groups _ _ Hw).
Qed.

Lemma group_new_ok X g ok seed cfg w :
  world_ok X w → tv_norm (tick_timeout cfg) → ens (bufferevent_rate_limit_group_new now g ok seed cfg w) (wok X).
Proof.
  intros Hw Hc. apply ens_lookup. intros t _. destruct (negb ok); [done|]. cbv zeta.
  eapply ens_bind; [apply (w_add_timer_ok X); [|done|done]|].
  { destruct Hw as [W1 W2 W3]. split; [done|done|]. intros g' gr'. unfold group. cbn [w_groups].
    rewrite lookup_insert. destruct (decide _); [by intros [= <-]|apply W3]. }
  intros [r w1] Hw1. eapply ens_bind; [by apply group_min_share_ok|]. intros [r2 w2] Hw2. by apply upd_group_ok.
Qed.

Lemma group_set_cfg_ok X g cfg w :
  world_ok X w → tv_norm (tick_timeout cfg) → ens (bufferevent_rate_limit_group_set_cfg g cfg w) (wok X).
Proof.
  intros Hw Hc. apply ens_lookup. intros gr _. cbv zeta. set (w1 := upd_group g _ w).
  assert (world_ok X w1) as Hw1 by by apply upd_group_ok. eapply (ens_bind _ _ (world_ok X)).
  { destruct (negb _); [|done]. eapply ens_bind; [by apply (w_add_timer_ok X)|]. by intros [r w2]. }
  intros w2 Hw2. eapply ens_bind; [by apply group_min_share_ok|]. by intros [r w3].
Qed.

Lemma group_free_ok X g w : world_ok X w → ens (bufferevent_rate_limit_group_free g w) (world_ok X).
Proof.
  intros Hw. apply ens_lookup. intros gr _. unfold evassert. destruct (_ =? 0); [|done]. rewrite bind_some_eq.
  eapply ens_bind; [by apply w_del_ok'|]. intros [r w1] [W1 W2 W3]. split; [done|done|]. intros g' gr'. unfold group.
  cbn [w_groups]. rewrite lookup_delete_Some. intros [_ Hg]. by eapply W3.
Qed.

Lemma leave_group_ok X a u w : world_ok X w → ens (bufferevent_remove_from_rate_limit_group_internal_ a u w) (world_ok X).
Proof.
  intros Hw. apply ens_lookup. intros b _. eapply (ens_bind _ _ (world_ok X)).
  { destruct (rate_limiting b) as [rl|]; [|done]. destruct (_ =? 0); [done|]. apply ens_lookup. intros gr _.
    apply ens_lookup. intros l _. apply upd_group_ok; [by apply upd_rlim_ok|done]. }
  intros w1 Hw1. destruct u; [|done]. eapply ens_bind; [by apply unsuspend_read_ok|]. intros w2 Hw2. by apply unsuspend_write_ok.
Qed.

Lemma add_to_group_ok X a g ok w : world_ok X w → ens (bufferevent_add_to_rate_limit_group a g ok w) (wok X).
Proof.
  intros Hw. apply ens_lookup. intros b _.
  assert (∀ rl w', (match rate_limiting b with Some rl => Some (rl, w) | None => if ok then
     let rl := set_rl_initialized true new_rlim in Some (rl, upd_bev a (set_rate_limiting (Some rl)) w) else None end) = Some (rl, w') →
     world_ok X w') as Hrl.
  { intros rl w'. destruct (rate_limiting b); [by intros [= <- <-]|]. destruct ok; [|done]. intros [= <- <-].
    apply upd_bev_ok; [done|]. intros b0 _ [B1 B2 B3 B4 B5]. split; try done. by intros rl0 p c [= <-]. }
  destruct (match rate_limiting b with Some rl => _ | None => _ end) as [[rl w1]|]; [|done].
  specialize (Hrl rl w1 eq_refl). destruct (_ =? g); [done|].
  eapply (ens_bind _ _ (world_ok X)); [destruct (_ =? 0); [done|by apply leave_group_ok]|]. intros w2 Hw2.
  eapply (ens_bind _ _ (world_ok X)); [|done]. apply ens_lookup. intros gr _. cbv zeta.
  set (w3 := upd_group g _ _). assert (world_ok X w3) as Hw3 by by apply upd_group_ok; [apply upd_rlim_ok|].
  eapply (ens_bind _ _ (world_ok X)); [destruct (g_read_suspended gr); [by apply suspend_read_ok|done]|]. intros w4 Hw4.
  destruct (g_write_suspended gr); [by apply suspend_write_ok|done].
Qed.

Lemma decrement_read_limit_ok X a n w : world_ok X w → ens (bufferevent_decrement_read_limit a n w) (wok X).
Proof.
  intros Hw. apply ens_lookup. intros b _. apply ens_lookup. intros rl _. apply ens_lookup. intros c _. cbv zeta.
  pose proof (upd_limit_ok X a (λ l, ev_token_bucket_decrement_read l n) w Hw) as Hw1. set (w1 := upd_limit _ _ w) in *.
  destruct (_ && _).
  - eapply ens_bind; [by apply suspend_read_ok|]. intros w2 Hw2. eapply ens_bind; [by apply add_refill_ok|]. by intros [r w3].
  - destruct (_ && _); [|done]. eapply ens_bind; [by apply (del_unless_ok X)|]. intros w2 Hw2.
    eapply ens_bind; [by apply unsuspend_read_ok|]. done.
Qed.
Lemma decrement_write_limit_ok X a n w : world_ok X w → ens (bufferevent_decrement_write_limit a n w) (wok X).
Proof.
  intros Hw. apply ens_lookup. intros b _. apply ens_lookup. intros rl _. apply ens_lookup. intros c _. cbv zeta.
  pose proof (upd_limit_ok X a (λ l, ev_token_bucket_decrement_write l n) w Hw) as Hw1. set (w1 := upd_limit _ _ w) in *.
  destruct (_ && _).
  - eapply ens_bind; [by apply suspend_write_ok|]. intros w2 Hw2. eapply ens_bind; [by apply add_refill_ok|]. by intros [r w3].
  - destruct (_ && _); [|done]. eapply ens_bind; [by apply (del_unless_ok X)|]. intros w2 Hw2.
    eapply ens_bind; [by apply unsuspend_write_ok|]. done.
Qed.

Lemma group_decrement_read_ok X g n w :
  world_ok X w → ens (bufferevent_rate_limit_group_decrement_read trylock fuel g n w) (wok X).
Proof.
  intros Hw. apply ens_lookup. intros gr _. cbv zeta. set (w1 := upd_group g _ w).
  assert (world_ok X w1) as Hw1 by by apply upd_group_ok. eapply (ens_bind _ _ (world_ok X)); [|done].
  destruct (_ && _); [by apply group_suspend_reading_ok|]. destruct (_ && _); [by apply group_unsuspend_reading_ok|done].
Qed.
Lemma group_decrement_write_ok X g n w :
  world_ok X w → ens (bufferevent_rate_limit_group_decrement_write trylock fuel g n w) (wok X).
Proof.
  intros Hw. apply ens_lookup. intros gr _. cbv zeta. set (w1 := upd_group g _ w).
  assert (world_ok X w1) as Hw1 by by apply upd_group_ok. eapply (ens_bind _ _ (world_ok X)); [|done].
  destruct (_ && _); [by apply group_suspend_writing_ok|]. destruct (_ && _); [by apply group_unsuspend_writing_ok|done].
Qed.

(** ** Sockets *)

Lemma io_error_ok X a event err what w :
  event = EV_READ ∨ event = EV_WRITE → world_ok X w → ens (io_error user a event err what w) (world_ok X).
Proof.
  intros Hev Hw. eapply ens_bind; [by apply (disable_ok X)|]. intros [r w1] Hw1. cbn [fst snd] in Hw1.
  apply run_eventcb_ok; [done|]. apply Hw1. destruct Hev as [-> | ->]; auto.
Qed.

Lemma read_input_ok X a ok fio rd n w : world_ok X w → ens (read_input user a ok fio rd n w) (wok X).
Proof.
  intros Hw. apply ens_lookup. intros b _. apply ens_lookup. intros [res i] _.
  eapply ens_bind; [by apply run_input_calls_ok; [|apply invisible_ok]|]. intros w1 Hw1. by apply invisible_ok.
Qed.

Lemma readcb_body_ok X a event ok fio rd err w :
  world_ok X w → ens (readcb_body user now trylock fuel a event ok fio rd err w) (world_ok X).
Proof.
  intros Hw. unfold readcb_body. destruct (event =? EV_TIMEOUT); [apply io_error_ok; auto|].
  apply ens_lookup. intros b _. cbv zeta. destruct (negb _ && _); [by apply suspend_read_ok|].
  eapply ens_bind; [by apply get_rlim_max_ok|]. intros [m w1] Hw1. cbn [snd] in Hw1. apply ens_lookup. intros b1 _.
  destruct (negb _); [done|]. eapply ens_bind; [by apply read_input_ok|]. intros [res w2] Hw2. cbn [snd] in Hw2.
  destruct (_ && _); [done|]. destruct (_ && _); [by apply invisible_ok|]. destruct (res <=? 0); [apply io_error_ok; auto|].
  eapply ens_bind; [by apply decrement_read_ok|]. intros [r w3] Hw3. by apply trigger_nolock_ok.
Qed.

Lemma readcb_ok X a event ok fio rd err w :
  world_ok X w → ens (bufferevent_readcb user now trylock fuel a event ok fio rd err w) (world_ok X).
Proof.
  intros Hw. eapply ens_bind; [by apply incref_ok|]. intros w1 Hw1. eapply ens_bind; [by apply readcb_body_ok|].
  intros w2 Hw2. eapply ens_bind; [by apply decref_ok|]. by intros [r w3].
Qed.

Lemma write_output_ok X a wr n w : world_ok X w → ens (write_output user a wr n w) (wok X).
Proof.
  intros Hw. apply ens_lookup. intros b _. apply ens_lookup. intros [res o] _.
  eapply ens_bind; [by apply run_output_calls_ok; [|apply invisible_ok]|]. intros w1 Hw1. by apply invisible_ok.
Qed.

Lemma del_if_drained_ok X a w : world_ok X w → ens (del_if_drained a w) (world_ok X).
Proof. intros Hw. apply ens_lookup. intros b _. by apply (del_unless_ok X). Qed.

Lemma writecb_write_ok X a conn wr err w :
  world_ok X w → ens (writecb_write user now trylock fuel a conn wr err w) (world_ok X).
Proof.
  intros Hw. eapply ens_bind; [by apply get_rlim_max_ok|]. intros [m w1] Hw1. cbn [snd] in Hw1. apply ens_lookup. intros b _.
  destruct (negb _); [done|]. eapply (ens_bind _ _ (wok X)); [destruct (_ =? 0); [done|by apply write_output_ok]|].
  intros [res w2] Hw2. cbn [snd] in Hw2. destruct (_ && _ && _); [by apply del_if_drained_ok|].
  destruct (_ && _); [apply io_error_ok; auto|]. eapply (ens_bind _ _ (world_ok X)).
  { destruct (_ =? 0); [done|]. eapply ens_bind; [by apply decrement_write_ok|]. by intros [r w3]. }
  intros w3 Hw3. eapply ens_bind; [by apply del_if_drained_ok|]. intros w4 Hw4.
  destruct (_ || _); [by apply trigger_nolock_ok|done].
Qed.

(** Entering and leaving the time in which a connection attempt is wound up. *)
Lemma world_ok_mono X X' w : world_ok X w → X ⊆ X' → world_ok X' w.
Proof.
  intros [W1 W2 W3] HX. split; [done| |done]. intros a b Hab. destruct (W2 a b Hab) as [B1 B2 B3 B4 B5]. split; try done.
  intros Hp. destruct (B5 Hp) as [?|[?|?]]; [left; set_solver|by right; left|by right; right].
Qed.

Lemma world_ok_leave X a w :
  world_ok ({[a]} ∪ X) w →
  (∀ b, bev w a = Some b → is_pending (w_events w) (EvWrite a) = true → may_write X a b) → world_ok X w.
Proof.
  intros [W1 W2 W3] Ha. split; [done| |done]. intros a' b Hab. destruct (W2 a' b Hab) as [B1 B2 B3 B4 B5]. split; try done.
  intros Hp. destruct (decide (a' = a)) as [->|Hne]; [by apply Ha|].
  destruct (B5 Hp) as [?|[?|?]]; [left; set_solver|by right; left|by right; right].
Qed.

Lemma del_write_leaves X a w :
  world_ok ({[a]} ∪ X) w → ens (w_del (EvWrite a) w) (wok X).
Proof.
  intros Hw. eapply ens_mono; [by apply w_del_ok|]. intros [r w1] (Hw1 & _ & Hp & _). cbn [snd] in *.
  apply (world_ok_leave X a); [done|]. intros b _ Hp'. congruence.
Qed.

Lemma connected_ok X a v w : world_ok X w → world_ok ({[a]} ∪ X) (upd_bev a (set_connecting v) w).
Proof.
  intros Hw. assert (world_ok ({[a]} ∪ X) w) as Hw1 by (apply (world_ok_mono X); [done|set_solver]).
  apply upd_bev_ok; [done|]. intros b _ [B1 B2 B3 B4 B5]. split; try done. intros _. left. set_solver.
Qed.

Lemma writecb_body_ok X a event c wr err w :
  world_ok X w → ens (writecb_body user now trylock fuel a event c wr err w) (world_ok X).
Proof.
  intros Hw. unfold writecb_body. destruct (event =? EV_TIMEOUT); [apply io_error_ok; auto|].
  apply ens_lookup. intros b _. destruct (connecting b); [|by apply writecb_write_ok]. cbv zeta.
  set (c' := if connection_refused b then -1 else c).
  assert (world_ok X (upd_bev a (set_connection_refused false) w)) as Hw1 by by apply invisible_ok.
  set (w1 := upd_bev a (set_connection_refused false) w) in *. destruct (c' =? 0); [done|].
  pose proof (connected_ok X a false w1 Hw1) as Hw2. set (w2 := upd_bev a _ w1) in *. destruct (c' <? 0).
  - eapply ens_bind; [by apply del_write_leaves|]. intros [r w3] Hw3. eapply ens_bind; [by apply w_del_ok'|].
    intros [r4 w4] Hw4. by apply run_eventcb_ok.
  - eapply ens_bind; [by apply run_eventcb_ok|]. intros w3 Hw3. apply ens_lookup. intros b3 Hb3.
    destruct (negb (bev_enabled b3 &? EV_WRITE) || negb (write_suspended b3 =? 0)) eqn:Hc.
    + eapply ens_bind; [by apply del_write_leaves|]. by intros [r w4].
    + apply orb_false_iff in Hc as [He%negb_false_iff Hs%negb_false_iff%Z.eqb_eq]. apply writecb_write_ok.
      apply (world_ok_leave X a); [done|]. intros b' Hb' _. replace b' with b3 by congruence. right; right. done.
Qed.

Lemma writecb_ok X a event c wr err w :
  world_ok X w → ens (bufferevent_writecb user now trylock fuel a event c wr err w) (world_ok X).
Proof.
  intros Hw. eapply ens_bind; [by apply incref_ok|]. intros w1 Hw1. eapply ens_bind; [by apply writecb_body_ok|].
  intros w2 Hw2. eapply ens_bind; [by apply decref_ok|]. by intros [r w3].
Qed.

Lemma socket_new_ok X a m id fd opts w :
  world_ok X w → is_pending (w_events w) (EvRead a) = false → is_pending (w_events w) (EvWrite a) = false →
  world_ok X (snd (bufferevent_socket_new a m id fd opts w)).
Proof.
  intros Hw Hr Hwr. unfold bufferevent_socket_new. destruct (negb _); [done|].
  destruct (bufferevent_init_common_ (later_mallocs 1 m) opts) as [b|] eqn:Hb; [|done]. cbv zeta. cbn [snd].
  destruct Hw as [W1 W2 W3]. split; [done| |done]. intros a' b'. unfold bev. cbn [w_bevs w_events].
  rewrite lookup_insert. destruct (decide (a = a')) as [<-|Hne]; [|apply W2]. intros [= <-].
  unfold bufferevent_init_common_ in Hb. apply bind_Some in Hb as (i & _ & Hb). apply bind_Some in Hb as (o & _ & Hb).
  revert Hb. case_match; [done|]. intros [= <-].
  split; cbn; unfold tv_norm; cbn; try lia; try congruence.
Qed.

Lemma setfd_ok X a fd w : world_ok X w → ens (be_socket_setfd a fd w) (world_ok X).
Proof.
  intros Hw. eapply ens_bind; [by apply w_del_ok'|]. intros [r1 w1] Hw1. eapply ens_bind; [by apply w_del_ok'|].
  intros [r2 w2] Hw2. apply ens_lookup. intros b _. cbv zeta. set (w3 := upd_bev a _ w2).
  assert (world_ok X w3) as Hw3 by by apply invisible_ok. destruct (0 <=? fd); [|done].
  eapply ens_bind; [by apply enable_ok|]. by intros [r w4].
Qed.

(** The event for writing is added before the flag [connecting] is set. *)
Lemma enable_write_ok X a w :
  world_ok X w →
  ens (be_socket_enable a EV_WRITE w) (λ x, world_ok ({[a]} ∪ X) (snd x) ∧ (fst x ≠ 0 → world_ok X (snd x))).
Proof.
  intros Hw. unfold be_socket_enable. apply ens_lookup. intros b Hab. change (EV_WRITE &? EV_READ) with false.
  cbv iota. rewrite bind_some_eq. cbv iota beta. change (EV_WRITE &? EV_WRITE) with true. change (0 =? -1) with false. cbv iota.
  assert (∃ tv, (∀ t, tv = Some t → tv_norm t) ∧ bufferevent_add_event_ (EvWrite a) (timeout_write b) w = w_add (EvWrite a) tv w)
    as (tv & Htv & ->).
  { unfold bufferevent_add_event_. destruct (negb _); eexists; (split; [|done]); [done|].
    intros t [= <-]. apply (wo_bevs _ _ Hw a b Hab). }
  unfold w_add. destruct (add_total (w_events w) (EvWrite a) tv (wo_events _ _ Hw) Htv) as (r & s' & -> & Hs & Hr & _ & Hf & Ho).
  rewrite !bind_some_eq. cbv iota beta.
  assert (world_ok ({[a]} ∪ X) (set_events s' w)) as Hw1.
  { apply set_events_ok; [by apply (world_ok_mono X); [|set_solver]|done|]. intros a' b' Hab'.
    destruct (wo_bevs _ _ Hw a' b' Hab') as [B1 B2 B3 B4 B5]. split; try done.
    - intros Hp. apply B4. by rewrite <- Ho.
    - intros Hp. destruct (decide (a' = a)) as [->|Hne]; [left; set_solver|].
      destruct B5 as [?|?]; [by rewrite <- Ho by congruence|left; set_solver|by right]. }
  destruct (Z.eqb_spec r (-1)) as [->|Hr1]; cbn; split; try done; intros _.
  apply (world_ok_leave X a); [done|]. intros b' Hb' Hp. cbn in Hp. rewrite Hf in Hp by done.
  by apply (bv_write _ _ _ _ (wo_bevs _ _ Hw a b' Hb')).
Qed.

Lemma set_connecting_ok X a w : world_ok ({[a]} ∪ X) w → world_ok X (upd_bev a (set_connecting true) w).
Proof.
  intros Hw. apply (world_ok_leave X a).
  - apply upd_bev_ok; [done|]. intros b _ [B1 B2 B3 B4 B5]. split; try done. intros _. by right; left.
  - intros b Hb _. apply bev_upd in Hb as (b0 & _ & ->). by right; left.
Qed.

Lemma disable_both_ok X a w :
  (∀ s e r s', event_del s e = Some (r, s') → r = 0) → world_ok X w →
  ens (bufferevent_disable a (Z.lor EV_WRITE EV_READ) w) (wok X).
Proof.
  intros Hdel Hw. pose proof (disable_ok X a (Z.lor EV_WRITE EV_READ) w Hw) as Hd.
  assert (ens (bufferevent_disable a (Z.lor EV_WRITE EV_READ) w) (λ x, fst x = 0)) as Hz.
  { apply ens_lookup. intros b _. eapply (ens_bind _ _ (λ x, fst x = 0)); [|by intros [r w1]; cbn; intros ->].
    apply ens_lookup. intros b' _.
    assert (∀ e w, ens (w_del e w) (λ x, fst x = 0)) as Hwd.
    { intros e w0. unfold w_del. destruct (event_del (w_events w0) e) as [[r s']|] eqn:Hr; [|done]. cbn. by eapply Hdel. }
    eapply ens_bind; [apply Hwd|]. intros [r w1] Hr. cbn in Hr. subst r. cbn [Z.eqb].
    change (0 =? -1) with false. cbv iota. eapply (ens_bind _ _ (λ x, fst x = 0)).
    - destruct (_ && _); [apply Hwd|done].
    - intros [r w2] Hr. cbn in Hr. subst r. done. }
  destruct (bufferevent_disable a (Z.lor EV_WRITE EV_READ) w) as [[r w1]|]; [|done]. cbn in *. auto.
Qed.

Lemma connect_ok X a sa sock r err w :
  r < 2 ∨ (∀ s e x s', event_del s e = Some (x, s') → x = 0) → world_ok X w →
  ens (bufferevent_socket_connect user a sa sock r err w) (wok X).
Proof.
  intros Hr Hw. eapply ens_bind; [by apply incref_ok|]. intros w1 Hw1. apply ens_lookup. intros b _. cbv zeta.
  eapply (ens_bind _ _ (wok X)); cycle 1.
  { intros [res w2] Hw2. eapply ens_bind; [by apply decref_ok|]. by intros [r' w3]. }
  destruct (_ && _); [done|]. set (r' := if sa then r else 0). destruct (Z.ltb_spec r' 0).
  { eapply ens_bind; [by apply run_eventcb_ok|]. done. }
  eapply ens_bind; [by apply setfd_ok|]. intros w2 Hw2. destruct (Z.eqb_spec r' 0) as [E0|E0].
  { eapply ens_bind; [by apply enable_write_ok|]. intros [e w3] [Hw3 Hw3']. cbn [fst snd] in *.
    destruct (Z.eqb_spec e 0); cbn; [by apply set_connecting_ok|auto]. }
  destruct (Z.eqb_spec r' 1) as [E1|E1].
  { eapply ens_bind; [apply trigger_nolock_ok; [done|]|done]. apply set_connecting_ok.
    apply (world_ok_mono X); [done|set_solver]. }
  eapply ens_bind; [by apply run_eventcb_ok|]. intros w3 Hw3. eapply (ens_bind _ _ (wok X)); [|by intros [r3 w4]].
  destruct Hr as [Hr|Hdel]; [|by apply disable_both_ok]. unfold r' in *. destruct sa; lia.
Qed.

Lemma connect_hostname_ok X a fam port w :
  world_ok X w → ens (bufferevent_socket_connect_hostname a fam port w) (wok X).
Proof.
  intros Hw. unfold bufferevent_socket_connect_hostname. destruct (negb fam); [done|]. destruct (_ || _); [done|].
  eapply ens_bind; [by apply suspend_write_ok|]. intros w1 Hw1. eapply ens_bind; [by apply suspend_read_ok|].
  intros w2 Hw2. eapply ens_bind; [by apply incref_ok|]. done.
Qed.

Lemma getaddrinfo_cb_ok X a canc res sock r err w :
  r < 2 ∨ (∀ s e x s', event_del s e = Some (x, s') → x = 0) → world_ok X w →
  ens (bufferevent_connect_getaddrinfo_cb user a canc res sock r err w) (world_ok X).
Proof.
  intros Hr Hw. eapply ens_bind; [by apply unsuspend_write_ok|]. intros w1 Hw1. eapply ens_bind; [by apply unsuspend_read_ok|].
  intros w2 Hw2. eapply (ens_bind _ _ (world_ok X)).
  { destruct canc; [done|]. destruct (negb _); [by apply run_eventcb_ok|].
    eapply ens_bind; [by apply (connect_ok X)|]. by intros [x w3]. }
  intros w3 Hw3. eapply ens_bind; [by apply decref_ok|]. by intros [x w4].
Qed.

Lemma finalize_ok X a w : world_ok X w → ens (bufferevent_finalize_cb_ a w) (wok X).
Proof.
  intros Hw. apply ens_lookup. intros b _. cbv zeta. eapply (ens_bind _ _ (world_ok X)).
  { destruct (rate_limiting b) as [rl|]; [|done]. destruct (_ =? 0); [done|by apply leave_group_ok]. }
  intros w1 [W1 W2 W3]. split; [done| |done]. intros a' b'. unfold bev. cbn [snd w_bevs].
  rewrite lookup_delete_Some. intros [_ Hb]. by apply W2.
Qed.

(** ** Runs *)

(** The steps of a store: calls of the program and callbacks of the base, with any
    arguments and any answers of the system.  Timeouts are normalised; to disable
    both directions at once, deleting events must succeed. *)
Inductive bev_step : world E → world E → Prop :=
  | S_new a m id fd o w :
      is_pending (w_events w) (EvRead a) = false → is_pending (w_events w) (EvWrite a) = false →
      bev_step w (snd (bufferevent_socket_new a m id fd o w))
  | S_setcb a c1 c2 c3 arg w w' : bufferevent_setcb a c1 c2 c3 arg w = Some w' → bev_step w w'
  | S_enable a ev w r w' : bufferevent_enable a ev w = Some (r, w') → bev_step w w'
  | S_disable a ev w r w' : ev &? EV_READ = false ∨ ev &? EV_WRITE = false ∨ r = 0 →
      bufferevent_disable a ev w = Some (r, w') → bev_step w w'
  | S_timeouts a t1 t2 w r w' : (∀ t, t1 = Some t → tv_norm t) → (∀ t, t2 = Some t → tv_norm t) →
      bufferevent_set_timeouts a t1 t2 w = Some (r, w') → bev_step w w'
  | S_watermark a ok id ev lo hi w w' : bufferevent_setwatermark a ok id ev lo hi w = Some w' → bev_step w w'
  | S_write a m d w r w' : bufferevent_write user a m d w = Some (r, w') → bev_step w w'
  | S_write_buffer a ok b w r b' w' : bufferevent_write_buffer user a ok b w = Some (r, b', w') → bev_step w w'
  | S_read a n w r d w' : bufferevent_read user a n w = Some (r, d, w') → bev_step w w'
  | S_read_buffer a ok b w r b' w' : bufferevent_read_buffer user a ok b w = Some (r, b', w') → bev_step w w'
  | S_trigger a io o w w' : bufferevent_trigger user a io o w = Some w' → bev_step w w'
  | S_trigger_event a e io o w w' : bufferevent_trigger_event user a e io o w = Some w' → bev_step w w'
  | S_deferred a w w' : bufferevent_run_deferred_callbacks_locked user a w = Some w' → bev_step w w'
  | S_incref a w w' : bufferevent_incref a w = Some w' → bev_step w w'
  | S_decref a w r w' : bufferevent_decref a w = Some (r, w') → bev_step w w'
  | S_free a w w' : bufferevent_free a w = Some w' → bev_step w w'
  | S_finalize a w l w' : bufferevent_finalize_cb_ a w = Some (l, w') → bev_step w w'
  | S_readcb a ev ok fio rd err w w' :
      bufferevent_readcb user now trylock fuel a ev ok fio rd err w = Some w' → bev_step w w'
  | S_writecb a ev c wr err w w' : bufferevent_writecb user now trylock fuel a ev c wr err w = Some w' → bev_step w w'
  | S_setfd a fd w w' : be_socket_setfd a fd w = Some w' → bev_step w w'
  | S_connect a sa sock c err w r w' : c < 2 ∨ (∀ s e x s', event_del s e = Some (x, s') → x = 0) →
      bufferevent_socket_connect user a sa sock c err w = Some (r, w') → bev_step w w'
  | S_connect_hostname a fam port w r w' :
      bufferevent_socket_connect_hostname a fam port w = Some (r, w') → bev_step w w'
  | S_getaddrinfo a canc res sock c err w w' : c < 2 ∨ (∀ s e x s', event_del s e = Some (x, s') → x = 0) →
      bufferevent_connect_getaddrinfo_cb user a canc res sock c err w = Some w' → bev_step w w'
  | S_set_rate_limit a ok cfg w r w' : (∀ p c, cfg = Some (p, c) → tv_norm (tick_timeout c)) →
      bufferevent_set_rate_limit now a ok cfg w = Some (r, w') → bev_step w w'
  | S_refill a w w' : bev_refill_callback_ now a w = Some w' → bev_step w w'
  | S_group_new g ok seed cfg w r w' : tv_norm (tick_timeout cfg) →
      bufferevent_rate_limit_group_new now g ok seed cfg w = Some (r, w') → bev_step w w'
  | S_group_set_cfg g cfg w r w' : tv_norm (tick_timeout cfg) →
      bufferevent_rate_limit_group_set_cfg g cfg w = Some (r, w') → bev_step w w'
  | S_group_free g w w' : bufferevent_rate_limit_group_free g w = Some w' → bev_step w w'
  | S_group_refill g w w' : bev_group_refill_callback_ now trylock fuel g w = Some w' → bev_step w w'
  | S_join a g ok w r w' : bufferevent_add_to_rate_limit_group a g ok w = Some (r, w') → bev_step w w'
  | S_leave a w w' : bufferevent_remove_from_rate_limit_group a w = Some w' → bev_step w w'
  | S_decrement_read a n w r w' : bufferevent_decrement_read_limit a n w = Some (r, w') → bev_step w w'
  | S_decrement_write a n w r w' : bufferevent_decrement_write_limit a n w = Some (r, w') → bev_step w w'
  | S_group_decrement_read g n w r w' :
      bufferevent_rate_limit_group_decrement_read trylock fuel g n w = Some (r, w') → bev_step w w'
  | S_group_decrement_write g n w r w' :
      bufferevent_rate_limit_group_decrement_write trylock fuel g n w = Some (r, w') → bev_step w w'.

Lemma ens_use {A} (m : option A) Q x : ens m Q → m = Some x → Q x.
Proof. intros Hm ->. done. Qed.

Lemma bev_step_ok X w w' : world_ok X w → bev_step w w' → world_ok X w'.
Proof.
  intros Hw. destruct 1 as
    [|a c1 c2 c3 arg w w' Hrun|a ev w r w' Hrun|a ev w r w' Hc Hrun|a t1 t2 w r w' H1 H2 Hrun|a ok id ev lo hi w w' Hrun
    |a m d w r w' Hrun|a ok b w r b' w' Hrun|a n w r d w' Hrun|a ok b w r b' w' Hrun|a io o w w' Hrun|a e io o w w' Hrun
    |a w w' Hrun|a w w' Hrun|a w r w' Hrun|a w w' Hrun|a w l w' Hrun|a ev ok fio rd err w w' Hrun|a ev c wr err w w' Hrun
    |a fd w w' Hrun|a sa sock c err w r w' Hc Hrun|a fam port w r w' Hrun|a canc res sock c err w w' Hc Hrun
    |a ok cfg w r w' Hc Hrun|a w w' Hrun|g ok seed cfg w r w' Hc Hrun|g cfg w r w' Hc Hrun|g w w' Hrun|g w w' Hrun
    |a g ok w r w' Hrun|a w w' Hrun|a n w r w' Hrun|a n w r w' Hrun|g n w r w' Hrun|g n w r w' Hrun].
  - by apply socket_new_ok.
  - apply (ens_use _ _ _ (setcb_ok X a c1 c2 c3 arg w Hw) Hrun).
  - apply (ens_use _ _ _ (enable_ok X a ev w Hw) Hrun).
  - apply (ens_use _ _ _ (disable_ok X a ev w Hw) Hrun Hc).
  - apply (ens_use _ _ _ (set_timeouts_ok X a t1 t2 w Hw H1 H2) Hrun).
  - apply (ens_use _ _ _ (setwatermark_ok X a ok id ev lo hi w Hw) Hrun).
  - apply (ens_use _ _ _ (write_ok user user_ok X a m d w Hw) Hrun).
  - apply (ens_use _ _ _ (write_buffer_ok user user_ok X a ok b w Hw) Hrun).
  - apply (ens_use _ _ _ (read_ok user user_ok X a n w Hw) Hrun).
  - apply (ens_use _ _ _ (read_buffer_ok user user_ok X a ok b w Hw) Hrun).
  - apply (ens_use _ _ _ (trigger_ok user user_ok X a io o w Hw) Hrun).
  - apply (ens_use _ _ _ (trigger_event_ok user user_ok X a e io o w Hw) Hrun).
  - apply (ens_use _ _ _ (deferred_callbacks_ok user user_ok X a w Hw) Hrun).
  - apply (ens_use _ _ _ (incref_ok X a w Hw) Hrun).
  - apply (ens_use _ _ _ (decref_ok X a w Hw) Hrun).
  - apply (ens_use _ _ _ (free_ok X a w Hw) Hrun).
  - apply (ens_use _ _ _ (finalize_ok X a w Hw) Hrun).
  - apply (ens_use _ _ _ (readcb_ok X a ev ok fio rd err w Hw) Hrun).
  - apply (ens_use _ _ _ (writecb_ok X a ev c wr err w Hw) Hrun).
  - apply (ens_use _ _ _ (setfd_ok X a fd w Hw) Hrun).
  - apply (ens_use _ _ _ (connect_ok X a sa sock c err w Hc Hw) Hrun).
  - apply (ens_use _ _ _ (connect_hostname_ok X a fam port w Hw) Hrun).
  - apply (ens_use _ _ _ (getaddrinfo_cb_ok X a canc res sock c err w Hc Hw) Hrun).
  - apply (ens_use _ _ _ (set_rate_limit_ok X a ok cfg w Hw Hc) Hrun).
  - apply (ens_use _ _ _ (refill_callback_ok X a w Hw) Hrun).
  - apply (ens_use _ _ _ (group_new_ok X g ok seed cfg w Hw Hc) Hrun).
  - apply (ens_use _ _ _ (group_set_cfg_ok X g cfg w Hw Hc) Hrun).
  - apply (ens_use _ _ _ (group_free_ok X g w Hw) Hrun).
  - apply (ens_use _ _ _ (group_refill_ok X g w Hw) Hrun).
  - apply (ens_use _ _ _ (add_to_group_ok X a g ok w Hw) Hrun).
  - apply (ens_use _ _ _ (leave_group_ok X a true w Hw) Hrun).
  - apply (ens_use _ _ _ (decrement_read_limit_ok X a n w Hw) Hrun).
  - apply (ens_use _ _ _ (decrement_write_limit_ok X a n w Hw) Hrun).
  - apply (ens_use _ _ _ (group_decrement_read_ok X g n w Hw) Hrun).
  - apply (ens_use _ _ _ (group_decrement_write_ok X g n w Hw) Hrun).
Qed.

End step.

Section runs.
Context {E : Type} `{EventLaws E}.

Implicit Types (w : world E) (user : user_call → world E → world E).

(** The callbacks of a program that call the operations themselves: those calls may run
    callbacks again, [n] deep. *)
Fixpoint user_calls (n : nat) user : Prop :=
  match n with
  | O => ∀ c w, user c w = w
  | S n => ∀ c w, ∃ user' now trylock fuel, user_calls n user' ∧ rtc (bev_step user' now trylock fuel) w (user c w)
  end.

Lemma run_ok user now trylock fuel X w w' :
  (∀ X c w, world_ok X w → world_ok X (user c w)) → world_ok X w → rtc (bev_step user now trylock fuel) w w' → world_ok X w'.
Proof. intros Hu Hw Hrun. induction Hrun as [|w1 w2 w3 Hs _ IH]; [done|]. apply IH. by eapply bev_step_ok. Qed.

Lemma user_calls_ok n : ∀ user, user_calls n user → ∀ X c w, world_ok X w → world_ok X (user c w).
Proof.
  induction n as [|n IH]; intros user Hu X c w Hw; cbn in Hu; [by rewrite Hu|].
  destruct (Hu c w) as (user' & now & trylock & fuel & Hu' & Hrun). eapply run_ok; [by apply IH|done|exact Hrun].
Qed.

(** C17. In every store of buffered events that is reached by the operations and
    callbacks of bufferevent_sock.c, bufferevent.c and bufferevent_ratelim.c that complete
    (creating, configuring, connecting, limiting, grouping, reading, writing, freeing, in
    any order, with any answers of the system, and user callbacks that call the operations
    again, nested to any depth), an event of a socket is registered only when it should
    be: the event for reading only while reading is enabled and nothing suspends it, and
    the event for writing only while a connection is being attempted, or writing is
    enabled and nothing suspends it.  In particular nothing is read from a socket whose
    input buffer has reached its high watermark or whose bandwidth is used up.  Timeouts
    are normalised.  Excluded is disabling both directions at once when deleting the event
    for reading fails, and a connection that fails at once in the same case: the code then
    leaves the event for writing registered. *)
Theorem registered_only_when_wanted n user now trylock fuel w w' :
  user_calls n user → world_ok ∅ w → rtc (bev_step user now trylock fuel) w w' →
  world_ok ∅ w' ∧
  ∀ a b, bev w' a = Some b →
    (is_pending (w_events w') (EvRead a) = true → bev_enabled b &? EV_READ = true ∧ read_suspended b = 0) ∧
    (is_pending (w_events w') (EvWrite a) = true →
     connecting b = true ∨ bev_enabled b &? EV_WRITE = true ∧ write_suspended b = 0).
Proof.
  intros Hu Hw Hrun. pose proof (run_ok _ _ _ _ _ _ _ (user_calls_ok n user Hu) Hw Hrun) as Hw'.
  split; [done|]. intros a b Hab. destruct (wo_bevs _ _ Hw' a b Hab) as [_ _ _ B4 B5]. split; [done|].
  intros Hp. destruct (B5 Hp) as [?|?]; [set_solver|done].
Qed.
End runs.
