(* ===== verification/RateLimProps.v ===== *)
(** * Rate limiting: what is suspended resumes, and groups are treated fairly *)

From S2P Require Import Prelude TimeVal EvMap TokenBucket BufferCore BufferMove Bevent RateLim BeventSock BeventInv BeventStep.

(** ** The rejection loop ends *)

Lemma weakrand_mod seed : evutil_weakrand_ seed = (seed * 1103515245 + 12345) `mod` 2 ^ 31.
Proof.
  unfold evutil_weakrand_, u32. change 2147483647 with (Z.ones 31). rewrite Z.land_ones by lia.
  rewrite Z.mod_mod_divide by (by exists 2). rewrite <- Z.add_mod_idemp_l by lia.
  rewrite Z.mod_mod_divide by (by exists 2). by rewrite Z.add_mod_idemp_l by lia.
Qed.

(** The draws without the reduction, and [2 ^ k] of them: an affine function. *)
Definition draw (x : Z) : Z := x * 1103515245 + 12345.

Lemma draws_affine k : ∃ t u, ∀ x, Nat.iter (2 ^ k) draw x = x * (1 + 2 ^ (Z.of_nat k + 2) * t) + 2 ^ Z.of_nat k * (1 + 2 * u).
Proof.
  induction k as [|k (t & u & IH)]; [exists 275878811, 6172; intros x; unfold draw; cbn; lia|].
  set (P := 2 ^ Z.of_nat k) in *. rewrite Z.pow_add_r in IH by lia. change (2 ^ 2) with 4 in IH. fold P in IH.
  exists (t + 2 * P * t * t), (u + P * t * (1 + 2 * u)). intros x.
  replace (2 ^ S k)%nat with (2 ^ k + 2 ^ k)%nat by (cbn; lia). rewrite Nat.iter_add, !IH.
  replace (Z.of_nat (S k)) with (Z.of_nat k + 1) by lia. rewrite !Z.pow_add_r by lia. fold P. change (2 ^ 1) with 2. change (2 ^ 2) with 4. lia.
Qed.

(** Every remainder is drawn: the generator reaches 0. *)
Lemma draws_reach_zero x k : ∃ n, (1 <= n <= 2 ^ k)%nat ∧ Nat.iter n draw x `mod` 2 ^ Z.of_nat k = 0.
Proof.
  revert x. induction k as [|k IH]; intros x; [exists 1%nat; by rewrite Z.mod_1_r|].
  destruct (IH x) as (n & Hn & Hz). set (P := 2 ^ Z.of_nat k) in *. assert (HP : 0 < P) by (apply Z.pow_pos_nonneg; lia).
  replace (2 ^ Z.of_nat (S k)) with (2 * P) by (unfold P; rewrite Nat2Z.inj_succ, Z.pow_succ_r by lia; done).
  apply Z.mod_divide in Hz as [q Hq]; [|lia]. destruct (Z.Even_or_Odd q) as [[h ->]|[h ->]].
  - exists n. split; [cbn; lia|]. rewrite Hq. apply Z.mod_divide; [lia|]. exists h. lia.
  - exists (2 ^ k + n)%nat. split; [cbn; lia|]. destruct (draws_affine k) as (t & u & Ht). rewrite Nat.iter_add, Ht, Hq. apply Z.mod_divide; [lia|].
    rewrite Z.pow_add_r by lia. fold P. change (2 ^ 2) with 4. exists ((2 * h + 1) * 2 * P * t + h + 1 + u). lia.
Qed.

Lemma weakrand_draws n seed : Nat.iter (S n) evutil_weakrand_ seed = Nat.iter (S n) draw seed `mod` 2 ^ 31.
Proof.
  induction n as [|n IH]; [apply weakrand_mod|]. cbn [Nat.iter nat_rect] in *. rewrite weakrand_mod, IH. fold draw. set (y := draw _).
  unfold draw. by rewrite <- Z.add_mod_idemp_l, Z.mul_mod_idemp_l, Z.add_mod_idemp_l by lia.
Qed.

Lemma weakrand_loop_ends n d top : 0 < top → ∀ fuel seed, Nat.iter (S n) evutil_weakrand_ seed = 0 → (n < fuel)%nat → is_Some (weakrand_loop fuel seed d top).
Proof.
  intros Htop. induction n as [|n IH]; intros [|fuel] seed Hz Hf; try lia; cbn [weakrand_loop].
  - cbn in Hz. rewrite Hz, Zdiv_0_l. destruct (Z.ltb_spec 0 top); [done|lia].
  - destruct (_ <? top); [done|]. apply IH; [|lia]. by rewrite <- Nat.iter_succ_r.
Qed.

(** The generator has the full period, so that the loop ends for every seed. *)
Lemma weakrand_range_returns fuel seed top : 0 < top <= INT_MAX → (Z.to_nat (2 ^ 31) <= fuel)%nat → is_Some (evutil_weakrand_range_ fuel seed top).
Proof.
  intros Htop Hf. unfold evutil_weakrand_range_. destruct (Z.leb_spec top 0), (Z.ltb_spec INT_MAX top); try lia. cbn [orb].
  destruct (draws_reach_zero seed 31) as ([|n] & Hn & Hz); [lia|]. apply (weakrand_loop_ends n); [lia| |].
  - by rewrite weakrand_draws.
  - eapply Nat.lt_le_trans; [|exact Hf]. rewrite Z2Nat.inj_pow by lia. exact (proj2 Hn).
Qed.

Section props.
Context {E : Type} `{EventLaws E}.
Context (now : timeval) (trylock : Z → bool) (fuel : nat).

Implicit Types (w : world E) (a g : Z) (X : gset Z) (e : bev_event).

(** ** The operations return *)

Lemma w_add_total e tv w :
  events_ok (w_events w) → (∀ t, tv = Some t → tv_norm t) →
  ∃ r w', w_add e tv w = Some (r, w') ∧ same_store w w' ∧ events_ok (w_events w') ∧ (r = 0 ∨ r = -1) ∧
    (r = 0 → is_pending (w_events w') e = true) ∧
    ∀ e', e' ≠ e → is_pending (w_events w') e' = is_pending (w_events w) e'.
Proof.
  intros Hw Htv. unfold w_add.
  destruct (add_total (w_events w) e tv Hw Htv) as (r & s' & -> & Hs & Hr & Hp & _ & Ho).
  rewrite bind_some_eq. by eexists r, _.
Qed.

Lemma add_event_total e tv w :
  events_ok (w_events w) → tv_norm tv →
  ∃ r w', bufferevent_add_event_ e tv w = Some (r, w') ∧ same_store w w' ∧ events_ok (w_events w') ∧ (r = 0 ∨ r = -1) ∧
    (r = 0 → is_pending (w_events w') e = true) ∧
    ∀ e', e' ≠ e → is_pending (w_events w') e' = is_pending (w_events w) e'.
Proof. intros Hw Htv. unfold bufferevent_add_event_. destruct (negb _); apply w_add_total; try done. by intros t [= <-]. Qed.

(** One event of a socket is added again. *)
Lemma enable_read_total a w b :
  events_ok (w_events w) → bev w a = Some b → tv_norm (timeout_read b) →
  ∃ r w', be_socket_enable a EV_READ w = Some (r, w') ∧ same_store w w' ∧ events_ok (w_events w') ∧
    (r = 0 → is_pending (w_events w') (EvRead a) = true) ∧
    ∀ e', e' ≠ EvRead a → is_pending (w_events w') e' = is_pending (w_events w) e'.
Proof.
  intros Hw Hab Htv. unfold be_socket_enable. rewrite Hab, bind_some_eq.
  change (EV_READ &? EV_READ) with true. change (EV_READ &? EV_WRITE) with false. cbv iota.
  destruct (add_event_total (EvRead a) (timeout_read b) w Hw Htv) as (r & w' & -> & S & Hs & Hr & Hp & Ho).
  rewrite bind_some_eq. cbv iota beta. destruct Hr as [-> | ->].
  - change (0 =? -1) with false. cbv iota. rewrite bind_some_eq. by exists 0, w'.
  - by exists (-1), w'.
Qed.

Lemma enable_write_total a w b :
  events_ok (w_events w) → bev w a = Some b → tv_norm (timeout_write b) →
  ∃ r w', be_socket_enable a EV_WRITE w = Some (r, w') ∧ same_store w w' ∧ events_ok (w_events w') ∧
    (r = 0 → is_pending (w_events w') (EvWrite a) = true) ∧
    ∀ e', e' ≠ EvWrite a → is_pending (w_events w') e' = is_pending (w_events w) e'.
Proof.
  intros Hw Hab Htv. unfold be_socket_enable. rewrite Hab, bind_some_eq.
  change (EV_WRITE &? EV_READ) with false. change (EV_WRITE &? EV_WRITE) with true. cbv iota.
  rewrite bind_some_eq. cbv iota beta. change (0 =? -1) with false. cbv iota.
  destruct (add_event_total (EvWrite a) (timeout_write b) w Hw Htv) as (r & w' & -> & S & Hs & Hr & Hp & Ho).
  rewrite bind_some_eq. cbv iota beta. destruct Hr as [-> | ->]; [by exists 0, w'|by exists (-1), w'].
Qed.

(** What stays when one buffered event is changed. *)
Definition only a (f : bufferevent → bufferevent) w w' : Prop :=
  w_bevs w' = alter f a (w_bevs w) ∧ w_groups w' = w_groups w ∧ events_ok (w_events w').

Lemma only_bev a f w w' b : only a f w w' → bev w a = Some b → bev w' a = Some (f b).
Proof. intros [Hb _] Hab. unfold bev in *. rewrite Hb, lookup_alter_eq, Hab. done. Qed.

Lemma unsuspend_read_total a what w b :
  events_ok (w_events w) → bev w a = Some b → tv_norm (timeout_read b) →
  let susp := Z.land (read_suspended b) (u16 (Z.lnot what)) in
  ∃ w', bufferevent_unsuspend_read_ a what w = Some w' ∧ only a (set_read_suspended susp) w w' ∧
    (susp = 0 → bev_enabled b &? EV_READ = true → (∀ s e tv r s', event_add s e tv = Some (r, s') → r = 0) →
     is_pending (w_events w') (EvRead a) = true) ∧
    ∀ e', e' ≠ EvRead a → is_pending (w_events w') e' = is_pending (w_events w) e'.
Proof.
  intros Hw Hab Htv susp. unfold bufferevent_unsuspend_read_. rewrite Hab, bind_some_eq. fold susp. cbv zeta.
  set (w1 := upd_bev a (set_read_suspended susp) w).
  destruct (Z.eqb_spec susp 0) as [Hz|Hz]; cbn [andb]; [|by exists w1].
  destruct (bev_enabled b &? EV_READ) eqn:Hen; [|by exists w1].
  destruct (enable_read_total a w1 (set_read_suspended susp b)) as (r & w' & He & [S1 S2] & Hs & Hp & Ho); [done| |done|].
  { unfold bev, w1 in *. cbn. by rewrite lookup_alter_eq, Hab. }
  rewrite He, bind_some_eq. exists w'. split; [done|]. split; [by split|]. split; [|done].
  intros _ _ Hadd. apply Hp. revert He. unfold be_socket_enable, bufferevent_add_event_, w_add.
  assert (bev w1 a = Some (set_read_suspended susp b)) as -> by (unfold bev, w1 in *; cbn; by rewrite lookup_alter_eq, Hab).
  rewrite bind_some_eq. change (EV_READ &? EV_READ) with true. change (EV_READ &? EV_WRITE) with false. cbv iota.
  destruct (negb _); destruct (event_add _ _ _) as [[r0 s0]|] eqn:Hea; try done; rewrite !bind_some_eq;
    rewrite (Hadd _ _ _ _ _ Hea); cbn; by intros [= <-].
Qed.

Lemma unsuspend_write_total a what w b :
  events_ok (w_events w) → bev w a = Some b → tv_norm (timeout_write b) →
  let susp := Z.land (write_suspended b) (u16 (Z.lnot what)) in
  ∃ w', bufferevent_unsuspend_write_ a what w = Some w' ∧ only a (set_write_suspended susp) w w' ∧
    ∀ e', e' ≠ EvWrite a → is_pending (w_events w') e' = is_pending (w_events w) e'.
Proof.
  intros Hw Hab Htv susp. unfold bufferevent_unsuspend_write_. rewrite Hab, bind_some_eq. fold susp. cbv zeta.
  set (w1 := upd_bev a (set_write_suspended susp) w).
  destruct (Z.eqb_spec susp 0) as [Hz|Hz]; cbn [andb]; [|by exists w1].
  destruct (bev_enabled b &? EV_WRITE) eqn:Hen; [|by exists w1].
  destruct (enable_write_total a w1 (set_write_suspended susp b)) as (r & w' & He & [S1 S2] & Hs & Hp & Ho); [done| |done|].
  { unfold bev, w1 in *. cbn. by rewrite lookup_alter_eq, Hab. }
  rewrite He, bind_some_eq. exists w'. split; [done|]. split; [by split|done].
Qed.

(** ** Refilling *)

Definition adds_succeed : Prop := ∀ s e tv r (s' : E), event_add s e tv = Some (r, s') → r = 0.

(** The buffered event after one direction was dealt with. *)
Definition resumed (is_write : bool) (limit : Z) (b : bufferevent) : bufferevent :=
  if is_write then
    if (write_suspended b &? BEV_SUSPEND_BW) && (0 <? limit)
    then set_write_suspended (Z.land (write_suspended b) (u16 (Z.lnot BEV_SUSPEND_BW))) b else b
  else
    if (read_suspended b &? BEV_SUSPEND_BW) && (0 <? limit)
    then set_read_suspended (Z.land (read_suspended b) (u16 (Z.lnot BEV_SUSPEND_BW))) b else b.

Lemma refill_read_total lim again a w b :
  events_ok (w_events w) → bev w a = Some b → tv_norm (timeout_read b) →
  ∃ again' w', refill_direction false (read_suspended b) lim again a w = Some (again', w') ∧
    bev w' a = Some (resumed false lim b) ∧ events_ok (w_events w') ∧
    (again = true → again' = true) ∧
    (read_suspended b &? BEV_SUSPEND_BW = true → lim <= 0 → again' = true) ∧
    (read_suspended b = BEV_SUSPEND_BW → 0 < lim → bev_enabled b &? EV_READ = true → adds_succeed →
     is_pending (w_events w') (EvRead a) = true).
Proof.
  intros Hw Hab Htv. unfold refill_direction, resumed. destruct (read_suspended b &? BEV_SUSPEND_BW) eqn:Hs; cbn [andb].
  - destruct (Z.ltb_spec 0 lim) as [Hl|Hl].
    + destruct (unsuspend_read_total a BEV_SUSPEND_BW w b Hw Hab Htv) as (w' & -> & Ho & Hp & _).
      rewrite bind_some_eq. exists again, w'. pose proof (only_bev _ _ _ _ _ Ho Hab) as Hb'. destruct Ho as (_ & _ & Hok).
      split_and!; try done; [lia|]. intros Hbw _ Hen Hadd. apply Hp; try done. by rewrite Hbw.
    + exists true, w. split_and!; try done. intros. lia.
  - exists again, w. split_and!; try done. intros Hbw. by rewrite Hbw in Hs.
Qed.

Lemma refill_write_total lim again a w b :
  events_ok (w_events w) → bev w a = Some b → tv_norm (timeout_write b) →
  ∃ again' w', refill_direction true (write_suspended b) lim again a w = Some (again', w') ∧
    bev w' a = Some (resumed true lim b) ∧ events_ok (w_events w') ∧ (again = true → again' = true) ∧
    (∀ e, e ≠ EvWrite a → is_pending (w_events w') e = is_pending (w_events w) e).
Proof.
  intros Hw Hab Htv. unfold refill_direction, resumed. destruct (write_suspended b &? BEV_SUSPEND_BW) eqn:Hs; cbn [andb].
  - destruct (Z.ltb_spec 0 lim) as [Hl|Hl].
    + destruct (unsuspend_write_total a BEV_SUSPEND_BW w b Hw Hab Htv) as (w' & -> & Ho & Hp).
      rewrite bind_some_eq. exists again, w'. pose proof (only_bev _ _ _ _ _ Ho Hab) as Hb'. destruct Ho as (_ & _ & Hok).
      by split_and!.
    + exists true, w. by split_and!.
  - exists again, w. by split_and!.
Qed.

(** The whole callback. *)
Lemma refill_callback_total a w b rl p c tick :
  world_ok ∅ w → bev w a = Some b → rate_limiting b = Some rl → rl_cfg rl = Some (p, c) →
  ev_token_bucket_get_tick_ now c = Some tick →
  let l := snd (ev_token_bucket_update_ c tick (rl_limit rl)) in
  ∃ w' b', bev_refill_callback_ now a w = Some w' ∧ bev w' a = Some b' ∧
    read_suspended b' = read_suspended (resumed false (read_limit l) b) ∧
    rate_limiting b' = Some (set_rl_limit l rl) ∧ bev_enabled b' = bev_enabled b ∧
    (read_suspended b &? BEV_SUSPEND_BW = true → read_limit l <= 0 → adds_succeed →
     is_pending (w_events w') (EvRefill a) = true) ∧
    (read_suspended b = BEV_SUSPEND_BW → 0 < read_limit l → bev_enabled b &? EV_READ = true → adds_succeed →
     is_pending (w_events w') (EvRead a) = true).
Proof.
  intros Hw Hab Hrl Hc Ht l. destruct (wo_bevs _ _ Hw a b Hab) as [B1 B2 B3 _ _].
  unfold bev_refill_callback_. rewrite Hab, bind_some_eq, Hrl, Hc, Ht, bind_some_eq. cbv zeta.
  set (b1 := set_rate_limiting (Some (set_rl_limit l rl)) b). set (w1 := upd_limit a _ w).
  assert (bev w1 a = Some b1) as Hb1.
  { unfold bev, w1, upd_limit, upd_rlim, upd_bev in *. cbn [w_bevs]. rewrite lookup_alter_eq, Hab. cbn. by rewrite Hrl. }
  assert (rlim w1 a = Some (set_rl_limit l rl)) as -> by (unfold rlim; by rewrite Hb1).
  rewrite bind_some_eq. change (rl_limit (set_rl_limit l rl)) with l.
  destruct (refill_read_total (read_limit l) false a w1 b1) as (ag1 & w2 & H2 & Hb2 & Hok2 & _ & Hag & Hpr); [apply Hw|done|done|].
  change (read_suspended b1) with (read_suspended b) in H2. rewrite H2, bind_some_eq. cbv iota beta.
  set (b2 := resumed false (read_limit l) b1) in *.
  assert (write_suspended b2 = write_suspended b ∧ timeout_write b2 = timeout_write b ∧ rate_limiting b2 = rate_limiting b1 ∧
    read_suspended b2 = read_suspended (resumed false (read_limit l) b)) as (E1 & E2 & E3 & E4).
  { unfold b2, resumed, b1. cbn. by destruct (_ && _). }
  destruct (refill_write_total (write_limit l) ag1 a w2 b2) as (ag2 & w3 & H3 & Hb3 & Hok3 & Hag2 & Ho); [done|done|by rewrite E2|].
  rewrite E1 in H3. rewrite H3, bind_some_eq. cbv iota beta. set (b3 := resumed true (write_limit l) b2) in *.
  assert (read_suspended b3 = read_suspended b2 ∧ rate_limiting b3 = Some (set_rl_limit l rl) ∧ bev_enabled b3 = bev_enabled b) as (E5 & E6 & E7).
  { assert (bev_enabled b2 = bev_enabled b) by (unfold b2, resumed; by destruct (_ && _)).
    unfold b3, resumed. split_and!; destruct (_ && _); try done; by rewrite E3. }
  destruct ag2.
  - unfold add_refill, rlim. rewrite Hb3. cbn [mbind option_bind]. rewrite E6. cbn [mbind option_bind rl_cfg set_rl_limit].
    rewrite Hc. cbn [mbind option_bind].
    destruct (w_add_total (EvRefill a) (Some (tick_timeout c)) w3 Hok3) as (r & w4 & Hadd & [S1 _] & _ & _ & Hp & Ho4).
    { intros t [= <-]. by eapply B3. }
    rewrite Hadd. cbn. exists w4, b3. split_and!; [done|unfold bev in *; congruence|by rewrite E5, E4|done|done| |].
    + intros _ _ Has. apply Hp. revert Hadd. unfold w_add. destruct (event_add _ _ _) as [[r0 s0]|] eqn:Hea; [|done].
      cbn. intros [= <- _]. by eapply Has.
    + intros Hbw Hl Hen Has. rewrite Ho4, Ho by done. by apply Hpr.
  - exists w3, b3. split_and!; [done|done|by rewrite E5, E4|done|done| |].
    + intros Hbw Hl Has. discriminate (Hag2 (Hag Hbw Hl)).
    + intros Hbw Hl Hen Has. rewrite Ho by done. by apply Hpr.
Qed.

(** ** Groups *)

Lemma w_add_store e tv w : ens (w_add e tv w) (λ x, same_store w (snd x)).
Proof. unfold w_add. destruct (event_add _ _ _) as [[r s]|]; done. Qed.

Lemma socket_enable_store a ev w : ens (be_socket_enable a ev w) (λ x, same_store w (snd x)).
Proof.
  assert (∀ e tv w, ens (bufferevent_add_event_ e tv w) (λ x, same_store w (snd x))) as Hadd.
  { intros. unfold bufferevent_add_event_. destruct (negb _); apply w_add_store. }
  apply ens_lookup. intros b _. eapply (ens_bind _ _ (λ x, same_store w (snd x))); [destruct (_ &? _); [apply Hadd|done]|].
  intros [r w1] [S1 S2]. cbn [snd] in *. destruct (r =? -1); [done|].
  eapply (ens_bind _ _ (λ x, same_store w (snd x))).
  - destruct (_ &? _); [|done]. eapply ens_mono; [apply Hadd|]. intros x [T1 T2]. split; congruence.
  - intros [r2 w2] S. by destruct (r2 =? -1).
Qed.

Lemma unsuspend_read_store a what w :
  ens (bufferevent_unsuspend_read_ a what w) (λ w', ∃ b, bev w a = Some b ∧ w_groups w' = w_groups w ∧
    w_bevs w' = alter (set_read_suspended (Z.land (read_suspended b) (u16 (Z.lnot what)))) a (w_bevs w)).
Proof.
  unfold bufferevent_unsuspend_read_. apply ens_lookup. intros b Hb. cbv zeta. destruct (_ && _).
  - eapply ens_bind; [apply socket_enable_store|]. intros [r w1] [S1 S2]. by exists b.
  - by exists b.
Qed.

Lemma draw_range n seed d top r seed' :
  0 < d → weakrand_loop n seed d top = Some (r, seed') → 0 <= r < top.
Proof.
  intros Hd. revert seed. induction n as [|n IH]; intros seed; [done|]. cbn [weakrand_loop].
  destruct (Z.ltb_spec (evutil_weakrand_ seed `div` d) top) as [Hlt|_]; [|by apply IH].
  intros [= <- <-]. split; [|done]. apply Z.div_pos; [|done]. unfold evutil_weakrand_. apply Z.land_nonneg. right. lia.
Qed.

Lemma weakrand_range_ok n seed top r seed' : evutil_weakrand_range_ n seed top = Some (r, seed') → 0 <= r < top.
Proof.
  unfold evutil_weakrand_range_. destruct (Z.leb_spec top 0), (Z.ltb_spec INT_MAX top); cbn [orb]; try done.
  apply draw_range. apply Z.div_str_pos. lia.
Qed.

(** From a random member on, each member comes once. *)
Lemma random_order_perm gr order seed : FOREACH_RANDOM_ORDER fuel gr = Some (order, seed) → order ≡ₚ g_members gr.
Proof.
  unfold FOREACH_RANDOM_ORDER. destruct (bev_group_random_element_ fuel gr) as [[[i|] s]|]; [| |done];
    rewrite bind_some_eq; intros [= <- <-]; [|done].
  rewrite (comm app). by rewrite take_drop.
Qed.

Definition group_suspended (b : bufferevent) : bool := read_suspended b &? BEV_SUSPEND_BW_GROUP.

Lemma unsuspend_members_spec l : ∀ again w,
  ens (unsuspend_members trylock (λ a, bufferevent_unsuspend_read_ a BEV_SUSPEND_BW_GROUP) l again w) (λ x,
    fst x = again || existsb (λ a, negb (trylock a)) l ∧ w_groups (snd x) = w_groups w ∧
    (∀ a b', a ∈ l → trylock a = true → bev (snd x) a = Some b' → group_suspended b' = false) ∧
    (∀ a b b', bev w a = Some b → group_suspended b = false → bev (snd x) a = Some b' → group_suspended b' = false)).
Proof.
  induction l as [|a l IH]; intros again w; cbn [unsuspend_members existsb].
  { cbn. rewrite orb_false_r. split_and!; try done; [by intros a b' ?%not_elem_of_nil|]. intros a b b' -> ? [= <-]. done. }
  destruct (trylock a) eqn:Hl; cbn [negb orb].
  - eapply ens_bind; [apply unsuspend_read_store|]. intros w1 (b0 & Hb0 & G1 & S1).
    assert (∀ a' b b', bev w a' = Some b → bev w1 a' = Some b' →
      (a' = a ∨ group_suspended b = false) → group_suspended b' = false) as Hstep.
    { intros a' b b' Hb Hb' Hcase. unfold bev in *. rewrite S1 in Hb'. destruct (decide (a' = a)) as [->|Hne].
      - rewrite lookup_alter_eq, Hb0 in Hb'. injection Hb' as <-. unfold group_suspended, flag. cbn [read_suspended set_read_suspended].
        rewrite <- Z.land_assoc. by rewrite Z.land_0_r.
      - rewrite lookup_alter_ne in Hb' by done. destruct Hcase; [done|congruence]. }
    eapply ens_mono; [apply IH|]. intros [ag w2] (E1 & E2 & E3 & E4). cbn [fst snd] in *.
    split_and!; [done|congruence| |].
    + intros a' b' [->|Hin]%elem_of_cons Ht Hb'; [|by apply (E3 a')].
      assert (∃ b1, bev w1 a = Some b1) as [b1 Hb1] by (unfold bev in *; rewrite S1, lookup_alter_eq, Hb0; eauto).
      eapply E4; [exact Hb1| |done]. eapply Hstep; [done|done|by left].
    + intros a' b b' Hb Hg Hb'. assert (∃ b1, bev w1 a' = Some b1) as [b1 Hb1].
      { unfold bev in *. rewrite S1. destruct (decide (a' = a)) as [->|Hne]; [rewrite lookup_alter_eq, Hb0; eauto|].
        rewrite lookup_alter_ne by done. eauto. }
      eapply E4; [exact Hb1| |done]. eapply Hstep; [done|done|by right].
  - eapply ens_mono; [apply IH|]. intros [ag w2] (E1 & E2 & E3 & E4). cbn [fst snd] in *.
    rewrite orb_true_r. cbn [orb] in E1. split_and!; [done|done| |done].
    intros a' b' [->|Hin]%elem_of_cons Ht; [congruence|by apply E3].
Qed.

(** When a group has bandwidth again, [bev_group_unsuspend_reading_] reaches every
    member exactly once, in an order that starts at a random member: afterwards no
    member whose lock could be taken is suspended because of the group, the group
    is marked as not suspended, and it is marked for another attempt exactly when
    the lock of some member could not be taken. *)
Theorem group_unsuspend_reaches_all g gr w w' :
  group w g = Some gr → bev_group_unsuspend_reading_ trylock fuel g w = Some w' →
  (∃ order seed, FOREACH_RANDOM_ORDER fuel gr = Some (order, seed) ∧ order ≡ₚ g_members gr) ∧
  (∀ a b, a ∈ g_members gr → trylock a = true → bev w' a = Some b → group_suspended b = false) ∧
  ∃ gr', group w' g = Some gr' ∧ g_read_suspended gr' = false ∧ g_members gr' = g_members gr ∧
    g_pending_unsuspend_read gr' = existsb (λ a, negb (trylock a)) (g_members gr).
Proof.
  intros Hg. unfold bev_group_unsuspend_reading_. rewrite Hg, bind_some_eq.
  destruct (FOREACH_RANDOM_ORDER fuel gr) as [[order seed]|] eqn:Ho; [|done]. rewrite bind_some_eq. cbv iota beta.
  pose proof (random_order_perm gr order seed Ho) as Hperm. set (w1 := upd_group g _ w).
  pose proof (unsuspend_members_spec order false w1) as Hs.
  destruct (unsuspend_members _ _ order false w1) as [[again w2]|]; [|done]. destruct Hs as (E1 & E2 & E3 & _).
  rewrite bind_some_eq. intros [= <-]. cbn [fst snd] in *. split_and!.
  - by exists order, seed.
  - intros a b Ha Ht Hb. apply (E3 a b); [by rewrite Hperm|done|done].
  - assert (existsb (λ a, negb (trylock a)) order = existsb (λ a, negb (trylock a)) (g_members gr)) as Hex.
    { clear -Hperm. induction Hperm; cbn; [done|by rewrite IHHperm| |congruence].
      destruct (negb (trylock x)), (negb (trylock y)); done. }
    unfold group, upd_group in *. cbn [w_groups]. rewrite lookup_alter_eq, E2. cbn [w_groups w1].
    rewrite lookup_alter_eq, Hg. cbn. eexists. split_and!; [done..|]. cbn. by rewrite E1, Hex.
Qed.
End props.

(** ** Resuming *)

Section resume.
Context {E : Type} `{EventLaws E}.
Implicit Types (w : world E) (a : Z).

(** The refill event runs at each of these times. *)
Fixpoint refill_run (times : list timeval) a w : option (world E) :=
  match times with
  | [] => Some w
  | t :: times => w ← bev_refill_callback_ t a w; refill_run times a w
  end.

(** At each of the times at least a tick has passed since the one before, as the timeout
    of the refill event is one tick; [tick] is the first. *)
Fixpoint ticking (c : ev_token_bucket_cfg) (tick : Z) (times : list timeval) : Prop :=
  match times with
  | [] => True
  | t :: times => ∃ tick', ev_token_bucket_get_tick_ t c = Some (u32 tick') ∧ tick < tick' <= tick + INT_MAX ∧ ticking c tick' times
  end.

Lemma tick_difference tick tick' : tick < tick' <= tick + INT_MAX → u32 (u32 tick' - u32 tick) = tick' - tick.
Proof. intros Ht. unfold wrap. rewrite <- Zminus_mod. apply Z.mod_small. lia. Qed.
Lemma ticks_between tick tick' l : last_updated l = u32 tick → tick < tick' <= tick + INT_MAX → ticks (u32 tick') l = tick' - tick.
Proof. intros Hl Ht. unfold ticks. cbv zeta. rewrite Hl, tick_difference by done. by rewrite (proj2 (Z.ltb_ge _ _)) by lia. Qed.
Lemma last_updated_tick c tick tick' l : last_updated l = u32 tick → tick < tick' <= tick + INT_MAX → last_updated (snd (ev_token_bucket_update_ c (u32 tick') l)) = u32 tick'.
Proof.
  intros Hl Ht. unfold ev_token_bucket_update_. cbv zeta. rewrite Hl, tick_difference by done.
  destruct (Z.eqb_spec (tick' - tick) 0), (Z.ltb_spec INT_MAX (tick' - tick)); try lia. done.
Qed.

(** C18. What is suspended for lack of bandwidth is resumed after finitely many ticks:
    the refill callbacks return, and after no more of them than it takes the rate to make
    up for the deficit (one callback a tick, or less often) reading is no longer
    suspended for bandwidth; when that was the only reason and reading is enabled its event
    is registered again.  Until then each callback leaves the refill event pending, so that there is
    a next one.  Adding an event to the base is taken to succeed. *)
Theorem suspended_reading_resumes a w b rl p c tick times :
  world_ok ∅ w → bev w a = Some b → rate_limiting b = Some rl → rl_cfg rl = Some (p, c) →
  cfg_ok c → bucket_ok c (rl_limit rl) → last_updated (rl_limit rl) = u32 tick → ticking c tick times →
  Z.max 0 (- read_limit (rl_limit rl)) < Z.of_nat (length times) * read_rate c →
  read_suspended b &? BEV_SUSPEND_BW = true → adds_succeed (E := E) →
  ∃ n w' b', (n <= length times)%nat ∧ refill_run (take n times) a w = Some w' ∧ bev w' a = Some b' ∧
    read_suspended b' &? BEV_SUSPEND_BW = false ∧
    (read_suspended b = BEV_SUSPEND_BW → bev_enabled b &? EV_READ = true → is_pending (w_events w') (EvRead a) = true) ∧
    ∀ m, (0 < m < n)%nat → ∃ wm, refill_run (take m times) a w = Some wm ∧ is_pending (w_events wm) (EvRefill a) = true.
Proof.
  intros Hw Hab Hrl Hc Hcfg Hbk Hl Ht Hdef Hs Has. revert tick w b rl Hw Hab Hrl Hc Hbk Hl Ht Hdef Hs.
  induction times as [|t times IH]; intros tick w b rl Hw Hab Hrl Hc Hbk Hl Ht Hdef Hs; [cbn [length] in Hdef; lia|].
  destruct Ht as (tick' & Hget & Hgap & Ht).
  destruct (refill_callback_total t a w b rl p c (u32 tick') Hw Hab Hrl Hc Hget) as (w1 & b1 & Hr & Hb1 & Hsu & Hrl1 & Hen1 & H1 & H2).
  set (l := snd (ev_token_bucket_update_ c (u32 tick') (rl_limit rl))) in *.
  destruct (update_spec c (u32 tick') (rl_limit rl) Hcfg Hbk) as (Hlim & _ & Hbk1). fold l in Hlim, Hbk1. rewrite (ticks_between tick) in Hlim by done.
  destruct (decide (0 < read_limit l)) as [Hpos|Hneg].
  - exists 1%nat, w1, b1. cbn [take refill_run]. rewrite take_0, Hr. split_and!; [cbn; lia|done|done| | |intros; lia].
    + rewrite Hsu. unfold resumed. rewrite Hs, (proj2 (Z.ltb_lt 0 _) Hpos). cbn [andb].
      unfold flag. change (read_suspended (set_read_suspended ?v b)) with v. rewrite <- Z.land_assoc. by rewrite Z.land_0_r.
    + auto.
  - assert (Hsame : read_suspended b1 = read_suspended b) by (rewrite Hsu; unfold resumed; by rewrite (proj2 (Z.ltb_ge 0 _)), andb_false_r by lia).
    pose proof (ens_use _ _ _ (refill_callback_ok t ∅ a w Hw) Hr) as Hw1.
    destruct (IH tick' w1 b1 (set_rl_limit l rl)) as (n & w' & b' & Hn & Hrun & Hb' & Hres & Hread & Hm); try done.
    + by apply (last_updated_tick c tick).
    + cbn [rl_limit set_rl_limit]. cbn [length] in Hdef. destruct Hcfg. nia.
    + by rewrite Hsame.
    + exists (S n), w', b'. cbn [take refill_run]. rewrite Hr. cbn [mbind option_bind]. split_and!; [cbn; lia|done|done|done| |].
      * intros ? ?. apply Hread; congruence.
      * intros [|[|m]] Hlt; [lia| |].
        -- exists w1. cbn [take refill_run]. rewrite take_0, Hr. split; [done|]. apply H1; [done|lia|done].
        -- destruct (Hm (S m) ltac:(lia)) as (wm & Hwm & Hp). exists wm. cbn [take refill_run]. rewrite Hr. done.
Qed.
End resume.
