(* ===== verification/BeventExamples.v ===== *)
(** * Buffered events: a small implementation of the event interface, and runs *)

From S2P Require Import Prelude TimeVal EvMap TokenBucket BufferCore BufferMove Bevent RateLim BeventSock BeventInv BeventStep RateLimProps.

(** The pending events as a list; adding and deleting always succeed. *)
#[export] Instance list_events : EventApi (list bev_event) := {
  event_add s e _ := Some (0, e :: s);
  event_del s e := Some (0, filter (.≠ e) s);
  event_remove_timer s _ := Some (0, s);
  is_pending s e := bool_decide (e ∈ s);
  events_ok _ := True;
}.

#[export] Instance list_events_laws : EventLaws (list bev_event).
Proof.
  split; cbn.
  - intros s e tv _ _. exists 0, (e :: s). split_and!; try done; [by left|intros _; apply bool_decide_true; by left|].
    intros e' Hne. apply bool_decide_ext. rewrite elem_of_cons. naive_solver.
  - intros s e _. exists 0, (filter (.≠ e) s). split_and!; try done; [by left| |].
    + apply bool_decide_false. rewrite list_elem_of_filter. naive_solver.
    + intros e' Hne. apply bool_decide_ext. rewrite list_elem_of_filter. naive_solver.
  - intros s e _ _. by exists 0, s.
Qed.

Abbreviation W := (world (list bev_event)).
Definition quiet_user : user_call → W → W := λ _ w, w.
Definition always (_ : Z) : bool := true.
Definition mem : mallocs := λ _, true.

Definition run {A} (r : option (A * W)) (w : W) : W := match r with Some (_, w') => w' | None => w end.
Definition run1 (r : option W) (w : W) : W := default w r.

Definition w0 : W := mk_world ∅ ∅ [].
Definition w1 : W := snd (bufferevent_socket_new 100 mem 200 5 0 w0).
Definition w2 : W := run (bufferevent_enable 100 EV_READ w1) w1.
(** 1024 bytes per second; the clock is at 10 seconds. *)
Definition t10 : timeval := mk_timeval 10 0.
Definition w3 : W := run (bufferevent_set_rate_limit t10 100 true (Some (300, cfg_4k)) w2) w2.
(** Reading 1030 bytes exhausts the bucket. *)
Definition w4 : W := run (bufferevent_decrement_read_buckets_ always 5 100 1030 w3) w3.

Example bucket_exhausted :
  (read_suspended <$> bev w4 100) = Some BEV_SUSPEND_BW ∧ is_pending (w_events w4) (EvRead 100) = false ∧
  is_pending (w_events w4) (EvRefill 100) = true.
Proof. vm_compute. split_and!; reflexivity. Qed.

Lemma w0_ok : world_ok ∅ w0.
Proof. split; [done|by intros a b|by intros g gr]. Qed.

(** A program whose callbacks enable reading; the callback for reading is run by a
    trigger. *)
Definition busy_user : user_call → W → W := λ _ w, run (bufferevent_enable 100 EV_READ w) w.
Lemma busy_user_calls : user_calls 1 busy_user.
Proof.
  intros c w. exists quiet_user, t10, always, 5%nat. split; [done|]. unfold busy_user, run.
  destruct (bufferevent_enable 100 EV_READ w) as [[r w']|] eqn:Hr; [|apply rtc_refl]. apply rtc_once. by eapply S_enable.
Qed.

Definition w1_cb : W := run1 (bufferevent_setcb 100 1 0 0 0 w1) w1.
Definition w1_run : W := run1 (bufferevent_trigger busy_user 100 EV_READ BEV_TRIG_IGNORE_WATERMARKS w1_cb) w1_cb.
Lemma w1_runs : rtc (bev_step busy_user t10 always 5) w0 w1_run.
Proof.
  apply (rtc_l _ w0 w1); [by apply S_new|].
  apply (rtc_l _ w1 w1_cb); [apply (S_setcb _ _ _ _ 100 1 0 0 0 w1 w1_cb); vm_compute; reflexivity|].
  apply rtc_once. apply (S_trigger _ _ _ _ 100 EV_READ BEV_TRIG_IGNORE_WATERMARKS w1_cb w1_run). vm_compute. reflexivity.
Qed.

Lemma registered_only_when_wanted_witness :
  is_pending (w_events w1_run) (EvRead 100) = true ∧
  ∃ b, bev w1_run 100 = Some b ∧ bev_enabled b &? EV_READ = true ∧ read_suspended b = 0.
Proof.
  destruct (registered_only_when_wanted 1 busy_user t10 always 5 w0 w1_run busy_user_calls w0_ok w1_runs) as [_ Hr].
  assert (is_pending (w_events w1_run) (EvRead 100) = true) as Hp by (vm_compute; reflexivity).
  split; [exact Hp|]. destruct (bev w1_run 100) as [b|] eqn:Hb; [|vm_compute in Hb; discriminate].
  exists b. split; [reflexivity|]. apply (Hr 100 b Hb). exact Hp.
Defined.

Lemma w2_ok : world_ok ∅ w2.
Proof.
  assert (world_ok ∅ w1) as H1 by (apply socket_new_ok; [exact w0_ok|done|done]).
  apply (ens_use _ _ (0, w2) (enable_ok ∅ 100 EV_READ w1 H1)). vm_compute. reflexivity.
Qed.

Lemma w4_ok : world_ok ∅ w4.
Proof.
  assert (world_ok ∅ w3) as H3.
  { apply (ens_use _ _ (0, w3) (set_rate_limit_ok t10 ∅ 100 true (Some (300, cfg_4k)) w2 w2_ok
      ltac:(intros p c [= <- <-]; cbv; done))). vm_compute. reflexivity. }
  apply (ens_use _ _ (0, w4) (decrement_read_ok always 5 ∅ 100 1030 w3 H3)). vm_compute. reflexivity.
Qed.

(** Two seconds later the bucket holds enough. *)
Definition t12 : timeval := mk_timeval 12 0.
Definition bucket_4 : ev_token_bucket := mk_bucket (-6) 512 10.

Lemma bev_4 : ∃ b, bev w4 100 = Some b ∧ rate_limiting b = Some (mk_rlim 0 bucket_4 (Some (300, cfg_4k)) true) ∧
  read_suspended b = BEV_SUSPEND_BW ∧ bev_enabled b &? EV_READ = true.
Proof. eexists. vm_compute. split_and!; reflexivity. Qed.

Lemma suspended_reading_resumes_witness :
  ∃ w', bev_refill_callback_ t12 100 w4 = Some w' ∧ is_pending (w_events w') (EvRead 100) = true.
Proof.
  destruct bev_4 as (b & Hb & Hrl & Hs & Hen).
  destruct (suspended_reading_resumes 100 w4 b (mk_rlim 0 bucket_4 (Some (300, cfg_4k)) true) 300 cfg_4k (last_updated bucket_4) [t12]
    w4_ok Hb Hrl eq_refl cfg_4k_ok) as (n & w' & b' & Hn & H1 & Hb' & H2 & H3 & _);
    [split; cbn; lia|vm_compute; reflexivity|exists 12; vm_compute; split_and!; (reflexivity || discriminate || exact I)
    |vm_compute; reflexivity|rewrite Hs; reflexivity|by intros ????? [= <- _]|].
  destruct n as [|[|n]]; [|apply bind_Some in H1 as (x & Hx & E); injection E as ->; exists w'; split; [exact Hx|by apply H3]|cbn in Hn; lia].
  injection H1 as <-. rewrite Hb in Hb'. injection Hb' as <-. rewrite Hs in H2. discriminate.
Defined.

(** A group of two members; one more is created. *)
Definition wg1 : W := snd (bufferevent_socket_new 101 mem 201 6 0 w2).
Definition wg2 : W := run (bufferevent_rate_limit_group_new t10 400 true 1 cfg_4k wg1) wg1.
Definition wg3 : W := run (bufferevent_add_to_rate_limit_group 100 400 true wg2) wg2.
Definition wg4 : W := run (bufferevent_add_to_rate_limit_group 101 400 true wg3) wg3.
Definition wg5 : W := run1 (bev_group_suspend_reading_ always 400 wg4) wg4.

Definition members_of (w : W) (g : Z) : option (list Z) := g_members <$> group w g.
Definition wg6 : option W := bev_group_unsuspend_reading_ always 5 400 wg5.

Lemma wg5_members : members_of wg5 400 = Some [101; 100].
Proof. vm_compute. reflexivity. Qed.
Lemma wg6_defined : (w' ← wg6; b ← bev w' 100; Some (bev_enabled b)) = Some 6.
Proof. vm_compute. reflexivity. Qed.

Lemma wg5_suspended : (group_suspended <$> bev wg5 100) = Some true.
Proof. vm_compute. reflexivity. Qed.

Lemma group_unsuspend_reaches_all_witness :
  ∃ w', bev_group_unsuspend_reading_ always 5 400 wg5 = Some w' ∧ (group_suspended <$> bev wg5 100) = Some true ∧
    (group_suspended <$> bev w' 100) = Some false.
Proof.
  generalize wg5_members wg6_defined wg5_suspended. unfold wg6. generalize wg5. intros w Hm Hd Hs.
  unfold members_of in Hm. destruct (group w 400) as [gr|] eqn:Hg; [|discriminate].
  destruct (bev_group_unsuspend_reading_ always 5 400 w) as [w'|] eqn:Hu; [|discriminate].
  destruct (group_unsuspend_reaches_all always 5 400 gr w w' Hg Hu) as (_ & Hall & _).
  exists w'. split; [reflexivity|]. split; [exact Hs|]. rewrite bind_some_eq in Hd.
  destruct (bev w' 100) as [b|] eqn:Hb; [|discriminate].
  assert (g_members gr = [101; 100]) as Hmem by (injection Hm as Hm; exact Hm).
  assert (100 ∈ g_members gr) as Hin by (rewrite Hmem; right; left).
  change (Some (group_suspended b) = Some false). rewrite (Hall 100 b Hin eq_refl Hb). reflexivity.
Defined.
