(* ===== verification/Inet.v ===== *)
(** * Network addresses as text (evutil.c)

    [evutil_inet_ntop] and [evutil_inet_pton], socket addresses with ports
    ([evutil_parse_sockaddr_port], [evutil_format_sockaddr_port_]) and their
    comparison.  A store outside of a local array, or a read of an array element
    that was never written, makes the model stuck ([None]). *)

From S2P Require Import Prelude.
From S2P Require Import Clib.
From S2P Require Import Util.

Definition AF_INET : Z := 2.
Definition AF_INET6 : Z := 10.

(** Network byte order on a little-endian machine. *)
Definition htons (x : Z) : Z := Z.lor (Z.shiftl (Z.land x 255) 8) (Z.land (Z.shiftr x 8) 255).
Definition htonl (x : Z) : Z :=
  Z.lor (Z.lor (Z.shiftl (Z.land x 255) 24) (Z.shiftl (Z.land (Z.shiftr x 8) 255) 16))
        (Z.lor (Z.shiftl (Z.land (Z.shiftr x 16) 255) 8) (Z.land (Z.shiftr x 24) 255)).
Abbreviation ntohs := htons.
Abbreviation ntohl := htonl.

(** What the pointer to an address points to, by the family. *)
Inductive inet_addr :=
  | InAddr (s_addr : Z)
  | In6Addr (s6_addr : bytes)
  | InOther (af : Z).

(** ** From an address to text *)

Section ntop.
Implicit Types (words : list Z) (buf : bytes).

Definition word words (i : Z) : Z := default 0 (words !! Z.to_nat i).

Definition words_of (s6_addr : bytes) : list Z :=
  (λ i, u16 (u16 (Z.shiftl (default 0 (s6_addr !! (2 * i)%nat)) 8) + default 0 (s6_addr !! (2 * i + 1)%nat))) <$> seq 0 8.

(** [while (i<8 && words[i] == 0) { ++i; ++curGapLen; }] *)
Fixpoint zero_run (fuel : nat) words (i curGapLen : Z) : Z * Z :=
  match fuel with
  | O => (i, curGapLen)
  | S fuel =>
    if (i <? 8) && (word words i =? 0) then zero_run fuel words (i + 1) (curGapLen + 1) else (i, curGapLen)
  end.

(** The position and the length of the longest run of zero words. *)
Fixpoint gap_loop (fuel : nat) words (i longestGapPos longestGapLen : Z) : Z * Z :=
  match fuel with
  | O => (longestGapPos, longestGapLen)
  | S fuel =>
    if negb (i <? 8) then (longestGapPos, longestGapLen)
    else if word words i =? 0 then
      let '(j, curGapLen) := zero_run 8 words (i + 1) 1 in
      if longestGapLen <? curGapLen then gap_loop fuel words j i curGapLen
      else gap_loop fuel words j longestGapPos longestGapLen
    else gap_loop fuel words (i + 1) longestGapPos longestGapLen
  end.

(** [*cp++ = c] in the 64 bytes of [buf]. *)
Definition put (c : Z) buf : option bytes := ASSERT (Nat.ltb (length buf) 64) ;; Some (buf ++ [c]).

(** [evutil_snprintf(cp, sizeof(buf)-(cp-buf), "%x", w); cp += strlen(cp)] *)
Definition put_word (w : Z) buf : bytes :=
  buf ++ default [] (fst (evutil_snprintf (64 - Z.of_nat (length buf)) (print_u 16 w))).

Fixpoint print_words (fuel : nat) words (longestGapPos i : Z) buf : option bytes :=
  match fuel with
  | O => None
  | S fuel =>
    if negb (i <? 8) then Some buf
    else if (word words i =? 0) && (longestGapPos =? i) then
      buf ← (if i =? 0 then put 58 buf else Some buf);
      buf ← put 58 buf;
      let '(j, _) := zero_run 8 words i 0 in
      print_words fuel words longestGapPos j buf
    else
      let buf := put_word (word words i) buf in
      buf ← (if negb (i =? 7) then put 58 buf else Some buf);
      print_words fuel words longestGapPos (i + 1) buf
  end.

(** The end of both branches: the text in [buf] is copied to [dst]. *)
Definition copy_text buf (len : Z) : option bytes :=
  if len <? Z.of_nat (length buf) then None else fst (event_strlcpy_ buf len).

Definition is_ipv4_in6 words : bool :=
  (word words 0 =? 0) && (word words 1 =? 0) && (word words 2 =? 0) && (word words 3 =? 0) &&
  (word words 4 =? 0) &&
  (((word words 5 =? 0) && negb (word words 6 =? 0) && negb (word words 7 =? 0)) || (word words 5 =? 0xffff)).

(** The result is [None] for NULL, else the string in [dst]. *)
Definition evutil_inet_ntop (src : inet_addr) (len : Z) : option (option bytes) :=
  match src with
  | InAddr s_addr =>
    let a := ntohl s_addr in
    let '(dst, r) := evutil_snprintf len
      (print_quad (Z.land (Z.shiftr a 24) 255) (Z.land (Z.shiftr a 16) 255)
                  (Z.land (Z.shiftr a 8) 255) (Z.land a 255)) in
    Some (if (r <? 0) || (len <=? r) then None else dst)
  | In6Addr s6_addr =>
    let words := words_of s6_addr in
    let b i := default 0 (s6_addr !! i) in
    if is_ipv4_in6 words then
      let text := if word words 5 =? 0 then [58; 58] ++ print_quad (b 12%nat) (b 13%nat) (b 14%nat) (b 15%nat)
                  else [58; 58] ++ print_u 16 (word words 5) ++ 58 :: print_quad (b 12%nat) (b 13%nat) (b 14%nat) (b 15%nat) in
      Some (copy_text (default [] (fst (evutil_snprintf 64 text))) len)
    else
      let '(longestGapPos, longestGapLen) := gap_loop 8 words 0 (-1) 0 in
      let longestGapPos := if longestGapLen <=? 1 then -1 else longestGapPos in
      buf ← print_words 9 words longestGapPos 0 [];
      ASSERT (Nat.ltb (length buf) 64) ;; Some (copy_text buf len)
  | InOther _ => Some None
  end.
End ntop.

(** ** From text to an address *)

Section pton.
Implicit Types (src : bytes) (words : list (option Z)).

(** The four numbers, when there are exactly four of a byte each. *)
Definition read_quad src : option (Z * Z * Z * Z) :=
  match sscanf_quad src with
  | ([a; b; c; d], n) =>
    if negb (Nat.eqb n 4) then None
    else if (255 <? a) || (255 <? b) || (255 <? c) || (255 <? d) then None
    else Some (a, b, c, d)
  | _ => None
  end.

(** The loop that moves [eow] back from the dot over digits, with [dot]
    the offset of the dot: the offset of [eow]. *)
Fixpoint back_digits (dot : nat) src : nat :=
  match dot with
  | O => O
  | S i => if EVUTIL_ISDIGIT_ (char_at src i) then back_digits i src else S i
  end.

Record pton_state := mk_pton { p_words : list (option Z); p_i : Z; p_setWords : Z; p_gapPos : Z }.

(** The loop over the words; [src] is what the pointer points to, [left] the
    distance to [eow].  The inner [None] is a return of 0. *)
Fixpoint pton_loop (fuel : nat) src (left : Z) (st : pton_state) : option (option pton_state) :=
  match fuel with
  | O => None
  | S fuel =>
    if negb (0 <? left) then Some (Some st)
    else if 7 <? p_i st then Some None
    else
      let c := char_at src 0 in
      if EVUTIL_ISXDIGIT_ c then
        let '(r, next) := strtol 16 src in
        let n := Z.of_nat (length src - length next)%nat in
        if 4 <? n then Some None
        else if n =? 0 then Some None
        else if (r <? 0) || (65536 <? r) then Some None
        else
          words ← store_at (Z.to_nat (p_i st)) (Some (u16 r)) (p_words st);
          if negb (char_at next 0 =? 58) && negb (n =? left) then Some None
          else pton_loop fuel (drop 1 next) (left - n - 1)
                 (mk_pton words (p_i st + 1) (p_setWords st + 1) (p_gapPos st))
      else if (c =? 58) && (0 <? p_i st) && (p_gapPos st =? -1) then
        pton_loop fuel (drop 1 src) (left - 1) (mk_pton (p_words st) (p_i st) (p_setWords st) (p_i st))
      else if (c =? 58) && (p_i st =? 0) && (char_at src 1 =? 58) && (p_gapPos st =? -1) then
        pton_loop fuel (drop 2 src) (left - 2) (mk_pton (p_words st) (p_i st) (p_setWords st) (p_i st))
      else Some None
  end.

(** [memmove] and [memset] on the words, refused outside of the array. *)
Definition move_words words (to from n : Z) : option (list (option Z)) :=
  ASSERT ((0 <=? from) && (0 <=? to) && (0 <=? n) && (from + n <=? 8) && (to + n <=? 8)) ;;
  Some (take (Z.to_nat to) words ++ take (Z.to_nat n) (drop (Z.to_nat from) words) ++ drop (Z.to_nat (to + n)) words).

Definition zero_words words (from n : Z) : option (list (option Z)) :=
  ASSERT ((0 <=? from) && (0 <=? n) && (from + n <=? 8)) ;;
  Some (take (Z.to_nat from) words ++ replicate (Z.to_nat n) (Some 0) ++ drop (Z.to_nat (from + n)) words).

(** The end of the function, after the loop. *)
Definition pton_finish (dot : bool) (st : pton_state) : option (Z * option inet_addr) :=
  let setWords := p_setWords st in
  let gapPos := p_gapPos st in
  if (8 <? setWords) || ((setWords =? 8) && negb (gapPos =? -1)) || ((setWords <? 8) && (gapPos =? -1))
  then Some (0, None)
  else
    let nToMove := setWords - (if dot then 2 else 0) - gapPos in
    let gapLen := 8 - setWords in
    if (0 <=? gapPos) && (nToMove <? 0) then Some (-1, None)
    else
      words ← (if 0 <=? gapPos
               then words ← move_words (p_words st) (gapPos + gapLen) gapPos nToMove; zero_words words gapPos gapLen
               else Some (p_words st));
      ws ← mapM (λ w, w) words;
      Some (1, Some (In6Addr (mjoin ((λ w, [Z.shiftr w 8; Z.land w 255]) <$> ws)))).

Definition pton6 src : option (Z * option inet_addr) :=
  match strchr 46 src with
  | Some O => Some (0, None)
  | None =>
    st ← pton_loop (S (length src)) src (Z.of_nat (length src)) (mk_pton (replicate 8 None) 0 0 (-1));
    match st with None => Some (0, None) | Some st => pton_finish false st end
  | Some dot =>
    let eow := back_digits dot src in
    match read_quad (drop eow src) with
    | None => Some (0, None)
    | Some (byte1, byte2, byte3, byte4) =>
      let words := <[6%nat := Some (u16 (Z.lor (Z.shiftl byte1 8) byte2))]>
                     (<[7%nat := Some (u16 (Z.lor (Z.shiftl byte3 8) byte4))]> (replicate 8 None)) in
      st ← pton_loop (S (length src)) src (Z.of_nat eow) (mk_pton words 0 2 (-1));
      match st with None => Some (0, None) | Some st => pton_finish true st end
    end
  end.

(** The result, and the address when it is 1. *)
Definition evutil_inet_pton (af : Z) src : option (Z * option inet_addr) :=
  if af =? AF_INET then
    match read_quad src with
    | None => Some (0, None)
    | Some (a, b, c, d) =>
      Some (1, Some (InAddr (htonl (Z.lor (Z.lor (Z.shiftl a 24) (Z.shiftl b 16)) (Z.lor (Z.shiftl c 8) d)))))
    end
  else if af =? AF_INET6 then pton6 src
  else Some (-1, None).
End pton.

(** ** Socket addresses *)

Record sockaddr_in := mk_sin { sin_port : Z; sin_addr : Z }.
Record sockaddr_in6 := mk_sin6 { sin6_port : Z; sin6_flowinfo : Z; sin6_addr : bytes; sin6_scope_id : Z }.

(** A [struct sockaddr], by its family. *)
Inductive sockaddr :=
  | SaIn (sin : sockaddr_in)
  | SaIn6 (sin6 : sockaddr_in6)
  | SaOther (family : Z).

Definition sa_family (sa : sockaddr) : Z :=
  match sa with SaIn _ => AF_INET | SaIn6 _ => AF_INET6 | SaOther f => f end.

(** The sizes of the two structures. *)
Definition sizeof_sin : Z := 16.
Definition sizeof_sin6 : Z := 28.

(** How the text is split: whether it is an IPv6 address, the address and the
    port; [None] is a return of -1. *)
Definition split_sockaddr (s : bytes) : option (bool * bytes * option bytes) :=
  let cp := strchr 58 s in
  if char_at s 0 =? 91 then
    match strchr 93 s with
    | None => None
    | Some cp =>
      let len := Z.of_nat cp - 1 in
      if 128 - 1 <? len then None
      else Some (true, take (Z.to_nat len) (drop 1 s),
                 if char_at s (cp + 1) =? 58 then Some (drop (cp + 2) s) else None)
    end
  else
    match cp with
    | Some cp =>
      match strchr 58 (drop (cp + 1) s) with
      | Some _ => Some (true, s, None)
      | None =>
        if 128 - 1 <? Z.of_nat cp then None else Some (false, take cp s, Some (drop (cp + 1) s))
      end
    | None => Some (false, s, None)
    end.

(** The port, 0 when there is none; [None] is a return of -1. *)
Definition parse_port (port_part : option bytes) : option Z :=
  match port_part with
  | None => Some 0
  | Some p => let port := atoi p in if (port <=? 0) || (65535 <? port) then None else Some port
  end.

(** The result; the address written to [out] and the new [outlen]. *)
Definition evutil_parse_sockaddr_port (ip_as_string : bytes) (outlen : Z) : option (Z * option (sockaddr * Z)) :=
  match split_sockaddr ip_as_string with
  | None => Some (-1, None)
  | Some (is_ipv6, addr_part, port_part) =>
    match parse_port port_part with
    | None => Some (-1, None)
    | Some port =>
      '(r, a) ← evutil_inet_pton (if is_ipv6 then AF_INET6 else AF_INET) addr_part;
      if negb (r =? 1) then Some (-1, None)
      else
        match a with
        | Some (In6Addr s6) =>
          if outlen <? sizeof_sin6 then Some (-1, None)
          else Some (0, Some (SaIn6 (mk_sin6 (htons port) 0 s6 0), sizeof_sin6))
        | Some (InAddr x) =>
          if outlen <? sizeof_sin then Some (-1, None)
          else Some (0, Some (SaIn (mk_sin (htons port) x), sizeof_sin))
        | _ => None
        end
    end
  end.

(** The string in [out], when it has any room. *)
Definition evutil_format_sockaddr_port_ (sa : sockaddr) (outlen : Z) : option (option bytes) :=
  match sa with
  | SaIn sin =>
    res ← evutil_inet_ntop (InAddr (sin_addr sin)) 128;
    match res with
    | Some b => Some (fst (evutil_snprintf outlen (b ++ 58 :: print_d (ntohs (sin_port sin)))))
    | None => Some (fst (evutil_snprintf outlen (bytes_of_string "<addr with socktype " ++ print_d AF_INET ++ [62])))
    end
  | SaIn6 sin6 =>
    res ← evutil_inet_ntop (In6Addr (sin6_addr sin6)) 128;
    match res with
    | Some b => Some (fst (evutil_snprintf outlen (91 :: b ++ 93 :: 58 :: print_d (ntohs (sin6_port sin6)))))
    | None => Some (fst (evutil_snprintf outlen (bytes_of_string "<addr with socktype " ++ print_d AF_INET6 ++ [62])))
    end
  | SaOther f => Some (fst (evutil_snprintf outlen (bytes_of_string "<addr with socktype " ++ print_d f ++ [62])))
  end.

(** [memcmp], as the difference of the first bytes that differ. *)
Fixpoint memcmp (a b : bytes) : Z :=
  match a, b with
  | x :: a, y :: b => if x =? y then memcmp a b else x - y
  | _, _ => 0
  end.

Definition evutil_sockaddr_cmp (sa1 sa2 : sockaddr) (include_port : bool) : Z :=
  let r := sa_family sa1 - sa_family sa2 in
  if negb (r =? 0) then r
  else
    match sa1, sa2 with
    | SaIn sin1, SaIn sin2 =>
      if sin_addr sin1 <? sin_addr sin2 then -1
      else if sin_addr sin2 <? sin_addr sin1 then 1
      else if include_port then sin_port sin1 - sin_port sin2 else 0
    | SaIn6 sin1, SaIn6 sin2 =>
      let r := memcmp (sin6_addr sin1) (sin6_addr sin2) in
      if negb (r =? 0) then r
      else if include_port then sin6_port sin1 - sin6_port sin2 else 0
    | _, _ => 1
    end.

Definition LOOPBACK_S6 : bytes := replicate 15 0 ++ [1].

Definition evutil_sockaddr_is_loopback_ (addr : sockaddr) : bool :=
  match addr with
  | SaIn sin => Z.land (ntohl (sin_addr sin)) 0xff000000 =? 0x7f000000
  | SaIn6 sin6 => memcmp (sin6_addr sin6) LOOPBACK_S6 =? 0
  | SaOther _ => false
  end.
