(* ===== verification/InetProps.v ===== *)
(** * Addresses as text: safety and round trips

    The parser of IPv6 addresses never leaves its array of words and never reads
    a word it did not write; printing an address and parsing it gives the
    address back; the same for socket addresses with a port. *)

From S2P Require Import Prelude.
From S2P Require Import Clib.
From S2P Require Import Util.
From S2P Require Import Inet.

(** ** Bytes of integers *)

Lemma lor_low x y k : 0 <= k → 0 <= y < 2 ^ k → Z.lor (Z.shiftl x k) y = x * 2 ^ k + y.
Proof. intros Hk Hy. rewrite Z.lor_comm, lor_shiftl_add by done. lia. Qed.

Lemma land_255 x : Z.land x 255 = x mod 256.
Proof. change 255 with (Z.ones 8). by rewrite Z.land_ones by lia. Qed.

Definition be32 (a b c d : Z) : Z := Z.lor (Z.lor (Z.shiftl a 24) (Z.shiftl b 16)) (Z.lor (Z.shiftl c 8) d).

Lemma be32_add a b c d : is_byte a → is_byte b → is_byte c → is_byte d →
  be32 a b c d = a * 2 ^ 24 + b * 2 ^ 16 + c * 2 ^ 8 + d.
Proof.
  unfold is_byte, be32. intros. rewrite (lor_low c d 8) by lia.
  rewrite (lor_low a (Z.shiftl b 16) 24) by (rewrite ?Z.shiftl_mul_pow2; lia).
  rewrite Z.shiftl_mul_pow2 by lia.
  replace (a * 2 ^ 24 + b * 2 ^ 16) with (Z.shiftl (a * 2 ^ 8 + b) 16) by (rewrite Z.shiftl_mul_pow2; lia).
  rewrite lor_low, Z.shiftl_mul_pow2 by lia. lia.
Qed.

Lemma htonl_be32 x : htonl x = be32 (x mod 256) (x / 2 ^ 8 mod 256) (x / 2 ^ 16 mod 256) (x / 2 ^ 24 mod 256).
Proof. unfold htonl, be32. by rewrite !land_255, !Z.shiftr_div_pow2 by lia. Qed.

Lemma byte_mod x : is_byte (x mod 256).
Proof. unfold is_byte. apply Z.mod_pos_bound. lia. Qed.
#[export] Hint Resolve byte_mod : ev.

Lemma htonl_be32_bytes a b c d : is_byte a → is_byte b → is_byte c → is_byte d →
  htonl (be32 a b c d) = be32 d c b a.
Proof.
  intros Ha Hb Hc Hd. rewrite htonl_be32, (be32_add a b c d) by done. unfold is_byte in *.
  f_equal; Z.to_euclidean_division_equations; lia.
Qed.

(** The bytes of an IPv4 address in the order they are printed. *)
Lemma s_addr_bytes x : 0 <= x < 2 ^ 32 → ∃ a b c d, is_byte a ∧ is_byte b ∧ is_byte c ∧ is_byte d ∧
  x = htonl (be32 a b c d) ∧ htonl x = be32 a b c d.
Proof.
  intros Hx. exists (x mod 256), (x / 2 ^ 8 mod 256), (x / 2 ^ 16 mod 256), (x / 2 ^ 24 mod 256).
  split_and!; eauto with ev; [|apply htonl_be32].
  rewrite htonl_be32_bytes, be32_add by eauto with ev.
  Z.to_euclidean_division_equations. lia.
Qed.

Lemma be32_land a b c d : is_byte a → is_byte b → is_byte c → is_byte d → let x := be32 a b c d in
  Z.land (Z.shiftr x 24) 255 = a ∧ Z.land (Z.shiftr x 16) 255 = b ∧ Z.land (Z.shiftr x 8) 255 = c ∧ Z.land x 255 = d.
Proof.
  cbv zeta. intros Ha Hb Hc Hd. rewrite !land_255, !Z.shiftr_div_pow2, be32_add by (done || lia).
  unfold is_byte in *. split_and!; Z.to_euclidean_division_equations; lia.
Qed.

Lemma htons_htons x : 0 <= x < 65536 → htons (htons x) = x ∧ 0 <= htons x < 65536.
Proof.
  intros Hx. assert (∀ y, 0 <= y < 65536 → htons y = y mod 256 * 256 + y / 256) as E.
  { intros y Hy. unfold htons. rewrite !land_255, Z.shiftr_div_pow2 by lia.
    rewrite lor_low by (try lia; apply Z.mod_pos_bound; lia). change (2 ^ 8) with 256.
    rewrite (Z.mod_small (y / 256)) by (Z.to_euclidean_division_equations; lia). lia. }
  assert (0 <= htons x < 65536) as Hb by (rewrite E by done; Z.to_euclidean_division_equations; lia).
  split; [|done]. rewrite (E (htons x)), (E x) by done. Z.to_euclidean_division_equations. lia.
Qed.

(** ** IPv4 *)

Lemma read_quad_print a b c d :
  is_byte a → is_byte b → is_byte c → is_byte d → read_quad (print_quad a b c d) = Some (a, b, c, d).
Proof.
  intros Ha Hb Hc Hd. unfold read_quad. rewrite sscanf_quad_print by done. unfold is_byte in *.
  rewrite !(proj2 (Z.ltb_ge 255 _)) by lia. done.
Qed.

Lemma scan_dotted_range n s : Forall (λ v, 0 <= v) (fst (scan_dotted n s)).
Proof.
  revert s. induction n as [|n IH]; intros s; [constructor|]. cbn [scan_dotted].
  destruct (scan_u s) as [[v rest]|] eqn:E; [|constructor].
  assert (0 <= v) as Hv.
  { unfold scan_u in E. destruct (scan_number 10 s) as [[[neg ds] r]|]; [|done]. rewrite bind_some_eq in E.
    injection E as <- _. apply (wrap_range 32). lia. }
  assert (Forall (λ v, 0 <= v) [v]) as H1 by (constructor; [done|constructor]).
  destruct n as [|n]; [done|]. destruct rest as [|c rest]; [done|]. destruct (c =? 46); [|done].
  specialize (IH rest). destruct (scan_dotted (S n) rest). cbn in *. by constructor.
Qed.

Lemma read_quad_bytes src a b c d :
  read_quad src = Some (a, b, c, d) → is_byte a ∧ is_byte b ∧ is_byte c ∧ is_byte d.
Proof.
  unfold read_quad, sscanf_quad. pose proof (scan_dotted_range 4 src) as H.
  destruct (scan_dotted 4 src) as [vs r]. cbn [fst] in H. destruct vs as [|x [|y [|z [|w [|? ?]]]]]; try done.
  destruct (negb _); [done|]. destruct (Z.ltb_spec 255 x), (Z.ltb_spec 255 y), (Z.ltb_spec 255 z), (Z.ltb_spec 255 w); try done.
  cbn [orb]. intros [= <- <- <- <-]. rewrite !Forall_cons in H. unfold is_byte. lia.
Qed.

Lemma print_quad_length a b c d : is_byte a → is_byte b → is_byte c → is_byte d →
  (length (print_quad a b c d) <= 15)%nat.
Proof.
  intros Ha Hb Hc Hd. unfold print_quad. rewrite !length_app. cbn [length]. rewrite !length_app. cbn [length].
  rewrite !length_app. cbn [length].
  assert (∀ x, is_byte x → length (print_u 10 x) <= 3)%nat as H.
  { unfold is_byte. intros x Hx. apply print_u_length; [done| |lia]. change (10 ^ Z.of_nat 3) with 1000. lia. }
  pose proof (H a Ha). pose proof (H b Hb). pose proof (H c Hc). pose proof (H d Hd). lia.
Qed.

Lemma snprintf_fits len text : Z.of_nat (length text) < len →
  evutil_snprintf len text = (Some text, Z.of_nat (length text)).
Proof.
  intros H. unfold evutil_snprintf, evutil_vsnprintf, snprintf.
  destruct (Z.eqb_spec len 0); [lia|]. by rewrite take_ge by lia.
Qed.

Lemma ntop4 x len : 0 <= x < 2 ^ 32 → 16 <= len →
  ∃ a b c d, is_byte a ∧ is_byte b ∧ is_byte c ∧ is_byte d ∧ x = htonl (be32 a b c d) ∧
    evutil_inet_ntop (InAddr x) len = Some (Some (print_quad a b c d)).
Proof.
  intros Hx Hlen. destruct (s_addr_bytes x Hx) as (a & b & c & d & Ha & Hb & Hc & Hd & E & E').
  exists a, b, c, d. split_and!; try done. unfold evutil_inet_ntop. rewrite E'.
  destruct (be32_land a b c d) as (-> & -> & -> & ->); [done..|].
  pose proof (print_quad_length a b c d Ha Hb Hc Hd). rewrite snprintf_fits by lia.
  rewrite (proj2 (Z.ltb_ge _ 0)), (proj2 (Z.leb_gt len _)) by lia. done.
Qed.

Lemma pton4 a b c d : is_byte a → is_byte b → is_byte c → is_byte d →
  evutil_inet_pton AF_INET (print_quad a b c d) = Some (1, Some (InAddr (htonl (be32 a b c d)))).
Proof. intros. unfold evutil_inet_pton. cbn [Z.eqb Pos.eqb AF_INET]. by rewrite read_quad_print. Qed.

(** ** The parser of IPv6 addresses stays within its arrays *)

Section pton_safe.
Implicit Types (st : pton_state) (words : list (option Z)).

(** [D] is the number of words that come from a dotted quad at the end; the words
    before [i] and the last [D] words were written. *)
Record pton_ok (D : Z) st : Prop := {
  ok_length : length (p_words st) = 8%nat;
  ok_D : D = 0 ∨ D = 2;
  ok_i : 0 <= p_i st <= 8;
  ok_set : p_setWords st = p_i st + D;
  ok_gap : p_gapPos st = -1 ∨ 0 <= p_gapPos st <= p_i st;
  ok_front : ∃ ws, take (Z.to_nat (p_i st)) (p_words st) = Some <$> ws ∧ Forall (λ w, 0 <= w < 65536) ws;
  ok_back : ∃ ds, drop (Z.to_nat (8 - D)) (p_words st) = Some <$> ds ∧ Forall (λ w, 0 <= w < 65536) ds
}.

(** Writing the next word. *)
Lemma pton_ok_word D st w : pton_ok D st → p_i st <= 7 → 0 <= w < 65536 →
  pton_ok D (mk_pton (<[Z.to_nat (p_i st) := Some w]> (p_words st)) (p_i st + 1) (p_setWords st + 1) (p_gapPos st)).
Proof.
  intros [Hl HD Hi Hs Hg (ws & Hws & Hb) (ds & Hds & Hdb)] Hi7 Hw. split; cbn; try lia.
  - by rewrite length_insert.
  - exists (ws ++ [w]). split; [|apply Forall_app; split; [done|constructor; [done|constructor]]].
    replace (Z.to_nat (p_i st + 1)) with (S (Z.to_nat (p_i st))) by lia.
    rewrite (take_S_r _ _ (Some w)) by (apply list_lookup_insert_eq; lia).
    rewrite take_insert_ge by lia. by rewrite Hws, fmap_app.
  - destruct (decide (p_i st < 8 - D)).
    + exists ds. by rewrite drop_insert_lt by lia.
    + exists (<[(Z.to_nat (p_i st) - Z.to_nat (8 - D))%nat := w]> ds).
      rewrite drop_insert_ge, Hds, list_fmap_insert by lia. split; [done|]. by apply Forall_insert.
Qed.

Lemma pton_ok_gap D st : pton_ok D st → pton_ok D (mk_pton (p_words st) (p_i st) (p_setWords st) (p_i st)).
Proof. intros []. split; cbn; (done || lia). Qed.

Lemma u16_range x : 0 <= u16 x < 65536.
Proof. apply (wrap_range 16). lia. Qed.

Lemma pton_loop_safe D fuel src left st :
  pton_ok D st → Z.max 0 left < Z.of_nat fuel →
  ∃ r, pton_loop fuel src left st = Some r ∧ (∀ st', r = Some st' → pton_ok D st').
Proof.
  revert src left st. induction fuel as [|fuel IH]; intros src left st Hst Hf.
  { cbn in Hf. lia. }
  cbn [pton_loop]. destruct (Z.ltb_spec 0 left) as [Hleft|]; [|exists (Some st); naive_solver].
  cbn [negb]. destruct (Z.ltb_spec 7 (p_i st)); [exists None; naive_solver|].
  destruct (EVUTIL_ISXDIGIT_ _).
  - destruct (strtol 16 src) as [r next]. cbv zeta. set (n := Z.of_nat _).
    repeat (case_match; [exists None; naive_solver|]).
    pose proof (ok_length D st Hst). pose proof (ok_i D st Hst).
    rewrite store_at_ok by lia. rewrite bind_some_eq. case_match; [exists None; naive_solver|].
    apply IH; [apply pton_ok_word; [done|lia|apply u16_range]|].
    assert (n ≠ 0) by (by apply Z.eqb_neq). lia.
  - case_match; [apply IH; [by apply pton_ok_gap|lia]|].
    case_match; [apply IH; [by apply pton_ok_gap|lia]|]. exists None. naive_solver.
Qed.

(** The words of a state that is [a] before the gap and [b] after it. *)
Definition word_bytes (w : Z) : bytes := [Z.shiftr w 8; Z.land w 255].

Lemma mapM_some {A} (l : list A) : mapM (λ w : option A, w) (Some <$> l) = Some l.
Proof. induction l as [|x l IH]; [done|]. cbn. by rewrite IH. Qed.

Lemma finish_gap (dot : bool) a b junk ds :
  length ds = (if dot then 2 else 0)%nat → (length a + length b + length junk + length ds = 8)%nat →
  junk ≠ [] →
  pton_finish dot (mk_pton ((Some <$> a) ++ (Some <$> b) ++ junk ++ (Some <$> ds))
    (Z.of_nat (length a + length b)) (Z.of_nat (length a + length b + length ds)) (Z.of_nat (length a)))
  = Some (1, Some (In6Addr (mjoin (word_bytes <$> a ++ replicate (length junk) 0 ++ b ++ ds)))).
Proof.
  intros Hds Hlen Hj. assert (0 < length junk)%nat by (destruct junk; [done|cbn; lia]).
  unfold pton_finish. cbn [p_setWords p_gapPos p_words].
  rewrite (proj2 (Z.ltb_ge 8 _)), (proj2 (Z.eqb_neq _ 8)), (proj2 (Z.eqb_neq _ (-1))), andb_false_r by lia.
  cbn [negb andb orb]. cbv zeta. rewrite (proj2 (Z.leb_le 0 _)) by lia. cbn [andb].
  replace (Z.of_nat (length a + length b + length ds) - (if dot then 2 else 0) - Z.of_nat (length a))
    with (Z.of_nat (length b)) by (destruct dot; lia).
  replace (Z.of_nat (length a) + (8 - Z.of_nat (length a + length b + length ds)))
    with (Z.of_nat (length a + length junk)) by lia.
  replace (8 - Z.of_nat (length a + length b + length ds)) with (Z.of_nat (length junk)) by lia.
  rewrite (proj2 (Z.ltb_ge _ 0)) by lia. unfold move_words.
  rewrite evassert_true by (repeat (apply andb_true_iff; split); apply Z.leb_le; lia). rewrite !bind_some_eq.
  unfold zero_words. rewrite evassert_true by (repeat (apply andb_true_iff; split); apply Z.leb_le; lia).
  rewrite !bind_some_eq, <- !Nat2Z.inj_add, !Nat2Z.id.
  set (w := (Some <$> a) ++ (Some <$> b) ++ junk ++ (Some <$> ds)).
  assert (take (length b) (drop (length a) w) = Some <$> b) as E1.
  { unfold w. rewrite drop_app_length' by (by rewrite length_fmap).
    by rewrite take_app_length' by (by rewrite length_fmap). }
  assert (drop (length a + length junk + length b) w = Some <$> ds) as E2.
  { unfold w. rewrite !app_assoc, drop_app_length' by (rewrite !length_app, !length_fmap; lia). done. }
  assert (take (length a) (take (length a + length junk) w) = Some <$> a) as E3.
  { rewrite take_take, Nat.min_l by lia. unfold w. by rewrite take_app_length' by (by rewrite length_fmap). }
  assert (length (take (length a + length junk) w) = length a + length junk)%nat as E4.
  { rewrite length_take. unfold w. rewrite !length_app, !length_fmap. lia. }
  rewrite E1, E2. rewrite take_app_le by lia. rewrite E3.
  rewrite drop_app_length' by lia.
  rewrite <- fmap_replicate, <- !fmap_app, mapM_some, bind_some_eq.
  reflexivity.
Qed.

Lemma finish_full (dot : bool) a ds :
  length ds = (if dot then 2 else 0)%nat → (length a + length ds = 8)%nat →
  pton_finish dot (mk_pton ((Some <$> a) ++ (Some <$> ds)) (Z.of_nat (length a)) (Z.of_nat (length a + length ds)) (-1))
  = Some (1, Some (In6Addr (mjoin (word_bytes <$> a ++ ds)))).
Proof.
  intros Hds Hlen. unfold pton_finish. cbn [p_setWords p_gapPos p_words]. rewrite Hlen.
  change (Z.of_nat 8) with 8. cbn [Z.ltb Z.compare Z.eqb Pos.compare negb andb orb Z.leb].
  change (Pos.compare_cont Eq 8 8) with Eq. cbn. rewrite <- fmap_app, mapM_some, bind_some_eq. reflexivity.
Qed.

Lemma word_bytes_ok ws : Forall (λ w, 0 <= w < 65536) ws →
  length (mjoin (word_bytes <$> ws)) = (2 * length ws)%nat ∧ Forall is_byte (mjoin (word_bytes <$> ws)).
Proof.
  induction 1 as [|w ws Hw _ [IH1 IH2]]; [by split|]. change (mjoin (word_bytes <$> w :: ws)) with (word_bytes w ++ mjoin (word_bytes <$> ws)). split; [rewrite length_app; cbn; lia|].
  apply Forall_app. split; [|done]. constructor; [|constructor; [|constructor]]; unfold is_byte; rewrite ?land_255, ?Z.shiftr_div_pow2 by lia;
    Z.to_euclidean_division_equations; lia.
Qed.

Definition good_pton6 (r : Z) (a : option inet_addr) : Prop :=
  r = 0 ∧ a = None ∨ r = 1 ∧ ∃ s6, a = Some (In6Addr s6) ∧ length s6 = 16%nat ∧ Forall is_byte s6.

Lemma good_words ws : length ws = 8%nat → Forall (λ w, 0 <= w < 65536) ws →
  good_pton6 1 (Some (In6Addr (mjoin (word_bytes <$> ws)))).
Proof. intros Hl Hws. right. split; [done|]. apply word_bytes_ok in Hws as [H1 H2]. eexists. split_and!; [done|lia|done]. Qed.

Lemma finish_safe (dot : bool) st : pton_ok (if dot then 2 else 0) st →
  ∃ r a, pton_finish dot st = Some (r, a) ∧ good_pton6 r a.
Proof.
  set (D := if dot then 2 else 0). intros [Hl HD Hi Hs Hg (ws & Hws & Hb) (ds & Hds & Hdb)].
  destruct st as [words i setW gap]. cbn in *. subst setW.
  assert (length ws = Z.to_nat i) as Hlw by (rewrite <- (length_fmap Some), <- Hws, length_take; lia).
  assert (length ds = Z.to_nat D) as Hld by (rewrite <- (length_fmap Some), <- Hds, length_drop; lia).
  destruct (decide ((8 < i + D) ∨ (i + D = 8 ∧ gap ≠ -1) ∨ (i + D < 8 ∧ gap = -1))) as [Hbad|Hgood].
  - exists 0, None. split; [|by left]. unfold pton_finish. cbn [p_setWords p_gapPos].
    assert ((8 <? i + D) || (i + D =? 8) && negb (gap =? -1) || (i + D <? 8) && (gap =? -1) = true) as ->; [|done].
    destruct (Z.ltb_spec 8 (i + D)), (Z.eqb_spec (i + D) 8), (Z.eqb_spec gap (-1)), (Z.ltb_spec (i + D) 8); cbn; lia.
  - destruct Hg as [->|Hg].
    + assert (words = (Some <$> ws) ++ (Some <$> ds)) as ->.
      { rewrite <- Hws, <- Hds. replace (8 - D) with i by lia. by rewrite take_drop. }
      replace (mk_pton _ _ _ _) with (mk_pton ((Some <$> ws) ++ (Some <$> ds)) (Z.of_nat (length ws))
        (Z.of_nat (length ws + length ds)) (-1)) by (f_equal; lia).
      rewrite finish_full by (subst D; destruct dot; lia). do 2 eexists. split; [done|].
      apply good_words; [rewrite length_app; lia|by apply Forall_app].
    + set (junk := take (Z.to_nat (8 - D - i)) (drop (Z.to_nat i) words)).
      assert (length junk = Z.to_nat (8 - D - i)) as Hlj by (unfold junk; rewrite length_take, length_drop; lia).
      assert (words = (Some <$> take (Z.to_nat gap) ws) ++ (Some <$> drop (Z.to_nat gap) ws) ++ junk ++ (Some <$> ds)) as Hwords.
      { rewrite (app_assoc (Some <$> take _ _)), <- fmap_app, take_drop, <- Hws, <- Hds.
        replace (drop (Z.to_nat (8 - D)) words) with (drop (Z.to_nat (8 - D - i)) (drop (Z.to_nat i) words))
          by (rewrite drop_drop; f_equal; lia).
        unfold junk. by rewrite !take_drop. }
      rewrite Hwords. pose proof (length_take ws (Z.to_nat gap)). pose proof (length_drop ws (Z.to_nat gap)).
      set (a := take (Z.to_nat gap) ws) in *. set (b := drop (Z.to_nat gap) ws) in *.
      replace (mk_pton _ _ _ _) with (mk_pton ((Some <$> a) ++ (Some <$> b) ++ junk ++ (Some <$> ds))
        (Z.of_nat (length a + length b)) (Z.of_nat (length a + length b + length ds)) (Z.of_nat (length a)))
        by (f_equal; lia).
      rewrite finish_gap; [|subst D; destruct dot; lia|subst D; destruct dot; lia|intros E; rewrite E in Hlj; cbn in Hlj; lia].
      do 2 eexists. split; [done|]. apply good_words.
      * rewrite !length_app, length_replicate. lia.
      * repeat apply Forall_app_2; [by apply Forall_take| |by apply Forall_drop|done].
        apply Forall_replicate. lia.
Qed.

Lemma pton6_safe src : ∃ r a, pton6 src = Some (r, a) ∧ good_pton6 r a.
Proof.
  unfold pton6. destruct (strchr 46 src) as [[|dot]|] eqn:Hdot.
  - exists 0, None. split; [done|by left].
  - destruct (read_quad _) as [[[[b1 b2] b3] b4]|]; [|exists 0, None; split; [done|by left]]. cbv zeta.
    set (w6 := u16 (Z.lor (Z.shiftl b1 8) b2)). set (w7 := u16 (Z.lor (Z.shiftl b3 8) b4)).
    destruct (pton_loop_safe 2 (S (length src)) src (Z.of_nat (back_digits (S dot) src))
      (mk_pton (<[6%nat := Some w6]> (<[7%nat := Some w7]> (replicate 8 None))) 0 2 (-1))) as (st & -> & Hst).
    { split; cbn; try lia; try done; [by exists []|exists [w6; w7]; split; [done|]].
      constructor; [apply u16_range|constructor; [apply u16_range|constructor]]. }
    { assert (back_digits (S dot) src <= S dot)%nat.
      { generalize (S dot). intros k. induction k as [|k IH]; cbn; [lia|]. destruct (EVUTIL_ISDIGIT_ _); lia. }
      apply strchr_some in Hdot as [Hdot _]. apply lookup_lt_Some in Hdot. lia. }
    rewrite bind_some_eq. destruct st as [st|]; [|exists 0, None; split; [done|by left]].
    by apply finish_safe, (Hst st).
  - destruct (pton_loop_safe 0 (S (length src)) src (Z.of_nat (length src)) (mk_pton (replicate 8 None) 0 0 (-1)))
      as (st & -> & Hst).
    { split; cbn; try lia; try done; by exists []. }
    { lia. }
    rewrite bind_some_eq. destruct st as [st|]; [|exists 0, None; split; [done|by left]].
    by apply finish_safe, (Hst st).
Qed.
End pton_safe.

(** ** Printing IPv6 addresses *)

Lemma print_u16_length w : 0 <= w < 65536 → (1 <= length (print_u 16 w) <= 4)%nat.
Proof.
  intros Hw. split; [|by apply print_u_length; [done|change (16 ^ Z.of_nat 4) with 65536|lia]].
  destruct (print_u_cons 16 w) as (c & s & ->). cbn. lia.
Qed.

Abbreviation is_word := (λ w : Z, 0 <= w < 65536).

(** "w:w:w:" *)
Definition words_colon (ws : list Z) : bytes := mjoin ((λ w, print_u 16 w ++ [58]) <$> ws).

(** "w:w:w" *)
Fixpoint words_join (ws : list Z) : bytes :=
  match ws with
  | [] => []
  | [w] => print_u 16 w
  | w :: ws => print_u 16 w ++ 58 :: words_join ws
  end.

Lemma words_colon_cons w ws : words_colon (w :: ws) = print_u 16 w ++ 58 :: words_colon ws.
Proof. unfold words_colon. cbn. by rewrite <- app_assoc. Qed.

Lemma words_join_cons w v ws : words_join (w :: v :: ws) = print_u 16 w ++ 58 :: words_join (v :: ws).
Proof. done. Qed.

Lemma words_join_snoc ws w : words_join (ws ++ [w]) = words_colon ws ++ print_u 16 w.
Proof.
  induction ws as [|v ws IH]; [done|]. rewrite words_colon_cons, <- app_assoc. cbn [app].
  destruct (ws ++ [w]) as [|x l] eqn:E; [by destruct ws|]. by rewrite words_join_cons, IH.
Qed.

Lemma words_colon_length ws : Forall is_word ws → (length (words_colon ws) <= 5 * length ws)%nat.
Proof.
  induction 1 as [|w ws Hw _ IH]; [done|]. rewrite words_colon_cons, length_app. cbn [length].
  pose proof (print_u16_length w Hw). lia.
Qed.

Lemma words_join_length ws : Forall is_word ws → (length (words_join ws) <= 5 * length ws)%nat.
Proof.
  intros Hws. destruct ws as [|v ws _] using rev_ind; [done|]. rewrite words_join_snoc, !length_app. cbn [length].
  apply Forall_app in Hws as [Hws Hv]. inversion Hv; subst.
  pose proof (words_colon_length ws Hws). pose proof (print_u16_length v ltac:(done)). lia.
Qed.

Lemma hex_chars w c : is_word w → c ∈ print_u 16 w → is_digit_of 16 c = true.
Proof. intros [Hw _]. exact (proj1 (Forall_forall _ _) (print_u_chars 16 w ltac:(done) Hw) c). Qed.

(** The characters of the text: hexadecimal digits and colons. *)
Lemma words_colon_chars ws c : Forall is_word ws → c ∈ words_colon ws → c = 58 ∨ is_digit_of 16 c = true.
Proof.
  induction 1 as [|w ws Hw _ IH]; [by intros ?%not_elem_of_nil|].
  rewrite words_colon_cons, elem_of_app, elem_of_cons. intros [H|[H|H]]; [|by left|by apply IH].
  right. by eapply hex_chars.
Qed.

Lemma words_join_chars ws c : Forall is_word ws → c ∈ words_join ws → c = 58 ∨ is_digit_of 16 c = true.
Proof.
  intros Hws. destruct ws as [|v ws _] using rev_ind; [by intros ?%not_elem_of_nil|].
  apply Forall_app in Hws as [Hws Hv]. inversion Hv; subst.
  rewrite words_join_snoc, elem_of_app. intros [H|H]; [by apply (words_colon_chars ws)|].
  right. by eapply hex_chars.
Qed.

Section print.
Implicit Types (words : list Z) (buf : bytes).

Lemma put_ok c buf : (length buf < 64)%nat → put c buf = Some (buf ++ [c]).
Proof. intros H. unfold put. by rewrite evassert_true by (by apply Nat.ltb_lt). Qed.

Lemma put_word_ok w buf : 0 <= w < 65536 → (length buf < 60)%nat → put_word w buf = buf ++ print_u 16 w.
Proof.
  intros Hw Hb. unfold put_word. pose proof (print_u16_length w Hw). by rewrite snprintf_fits by lia.
Qed.

Lemma word_in words i : Forall is_word words → length words = 8%nat → is_word (word words i).
Proof.
  intros Hw Hl. unfold word. destruct (words !! Z.to_nat i) as [w|] eqn:E; cbn; [|lia].
  exact (proj1 (Forall_lookup _ _) Hw _ _ E).
Qed.

Lemma drop_word words (i : nat) : length words = 8%nat → (i < 8)%nat →
  drop i words = word words (Z.of_nat i) :: drop (S i) words.
Proof.
  intros Hl Hi. unfold word. rewrite Nat2Z.id. destruct (lookup_some_lt words i) as [w Hw]; [lia|].
  rewrite Hw. cbn. by rewrite (drop_S _ _ _ Hw).
Qed.

(** After the gap (or without one) the words that are left are joined. *)
Lemma print_words_tail words gap k (i : nat) fuel buf :
  Forall is_word words → length words = 8%nat → (i + k = 8)%nat → gap < Z.of_nat i → (k < fuel)%nat →
  (length buf + 5 * k <= 60)%nat →
  print_words fuel words gap (Z.of_nat i) buf = Some (buf ++ words_join (drop i words)).
Proof.
  intros Hw Hl. revert i fuel buf. induction k as [|k IH]; intros i fuel buf Hik Hgap Hf Hb;
    (destruct fuel as [|fuel]; [lia|]); cbn [print_words].
  - rewrite (proj2 (Z.ltb_ge _ 8)) by lia. cbn. by rewrite drop_ge, app_nil_r by lia.
  - rewrite (proj2 (Z.ltb_lt _ 8)) by lia. cbn [negb].
    rewrite (proj2 (Z.eqb_neq gap _)) by lia. rewrite andb_false_r. cbv zeta.
    pose proof (word_in words (Z.of_nat i) Hw Hl) as Hwi. pose proof (print_u16_length _ Hwi).
    rewrite put_word_ok by (done || lia). rewrite (drop_word words i Hl) by lia.
    replace (Z.of_nat i + 1) with (Z.of_nat (S i)) by lia.
    destruct (Z.eqb_spec (Z.of_nat i) 7) as [E|E]; cbn [negb].
    + rewrite bind_some_eq. assert (i = 7%nat) as -> by lia.
      destruct fuel as [|fuel]; [lia|]. cbn [print_words]. rewrite (proj2 (Z.ltb_ge _ 8)) by lia. cbn [negb].
      by rewrite (drop_ge words 8) by lia.
    + rewrite put_ok by (rewrite length_app; lia). rewrite bind_some_eq.
      rewrite IH by (rewrite ?length_app; cbn [length]; lia).
      rewrite (drop_word words (S i) Hl), words_join_cons by lia. by rewrite <- !app_assoc.
Qed.

(** Before the gap every word is followed by a colon. *)
Lemma print_words_head words (gap i : nat) fuel buf k :
  Forall is_word words → length words = 8%nat → (gap < 8)%nat → (i + k = gap)%nat →
  (length buf + 5 * k <= 55)%nat →
  print_words (k + fuel) words (Z.of_nat gap) (Z.of_nat i) buf =
  print_words fuel words (Z.of_nat gap) (Z.of_nat gap) (buf ++ words_colon (take k (drop i words))).
Proof.
  intros Hw Hl Hg. revert i buf. induction k as [|k IH]; intros i buf Hik Hb.
  - cbn [Nat.add take]. rewrite app_nil_r. by replace i with gap by lia.
  - cbn [Nat.add print_words]. rewrite (proj2 (Z.ltb_lt _ 8)) by lia. cbn [negb].
    rewrite (proj2 (Z.eqb_neq (Z.of_nat gap) _)) by lia. rewrite andb_false_r. cbv zeta.
    pose proof (word_in words (Z.of_nat i) Hw Hl) as Hwi. pose proof (print_u16_length _ Hwi).
    rewrite put_word_ok by (done || lia). rewrite (proj2 (Z.eqb_neq _ 7)) by lia. cbn [negb].
    rewrite put_ok by (rewrite length_app; lia). rewrite bind_some_eq.
    replace (Z.of_nat i + 1) with (Z.of_nat (S i)) by lia.
    rewrite IH by (rewrite ?length_app; cbn [length]; lia).
    rewrite (drop_word words i Hl) by lia. cbn [take]. rewrite words_colon_cons. by rewrite <- !app_assoc.
Qed.
End print.

(** ** The longest gap

    The search depends only on which words are zero, so it is checked for the
    256 patterns of zero words. *)

Section gap.
Implicit Types words : list Z.

Definition zero_pattern words : list Z := (λ w, if w =? 0 then 0 else 1) <$> words.

Lemma word_pattern words i : (i < 8)%Z → length words = 8%nat → (word (zero_pattern words) i =? 0) = (word words i =? 0).
Proof.
  intros Hi Hl. unfold word, zero_pattern. rewrite list_lookup_fmap.
  destruct (words !! Z.to_nat i) as [w|]; [|done]. cbn. by destruct (Z.eqb_spec w 0).
Qed.

Lemma zero_run_pattern fuel words i n : length words = 8%nat →
  zero_run fuel (zero_pattern words) i n = zero_run fuel words i n.
Proof.
  intros Hl. revert i n. induction fuel as [|fuel IH]; intros i n; [done|]. cbn [zero_run].
  destruct (Z.ltb_spec i 8); [|done]. rewrite word_pattern by done. by rewrite IH.
Qed.

Lemma gap_loop_pattern fuel words i p n : length words = 8%nat →
  gap_loop fuel (zero_pattern words) i p n = gap_loop fuel words i p n.
Proof.
  intros Hl. revert i p n. induction fuel as [|fuel IH]; intros i p n; [done|]. cbn [gap_loop].
  destruct (Z.ltb_spec i 8); [|done]. rewrite word_pattern, zero_run_pattern by done.
  destruct (zero_run _ _ _ _). by rewrite !IH.
Qed.

(** What the search returns: nothing, or a run of zeros that ends at a word that
    is not zero or at the last word. *)
Definition gap_right words : bool :=
  let '(p, n) := gap_loop 8 words 0 (-1) 0 in
  ((p =? -1) && (n =? 0)) ||
  ((0 <=? p) && (1 <=? n) && (p + n <=? 8) && forallb (λ k, word words k =? 0) (seqZ p n) &&
   bool_decide (zero_run 8 words p 0 = (p + n, n))).

Fixpoint patterns (n : nat) : list (list Z) :=
  match n with O => [[]] | S n => (cons 0 <$> patterns n) ++ (cons 1 <$> patterns n) end.

Lemma patterns_all words : zero_pattern words ∈ patterns (length words).
Proof.
  induction words as [|w words IH]; [by left|]. cbn. rewrite elem_of_app, !list_elem_of_fmap.
  destruct (w =? 0); [left|right]; eauto.
Qed.

Lemma gap_right_all : forallb gap_right (patterns 8) = true.
Proof. vm_compute. reflexivity. Qed.

Lemma gap_spec words : length words = 8%nat →
  let '(p, n) := gap_loop 8 words 0 (-1) 0 in
  (p = -1 ∧ n = 0) ∨
  (0 <= p ∧ 1 <= n ∧ p + n <= 8 ∧ (∀ k, p <= k < p + n → word words k = 0) ∧ zero_run 8 words p 0 = (p + n, n)).
Proof.
  intros Hl. pose proof gap_right_all as H. rewrite forallb_forall in H.
  specialize (H (zero_pattern words)). rewrite <- list_elem_of_In in H.
  pose proof (patterns_all words) as Hp. rewrite Hl in Hp. specialize (H Hp).
  unfold gap_right in H. rewrite gap_loop_pattern in H by done.
  destruct (gap_loop 8 words 0 (-1) 0) as [p n]. apply orb_true_iff in H as [H|H].
  { left. apply andb_true_iff in H as [?%Z.eqb_eq ?%Z.eqb_eq]. done. }
  right. rewrite !andb_true_iff, !Z.leb_le, bool_decide_eq_true, zero_run_pattern in H by done.
  destruct H as ((((? & ?) & ?) & Hz) & Hr). split_and!; try done.
  intros k Hk. rewrite forallb_forall in Hz. specialize (Hz k).
  rewrite <- list_elem_of_In, elem_of_seqZ, word_pattern in Hz by lia. by apply Z.eqb_eq, Hz.
Qed.

(** So the words are split at the gap. *)
Lemma gap_split words (p n : nat) : length words = 8%nat → (p + n <= 8)%nat →
  (∀ k, Z.of_nat p <= k < Z.of_nat p + Z.of_nat n → word words k = 0) →
  words = take p words ++ replicate n 0 ++ drop (p + n) words.
Proof.
  intros Hl Hpn Hz. rewrite <- (take_drop p words) at 1. f_equal.
  rewrite <- (take_drop n (drop p words)) at 1. rewrite drop_drop. f_equal.
  apply list_eq. intros k. destruct (decide (k < n)%nat).
  - rewrite lookup_take_lt, lookup_drop, lookup_replicate_2 by done.
    destruct (lookup_some_lt words (p + k)) as [w Hw]; [lia|]. rewrite Hw. f_equal.
    specialize (Hz (Z.of_nat (p + k)) ltac:(lia)). unfold word in Hz. by rewrite Nat2Z.id, Hw in Hz.
  - rewrite !lookup_ge_None_2; [done|rewrite length_replicate; lia|rewrite length_take; lia].
Qed.

(** The text of the words. *)
Definition gap_text (a b : list Z) : bytes :=
  words_colon a ++ (if decide (a = []) then [58; 58] else [58]) ++ words_join b.

Lemma print_words_gap words (p n : nat) :
  Forall is_word words → length words = 8%nat → (p + n <= 8)%nat → (1 <= n)%nat →
  word words (Z.of_nat p) = 0 → zero_run 8 words (Z.of_nat p) 0 = (Z.of_nat p + Z.of_nat n, Z.of_nat n) →
  print_words 9 words (Z.of_nat p) 0 [] = Some (gap_text (take p words) (drop (p + n) words)).
Proof.
  intros Hw Hl Hpn Hn Hz Hrun. change 0 with (Z.of_nat 0) at 1.
  replace 9%nat with (p + S (8 - p))%nat by lia.
  rewrite print_words_head by (cbn [length]; lia || done). rewrite drop_0. cbn [app print_words].
  rewrite (proj2 (Z.ltb_lt _ 8)), Hz, !Z.eqb_refl by lia. cbn [negb andb].
  pose proof (words_colon_length (take p words) ltac:(by apply Forall_take)). rewrite length_take in *.
  rewrite Hrun. replace (Z.of_nat p + Z.of_nat n) with (Z.of_nat (p + n)) by lia.
  destruct (Z.eqb_spec (Z.of_nat p) 0) as [E|E].
  - assert (p = O) as -> by lia. change (words_colon (take 0 words)) with (@nil Z).
    do 2 (rewrite put_ok by (cbn; lia); rewrite bind_some_eq).
    rewrite (print_words_tail words _ (8 - n)) by (cbn [length app]; try lia; done). done.
  - rewrite bind_some_eq. rewrite put_ok by lia. rewrite bind_some_eq.
    rewrite (print_words_tail words _ (8 - (p + n))) by (rewrite ?length_app; cbn [length]; try lia; done).
    unfold gap_text. rewrite decide_False; [by rewrite <- app_assoc|].
    intros E'. apply (f_equal length) in E'. rewrite length_take in E'. cbn in E'. lia.
Qed.
End gap.

(** ** Parsing what was printed *)

Section parse.
Implicit Types (old : list (option Z)) (ws : list Z) (D gap : Z).

(** The state after the words [ws], with [old] in the rest of the array. *)
Definition at_words ws old D gap : pton_state :=
  mk_pton ((Some <$> ws) ++ old) (Z.of_nat (length ws)) (Z.of_nat (length ws) + D) gap.

Lemma hex_first w rest : is_word w → EVUTIL_ISXDIGIT_ (char_at (print_u 16 w ++ rest) 0) = true.
Proof.
  intros Hw. destruct (print_u_cons 16 w) as (c & s & E). rewrite E. cbn.
  assert (is_digit_of 16 c = true) as Hc by (apply (hex_chars w); [done|rewrite E; by left]).
  rewrite isxdigit_digit; [done|]. apply digit_char_cases in Hc; [|lia]. unfold is_byte. lia.
Qed.

Lemma store_at_words ws x old w : store_at (length ws) (Some w) ((Some <$> ws) ++ x :: old) = Some ((Some <$> ws ++ [w]) ++ old).
Proof.
  rewrite store_at_ok by (rewrite length_app, length_fmap; cbn; lia).
  rewrite insert_app_r_alt by (by rewrite length_fmap). rewrite length_fmap, Nat.sub_diag. cbn.
  by rewrite fmap_app, <- app_assoc.
Qed.

(** One word, and what the code does when it has been read. *)
Lemma loop_read fuel w rest left ws x old D gap :
  is_word w → stops 16 rest → 0 < left → (length ws <= 7)%nat →
  pton_loop (S fuel) (print_u 16 w ++ rest) left (at_words ws (x :: old) D gap) =
  if negb (char_at rest 0 =? 58) && negb (Z.of_nat (length (print_u 16 w)) =? left) then Some None
  else pton_loop fuel (drop 1 rest) (left - Z.of_nat (length (print_u 16 w)) - 1) (at_words (ws ++ [w]) old D gap).
Proof.
  cbv beta. intros Hw Hr Hleft Hl. cbn [pton_loop at_words p_i p_words p_setWords p_gapPos].
  rewrite (proj2 (Z.ltb_lt 0 _)), (proj2 (Z.ltb_ge 7 _)) by lia. cbn [negb]. cbv zeta.
  rewrite hex_first, strtol_print by (done || lia). pose proof (print_u16_length w Hw).
  rewrite length_app. replace (length (print_u 16 w) + length rest - length rest)%nat with (length (print_u 16 w)) by lia.
  rewrite (proj2 (Z.ltb_ge 4 _)), (proj2 (Z.eqb_neq _ 0)), (proj2 (Z.ltb_ge w 0)), (proj2 (Z.ltb_ge 65536 w)) by lia.
  cbn [orb]. rewrite wrap_small, Nat2Z.id, store_at_words, bind_some_eq by lia.
  unfold at_words. rewrite length_app. cbn [length]. case_match; [done|]. f_equal. f_equal; lia.
Qed.

Lemma loop_word fuel w rest left ws x old D gap :
  is_word w → 0 < left → (length ws <= 7)%nat →
  pton_loop (S fuel) (print_u 16 w ++ 58 :: rest) left (at_words ws (x :: old) D gap) =
  pton_loop fuel rest (left - Z.of_nat (length (print_u 16 w)) - 1) (at_words (ws ++ [w]) old D gap).
Proof. intros. by rewrite loop_read by eauto with ev. Qed.

Lemma loop_end fuel src left st : left <= 0 → pton_loop (S fuel) src left st = Some (Some st).
Proof. intros. cbn [pton_loop]. by rewrite (proj2 (Z.ltb_ge _ _)) by lia. Qed.

Lemma loop_words vs rest fuel left ws old D gap :
  Forall is_word vs → (length ws + length vs <= 8)%nat → (length vs <= length old)%nat →
  Z.of_nat (length (words_colon vs)) <= left →
  pton_loop (length vs + fuel) (words_colon vs ++ rest) left (at_words ws old D gap) =
  pton_loop fuel rest (left - Z.of_nat (length (words_colon vs))) (at_words (ws ++ vs) (drop (length vs) old) D gap).
Proof.
  intros Hvs. revert left ws old. induction Hvs as [|w vs Hw Hvs IH]; intros left ws old Hl Ho Hleft.
  - cbn. by rewrite app_nil_r, Z.sub_0_r.
  - rewrite words_colon_cons, length_app in Hleft. cbn [length] in *. destruct old as [|x old]; cbn [length] in Ho; [lia|].
    rewrite words_colon_cons, <- app_assoc. cbn [app Nat.add drop]. rewrite loop_word by (done || lia).
    rewrite IH by (rewrite ?length_app; cbn [length]; lia).
    rewrite <- app_assoc, length_app. cbn [length app]. f_equal. lia.
Qed.

(** The words at the end of the text. *)
Lemma loop_join vs ws old D gap :
  Forall is_word vs → (length ws + length vs <= 8)%nat → (length vs <= length old)%nat →
  pton_loop (S (length vs)) (words_join vs) (Z.of_nat (length (words_join vs))) (at_words ws old D gap) =
  Some (Some (at_words (ws ++ vs) (drop (length vs) old) D gap)).
Proof.
  intros Hvs Hl Ho. destruct vs as [|v vs _] using rev_ind.
  { cbn [words_join length]. rewrite loop_end by (cbn; lia). by rewrite app_nil_r. }
  apply Forall_app in Hvs as [Hvs Hv]. inversion Hv as [|?? Hv' _]; subst. rewrite !length_app in *. cbn [length] in *.
  rewrite words_join_snoc. replace (S (length vs + 1)) with (length vs + 2)%nat by lia.
  rewrite loop_words by (rewrite ?length_app; (done || lia)).
  destruct (drop (length vs) old) as [|x old'] eqn:Eo.
  { apply (f_equal length) in Eo. rewrite length_drop in Eo. cbn in Eo. lia. }
  rewrite <- (app_nil_r (print_u 16 v)) at 1. pose proof (print_u16_length v Hv').
  rewrite loop_read by (rewrite ?length_app; eauto with ev; lia). rewrite length_app.
  rewrite (proj2 (Z.eqb_eq (Z.of_nat (length (print_u 16 v))) _)) by lia. rewrite andb_false_r.
  rewrite loop_end by lia. rewrite <- app_assoc. rewrite <- drop_drop, Eo. done.
Qed.

Lemma pton_loop_mono f f' src left st r : pton_loop f src left st = Some r → (f <= f')%nat → pton_loop f' src left st = Some r.
Proof.
  revert f' src left st. induction f as [|f IH]; intros f' src left st; [done|].
  destruct f' as [|f']; [lia|]. cbn [pton_loop]. intros H Hle.
  destruct (0 <? left); [|done]. cbn [negb] in *. destruct (7 <? p_i st); [done|].
  destruct (EVUTIL_ISXDIGIT_ _).
  - destruct (strtol 16 src) as [v next]. cbv zeta in *. repeat (case_match; [done|]).
    destruct (store_at _ _ _) as [words|]; [|done]. rewrite bind_some_eq in H |- *.
    destruct (negb (char_at next 0 =? 58) && _); [done|]. apply IH; [done|lia].
  - case_match; [apply IH; [done|lia]|]. case_match; [apply IH; [done|lia]|done].
Qed.

(** A colon after the words [a]: the gap. *)
Lemma loop_gap fuel rest left a old D : a ≠ [] → (length a <= 7)%nat → 0 < left →
  pton_loop (S fuel) (58 :: rest) left (at_words a old D (-1)) =
  pton_loop fuel rest (left - 1) (at_words a old D (Z.of_nat (length a))).
Proof.
  intros Ha Hl Hleft. assert (0 < length a)%nat by (destruct a; [done|cbn; lia]).
  cbn [pton_loop at_words p_i p_words p_setWords p_gapPos].
  rewrite (proj2 (Z.ltb_lt 0 left)), (proj2 (Z.ltb_ge 7 _)) by lia. cbn [negb]. cbv zeta.
  change (EVUTIL_ISXDIGIT_ (char_at (58 :: rest) 0)) with false. cbv iota.
  rewrite (proj2 (Z.ltb_lt 0 (Z.of_nat _))) by lia. done.
Qed.

(** Two colons at the start. *)
Lemma loop_gap_start fuel rest left old D : 0 < left →
  pton_loop (S fuel) (58 :: 58 :: rest) left (at_words [] old D (-1)) = pton_loop fuel rest (left - 2) (at_words [] old D 0).
Proof. intros Hleft. cbn [pton_loop]. by rewrite (proj2 (Z.ltb_lt 0 left)) by lia. Qed.

Lemma loop_gap_text a b fuel :
  Forall is_word a → Forall is_word b → (length a + length b <= 6)%nat → (length a + S (S (length b)) <= fuel)%nat →
  pton_loop fuel (gap_text a b) (Z.of_nat (length (gap_text a b))) (at_words [] (replicate 8 None) 0 (-1)) =
  Some (Some (at_words (a ++ b) (replicate (8 - length a - length b) None) 0 (Z.of_nat (length a)))).
Proof.
  intros Ha Hb Hl Hf. eapply pton_loop_mono; [|exact Hf]. unfold gap_text.
  destruct (decide (a = [])) as [->|Hne].
  - cbn [length Nat.add app]. change (words_colon []) with (@nil Z). cbn [app length].
    rewrite loop_gap_start by lia. replace (Z.of_nat (S (S (length (words_join b)))) - 2)
      with (Z.of_nat (length (words_join b))) by lia.
    rewrite loop_join by (rewrite ?length_replicate; cbn [length] in *; (done || lia)).
    by rewrite drop_replicate, Nat.sub_0_r.
  - rewrite loop_words by (rewrite ?length_app, ?length_replicate; cbn [length]; (done || lia)).
    rewrite length_app. cbn [app length]. rewrite loop_gap by (done || lia).
    replace (Z.of_nat _ - _ - 1) with (Z.of_nat (length (words_join b))) by lia.
    rewrite loop_join by (rewrite ?length_drop, ?length_replicate; (done || lia)).
    by rewrite !drop_replicate.
Qed.

Lemma text_no_dot a b : Forall is_word a → Forall is_word b → strchr 46 (gap_text a b) = None ∧ strchr 46 (words_join a) = None.
Proof.
  intros Ha Hb. split; apply strchr_none; intros Hin.
  - unfold gap_text in Hin. rewrite !elem_of_app in Hin. destruct Hin as [Hin|[Hin|Hin]].
    + by apply words_colon_chars in Hin as [?|?].
    + destruct (decide (a = [])); set_solver by done.
    + by apply words_join_chars in Hin as [?|?].
  - by apply words_join_chars in Hin as [?|?].
Qed.

Lemma pton6_gap a b : Forall is_word a → Forall is_word b → (length a + length b <= 6)%nat →
  pton6 (gap_text a b) =
  Some (1, Some (In6Addr (mjoin (word_bytes <$> a ++ replicate (8 - length a - length b) 0 ++ b)))).
Proof.
  intros Ha Hb Hl. unfold pton6. rewrite (proj1 (text_no_dot a b Ha Hb)).
  assert (length a + S (S (length b)) <= S (length (gap_text a b)))%nat as Hf.
  { unfold gap_text. rewrite !length_app.
    assert (∀ l, Forall is_word l → 2 * length l <= length (words_colon l))%nat as Hc.
    { induction 1 as [|w l Hw _ IH]; [done|]. rewrite words_colon_cons, length_app. cbn [length].
      pose proof (print_u16_length w Hw). lia. }
    pose proof (Hc a Ha). assert (length b <= length (words_join b))%nat.
    { destruct b as [|v b _] using rev_ind; [done|]. apply Forall_app in Hb as [Hb Hv]. inversion Hv; subst.
      rewrite words_join_snoc, !length_app. pose proof (Hc b Hb). pose proof (print_u16_length v ltac:(done)). cbn [length]. lia. }
    destruct (decide (a = [])); cbn [length]; destruct a; cbn [length] in *; try done; lia. }
  change (mk_pton (replicate 8 None) 0 0 (-1)) with (at_words [] (replicate 8 None) 0 (-1)).
  rewrite (loop_gap_text a b _ Ha Hb Hl Hf). rewrite bind_some_eq.
  unfold at_words. rewrite fmap_app, <- app_assoc.
  pose proof (finish_gap false a b (replicate (8 - length a - length b) None) []) as H.
  rewrite length_app, Z.add_0_r. rewrite length_replicate in H. cbn [length fmap list_fmap] in H.
  rewrite !Nat.add_0_r, !app_nil_r in H. apply H; [done|lia|].
  intros E. apply (f_equal length) in E. rewrite length_replicate in E. cbn in E. lia.
Qed.

Lemma pton6_join ws : Forall is_word ws → length ws = 8%nat →
  pton6 (words_join ws) = Some (1, Some (In6Addr (mjoin (word_bytes <$> ws)))).
Proof.
  intros Hws Hl. unfold pton6. rewrite (proj2 (text_no_dot ws ws Hws Hws)).
  assert (length ws <= length (words_join ws))%nat as Hf.
  { clear Hl. induction Hws as [|w ws Hw Hws IH]; [done|]. pose proof (print_u16_length w Hw).
    destruct ws as [|v ws]; [cbn [length words_join]; lia|]. rewrite words_join_cons, length_app. cbn [length] in *. lia. }
  change (mk_pton (replicate 8 None) 0 0 (-1)) with (at_words [] (replicate 8 None) 0 (-1)).
  assert (pton_loop (S (length ws)) (words_join ws) (Z.of_nat (length (words_join ws)))
    (at_words [] (replicate 8 None) 0 (-1)) = Some (Some (at_words ws (drop (length ws) (replicate 8 None)) 0 (-1)))) as Hloop.
  { apply (loop_join ws []); [done|cbn; lia|]. rewrite length_replicate. lia. }
  rewrite (pton_loop_mono _ (S (length (words_join ws))) _ _ _ _ Hloop) by lia.
  rewrite bind_some_eq, drop_replicate, Hl. cbn [app Nat.sub replicate].
  pose proof (finish_full false ws [] eq_refl) as H. cbn [length fmap list_fmap] in H. rewrite !Nat.add_0_r, !app_nil_r in H.
  unfold at_words. rewrite Z.add_0_r, app_nil_r. apply H. done.
Qed.

Lemma back_digits_spec pre c ds rest :
  Forall (λ d, is_digit_of 10 d = true) ds → EVUTIL_ISDIGIT_ c = false →
  back_digits (length (pre ++ [c]) + length ds) ((pre ++ [c]) ++ ds ++ rest) = length (pre ++ [c]).
Proof.
  intros Hds Hc. revert rest. induction ds as [|d ds IH] using rev_ind; intros rest.
  - rewrite Nat.add_0_r, length_app. cbn [length]. replace (length pre + 1)%nat with (S (length pre)) by lia.
    cbn [back_digits]. unfold char_at. rewrite <- app_assoc, lookup_app_r, Nat.sub_diag by lia. cbn. by rewrite Hc.
  - apply Forall_app in Hds as [Hds Hd]. inversion Hd as [|?? Hd' _]; subst. rewrite (length_app ds). cbn [length].
    replace (length (pre ++ [c]) + (length ds + 1))%nat with (S (length (pre ++ [c]) + length ds)) by lia.
    cbn [back_digits]. replace (char_at _ _) with d.
    + rewrite isdigit_digit, Hd'; [|apply digit_char_cases in Hd'; [unfold is_byte; lia|lia]].
      rewrite <- (app_assoc ds). by apply IH.
    + unfold char_at. rewrite lookup_app_r by lia. replace (_ + _ - _)%nat with (length ds) by lia.
      rewrite <- app_assoc, lookup_app_r, Nat.sub_diag by lia. done.
Qed.

Lemma quad_word a b : is_byte a → is_byte b → u16 (Z.lor (Z.shiftl a 8) b) = a * 256 + b.
Proof. unfold is_byte. intros. rewrite lor_low by lia. apply wrap_small. lia. Qed.

Lemma quad_no_dot b : is_byte b → 46 ∉ print_u 10 b.
Proof.
  intros [Hb _] Hin. pose proof (print_u_chars 10 b ltac:(done) Hb) as H.
  by specialize (proj1 (Forall_forall _ _) H 46 Hin).
Qed.

Lemma print_quad_chars a b c d x : is_byte a → is_byte b → is_byte c → is_byte d → x ∈ print_quad a b c d →
  x = 46 ∨ is_digit_of 10 x = true.
Proof.
  unfold is_byte. intros Ha Hb Hc Hd. unfold print_quad. do 3 rewrite elem_of_app, elem_of_cons.
  assert (∀ n, 0 <= n → x ∈ print_u 10 n → is_digit_of 10 x = true) as H.
  { intros n Hn. exact (proj1 (Forall_forall _ _) (print_u_chars 10 n ltac:(done) Hn) x). }
  intros [?|[?|[?|[?|[?|[?|?]]]]]]; subst; auto; right; eapply H; try eassumption; lia.
Qed.

(** "::w:w:a.b.c.d" *)
Lemma pton6_quad vs b1 b2 b3 b4 :
  Forall is_word vs → (length vs <= 5)%nat → is_byte b1 → is_byte b2 → is_byte b3 → is_byte b4 →
  pton6 ([58; 58] ++ words_colon vs ++ print_quad b1 b2 b3 b4) =
  Some (1, Some (In6Addr (mjoin (word_bytes <$> replicate (6 - length vs) 0 ++ vs ++ [b1 * 256 + b2; b3 * 256 + b4])))).
Proof.
  intros Hvs Hl H1 H2 H3 H4. set (pre := [58; 58] ++ words_colon vs). rewrite app_assoc. fold pre.
  set (rest := print_u 10 b2 ++ 46 :: print_u 10 b3 ++ 46 :: print_u 10 b4).
  assert (print_quad b1 b2 b3 b4 = print_u 10 b1 ++ 46 :: rest) as Eq by done.
  assert (∃ pre', pre = pre' ++ [58]) as [pre' Epre].
  { unfold pre. destruct vs as [|v vs' _] using rev_ind; [by exists [58]|].
    exists ([58; 58] ++ words_colon vs' ++ print_u 16 v). unfold words_colon.
    rewrite fmap_app, join_app. cbn. by rewrite app_nil_r, !app_assoc. }
  assert (46 ∉ pre ++ print_u 10 b1) as Hnd.
  { rewrite elem_of_app. intros [Hin|Hin]; [|by apply quad_no_dot in Hin].
    unfold pre in Hin. rewrite elem_of_app in Hin. destruct Hin as [Hin|Hin]; [set_solver by done|].
    by apply words_colon_chars in Hin as [?|?]. }
  assert (length pre = 2 + length (words_colon vs))%nat as Hpre by done.
  unfold pton6. rewrite Eq at 1. rewrite app_assoc, strchr_app by done. rewrite length_app.
  destruct (length pre + length (print_u 10 b1))%nat as [|dot] eqn:Edot; [lia|]. rewrite <- Edot. cbv zeta.
  assert (back_digits (length pre + length (print_u 10 b1)) (pre ++ print_quad b1 b2 b3 b4) = length pre) as ->.
  { rewrite Epre, Eq. apply back_digits_spec; [|done]. apply print_u_chars; [done|]. unfold is_byte in *. lia. }
  rewrite drop_app_length, read_quad_print, !quad_word by done.
  set (ds := [b1 * 256 + b2; b3 * 256 + b4]). assert (length ds = 2%nat) as Hds by done.
  assert (pton_loop (S (length vs + 1)) (pre ++ print_quad b1 b2 b3 b4) (Z.of_nat (length pre))
    (at_words [] (replicate 6 None ++ (Some <$> ds)) 2 (-1)) =
    Some (Some (at_words vs (replicate (6 - length vs) None ++ (Some <$> ds)) 2 0))) as Hloop.
  { unfold pre. rewrite <- app_assoc. cbn [app length]. rewrite loop_gap_start by lia.
    rewrite loop_words by (cbn [length]; rewrite ?length_app, ?length_replicate; cbn [length]; (done || lia)).
    rewrite loop_end by lia. rewrite drop_app_le by (rewrite length_replicate; lia). by rewrite drop_replicate. }
  change (mk_pton _ 0 2 (-1)) with (at_words [] (replicate 6 None ++ (Some <$> ds)) 2 (-1)).
  rewrite (pton_loop_mono _ _ _ _ _ _ Hloop).
  - rewrite bind_some_eq. pose proof (finish_gap true [] vs (replicate (6 - length vs) None) ds eq_refl) as H.
    cbn [length app fmap list_fmap Nat.add] in H. rewrite length_replicate in H. rewrite Nat2Z.inj_add in H.
    apply H; [lia|]. intros E. apply (f_equal length) in E. rewrite length_replicate in E. cbn in E. lia.
  - rewrite length_app. unfold pre. cbn [length app].
    assert (∀ l, Forall is_word l → length l <= length (words_colon l))%nat as Hc.
    { induction 1 as [|w l Hw _ IH]; [done|]. rewrite words_colon_cons, length_app. cbn [length]. lia. }
    pose proof (Hc vs Hvs). lia.
Qed.
End parse.

(** ** The round trip *)

Definition valid_addr (a : inet_addr) : Prop :=
  match a with
  | InAddr x => 0 <= x < 2 ^ 32
  | In6Addr s6 => length s6 = 16%nat ∧ Forall is_byte s6
  | InOther _ => False
  end.

Definition family (a : inet_addr) : Z :=
  match a with InAddr _ => AF_INET | In6Addr _ => AF_INET6 | InOther f => f end.

Lemma word_of_bytes a b : is_byte a → is_byte b →
  u16 (u16 (Z.shiftl a 8) + b) = a * 256 + b ∧ is_word (a * 256 + b) ∧ word_bytes (a * 256 + b) = [a; b].
Proof.
  unfold is_byte. intros Ha Hb. rewrite Z.shiftl_mul_pow2, (wrap_small 16 (a * _)) by lia.
  rewrite wrap_small by lia. split_and!; try lia. unfold word_bytes. rewrite land_255, Z.shiftr_div_pow2 by lia.
  f_equal; [|f_equal]; Z.to_euclidean_division_equations; lia.
Qed.

Lemma words_of_spec s6 : length s6 = 16%nat → Forall is_byte s6 →
  let ws := words_of s6 in let b i := default 0 (s6 !! i) in
  length ws = 8%nat ∧ Forall is_word ws ∧ mjoin (word_bytes <$> ws) = s6 ∧
  drop 6 ws = [b 12%nat * 256 + b 13%nat; b 14%nat * 256 + b 15%nat].
Proof.
  intros Hl Hb. do 16 (destruct s6 as [|? s6]; [discriminate Hl|]). destruct s6; [|discriminate Hl].
  repeat match goal with H : Forall is_byte (_ :: _) |- _ => inversion H; subst; clear H end.
  cbv zeta. unfold words_of. cbn [seq fmap list_fmap Nat.mul Nat.add lookup list_lookup default from_option id].
  repeat match goal with |- context [u16 (u16 (Z.shiftl ?a 8) + ?b)] =>
    destruct (word_of_bytes a b) as (-> & ? & ?); [done|done|] end.
  split_and!; [done|repeat (apply List.Forall_cons; [done|]); apply List.Forall_nil| |done].
  cbn [mjoin list_join fmap list_fmap]. repeat match goal with H : word_bytes _ = _ |- _ => rewrite H; clear H end. done.
Qed.

Lemma byte_at s6 i : Forall is_byte s6 → is_byte (default 0 (s6 !! i)).
Proof.
  intros H. destruct (s6 !! i) as [x|] eqn:E; cbn; [|unfold is_byte; lia]. exact (proj1 (Forall_lookup _ _) H i x E).
Qed.

Lemma copy_text_fits t len : Z.of_nat (length t) < len → copy_text t len = Some t.
Proof.
  intros H. unfold copy_text, event_strlcpy_. rewrite (proj2 (Z.ltb_ge len _)), (proj2 (Z.eqb_neq len 0)) by lia.
  cbn [fst]. by rewrite strlcpy_loop_take, take_ge by lia.
Qed.

(** The addresses that hold an IPv4 address. *)
Lemma ntop6_quad s6 len : length s6 = 16%nat → Forall is_byte s6 → 46 <= len → is_ipv4_in6 (words_of s6) = true →
  ∃ t, evutil_inet_ntop (In6Addr s6) len = Some (Some t) ∧ (length t <= 45)%nat ∧ (93 ∉ t) ∧ pton6 t = Some (1, Some (In6Addr s6)).
Proof.
  intros Hl Hb Hlen Hq. destruct (words_of_spec s6 Hl Hb) as (Hw8 & Hws & Hj & Hd). cbv zeta in *.
  unfold evutil_inet_ntop. rewrite Hq. cbv zeta.
  pose proof (byte_at s6 12 Hb) as H12. pose proof (byte_at s6 13 Hb) as H13.
  pose proof (byte_at s6 14 Hb) as H14. pose proof (byte_at s6 15 Hb) as H15.
  set (q := print_quad _ _ _ _). pose proof (print_quad_length _ _ _ _ H12 H13 H14 H15) as Hq15. fold q in Hq15.
  set (vs := if word (words_of s6) 5 =? 0 then [] else [0xffff] : list Z).
  assert (words_of s6 = replicate (6 - length vs) 0 ++ vs ++ drop 6 (words_of s6)) as Ews.
  { unfold is_ipv4_in6 in Hq. rewrite !andb_true_iff, orb_true_iff, !andb_true_iff, !Z.eqb_eq in Hq.
    subst vs. revert Hq. generalize (words_of s6) Hw8.
    intros l Hl8. do 8 (destruct l as [|? l]; [discriminate Hl8|]). destruct l; [|discriminate Hl8].
    cbv [word lookup list_lookup Z.to_nat Pos.to_nat Pos.iter_op Nat.add default from_option id drop].
    intros ((((( -> & ->) & ->) & ->) & ->) & [[[-> _] _]| ->]); reflexivity. }
  exists ([58; 58] ++ words_colon vs ++ q).
  assert (length ([58%Z; 58%Z] ++ words_colon vs ++ q) <= 22)%nat as Hlen22.
  { assert (length (words_colon vs) <= 5)%nat by (unfold vs; destruct (_ =? 0); vm_compute; lia).
    rewrite !length_app. cbn [length]. lia. }
  split_and!; [|lia| |].
  - replace (if word (words_of s6) 5 =? 0 then _ else _) with ([58; 58] ++ words_colon vs ++ q).
    + rewrite snprintf_fits by lia. cbn [fst default from_option id]. by rewrite copy_text_fits by lia.
    + unfold vs. destruct (Z.eqb_spec (word (words_of s6) 5) 0) as [|Hne]; [done|].
      unfold is_ipv4_in6 in Hq. rewrite (proj2 (Z.eqb_neq _ 0) Hne) in Hq.
      apply andb_true_iff in Hq as [_ Hq]. cbn [andb orb] in Hq. apply Z.eqb_eq in Hq. by rewrite Hq.
  - rewrite !elem_of_app. intros [Hin|[Hin|Hin]]; [set_solver by done| |by apply print_quad_chars in Hin as [?|?]].
    revert Hin. unfold vs. destruct (_ =? 0); vm_compute; set_solver by done.
  - unfold q. rewrite pton6_quad; [|unfold vs; destruct (_ =? 0); repeat (apply List.Forall_cons; [lia|]); apply List.Forall_nil|unfold vs; destruct (_ =? 0); cbn; lia|done..].
    by rewrite <- Hd, <- Ews, Hj.
Qed.

Lemma ntop6_words s6 len : length s6 = 16%nat → Forall is_byte s6 → 46 <= len → is_ipv4_in6 (words_of s6) = false →
  ∃ t, evutil_inet_ntop (In6Addr s6) len = Some (Some t) ∧ (length t <= 45)%nat ∧ (93 ∉ t) ∧ pton6 t = Some (1, Some (In6Addr s6)).
Proof.
  intros Hl Hb Hlen Hq. destruct (words_of_spec s6 Hl Hb) as (Hw8 & Hws & Hj & _). cbv zeta in *.
  unfold evutil_inet_ntop. rewrite Hq. cbv zeta. set (ws := words_of s6) in *.
  pose proof (gap_spec ws Hw8) as Hgap. destruct (gap_loop 8 ws 0 (-1) 0) as [p n].
  destruct (Z.leb_spec n 1) as [Hn|Hn].
  - change 0 with (Z.of_nat 0) at 1. rewrite (print_words_tail ws (-1) 8 0 9 []) by (cbn; (done || lia)).
    rewrite bind_some_eq, drop_0. cbn [app]. exists (words_join ws). pose proof (words_join_length ws Hws).
    rewrite evassert_true by (apply Nat.ltb_lt; lia). rewrite bind_some_eq, copy_text_fits by lia.
    split_and!; [done|lia|by intros [?|?]%words_join_chars|]. by rewrite pton6_join, Hj.
  - destruct Hgap as [[_ ->]|(Hp & _ & Hpn & Hz & Hrun)]; [lia|].
    replace p with (Z.of_nat (Z.to_nat p)) in * by lia. replace n with (Z.of_nat (Z.to_nat n)) in * by lia.
    set (p' := Z.to_nat p) in *. set (n' := Z.to_nat n) in *.
    rewrite (print_words_gap ws p' n') by (try done; try lia; apply Hz; lia). rewrite bind_some_eq.
    pose proof (gap_split ws p' n' Hw8 ltac:(lia) Hz) as Hsplit.
    exists (gap_text (take p' ws) (drop (p' + n') ws)).
    assert (length (take p' ws) = p' ∧ length (drop (p' + n') ws) = 8 - (p' + n'))%nat as [L1 L2]
      by (rewrite length_take, length_drop; lia).
    assert (length (gap_text (take p' ws) (drop (p' + n') ws)) <= 32)%nat as Ht.
    { unfold gap_text. rewrite !length_app. pose proof (words_colon_length (take p' ws) ltac:(by apply Forall_take)).
      pose proof (words_join_length (drop (p' + n') ws) ltac:(by apply Forall_drop)).
      destruct (decide _); cbn [length]; lia. }
    rewrite evassert_true by (apply Nat.ltb_lt; lia). rewrite bind_some_eq, copy_text_fits by lia.
    split_and!; [done|lia| |].
    { unfold gap_text. rewrite !elem_of_app.
      intros [Hin|[Hin|Hin]]; [by apply words_colon_chars in Hin as [?|?]; [..|apply Forall_take]| |
        by apply words_join_chars in Hin as [?|?]; [..|apply Forall_drop]].
      destruct (decide _); set_solver by done. }
    rewrite pton6_gap by (try apply Forall_take; try apply Forall_drop; (done || lia)).
    rewrite L1, L2. replace (8 - p' - (8 - (p' + n')))%nat with n' by lia. by rewrite <- Hsplit, Hj.
Qed.

Lemma ntop_pton a len : valid_addr a → 46 <= len →
  ∃ t, evutil_inet_ntop a len = Some (Some t) ∧ (length t <= 45)%nat ∧ (93 ∉ t) ∧ evutil_inet_pton (family a) t = Some (1, Some a).
Proof.
  intros Ha Hlen. destruct a as [x|s6|f]; cbn [valid_addr family] in *; [| |done].
  - destruct (ntop4 x len Ha ltac:(lia)) as (a & b & c & d & H1 & H2 & H3 & H4 & -> & ->).
    exists (print_quad a b c d). pose proof (print_quad_length a b c d H1 H2 H3 H4).
    split_and!; [done|lia|by intros [?|?]%print_quad_chars|by apply pton4].
  - destruct Ha as [Hl Hb]. destruct (is_ipv4_in6 (words_of s6)) eqn:Hq; [by apply ntop6_quad|by apply ntop6_words].
Qed.

(** C21. Every address survives being printed and parsed: for any IPv4 or IPv6
    address and a buffer of at least 46 bytes, [evutil_inet_ntop] (which
    abbreviates the longest run of zero words and writes embedded IPv4 addresses
    as dotted quads) yields a string that [evutil_inet_pton] reads back as the
    same address. *)
Theorem inet_ntop_pton_roundtrip a len :
  valid_addr a → 46 <= len →
  ∃ t, evutil_inet_ntop a len = Some (Some t) ∧ Z.of_nat (length t) < 46 ∧
       evutil_inet_pton (family a) t = Some (1, Some a).
Proof. intros Ha Hlen. destruct (ntop_pton a len Ha Hlen) as (t & H1 & H2 & _ & H3). exists t. split_and!; [done|lia|done]. Qed.

(** [evutil_inet_pton] is safe on any string: it stops, never stores outside
    of its array of eight words, never reads a word it did not write, never takes
    the branch its comment calls impossible, and gives a complete address exactly
    when it returns 1. *)
Theorem inet_pton_safe af src :
  ∃ r a, evutil_inet_pton af src = Some (r, a) ∧
    (r = 1 → ∃ x, a = Some x ∧ family x = af ∧ valid_addr x) ∧ (r ≠ 1 → a = None) ∧
    (r = -1 ↔ af ≠ AF_INET ∧ af ≠ AF_INET6).
Proof.
  unfold evutil_inet_pton. destruct (Z.eqb_spec af AF_INET) as [->|H4].
  - destruct (read_quad src) as [[[[a b] c] d]|] eqn:E; [|exists 0, None; naive_solver].
    do 2 eexists. split_and!; [done| |done|naive_solver]. intros _. eexists. split_and!; [done..|].
    apply read_quad_bytes in E as (Ha & Hb & Hc & Hd). fold (be32 a b c d). cbn [valid_addr].
    rewrite htonl_be32_bytes, be32_add by done. unfold is_byte in *. lia.
  - destruct (Z.eqb_spec af AF_INET6) as [->|H6]; [|exists (-1), None; naive_solver].
    destruct (pton6_safe src) as (r & a & -> & [[-> ->]|[-> (s6 & -> & Hs)]]); do 2 eexists; split_and!; try done; naive_solver.
Qed.
