(* ===== verification/Addrinfo.v ===== *)
(** * Socket addresses as text, and looking up addresses without a resolver (evutil.c)

    Socket addresses with a port survive being printed and parsed.  The part of
    [getaddrinfo] that both resolvers share: the hints are completed, the service is
    looked up, and a node that is missing or is a numeric address is answered at
    once. *)

From S2P Require Import Prelude Clib Util Inet InetProps.

(** ** Printing and parsing *)

(** An address with a port that can be parsed (port 0 is refused), and none of
    the fields that are not printed. *)
Definition valid_sockaddr (sa : sockaddr) : Prop :=
  match sa with
  | SaIn sin => valid_addr (InAddr (sin_addr sin)) ∧ 0 <= sin_port sin < 65536 ∧ sin_port sin ≠ 0
  | SaIn6 sin6 => valid_addr (In6Addr (sin6_addr sin6)) ∧ 0 <= sin6_port sin6 < 65536 ∧ sin6_port sin6 ≠ 0 ∧
      sin6_flowinfo sin6 = 0 ∧ sin6_scope_id sin6 = 0
  | SaOther _ => False
  end.

Definition sizeof_sa (sa : sockaddr) : Z := match sa with SaIn _ => sizeof_sin | _ => sizeof_sin6 end.

Lemma htons_nonzero p : 0 <= p < 65536 → p ≠ 0 → 1 <= htons p <= 65535.
Proof.
  intros Hp Hne. destruct (htons_htons p Hp) as [H1 H2]. assert (htons p ≠ 0); [|lia].
  intros E. rewrite E in H1. by vm_compute in H1.
Qed.

Lemma print_d_port p : 1 <= p <= 65535 → print_d p = print_u 10 p ∧ (length (print_d p) <= 5)%nat ∧ (58 ∉ print_d p).
Proof.
  intros Hp. unfold print_d. rewrite (proj2 (Z.ltb_ge p 0)) by lia. split_and!; [done| |].
  - apply print_u_length; [done|change (10 ^ Z.of_nat 5) with 100000; lia|lia].
  - intros Hin. by pose proof (proj1 (Forall_forall _ _) (print_u_chars 10 p ltac:(done) ltac:(lia)) 58 Hin).
Qed.

Lemma parse_port_print p : 1 <= p <= 65535 → parse_port (Some (print_d p)) = Some p.
Proof.
  intros Hp. destruct (print_d_port p Hp) as [-> _]. unfold parse_port, atoi.
  rewrite <- (app_nil_r (print_u 10 p)), strtol_print by (eauto with ev; lia || done). cbn [fst].
  assert (i32 p = p) as -> by (unfold swrap; change (2 ^ (32 - 1)) with 2147483648; change (2 ^ 32) with 4294967296;
    Z.to_euclidean_division_equations; lia).
  by rewrite (proj2 (Z.leb_gt p 0)), (proj2 (Z.ltb_ge 65535 p)) by lia.
Qed.

(** "[t]:port" *)
Lemma split_bracket t p : (93 ∉ t) → (length t <= 127)%nat →
  split_sockaddr (91 :: t ++ 93 :: 58 :: p) = Some (true, t, Some p).
Proof.
  intros Ht Hl. unfold split_sockaddr. change (char_at (91 :: t ++ 93 :: 58 :: p) 0 =? 91) with true. cbv iota.
  rewrite app_comm_cons, strchr_app by (rewrite not_elem_of_cons; done). cbv zeta. cbn [length].
  replace (Z.of_nat (S (length t)) - 1) with (Z.of_nat (length t)) by lia.
  rewrite (proj2 (Z.ltb_ge _ _)), Nat2Z.id by lia. rewrite <- app_comm_cons. change (drop 1 (91 :: t ++ 93 :: 58 :: p)) with (t ++ 93 :: 58 :: p). rewrite take_app_length.
  assert (char_at (91 :: t ++ 93 :: 58 :: p) (S (length t) + 1) = 58) as ->.
  { change (default 0 ((t ++ 93 :: 58 :: p) !! (length t + 1)%nat) = 58). rewrite lookup_app_r by lia.
    by replace (length t + 1 - length t)%nat with 1%nat by lia. }
  change (drop (S (length t) + 2) (91 :: t ++ 93 :: 58 :: p)) with (drop (length t + 2) (t ++ 93 :: 58 :: p)).
  rewrite drop_app_ge by lia. by replace (length t + 2 - length t)%nat with 2%nat by lia.
Qed.

(** "a.b.c.d:port" *)
Lemma split_plain t p : (58 ∉ t) → char_at (t ++ 58 :: p) 0 ≠ 91 → (58 ∉ p) → (length t <= 127)%nat →
  split_sockaddr (t ++ 58 :: p) = Some (false, t, Some p).
Proof.
  intros Ht H0 Hp Hl. unfold split_sockaddr. rewrite (proj2 (Z.eqb_neq _ 91) H0), strchr_app by done. cbv zeta.
  assert (drop (length t + 1) (t ++ 58 :: p) = p) as ->.
  { rewrite drop_app_ge by lia. by replace (length t + 1 - length t)%nat with 1%nat by lia. }
  rewrite strchr_none by done. rewrite (proj2 (Z.ltb_ge _ _)) by lia. by rewrite take_app_length.
Qed.

Lemma format_parse sa outlen len : valid_sockaddr sa → 128 <= outlen → sizeof_sa sa <= len →
  ∃ t, evutil_format_sockaddr_port_ sa outlen = Some (Some t) ∧
       evutil_parse_sockaddr_port t len = Some (0, Some (sa, sizeof_sa sa)).
Proof.
  intros Hsa Hout Hlen. destruct sa as [[port addr]|[port flow addr scope]|f]; cbn in Hsa; [| |done].
  - destruct Hsa as (Ha & Hp & Hne). pose proof (htons_nonzero port Hp Hne) as Hport.
    destruct (print_d_port _ Hport) as (_ & Hl5 & Hc). destruct (htons_htons port Hp) as [Hhh _].
    destruct (ntop4 addr 128 Ha ltac:(lia)) as (a & b & c & d & H1 & H2 & H3 & H4 & E & Hntop).
    pose proof (print_quad_length a b c d H1 H2 H3 H4) as Hq.
    exists (print_quad a b c d ++ 58 :: print_d (htons port)). unfold evutil_format_sockaddr_port_, evutil_parse_sockaddr_port.
    cbn [sin_addr sin_port]. rewrite Hntop, bind_some_eq. split.
    { rewrite snprintf_fits; [done|]. rewrite length_app. cbn [length]. lia. }
    rewrite split_plain, parse_port_print; [|done|by intros [?|?]%print_quad_chars| |done|lia].
    + rewrite pton4, bind_some_eq by done. cbn [Z.eqb Pos.eqb negb sizeof_sa] in *.
      rewrite (proj2 (Z.ltb_ge len sizeof_sin)) by done. by rewrite Hhh, <- E.
    + unfold print_quad. destruct (print_u_cons 10 a) as (x & l & Ex). rewrite Ex. cbn.
      assert (is_digit_of 10 x = true) as Hx; [|intros ->; done].
      apply (proj1 (Forall_forall _ _) (print_u_chars 10 a ltac:(done) ltac:(unfold is_byte in H1; lia))). rewrite Ex. by left.
  - destruct Hsa as (Ha & Hp & Hne & -> & ->). pose proof (htons_nonzero port Hp Hne) as Hport.
    destruct (print_d_port _ Hport) as (_ & Hl5 & Hc). destruct (htons_htons port Hp) as [Hhh _].
    destruct (ntop_pton (In6Addr addr) 128 Ha ltac:(lia)) as (t & Hntop & Hl & H93 & Hpton).
    exists (91 :: t ++ 93 :: 58 :: print_d (htons port)). unfold evutil_format_sockaddr_port_, evutil_parse_sockaddr_port.
    cbn [sin6_addr sin6_port]. rewrite Hntop, bind_some_eq. split.
    { rewrite snprintf_fits; [done|]. cbn [length]. rewrite length_app. cbn [length]. lia. }
    rewrite split_bracket, parse_port_print by (done || lia). cbn [family] in Hpton. rewrite Hpton, bind_some_eq.
    cbn [Z.eqb Pos.eqb negb sizeof_sa] in *. rewrite (proj2 (Z.ltb_ge len sizeof_sin6)) by done. by rewrite Hhh.
Qed.

(** Socket addresses with a port survive being printed and parsed: what
    [evutil_format_sockaddr_port_] writes for an IPv4 or IPv6 address with a port
    other than 0, [evutil_parse_sockaddr_port] reads back as the same structure,
    and it sets the length to the size of the structure. *)
Theorem sockaddr_port_roundtrip sa outlen len :
  valid_sockaddr sa → 128 <= outlen → sizeof_sa sa <= len →
  ∃ t, evutil_format_sockaddr_port_ sa outlen = Some (Some t) ∧
       evutil_parse_sockaddr_port t len = Some (0, Some (sa, sizeof_sa sa)).
Proof. apply format_parse. Qed.

(** * Looking up addresses without a resolver (evutil.c) *)

Definition PF_UNSPEC : Z := 0.
Abbreviation PF_INET := AF_INET.
Abbreviation PF_INET6 := AF_INET6.
Definition SOCK_STREAM : Z := 1.
Definition SOCK_DGRAM : Z := 2.
Definition IPPROTO_TCP : Z := 6.
Definition IPPROTO_UDP : Z := 17.
Definition IPPROTO_SCTP : Z := 132.
Definition EVUTIL_AI_PASSIVE : Z := 1.
Definition EVUTIL_AI_NUMERICHOST : Z := 4.
Definition EVUTIL_AI_NUMERICSERV : Z := 1024.
Definition EVUTIL_AI_LIBEVENT_ALLOCATED : Z := Z.shiftl 1 31.

(** The results, in place of their numbers on the platform. *)
Inductive eai := EAI_OK | EAI_NONAME | EAI_FAMILY | EAI_MEMORY | EAI_NEED_RESOLVE.
#[export] Instance eai_eq_dec : EqDecision eai.
Proof. solve_decision. Defined.

(** The fields of [struct evutil_addrinfo] that are read of the hints. *)
Record hints_t := mk_hints { h_flags : Z; h_family : Z; h_socktype : Z; h_protocol : Z }.

(** An element of the list of results. *)
Record evutil_addrinfo := mk_ai {
  ai_flags : Z; ai_family : Z; ai_socktype : Z; ai_protocol : Z; ai_addr : sockaddr; ai_addrlen : Z
}.

Section addrinfo.

(** Whether the k-th allocation succeeds; [getservbyname] and
    [getprotobynumber]. *)
Context (mem : nat → bool) (getservbyname : bytes → option bytes → option Z) (getprotobynumber : Z → option bytes).

(** One element; [k] is the number of the allocation. *)
Definition new_one (k : nat) (sa : sockaddr) (socklen : Z) (socktype protocol : Z) : option evutil_addrinfo :=
  if mem k then Some (mk_ai EVUTIL_AI_LIBEVENT_ALLOCATED (sa_family sa) socktype protocol sa socklen) else None.

(** The list of one or two elements, NULL ([None]) when memory is missing. *)
Definition evutil_new_addrinfo_ (k : nat) (sa : sockaddr) (socklen : Z) (hints : hints_t) : option (list evutil_addrinfo) :=
  if (h_socktype hints =? 0) && (h_protocol hints =? 0) then
    r1 ← new_one k sa socklen SOCK_STREAM IPPROTO_TCP;
    r2 ← new_one (S k) sa socklen SOCK_DGRAM IPPROTO_UDP;
    Some [r1; r2]
  else
    r ← new_one k sa socklen (h_socktype hints) (h_protocol hints);
    Some [r].

(** Lists linked by [ai_next]; NULL is the empty list. *)
Definition evutil_addrinfo_append_ (first append : list evutil_addrinfo) : list evutil_addrinfo := first ++ append.

Definition parse_numeric_servname (servname : bytes) : Z :=
  let '(n, endptr) := strtol 10 servname in
  let n := i32 n in
  if (0 <=? n) && (n <=? 65535) && negb (char_at servname 0 =? 0) && (char_at endptr 0 =? 0) then n else -1.

Definition evutil_parse_servname (servname : bytes) (protocol : option bytes) (hints : hints_t) : Z :=
  let n := parse_numeric_servname servname in
  if 0 <=? n then n
  else if negb (h_flags hints &? EVUTIL_AI_NUMERICSERV) then
    match getservbyname servname protocol with Some s_port => ntohs s_port | None => -1 end
  else -1.

Definition evutil_unparse_protoname (proto : Z) : option bytes :=
  if proto =? 0 then None
  else if proto =? IPPROTO_TCP then Some (bytes_of_string "tcp")
  else if proto =? IPPROTO_UDP then Some (bytes_of_string "udp")
  else if proto =? IPPROTO_SCTP then Some (bytes_of_string "sctp")
  else getprotobynumber proto.

Definition evutil_getaddrinfo_infer_protocols (h : hints_t) : hints_t :=
  let h := if (h_protocol h =? 0) && negb (h_socktype h =? 0) then
             if h_socktype h =? SOCK_DGRAM then mk_hints (h_flags h) (h_family h) (h_socktype h) IPPROTO_UDP
             else if h_socktype h =? SOCK_STREAM then mk_hints (h_flags h) (h_family h) (h_socktype h) IPPROTO_TCP
             else h
           else h in
  if (h_socktype h =? 0) && negb (h_protocol h =? 0) then
    if h_protocol h =? IPPROTO_UDP then mk_hints (h_flags h) (h_family h) SOCK_DGRAM (h_protocol h)
    else if h_protocol h =? IPPROTO_TCP then mk_hints (h_flags h) (h_family h) SOCK_STREAM (h_protocol h)
    else if h_protocol h =? IPPROTO_SCTP then mk_hints (h_flags h) (h_family h) SOCK_STREAM (h_protocol h)
    else h
  else h.

(** The results for a missing node: the address to bind to or to connect to. *)
Definition no_node_answer (h : hints_t) (port : Z) : eai * list evutil_addrinfo :=
  let sin6 := mk_sin6 (htons port) 0 (if h_flags h &? EVUTIL_AI_PASSIVE then replicate 16 0 else LOOPBACK_S6) 0 in
  let sin := mk_sin (htons port) (if h_flags h &? EVUTIL_AI_PASSIVE then 0 else htonl 0x7f000001) in
  match (if negb (h_family h =? PF_INET) then evutil_new_addrinfo_ 0 (SaIn6 sin6) sizeof_sin6 h else Some []) with
  | None => (EAI_MEMORY, [])
  | Some res6 =>
    match (if negb (h_family h =? PF_INET6) then evutil_new_addrinfo_ 2 (SaIn sin) sizeof_sin h else Some []) with
    | None => (EAI_MEMORY, [])
    | Some res4 => (EAI_OK, evutil_addrinfo_append_ res4 res6)
    end
  end.

(** A node that is the address [sa] in numbers. *)
Definition numeric_answer (h : hints_t) (sa : sockaddr) (len : Z) : eai * list evutil_addrinfo :=
  match evutil_new_addrinfo_ 0 sa len h with None => (EAI_MEMORY, []) | Some res => (EAI_OK, res) end.

(** The result, the list of addresses and the port for the resolver. *)
Definition evutil_getaddrinfo_common_ (nodename servname : option bytes) (hints : hints_t) :
    option (eai * list evutil_addrinfo * Z) :=
  if bool_decide (nodename = None ∧ servname = None) then Some (EAI_NONAME, [], 0)
  else if negb (h_family hints =? PF_UNSPEC) && negb (h_family hints =? PF_INET) && negb (h_family hints =? PF_INET6)
  then Some (EAI_FAMILY, [], 0)
  else
    let h := evutil_getaddrinfo_infer_protocols hints in
    let pname := evutil_unparse_protoname (h_protocol h) in
    let port := match servname with Some s => evutil_parse_servname s pname h | None => 0 end in
    if port <? 0 then Some (EAI_NONAME, [], 0)
    else
      match nodename with
      | None => Some (no_node_answer h port, 0)
      | Some node =>
        a6 ← (if (h_family h =? PF_INET6) || (h_family h =? PF_UNSPEC)
              then '(r, a) ← evutil_inet_pton AF_INET6 node; Some (if r =? 1 then a else None) else Some None);
        match a6 with
        | Some (In6Addr s6) => Some (numeric_answer h (SaIn6 (mk_sin6 (htons port) 0 s6 0)) sizeof_sin6, 0)
        | _ =>
          a4 ← (if (h_family h =? PF_INET) || (h_family h =? PF_UNSPEC)
                then '(r, a) ← evutil_inet_pton AF_INET node; Some (if r =? 1 then a else None) else Some None);
          match a4 with
          | Some (InAddr x) => Some (numeric_answer h (SaIn (mk_sin (htons port) x)) sizeof_sin, 0)
          | _ =>
            if h_flags h &? EVUTIL_AI_NUMERICHOST then Some (EAI_NONAME, [], 0)
            else Some (EAI_NEED_RESOLVE, [], port)
          end
        end
      end.

(** ** Numeric nodes are answered at once *)

Lemma back_digits_all ds rest : Forall (λ d, is_digit_of 10 d = true) ds → back_digits (length ds) (ds ++ rest) = O.
Proof.
  revert rest. induction ds as [|d ds IH] using rev_ind; intros rest Hds; [done|].
  apply Forall_app in Hds as [Hds Hd]. inversion Hd as [|?? Hd' _]; subst. rewrite length_app. cbn [length].
  replace (length ds + 1)%nat with (S (length ds)) by lia. cbn [back_digits].
  replace (char_at _ _) with d.
  - rewrite isdigit_digit, Hd' by (apply digit_char_cases in Hd'; [unfold is_byte; lia|lia]).
    rewrite <- app_assoc. by apply IH.
  - unfold char_at. by rewrite <- app_assoc, lookup_app_r, Nat.sub_diag by lia.
Qed.

(** A dotted quad alone is not an IPv6 address. *)
Lemma pton6_plain_quad a b c d : is_byte a → is_byte b → is_byte c → is_byte d →
  pton6 (print_quad a b c d) = Some (0, None).
Proof.
  intros Ha Hb Hc Hd. pose proof (read_quad_print a b c d Ha Hb Hc Hd) as Hq. unfold pton6.
  assert (strchr 46 (print_quad a b c d) = Some (length (print_u 10 a))) as ->
    by (apply strchr_app; by apply quad_no_dot).
  destruct (length (print_u 10 a)) as [|k] eqn:E; [done|]. rewrite <- E. cbv zeta.
  assert (back_digits (length (print_u 10 a)) (print_quad a b c d) = O) as ->.
  { apply back_digits_all, print_u_chars; [done|unfold is_byte in Ha; lia]. }
  rewrite drop_0, Hq. rewrite loop_end by (cbn; lia). done.
Qed.

Lemma infer_family h : h_family (evutil_getaddrinfo_infer_protocols h) = h_family h ∧
  h_flags (evutil_getaddrinfo_infer_protocols h) = h_flags h.
Proof. destruct h. unfold evutil_getaddrinfo_infer_protocols. cbn. repeat case_match; cbn; done. Qed.

Lemma numeric_servname p : 0 <= p <= 65535 → parse_numeric_servname (print_u 10 p) = p.
Proof.
  intros Hp. unfold parse_numeric_servname.
  rewrite <- (app_nil_r (print_u 10 p)) at 1. rewrite strtol_print by (eauto with ev; (done || lia)).
  assert (i32 p = p) as -> by (unfold swrap; change (2 ^ (32 - 1)) with 2147483648; change (2 ^ 32) with 4294967296;
    Z.to_euclidean_division_equations; lia).
  rewrite (proj2 (Z.leb_le 0 p)), (proj2 (Z.leb_le p 65535)) by lia.
  assert (char_at (print_u 10 p) 0 ≠ 0) as Hne.
  { destruct (print_u_cons 10 p) as (c & s & E). rewrite E. cbn.
    assert (is_digit_of 10 c = true) as Hc; [|intros ->; done].
    apply (proj1 (Forall_forall _ _) (print_u_chars 10 p ltac:(done) ltac:(lia))). rewrite E. by left. }
  by rewrite (proj2 (Z.eqb_neq _ 0) Hne).
Qed.

(** The socket address of an address and a port. *)
Definition sockaddr_of (a : inet_addr) (port : Z) : sockaddr :=
  match a with
  | InAddr x => SaIn (mk_sin (htons port) x)
  | In6Addr s6 => SaIn6 (mk_sin6 (htons port) 0 s6 0)
  | InOther f => SaOther f
  end.

Definition answers (sa : sockaddr) (h : hints_t) (res : list evutil_addrinfo) : Prop :=
  res ≠ [] ∧ Forall (λ ai, ai_addr ai = sa ∧ ai_family ai = sa_family sa ∧
    (h_socktype h ≠ 0 → ai_socktype ai = h_socktype h) ∧ (h_protocol h ≠ 0 → ai_protocol ai = h_protocol h)) res.

Lemma new_addrinfo_answers k sa len h res :
  evutil_new_addrinfo_ k sa len h = Some res → answers sa h res.
Proof.
  unfold evutil_new_addrinfo_, new_one. intros H. split.
  - repeat case_match; cbn in H; congruence.
  - destruct (Z.eqb_spec (h_socktype h) 0), (Z.eqb_spec (h_protocol h) 0); cbn [andb] in H;
      repeat case_match; cbn in H; simplify_eq; repeat (apply List.Forall_cons; [naive_solver|]); apply List.Forall_nil.
Qed.

Lemma numeric_answer_spec sa len h : (∀ k, mem k = true) →
  ∃ res, numeric_answer h sa len = (EAI_OK, res) ∧ answers sa h res.
Proof.
  intros Hm. unfold numeric_answer. destruct (evutil_new_addrinfo_ 0 sa len h) as [res|] eqn:E.
  - exists res. split; [done|]. by apply new_addrinfo_answers in E.
  - exfalso. unfold evutil_new_addrinfo_, new_one in E. rewrite !Hm in E. case_match; done.
Qed.

Lemma ntop_text_kinds a t : valid_addr a → evutil_inet_ntop a 46 = Some (Some t) →
  evutil_inet_pton (family a) t = Some (1, Some a) ∧
  (family a = AF_INET → evutil_inet_pton AF_INET6 t = Some (0, None)).
Proof.
  intros Ha Ht. destruct (ntop_pton a 46 Ha ltac:(lia)) as (t' & Ht' & _ & _ & Hp). rewrite Ht in Ht'.
  injection Ht' as <-. split; [done|]. intros Hf. destruct a as [x|s6|f]; [|done|done].
  destruct (ntop4 x 46 Ha ltac:(lia)) as (a & b & c & d & H1 & H2 & H3 & H4 & _ & E). rewrite Ht in E.
  injection E as ->. unfold evutil_inet_pton. cbn [Z.eqb Pos.eqb AF_INET AF_INET6]. by apply pton6_plain_quad.
Qed.

(** A node that is an address in numbers is never sent to a resolver: for the
    text that [evutil_inet_ntop] gives for an address of a family the hints allow,
    and a service that is a port number, [evutil_getaddrinfo_common_] succeeds
    with a list that is not empty, every element of which has exactly that
    address and port and the socket type and protocol of the (completed) hints. *)
Theorem numeric_node_needs_no_resolver a t p h :
  valid_addr a → evutil_inet_ntop a 46 = Some (Some t) → 0 <= p <= 65535 →
  h_family h = PF_UNSPEC ∨ h_family h = family a → (∀ k, mem k = true) →
  ∃ res, evutil_getaddrinfo_common_ (Some t) (Some (print_u 10 p)) h = Some (EAI_OK, res, 0) ∧
    answers (sockaddr_of a p) (evutil_getaddrinfo_infer_protocols h) res.
Proof.
  intros Ha Ht Hp Hf Hm. destruct (ntop_text_kinds a t Ha Ht) as [Hpton H46].
  unfold evutil_getaddrinfo_common_. rewrite bool_decide_eq_false_2 by naive_solver.
  destruct (infer_family h) as [Hfam _].
  assert (negb (h_family h =? PF_UNSPEC) && negb (h_family h =? PF_INET) && negb (h_family h =? PF_INET6) = false) as ->.
  { destruct a; [..|done]; cbn [family] in Hf; destruct Hf as [-> | ->]; reflexivity. }
  cbv zeta. rewrite Hfam. set (h' := evutil_getaddrinfo_infer_protocols h).
  assert (∀ pn, evutil_parse_servname (print_u 10 p) pn h' = p) as Hserv.
  { intros pn. unfold evutil_parse_servname. rewrite numeric_servname by done. by rewrite (proj2 (Z.leb_le 0 p)) by lia. }
  rewrite Hserv. rewrite (proj2 (Z.ltb_ge p 0)) by lia.
  destruct a as [x|s6|f]; cbn [family] in *; [| |done].
  - destruct (numeric_answer_spec (SaIn (mk_sin (htons p) x)) sizeof_sin h' Hm) as (res & Hres & Hans).
    exists res. split; [|done]. destruct Hf as [-> | ->]; cbn [Z.eqb orb PF_UNSPEC AF_INET AF_INET6 Pos.eqb].
    + rewrite (H46 eq_refl). cbn [mbind option_bind]. rewrite Hpton. cbn [mbind option_bind Z.eqb Pos.eqb]. by rewrite Hres.
    + cbn [mbind option_bind]. rewrite Hpton. cbn [mbind option_bind Z.eqb Pos.eqb]. by rewrite Hres.
  - destruct (numeric_answer_spec (SaIn6 (mk_sin6 (htons p) 0 s6 0)) sizeof_sin6 h' Hm) as (res & Hres & Hans).
    exists res. split; [|done].
    assert ((h_family h =? PF_INET6) || (h_family h =? PF_UNSPEC) = true) as -> by (destruct Hf as [-> | ->]; reflexivity).
    rewrite Hpton. cbn [mbind option_bind Z.eqb Pos.eqb]. by rewrite Hres.
Qed.
End addrinfo.

(** * Concrete addresses *)

Definition addr_doc : bytes := [32; 1; 13; 184; 0; 0; 0; 0; 0; 0; 255; 0; 0; 66; 131; 41].
Definition addr_mapped : bytes := [0; 0; 0; 0; 0; 0; 0; 0; 0; 0; 255; 255; 192; 0; 2; 128].

Ltac bytes_ok := repeat (apply List.Forall_cons; [unfold is_byte; lia|]); apply List.Forall_nil.

Lemma addr_doc_ok : valid_addr (In6Addr addr_doc).
Proof. split; [reflexivity|]. unfold addr_doc. bytes_ok. Qed.

Example print_doc : evutil_inet_ntop (In6Addr addr_doc) 46 = Some (Some (bytes_of_string "2001:db8::ff00:42:8329")).
Proof. vm_compute. reflexivity. Qed.
Example print_mapped : evutil_inet_ntop (In6Addr addr_mapped) 46 = Some (Some (bytes_of_string "::ffff:192.0.2.128")).
Proof. vm_compute. reflexivity. Qed.

Lemma inet_ntop_pton_roundtrip_witness :
  ∃ t, evutil_inet_ntop (In6Addr addr_doc) 46 = Some (Some t) ∧
       evutil_inet_pton AF_INET6 t = Some (1, Some (In6Addr addr_doc)).
Proof.
  destruct (inet_ntop_pton_roundtrip (In6Addr addr_doc) 46 addr_doc_ok ltac:(lia)) as (t & H1 & _ & H2).
  exists t. split; [exact H1|exact H2].
Defined.

Definition sa_doc : sockaddr := SaIn6 (mk_sin6 (htons 8080) 0 addr_doc 0).

Lemma sockaddr_port_roundtrip_witness :
  ∃ t, evutil_format_sockaddr_port_ sa_doc 128 = Some (Some t) ∧
       evutil_parse_sockaddr_port t 28 = Some (0, Some (sa_doc, 28)).
Proof.
  apply (sockaddr_port_roundtrip sa_doc 128 28); [|lia|vm_compute; discriminate].
  split; [exact addr_doc_ok|]. split; [vm_compute; split; congruence|]. split; [vm_compute; congruence|]. split; reflexivity.
Defined.

(** The hints of an undecided caller: both a stream and a datagram socket. *)
Lemma numeric_node_witness :
  ∃ res, evutil_getaddrinfo_common_ (λ _, true) (λ _ _, None) (λ _, None)
    (Some (bytes_of_string "2001:db8::ff00:42:8329")) (Some (print_u 10 53)) (mk_hints 0 0 0 0) = Some (EAI_OK, res, 0) ∧
    answers (sockaddr_of (In6Addr addr_doc) 53) (mk_hints 0 0 0 0) res.
Proof.
  exact (numeric_node_needs_no_resolver (λ _, true) (λ _ _, None) (λ _, None) (In6Addr addr_doc)
    (bytes_of_string "2001:db8::ff00:42:8329") 53 (mk_hints 0 0 0 0) addr_doc_ok print_doc
    ltac:(lia) (or_introl eq_refl) (λ _, eq_refl)).
Defined.

(** A colon after the eighth word is accepted, and a word may start with 0x. *)
Example trailing_colon_accepted :
  evutil_inet_pton AF_INET6 (bytes_of_string "1:2:3:4:5:6:7:8:") =
  evutil_inet_pton AF_INET6 (bytes_of_string "1:2:3:4:5:6:7:8").
Proof. vm_compute. reflexivity. Qed.
Example hex_prefix_accepted :
  evutil_inet_pton AF_INET6 (bytes_of_string "0x1::") = evutil_inet_pton AF_INET6 (bytes_of_string "1::").
Proof. vm_compute. reflexivity. Qed.

(** With a buffer of exactly the length of the text the last character is lost
    and the call still succeeds. *)
Example exact_buffer_truncates :
  evutil_inet_ntop (In6Addr addr_doc) 22 = Some (Some (bytes_of_string "2001:db8::ff00:42:832")).
Proof. vm_compute. reflexivity. Qed.

(** Port 0 is printed but not parsed. *)
Example port_zero_refused :
  let t := bytes_of_string "127.0.0.1:0" in
  evutil_format_sockaddr_port_ (SaIn (mk_sin 0 (htonl 0x7f000001))) 128 = Some (Some t) ∧
  evutil_parse_sockaddr_port t 16 = Some (-1, None).
Proof. split; vm_compute; reflexivity. Qed.
