(* ===== verification/Uri.v ===== *)
(** * URIs (http.c)

    Encoding and decoding of the text of a URI, splitting a URI into its parts and
    joining the parts again.  A pair of pointers [s], [eos] is the text from [s]
    to the end of the string and the distance [eos - s]. *)

From S2P Require Import Prelude.
From S2P Require Import Clib.
From S2P Require Import Util.
From S2P Require Import Inet.

(** ** Encoding and decoding *)

Definition uri_chars : list Z :=
  [0; 0; 0; 0; 0; 0; 0; 0; 0; 0; 0; 0; 0; 0; 0; 0; 0; 0; 0; 0; 0; 0; 0; 0; 0; 0; 0; 0; 0; 0; 0; 0;
   0; 0; 0; 0; 0; 0; 0; 0; 0; 0; 0; 0; 0; 1; 1; 0; 1; 1; 1; 1; 1; 1; 1; 1; 1; 1; 0; 0; 0; 0; 0; 0;
   0; 1; 1; 1; 1; 1; 1; 1; 1; 1; 1; 1; 1; 1; 1; 1; 1; 1; 1; 1; 1; 1; 1; 1; 1; 1; 1; 0; 0; 0; 0; 1;
   0; 1; 1; 1; 1; 1; 1; 1; 1; 1; 1; 1; 1; 1; 1; 1; 1; 1; 1; 1; 1; 1; 1; 1; 1; 1; 1; 0; 0; 0; 1; 0;
   0; 0; 0; 0; 0; 0; 0; 0; 0; 0; 0; 0; 0; 0; 0; 0; 0; 0; 0; 0; 0; 0; 0; 0; 0; 0; 0; 0; 0; 0; 0; 0;
   0; 0; 0; 0; 0; 0; 0; 0; 0; 0; 0; 0; 0; 0; 0; 0; 0; 0; 0; 0; 0; 0; 0; 0; 0; 0; 0; 0; 0; 0; 0; 0;
   0; 0; 0; 0; 0; 0; 0; 0; 0; 0; 0; 0; 0; 0; 0; 0; 0; 0; 0; 0; 0; 0; 0; 0; 0; 0; 0; 0; 0; 0; 0; 0;
   0; 0; 0; 0; 0; 0; 0; 0; 0; 0; 0; 0; 0; 0; 0; 0; 0; 0; 0; 0; 0; 0; 0; 0; 0; 0; 0; 0; 0; 0; 0; 0].

Definition CHAR_IS_UNRESERVED (c : Z) : bool := negb (default 0 (uri_chars !! Z.to_nat (u8 c)) =? 0).

(** [%02X] *)
Definition hex_digit_upper (d : Z) : Z := if d <? 10 then 48 + d else 55 + d.
Definition percent (c : Z) : bytes := [37; hex_digit_upper (Z.shiftr c 4); hex_digit_upper (Z.land c 15)].

Definition encode_char (space_as_plus : bool) (c : Z) : bytes :=
  if CHAR_IS_UNRESERVED c then [c]
  else if (c =? 32) && space_as_plus then [43]
  else percent c.

(** [uri] is the memory at the argument, up to its NUL when [len] is negative.
    The scratch buffer holds what is added to it: the additions, whose results the
    code does not look at, are taken to succeed; the sums of addresses do not
    overflow. *)
Definition evhttp_uriencode (buf_ok malloc_ok : bool) (uri : bytes) (len : Z) (space_as_plus : bool) : option bytes :=
  if negb buf_ok then None
  else
    let text := if 0 <=? len then take (Z.to_nat len) uri else uri in
    if malloc_ok then Some (mjoin (encode_char space_as_plus <$> text)) else None.

Definition evhttp_encode_uri (buf_ok malloc_ok : bool) (str : bytes) : option bytes :=
  evhttp_uriencode buf_ok malloc_ok str (-1) false.

(** What is written to [ret] before the NUL. *)
Fixpoint decode_loop (uri : bytes) (decode_plus_ctl : Z) (decode_plus : bool) : bytes :=
  match uri with
  | [] => []
  | c :: rest =>
    if c =? 63 then c :: decode_loop rest decode_plus_ctl (if decode_plus_ctl <? 0 then true else decode_plus)
    else if (c =? 43) && decode_plus then 32 :: decode_loop rest decode_plus_ctl decode_plus
    else
      match rest with
      | a :: b :: rest' =>
        if (c =? 37) && EVUTIL_ISXDIGIT_ a && EVUTIL_ISXDIGIT_ b
        then u8 (fst (strtol 16 [a; b])) :: decode_loop rest' decode_plus_ctl decode_plus
        else c :: decode_loop rest decode_plus_ctl decode_plus
      | _ => c :: decode_loop rest decode_plus_ctl decode_plus
      end
  end.

Definition evhttp_decode_uri_internal (uri : bytes) (decode_plus_ctl : Z) : bytes * Z :=
  let ret := decode_loop uri decode_plus_ctl (decode_plus_ctl =? 1) in
  (ret, Z.of_nat (length ret)).

Definition evhttp_decode_uri (malloc_ok : bool) (uri : bytes) : option bytes :=
  if malloc_ok then Some (fst (evhttp_decode_uri_internal uri (-1))) else None.

(** The result and [*size_out]. *)
Definition evhttp_uridecode (malloc_ok : bool) (uri : bytes) (decode_plus : bool) : option (bytes * Z) :=
  if malloc_ok then Some (evhttp_decode_uri_internal uri (if decode_plus then 1 else 0)) else None.

(** ** The parts of a URI *)

Record evhttp_uri := mk_uri {
  uri_flags : Z;
  uri_scheme : option bytes;
  uri_userinfo : option bytes;
  uri_host : option bytes;
  uri_port : Z;
  uri_path : option bytes;
  uri_query : option bytes;
  uri_fragment : option bytes
}.

Definition EVHTTP_URI_NONCONFORMANT : Z := 1.

Definition evhttp_uri_new : evhttp_uri := mk_uri 0 None None None (-1) None None None.

Definition scheme_char (c : Z) : bool := EVUTIL_ISALNUM_ c || (c =? 43) || (c =? 45) || (c =? 46).

(** [[s, eos)] is the list. *)
Definition scheme_ok (s : bytes) : bool :=
  match s with
  | [] => false
  | c :: s' => EVUTIL_ISALPHA_ c && forallb scheme_char s'
  end.

Definition SUBDELIMS : bytes := bytes_of_string "!$&'()*+,;=".

(** [strchr(SUBDELIMS, c)]; it also finds the NUL. *)
Definition is_subdelim (c : Z) : bool := (c =? 0) || bool_decide (c ∈ SUBDELIMS).

(** "%" and two hexadecimal digits at [s]. *)
Definition pct_encoded (s : bytes) : bool :=
  (char_at s 0 =? 37) && EVUTIL_ISXDIGIT_ (char_at s 1) && EVUTIL_ISXDIGIT_ (char_at s 2).

Fixpoint userinfo_ok (s : bytes) (left : nat) : bool :=
  match left with
  | O => true
  | S k =>
    let c := char_at s 0 in
    if CHAR_IS_UNRESERVED c || is_subdelim c || (c =? 58) then userinfo_ok (drop 1 s) k
    else
      match k with
      | S (S m) => if pct_encoded s then userinfo_ok (drop 3 s) m else false
      | _ => false
      end
  end.

Fixpoint regname_ok (s : bytes) (left : nat) : bool :=
  match left with
  | O => true
  | S k =>
    let c := char_at s 0 in
    if CHAR_IS_UNRESERVED c || is_subdelim c then regname_ok (drop 1 s) k
    else if pct_encoded s then
      match k with
      | S (S m) => regname_ok (drop 3 s) m
      | _ => true
      end
    else false
  end.

(** [portnum] so far. *)
Fixpoint parse_port_loop (portnum : Z) (s : bytes) : Z :=
  match s with
  | [] => portnum
  | c :: s' =>
    if negb (EVUTIL_ISDIGIT_ c) then -1
    else
      let portnum := portnum * 10 + (c - 48) in
      if portnum <? 0 then -1 else if 65535 <? portnum then -1 else parse_port_loop portnum s'
  end.
Definition uri_parse_port (s : bytes) : Z := parse_port_loop 0 s.

Definition ipvfuture_char (c : Z) : bool := CHAR_IS_UNRESERVED c || is_subdelim c || (c =? 58).

(** [[s, eos)] is the list; 0 for bad, 1 for IPv6, 2 for IPvFuture. *)
Definition bracket_addr_ok (seg : bytes) : option Z :=
  let n := length seg in
  if Nat.ltb n 3 || negb (char_at seg 0 =? 91) || negb (char_at seg (n - 1) =? 93) then Some 0
  else
    let inner := take (n - 2) (drop 1 seg) in
    if char_at inner 0 =? 118 then
      let t := drop 1 inner in
      if negb (EVUTIL_ISXDIGIT_ (char_at t 0)) then Some 0
      else
        let '(_, t) := span EVUTIL_ISXDIGIT_ t in
        match t with
        | c :: t => if (c =? 46) && forallb ipvfuture_char t then Some 2 else Some 0
        | [] => Some 0
        end
    else if Nat.leb 64 (length inner) then Some 0
    else '(r, _) ← evutil_inet_pton AF_INET6 inner; Some (if r =? 1 then 1 else 0).

(** The allocations of the parser. *)
Inductive uri_alloc := AUri | AReadbuf | AScheme | AUserinfo | AHost | APath | AQuery | AFragment.

Section parse.
Context (mem : uri_alloc → bool).

(** An inner [None] is a return of -1 or NULL. *)
Definition strdup (a : uri_alloc) (s : bytes) : option bytes := if mem a then Some s else None.

Definition set_host (uri : evhttp_uri) (userinfo : option bytes) (host : bytes) (port : Z) : evhttp_uri :=
  mk_uri (uri_flags uri) (uri_scheme uri) userinfo (Some host) port (uri_path uri) (uri_query uri) (uri_fragment uri).

(** After the userinfo: [cp] is the text from there, [n] the distance to [eos]. *)
Definition parse_hostport (uri : evhttp_uri) (userinfo : option bytes) (cp : bytes) (n : nat) : option (option evhttp_uri) :=
  let j := back_digits n cp in
  let has_port := Nat.ltb 0 j && (char_at cp (j - 1) =? 58) in
  let port := if has_port then (if Nat.eqb j n then -1 else uri_parse_port (take (n - j) (drop j cp)))
              else uri_port uri in
  if has_port && negb (Nat.eqb j n) && (port <? 0) then Some None
  else
    let n := if has_port then (j - 1)%nat else n in
    let seg := take n cp in
    good ← (if (char_at cp 0 =? 91) && Nat.leb 2 n && (char_at seg (n - 1) =? 93)
            then r ← bracket_addr_ok seg; Some (negb (r =? 0))
            else Some (regname_ok cp n));
    if negb good then Some None
    else if mem AHost then Some (Some (set_host uri userinfo seg port)) else Some None.

Definition parse_authority (uri : evhttp_uri) (s : bytes) (n : nat) : option (option evhttp_uri) :=
  if Nat.eqb n 0 then
    Some (if mem AHost then Some (set_host uri (uri_userinfo uri) [] (uri_port uri)) else None)
  else
    match strchr 64 s with
    | Some cp =>
      if Nat.ltb cp n then
        if negb (userinfo_ok s cp) then Some None
        else if mem AUserinfo then parse_hostport uri (Some (take cp s)) (drop (cp + 1) s) (n - (cp + 1))
        else Some None
      else parse_hostport uri (uri_userinfo uri) s n
    | None => parse_hostport uri (uri_userinfo uri) s n
    end.

(** The number of characters before the end. *)
Fixpoint end_of_authority (cp : bytes) : nat :=
  match cp with
  | [] => O
  | c :: cp' => if (c =? 63) || (c =? 35) || (c =? 47) then O else S (end_of_authority cp')
  end.

Inductive uri_part := PART_PATH | PART_QUERY | PART_FRAGMENT.
Definition part_is_path (p : uri_part) : bool := match p with PART_PATH => true | _ => false end.

Fixpoint end_nonconformant (cp : bytes) (part : uri_part) : nat :=
  match cp with
  | [] => O
  | c :: cp' =>
    match part with
    | PART_PATH => if (c =? 35) || (c =? 63) then O else S (end_nonconformant cp' part)
    | PART_QUERY => if c =? 35 then O else S (end_nonconformant cp' part)
    | PART_FRAGMENT => S (end_nonconformant cp' part)
    end
  end.

Definition pchar (c : Z) : bool :=
  CHAR_IS_UNRESERVED c || is_subdelim c || (c =? 58) || (c =? 64) || (c =? 47).

Fixpoint end_conformant (cp : bytes) (part : uri_part) : nat :=
  match cp with
  | [] => O
  | c :: cp' =>
    if pchar c then S (end_conformant cp' part)
    else
      match cp' with
      | a :: b :: cp'' =>
        if (c =? 37) && EVUTIL_ISXDIGIT_ a && EVUTIL_ISXDIGIT_ b then S (S (S (end_conformant cp'' part)))
        else if (c =? 63) && negb (part_is_path part) then S (end_conformant cp' part)
        else O
      | _ => if (c =? 63) && negb (part_is_path part) then S (end_conformant cp' part) else O
      end
  end.

Definition end_of_path (cp : bytes) (part : uri_part) (flags : Z) : nat :=
  if flags &? EVHTTP_URI_NONCONFORMANT then end_nonconformant cp part else end_conformant cp part.

Fixpoint path_matches_noscheme (cp : bytes) : bool :=
  match cp with
  | [] => true
  | c :: cp' => if c =? 58 then false else if c =? 47 then true else path_matches_noscheme cp'
  end.

(** Path, query and fragment; [None] when something is left over. *)
Definition parse_tail (readp : bytes) (flags : Z) : option (bytes * option bytes * option bytes) :=
  let n := end_of_path readp PART_PATH flags in
  let path := take n readp in
  let readp := drop n readp in
  let '(query, readp) :=
    if char_at readp 0 =? 63 then
      let r := drop 1 readp in
      let n := end_of_path r PART_QUERY flags in (Some (take n r), drop n r)
    else (None, readp) in
  let '(fragment, readp) :=
    if char_at readp 0 =? 35 then
      let r := drop 1 readp in
      let n := end_of_path r PART_FRAGMENT flags in (Some (take n r), drop n r)
    else (None, readp) in
  if char_at readp 0 =? 0 then Some (path, query, fragment) else None.

(** A copy of a part that may be missing. *)
Definition strdup_opt (a : uri_alloc) (s : option bytes) : option (option bytes) :=
  match s with None => Some None | Some s => Some <$> strdup a s end.

(** The checks and copies after the whole text was read. *)
Definition finish_uri (uri : evhttp_uri) (got_authority : bool) (path : bytes) (query fragment : option bytes) :
    option evhttp_uri :=
  if negb got_authority && (char_at path 0 =? 47) && (char_at path 1 =? 47) then None
  else if got_authority && negb (char_at path 0 =? 47) && negb (char_at path 0 =? 0) then None
  else if bool_decide (uri_scheme uri = None) && negb (path_matches_noscheme path) then None
  else
    path ← strdup APath path;
    query ← strdup_opt AQuery query;
    fragment ← strdup_opt AFragment fragment;
    Some (mk_uri (uri_flags uri) (uri_scheme uri) (uri_userinfo uri) (uri_host uri) (uri_port uri)
            (Some path) query fragment).

Definition evhttp_uri_parse_with_flags (source_uri : bytes) (flags : Z) : option (option evhttp_uri) :=
  if negb (mem AUri) then Some None
  else if negb (mem AReadbuf) then Some None
  else
    let token := match strchr 58 source_uri with
                 | Some t => if scheme_ok (take t source_uri) then Some t else None
                 | None => None
                 end in
    let scheme := (λ t, take t source_uri) <$> token in
    if bool_decide (scheme ≠ None) && negb (mem AScheme) then Some None
    else
      let uri := mk_uri flags scheme None None (-1) None None None in
      let readp := match token with Some t => drop (t + 1) source_uri | None => source_uri end in
      if (char_at readp 0 =? 47) && (char_at readp 1 =? 47) then
        let authority := drop 2 readp in
        let n := end_of_authority authority in
        uri ← parse_authority uri authority n;
        match uri with
        | None => Some None
        | Some uri =>
          Some ('(path, query, fragment) ← parse_tail (drop n authority) flags;
                finish_uri uri true path query fragment)
        end
      else
        Some ('(path, query, fragment) ← parse_tail readp flags; finish_uri uri false path query fragment).

Definition evhttp_uri_parse (source_uri : bytes) : option (option evhttp_uri) := evhttp_uri_parse_with_flags source_uri 0.
End parse.

(** ** Joining the parts *)

(** What is added to the scratch buffer; [None] is the error of a path that does
    not fit after a host. *)
Definition uri_text (uri : evhttp_uri) : option bytes :=
  let scheme := match uri_scheme uri with Some s => s ++ [58] | None => [] end in
  let authority :=
    match uri_host uri with
    | Some h =>
      [47; 47] ++ match uri_userinfo uri with Some u => u ++ [64] | None => [] end ++ h ++
      (if 0 <=? uri_port uri then 58 :: print_d (uri_port uri) else [])
    | None => []
    end in
  let path := default [] (uri_path uri) in
  if bool_decide (uri_host uri ≠ None) && bool_decide (uri_path uri ≠ None) &&
     negb (char_at path 0 =? 47) && negb (char_at path 0 =? 0)
  then None
  else Some (scheme ++ authority ++ path ++
             match uri_query uri with Some q => 63 :: q | None => [] end ++
             match uri_fragment uri with Some f => 35 :: f | None => [] end).

(** The string in [buf], which has [limit] bytes; additions to the scratch buffer
    are taken to succeed, as above. *)
Definition evhttp_uri_join (buf_ok : bool) (uri : evhttp_uri) (limit : Z) : option bytes :=
  if limit =? 0 then None
  else if negb buf_ok then None
  else
    text ← uri_text uri;
    if limit <? Z.of_nat (length text) + 1 then None else Some text.

(** ** Changing parts *)

(** The new value of a part after [URI_SET_STR_], and the result. *)
Definition URI_SET_STR_ (ok : bool) (s : option bytes) : option bytes * Z :=
  match s with
  | None => (None, 0)
  | Some s => if ok then (Some s, 0) else (None, -1)
  end.

Definition evhttp_uri_set_scheme (ok : bool) (uri : evhttp_uri) (scheme : option bytes) : evhttp_uri * Z :=
  if match scheme with Some s => negb (scheme_ok s) | None => false end then (uri, -1)
  else let '(s, r) := URI_SET_STR_ ok scheme in
       (mk_uri (uri_flags uri) s (uri_userinfo uri) (uri_host uri) (uri_port uri) (uri_path uri) (uri_query uri) (uri_fragment uri), r).

Definition evhttp_uri_set_userinfo (ok : bool) (uri : evhttp_uri) (userinfo : option bytes) : evhttp_uri * Z :=
  if match userinfo with Some s => negb (userinfo_ok s (length s)) | None => false end then (uri, -1)
  else let '(s, r) := URI_SET_STR_ ok userinfo in
       (mk_uri (uri_flags uri) (uri_scheme uri) s (uri_host uri) (uri_port uri) (uri_path uri) (uri_query uri) (uri_fragment uri), r).

Definition host_ok (host : bytes) : option bool :=
  if char_at host 0 =? 91 then r ← bracket_addr_ok host; Some (negb (r =? 0)) else Some (regname_ok host (length host)).

Definition evhttp_uri_set_host (ok : bool) (uri : evhttp_uri) (host : option bytes) : option (evhttp_uri * Z) :=
  good ← match host with Some h => host_ok h | None => Some true end;
  if negb good then Some (uri, -1)
  else let '(s, r) := URI_SET_STR_ ok host in
       Some (mk_uri (uri_flags uri) (uri_scheme uri) (uri_userinfo uri) s (uri_port uri) (uri_path uri) (uri_query uri) (uri_fragment uri), r).

Definition evhttp_uri_set_port (uri : evhttp_uri) (port : Z) : evhttp_uri * Z :=
  if port <? -1 then (uri, -1)
  else (mk_uri (uri_flags uri) (uri_scheme uri) (uri_userinfo uri) (uri_host uri) port (uri_path uri) (uri_query uri) (uri_fragment uri), 0).

Definition part_ok (part : uri_part) (flags : Z) (s : option bytes) : bool :=
  match s with Some s => Nat.eqb (end_of_path s part flags) (length s) | None => true end.

Definition evhttp_uri_set_path (ok : bool) (uri : evhttp_uri) (path : option bytes) : evhttp_uri * Z :=
  if negb (part_ok PART_PATH (uri_flags uri) path) then (uri, -1)
  else let '(s, r) := URI_SET_STR_ ok path in
       (mk_uri (uri_flags uri) (uri_scheme uri) (uri_userinfo uri) (uri_host uri) (uri_port uri) s (uri_query uri) (uri_fragment uri), r).

Definition evhttp_uri_set_query (ok : bool) (uri : evhttp_uri) (query : option bytes) : evhttp_uri * Z :=
  if negb (part_ok PART_QUERY (uri_flags uri) query) then (uri, -1)
  else let '(s, r) := URI_SET_STR_ ok query in
       (mk_uri (uri_flags uri) (uri_scheme uri) (uri_userinfo uri) (uri_host uri) (uri_port uri) (uri_path uri) s (uri_fragment uri), r).

Definition evhttp_uri_set_fragment (ok : bool) (uri : evhttp_uri) (fragment : option bytes) : evhttp_uri * Z :=
  if negb (part_ok PART_FRAGMENT (uri_flags uri) fragment) then (uri, -1)
  else let '(s, r) := URI_SET_STR_ ok fragment in
       (mk_uri (uri_flags uri) (uri_scheme uri) (uri_userinfo uri) (uri_host uri) (uri_port uri) (uri_path uri) (uri_query uri) s, r).

Definition evhttp_uri_set_flags (uri : evhttp_uri) (flags : Z) : evhttp_uri :=
  mk_uri flags (uri_scheme uri) (uri_userinfo uri) (uri_host uri) (uri_port uri) (uri_path uri) (uri_query uri) (uri_fragment uri).
