(* ===== verification/UriProps.v ===== *)
(** * URIs: round trips

    Decoding an encoded text gives the text back, and parsing what
    [evhttp_uri_join] wrote for a parsed URI gives the same parts. *)

From S2P Require Import Prelude Clib Util Inet InetProps Uri.

(** ** Encoding and decoding *)

(** Checked for every byte: what is written for it is read back. *)
Definition percent_right (c : Z) : bool :=
  let a := hex_digit_upper (Z.shiftr c 4) in
  let b := hex_digit_upper (Z.land c 15) in
  EVUTIL_ISXDIGIT_ a && EVUTIL_ISXDIGIT_ b && (u8 (fst (strtol 16 [a; b])) =? c) &&
  implb (CHAR_IS_UNRESERVED c) (negb (c =? 63) && negb (c =? 43) && negb (c =? 37) && negb (c =? 0)) &&
  negb (a =? 0) && negb (b =? 0).

Lemma percent_check c : is_byte c → percent_right c = true.
Proof. apply byte_cases. vm_compute. reflexivity. Qed.

(** A character that is none of the special ones is copied. *)
Lemma decode_plain c rest ctl plus : c ≠ 63 → c ≠ 43 → c ≠ 37 →
  decode_loop (c :: rest) ctl plus = c :: decode_loop rest ctl plus.
Proof.
  intros H1 H2 H3. cbn [decode_loop]. rewrite (proj2 (Z.eqb_neq c 63) H1), (proj2 (Z.eqb_neq c 43) H2), (proj2 (Z.eqb_neq c 37) H3).
  cbn [andb]. by destruct rest as [|a [|b rest]].
Qed.

Lemma decode_encode_char c plus rest ctl : is_byte c →
  decode_loop (encode_char plus c ++ rest) ctl plus = c :: decode_loop rest ctl plus.
Proof.
  intros Hc. pose proof (percent_check c Hc) as H. unfold percent_right in H. cbv zeta in H.
  rewrite !andb_true_iff in H. destruct H as (((((Ha & Hb) & Hv) & Hu) & _) & _). unfold encode_char.
  destruct (CHAR_IS_UNRESERVED c) eqn:Ec.
  - cbn [implb] in Hu. rewrite !andb_true_iff, !negb_true_iff, !Z.eqb_neq in Hu. cbn [app]. apply decode_plain; tauto.
  - destruct (Z.eqb_spec c 32) as [->|Hne]; [destruct plus; cbn [andb]|cbn [andb]]; [done| |].
    all: unfold percent; cbn [app decode_loop]; cbn [Z.eqb Pos.eqb andb]; rewrite Ha, Hb; cbn [andb]; f_equal; by apply Z.eqb_eq.
Qed.

Lemma decode_encode s plus ctl : Forall is_byte s →
  decode_loop (mjoin (encode_char plus <$> s)) ctl plus = s.
Proof.
  induction 1 as [|c s Hc _ IH]; [done|].
  change (mjoin (encode_char plus <$> c :: s)) with (encode_char plus c ++ mjoin (encode_char plus <$> s)).
  by rewrite decode_encode_char, IH by done.
Qed.

Lemma hex_upper_unreserved d : 0 <= d < 16 → CHAR_IS_UNRESERVED (hex_digit_upper d) = true.
Proof.
  intros Hd. assert (forallb (λ d, CHAR_IS_UNRESERVED (hex_digit_upper d)) (seqZ 0 16) = true) as H by (vm_compute; reflexivity).
  rewrite forallb_forall in H. apply H, list_elem_of_In, elem_of_seqZ. lia.
Qed.

Definition encoded_char (plus : bool) (c : Z) : Prop := CHAR_IS_UNRESERVED c = true ∨ c = 37 ∨ plus = true ∧ c = 43.

Lemma encode_char_chars plus c : is_byte c → Forall (encoded_char plus) (encode_char plus c).
Proof.
  intros Hc. unfold is_byte in Hc. unfold encode_char, encoded_char.
  destruct (CHAR_IS_UNRESERVED c) eqn:Ec; [apply Forall_singleton; by left|].
  assert (Forall (encoded_char plus) (percent c)) as Hp.
  { unfold percent, encoded_char. rewrite !Forall_cons, Forall_nil. split_and!; [auto|left..|done].
    all: apply hex_upper_unreserved.
    - rewrite Z.shiftr_div_pow2 by lia. split; [apply Z.div_pos; lia|apply Z.div_lt_upper_bound; lia].
    - change 15 with (Z.ones 4). rewrite Z.land_ones by lia. apply Z.mod_pos_bound. lia. }
  destruct (c =? 32), plus; cbn [andb]; try done. apply Forall_singleton. auto.
Qed.

(** [evhttp_uridecode] undoes [evhttp_uriencode] on any bytes (NULs included,
    when the length is given), with spaces as plus signs or not; the encoded text
    has none of the characters that delimit the parts of a URI. *)
Theorem uriencode_roundtrip s plus :
  Forall is_byte s →
  ∃ t, evhttp_uriencode true true s (Z.of_nat (length s)) plus = Some t ∧
    evhttp_uridecode true t plus = Some (s, Z.of_nat (length s)) ∧
    Forall (encoded_char plus) t.
Proof.
  intros Hs. unfold evhttp_uriencode. cbn [negb]. rewrite (proj2 (Z.leb_le 0 _)), Nat2Z.id, take_ge by lia.
  eexists. split_and!; [done| |].
  - unfold evhttp_uridecode, evhttp_decode_uri_internal.
    replace ((if plus then 1 else 0) =? 1) with plus by (by destruct plus). by rewrite decode_encode.
  - induction Hs as [|c s Hc _ IH]; [constructor|].
    change (mjoin (encode_char plus <$> c :: s)) with (encode_char plus c ++ mjoin (encode_char plus <$> s)).
    apply Forall_app. split; [by apply encode_char_chars|done].
Qed.

(** ** Path, query and fragment *)

Section tail.
Implicit Types (s p rest : bytes) (part : uri_part).

(** The end of the parser's loop on one character, with the lookahead as the
    code writes it. *)
Lemma end_conformant_cons c s part :
  end_conformant (c :: s) part =
  if pchar c then S (end_conformant s part)
  else if (c =? 37) && EVUTIL_ISXDIGIT_ (char_at s 0) && EVUTIL_ISXDIGIT_ (char_at s 1)
  then S (S (S (end_conformant (drop 2 s) part)))
  else if (c =? 63) && negb (part_is_path part) then S (end_conformant s part) else O.
Proof.
  cbn [end_conformant]. destruct (pchar c); [done|]. destruct s as [|a [|b s]]; cbn [char_at lookup list_lookup default from_option id drop].
  - change (EVUTIL_ISXDIGIT_ 0) with false. by rewrite andb_false_r.
  - change (EVUTIL_ISXDIGIT_ 0) with false. by rewrite andb_false_r.
  - done.
Qed.

(** Three steps at once. *)
Lemma list_ind3 (P : bytes → Prop) :
  P [] → (∀ c s, P s → P (drop 2 s) → P (c :: s)) → ∀ s, P s.
Proof.
  intros H0 HS s. remember (length s) as n eqn:Hn. assert (length s <= n)%nat as Hle by lia. clear Hn.
  revert s Hle. induction n as [|n IH]; intros [|c s] Hle; cbn in Hle; try done; try lia.
  apply HS; apply IH; rewrite ?length_drop; lia.
Qed.

Lemma end_conformant_le s part : (end_conformant s part <= length s)%nat.
Proof.
  induction s as [|c s IH1 IH2] using list_ind3; [done|]. rewrite end_conformant_cons. cbn [length].
  destruct (pchar c); [lia|]. destruct ((c =? 37) && _ && _) eqn:E.
  - rewrite length_drop in IH2. destruct s as [|a [|b s]]; cbn [length] in *; try lia.
    + change (EVUTIL_ISXDIGIT_ (char_at [] 1)) with false in E. by rewrite andb_false_r in E.
    + change (EVUTIL_ISXDIGIT_ (char_at [a] 1)) with false in E. by rewrite andb_false_r in E.
  - destruct ((c =? 63) && negb (part_is_path part)); lia.
Qed.

Lemma end_nonconformant_le s part : (end_nonconformant s part <= length s)%nat.
Proof. induction s as [|c s IH]; [done|]. cbn. destruct part; repeat case_match; lia. Qed.

(** A part that is matched to its end. *)
Definition whole (part : uri_part) (flags : Z) s : Prop := end_of_path s part flags = length s.

(** What may follow a part. *)
Definition part_stop part rest : Prop :=
  match rest with
  | [] => True
  | c :: _ => match part with PART_PATH => c = 63 ∨ c = 35 | PART_QUERY => c = 35 | PART_FRAGMENT => False end
  end.

Lemma part_stop_end part rest : part_stop part rest → end_conformant rest part = O ∧ end_nonconformant rest part = O.
Proof.
  destruct rest as [|c rest]; [done|]. rewrite end_conformant_cons. cbn [part_stop end_nonconformant].
  destruct part; [intros [-> | ->]|intros ->|done]; done.
Qed.

Lemma whole_app part flags p rest : whole part flags p → part_stop part rest → end_of_path (p ++ rest) part flags = length p.
Proof.
  unfold whole, end_of_path. intros Hp Hr. destruct (part_stop_end part rest Hr) as [Hc Hn].
  destruct (flags &? EVHTTP_URI_NONCONFORMANT).
  - revert Hp. induction p as [|c p IH]; [done|]. cbn. destruct part; repeat case_match; intros [=]; f_equal; auto.
  - revert Hp. induction p as [|c p IH1 IH2] using list_ind3; [done|]. cbn [app length].
    rewrite !end_conformant_cons. destruct (pchar c); [intros [= H]; f_equal; auto|].
    destruct (Z.eqb_spec c 37) as [->|Hc37]; cbn [andb].
    + destruct p as [|a [|b p]]; [done|by rewrite andb_false_r|]. cbn [app char_at lookup list_lookup default from_option id drop length].
      destruct (_ && _); [|done]. intros [= H]. do 3 f_equal. by apply IH2.
    + destruct ((c =? 63) && negb (part_is_path part)); [|done]. intros [= H]. f_equal. auto.
Qed.

Lemma whole_take part flags s : whole part flags (take (end_of_path s part flags) s).
Proof.
  unfold whole. rewrite length_take, Nat.min_l by (unfold end_of_path; case_match; [apply end_nonconformant_le|apply end_conformant_le]).
  unfold end_of_path. destruct (flags &? EVHTTP_URI_NONCONFORMANT).
  - induction s as [|c s IH]; [done|]. cbn [end_nonconformant]. destruct part; repeat case_match; try done; cbn [take end_nonconformant];
      repeat match goal with H : _ = true |- _ => rewrite H | H : _ = false |- _ => rewrite H end; by rewrite ?IH.
  - induction s as [|c s IH1 IH2] using list_ind3; [done|]. rewrite !end_conformant_cons.
    destruct (pchar c) eqn:Ep; [cbn [take]; rewrite end_conformant_cons, Ep; by rewrite IH1|].
    destruct (Z.eqb_spec c 37) as [->|Hc37]; cbn [andb].
    + destruct s as [|a [|b s]]; [done|by rewrite andb_false_r|].
      cbn [char_at lookup list_lookup default from_option id drop] in *. destruct (_ && _) eqn:Ex; [|done].
      cbn [take]. rewrite end_conformant_cons, Ep. cbn [Z.eqb Pos.eqb andb char_at lookup list_lookup default from_option id drop].
      rewrite !drop_0 in *. by rewrite Ex, IH2.
    + destruct ((c =? 63) && negb (part_is_path part)) eqn:E; [|done]. cbn [take]. rewrite end_conformant_cons, Ep.
      rewrite (proj2 (Z.eqb_neq c 37) Hc37), E. cbn [andb]. by rewrite IH1.
Qed.

(** What follows the path. *)
Definition tail_text (q f : option bytes) : bytes :=
  match q with Some q => 63 :: q | None => [] end ++ match f with Some f => 35 :: f | None => [] end.

Definition tail_ok (flags : Z) p (q f : option bytes) : Prop :=
  whole PART_PATH flags p ∧ (∀ x, q = Some x → whole PART_QUERY flags x) ∧ (∀ x, f = Some x → whole PART_FRAGMENT flags x).

Lemma parse_tail_ok flags p q f : tail_ok flags p q f → parse_tail (p ++ tail_text q f) flags = Some (p, q, f).
Proof.
  intros (Hp & Hq & Hf). unfold parse_tail.
  assert (part_stop PART_PATH (tail_text q f)) as Hs1 by (unfold tail_text; destruct q, f; cbn; auto).
  rewrite (whole_app _ _ _ _ Hp Hs1), take_app_length, drop_app_length. unfold tail_text.
  destruct q as [q|]; cbn [app char_at lookup list_lookup default from_option id Z.eqb Pos.eqb drop]; rewrite ?drop_0.
  - specialize (Hq q eq_refl). set (r := match f with Some f => 35 :: f | None => [] end).
    assert (part_stop PART_QUERY r) as Hs2 by (unfold r; destruct f; cbn; auto).
    rewrite (whole_app _ _ _ _ Hq Hs2), take_app_length, drop_app_length. subst r.
    destruct f as [f|]; cbn [char_at lookup list_lookup default from_option id Z.eqb Pos.eqb drop]; [|done].
    rewrite drop_0, !(Hf f eq_refl). by rewrite take_ge, drop_ge by lia.
  - destruct f as [f|]; cbn [char_at lookup list_lookup default from_option id Z.eqb Pos.eqb drop]; [|done].
    rewrite drop_0, !(Hf f eq_refl). by rewrite take_ge, drop_ge by lia.
Qed.

Lemma parse_tail_inv flags s p q f : parse_tail s flags = Some (p, q, f) → tail_ok flags p q f.
Proof.
  unfold parse_tail, tail_ok. cbv zeta. set (n := end_of_path s PART_PATH flags).
  destruct (char_at (drop n s) 0 =? 63); (destruct (_ =? 35); [|]); (destruct (_ =? 0); [|done]); intros [= <- <- <-];
    (split_and!; [apply whole_take|..]; intros x; try done; intros [= <-]; apply whole_take).
Qed.
End tail.

(** ** The authority *)

Section authority.
Implicit Types (s h u rest : bytes).

Definition is_delim (c : Z) : Prop := c = 63 ∨ c = 35 ∨ c = 47.

Lemma end_of_authority_spec s :
  let n := end_of_authority s in
  (n <= length s)%nat ∧ (∀ c, c ∈ take n s → ¬ is_delim c) ∧ (drop n s = [] ∨ ∃ c r, drop n s = c :: r ∧ is_delim c).
Proof.
  unfold is_delim. induction s as [|c s (IH1 & IH2 & IH3)]; cbn [end_of_authority length].
  { split_and!; [done|by intros c ?%not_elem_of_nil|by left]. }
  destruct (Z.eqb_spec c 63), (Z.eqb_spec c 35), (Z.eqb_spec c 47); cbn [orb take drop];
    try (split_and!; [lia|by intros ? ?%not_elem_of_nil|right; rewrite ?drop_0; eauto 6]).
  split_and!; [lia| |done]. intros d [->|Hd]%elem_of_cons; [lia|by apply IH2].
Qed.

Lemma end_of_authority_app s rest : (∀ c, c ∈ s → ¬ is_delim c) →
  (rest = [] ∨ ∃ c r, rest = c :: r ∧ is_delim c) → end_of_authority (s ++ rest) = length s.
Proof.
  unfold is_delim. intros Hs Hr. induction s as [|c s IH]; cbn [app end_of_authority length].
  - destruct Hr as [->|(c & r & -> & Hc)]; [done|]. cbn.
    destruct (Z.eqb_spec c 63), (Z.eqb_spec c 35), (Z.eqb_spec c 47); cbn; (done || lia).
  - pose proof (Hs c ltac:(by left)) as Hc.
    destruct (Z.eqb_spec c 63), (Z.eqb_spec c 35), (Z.eqb_spec c 47); cbn [orb]; try (exfalso; tauto).
    f_equal. apply IH. intros d Hd. apply Hs. by right.
Qed.

(** [userinfo_ok] looks at the characters before [eos] only. *)
Lemma userinfo_ok_app u rest : userinfo_ok (u ++ rest) (length u) = userinfo_ok u (length u).
Proof.
  induction u as [|c u IH1 IH2] using list_ind3; [done|]. cbn [app length userinfo_ok drop char_at lookup list_lookup default from_option id].
  rewrite !drop_0, IH1. destruct (_ || _); [done|]. destruct u as [|a [|b u]]; cbn [length]; try done.
  unfold pct_encoded. cbn [app drop char_at lookup list_lookup default from_option id] in *. rewrite !drop_0 in *. by rewrite IH2.
Qed.

(** Characters that occur in no userinfo and no registered name. *)
Definition uri_excluded (c : Z) : Prop :=
  CHAR_IS_UNRESERVED c = false ∧ is_subdelim c = false ∧ c ≠ 37 ∧ EVUTIL_ISXDIGIT_ c = false.

Lemma userinfo_ok_excluded u c : userinfo_ok u (length u) = true → uri_excluded c → c ≠ 58 → c ∉ u.
Proof.
  intros Hu (E1 & E2 & E3 & E4) H58. revert Hu. induction u as [|d u IH1 IH2] using list_ind3; [intros _; apply not_elem_of_nil|].
  cbn [length userinfo_ok drop char_at lookup list_lookup default from_option id]. rewrite drop_0, not_elem_of_cons.
  destruct (CHAR_IS_UNRESERVED d || is_subdelim d || (d =? 58)) eqn:E.
  - intros H. split; [|by apply IH1]. intros <-. rewrite E1, E2, (proj2 (Z.eqb_neq c 58) H58) in E. done.
  - destruct u as [|a [|b u]]; cbn [length]; try done. unfold pct_encoded.
    cbn [drop char_at lookup list_lookup default from_option id] in *. rewrite !drop_0 in *.
    destruct (Z.eqb_spec d 37) as [->|]; [|done]. destruct (EVUTIL_ISXDIGIT_ a) eqn:Ea, (EVUTIL_ISXDIGIT_ b) eqn:Eb; try done.
    cbn [andb]. intros H. split; [done|]. rewrite !not_elem_of_cons. split_and!; [congruence|congruence|by apply IH2].
Qed.

Lemma regname_ok_excluded h c : regname_ok h (length h) = true → uri_excluded c → c ∉ h.
Proof.
  intros Hu (E1 & E2 & E3 & E4). revert Hu. induction h as [|d u IH1 IH2] using list_ind3; [intros _; apply not_elem_of_nil|].
  cbn [length regname_ok drop char_at lookup list_lookup default from_option id]. rewrite drop_0, not_elem_of_cons.
  destruct (CHAR_IS_UNRESERVED d || is_subdelim d) eqn:E.
  - intros H. split; [|by apply IH1]. intros <-. rewrite E1, E2 in E. done.
  - unfold pct_encoded. cbn [drop char_at lookup list_lookup default from_option id] in *.
    destruct (Z.eqb_spec d 37) as [->|]; [|done].
    destruct u as [|a [|b u]]; cbn [length]; [done|by change (EVUTIL_ISXDIGIT_ 0) with false; rewrite andb_false_r|].
    cbn [drop lookup list_lookup default from_option id] in *. rewrite !drop_0 in *.
    destruct (EVUTIL_ISXDIGIT_ a) eqn:Ea, (EVUTIL_ISXDIGIT_ b) eqn:Eb; try done.
    cbn [andb]. intros H. split; [done|]. rewrite !not_elem_of_cons. split_and!; [congruence|congruence|by apply IH2].
Qed.

(** A registered name is judged by its own characters when it is followed by
    something that is no hexadecimal digit. *)
Lemma regname_ok_app h rest : EVUTIL_ISXDIGIT_ (char_at rest 0) = false →
  regname_ok (h ++ rest) (length h) = regname_ok h (length h).
Proof.
  intros Hr. induction h as [|c h IH1 IH2] using list_ind3; [done|].
  cbn [app length regname_ok drop char_at lookup list_lookup default from_option id]. rewrite !drop_0, IH1.
  destruct (_ || _); [done|]. unfold pct_encoded. cbn [drop char_at lookup list_lookup default from_option id].
  destruct (c =? 37); [|done]. cbn [andb].
  destruct h as [|a [|b h]]; cbn [length app drop] in *.
  - change (default 0 (rest !! 0%nat)) with (char_at rest 0). by rewrite Hr.
  - cbn [lookup list_lookup default from_option id].
    change (default 0 (rest !! 0%nat)) with (char_at rest 0). rewrite Hr. by rewrite !andb_false_r.
  - cbn [lookup list_lookup default from_option id]. rewrite !drop_0 in *. by rewrite IH2.
Qed.

Lemma xdigit_delim c : is_delim c ∨ c = 58 ∨ c = 0 → EVUTIL_ISXDIGIT_ c = false.
Proof. intros [[-> | [-> | ->]] | [-> | ->]]; reflexivity. Qed.

(** ** Ports *)

Lemma parse_port_digits ds acc : Forall (λ c, is_digit_of 10 c = true) ds → 0 <= acc →
  let v := foldl (λ a c, a * 10 + digit_value c) acc ds in v <= 65535 → parse_port_loop acc ds = v.
Proof.
  intros Hds. revert acc. induction Hds as [|c ds Hc Hds IH]; intros acc Ha; cbn [foldl parse_port_loop]; cbv zeta; [done|].
  intros Hv. assert (48 <= c <= 57 ∧ digit_value c = c - 48) as [Hr Hd].
  { unfold is_digit_of, digit_value in *. destruct (Z.leb_spec 48 c), (Z.leb_spec c 57); cbn [andb] in *; [lia|..];
      repeat case_match; rewrite Z.ltb_lt in Hc; lia. }
  rewrite isdigit_digit, Hc by (unfold is_byte; lia). cbn [negb]. rewrite Hd in Hv.
  assert (∀ l a, Forall (λ c, is_digit_of 10 c = true) l → 0 <= a → a <= foldl (λ a c, a * 10 + digit_value c) a l) as Hmono.
  { clear. intros l a Hl. revert a. induction Hl as [|c l Hc _ IH]; intros a Ha; cbn; [lia|].
    assert (0 <= digit_value c) by (unfold digit_value; repeat case_match; lia).
    specialize (IH (a * 10 + digit_value c) ltac:(lia)). lia. }
  pose proof (Hmono ds (acc * 10 + (c - 48)) Hds ltac:(lia)).
  rewrite (proj2 (Z.ltb_ge _ 0)), (proj2 (Z.ltb_ge 65535 _)) by lia. rewrite Hd. apply IH; lia.
Qed.

Lemma uri_parse_port_print p : 0 <= p <= 65535 → uri_parse_port (print_u 10 p) = p.
Proof.
  intros Hp. unfold uri_parse_port. pose proof (print_u_number 10 p ltac:(done) ltac:(lia)) as Hn.
  unfold number in Hn. rewrite <- Hn at 2. apply parse_port_digits; [apply print_u_chars; [done|lia]|lia|rewrite Hn; lia].
Qed.

Lemma parse_port_range s acc : 0 <= acc <= 65535 → -1 <= parse_port_loop acc s <= 65535.
Proof.
  revert acc. induction s as [|c s IH]; intros acc Ha; cbn [parse_port_loop]; [lia|].
  destruct (negb _); [lia|]. cbv zeta. destruct (Z.ltb_spec (acc * 10 + (c - 48)) 0), (Z.ltb_spec 65535 (acc * 10 + (c - 48))); try lia.
  apply IH. lia.
Qed.

(** ** Host and port *)

(** How the parser classifies a host. *)
Definition bracketed h : bool := (char_at h 0 =? 91) && Nat.leb 2 (length h) && (char_at h (length h - 1) =? 93).

Definition host_accepted h : Prop :=
  if bracketed h then ∃ r, bracket_addr_ok h = Some r ∧ r ≠ 0 else regname_ok h (length h) = true.

Definition port_text (port : Z) : bytes := if 0 <=? port then 58 :: print_d port else [].

Definition port_ok (port : Z) : Prop := -1 <= port <= 65535.

Lemma char_at_app_l a b i : (i < length a)%nat → char_at (a ++ b) i = char_at a i.
Proof. intros. unfold char_at. by rewrite lookup_app_l. Qed.

Lemma char_at_app_r a b i : char_at (a ++ b) (length a + i) = char_at b i.
Proof. unfold char_at. rewrite lookup_app_r by lia. by replace (length a + i - length a)%nat with i by lia. Qed.

Lemma char_at_end a b : char_at (a ++ b) (length a) = char_at b 0.
Proof. rewrite <- (Nat.add_0_r (length a)) at 1. apply char_at_app_r. Qed.

Lemma back_digits_le n s : (back_digits n s <= n)%nat.
Proof. induction n as [|n IH]; cbn [back_digits]; [lia|]. destruct (EVUTIL_ISDIGIT_ _); lia. Qed.

(** The test of the parser on the text is the test on the host alone. *)
Lemma bracketed_app h rest :
  (char_at (h ++ rest) 0 =? 91) && Nat.leb 2 (length h) && (char_at (take (length h) (h ++ rest)) (length h - 1) =? 93) = bracketed h.
Proof.
  unfold bracketed. rewrite take_app_length. destruct h as [|c h]; [cbn [length]|done].
  by rewrite !andb_false_r.
Qed.

Lemma colon_excluded : uri_excluded 58.
Proof. repeat split; discriminate. Qed.

(** Without a port, digits at the end of a host do not follow a colon. *)
Lemma no_port_found h rest : host_accepted h →
  let j := back_digits (length h) (h ++ rest) in Nat.ltb 0 j && (char_at (h ++ rest) (j - 1) =? 58) = false.
Proof.
  intros Hh. cbv zeta. pose proof (back_digits_le (length h) (h ++ rest)) as Hle. set (j := back_digits _ _) in *.
  destruct (Nat.ltb_spec 0 j) as [Hj|]; [|done]. cbn [andb]. rewrite char_at_app_l by lia. apply Z.eqb_neq. intros E.
  unfold host_accepted in Hh. destruct (bracketed h) eqn:Hb.
  - unfold bracketed in Hb. rewrite !andb_true_iff, !Z.eqb_eq, Nat.leb_le in Hb. destruct Hb as [[_ H2] H93].
    assert (j = length h) as Ej.
    { unfold j. destruct (length h) as [|k] eqn:El; [lia|]. cbn [back_digits].
      rewrite char_at_app_l by lia. replace (S k - 1)%nat with k in H93 by lia. by rewrite H93. }
    rewrite Ej, H93 in E. done.
  - apply (regname_ok_excluded h 58 Hh colon_excluded). unfold char_at in E.
    destruct (h !! (j - 1)%nat) as [c|] eqn:Ec; cbn in E; [|done]. subst c. by apply list_elem_of_lookup_2 in Ec.
Qed.

Lemma hostport_ok mem uri ui h port rest :
  (∀ a, mem a = true) → host_accepted h → port_ok port → uri_port uri = -1 →
  EVUTIL_ISXDIGIT_ (char_at rest 0) = false →
  parse_hostport mem uri ui (h ++ port_text port ++ rest) (length h + length (port_text port)) =
  Some (Some (set_host uri ui h port)).
Proof.
  intros Hm Hh Hp Hup Hr. unfold parse_hostport.
  assert (∀ rest', EVUTIL_ISXDIGIT_ (char_at rest' 0) = false →
    (good ← (if (char_at (h ++ rest') 0 =? 91) && Nat.leb 2 (length h) && (char_at (take (length h) (h ++ rest')) (length h - 1) =? 93)
            then r ← bracket_addr_ok (take (length h) (h ++ rest')); Some (negb (r =? 0))
            else Some (regname_ok (h ++ rest') (length h)));
     if negb good then Some None else if mem AHost then Some (Some (set_host uri ui (take (length h) (h ++ rest')) port)) else Some None)
    = Some (Some (set_host uri ui h port))) as Hgood.
  { intros rest' Hr'. rewrite bracketed_app, take_app_length, regname_ok_app, Hm by done. unfold host_accepted in Hh.
    destruct (bracketed h); [destruct Hh as (r & -> & Hne); by rewrite !bind_some_eq, (proj2 (Z.eqb_neq r 0) Hne)|].
    by rewrite bind_some_eq, Hh. }
  unfold port_text. destruct (Z.leb_spec 0 port) as [H0|H0].
  - unfold print_d. rewrite (proj2 (Z.ltb_ge port 0)) by lia. unfold port_ok in Hp.
    set (ds := print_u 10 port). cbn [app length].
    assert (length (h ++ [58%Z]) = length h + 1)%nat as Hl by (rewrite length_app; done).
    assert (Forall (λ d, is_digit_of 10 d = true) ds) as Hds by (apply print_u_chars; [done|lia]).
    assert (back_digits (length h + S (length ds)) (h ++ 58%Z :: ds ++ rest) = length h + 1)%nat as ->.
    { replace (length h + S (length ds))%nat with (length (h ++ [58%Z]) + length ds)%nat by lia.
      replace (h ++ 58 :: ds ++ rest) with ((h ++ [58]) ++ ds ++ rest) by (by rewrite <- app_assoc).
      by rewrite back_digits_spec. }
    assert (0 < length ds)%nat by (unfold ds; destruct (print_u_cons 10 port) as (c & l & ->); cbn; lia).
    rewrite (proj2 (Nat.ltb_lt 0 _)), (proj2 (Nat.eqb_neq (length h + 1) _)) by lia.
    replace (length h + 1 - 1)%nat with (length h) by lia. rewrite char_at_end. cbn [char_at lookup list_lookup default from_option id Z.eqb Pos.eqb andb negb].
    assert (take (length h + S (length ds) - (length h + 1)) (drop (length h + 1) (h ++ 58 :: ds ++ rest)) = ds) as ->.
    { rewrite drop_app_ge by lia. replace (length h + 1 - length h)%nat with 1%nat by lia. cbn [drop]. rewrite drop_0.
      replace (length h + S (length ds) - (length h + 1))%nat with (length ds) by lia. apply take_app_length. }
    assert (uri_parse_port ds = port) as -> by (apply uri_parse_port_print; lia). rewrite (proj2 (Z.ltb_ge port 0)) by lia. cbn [andb].
    apply (Hgood (58 :: ds ++ rest)). done.
  - unfold port_ok in Hp. assert (port = -1) as -> by lia. cbn [app length]. rewrite Nat.add_0_r.
    pose proof (no_port_found h rest Hh) as Hnp. cbv zeta in Hnp. rewrite Hnp, Hup. cbn [andb]. by apply Hgood.
Qed.

Lemma char_at_drop n s i : char_at (drop n s) i = char_at s (n + i).
Proof. unfold char_at. by rewrite lookup_drop. Qed.

Lemma hostport_inv mem uri ui cp n uri' :
  parse_hostport mem uri ui cp n = Some (Some uri') → (n <= length cp)%nat → uri_port uri = -1 →
  EVUTIL_ISXDIGIT_ (char_at cp n) = false →
  ∃ k port, uri' = set_host uri ui (take k cp) port ∧ (k <= n)%nat ∧ host_accepted (take k cp) ∧ port_ok port.
Proof.
  intros H Hn Hup Hx. unfold parse_hostport in H. cbv zeta in H. pose proof (back_digits_le n cp) as Hj.
  set (j := back_digits n cp) in *. set (has_port := Nat.ltb 0 j && (char_at cp (j - 1) =? 58)) in *.
  set (port := if has_port then _ else _) in *.
  destruct (has_port && negb (Nat.eqb j n) && (port <? 0)) eqn:Eport; [done|].
  set (k := if has_port then (j - 1)%nat else n) in *.
  assert (k <= n)%nat as Hk by (unfold k; destruct has_port; lia).
  assert (EVUTIL_ISXDIGIT_ (char_at (drop k cp) 0) = false) as Hxk.
  { rewrite char_at_drop, Nat.add_0_r. unfold k. destruct has_port eqn:Ehp; [|done].
    unfold has_port in Ehp. apply andb_true_iff in Ehp as [_ E%Z.eqb_eq]. by rewrite E. }
  assert (length (take k cp) = k) as Hlk by (rewrite length_take; lia).
  assert (cp = take k cp ++ drop k cp) as Ecp by (by rewrite take_drop).
  set (h := take k cp) in *.
  assert (port_ok port) as Hp.
  { unfold port_ok, port. destruct has_port; [|lia]. destruct (Nat.eqb j n); [lia|]. apply parse_port_range. lia. }
  exists k, port. fold h. assert (((char_at cp 0 =? 91) && Nat.leb 2 k && (char_at h (k - 1) =? 93)) = bracketed h) as Eb.
  { pose proof (bracketed_app h (drop k cp)) as E. rewrite <- Ecp, Hlk in E. exact E. }
  rewrite Eb in H. assert (regname_ok cp k = regname_ok h (length h)) as Er.
  { rewrite <- Hlk at 1. rewrite Ecp at 1. by apply regname_ok_app. }
  destruct (bracketed h) eqn:Hb.
  - destruct (bracket_addr_ok h) as [r|] eqn:Hr; [|done]. rewrite !bind_some_eq in H.
    destruct (Z.eqb_spec r 0); [done|]. cbn [negb] in H. destruct (mem AHost); [|done]. injection H as <-.
    split_and!; try done. unfold host_accepted. rewrite Hb. eauto.
  - rewrite bind_some_eq, Er in H. destruct (regname_ok h (length h)) eqn:Hr; [|done]. cbn [negb] in H.
    destruct (mem AHost); [|done]. injection H as <-. split_and!; try done. unfold host_accepted. by rewrite Hb.
Qed.

(** ** The whole authority *)

Definition authority_text (ui : option bytes) h (port : Z) : bytes :=
  match ui with Some u => u ++ [64] | None => [] end ++ h ++ port_text port.

Record auth_ok (ui : option bytes) h (port : Z) : Prop := {
  ao_host : host_accepted h;
  ao_port : port_ok port;
  ao_user : ∀ u, ui = Some u → userinfo_ok u (length u) = true;
  ao_at : ui = None → 64 ∉ h;
  ao_delim : ∀ c, c ∈ h → ¬ is_delim c
}.

Lemma strchr_app_r c a b : (c ∉ a) → strchr c (a ++ b) = (λ i, length a + i)%nat <$> strchr c b.
Proof.
  induction a as [|d a IH]; intros Hc; [cbn [app length]; by destruct (strchr c b)|].
  rewrite not_elem_of_cons in Hc. destruct Hc as [H1 H2]. cbn [app strchr length].
  rewrite (proj2 (Z.eqb_neq d c)) by congruence. rewrite IH by done. by destruct (strchr c b).
Qed.

Lemma port_text_chars port c : port_ok port → c ∈ port_text port → c = 58 ∨ is_digit_of 10 c = true.
Proof.
  unfold port_ok, port_text, print_d. intros Hp. destruct (Z.leb_spec 0 port); [|by intros ?%not_elem_of_nil].
  rewrite (proj2 (Z.ltb_ge port 0)) by lia. intros [->|Hin]%elem_of_cons; [by left|right].
  exact (proj1 (Forall_forall _ _) (print_u_chars 10 port ltac:(done) ltac:(lia)) c Hin).
Qed.

Lemma at_excluded : uri_excluded 64.
Proof. repeat split; discriminate. Qed.
Lemma delim_excluded c : is_delim c → uri_excluded c ∧ c ≠ 58.
Proof. intros [-> | [-> | ->]]; repeat split; discriminate. Qed.

Lemma authority_text_delim ui h port c : auth_ok ui h port → c ∈ authority_text ui h port → ¬ is_delim c.
Proof.
  intros [Hh Hp Hu Ha Hd]. unfold authority_text. rewrite !elem_of_app. intros [Hin|[Hin|Hin]] Hdc.
  - destruct ui as [u|]; [|by apply not_elem_of_nil in Hin]. rewrite elem_of_app, elem_of_cons, elem_of_nil in Hin.
    destruct (delim_excluded c Hdc) as [He Hne]. destruct Hin as [Hin|[->|[]]]; [|by destruct Hdc as [?|[?|?]]].
    by apply (userinfo_ok_excluded u c (Hu u eq_refl) He Hne).
  - by apply (Hd c).
  - apply port_text_chars in Hin as [->|Hx]; [by destruct Hdc as [?|[?|?]]| |done].
    destruct Hdc as [->|[->| ->]]; done.
Qed.

Lemma parse_authority_ok mem uri ui h port rest :
  (∀ a, mem a = true) → auth_ok ui h port → uri_port uri = -1 → uri_userinfo uri = None →
  EVUTIL_ISXDIGIT_ (char_at rest 0) = false →
  parse_authority mem uri (authority_text ui h port ++ rest) (length (authority_text ui h port)) =
  Some (Some (set_host uri ui h port)).
Proof.
  intros Hm [Hh Hp Hu Ha Hd] Hup Huu Hr. unfold parse_authority. destruct ui as [u|]; cbn [authority_text].
  - unfold authority_text. rewrite <- !app_assoc. cbn [app]. rewrite !length_app. cbn [length].
    rewrite (proj2 (Nat.eqb_neq _ 0)) by lia.
    rewrite strchr_app by (apply (userinfo_ok_excluded u 64 (Hu u eq_refl) at_excluded); done).
    rewrite (proj2 (Nat.ltb_lt _ _)) by lia. rewrite userinfo_ok_app, (Hu u eq_refl), Hm, take_app_length. cbn [negb].
    replace (drop (length u + 1) (u ++ 64 :: h ++ port_text port ++ rest)) with (h ++ port_text port ++ rest)
      by (rewrite drop_app_ge by lia; by replace (length u + 1 - length u)%nat with 1%nat by lia).
    replace (length u + S (length (h ++ port_text port)) - (length u + 1))%nat
      with (length h + length (port_text port))%nat by (rewrite length_app; lia).
    by apply hostport_ok.
  - unfold authority_text. cbn [app]. destruct (Nat.eqb_spec (length (h ++ port_text port)) 0) as [E|E].
    + apply nil_length_inv in E. apply app_eq_nil in E as [-> Ep]. rewrite Hm, Huu, Hup. do 3 f_equal.
      unfold port_text in Ep. unfold port_ok in Hp. destruct (Z.leb_spec 0 port); [done|]. lia.
    + assert (64 ∉ h ++ port_text port) as Hn.
      { rewrite elem_of_app. intros [Hin|Hin]; [by apply (Ha eq_refl)|]. by apply port_text_chars in Hin as [?|?]. }
      rewrite strchr_app_r by done. rewrite <- app_assoc, length_app, Huu.
      destruct (strchr 64 rest); cbn [fmap option_fmap option_map]; [|by apply hostport_ok].
      rewrite (proj2 (Nat.ltb_ge _ _)) by lia. by apply hostport_ok.
Qed.

Lemma strchr_absent c s : strchr c s = None → c ∉ s.
Proof.
  induction s as [|d s IH]; [intros _; apply not_elem_of_nil|]. cbn [strchr]. destruct (Z.eqb_spec d c); [done|].
  destruct (strchr c s); [done|]. intros _. rewrite not_elem_of_cons. split; [congruence|by apply IH].
Qed.

Lemma elem_of_take_any s n (c : Z) : c ∈ take n s → c ∈ s.
Proof. intros H. rewrite <- (take_drop n s), elem_of_app. by left. Qed.

Lemma elem_of_take_le s n m (c : Z) : (n <= m)%nat → c ∈ take n s → c ∈ take m s.
Proof. intros H Hin. rewrite <- (Nat.min_l n m H), <- take_take in Hin. by apply elem_of_take_any in Hin. Qed.

Lemma parse_authority_inv mem uri s uri' :
  let n := end_of_authority s in
  parse_authority mem uri s n = Some (Some uri') → uri_port uri = -1 → uri_userinfo uri = None →
  ∃ ui h port, uri' = set_host uri ui h port ∧ auth_ok ui h port.
Proof.
  cbv zeta. destruct (end_of_authority_spec s) as (Hle & Hnd & Hstop). set (n := end_of_authority s) in *.
  intros H Hup Huu. assert (EVUTIL_ISXDIGIT_ (char_at s n) = false) as Hx.
  { rewrite <- (Nat.add_0_r n), <- char_at_drop. apply xdigit_delim.
    destruct Hstop as [->|(c & r & -> & Hc)]; [by right; right|by left]. }
  assert (∀ i k, (i + k <= n)%nat → ∀ c, c ∈ take k (drop i s) → ¬ is_delim c) as Hsub.
  { intros i k Hik c Hc. apply Hnd. apply list_elem_of_lookup in Hc as [x Hx']. apply list_elem_of_lookup. exists (i + x)%nat.
    apply lookup_take_Some in Hx' as [Hx' Hxk]. rewrite lookup_drop in Hx'. rewrite lookup_take_lt by lia. done. }
  unfold parse_authority in H. destruct (Nat.eqb_spec n 0) as [En|En].
  { destruct (mem AHost); [|done]. injection H as <-. rewrite Huu, Hup. exists None, [], (-1). split; [done|].
    split; [done|unfold port_ok; lia|done|intros _; apply not_elem_of_nil|by intros c ?%not_elem_of_nil]. }
  assert (∀ i ui', parse_hostport mem uri ui' (drop i s) (n - i) = Some (Some uri') → (i <= n)%nat →
    (∀ u, ui' = Some u → userinfo_ok u (length u) = true) → (ui' = None → 64 ∉ take (n - i) (drop i s)) →
    ∃ ui h port, uri' = set_host uri ui h port ∧ auth_ok ui h port) as Hhp.
  { intros i ui' Hpar Hi Hu Hat. apply hostport_inv in Hpar as (k & port & -> & Hk & Hacc & Hp); [|rewrite length_drop; lia|done|].
    - exists ui', (take k (drop i s)), port. split; [done|]. split; try done; [|by apply Hsub; lia].
      intros E Hin. apply (Hat E). by apply (elem_of_take_le _ k).
    - rewrite char_at_drop. by replace (i + (n - i))%nat with n by lia. }
  destruct (strchr 64 s) as [cp|] eqn:Hat.
  - apply strchr_some in Hat as [Hcp Hno]. destruct (Nat.ltb_spec cp n) as [Hlt|Hge].
    + destruct (userinfo_ok s cp) eqn:Huo; [|done]. cbn [negb] in H. destruct (mem AUserinfo); [|done].
      apply (Hhp (cp + 1)%nat (Some (take cp s)) H); [lia| |done]. intros u [= <-].
      assert (length (take cp s) = cp) as Hl by (rewrite length_take; lia).
      rewrite <- (userinfo_ok_app (take cp s) (drop cp s)), take_drop, Hl. exact Huo.
    + rewrite Huu in H. apply (Hhp O None); [by rewrite drop_0, Nat.sub_0_r|lia|done|].
      rewrite drop_0, Nat.sub_0_r. intros _ Hin. apply Hno. by apply (elem_of_take_le _ n).
  - rewrite Huu in H. apply (Hhp O None); [by rewrite drop_0, Nat.sub_0_r|lia|done|].
    rewrite drop_0, Nat.sub_0_r. intros _ Hin. apply (elem_of_take_any s n) in Hin. by apply (strchr_absent 64 s).
Qed.
End authority.

(** ** The whole URI *)

Section uri.
Implicit Types (s p t : bytes) (uri : evhttp_uri).

(** The type invariant of a parsed URI. *)
Record uri_ok (flags : Z) uri : Prop := {
  uk_flags : uri_flags uri = flags;
  uk_scheme : ∀ sc, uri_scheme uri = Some sc → scheme_ok sc = true;
  uk_path : ∃ p, uri_path uri = Some p ∧ tail_ok flags p (uri_query uri) (uri_fragment uri) ∧ (0 ∉ p) ∧
    (uri_scheme uri = None → path_matches_noscheme p = true) ∧
    match uri_host uri with
    | Some h => auth_ok (uri_userinfo uri) h (uri_port uri) ∧ (char_at p 0 = 47 ∨ char_at p 0 = 0)
    | None => uri_userinfo uri = None ∧ uri_port uri = -1 ∧ ¬ (char_at p 0 = 47 ∧ char_at p 1 = 47)
    end
}.

Lemma tail_text_head q f : char_at (tail_text q f) 0 = 0 ∧ tail_text q f = [] ∨
  ∃ c r, tail_text q f = c :: r ∧ (c = 63 ∨ c = 35).
Proof. unfold tail_text. destruct q, f; cbn; eauto 6. Qed.

Lemma path_head p : (0 ∉ p) → char_at p 0 = 0 → p = [].
Proof. destruct p as [|c p]; [done|]. rewrite not_elem_of_cons. cbn. intros [H _] E. congruence. Qed.

Lemma strdup_opt_ok mem a x : (∀ a, mem a = true) → strdup_opt mem a x = Some x.
Proof. intros Hm. unfold strdup_opt, strdup. rewrite Hm. by destruct x. Qed.

Lemma finish_uri_ok mem uri got p q f :
  (∀ a, mem a = true) → (uri_scheme uri = None → path_matches_noscheme p = true) →
  (got = true → char_at p 0 = 47 ∨ char_at p 0 = 0) → (got = false → ¬ (char_at p 0 = 47 ∧ char_at p 1 = 47)) →
  finish_uri mem uri got p q f =
  Some (mk_uri (uri_flags uri) (uri_scheme uri) (uri_userinfo uri) (uri_host uri) (uri_port uri) (Some p) q f).
Proof.
  intros Hm Hns H1 H2. unfold finish_uri.
  assert (negb got && (char_at p 0 =? 47) && (char_at p 1 =? 47) = false) as ->.
  { destruct got; [done|]. specialize (H2 eq_refl). destruct (Z.eqb_spec (char_at p 0) 47), (Z.eqb_spec (char_at p 1) 47); cbn; tauto. }
  assert (got && negb (char_at p 0 =? 47) && negb (char_at p 0 =? 0) = false) as ->.
  { destruct got; [|done]. destruct (H1 eq_refl) as [-> | ->]; done. }
  assert (bool_decide (uri_scheme uri = None) && negb (path_matches_noscheme p) = false) as ->.
  { case_bool_decide as E; [|done]. by rewrite Hns. }
  unfold strdup at 1. rewrite Hm. rewrite bind_some_eq, !strdup_opt_ok by done. done.
Qed.

(** A scheme has no delimiter and no colon. *)
Lemma scheme_ok_chars sc c : scheme_ok sc = true → is_delim c ∨ c = 58 → c ∉ sc.
Proof.
  destruct sc as [|d sc]; [done|]. cbn [scheme_ok]. rewrite andb_true_iff. intros [Ha Hall] Hc.
  rewrite not_elem_of_cons. split.
  - intros <-. destruct Hc as [[-> | [-> | ->]] | ->]; vm_compute in Ha; done.
  - intros Hin. rewrite forallb_forall in Hall. specialize (Hall c ltac:(by apply list_elem_of_In)).
    destruct Hc as [[-> | [-> | ->]] | ->]; vm_compute in Hall; done.
Qed.

(** Without a scheme, a delimiter comes before the first colon. *)
Lemma noscheme_delim p q f i : path_matches_noscheme p = true → strchr 58 (p ++ tail_text q f) = Some i →
  ∃ c, c ∈ take i (p ++ tail_text q f) ∧ is_delim c.
Proof.
  revert i. induction p as [|c p IH]; intros i; cbn [app path_matches_noscheme].
  - intros _. destruct (tail_text_head q f) as [[_ ->]|(c & r & -> & Hc)]; [done|]. cbn [strchr].
    rewrite (proj2 (Z.eqb_neq c 58)) by lia. destruct (strchr 58 r); [|done]. intros [= <-].
    exists c. split; [by left|]. unfold is_delim. lia.
  - cbn [strchr]. destruct (Z.eqb_spec c 58); [done|]. destruct (strchr 58 _) as [k|]; [|by destruct (c =? 47)].
    destruct (Z.eqb_spec c 47) as [->|]; intros H [= <-]; [exists 47; split; [by left|unfold is_delim; lia]|].
    destruct (IH k H eq_refl) as (d & Hd & Hdd). exists d. split; [by right|done].
Qed.

Lemma no_scheme_found r : (∀ i, strchr 58 r = Some i → ∃ c, c ∈ take i r ∧ is_delim c) →
  match strchr 58 r with Some t => if scheme_ok (take t r) then Some t else None | None => None end = None.
Proof.
  intros H. destruct (strchr 58 r) as [t|]; [|done]. destruct (H t eq_refl) as (c & Hc & Hd).
  destruct (scheme_ok (take t r)) eqn:E; [|done]. exfalso. by apply (scheme_ok_chars _ c E); [left|].
Qed.

(** What follows the scheme. *)
Definition after_scheme uri p : bytes :=
  match uri_host uri with Some h => 47 :: 47 :: authority_text (uri_userinfo uri) h (uri_port uri) | None => [] end ++
  p ++ tail_text (uri_query uri) (uri_fragment uri).

Lemma uri_text_ok flags uri p : uri_ok flags uri → uri_path uri = Some p →
  uri_text uri = Some (match uri_scheme uri with Some sc => sc ++ [58] | None => [] end ++ after_scheme uri p).
Proof.
  intros [_ _ (p' & Ep & _ & _ & _ & Hh)] Ep'. rewrite Ep in Ep'. injection Ep' as ->.
  unfold uri_text, after_scheme. rewrite Ep. cbn [default from_option id].
  destruct (uri_host uri) as [h|]; [|done]. destruct Hh as [_ Hp0].
  assert (negb (char_at p 0 =? 47) && negb (char_at p 0 =? 0) = false) as E by (destruct Hp0 as [-> | ->]; done).
  rewrite <- (andb_assoc _ (negb (char_at p 0 =? 47))), E, andb_false_r. unfold authority_text, port_text, tail_text.
  by rewrite !app_comm_cons, <- !app_assoc.
Qed.

(** Parsing from the end of the scheme. *)
Lemma after_scheme_parse mem flags uri p : (∀ a, mem a = true) → uri_ok flags uri → uri_path uri = Some p →
  let readp := after_scheme uri p in let u0 := mk_uri flags (uri_scheme uri) None None (-1) None None None in
  (if (char_at readp 0 =? 47) && (char_at readp 1 =? 47) then
     uri' ← parse_authority mem u0 (drop 2 readp) (end_of_authority (drop 2 readp));
     match uri' with
     | None => Some None
     | Some uri' => Some ('(path, query, fragment) ← parse_tail (drop (end_of_authority (drop 2 readp)) (drop 2 readp)) flags;
                          finish_uri mem uri' true path query fragment)
     end
   else Some ('(path, query, fragment) ← parse_tail readp flags; finish_uri mem u0 false path query fragment))
  = Some (Some uri).
Proof.
  intros Hm [Hfl Hsc (p' & Ep & Htail & Hnul & Hns & Hh)] Ep'. rewrite Ep in Ep'. injection Ep' as ->. cbv zeta.
  unfold after_scheme. destruct uri as [fl sc ui host port path q f].
  cbn [uri_flags uri_scheme uri_userinfo uri_host uri_port uri_path uri_query uri_fragment] in *. subst fl path. destruct host as [h|].
  - destruct Hh as [Ha Hp0]. cbn [app char_at lookup list_lookup default from_option id Z.eqb Pos.eqb andb drop]. rewrite drop_0.
    set (rest := p ++ tail_text q f).
    assert (rest = [] ∨ ∃ c r, rest = c :: r ∧ is_delim c) as Hrest.
    { unfold rest, is_delim. destruct Hp0 as [Hp0|Hp0].
      - destruct p as [|c p]; [done|]. cbn in Hp0. right. cbn [app]. eauto 6.
      - rewrite (path_head p Hnul Hp0). destruct (tail_text_head q f) as [[_ ->]|(c & r & -> & Hc)]; [by left|].
        right. exists c, r. split; [done|]. lia. }
    rewrite end_of_authority_app; [|intros c; by apply authority_text_delim|done].
    rewrite parse_authority_ok; [|done..|].
    + rewrite bind_some_eq, drop_app_length. unfold rest. rewrite parse_tail_ok, bind_some_eq by done.
      rewrite finish_uri_ok by done. done.
    + apply xdigit_delim. destruct Hrest as [->|(c & r & -> & Hc)]; [by right; right|by left].
  - destruct Hh as (-> & -> & Hnn). cbn [app].
    assert ((char_at (p ++ tail_text q f) 0 =? 47) && (char_at (p ++ tail_text q f) 1 =? 47) = false) as ->.
    { destruct p as [|a [|b p]]; cbn [app] in *.
      - destruct (tail_text_head q f) as [[_ ->]|(c & r & -> & [-> | ->])]; done.
      - destruct (tail_text_head q f) as [[_ ->]|(c & r & -> & [-> | ->])]; cbn; by rewrite andb_false_r.
      - cbn in Hnn |- *. destruct (Z.eqb_spec a 47), (Z.eqb_spec b 47); cbn; tauto. }
    rewrite parse_tail_ok, bind_some_eq by done. by rewrite finish_uri_ok by done.
Qed.

Lemma uri_parse_text mem flags uri : (∀ a, mem a = true) → uri_ok flags uri →
  ∃ t, uri_text uri = Some t ∧ evhttp_uri_parse_with_flags mem t flags = Some (Some uri).
Proof.
  intros Hm Hok. destruct (uk_path _ _ Hok) as (p & Ep & Htail & Hnul & Hns & Hh).
  eexists. split; [by apply (uri_text_ok flags)|]. unfold evhttp_uri_parse_with_flags. rewrite !Hm. cbn [negb].
  pose proof (after_scheme_parse mem flags uri p Hm Hok Ep) as Hpar. cbv zeta in Hpar.
  destruct (uri_scheme uri) as [sc|] eqn:Esc.
  - rewrite <- app_assoc. cbn [app]. pose proof (uk_scheme _ _ Hok sc Esc) as Hsc.
    rewrite strchr_app by (apply scheme_ok_chars; [done|by right]). rewrite take_app_length, Hsc. cbn [fmap option_fmap option_map].
    rewrite take_app_length, andb_false_r.
    replace (drop (length sc + 1) (sc ++ 58 :: after_scheme uri p)) with (after_scheme uri p)
      by (rewrite drop_app_ge by lia; by replace (length sc + 1 - length sc)%nat with 1%nat by lia).
    exact Hpar.
  - cbn [app]. rewrite no_scheme_found; [cbn [fmap option_fmap option_map]; exact Hpar|]. intros i Hi.
    unfold after_scheme in *. destruct (uri_host uri) as [h|].
    + cbn [app strchr Z.eqb Pos.eqb] in Hi |- *. destruct (strchr 58 _); [|done]. injection Hi as <-. exists 47. split; [by left|].
      unfold is_delim. lia.
    + cbn [app] in *. apply (noscheme_delim p _ _ i); [by apply Hns|done].
Qed.

Lemma strdup_inv mem a s x : strdup mem a s = Some x → x = s.
Proof. unfold strdup. destruct (mem a); congruence. Qed.
Lemma strdup_opt_inv mem a (v x : option bytes) : strdup_opt mem a v = Some x → x = v.
Proof. unfold strdup_opt. destruct v as [v|]; [|congruence]. unfold strdup. destruct (mem a); cbn; congruence. Qed.


Lemma finish_uri_inv mem u0 got p q f uri : finish_uri mem u0 got p q f = Some uri →
  uri = mk_uri (uri_flags u0) (uri_scheme u0) (uri_userinfo u0) (uri_host u0) (uri_port u0) (Some p) q f ∧
  (uri_scheme u0 = None → path_matches_noscheme p = true) ∧
  (got = true → char_at p 0 = 47 ∨ char_at p 0 = 0) ∧ (got = false → ¬ (char_at p 0 = 47 ∧ char_at p 1 = 47)).
Proof.
  unfold finish_uri. destruct (negb got && _ && _) eqn:E1; [done|].
  destruct (got && _ && _) eqn:E2; [done|]. destruct (bool_decide _ && _) eqn:E3; [done|].
  intros H. apply bind_Some in H as (p' & ->%strdup_inv & H). apply bind_Some in H as (q' & ->%strdup_opt_inv & H).
  apply bind_Some in H as (f' & ->%strdup_opt_inv & [= <-]). split_and!; [done|..].
  - intros E. rewrite bool_decide_eq_true_2 in E3 by done. by destruct (path_matches_noscheme p).
  - intros ->. destruct (Z.eqb_spec (char_at p 0) 47), (Z.eqb_spec (char_at p 0) 0); cbn in E2; auto; discriminate.
  - intros -> [H1 H2]. rewrite H1, H2 in E1. discriminate.
Qed.

Lemma parse_tail_path s flags p q f : parse_tail s flags = Some (p, q, f) → p = take (end_of_path s PART_PATH flags) s.
Proof.
  unfold parse_tail. cbv zeta. set (n := end_of_path s PART_PATH flags).
  destruct (char_at (drop n s) 0 =? 63); (destruct (_ =? 35); [|]); (destruct (_ =? 0); [|done]); by intros [= <- <- <-].
Qed.

Lemma no_nul_take n s : (0 ∉ s) → 0 ∉ take n s.
Proof. intros H Hin. by apply elem_of_take_any in Hin. Qed.
Lemma no_nul_drop n s : (0 ∉ s) → 0 ∉ drop n s.
Proof. intros H Hin. apply H. rewrite <- (take_drop n s), elem_of_app. by right. Qed.

Lemma parse_uri_ok mem s flags uri : (0 ∉ s) →
  evhttp_uri_parse_with_flags mem s flags = Some (Some uri) → uri_ok flags uri.
Proof.
  intros Hs. unfold evhttp_uri_parse_with_flags. destruct (mem AUri), (mem AReadbuf); try done. cbn [negb].
  set (token := match strchr 58 s with Some _ => _ | None => None end). set (scheme := _ <$> token).
  destruct (bool_decide _ && _); [done|]. cbv zeta. set (u0 := mk_uri flags scheme None None (-1) None None None).
  set (readp := match token with Some t => drop (t + 1) s | None => s end).
  assert (∀ sc, scheme = Some sc → scheme_ok sc = true) as Hscheme.
  { unfold scheme, token. destruct (strchr 58 s) as [t|]; [|done]. destruct (scheme_ok (take t s)) eqn:E; [|done].
    by intros sc [= <-]. }
  assert (0 ∉ readp) as Hr by (unfold readp; destruct token; [by apply no_nul_drop|done]).
  destruct ((char_at readp 0 =? 47) && (char_at readp 1 =? 47)) eqn:Ess.
  - set (auth := drop 2 readp). destruct (parse_authority mem u0 auth (end_of_authority auth)) as [[uri'|]|] eqn:Hpa; [|done..].
    rewrite bind_some_eq. intros [= H]. apply parse_authority_inv in Hpa as (ui & h & port & -> & Hauth); [|done..].
    destruct (parse_tail _ flags) as [[[p q] f]|] eqn:Ht; [|done]. rewrite bind_some_eq in H.
    apply finish_uri_inv in H as (-> & Hns & Hg & _). pose proof (parse_tail_path _ _ _ _ _ Ht) as Ep.
    split; [done|done|]. exists p. split_and!; [done|by apply (parse_tail_inv flags _ _ _ _ Ht)| |done|split; [done|by apply Hg]].
    rewrite Ep. apply no_nul_take, no_nul_drop, no_nul_drop. done.
  - intros [= H]. destruct (parse_tail readp flags) as [[[p q] f]|] eqn:Ht; [|done]. rewrite bind_some_eq in H.
    apply finish_uri_inv in H as (-> & Hns & _ & Hg). pose proof (parse_tail_path _ _ _ _ _ Ht) as Ep.
    split; [done|done|]. exists p. split_and!; [done|by apply (parse_tail_inv flags _ _ _ _ Ht)| |done|].
    + rewrite Ep. by apply no_nul_take.
    + split_and!; [done|done|by apply Hg].
Qed.

Lemma uri_join_text uri t limit : uri_text uri = Some t → Z.of_nat (length t) < limit → evhttp_uri_join true uri limit = Some t.
Proof.
  intros Ht Hl. unfold evhttp_uri_join. rewrite (proj2 (Z.eqb_neq limit 0)) by lia. cbn [negb].
  rewrite Ht, bind_some_eq. by rewrite (proj2 (Z.ltb_ge limit _)) by lia.
Qed.

(** C22. A URI survives being joined and parsed again: for every string that
    [evhttp_uri_parse_with_flags] accepts (conformant or not), joining the parts
    succeeds in a buffer that is large enough, and parsing the result with the
    same flags gives exactly the same parts.  (The text itself may differ: the
    port is written in its shortest form, and an empty port is left out.) *)
Theorem uri_join_parse_roundtrip mem mem' s flags uri :
  c_string s → evhttp_uri_parse_with_flags mem s flags = Some (Some uri) → (∀ a, mem' a = true) →
  ∃ t, (∀ limit, Z.of_nat (length t) < limit → evhttp_uri_join true uri limit = Some t) ∧
       evhttp_uri_parse_with_flags mem' t flags = Some (Some uri).
Proof.
  intros Hs Hpar Hm. assert (0 ∉ s) as H0.
  { intros Hin. pose proof (proj1 (Forall_forall _ _) Hs 0 Hin) as H. cbn in H. lia. }
  destruct (uri_parse_text mem' flags uri Hm (parse_uri_ok mem s flags uri H0 Hpar)) as (t & Ht & Hp).
  exists t. split; [|done]. intros limit. by apply uri_join_text.
Qed.

(** ** Every URI object is made of valid parts *)

Record parts_ok uri : Prop := {
  po_scheme : ∀ x, uri_scheme uri = Some x → scheme_ok x = true;
  po_userinfo : ∀ x, uri_userinfo uri = Some x → userinfo_ok x (length x) = true;
  po_host : ∀ x, uri_host uri = Some x → host_ok x = Some true;
  po_port : -1 <= uri_port uri;
  po_path : part_ok PART_PATH (uri_flags uri) (uri_path uri) = true;
  po_query : part_ok PART_QUERY (uri_flags uri) (uri_query uri) = true;
  po_fragment : part_ok PART_FRAGMENT (uri_flags uri) (uri_fragment uri) = true
}.

Lemma host_accepted_ok h : host_accepted h → host_ok h = Some true.
Proof.
  unfold host_accepted, host_ok, bracketed. destruct (Z.eqb_spec (char_at h 0) 91) as [E|E]; cbn [andb].
  - destruct (Nat.leb 2 (length h) && _) eqn:Eb.
    + intros (r & -> & Hr). rewrite bind_some_eq. by rewrite (proj2 (Z.eqb_neq r 0) Hr).
    + intros H. destruct h as [|c h]; [done|]. cbn in E. subst c. done.
  - by intros ->.
Qed.

Lemma whole_part_ok part flags x : whole part flags x → part_ok part flags (Some x) = true.
Proof. intros H. cbn. by apply Nat.eqb_eq. Qed.

Lemma uri_ok_parts flags uri : uri_ok flags uri → parts_ok uri.
Proof.
  intros [Hf Hs (p & Ep & (Hp & Hq & Hfr) & _ & _ & Hh)]. subst flags. split.
  - done.
  - intros x E. destruct (uri_host uri) as [h|]; [destruct Hh as [[] _]; auto|]. destruct Hh as [E' _]. congruence.
  - intros x E. rewrite E in Hh. destruct Hh as [[Ha _ _ _ _] _]. by apply host_accepted_ok.
  - destruct (uri_host uri) as [h|]; [destruct Hh as [[_ Hpo _ _ _] _]; unfold port_ok in Hpo; lia|].
    destruct Hh as (_ & -> & _). lia.
  - rewrite Ep. by apply whole_part_ok.
  - destruct (uri_query uri); [|done]. by apply whole_part_ok, Hq.
  - destruct (uri_fragment uri); [|done]. by apply whole_part_ok, Hfr.
Qed.

(** ** The grammar of RFC 3986 *)

Definition alpha (c : Z) : Prop := 65 <= c <= 90 ∨ 97 <= c <= 122.
Definition digit (c : Z) : Prop := 48 <= c <= 57.
Definition hexdig (c : Z) : Prop := digit c ∨ 65 <= c <= 70 ∨ 97 <= c <= 102.
(** Letters, digits and "-._~". *)
Definition unreserved (c : Z) : Prop := alpha c ∨ digit c ∨ c = 45 ∨ c = 46 ∨ c = 95 ∨ c = 126.
(** "!$&'()*+,;=" *)
Definition sub_delim (c : Z) : Prop := c = 33 ∨ c = 36 ∨ 38 <= c <= 44 ∨ c = 59 ∨ c = 61.

(** A sequence of characters of a class and of percent-encoded ones. *)
Inductive chars (P : Z → Prop) : bytes → Prop :=
  | chars_nil : chars P []
  | chars_one c s : P c → chars P s → chars P (c :: s)
  | chars_pct a b s : hexdig a → hexdig b → chars P s → chars P (37 :: a :: b :: s).

Definition scheme_grammar (s : bytes) : Prop :=
  ∃ c s', s = c :: s' ∧ alpha c ∧ Forall (λ c, alpha c ∨ digit c ∨ c = 43 ∨ c = 45 ∨ c = 46) s'.
Definition userinfo_char (c : Z) : Prop := unreserved c ∨ sub_delim c ∨ c = 58.
Definition userinfo_grammar : bytes → Prop := chars userinfo_char.
Definition regname_grammar : bytes → Prop := chars (λ c, unreserved c ∨ sub_delim c).
(** "v" 1*HEXDIG "." *( unreserved / sub-delims / ":" ); the RFC asks for one character
    or more after the dot. *)
Definition ipvfuture_grammar (s : bytes) : Prop :=
  ∃ v rest, s = 118 :: v ++ 46 :: rest ∧ v ≠ [] ∧ Forall hexdig v ∧ Forall userinfo_char rest.
Definition ipv6_text (s : bytes) : Prop := ∃ a, evutil_inet_pton AF_INET6 s = Some (1, a).
Definition host_grammar (h : bytes) : Prop :=
  regname_grammar h ∨ ∃ s, h = 91 :: s ++ [93] ∧ (ipvfuture_grammar s ∨ ipv6_text s).
Definition part_char (part : uri_part) (c : Z) : Prop :=
  unreserved c ∨ sub_delim c ∨ c = 58 ∨ c = 64 ∨ c = 47 ∨ c = 63 ∧ part ≠ PART_PATH.
Definition part_grammar (part : uri_part) : bytes → Prop := chars (part_char part).
(** What is left of the grammar for URIs that need not conform. *)
Definition part_loose (part : uri_part) : bytes → Prop :=
  Forall (λ c, match part with PART_PATH => c ≠ 35 ∧ c ≠ 63 | PART_QUERY => c ≠ 35 | PART_FRAGMENT => True end).

(** The tables and character tests of the code against the grammar, for all bytes. *)
Lemma byte_table (P : Z → bool) : forallb P (seqZ 1 255) = true → ∀ c, 0 < c < 256 → P c = true.
Proof. intros Hall c Hc. apply forallb_forall with (x := c) in Hall; [done|]. apply list_elem_of_In, elem_of_seqZ. lia. Qed.

Lemma alpha_spec c : 0 < c < 256 → EVUTIL_ISALPHA_ c = true ↔ alpha c.
Proof.
  intros Hc. assert (E : Bool.eqb (EVUTIL_ISALPHA_ c) ((65 <=? c) && (c <=? 90) || (97 <=? c) && (c <=? 122)) = true).
  { revert c Hc. apply byte_table. vm_compute. reflexivity. }
  apply eqb_prop in E. rewrite E. unfold alpha. lia.
Qed.
Lemma digit_spec c : 0 < c < 256 → EVUTIL_ISALNUM_ c = true ↔ alpha c ∨ digit c.
Proof.
  intros Hc. assert (E : Bool.eqb (EVUTIL_ISALNUM_ c) ((65 <=? c) && (c <=? 90) || (97 <=? c) && (c <=? 122) || (48 <=? c) && (c <=? 57)) = true).
  { revert c Hc. apply byte_table. vm_compute. reflexivity. }
  apply eqb_prop in E. rewrite E. unfold alpha, digit. lia.
Qed.
Lemma hexdig_spec c : 0 <= c < 256 → EVUTIL_ISXDIGIT_ c = true ↔ hexdig c.
Proof.
  intros Hc. destruct (decide (c = 0)) as [->|Hne]; [unfold hexdig, digit; vm_compute EVUTIL_ISXDIGIT_; split; [done|lia]|].
  assert (E : Bool.eqb (EVUTIL_ISXDIGIT_ c) ((65 <=? c) && (c <=? 70) || (97 <=? c) && (c <=? 102) || (48 <=? c) && (c <=? 57)) = true).
  { assert (Hc' : 0 < c < 256) by lia. clear Hc Hne. revert c Hc'. apply byte_table. vm_compute. reflexivity. }
  apply eqb_prop in E. rewrite E. unfold hexdig, digit. lia.
Qed.
Lemma unreserved_spec c : 0 < c < 256 → CHAR_IS_UNRESERVED c = true ↔ unreserved c.
Proof.
  intros Hc. assert (E : Bool.eqb (CHAR_IS_UNRESERVED c) ((65 <=? c) && (c <=? 90) || (97 <=? c) && (c <=? 122) || (48 <=? c) && (c <=? 57) ||
    (c =? 45) || (c =? 46) || (c =? 95) || (c =? 126)) = true).
  { revert c Hc. apply byte_table. vm_compute. reflexivity. }
  apply eqb_prop in E. rewrite E. unfold unreserved, alpha, digit. lia.
Qed.
Lemma sub_delim_spec c : 0 < c < 256 → is_subdelim c = true ↔ sub_delim c.
Proof.
  intros Hc. assert (E : Bool.eqb (is_subdelim c) ((c =? 33) || (c =? 36) || (38 <=? c) && (c <=? 44) || (c =? 59) || (c =? 61)) = true).
  { revert c Hc. apply byte_table. vm_compute. reflexivity. }
  apply eqb_prop in E. rewrite E. unfold sub_delim. lia.
Qed.

Lemma pct_not_class c : unreserved c ∨ sub_delim c ∨ c = 58 ∨ c = 64 ∨ c = 47 ∨ c = 63 → c ≠ 37.
Proof. unfold unreserved, sub_delim, alpha, digit. lia. Qed.

Lemma pct_spec c s : c_string (c :: s) → pct_encoded (c :: s) = true ↔ ∃ a b s', c = 37 ∧ s = a :: b :: s' ∧ hexdig a ∧ hexdig b.
Proof.
  intros Hs. unfold pct_encoded. assert (Hat : ∀ i, 0 <= char_at (c :: s) i < 256).
  { intros i. unfold char_at. destruct ((c :: s) !! i) as [x|] eqn:E; cbn; [|lia]. pose proof (proj1 (Forall_lookup _ _) Hs i x E). cbn in *. lia. }
  rewrite !andb_true_iff, Z.eqb_eq, !hexdig_spec by apply Hat. split.
  - intros [[Ec Ha] Hb]. destruct s as [|a [|b s']]; cbn in *; [by unfold hexdig, digit in Ha; lia|by unfold hexdig, digit in Hb; lia|]. by exists a, b, s'.
  - by intros (a & b & s' & -> & -> & Ha & Hb).
Qed.

Lemma class_spec c : 0 < c < 256 → CHAR_IS_UNRESERVED c || is_subdelim c = true ↔ unreserved c ∨ sub_delim c.
Proof. intros Hc. by rewrite orb_true_iff, unreserved_spec, sub_delim_spec. Qed.
Lemma userinfo_char_spec c : 0 < c < 256 → CHAR_IS_UNRESERVED c || is_subdelim c || (c =? 58) = true ↔ userinfo_char c.
Proof. intros Hc. rewrite orb_true_iff, class_spec, Z.eqb_eq by done. unfold userinfo_char. tauto. Qed.

(** A loop over characters of a class [f] and percent-encoded ones accepts the strings of
    the grammar. *)
Lemma chars_cons (P : Z → Prop) (f : Z → bool) c s : c_string (c :: s) → (∀ c, 0 < c < 256 → f c = true ↔ P c) → (∀ c, P c → c ≠ 37) →
  chars P (c :: s) ↔ if f c then chars P s else pct_encoded (c :: s) = true ∧ chars P (drop 2 s).
Proof.
  intros Hs Hf Hne. assert (Hc : 0 < c < 256) by (by apply Forall_cons in Hs as [? _]). specialize (Hf c Hc). destruct (f c) eqn:E.
  - assert (HP : P c) by tauto. split; [|by constructor]. inversion 1; subst; [done|]. by destruct (Hne 37).
  - rewrite pct_spec by done. split.
    + inversion 1 as [|c' s' HP|a b s' Ha Hb Hch]; subst; [exfalso; destruct Hf as [_ Hf]; specialize (Hf HP); congruence|]. split; [by exists a, b, s'|done].
    + intros [(a & b & s' & -> & -> & Ha & Hb) Hch]. by constructor.
Qed.

Lemma c_string_drop n s : c_string s → c_string (drop n s).
Proof. apply Forall_drop. Qed.
Lemma c_string_take n s : c_string s → c_string (take n s).
Proof. apply Forall_take. Qed.

Lemma userinfo_ok_spec s : c_string s → userinfo_ok s (length s) = true ↔ userinfo_grammar s.
Proof.
  induction s as [|c s IH1 IH2] using list_ind3; intros Hs; [by split; constructor|]. assert (Hs' : c_string s) by (by apply Forall_cons in Hs as [_ ?]).
  unfold userinfo_grammar. rewrite (chars_cons _ (λ c, CHAR_IS_UNRESERVED c || is_subdelim c || (c =? 58)) c s Hs userinfo_char_spec) by (intros ? H; apply pct_not_class; unfold userinfo_char in H; tauto).
  specialize (IH1 Hs'). specialize (IH2 (c_string_drop 2 s Hs')). cbn [length userinfo_ok]. change (char_at (c :: s) 0) with c. destruct (_ || (c =? 58)); [done|].
  rewrite pct_spec by done. rewrite length_drop in IH2. destruct s as [|a [|b s]]; cbn [length] in *; [split; [done|intros [(? & ? & ? & _ & ? & _) _]; done]..|].
  change (drop 3 (c :: a :: b :: s)) with s. change (drop 2 (a :: b :: s)) with s in *. replace (S (S (length s)) - 2)%nat with (length s) in IH2 by lia.
  rewrite <- pct_spec by done. destruct (pct_encoded _); rewrite <- IH2; tauto || (split; [done|by intros [? _]]).
Qed.

Lemma regname_ok_spec s : c_string s → regname_ok s (length s) = true ↔ regname_grammar s.
Proof.
  induction s as [|c s IH1 IH2] using list_ind3; intros Hs; [by split; constructor|]. assert (Hs' : c_string s) by (by apply Forall_cons in Hs as [_ ?]).
  unfold regname_grammar. rewrite (chars_cons _ (λ c, CHAR_IS_UNRESERVED c || is_subdelim c) c s Hs class_spec) by (intros ? H; apply pct_not_class; tauto).
  specialize (IH1 Hs'). specialize (IH2 (c_string_drop 2 s Hs')). cbn [length regname_ok]. change (char_at (c :: s) 0) with c. destruct (_ || _); [done|].
  rewrite length_drop in IH2. destruct (pct_encoded (c :: s)) eqn:Hp; [|split; [done|by intros [? _]]]. pose proof (proj1 (pct_spec c s Hs) Hp) as (a & b & s' & -> & -> & _).
  cbn [length] in *. change (drop 3 (37 :: a :: b :: s')) with s'. change (drop 2 (a :: b :: s')) with s' in *. replace (S (S (length s')) - 2)%nat with (length s') in IH2 by lia.
  rewrite <- IH2. tauto.
Qed.

Lemma part_char_spec part c : 0 < c < 256 → pchar c || ((c =? 63) && negb (part_is_path part)) = true ↔ part_char part c.
Proof.
  intros Hc. unfold pchar, part_char. rewrite !orb_true_iff, unreserved_spec, sub_delim_spec, andb_true_iff, !Z.eqb_eq by done. destruct part; cbn; intuition congruence.
Qed.

Lemma conformant_spec part s : c_string s → end_conformant s part = length s ↔ part_grammar part s.
Proof.
  induction s as [|c s IH1 IH2] using list_ind3; intros Hs; [by split; constructor|]. assert (Hs' : c_string s) by (by apply Forall_cons in Hs as [_ ?]).
  unfold part_grammar. rewrite (chars_cons _ (λ c, pchar c || ((c =? 63) && negb (part_is_path part))) c s Hs (part_char_spec part)) by (intros ? H; apply pct_not_class; unfold part_char in H; tauto).
  specialize (IH1 Hs'). specialize (IH2 (c_string_drop 2 s Hs')). rewrite end_conformant_cons. cbn [length].
  change ((c =? 37) && EVUTIL_ISXDIGIT_ (char_at s 0) && EVUTIL_ISXDIGIT_ (char_at s 1)) with (pct_encoded (c :: s)).
  destruct (pchar c); cbn [orb]; [rewrite <- IH1; lia|]. destruct (pct_encoded (c :: s)) eqn:Hp.
  - pose proof (proj1 (pct_spec c s Hs) Hp) as (a & b & s' & -> & -> & _). cbn [length andb Z.eqb Pos.eqb] in *. change (drop 2 (a :: b :: s')) with s' in *. rewrite <- IH2. split; [intros; split; [done|lia]|intros [_ ->]; lia].
  - destruct ((c =? 63) && negb (part_is_path part)); [rewrite <- IH1; lia|]. split; [lia|by intros [? _]].
Qed.

Lemma nonconformant_spec part s : end_nonconformant s part = length s ↔ part_loose part s.
Proof.
  unfold part_loose. induction s as [|c s IH]; [split; [constructor|done]|]. rewrite Forall_cons, <- IH. cbn [end_nonconformant length]. pose proof (end_nonconformant_le s part).
  destruct part; [destruct (Z.eqb_spec c 35), (Z.eqb_spec c 63)|destruct (Z.eqb_spec c 35)|]; cbn [orb]; intuition lia.
Qed.

Lemma grammar_loose part s : part_grammar part s → part_loose part s.
Proof.
  unfold part_loose. induction 1 as [|c s Hc _ IH|a b s Ha Hb _ IH]; [constructor|constructor; [|done]|].
  - revert Hc. unfold part_char, unreserved, sub_delim, alpha, digit. destruct part; intros; [|lia|done]. split; [lia|]. intros ->. intuition (congruence || lia).
  - unfold hexdig, digit in *. repeat constructor; try done; destruct part; lia || (split; lia) || done.
Qed.

Lemma scheme_ok_spec s : c_string s → scheme_ok s = true → scheme_grammar s.
Proof.
  intros Hs. destruct s as [|c s]; [done|]. apply Forall_cons in Hs as [Hc Hs]. cbn. intros [Ha Hf]%andb_prop. exists c, s. split; [done|]. split; [by apply alpha_spec|].
  apply Forall_forall. intros x Hx. pose proof (proj1 (Forall_forall _ _) Hs x Hx) as Hb. apply forallb_forall with (x := x) in Hf; [|by apply list_elem_of_In].
  unfold scheme_char in Hf. rewrite !orb_true_iff, digit_spec, !Z.eqb_eq in Hf by done. tauto.
Qed.

Lemma span_chars (f : Z → bool) s : ∀ a b, span f s = (a, b) → s = a ++ b ∧ Forall (λ c, f c = true) a.
Proof.
  induction s as [|c s IH]; intros a b; cbn [span]; [by intros [= <- <-]|]. destruct (f c) eqn:Hp; [|by intros [= <- <-]].
  destruct (span f s) as [a' b']. destruct (IH a' b' eq_refl) as [-> Ha]. intros [= <- <-]. split; [done|by constructor].
Qed.

Lemma host_ok_spec h : c_string h → host_ok h = Some true → host_grammar h.
Proof.
  intros Hs. unfold host_ok. destruct (Z.eqb_spec (char_at h 0) 91) as [E|_]; [|intros [= Hr]; left; by apply regname_ok_spec]. intros H. apply bind_Some in H as (r & Hr & [= Hz]). right.
  unfold bracket_addr_ok in Hr. cbv zeta in Hr. destruct (Nat.ltb_spec (length h) 3) as [|Hlen]; [by injection Hr as <-|]. rewrite E in Hr. cbn [Z.eqb Pos.eqb negb orb] in Hr.
  destruct (Z.eqb_spec (char_at h (length h - 1)) 93) as [E'|]; [|by injection Hr as <-]. cbn [negb] in Hr. set (s := take (length h - 2) (drop 1 h)) in *. exists s.
  assert (Eh : h = 91 :: s ++ [93]).
  { destruct h as [|c h]; [cbn in Hlen; lia|]. cbn in E. subst c. f_equal. change (drop 1 (91 :: h)) with h in s. cbn [length] in *. subst s. rewrite <- (take_drop (length h - 1) h) at 1.
    replace (S (length h) - 2)%nat with (length h - 1)%nat by lia. f_equal. destruct (drop (length h - 1) h) as [|x l] eqn:Hd; [apply (f_equal length) in Hd; rewrite length_drop in Hd; cbn in Hd; lia|].
    assert (l = []) as -> by (apply (f_equal length) in Hd; rewrite length_drop in Hd; destruct l; cbn in *; [done|lia]). f_equal.
    assert (Hx : h !! (length h - 1)%nat = Some x) by (rewrite <- (Nat.add_0_r (length h - 1)), <- lookup_drop, Hd; done).
    unfold char_at in E'. replace (S (length h) - 1)%nat with (S (length h - 1)) in E' by lia. change ((91 :: h) !! S (length h - 1)%nat) with (h !! (length h - 1)%nat) in E'. by rewrite Hx in E'. }
  assert (Hss : c_string s) by (apply c_string_take, c_string_drop, Hs). split; [done|]. clearbody s. destruct (Z.eqb_spec (char_at s 0) 118) as [Ev|_].
  - left. destruct s as [|c t]; [done|]. cbn in Ev. subst c. change (drop 1 (118 :: t)) with t in Hr. apply Forall_cons in Hss as [_ Ht].
    destruct (EVUTIL_ISXDIGIT_ (char_at t 0)) eqn:Hx; [|by injection Hr as <-]. cbn [negb] in Hr. destruct (span EVUTIL_ISXDIGIT_ t) as [v [|c rest]] eqn:Hsp; [by injection Hr as <-|].
    destruct (Z.eqb_spec c 46) as [->|]; [|by injection Hr as <-]. cbn [andb] in Hr. destruct (forallb ipvfuture_char rest) eqn:Hf; [|by injection Hr as <-].
    destruct (span_chars _ _ _ _ Hsp) as [-> Hv]. apply Forall_app in Ht as [Hbv Hbr]. apply Forall_cons in Hbr as [_ Hbr]. exists v, rest. split; [done|]. split_and!.
    + intros ->. cbn in Hx. by vm_compute in Hx.
    + apply Forall_forall. intros x Hin. apply hexdig_spec; [pose proof (proj1 (Forall_forall _ _) Hbv x Hin); cbn in *; lia|]. by apply (proj1 (Forall_forall _ _) Hv x).
    + apply Forall_forall. intros x Hin. apply userinfo_char_spec; [by apply (proj1 (Forall_forall _ _) Hbr x)|]. apply forallb_forall with (x := x) in Hf; [done|by apply list_elem_of_In].
  - right. destruct (Nat.leb 64 (length s)); [by injection Hr as <-|]. apply bind_Some in Hr as ([r' a] & Hp & [= <-]). destruct (Z.eqb_spec r' 1) as [->|]; [by exists a|done].
Qed.

Lemma part_ok_spec part flags x : c_string x → part_ok part flags (Some x) = true → part_loose part x ∧ (flags &? EVHTTP_URI_NONCONFORMANT = false → part_grammar part x).
Proof.
  intros Hx. unfold part_ok, end_of_path. rewrite Nat.eqb_eq. destruct (flags &? _).
  - intros ?%nonconformant_spec. done.
  - intros Hg%conformant_spec; [|done]. split; [by apply grammar_loose|done].
Qed.

(** The parts of a parsed URI are pieces of the text. *)
Record strings_ok uri : Prop := {
  so_scheme : ∀ x, uri_scheme uri = Some x → c_string x;
  so_userinfo : ∀ x, uri_userinfo uri = Some x → c_string x;
  so_host : ∀ x, uri_host uri = Some x → c_string x;
  so_path : ∀ x, uri_path uri = Some x → c_string x;
  so_query : ∀ x, uri_query uri = Some x → c_string x;
  so_fragment : ∀ x, uri_fragment uri = Some x → c_string x
}.

Lemma hostport_strings mem uri ui cp n uri' : parse_hostport mem uri ui cp n = Some (Some uri') → strings_ok uri → c_string cp → (∀ x, ui = Some x → c_string x) → strings_ok uri'.
Proof.
  unfold parse_hostport. cbv zeta. destruct (_ && (_ <? 0)); [done|]. intros H [] Hcp Hui. apply bind_Some in H as (good & _ & H). destruct (negb good); [done|]. destruct (mem AHost); [|done].
  injection H as <-. split; cbn; try done. intros x [= <-]. by apply c_string_take.
Qed.

Lemma authority_strings mem uri s n uri' : parse_authority mem uri s n = Some (Some uri') → strings_ok uri → c_string s → strings_ok uri'.
Proof.
  unfold parse_authority. intros H Hu Hs. destruct (Nat.eqb n 0).
  - destruct (mem AHost); [|done]. injection H as <-. destruct Hu. split; cbn; try done. intros x [= <-]. constructor.
  - destruct (strchr 64 s) as [cp|]; [destruct (Nat.ltb cp n)|]; [|by eapply hostport_strings; [exact H|done|done|apply Hu]..].
    destruct (negb _); [done|]. destruct (mem AUserinfo); [|done]. eapply hostport_strings; [exact H|done|by apply c_string_drop|]. intros x [= <-]. by apply c_string_take.
Qed.

Lemma tail_strings s flags p q f : parse_tail s flags = Some (p, q, f) → c_string s → c_string p ∧ (∀ x, q = Some x → c_string x) ∧ (∀ x, f = Some x → c_string x).
Proof.
  unfold parse_tail. cbv zeta. intros H Hs.
  repeat case_match; simplify_eq; (split; [|split; intros x Hx; try done; injection Hx as <-]); repeat first [assumption|apply c_string_take|apply c_string_drop].
Qed.

Lemma parse_strings mem s flags uri : c_string s → evhttp_uri_parse_with_flags mem s flags = Some (Some uri) → strings_ok uri.
Proof.
  intros Hs. unfold evhttp_uri_parse_with_flags. destruct (mem AUri), (mem AReadbuf); try done. cbn [negb]. set (token := match strchr 58 s with Some _ => _ | None => None end).
  destruct (bool_decide _ && _); [done|]. cbv zeta. set (u0 := mk_uri flags _ None None (-1) None None None). set (readp := match token with Some t => drop (t + 1) s | None => s end).
  assert (Hr : c_string readp) by (unfold readp; destruct token; [by apply c_string_drop|done]).
  assert (Hu0 : strings_ok u0) by (split; cbn; try done; intros x; destruct token; [intros [= <-]; by apply c_string_take|done]).
  assert (Hfin : ∀ u got r, strings_ok u → c_string r → ('(path, query, fragment) ← parse_tail r flags; finish_uri mem u got path query fragment) = Some uri → strings_ok uri).
  { intros u got r [] Hcr H. apply bind_Some in H as ([[p q] f] & Ht & H). destruct (tail_strings _ _ _ _ _ Ht Hcr) as (Hp & Hq & Hf). apply finish_uri_inv in H as (-> & _). split; cbn; try done. by intros x [= <-]. }
  destruct (_ && _); [|intros [= H]; by eapply Hfin]. intros H. apply bind_Some in H as ([u|] & Hpa & H); [|done]. injection H as H. apply (Hfin u true _) in H; [done| |by apply c_string_drop, c_string_drop].
  eapply authority_strings; [exact Hpa|done|by apply c_string_drop].
Qed.

(** A URI object made by the operations; [loose] says whether the flag
    EVHTTP_URI_NONCONFORMANT was ever set. *)
Inductive uri_built : bool → evhttp_uri → Prop :=
  | built_new : uri_built false evhttp_uri_new
  | built_parse mem s flags uri : c_string s → evhttp_uri_parse_with_flags mem s flags = Some (Some uri) → uri_built (flags &? EVHTTP_URI_NONCONFORMANT) uri
  | built_flags loose flags uri : uri_built loose uri → uri_built (loose || (flags &? EVHTTP_URI_NONCONFORMANT)) (evhttp_uri_set_flags uri flags)
  | built_scheme loose ok x uri : (∀ s, x = Some s → c_string s) → uri_built loose uri → uri_built loose (fst (evhttp_uri_set_scheme ok uri x))
  | built_userinfo loose ok x uri : (∀ s, x = Some s → c_string s) → uri_built loose uri → uri_built loose (fst (evhttp_uri_set_userinfo ok uri x))
  | built_host loose ok x uri r : (∀ s, x = Some s → c_string s) → uri_built loose uri → evhttp_uri_set_host ok uri x = Some r → uri_built loose (fst r)
  | built_port loose x uri : uri_built loose uri → uri_built loose (fst (evhttp_uri_set_port uri x))
  | built_path loose ok x uri : (∀ s, x = Some s → c_string s) → uri_built loose uri → uri_built loose (fst (evhttp_uri_set_path ok uri x))
  | built_query loose ok x uri : (∀ s, x = Some s → c_string s) → uri_built loose uri → uri_built loose (fst (evhttp_uri_set_query ok uri x))
  | built_fragment loose ok x uri : (∀ s, x = Some s → c_string s) → uri_built loose uri → uri_built loose (fst (evhttp_uri_set_fragment ok uri x)).

(** The parts that are there are in the grammar. *)
Definition part_typed (loose : bool) (part : uri_part) (v : option bytes) : Prop :=
  ∀ x, v = Some x → part_loose part x ∧ (loose = false → part_grammar part x).
Record parts_typed (loose : bool) uri : Prop := {
  pt_scheme : ∀ x, uri_scheme uri = Some x → scheme_grammar x;
  pt_userinfo : ∀ x, uri_userinfo uri = Some x → userinfo_grammar x;
  pt_host : ∀ x, uri_host uri = Some x → host_grammar x;
  pt_port : -1 <= uri_port uri;
  pt_path : part_typed loose PART_PATH (uri_path uri);
  pt_query : part_typed loose PART_QUERY (uri_query uri);
  pt_fragment : part_typed loose PART_FRAGMENT (uri_fragment uri)
}.

Lemma parsed_typed mem s flags uri : c_string s → evhttp_uri_parse_with_flags mem s flags = Some (Some uri) →
  uri_flags uri = flags ∧ parts_typed (flags &? EVHTTP_URI_NONCONFORMANT) uri.
Proof.
  intros Hs Hp. destruct (parse_strings _ _ _ _ Hs Hp). assert (Hok : uri_ok flags uri).
  { apply (parse_uri_ok mem s); [|done]. intros Hin. pose proof (proj1 (Forall_forall _ _) Hs 0 Hin) as H. cbn in H. lia. }
  pose proof (uk_flags _ _ Hok) as Hf. split; [done|]. destruct (uri_ok_parts _ _ Hok) as [Q1 Q2 Q3 Q4 Q5 Q6 Q7]. rewrite Hf in *. split; [..|done| | |].
  - intros x E. by apply scheme_ok_spec; auto.
  - intros x E. apply userinfo_ok_spec; auto.
  - intros x E. apply host_ok_spec; auto.
  - intros x E. rewrite E in *. apply part_ok_spec; auto.
  - intros x E. rewrite E in *. apply part_ok_spec; auto.
  - intros x E. rewrite E in *. apply part_ok_spec; auto.
Qed.

Lemma uri_set_str_cases ok x : (URI_SET_STR_ ok x).1 = None ∨ (URI_SET_STR_ ok x).1 = x.
Proof. unfold URI_SET_STR_. destruct x, ok; auto. Qed.

Lemma set_typed loose flags part ok x : (flags &? EVHTTP_URI_NONCONFORMANT = true → loose = true) → (∀ s, x = Some s → c_string s) → part_ok part flags x = true →
  part_typed loose part (fst (URI_SET_STR_ ok x)).
Proof.
  intros Hfl Hx Hp v Hv. destruct (uri_set_str_cases ok x) as [E|E]; rewrite E in Hv; [done|]. subst x. destruct (part_ok_spec part flags v (Hx v eq_refl) Hp) as [Hl Hg]. split; [done|].
  intros ->. apply Hg. destruct (flags &? _); [by specialize (Hfl eq_refl)|done].
Qed.

Lemma uri_built_typed loose uri : uri_built loose uri → (uri_flags uri &? EVHTTP_URI_NONCONFORMANT = true → loose = true) ∧ parts_typed loose uri.
Proof.
  induction 1 as [|mem s flags uri Hs Hp|loose flags uri _ [IHf IH]|loose ok x uri Hx _ [IHf IH]|loose ok x uri Hx _ [IHf IH]|loose ok x uri r Hx _ [IHf IH] Hr|loose x uri _ [IHf IH]
    |loose ok x uri Hx _ [IHf IH]|loose ok x uri Hx _ [IHf IH]|loose ok x uri Hx _ [IHf IH]].
  - split; [done|]. split; cbn; done.
  - destruct (parsed_typed _ _ _ _ Hs Hp) as [-> ?]. done.
  - split; [cbn; intros ->; by rewrite orb_true_r|]. destruct IH as [T1 T2 T3 T4 T5 T6 T7].
    split; cbn; try done; intros y E; [destruct (T5 y E)|destruct (T6 y E)|destruct (T7 y E)]; (split; [done|]; intros [? _]%orb_false_iff; auto).
  - unfold evhttp_uri_set_scheme. pose proof (uri_set_str_cases ok x) as Hc. destruct x as [x|]; [destruct (scheme_ok x) eqn:E; [|done]|]; cbn [negb]; destruct (URI_SET_STR_ ok _) as [v r]; cbn [fst] in *; (split; [done|]);
      destruct IH; split; cbn; try done; intros y Hy; destruct Hc as [Hc|Hc]; rewrite Hc in Hy; try done. injection Hy as <-. apply scheme_ok_spec; auto.
  - unfold evhttp_uri_set_userinfo. pose proof (uri_set_str_cases ok x) as Hc. destruct x as [x|]; [destruct (userinfo_ok x (length x)) eqn:E; [|done]|]; cbn [negb]; destruct (URI_SET_STR_ ok _) as [v r]; cbn [fst] in *; (split; [done|]);
      destruct IH; split; cbn; try done; intros y Hy; destruct Hc as [Hc|Hc]; rewrite Hc in Hy; try done. injection Hy as <-. apply userinfo_ok_spec; auto.
  - unfold evhttp_uri_set_host in Hr. apply bind_Some in Hr as (good & Hg & Hr). destruct good; cbn [negb] in Hr; [|injection Hr as <-; done]. pose proof (uri_set_str_cases ok x) as Hc. destruct (URI_SET_STR_ ok x) as [v r']. injection Hr as <-. cbn [fst] in *.
    split; [done|]. destruct IH. split; cbn; try done. intros y Hy. destruct Hc as [->| ->]; [done|]. subst x. apply host_ok_spec; auto.
  - unfold evhttp_uri_set_port. destruct (Z.ltb_spec x (-1)); [done|]. split; [done|]. destruct IH. split; cbn; try done; lia.
  - unfold evhttp_uri_set_path. destruct (part_ok _ _ x) eqn:E; [|done]. cbn [negb]. pose proof (set_typed loose _ _ ok x IHf Hx E). destruct (URI_SET_STR_ ok x) as [v r]. split; [done|]. destruct IH. by split.
  - unfold evhttp_uri_set_query. destruct (part_ok _ _ x) eqn:E; [|done]. cbn [negb]. pose proof (set_typed loose _ _ ok x IHf Hx E). destruct (URI_SET_STR_ ok x) as [v r]. split; [done|]. destruct IH. by split.
  - unfold evhttp_uri_set_fragment. destruct (part_ok _ _ x) eqn:E; [|done]. cbn [negb]. pose proof (set_typed loose _ _ ok x IHf Hx E). destruct (URI_SET_STR_ ok x) as [v r]. split; [done|]. destruct IH. by split.
Qed.


(** The parser always returns. *)
Lemma bracket_addr_total h : ∃ r, bracket_addr_ok h = Some r.
Proof.
  unfold bracket_addr_ok. cbv zeta. destruct (_ || _ || _); [eauto|]. destruct (_ =? 118).
  - destruct (negb _); [eauto|]. destruct (span _ _) as [a [|c t]]; [eauto|]. destruct (_ && _); eauto.
  - destruct (Nat.leb _ _); [eauto|]. unfold evutil_inet_pton. cbn [Z.eqb Pos.eqb AF_INET AF_INET6].
    destruct (pton6_safe (take (length h - 2) (drop 1 h))) as (r & a & -> & _). rewrite bind_some_eq. eauto.
Qed.

Lemma hostport_total mem uri ui cp n : ∃ r, parse_hostport mem uri ui cp n = Some r.
Proof.
  unfold parse_hostport. cbv zeta. destruct (_ && _ && (_ <? 0)); [eauto|]. destruct (_ && _ && (_ =? 93)).
  - destruct (bracket_addr_total (take (if Nat.ltb 0 (back_digits n cp) && (char_at cp (back_digits n cp - 1) =? 58)
      then (back_digits n cp - 1)%nat else n) cp)) as (r & ->). rewrite !bind_some_eq. destruct (negb _), (mem AHost); eauto.
  - rewrite bind_some_eq. destruct (negb _), (mem AHost); eauto.
Qed.

Lemma uri_parse_total mem s flags : ∃ r, evhttp_uri_parse_with_flags mem s flags = Some r.
Proof.
  unfold evhttp_uri_parse_with_flags. destruct (negb (mem AUri)); [eauto|]. destruct (negb (mem AReadbuf)); [eauto|]. cbv zeta.
  destruct (bool_decide _ && _); [eauto|]. destruct (_ && _); [|eauto].
  set (u := mk_uri _ _ _ _ _ _ _ _). set (a := drop 2 _).
  assert (∃ r, parse_authority mem u a (end_of_authority a) = Some r) as [r ->].
  { unfold parse_authority. destruct (Nat.eqb _ 0); [eauto|]. destruct (strchr 64 a); [|apply hostport_total].
    destruct (Nat.ltb _ _); [|apply hostport_total]. destruct (negb _); [eauto|]. destruct (mem AUserinfo); [apply hostport_total|eauto]. }
  rewrite bind_some_eq. destruct r; eauto.
Qed.
End uri.

(** * Concrete URIs *)

Definition all_mem : uri_alloc → bool := λ _, true.
Definition uri_full : bytes := bytes_of_string "http://user:pw@[::1]:080/a/b?x=1#frag".
Definition uri_full_parts : evhttp_uri :=
  mk_uri 0 (Some (bytes_of_string "http")) (Some (bytes_of_string "user:pw")) (Some (bytes_of_string "[::1]")) 80
    (Some (bytes_of_string "/a/b")) (Some (bytes_of_string "x=1")) (Some (bytes_of_string "frag")).

Lemma uri_full_string : c_string uri_full.
Proof. unfold uri_full, c_string. cbn. repeat constructor; lia. Qed.

Example parse_full : evhttp_uri_parse all_mem uri_full = Some (Some uri_full_parts).
Proof. vm_compute. reflexivity. Qed.
(** The port is written in its shortest form. *)
Example join_full : evhttp_uri_join true uri_full_parts 64 = Some (bytes_of_string "http://user:pw@[::1]:80/a/b?x=1#frag").
Proof. vm_compute. reflexivity. Qed.
(** The text has 36 characters and needs 37 bytes. *)
Example join_short : evhttp_uri_join true uri_full_parts 36 = None ∧ evhttp_uri_join true uri_full_parts 37 ≠ None.
Proof. vm_compute. split; [reflexivity|discriminate]. Qed.

Lemma uri_join_parse_roundtrip_witness :
  ∃ t, (∀ limit, Z.of_nat (length t) < limit → evhttp_uri_join true uri_full_parts limit = Some t) ∧
       evhttp_uri_parse_with_flags all_mem t 0 = Some (Some uri_full_parts).
Proof.
  exact (uri_join_parse_roundtrip all_mem all_mem uri_full 0 uri_full_parts uri_full_string
    ltac:(vm_compute; reflexivity) (λ _, eq_refl)).
Defined.

Definition bytes_odd : bytes := [0; 32; 37; 255; 97; 43].
Example encode_odd : evhttp_uriencode true true bytes_odd 6 true = Some (bytes_of_string "%00+%25%FFa%2B").
Proof. vm_compute. reflexivity. Qed.

Lemma uriencode_roundtrip_witness :
  ∃ t, evhttp_uriencode true true bytes_odd 6 true = Some t ∧ evhttp_uridecode true t true = Some (bytes_odd, 6).
Proof.
  destruct (uriencode_roundtrip bytes_odd true) as (t & H1 & H2 & _).
  { unfold bytes_odd. repeat constructor; unfold is_byte; lia. }
  exists t. split; [exact H1|exact H2].
Defined.

(** A parsed URI whose port and query are replaced. *)
Definition uri_changed : evhttp_uri :=
  fst (evhttp_uri_set_query true (fst (evhttp_uri_set_port uri_full_parts 8080)) (Some (bytes_of_string "y=%41"))).


(** "[v1.]" has no character after the dot, which the grammar asks for. *)
Example ipvfuture_empty : bracket_addr_ok (bytes_of_string "[v1.]") = Some 2.
Proof. vm_compute. reflexivity. Qed.
(** A refused value leaves the URI as it was; a failed allocation loses the part. *)
Example set_query_refused :
  evhttp_uri_set_query true uri_full_parts (Some (bytes_of_string "a b")) = (uri_full_parts, -1) ∧
  uri_query (fst (evhttp_uri_set_query false uri_full_parts (Some (bytes_of_string "y")))) = None.
Proof. vm_compute. split; reflexivity. Qed.
