(* ===== verification/BufferStream.v ===== *)
(** * Byte buffers as streams

    What the protocols use of a buffer that nothing pins: a condition that every
    operation keeps, under which adding, printing, reading lines and moving data
    succeed as long as memory is available, and have the effect that their names
    say on the content. *)

From S2P Require Import Prelude BufferCore BufferMove BufferSearch.
From S2P Require Import BufferInv BufferDrain BufferMoveProps BufferSearchProps BufferLines BufferRead.
From S2P Require Import Util.

(** ** The shape of the list of chains *)

(** The largest block; twice this does not overflow any size of the allocator. *)
Definition BLOCK_MAX : Z := 2 ^ 61.

(** A chain nothing pins, with a block that is not too large; an empty one has
    room. *)
Definition small_chain (c : evbuffer_chain) : Prop :=
  CHAIN_PINNED c = false ∧ Z.of_nat (buffer_len c) + EVBUFFER_CHAIN_SIZE <= BLOCK_MAX ∧
  (empty_chain c → (0 < CHAIN_SPACE_LEN c)%nat).

(** Every chain before [last_with_datap] has data. *)
Record shape (cs : list evbuffer_chain) (lwd : nat) : Prop := {
  sh_small : Forall small_chain cs;
  sh_front : Forall (λ c, ¬ empty_chain c) (take lwd cs)
}.

(** A buffer that can be used without restriction. *)
Record stream_ok (b : evbuffer) : Prop := {
  st_ok : buf_ok b;
  st_shape : shape (bf_chains b) (bf_lwd b);
  st_start : bf_freeze_start b = false;
  st_end : bf_freeze_end b = false
}.

Lemma stream_unpinned b : stream_ok b → unpinned b.
Proof.
  intros [_ [H _] _ _]. apply nopins_unpinned. eapply Forall_impl; [done|]. by intros c [? _].
Qed.

Lemma shape_nil : shape [] 0.
Proof. split; constructor. Qed.

(** Replacing a chain by one of the same block that has no less data. *)
Lemma shape_insert cs lwd p c c' :
  shape cs lwd → cs !! p = Some c → c_flags c' = c_flags c → buffer_len c' = buffer_len c →
  (empty_chain c' → empty_chain c ∧ c_misalign c' <= c_misalign c)%nat →
  (p < lwd → ¬ empty_chain c')%nat → shape (<[p := c']> cs) lwd.
Proof.
  intros [H1 H2] Hp Hf Hl Hm He. split.
  - apply Forall_insert; [done|]. pose proof (Forall_lookup_1 _ _ _ _ H1 Hp) as (Hpin & Hs & Hsp).
    split_and!; [unfold CHAIN_PINNED in *; by rewrite Hf|by rewrite Hl|].
    intros He'. destruct (Hm He') as [E1 E2]. specialize (Hsp E1). unfold CHAIN_SPACE_LEN, empty_chain in *.
    rewrite Hf, Hl, He'. rewrite E1 in Hsp. destruct (_ &? _); lia.
  - destruct (decide (p < lwd)%nat) as [Hlt|Hge].
    + rewrite take_insert_lt by done. apply Forall_insert; [done|auto].
    + rewrite take_insert_ge by lia. done.
Qed.

Lemma double_until_pow fuel k size e :
  0 <= k <= e → size <= 2 ^ e → double_until fuel (2 ^ k) size <= 2 ^ e.
Proof.
  revert k. induction fuel as [|fuel IH]; intros k Hk Hs; cbn [double_until].
  { apply Z.pow_le_mono_r; lia. }
  destruct (Z.ltb_spec (2 ^ k) size) as [Hlt|Hge]; [|apply Z.pow_le_mono_r; lia].
  rewrite Z.shiftl_mul_pow2, <-Z.pow_add_r by lia. apply IH; [|done].
  destruct (decide (k = e)) as [->|]; lia.
Qed.

Lemma double_until_start fuel a size : 0 <= a → a <= double_until fuel a size.
Proof.
  revert a. induction fuel as [|fuel IH]; intros a Ha; cbn [double_until]; [done|].
  destruct (a <? size); [|done]. rewrite Z.shiftl_mul_pow2 by lia. specialize (IH (a * 2 ^ 1)). lia.
Qed.

(** Blocks are as large as what is asked for, rounded up to a power of two. *)
Lemma chain_new_small ok size c :
  0 <= size → size + EVBUFFER_CHAIN_SIZE <= BLOCK_MAX → evbuffer_chain_new ok size = Some c → small_chain c.
Proof.
  intros H0 Hs. unfold evbuffer_chain_new. destruct (_ <? _); [done|]. destruct ok; [|done].
  intros [= <-]. split; [done|]. unfold CHAIN_SPACE_LEN, buffer_len. cbn [c_buffer c_flags c_misalign c_off]. rewrite length_replicate.
  assert (chain_alloc_size (size + EVBUFFER_CHAIN_SIZE) <= BLOCK_MAX) as Ha.
  { unfold chain_alloc_size. destruct (_ <? _); [|done]. change MIN_BUFFER_SIZE with (2 ^ 10). by apply double_until_pow. }
  assert (EVBUFFER_CHAIN_SIZE <= BLOCK_MAX) by done. split; [lia|]. intros _. change (0 &? EVBUFFER_IMMUTABLE) with false. cbv iota.
  assert (MIN_BUFFER_SIZE <= chain_alloc_size (size + EVBUFFER_CHAIN_SIZE)); [|lia].
  unfold chain_alloc_size. destruct (Z.ltb_spec (size + EVBUFFER_CHAIN_SIZE) (EVBUFFER_CHAIN_MAX `div` 2)) as [|Hbig].
  - by apply double_until_start.
  - change (EVBUFFER_CHAIN_MAX `div` 2) with 4611686018427387903 in Hbig. lia.
Qed.

(** The chains that stay when the empty ones at the end are freed. *)
Lemma free_trailing_shape b kept :
  list_ok (bf_chains b) (bf_lwd b) → shape (bf_chains b) (bf_lwd b) →
  evbuffer_free_trailing_empty_chains b = Some kept →
  Forall small_chain kept ∧ Forall (λ c, ¬ empty_chain c) kept ∧ (length kept <= S (bf_lwd b))%nat.
Proof.
  intros [_ _ He] [H1 H2]. unfold evbuffer_free_trailing_empty_chains. destruct (evbuffer_chains_all_empty _); [|done].
  cbn [evassert]. rewrite bind_some_eq. intros [= <-]. split; [by apply Forall_take|].
  destruct (drop (bf_lwd b) (bf_chains b)) as [|c l] eqn:Ed.
  { cbn [victim]. rewrite Nat.add_0_r, length_take. split; [done|lia]. }
  pose proof (drop_cons_lookup _ _ _ _ Ed) as [Hc Ed'].
  rewrite victim_unpinned; [|rewrite <-Ed; apply Forall_drop; eapply Forall_impl; [done|]; by intros ? [? _]|by rewrite <-Ed'].
  destruct (Nat.eqb_spec (c_off c) 0) as [|Hne].
  - rewrite Nat.add_0_r, length_take. split; [done|lia].
  - rewrite Nat.add_1_r. split; [|rewrite length_take; lia].
    rewrite (take_S_r _ _ c Hc). apply Forall_app. split; [done|by constructor].
Qed.

Lemma chain_insert_shape c b b' :
  list_ok (bf_chains b) (bf_lwd b) → shape (bf_chains b) (bf_lwd b) → small_chain c →
  evbuffer_chain_insert c b = Some b' → shape (bf_chains b') (bf_lwd b').
Proof.
  intros Hl Hs Hc. unfold evbuffer_chain_insert. destruct (bf_chains b !! bf_lwd b) as [c0|] eqn:Hlk.
  - destruct (evbuffer_free_trailing_empty_chains b) as [kept|] eqn:Hk; [|done]. rewrite !bind_some_eq.
    destruct (free_trailing_shape b kept Hl Hs Hk) as (K1 & K2 & K3). intros [= <-].
    assert (Forall small_chain (kept ++ [c])) by (apply Forall_app; split; [done|by constructor]).
    destruct (c_off c =? 0)%nat.
    + split; [done|]. cbn. destruct (free_trailing_ok b Hl) as (kept' & E & _ & _ & Hle & _). rewrite Hk in E. injection E as <-.
      rewrite take_app_le by lia. by apply Forall_take.
    + split; [done|]. cbn. rewrite take_app_length. done.
  - destruct (bf_lwd b =? 0)%nat eqn:E0; [|done]. cbn [evassert]. rewrite bind_some_eq.
    destruct (length (bf_chains b) =? 0)%nat; [|done]. cbn [evassert]. rewrite !bind_some_eq. intros [= <-].
    apply Nat.eqb_eq in E0. cbn. rewrite E0. split; [by constructor|constructor].
Qed.

(** ** Adding data *)

Lemma write_end_same d c c' :
  chain_write_end d c = Some c' → c_flags c' = c_flags c ∧ buffer_len c' = buffer_len c ∧ c_off c' = (c_off c + length d)%nat ∧ c_misalign c' = c_misalign c.
Proof.
  unfold chain_write_end. intros (buf & Hb & [= <-])%bind_Some. unfold buffer_len. cbn.
  by rewrite (memcpy_at_length _ _ _ _ Hb).
Qed.

Lemma align_same c c' : evbuffer_chain_align c = Some c' →
  c_flags c' = c_flags c ∧ buffer_len c' = buffer_len c ∧ c_off c' = c_off c ∧ c_misalign c' = 0%nat.
Proof.
  unfold evbuffer_chain_align. intros H. repeat (apply bind_Some in H as (? & ? & H)).
  unfold buffer_len. injection H as <-. cbn. split_and!; [done| |done|done]. by eapply memcpy_at_length.
Qed.

Lemma invoke_shape b : shape (bf_chains b) (bf_lwd b) →
  shape (bf_chains (evbuffer_invoke_callbacks_ b)) (bf_lwd (evbuffer_invoke_callbacks_ b)).
Proof. by destruct (invoke_callbacks_frame b) as (-> & -> & _). Qed.

Lemma add_another_shape ok p c remain data b r b' :
  buf_ok b → shape (bf_chains b) (bf_lwd b) → bf_chains b !! p = Some c → p = bf_lwd b →
  Z.of_nat (length data) + EVBUFFER_CHAIN_SIZE <= BLOCK_MAX →
  add_another_chain ok p c remain data b = Some (r, b') → shape (bf_chains b') (bf_lwd b').
Proof.
  intros Hb Hs Hc Hp Hd. unfold add_another_chain. cbv zeta.
  set (ta := if (buffer_len c <=? _)%nat then _ else _).
  set (size := if (ta <? length data)%nat then _ else _).
  destruct (evbuffer_chain_new ok (Z.of_nat size)) as [tmp|] eqn:Hnew; [|by intros [= <- <-]].
  assert (small_chain tmp) as Htmp.
  { eapply chain_new_small; [| |done]; [lia|].
    pose proof (Forall_lookup_1 _ _ _ _ (sh_small _ _ Hs) Hc) as (_ & Hbl & _).
    assert (Z.of_nat ta + EVBUFFER_CHAIN_SIZE <= BLOCK_MAX).
    { unfold ta. destruct (Nat.leb_spec (buffer_len c) (EVBUFFER_CHAIN_MAX_AUTO_SIZE / 2)) as [Hle|]; [|done].
      change (EVBUFFER_CHAIN_MAX_AUTO_SIZE / 2)%nat with 2048%nat in Hle. change BLOCK_MAX with 2305843009213693952. lia. }
    unfold size. destruct (_ <? _)%nat; lia. }
  intros H. apply bind_Some in H as (b1 & H1 & H). apply bind_Some in H as (buf & Hbuf & H).
  apply bind_Some in H as (b2 & H2 & [= <- <-]). apply invoke_shape. cbn [bf_chains bf_lwd add_n_add set_bf_n_add].
  assert (list_ok (bf_chains b1) (bf_lwd b1) ∧ shape (bf_chains b1) (bf_lwd b1)) as [Hl1 Hs1].
  { destruct (remain =? 0)%nat; [injection H1 as <-; split; [apply Hb|done]|].
    apply bind_Some in H1 as (c' & Hw & [= <-]). cbn. destruct (write_end_same _ _ _ Hw) as (E1 & E2 & E3 & E4).
    split; [|apply (shape_insert _ _ _ c); [done..|unfold empty_chain; lia|lia]].
    eapply list_ok_insert; [apply Hb|done| |left; lia].
    pose proof (list_ok_lookup _ _ _ _ (bo_list _ Hb) Hc) as Hok.
    unfold chain_write_end in Hw. apply bind_Some in Hw as (buf' & Hb' & [= <-]).
    pose proof (memcpy_at_length _ _ _ _ Hb') as Hlen. unfold memcpy_at in Hb'.
    destruct (CHAIN_SPACE_PTR c + _ <=? _)%nat eqn:E; [|done]. apply Nat.leb_le in E.
    destruct Hok as [K1 K2]. unfold chain_ok, buffer_len, CHAIN_SPACE_PTR in *. cbn. rewrite Hlen. split; [lia|done]. }
  eapply chain_insert_shape; [..|exact H2]; [done..|]. destruct Htmp as (T1 & T2 & T3).
  unfold small_chain, CHAIN_SPACE_LEN, buffer_len, empty_chain in *. cbn. rewrite (memcpy_at_length _ _ _ _ Hbuf).
  apply chain_new_ok in Hnew as (_ & Ho & Hmis & _); [|lia]. split_and!; [done..|]. specialize (T3 Ho). rewrite Ho in T3. intros ->. done.
Qed.

Lemma add_to_chain_shape ok p data b r b' :
  buf_ok b → shape (bf_chains b) (bf_lwd b) → p = bf_lwd b →
  Z.of_nat (length data) + EVBUFFER_CHAIN_SIZE <= BLOCK_MAX →
  add_to_chain ok p data b = Some (r, b') → shape (bf_chains b') (bf_lwd b').
Proof.
  intros Hb Hs Hp Hd H. unfold add_to_chain in H. apply bind_Some in H as (c & Hc & H).
  destruct (c_flags c &? EVBUFFER_IMMUTABLE); [by eapply add_another_shape|].
  apply bind_Some in H as (_ & _ & H). cbv zeta in H. destruct (_ <=? _)%nat.
  { apply bind_Some in H as (c' & Hw & [= <- <-]). apply invoke_shape. cbn.
    destruct (write_end_same _ _ _ Hw) as (E1 & E2 & E3 & E4). apply (shape_insert _ _ _ c); [done..|unfold empty_chain; lia|lia]. }
  destruct (_ && _); [|by eapply add_another_shape].
  apply bind_Some in H as (c1 & Ha & H). apply bind_Some in H as (buf & Hbuf & [= <- <-]). apply invoke_shape. cbn.
  destruct (align_same _ _ Ha) as (E1 & E2 & E3 & E4). apply (shape_insert _ _ _ c); [done..|done| |unfold empty_chain; cbn; lia|lia].
  unfold buffer_len in *. cbn. by rewrite (memcpy_at_length _ _ _ _ Hbuf).
Qed.

(** What a stream can still take. *)
Definition stream_fits (n : nat) : Prop := Z.of_nat n + EVBUFFER_CHAIN_SIZE <= BLOCK_MAX.

Lemma stream_alloc_fits n b : stream_ok b → stream_fits n → alloc_fits n b.
Proof.
  intros [_ [Hs _] _ _] Hn. unfold stream_fits in Hn. change BLOCK_MAX with 2305843009213693952 in *. split; [lia|].
  eapply Forall_impl; [done|]. intros c (_ & Hc & _). change BLOCK_MAX with 2305843009213693952 in *. lia.
Qed.

Lemma evbuffer_add_shape m d b r b' :
  buf_ok b → shape (bf_chains b) (bf_lwd b) → stream_fits (length d) →
  evbuffer_add m d b = Some (r, b') → shape (bf_chains b') (bf_lwd b').
Proof.
  intros Hb Hs Hd. unfold evbuffer_add. destruct (bf_freeze_end b); [by intros [= <- <-]|]. cbv zeta.
  destruct (_ <? _); [by intros [= <- <-]|]. destruct (bf_chains b) as [|c0 cs0] eqn:Hcs.
  - destruct (evbuffer_chain_new _ _) as [c|] eqn:Hnew; [|intros [= <- <-]; by rewrite Hcs].
    assert (small_chain c) as Hsm by (eapply chain_new_small; [| |done]; [lia|done]).
    apply chain_new_ok in Hnew as (Hc & Ho & _ & _ & _); [|lia].
    destruct (chain_insert_ok c b) as (cs & lwd & Hins & Hl & Hby & _ & Hnil & _); [apply Hb|done|].
    destruct (Hnil Hcs) as [-> ->]. rewrite Hins, bind_some_eq. apply add_to_chain_shape; [|split; [by constructor|constructor]|done|done].
    assert (bytes_of [c] = content b) as Hc1.
    { unfold content. by rewrite Hcs, bytes_of_cons, (data_of_empty c Ho). }
    destruct Hb. rewrite Ho, Z.add_0_r, u64_small by lia. constructor; try done.
    change (content _) with (bytes_of [c]). by rewrite Hc1.
  - destruct (lo_lwd _ _ (bo_list _ Hb)) as [Hlwd|[Hn _]]; [|congruence].
    rewrite Hcs in Hlwd. rewrite (proj2 (Nat.ltb_lt _ _) Hlwd). rewrite <-Hcs in Hs. by apply add_to_chain_shape.
Qed.

(** Adding to a stream. *)
Lemma add_stream m d b :
  stream_ok b → (∀ n, m n = true) → stream_fits (length (content b) + length d) →
  ∃ b', evbuffer_add m d b = Some (0, b') ∧ stream_ok b' ∧ content b' = content b ++ d.
Proof.
  intros Hst Hm Hf. destruct (Hst) as [Hb Hs H1 H2]. unfold stream_fits in Hf.
  destruct (evbuffer_add_total m d b) as (b' & Hadd & Hb' & Hc'); [done..| |done| |].
  { change BLOCK_MAX with 2305843009213693952 in Hf. lia. }
  { apply stream_alloc_fits; [done|]. unfold stream_fits. lia. }
  exists b'. split_and!; [done| |done]. destruct (evbuffer_add_success m d b b' Hb Hadd) as (_ & _ & _ & E1 & E2).
  split; [done| |congruence..]. apply (evbuffer_add_shape m d b 0); [done..| |done]. unfold stream_fits. lia.
Qed.

(** ** Removing data *)

Lemma shape_drop cs lwd k c rest rem :
  shape cs lwd → drop k cs = c :: rest → (rem < c_off c)%nat → shape (chain_advance rem c :: rest) (lwd - k).
Proof.
  intros [H1 H2] Hk Hr. assert (shape (c :: rest) (lwd - k)) as H.
  { rewrite <-Hk. split; [by apply Forall_drop|]. destruct (decide (k <= lwd)%nat) as [Hle|]; cycle 1.
    { replace (lwd - k)%nat with 0%nat by lia. constructor. }
    rewrite take_drop_commute. replace (k + (lwd - k))%nat with lwd by lia. by apply Forall_drop. }
  apply (shape_insert (c :: rest) (lwd - k) 0 c (chain_advance rem c) H); try done; unfold empty_chain; cbn; lia.
Qed.

Lemma drain_stream len b :
  stream_ok b → 0 <= len →
  ∃ b', evbuffer_drain len b = Some (0, b') ∧ stream_ok b' ∧ content b' = drop (Z.to_nat (Z.min len (bf_total_len b))) (content b).
Proof.
  intros Hst Hlen. destruct (Hst) as [Hb Hs Hf1 Hf2]. pose proof (stream_unpinned b Hst) as Hu.
  destruct (evbuffer_drain_total len b Hb Hu Hlen) as (r & b' & Hd & Hb' & _ & [[-> Hc]|(_ & _ & ?)]); [|congruence].
  exists b'. split_and!; [done| |done].
  assert (shape (bf_chains b') (bf_lwd b') ∧ bf_freeze_start b' = bf_freeze_start b ∧ bf_freeze_end b' = bf_freeze_end b) as (S1 & S2 & S3);
    [|split; [done|done|congruence..]].
  revert Hd. unfold evbuffer_drain. cbv zeta. destruct (Z.eqb_spec (bf_total_len b) 0); [by intros [= <-]|]. rewrite Hf1.
  destruct (_ && negb _) eqn:Eall.
  { intros [= <-]. destruct (invoke_callbacks_frame (add_n_del (bf_total_len b) (ZERO_CHAIN b))) as (-> & -> & _ & -> & ->).
    by split; [apply shape_nil|]. }
  rewrite (unpinned_last b Hu), andb_true_r, Z.leb_gt in Eall.
  rewrite (proj2 (Z.leb_gt _ _) Eall). cbn [bf_chains bf_lwd set_bf_total_len].
  destruct (drain_loop_ok (bf_chains b) (Z.to_nat len) (bf_lwd b) 0) as (k & c & rest & rem & H1 & H2 & -> & _);
    [apply Hb|done|destruct Hb; unfold content in *; lia|lia|].
  rewrite bind_some_eq. cbv iota beta. rewrite evassert_true by by apply Nat.ltb_lt. rewrite bind_some_eq. intros [= <-].
  match goal with |- context [evbuffer_invoke_callbacks_ ?x] => destruct (invoke_callbacks_frame x) as (-> & -> & _ & -> & ->) end.
  cbn. split; [|done]. eapply shape_drop; [|done..]. done.
Qed.

Lemma remove_stream n b :
  stream_ok b → 0 <= n →
  ∃ b', evbuffer_remove n b = Some (i32 (Z.min n (bf_total_len b)), take (Z.to_nat n) (content b), b') ∧
    stream_ok b' ∧ content b' = drop (Z.to_nat n) (content b).
Proof.
  intros Hst Hn. pose proof (st_ok _ Hst) as Hb.
  destruct (evbuffer_remove_spec n b Hb (stream_unpinned b Hst) Hn (st_start _ Hst)) as (b' & Hr & _ & _ & _ & Hc).
  exists b'. split_and!; [done| |done]. revert Hr. unfold evbuffer_remove. fold (evbuffer_copyout n b).
  rewrite evbuffer_copyout_spec, bind_some_eq by (done || apply Hst).
  destruct (0 <? Z.min n (bf_total_len b)); [|by intros [= <-]].
  destruct (drain_stream (Z.min n (bf_total_len b)) b Hst) as (b1 & -> & Hs1 & _); [destruct Hb; lia|].
  rewrite bind_some_eq. by intros [= <-].
Qed.

(** Reading a line off a stream. *)
Lemma readln_stream style b :
  stream_ok b → bf_total_len b <= EV_SSIZE_MAX → eol_fits style (content b) →
  match eol_ref style (content b) with
  | None => evbuffer_readln true style b = Some (None, b)
  | Some (k, n) => ∃ b', evbuffer_readln true style b = Some (Some (take k (content b)), b') ∧
      stream_ok b' ∧ content b' = drop (k + n) (content b)
  end.
Proof.
  intros Hst Hmax Hfits. pose proof (st_ok _ Hst) as Hb. destruct (eol_at_ok style b Hb Hmax Hfits) as (r & Hr & Href).
  unfold evbuffer_readln, evbuffer_search_eol. rewrite (st_start _ Hst), Hr, !bind_some_eq.
  destruct (eol_ref style (content b)) as [[k n]|]; [|by rewrite Href].
  destruct Href as (it & -> & Hp). cbn [negb]. rewrite Hp, (proj2 (Z.ltb_ge (Z.of_nat k) 0)) by lia.
  destruct (remove_stream (Z.of_nat k) b Hst) as (b1 & -> & Hs1 & Hc1); [lia|]. rewrite bind_some_eq.
  destruct (drain_stream (Z.of_nat n) b1 Hs1) as (b2 & -> & Hs2 & Hc2); [lia|].
  rewrite bind_some_eq, Nat2Z.id. exists b2. split_and!; [done..|].
  rewrite Hc2, Hc1, drop_drop, Nat2Z.id. pose proof (bo_total _ (st_ok _ Hs1)) as Ht1.
  rewrite Hc1, length_drop, Nat2Z.id in Ht1. destruct (decide (Z.of_nat n <= bf_total_len b1)).
  - by rewrite Z.min_l, Nat2Z.id.
  - by rewrite !drop_ge by lia.
Qed.

(** Moving everything from one stream to the end of another. *)
Lemma add_buffer_stream ok out inb :
  stream_ok out → stream_ok inb → stream_fits (length (content out) + length (content inb)) →
  ∃ out' inb', evbuffer_add_buffer ok out inb = Some (0, out', inb') ∧ stream_ok out' ∧ stream_ok inb' ∧
    content out' = content out ++ content inb ∧ content inb' = [].
Proof.
  intros Ho Hi Hf. unfold stream_fits in Hf. change BLOCK_MAX with 2305843009213693952 in Hf.
  destruct (move_buffer_spec ok (bf_freeze_end out || bf_freeze_start inb) APPEND_CHAIN (λ s d, d ++ s) out inb)
    as (ret & out' & inb' & Hm & Hb1 & Hb2 & [(-> & Hc1 & Hc2)|(_ & E & _)]);
    [apply append_links|by rewrite app_nil_r|done|intros; rewrite length_app; lia|apply Ho|apply Hi|by apply stream_unpinned|lia| |].
  2: { rewrite (st_end _ Ho), (st_start _ Hi) in E. done. }
  exists out', inb'. fold (evbuffer_add_buffer ok out inb) in Hm. split; [done|].
  assert (shape (bf_chains out') (bf_lwd out') ∧ shape (bf_chains inb') (bf_lwd inb') ∧
    bf_freeze_start out' = bf_freeze_start out ∧ bf_freeze_end out' = bf_freeze_end out ∧
    bf_freeze_start inb' = bf_freeze_start inb ∧ bf_freeze_end inb' = bf_freeze_end inb) as (S1 & S2 & E1 & E2 & E3 & E4).
  { revert Hm. unfold evbuffer_add_buffer, move_buffer. cbv zeta. destruct (Z.eqb_spec (bf_total_len inb) 0).
    { intros [= <- <-]. split_and!; [apply Ho|apply Hi|done..]. }
    rewrite (st_end _ Ho), (st_start _ Hi). cbn [orb]. unfold PRESERVE_PINNED.
    rewrite (unpinned_last inb (stream_unpinned inb Hi)). cbn [negb]. rewrite bind_some_eq.
    intros (out1 & Hl & [= <- <-])%bind_Some.
    destruct (invoke_callbacks_frame (add_n_add (bf_total_len inb) out1)) as (-> & -> & _ & -> & ->).
    destruct (invoke_callbacks_frame (add_n_del (bf_total_len inb) (RESTORE_PINNED [] inb))) as (-> & -> & _ & -> & ->).
    cbn [bf_chains bf_lwd add_n_add set_bf_n_add bf_freeze_start bf_freeze_end].
    assert (shape (bf_chains out1) (bf_lwd out1) ∧ bf_freeze_start out1 = bf_freeze_start out ∧ bf_freeze_end out1 = bf_freeze_end out) as (S1 & E1 & E2).
    { destruct (bf_total_len out =? 0); [injection Hl as <-; split; [apply Hi|done]|].
      unfold APPEND_CHAIN in Hl. apply bind_Some in Hl as (kept & Hk & [= <-]). split; [|done].
      destruct (free_trailing_shape out kept) as (K1 & K2 & _); [apply Ho..|done|]. destruct (st_shape _ Hi) as [I1 I2].
      cbn. split; [by apply Forall_app|]. rewrite take_app_add. by apply Forall_app. }
    split_and!; [done|apply shape_nil|..]; first [done|by rewrite E1|by rewrite E2, (st_end _ Ho)|apply Hi]. }
  split_and!; [split; [done..|by rewrite E1; apply Ho|by rewrite E2; apply Ho]|
    split; [done..|by rewrite E3; apply Hi|by rewrite E4; apply Hi]|done|done].
Qed.

Lemma invoke_stream b : stream_ok b → stream_ok (evbuffer_invoke_callbacks_ b).
Proof.
  intros [H1 H2 H3 H4]. destruct (invoke_callbacks_frame b) as (_ & _ & _ & E1 & E2).
  split; [by apply buf_ok_invoke|by apply invoke_shape|congruence..].
Qed.

(** ** [evbuffer_remove_buffer] *)

(** The chains that are taken whole, and the chain that is split. *)
Lemma remove_chains_ok l datlen lwd i :
  Forall chain_ok l → (i <= lwd)%nat → Forall empty_chain (drop (S (lwd - i)) l) →
  (datlen < length (bytes_of l))%nat →
  ∃ k c rest d, drop k l = c :: rest ∧ (d < c_off c)%nat ∧ (k <= lwd - i)%nat ∧
    bytes_of (take k l) ++ take d (data_of c) = take datlen (bytes_of l) ∧
    remove_chains l datlen lwd i =
      Some (take k l, length (bytes_of (take k l)), c :: rest, d,
            if (k =? 0)%nat || negb (k =? lwd - i)%nat then lwd else 0%nat).
Proof.
  revert datlen lwd i. induction l as [|c l IH]; intros datlen lwd i Hok Hi He Hd; [cbn in Hd; lia|].
  apply Forall_cons in Hok as [Hc Hok]. pose proof (length_data_of c Hc) as Hlc.
  rewrite bytes_of_cons, length_app in Hd. cbn [remove_chains].
  destruct (Nat.leb_spec (c_off c) datlen) as [Hle|Hgt]; cycle 1.
  { exists 0%nat, c, l, datlen. split_and!; [done..|lia| |done]. rewrite bytes_of_cons, take_app_le by lia. done. }
  assert (i < lwd)%nat as Hlt.
  { destruct (decide (i < lwd)%nat); [done|]. replace (lwd - i)%nat with 0%nat in He by lia.
    cbn in He. rewrite drop_0 in He. rewrite (bytes_of_empty l He) in Hd. cbn in Hd. lia. }
  rewrite evassert_true by (apply negb_true_iff, Nat.eqb_neq; lia). rewrite bind_some_eq. cbv zeta.
  assert (bytes_of (take 1 (c :: l)) = data_of c) as Hone by (cbn; by rewrite take_0, app_nil_r).
  destruct (Nat.eqb_spec lwd (S i)) as [Hn|Hn].
  - replace (lwd - i)%nat with 1%nat in * by lia. cbn [drop] in He.
    destruct l as [|c2 l2]; [cbn in Hd; lia|]. cbn in He. rewrite drop_0 in He.
    rewrite bytes_of_cons, (bytes_of_empty l2 He), app_nil_r in Hd.
    apply Forall_cons in Hok as [Hc2 _]. rewrite (length_data_of c2 Hc2) in Hd.
    cbn [remove_chains]. rewrite (proj2 (Nat.leb_gt _ _)) by lia. rewrite bind_some_eq. cbv iota beta zeta.
    exists 1%nat, c2, l2, (datlen - c_off c)%nat. rewrite Hone, Hlc, Nat.add_0_r. cbn [take]. split_and!; [done|lia|lia| |done].
    rewrite !bytes_of_cons, take_app_ge, Hlc, take_app_le by (rewrite ?(length_data_of c2 Hc2); lia). done.
  - destruct (IH (datlen - c_off c)%nat lwd (S i) Hok) as (k & c2 & rest & d & H1 & H2 & H3 & H4 & ->); [lia| |lia|].
    { replace (S (lwd - i)) with (S (S (lwd - S i))) in He by lia. done. }
    rewrite bind_some_eq. cbv iota beta zeta. exists (S k), c2, rest, d. cbn [drop take]. rewrite bytes_of_cons, length_app, Hlc.
    split_and!; [done|done|lia| |].
    + rewrite bytes_of_cons, take_app_ge, Hlc, <-H4, app_assoc by lia. done.
    + do 2 f_equal. replace (lwd - i)%nat with (S (lwd - S i)) by lia. cbn [Nat.eqb orb].
      destruct (Nat.eqb_spec k 0) as [->|]; [|done]. cbn [orb]. destruct (Nat.eqb_spec 0 (lwd - S i)); [lia|done].
Qed.

(** Chains with data put after those of a stream. *)
Lemma append_taken_stream dst taken n :
  stream_ok dst → Forall chain_ok taken → Forall small_chain taken → Forall (λ c, ¬ empty_chain c) taken → taken ≠ [] →
  n = length (bytes_of taken) → stream_fits (length (content dst) + n) →
  ∃ kept, evbuffer_free_trailing_empty_chains dst = Some kept ∧
    let dst' := add_n_add (Z.of_nat n) (add_total (Z.of_nat n) (advance_last_with_data (set_bf_chains (kept ++ taken) dst))) in
    stream_ok dst' ∧ content dst' = content dst ++ bytes_of taken.
Proof.
  intros [Hb Hs H1 H2] T1 T2 T3 T4 -> Hf. unfold stream_fits in Hf. change BLOCK_MAX with 2305843009213693952 in Hf.
  destruct (free_trailing_ok dst (bo_list _ Hb)) as (kept & Hk & Hk1 & Hk2 & Hk3 & _).
  destruct (free_trailing_shape dst kept (bo_list _ Hb) Hs Hk) as (K1 & K2 & K3).
  exists kept. split; [done|]. cbv zeta.
  assert (0 < length taken)%nat by (destruct taken; [done|cbn; lia]).
  assert (Forall (λ c, ¬ empty_chain c) (kept ++ taken)) as Hne by by apply Forall_app.
  assert (∀ l, Forall (λ c, ¬ empty_chain c) l → advance l = length l) as Hadv.
  { induction 1 as [|c l Hc _ IH]; [done|]. cbn. rewrite (proj2 (Nat.eqb_neq _ _) Hc). by rewrite IH. }
  assert (advance_last_with_data (set_bf_chains (kept ++ taken) dst) =
    set_bf_lwd (length (kept ++ taken) - 1) (set_bf_chains (kept ++ taken) dst)) as ->.
  { unfold advance_last_with_data. cbn [bf_chains bf_lwd set_bf_chains].
    destruct (lookup_lt_is_Some_2 (kept ++ taken) (bf_lwd dst)) as [c ->]; [rewrite length_app; lia|].
    rewrite Hadv by by apply Forall_drop. rewrite length_drop, length_app. f_equal. lia. }
  assert (bytes_of (kept ++ taken) = content dst ++ bytes_of taken) as Hby by by rewrite bytes_of_app, Hk2.
  split; [|done]. split; [|by split; [apply Forall_app|apply Forall_take]|done..].
  constructor; [|change (content _) with (bytes_of (kept ++ taken))|..].
  - cbn. constructor; [by apply Forall_app|left; rewrite length_app; lia|].
    rewrite drop_ge by (rewrite length_app; lia). constructor.
  - change (u64 (bf_total_len dst + Z.of_nat (length (bytes_of taken))) = Z.of_nat (length (bytes_of (kept ++ taken)))).
    rewrite Hby, length_app, (bo_total _ Hb), u64_small; lia.
  - cbn. apply u64_range.
  - cbn. apply u64_range.
  - cbn. apply Hb.
Qed.

(** What stays of the source. *)
Lemma remaining_stream src k c rest d n :
  stream_ok src → drop k (bf_chains src) = c :: rest → (d < c_off c)%nat → (k <= bf_lwd src)%nat →
  (n <= length (content src))%nat → drop d (data_of c) ++ bytes_of rest = drop n (content src) →
  let src' := set_bf_lwd (bf_lwd src - k) (set_bf_chains (chain_advance d c :: rest) src) in
  let src' := set_bf_n_del (u64 (bf_n_del src' + Z.of_nat n)) (set_bf_total_len (u64 (bf_total_len src' - Z.of_nat n)) src') in
  stream_ok src' ∧ content src' = drop n (content src).
Proof.
  intros [Hb Hs H1 H2] Hk Hd Hle Hn Hdrop. cbv zeta.
  assert (chain_ok c) as Hc.
  { assert (Forall chain_ok (c :: rest)) as [? _]%Forall_cons by (rewrite <-Hk; apply Forall_drop, Hb). done. }
  destruct (chain_advance_ok d c Hc ltac:(lia)) as (_ & Hda & _).
  assert (bytes_of (chain_advance d c :: rest) = drop n (content src)) as Hby by by rewrite bytes_of_cons, Hda.
  split; [|done]. split; [|by eapply shape_drop|done..].
  constructor; [by eapply drain_list_ok; [apply Hb|..]|change (content _) with (bytes_of (chain_advance d c :: rest))|..].
  - rewrite Hby, length_drop. change (u64 (bf_total_len src - Z.of_nat n) = Z.of_nat (length (content src) - n)).
    destruct Hb. rewrite u64_small; lia.
  - apply u64_range.
  - apply Hb.
  - apply u64_range.
Qed.

(** Where the source is split: before byte [d] of the chain [c], number [k]. *)
Record split_at (src : evbuffer) (n k : nat) (c : evbuffer_chain) (rest : list evbuffer_chain) (d : nat) : Prop := {
  sp_drop : drop k (bf_chains src) = c :: rest;
  sp_in : (d < c_off c)%nat;
  sp_before : (k <= bf_lwd src)%nat;
  sp_chain : chain_ok c;
  sp_taken : Forall (λ c, chain_ok c ∧ small_chain c ∧ ¬ empty_chain c) (take k (bf_chains src));
  sp_len : (length (bytes_of (take k (bf_chains src))) + d = n)%nat;
  sp_take : bytes_of (take k (bf_chains src)) ++ take d (data_of c) = take n (content src);
  sp_rest : drop d (data_of c) ++ bytes_of rest = drop n (content src)
}.

Lemma remove_split src n :
  stream_ok src → (n < length (content src))%nat →
  ∃ k c rest d, split_at src n k c rest d ∧
    remove_chains (bf_chains src) n (bf_lwd src) 0 =
      Some (take k (bf_chains src), length (bytes_of (take k (bf_chains src))), c :: rest, d,
            if (k =? 0)%nat || negb (k =? bf_lwd src)%nat then bf_lwd src else 0%nat).
Proof.
  intros [[[L1 _ L3] _ _ _ _] [S1 S2] _ _] Hn.
  destruct (remove_chains_ok (bf_chains src) n (bf_lwd src) 0) as (k & c & rest & d & D1 & D2 & D3 & D4 & E);
    [done|lia|by rewrite Nat.sub_0_r|done|]. rewrite Nat.sub_0_r in *. exists k, c, rest, d. split; [|done].
  assert (Forall chain_ok (c :: rest)) as [Hc _]%Forall_cons by (rewrite <-D1; by apply Forall_drop).
  pose proof (length_data_of c Hc) as Hlc.
  assert (length (bytes_of (take k (bf_chains src))) + d = n)%nat as Hlen.
  { apply (f_equal length) in D4. rewrite length_app, !length_take in D4. unfold content in Hn. lia. }
  split; try done.
  - assert (take k (bf_chains src) = take k (take (bf_lwd src) (bf_chains src))) as -> by (rewrite take_take; f_equal; lia).
    apply Forall_take, Forall_and. split; [by apply Forall_take|]. apply Forall_and. split; [by apply Forall_take|done].
  - assert (content src = bytes_of (take k (bf_chains src)) ++ data_of c ++ bytes_of rest) as ->.
    { unfold content. rewrite <-(take_drop k (bf_chains src)) at 1. by rewrite bytes_of_app, D1, bytes_of_cons. }
    by rewrite <-Hlen, drop_app_add, drop_app_le by lia.
Qed.

(** The chains taken are put after those of the destination, if there are any. *)
Lemma link_taken dst taken :
  stream_ok dst → Forall (λ c, chain_ok c ∧ small_chain c ∧ ¬ empty_chain c) taken →
  stream_fits (length (content dst) + length (bytes_of taken)) →
  ∃ dst1, (if (length (bytes_of taken) =? 0)%nat then Some dst
      else kept ← evbuffer_free_trailing_empty_chains dst;
        Some (add_n_add (Z.of_nat (length (bytes_of taken))) (add_total (Z.of_nat (length (bytes_of taken)))
          (advance_last_with_data (set_bf_chains (kept ++ taken) dst))))) = Some dst1 ∧
      stream_ok dst1 ∧ content dst1 = content dst ++ bytes_of taken.
Proof.
  intros Hdst [T1 [T2 T3]%Forall_and]%Forall_and Hf. destruct (Nat.eqb_spec (length (bytes_of taken)) 0) as [E|E].
  - exists dst. apply length_zero_iff_nil in E. by rewrite E, app_nil_r.
  - destruct (append_taken_stream dst taken (length (bytes_of taken))) as (kept & -> & Hs1 & Hc1); try done.
    + by intros ->.
    + rewrite bind_some_eq. eauto.
Qed.

(** [last_with_datap] and the first chain of the source afterwards. *)
Lemma split_links src n k c rest d :
  split_at src n k c rest d → let taken := take k (bf_chains src) in
  (if (length (bytes_of taken) =? 0)%nat then taken else []) = [] ∧
  (if (length (bytes_of taken) =? 0)%nat
   then if (k =? 0)%nat || negb (k =? bf_lwd src)%nat then bf_lwd src else 0%nat
   else ((if (k =? 0)%nat || negb (k =? bf_lwd src)%nat then bf_lwd src else 0%nat) - length taken)%nat) = (bf_lwd src - k)%nat.
Proof.
  intros [D1 _ Hk _ T _ _ _]. cbv zeta. assert (length (take k (bf_chains src)) = k) as Hlt.
  { rewrite length_take. apply (f_equal length) in D1. rewrite length_drop in D1. cbn in D1. lia. }
  destruct (Nat.eqb_spec (length (bytes_of (take k (bf_chains src)))) 0) as [E|E].
  - assert (take k (bf_chains src) = []) as Et.
    { destruct (take k (bf_chains src)) as [|c0 l]; [done|]. apply Forall_cons in T as [(Hok & _ & Hne) _].
      rewrite bytes_of_cons, length_app, (length_data_of c0 Hok) in E. unfold empty_chain in Hne. lia. }
    rewrite Et in *. subst k. cbn [length Nat.eqb orb]. by rewrite Nat.sub_0_r.
  - split; [done|]. rewrite Hlt. destruct (Nat.eqb_spec k 0), (Nat.eqb_spec k (bf_lwd src)); cbn; lia.
Qed.

Lemma remove_buffer_stream m src dst n :
  stream_ok src → stream_ok dst → (∀ i, m i = true) → 0 <= n →
  stream_fits (length (content dst) + length (content src)) →
  ∃ dst' src', evbuffer_remove_buffer m src dst n = Some (i32 (Z.min n (bf_total_len src)), dst', src') ∧
    stream_ok dst' ∧ stream_ok src' ∧
    content dst' = content dst ++ take (Z.to_nat n) (content src) ∧ content src' = drop (Z.to_nat n) (content src).
Proof.
  intros Hsrc Hdst Hm Hn Hf. unfold evbuffer_remove_buffer. pose proof (bo_total _ (st_ok _ Hsrc)) as Ht.
  destruct (Z.eqb_spec n 0) as [->|Hn0].
  { exists dst, src. rewrite Z.min_l by lia. cbn [Z.to_nat take drop]. by rewrite app_nil_r. }
  rewrite (st_end _ Hdst), (st_start _ Hsrc). cbn [orb]. destruct (Z.leb_spec (bf_total_len src) n) as [Hall|Hpart].
  { destruct (add_buffer_stream (m 0%nat) dst src) as (o & i & -> & S1 & S2 & C1 & C2); [done..|]. rewrite bind_some_eq.
    exists o, i. rewrite Z.min_r, take_ge, drop_ge by lia. done. }
  destruct (remove_split src (Z.to_nat n) Hsrc) as (k & c & rest & d & Hsp & ->); [lia|].
  destruct (split_links _ _ _ _ _ _ Hsp) as [Efront Elwd]. destruct (Hsp) as [D1 D2 D3 Hc T Hlen D4 D5].
  rewrite bind_some_eq. cbv iota beta zeta. unfold stream_fits in Hf.
  destruct (link_taken dst (take k (bf_chains src)) Hdst T) as (dst1 & -> & Hs1 & Hc1); [unfold stream_fits; lia|].
  rewrite bind_some_eq, mread_ok by (destruct Hc; unfold buffer_len in *; lia). rewrite bind_some_eq.
  assert (take d (drop (c_misalign c) (c_buffer c)) = take d (data_of c)) as ->.
  { unfold data_of. rewrite take_take. by replace (d `min` c_off c)%nat with d by lia. }
  destruct (add_stream (later_mallocs 1 m) (take d (data_of c)) dst1 Hs1) as (dst2 & -> & Hs2 & Hc2).
  { intros i. apply Hm. } { unfold stream_fits in *. rewrite Hc1, length_app, length_take. lia. }
  rewrite bind_some_eq. cbv iota beta. rewrite Hlen, Efront, Elwd.
  destruct (remaining_stream src k c rest d (Z.to_nat n)) as [Hs3 Hc3]; [done..|lia|done|]. cbv zeta in Hs3, Hc3.
  rewrite Z.min_l by lia. rewrite (proj2 (Z.eqb_neq (Z.of_nat (Z.to_nat n)) 0)) by lia.
  eexists _, _. split; [do 4 f_equal; by rewrite Z2Nat.id by lia|].
  split_and!; [by apply invoke_stream|by apply invoke_stream|..]; rewrite content_invoke; [|done].
  by rewrite Hc2, Hc1, <-app_assoc, D4.
Qed.
