(* ===== verification/BufferPrintf.v ===== *)
(** * Byte buffers: formatted text

    [evbuffer_add_printf] and [evbuffer_add_vprintf] (buffer.c): the text is
    formatted into the free space of a chain; when it does not fit, space for its
    length is made and it is formatted again. *)

From S2P Require Import Prelude Clib Util BufferCore BufferMove.
From S2P Require Import BufferInv BufferDrain BufferMoveProps BufferRead BufferStream.

(** [text] is what the format and the arguments give; [p] is the number of the
    chain.  [vsnprintf] fails for a text longer than an [int] can count.  The
    second round has the space it needs: [fuel] is 2. *)
Fixpoint vprintf_loop (fuel : nat) (m : mallocs) (text : bytes) (p : nat) (b : evbuffer) : option (Z * evbuffer) :=
  match fuel with
  | O => None
  | S fuel =>
    c ← bf_chains b !! p;
    let space := CHAIN_SPACE_LEN c in
    let '(out, sz) := evutil_vsnprintf (Z.of_nat space) text in
    buf ← match out with
          | Some s => memcpy_at (CHAIN_SPACE_PTR c) (s ++ [0]) (c_buffer c)
          | None => Some (c_buffer c)
          end;
    let c := set_c_buffer buf c in
    let b := set_chain p c b in
    let sz := if INT_MAX <? sz then -1 else sz in
    if sz <? 0 then Some (-1, b)
    else if (EVBUFFER_CHAIN_MAX <=? INT_MAX) && (EVBUFFER_CHAIN_MAX <=? sz) then Some (-1, b)
    else if sz <? Z.of_nat space then
      let b := set_chain p (set_c_off (c_off c + Z.to_nat sz)%nat c) b in
      let b := add_n_add sz (add_total sz b) in
      Some (sz, evbuffer_invoke_callbacks_ (advance_last_with_data b))
    else
      '(r, b) ← evbuffer_expand_singlechain (m 0%nat) (sz + 1) b;
      match r with
      | None => Some (-1, b)
      | Some p => vprintf_loop fuel (later_mallocs 1 m) text p b
      end
  end.

Definition evbuffer_add_vprintf (m : mallocs) (text : bytes) (b : evbuffer) : option (Z * evbuffer) :=
  if bf_freeze_end b then Some (-1, b)
  else
    '(r, b) ← evbuffer_expand_singlechain (m 0%nat) 64 b;
    match r with
    | None => Some (-1, b)
    | Some p => vprintf_loop 2 (later_mallocs 1 m) text p b
    end.

Definition evbuffer_add_printf : mallocs → bytes → evbuffer → option (Z * evbuffer) := evbuffer_add_vprintf.

(** ** Space in one chain *)

(** Chain [p] has room for [datlen] bytes and is the one with the last data or
    the next one. *)
Definition room_in (p : nat) (datlen : Z) (b b' : evbuffer) : Prop :=
  stream_ok b' ∧ content b' = content b ∧
  ∃ c, bf_chains b' !! p = Some c ∧ datlen <= Z.of_nat (CHAIN_SPACE_LEN c) ∧
    (p = bf_lwd b' ∨ p = S (bf_lwd b') ∧ ∃ c0, bf_chains b' !! bf_lwd b' = Some c0 ∧ ¬ empty_chain c0).

Lemma expand_done_room p datlen b b' : room_in p datlen b b' → expand_done p datlen b' = Some (Some p, b').
Proof.
  intros (_ & _ & c & Hc & Hs & _). unfold expand_done. rewrite Hc, bind_some_eq.
  by rewrite evassert_true by by apply Z.leb_le.
Qed.

Lemma expand_insert_room datlen b :
  stream_ok b → 0 <= datlen → datlen + EVBUFFER_CHAIN_SIZE <= BLOCK_MAX →
  ∃ p b', expand_insert_new true datlen b = Some (Some p, b') ∧ room_in p datlen b b'.
Proof.
  intros Hst Hd Hf. destruct (Hst) as [Hb Hs H1 H2]. unfold expand_insert_new, evbuffer_chain_insert_new.
  destruct (evbuffer_chain_new true datlen) as [tmp|] eqn:Hnew; cycle 1.
  { apply chain_new_none in Hnew as [|Hbig]; [done|]. change BLOCK_MAX with 2305843009213693952 in Hf. lia. }
  pose proof (chain_new_small _ _ _ Hd Hf Hnew) as Hsm.
  apply new_chain_space in Hnew as (Hok & He & Hspace & _); [|done]. unfold empty_chain in He.
  assert (∃ b', evbuffer_chain_insert tmp b = Some b' ∧ room_in (length (bf_chains b') - 1) datlen b b') as (b' & -> & Hroom).
  { destruct (chain_insert_ok tmp b (bo_list _ Hb) Hok) as (cs & lwd & Hins & Hl & Hby & Hlast & _).
    rewrite He, Z.add_0_r, u64_small in Hins by (destruct Hb; lia). rewrite (data_of_empty tmp He), app_nil_r in Hby.
    eexists. split; [done|]. pose proof (chain_insert_shape _ _ _ (bo_list _ Hb) Hs Hsm Hins) as Hsh.
    split_and!; [|done|].
    { split; [|done..]. destruct Hb. constructor; try done. change (content _) with (bytes_of cs). by rewrite Hby. }
    exists tmp. split_and!; [done..|]. revert Hins. unfold evbuffer_chain_insert.
    destruct (bf_chains b !! bf_lwd b) as [c0|] eqn:Hlk.
    - destruct (free_trailing_ok b (bo_list _ Hb)) as (kept & Hk & _ & _ & Hle & _). rewrite Hk, !bind_some_eq, He.
      destruct (free_trailing_shape b kept (bo_list _ Hb) Hs Hk) as (_ & K2 & K3). intros Hins.
      assert (cs = kept ++ [tmp] ∧ lwd = bf_lwd b) as [-> ->].
      { apply (inj Some) in Hins. pose proof (f_equal bf_chains Hins). by pose proof (f_equal bf_lwd Hins). }
      change (bf_chains _) with (kept ++ [tmp]). change (bf_lwd (with_data _ _ _ _ _ _)) with (bf_lwd b).
      rewrite length_app. cbn [length]. rewrite Nat.add_sub. destruct (decide (length kept = bf_lwd b)); [by left|right].
      split; [lia|]. destruct (lookup_lt_is_Some_2 kept (bf_lwd b)) as [c1 Hc1]; [lia|]. exists c1.
      rewrite lookup_app_l by lia. split; [done|]. by apply (Forall_lookup_1 _ _ _ _ K2 Hc1).
    - destruct (lo_lwd _ _ (bo_list _ Hb)) as [?|[E1 E2]]; [apply lookup_ge_None in Hlk; lia|].
      rewrite E1, E2. cbn [Nat.eqb evassert length]. rewrite !bind_some_eq. intros Hins. left.
      apply (inj Some) in Hins. pose proof (f_equal bf_chains Hins) as F1. pose proof (f_equal bf_lwd Hins) as F2.
      cbn in F1, F2. subst cs lwd. done. }
  rewrite !bind_some_eq. exists (length (bf_chains b') - 1)%nat, b'. split; [by apply expand_done_room with b|done].
Qed.

(** A chain replaced by one with the same data. *)
Lemma set_chain_stream p c c' b :
  stream_ok b → bf_chains b !! p = Some c → chain_ok c' → small_chain c' → c_off c' = c_off c → data_of c' = data_of c →
  stream_ok (set_chain p c' b) ∧ content (set_chain p c' b) = content b.
Proof.
  intros [Hb [S1 S2] H1 H2] Hp Hok Hsm Ho Hd. pose proof (bo_list _ Hb) as Hl.
  assert (bytes_of (<[p := c']> (bf_chains b)) = content b) as Hby by by apply (bytes_of_insert_same _ _ c).
  split; [|done]. split; [|split|done..].
  - destruct Hb. constructor; try done; [|change (content _) with (bytes_of (<[p := c']> (bf_chains b))); by rewrite Hby].
    cbn. apply (list_ok_insert _ _ _ c); [done..|]. destruct (decide (p <= bf_lwd b)%nat); [by left|right].
    unfold empty_chain. rewrite Ho. apply (Forall_lookup_1 _ _ (p - S (bf_lwd b)) c (lo_after _ _ Hl)).
    rewrite lookup_drop. by replace (S (bf_lwd b) + (p - S (bf_lwd b)))%nat with p by lia.
  - cbn. by apply Forall_insert.
  - cbn. destruct (decide (p < bf_lwd b)%nat) as [Hlt|Hge].
    + rewrite take_insert_lt by done. apply Forall_insert; [done|]. unfold empty_chain. rewrite Ho.
      apply (Forall_lookup_1 (λ c, ¬ empty_chain c) _ p c S2). by rewrite lookup_take_lt.
    + rewrite take_insert_ge by lia. done.
Qed.

(** The chain at [last_with_datap] is realigned to make room. *)
Lemma align_room datlen c b :
  stream_ok b → bf_chains b !! bf_lwd b = Some c → c_flags c &? EVBUFFER_IMMUTABLE = false →
  evbuffer_chain_should_realign c datlen = true →
  ∃ c', evbuffer_chain_align c = Some c' ∧ room_in (bf_lwd b) datlen b (set_chain (bf_lwd b) c' b).
Proof.
  intros Hst Hc Him Hre. destruct (Hst) as [Hb [S1 _] _ _]. pose proof (list_ok_lookup _ _ _ _ (bo_list _ Hb) Hc) as Hok.
  destruct (Forall_lookup_1 _ _ _ _ S1 Hc) as (Hpin & Hlen & Hsp).
  destruct (chain_align_ok c) as (c1 & Ha & Hc1 & Hd1 & Ho1 & Hm1 & Hf1 & Hb1); [done..|]. exists c1. split; [done|].
  unfold evbuffer_chain_should_realign in Hre. rewrite !andb_true_iff, Z.leb_le in Hre. destruct Hre as [[Hre Hhalf%Nat.ltb_lt] _].
  assert (CHAIN_SPACE_LEN c1 = (buffer_len c - c_off c)%nat) as Hs1.
  { unfold CHAIN_SPACE_LEN. rewrite Hf1, Him, Hm1, Ho1, Hb1. lia. }
  destruct (set_chain_stream (bf_lwd b) c c1 b) as [Hs' Hc']; [done..| |done|done|].
  { split_and!; [unfold CHAIN_PINNED; by rewrite Hf1|by rewrite Hb1|]. intros _. rewrite Hs1.
    pose proof (Nat.Div0.div_le_mono (buffer_len c) (buffer_len c * 2) 2 ltac:(lia)) as Hdiv. rewrite Nat.div_mul in Hdiv by lia. lia. }
  split_and!; [done..|]. exists c1. split_and!; [|by rewrite Hs1|by left].
  cbn. rewrite list_lookup_insert_eq; [done|]. by eapply lookup_lt_Some.
Qed.

(** The chain is replaced by a larger copy. *)
Lemma copy_room datlen c b :
  stream_ok b → bf_chains b !! bf_lwd b = Some c → 0 <= datlen → c_off c ≠ 0%nat →
  Z.of_nat (c_off c) + datlen + EVBUFFER_CHAIN_SIZE <= BLOCK_MAX →
  ∃ tmp d buf, evbuffer_chain_new true (Z.of_nat (c_off c) + datlen) = Some tmp ∧
    mread (c_misalign c) (c_off c) (c_buffer c) = Some d ∧ memcpy_at 0 d (c_buffer tmp) = Some buf ∧
    room_in (bf_lwd b) datlen b (set_chain (bf_lwd b) (set_c_off (c_off c) (set_c_buffer buf tmp)) b).
Proof.
  intros Hst Hc Hd Hne Hf. destruct (Hst) as [Hb [S1 _] _ _]. pose proof (list_ok_lookup _ _ _ _ (bo_list _ Hb) Hc) as Hok.
  destruct (evbuffer_chain_new true _) as [tmp|] eqn:Hnew; cycle 1.
  { apply chain_new_none in Hnew as [|Hbig]; [done|]. change BLOCK_MAX with 2305843009213693952 in Hf. lia. }
  assert (small_chain tmp) as (T1 & T2 & T3) by (eapply chain_new_small; [| |done]; lia).
  apply chain_new_ok in Hnew as (Ht & _ & Hmis & Hfl & Hlen); [|lia]. pose proof (length_data_of c Hok) as Hlc.
  destruct (fill_chain_ok (data_of c) tmp) as (buf & Hbuf & Hok' & Hdt); [done..|lia|]. rewrite Hlc in Hok', Hdt.
  exists tmp, (data_of c), buf. split_and!; [done|by apply chain_read|done|].
  pose proof (memcpy_at_length _ _ _ _ Hbuf) as Hlb. set (c' := set_c_off _ _) in *.
  assert (CHAIN_SPACE_LEN c' = (buffer_len tmp - c_off c)%nat) as Hs1.
  { unfold CHAIN_SPACE_LEN, buffer_len, c'. cbn. rewrite Hfl, Hmis, Hlb. change (0 &? EVBUFFER_IMMUTABLE) with false. cbv iota. lia. }
  destruct (set_chain_stream (bf_lwd b) c c' b) as [Hs' Hc']; [done..| |done|done|].
  { split_and!; [done|unfold buffer_len, c' in *; cbn; by rewrite Hlb|]. by intros ?. }
  split_and!; [done..|]. exists c'. split_and!; [|rewrite Hs1; lia|by left].
  cbn. rewrite list_lookup_insert_eq; [done|]. by eapply lookup_lt_Some.
Qed.

Lemma expand_single_room datlen b :
  stream_ok b → 0 <= datlen → datlen + Z.of_nat MAX_TO_COPY_IN_EXPAND + EVBUFFER_CHAIN_SIZE <= BLOCK_MAX →
  ∃ p b', evbuffer_expand_singlechain true datlen b = Some (Some p, b') ∧ room_in p datlen b b'.
Proof.
  intros Hst Hd Hf. assert (∃ p b', expand_insert_new true datlen b = Some (Some p, b') ∧ room_in p datlen b b') as Hins
    by (apply expand_insert_room; [done|done|lia]).
  destruct (Hst) as [Hb [S1 S2] _ _]. pose proof (bo_list _ Hb) as Hl.
  assert (∀ p c, bf_chains b !! p = Some c → datlen <= Z.of_nat (CHAIN_SPACE_LEN c) →
    p = bf_lwd b ∨ p = S (bf_lwd b) ∧ (∃ c0, bf_chains b !! bf_lwd b = Some c0 ∧ ¬ empty_chain c0) →
    ∃ p' b', expand_done p datlen b = Some (Some p', b') ∧ room_in p' datlen b b') as Hdone.
  { intros p c Hc Hs Hp. assert (room_in p datlen b b) by (split_and!; [done..|]; by exists c).
    exists p, b. split; [by apply expand_done_room with b|done]. }
  unfold evbuffer_expand_singlechain. destruct (bf_chains b !! bf_lwd b) as [c|] eqn:Hc; cycle 1.
  { cbv zeta. rewrite Hc. done. }
  destruct (Forall_lookup_1 _ _ _ _ S1 Hc) as (Hpin & Hlen & Hsp).
  destruct (Nat.eqb_spec (CHAIN_SPACE_LEN c) 0) as [H0|H0]; cbv zeta.
  - assert (¬ empty_chain c) as Hne by (intros E; specialize (Hsp E); lia).
    destruct (bf_chains b !! S (bf_lwd b)) as [c1|] eqn:Hc1; [|done]. destruct (c_flags c1 &? _); [done|].
    destruct (Z.leb_spec datlen (Z.of_nat (CHAIN_SPACE_LEN c1))) as [Hfit|_]; [by eapply Hdone; eauto|].
    assert (c_off c1 = 0%nat) as ->; [|done].
    apply (Forall_lookup_1 _ _ 0%nat c1 (lo_after _ _ Hl)). by rewrite lookup_drop, Nat.add_0_r.
  - rewrite Hc. destruct (c_flags c &? _) eqn:Hfl; [done|]. rewrite flag_orb in Hfl. apply orb_false_iff in Hfl as [Him _].
    destruct (Z.leb_spec datlen (Z.of_nat (CHAIN_SPACE_LEN c))) as [Hfit|_]; [eapply Hdone; eauto|].
    destruct (Nat.eqb_spec (c_off c) 0) as [|Hne]; [done|].
    destruct (evbuffer_chain_should_realign c datlen) eqn:Hre.
    { destruct (align_room datlen c b) as (c' & -> & Hroom); [done..|]. rewrite bind_some_eq.
      eexists _, _. split; [by apply expand_done_room with b|done]. }
    destruct (_ || _ || _) eqn:Ebig.
    + destruct (bf_chains b !! S (bf_lwd b)) as [next|] eqn:Hn; [|done].
      destruct (Z.leb_spec datlen (Z.of_nat (CHAIN_SPACE_LEN next))) as [Hfit|_]; [|done].
      eapply Hdone; [done|done|]. right. eauto.
    + apply orb_false_iff in Ebig as [[_ Hcopy%Nat.ltb_ge]%orb_false_iff _].
      destruct (copy_room datlen c b) as (tmp & d & buf & -> & -> & E & Hroom); [done..|lia|].
      rewrite !bind_some_eq, E, bind_some_eq. eexists _, _. split; [by apply expand_done_room with b|done].
Qed.

(** ** Formatting into the space *)

(** What the list of chains and [last_with_datap] are after text was written at
    the end of chain [p]. *)
Lemma written_list p c c' text b :
  stream_ok b → bf_chains b !! p = Some c → chain_ok c' → data_of c' = data_of c ++ text →
  c_flags c' = c_flags c → buffer_len c' = buffer_len c → c_misalign c' = c_misalign c →
  p = bf_lwd b ∨ p = S (bf_lwd b) ∧ (∃ c0, bf_chains b !! bf_lwd b = Some c0 ∧ ¬ empty_chain c0) →
  let cs := <[p := c']> (bf_chains b) in
  let lwd := (bf_lwd b + advance (drop (S (bf_lwd b)) cs))%nat in
  list_ok cs lwd ∧ shape cs lwd ∧ bytes_of cs = content b ++ text.
Proof.
  intros [Hb Hs H1 H2] Hc Hok Hd Hf Hlen Hmis Hp. cbv zeta. pose proof (bo_list _ Hb) as Hl.
  pose proof (list_ok_lookup _ _ _ _ Hl Hc) as Hokc. pose proof (lookup_lt_Some _ _ _ Hc) as Hlt.
  assert (c_off c' = c_off c + length text)%nat as Ho.
  { pose proof (length_data_of c Hokc). pose proof (length_data_of c' Hok) as E. rewrite Hd, length_app in E. lia. }
  assert (∀ lwd, (p < lwd → ¬ empty_chain c')%nat → shape (bf_chains b) lwd → shape (<[p := c']> (bf_chains b)) lwd) as Hshape.
  { intros lwd He Hs'. apply (shape_insert _ _ _ c); try done. unfold empty_chain. lia. }
  assert (∀ l, Forall empty_chain l → advance l = 0%nat) as Hadv.
  { intros [|x l]; [done|]. intros [Hx _]%Forall_cons. cbn. by rewrite Hx. }
  destruct Hp as [->|[-> (c0 & Hc0 & Hne)]].
  - rewrite drop_insert_lt, (Hadv _ (lo_after _ _ Hl)), Nat.add_0_r by lia. split_and!; [|by apply Hshape; [lia|]|].
    + apply (list_ok_insert _ _ _ c); [done..|by left].
    + apply (bytes_of_insert _ _ c); [done|apply Hl|done].
  - assert (bytes_of (drop (S (S (bf_lwd b))) (bf_chains b)) = []) as Hnil.
    { apply bytes_of_empty. pose proof (Forall_drop _ 1 _ (lo_after _ _ Hl)) as H. by rewrite drop_drop, Nat.add_1_r in H. }
    assert (empty_chain c) as Hec.
    { apply (Forall_lookup_1 _ _ 0%nat c (lo_after _ _ Hl)). by rewrite lookup_drop, Nat.add_0_r. }
    assert (bytes_of (<[S (bf_lwd b) := c']> (bf_chains b)) = content b ++ text) as Hby.
    { apply (bytes_of_insert _ _ c); [done| |done].
      pose proof (Forall_drop _ 1 _ (lo_after _ _ Hl)) as H. by rewrite drop_drop, Nat.add_1_r in H. }
    rewrite drop_insert_ge, Nat.sub_diag, (drop_S _ c) by (done || lia). cbn [list_insert insert advance]. rewrite Ho, Hec.
    destruct (Nat.eqb_spec (0 + length text) 0) as [Hz|Hz].
    + rewrite Nat.add_0_r. split_and!; [|by apply Hshape; [lia|]|done].
      apply (list_ok_insert _ _ _ c); [done..|]. right. unfold empty_chain. rewrite Ho, Hec. done.
    + pose proof (Forall_drop _ 1 _ (lo_after _ _ Hl)) as H. rewrite drop_drop, Nat.add_1_r in H.
      rewrite (Hadv _ H). split_and!; [|apply Hshape; [lia|]|done].
      * destruct Hl as [L1 L2 L3]. constructor; [by apply Forall_insert|left; rewrite length_insert; lia|].
        rewrite Nat.add_1_r, drop_insert_lt by lia. done.
      * destruct Hs as [S1 S2]. split; [done|]. rewrite Nat.add_1_r, (take_S_r _ _ c0 Hc0). apply Forall_app. split; [done|by constructor].
Qed.

Lemma write_text_stream p c text b :
  stream_ok b → bf_chains b !! p = Some c → (length text < CHAIN_SPACE_LEN c)%nat →
  p = bf_lwd b ∨ p = S (bf_lwd b) ∧ (∃ c0, bf_chains b !! bf_lwd b = Some c0 ∧ ¬ empty_chain c0) →
  stream_fits (length (content b) + length text) →
  ∃ buf, memcpy_at (CHAIN_SPACE_PTR c) (text ++ [0]) (c_buffer c) = Some buf ∧
    let sz := Z.of_nat (length text) in
    let b1 := set_chain p (set_c_buffer buf c) b in
    let b2 := set_chain p (set_c_off (c_off c + length text)%nat (set_c_buffer buf c)) b1 in
    let b' := evbuffer_invoke_callbacks_ (advance_last_with_data (add_n_add sz (add_total sz b2))) in
    stream_ok b' ∧ content b' = content b ++ text.
Proof.
  intros Hst Hc Hlen Hp Hf. destruct (Hst) as [Hb _ H1 H2]. pose proof (list_ok_lookup _ _ _ _ (bo_list _ Hb) Hc) as Hok.
  destruct (fill_space_ok (text ++ [0]) c Hok) as (buf & Hbuf & _ & Hok' & Hd' & _); [rewrite length_app; cbn; lia|].
  exists buf. split; [done|]. cbv zeta. rewrite length_app in Hok', Hd'. cbn [length] in Hok', Hd'.
  set (c' := set_c_off (c_off c + length text)%nat (set_c_buffer buf c)).
  assert (chain_ok c') as Hc' by (destruct Hok' as [K1 K2]; split; [unfold buffer_len, c' in *; cbn in *; lia|done]).
  assert (data_of c' = data_of c ++ text) as Hdc'.
  { unfold data_of in Hd'. cbn in Hd'. unfold data_of, c' at 1 2 3. cbn. pose proof (length_data_of c Hok) as Hlc.
    replace (c_off c + length text)%nat with ((c_off c + length text) `min` (c_off c + (length text + 1)))%nat by lia.
    rewrite <-take_take, Hd', app_assoc. unfold data_of in Hlc. apply take_app_length'. rewrite length_app. lia. }
  assert (buffer_len c' = buffer_len c) as Hbl by (unfold buffer_len, c'; cbn; by rewrite (memcpy_at_length _ _ _ _ Hbuf)).
  destruct (written_list p c c' text b) as (L & S & B); [done..|].
  assert (set_chain p c' (set_chain p (set_c_buffer buf c) b) = set_bf_chains (<[p := c']> (bf_chains b)) b) as ->.
  { unfold set_chain. cbn. by rewrite list_insert_insert_eq. }
  set (cs := <[p := c']> (bf_chains b)) in *.
  assert (is_Some (cs !! bf_lwd b)) as [x Hx].
  { apply lookup_lt_is_Some_2. unfold cs. rewrite length_insert. pose proof (lookup_lt_Some _ _ _ Hc). destruct Hp as [<-|[-> _]]; lia. }
  unfold advance_last_with_data. cbn [bf_chains bf_lwd add_n_add add_total set_bf_n_add set_bf_total_len set_bf_chains]. rewrite Hx.
  rewrite content_invoke. split; [|done]. apply invoke_stream. split; [|done|done|done].
  unfold stream_fits in Hf. change BLOCK_MAX with 2305843009213693952 in Hf.
  constructor; [done|change (content _) with (bytes_of cs)|apply u64_range|apply u64_range|apply Hb].
  change (u64 (bf_total_len b + Z.of_nat (length text)) = Z.of_nat (length (bytes_of cs))).
  rewrite B, length_app, (bo_total _ Hb), u64_small; lia.
Qed.

(** A round for a text that fits. *)
Lemma vprintf_fits fuel m text p b0 b :
  room_in p (Z.of_nat (length text) + 1) b0 b → Z.of_nat (length text) < INT_MAX → stream_fits (length (content b) + length text) →
  ∃ b', vprintf_loop (S fuel) m text p b = Some (Z.of_nat (length text), b') ∧ stream_ok b' ∧ content b' = content b ++ text.
Proof.
  intros (Hst & _ & c & Hc & Hs & Hp) Hi Hf. destruct (write_text_stream p c text b) as (buf & Hbuf & Hs' & Hc'); [done..|lia|done|done|].
  cbv zeta in Hs', Hc'. cbn [vprintf_loop]. rewrite Hc, bind_some_eq. cbv zeta. unfold evutil_vsnprintf.
  rewrite (proj2 (Z.eqb_neq _ 0)) by lia. unfold snprintf. cbv iota beta. rewrite take_ge by lia. rewrite Hbuf, bind_some_eq.
  rewrite (proj2 (Z.ltb_ge INT_MAX _)), (proj2 (Z.ltb_ge (Z.of_nat (length text)) 0)) by lia. cbn [andb Z.leb].
  rewrite (proj2 (Z.ltb_lt (Z.of_nat (length text)) _)) by lia. rewrite Nat2Z.id. cbn [c_off set_c_buffer]. eauto.
Qed.

(** A round for a text that does not fit: the free space is written and more is asked for. *)
Lemma vprintf_retry fuel m text p c b :
  stream_ok b → bf_chains b !! p = Some c → (0 < CHAIN_SPACE_LEN c <= length text)%nat →
  Z.of_nat (length text) < INT_MAX →
  ∃ b1, vprintf_loop (S fuel) m text p b =
      ('(r, b) ← evbuffer_expand_singlechain (m 0%nat) (Z.of_nat (length text) + 1) b1;
       match r with None => Some (-1, b) | Some p => vprintf_loop fuel (later_mallocs 1 m) text p b end) ∧
    stream_ok b1 ∧ content b1 = content b.
Proof.
  intros Hst Hc Hs Hi. destruct (Hst) as [Hb [S1 _] _ _]. pose proof (list_ok_lookup _ _ _ _ (bo_list _ Hb) Hc) as Hok.
  set (d := take (CHAIN_SPACE_LEN c - 1) text ++ [0]).
  destruct (fill_space_ok d c Hok) as (buf & Hbuf & Hsp & _ & Hd' & _); [unfold d; rewrite length_app, length_take; cbn; lia|].
  pose proof (memcpy_at_length _ _ _ _ Hbuf) as Hbl.
  exists (set_chain p (set_c_buffer buf c) b). split.
  - cbn [vprintf_loop]. rewrite Hc, bind_some_eq. cbv zeta. unfold evutil_vsnprintf.
    rewrite (proj2 (Z.eqb_neq _ 0)) by lia. unfold snprintf. cbv iota beta.
    replace (Z.to_nat (Z.of_nat (CHAIN_SPACE_LEN c) - 1)) with (CHAIN_SPACE_LEN c - 1)%nat by lia. fold d.
    rewrite Hbuf, bind_some_eq.
    rewrite (proj2 (Z.ltb_ge INT_MAX _)), (proj2 (Z.ltb_ge (Z.of_nat (length text)) 0)) by lia. cbn [andb Z.leb].
    by rewrite (proj2 (Z.ltb_ge (Z.of_nat (length text)) _)) by lia.
  - apply (set_chain_stream p c); [done|done| | |done|].
    + destruct Hok as [K1 K2]. split; unfold buffer_len in *; cbn; by rewrite ?Hbl.
    + destruct (Forall_lookup_1 _ _ _ _ S1 Hc) as (T1 & T2 & T3).
      split_and!; [done|unfold buffer_len in *; cbn; by rewrite Hbl|by rewrite Hsp].
    + pose proof (length_data_of c Hok) as Hlc. apply (f_equal (take (c_off c))) in Hd'. rewrite take_app_length' in Hd' by done.
      rewrite <-Hd'. unfold data_of. cbn. rewrite take_take. by replace (c_off c `min` (c_off c + length d))%nat with (c_off c) by lia.
Qed.

(** Formatted text is appended whole, whatever space there was at first. *)
Lemma printf_stream m text b :
  stream_ok b → (∀ n, m n = true) → Z.of_nat (length text) < INT_MAX →
  stream_fits (length (content b) + length text + MAX_TO_COPY_IN_EXPAND + 64) →
  ∃ b', evbuffer_add_printf m text b = Some (Z.of_nat (length text), b') ∧ stream_ok b' ∧ content b' = content b ++ text.
Proof.
  intros Hst Hm Hi Hf. unfold stream_fits in Hf. unfold evbuffer_add_printf, evbuffer_add_vprintf. rewrite (st_end _ Hst), (Hm 0%nat).
  destruct (expand_single_room 64 b Hst) as (p & b1 & -> & Hroom); [done|lia|]. rewrite bind_some_eq.
  destruct (Hroom) as (Hs1 & Hc1 & c & Hc & Hsp & Hp). rewrite <-Hc1.
  destruct (decide (length text < CHAIN_SPACE_LEN c)%nat) as [Hfit|Hbig].
  { apply (vprintf_fits 1 _ text p b b1); [|done|unfold stream_fits; rewrite Hc1; lia].
    split_and!; [done..|]. exists c. split_and!; [done|lia|done]. }
  destruct (vprintf_retry 1 (later_mallocs 1 m) text p c b1 Hs1 Hc) as (b2 & -> & Hs2 & Hc2); [lia|done|].
  change (later_mallocs 1 m 0%nat) with (m 1%nat). rewrite (Hm 1%nat).
  destruct (expand_single_room (Z.of_nat (length text) + 1) b2 Hs2) as (p' & b3 & -> & Hroom'); [lia|lia|]. rewrite bind_some_eq.
  pose proof (proj1 (proj2 Hroom')) as Hc3. rewrite <-Hc2, <-Hc3. apply (vprintf_fits 0 _ text p' b2 b3 Hroom'); [done|].
  unfold stream_fits. rewrite Hc3, Hc2, Hc1. lia.
Qed.
