(* ===== verification/HttpHeaders.v ===== *)
(** * HTTP headers (http.c)

    A list of headers is a list of keys and values in the order of the message.
    Adding, finding and removing headers, reading them from the lines of a buffer
    and writing them to a buffer, and the arguments of a query.  A line that was
    read may contain NULs; the code sees what is before the first one. *)

From S2P Require Import Prelude Clib Util.
From S2P Require Import BufferCore BufferMove BufferSearch BufferPrintf.
From S2P Require Import Uri.

Record evkeyval := mk_kv { kv_key : bytes; kv_value : bytes }.
Abbreviation evkeyvalq := (list evkeyval).

(** [strsep(&s, d)] for a single delimiter: the token and the rest. *)
Definition strsep (d : Z) (s : bytes) : bytes * option bytes :=
  match strchr d s with
  | Some i => (take i s, Some (drop (S i) s))
  | None => (s, None)
  end.

(** [s + strspn(s, set)] *)
Definition skip_chars (set : bytes) (s : bytes) : bytes := snd (Clib.span (λ c, bool_decide (c ∈ set)) s).

(** ** The list of headers *)

Fixpoint evhttp_find_header (headers : evkeyvalq) (key : bytes) : option bytes :=
  match headers with
  | [] => None
  | h :: headers => if evutil_ascii_strcasecmp (kv_key h) key =? 0 then Some (kv_value h) else evhttp_find_header headers key
  end.

Fixpoint evhttp_clear_headers (headers : evkeyvalq) : evkeyvalq :=
  match headers with
  | [] => []
  | _ :: headers => evhttp_clear_headers headers
  end.

Fixpoint evhttp_remove_header (headers : evkeyvalq) (key : bytes) : Z * evkeyvalq :=
  match headers with
  | [] => (-1, [])
  | h :: headers =>
    if evutil_ascii_strcasecmp (kv_key h) key =? 0 then (0, headers)
    else let '(r, headers) := evhttp_remove_header headers key in (r, h :: headers)
  end.

Definition CRLF : bytes := [13; 10].

(** Each round passes a line break: one round per character is enough. *)
Fixpoint valid_value_loop (fuel : nat) (p : bytes) : bool :=
  match fuel with
  | O => false
  | S fuel =>
    match strpbrk CRLF p with
    | None => true
    | Some i =>
      let p := skip_chars CRLF (drop i p) in
      if negb (char_at p 0 =? 32) && negb (char_at p 0 =? 9) then false else valid_value_loop fuel p
    end
  end.
Definition evhttp_header_is_valid_value (value : bytes) : bool := valid_value_loop (S (length value)) value.

(** The three allocations are those of the header, the key and the value. *)
Definition evhttp_add_header_internal (m : mallocs) (headers : evkeyvalq) (key value : bytes) : Z * evkeyvalq :=
  if negb (m 0%nat) then (-1, headers)
  else if negb (m 1%nat) then (-1, headers)
  else if negb (m 2%nat) then (-1, headers)
  else (0, headers ++ [mk_kv key value]).

Definition evhttp_add_header (m : mallocs) (headers : evkeyvalq) (key value : bytes) : Z * evkeyvalq :=
  if bool_decide (strchr 13 key ≠ None) || bool_decide (strchr 10 key ≠ None) then (-1, headers)
  else if negb (evhttp_header_is_valid_value value) then (-1, headers)
  else evhttp_add_header_internal m headers key value.

(** ** Reading headers *)

Inductive message_read_status := ALL_DATA_READ | MORE_DATA_EXPECTED | DATA_CORRUPTED | REQUEST_CANCELED | DATA_TOO_LONG.

(** Trimming a string in place. *)
Definition rtrim (s : bytes) : bytes := default [] (evutil_rtrim_lws_ (Some s)).

Definition evhttp_append_to_last_header (m : mallocs) (headers : evkeyvalq) (line : bytes) : Z * evkeyvalq :=
  match last headers with
  | None => (-1, headers)
  | Some h =>
    let line := rtrim (snd (Clib.span is_lws line)) in
    if negb (m 0%nat) then (-1, headers)
    else (0, removelast headers ++ [mk_kv (kv_key h) (kv_value h ++ [32] ++ line)])
  end.

(** A header line that is not the last one; the inner part of the loop. *)
Definition header_line (m : mallocs) (headers : evkeyvalq) (line : bytes) : Z * evkeyvalq :=
  if is_lws (char_at line 0) then evhttp_append_to_last_header m headers line
  else
    let '(skey, svalue) := strsep 58 line in
    match svalue with
    | None => (-1, headers)
    | Some svalue => evhttp_add_header m headers skey (rtrim (skip_chars [32] svalue))
    end.

(** The state of the parser: the headers read and [headers_size]. *)
Record header_state := mk_hs { hs_headers : evkeyvalq; hs_size : Z }.

(** [limit] is [max_headers_size] when the request has a connection.  Each line
    takes up to four allocations, the first for the line itself. *)
Fixpoint parse_headers_loop (fuel : nat) (m : mallocs) (limit : option Z) (st : header_state) (buffer : evbuffer) :
    option (message_read_status * header_state * evbuffer) :=
  match fuel with
  | O => None
  | S fuel =>
    '(line, buffer) ← evbuffer_readln (m 0%nat) EVBUFFER_EOL_CRLF buffer;
    match line with
    | None =>
      if match limit with Some l => l <? u64 (hs_size st + evbuffer_get_length buffer) | None => false end
      then Some (DATA_TOO_LONG, st, buffer) else Some (MORE_DATA_EXPECTED, st, buffer)
    | Some raw =>
      let line := c_text raw in
      let st := mk_hs (hs_headers st) (u64 (hs_size st + Z.of_nat (length raw))) in
      if match limit with Some l => l <? hs_size st | None => false end then Some (DATA_TOO_LONG, st, buffer)
      else if char_at line 0 =? 0 then Some (ALL_DATA_READ, st, buffer)
      else
        let '(r, headers) := header_line (later_mallocs 1 m) (hs_headers st) line in
        let st := mk_hs headers (hs_size st) in
        if r =? -1 then Some (DATA_CORRUPTED, st, buffer)
        else parse_headers_loop fuel (later_mallocs 4 m) limit st buffer
    end
  end.

(** Every line takes a byte off the buffer. *)
Definition evhttp_parse_headers_ (m : mallocs) (limit : option Z) (st : header_state) (buffer : evbuffer) :
    option (message_read_status * header_state * evbuffer) :=
  parse_headers_loop (S (Z.to_nat (evbuffer_get_length buffer))) m limit st buffer.

(** ** Writing headers *)

Definition header_text (h : evkeyval) : bytes := kv_key h ++ [58; 32] ++ kv_value h ++ CRLF.

(** The loop of [evhttp_make_header] and the line after it; the results of the
    additions are not looked at. *)
Fixpoint write_headers (m : mallocs) (headers : evkeyvalq) (output : evbuffer) : option evbuffer :=
  match headers with
  | [] => '(_, output) ← evbuffer_add m CRLF output; Some output
  | h :: headers =>
    '(_, output) ← evbuffer_add_printf m (header_text h) output;
    write_headers (later_mallocs 4 m) headers output
  end.

(** ** The arguments of a query *)

(** [None] is an error; the list so far is then cleared. *)
Fixpoint parse_query_loop (fuel : nat) (m : mallocs) (p : option bytes) (headers : evkeyvalq) : option evkeyvalq :=
  match fuel with
  | O => None
  | S fuel =>
    match p with
    | None | Some [] => Some headers
    | Some p =>
      let '(argument, p) := strsep 38 p in
      let '(key, value) := strsep 61 argument in
      match value with
      | None => None
      | Some value =>
        if bool_decide (key = []) then None
        else if negb (m 0%nat) then None
        else
          let decoded := c_text (fst (evhttp_decode_uri_internal value 1)) in
          let '(_, headers) := evhttp_add_header_internal (later_mallocs 1 m) headers key decoded in
          parse_query_loop fuel (later_mallocs 4 m) p headers
      end
    end
  end.

(** The query of the URI, or the string itself; an inner [None] is a URI that
    cannot be parsed. *)
Definition query_part (mem : uri_alloc → bool) (str : bytes) (is_whole_uri : bool) : option (option (option bytes)) :=
  if is_whole_uri then
    match evhttp_uri_parse mem str with
    | None => None
    | Some None => Some None
    | Some (Some uri) => Some (Some (uri_query uri))
    end
  else Some (Some (Some str)).

(** The result and the list. *)
Definition evhttp_parse_query_impl (mem : uri_alloc → bool) (m : mallocs) (str : bytes) (is_whole_uri : bool) :
    option (Z * evkeyvalq) :=
  q ← query_part mem str is_whole_uri;
  Some match q with
       | None => (-1, [])
       | Some None | Some (Some []) => (0, [])
       | Some (Some q) =>
         if negb (m 0%nat) then (-1, [])
         else match parse_query_loop (S (length q)) (later_mallocs 1 m) (Some q) [] with
              | Some headers => (0, headers)
              | None => (-1, [])
              end
       end.

Definition evhttp_parse_query (mem : uri_alloc → bool) (m : mallocs) (uri : bytes) : option (Z * evkeyvalq) :=
  evhttp_parse_query_impl mem m uri true.
Definition evhttp_parse_query_str (mem : uri_alloc → bool) (m : mallocs) (uri : bytes) : option (Z * evkeyvalq) :=
  evhttp_parse_query_impl mem m uri false.
