(* ===== verification/HttpHeaderProps.v ===== *)
(** * HTTP headers: reading is what it is on the lines of the content

    The parser of headers over a buffer is a function of the lines of the content;
    it does not matter in which pieces a message arrives; headers that are written
    are read back. *)

From S2P Require Import Prelude Clib Util.
From S2P Require Import BufferCore BufferMove BufferSearch BufferInv BufferLines BufferStream BufferPrintf.
From S2P Require Import Uri HttpHeaders.

(** ** Lines *)

(** The complete lines, each with its LF, and what is after the last LF. *)
Fixpoint split_lines (s : bytes) : list bytes * bytes :=
  match s with
  | [] => ([], [])
  | c :: s =>
    let '(ls, r) := split_lines s in
    if c =? 10 then ([10] :: ls, r)
    else match ls with
         | [] => ([], c :: r)
         | l :: ls => ((c :: l) :: ls, r)
         end
  end.

(** A line without its LF and a CR before it. *)
Definition chomp (raw : bytes) : bytes :=
  let l := removelast raw in if bool_decide (last l = Some 13) then removelast l else l.

Lemma split_lines_concat s : concat (split_lines s).1 ++ (split_lines s).2 = s.
Proof.
  induction s as [|c s IH]; [done|]. cbn [split_lines]. destruct (split_lines s) as [ls r]. cbn [fst snd] in IH.
  destruct (Z.eqb_spec c 10) as [->|_]; cbn; [by rewrite IH|]. destruct ls as [|l ls]; cbn in *; by rewrite IH.
Qed.

(** The lines of a text do not depend on where it is cut. *)
Lemma split_lines_app a b :
  split_lines (a ++ b) =
  ((split_lines a).1 ++ (split_lines ((split_lines a).2 ++ b)).1, (split_lines ((split_lines a).2 ++ b)).2).
Proof.
  induction a as [|c a IH]; [by cbn; destruct (split_lines b)|]. cbn [app split_lines]. rewrite IH.
  destruct (split_lines a) as [ls r]. cbn [fst snd]. destruct (c =? 10) eqn:Ec; [done|].
  destruct ls as [|l ls]; cbn [app fst snd]; [|done]. cbn [split_lines]. rewrite Ec. by destruct (split_lines (r ++ b)) as [[|l ls] r'].
Qed.

Lemma split_lines_no_lf l s : (10 ∉ l) → split_lines (l ++ 10 :: s) = ((l ++ [10]) :: (split_lines s).1, (split_lines s).2).
Proof.
  intros Hl. induction l as [|c l IH]; cbn [app split_lines]; [by destruct (split_lines s)|].
  rewrite not_elem_of_cons in Hl. rewrite IH by tauto. by rewrite (proj2 (Z.eqb_neq c 10)) by (intros ->; tauto).
Qed.

Lemma split_lines_rest s : 10 ∉ (split_lines s).2.
Proof.
  induction s as [|c s IH]; cbn [split_lines]; [set_solver|]. destruct (split_lines s) as [ls r]. cbn [snd] in IH.
  destruct (Z.eqb_spec c 10); [done|]. destruct ls; cbn; [|done]. rewrite not_elem_of_cons. auto.
Qed.

(** The first line as the buffers see it. *)
Lemma eol_ref_lines s :
  match split_lines s with
  | ([], _) => eol_ref EVBUFFER_EOL_CRLF s = None
  | (raw :: ls, r) => ∃ k n, eol_ref EVBUFFER_EOL_CRLF s = Some (k, n) ∧ take k s = chomp raw ∧ drop (k + n) s = concat ls ++ r
  end.
Proof.
  assert (∀ l t, (10 ∉ l) → find_first (λ x, x =? 10) (l ++ 10 :: t) = Some (length l)) as Hfind.
  { intros l t Hl. induction l as [|c l IH]; [done|]. rewrite not_elem_of_cons in Hl. cbn.
    rewrite (proj2 (Z.eqb_neq c 10)) by (intros ->; tauto). by rewrite IH by tauto. }
  destruct (decide (10 ∈ s)) as [Hin|Hn].
  - apply list_elem_of_split_l in Hin as (l & t & -> & Hl). rewrite split_lines_no_lf by done.
    cbn [eol_ref]. rewrite Hfind by done. cbn [mbind option_bind]. unfold chomp. rewrite removelast_last.
    rewrite (split_lines_concat t). destruct (decide (last l = Some 13)) as [Hcr|Hcr].
    + apply last_Some in Hcr as (l' & ->). rewrite !bool_decide_true; [|by rewrite last_snoc|].
      2: { rewrite length_app. cbn. split; [lia|]. rewrite <-app_assoc, lookup_app_r by lia. by rewrite Nat.add_sub, Nat.sub_diag. }
      eexists _, _. split; [done|]. rewrite removelast_last, length_app. cbn [length].
      rewrite Nat.add_sub, <-app_assoc. split; [by rewrite take_app_length|]. cbn [app]. by rewrite drop_app_add.
    + rewrite !bool_decide_false; [|done|].
      2: { intros [Hk Hlk]. apply Hcr. rewrite lookup_app_l in Hlk by lia. by rewrite last_lookup, <-Nat.sub_1_r. }
      eexists _, _. split; [done|]. split; [by rewrite take_app_length|by rewrite drop_app_add].
  - assert (split_lines s = ([], s)) as ->.
    { clear Hfind. induction s as [|c s IH]; [done|]. rewrite not_elem_of_cons in Hn. cbn. rewrite IH by tauto.
      by rewrite (proj2 (Z.eqb_neq c 10)) by (intros ->; tauto). }
    cbn. assert (find_first (λ x, x =? 10) s = None) as ->; [|done].
    clear Hfind. induction s as [|c s IH]; [done|]. rewrite not_elem_of_cons in Hn. cbn.
    rewrite (proj2 (Z.eqb_neq c 10)) by (intros ->; tauto). by rewrite IH by tauto.
Qed.

Lemma readln_lines b :
  stream_ok b → bf_total_len b <= EV_SSIZE_MAX →
  match split_lines (content b) with
  | ([], _) => evbuffer_readln true EVBUFFER_EOL_CRLF b = Some (None, b)
  | (raw :: ls, r) => ∃ b', evbuffer_readln true EVBUFFER_EOL_CRLF b = Some (Some (chomp raw), b') ∧
      stream_ok b' ∧ content b' = concat ls ++ r
  end.
Proof.
  intros Hst Hm. pose proof (readln_stream EVBUFFER_EOL_CRLF b Hst Hm (eol_fits_short EVBUFFER_EOL_CRLF _ ltac:(discriminate))) as H. pose proof (eol_ref_lines (content b)) as He.
  destruct (split_lines (content b)) as [[|raw ls] r]; [by rewrite He in H|]. destruct He as (k & n & E & Et & Ed).
  rewrite E in H. destruct H as (b' & H1 & H2 & H3). exists b'. by rewrite H1, Et, H3, Ed.
Qed.

(** ** Reading headers *)

(** The parser as a function of the lines, with memory at hand. *)
Fixpoint parse_lines (limit : option Z) (st : header_state) (ls : list bytes) (r : bytes) :
    message_read_status * header_state * bytes :=
  match ls with
  | [] =>
    if match limit with Some l => l <? u64 (hs_size st + Z.of_nat (length r)) | None => false end
    then (DATA_TOO_LONG, st, r) else (MORE_DATA_EXPECTED, st, r)
  | raw :: ls =>
    let line := c_text (chomp raw) in
    let st := mk_hs (hs_headers st) (u64 (hs_size st + Z.of_nat (length (chomp raw)))) in
    if match limit with Some l => l <? hs_size st | None => false end then (DATA_TOO_LONG, st, concat ls ++ r)
    else if char_at line 0 =? 0 then (ALL_DATA_READ, st, concat ls ++ r)
    else
      let '(z, headers) := header_line (λ _, true) (hs_headers st) line in
      let st := mk_hs headers (hs_size st) in
      if z =? -1 then (DATA_CORRUPTED, st, concat ls ++ r) else parse_lines limit st ls r
  end.
Definition parse_text (limit : option Z) (st : header_state) (s : bytes) : message_read_status * header_state * bytes :=
  let '(ls, r) := split_lines s in parse_lines limit st ls r.

Lemma parse_text_concat limit st ls r s : split_lines s = (ls, r) → parse_text limit st s = parse_lines limit st ls r.
Proof. unfold parse_text. by intros ->. Qed.

(** The lines after the first one are the lines of what is left. *)
Lemma split_lines_tail s raw ls r : split_lines s = (raw :: ls, r) → split_lines (concat ls ++ r) = (ls, r).
Proof.
  revert raw ls r. induction s as [|c s IH]; intros raw ls r; [done|]. cbn [split_lines].
  destruct (split_lines s) as [ls' r'] eqn:Es. destruct (Z.eqb_spec c 10).
  - intros [= <- <- <-]. pose proof (split_lines_concat s) as E. rewrite Es in E. cbn in E. by rewrite E.
  - destruct ls' as [|l ls']; [done|]. intros [= <- <- <-]. by apply (IH l).
Qed.

Lemma header_line_mem m headers line : (∀ n, m n = true) → header_line m headers line = header_line (λ _, true) headers line.
Proof.
  intros Hm. unfold header_line, evhttp_append_to_last_header, evhttp_add_header, evhttp_add_header_internal.
  by rewrite !Hm.
Qed.

Lemma parse_headers_loop_ok fuel m limit st b :
  stream_ok b → bf_total_len b <= EV_SSIZE_MAX → (∀ n, m n = true) → (length (content b) < fuel)%nat →
  ∃ status st' b', parse_headers_loop fuel m limit st b = Some (status, st', b') ∧ stream_ok b' ∧
    parse_text limit st (content b) = (status, st', content b').
Proof.
  revert m st b. induction fuel as [|fuel IH]; intros m st b Hst Hmax Hm Hf; [lia|].
  cbn [parse_headers_loop]. rewrite (Hm 0%nat). pose proof (readln_lines b Hst Hmax) as Hr. unfold parse_text.
  destruct (split_lines (content b)) as [[|raw ls] r] eqn:Es.
  - rewrite Hr, bind_some_eq. cbn [parse_lines]. pose proof (split_lines_concat (content b)) as Ec. rewrite Es in Ec. cbn in Ec. subst r.
    unfold evbuffer_get_length. rewrite (bo_total _ (st_ok _ Hst)). destruct (match limit with Some l => _ | None => false end); eauto 10.
  - destruct Hr as (b1 & -> & Hs1 & Hc1). rewrite bind_some_eq. cbn [parse_lines hs_size hs_headers].
    destruct (match limit with Some l => _ | None => false end); [eexists _, _, _; by rewrite Hc1|].
    destruct (char_at (c_text (chomp raw)) 0 =? 0); [eexists _, _, _; by rewrite Hc1|].
    rewrite header_line_mem by (intros; apply Hm). destruct (header_line _ _ _) as [z headers].
    destruct (z =? -1); [eexists _, _, _; by rewrite Hc1|].
    assert (length (content b) = (length raw + length (content b1))%nat ∧ raw ≠ []) as [Hlen Hraw].
    { pose proof (split_lines_concat (content b)) as Ec. rewrite Es in Ec. cbn [fst snd concat] in Ec.
      rewrite Hc1, <-Ec, <-app_assoc, length_app. split; [done|]. clear -Es.
      revert raw ls r Es. induction (content b) as [|c s IH]; [done|]. intros raw ls r. cbn [split_lines].
      destruct (split_lines s) as [ls' r']. destruct (c =? 10); [by intros [= <- _ _]|]. destruct ls'; [done|by intros [= <- _ _]]. }
    assert (0 < length raw)%nat by (destruct raw; [done|cbn; lia]).
    pose proof (bo_total _ (st_ok _ Hst)). pose proof (bo_total _ (st_ok _ Hs1)).
    destruct (IH (later_mallocs 4 m) (mk_hs headers (u64 (hs_size st + Z.of_nat (length (chomp raw))))) b1)
      as (status & st' & b' & E & Hs' & Hp); [done|lia|intros; apply Hm|lia|].
    exists status, st', b'. split_and!; [done..|]. rewrite Hc1 in Hp.
    by rewrite (parse_text_concat _ _ _ _ _ (split_lines_tail _ _ _ _ Es)) in Hp.
Qed.

(** The parser over a buffer is the function of the content. *)
Lemma parse_headers_ok m limit st b :
  stream_ok b → bf_total_len b <= EV_SSIZE_MAX → (∀ n, m n = true) →
  ∃ status st' b', evhttp_parse_headers_ m limit st b = Some (status, st', b') ∧ stream_ok b' ∧
    parse_text limit st (content b) = (status, st', content b').
Proof.
  intros Hst Hmax Hm. apply parse_headers_loop_ok; [done..|]. unfold evbuffer_get_length.
  pose proof (bo_total _ (st_ok _ Hst)). lia.
Qed.

(** Stopping for lack of data and going on when more arrived. *)
Lemma parse_lines_more limit ls1 st st' r r' ls2 r2 :
  parse_lines limit st ls1 r = (MORE_DATA_EXPECTED, st', r') →
  r' = r ∧ parse_lines limit st (ls1 ++ ls2) r2 = parse_lines limit st' ls2 r2.
Proof.
  revert st. induction ls1 as [|raw ls IH]; intros st; cbn [parse_lines app].
  - destruct (match limit with Some l => _ | None => false end); [done|]. by intros [= <- <-].
  - cbn [hs_size hs_headers]. destruct (match limit with Some l => _ | None => false end); [done|].
    destruct (char_at _ 0 =? 0); [done|]. destruct (header_line _ _ _) as [z headers]. destruct (z =? -1); [done|]. apply IH.
Qed.

Lemma parse_text_more limit st st' a b r :
  parse_text limit st a = (MORE_DATA_EXPECTED, st', r) → parse_text limit st (a ++ b) = parse_text limit st' (r ++ b).
Proof.
  unfold parse_text. rewrite split_lines_app. destruct (split_lines a) as [ls1 r1]. cbn [fst snd].
  intros H. destruct (parse_lines_more limit ls1 st st' r1 r [] [] H) as [-> _].
  destruct (split_lines (r1 ++ b)) as [ls2 r2]. by apply (parse_lines_more limit ls1 st st' r1 r1).
Qed.

(** C24. It does not matter in which pieces the headers arrive: when the parser
    asked for more data on a part of a message, going on from the state it left
    with the bytes it left and those that arrived gives the same result, the
    same headers and the same rest as parsing the whole message at once. *)
Theorem headers_incremental m limit st part whole st' part' more res st'' whole' :
  stream_ok part → stream_ok whole → stream_ok more → (∀ n, m n = true) →
  bf_total_len part <= EV_SSIZE_MAX → bf_total_len whole <= EV_SSIZE_MAX → bf_total_len more <= EV_SSIZE_MAX →
  evhttp_parse_headers_ m limit st part = Some (MORE_DATA_EXPECTED, st', part') →
  (∃ d, content whole = content part ++ d ∧ content more = content part' ++ d) →
  evhttp_parse_headers_ m limit st whole = Some (res, st'', whole') →
  ∃ more', evhttp_parse_headers_ m limit st' more = Some (res, st'', more') ∧ content more' = content whole'.
Proof.
  intros Hp Hw Hmo Hm M1 M2 M3 E1 (d & Ew & Em) E2.
  destruct (parse_headers_ok m limit st part Hp M1 Hm) as (? & ? & ? & E1' & _ & P1). rewrite E1 in E1'. injection E1' as <- <- <-.
  destruct (parse_headers_ok m limit st whole Hw M2 Hm) as (? & ? & ? & E2' & _ & P2). rewrite E2 in E2'. injection E2' as <- <- <-.
  destruct (parse_headers_ok m limit st' more Hmo M3 Hm) as (s3 & st3 & b3 & E3 & _ & P3).
  rewrite Em, <-(parse_text_more limit st st' (content part) d (content part') P1), <-Ew, P2 in P3. injection P3 as <- <- E.
  exists b3. by rewrite E3, E.
Qed.

(** ** Writing and reading back *)

(** A header that is one line: no line breaks or NULs, a key without a colon that
    does not look like a continuation, a value without space around it. *)
Record plain_header (h : evkeyval) : Prop := {
  ph_key : Forall (λ c, c ≠ 0 ∧ c ≠ 10 ∧ c ≠ 13 ∧ c ≠ 58) (kv_key h);
  ph_key_start : is_lws (char_at (kv_key h) 0) = false;
  ph_value : Forall (λ c, c ≠ 0 ∧ c ≠ 10 ∧ c ≠ 13) (kv_value h);
  ph_value_start : char_at (kv_value h) 0 ≠ 32;
  ph_value_end : ∀ c, last (kv_value h) = Some c → is_lws c = false
}.

Lemma strpbrk_none set s : (∀ c, c ∈ s → c ∉ set) → strpbrk set s = None.
Proof.
  induction s as [|c s IH]; intros H; [done|]. cbn. rewrite bool_decide_false by (apply H; set_solver).
  rewrite IH; [done|]. intros d Hd. apply H. set_solver.
Qed.

Lemma valid_value_plain v : Forall (λ c, c ≠ 0 ∧ c ≠ 10 ∧ c ≠ 13) v → evhttp_header_is_valid_value v = true.
Proof.
  intros H. unfold evhttp_header_is_valid_value. cbn [valid_value_loop]. rewrite strpbrk_none; [done|].
  intros c Hc. pose proof (proj1 (Forall_forall _ _) H c Hc) as (H0 & H10 & H13). unfold CRLF. set_solver.
Qed.

Lemma rtrim_id v : (∀ c, last v = Some c → is_lws c = false) → rtrim v = v.
Proof.
  intros H. unfold rtrim. destruct v as [|c0 v0] eqn:E; [done|]. rewrite <-E in *.
  assert (evutil_rtrim_lws_ (Some v) = Some (rtrim_loop (length v - 1) v)) as -> by by rewrite E.
  cbn [default]. destruct (last v) as [x|] eqn:Hx; [|apply last_None in Hx; by rewrite Hx in E].
  assert (is_lws (char_at v (length v - 1)) = false) as Hl.
  { unfold char_at. rewrite Nat.sub_1_r, <-last_lookup, Hx. cbn. by apply H. }
  destruct (length v - 1)%nat; cbn [rtrim_loop]; by rewrite Hl.
Qed.

Lemma header_line_plain headers h :
  plain_header h →
  header_line (λ _, true) headers (kv_key h ++ [58; 32] ++ kv_value h) = (0, headers ++ [h]).
Proof.
  intros [K1 K2 V1 V2 V3]. unfold header_line.
  assert (is_lws (char_at (kv_key h ++ [58; 32] ++ kv_value h) 0) = false) as ->.
  { destruct (kv_key h) as [|c k]; [done|]. apply K2. }
  assert ((58 ∉ kv_key h) ∧ (13 ∉ kv_key h) ∧ (10 ∉ kv_key h)) as (N58 & N13 & N10).
  { rewrite Forall_forall in K1. split_and!; intros Hin; apply K1 in Hin; lia. }
  unfold strsep. cbn [app]. rewrite strchr_app by done. rewrite take_app_length.
  assert (drop (S (length (kv_key h))) (kv_key h ++ 58 :: 32 :: kv_value h) = 32 :: kv_value h) as ->.
  { rewrite <-Nat.add_1_r, drop_app_add. done. }
  assert (skip_chars [32] (32 :: kv_value h) = kv_value h) as ->.
  { unfold skip_chars. cbn [Clib.span]. rewrite bool_decide_true by set_solver.
    destruct (kv_value h) as [|c v]; [done|]. cbn in V2. cbn [Clib.span]. by rewrite bool_decide_false by set_solver. }
  rewrite rtrim_id by done. unfold evhttp_add_header. rewrite !strchr_none, !bool_decide_false by (done || congruence).
  cbn [orb]. rewrite valid_value_plain by done. by destruct h.
Qed.

(** The lines that are written for a header. *)
Lemma split_header h s :
  plain_header h → ∃ raw, split_lines (header_text h ++ s) = (raw :: (split_lines s).1, (split_lines s).2) ∧
    chomp raw = kv_key h ++ [58; 32] ++ kv_value h.
Proof.
  intros [K1 _ V1 _ _]. set (line := kv_key h ++ [58; 32] ++ kv_value h). exists ((line ++ [13]) ++ [10]). split.
  - rewrite <-split_lines_no_lf; [f_equal; unfold header_text, line, CRLF; by rewrite <-!app_assoc|].
    rewrite Forall_forall in K1, V1. unfold line. rewrite !elem_of_app, !elem_of_cons. intros Hin.
    destruct Hin as [[Hin|[[?|[?|Hin]]|Hin]]|[?|Hin]]; try lia; [by apply K1 in Hin; lia|by apply elem_of_nil in Hin|by apply V1 in Hin; lia|by apply elem_of_nil in Hin].
  - unfold chomp. rewrite removelast_last, bool_decide_true by by rewrite last_snoc. by rewrite removelast_last.
Qed.

Fixpoint headers_text (hs : evkeyvalq) : bytes :=
  match hs with [] => CRLF | h :: hs => header_text h ++ headers_text hs end.

(** The headers are within the limit of a connection. *)
Definition within (limit : option Z) (st : header_state) (n : nat) : Prop :=
  ∀ l, limit = Some l → 0 <= hs_size st ∧ hs_size st + Z.of_nat n <= l < 2 ^ 64.

Lemma within_size limit st n k : within limit st n → (k <= n)%nat →
  (match limit with Some l => l <? u64 (hs_size st + Z.of_nat k) | None => false end) = false ∧
  ∀ hs, within limit (mk_hs hs (u64 (hs_size st + Z.of_nat k))) (n - k).
Proof.
  intros Hw Hk. unfold within in *. destruct limit as [l|]; [|by split]. destruct (Hw l eq_refl) as [H0 Hl].
  assert (u64 (hs_size st + Z.of_nat k) = hs_size st + Z.of_nat k) as -> by (unfold wrap; apply Z.mod_small; lia).
  split; [apply Z.ltb_ge; lia|]. intros hs l' [= <-]. cbn. lia.
Qed.

Lemma parse_text_headers limit hs st rest :
  Forall plain_header hs → within limit st (length (headers_text hs)) →
  ∃ n, parse_text limit st (headers_text hs ++ rest) = (ALL_DATA_READ, mk_hs (hs_headers st ++ hs) n, rest).
Proof.
  intros Hhs. revert st. induction Hhs as [|h hs Hh _ IH]; intros st Hw; cbn [headers_text] in *.
  - unfold CRLF. rewrite (parse_text_concat limit st ([13; 10] :: (split_lines rest).1) (split_lines rest).2).
    2: { apply (split_lines_no_lf [13]). set_solver. }
    cbn [parse_lines]. change (chomp [13; 10]) with (@nil Z). cbn [hs_size hs_headers length]. rewrite (proj1 (within_size limit st _ 0 Hw ltac:(lia))).
    cbn [c_text char_at lookup list_lookup default from_option id Z.eqb]. rewrite split_lines_concat, app_nil_r. eauto.
  - rewrite <-app_assoc. destruct (split_header h (headers_text hs ++ rest) Hh) as (raw & Es & Ech).
    rewrite (parse_text_concat limit st _ _ _ Es). cbn [parse_lines hs_size hs_headers]. rewrite Ech.
    destruct (within_size limit st _ (length (kv_key h ++ [58; 32] ++ kv_value h)) Hw) as [Hlim Hnext].
    { rewrite length_app. unfold header_text. rewrite !length_app. lia. }
    rewrite Hlim.
    assert (0 ∉ kv_key h ++ [58; 32] ++ kv_value h) as H0.
    { destruct Hh as [K1 _ V1 _ _]. rewrite Forall_forall in K1, V1. rewrite !elem_of_app, !elem_of_cons.
      intros [Hin|[[?|[?|Hin]]|Hin]]; try lia; [by apply K1 in Hin; lia|by apply elem_of_nil in Hin|by apply V1 in Hin; lia]. }
    rewrite c_text_id by done.
    assert ((char_at (kv_key h ++ [58; 32] ++ kv_value h) 0 =? 0) = false) as ->.
    { apply Z.eqb_neq. destruct (kv_key h) as [|c k]; [done|]. cbn. set_solver. }
    rewrite header_line_plain by done. cbn [Z.eqb].
    set (n := u64 _) in *. clearbody n. destruct (IH (mk_hs (hs_headers st ++ [h]) n)) as (n' & E).
    { intros l Hl. destruct (Hnext (hs_headers st ++ [h]) l Hl) as [G1 G2]. split; [done|]. cbn [hs_size] in *. split; [|lia]. etransitivity; [|apply G2].
      apply Z.add_le_mono_l. unfold header_text. rewrite !length_app. cbn [length CRLF]. lia. }
    cbn [hs_headers] in E.
    exists n'. rewrite <-app_assoc in E. cbn [app] in E. unfold parse_text in E.
    destruct (split_lines (headers_text hs ++ rest)) as [ls r]. exact E.
Qed.

(** Writing headers to a stream. *)
Lemma write_headers_stream m hs out :
  stream_ok out → (∀ n, m n = true) → Forall (λ h, Z.of_nat (length (header_text h)) < INT_MAX) hs →
  stream_fits (length (content out) + length (headers_text hs) + MAX_TO_COPY_IN_EXPAND + 64) →
  ∃ out', write_headers m hs out = Some out' ∧ stream_ok out' ∧ content out' = content out ++ headers_text hs.
Proof.
  intros Hst Hm Hl. revert m out Hst Hm. induction Hl as [|h hs Hh _ IH]; intros m out Hst Hm Hf; cbn [write_headers headers_text] in *.
  - destruct (add_stream m CRLF out Hst Hm) as (o & -> & Hs & Hc); [unfold stream_fits in *; cbn in *; lia|].
    rewrite bind_some_eq. eauto.
  - rewrite length_app in Hf. destruct (printf_stream m (header_text h) out Hst Hm Hh) as (o & -> & Hs & Hc); [unfold stream_fits in *; lia|].
    rewrite bind_some_eq. destruct (IH (later_mallocs 4 m) o Hs) as (o' & -> & Hs' & Hc'); [intros; apply Hm|rewrite Hc, length_app; unfold stream_fits in *; lia|].
    exists o'. by rewrite Hc', Hc, <-app_assoc.
Qed.

(** Headers survive the wire: what [evhttp_make_header] writes for a list of
    plain headers, followed by anything, is read back by [evhttp_parse_headers_]
    as the same list in the same order, and exactly what follows the headers is
    left in the buffer. *)
Theorem headers_roundtrip m hs out inp rest :
  Forall plain_header hs → stream_ok out → stream_ok inp → (∀ n, m n = true) →
  Forall (λ h, Z.of_nat (length (header_text h)) < INT_MAX) hs →
  stream_fits (length (content out) + length (headers_text hs) + MAX_TO_COPY_IN_EXPAND + 64) →
  bf_total_len inp <= EV_SSIZE_MAX →
  ∃ out', write_headers m hs out = Some out' ∧ stream_ok out' ∧
    (content inp = drop (length (content out)) (content out') ++ rest →
     ∃ n inp', evhttp_parse_headers_ m None (mk_hs [] 0) inp = Some (ALL_DATA_READ, mk_hs hs n, inp') ∧
       stream_ok inp' ∧ content inp' = rest).
Proof.
  intros Hhs Ho Hi Hm Hl Hf Hmax. destruct (write_headers_stream m hs out Ho Hm Hl Hf) as (out' & Ew & Hs' & Hc').
  exists out'. split_and!; [done..|]. rewrite Hc', drop_app_length. intros Ein.
  destruct (parse_headers_ok m None (mk_hs [] 0) inp Hi Hmax Hm) as (status & st' & inp' & E & Hsi & P).
  destruct (parse_text_headers None hs (mk_hs [] 0) rest Hhs) as (n & E'); [done|]. rewrite Ein, E' in P.
  injection P as <- <- ->. exists n, inp'. done.
Qed.

(** ** A value that ends the headers *)

Lemma strpbrk_app set a c s : (∀ x, x ∈ a → x ∉ set) → c ∈ set → strpbrk set (a ++ c :: s) = Some (length a).
Proof.
  intros Ha Hc. induction a as [|x a IH]; cbn; [by rewrite bool_decide_true|].
  rewrite bool_decide_false by (apply Ha; set_solver). rewrite IH; [done|]. intros y Hy. apply Ha. set_solver.
Qed.

Lemma valid_value_break v t :
  Forall (λ c, c ≠ 0 ∧ c ≠ 10 ∧ c ≠ 13) v → Forall (λ c, c ≠ 0 ∧ c ≠ 10 ∧ c ≠ 13) t →
  evhttp_header_is_valid_value (v ++ CRLF ++ CRLF ++ 32 :: t) = true.
Proof.
  intros Hv Ht. unfold evhttp_header_is_valid_value. cbn [valid_value_loop CRLF app].
  rewrite (strpbrk_app [13; 10] v 13) by (try set_solver; intros x Hx; apply (proj1 (Forall_forall _ _) Hv) in Hx as (? & ? & ?); set_solver).
  rewrite drop_app_length. unfold skip_chars. cbn [Clib.span]. rewrite !bool_decide_true, bool_decide_false by set_solver.
  cbn [snd char_at lookup list_lookup default from_option id Z.eqb negb andb].
  rewrite length_app. cbn [length Nat.add]. rewrite Nat.add_comm. cbn [Nat.add valid_value_loop]. rewrite strpbrk_none; [done|].
  intros x [->|Hx]%elem_of_cons; [set_solver|]. apply (proj1 (Forall_forall _ _) Ht) in Hx as (? & ? & ?). set_solver.
Qed.

(** C27. A header value can end the headers early: [evhttp_add_header] accepts a
    value with an empty line in it as long as a space follows, although the check
    is there to refuse line breaks that are no continuation.  When the header is
    written, a reader takes the empty line for the end of the headers and the rest
    of the value, with all the headers after it, for the body. *)
Theorem header_value_ends_headers m h t hs inp rest :
  plain_header h → Forall (λ c, c ≠ 0 ∧ c ≠ 10 ∧ c ≠ 13) t → (∀ n, m n = true) →
  stream_ok inp → bf_total_len inp <= EV_SSIZE_MAX →
  let evil := mk_kv (kv_key h) (kv_value h ++ CRLF ++ CRLF ++ 32 :: t) in
  content inp = headers_text (evil :: hs) ++ rest →
  evhttp_add_header m [] (kv_key evil) (kv_value evil) = (0, [evil]) ∧
  ∃ n inp', evhttp_parse_headers_ m None (mk_hs [] 0) inp = Some (ALL_DATA_READ, mk_hs [h] n, inp') ∧
    content inp' = 32 :: t ++ CRLF ++ headers_text hs ++ rest.
Proof.
  intros Hh Ht Hm Hi Hmax evil Hc. split.
  - unfold evhttp_add_header. destruct (Hh) as [K1 _ V1 _ _]. cbn [kv_key kv_value evil].
    rewrite !strchr_none by (intros Hin; apply (proj1 (Forall_forall _ _) K1) in Hin; lia).
    rewrite !bool_decide_false by (by intros ?). cbn [orb]. rewrite valid_value_break by done.
    cbn [negb]. unfold evhttp_add_header_internal. by rewrite !Hm.
  - destruct (parse_headers_ok m None (mk_hs [] 0) inp Hi Hmax Hm) as (status & st' & inp' & E & _ & P).
    destruct (parse_text_headers None [h] (mk_hs [] 0) (32 :: t ++ CRLF ++ headers_text hs ++ rest)) as (n & E'); [by constructor|done|].
    assert (content inp = headers_text [h] ++ 32 :: t ++ CRLF ++ headers_text hs ++ rest) as Hc'.
    { rewrite Hc. cbn [headers_text]. unfold header_text, evil. cbn [kv_key kv_value]. by rewrite <-!app_assoc. }
    rewrite Hc', E' in P. injection P as <- <- P3. exists n, inp'. split; [done|]. symmetry. exact P3.
Qed.

(** ** Finding headers *)

(** The name of a header is looked up without regard to case. *)
Lemma find_header_same headers k1 k2 :
  c_string k1 → c_string k2 → Forall (λ h, c_string (kv_key h)) headers → same_name k1 k2 →
  evhttp_find_header headers k1 = evhttp_find_header headers k2.
Proof.
  intros H1 H2 Hh Hk. induction Hh as [|h headers Hc _ IH]; [done|]. cbn.
  assert ((evutil_ascii_strcasecmp (kv_key h) k1 =? 0) = (evutil_ascii_strcasecmp (kv_key h) k2 =? 0)) as ->; [|by rewrite IH].
  apply eq_bool_prop_intro. rewrite !Is_true_true, !Z.eqb_eq, !strcasecmp_zero by done. by rewrite Hk.
Qed.

Lemma find_header_app headers1 headers2 key :
  evhttp_find_header (headers1 ++ headers2) key =
  match evhttp_find_header headers1 key with Some v => Some v | None => evhttp_find_header headers2 key end.
Proof. induction headers1 as [|h headers1 IH]; cbn; [done|]. by destruct (_ =? 0). Qed.

(** [evhttp_remove_header] removes the header that [evhttp_find_header] finds, and
    no other. *)
Lemma remove_header_spec headers key :
  match evhttp_find_header headers key with
  | None => evhttp_remove_header headers key = (-1, headers)
  | Some v => ∃ a k b, headers = a ++ mk_kv k v :: b ∧ evhttp_remove_header headers key = (0, a ++ b) ∧
      evhttp_find_header a key = None ∧ evutil_ascii_strcasecmp k key = 0
  end.
Proof.
  induction headers as [|h headers IH]; cbn; [done|]. destruct (Z.eqb_spec (evutil_ascii_strcasecmp (kv_key h) key) 0) as [E|E].
  - exists [], (kv_key h), headers. split_and!; [by destruct h|done..].
  - destruct (evhttp_find_header headers key) as [v|].
    + destruct IH as (a & k & b & -> & -> & Hn & Hk). exists (h :: a), k, b. split_and!; [done|done| |done].
      cbn. by rewrite (proj2 (Z.eqb_neq _ _) E).
    + by rewrite IH.
Qed.
