(* ===== verification/HttpMsg.v ===== *)
(** * HTTP messages (http.c, http_struct.h)

    The first line of a request or a response, what the headers say of the body
    and of the connection, chunked bodies, and the messages that are written.
    A connection is reduced to what these functions use of it. *)

From S2P Require Import Prelude Clib Util.
From S2P Require Import BufferCore BufferMove BufferSearch BufferPrintf.
From S2P Require Import Uri HttpHeaders.

(** ** Requests *)

Inductive evhttp_request_kind := EVHTTP_REQUEST | EVHTTP_RESPONSE.

Inductive evhttp_cmd_type :=
  | EVHTTP_REQ_GET | EVHTTP_REQ_POST | EVHTTP_REQ_HEAD | EVHTTP_REQ_PUT | EVHTTP_REQ_DELETE
  | EVHTTP_REQ_OPTIONS | EVHTTP_REQ_TRACE | EVHTTP_REQ_CONNECT | EVHTTP_REQ_PATCH | EVHTTP_REQ_UNKNOWN_.

#[export] Instance evhttp_request_kind_eq_dec : EqDecision evhttp_request_kind.
Proof. solve_decision. Defined.
#[export] Instance evhttp_cmd_type_eq_dec : EqDecision evhttp_cmd_type.
Proof. solve_decision. Defined.

Abbreviation EVHTTP_PROXY_REQUEST := 2.
Abbreviation EVHTTP_REQ_DEFER_FREE := 8.
Abbreviation EVHTTP_REQ_NEEDS_FREE := 16.

Record evhttp_request := mk_req {
  rq_kind : evhttp_request_kind;
  rq_type : evhttp_cmd_type;
  rq_flags : Z;
  rq_input_headers : evkeyvalq;
  rq_output_headers : evkeyvalq;
  rq_headers_size : Z;
  rq_body_size : Z;
  rq_uri : option bytes;
  rq_uri_elems : option evhttp_uri;
  rq_major : Z;
  rq_minor : Z;
  rq_response_code : Z;
  rq_response_code_line : option bytes;
  rq_input_buffer : evbuffer;
  rq_ntoread : Z;
  rq_chunked : bool;
  rq_userdone : bool;
  rq_output_buffer : evbuffer
}.

Definition set_rq_kind (v : evhttp_request_kind) (r : evhttp_request) : evhttp_request :=
  mk_req v (rq_type r) (rq_flags r) (rq_input_headers r) (rq_output_headers r)
    (rq_headers_size r) (rq_body_size r) (rq_uri r) (rq_uri_elems r) (rq_major r) (rq_minor r)
    (rq_response_code r) (rq_response_code_line r) (rq_input_buffer r) (rq_ntoread r)
    (rq_chunked r) (rq_userdone r) (rq_output_buffer r).
Definition set_rq_type (v : evhttp_cmd_type) (r : evhttp_request) : evhttp_request :=
  mk_req (rq_kind r) v (rq_flags r) (rq_input_headers r) (rq_output_headers r)
    (rq_headers_size r) (rq_body_size r) (rq_uri r) (rq_uri_elems r) (rq_major r) (rq_minor r)
    (rq_response_code r) (rq_response_code_line r) (rq_input_buffer r) (rq_ntoread r)
    (rq_chunked r) (rq_userdone r) (rq_output_buffer r).
Definition set_rq_flags (v : Z) (r : evhttp_request) : evhttp_request :=
  mk_req (rq_kind r) (rq_type r) v (rq_input_headers r) (rq_output_headers r)
    (rq_headers_size r) (rq_body_size r) (rq_uri r) (rq_uri_elems r) (rq_major r) (rq_minor r)
    (rq_response_code r) (rq_response_code_line r) (rq_input_buffer r) (rq_ntoread r)
    (rq_chunked r) (rq_userdone r) (rq_output_buffer r).
Definition set_rq_input_headers (v : evkeyvalq) (r : evhttp_request) : evhttp_request :=
  mk_req (rq_kind r) (rq_type r) (rq_flags r) v (rq_output_headers r) (rq_headers_size r)
    (rq_body_size r) (rq_uri r) (rq_uri_elems r) (rq_major r) (rq_minor r) (rq_response_code r)
    (rq_response_code_line r) (rq_input_buffer r) (rq_ntoread r) (rq_chunked r) (rq_userdone r)
    (rq_output_buffer r).
Definition set_rq_output_headers (v : evkeyvalq) (r : evhttp_request) : evhttp_request :=
  mk_req (rq_kind r) (rq_type r) (rq_flags r) (rq_input_headers r) v (rq_headers_size r)
    (rq_body_size r) (rq_uri r) (rq_uri_elems r) (rq_major r) (rq_minor r) (rq_response_code r)
    (rq_response_code_line r) (rq_input_buffer r) (rq_ntoread r) (rq_chunked r) (rq_userdone r)
    (rq_output_buffer r).
Definition set_rq_headers_size (v : Z) (r : evhttp_request) : evhttp_request :=
  mk_req (rq_kind r) (rq_type r) (rq_flags r) (rq_input_headers r) (rq_output_headers r) v
    (rq_body_size r) (rq_uri r) (rq_uri_elems r) (rq_major r) (rq_minor r) (rq_response_code r)
    (rq_response_code_line r) (rq_input_buffer r) (rq_ntoread r) (rq_chunked r) (rq_userdone r)
    (rq_output_buffer r).
Definition set_rq_body_size (v : Z) (r : evhttp_request) : evhttp_request :=
  mk_req (rq_kind r) (rq_type r) (rq_flags r) (rq_input_headers r) (rq_output_headers r)
    (rq_headers_size r) v (rq_uri r) (rq_uri_elems r) (rq_major r) (rq_minor r)
    (rq_response_code r) (rq_response_code_line r) (rq_input_buffer r) (rq_ntoread r)
    (rq_chunked r) (rq_userdone r) (rq_output_buffer r).
Definition set_rq_uri (v : option bytes) (r : evhttp_request) : evhttp_request :=
  mk_req (rq_kind r) (rq_type r) (rq_flags r) (rq_input_headers r) (rq_output_headers r)
    (rq_headers_size r) (rq_body_size r) v (rq_uri_elems r) (rq_major r) (rq_minor r)
    (rq_response_code r) (rq_response_code_line r) (rq_input_buffer r) (rq_ntoread r)
    (rq_chunked r) (rq_userdone r) (rq_output_buffer r).
Definition set_rq_uri_elems (v : option evhttp_uri) (r : evhttp_request) : evhttp_request :=
  mk_req (rq_kind r) (rq_type r) (rq_flags r) (rq_input_headers r) (rq_output_headers r)
    (rq_headers_size r) (rq_body_size r) (rq_uri r) v (rq_major r) (rq_minor r)
    (rq_response_code r) (rq_response_code_line r) (rq_input_buffer r) (rq_ntoread r)
    (rq_chunked r) (rq_userdone r) (rq_output_buffer r).
Definition set_rq_major (v : Z) (r : evhttp_request) : evhttp_request :=
  mk_req (rq_kind r) (rq_type r) (rq_flags r) (rq_input_headers r) (rq_output_headers r)
    (rq_headers_size r) (rq_body_size r) (rq_uri r) (rq_uri_elems r) v (rq_minor r)
    (rq_response_code r) (rq_response_code_line r) (rq_input_buffer r) (rq_ntoread r)
    (rq_chunked r) (rq_userdone r) (rq_output_buffer r).
Definition set_rq_minor (v : Z) (r : evhttp_request) : evhttp_request :=
  mk_req (rq_kind r) (rq_type r) (rq_flags r) (rq_input_headers r) (rq_output_headers r)
    (rq_headers_size r) (rq_body_size r) (rq_uri r) (rq_uri_elems r) (rq_major r) v
    (rq_response_code r) (rq_response_code_line r) (rq_input_buffer r) (rq_ntoread r)
    (rq_chunked r) (rq_userdone r) (rq_output_buffer r).
Definition set_rq_response_code (v : Z) (r : evhttp_request) : evhttp_request :=
  mk_req (rq_kind r) (rq_type r) (rq_flags r) (rq_input_headers r) (rq_output_headers r)
    (rq_headers_size r) (rq_body_size r) (rq_uri r) (rq_uri_elems r) (rq_major r) (rq_minor r) v
    (rq_response_code_line r) (rq_input_buffer r) (rq_ntoread r) (rq_chunked r) (rq_userdone r)
    (rq_output_buffer r).
Definition set_rq_response_code_line (v : option bytes) (r : evhttp_request) : evhttp_request :=
  mk_req (rq_kind r) (rq_type r) (rq_flags r) (rq_input_headers r) (rq_output_headers r)
    (rq_headers_size r) (rq_body_size r) (rq_uri r) (rq_uri_elems r) (rq_major r) (rq_minor r)
    (rq_response_code r) v (rq_input_buffer r) (rq_ntoread r) (rq_chunked r) (rq_userdone r)
    (rq_output_buffer r).
Definition set_rq_input_buffer (v : evbuffer) (r : evhttp_request) : evhttp_request :=
  mk_req (rq_kind r) (rq_type r) (rq_flags r) (rq_input_headers r) (rq_output_headers r)
    (rq_headers_size r) (rq_body_size r) (rq_uri r) (rq_uri_elems r) (rq_major r) (rq_minor r)
    (rq_response_code r) (rq_response_code_line r) v (rq_ntoread r) (rq_chunked r)
    (rq_userdone r) (rq_output_buffer r).
Definition set_rq_ntoread (v : Z) (r : evhttp_request) : evhttp_request :=
  mk_req (rq_kind r) (rq_type r) (rq_flags r) (rq_input_headers r) (rq_output_headers r)
    (rq_headers_size r) (rq_body_size r) (rq_uri r) (rq_uri_elems r) (rq_major r) (rq_minor r)
    (rq_response_code r) (rq_response_code_line r) (rq_input_buffer r) v (rq_chunked r)
    (rq_userdone r) (rq_output_buffer r).
Definition set_rq_chunked (v : bool) (r : evhttp_request) : evhttp_request :=
  mk_req (rq_kind r) (rq_type r) (rq_flags r) (rq_input_headers r) (rq_output_headers r)
    (rq_headers_size r) (rq_body_size r) (rq_uri r) (rq_uri_elems r) (rq_major r) (rq_minor r)
    (rq_response_code r) (rq_response_code_line r) (rq_input_buffer r) (rq_ntoread r) v
    (rq_userdone r) (rq_output_buffer r).
Definition set_rq_userdone (v : bool) (r : evhttp_request) : evhttp_request :=
  mk_req (rq_kind r) (rq_type r) (rq_flags r) (rq_input_headers r) (rq_output_headers r)
    (rq_headers_size r) (rq_body_size r) (rq_uri r) (rq_uri_elems r) (rq_major r) (rq_minor r)
    (rq_response_code r) (rq_response_code_line r) (rq_input_buffer r) (rq_ntoread r)
    (rq_chunked r) v (rq_output_buffer r).
Definition set_rq_output_buffer (v : evbuffer) (r : evhttp_request) : evhttp_request :=
  mk_req (rq_kind r) (rq_type r) (rq_flags r) (rq_input_headers r) (rq_output_headers r)
    (rq_headers_size r) (rq_body_size r) (rq_uri r) (rq_uri_elems r) (rq_major r) (rq_minor r)
    (rq_response_code r) (rq_response_code_line r) (rq_input_buffer r) (rq_ntoread r)
    (rq_chunked r) (rq_userdone r) v.

Abbreviation text := bytes_of_string.

(** A string constant of the source. *)
Definition evhttp_method (type : evhttp_cmd_type) : option bytes :=
  match type with
  | EVHTTP_REQ_GET => Some (text "GET")
  | EVHTTP_REQ_POST => Some (text "POST")
  | EVHTTP_REQ_HEAD => Some (text "HEAD")
  | EVHTTP_REQ_PUT => Some (text "PUT")
  | EVHTTP_REQ_DELETE => Some (text "DELETE")
  | EVHTTP_REQ_OPTIONS => Some (text "OPTIONS")
  | EVHTTP_REQ_TRACE => Some (text "TRACE")
  | EVHTTP_REQ_CONNECT => Some (text "CONNECT")
  | EVHTTP_REQ_PATCH => Some (text "PATCH")
  | EVHTTP_REQ_UNKNOWN_ => None
  end.

(** ** The first line *)

(** [%d] of [sscanf] *)
Definition scan_d (s : bytes) : option (Z * bytes) :=
  '(neg, ds, rest) ← scan_number 10 s;
  let v := number 10 ds in
  Some (i32 (if (neg : bool) then Z.max (- LONG_MAX - 1) (- v) else Z.min LONG_MAX v), rest).

(** [s] after the literal [lit]. *)
Fixpoint after_literal (lit s : bytes) : option bytes :=
  match lit, s with
  | [], _ => Some s
  | c :: lit, d :: s => if c =? d then after_literal lit s else None
  | _ :: _, [] => None
  end.

(** [sscanf(version, "HTTP/%d.%d%c", &major, &minor, &ch) == 2] and the numbers. *)
Definition sscanf_version (version : bytes) : option (Z * Z) :=
  s ← after_literal (text "HTTP/") version;
  '(major, s) ← scan_d s;
  s ← after_literal [46] s;
  '(minor, s) ← scan_d s;
  match s with [] => Some (major, minor) | _ => None end.

Definition evhttp_parse_http_version (version : bytes) (req : evhttp_request) : Z * evhttp_request :=
  match sscanf_version version with
  | None => (-1, req)
  | Some (major, minor) =>
    if 1 <? major then (-1, req) else (0, set_rq_minor (schar minor) (set_rq_major (schar major) req))
  end.

Definition evhttp_valid_response_code (code : Z) : bool := negb (code =? 0).

Definition evhttp_parse_response_line (strdup_ok : bool) (req : evhttp_request) (line : bytes) : Z * evhttp_request :=
  let '(protocol, line) := strsep 32 line in
  match line with
  | None => (-1, req)
  | Some line =>
    let '(number, line) := strsep 32 line in
    let readable := default [] line in
    let '(r, req) := evhttp_parse_http_version protocol req in
    if r <? 0 then (-1, req)
    else
      let req := set_rq_response_code (atoi number) req in
      if negb (evhttp_valid_response_code (rq_response_code req)) then (-1, req)
      else if negb strdup_ok then (-1, set_rq_response_code_line None req)
      else (0, set_rq_response_code_line (Some readable) req)
  end.

(** The switch over the length of the method and its first character; in the
    first case the last character is looked at before. *)
Definition parse_method (method : bytes) : evhttp_cmd_type :=
  let c i := char_at method i in
  let n := length method in
  if Nat.eqb n 3 then
    if negb (c 2%nat =? 84) then EVHTTP_REQ_UNKNOWN_
    else if c 0%nat =? 71 then (if c 1%nat =? 69 then EVHTTP_REQ_GET else EVHTTP_REQ_UNKNOWN_)
    else if c 0%nat =? 80 then (if c 1%nat =? 85 then EVHTTP_REQ_PUT else EVHTTP_REQ_UNKNOWN_)
    else EVHTTP_REQ_UNKNOWN_
  else if Nat.eqb n 4 then
    if c 0%nat =? 80 then
      (if (c 3%nat =? 84) && (c 2%nat =? 83) && (c 1%nat =? 79) then EVHTTP_REQ_POST else EVHTTP_REQ_UNKNOWN_)
    else if c 0%nat =? 72 then
      (if (c 3%nat =? 68) && (c 2%nat =? 65) && (c 1%nat =? 69) then EVHTTP_REQ_HEAD else EVHTTP_REQ_UNKNOWN_)
    else EVHTTP_REQ_UNKNOWN_
  else if Nat.eqb n 5 then
    if c 0%nat =? 80 then
      (if (c 4%nat =? 72) && (c 3%nat =? 67) && (c 2%nat =? 84) && (c 1%nat =? 65) then EVHTTP_REQ_PATCH
       else EVHTTP_REQ_UNKNOWN_)
    else if c 0%nat =? 84 then
      (if (c 4%nat =? 69) && (c 3%nat =? 67) && (c 2%nat =? 65) && (c 1%nat =? 82) then EVHTTP_REQ_TRACE
       else EVHTTP_REQ_UNKNOWN_)
    else EVHTTP_REQ_UNKNOWN_
  else if Nat.eqb n 6 then
    if negb (c 0%nat =? 68) then EVHTTP_REQ_UNKNOWN_
    else if (c 5%nat =? 69) && (c 4%nat =? 84) && (c 3%nat =? 69) && (c 2%nat =? 76) && (c 1%nat =? 69)
    then EVHTTP_REQ_DELETE else EVHTTP_REQ_UNKNOWN_
  else if Nat.eqb n 7 then
    if c 0%nat =? 79 then
      (if (c 6%nat =? 83) && (c 5%nat =? 78) && (c 4%nat =? 79) && (c 3%nat =? 73) && (c 2%nat =? 84) && (c 1%nat =? 80)
       then EVHTTP_REQ_OPTIONS else EVHTTP_REQ_UNKNOWN_)
    else if c 0%nat =? 67 then
      (if (c 6%nat =? 84) && (c 5%nat =? 67) && (c 4%nat =? 69) && (c 3%nat =? 78) && (c 2%nat =? 78) && (c 1%nat =? 79)
       then EVHTTP_REQ_CONNECT else EVHTTP_REQ_UNKNOWN_)
    else EVHTTP_REQ_UNKNOWN_
  else EVHTTP_REQ_UNKNOWN_.

(** ** Virtual hosts *)

Fixpoint prefix_suffix_match (pattern name : bytes) (ignorecase : bool) : bool :=
  match pattern with
  | [] => bool_decide (name = [])
  | c :: pattern =>
    if c =? 42 then
      (fix try_from (name : bytes) : bool :=
         match name with
         | [] => false
         | _ :: name' => if prefix_suffix_match pattern name ignorecase then true else try_from name'
         end) name
    else
      let d := char_at name 0 in
      if negb (c =? d) && (negb ignorecase || negb (EVUTIL_TOLOWER_ c =? EVUTIL_TOLOWER_ d)) then false
      else prefix_suffix_match pattern (drop 1 name) ignorecase
  end.

(** A server with its pattern, if it is a virtual host, its aliases and its own
    virtual hosts. *)
Inductive evhttp := mk_evhttp {
  vhost_pattern : bytes;
  aliases : list bytes;
  virtualhosts : list evhttp
}.

Fixpoint evhttp_find_alias (http : evhttp) (hostname : bytes) : option evhttp :=
  match http with
  | mk_evhttp _ aliases vhosts =>
    if existsb (λ a, evutil_ascii_strcasecmp a hostname =? 0) aliases then Some http
    else
      (fix search (l : list evhttp) : option evhttp :=
         match l with
         | [] => None
         | vhost :: l => match evhttp_find_alias vhost hostname with Some h => Some h | None => search l end
         end) vhosts
  end.

(** The loop that descends into the first virtual host that matches. *)
Fixpoint find_pattern (http : evhttp) (hostname : bytes) : bool * evhttp :=
  match http with
  | mk_evhttp _ _ vhosts =>
    (fix search (l : list evhttp) : bool * evhttp :=
       match l with
       | [] => (false, http)
       | vhost :: l =>
         if prefix_suffix_match (vhost_pattern vhost) hostname true then (true, snd (find_pattern vhost hostname))
         else search l
       end) vhosts
  end.

(** Whether there is a match, and [*outhttp]. *)
Definition evhttp_find_vhost (http : evhttp) (hostname : bytes) : bool * evhttp :=
  match evhttp_find_alias http hostname with
  | Some h => (true, h)
  | None => find_pattern http hostname
  end.

(** [http] is the server of the connection, if the request has one ([None] is NULL, which
    is followed for absolute URIs); [strdup_ok] the copy of the URI. *)
Definition evhttp_parse_request_line (mem : uri_alloc → bool) (strdup_ok : bool) (http : option evhttp) (req : evhttp_request)
    (line : bytes) : option (Z * evhttp_request) :=
  let '(method, line) := strsep 32 line in
  match line with
  | None => Some (-1, req)
  | Some line =>
    let '(uri, line) := strsep 32 line in
    match line with
    | None => Some (-1, req)
    | Some line =>
      let '(version, line) := strsep 32 line in
      match line with
      | Some _ => Some (-1, req)
      | None =>
        let req := set_rq_type (parse_method method) req in
        let '(r, req) := evhttp_parse_http_version version req in
        if r <? 0 then Some (-1, req)
        else if negb strdup_ok then Some (-1, set_rq_uri None req)
        else
          let req := set_rq_uri (Some uri) req in
          elems ← evhttp_uri_parse_with_flags mem uri EVHTTP_URI_NONCONFORMANT;
          let req := set_rq_uri_elems elems req in
          match elems with
          | None => Some (-1, req)
          | Some elems =>
            match uri_scheme elems, uri_host elems with
            | Some scheme, Some hostname =>
              if (evutil_ascii_strcasecmp scheme (text "http") =? 0) ||
                 (evutil_ascii_strcasecmp scheme (text "https") =? 0)
              then
                http ← http;
                Some (0, if negb (fst (evhttp_find_vhost http hostname))
                         then set_rq_flags (Z.lor (rq_flags req) EVHTTP_PROXY_REQUEST) req else req)
              else Some (0, req)
            | _, _ => Some (0, req)
            end
          end
      end
    end
  end.

(** [con] is the [max_headers_size] and the server of the connection, when the request
    has one; the first allocation is that of the line. *)
Definition evhttp_parse_firstline_ (mem : uri_alloc → bool) (m : mallocs) (con : option (Z * evhttp))
    (req : evhttp_request) (buffer : evbuffer) : option (message_read_status * evhttp_request * evbuffer) :=
  '(line, buffer) ← evbuffer_readln (m 0%nat) EVBUFFER_EOL_CRLF buffer;
  match line with
  | None =>
    Some (if match con with Some (l, _) => l <? evbuffer_get_length buffer | None => false end then DATA_TOO_LONG
          else MORE_DATA_EXPECTED, req, buffer)
  | Some raw =>
    if match con with Some (l, _) => l <? Z.of_nat (length raw) | None => false end then Some (DATA_TOO_LONG, req, buffer)
    else
      let req := set_rq_headers_size (Z.of_nat (length raw)) req in
      '(r, req) ← match rq_kind req with
                  | EVHTTP_REQUEST => evhttp_parse_request_line mem (m 1%nat) (snd <$> con) req (c_text raw)
                  | EVHTTP_RESPONSE => Some (evhttp_parse_response_line (m 1%nat) req (c_text raw))
                  end;
      Some (if r =? -1 then DATA_CORRUPTED else ALL_DATA_READ, req, buffer)
  end.

(** ** What the headers say *)

Definition REQ_VERSION_BEFORE (req : evhttp_request) (major_v minor_v : Z) : bool :=
  (rq_major req <? major_v) || ((rq_major req =? major_v) && (rq_minor req <? minor_v)).
Definition REQ_VERSION_ATLEAST (req : evhttp_request) (major_v minor_v : Z) : bool :=
  (major_v <? rq_major req) || ((rq_major req =? major_v) && (minor_v <=? rq_minor req)).

Definition evhttp_response_needs_body (req : evhttp_request) : bool :=
  negb (rq_response_code req =? 204) && negb (rq_response_code req =? 304) &&
  ((rq_response_code req <? 100) || (200 <=? rq_response_code req)) && negb (bool_decide (rq_type req = EVHTTP_REQ_HEAD)).

Definition evhttp_is_connection_close (flags : Z) (headers : evkeyvalq) : bool :=
  if flags &? EVHTTP_PROXY_REQUEST then
    match evhttp_find_header headers (text "Proxy-Connection") with
    | None => true
    | Some connection => negb (evutil_ascii_strcasecmp connection (text "keep-alive") =? 0)
    end
  else
    match evhttp_find_header headers (text "Connection") with
    | None => false
    | Some connection => evutil_ascii_strcasecmp connection (text "close") =? 0
    end.

Definition evhttp_is_request_connection_close (req : evhttp_request) : bool :=
  evhttp_is_connection_close (rq_flags req) (rq_input_headers req) ||
  evhttp_is_connection_close (rq_flags req) (rq_output_headers req).

Definition evhttp_is_connection_keepalive (headers : evkeyvalq) : bool :=
  match evhttp_find_header headers (text "Connection") with
  | None => false
  | Some connection => evutil_ascii_strncasecmp connection (text "keep-alive") 10 =? 0
  end.

Inductive expect := NO | CONTINUE | OTHER.

Definition evhttp_have_expect (req : evhttp_request) (input : bool) : expect :=
  let h := if input then rq_input_headers req else rq_output_headers req in
  match rq_kind req with
  | EVHTTP_RESPONSE => NO
  | EVHTTP_REQUEST =>
    if negb (REQ_VERSION_ATLEAST req 1 1) then NO
    else match evhttp_find_header h (text "Expect") with
         | None => NO
         | Some e => if evutil_ascii_strcasecmp e (text "100-continue") =? 0 then CONTINUE else OTHER
         end
  end.

Definition evhttp_get_body_length (req : evhttp_request) : Z * evhttp_request :=
  let headers := rq_input_headers req in
  match evhttp_find_header headers (text "Content-Length"), evhttp_find_header headers (text "Connection") with
  | None, None => (0, set_rq_ntoread (-1) req)
  | None, Some connection =>
    (0, set_rq_ntoread (if evutil_ascii_strcasecmp connection (text "Close") =? 0 then -1 else 0) req)
  | Some content_length, _ =>
    let '(ntoread, endp) := evutil_strtoll content_length 10 in
    if (char_at content_length 0 =? 0) || negb (char_at endp 0 =? 0) || (ntoread <? 0) then (-1, req)
    else (0, set_rq_ntoread ntoread req)
  end.

Definition evhttp_method_may_have_body (type : evhttp_cmd_type) : bool :=
  match type with
  | EVHTTP_REQ_POST | EVHTTP_REQ_PUT | EVHTTP_REQ_PATCH
  | EVHTTP_REQ_GET | EVHTTP_REQ_DELETE | EVHTTP_REQ_OPTIONS | EVHTTP_REQ_CONNECT => true
  | EVHTTP_REQ_TRACE | EVHTTP_REQ_HEAD | EVHTTP_REQ_UNKNOWN_ => false
  end.

(** ** Chunked bodies *)

Section chunked.
Context {W : Type}.
(** The callback for a chunk, if there is one, acts on the request and on the
    state of its user. *)
Context (chunk_cb : option (W → evhttp_request → option (W * evhttp_request))).

(** Whether a line is no size of a chunk. *)
Definition chunk_size_error (p endp : bytes) (ntoread : Z) : bool :=
  (char_at p 0 =? 0) || (negb (char_at endp 0 =? 0) && negb (char_at endp 0 =? 32)) || (ntoread <? 0).

(** What follows a complete chunk. *)
Definition chunk_done (w : W) (req : evhttp_request) : option (W * evhttp_request * bool) :=
  match chunk_cb with
  | None => Some (w, req, false)
  | Some cb =>
    '(w, req) ← cb w (set_rq_flags (Z.lor (rq_flags req) EVHTTP_REQ_DEFER_FREE) req);
    '(_, input) ← evbuffer_drain (evbuffer_get_length (rq_input_buffer req)) (rq_input_buffer req);
    let req := set_rq_flags (Z.land (rq_flags req) (Z.lnot EVHTTP_REQ_DEFER_FREE)) (set_rq_input_buffer input req) in
    Some (w, req, rq_flags req &? EVHTTP_REQ_NEEDS_FREE)
  end.

(** Every round takes a line or a chunk off the buffer, or ends a chunk of size
    0 and then takes a line. *)
Fixpoint chunked_loop (fuel : nat) (m : mallocs) (max_body_size : Z) (w : W) (req : evhttp_request) (buf : evbuffer) :
    option (message_read_status * W * evhttp_request * evbuffer) :=
  match fuel with
  | O => None
  | S fuel =>
    let buflen := evbuffer_get_length buf in
    if buflen =? 0 then Some (MORE_DATA_EXPECTED, w, req, buf)
    else if EV_SSIZE_MAX <? buflen then Some (DATA_CORRUPTED, w, req, buf)
    else if rq_ntoread req <? 0 then
      '(line, buf) ← evbuffer_readln (m 0%nat) EVBUFFER_EOL_CRLF buf;
      match line with
      | None => Some (MORE_DATA_EXPECTED, w, req, buf)
      | Some raw =>
        let p := c_text raw in
        if Nat.eqb (length p) 0 then chunked_loop fuel (later_mallocs 1 m) max_body_size w req buf
        else
          let '(ntoread, endp) := evutil_strtoll p 16 in
          if chunk_size_error p endp ntoread then Some (DATA_CORRUPTED, w, req, buf)
          else if EV_SIZE_MAX - rq_body_size req <? ntoread then Some (DATA_CORRUPTED, w, req, buf)
          else if max_body_size <? u64 (rq_body_size req + ntoread) then Some (DATA_TOO_LONG, w, req, buf)
          else
            let req := set_rq_ntoread ntoread (set_rq_body_size (u64 (rq_body_size req + ntoread)) req) in
            if ntoread =? 0 then Some (ALL_DATA_READ, w, req, buf)
            else chunked_loop fuel (later_mallocs 1 m) max_body_size w req buf
      end
    else if EV_SSIZE_MAX <? rq_ntoread req then Some (DATA_CORRUPTED, w, req, buf)
    else if (0 <? rq_ntoread req) && (buflen <? rq_ntoread req) then Some (MORE_DATA_EXPECTED, w, req, buf)
    else
      '(_, input, buf) ← evbuffer_remove_buffer m buf (rq_input_buffer req) (rq_ntoread req);
      '(w, req, cancelled) ← chunk_done w (set_rq_ntoread (-1) (set_rq_input_buffer input req));
      if (cancelled : bool) then Some (REQUEST_CANCELED, w, req, buf)
      else chunked_loop fuel (later_mallocs 4 m) max_body_size w req buf
  end.

Definition evhttp_handle_chunked_read (m : mallocs) (max_body_size : Z) (w : W) (req : evhttp_request) (buf : evbuffer) :
    option (message_read_status * W * evhttp_request * evbuffer) :=
  chunked_loop (2 * Z.to_nat (evbuffer_get_length buf) + 2) m max_body_size w req buf.
End chunked.

(** ** Writing messages *)

Inductive evhttp_connection_state :=
  | EVCON_DISCONNECTED | EVCON_CONNECTING | EVCON_IDLE | EVCON_READING_FIRSTLINE | EVCON_READING_HEADERS
  | EVCON_READING_BODY | EVCON_READING_TRAILER | EVCON_WRITING.

(** What a connection calls when its output was written. *)
Inductive evcon_cb := evhttp_send_done | evhttp_write_connectioncb | evhttp_send_continue_done | user_cb (id : Z).

Abbreviation EV_READ := 2.
Abbreviation EV_WRITE := 4.

(** Of the bufferevent: its output, whether its read callback is set, and the
    directions that are enabled. *)
Record evhttp_connection := mk_con {
  con_state : evhttp_connection_state;
  con_flags : Z;
  con_max_headers_size : Z;
  con_max_body_size : Z;
  con_cb : option evcon_cb;
  con_output : evbuffer;
  con_readcb : bool;
  con_enabled : Z
}.

Definition set_con_state (v : evhttp_connection_state) (r : evhttp_connection) : evhttp_connection :=
  mk_con v (con_flags r) (con_max_headers_size r) (con_max_body_size r) (con_cb r)
    (con_output r) (con_readcb r) (con_enabled r).
Definition set_con_flags (v : Z) (r : evhttp_connection) : evhttp_connection :=
  mk_con (con_state r) v (con_max_headers_size r) (con_max_body_size r) (con_cb r)
    (con_output r) (con_readcb r) (con_enabled r).
Definition set_con_max_headers_size (v : Z) (r : evhttp_connection) : evhttp_connection :=
  mk_con (con_state r) (con_flags r) v (con_max_body_size r) (con_cb r) (con_output r)
    (con_readcb r) (con_enabled r).
Definition set_con_max_body_size (v : Z) (r : evhttp_connection) : evhttp_connection :=
  mk_con (con_state r) (con_flags r) (con_max_headers_size r) v (con_cb r) (con_output r)
    (con_readcb r) (con_enabled r).
Definition set_con_cb (v : option evcon_cb) (r : evhttp_connection) : evhttp_connection :=
  mk_con (con_state r) (con_flags r) (con_max_headers_size r) (con_max_body_size r) v
    (con_output r) (con_readcb r) (con_enabled r).
Definition set_con_output (v : evbuffer) (r : evhttp_connection) : evhttp_connection :=
  mk_con (con_state r) (con_flags r) (con_max_headers_size r) (con_max_body_size r) (con_cb r) v
    (con_readcb r) (con_enabled r).
Definition set_con_readcb (v : bool) (r : evhttp_connection) : evhttp_connection :=
  mk_con (con_state r) (con_flags r) (con_max_headers_size r) (con_max_body_size r) (con_cb r)
    (con_output r) v (con_enabled r).
Definition set_con_enabled (v : Z) (r : evhttp_connection) : evhttp_connection :=
  mk_con (con_state r) (con_flags r) (con_max_headers_size r) (con_max_body_size r) (con_cb r)
    (con_output r) (con_readcb r) v.

Definition enable_bufev (what : Z) (evcon : evhttp_connection) : evhttp_connection :=
  set_con_enabled (Z.lor (con_enabled evcon) what) evcon.

Definition evhttp_write_buffer (evcon : evhttp_connection) (cb : option evcon_cb) : evhttp_connection :=
  enable_bufev (Z.lor EV_READ EV_WRITE) (set_con_readcb false (set_con_cb cb evcon)).

Definition evhttp_connected (evcon : evhttp_connection) : bool :=
  match con_state evcon with EVCON_DISCONNECTED | EVCON_CONNECTING => false | _ => true end.

Definition version_text (req : evhttp_request) : bytes :=
  text "HTTP/" ++ print_d (rq_major req) ++ [46] ++ print_d (rq_minor req).

Definition evhttp_send_continue (m : mallocs) (evcon : evhttp_connection) (req : evhttp_request) : option evhttp_connection :=
  let evcon := enable_bufev EV_WRITE evcon in
  '(_, output) ← evbuffer_add_printf m (version_text req ++ text " 100 Continue" ++ CRLF ++ CRLF) (con_output evcon);
  Some (set_con_readcb true (set_con_cb (Some evhttp_send_continue_done) (set_con_output output evcon))).

(** A size printed in a buffer of 22 bytes. *)
Definition size_text (n : Z) : bytes := default [] (fst (evutil_snprintf 22 (print_u 10 n))).

(** The results of adding headers are not looked at. *)
Definition add_output_header (m : mallocs) (req : evhttp_request) (key value : bytes) : evhttp_request :=
  set_rq_output_headers (snd (evhttp_add_header m (rq_output_headers req) key value)) req.
Definition remove_output_header (req : evhttp_request) (key : bytes) : evhttp_request :=
  set_rq_output_headers (snd (evhttp_remove_header (rq_output_headers req) key)) req.

Definition evhttp_make_header_request (m : mallocs) (evcon : evhttp_connection) (req : evhttp_request) :
    option (evhttp_connection * evhttp_request) :=
  let req := remove_output_header req (text "Proxy-Connection") in
  let method := default (text "NULL") (evhttp_method (rq_type req)) in
  uri ← rq_uri req;
  '(_, output) ← evbuffer_add_printf m (method ++ [32] ++ uri ++ [32] ++ version_text req ++ CRLF) (con_output evcon);
  let evcon := set_con_output output evcon in
  Some (evcon,
    if (bool_decide (rq_type req = EVHTTP_REQ_POST) || bool_decide (rq_type req = EVHTTP_REQ_PUT)) &&
       bool_decide (evhttp_find_header (rq_output_headers req) (text "Content-Length") = None)
    then add_output_header (later_mallocs 4 m) req (text "Content-Length")
           (size_text (evbuffer_get_length (rq_output_buffer req)))
    else req).

(** [date] is the text of [evutil_date_rfc1123] for the current time. *)
Definition evhttp_maybe_add_date_header (m : mallocs) (date : bytes) (req : evhttp_request) : evhttp_request :=
  match evhttp_find_header (rq_output_headers req) (text "Date") with
  | Some _ => req
  | None => add_output_header m req (text "Date") date
  end.

Definition evhttp_maybe_add_content_length_header (m : mallocs) (req : evhttp_request) (content_length : Z) : evhttp_request :=
  match evhttp_find_header (rq_output_headers req) (text "Transfer-Encoding"),
        evhttp_find_header (rq_output_headers req) (text "Content-Length") with
  | None, None => add_output_header m req (text "Content-Length") (size_text content_length)
  | _, _ => req
  end.

(** The headers a response gets before it is written. *)
Definition complete_response (m : mallocs) (date : bytes) (default_content_type : option bytes) (req : evhttp_request) :
    evhttp_request :=
  let is_keepalive := evhttp_is_connection_keepalive (rq_input_headers req) in
  let req :=
    if rq_major req =? 1 then
      let req := if 1 <=? rq_minor req then evhttp_maybe_add_date_header m date req else req in
      let req := if (rq_minor req =? 0) && is_keepalive
                 then add_output_header (later_mallocs 4 m) req (text "Connection") (text "keep-alive") else req in
      if ((1 <=? rq_minor req) || is_keepalive) && evhttp_response_needs_body req
      then evhttp_maybe_add_content_length_header (later_mallocs 8 m) req (evbuffer_get_length (rq_output_buffer req))
      else req
    else req in
  let req :=
    if evhttp_response_needs_body req then
      match evhttp_find_header (rq_output_headers req) (text "Content-Type"), default_content_type with
      | None, Some t => add_output_header (later_mallocs 12 m) req (text "Content-Type") t
      | _, _ => req
      end
    else req in
  if evhttp_is_connection_close (rq_flags req) (rq_input_headers req) then
    let req := remove_output_header req (text "Connection") in
    let req := if rq_flags req &? EVHTTP_PROXY_REQUEST then req
               else add_output_header (later_mallocs 16 m) req (text "Connection") (text "close") in
    remove_output_header req (text "Proxy-Connection")
  else req.

Definition evhttp_make_header_response (m : mallocs) (date : bytes) (default_content_type : option bytes)
    (evcon : evhttp_connection) (req : evhttp_request) : option (evhttp_connection * evhttp_request) :=
  line ← rq_response_code_line req;
  '(_, output) ← evbuffer_add_printf m
    (version_text req ++ [32] ++ print_d (rq_response_code req) ++ [32] ++ line ++ CRLF) (con_output evcon);
  Some (set_con_output output evcon, complete_response (later_mallocs 4 m) date default_content_type req).

Definition evhttp_make_header (m : mallocs) (date : bytes) (default_content_type : option bytes)
    (evcon : evhttp_connection) (req : evhttp_request) : option (evhttp_connection * evhttp_request) :=
  '(evcon, req) ← match rq_kind req with
                  | EVHTTP_REQUEST => evhttp_make_header_request m evcon req
                  | EVHTTP_RESPONSE => evhttp_make_header_response m date default_content_type evcon req
                  end;
  output ← write_headers (later_mallocs 24 m) (rq_output_headers req) (con_output evcon);
  if match evhttp_have_expect req false with CONTINUE => false | _ => true end &&
     negb (evbuffer_get_length (rq_output_buffer req) =? 0)
  then
    '(_, output, data) ← evbuffer_add_buffer (m 23%nat) output (rq_output_buffer req);
    Some (set_con_output output evcon, set_rq_output_buffer data req)
  else Some (set_con_output output evcon, req).

(** *** Replies in pieces *)

(** The new connection and what is left of [databuf]. *)
Definition evhttp_send_reply_chunk_with_cb (m : mallocs) (evcon : evhttp_connection) (req : evhttp_request)
    (databuf : evbuffer) (cb : option evcon_cb) : option (evhttp_connection * evbuffer) :=
  if evbuffer_get_length databuf =? 0 then Some (evcon, databuf)
  else if negb (evhttp_response_needs_body req) then Some (evcon, databuf)
  else
    output ← (if rq_chunked req then
                '(_, output) ← evbuffer_add_printf m (print_u 16 (u32 (evbuffer_get_length databuf)) ++ CRLF) (con_output evcon);
                Some output
              else Some (con_output evcon));
    '(_, output, databuf) ← evbuffer_add_buffer (m 4%nat) output databuf;
    output ← (if rq_chunked req then '(_, output) ← evbuffer_add (later_mallocs 5 m) CRLF output; Some output else Some output);
    Some (evhttp_write_buffer (set_con_output output evcon) cb, databuf).

Definition evhttp_send_reply_chunk (m : mallocs) (evcon : evhttp_connection) (req : evhttp_request) (databuf : evbuffer) :
    option (evhttp_connection * evbuffer) :=
  evhttp_send_reply_chunk_with_cb m evcon req databuf None.

(** The end of a reply; the last result says that [evhttp_send_done] is called at
    once. *)
Definition evhttp_send_reply_end (m : mallocs) (evcon : evhttp_connection) (req : evhttp_request) :
    option (evhttp_connection * evhttp_request * bool) :=
  let req := set_rq_userdone true req in
  if rq_chunked req then
    '(_, output) ← evbuffer_add m (text "0" ++ CRLF ++ CRLF) (con_output evcon);
    Some (evhttp_write_buffer (set_con_output output evcon) (Some evhttp_send_done), set_rq_chunked false req, false)
  else if evbuffer_get_length (con_output evcon) =? 0 then Some (evcon, req, true)
  else Some (set_con_cb (Some evhttp_send_done) evcon, req, false).

(** *** Codes and pages *)

Definition informational_phrases : list bytes := text <$> ["Continue"; "Switching Protocols"]%string.
Definition success_phrases : list bytes := text <$>
  ["OK"; "Created"; "Accepted"; "Non-Authoritative Information"; "No Content"; "Reset Content"; "Partial Content"]%string.
Definition redirection_phrases : list bytes := text <$>
  ["Multiple Choices"; "Moved Permanently"; "Found"; "See Other"; "Not Modified"; "Use Proxy"; "Temporary Redirect"]%string.
Definition client_error_phrases : list bytes := text <$>
  ["Bad Request"; "Unauthorized"; "Payment Required"; "Forbidden"; "Not Found"; "Method Not Allowed"; "Not Acceptable";
   "Proxy Authentication Required"; "Request Time-out"; "Conflict"; "Gone"; "Length Required"; "Precondition Failed";
   "Request Entity Too Large"; "Request-URI Too Large"; "Unsupported Media Type"; "Requested range not satisfiable";
   "Expectation Failed"]%string.
Definition server_error_phrases : list bytes := text <$>
  ["Internal Server Error"; "Not Implemented"; "Bad Gateway"; "Service Unavailable"; "Gateway Time-out";
   "HTTP Version not supported"]%string.
Definition response_classes : list (bytes * list bytes) :=
  [(text "Informational", informational_phrases); (text "Success", success_phrases);
   (text "Redirection", redirection_phrases); (text "Client Error", client_error_phrases);
   (text "Server Error", server_error_phrases)].

(** C's division rounds to zero; an access outside of the tables is stuck. *)
Definition evhttp_response_phrase_internal (code : Z) : option bytes :=
  let klass := Z.quot code 100 - 1 in
  let subcode := Z.rem code 100 in
  if (klass <? 0) || (Z.of_nat (length response_classes) <=? klass) then Some (text "Unknown Status Class")
  else
    '(name, responses) ← response_classes !! Z.to_nat klass;
    if Z.of_nat (length responses) <=? subcode then Some name
    else if subcode <? 0 then None else responses !! Z.to_nat subcode.

Definition evhttp_response_code_ (strdup_ok : bool) (req : evhttp_request) (code : Z) (reason : option bytes) :
    option evhttp_request :=
  reason ← match reason with Some r => Some r | None => evhttp_response_phrase_internal code end;
  Some (set_rq_response_code_line (if strdup_ok then Some reason else None)
         (set_rq_response_code code (set_rq_kind EVHTTP_RESPONSE req))).

(** The reply starts; chunked if the length is not known and the client can. *)
Definition evhttp_send_reply_start (m : mallocs) (date : bytes) (default_content_type : option bytes)
    (evcon : evhttp_connection) (req : evhttp_request) (code : Z) (reason : option bytes) :
    option (evhttp_connection * evhttp_request) :=
  req ← evhttp_response_code_ (m 0%nat) req code reason;
  let req :=
    if bool_decide (evhttp_find_header (rq_output_headers req) (text "Content-Length") = None) &&
       REQ_VERSION_ATLEAST req 1 1 && evhttp_response_needs_body req
    then set_rq_chunked true (add_output_header (later_mallocs 1 m) req (text "Transfer-Encoding") (text "chunked"))
    else set_rq_chunked false req in
  '(evcon, req) ← evhttp_make_header (later_mallocs 4 m) date default_content_type evcon req;
  Some (evhttp_write_buffer evcon None, req).

Definition html_replace (ch : Z) : bytes :=
  if ch =? 60 then text "&lt;"
  else if ch =? 62 then text "&gt;"
  else if ch =? 34 then text "&quot;"
  else if ch =? 39 then text "&#039;"
  else if ch =? 38 then text "&amp;"
  else [ch].

(** The sizes do not overflow. *)
Definition evhttp_htmlescape (malloc_ok : bool) (html : option bytes) : option bytes :=
  match html with
  | None => None
  | Some html => if malloc_ok then Some (mjoin (html_replace <$> html)) else None
  end.
