(* ===== verification/HttpChunks.v ===== *)
(** * HTTP: chunked bodies

    What [evhttp_send_reply_chunk] and [evhttp_send_reply_end] write is read back
    by [evhttp_handle_chunked_read]. *)

From S2P Require Import Prelude Clib Util.
From S2P Require Import BufferCore BufferMove BufferSearch BufferInv BufferLines BufferStream BufferPrintf.
From S2P Require Import Uri HttpHeaders HttpHeaderProps HttpMsg.

(** ** Writing *)

Definition chunk_text (d : bytes) : bytes := print_u 16 (Z.of_nat (length d)) ++ CRLF ++ d ++ CRLF.
Definition last_chunk : bytes := text "0" ++ CRLF.

(** Chunks sent one after the other, and the end of the reply. *)
Fixpoint send_chunks (m : mallocs) (evcon : evhttp_connection) (req : evhttp_request) (ds : list evbuffer) :
    option evhttp_connection :=
  match ds with
  | [] => '(evcon, _, _) ← evhttp_send_reply_end m evcon req; Some evcon
  | d :: ds => '(evcon, _) ← evhttp_send_reply_chunk m evcon req d; send_chunks (later_mallocs 8 m) evcon req ds
  end.

(** A piece of data that is sent as a chunk. *)
Definition chunk_data (d : evbuffer) : Prop := stream_ok d ∧ content d ≠ [] ∧ Z.of_nat (length (content d)) < 2 ^ 32.

Lemma hex_length n : 0 <= n < 2 ^ 32 → (length (print_u 16 n) <= 8)%nat.
Proof. intros Hn. apply print_u_length; [done|change (16 ^ Z.of_nat 8) with (2 ^ 32); lia|lia]. Qed.

Lemma send_chunk_stream m evcon req d :
  stream_ok (con_output evcon) → chunk_data d → (∀ n, m n = true) →
  rq_chunked req = true → evhttp_response_needs_body req = true →
  stream_fits (length (content (con_output evcon)) + length (content d) + MAX_TO_COPY_IN_EXPAND + 128) →
  ∃ evcon' d', evhttp_send_reply_chunk m evcon req d = Some (evcon', d') ∧ stream_ok (con_output evcon') ∧
    content (con_output evcon') = content (con_output evcon) ++ chunk_text (content d).
Proof.
  intros Ho (Hd & Hne & Hlen) Hm Hch Hbody Hf. unfold evhttp_send_reply_chunk, evhttp_send_reply_chunk_with_cb.
  pose proof (bo_total _ (st_ok _ Hd)) as Ht. unfold evbuffer_get_length. rewrite Ht.
  assert (0 < length (content d))%nat by (destruct (content d); [done|cbn; lia]).
  rewrite (proj2 (Z.eqb_neq _ 0)) by lia. rewrite Hbody, Hch. cbn [negb].
  rewrite (wrap_small 32) by lia.
  set (n := Z.of_nat (length (content d))). unfold stream_fits in Hf.
  assert (length (print_u 16 n ++ CRLF) <= 10)%nat as Hpl.
  { rewrite length_app. pose proof (hex_length n ltac:(lia)). cbn [length CRLF]. lia. }
  destruct (printf_stream m (print_u 16 n ++ CRLF) (con_output evcon) Ho Hm) as (o1 & -> & Ho1 & Hc1); [lia|unfold stream_fits; lia|].
  rewrite !bind_some_eq.
  destruct (add_buffer_stream (m 4%nat) o1 d Ho1 Hd) as (o2 & d2 & -> & Ho2 & _ & Hc2 & _); [unfold stream_fits; rewrite Hc1, length_app; lia|].
  rewrite bind_some_eq.
  destruct (add_stream (later_mallocs 5 m) CRLF o2 Ho2) as (o3 & -> & Ho3 & Hc3); [intros; apply Hm|unfold stream_fits; rewrite Hc2, Hc1, !length_app in *; cbn [length CRLF] in *; lia|].
  rewrite !bind_some_eq. eexists _, _. split; [done|]. cbn. split; [done|].
  rewrite Hc3, Hc2, Hc1. unfold chunk_text. fold n. by rewrite <-!app_assoc.
Qed.

Definition chunks_text (ds : list bytes) : bytes := mjoin (chunk_text <$> ds) ++ last_chunk ++ CRLF.

Lemma send_chunks_stream ds m evcon req :
  stream_ok (con_output evcon) → Forall chunk_data ds → (∀ n, m n = true) →
  rq_chunked req = true → evhttp_response_needs_body req = true →
  stream_fits (length (content (con_output evcon)) + length (chunks_text (content <$> ds)) + MAX_TO_COPY_IN_EXPAND + 128) →
  ∃ evcon', send_chunks m evcon req ds = Some evcon' ∧ stream_ok (con_output evcon') ∧
    content (con_output evcon') = content (con_output evcon) ++ chunks_text (content <$> ds).
Proof.
  intros Ho Hds Hm Hch Hbody. revert m evcon Ho Hm. induction Hds as [|d ds Hd _ IH]; intros m evcon Ho Hm Hf; cbn [send_chunks].
  - unfold evhttp_send_reply_end. cbn [rq_chunked set_rq_userdone]. rewrite Hch.
    destruct (add_stream m (text "0" ++ CRLF ++ CRLF) (con_output evcon) Ho Hm) as (o & -> & Ho' & Hc').
    { unfold stream_fits in *. change (length (text "0" ++ CRLF ++ CRLF)) with 5%nat. change (length (chunks_text (content <$> []))) with 5%nat in Hf. lia. }
    rewrite !bind_some_eq. eexists. split; [done|]. by cbn.
  - change (chunks_text (content <$> d :: ds)) with ((chunk_text (content d) ++ mjoin (chunk_text <$> (content <$> ds))) ++ last_chunk ++ CRLF) in *.
    rewrite <-app_assoc in *. fold (chunks_text (content <$> ds)) in *. rewrite length_app in Hf.
    assert (length (content d) <= length (chunk_text (content d)))%nat.
    { unfold chunk_text. rewrite !length_app. lia. }
    destruct (send_chunk_stream m evcon req d) as (e1 & d1 & -> & Ho1 & Hc1); [done..|unfold stream_fits in *; lia|]. rewrite bind_some_eq.
    destruct (IH (later_mallocs 8 m) e1 Ho1) as (e2 & -> & Ho2 & Hc2); [intros; apply Hm|unfold stream_fits in *; rewrite Hc1, length_app; lia|].
    exists e2. by rewrite Hc2, Hc1, <-app_assoc.
Qed.

(** ** Reading *)

Section read.
Context {W : Type}.
(** A callback that takes note of the chunk it sees. *)
Context (note : W → bytes → W).
Let cb : option (W → evhttp_request → option (W * evhttp_request)) :=
  Some (λ w req, Some (note w (content (rq_input_buffer req)), req)).

(** A request that waits for the size of a chunk, with nothing in its buffer. *)
Record waiting (req : evhttp_request) : Prop := {
  wt_size : rq_ntoread req = -1;
  wt_buffer : stream_ok (rq_input_buffer req);
  wt_empty : content (rq_input_buffer req) = [];
  wt_kept : rq_flags req &? EVHTTP_REQ_NEEDS_FREE = false;
  wt_body : 0 <= rq_body_size req
}.

(** The line with the size of a chunk, or the empty line after a chunk. *)
Lemma split_size (d s : bytes) :
  split_lines (print_u 16 (Z.of_nat (length d)) ++ CRLF ++ s) =
  ((print_u 16 (Z.of_nat (length d)) ++ [13; 10]) :: (split_lines s).1, (split_lines s).2).
Proof.
  pose proof (split_lines_no_lf (print_u 16 (Z.of_nat (length d)) ++ [13]) s) as H. rewrite <-!app_assoc in H. apply H.
  rewrite elem_of_app. intros [Hin|Hin]; [|set_solver].
  by pose proof (proj1 (Forall_forall _ _) (print_u_chars 16 (Z.of_nat (length d)) ltac:(done) ltac:(lia)) 10 Hin).
Qed.

Lemma size_line n :
  0 <= n <= LONG_MAX → let p := c_text (chomp (print_u 16 n ++ [13; 10])) in
  (length p =? 0)%nat = false ∧ evutil_strtoll p 16 = (n, []) ∧ char_at p 0 ≠ 0.
Proof.
  intros Hn. cbv zeta. assert (chomp (print_u 16 n ++ [13; 10]) = print_u 16 n) as ->.
  { unfold chomp. change ([13; 10]) with ([13] ++ [10]). rewrite app_assoc, removelast_last.
    rewrite bool_decide_true by by rewrite last_snoc. by rewrite removelast_last. }
  assert (0 ∉ print_u 16 n) as H0.
  { intros Hin. by pose proof (proj1 (Forall_forall _ _) (print_u_chars 16 n ltac:(done) ltac:(lia)) 0 Hin). }
  rewrite c_text_id by done. destruct (print_u_cons 16 n) as (c & s & E).
  split_and!; [by rewrite E| |rewrite E in *; cbn; set_solver].
  unfold evutil_strtoll. rewrite <-(app_nil_r (print_u 16 n)). apply strtol_print; [done..|apply stops_nil].
Qed.

(** The round that reads the size of a chunk. *)
Lemma read_size fuel m max w req buf (d s : bytes) :
  waiting req → stream_ok buf → bf_total_len buf <= EV_SSIZE_MAX → (∀ n, m n = true) →
  content buf = print_u 16 (Z.of_nat (length d)) ++ CRLF ++ s → Z.of_nat (length d) <= LONG_MAX →
  rq_body_size req + Z.of_nat (length d) <= max → max <= EV_SIZE_MAX →
  let n := Z.of_nat (length d) in
  let req' := set_rq_ntoread n (set_rq_body_size (rq_body_size req + n) req) in
  ∃ buf', stream_ok buf' ∧ content buf' = s ∧
    chunked_loop cb (S fuel) m max w req buf =
      if n =? 0 then Some (ALL_DATA_READ, w, req', buf') else chunked_loop cb fuel (later_mallocs 1 m) max w req' buf'.
Proof.
  intros [W1 _ _ _ W5] Hb Hmax Hm Hc Hl Hbody Hmx n req'. pose proof (bo_total _ (st_ok _ Hb)) as Ht.
  assert (0 < length (content buf))%nat as Hpos.
  { rewrite Hc, length_app. destruct (print_u_cons 16 (Z.of_nat (length d))) as (c & t & ->). cbn. lia. }
  pose proof (readln_lines buf Hb Hmax) as Hr. rewrite Hc, split_size in Hr. destruct Hr as (b' & Hr & Hs' & Hc').
  rewrite split_lines_concat in Hc'. exists b'. split_and!; [done..|].
  cbn [chunked_loop]. unfold evbuffer_get_length. rewrite (proj2 (Z.eqb_neq _ 0)), (proj2 (Z.ltb_ge EV_SSIZE_MAX _)) by lia.
  rewrite W1. cbn [Z.ltb Z.compare]. rewrite (Hm 0%nat), Hr, bind_some_eq. fold n.
  destruct (size_line n) as (E1 & E2 & E3); [lia|]. rewrite E1, E2. unfold chunk_size_error.
  rewrite (proj2 (Z.eqb_neq _ 0) E3). cbn [char_at lookup list_lookup default from_option id Z.eqb negb andb orb].
  rewrite (proj2 (Z.ltb_ge n 0)), (proj2 (Z.ltb_ge _ n)) by lia. rewrite (wrap_small 64) by (change (2 ^ 64) with 18446744073709551616; lia).
  by rewrite (proj2 (Z.ltb_ge max _)) by lia.
Qed.

(** The round that takes a chunk that is there. *)
Lemma read_data fuel m max w req buf (d s : bytes) :
  stream_ok (rq_input_buffer req) → content (rq_input_buffer req) = [] → rq_flags req &? EVHTTP_REQ_NEEDS_FREE = false →
  rq_ntoread req = Z.of_nat (length d) → d ≠ [] → 0 <= rq_body_size req →
  stream_ok buf → stream_fits (length (content buf)) → (∀ n, m n = true) → content buf = d ++ s →
  ∃ req' buf', waiting req' ∧ rq_body_size req' = rq_body_size req ∧ stream_ok buf' ∧ content buf' = s ∧
    chunked_loop cb (S fuel) m max w req buf = chunked_loop cb fuel (later_mallocs 4 m) max (note w d) req' buf'.
Proof.
  intros Hi Hie Hfl Hn Hne Hbs Hb Hf Hm Hc. pose proof (bo_total _ (st_ok _ Hb)) as Ht.
  unfold stream_fits in Hf. change BLOCK_MAX with 2305843009213693952 in Hf.
  assert (0 < length d)%nat by (destruct d; [done|cbn; lia]).
  assert (bf_total_len buf <= EV_SSIZE_MAX) by lia. rewrite Hc, length_app in Ht.
  destruct (remove_buffer_stream m buf (rq_input_buffer req) (rq_ntoread req) Hb Hi Hm) as (i' & b' & Hr & Hi' & Hb' & Hci & Hcb);
    [lia|rewrite Hie; cbn [length Nat.add]; exact Hf|].
  rewrite Hn, Nat2Z.id, Hc in Hci, Hcb. rewrite Hie, take_app_length in Hci. rewrite drop_app_length in Hcb. cbn [app] in Hci.
  destruct (drain_stream (bf_total_len i') i' Hi') as (i2 & Hd & Hi2 & Hc2); [destruct (st_ok _ Hi'); lia|].
  rewrite Z.min_id, (bo_total _ (st_ok _ Hi')), Nat2Z.id, drop_all in Hc2.
  set (req' := set_rq_flags (Z.land (Z.lor (rq_flags req) EVHTTP_REQ_DEFER_FREE) (Z.lnot EVHTTP_REQ_DEFER_FREE))
    (set_rq_input_buffer i2 (set_rq_flags (Z.lor (rq_flags req) EVHTTP_REQ_DEFER_FREE) (set_rq_ntoread (-1) (set_rq_input_buffer i' req))))).
  assert (rq_flags req' &? EVHTTP_REQ_NEEDS_FREE = false) as Hfl'.
  { unfold flag in *. cbn [rq_flags req' set_rq_flags]. rewrite negb_false_iff, Z.eqb_eq in *.
    rewrite Z.land_lor_distr_l, Z.land_lor_distr_l. change (Z.land (Z.land 8 (Z.lnot 8)) 16) with 0. rewrite Z.lor_0_r.
    by rewrite <-Z.land_assoc, (Z.land_comm (Z.lnot 8)), Z.land_assoc, Hfl. }
  exists req', b'. split_and!; [by split|done|done|done|].
  cbn [chunked_loop]. unfold evbuffer_get_length at 1 2. rewrite (proj2 (Z.eqb_neq _ 0)), (proj2 (Z.ltb_ge EV_SSIZE_MAX (bf_total_len buf))) by lia.
  rewrite (proj2 (Z.ltb_ge (rq_ntoread req) 0)), (proj2 (Z.ltb_ge EV_SSIZE_MAX _)) by lia.
  unfold evbuffer_get_length at 1. rewrite (proj2 (Z.ltb_ge (bf_total_len buf) _)), andb_false_r by lia.
  rewrite Hr, bind_some_eq. cbv iota beta. unfold chunk_done, cb. rewrite bind_some_eq. cbv iota beta.
  cbn [rq_input_buffer set_rq_flags set_rq_ntoread set_rq_input_buffer rq_flags]. unfold evbuffer_get_length. rewrite Hd, !bind_some_eq. cbv iota beta zeta.
  change (Z.land (Z.lor (rq_flags req) 8) (Z.lnot 8)) with (rq_flags req') at 1. rewrite Hfl', Hci. done.
Qed.

(** The round that passes the empty line after a chunk. *)
Lemma read_break fuel m max w req buf s :
  waiting req → stream_ok buf → bf_total_len buf <= EV_SSIZE_MAX → (∀ n, m n = true) → content buf = CRLF ++ s →
  ∃ buf', stream_ok buf' ∧ content buf' = s ∧
    chunked_loop cb (S fuel) m max w req buf = chunked_loop cb fuel (later_mallocs 1 m) max w req buf'.
Proof.
  intros [W1 _ _ _ _] Hb Hmax Hm Hc. pose proof (bo_total _ (st_ok _ Hb)) as Ht. rewrite Hc, length_app in Ht. cbn [length CRLF] in Ht.
  pose proof (readln_lines buf Hb Hmax) as Hr. rewrite Hc in Hr.
  change (CRLF ++ s) with ([13] ++ 10 :: s) in Hr. rewrite (split_lines_no_lf [13] s ltac:(set_solver)) in Hr. destruct Hr as (b' & Hr & Hs' & Hc'). rewrite split_lines_concat in Hc'.
  exists b'. split_and!; [done..|]. cbn [chunked_loop]. unfold evbuffer_get_length.
  rewrite (proj2 (Z.eqb_neq _ 0)), (proj2 (Z.ltb_ge EV_SSIZE_MAX _)) by lia. rewrite W1. cbn [Z.ltb Z.compare].
  by rewrite (Hm 0%nat), Hr, bind_some_eq.
Qed.

Lemma read_chunks_ok ds fuel m max w req buf s :
  Forall (λ d, d ≠ [] ∧ Z.of_nat (length d) <= LONG_MAX) ds → (3 * length ds + 1 <= fuel)%nat →
  waiting req → stream_ok buf → stream_fits (length (content buf)) → (∀ n, m n = true) →
  content buf = mjoin (chunk_text <$> ds) ++ last_chunk ++ s →
  rq_body_size req + Z.of_nat (length (mjoin ds)) <= max → max <= EV_SIZE_MAX →
  ∃ req' buf', chunked_loop cb fuel m max w req buf = Some (ALL_DATA_READ, foldl note w ds, req', buf') ∧
    stream_ok buf' ∧ content buf' = s ∧ rq_body_size req' = rq_body_size req + Z.of_nat (length (mjoin ds)).
Proof.
  intros Hds. revert fuel m w req buf. induction Hds as [|d ds [Hne Hl] _ IH]; intros fuel m w req buf Hfuel Hw Hb Hf Hm Hc Hbody Hmax.
  - destruct fuel as [|fuel]; [lia|].
    assert (bf_total_len buf <= EV_SSIZE_MAX) by (rewrite (bo_total _ (st_ok _ Hb)); unfold stream_fits in Hf; change BLOCK_MAX with 2305843009213693952 in Hf; lia).
    destruct (read_size fuel m max w req buf [] s) as (b' & Hs' & Hc' & E); [done..|cbn in *; lia|done|].
    change (Z.of_nat (length (@nil Z))) with 0 in E. change (0 =? 0) with true in E. cbv iota in E.
    eexists _, b'. rewrite E. split_and!; [done..|]. cbn. lia.
  - change (mjoin (chunk_text <$> d :: ds)) with (chunk_text d ++ mjoin (chunk_text <$> ds)) in Hc.
    change (mjoin (d :: ds)) with (d ++ mjoin ds) in *. rewrite length_app in Hbody |- *.
    unfold chunk_text at 1 in Hc. rewrite <-!app_assoc in Hc. cbn [length] in Hfuel.
    destruct fuel as [|[|[|fuel]]]; [lia..|]. unfold stream_fits in *. change BLOCK_MAX with 2305843009213693952 in *.
    pose proof (bo_total _ (st_ok _ Hb)) as Ht. pose proof (wt_body _ Hw) as Hbs. assert (0 < length d)%nat by (destruct d; [done|cbn; lia]).
    destruct (read_size (S (S fuel)) m max w req buf d (d ++ CRLF ++ mjoin (chunk_text <$> ds) ++ last_chunk ++ s) Hw Hb) as (b1 & Hs1 & Hc1 & ->); [lia|done|exact Hc|done|lia|done|].
    rewrite (proj2 (Z.eqb_neq _ 0)) by lia.
    assert (length (content b1) <= length (content buf))%nat as Hle1 by (rewrite Hc, Hc1, !length_app; lia).
    destruct Hw as [W1 W2 W3 W4 W5]. set (req1 := set_rq_ntoread _ _).
    destruct (read_data (S fuel) (later_mallocs 1 m) max w req1 b1 d (CRLF ++ mjoin (chunk_text <$> ds) ++ last_chunk ++ s))
      as (req2 & b2 & Hw2 & Hbs2 & Hs2 & Hc2 & ->); try done; [cbn; lia|unfold stream_fits; change BLOCK_MAX with 2305843009213693952; lia|intros; apply Hm|].
    assert (length (content b2) <= length (content b1))%nat as Hle2 by (rewrite Hc1, Hc2, !length_app; lia).
    pose proof (bo_total _ (st_ok _ Hs2)).
    destruct (read_break fuel (later_mallocs 4 (later_mallocs 1 m)) max (note w d) req2 b2 (mjoin (chunk_text <$> ds) ++ last_chunk ++ s) Hw2 Hs2) as (b3 & Hs3 & Hc3 & ->);
      [lia|intros; apply Hm|exact Hc2|].
    assert (length (content b3) <= length (content b2))%nat as Hle3 by (rewrite Hc2, Hc3, !length_app; lia).
    destruct (IH fuel (later_mallocs 1 (later_mallocs 4 (later_mallocs 1 m))) (note w d) req2 b3) as (req' & buf' & E & Hs' & Hc' & Hb');
      [lia|done|done|lia|intros; apply Hm|done|rewrite Hbs2; cbn; lia|done|].
    exists req', buf'. split_and!; [done..|]. rewrite Hb', Hbs2. cbn. lia.
Qed.
End read.

(** C26. A chunked body survives the wire: the pieces that are sent with
    [evhttp_send_reply_chunk], ended with [evhttp_send_reply_end], are handed to
    the callback of [evhttp_handle_chunked_read] one by one, each whole and in
    the order in which they were sent; the reader stops just before the trailer,
    and the size of the body is the sum of the sizes. *)
Theorem chunked_roundtrip {W} (note : W → bytes → W) m max w evcon reply req inp ds rest :
  stream_ok (con_output evcon) → Forall chunk_data ds → (∀ n, m n = true) →
  rq_chunked reply = true → evhttp_response_needs_body reply = true →
  stream_fits (length (content (con_output evcon)) + length (chunks_text (content <$> ds)) + MAX_TO_COPY_IN_EXPAND + 128) →
  waiting req → stream_ok inp → stream_fits (length (content inp)) →
  rq_body_size req + Z.of_nat (length (mjoin (content <$> ds))) <= max → max <= EV_SIZE_MAX →
  ∃ evcon', send_chunks m evcon reply ds = Some evcon' ∧
    (content inp = drop (length (content (con_output evcon))) (content (con_output evcon')) ++ rest →
     ∃ req' inp', evhttp_handle_chunked_read (Some (λ w r, Some (note w (content (rq_input_buffer r)), r))) m max w req inp =
         Some (ALL_DATA_READ, foldl note w (content <$> ds), req', inp') ∧
       content inp' = CRLF ++ rest ∧
       rq_body_size req' = rq_body_size req + Z.of_nat (length (mjoin (content <$> ds)))).
Proof.
  intros Ho Hds Hm Hch Hbody Hf Hw Hi Hfi Hmax Hmx.
  destruct (send_chunks_stream ds m evcon reply Ho Hds Hm Hch Hbody Hf) as (evcon' & Es & Ho' & Hc').
  exists evcon'. split; [done|]. rewrite Hc', drop_app_length. intros Hci. unfold chunks_text in Hci. rewrite <-!app_assoc in Hci.
  assert (Forall (λ d, d ≠ [] ∧ Z.of_nat (length d) <= LONG_MAX) (content <$> ds)) as Hds'.
  { apply Forall_fmap. eapply Forall_impl; [done|]. intros d (_ & H1 & H2). split; [done|]. change (2 ^ 32) with 4294967296 in H2. cbn. lia. }
  unfold evhttp_handle_chunked_read, evbuffer_get_length. rewrite (bo_total _ (st_ok _ Hi)), Nat2Z.id.
  destruct (read_chunks_ok note (content <$> ds) (2 * length (content inp) + 2) m max w req inp (CRLF ++ rest))
    as (req' & inp' & E & _ & Hc2 & Hb2); try done; [|eauto].
  rewrite Hci, !length_app. assert (∀ l, 3 * length l <= 2 * length (mjoin (chunk_text <$> l)))%nat as Hl; [|specialize (Hl (content <$> ds)); lia].
  induction l as [|d l IH]; [done|]. change (mjoin (chunk_text <$> d :: l)) with (chunk_text d ++ mjoin (chunk_text <$> l)).
  unfold chunk_text at 1. rewrite !length_app. cbn [length CRLF]. lia.
Qed.
