(* ===== verification/HttpMsgProps.v ===== *)
(** * HTTP: first lines, methods and virtual hosts *)

From S2P Require Import Prelude Clib Util.
From S2P Require Import BufferCore BufferMove BufferSearch BufferInv BufferLines BufferStream BufferPrintf.
From S2P Require Import Uri HttpHeaders HttpHeaderProps HttpMsg.

(** ** Methods *)

(** Splits every test of a character. *)
Ltac split_chars :=
  repeat match goal with
  | |- context [if ?c =? ?k then _ else _] => destruct (Z.eqb_spec c k); subst; cbn [negb andb]
  | |- context [if negb (?c =? ?k) then _ else _] => destruct (Z.eqb_spec c k); subst; cbn [negb andb]
  | |- context [(?c =? ?k) && _] => destruct (Z.eqb_spec c k); subst; cbn [negb andb]
  end.

Lemma parse_method_known s : parse_method s ≠ EVHTTP_REQ_UNKNOWN_ → evhttp_method (parse_method s) = Some s.
Proof.
  destruct s as [|c0 [|c1 [|c2 [|c3 [|c4 [|c5 [|c6 [|c7 s]]]]]]]]; unfold parse_method;
    cbn [length Nat.eqb char_at lookup list_lookup default from_option id]; try done.
  all: split_chars; done.
Qed.

(** The switch over the length and the characters of a method finds exactly
    the methods that [evhttp_method] names: it recognises a string as a method if
    and only if it is the name of that method. *)
Theorem method_switch_correct s t :
  t ≠ EVHTTP_REQ_UNKNOWN_ → parse_method s = t ↔ evhttp_method t = Some s.
Proof.
  intros Ht. split.
  - intros <-. by apply parse_method_known.
  - destruct t; try done; intros [= <-]; reflexivity.
Qed.

(** ** The request line *)

Lemma after_literal_app lit s : after_literal lit (lit ++ s) = Some s.
Proof. induction lit as [|c lit IH]; [done|]. cbn. by rewrite Z.eqb_refl. Qed.

Lemma scan_d_print n rest : 0 <= n < 128 → stops 10 rest → scan_d (print_d n ++ rest) = Some (n, rest).
Proof.
  intros Hn Hr. unfold scan_d, print_d. rewrite (proj2 (Z.ltb_ge n 0)) by lia. rewrite print_u_scan by (done || lia).
  rewrite bind_some_eq, print_u_number, Z.min_r by (done || lia). unfold swrap. rewrite Z.mod_small by (cbn; lia). do 2 f_equal. cbn. lia.
Qed.

(** A version that is written and read. *)
Definition version_ok (req : evhttp_request) : Prop := 0 <= rq_major req <= 1 ∧ 0 <= rq_minor req < 128.

Lemma version_roundtrip req r : version_ok req →
  evhttp_parse_http_version (version_text req) r = (0, set_rq_minor (rq_minor req) (set_rq_major (rq_major req) r)).
Proof.
  intros [Hma Hmi]. unfold evhttp_parse_http_version, sscanf_version, version_text. rewrite after_literal_app, bind_some_eq.
  rewrite scan_d_print by (try lia; by apply stops_cons). rewrite bind_some_eq. cbn [app after_literal]. rewrite Z.eqb_refl, bind_some_eq.
  rewrite <-(app_nil_r (print_d (rq_minor req))), scan_d_print by (try lia; apply stops_nil). rewrite bind_some_eq.
  rewrite (proj2 (Z.ltb_ge 1 _)) by lia. unfold swrap. rewrite !Z.mod_small by (cbn; lia). do 2 f_equal; [|f_equal]; cbn; lia.
Qed.

Lemma strsep_app d a s : (d ∉ a) → strsep d (a ++ d :: s) = (a, Some s).
Proof.
  intros H. unfold strsep. rewrite strchr_app by done. rewrite take_app_length. do 2 f_equal.
  rewrite <-Nat.add_1_r, drop_app_add. done.
Qed.

Lemma strsep_none d a : (d ∉ a) → strsep d a = (a, None).
Proof. intros H. unfold strsep. by rewrite strchr_none. Qed.

Lemma version_text_chars req c : version_ok req → c ∈ version_text req → 46 <= c <= 84.
Proof.
  intros [Hma Hmi]. unfold version_text. rewrite !elem_of_app. intros [Hin|[Hin|[Hin|Hin]]].
  - change (c ∈ [72; 84; 84; 80; 47]) in Hin. rewrite !elem_of_cons, elem_of_nil in Hin. lia.
  - apply print_d_chars in Hin; lia.
  - apply list_elem_of_singleton in Hin. lia.
  - apply print_d_chars in Hin; lia.
Qed.

Lemma method_chars t s c : evhttp_method t = Some s → c ∈ s → 65 <= c <= 90.
Proof.
  intros Hm Hc. assert (forallb (λ c, (65 <=? c) && (c <=? 90)) s = true) as H by (destruct t; try done; injection Hm as <-; done).
  rewrite forallb_forall in H. specialize (H c). rewrite <-list_elem_of_In in H. specialize (H Hc). rewrite andb_true_iff in H. lia.
Qed.

(** The line that [evhttp_make_header_request] writes, without its end. *)
Definition request_line (req : evhttp_request) (method uri : bytes) : bytes :=
  method ++ [32] ++ uri ++ [32] ++ version_text req.

(** Whether the server of the connection is looked at: for absolute URIs. *)
Definition absolute_http (elems : evhttp_uri) : Prop :=
  ∃ scheme hostname, uri_scheme elems = Some scheme ∧ uri_host elems = Some hostname ∧
    (evutil_ascii_strcasecmp scheme (text "http") =? 0) || (evutil_ascii_strcasecmp scheme (text "https") =? 0) = true.

(** What the parser makes of it. *)
Definition request_parsed (http : option evhttp) (t : evhttp_cmd_type) (uri : bytes) (elems : evhttp_uri) (req r : evhttp_request) : evhttp_request :=
  let r := set_rq_uri_elems (Some elems) (set_rq_uri (Some uri)
    (set_rq_minor (rq_minor req) (set_rq_major (rq_major req) (set_rq_type t r)))) in
  match uri_scheme elems, uri_host elems with
  | Some scheme, Some hostname =>
    if ((evutil_ascii_strcasecmp scheme (text "http") =? 0) || (evutil_ascii_strcasecmp scheme (text "https") =? 0)) &&
       match http with Some http => negb (fst (evhttp_find_vhost http hostname)) | None => false end
    then set_rq_flags (Z.lor (rq_flags r) EVHTTP_PROXY_REQUEST) r else r
  | _, _ => r
  end.

Lemma request_line_parse mem http req r t method uri elems :
  evhttp_method t = Some method → (32 ∉ uri) → version_ok req → (absolute_http elems → is_Some http) →
  evhttp_uri_parse_with_flags mem uri EVHTTP_URI_NONCONFORMANT = Some (Some elems) →
  evhttp_parse_request_line mem true http r (request_line req method uri) = Some (0, request_parsed http t uri elems req r).
Proof.
  intros Hme Huri Hv Habs Hp. unfold evhttp_parse_request_line, request_line. cbn [app].
  rewrite (strsep_app 32 method) by (intros Hin; apply (method_chars _ _ _ Hme) in Hin; lia).
  rewrite (strsep_app 32 uri) by done. rewrite (strsep_none 32) by (intros Hin; apply version_text_chars in Hin; [lia|done]).
  rewrite version_roundtrip by done. cbn [Z.ltb Z.compare negb]. rewrite Hp, bind_some_eq.
  assert (parse_method method = t) as ->.
  { destruct t; try done; injection Hme as <-; reflexivity. }
  unfold request_parsed, absolute_http in *. cbv zeta. destruct (uri_scheme elems) as [sc|], (uri_host elems) as [ho|]; try done.
  destruct ((evutil_ascii_strcasecmp sc _ =? 0) || _) eqn:E; [|done]. destruct Habs as [h ->]; [by exists sc, ho|]. done.
Qed.

(** A line with its end at the start of a stream. *)
Lemma read_line l s b :
  stream_ok b → bf_total_len b <= EV_SSIZE_MAX → content b = l ++ CRLF ++ s → (10 ∉ l) →
  ∃ b', evbuffer_readln true EVBUFFER_EOL_CRLF b = Some (Some l, b') ∧ stream_ok b' ∧ content b' = s.
Proof.
  intros Hb Hmax Hc Hl. pose proof (readln_lines b Hb Hmax) as Hr. rewrite Hc in Hr.
  pose proof (split_lines_no_lf (l ++ [13]) s) as Hs. rewrite <-app_assoc in Hs. change ([13] ++ 10 :: s) with (CRLF ++ s) in Hs.
  rewrite Hs in Hr by (rewrite elem_of_app; intros [?|?]; [done|set_solver]). destruct Hr as (b' & Hr & Hb' & Hc').
  exists b'. rewrite split_lines_concat in Hc'. split_and!; [|done..]. rewrite Hr. do 3 f_equal.
  unfold chomp. rewrite removelast_last, bool_decide_true by by rewrite last_snoc. by rewrite removelast_last.
Qed.

(** The headers that a request is sent with. *)
Definition sent_headers (m : mallocs) (req : evhttp_request) : evkeyvalq :=
  let req := remove_output_header req (text "Proxy-Connection") in
  rq_output_headers
    (if (bool_decide (rq_type req = EVHTTP_REQ_POST) || bool_decide (rq_type req = EVHTTP_REQ_PUT)) &&
        bool_decide (evhttp_find_header (rq_output_headers req) (text "Content-Length") = None)
     then add_output_header (later_mallocs 4 m) req (text "Content-Length") (size_text (evbuffer_get_length (rq_output_buffer req)))
     else req).

(** The data that follows the headers: all of it, unless the client waits for the
    server to ask for it. *)
Definition sent_body (m : mallocs) (req : evhttp_request) : bytes :=
  if REQ_VERSION_ATLEAST req 1 1 &&
     match evhttp_find_header (sent_headers m req) (text "Expect") with
     | Some e => evutil_ascii_strcasecmp e (text "100-continue") =? 0 | None => false end
  then [] else content (rq_output_buffer req).

(** The size of a message is within the limits of the buffers. *)
Definition message_fits (evcon : evhttp_connection) (n : nat) : Prop :=
  stream_fits (length (content (con_output evcon)) + n + MAX_TO_COPY_IN_EXPAND + 128) ∧ Z.of_nat n < INT_MAX.

Lemma header_text_le h hs : h ∈ hs → (length (header_text h) <= length (headers_text hs))%nat.
Proof.
  induction hs as [|h' hs IH]; [set_solver|]. intros [->|Hin]%elem_of_cons; cbn [headers_text]; rewrite length_app; [lia|].
  specialize (IH Hin). lia.
Qed.

Lemma make_request_stream m date ct evcon req method uri :
  rq_kind req = EVHTTP_REQUEST → evhttp_method (rq_type req) = Some method → rq_uri req = Some uri →
  stream_ok (con_output evcon) → stream_ok (rq_output_buffer req) → (∀ n, m n = true) →
  message_fits evcon (length (request_line req method uri ++ CRLF ++ headers_text (sent_headers m req) ++ content (rq_output_buffer req))) →
  ∃ evcon' req', evhttp_make_header m date ct evcon req = Some (evcon', req') ∧ rq_output_headers req' = sent_headers m req ∧
    stream_ok (con_output evcon') ∧
    content (con_output evcon') =
      content (con_output evcon) ++ request_line req method uri ++ CRLF ++ headers_text (sent_headers m req) ++ sent_body m req.
Proof.
  intros Hk Hme Hu Ho Hd Hm [Hf Hi]. unfold evhttp_make_header, evhttp_make_header_request. rewrite Hk.
  cbn [rq_uri rq_type remove_output_header set_rq_output_headers]. rewrite Hu, Hme, bind_some_eq. cbn [default].
  rewrite !length_app in Hf, Hi. unfold stream_fits in Hf. cbn [length CRLF] in Hf, Hi.
  match goal with |- context [evbuffer_add_printf m ?t _] =>
    replace t with (request_line req method uri ++ CRLF) by (unfold request_line; by rewrite <-!app_assoc) end.
  destruct (printf_stream m (request_line req method uri ++ CRLF) (con_output evcon) Ho Hm) as (o1 & -> & Ho1 & Hc1);
    [rewrite length_app; cbn [length CRLF]; lia|unfold stream_fits; rewrite length_app; cbn [length CRLF]; lia|].
  rewrite !bind_some_eq. match goal with |- context [write_headers _ (rq_output_headers ?r) _] => set (req1 := r) end.
  assert (rq_output_headers req1 = sent_headers m req) as Hh by done.
  assert (rq_output_buffer req1 = rq_output_buffer req ∧ rq_kind req1 = EVHTTP_REQUEST ∧ rq_major req1 = rq_major req ∧ rq_minor req1 = rq_minor req)
    as (Eb & Ek & Ema & Emi) by (unfold req1; by destruct (_ && _)).
  cbn [con_output set_con_output]. rewrite Hh.
  destruct (write_headers_stream (later_mallocs 24 m) (sent_headers m req) o1 Ho1) as (o2 & -> & Ho2 & Hc2).
  { intros; apply Hm. }
  { apply Forall_forall. intros h Hin. pose proof (header_text_le h _ Hin). lia. }
  { unfold stream_fits. rewrite Hc1, !length_app. cbn [length CRLF]. lia. }
  rewrite bind_some_eq, Eb. unfold sent_body, evhttp_have_expect. rewrite Ek, Hh.
  assert (REQ_VERSION_ATLEAST req1 1 1 = REQ_VERSION_ATLEAST req 1 1) as -> by (unfold REQ_VERSION_ATLEAST; by rewrite Ema, Emi).
  set (exp := if negb _ then NO else _).
  assert ((REQ_VERSION_ATLEAST req 1 1 &&
     match evhttp_find_header (sent_headers m req) (text "Expect") with
     | Some e => evutil_ascii_strcasecmp e (text "100-continue") =? 0 | None => false end) =
     match exp with CONTINUE => true | _ => false end) as ->.
  { unfold exp. destruct (REQ_VERSION_ATLEAST req 1 1); [|done]. cbn [negb andb]. destruct (evhttp_find_header (sent_headers m req) (text "Expect")) as [e|]; [|done].
    by destruct (evutil_ascii_strcasecmp e (text "100-continue") =? 0). }
  unfold evbuffer_get_length. rewrite (bo_total _ (st_ok _ Hd)).
  destruct (match exp with CONTINUE => false | _ => true end && negb (Z.of_nat (length (content (rq_output_buffer req))) =? 0)) eqn:Ec.
  - destruct (add_buffer_stream (m 23%nat) o2 (rq_output_buffer req) Ho2 Hd) as (o3 & d3 & -> & Ho3 & _ & Hc3 & _).
    { unfold stream_fits. rewrite Hc2, Hc1, !length_app. cbn [length CRLF]. lia. }
    rewrite bind_some_eq. eexists _, _. split; [done|]. cbn. split_and!; [done..|].
    apply andb_true_iff in Ec as [Ec _]. rewrite Hc3, Hc2, Hc1. destruct exp; try done; by rewrite <-!app_assoc.
  - eexists _, _. split; [done|]. split_and!; [done..|]. cbn. rewrite Hc2, Hc1.
    assert ((match exp with CONTINUE => true | _ => false end) = true ∨ content (rq_output_buffer req) = []) as Hor.
    { apply andb_false_iff in Ec as [Ec|Ec]; [destruct exp; auto|right]. rewrite negb_false_iff, Z.eqb_eq in Ec.
      destruct (content (rq_output_buffer req)); [done|cbn in Ec; lia]. }
    destruct exp; [destruct Hor as [?|E]; [done|]; rewrite E|..|destruct Hor as [?|E]; [done|]; rewrite E]; by rewrite app_nil_r, <-!app_assoc.
Qed.

(** C25. A request survives the wire: what [evhttp_make_header] writes for a
    request whose URI can be parsed and whose headers are plain is read by
    [evhttp_parse_firstline_] and [evhttp_parse_headers_] as a request with the
    same method, URI and version and the same headers in the same order (those
    the sender completed, such as Content-Length), and exactly the body is left
    to be read.  The reader has a connection whose limit the text is within, or none;
    without one the URI is not an absolute one for http (for which the code follows the
    connection). *)
Theorem http_request_roundtrip mem m date ct con evcon req method uri elems r inp rest :
  rq_kind req = EVHTTP_REQUEST → evhttp_method (rq_type req) = Some method → rq_uri req = Some uri → version_ok req →
  Forall (λ c, c ≠ 0 ∧ c ≠ 10 ∧ c ≠ 32) uri →
  evhttp_uri_parse_with_flags mem uri EVHTTP_URI_NONCONFORMANT = Some (Some elems) →
  Forall plain_header (sent_headers m req) →
  stream_ok (con_output evcon) → stream_ok (rq_output_buffer req) → (∀ n, m n = true) →
  message_fits evcon (length (request_line req method uri ++ CRLF ++ headers_text (sent_headers m req) ++ content (rq_output_buffer req))) →
  rq_kind r = EVHTTP_REQUEST → stream_ok inp → bf_total_len inp <= EV_SSIZE_MAX → (absolute_http elems → is_Some con) →
  (∀ l http, con = Some (l, http) → Z.of_nat (length (request_line req method uri ++ headers_text (sent_headers m req))) <= l < 2 ^ 64) →
  ∃ evcon' req', evhttp_make_header m date ct evcon req = Some (evcon', req') ∧
    (content inp = drop (length (content (con_output evcon))) (content (con_output evcon')) ++ rest →
     ∃ r' inp' n inp'', evhttp_parse_firstline_ mem m con r inp = Some (ALL_DATA_READ, r', inp') ∧
       rq_type r' = rq_type req ∧ rq_uri r' = Some uri ∧ rq_major r' = rq_major req ∧ rq_minor r' = rq_minor req ∧
       evhttp_parse_headers_ m (fst <$> con) (mk_hs [] (rq_headers_size r')) inp' = Some (ALL_DATA_READ, mk_hs (rq_output_headers req') n, inp'') ∧
       content inp'' = sent_body m req ++ rest).
Proof.
  intros Hk Hme Hu Hv Huri Hp Hplain Ho Hd Hm Hf Hkr Hi Hmax Habs Hcon.
  destruct (make_request_stream m date ct evcon req method uri) as (evcon' & req' & E & Eh & _ & Hc'); [done..|].
  exists evcon', req'. split; [done|]. rewrite Hc', drop_app_length, <-!app_assoc, Eh. intros Hci.
  assert (∀ c, c ∈ request_line req method uri → c ≠ 0 ∧ c ≠ 10) as Hline.
  { intros c. unfold request_line. rewrite !elem_of_app, !list_elem_of_singleton. intros [Hin|[->|[Hin|[->|Hin]]]]; [|lia|..|lia|].
    - apply (method_chars _ _ _ Hme) in Hin. lia.
    - apply (proj1 (Forall_forall _ _) Huri) in Hin. tauto.
    - apply version_text_chars in Hin; [lia|done]. }
  destruct (read_line _ _ inp Hi Hmax Hci) as (inp1 & Er & Hi1 & Hc1); [intros Hin; by apply Hline in Hin as [_ ?]|].
  unfold evhttp_parse_firstline_. rewrite (Hm 0%nat), (Hm 1%nat), Er, bind_some_eq. cbv iota beta.
  assert ((match con with Some (l, _) => l <? Z.of_nat (length (request_line req method uri)) | None => false end) = false) as ->.
  { destruct con as [[l http]|]; [|done]. specialize (Hcon l http eq_refl). rewrite length_app in Hcon. apply Z.ltb_ge. lia. }
  rewrite c_text_id by (intros Hin; by apply Hline in Hin as [? _]). cbn [rq_kind set_rq_headers_size]. rewrite Hkr.
  rewrite (request_line_parse mem (snd <$> con) req _ (rq_type req) method uri elems); try done;
    [|intros Hin; apply (proj1 (Forall_forall _ _) Huri) in Hin; tauto|intros Ha; destruct (Habs Ha) as [? ->]; by eexists].
  rewrite bind_some_eq. cbn [Z.eqb].
  set (r' := request_parsed (snd <$> con) (rq_type req) uri elems req _).
  assert (rq_type r' = rq_type req ∧ rq_uri r' = Some uri ∧ rq_major r' = rq_major req ∧ rq_minor r' = rq_minor req ∧ rq_headers_size r' = Z.of_nat (length (request_line req method uri))) as (R1 & R2 & R3 & R4 & R5).
  { unfold r', request_parsed. cbv zeta. destruct (uri_scheme elems), (uri_host elems); try done. by destruct (_ && _). }
  assert (bf_total_len inp1 <= EV_SSIZE_MAX) as Hmax1.
  { pose proof (bo_total _ (st_ok _ Hi)) as T1. pose proof (bo_total _ (st_ok _ Hi1)) as T2. rewrite Hci in T1. rewrite Hc1 in T2. rewrite !length_app in *. lia. }
  destruct (parse_headers_ok m (fst <$> con) (mk_hs [] (rq_headers_size r')) inp1 Hi1 Hmax1 Hm) as (status & st' & inp2 & E2 & _ & P).
  destruct (parse_text_headers (fst <$> con) (sent_headers m req) (mk_hs [] (rq_headers_size r')) (sent_body m req ++ rest) Hplain) as (n & E').
  { intros l Hl. destruct con as [[l' http]|]; [|done]. injection Hl as <-. specialize (Hcon l' http eq_refl). rewrite length_app in Hcon. cbn [hs_size]. rewrite R5. lia. }
  rewrite Hc1, E' in P. injection P as <- <- P3. exists r', inp1, n, inp2. split_and!; done.
Qed.

(** ** Virtual hosts *)

(** What the patterns of virtual hosts mean: a star stands for any characters
    that are followed by at least one more. *)
Inductive host_glob : bytes → bytes → Prop :=
  | glob_end : host_glob [] []
  | glob_star p s1 s2 : s2 ≠ [] → host_glob p s2 → host_glob (42 :: p) (s1 ++ s2)
  | glob_char c d p n : c ≠ 42 → EVUTIL_TOLOWER_ c = EVUTIL_TOLOWER_ d → host_glob p n → host_glob (c :: p) (d :: n).

Fixpoint try_from (p name : bytes) (ic : bool) : bool :=
  match name with
  | [] => false
  | _ :: name' => if prefix_suffix_match p name ic then true else try_from p name' ic
  end.

Lemma match_star p name ic : prefix_suffix_match (42 :: p) name ic = try_from p name ic.
Proof. cbn [prefix_suffix_match Z.eqb Pos.eqb]. induction name as [|c name IH]; [done|]. cbn [try_from]. by rewrite IH. Qed.

Lemma try_from_true p name ic :
  try_from p name ic = true ↔ ∃ s1 s2, name = s1 ++ s2 ∧ s2 ≠ [] ∧ prefix_suffix_match p s2 ic = true.
Proof.
  induction name as [|c name IH]; cbn [try_from].
  - split; [done|]. intros (s1 & s2 & E & Hne & _). symmetry in E. by apply app_nil in E as [_ ->].
  - destruct (prefix_suffix_match p (c :: name) ic) eqn:Em; [split; [|done]; intros _; by exists [], (c :: name)|].
    rewrite IH. split.
    + intros (s1 & s2 & -> & Hne & Hm). by exists (c :: s1), s2.
    + intros ([|x s1] & s2 & E & Hne & Hm); [cbn in E; congruence|]. injection E as _ ->. by exists s1, s2.
Qed.

(** The recursive matcher decides the relation. *)
Lemma vhost_match_glob p name :
  c_string p → c_string name → prefix_suffix_match p name true = true ↔ host_glob p name.
Proof.
  intros Hp. revert name. induction Hp as [|c p Hc Hp IH]; intros name Hn.
  - cbn. rewrite bool_decide_eq_true. split; [intros ->; constructor|by inversion 1].
  - destruct (Z.eqb_spec c 42) as [->|Hne].
    + rewrite match_star, try_from_true. split.
      * intros (s1 & s2 & -> & Hs & Hm). apply Forall_app in Hn as [_ Hn]. constructor; [done|]. by apply IH.
      * inversion 1 as [|? s1 s2 Hs Hg|]; subst; [|done]. apply Forall_app in Hn as [_ Hn]. exists s1, s2. split_and!; [done..|]. by apply IH.
    + cbn [prefix_suffix_match]. rewrite (proj2 (Z.eqb_neq c 42) Hne). destruct Hn as [|d name Hd Hn]; cbn [char_at lookup list_lookup default from_option id].
      * change (EVUTIL_TOLOWER_ 0) with 0. rewrite (proj2 (Z.eqb_neq c 0)) by lia.
        rewrite (proj2 (Z.eqb_neq (EVUTIL_TOLOWER_ c) 0)) by (intros E; apply tolower_zero in E; unfold is_byte; lia).
        split; [done|by inversion 1].
      * cbn [drop]. rewrite drop_0. cbn [negb orb]. destruct (Z.eqb_spec c d) as [->|Hcd]; cbn [negb andb].
        -- rewrite IH by done. split; [by constructor|by inversion 1].
        -- destruct (Z.eqb_spec (EVUTIL_TOLOWER_ c) (EVUTIL_TOLOWER_ d)) as [E|E]; cbn [negb].
           ++ rewrite IH by done. split; [by constructor|by inversion 1].
           ++ split; [done|by inversion 1].
Qed.

(** A pattern that ends in a star matches no name at all, not even one that
    agrees with all that is before the star, although the documentation says that
    patterns follow the rules of the shell. *)
Theorem trailing_star_never_matches p name ic : prefix_suffix_match (p ++ [42]) name ic = false.
Proof.
  revert name. induction p as [|c p IH]; intros name; cbn [app].
  - rewrite match_star. apply not_true_iff_false. rewrite try_from_true. intros (s1 & s2 & _ & Hne & Hm).
    cbn in Hm. by apply bool_decide_eq_true in Hm.
  - destruct (Z.eqb_spec c 42) as [->|Hne].
    + rewrite match_star. apply not_true_iff_false. rewrite try_from_true. intros (s1 & s2 & _ & _ & Hm). by rewrite IH in Hm.
    + cbn [prefix_suffix_match]. rewrite (proj2 (Z.eqb_neq c 42) Hne). destruct (_ && _); [done|apply IH].
Qed.
