(* ===== verification/HttpExamples.v ===== *)
(** * Concrete HTTP messages

    Applications of the theorems on messages to small buffers, and what the code
    makes of some odd messages. *)

From S2P Require Import Prelude Clib Util.
From S2P Require Import BufferCore BufferMove BufferSearch BufferInv BufferStream BufferPrintf BufferExamples.
From S2P Require Import Uri UriProps HttpHeaders HttpHeaderProps HttpMsg HttpMsgProps HttpChunks.

(** A buffer with [data] in one block that has some more room. *)
Definition stream_of (data : bytes) : evbuffer :=
  mk_evbuffer [mk_chain (data ++ replicate 16 POISON) 0 (length data) 0] 0 (Z.of_nat (length data)) 0 0
    false false false 0 1 [] 0 false [].

Lemma stream_of_content data : content (stream_of data) = data.
Proof. unfold content, bytes_of, data_of. cbn. by rewrite drop_0, app_nil_r, take_app_length. Qed.

Lemma stream_of_ok data : Z.of_nat (length data) <= 10000 → stream_ok (stream_of data).
Proof.
  intros Hl. assert (buffer_len (mk_chain (data ++ replicate 16 POISON) 0 (length data) 0) = (length data + 16)%nat) as Hb.
  { unfold buffer_len. cbn [c_buffer]. by rewrite length_app, length_replicate. }
  split; [|split|done|done].
  - constructor; [|by rewrite stream_of_content|cbn; lia..]. constructor; [|cbn; lia|constructor]. constructor; [|constructor].
    split; rewrite ?Hb; cbn; [lia|right; lia].
  - constructor; [|constructor]. split_and!; [done|rewrite Hb; change BLOCK_MAX with 2305843009213693952; lia|].
    intros _. unfold CHAIN_SPACE_LEN. rewrite Hb. cbn [c_flags c_misalign c_off]. change (0 &? EVBUFFER_IMMUTABLE) with false. cbv iota. lia.
  - constructor.
Qed.

Definition empty_stream : evbuffer := bx0.
Lemma empty_stream_ok : stream_ok empty_stream.
Proof. split; [apply bx0_ok|apply shape_nil|done|done]. Qed.

(** Closes the conditions on small buffers and on memory. *)
Ltac stream_side :=
  first [ apply stream_of_ok; vm_compute; discriminate | apply empty_stream_ok | exact (λ _, eq_refl)
        | vm_compute; discriminate | vm_compute; reflexivity | done ].

(** ** Headers *)

Definition hdr_host : evkeyval := mk_kv (text "Host") (text "example.org").
Definition hdr_accept : evkeyval := mk_kv (text "Accept") (text "*/*;q=0.1").

(** Checks every character of a concrete text. *)
Ltac each_char := apply (bool_decide_unpack _); vm_compute; exact I.
Ltac plain := split; [each_char|reflexivity|each_char|each_char|vm_compute; intros c [= <-]; reflexivity].
Lemma hdr_host_plain : plain_header hdr_host.
Proof. plain. Qed.
Lemma hdr_accept_plain : plain_header hdr_accept.
Proof. plain. Qed.

Definition first_part : bytes := header_text hdr_host ++ text "Acc".
Definition second_part : bytes := text "ept:  */*;q=0.1 " ++ CRLF ++ CRLF ++ text "body".

Lemma headers_incremental_witness :
  ∃ st' more', hs_headers st' = [hdr_host] ∧
    evhttp_parse_headers_ all_ok (Some 200) st' (stream_of (text "Acc" ++ second_part)) =
      Some (ALL_DATA_READ, mk_hs [hdr_host; hdr_accept] 36, more') ∧ content more' = text "body".
Proof.
  edestruct (headers_incremental all_ok (Some 200) (mk_hs [] 0) (stream_of first_part) (stream_of (first_part ++ second_part)))
    as (more' & H1 & H2); [stream_side|stream_side| |stream_side|stream_side|stream_side| |vm_compute; reflexivity| |vm_compute; reflexivity|].
  - apply (stream_of_ok (text "Acc" ++ second_part)). vm_compute. discriminate.
  - vm_compute. discriminate.
  - exists second_part. split; vm_compute; reflexivity.
  - eexists _, more'. split; [|split; [exact H1|]]; [reflexivity|]. rewrite H2. vm_compute. reflexivity.
Defined.

Lemma headers_roundtrip_witness :
  ∃ out', write_headers all_ok [hdr_host; hdr_accept] empty_stream = Some out' ∧
    ∃ n inp', evhttp_parse_headers_ all_ok None (mk_hs [] 0) (stream_of (headers_text [hdr_host; hdr_accept] ++ text "rest")) =
      Some (ALL_DATA_READ, mk_hs [hdr_host; hdr_accept] n, inp') ∧ content inp' = text "rest".
Proof.
  destruct (headers_roundtrip all_ok [hdr_host; hdr_accept] empty_stream
    (stream_of (headers_text [hdr_host; hdr_accept] ++ text "rest")) (text "rest")) as (out' & H1 & _ & H2).
  - constructor; [apply hdr_host_plain|constructor; [apply hdr_accept_plain|constructor]].
  - stream_side.
  - stream_side.
  - stream_side.
  - repeat constructor; vm_compute; reflexivity.
  - vm_compute. discriminate.
  - vm_compute. discriminate.
  - exists out'. split; [exact H1|]. destruct H2 as (n & inp' & H3 & _ & H4); [|eauto].
    vm_compute in H1. injection H1 as <-. vm_compute. reflexivity.
Defined.

Lemma header_value_ends_headers_witness :
  ∃ n inp', evhttp_parse_headers_ all_ok None (mk_hs [] 0)
      (stream_of (headers_text [mk_kv (text "Host") (text "example.org" ++ CRLF ++ CRLF ++ text " injected"); hdr_accept])) =
    Some (ALL_DATA_READ, mk_hs [hdr_host] n, inp') ∧ content inp' = text " injected" ++ CRLF ++ headers_text [hdr_accept].
Proof.
  destruct (header_value_ends_headers all_ok hdr_host (text "injected") [hdr_accept]
    (stream_of (headers_text [mk_kv (text "Host") (text "example.org" ++ CRLF ++ CRLF ++ text " injected"); hdr_accept])) [])
    as (_ & n & inp' & H1 & H2).
  - apply hdr_host_plain.
  - each_char.
  - stream_side.
  - stream_side.
  - vm_compute. discriminate.
  - vm_compute. reflexivity.
  - exists n, inp'. split; [exact H1|]. rewrite H2. reflexivity.
Defined.

(** ** Messages *)

Definition no_request : evhttp_request :=
  mk_req EVHTTP_REQUEST EVHTTP_REQ_GET 0 [] [] 0 0 None None 0 0 0 None empty_stream (-1) false false empty_stream.
Definition some_connection : evhttp_connection := mk_con EVCON_WRITING 0 EV_SIZE_MAX EV_SIZE_MAX None empty_stream true 0.

Definition reply_in_pieces : evhttp_request := set_rq_chunked true (set_rq_response_code 200 no_request).
Definition pieces : list evbuffer := [stream_of (text "Wiki"); stream_of (text "pedia in chunks")].
Definition pieces_text : bytes :=
  text "4" ++ CRLF ++ text "Wiki" ++ CRLF ++ text "f" ++ CRLF ++ text "pedia in chunks" ++ CRLF ++ text "0" ++ CRLF ++ CRLF.

Lemma waiting_request : waiting no_request.
Proof. split; [reflexivity|apply empty_stream_ok|reflexivity|reflexivity|done]. Qed.

(** The callback keeps a list of the chunks. *)
Lemma chunked_roundtrip_witness :
  ∃ evcon', send_chunks all_ok some_connection reply_in_pieces pieces = Some evcon' ∧
    ∃ req' inp', evhttp_handle_chunked_read (Some (λ w r, Some (w ++ [content (rq_input_buffer r)], r))) all_ok 100 []
        no_request (stream_of (pieces_text ++ text "next")) =
      Some (ALL_DATA_READ, [text "Wiki"; text "pedia in chunks"], req', inp') ∧
      content inp' = CRLF ++ text "next" ∧ rq_body_size req' = 19.
Proof.
  destruct (chunked_roundtrip (λ (w : list bytes) d, w ++ [d]) all_ok 100 [] some_connection reply_in_pieces no_request
    (stream_of (pieces_text ++ text "next")) pieces (text "next")) as (evcon' & H1 & H2).
  - stream_side.
  - constructor; [|constructor; [|constructor]];
      (split; [apply stream_of_ok; vm_compute; discriminate|split; [vm_compute; discriminate|vm_compute; reflexivity]]).
  - stream_side.
  - reflexivity.
  - reflexivity.
  - vm_compute. discriminate.
  - apply waiting_request.
  - stream_side.
  - vm_compute. discriminate.
  - vm_compute. discriminate.
  - lia.
  - exists evcon'. split; [exact H1|]. destruct H2 as (req' & inp' & H3 & H4 & H5); [|exists req', inp'; split; [exact H3|split; [exact H4|]]].
    + vm_compute in H1. injection H1 as <-. vm_compute. reflexivity.
    + rewrite H5. vm_compute. reflexivity.
Defined.

Lemma method_switch_correct_witness : parse_method (text "DELETE") = EVHTTP_REQ_DELETE.
Proof. apply (method_switch_correct (text "DELETE") EVHTTP_REQ_DELETE); [discriminate|reflexivity]. Defined.

(** A POST with a header and a body; the sender adds the length. *)
Definition post_request : evhttp_request :=
  set_rq_output_buffer (stream_of (text "a=b")) (set_rq_output_headers [hdr_host] (set_rq_uri (Some (text "/form?x=1"))
    (set_rq_minor 1 (set_rq_major 1 (set_rq_type EVHTTP_REQ_POST no_request))))).
Definition post_text : bytes :=
  text "POST /form?x=1 HTTP/1.1" ++ CRLF ++ text "Host: example.org" ++ CRLF ++ text "Content-Length: 3" ++ CRLF ++ CRLF ++ text "a=b".
Definition form_uri : evhttp_uri := mk_uri 1 None None None (-1) (Some (text "/form")) (Some (text "x=1")) None.
Definition one_server : evhttp := mk_evhttp [] [] [].

Lemma http_request_roundtrip_witness :
  ∃ evcon' req', evhttp_make_header all_ok [] None some_connection post_request = Some (evcon', req') ∧
    content (con_output evcon') = post_text ∧
    ∃ r' inp' n inp'', evhttp_parse_firstline_ all_mem all_ok (Some (4096, one_server)) no_request (stream_of post_text) = Some (ALL_DATA_READ, r', inp') ∧
      rq_type r' = EVHTTP_REQ_POST ∧ rq_uri r' = Some (text "/form?x=1") ∧
      evhttp_parse_headers_ all_ok (Some 4096) (mk_hs [] (rq_headers_size r')) inp' =
        Some (ALL_DATA_READ, mk_hs [hdr_host; mk_kv (text "Content-Length") (text "3")] n, inp'') ∧
      content inp'' = text "a=b".
Proof.
  destruct (http_request_roundtrip all_mem all_ok [] None (Some (4096, one_server)) some_connection post_request (text "POST") (text "/form?x=1") form_uri
    no_request (stream_of post_text) []) as (evcon' & req' & H1 & H2).
  - reflexivity.
  - reflexivity.
  - reflexivity.
  - split; cbn; lia.
  - each_char.
  - vm_compute. reflexivity.
  - assert (sent_headers all_ok post_request = [hdr_host; mk_kv (text "Content-Length") (text "3")]) as -> by (vm_compute; reflexivity).
    constructor; [apply hdr_host_plain|constructor; [plain|constructor]].
  - stream_side.
  - apply stream_of_ok. vm_compute. discriminate.
  - stream_side.
  - split; [vm_compute; discriminate|vm_compute; reflexivity].
  - reflexivity.
  - stream_side.
  - vm_compute. discriminate.
  - intros _. eexists. reflexivity.
  - intros l http [= <- <-]. vm_compute. split; [discriminate|reflexivity].
  - pose proof H1 as H1'. vm_compute in H1'. injection H1' as <- <-. eexists _, _. split; [exact H1|]. split; [vm_compute; reflexivity|].
    destruct H2 as (r' & inp' & n & inp'' & E1 & E2 & E3 & _ & _ & E4 & E5); [vm_compute; reflexivity|].
    exists r', inp', n, inp''. split; [exact E1|]. split; [exact E2|]. split; [exact E3|]. split; [exact E4|]. rewrite E5. vm_compute. reflexivity.
Defined.

(** The reasons of 306 and 307: the table has no entry for 306, so that 307 is
    taken for a code without one. *)
Example phrase_306 : evhttp_response_phrase_internal 306 = Some (text "Temporary Redirect").
Proof. vm_compute. reflexivity. Qed.
Example phrase_307 : evhttp_response_phrase_internal 307 = Some (text "Redirection").
Proof. vm_compute. reflexivity. Qed.
Example pattern_www_star : prefix_suffix_match (text "www.*") (text "www.example.org") true = false.
Proof. vm_compute. reflexivity. Qed.
Example pattern_star_org : prefix_suffix_match (text "*.ORG") (text "www.example.org") true = true.
Proof. vm_compute. reflexivity. Qed.
Example escape_html : evhttp_htmlescape true (Some (text "<a&b>")) = Some (text "&lt;a&amp;b&gt;").
Proof. vm_compute. reflexivity. Qed.
Example query_args : evhttp_parse_query all_mem all_ok (text "/?q=test&s=some+thing%21") =
  Some (0, [mk_kv (text "q") (text "test"); mk_kv (text "s") (text "some thing!")]).
Proof. vm_compute. reflexivity. Qed.
