(* ===== verification/DnsPacket.v ===== *)
(** * DNS packets (evdns.c)

    Names with their compression, the packets of requests, and the parsers of
    answers and of the requests a server receives.  A packet is the list of its
    bytes; a buffer that is written is a block of memory, in which a store outside
    of it is stuck. *)

From S2P Require Import Prelude Clib Util.

(** ** Constants *)

Abbreviation TYPE_A := 1.
Abbreviation TYPE_CNAME := 5.
Abbreviation TYPE_SOA := 6.
Abbreviation TYPE_PTR := 12.
Abbreviation TYPE_AAAA := 28.
Abbreviation CLASS_INET := 1.
Abbreviation MAX_V4_ADDRS := 32.
Abbreviation MAX_V6_ADDRS := 32.
Abbreviation MAX_LABELS := 128%nat.
Abbreviation DNS_ERR_NONE := 0.
Abbreviation DNS_ERR_FORMAT := 1.
Abbreviation DNS_ERR_SERVERFAILED := 2.
Abbreviation DNS_ERR_NOTEXIST := 3.
Abbreviation DNS_ERR_NOTIMPL := 4.
Abbreviation DNS_ERR_REFUSED := 5.
Abbreviation DNS_ERR_TRUNCATED := 65.
Abbreviation DNS_ERR_UNKNOWN := 66.
Abbreviation DNS_ERR_TIMEOUT := 67.
Abbreviation DNS_ERR_CANCEL := 69.
Abbreviation DNS_ERR_NODATA := 70.

(** ** Reading a packet

    A parser ends with a result, with [goto err], or is stuck. *)

Inductive parse (A : Type) := Parsed (x : A) | Bad | Stuck.
Arguments Parsed {A}.
Arguments Bad {A}.
Arguments Stuck {A}.

#[export] Instance parse_ret : MRet parse := @Parsed.
#[export] Instance parse_bind : MBind parse := λ A B f m,
  match m with Parsed x => f x | Bad => Bad | Stuck => Stuck end.

Definition len (s : bytes) : Z := Z.of_nat (length s).

(** [n] bytes of memory at offset [j] of a block. *)
Definition bytes_at (packet : bytes) (j n : Z) : parse bytes :=
  if (j <? 0) || (n <? 0) then Stuck
  else match mread (Z.to_nat j) (Z.to_nat n) packet with Some bs => Parsed bs | None => Stuck end.

(** The number in network order. *)
Definition be (bs : bytes) : Z := foldl (λ a b, a * 256 + b) 0 bs.

(** Each yields the value and the new [j]. *)
Definition GET8 (packet : bytes) (j : Z) : parse (Z * Z) :=
  if len packet <=? j then Bad else bs ← bytes_at packet j 1; Parsed (be bs, j + 1).
Definition GET16 (packet : bytes) (j : Z) : parse (Z * Z) :=
  if len packet <? j + 2 then Bad else bs ← bytes_at packet j 2; Parsed (be bs, j + 2).
Definition GET32 (packet : bytes) (j : Z) : parse (Z * Z) :=
  if len packet <? j + 4 then Bad else bs ← bytes_at packet j 4; Parsed (be bs, j + 4).

(** *** Names *)

(** A store at [cp], behind what is in the array already. *)
Definition put_name (name_out bs : bytes) (name_out_len : Z) : parse bytes :=
  if name_out_len <? len name_out + len bs then Stuck else Parsed (name_out ++ bs).

(** [name_out] is what is in front of [cp]. *)
Fixpoint name_loop (fuel : nat) (packet : bytes) (j name_end ptr_count : Z) (name_out : bytes) (name_out_len : Z) :
    parse (bytes * Z) :=
  match fuel with
  | O => Stuck
  | S fuel =>
    '(label_len, j) ← GET8 packet j;
    if label_len =? 0 then
      if name_out_len <=? len name_out then Bad
      else
        _ ← put_name name_out [0] name_out_len;
        Parsed (name_out, if name_end <? 0 then j else name_end)
    else if label_len &? 192 then
      '(ptr_low, j) ← GET8 packet j;
      let name_end := if name_end <? 0 then j else name_end in
      let j := Z.shiftl (Z.land label_len 63) 8 + ptr_low in
      if (j <? 0) || (len packet <=? j) then Bad
      else if len packet <? ptr_count + 1 then Bad
      else name_loop fuel packet j name_end (ptr_count + 1) name_out name_out_len
    else if 63 <? label_len then Bad
    else if (0 <? len name_out) && (name_out_len <=? len name_out + 1) then Bad
    else
      name_out ← (if 0 <? len name_out then put_name name_out [46] name_out_len else Parsed name_out);
      if name_out_len <=? len name_out + label_len then Bad
      else if len packet <? j + label_len then Bad
      else
        label ← bytes_at packet j label_len;
        name_out ← put_name name_out label name_out_len;
        name_loop fuel packet (j + label_len) name_end ptr_count name_out name_out_len
  end.

(** The bytes of the name and the new [*idx].  Each round jumps, at most once more
    than there are bytes in the packet, or lengthens the name. *)
Definition name_parse (packet : bytes) (idx name_out_len : Z) : parse (bytes * Z) :=
  name_loop (length packet + Z.to_nat name_out_len + 2) packet idx (-1) 0 [] name_out_len.

(** ** Writing a packet *)

Definition be16 (x : Z) : bytes := [u8 (Z.shiftr x 8); u8 x].
Definition be32 (x : Z) : bytes := [u8 (Z.shiftr x 24); u8 (Z.shiftr x 16); u8 (Z.shiftr x 8); u8 x].

(** A store of bytes at [buf + j]. *)
Definition put_at (j : Z) (bs buf : bytes) : option bytes :=
  if j <? 0 then None else memcpy_at (Z.to_nat j) bs buf.

(** *** Compression *)

(** The names in the table, in order, with their positions. *)
Abbreviation dnslabel_table := (list (bytes * Z)).

Fixpoint dnslabel_table_get_pos (table : dnslabel_table) (label : bytes) : Z :=
  match table with
  | [] => -1
  | (v, pos) :: table => if bool_decide (label = v) then pos else dnslabel_table_get_pos table label
  end.

(** Whether [mm_strdup] succeeds for the label at position [pos]. *)
Definition dnslabel_table_add (dup : Z → bool) (table : dnslabel_table) (label : bytes) (pos : Z) : dnslabel_table * Z :=
  if Nat.eqb (length table) MAX_LABELS then (table, -1)
  else if negb (dup pos) then (table, -1)
  else (table ++ [(label, pos)], 0).

(** The name up to the first dot, and what follows it. *)
Definition split_dot (name : bytes) : bytes * option bytes :=
  match strchr 46 name with
  | None => (name, None)
  | Some i => (take i name, Some (drop (S i) name))
  end.

(** The result of the function, the buffer and the table.  Without a table
    nothing is compressed. *)
Fixpoint labels_loop (fuel : nat) (dup : Z → bool) (j : Z) (name buf : bytes) (table : option dnslabel_table) :
    option (Z * bytes * option dnslabel_table) :=
  match fuel with
  | O => None
  | S fuel =>
    let ref := match table with Some t => dnslabel_table_get_pos t name | None => -1 end in
    if 0 <=? ref then
      if len buf <? j + 2 then Some (-2, buf, table)
      else buf ← put_at j (be16 (Z.lor ref 49152)) buf; Some (j + 2, buf, table)
    else
      let '(label, rest) := split_dot name in
      if 63 <? len label then Some (-1, buf, table)
      else if len buf <? j + len label + 1 then Some (-2, buf, table)
      else
        let table := (λ t, fst (dnslabel_table_add dup t name j)) <$> table in
        buf ← put_at j [u8 (len label)] buf;
        buf ← put_at (j + 1) label buf;
        let j := j + 1 + len label in
        match rest with
        | Some name => labels_loop fuel dup j name buf table
        | None =>
          b ← (if j =? 0 then Some 1 else buf !! Z.to_nat (j - 1));
          if (j =? 0) || negb (b =? 0) then
            buf ← put_at j [0] buf; Some (j + 1, buf, table)
          else Some (j, buf, table)
        end
  end.

(** [name_len] is the length of [name]; each round takes a dot off it. *)
Definition dnsname_to_labels (dup : Z → bool) (buf : bytes) (j : Z) (name : bytes) (table : option dnslabel_table) :
    option (Z * bytes * option dnslabel_table) :=
  if 255 <? len name then Some (-2, buf, table)
  else labels_loop (S (length name)) dup j name buf table.

(** *** Requests *)

(** What has been written: the buffer and [j].  A step that does not fit is the
    jump to [overflow]. *)
Definition writer := (bytes * Z)%type.
Definition APPEND (bs : bytes) (w : writer) : option (bool * writer) :=
  let '(buf, j) := w in
  if len buf <? j + len bs then Some (false, w)
  else buf ← put_at j bs buf; Some (true, (buf, j + len bs)).
Definition APPEND16 (x : Z) : writer → option (bool * writer) := APPEND (be16 x).
Definition APPEND32 (x : Z) : writer → option (bool * writer) := APPEND (be32 x).

(** One after the other, until one does not fit. *)
Fixpoint append_all (fs : list (writer → option (bool * writer))) (w : writer) : option (bool * writer) :=
  match fs with
  | [] => Some (true, w)
  | f :: fs => '(ok, w) ← f w; if (ok : bool) then append_all fs w else Some (false, w)
  end.

Definition evdns_request_len (name_len : Z) : Z := 96 + name_len + 2 + 4.

(** The result and the buffer. *)
Definition evdns_request_data_build (name : bytes) (trans_id type class : Z) (buf : bytes) : option (Z * bytes) :=
  '(ok, (buf, j)) ← append_all [APPEND16 trans_id; APPEND16 0x0100; APPEND16 1; APPEND16 0; APPEND16 0; APPEND16 0] (buf, 0);
  if negb ok then Some (-1, buf)
  else
    '(j, buf, _) ← dnsname_to_labels (λ _, true) buf j name None;
    if j <? 0 then Some (i32 j, buf)
    else
      '(ok, (buf, j)) ← append_all [APPEND16 type; APPEND16 class] (buf, j);
      Some (if (ok : bool) then i32 j else -1, buf).

(** ** Answers *)

(** [addresses] is the memory of the array in [data.a] or [data.aaaa], by
    [request_type], and [name] that of [data.ptr]. *)
Record reply := mk_reply {
  rp_type : Z;
  rp_have_answer : bool;
  rp_addrcount : Z;
  rp_addresses : bytes;
  rp_name : bytes
}.

(** [trans_id], [flags], the four counts and [j]. *)
Definition get_header (packet : bytes) : parse (Z * Z * Z * Z * Z * Z * Z) :=
  '(trans_id, j) ← GET16 packet 0;
  '(flags, j) ← GET16 packet j;
  '(questions, j) ← GET16 packet j;
  '(answers, j) ← GET16 packet j;
  '(authority, j) ← GET16 packet j;
  '(additional, j) ← GET16 packet j;
  Parsed (trans_id, flags, questions, answers, authority, additional, j).

Definition SKIP_NAME (packet : bytes) (j : Z) : parse Z := '(_, j) ← name_parse packet j 256; Parsed j.

(** The type, the class, the time to live, the length of the data, and [j]. *)
Definition get_rr (packet : bytes) (j : Z) : parse (Z * Z * Z * Z * Z) :=
  j ← SKIP_NAME packet j;
  '(type, j) ← GET16 packet j;
  '(class, j) ← GET16 packet j;
  '(ttl, j) ← GET32 packet j;
  '(datalength, j) ← GET16 packet j;
  Parsed (type, class, ttl, datalength, j).

(** The questions of the answer against that of the request. *)
Fixpoint questions_loop (n : nat) (randomize_case : bool) (packet request : bytes) (j : Z) (name_matches : bool) :
    parse (Z * bool) :=
  match n with
  | O => Parsed (j, name_matches)
  | S n =>
    let k := j in
    '(tmp_name, j) ← name_parse packet j 256;
    '(cmp_name, _) ← name_parse request k 256;
    let same := if randomize_case then evutil_ascii_strcasecmp (c_text tmp_name) (c_text cmp_name) =? 0
                else bool_decide (c_text tmp_name = c_text cmp_name) in
    let j := j + 4 in
    if len packet <? j then Bad
    else questions_loop n randomize_case packet request j (name_matches || same)
  end.

(** The loop variables: [j], [ttl_r], the reply and [*req->put_cname_in_ptr]. *)
Record answer_state := mk_as { as_j : Z; as_ttl : Z; as_reply : reply; as_cname : option (option bytes) }.

Section answers.
Context (host_name_max : Z) (dup : bytes → bool) (request_type : Z) (packet : bytes).

(** [width] bytes for each address; at most [max] are kept. *)
Definition get_addresses (width max datalength ttl : Z) (st : answer_state) : parse (answer_state * bool) :=
  if negb (Z.land datalength (width - 1) =? 0) then Bad
  else
    let r := as_reply st in
    let addrcount := datalength / width in
    let addrtocopy := Z.min (u32 (max - rp_addrcount r)) addrcount in
    if len packet <? as_j st + width * addrtocopy then Bad
    else
      data ← bytes_at packet (as_j st) (width * addrtocopy);
      if max <? rp_addrcount r + addrtocopy then Stuck
      else
        let r := mk_reply (rp_type r) true (rp_addrcount r + addrtocopy) (rp_addresses r ++ data) (rp_name r) in
        Parsed (mk_as (as_j st + width * addrtocopy) (Z.min (as_ttl st) ttl) r (as_cname st), rp_addrcount r =? max).

(** One record; the flag is [break]. *)
Definition answer_one (st : answer_state) : parse (answer_state * bool) :=
  '(type, class, ttl, datalength, j) ← get_rr packet (as_j st);
  let st := mk_as j (as_ttl st) (as_reply st) (as_cname st) in
  let skip := Parsed (mk_as (j + datalength) (as_ttl st) (as_reply st) (as_cname st), false) in
  if (type =? TYPE_A) && (class =? CLASS_INET) then
    if negb (request_type =? TYPE_A) then skip else get_addresses 4 MAX_V4_ADDRS datalength ttl st
  else if (type =? TYPE_PTR) && (class =? CLASS_INET) then
    if negb (request_type =? TYPE_PTR) then skip
    else
      '(name, j) ← name_parse packet j host_name_max;
      let r := as_reply st in
      Parsed (mk_as j (Z.min (as_ttl st) ttl) (mk_reply (rp_type r) true (rp_addrcount r) (rp_addresses r) name) (as_cname st), true)
  else if type =? TYPE_CNAME then
    match as_cname st with
    | Some None =>
      '(cname, j) ← name_parse packet j host_name_max;
      Parsed (mk_as j (as_ttl st) (as_reply st) (Some (if dup (c_text cname) then Some (c_text cname) else None)), false)
    | _ => skip
    end
  else if (type =? TYPE_AAAA) && (class =? CLASS_INET) then
    if negb (request_type =? TYPE_AAAA) then skip else get_addresses 16 MAX_V6_ADDRS datalength ttl st
  else skip.

(** The canonical name that was stored, also when the packet is bad later on. *)
Fixpoint answers_loop (n : nat) (st : answer_state) : option (option bytes) * parse answer_state :=
  match n with
  | O => (as_cname st, Parsed st)
  | S n =>
    match answer_one st with
    | Parsed (st, brk) => if (brk : bool) then (as_cname st, Parsed st) else answers_loop n st
    | Bad => (as_cname st, Bad)
    | Stuck => (as_cname st, Stuck)
    end
  end.

(** The records that say how long to remember that there is no answer. *)
Fixpoint authority_loop (n : nat) (j ttl_r : Z) : parse Z :=
  match n with
  | O => Parsed ttl_r
  | S n =>
    '(type, class, ttl, datalength, j) ← get_rr packet j;
    if (type =? TYPE_SOA) && (class =? CLASS_INET) then
      j ← SKIP_NAME packet j;
      j ← SKIP_NAME packet j;
      '(_, j) ← GET32 packet j;
      '(_, j) ← GET32 packet j;
      '(_, j) ← GET32 packet j;
      '(_, j) ← GET32 packet j;
      '(minimum, j) ← GET32 packet j;
      authority_loop n j (Z.min (Z.min ttl_r ttl) minimum)
    else authority_loop n (j + datalength) ttl_r
  end.

Definition empty_reply : reply := mk_reply request_type false 0 [] [].

(** From the questions to the end: the canonical name, and the time to live with
    the reply that [reply_handle] is called with. *)
Definition parse_answer (randomize_case : bool) (request : bytes) (questions answers authority j : Z)
    (cname : option (option bytes)) : option (option bytes) * parse (Z * reply) :=
  match questions_loop (Z.to_nat questions) randomize_case packet request j false with
  | Bad => (cname, Bad)
  | Stuck => (cname, Stuck)
  | Parsed (_, false) => (cname, Bad)
  | Parsed (j, true) =>
    let '(cname, st) := answers_loop (Z.to_nat answers) (mk_as j 4294967295 empty_reply cname) in
    (cname,
     st ← st;
     ttl_r ← (if rp_have_answer (as_reply st) then Parsed (as_ttl st)
              else authority_loop (Z.to_nat authority) (as_j st) (as_ttl st));
     Parsed (if ttl_r =? 4294967295 then 0 else ttl_r, as_reply st))
  end.
End answers.

(** ** Servers *)

Record evdns_server_question := mk_question { q_type : Z; q_class : Z; q_name : bytes }.

Record server_reply_item := mk_item {
  it_name : bytes;
  it_type : Z;
  it_class : Z;
  it_ttl : Z;
  it_is_name : bool;
  it_datalen : Z;
  it_data : option bytes
}.

Record server_request := mk_sreq {
  sr_trans_id : Z;
  sr_n_answer : Z;
  sr_n_authority : Z;
  sr_n_additional : Z;
  sr_answer : list server_reply_item;
  sr_authority : list server_reply_item;
  sr_additional : list server_reply_item;
  sr_response : option bytes;
  sr_flags : Z;
  sr_questions : list evdns_server_question
}.

(** *** Parsing a request *)

Fixpoint get_questions (n : nat) (mem : bytes → bool) (packet : bytes) (j : Z) (qs : list evdns_server_question) :
    parse (list evdns_server_question) :=
  match n with
  | O => Parsed qs
  | S n =>
    '(tmp_name, j) ← name_parse packet j 256;
    '(type, j) ← GET16 packet j;
    '(class, j) ← GET16 packet j;
    let name := c_text tmp_name in
    if negb (mem name) then Bad else get_questions n mem packet j (qs ++ [mk_question type class name])
  end.

(** What is done with a request that was parsed. *)
Inductive request_action := respond_notimpl (req : server_request) | call_user (req : server_request).

(** [malloc_ok] and [calloc_ok] are the request and its array of questions. *)
Definition request_parse (malloc_ok calloc_ok : bool) (mem : bytes → bool) (packet : bytes) : parse request_action :=
  '(trans_id, flags, questions, _, _, _, j) ← get_header packet;
  if flags &? 0x8000 then Bad
  else
    let flags := Z.land flags 0x0110 in
    if negb malloc_ok then Bad
    else if negb calloc_ok then Bad
    else
      qs ← get_questions (Z.to_nat questions) mem packet j [];
      let req := mk_sreq trans_id 0 0 0 [] [] [] None flags qs in
      Parsed (if flags &? 0x7800 then respond_notimpl req else call_user req).

(** *** Building a response *)

Abbreviation EVDNS_ANSWER_SECTION := 0.
Abbreviation EVDNS_AUTHORITY_SECTION := 1.
Abbreviation EVDNS_ADDITIONAL_SECTION := 2.
Abbreviation EVDNS_FLAGS_AA := 0x400.
Abbreviation EVDNS_FLAGS_RD := 0x080.

(** The record that is made, if its parts can be allocated: the item, the name and
    the data ([malloc] of a number of bytes).  [data] must have [datalen] bytes. *)
Definition make_item (item_ok name_ok : bool) (malloc : Z → bool) (name : bytes) (type class ttl datalen : Z)
    (is_name : bool) (data : option bytes) : option (option server_reply_item) :=
  if negb item_ok || negb name_ok then Some None
  else
    let item := mk_item name (u16 type) (u16 class) (u32 ttl) is_name in
    match data with
    | None => Some (Some (item 0 None))
    | Some data =>
      if is_name then Some (if malloc (len data + 1) then Some (item 65535 (Some data)) else None)
      else if negb (malloc (u64 datalen)) then Some None
      else if (datalen <? 0) || (len data <? datalen) then None
      else Some (Some (item (u16 datalen) (Some (take (Z.to_nat datalen) data))))
    end.

Definition evdns_server_request_add_reply (item_ok name_ok : bool) (malloc : Z → bool) (req : server_request) (section : Z)
    (name : bytes) (type class ttl datalen : Z) (is_name : bool) (data : option bytes) : option (Z * server_request) :=
  match sr_response req with
  | Some _ => Some (-1, req)
  | None =>
    if negb ((section =? EVDNS_ANSWER_SECTION) || (section =? EVDNS_AUTHORITY_SECTION) || (section =? EVDNS_ADDITIONAL_SECTION))
    then Some (-1, req)
    else
      item ← make_item item_ok name_ok malloc name type class ttl datalen is_name data;
      match item with
      | None => Some (-1, req)
      | Some item =>
        let '(mk_sreq id nan nau nad an au ad resp flags qs) := req in
        Some (0,
          if section =? EVDNS_ANSWER_SECTION then mk_sreq id (nan + 1) nau nad (an ++ [item]) au ad resp flags qs
          else if section =? EVDNS_AUTHORITY_SECTION then mk_sreq id nan (nau + 1) nad an (au ++ [item]) ad resp flags qs
          else mk_sreq id nan nau (nad + 1) an au (ad ++ [item]) resp flags qs)
      end
  end.

Section add_reply.
Context (item_ok name_ok : bool) (malloc : Z → bool).

Definition evdns_server_request_add_a_reply (req : server_request) (name : bytes) (n : Z) (addrs : option bytes) (ttl : Z) :
    option (Z * server_request) :=
  evdns_server_request_add_reply item_ok name_ok malloc req EVDNS_ANSWER_SECTION name TYPE_A CLASS_INET ttl (i32 (n * 4)) false addrs.

Definition evdns_server_request_add_aaaa_reply (req : server_request) (name : bytes) (n : Z) (addrs : option bytes) (ttl : Z) :
    option (Z * server_request) :=
  evdns_server_request_add_reply item_ok name_ok malloc req EVDNS_ANSWER_SECTION name TYPE_AAAA CLASS_INET ttl (i32 (n * 16)) false addrs.

(** The name of an address in the domain in-addr.arpa; [a] is the address in the
    order of the machine. *)
Definition inaddr_arpa (a : Z) : bytes :=
  let byte k := print_d (u8 (Z.land (Z.shiftr a k) 255)) in
  default [] (fst (evutil_snprintf 32
    (byte 0 ++ [46] ++ byte 8 ++ [46] ++ byte 16 ++ [46] ++ byte 24 ++ bytes_of_string ".in-addr.arpa"))).

Definition evdns_server_request_add_ptr_reply (req : server_request) (addr : option Z) (inaddr_name : option bytes)
    (hostname : option bytes) (ttl : Z) : option (Z * server_request) :=
  match addr, inaddr_name with
  | Some _, Some _ | None, None => Some (-1, req)
  | Some a, None =>
    evdns_server_request_add_reply item_ok name_ok malloc req EVDNS_ANSWER_SECTION (inaddr_arpa a) TYPE_PTR CLASS_INET ttl (-1) true hostname
  | None, Some name =>
    evdns_server_request_add_reply item_ok name_ok malloc req EVDNS_ANSWER_SECTION name TYPE_PTR CLASS_INET ttl (-1) true hostname
  end.

Definition evdns_server_request_add_cname_reply (req : server_request) (name : bytes) (cname : option bytes) (ttl : Z) :
    option (Z * server_request) :=
  evdns_server_request_add_reply item_ok name_ok malloc req EVDNS_ANSWER_SECTION name TYPE_CNAME CLASS_INET ttl (-1) true cname.
End add_reply.

Definition set_sr_flags (v : Z) (r : server_request) : server_request :=
  mk_sreq (sr_trans_id r) (sr_n_answer r) (sr_n_authority r) (sr_n_additional r) (sr_answer r) (sr_authority r)
    (sr_additional r) (sr_response r) v (sr_questions r).
Definition set_sr_response (v : option bytes) (r : server_request) : server_request :=
  mk_sreq (sr_trans_id r) (sr_n_answer r) (sr_n_authority r) (sr_n_additional r) (sr_answer r) (sr_authority r)
    (sr_additional r) v (sr_flags r) (sr_questions r).

Definition evdns_server_request_set_flags (req : server_request) (flags : Z) : server_request :=
  set_sr_flags (Z.lor (Z.land (sr_flags req) (Z.lnot (Z.lor EVDNS_FLAGS_AA EVDNS_FLAGS_RD))) flags) req.

Definition server_request_free_answers (req : server_request) : server_request :=
  mk_sreq (sr_trans_id req) (sr_n_answer req) (sr_n_authority req) (sr_n_additional req) [] [] []
    (sr_response req) (sr_flags req) (sr_questions req).

(** *** Formatting a response

    [j] and the buffer, with the table of names; the flag says that the next step
    is not the jump to [overflow]. *)

Section format.
Context (dup : Z → bool).

(** [Some r] is the early return of [r]. *)
Fixpoint format_questions (qs : list evdns_server_question) (w : writer) (table : dnslabel_table) :
    option (option Z * bool * writer * dnslabel_table) :=
  match qs with
  | [] => Some (None, true, w, table)
  | q :: qs =>
    '(j, buf, table) ← dnsname_to_labels dup (fst w) (snd w) (q_name q) (Some table);
    table ← table;
    if j <? 0 then Some (Some (i32 j), true, (buf, j), table)
    else
      '(ok, w) ← append_all [APPEND16 (q_type q); APPEND16 (q_class q)] (buf, j);
      if (ok : bool) then format_questions qs w table else Some (None, false, w, table)
  end.

(** The data of a record: a name with its length in front, or bytes. *)
Definition format_data (item : server_reply_item) (w : writer) (table : dnslabel_table) : option (bool * writer * dnslabel_table) :=
  let '(buf, j) := w in
  if it_is_name item then
    data ← it_data item;
    let len_idx := j in
    let name_start := j + 2 in
    '(r, buf, table) ← dnsname_to_labels dup buf name_start data (Some table);
    table ← table;
    if r <? 0 then Some (false, (buf, name_start), table)
    else
      buf ← put_at len_idx (be16 (u16 (r - name_start))) buf;
      Some (true, (buf, r), table)
  else
    '(ok, w) ← APPEND16 (it_datalen item) (buf, j);
    if negb ok then Some (false, w, table)
    else
      let '(buf, j) := w in
      if len buf <? j + it_datalen item then Some (false, w, table)
      else
        data ← mread 0 (Z.to_nat (it_datalen item)) (default [] (it_data item));
        buf ← put_at j data buf;
        Some (true, (buf, j + it_datalen item), table).

Fixpoint format_items (items : list server_reply_item) (w : writer) (table : dnslabel_table) :
    option (bool * writer * dnslabel_table) :=
  match items with
  | [] => Some (true, w, table)
  | item :: items =>
    '(r, buf, table) ← dnsname_to_labels dup (fst w) (snd w) (it_name item) (Some table);
    table ← table;
    if r <? 0 then Some (false, (buf, snd w), table)
    else
      '(ok, w) ← append_all [APPEND16 (it_type item); APPEND16 (it_class item); APPEND32 (it_ttl item)] (buf, r);
      if negb ok then Some (false, w, table)
      else
        '(ok, w, table) ← format_data item w table;
        if (ok : bool) then format_items items w table else Some (false, w, table)
  end.

(** The response is cut off at 512 bytes. *)
Definition format_finish (malloc_ok ok : bool) (w : writer) (req : server_request) : option (Z * server_request) :=
  let '(buf, j) := w in
  '(buf, j) ← (if negb ok || (512 <? j) then
                 b ← buf !! 2%nat; buf ← put_at 2 [Z.lor b 2] buf; Some (buf, 512)
               else Some (buf, j));
  if negb malloc_ok then Some (-1, server_request_free_answers req)
  else
    response ← mread 0 (Z.to_nat j) buf;
    Some (0, server_request_free_answers (set_sr_response (Some response) req)).

(** [buf] is what is in the local array of 1500 bytes at the start. *)
Definition evdns_server_request_format_response (malloc_ok : bool) (buf : bytes) (req : server_request) (err : Z) :
    option (Z * server_request) :=
  if (err <? 0) || (15 <? err) then Some (-1, req)
  else
    let flags := u16 (Z.lor (u16 (sr_flags req)) (Z.lor 0x8000 err)) in
    '(ok, w) ← append_all [APPEND16 (sr_trans_id req); APPEND16 flags; APPEND16 (Z.of_nat (length (sr_questions req)));
                           APPEND16 (sr_n_answer req); APPEND16 (sr_n_authority req); APPEND16 (sr_n_additional req)] (buf, 0);
    if negb ok then format_finish malloc_ok false w req
    else
      '(ret, ok, w, table) ← format_questions (sr_questions req) w [];
      match ret with
      | Some r => Some (r, req)
      | None =>
        if negb ok then format_finish malloc_ok false w req
        else
          '(ok, w, table) ← format_items (sr_answer req ++ sr_authority req ++ sr_additional req) w table;
          format_finish malloc_ok ok w req
      end.
End format.
