(* ===== verification/DnsNames.v ===== *)
(** * DNS names: parsing is safe, and names survive the wire *)

From S2P Require Import Prelude Clib Util DnsPacket.

(** ** Reading *)

Lemma len_nonneg s : 0 <= len s.
Proof. unfold len. lia. Qed.
#[export] Hint Resolve len_nonneg : ev.

Lemma len_app s t : len (s ++ t) = len s + len t.
Proof. unfold len. rewrite length_app. lia. Qed.

Lemma len_cons c s : len (c :: s) = 1 + len s.
Proof. unfold len. cbn [length]. lia. Qed.

Lemma bytes_at_some packet j n : 0 <= j → 0 <= n → j + n <= len packet →
  ∃ bs, bytes_at packet j n = Parsed bs ∧ len bs = n.
Proof.
  intros Hj Hn Hle. unfold bytes_at. destruct (Z.ltb_spec j 0); [lia|]. destruct (Z.ltb_spec n 0); [lia|]. cbn.
  unfold len in *. rewrite mread_ok by lia. eexists. split; [done|]. rewrite length_take, length_drop. lia.
Qed.

Lemma bytes_at_inv packet j n bs : bytes_at packet j n = Parsed bs → 0 <= j ∧ len bs = n ∧ j + n <= len packet.
Proof.
  unfold bytes_at, mread, len. destruct (Z.ltb_spec j 0), (Z.ltb_spec n 0); try done. cbn.
  destruct (Nat.leb_spec (Z.to_nat j + Z.to_nat n) (length packet)); [|done]. intros [= <-].
  rewrite length_take, length_drop. lia.
Qed.

(** What is behind the bytes does not matter. *)
Lemma bytes_at_app packet more j n bs : bytes_at packet j n = Parsed bs → bytes_at (packet ++ more) j n = Parsed bs.
Proof.
  intros H. pose proof (bytes_at_inv _ _ _ _ H) as (Hj & Hn & Hle). revert H. unfold bytes_at, len in *.
  destruct (Z.ltb_spec j 0); [lia|]. destruct (Z.ltb_spec n 0); [lia|]. cbn.
  rewrite !mread_ok by (rewrite ?length_app; lia). intros [= <-]. f_equal.
  rewrite drop_app_le by lia. rewrite take_app_le; [done|]. rewrite length_drop. lia.
Qed.

Lemma bytes_at_here pre bs more : bytes_at (pre ++ bs ++ more) (len pre) (len bs) = Parsed bs.
Proof.
  unfold bytes_at, len. destruct (Z.ltb_spec (Z.of_nat (length pre)) 0); [lia|].
  destruct (Z.ltb_spec (Z.of_nat (length bs)) 0); [lia|]. cbn.
  rewrite mread_ok by (rewrite !length_app; lia). rewrite !Nat2Z.id, drop_app_length, take_app_length. done.
Qed.

Lemma bytes_at_byte packet j n bs : Forall is_byte packet → bytes_at packet j n = Parsed bs → Forall is_byte bs.
Proof.
  intros Hb. unfold bytes_at, mread. destruct (_ || _); [done|]. destruct (_ <=? _)%nat; [|done]. intros [= <-].
  by apply Forall_take, Forall_drop.
Qed.

Lemma GET8_cases packet j : 0 <= j →
  GET8 packet j = Bad ∨ ∃ x, GET8 packet j = Parsed (x, j + 1) ∧ j + 1 <= len packet ∧ bytes_at packet j 1 = Parsed [x].
Proof.
  intros Hj. unfold GET8. destruct (Z.leb_spec (len packet) j); [by left|right].
  destruct (bytes_at_some packet j 1 Hj) as (bs & E & Hl); [lia..|]. rewrite E. cbn.
  destruct bs as [|x [|y bs]]; [done| |rewrite !len_cons in Hl; pose proof (len_nonneg bs); lia].
  exists x. cbn. split; [done|]. split; [lia|done].
Qed.

Lemma GET16_cases packet j : 0 <= j →
  GET16 packet j = Bad ∨ ∃ x, GET16 packet j = Parsed (x, j + 2) ∧ j + 2 <= len packet.
Proof.
  intros Hj. unfold GET16. destruct (Z.ltb_spec (len packet) (j + 2)); [by left|right].
  destruct (bytes_at_some packet j 2) as (bs & E & Hl); [lia..|]. rewrite E. cbn. eauto.
Qed.

Lemma GET32_cases packet j : 0 <= j →
  GET32 packet j = Bad ∨ ∃ x, GET32 packet j = Parsed (x, j + 4) ∧ j + 4 <= len packet.
Proof.
  intros Hj. unfold GET32. destruct (Z.ltb_spec (len packet) (j + 4)); [by left|right].
  destruct (bytes_at_some packet j 4) as (bs & E & Hl); [lia..|]. rewrite E. cbn. eauto.
Qed.

(** ** Parsing a name is safe and ends *)

Lemma put_name_fits out bs n : len out + len bs <= n → put_name out bs n = Parsed (out ++ bs).
Proof. intros. unfold put_name. by rewrite (proj2 (Z.ltb_ge _ _)) by done. Qed.

(** Steps that are left: jumps and characters. *)
Definition name_steps (packet out : bytes) (ptr_count out_len : Z) : Z :=
  (len packet - ptr_count) + (out_len - len out) + 1.

Lemma name_loop_safe packet out_len : Forall is_byte packet →
  ∀ fuel j name_end ptr_count out,
  0 <= j → 0 <= ptr_count <= len packet → (len out < out_len ∨ out = []) → 0 <= out_len → name_end <= len packet →
  name_steps packet out ptr_count out_len < Z.of_nat fuel →
  name_loop fuel packet j name_end ptr_count out out_len = Bad ∨
  ∃ name idx, name_loop fuel packet j name_end ptr_count out out_len = Parsed (name, idx) ∧
    len name < out_len ∧ idx <= len packet ∧ (if name_end <? 0 then j < idx else idx = name_end).
Proof.
  intros Hbytes. induction fuel as [|fuel IH]; intros j name_end ptr_count out Hj Hp Ho Hol Hne Hf.
  { unfold name_steps in Hf. destruct Ho as [?| ->]; unfold len in *; cbn [length] in *; lia. }
  cbn [name_loop]. destruct (GET8_cases packet j Hj) as [->|(x & -> & Hj1 & Ex)]; [by left|]. cbn.
  destruct (Z.eqb_spec x 0) as [->|Hx0].
  { destruct (Z.leb_spec out_len (len out)); [by left|right]. rewrite put_name_fits by (change (len [0]) with 1; lia).
    cbn [mbind parse_bind]. eexists _, _. split; [done|].
    destruct (Z.ltb_spec name_end 0); lia. }
  assert (Hx : is_byte x).
  { apply bytes_at_byte in Ex; [|done]. by apply Forall_cons_1 in Ex as [? _]. }
  destruct (x &? 192).
  - destruct (GET8_cases packet (j + 1)) as [->|(y & -> & Hj2 & _)]; [lia|by left|]. cbn.
    destruct (Z.ltb_spec (Z.shiftl (Z.land x 63) 8 + y) 0); cbn; [by left|].
    destruct (Z.leb_spec (len packet) (Z.shiftl (Z.land x 63) 8 + y)); [by left|].
    destruct (Z.ltb_spec (len packet) (ptr_count + 1)); [by left|].
    destruct (IH (Z.shiftl (Z.land x 63) 8 + y) (if name_end <? 0 then j + 1 + 1 else name_end) (ptr_count + 1) out)
      as [->|(name & idx & -> & Hn & Hi & Hend)]; try done; try lia.
    { destruct (Z.ltb_spec name_end 0); lia. }
    { unfold name_steps in *. lia. }
    { by left. }
    right. eexists _, _. split; [done|]. split; [done|]. split; [done|].
    destruct (Z.ltb_spec name_end 0); [|by destruct (Z.ltb_spec name_end 0); [lia|]].
    destruct (Z.ltb_spec (j + 1 + 1) 0); lia.
  - destruct (Z.ltb_spec 63 x); [by left|].
    destruct ((0 <? len out) && (out_len <=? len out + 1)) eqn:Edot; [by left|].
    set (out' := if 0 <? len out then out ++ [46] else out).
    assert (Eput : (if 0 <? len out then put_name out [46] out_len else Parsed out) = Parsed out').
    { unfold out'. destruct (0 <? len out); [|done]. apply put_name_fits. cbn [andb] in Edot. apply Z.leb_gt in Edot. change (len [46]) with 1. lia. }
    rewrite Eput. cbn [mbind parse_bind]. destruct (Z.leb_spec out_len (len out' + x)); [by left|].
    destruct (Z.ltb_spec (len packet) (j + 1 + x)); [by left|].
    destruct (bytes_at_some packet (j + 1) x) as (l & El & Hl); [unfold is_byte in Hx; lia..|]. rewrite El. cbn [mbind parse_bind].
    rewrite put_name_fits by lia. cbn [mbind parse_bind].
    assert (Hlo : len out <= len out').
    { unfold out'. destruct (0 <? len out); [rewrite len_app; pose proof (len_nonneg [46]); lia|lia]. }
    unfold is_byte in Hx.
    destruct (IH (j + 1 + x) name_end ptr_count (out' ++ l)) as [->|(name & idx & -> & Hn & Hi & Hend)];
      rewrite ?len_app; try done; try lia.
    { unfold name_steps in *. rewrite len_app. lia. }
    { by left. }
    right. eexists _, _. split; [done|]. split; [done|]. split; [done|]. destruct (Z.ltb_spec name_end 0); lia.
Qed.

Lemma name_parse_cases packet idx out_len : Forall is_byte packet → 0 <= idx → 0 <= out_len →
  name_parse packet idx out_len = Bad ∨
  ∃ name idx', name_parse packet idx out_len = Parsed (name, idx') ∧ len name < out_len ∧ idx < idx' <= len packet.
Proof.
  intros Hb Hi Ho. unfold name_parse.
  destruct (name_loop_safe packet out_len Hb (length packet + Z.to_nat out_len + 2) idx (-1) 0 [])
    as [?|(name & idx' & E & Hn & Hle & Hend)]; try lia; try (by right); try (by left).
  - pose proof (len_nonneg packet). lia.
  - pose proof (len_nonneg packet). lia.
  - unfold name_steps, len. cbn. lia.
  - right. cbn in Hend. eexists _, _. split; [done|]. split; [done|]. lia.
Qed.

(** ** Names in a packet

    [name_at packet k pos ls e]: at [pos] there is a name with the labels [ls],
    which is read with [k] jumps; its part at [pos] ends in front of [e]. *)

Inductive name_at (packet : bytes) : nat → Z → list bytes → Z → Prop :=
  | name_end pos : bytes_at packet pos 1 = Parsed [0] → name_at packet 0 pos [] (pos + 1)
  | name_label k pos l ls e :
      1 <= len l <= 63 → bytes_at packet pos 1 = Parsed [len l] → bytes_at packet (pos + 1) (len l) = Parsed l →
      name_at packet k (pos + 1 + len l) ls e → name_at packet k pos (l :: ls) e
  | name_ptr k pos hi lo ls e :
      bytes_at packet pos 1 = Parsed [hi] → bytes_at packet (pos + 1) 1 = Parsed [lo] → hi ≠ 0 → hi &? 192 = true →
      0 <= Z.shiftl (Z.land hi 63) 8 + lo < len packet →
      name_at packet k (Z.shiftl (Z.land hi 63) 8 + lo) ls e → name_at packet (S k) pos ls (pos + 2).

Lemma name_at_app packet more k pos ls e : name_at packet k pos ls e → name_at (packet ++ more) k pos ls e.
Proof.
  induction 1; econstructor; eauto using bytes_at_app. rewrite len_app. pose proof (len_nonneg more). lia.
Qed.

(** The text of a name, behind what was written before. *)
Definition add_label (out l : bytes) : bytes := (if 0 <? len out then out ++ [46] else out) ++ l.
Definition glue (out : bytes) (ls : list bytes) : bytes := foldl add_label out ls.

Lemma glue_len out ls : len out <= len (glue out ls).
Proof.
  unfold glue. revert out. induction ls as [|l ls IH]; intros out; cbn; [lia|]. etrans; [|apply IH].
  unfold add_label. rewrite len_app. pose proof (len_nonneg l).
  destruct (0 <? len out); rewrite ?len_app; pose proof (len_nonneg [46]); lia.
Qed.

Lemma GET8_at packet j x : bytes_at packet j 1 = Parsed [x] → GET8 packet j = Parsed (x, j + 1).
Proof.
  intros H. unfold GET8. pose proof (bytes_at_inv _ _ _ _ H) as (? & _ & ?).
  destruct (Z.leb_spec (len packet) j); [lia|]. by rewrite H.
Qed.

Lemma small_no_flags n : 1 <= n <= 63 → n &? 192 = false.
Proof.
  intros Hn. assert (H : (64 <=? n) || negb (n &? 192) = true).
  { apply (byte_cases (λ n, (64 <=? n) || negb (n &? 192))); [by vm_compute|unfold is_byte; lia]. }
  destruct (Z.leb_spec 64 n); [lia|]. by destruct (n &? 192).
Qed.

Lemma name_loop_at packet k pos ls e : name_at packet k pos ls e →
  ∀ fuel name_end ptr_count out out_len,
  Z.of_nat k + ptr_count <= len packet → (k + length ls < fuel)%nat → len (glue out ls) < out_len →
  name_loop fuel packet pos name_end ptr_count out out_len = Parsed (glue out ls, if name_end <? 0 then e else name_end).
Proof.
  induction 1 as [pos H0|k pos l ls e Hl Hlen Hbs Hat IH|k pos hi lo ls e Hhi Hlo Hne Hfl Hin Hat IH];
    intros fuel name_end ptr_count out out_len Hk Hf Hout; (destruct fuel as [|fuel]; [lia|]); cbn [name_loop].
  - rewrite (GET8_at _ _ _ H0). cbn in *. destruct (Z.leb_spec out_len (len out)); [lia|].
    by rewrite put_name_fits by (change (len [0]) with 1; lia).
  - rewrite (GET8_at _ _ _ Hlen). cbn. destruct (Z.eqb_spec (len l) 0); [lia|].
    rewrite small_no_flags by lia. destruct (Z.ltb_spec 63 (len l)); [lia|].
    pose proof (glue_len (add_label out l) ls) as Hg. change (glue out (l :: ls)) with (glue (add_label out l) ls) in *.
    unfold add_label in Hg at 1. rewrite len_app in Hg. destruct (bytes_at_inv _ _ _ _ Hbs) as (_ & _ & Hfit).
    pose proof (len_nonneg out). destruct (Z.ltb_spec 0 (len out)); cbn [andb].
    + rewrite len_app in *. change (len [46]) with 1 in *. destruct (Z.leb_spec out_len (len out + 1)); [lia|].
      rewrite put_name_fits by (change (len [46]) with 1; lia). cbn [mbind parse_bind]. rewrite len_app. change (len [46]) with 1.
      destruct (Z.leb_spec out_len (len out + 1 + len l)); [lia|]. destruct (Z.ltb_spec (len packet) (pos + 1 + len l)); [lia|].
      rewrite Hbs. cbn [mbind parse_bind]. rewrite put_name_fits by (rewrite len_app; change (len [46]) with 1; lia). cbn [mbind parse_bind]. replace ((out ++ [46]) ++ l) with (add_label out l)
        by (unfold add_label; by destruct (Z.ltb_spec 0 (len out)); [|lia]).
      apply IH; [done| |done]. cbn in Hf. lia.
    + cbn [mbind parse_bind]. destruct (Z.leb_spec out_len (len out + len l)); [lia|]. destruct (Z.ltb_spec (len packet) (pos + 1 + len l)); [lia|].
      rewrite Hbs. cbn [mbind parse_bind]. rewrite put_name_fits by lia. cbn [mbind parse_bind]. replace (out ++ l) with (add_label out l)
        by (unfold add_label; by destruct (Z.ltb_spec 0 (len out)); [lia|]).
      apply IH; [done| |done]. cbn in Hf. lia.
  - rewrite (GET8_at _ _ _ Hhi). cbn. destruct (Z.eqb_spec hi 0); [done|]. rewrite Hfl.
    rewrite (GET8_at _ _ _ Hlo). cbn. destruct (Z.ltb_spec (Z.shiftl (Z.land hi 63) 8 + lo) 0); [lia|]. cbn.
    destruct (Z.leb_spec (len packet) (Z.shiftl (Z.land hi 63) 8 + lo)); [lia|].
    destruct (Z.ltb_spec (len packet) (ptr_count + 1)); [lia|].
    rewrite IH by (done || lia). do 2 f_equal. destruct (bytes_at_inv _ _ _ _ Hhi) as (? & _ & _).
    destruct (Z.ltb_spec name_end 0); [|by destruct (Z.ltb_spec name_end 0); [lia|]].
    destruct (Z.ltb_spec (pos + 1 + 1) 0); lia.
Qed.

(** ** The text of a name *)

Definition label_ok (l : bytes) : Prop := 1 <= len l <= 63 ∧ c_string l ∧ 46 ∉ l.
Definition dots (ls : list bytes) : bytes := mjoin ((cons 46) <$> ls).
Definition dotted (ls : list bytes) : bytes := match ls with [] => [] | l :: ls => l ++ dots ls end.

Lemma glue_dots out ls : 0 < len out → Forall (λ l, 1 <= len l) ls → glue out ls = out ++ dots ls.
Proof.
  unfold glue, dots. intros Ho Hls. revert out Ho. induction Hls as [|l ls Hl _ IH]; intros out Ho; cbn.
  { by rewrite app_nil_r. }
  unfold add_label at 2. destruct (Z.ltb_spec 0 (len out)); [|lia]. rewrite IH by (rewrite !len_app; change (len [46]) with 1; lia).
  by rewrite <- !app_assoc.
Qed.

Lemma glue_dotted ls : Forall (λ l, 1 <= len l) ls → glue [] ls = dotted ls.
Proof.
  intros Hls. destruct Hls as [|l ls Hl Hls]; [done|].
  change (glue [] (l :: ls)) with (glue l ls). by rewrite glue_dots by (done || lia).
Qed.

Lemma dotted_cons l l2 ls : dotted (l :: l2 :: ls) = l ++ 46 :: dotted (l2 :: ls).
Proof. done. Qed.

Lemma dotted_length ls : Forall (λ l, 1 <= len l) ls → Z.of_nat (length ls) <= len (dotted ls).
Proof.
  induction 1 as [|l ls Hl Hls IH]; [done|]. destruct ls as [|l2 ls]; [cbn; rewrite app_nil_r; lia|].
  rewrite dotted_cons, len_app, len_cons. cbn [length] in *. lia.
Qed.

Lemma split_dotted l ls : label_ok l →
  split_dot (dotted (l :: ls)) = (l, match ls with [] => None | _ => Some (dotted ls) end).
Proof.
  intros (_ & _ & Hd). unfold split_dot. destruct ls as [|l2 ls].
  - cbn. rewrite app_nil_r. by rewrite strchr_none.
  - rewrite dotted_cons, strchr_app by done. rewrite take_app_length.
    replace (S (length l)) with (length l + 1)%nat by lia. by rewrite drop_app_add.
Qed.

Lemma dotted_inj ls ls' : Forall label_ok ls → Forall label_ok ls' → dotted ls = dotted ls' → ls = ls'.
Proof.
  intros H. revert ls'. induction H as [|l ls Hl Hls IH]; intros ls' H' E; destruct H' as [|l' ls' Hl' Hls']; [done|..].
  - apply (f_equal len) in E. cbn in E. rewrite len_app in E. pose proof (len_nonneg (dots ls')).
    destruct Hl'. change (len []) with 0 in E. lia.
  - apply (f_equal len) in E. cbn in E. rewrite len_app in E. pose proof (len_nonneg (dots ls)).
    destruct Hl. change (len []) with 0 in E. lia.
  - apply (f_equal split_dot) in E. rewrite !split_dotted in E by done. injection E as -> E. f_equal.
    destruct ls as [|x ls], ls' as [|x' ls']; try done. apply IH; [done|]. by injection E.
Qed.

Lemma name_at_labels packet k pos ls e : name_at packet k pos ls e → Forall (λ l, 1 <= len l) ls.
Proof. induction 1; [constructor|by constructor; [lia|]|done]. Qed.

Lemma name_parse_at packet k pos ls e out_len :
  name_at packet k pos ls e → Z.of_nat k <= len packet → len (dotted ls) < out_len →
  name_parse packet pos out_len = Parsed (dotted ls, e).
Proof.
  intros Hat Hk Hl. pose proof (name_at_labels _ _ _ _ _ Hat) as Hls. rewrite <- glue_dotted in * by done.
  unfold name_parse. rewrite (name_loop_at _ _ _ _ _ Hat); [done|lia| |done].
  rewrite glue_dotted in Hl by done. pose proof (dotted_length _ Hls). unfold len in Hk. lia.
Qed.

(** ** Writing a name *)

Lemma put_at_end pre bs rest : len bs <= len rest →
  put_at (len pre) bs (pre ++ rest) = Some ((pre ++ bs) ++ drop (length bs) rest).
Proof.
  intros Hl. unfold put_at. destruct (Z.ltb_spec (len pre) 0); [pose proof (len_nonneg pre); lia|].
  unfold len in *. rewrite Nat2Z.id, memcpy_at_ok by (rewrite length_app; lia).
  by rewrite take_app_length, drop_app_add, app_assoc.
Qed.

(** An entry of the table that can be read back. *)
Definition entry_ok (pre : bytes) (x : bytes * Z) : Prop :=
  ∃ k ls e, name_at pre k x.2 ls e ∧ x.1 = dotted ls ∧ Forall label_ok ls ∧ 2 * Z.of_nat k <= len pre.

Lemma entry_ok_app pre more x : entry_ok pre x → entry_ok (pre ++ more) x.
Proof.
  intros (k & ls & e & Hat & Hv & Hok & Hk). exists k, ls, e. do 2 (split; [by eauto using name_at_app|]). split; [done|].
  rewrite len_app. pose proof (len_nonneg more). lia.
Qed.

Lemma name_at_pos packet k pos ls e : name_at packet k pos ls e → 0 <= pos < len packet.
Proof. destruct 1 as [? H|???? ? ? H ? ?|? ? ? ? ? ? H ? ? ? ? ?]; apply bytes_at_inv in H; lia. Qed.

Lemma get_pos_found table v : 0 <= dnslabel_table_get_pos table v → (v, dnslabel_table_get_pos table v) ∈ table.
Proof.
  induction table as [|[w pos] table IH]; cbn; [lia|]. case_bool_decide as E; [subst; intros; apply list_elem_of_here|].
  intros H. apply list_elem_of_further. by apply IH.
Qed.

Lemma pointer_bytes pos : 0 <= pos < 16384 →
  ∃ hi lo, be16 (Z.lor pos 49152) = [hi; lo] ∧ hi ≠ 0 ∧ hi &? 192 = true ∧ Z.shiftl (Z.land hi 63) 8 + lo = pos.
Proof.
  intros Hp. eexists _, _. split; [done|].
  change 49152 with (Z.shiftl 3 14). rewrite lor_shiftl_add by lia.
  rewrite Z.shiftr_div_pow2 by lia. change (2 ^ 8) with 256. change (3 * 2 ^ 14) with (192 * 256).
  assert (Hq : 0 <= pos / 256 < 64) by (split; [apply Z.div_pos|apply Z.div_lt_upper_bound]; lia).
  rewrite Z.div_add, wrap_small by lia.
  assert (H : (64 <=? pos / 256) || (((pos / 256 + 192) &? 192) && (Z.land (pos / 256 + 192) 63 =? pos / 256)) = true).
  { apply (byte_cases (λ n, (64 <=? n) || (((n + 192) &? 192) && (Z.land (n + 192) 63 =? n)))); [by vm_compute|unfold is_byte; lia]. }
  destruct (Z.leb_spec 64 (pos / 256)); [lia|]. cbn [orb] in H. apply andb_true_iff in H as [H1 H2%Z.eqb_eq].
  split; [lia|]. split; [done|]. rewrite H2, Z.shiftl_mul_pow2 by lia. unfold wrap. change (2 ^ 8) with 256.
  rewrite Z.mod_add by lia. pose proof (Z.div_mod pos 256). lia.
Qed.

Lemma name_at_pointer pre pos k ls e : name_at pre k pos ls e → len pre <= 16384 →
  name_at (pre ++ be16 (Z.lor pos 49152)) (S k) (len pre) ls (len pre + 2).
Proof.
  intros Hat Hlen. pose proof (name_at_pos _ _ _ _ _ Hat) as Hpos.
  destruct (pointer_bytes pos) as (hi & lo & -> & Hnz & Hfl & Hval); [lia|].
  apply (name_ptr _ k (len pre) hi lo ls e); try done.
  - pose proof (bytes_at_here pre [hi] [lo]) as H. by cbn in H.
  - pose proof (bytes_at_here (pre ++ [hi]) [lo] []) as H. rewrite len_app in H. by rewrite <- app_assoc in H.
  - rewrite Hval, len_app. change (len [hi; lo]) with 2. lia.
  - rewrite Hval. by apply name_at_app.
Qed.

(** A label in front of a name. *)
Lemma name_at_label pre l more k ls e :
  1 <= len l <= 63 → name_at ((pre ++ [len l] ++ l) ++ more) k (len (pre ++ [len l] ++ l)) ls e →
  name_at ((pre ++ [len l] ++ l) ++ more) k (len pre) (l :: ls) e.
Proof.
  intros Hl Hat. apply name_label; [done| | |].
  - rewrite <- !app_assoc. apply (bytes_at_here pre [len l]).
  - apply bytes_at_app. pose proof (bytes_at_here (pre ++ [len l]) l []) as H.
    rewrite app_nil_r, <- app_assoc, len_app in H. exact H.
  - rewrite !len_app, len_cons in Hat. change (len []) with 0 in Hat. by replace (len pre + 1 + len l) with (len pre + (1 + 0 + len l)) by lia.
Qed.

Lemma label_last l pre rest : label_ok l → ∃ b, ((pre ++ l) ++ rest) !! Z.to_nat (len (pre ++ l) - 1) = Some b ∧ b ≠ 0.
Proof.
  intros (Hl & Hc & _). destruct l as [|b l _] using rev_ind; [change (len []) with 0 in Hl; lia|]. exists b.
  rewrite app_assoc, len_app. replace (Z.to_nat (len (pre ++ l) + len [b] - 1)) with (length (pre ++ l)) by (unfold len; cbn; lia).
  rewrite <- app_assoc, lookup_app_r, Nat.sub_diag by done. split; [done|].
  apply Forall_app in Hc as [_ Hb%Forall_cons_1]. lia.
Qed.

Definition table_ok (pre : bytes) (table : option dnslabel_table) : Prop := ∀ x, x ∈ default [] table → entry_ok pre x.

(** The bytes of a name that is not compressed. *)
Fixpoint name_size (ls : list bytes) : Z :=
  match ls with [] => 1 | l :: ls => 1 + len l + name_size ls end.

Lemma name_size_dotted ls : ls ≠ [] → name_size ls = len (dotted ls) + 2.
Proof.
  destruct ls as [|l ls]; [done|]. intros _. revert l. induction ls as [|l2 ls IH]; intros l.
  - cbn. rewrite app_nil_r. lia.
  - rewrite dotted_cons, len_app, len_cons. cbn [name_size] in *. specialize (IH l2). lia.
Qed.

(** What writing a name does: some bytes are added, at which there is the name,
    and the new entries of the table can be read. *)
Definition name_written (pre rest : bytes) (table : option dnslabel_table) (ls : list bytes)
    (res : option (Z * bytes * option dnslabel_table)) : Prop :=
  ∃ enc rest' table' k,
    res = Some (len (pre ++ enc), (pre ++ enc) ++ rest', table') ∧ len enc + len rest' = len rest ∧
    1 <= len enc <= name_size ls ∧
    name_at (pre ++ enc) k (len pre) ls (len (pre ++ enc)) ∧ 2 * Z.of_nat k <= len (pre ++ enc) ∧
    match table with
    | None => table' = None
    | Some t => ∃ new, table' = Some (t ++ new) ∧ ∀ x, x ∈ new → entry_ok (pre ++ enc) x
    end.

(** The table after one more name, which need not have been added. *)
Lemma table_add_cases dup t name pos : ∃ new, fst (dnslabel_table_add dup t name pos) = t ++ new ∧ (new = [] ∨ new = [(name, pos)]).
Proof.
  unfold dnslabel_table_add. destruct (Nat.eqb _ _); [exists []; by rewrite app_nil_r; eauto|].
  destruct (dup pos); [by eauto|exists []; by rewrite app_nil_r; eauto].
Qed.

Lemma name_written_cons dup pre rest table l ls res : label_ok l → Forall label_ok ls → 1 + len l <= len rest →
  let pre1 := pre ++ [len l] ++ l in
  name_written pre1 (drop (length l) (drop 1 rest))
    ((λ t, fst (dnslabel_table_add dup t (dotted (l :: ls)) (len pre))) <$> table) ls res →
  name_written pre rest table (l :: ls) res.
Proof.
  intros Hl Hls Hr pre1 (enc & rest' & table' & k & -> & Hsum & Henc & Hat & Hk & Htab).
  assert (Hat' : name_at (pre1 ++ enc) k (len pre) (l :: ls) (len (pre1 ++ enc))) by (by apply name_at_label; [apply Hl|]).
  assert (Hent : entry_ok (pre1 ++ enc) (dotted (l :: ls), len pre)).
  { exists k, (l :: ls), (len (pre1 ++ enc)). split; [done|]. split; [done|]. split; [by constructor|done]. }
  assert (Heq : pre1 ++ enc = pre ++ [len l] ++ l ++ enc) by (unfold pre1; by rewrite <- !app_assoc).
  exists ([len l] ++ l ++ enc), rest', table', k. rewrite <- Heq. split; [done|].
  rewrite !len_app. change (len [len l]) with 1. cbn [name_size].
  split; [unfold len in *; rewrite !length_drop in Hsum; lia|]. split; [destruct Hl; lia|]. split; [by rewrite len_app in Hat'|]. split; [by rewrite len_app in Hk|].
  destruct table as [t|]; [|done].
  destruct (table_add_cases dup t (dotted (l :: ls)) (len pre)) as (new1 & E & Hnew1). cbn in E, Htab. rewrite E in Htab.
  destruct Htab as (new & -> & Hnew).
  exists (new1 ++ new). rewrite <- app_assoc. split; [done|]. intros x [Hx|Hx]%elem_of_app; [|by apply Hnew].
  destruct Hnew1 as [->| ->]; [by apply elem_of_nil in Hx|]. by apply list_elem_of_singleton in Hx as ->.
Qed.

Lemma labels_loop_ok dup ls : Forall label_ok ls → ls ≠ [] → ∀ pre rest table fuel,
  len (pre ++ rest) <= 16384 → name_size ls <= len rest → (length ls <= fuel)%nat →
  (∀ x, x ∈ default [] table → entry_ok pre x ∨ len (dotted ls) < len x.1) →
  name_written pre rest table ls (labels_loop fuel dup (len pre) (dotted ls) (pre ++ rest) table).
Proof.
  induction 1 as [|l ls Hl Hls IH]; [done|]. intros _ pre rest table fuel Hsize Hfit Hfuel Htab.
  destruct fuel as [|fuel]; [cbn in Hfuel; lia|]. cbn [labels_loop].
  set (ref := match table with Some t => dnslabel_table_get_pos t (dotted (l :: ls)) | None => -1 end).
  pose proof (len_nonneg pre). pose proof (len_nonneg rest). pose proof (name_size_dotted (l :: ls) ltac:(done)) as Hns.
  assert (Hll : len l <= len (dotted (l :: ls))) by (cbn; rewrite len_app; pose proof (len_nonneg (dots ls)); lia).
  pose proof (proj1 Hl) as Hl1.
  destruct (Z.leb_spec 0 ref) as [Href|Href].
  - (* the name is in the table *)
    destruct table as [t|]; [|unfold ref in Href; lia]. pose proof (get_pos_found t _ Href) as Hin.
    destruct (Htab _ Hin) as [(k & ls' & e & Hat & Hv & Hok & Hk)|Hlt]; [|cbn [fst] in Hlt; lia]. cbn [fst snd] in Hat, Hv.
    apply dotted_inj in Hv as <-; [|by constructor|done].
    rewrite len_app in Hsize |- *. destruct (Z.ltb_spec (len pre + len rest) (len pre + 2)); [lia|].
    fold ref in Hat |- *. rewrite put_at_end by (change (len (be16 (Z.lor ref 49152))) with 2; lia). cbn [mbind option_bind].
    pose proof (name_at_pointer _ _ _ _ _ Hat ltac:(lia)) as Hp. set (enc := be16 (Z.lor ref 49152)) in *.
    assert (Henc : len enc = 2) by done.
    exists enc, (drop (length enc) rest), (Some t), (S k). rewrite !len_app, Henc.
    split; [done|]. split; [unfold len in *; rewrite length_drop; lia|]. split; [lia|]. split; [done|]. split; [lia|].
    exists []. rewrite app_nil_r. split; [done|]. by intros x ?%elem_of_nil.
  - (* a label is written *)
    rewrite split_dotted by done.
    destruct (Z.ltb_spec 63 (len l)); [lia|].
    rewrite len_app in Hsize |- *. destruct (Z.ltb_spec (len pre + len rest) (len pre + len l + 1)); [lia|].
    rewrite (wrap_small 8) by lia.
    rewrite put_at_end by (change (len [len l]) with 1; lia). cbn [mbind option_bind].
    set (pre1 := pre ++ [len l] ++ l). set (rest1 := drop (length l) (drop 1 rest)).
    assert (Hput : put_at (len pre + 1) l ((pre ++ [len l]) ++ drop (length [len l]) rest) = Some (pre1 ++ rest1)).
    { replace (len pre + 1) with (len (pre ++ [len l])) by (rewrite len_app; done).
      rewrite put_at_end; [by unfold pre1; rewrite <- (app_assoc pre)|].
      unfold len in *. rewrite length_drop. cbn [length]. lia. }
    assert (Hp1 : len pre + 1 + len l = len pre1) by (unfold pre1; rewrite !len_app; change (len [len l]) with 1; lia).
    assert (Hr1 : len rest1 = len rest - 1 - len l) by (unfold rest1, len in *; rewrite !length_drop; lia).
    rewrite Hput. cbn [mbind option_bind]. rewrite Hp1. apply (name_written_cons dup); [done..|lia|]. fold pre1 rest1.
    destruct ls as [|l2 ls].
    + destruct (Z.eqb_spec (len pre1) 0); [lia|]. destruct (label_last l (pre ++ [len l]) rest1) as (b & Hb & Hnz); [done|].
      rewrite <- (app_assoc pre) in Hb. fold pre1 in Hb. rewrite Hb. cbn [mbind option_bind orb].
      destruct (Z.eqb_spec b 0); [done|]. cbn [negb]. rewrite put_at_end by (change (len [0]) with 1; cbn in Hfit; lia).
      cbn [mbind option_bind]. exists [0], (drop (length [0]) rest1). eexists _, 0%nat. rewrite !len_app. change (len [0]) with 1.
      split; [done|]. split; [unfold len in *; rewrite length_drop; cbn [length name_size] in *; lia|].
      split; [cbn; lia|]. split; [|split; [lia|]].
      * apply name_end. pose proof (bytes_at_here pre1 [0] []) as Hz. by rewrite app_nil_r in Hz.
      * destruct table as [t|]; [|done]. exists []. rewrite app_nil_r. split; [done|]. by intros x ?%elem_of_nil.
    + cbn [name_size] in Hfit. assert (Hsz : len (dotted (l :: l2 :: ls)) = len l + 1 + len (dotted (l2 :: ls)))
        by (rewrite dotted_cons, len_app, len_cons; lia).
      apply IH; [done| | | |].
      * rewrite len_app. lia.
      * cbn [name_size]. lia.
      * cbn in Hfuel |- *. lia.
      * intros x Hx. destruct table as [t|]; [|by apply elem_of_nil in Hx]. cbn in Hx.
        destruct (table_add_cases dup t (dotted (l :: l2 :: ls)) (len pre)) as (new & E & Hnew). cbn in E. rewrite E in Hx.
        apply elem_of_app in Hx as [Hx|Hx].
        { destruct (Htab x Hx) as [?|?]; [left; unfold pre1; by apply entry_ok_app|right; lia]. }
        destruct Hnew as [->| ->]; [by apply elem_of_nil in Hx|]. apply list_elem_of_singleton in Hx as ->. right. cbn [fst].
        change (len (dotted (l2 :: ls)) < len (dotted (l :: l2 :: ls))). lia.
Qed.

Lemma labels_fuel ls : Forall label_ok ls → (length ls <= S (length (dotted ls)))%nat.
Proof.
  intros Hls. assert (Forall (λ l, 1 <= len l) ls) as Hl by (eapply Forall_impl; [exact Hls|]; intros l H'; apply H').
  pose proof (dotted_length ls Hl). unfold len in *. lia.
Qed.

Lemma dnsname_written dup ls pre rest table : Forall label_ok ls → ls ≠ [] → len (dotted ls) <= 255 →
  len (pre ++ rest) <= 16384 → name_size ls <= len rest → table_ok pre table →
  name_written pre rest table ls (dnsname_to_labels dup (pre ++ rest) (len pre) (dotted ls) table).
Proof.
  intros Hls Hne Hlen Hsize Hfit Htab. unfold dnsname_to_labels. destruct (Z.ltb_spec 255 (len (dotted ls))); [lia|].
  apply labels_loop_ok; [done..|by apply labels_fuel|by left; apply Htab].
Qed.

(** ** The zero that ends a name *)

Lemma put_at_full pre bs : bs ≠ [] → put_at (len pre) bs pre = None.
Proof.
  intros Hb. unfold put_at. destruct (Z.ltb_spec (len pre) 0); [done|]. unfold memcpy_at, len. rewrite Nat2Z.id.
  destruct (Nat.leb_spec (length pre + length bs) (length pre)); [|done]. destruct bs; [done|]. cbn in *. lia.
Qed.

(** One label is written, and after the last one the zero. *)
Lemma labels_step fuel dup l ls pre rest : label_ok l → Forall label_ok ls → 1 + len l <= len rest →
  let pre1 := (pre ++ [len l]) ++ l in
  let rest1 := drop (length l) (drop 1 rest) in
  labels_loop (S fuel) dup (len pre) (dotted (l :: ls)) (pre ++ rest) None =
  match ls with
  | [] => buf ← put_at (len pre1) [0] (pre1 ++ rest1); Some (len pre1 + 1, buf, None)
  | _ => labels_loop fuel dup (len pre1) (dotted ls) (pre1 ++ rest1) None
  end.
Proof.
  intros Hl Hls Hr pre1 rest1. cbn [labels_loop Z.leb Z.compare]. rewrite split_dotted by done. pose proof (proj1 Hl) as Hl1.
  destruct (Z.ltb_spec 63 (len l)); [lia|]. rewrite len_app. destruct (Z.ltb_spec (len pre + len rest) (len pre + len l + 1)); [lia|].
  rewrite (wrap_small 8) by lia. rewrite put_at_end by (change (len [len l]) with 1; lia). cbn [mbind option_bind].
  replace (len pre + 1) with (len (pre ++ [len l])) by (rewrite len_app; done).
  assert (Hd : len (drop (length [len l]) rest) = len rest - 1) by (unfold len in *; rewrite length_drop; cbn [length]; lia).
  rewrite put_at_end by lia. cbn [mbind option_bind fmap option_fmap option_map]. rewrite <- len_app. fold pre1. change (length [len l]) with 1%nat. fold rest1.
  destruct ls as [|l2 ls]; [|done].
  destruct (Z.eqb_spec (len pre1) 0); [unfold pre1 in *; rewrite !len_app in *; pose proof (len_nonneg pre); change (len [len l]) with 1 in *; lia|].
  destruct (label_last l (pre ++ [len l]) rest1 Hl) as (b & Hb & Hnz). fold pre1 in Hb. rewrite Hb. cbn [mbind option_bind orb].
  destruct (Z.eqb_spec b 0); [done|]. cbn [negb]. done.
Qed.

Lemma rest_length (l rest : bytes) : 1 + len l <= len rest → len (drop (length l) (drop 1 rest)) = len rest - 1 - len l.
Proof. unfold len. rewrite !length_drop. lia. Qed.

Lemma name_size_pos ls : 1 <= name_size ls.
Proof. induction ls as [|x ls IH]; cbn; [lia|]; pose proof (len_nonneg x); lia. Qed.

Lemma labels_loop_overflow dup ls : Forall label_ok ls → ls ≠ [] → ∀ pre rest fuel,
  len rest + 1 = name_size ls → (length ls <= fuel)%nat → labels_loop fuel dup (len pre) (dotted ls) (pre ++ rest) None = None.
Proof.
  induction 1 as [|l ls Hl Hls IH]; [done|]. intros _ pre rest fuel Hsz Hf. destruct fuel as [|fuel]; [cbn in Hf; lia|].
  cbn [name_size] in Hsz. pose proof (name_size_pos ls). rewrite labels_step by (done || lia). pose proof (rest_length l rest ltac:(lia)) as Hr1.
  destruct ls as [|l2 ls]; [|apply IH; [done|lia|cbn in Hf |- *; lia]]. cbn [name_size] in Hsz.
  destruct (drop (length l) (drop 1 rest)) as [|x r] eqn:E; [|rewrite len_cons in Hr1; pose proof (len_nonneg r); lia].
  rewrite app_nil_r. by rewrite put_at_full.
Qed.

(** With the byte that is missing, that byte is the zero. *)
Lemma labels_loop_exact dup ls : Forall label_ok ls → ls ≠ [] → ∀ pre rest fuel,
  len rest = name_size ls → (length ls <= fuel)%nat →
  ∃ out, labels_loop fuel dup (len pre) (dotted ls) (pre ++ rest) None = Some (len pre + len rest, out ++ [0], None) ∧ len out + 1 = len pre + len rest.
Proof.
  induction 1 as [|l ls Hl Hls IH]; [done|]. intros _ pre rest fuel Hsz Hf. destruct fuel as [|fuel]; [cbn in Hf; lia|].
  cbn [name_size] in Hsz. pose proof (name_size_pos ls). rewrite labels_step by (done || lia). pose proof (rest_length l rest ltac:(lia)) as Hr1.
  set (pre1 := (pre ++ [len l]) ++ l). assert (Hp1 : len pre1 = len pre + 1 + len l) by (unfold pre1; rewrite !len_app; change (len [len l]) with 1; lia).
  destruct ls as [|l2 ls].
  - cbn [name_size] in Hsz. rewrite put_at_end by (change (len [0]) with 1; lia). cbn [mbind option_bind].
    destruct (drop (length l) (drop 1 rest)) as [|x r] eqn:E; [change (len []) with 0 in Hr1; lia|].
    destruct r; [|rewrite !len_cons in Hr1; pose proof (len_nonneg r); lia]. exists pre1. cbn [drop length]. rewrite app_nil_r. split; [|lia]. do 3 f_equal. lia.
  - destruct (IH ltac:(done) pre1 (drop (length l) (drop 1 rest)) fuel) as (out & -> & Ho); [lia|cbn in Hf |- *; lia|].
    exists out. split; [do 3 f_equal; lia|lia].
Qed.

(** C36. Writing a DNS name can leave the buffer: the check for room in
    [dnsname_to_labels] does not count the zero that ends the name.  For every name of
    valid labels with dots between them (none at the end), written without compression,
    and every buffer whose free space is exactly one byte short, the function does not
    report that there is no room but stores behind the end of the buffer: with one byte
    more at the end it returns normally, and that byte is the zero. *)
Theorem dns_name_one_byte_overflow dup ls pre rest x :
  Forall label_ok ls → ls ≠ [] → len (dotted ls) <= 255 → len rest + 1 = len (dotted ls) + 2 →
  dnsname_to_labels dup (pre ++ rest) (len pre) (dotted ls) None = None ∧
  ∃ out, dnsname_to_labels dup (pre ++ rest ++ [x]) (len pre) (dotted ls) None = Some (len (pre ++ rest) + 1, out ++ [0], None) ∧
    len out = len (pre ++ rest).
Proof.
  intros Hls Hne Hlen Hr. unfold dnsname_to_labels. destruct (Z.ltb_spec 255 (len (dotted ls))); [lia|]. split.
  - apply labels_loop_overflow; [done..|by rewrite name_size_dotted|by apply labels_fuel].
  - destruct (labels_loop_exact dup ls Hls Hne pre (rest ++ [x]) (S (length (dotted ls)))) as (out & -> & Ho);
      [rewrite len_app, name_size_dotted by done; change (len [x]) with 1; lia|by apply labels_fuel|].
    rewrite !len_app in *. change (len [x]) with 1 in *. exists out. split; [do 3 f_equal; lia|lia].
Qed.
