(* ===== verification/DnsPacketProps.v ===== *)
(** * DNS packets: parsers are safe, requests and responses survive the wire *)

From S2P Require Import Prelude Clib Util DnsPacket DnsNames.

(** ** What has been written to a buffer of [n] bytes *)

Definition wrote (n : Z) (pre : bytes) (w : writer) : Prop :=
  ∃ rest, w = (pre ++ rest, len pre) ∧ len (pre ++ rest) = n.

Lemma append_ok n pre w bs : wrote n pre w → len pre + len bs <= n →
  ∃ w', APPEND bs w = Some (true, w') ∧ wrote n (pre ++ bs) w'.
Proof.
  intros (rest & -> & Hn) Hfit. rewrite len_app in Hn. unfold APPEND. rewrite len_app.
  destruct (Z.ltb_spec (len pre + len rest) (len pre + len bs)); [lia|]. rewrite put_at_end by lia. cbn.
  eexists. split; [done|]. eexists. split; [by rewrite len_app|]. rewrite !len_app. unfold len in *. rewrite length_drop. lia.
Qed.

(** Every step of the list appends its bytes. *)
Lemma append_all_ok n (bss : list bytes) pre w : wrote n pre w → len pre + len (mjoin bss) <= n →
  ∃ w', append_all (APPEND <$> bss) w = Some (true, w') ∧ wrote n (pre ++ mjoin bss) w'.
Proof.
  revert pre w. induction bss as [|bs bss IH]; intros pre w Hw Hfit.
  - cbn. rewrite app_nil_r. eauto.
  - change (mjoin (bs :: bss)) with (bs ++ mjoin bss) in *. cbn [fmap list_fmap append_all]. rewrite len_app in Hfit. pose proof (len_nonneg (mjoin bss)).
    destruct (append_ok n pre w bs Hw) as (w1 & -> & Hw1); [lia|]. cbn.
    destruct (IH (pre ++ bs) w1 Hw1) as (w2 & -> & Hw2); [rewrite len_app; lia|]. rewrite <- app_assoc in Hw2. eauto.
Qed.

Lemma dnsname_wrote n dup ls pre w table : wrote n pre w → n <= 16384 →
  Forall label_ok ls → ls ≠ [] → len (dotted ls) <= 255 → len pre + name_size ls <= n → table_ok pre (Some table) →
  ∃ enc w' table' k, dnsname_to_labels dup (fst w) (snd w) (dotted ls) (Some table) = Some (snd w', fst w', Some table') ∧
    wrote n (pre ++ enc) w' ∧ 1 <= len enc <= name_size ls ∧
    name_at (pre ++ enc) k (len pre) ls (len (pre ++ enc)) ∧ 2 * Z.of_nat k <= len (pre ++ enc) ∧
    table_ok (pre ++ enc) (Some table').
Proof.
  intros (rest & -> & Hn) Hmax Hls Hne Hlen Hfit Htab. rewrite len_app in Hn. cbn [fst snd].
  destruct (dnsname_written dup ls pre rest (Some table)) as (enc & rest' & table' & k & -> & Hsum & Henc & Hat & Hk & new & -> & Hnew);
    try done; rewrite ?len_app; try lia.
  exists enc, ((pre ++ enc) ++ rest', len (pre ++ enc)), (table ++ new), k. split; [cbn [fst snd]; by rewrite ?len_app|]. rewrite !len_app.
  split; [eexists; split; [by rewrite len_app|]; rewrite !len_app; lia|]. split; [done|].
  split; [by rewrite len_app in Hat|]. split; [by rewrite len_app in Hk|].
  intros x [Hx|Hx]%elem_of_app; [|by apply Hnew]. apply entry_ok_app. by apply Htab.
Qed.

(** ** Numbers *)

Lemma be16_len x : len (be16 x) = 2.
Proof. done. Qed.

Lemma be_be16 x : be (be16 x) = u16 x.
Proof.
  unfold be, be16. cbn [foldl]. rewrite Z.shiftr_div_pow2 by lia. unfold wrap. change (2 ^ 8) with 256. change (2 ^ 16) with (256 * 256).
  rewrite Z.rem_mul_r by lia. lia.
Qed.

Lemma be_be32 x : be (be32 x) = u32 x.
Proof.
  unfold be, be32. cbn [foldl]. rewrite !Z.shiftr_div_pow2 by lia. unfold wrap.
  change (2 ^ 24) with (256 * 256 * 256). change (2 ^ 16) with (256 * 256). change (2 ^ 8) with 256. change (2 ^ 32) with (256 * (256 * (256 * 256))).
  rewrite <- !Z.div_div by lia. rewrite !Z.rem_mul_r by lia. lia.
Qed.

Lemma GET16_here pre x more : GET16 (pre ++ be16 x ++ more) (len pre) = Parsed (u16 x, len pre + 2).
Proof.
  unfold GET16. rewrite !len_app, be16_len. pose proof (len_nonneg more). destruct (Z.ltb_spec (len pre + (2 + len more)) (len pre + 2)); [lia|].
  pose proof (bytes_at_here pre (be16 x) more) as H'. rewrite be16_len in H'. rewrite H'. cbn -[be be16]. by rewrite be_be16.
Qed.

Lemma GET32_here pre x more : GET32 (pre ++ be32 x ++ more) (len pre) = Parsed (u32 x, len pre + 4).
Proof.
  unfold GET32. rewrite !len_app. change (len (be32 x)) with 4. pose proof (len_nonneg more).
  destruct (Z.ltb_spec (len pre + (4 + len more)) (len pre + 4)); [lia|].
  pose proof (bytes_at_here pre (be32 x) more) as H'. change (len (be32 x)) with 4 in H'. rewrite H'. cbn -[be be32]. by rewrite be_be32.
Qed.

(** A number behind what was read, wherever the list is split. *)
Lemma GET16_at pre x more packet j : packet = pre ++ be16 x ++ more → j = len pre → GET16 packet j = Parsed (u16 x, j + 2).
Proof. intros -> ->. apply GET16_here. Qed.
Lemma GET32_at pre x more packet j : packet = pre ++ be32 x ++ more → j = len pre → GET32 packet j = Parsed (u32 x, j + 4).
Proof. intros -> ->. apply GET32_here. Qed.

Definition header (id flags qd an ns ar : Z) : bytes := be16 id ++ be16 flags ++ be16 qd ++ be16 an ++ be16 ns ++ be16 ar.

Lemma get_header_ok id flags qd an ns ar more :
  get_header (header id flags qd an ns ar ++ more) = Parsed (u16 id, u16 flags, u16 qd, u16 an, u16 ns, u16 ar, 12).
Proof.
  unfold get_header, header.
  rewrite (GET16_at [] id (be16 flags ++ be16 qd ++ be16 an ++ be16 ns ++ be16 ar ++ more)) by by rewrite <- ?app_assoc. cbn -[be16 GET16 wrap].
  rewrite (GET16_at (be16 id) flags (be16 qd ++ be16 an ++ be16 ns ++ be16 ar ++ more)) by by rewrite <- ?app_assoc. cbn -[be16 GET16 wrap].
  rewrite (GET16_at (be16 id ++ be16 flags) qd (be16 an ++ be16 ns ++ be16 ar ++ more)) by by rewrite <- ?app_assoc. cbn -[be16 GET16 wrap].
  rewrite (GET16_at (be16 id ++ be16 flags ++ be16 qd) an (be16 ns ++ be16 ar ++ more)) by by rewrite <- ?app_assoc. cbn -[be16 GET16 wrap].
  rewrite (GET16_at (be16 id ++ be16 flags ++ be16 qd ++ be16 an) ns (be16 ar ++ more)) by by rewrite <- ?app_assoc. cbn -[be16 GET16 wrap].
  rewrite (GET16_at (be16 id ++ be16 flags ++ be16 qd ++ be16 an ++ be16 ns) ar more) by by rewrite <- ?app_assoc. done.
Qed.

(** ** Requests *)

Definition name_ok (ls : list bytes) : Prop := Forall label_ok ls ∧ ls ≠ [] ∧ len (dotted ls) <= 255.

Lemma name_ok_size ls : name_ok ls → 3 <= name_size ls <= 257.
Proof.
  intros (Hls & Hne & Hlen). rewrite name_size_dotted by done. destruct Hls as [|l ls (Hl & _) _]; [done|].
  cbn in *. rewrite len_app in *. pose proof (len_nonneg (dots ls)). lia.
Qed.

(** The packet of a request. *)
Lemma request_built ls id type class buf : name_ok ls → len buf <= 16384 → 16 + name_size ls <= len buf →
  ∃ enc rest k, let p := header id 0x0100 1 0 0 0 ++ enc ++ be16 type ++ be16 class in
    evdns_request_data_build (dotted ls) id type class buf = Some (len p, p ++ rest) ∧ len (p ++ rest) = len buf ∧
    name_at p k 12 ls (12 + len enc) ∧ 2 * Z.of_nat k <= len p.
Proof.
  intros Hok Hmax Hfit. pose proof (name_ok_size ls Hok) as Hsz. destruct Hok as (Hls & Hne & Hlen). unfold evdns_request_data_build.
  destruct (append_all_ok (len buf) (be16 <$> [id; 0x0100; 1; 0; 0; 0]) [] (buf, 0)) as (w1 & E & rest & -> & Hn1).
  { by exists buf. } { change (len (mjoin (be16 <$> [id; 0x0100; 1; 0; 0; 0]))) with 12. change (len []) with 0. lia. }
  change (APPEND <$> (be16 <$> [id; 0x0100; 1; 0; 0; 0]))
    with [APPEND16 id; APPEND16 0x0100; APPEND16 1; APPEND16 0; APPEND16 0; APPEND16 0] in E.
  rewrite E. cbn [mbind option_bind negb]. change ([] ++ mjoin (be16 <$> [id; 0x0100; 1; 0; 0; 0])) with (header id 0x0100 1 0 0 0) in *.
  set (h := header id 0x0100 1 0 0 0) in *. assert (Hh : len h = 12) by done.
  rewrite len_app in Hn1.
  destruct (dnsname_written (λ _, true) ls h rest None) as (enc & rest' & table' & k & E2 & Hsum & Henc & Hat & Hk & Htab);
    try done; rewrite ?len_app; try lia.
  { by intros x ?%elem_of_nil. }
  rewrite E2. cbn [mbind option_bind]. destruct (Z.ltb_spec (len (h ++ enc)) 0); [pose proof (len_nonneg (h ++ enc)); lia|].
  destruct (append_all_ok (len buf) (be16 <$> [type; class]) (h ++ enc) ((h ++ enc) ++ rest', len (h ++ enc))) as (w2 & E3 & rest2 & -> & Hn2).
  { exists rest'. split; [done|]. rewrite !len_app. lia. }
  { change (len (mjoin (be16 <$> [type; class]))) with 4. rewrite len_app. lia. }
  change (APPEND <$> (be16 <$> [type; class])) with [APPEND16 type; APPEND16 class] in E3.
  rewrite E3. cbn [mbind option_bind].
  change (mjoin (be16 <$> [type; class])) with (be16 type ++ be16 class) in *.
  exists enc, rest2, k. cbv zeta. rewrite <- app_assoc in *. split; [|split; [|split]].
  - f_equal. f_equal. rewrite !len_app in *. rewrite !be16_len in *. rewrite i32_small by (pose proof (len_nonneg rest2); lia). done.
  - rewrite !len_app in *. lia.
  - rewrite <- Hh. rewrite len_app, <- !app_assoc in *. rewrite (app_assoc h enc). by apply name_at_app.
  - rewrite !len_app in *. change (len (be16 type)) with 2. change (len (be16 class)) with 2. lia.
Qed.

Lemma dotted_c_string ls : Forall label_ok ls → c_string (dotted ls).
Proof.
  induction 1 as [|l ls (_ & Hc & _) Hls IH]; [constructor|]. destruct ls as [|l2 ls]; [cbn; by rewrite app_nil_r|].
  rewrite dotted_cons. apply Forall_app. split; [done|]. constructor; [lia|done].
Qed.

Lemma dotted_text ls : Forall label_ok ls → c_text (dotted ls) = dotted ls.
Proof.
  intros H. apply c_text_id. intros H0. apply dotted_c_string in H. pose proof (proj1 (Forall_forall _ _) H 0 H0) as Hc. cbn in Hc. lia.
Qed.

Lemma take_len_app (p rest : bytes) : take (Z.to_nat (len p)) (p ++ rest) = p.
Proof. unfold len. by rewrite Nat2Z.id, take_app_length. Qed.

(** A DNS query survives the wire: what [evdns_request_data_build] writes for a
    name (labels of 1 to 63 characters, at most 255 in all) to a buffer of
    [evdns_request_len] bytes, the server's parser [request_parse] reads back as
    one question with the same name, type and class and the same transaction id;
    building it succeeds and never leaves the buffer. *)
Theorem dns_query_roundtrip ls id type class buf :
  name_ok ls → 0 <= id < 65536 → 0 <= type < 65536 → 0 <= class < 65536 →
  len buf = evdns_request_len (len (dotted ls)) →
  ∃ r buf', evdns_request_data_build (dotted ls) id type class buf = Some (r, buf') ∧ 0 <= r <= len buf ∧
    request_parse true true (λ _, true) (take (Z.to_nat r) buf') =
    Parsed (call_user (mk_sreq id 0 0 0 [] [] [] None 0x0100 [mk_question type class (dotted ls)])).
Proof.
  intros Hok Hid Hty Hcl Hbuf. pose proof (name_size_dotted ls (proj1 (proj2 Hok))) as Hsz.
  unfold evdns_request_len in Hbuf. pose proof (proj2 (proj2 Hok)) as Hl.
  destruct (request_built ls id type class buf Hok) as (enc & rest & k & E & Hlen & Hat & Hk); [lia..|].
  set (p := header id 0x0100 1 0 0 0 ++ enc ++ be16 type ++ be16 class) in *. eexists _, _. split; [exact E|].
  split. { rewrite len_app in Hlen. pose proof (len_nonneg p). pose proof (len_nonneg rest). lia. }
  rewrite take_len_app. unfold request_parse.
  pose proof (get_header_ok id 0x0100 1 0 0 0 (enc ++ be16 type ++ be16 class)) as Hg. fold p in Hg. rewrite Hg. cbn -[get_questions p wrap].
  rewrite (wrap_small 16 id) by lia. change (Z.to_nat (u16 1)) with 1%nat. cbn [get_questions].
  rewrite (name_parse_at p k 12 ls (12 + len enc)); [|done|lia|lia]. cbn [mbind parse_bind].
  set (h := header id 0x0100 1 0 0 0) in *. assert (Hh : len h = 12) by done.
  rewrite (GET16_at (h ++ enc) type (be16 class)) by (unfold p; rewrite ?len_app, <- ?app_assoc; done || lia). cbn [mbind parse_bind].
  rewrite (GET16_at (h ++ enc ++ be16 type) class []) by
    (unfold p; rewrite ?app_nil_r, ?len_app, <- ?app_assoc, ?be16_len; done || lia). cbn [mbind parse_bind].
  rewrite dotted_text, !wrap_small by (apply Hok || lia). done.
Qed.

(** ** The parsers never read outside of the packet *)

(** [m] is not stuck, and a result satisfies [P]. *)
Definition safe {A} (m : parse A) (P : A → Prop) : Prop :=
  match m with Parsed x => P x | Bad => True | Stuck => False end.

Lemma safe_bind {A B} (m : parse A) (f : A → parse B) P Q :
  safe m P → (∀ x, P x → safe (f x) Q) → safe (m ≫= f) Q.
Proof. destruct m; cbn; auto. Qed.

Lemma safe_weaken {A} (m : parse A) (P Q : A → Prop) : safe m P → (∀ x, P x → Q x) → safe m Q.
Proof. destruct m; cbn; auto. Qed.

Lemma be_nonneg bs : Forall is_byte bs → 0 <= be bs.
Proof.
  unfold be. assert (∀ a, 0 <= a → Forall is_byte bs → 0 <= foldl (λ a b, a * 256 + b) a bs) as H; [|by apply H].
  induction bs as [|b bs IH]; intros a Ha Hb; [done|]. apply Forall_cons in Hb as [Hb Hbs]. cbn. apply IH; [|done].
  unfold is_byte in Hb. lia.
Qed.

Section safety.
Context (packet : bytes) (Hbytes : Forall is_byte packet).

Lemma get_safe (n : Z) j : 0 <= j → 0 <= n →
  safe (if len packet <? j + n then Bad else bs ← bytes_at packet j n; Parsed (be bs, j + n)) (λ '(x, j'), 0 <= x ∧ 0 <= j').
Proof.
  intros Hj Hn. destruct (Z.ltb_spec (len packet) (j + n)); [done|].
  destruct (bytes_at_some packet j n) as (bs & E & Hl); [lia..|]. rewrite E. cbn. split; [|lia].
  eapply be_nonneg, bytes_at_byte; eauto.
Qed.

Lemma GET16_safe j : 0 <= j → safe (GET16 packet j) (λ '(x, j'), 0 <= x ∧ 0 <= j').
Proof. intros. by apply get_safe. Qed.
Lemma GET32_safe j : 0 <= j → safe (GET32 packet j) (λ '(x, j'), 0 <= x ∧ 0 <= j').
Proof. intros. by apply get_safe. Qed.

Lemma name_parse_safe j n : 0 <= j → 0 <= n → safe (name_parse packet j n) (λ '(name, j'), len name < n ∧ 0 <= j').
Proof.
  intros Hj Hn. destruct (name_parse_cases packet j n Hbytes Hj Hn) as [->|(name & j' & -> & ? & ?)]; [done|]. cbn. lia.
Qed.

Lemma SKIP_NAME_safe j : 0 <= j → safe (SKIP_NAME packet j) (λ j', 0 <= j').
Proof. intros. unfold SKIP_NAME. eapply safe_bind; [by apply name_parse_safe|]. intros [name j'] [_ ?]. done. Qed.

#[local] Ltac step_safe :=
  match goal with
  | |- safe (_ ≫= _) _ =>
    eapply safe_bind; [first [by apply GET16_safe | by apply GET32_safe | by apply SKIP_NAME_safe | by apply name_parse_safe]|];
    first [intros [? ?] [? ?] | intros ? ?]; cbn beta iota
  end.

Lemma get_rr_safe j : 0 <= j → safe (get_rr packet j) (λ '(type, class, ttl, datalength, j'), 0 <= datalength ∧ 0 <= j').
Proof. intros Hj. unfold get_rr. repeat step_safe. cbn. lia. Qed.

Lemma get_header_safe : safe (get_header packet) (λ '(_, _, _, _, _, _, j), 0 <= j).
Proof. unfold get_header. repeat step_safe. done. Qed.

(** The addresses are whole and fit in the array. *)
Definition reply_ok (width : Z) (r : reply) : Prop :=
  0 <= rp_addrcount r <= 32 ∧ len (rp_addresses r) = width * rp_addrcount r.

Definition width_of (request_type : Z) : Z := if request_type =? TYPE_A then 4 else 16.

Lemma reply_ok_empty rt : reply_ok (width_of rt) (empty_reply rt).
Proof. split; cbn; [lia|]. change (len []) with 0. lia. Qed.

Lemma get_addresses_safe width datalength ttl st : 0 < width → 0 <= datalength → 0 <= as_j st → reply_ok width (as_reply st) →
  safe (get_addresses packet width 32 datalength ttl st) (λ '(st', _), 0 <= as_j st' ∧ reply_ok width (as_reply st')).
Proof.
  intros Hw Hd Hj (Hc & Hl). unfold get_addresses. destruct (negb _); [done|].
  set (n := Z.min (u32 (32 - rp_addrcount (as_reply st))) (datalength / width)).
  assert (Hu : u32 (32 - rp_addrcount (as_reply st)) = 32 - rp_addrcount (as_reply st)) by (apply wrap_small; lia).
  assert (0 <= datalength / width) by (apply Z.div_pos; lia). assert (Hn : 0 <= n <= 32 - rp_addrcount (as_reply st)) by lia.
  destruct (Z.ltb_spec (len packet) (as_j st + width * n)); [done|].
  destruct (bytes_at_some packet (as_j st) (width * n)) as (bs & -> & Hbs); [lia|nia|lia|]. cbn [mbind parse_bind].
  destruct (Z.ltb_spec 32 (rp_addrcount (as_reply st) + n)); [lia|]. cbn. split; [nia|]. split; cbn; [lia|]. rewrite len_app. lia.
Qed.

Lemma answer_one_safe hmax dup rt st : 0 <= hmax → 0 <= as_j st → reply_ok (width_of rt) (as_reply st) →
  safe (answer_one hmax dup rt packet st) (λ '(st', _), 0 <= as_j st' ∧ reply_ok (width_of rt) (as_reply st')).
Proof.
  intros Hh Hj Hr. unfold answer_one. eapply safe_bind; [by apply get_rr_safe|]. intros [[[[type class] ttl] dl] j] [Hd Hj']. cbn beta iota.
  assert (Hskip : 0 <= j + dl) by lia.
  destruct ((type =? TYPE_A) && _).
  { destruct (Z.eqb_spec rt TYPE_A) as [->|]; cbn [negb]; [|by cbn]. by apply get_addresses_safe. }
  destruct ((type =? TYPE_PTR) && _).
  { destruct (negb _); [by cbn|]. step_safe. cbn. by destruct Hr. }
  destruct (type =? TYPE_CNAME).
  { destruct (as_cname _) as [[?|]|]; [by cbn| |by cbn]. step_safe. by cbn. }
  destruct ((type =? TYPE_AAAA) && _); [|by cbn].
  destruct (Z.eqb_spec rt TYPE_AAAA) as [->|]; cbn [negb]; [|by cbn]. by apply get_addresses_safe.
Qed.

Lemma answers_loop_safe hmax dup rt n st : 0 <= hmax → 0 <= as_j st → reply_ok (width_of rt) (as_reply st) →
  safe (snd (answers_loop hmax dup rt packet n st)) (λ st', 0 <= as_j st' ∧ reply_ok (width_of rt) (as_reply st')).
Proof.
  intros Hh. revert st. induction n as [|n IH]; intros st Hj Hr; cbn [answers_loop]; [done|].
  pose proof (answer_one_safe hmax dup rt st Hh Hj Hr) as Hs. destruct (answer_one _ _ _ _ _) as [[st' brk]| |]; [|done..].
  destruct Hs as [Hj' Hr']. destruct brk; [done|]. by apply IH.
Qed.

Lemma authority_loop_safe n j ttl : 0 <= j → safe (authority_loop packet n j ttl) (λ _, True).
Proof.
  revert j ttl. induction n as [|n IH]; intros j ttl Hj; cbn [authority_loop]; [done|].
  eapply safe_bind; [by apply get_rr_safe|]. intros [[[[type class] t] dl] j'] [Hd Hj']. cbn beta iota.
  destruct ((type =? TYPE_SOA) && _); [|apply IH; lia]. repeat step_safe. by apply IH.
Qed.

Lemma questions_loop_safe n rc request j m : Forall is_byte request → 0 <= j →
  safe (questions_loop n rc packet request j m) (λ '(j', _), 0 <= j').
Proof.
  intros Hreq. revert j m. induction n as [|n IH]; intros j m Hj; cbn [questions_loop]; [done|].
  step_safe. destruct (name_parse_cases request j 256 Hreq Hj) as [->|(name & j' & -> & ? & ?)]; [done|done|]. cbn [mbind parse_bind].
  destruct (_ <? _); [done|]. apply IH. lia.
Qed.

Lemma parse_answer_safe hmax dup rt rc request qd an ns j cname : Forall is_byte request → 0 <= hmax → 0 <= j →
  safe (snd (parse_answer hmax dup rt packet rc request qd an ns j cname)) (λ '(_, r), reply_ok (width_of rt) r).
Proof.
  intros Hreq Hh Hj. unfold parse_answer.
  pose proof (questions_loop_safe (Z.to_nat qd) rc request j false Hreq Hj) as Hq.
  destruct (questions_loop _ _ _ _ _ _) as [[j' [|]]| |]; [|done..]. cbn in Hq.
  pose proof (answers_loop_safe hmax dup rt (Z.to_nat an) (mk_as j' 4294967295 (empty_reply rt) cname) Hh Hq (reply_ok_empty rt)) as Ha.
  destruct (answers_loop _ _ _ _ _ _) as [cn st]. cbn [snd] in *. eapply safe_bind; [exact Ha|]. intros st' [Hj'' Hr].
  eapply (safe_bind _ _ (λ _, True)); [destruct (rp_have_answer _); [done|by apply authority_loop_safe]|]. intros ttl _. done.
Qed.

Lemma get_questions_safe n mem j qs : 0 <= j → safe (get_questions n mem packet j qs) (λ _, True).
Proof.
  revert j qs. induction n as [|n IH]; intros j qs Hj; cbn [get_questions]; [done|]. repeat step_safe.
  destruct (negb _); [done|]. by apply IH.
Qed.
End safety.

(** C29. The DNS parsers are memory-safe on every packet: whatever bytes a server or
    a client sends (pointers that form a loop or leave the packet, labels and
    counts that lie), [name_parse] ends and neither it nor the parsers of answers
    and of queries read outside of the packet, write outside of their arrays or
    run on; the answers that are kept are at most 32 whole addresses, and a name
    fits in its buffer. *)
Theorem dns_parsers_safe packet request host_name_max dup mem a c rt rc qd an ns cname idx n :
  Forall is_byte packet → Forall is_byte request → 0 <= host_name_max → 0 <= idx → 0 <= n →
  safe (name_parse packet idx n) (λ '(name, idx'), len name < n ∧ idx < idx' <= len packet) ∧
  safe (snd (parse_answer host_name_max dup rt packet rc request qd an ns idx cname)) (λ '(_, r), reply_ok (width_of rt) r) ∧
  safe (request_parse a c mem packet) (λ _, True).
Proof.
  intros Hp Hr Hh Hi Hn. split; [|split].
  - destruct (name_parse_cases packet idx n Hp Hi Hn) as [->|(name & j' & -> & ? & ?)]; done.
  - by apply parse_answer_safe.
  - unfold request_parse. eapply safe_bind; [by apply get_header_safe|]. intros [[[[[[id fl] q] an'] ns'] ar] j] Hj. cbn beta iota.
    destruct (fl &? 0x8000); [done|]. destruct (negb a), (negb c); try done.
    eapply safe_bind; [by apply get_questions_safe|]. intros qs _. done.
Qed.

(** ** Building a request for any name *)

(** A buffer of [n] bytes. *)
Definition buf_of (n : Z) (buf : bytes) : Prop := len buf = n ∧ Forall is_byte buf.

Lemma put_at_some n j bs buf : buf_of n buf → 0 <= j → j + len bs <= n → Forall is_byte bs → ∃ buf', put_at j bs buf = Some buf' ∧ buf_of n buf'.
Proof.
  intros [Hn Hb] Hj Hfit Hbs. unfold put_at. destruct (Z.ltb_spec j 0); [lia|]. rewrite memcpy_at_ok by (unfold len in *; lia).
  eexists. split; [done|]. split.
  - rewrite !len_app. unfold len in *. rewrite length_take, length_drop. lia.
  - apply Forall_app. split; [by apply Forall_take|]. apply Forall_app. split; [done|by apply Forall_drop].
Qed.

Lemma split_dot_size name label rest : Forall is_byte name → split_dot name = (label, rest) → Forall is_byte label ∧
  match rest with None => label = name | Some r => len label + 1 + len r = len name ∧ Forall is_byte r end.
Proof.
  intros Hb. unfold split_dot. destruct (strchr 46 name) as [i|] eqn:E; intros [= <- <-]; [|done].
  apply strchr_some in E as [Hi _]. apply lookup_lt_Some in Hi. split; [by apply Forall_take|]. split; [|by apply Forall_drop].
  unfold len. rewrite length_take, length_drop. lia.
Qed.

Lemma labels_loop_any dup n fuel : ∀ j name buf, buf_of n buf → Forall is_byte name → 0 <= j → j + len name + 2 <= n → (length name < fuel)%nat →
  ∃ r buf', labels_loop fuel dup j name buf None = Some (r, buf', None) ∧ buf_of n buf' ∧ (-2 <= r < 0 ∨ j <= r <= j + len name + 2).
Proof.
  induction fuel as [|fuel IH]; intros j name buf Hbuf Hb Hj Hfit Hf; [lia|]. cbn [labels_loop]. change (0 <=? -1) with false. cbv iota.
  destruct (split_dot name) as [label rest] eqn:Es. destruct (split_dot_size name label rest Hb Es) as [Hlb Hrest]. pose proof (len_nonneg label) as Hl0.
  destruct (63 <? len label); [by eexists _, _; split; [done|]; split; [done|lia]|].
  destruct (_ <? _); [by eexists _, _; split; [done|]; split; [done|lia]|]. cbn [fmap option_fmap option_map].
  assert (Hlen : len label <= len name) by (destruct rest as [r|]; [pose proof (len_nonneg r); lia|by subst]).
  destruct (put_at_some n j [u8 (len label)] buf Hbuf Hj) as (buf1 & -> & Hbuf1); [change (len [_]) with 1; lia|repeat constructor; apply wrap_range; lia|].
  destruct (put_at_some n (j + 1) label buf1 Hbuf1) as (buf2 & E2 & Hbuf2); [lia..|done|]. cbn [mbind option_bind]. rewrite E2. cbn [mbind option_bind].
  destruct rest as [r|].
  - destruct Hrest as [Hsum Hr]. destruct (IH (j + 1 + len label) r buf2) as (r' & buf' & -> & Hbuf' & Hr'); [done..|lia|lia|unfold len in *; lia|].
    eexists _, _. split; [done|]. split; [done|lia].
  - subst label. destruct (Z.eqb_spec (j + 1 + len name) 0); [lia|]. destruct Hbuf2 as [Hn2 Hb2].
    destruct (lookup_lt_is_Some_2 buf2 (Z.to_nat (j + 1 + len name - 1))) as [b ->]; [unfold len in *; lia|]. cbn [mbind option_bind orb].
    destruct (negb (b =? 0)); [|eexists _, _; split; [done|]; split; [done|lia]].
    destruct (put_at_some n (j + 1 + len name) [0] buf2) as (buf3 & -> & Hbuf3); [done|lia|change (len [0]) with 1; lia|by repeat constructor|].
    eexists _, _. split; [done|]. split; [done|lia].
Qed.

Lemma append16_some n x j buf : buf_of n buf → 0 <= j → j + 2 <= n → ∃ buf', APPEND16 x (buf, j) = Some (true, (buf', j + 2)) ∧ buf_of n buf'.
Proof.
  intros Hbuf Hj Hfit. unfold APPEND16, APPEND. rewrite (proj1 Hbuf). change (len (be16 x)) with 2. destruct (Z.ltb_spec n (j + 2)); [lia|].
  destruct (put_at_some n j (be16 x) buf Hbuf Hj) as (buf1 & -> & Hbuf1); [change (len (be16 x)) with 2; lia|repeat constructor; apply wrap_range; lia|].
  by exists buf1.
Qed.

Lemma append16_all n xs : ∀ j buf, buf_of n buf → 0 <= j → j + 2 * Z.of_nat (length xs) <= n →
  ∃ buf', append_all (APPEND16 <$> xs) (buf, j) = Some (true, (buf', j + 2 * Z.of_nat (length xs))) ∧ buf_of n buf'.
Proof.
  induction xs as [|x xs IH]; intros j buf Hbuf Hj Hfit; [exists buf; cbn; by rewrite Z.add_0_r|]. cbn [fmap list_fmap append_all length] in *.
  destruct (append16_some n x j buf Hbuf Hj) as (buf1 & -> & Hbuf1); [lia|]. cbn [mbind option_bind].
  destruct (IH (j + 2) buf1 Hbuf1) as (buf' & E & Hbuf'); [lia..|]. exists buf'. split; [|done]. etrans; [exact E|]. do 3 f_equal. lia.
Qed.

(** Building a request never leaves the buffer of [evdns_request_len] bytes,
    whatever the name. *)
Lemma request_build_safe name id type class buf : buf_of (evdns_request_len (len name)) buf → Forall is_byte name →
  ∃ r buf', evdns_request_data_build name id type class buf = Some (r, buf') ∧ buf_of (evdns_request_len (len name)) buf' ∧ (r < 0 ∨ 12 <= r <= len buf').
Proof.
  intros Hbuf Hb. unfold evdns_request_data_build. set (n := evdns_request_len (len name)) in *. pose proof (len_nonneg name) as Hl0.
  assert (Hn : n = 102 + len name) by (unfold n, evdns_request_len; lia).
  destruct (append16_all n [id; 0x0100; 1; 0; 0; 0] 0 buf Hbuf) as (buf1 & E1 & Hbuf1); [lia|cbn; lia|]. cbn [fmap list_fmap] in E1. rewrite E1. clear E1.
  cbn [mbind option_bind negb length]. unfold dnsname_to_labels. destruct (Z.ltb_spec 255 (len name)) as [Hlong|Hshort].
  { cbn. eexists _, _. split; [done|]. split; [done|]. left. done. }
  destruct (labels_loop_any (λ _, true) n (S (length name)) (0 + 2 * Z.of_nat 6) name buf1) as (r & buf2 & -> & Hbuf2 & Hr); [done..|lia|lia|lia|].
  cbn [mbind option_bind]. destruct (Z.ltb_spec r 0).
  { eexists _, _. split; [done|]. split; [done|]. left. rewrite i32_small; lia. }
  destruct (append16_all n [type; class] r buf2 Hbuf2) as (buf3 & E3 & Hbuf3); [lia|cbn; lia|]. cbn [fmap list_fmap] in E3. rewrite E3.
  cbn [mbind option_bind length]. eexists _, _. split; [done|]. split; [done|]. right. rewrite (proj1 Hbuf3), i32_small; lia.
Qed.
