(* ===== verification/DnsResponse.v ===== *)
(** * DNS responses survive the wire, compressed names included *)

From S2P Require Import Prelude Clib Util DnsPacket DnsNames DnsPacketProps.

(** ** Records in a packet *)

(** An answer with addresses of [width] bytes each under a well-formed name. *)
Record address_item (width type : Z) (it : server_reply_item) : Prop := {
  ai_name : ∃ ls, name_ok ls ∧ it_name it = dotted ls;
  ai_type : it_type it = type;
  ai_class : it_class it = CLASS_INET;
  ai_ttl : 0 <= it_ttl it < 2 ^ 32;
  ai_is_name : it_is_name it = false;
  ai_data : ∃ n data, 1 <= n ∧ it_data it = Some data ∧ len data = width * n ∧ it_datalen it = width * n
}.

Definition item_data (it : server_reply_item) : bytes := default [] (it_data it).

(** The records [items] follow one another from [j] to [e]. *)
Fixpoint records (packet : bytes) (j : Z) (items : list server_reply_item) (e : Z) : Prop :=
  match items with
  | [] => j = e
  | it :: items => ∃ k ls e1,
      name_at packet k j ls e1 ∧ 2 * Z.of_nat k <= len packet ∧ len (dotted ls) <= 255 ∧
      GET16 packet e1 = Parsed (it_type it, e1 + 2) ∧ GET16 packet (e1 + 2) = Parsed (it_class it, e1 + 2 + 2) ∧
      GET32 packet (e1 + 2 + 2) = Parsed (it_ttl it, e1 + 2 + 2 + 4) ∧
      GET16 packet (e1 + 2 + 2 + 4) = Parsed (it_datalen it, e1 + 2 + 2 + 4 + 2) ∧
      bytes_at packet (e1 + 2 + 2 + 4 + 2) (it_datalen it) = Parsed (item_data it) ∧
      records packet (e1 + 2 + 2 + 4 + 2 + it_datalen it) items e
  end.

Lemma get_app (n : Z) packet more j x : 0 <= n →
  (if len packet <? j + n then Bad else bs ← bytes_at packet j n; Parsed (be bs, j + n)) = Parsed x →
  (if len (packet ++ more) <? j + n then Bad else bs ← bytes_at (packet ++ more) j n; Parsed (be bs, j + n)) = Parsed x.
Proof.
  intros Hn. rewrite len_app. pose proof (len_nonneg more). destruct (Z.ltb_spec (len packet) (j + n)); [done|].
  destruct (Z.ltb_spec (len packet + len more) (j + n)); [lia|]. destruct (bytes_at packet j n) eqn:E; cbn; [|done..].
  by rewrite (bytes_at_app _ _ _ _ _ E).
Qed.

Lemma GET16_app packet more j x : GET16 packet j = Parsed x → GET16 (packet ++ more) j = Parsed x.
Proof. by apply get_app. Qed.
Lemma GET32_app packet more j x : GET32 packet j = Parsed x → GET32 (packet ++ more) j = Parsed x.
Proof. by apply get_app. Qed.

Lemma records_app packet more j items e : records packet j items e → records (packet ++ more) j items e.
Proof.
  revert j. induction items as [|it items IH]; intros j; cbn [records]; [done|].
  intros (k & ls & e1 & Hat & Hk & Hl & H1 & H2 & H3 & H4 & H5 & Hr). exists k, ls, e1.
  split; [by apply name_at_app|]. split; [rewrite len_app; pose proof (len_nonneg more); lia|]. split; [done|].
  do 4 (split; [by eauto using GET16_app, GET32_app|]). split; [by apply bytes_at_app|]. by apply IH.
Qed.

(** ** Formatting *)

Definition record_size (ls : list bytes) (datalen : Z) : Z := name_size ls + 10 + datalen.

(** The size of the answers without compression. *)
Definition item_size (it : server_reply_item) : Z := len (it_name it) + 2 + 10 + it_datalen it.
Definition items_size (items : list server_reply_item) : Z := foldr (λ it a, item_size it + a) 0 items.

Section formatting.
Context (dup : Z → bool) (n width type : Z) (Hn : n <= 16384) (Hw : 0 < width < 256) (Htype : 0 <= type < 65536).

Lemma datalen_nonneg it : address_item width type it → 0 <= it_datalen it.
Proof. intros [_ _ _ _ _ (m & d & Hm & _ & _ & ->)]. nia. Qed.

Lemma items_size_nonneg items : Forall (address_item width type) items → 0 <= items_size items.
Proof.
  induction 1 as [|it items Hit _ IH]; [done|]. change (items_size (it :: items)) with (item_size it + items_size items).
  pose proof (datalen_nonneg it Hit). unfold item_size. pose proof (len_nonneg (it_name it)). lia.
Qed.

Lemma datalen_small it : address_item width type it → it_datalen it < 65536 →
  0 <= it_datalen it ∧ len (item_data it) = it_datalen it ∧ it_data it = Some (item_data it).
Proof. intros [_ _ _ _ _ (m & data & Hm & Hd & Hl & Hdl)] H. unfold item_data. rewrite Hd. cbn. split; [nia|]. split; [lia|done]. Qed.

Lemma format_data_ok it pre w table : address_item width type it → it_datalen it < 65536 → wrote n pre w →
  len pre + 2 + it_datalen it <= n →
  ∃ w', format_data dup it w table = Some (true, w', table) ∧ wrote n (pre ++ be16 (it_datalen it) ++ item_data it) w'.
Proof.
  intros Hit Hdl Hw0 Hfit. destruct (datalen_small it Hit Hdl) as (Hd0 & Hdata & Hsome). unfold format_data. destruct w as [buf j].
  rewrite (ai_is_name _ _ _ Hit). destruct (append_ok n pre (buf, j) (be16 (it_datalen it)) Hw0) as (w1 & E & rest & -> & Hn1).
  { rewrite be16_len. lia. }
  unfold APPEND16. rewrite E. cbn [mbind option_bind negb]. rewrite !len_app, be16_len in *.
  destruct (Z.ltb_spec (len pre + 2 + len rest) (len pre + 2 + it_datalen it)); [lia|].
  rewrite Hsome. change (default [] (Some (item_data it))) with (item_data it). rewrite mread_ok by (unfold len in *; lia).
  cbn [mbind option_bind]. rewrite drop_0, take_ge by (unfold len in *; lia).
  replace (len pre + 2) with (len (pre ++ be16 (it_datalen it))) by (rewrite len_app; done).
  rewrite put_at_end by lia. cbn [mbind option_bind]. eexists. split; [done|]. rewrite app_assoc. eexists. split; [by rewrite !len_app, Hdata|].
  rewrite !len_app, be16_len. unfold len in *. rewrite length_drop. lia.
Qed.

(** A record in front of records. *)
Lemma record_cons it pre1 more k ls items j e : address_item width type it → it_datalen it < 65536 →
  name_at pre1 k j ls (len pre1) → 2 * Z.of_nat k <= len pre1 → len (dotted ls) <= 255 →
  let body := be16 (it_type it) ++ be16 (it_class it) ++ be32 (it_ttl it) ++ be16 (it_datalen it) ++ item_data it in
  records (pre1 ++ body ++ more) (len (pre1 ++ body)) items e → records (pre1 ++ body ++ more) j (it :: items) e.
Proof.
  intros Hit Hdl Hat Hk Hl body Hrec. destruct (datalen_small it Hit Hdl) as (Hd0 & Hdata & _).
  pose proof (ai_type _ _ _ Hit) as Ht. pose proof (ai_class _ _ _ Hit) as Hc. pose proof (ai_ttl _ _ _ Hit) as Httl.
  assert (Hbody : len (pre1 ++ body) = len pre1 + 2 + 2 + 4 + 2 + it_datalen it)
    by (unfold body; rewrite !len_app, !be16_len, Hdata; change (len (be32 (it_ttl it))) with 4; lia).
  rewrite Hbody in Hrec. cbn [records]. exists k, ls, (len pre1). split; [by apply name_at_app|].
  split; [rewrite len_app; pose proof (len_nonneg (body ++ more)); lia|]. split; [done|]. unfold body in *. rewrite <- !app_assoc in *.
  split; [erewrite (GET16_at pre1) by done; rewrite wrap_small by lia; done|].
  split. { erewrite (GET16_at (pre1 ++ be16 (it_type it))); [|by rewrite <- !app_assoc|rewrite ?len_app, ?be16_len; lia].
    rewrite wrap_small by (rewrite Hc; lia). done. }
  split. { erewrite (GET32_at (pre1 ++ be16 (it_type it) ++ be16 (it_class it))); [|by rewrite <- !app_assoc|rewrite ?len_app, ?be16_len; lia].
    rewrite wrap_small by lia. done. }
  split. { erewrite (GET16_at (pre1 ++ be16 (it_type it) ++ be16 (it_class it) ++ be32 (it_ttl it)));
      [|by rewrite <- !app_assoc|rewrite ?len_app, ?be16_len; change (len (be32 (it_ttl it))) with 4; lia].
    rewrite wrap_small by lia. done. }
  split; [|done].
  pose proof (bytes_at_here (pre1 ++ be16 (it_type it) ++ be16 (it_class it) ++ be32 (it_ttl it) ++ be16 (it_datalen it)) (item_data it) more) as Hb.
  rewrite <- !app_assoc, !len_app, !be16_len, Hdata in Hb. change (len (be32 (it_ttl it))) with 4 in Hb.
  replace (len pre1 + 2 + 2 + 4 + 2) with (len pre1 + (2 + (2 + (4 + 2)))) by lia. done.
Qed.

Lemma format_items_ok items pre w table : Forall (address_item width type) items → wrote n pre w → table_ok pre (Some table) →
  len pre + items_size items <= n → items_size items < 65536 →
  ∃ enc w' table', format_items dup items w table = Some (true, w', table') ∧ wrote n (pre ++ enc) w' ∧
    len enc <= items_size items ∧ records (pre ++ enc) (len pre) items (len (pre ++ enc)).
Proof.
  intros Hits. revert pre w table. induction Hits as [|it items Hit Hits IH]; intros pre w table Hw0 Htab Hfit Hsmall; cbn [format_items].
  { exists [], w, table. rewrite app_nil_r. change (len []) with 0. done. }
  cbn [items_size foldr] in *. fold (items_size items) in *.
  destruct (ai_name _ _ _ Hit) as (ls & Hok & Hname). pose proof (name_size_dotted ls (proj1 (proj2 Hok))) as Hsz.
  assert (His : item_size it = name_size ls + 10 + it_datalen it) by (unfold item_size; rewrite Hname; lia).
  pose proof (items_size_nonneg _ Hits). pose proof (name_ok_size ls Hok).
  pose proof (datalen_nonneg it Hit) as Hdl.
  rewrite Hname.
  destruct (dnsname_wrote n dup ls pre w table) as (enc1 & w1 & table1 & k & -> & Hw1 & Henc1 & Hat & Hk & Htab1);
    try done; try (by apply Hok); try lia.
  cbn [mbind option_bind].
  destruct Hw1 as (rest1 & -> & Hn1). cbn [fst snd]. destruct (Z.ltb_spec (len (pre ++ enc1)) 0); [pose proof (len_nonneg (pre ++ enc1)); lia|].
  set (pre1 := pre ++ enc1) in *.
  destruct (append_all_ok n [be16 (it_type it); be16 (it_class it); be32 (it_ttl it)] pre1 (pre1 ++ rest1, len pre1)) as (w2 & E2 & Hw2).
  { by exists rest1. }
  { change (len (mjoin [be16 (it_type it); be16 (it_class it); be32 (it_ttl it)])) with 8. unfold pre1. rewrite len_app. lia. }
  change (APPEND <$> [be16 (it_type it); be16 (it_class it); be32 (it_ttl it)])
    with [APPEND16 (it_type it); APPEND16 (it_class it); APPEND32 (it_ttl it)] in E2. rewrite E2. cbn [mbind option_bind negb].
  change (mjoin [be16 (it_type it); be16 (it_class it); be32 (it_ttl it)])
    with (be16 (it_type it) ++ be16 (it_class it) ++ be32 (it_ttl it)) in Hw2.
  assert (Hp1 : len pre1 = len pre + len enc1) by (unfold pre1; by rewrite len_app).
  destruct (format_data_ok it _ w2 table1 Hit ltac:(lia) Hw2) as (w3 & -> & Hw3).
  { rewrite !len_app, !be16_len. change (len (be32 (it_ttl it))) with 4. lia. }
  cbn [mbind option_bind]. rewrite <- !app_assoc in Hw3. set (body := be16 (it_type it) ++ be16 (it_class it) ++ be32 (it_ttl it) ++ be16 (it_datalen it) ++ item_data it) in *.
  destruct (datalen_small it Hit ltac:(lia)) as (_ & Hdata & _).
  assert (Hbody : len body = 10 + it_datalen it)
    by (unfold body; rewrite !len_app, !be16_len, Hdata; change (len (be32 (it_ttl it))) with 4; lia).
  destruct (IH (pre1 ++ body) w3 table1 Hw3) as (enc2 & w4 & table2 & -> & Hw4 & Henc2 & Hrec).
  { intros x Hx. apply entry_ok_app. by apply Htab1. }
  { rewrite len_app. lia. }
  { lia. }
  exists (enc1 ++ body ++ enc2), w4, table2. replace (pre ++ enc1 ++ body ++ enc2) with ((pre1 ++ body) ++ enc2)
    by (unfold pre1; by rewrite <- !app_assoc).
  split; [done|]. split; [done|]. split; [rewrite !len_app; lia|]. rewrite <- app_assoc.
  apply (record_cons it pre1 enc2 k ls items (len pre)); try done; try (by apply Hok); try lia.
  fold body. by rewrite app_assoc.
Qed.
End formatting.

(** ** Parsing *)

(** The types of addresses, with the width of one. *)
Definition address_type (rt width : Z) : Prop := (rt = TYPE_A ∧ width = 4) ∨ (rt = TYPE_AAAA ∧ width = 16).

Definition counts (items : list server_reply_item) (width : Z) : Z := foldr (λ it a, it_datalen it / width + a) 0 items.
Definition add_items (r : reply) (items : list server_reply_item) (width : Z) : reply :=
  mk_reply (rp_type r) (rp_have_answer r || negb (bool_decide (items = []))) (rp_addrcount r + counts items width)
    (rp_addresses r ++ mjoin (item_data <$> items)) (rp_name r).

Section parsing.
Context (packet : bytes) (rt width : Z) (Haddr : address_type rt width).

Lemma width_mask m : Z.land (width * m) (width - 1) = 0.
Proof.
  destruct Haddr as [[_ ->]|[_ ->]].
  - change (4 - 1) with (Z.ones 2). rewrite Z.land_ones by lia. change (2 ^ 2) with 4. rewrite Z.mul_comm. by apply Z.mod_mul.
  - change (16 - 1) with (Z.ones 4). rewrite Z.land_ones by lia. change (2 ^ 4) with 16. rewrite Z.mul_comm. by apply Z.mod_mul.
Qed.

Lemma width_pos : 0 < width < 256.
Proof. destruct Haddr as [[_ ->]|[_ ->]]; lia. Qed.

Lemma type_small : 0 <= rt < 65536.
Proof. destruct Haddr as [[-> _]|[-> _]]; lia. Qed.

(** One record of addresses, when there is room for them. *)
Lemma answer_one_record hmax dup it items e st : address_item width rt it → records packet (as_j st) (it :: items) e →
  0 <= rp_addrcount (as_reply st) → rp_addrcount (as_reply st) + it_datalen it / width <= 32 →
  ∃ st' brk, answer_one hmax dup rt packet st = Parsed (st', brk) ∧ records packet (as_j st') items e ∧
    as_cname st' = as_cname st ∧ as_ttl st' = Z.min (as_ttl st) (it_ttl it) ∧ as_reply st' = add_items (as_reply st) [it] width ∧
    brk = (rp_addrcount (as_reply st') =? 32).
Proof.
  intros Hit Hrec Hc0 Hc. pose proof width_pos as Hw. cbn [records] in Hrec.
  destruct Hrec as (k & ls & e1 & Hat & Hk & Hl & H1 & H2 & H3 & H4 & H5 & Hr).
  destruct (ai_data _ _ _ Hit) as (m & data & Hm & Hd & Hlen & Hdl).
  assert (Hdiv : it_datalen it / width = m) by (rewrite Hdl, Z.mul_comm; apply Z.div_mul; lia). rewrite Hdiv in Hc.
  unfold answer_one, get_rr, SKIP_NAME. rewrite (name_parse_at packet k _ ls e1) by (done || lia). cbn [mbind parse_bind].
  rewrite H1. cbn [mbind parse_bind]. rewrite H2. cbn [mbind parse_bind]. rewrite H3. cbn [mbind parse_bind]. rewrite H4. cbn [mbind parse_bind].
  rewrite (ai_type _ _ _ Hit), (ai_class _ _ _ Hit).
  set (st0 := mk_as (e1 + 2 + 2 + 4 + 2) (as_ttl st) (as_reply st) (as_cname st)).
  assert (Hget : ∃ st', get_addresses packet width 32 (it_datalen it) (it_ttl it) st0 = Parsed (st', rp_addrcount (as_reply st') =? 32) ∧
    as_j st' = e1 + 2 + 2 + 4 + 2 + it_datalen it ∧ as_cname st' = as_cname st ∧ as_ttl st' = Z.min (as_ttl st) (it_ttl it) ∧
    as_reply st' = add_items (as_reply st) [it] width).
  { unfold get_addresses. cbn [as_reply as_j as_ttl as_cname st0]. rewrite Hdl, width_mask. cbn [Z.eqb negb].
    rewrite (wrap_small 32) by lia. rewrite (Z.mul_comm width m), Z.div_mul by lia. rewrite Z.min_r by lia. rewrite (Z.mul_comm width m), <- (Z.mul_comm width m), <- Hdl.
    destruct (bytes_at_inv _ _ _ _ H5) as (Hp & _ & Hfit).
    destruct (Z.ltb_spec (len packet) (e1 + 2 + 2 + 4 + 2 + it_datalen it)); [lia|]. rewrite H5. cbn [mbind parse_bind].
    destruct (Z.ltb_spec 32 (rp_addrcount (as_reply st) + m)); [lia|].
    exists (mk_as (e1 + 2 + 2 + 4 + 2 + it_datalen it) (Z.min (as_ttl st) (it_ttl it))
      (mk_reply (rp_type (as_reply st)) true (rp_addrcount (as_reply st) + m) (rp_addresses (as_reply st) ++ item_data it) (rp_name (as_reply st))) (as_cname st)).
    split; [reflexivity|]. cbn [as_j as_cname as_ttl as_reply].
    split; [done|]. split; [done|]. split; [done|]. unfold add_items. cbn -[mjoin Z.div]. change (mjoin [item_data it]) with (item_data it ++ []).
    rewrite Hdiv, orb_true_r, app_nil_r, Z.add_0_r. done. }
  destruct Hget as (st' & E & Hj & Hcn & Htt & Hre). exists st', (rp_addrcount (as_reply st') =? 32).
  split; [|rewrite Hj; done]. destruct Haddr as [[-> ->]|[-> ->]]; exact E.
Qed.

Lemma add_items_app r xs ys : add_items (add_items r xs width) ys width = add_items r (xs ++ ys) width.
Proof.
  unfold add_items. cbn. f_equal.
  - rewrite <- orb_assoc. f_equal. destruct xs, ys; done.
  - unfold counts. rewrite foldr_app. induction xs as [|x xs IH]; cbn; [lia|]. cbn in IH. lia.
  - rewrite <- app_assoc. f_equal. rewrite fmap_app. by rewrite join_app.
Qed.

Lemma counts_length items : Forall (address_item width rt) items → Z.of_nat (length items) <= counts items width.
Proof.
  pose proof width_pos as Hw. induction 1 as [|it items Hit _ IH]; [done|].
  change (counts (it :: items) width) with (it_datalen it / width + counts items width).
  destruct (ai_data _ _ _ Hit) as (m & d & Hm & _ & _ & ->). rewrite Z.mul_comm, Z.div_mul by lia. cbn [length]. lia.
Qed.

Lemma counts_pos items : Forall (address_item width rt) items → items ≠ [] → 1 <= counts items width.
Proof. intros H%counts_length Hne. destruct items; [done|]. cbn [length] in H. lia. Qed.

Lemma answers_loop_records hmax dup items e st : Forall (address_item width rt) items → records packet (as_j st) items e →
  0 <= rp_addrcount (as_reply st) → rp_addrcount (as_reply st) + counts items width <= 32 →
  ∃ st', answers_loop hmax dup rt packet (length items) st = (as_cname st, Parsed st') ∧
    as_ttl st' = foldl Z.min (as_ttl st) (it_ttl <$> items) ∧ as_reply st' = add_items (as_reply st) items width.
Proof.
  intros Hits. revert st. induction Hits as [|it items Hit Hits IH]; intros st Hrec Hc0 Hc.
  { exists st. split; [done|]. split; [done|]. unfold add_items. cbn. rewrite orb_false_r, app_nil_r, Z.add_0_r. by destruct (as_reply st). }
  pose proof width_pos as Hw. cbn [length answers_loop]. cbn [counts foldr] in Hc. fold (counts items width) in Hc.
  assert (Hcp : 0 <= counts items width) by (destruct (decide (items = [])) as [->|Hne]; [done|pose proof (counts_pos items Hits Hne); lia]).
  destruct (answer_one_record hmax dup it items e st Hit Hrec Hc0) as (st1 & brk & -> & Hrec1 & Hcn & Htt & Hre & ->); [lia|].
  assert (Hcnt : rp_addrcount (as_reply st1) = rp_addrcount (as_reply st) + it_datalen it / width) by (rewrite Hre; cbn; lia).
  pose proof (datalen_nonneg width rt Hw type_small it Hit). assert (0 <= it_datalen it / width) by (apply Z.div_pos; lia).
  destruct (Z.eqb_spec (rp_addrcount (as_reply st1)) 32) as [E32|Hlt].
  - assert (items = []) as -> by (destruct (decide (items = [])) as [|Hne]; [done|pose proof (counts_pos items Hits Hne); lia]).
    exists st1. rewrite Hcn, Htt. done.
  - destruct (IH st1 Hrec1) as (st2 & -> & Htt2 & Hre2); [lia..|]. exists st2. rewrite Hcn. split; [done|].
    rewrite Htt2, Htt, Hre2, Hre. split; [done|]. by rewrite add_items_app.
Qed.
End parsing.

(** ** The response to a query *)

Lemma same_name_refl rc ls : Forall label_ok ls →
  (if rc : bool then evutil_ascii_strcasecmp (c_text (dotted ls)) (c_text (dotted ls)) =? 0
   else bool_decide (c_text (dotted ls) = c_text (dotted ls))) = true.
Proof.
  intros H. rewrite dotted_text by done. destruct rc; [|by apply bool_decide_true].
  apply Z.eqb_eq. by apply strcasecmp_zero; [apply dotted_c_string..|].
Qed.

Definition answer_ttl (items : list server_reply_item) : Z :=
  let t := foldl Z.min 4294967295 (it_ttl <$> items) in if t =? 4294967295 then 0 else t.

(** The parser on a packet with the question and the records. *)
Lemma parse_answer_ok hmax dup rt width rc packet query qls k kq e eq items cname :
  address_type rt width → name_ok qls → Forall (address_item width rt) items → counts items width <= 32 →
  name_at packet k 12 qls e → 2 * Z.of_nat k <= len packet → name_at query kq 12 qls eq → 2 * Z.of_nat kq <= len query →
  e + 4 <= len packet → records packet (e + 4) items (len packet) →
  parse_answer hmax dup rt packet rc query 1 (Z.of_nat (length items)) 0 12 cname =
  (cname, Parsed (answer_ttl items, add_items (empty_reply rt) items width)).
Proof.
  intros Haddr (Hls & Hne & Hlen) Hits Hc Hat Hk Hatq Hkq He Hrec. unfold parse_answer.
  change (Z.to_nat 1) with 1%nat. cbn [questions_loop].
  rewrite (name_parse_at packet k 12 qls e) by (done || lia). cbn [mbind parse_bind].
  rewrite (name_parse_at query kq 12 qls eq) by (done || lia). cbn [mbind parse_bind].
  rewrite same_name_refl by done. destruct (Z.ltb_spec (len packet) (e + 4)); [lia|]. cbn [orb].
  rewrite Nat2Z.id.
  destruct (answers_loop_records packet rt width Haddr hmax dup items (len packet) (mk_as (e + 4) 4294967295 (empty_reply rt) cname))
    as (st' & -> & Htt & Hre); [done..|cbn; lia|]. cbn [mbind parse_bind as_cname]. f_equal.
  rewrite Hre. change (Z.to_nat 0) with 0%nat. cbn [authority_loop]. cbn [as_ttl as_reply] in Htt |- *. rewrite Htt.
  destruct (rp_have_answer _); reflexivity.
Qed.

(** The response that is formatted, when everything fits in 512 bytes. *)
Lemma response_formatted dup rt width qls id flags items buf :
  address_type rt width → name_ok qls → Forall (address_item width rt) items → len buf = 1500 →
  12 + (len (dotted qls) + 6) + items_size items <= 512 →
  let req := mk_sreq id (Z.of_nat (length items)) 0 0 items [] [] None flags [mk_question rt CLASS_INET (dotted qls)] in
  ∃ enc recs k, let p := header id (u16 (Z.lor (u16 flags) 0x8000)) 1 (Z.of_nat (length items)) 0 0 ++ enc ++ be16 rt ++ be16 CLASS_INET ++ recs in
    evdns_server_request_format_response dup true buf req 0 = Some (0, server_request_free_answers (set_sr_response (Some p) req)) ∧
    len p <= 512 ∧ name_at p k 12 qls (12 + len enc) ∧ 2 * Z.of_nat k <= len p ∧ records p (12 + len enc + 4) items (len p).
Proof.
  intros Haddr Hok Hits Hbuf Hfit req. pose proof (name_size_dotted qls (proj1 (proj2 Hok))) as Hsz.
  pose proof (width_pos rt width Haddr) as Hw. pose proof (type_small rt width Haddr) as Hrt. pose proof (items_size_nonneg width rt Hw Hrt items Hits) as Hpos.
  pose proof (len_nonneg (dotted qls)).
  set (h := header id (u16 (Z.lor (u16 flags) 0x8000)) 1 (Z.of_nat (length items)) 0 0). assert (Hh : len h = 12) by done.
  unfold evdns_server_request_format_response. cbn [Z.ltb Z.compare orb].
  destruct (append_all_ok 1500 (be16 <$> [id; u16 (Z.lor (u16 flags) 0x8000); 1; Z.of_nat (length items); 0; 0]) [] (buf, 0)) as (w1 & E1 & Hw1).
  { by exists buf. } { change (len (mjoin _)) with 12. change (len []) with 0. lia. }
  change (append_all _ (buf, 0)) with (append_all (APPEND <$> (be16 <$> [id; u16 (Z.lor (u16 flags) 0x8000); 1; Z.of_nat (length items); 0; 0])) (buf, 0)).
  rewrite E1. cbn [mbind option_bind negb]. change ([] ++ mjoin _) with h in Hw1.
  cbn [sr_questions req format_questions q_name q_type q_class].
  destruct (dnsname_wrote 1500 dup qls h w1 []) as (enc & w2 & table2 & k & -> & Hw2 & Henc & Hat & Hk & Htab2);
    [done|lia|apply Hok|apply Hok|apply Hok|lia|by intros x ?%elem_of_nil|].
  cbn [mbind option_bind]. destruct Hw2 as (rest2 & -> & Hn2). cbn [fst snd].
  destruct (Z.ltb_spec (len (h ++ enc)) 0); [pose proof (len_nonneg (h ++ enc)); lia|].
  destruct (append_all_ok 1500 (be16 <$> [rt; CLASS_INET]) (h ++ enc) ((h ++ enc) ++ rest2, len (h ++ enc))) as (w3 & E3 & Hw3).
  { by exists rest2. } { change (len (mjoin _)) with 4. rewrite len_app. lia. }
  change (append_all [APPEND16 rt; APPEND16 CLASS_INET] ((h ++ enc) ++ rest2, len (h ++ enc)))
    with (append_all (APPEND <$> (be16 <$> [rt; CLASS_INET])) ((h ++ enc) ++ rest2, len (h ++ enc))).
  rewrite E3. cbn [mbind option_bind negb]. change (mjoin (be16 <$> [rt; CLASS_INET])) with (be16 rt ++ be16 CLASS_INET) in Hw3.
  set (pre3 := (h ++ enc) ++ be16 rt ++ be16 CLASS_INET) in *.
  assert (Hp3 : len pre3 = 12 + len enc + 4) by (unfold pre3; rewrite !len_app, !be16_len; lia).
  cbn [sr_answer sr_authority sr_additional req]. rewrite !app_nil_r.
  destruct (format_items_ok dup 1500 width rt ltac:(lia) Hw Hrt items pre3 w3 table2 Hits Hw3) as (recs & w4 & table4 & -> & Hw4 & Hrecs & Hrec).
  { unfold pre3. intros x Hx. apply entry_ok_app. by apply Htab2. } { lia. } { lia. }
  cbn [mbind option_bind]. exists enc, recs, k. cbv zeta. fold h.
  replace (h ++ enc ++ be16 rt ++ be16 CLASS_INET ++ recs) with (pre3 ++ recs) by (unfold pre3; by rewrite <- !app_assoc).
  destruct Hw4 as (rest4 & -> & Hn4). rewrite len_app in Hn4 |- *. pose proof (len_nonneg recs).
  split; [|split; [|split; [|split]]].
  - unfold format_finish. cbn [negb orb]. rewrite ?len_app. destruct (Z.ltb_spec 512 (len pre3 + len recs)); [lia|]. cbn [mbind option_bind].
    rewrite mread_ok by (rewrite !length_app; unfold len; lia). rewrite drop_0, <- len_app, take_len_app. done.
  - lia.
  - rewrite <- Hh. unfold pre3. rewrite <- app_assoc. rewrite len_app in Hat. by apply name_at_app.
  - rewrite len_app in Hk. lia.
  - rewrite <- len_app, <- Hp3. done.
Qed.

