(* ===== verification/DnsClient.v ===== *)
(** * The DNS client (evdns.c)

    Nameservers, requests in flight and waiting, their timeouts, failing over from
    one nameserver to another, and searching in domains.  Requests, nameservers,
    handles and search states live at addresses, which are not used again; reading
    one that was freed is stuck.  The circular lists are lists with the head of the
    C list first.  A user's callback is scheduled and runs later, from the event
    loop, so that no code of the user runs inside of these functions.  Of a timer
    and of the event of a socket it is kept whether it is pending. *)

From stdpp Require Import gmap.
From S2P Require Import Prelude Clib Util TimeVal DnsPacket.

(** ** State *)

(** The callback of a request: the user's, or that of a probe of a nameserver. *)
Inductive evdns_callback := UserCb (id : Z) | ProbeCb (ns : Z).

Record request := mk_request {
  rq_request : bytes;
  rq_type : Z;
  rq_reissue_count : Z;
  rq_tx_count : Z;
  rq_callback : evdns_callback;
  rq_ns : option Z;
  rq_timeout : bool;
  rq_trans_id : Z;
  rq_transmit_me : bool;
  rq_put_cname : option (option bytes);
  rq_handle : option Z
}.

Definition set_rq_request (v : bytes) (r : request) : request :=
  mk_request v (rq_type r) (rq_reissue_count r) (rq_tx_count r) (rq_callback r) (rq_ns r)
    (rq_timeout r) (rq_trans_id r) (rq_transmit_me r) (rq_put_cname r) (rq_handle r).
Definition set_rq_reissue_count (v : Z) (r : request) : request :=
  mk_request (rq_request r) (rq_type r) v (rq_tx_count r) (rq_callback r) (rq_ns r)
    (rq_timeout r) (rq_trans_id r) (rq_transmit_me r) (rq_put_cname r) (rq_handle r).
Definition set_rq_tx_count (v : Z) (r : request) : request :=
  mk_request (rq_request r) (rq_type r) (rq_reissue_count r) v (rq_callback r) (rq_ns r)
    (rq_timeout r) (rq_trans_id r) (rq_transmit_me r) (rq_put_cname r) (rq_handle r).
Definition set_rq_ns (v : option Z) (r : request) : request :=
  mk_request (rq_request r) (rq_type r) (rq_reissue_count r) (rq_tx_count r) (rq_callback r) v
    (rq_timeout r) (rq_trans_id r) (rq_transmit_me r) (rq_put_cname r) (rq_handle r).
Definition set_rq_timeout (v : bool) (r : request) : request :=
  mk_request (rq_request r) (rq_type r) (rq_reissue_count r) (rq_tx_count r) (rq_callback r)
    (rq_ns r) v (rq_trans_id r) (rq_transmit_me r) (rq_put_cname r) (rq_handle r).
Definition set_rq_trans_id (v : Z) (r : request) : request :=
  mk_request (rq_request r) (rq_type r) (rq_reissue_count r) (rq_tx_count r) (rq_callback r)
    (rq_ns r) (rq_timeout r) v (rq_transmit_me r) (rq_put_cname r) (rq_handle r).
Definition set_rq_transmit_me (v : bool) (r : request) : request :=
  mk_request (rq_request r) (rq_type r) (rq_reissue_count r) (rq_tx_count r) (rq_callback r)
    (rq_ns r) (rq_timeout r) (rq_trans_id r) v (rq_put_cname r) (rq_handle r).
Definition set_rq_put_cname (v : option (option bytes)) (r : request) : request :=
  mk_request (rq_request r) (rq_type r) (rq_reissue_count r) (rq_tx_count r) (rq_callback r)
    (rq_ns r) (rq_timeout r) (rq_trans_id r) (rq_transmit_me r) v (rq_handle r).
Definition set_rq_handle (v : option Z) (r : request) : request :=
  mk_request (rq_request r) (rq_type r) (rq_reissue_count r) (rq_tx_count r) (rq_callback r)
    (rq_ns r) (rq_timeout r) (rq_trans_id r) (rq_transmit_me r) (rq_put_cname r) v.

Record nameserver := mk_ns {
  ns_failed_times : Z;
  ns_timedout : Z;
  ns_timer : option timeval;
  ns_event : bool;
  ns_probe : option Z;
  ns_state : bool;
  ns_choked : bool;
  ns_write_waiting : bool;
  ns_inflight : Z
}.

Definition set_ns_failed_times (v : Z) (r : nameserver) : nameserver :=
  mk_ns v (ns_timedout r) (ns_timer r) (ns_event r) (ns_probe r) (ns_state r) (ns_choked r)
    (ns_write_waiting r) (ns_inflight r).
Definition set_ns_timedout (v : Z) (r : nameserver) : nameserver :=
  mk_ns (ns_failed_times r) v (ns_timer r) (ns_event r) (ns_probe r) (ns_state r) (ns_choked r)
    (ns_write_waiting r) (ns_inflight r).
Definition set_ns_timer (v : option timeval) (r : nameserver) : nameserver :=
  mk_ns (ns_failed_times r) (ns_timedout r) v (ns_event r) (ns_probe r) (ns_state r)
    (ns_choked r) (ns_write_waiting r) (ns_inflight r).
Definition set_ns_event (v : bool) (r : nameserver) : nameserver :=
  mk_ns (ns_failed_times r) (ns_timedout r) (ns_timer r) v (ns_probe r) (ns_state r)
    (ns_choked r) (ns_write_waiting r) (ns_inflight r).
Definition set_ns_probe (v : option Z) (r : nameserver) : nameserver :=
  mk_ns (ns_failed_times r) (ns_timedout r) (ns_timer r) (ns_event r) v (ns_state r)
    (ns_choked r) (ns_write_waiting r) (ns_inflight r).
Definition set_ns_state (v : bool) (r : nameserver) : nameserver :=
  mk_ns (ns_failed_times r) (ns_timedout r) (ns_timer r) (ns_event r) (ns_probe r) v
    (ns_choked r) (ns_write_waiting r) (ns_inflight r).
Definition set_ns_choked (v : bool) (r : nameserver) : nameserver :=
  mk_ns (ns_failed_times r) (ns_timedout r) (ns_timer r) (ns_event r) (ns_probe r) (ns_state r)
    v (ns_write_waiting r) (ns_inflight r).
Definition set_ns_write_waiting (v : bool) (r : nameserver) : nameserver :=
  mk_ns (ns_failed_times r) (ns_timedout r) (ns_timer r) (ns_event r) (ns_probe r) (ns_state r)
    (ns_choked r) v (ns_inflight r).
Definition set_ns_inflight (v : Z) (r : nameserver) : nameserver :=
  mk_ns (ns_failed_times r) (ns_timedout r) (ns_timer r) (ns_event r) (ns_probe r) (ns_state r)
    (ns_choked r) (ns_write_waiting r) v.

(** The handle of a request, which outlives the requests of a search. *)
Record evdns_request := mk_handle {
  h_current_req : option Z;
  h_pending_cb : bool;
  h_search_index : Z;
  h_search_state : option Z;
  h_search_origname : option bytes;
  h_search_flags : Z
}.

Definition set_h_current_req (v : option Z) (r : evdns_request) : evdns_request :=
  mk_handle v (h_pending_cb r) (h_search_index r) (h_search_state r) (h_search_origname r)
    (h_search_flags r).
Definition set_h_pending_cb (v : bool) (r : evdns_request) : evdns_request :=
  mk_handle (h_current_req r) v (h_search_index r) (h_search_state r) (h_search_origname r)
    (h_search_flags r).
Definition set_h_search_index (v : Z) (r : evdns_request) : evdns_request :=
  mk_handle (h_current_req r) (h_pending_cb r) v (h_search_state r) (h_search_origname r)
    (h_search_flags r).
Definition set_h_search_state (v : option Z) (r : evdns_request) : evdns_request :=
  mk_handle (h_current_req r) (h_pending_cb r) (h_search_index r) v (h_search_origname r)
    (h_search_flags r).
Definition set_h_search_origname (v : option bytes) (r : evdns_request) : evdns_request :=
  mk_handle (h_current_req r) (h_pending_cb r) (h_search_index r) (h_search_state r) v
    (h_search_flags r).
Definition set_h_search_flags (v : Z) (r : evdns_request) : evdns_request :=
  mk_handle (h_current_req r) (h_pending_cb r) (h_search_index r) (h_search_state r)
    (h_search_origname r) v.

(** The domains, in the order of the list. *)
Record search_state := mk_search {
  ss_refcount : Z;
  ss_ndots : Z;
  ss_num_domains : Z;
  ss_domains : list bytes
}.

Definition set_ss_refcount (v : Z) (r : search_state) : search_state :=
  mk_search v (ss_ndots r) (ss_num_domains r) (ss_domains r).
Definition set_ss_ndots (v : Z) (r : search_state) : search_state :=
  mk_search (ss_refcount r) v (ss_num_domains r) (ss_domains r).
Definition set_ss_num_domains (v : Z) (r : search_state) : search_state :=
  mk_search (ss_refcount r) (ss_ndots r) v (ss_domains r).
Definition set_ss_domains (v : list bytes) (r : search_state) : search_state :=
  mk_search (ss_refcount r) (ss_ndots r) (ss_num_domains r) v.

Record deferred_reply_callback := mk_deferred {
  d_handle : option Z;
  d_request_type : Z;
  d_callback : evdns_callback;
  d_ttl : Z;
  d_err : Z;
  d_reply : option reply
}.

(** The options of a base. *)
Record evdns_options := mk_options {
  o_max_requests_inflight : Z;
  o_max_reissues : Z;
  o_max_retransmits : Z;
  o_max_nameserver_timeout : Z;
  o_randomize_case : bool;
  o_probe_initial_timeout : timeval;
  o_disable_when_inactive : bool
}.

Definition set_o_max_requests_inflight (v : Z) (o : evdns_options) : evdns_options :=
  mk_options v (o_max_reissues o) (o_max_retransmits o) (o_max_nameserver_timeout o) (o_randomize_case o)
    (o_probe_initial_timeout o) (o_disable_when_inactive o).

(** [db_next] is the address of the next object, [db_tick] counts the questions
    asked of the environment. *)
Record evdns_base := mk_db {
  db_requests : gmap Z request;
  db_servers : gmap Z nameserver;
  db_handles : gmap Z evdns_request;
  db_searches : gmap Z search_state;
  db_heads : list (list Z);
  db_waiting : list Z;
  db_ring : list Z;
  db_good : Z;
  db_inflight : Z;
  db_nwaiting : Z;
  db_search : option Z;
  db_deferred : list deferred_reply_callback;
  db_next : Z;
  db_tick : nat;
  db_options : evdns_options
}.

Definition set_db_requests (v : gmap Z request) (r : evdns_base) : evdns_base :=
  mk_db v (db_servers r) (db_handles r) (db_searches r) (db_heads r) (db_waiting r) (db_ring r)
    (db_good r) (db_inflight r) (db_nwaiting r) (db_search r) (db_deferred r) (db_next r)
    (db_tick r) (db_options r).
Definition set_db_servers (v : gmap Z nameserver) (r : evdns_base) : evdns_base :=
  mk_db (db_requests r) v (db_handles r) (db_searches r) (db_heads r) (db_waiting r) (db_ring r)
    (db_good r) (db_inflight r) (db_nwaiting r) (db_search r) (db_deferred r) (db_next r)
    (db_tick r) (db_options r).
Definition set_db_handles (v : gmap Z evdns_request) (r : evdns_base) : evdns_base :=
  mk_db (db_requests r) (db_servers r) v (db_searches r) (db_heads r) (db_waiting r) (db_ring r)
    (db_good r) (db_inflight r) (db_nwaiting r) (db_search r) (db_deferred r) (db_next r)
    (db_tick r) (db_options r).
Definition set_db_searches (v : gmap Z search_state) (r : evdns_base) : evdns_base :=
  mk_db (db_requests r) (db_servers r) (db_handles r) v (db_heads r) (db_waiting r) (db_ring r)
    (db_good r) (db_inflight r) (db_nwaiting r) (db_search r) (db_deferred r) (db_next r)
    (db_tick r) (db_options r).
Definition set_db_heads (v : list (list Z)) (r : evdns_base) : evdns_base :=
  mk_db (db_requests r) (db_servers r) (db_handles r) (db_searches r) v (db_waiting r)
    (db_ring r) (db_good r) (db_inflight r) (db_nwaiting r) (db_search r) (db_deferred r)
    (db_next r) (db_tick r) (db_options r).
Definition set_db_waiting (v : list Z) (r : evdns_base) : evdns_base :=
  mk_db (db_requests r) (db_servers r) (db_handles r) (db_searches r) (db_heads r) v (db_ring r)
    (db_good r) (db_inflight r) (db_nwaiting r) (db_search r) (db_deferred r) (db_next r)
    (db_tick r) (db_options r).
Definition set_db_ring (v : list Z) (r : evdns_base) : evdns_base :=
  mk_db (db_requests r) (db_servers r) (db_handles r) (db_searches r) (db_heads r)
    (db_waiting r) v (db_good r) (db_inflight r) (db_nwaiting r) (db_search r) (db_deferred r)
    (db_next r) (db_tick r) (db_options r).
Definition set_db_good (v : Z) (r : evdns_base) : evdns_base :=
  mk_db (db_requests r) (db_servers r) (db_handles r) (db_searches r) (db_heads r)
    (db_waiting r) (db_ring r) v (db_inflight r) (db_nwaiting r) (db_search r) (db_deferred r)
    (db_next r) (db_tick r) (db_options r).
Definition set_db_inflight (v : Z) (r : evdns_base) : evdns_base :=
  mk_db (db_requests r) (db_servers r) (db_handles r) (db_searches r) (db_heads r)
    (db_waiting r) (db_ring r) (db_good r) v (db_nwaiting r) (db_search r) (db_deferred r)
    (db_next r) (db_tick r) (db_options r).
Definition set_db_nwaiting (v : Z) (r : evdns_base) : evdns_base :=
  mk_db (db_requests r) (db_servers r) (db_handles r) (db_searches r) (db_heads r)
    (db_waiting r) (db_ring r) (db_good r) (db_inflight r) v (db_search r) (db_deferred r)
    (db_next r) (db_tick r) (db_options r).
Definition set_db_search (v : option Z) (r : evdns_base) : evdns_base :=
  mk_db (db_requests r) (db_servers r) (db_handles r) (db_searches r) (db_heads r)
    (db_waiting r) (db_ring r) (db_good r) (db_inflight r) (db_nwaiting r) v (db_deferred r)
    (db_next r) (db_tick r) (db_options r).
Definition set_db_deferred (v : list deferred_reply_callback) (r : evdns_base) : evdns_base :=
  mk_db (db_requests r) (db_servers r) (db_handles r) (db_searches r) (db_heads r)
    (db_waiting r) (db_ring r) (db_good r) (db_inflight r) (db_nwaiting r) (db_search r) v
    (db_next r) (db_tick r) (db_options r).
Definition set_db_next (v : Z) (r : evdns_base) : evdns_base :=
  mk_db (db_requests r) (db_servers r) (db_handles r) (db_searches r) (db_heads r)
    (db_waiting r) (db_ring r) (db_good r) (db_inflight r) (db_nwaiting r) (db_search r)
    (db_deferred r) v (db_tick r) (db_options r).
Definition set_db_tick (v : nat) (r : evdns_base) : evdns_base :=
  mk_db (db_requests r) (db_servers r) (db_handles r) (db_searches r) (db_heads r)
    (db_waiting r) (db_ring r) (db_good r) (db_inflight r) (db_nwaiting r) (db_search r)
    (db_deferred r) (db_next r) v (db_options r).

Definition set_db_options (v : evdns_options) (r : evdns_base) : evdns_base :=
  mk_db (db_requests r) (db_servers r) (db_handles r) (db_searches r) (db_heads r)
    (db_waiting r) (db_ring r) (db_good r) (db_inflight r) (db_nwaiting r) (db_search r)
    (db_deferred r) (db_next r) (db_tick r) v.

(** ** The monad: state, and stuck *)

Definition dns (A : Type) : Type := evdns_base → option (A * evdns_base).
#[export] Instance dns_ret : MRet dns := λ A x s, Some (x, s).
#[export] Instance dns_bind : MBind dns := λ A B f m s, match m s with Some (x, s) => f x s | None => None end.

Definition stuck {A} : dns A := λ _, None.
Definition gets {A} (f : evdns_base → A) : dns A := λ s, Some (f s, s).
Definition modify (f : evdns_base → evdns_base) : dns unit := λ s, Some (tt, f s).
Definition assert_ (b : bool) : dns unit := λ s, if b then Some (tt, s) else None.
Definition from_map {A} (f : evdns_base → gmap Z A) (p : Z) : dns A :=
  λ s, match f s !! p with Some x => Some (x, s) | None => None end.

Definition get_req : Z → dns request := from_map db_requests.
Definition get_ns : Z → dns nameserver := from_map db_servers.
Definition get_handle : Z → dns evdns_request := from_map db_handles.
Definition get_search : Z → dns search_state := from_map db_searches.
Definition upd_req (p : Z) (f : request → request) : dns unit :=
  r ← get_req p; modify (λ s, set_db_requests (<[p := f r]> (db_requests s)) s).
Definition upd_ns (p : Z) (f : nameserver → nameserver) : dns unit :=
  r ← get_ns p; modify (λ s, set_db_servers (<[p := f r]> (db_servers s)) s).
Definition upd_handle (p : Z) (f : evdns_request → evdns_request) : dns unit :=
  r ← get_handle p; modify (λ s, set_db_handles (<[p := f r]> (db_handles s)) s).
Definition upd_search (p : Z) (f : search_state → search_state) : dns unit :=
  r ← get_search p; modify (λ s, set_db_searches (<[p := f r]> (db_searches s)) s).
Definition new_addr : dns Z := λ s, Some (db_next s, set_db_next (db_next s + 1) s).

(** [f] for each element of a list that does not change meanwhile. *)
Fixpoint for_each {A} (f : A → dns unit) (l : list A) : dns unit :=
  match l with [] => mret tt | x :: l => f x;; for_each f l end.

(** ** The environment

    Each function answers the question with the given number: the random bytes of
    a transaction id, the result of [sendto], whether an event or timer could be
    added and whether memory could be allocated ([e_deferred] for a callback that
    is scheduled), and the random case of a letter. *)

Inductive send_result := SendOk | SendShort | SendRetry | SendFail.

Class DnsEnv := {
  e_rng : nat → Z;
  e_rng_fuel : nat → nat;
  e_send : nat → send_result;
  e_event_add : nat → bool;
  e_timer_add : nat → bool;
  e_malloc : nat → bool;
  e_deferred : nat → bool;
  e_case : nat → nat → bool
}.

Definition ask {A} (f : nat → A) : dns A := λ s, Some (f (db_tick s), set_db_tick (S (db_tick s)) s).

Section client.
Context `{DnsEnv}.

(** [ASSERT_VALID_REQUEST] *)
Definition ASSERT_VALID_REQUEST (req : Z) : dns unit :=
  r ← get_req req;
  match rq_handle r with
  | None => stuck
  | Some h => hd ← get_handle h; assert_ (bool_decide (h_current_req hd = Some req))
  end.

(** ** The lists *)

(** [REQ_HEAD(base, id)], as the index of the list. *)
Definition REQ_HEAD (id : Z) : dns nat := heads ← gets db_heads; mret (Z.to_nat (id mod Z.of_nat (length heads))).

Fixpoint find_trans_id (l : list Z) (trans_id : Z) : dns (option Z) :=
  match l with
  | [] => mret None
  | p :: l => r ← get_req p; if rq_trans_id r =? trans_id then mret (Some p) else find_trans_id l trans_id
  end.

Definition request_find_from_trans_id (trans_id : Z) : dns (option Z) :=
  i ← REQ_HEAD trans_id;
  heads ← gets db_heads;
  match heads !! i with None => stuck | Some l => find_trans_id l trans_id end.

(** The list of requests in flight with index [i], or the waiting list. *)
Inductive req_list := Inflight (i : nat) | Waiting.

Definition get_list (head : req_list) : dns (list Z) :=
  match head with
  | Waiting => gets db_waiting
  | Inflight i => heads ← gets db_heads; match heads !! i with None => stuck | Some l => mret l end
  end.
Definition set_list (head : req_list) (l : list Z) : dns unit :=
  match head with
  | Waiting => modify (set_db_waiting l)
  | Inflight i => modify (λ s, set_db_heads (<[i := l]> (db_heads s)) s)
  end.

Definition evdns_request_remove (req : Z) (head : req_list) : dns unit :=
  ASSERT_VALID_REQUEST req;;
  l ← get_list head;
  match unlink req l with None => stuck | Some l => set_list head l end.

Definition evdns_request_insert (req : Z) (head : req_list) : dns unit :=
  ASSERT_VALID_REQUEST req;;
  l ← get_list head;
  set_list head (l ++ [req]).

(** ** Choosing a transaction id and a nameserver *)

Fixpoint transaction_id_loop (fuel : nat) : dns Z :=
  match fuel with
  | O => stuck
  | S fuel =>
    trans_id ← ask e_rng;
    if trans_id =? 0xffff then transaction_id_loop fuel
    else
      found ← request_find_from_trans_id trans_id;
      match found with None => mret trans_id | Some _ => transaction_id_loop fuel end
  end.
(** The loop has no bound in C; [e_rng_fuel] says how many tries the model makes from a
    question on. *)
Definition transaction_id_pick : dns Z := λ s, transaction_id_loop (e_rng_fuel (db_tick s)) s.

(** [base->server_head = base->server_head->next] *)
Definition rotate (l : list Z) : list Z := match l with [] => [] | x :: l => l ++ [x] end.
Definition next_server : dns unit := modify (λ s, set_db_ring (rotate (db_ring s)) s).
Definition server_head : dns Z := ring ← gets db_ring; match ring with [] => stuck | x :: _ => mret x end.

Fixpoint pick_loop (fuel : nat) (started_at : Z) : dns (option Z) :=
  match fuel with
  | O => stuck
  | S fuel =>
    head ← server_head;
    ns ← get_ns head;
    if ns_state ns then next_server;; mret (Some head)
    else
      next_server;;
      head ← server_head;
      if bool_decide (head = started_at) then
        good ← gets db_good;
        assert_ (good =? 0);;
        next_server;;
        mret (Some head)
      else pick_loop fuel started_at
  end.

Definition nameserver_pick : dns (option Z) :=
  ring ← gets db_ring;
  match ring with
  | [] => mret None
  | started_at :: _ =>
    good ← gets db_good;
    if good =? 0 then next_server;; head ← server_head; mret (Some head)
    else pick_loop (length ring) started_at
  end.

(** ** Failing nameservers *)

Definition request_swap_ns (req : Z) (ns : option Z) : dns unit :=
  r ← get_req req;
  match ns with
  | None => mret tt
  | Some ns =>
    if bool_decide (rq_ns r = Some ns) then mret tt
    else
      match rq_ns r with
      | None => stuck
      | Some old =>
        o ← get_ns old;
        assert_ (0 <? ns_inflight o);;
        upd_ns old (λ n, set_ns_inflight (ns_inflight n - 1) n);;
        upd_ns ns (λ n, set_ns_inflight (ns_inflight n + 1) n);;
        upd_req req (set_rq_ns (Some ns))
      end
  end.

(** [evtimer_add] of the timer of a nameserver. *)
Definition add_ns_timer (ns : Z) (timeout : timeval) : dns unit :=
  ok ← ask e_timer_add;
  if (ok : bool) then upd_ns ns (set_ns_timer (Some timeout)) else mret tt.

Definition nameserver_failed (ns : Z) : dns unit :=
  n ← get_ns ns;
  if negb (ns_state n) then mret tt
  else
    modify (λ s, set_db_good (db_good s - 1) s);;
    good ← gets db_good;
    assert_ (0 <=? good);;
    upd_ns ns (λ n, set_ns_failed_times 1 (set_ns_state false n));;
    o ← gets db_options;
    add_ns_timer ns (o_probe_initial_timeout o);;
    if good =? 0 then mret tt
    else
      heads ← gets db_heads;
      for_each (λ req,
        r ← get_req req;
        if (rq_tx_count r =? 0) && bool_decide (rq_ns r = Some ns) then
          picked ← nameserver_pick; request_swap_ns req picked
        else mret tt) (mjoin heads).

Abbreviation MAX_PROBE_TIMEOUT := 3600.
Abbreviation TIMEOUT_BACKOFF_FACTOR := 3.

(** The timeout for the next probe; [n] is [failed_times]. *)
Fixpoint backoff (n : nat) (timeout : timeval) : timeval :=
  match n with
  | O => timeout
  | S n =>
    if MAX_PROBE_TIMEOUT <=? tv_sec timeout then timeout
    else
      let sec := tv_sec timeout * TIMEOUT_BACKOFF_FACTOR in
      let usec := tv_usec timeout * TIMEOUT_BACKOFF_FACTOR in
      backoff n (if 1000000 <? usec then mk_timeval (sec + usec ÷ 1000000) (Z.rem usec 1000000) else mk_timeval sec usec)
  end.
Definition probe_timeout (failed_times : Z) (initial : timeval) : timeval :=
  let timeout := backoff (Z.to_nat failed_times) initial in
  if MAX_PROBE_TIMEOUT <? tv_sec timeout then mk_timeval MAX_PROBE_TIMEOUT 0 else timeout.

Definition nameserver_probe_failed (ns : Z) : dns unit :=
  upd_ns ns (set_ns_timer None);;
  n ← get_ns ns;
  if ns_state n then mret tt
  else
    o ← gets db_options;
    upd_ns ns (λ n, set_ns_failed_times (ns_failed_times n + 1) n);;
    add_ns_timer ns (probe_timeout (ns_failed_times n) (o_probe_initial_timeout o)).

(** ** Transmitting *)

Definition nameserver_write_waiting (ns : Z) (waiting : bool) : dns unit :=
  n ← get_ns ns;
  if Bool.eqb (ns_write_waiting n) waiting then mret tt
  else
    ok ← ask e_event_add;
    upd_ns ns (λ n, set_ns_event ok (set_ns_write_waiting waiting n)).

Definition evdns_request_transmit_to (req server : Z) : dns Z :=
  ASSERT_VALID_REQUEST req;;
  n ← get_ns server;
  o ← gets db_options;
  added ← (if (ns_inflight n =? 1) && o_disable_when_inactive o then
             ok ← ask e_event_add;
             (if (ok : bool) then upd_ns server (set_ns_event true) else mret tt);;
             mret ok
           else mret true);
  if negb added then mret 1
  else
    r ← ask e_send;
    match r with
    | SendRetry | SendShort => mret 1
    | SendFail =>
      q ← get_req req;
      match rq_ns q with None => stuck | Some ns => nameserver_failed ns;; mret 2 end
    | SendOk => mret 0
    end.

Definition evdns_request_transmit (req : Z) : dns Z :=
  ASSERT_VALID_REQUEST req;;
  upd_req req (set_rq_transmit_me true);;
  q ← get_req req;
  assert_ (negb (rq_trans_id q =? 0xffff));;
  match rq_ns q with
  | None => mret 1
  | Some ns =>
    n ← get_ns ns;
    if ns_choked n then mret 1
    else
      r ← evdns_request_transmit_to req ns;
      if r =? 1 then
        q ← get_req req;
        match rq_ns q with
        | None => stuck
        | Some ns =>
          upd_ns ns (set_ns_choked true);;
          nameserver_write_waiting ns true;;
          mret 1
        end
      else
        ok ← ask e_timer_add;
        upd_req req (λ q, set_rq_transmit_me false (set_rq_tx_count (rq_tx_count q + 1)
                            (if (ok : bool) then set_rq_timeout true q else q)));;
        mret (if r =? 2 then 1 else 0)
  end.

(** Whether something was to be transmitted. *)
Fixpoint transmit_each (l : list Z) (did_try : bool) : dns bool :=
  match l with
  | [] => mret did_try
  | req :: l =>
    q ← get_req req;
    if rq_transmit_me q then evdns_request_transmit req;; transmit_each l true
    else transmit_each l did_try
  end.
Definition evdns_transmit : dns bool := heads ← gets db_heads; transmit_each (mjoin heads) false.

(** ** Requests *)

(** The id is also the first number of the packet. *)
Definition request_trans_id_set (req trans_id : Z) : dns unit :=
  q ← get_req req;
  match put_at 0 (be16 trans_id) (rq_request q) with
  | None => stuck
  | Some packet => upd_req req (λ q, set_rq_request packet (set_rq_trans_id trans_id q))
  end.

(** One round for each request that waits. *)
Fixpoint pump_loop (fuel : nat) : dns unit :=
  o ← gets db_options;
  inflight ← gets db_inflight;
  nwaiting ← gets db_nwaiting;
  if negb ((inflight <? o_max_requests_inflight o) && negb (nwaiting =? 0)) then mret tt
  else
    match fuel with
    | O => stuck
    | S fuel =>
      waiting ← gets db_waiting;
      match waiting with
      | [] => stuck
      | req :: _ =>
        picked ← nameserver_pick;
        upd_req req (set_rq_ns picked);;
        match picked with
        | None => mret tt
        | Some ns =>
          upd_ns ns (λ n, set_ns_inflight (ns_inflight n + 1) n);;
          evdns_request_remove req Waiting;;
          modify (λ s, set_db_inflight (db_inflight s + 1) (set_db_nwaiting (db_nwaiting s - 1) s));;
          trans_id ← transaction_id_pick;
          request_trans_id_set req trans_id;;
          i ← REQ_HEAD trans_id;
          evdns_request_insert req (Inflight i);;
          evdns_request_transmit req;;
          evdns_transmit;;
          pump_loop fuel
        end
      end
    end.
Definition evdns_requests_pump_waiting_queue : dns unit := waiting ← gets db_waiting; pump_loop (length waiting).

Definition search_state_decref (state : Z) : dns unit :=
  upd_search state (λ st, set_ss_refcount (ss_refcount st - 1) st);;
  st ← get_search state;
  if ss_refcount st =? 0 then modify (λ s, set_db_searches (delete state (db_searches s)) s) else mret tt.

Definition search_request_finished (handle : Z) : dns unit :=
  hd ← get_handle handle;
  (match h_search_state hd with
   | None => mret tt
   | Some st => search_state_decref st;; upd_handle handle (set_h_search_state None)
   end);;
  upd_handle handle (set_h_search_origname None).

Definition free_handle (h : Z) : dns unit := modify (λ s, set_db_handles (delete h (db_handles s)) s).

(** What happens to the handle of a request that is finished. *)
Definition finish_handle (req : Z) (handle : Z) (free : bool) : dns unit :=
  hd ← get_handle handle;
  assert_ (bool_decide (h_current_req hd = Some req));;
  if free then
    search_request_finished handle;;
    upd_handle handle (set_h_current_req None);;
    hd ← get_handle handle;
    if h_pending_cb hd then mret tt else free_handle handle
  else upd_handle handle (set_h_current_req None).

Definition request_finished (req : Z) (head : req_list) (free : bool) : dns unit :=
  ASSERT_VALID_REQUEST req;;
  evdns_request_remove req head;;
  q ← get_req req;
  (match head with
   | Inflight _ =>
     upd_req req (set_rq_timeout false);;
     modify (λ s, set_db_inflight (db_inflight s - 1) s);;
     match rq_ns q with None => stuck | Some ns => upd_ns ns (λ n, set_ns_inflight (ns_inflight n - 1) n) end
   | Waiting => modify (λ s, set_db_nwaiting (db_nwaiting s - 1) s)
   end);;
  (match rq_ns q with
   | None => mret tt
   | Some ns =>
     n ← get_ns ns;
     o ← gets db_options;
     if (ns_inflight n =? 0) && o_disable_when_inactive o
     then upd_ns ns (λ n, set_ns_event false (set_ns_timer None n)) else mret tt
   end);;
  (match rq_handle q with None => mret tt | Some h => finish_handle req h free end);;
  modify (λ s, set_db_requests (delete req (db_requests s)) s);;
  evdns_requests_pump_waiting_queue.

(** The list a request in flight is on. *)
Definition inflight_list (req : Z) : dns req_list := q ← get_req req; i ← REQ_HEAD (rq_trans_id q); mret (Inflight i).

Definition request_reissue (req : Z) : dns Z :=
  ASSERT_VALID_REQUEST req;;
  q ← get_req req;
  let last_ns := rq_ns q in
  picked ← nameserver_pick;
  request_swap_ns req picked;;
  q ← get_req req;
  if bool_decide (rq_ns q = last_ns) then mret 1
  else
    upd_req req (λ q, set_rq_transmit_me true (set_rq_tx_count 0 (set_rq_reissue_count (rq_reissue_count q + 1) q)));;
    mret 0.

(** ** Replies and timeouts *)

Definition reply_schedule_callback (req : Z) (ttl err : Z) (rep : option reply) : dns unit :=
  ok ← ask e_deferred;
  if negb ok then mret tt
  else
    q ← get_req req;
    (match rq_handle q with None => mret tt | Some h => upd_handle h (set_h_pending_cb true) end);;
    modify (λ s, set_db_deferred (db_deferred s ++ [mk_deferred (rq_handle q) (rq_type q) (rq_callback q) ttl err rep]) s).

Definition evdns_cancel_request (handle : Z) : dns unit :=
  hd ← get_handle handle;
  match h_current_req hd with
  | None => mret tt
  | Some req =>
    if h_pending_cb hd then mret tt
    else
      ASSERT_VALID_REQUEST req;;
      reply_schedule_callback req 0 DNS_ERR_CANCEL None;;
      q ← get_req req;
      match rq_ns q with
      | Some _ => head ← inflight_list req; request_finished req head true
      | None => request_finished req Waiting true
      end
  end.

Definition nameserver_up (ns : Z) : dns unit :=
  n ← get_ns ns;
  if ns_state n then mret tt
  else
    upd_ns ns (set_ns_timer None);;
    (match ns_probe n with
     | None => mret tt
     | Some h => evdns_cancel_request h;; upd_ns ns (set_ns_probe None)
     end);;
    upd_ns ns (λ n, set_ns_timedout 0 (set_ns_failed_times 0 (set_ns_state true n)));;
    modify (λ s, set_db_good (db_good s + 1) s).

Definition evdns_request_timeout_callback (req : Z) : dns unit :=
  q ← get_req req;
  o ← gets db_options;
  if o_max_retransmits o <=? rq_tx_count q then
    match rq_ns q with
    | None => stuck
    | Some ns =>
      reply_schedule_callback req 0 DNS_ERR_TIMEOUT None;;
      head ← inflight_list req;
      request_finished req head true;;
      nameserver_failed ns
    end
  else
    upd_req req (set_rq_timeout false);;
    picked ← nameserver_pick;
    request_swap_ns req picked;;
    evdns_request_transmit req;;
    q ← get_req req;
    match rq_ns q with
    | None => stuck
    | Some ns =>
      upd_ns ns (λ n, set_ns_timedout (ns_timedout n + 1) n);;
      n ← get_ns ns;
      if o_max_nameserver_timeout o <? ns_timedout n then
        upd_ns ns (set_ns_timedout 0);;
        nameserver_failed ns
      else mret tt
    end.

(** ** New requests *)

(** The letters of the name with the case that the random bits say. *)
Definition randomize (bits : nat → bool) (name : bytes) : bytes :=
  imap (λ i c, if EVUTIL_ISALPHA_ c then (if bits i then Z.lor c 0x20 else Z.land c (Z.lnot 0x20)) else c) name.

Definition request_new (handle : option Z) (type : Z) (name : bytes) (callback : evdns_callback) : dns (option Z) :=
  o ← gets db_options;
  inflight ← gets db_inflight;
  let issuing_now := inflight <? o_max_requests_inflight o in
  trans_id ← (if issuing_now then transaction_id_pick else mret 0xffff);
  ok ← ask e_malloc;
  if negb ok then mret None
  else if 256 <=? len name then mret None
  else
    name ← (if o_randomize_case o then bits ← ask e_case; mret (randomize bits name) else mret name);
    match evdns_request_data_build name trans_id type CLASS_INET (replicate (Z.to_nat (evdns_request_len (len name))) 0) with
    | None => stuck
    | Some (rlen, buf) =>
      if rlen <? 0 then mret None
      else
        picked ← (if issuing_now then nameserver_pick else mret None);
        req ← new_addr;
        modify (λ s, set_db_requests (<[req := mk_request (take (Z.to_nat rlen) buf) type 0 0 callback picked false trans_id false None handle]> (db_requests s)) s);;
        (match handle with None => mret tt | Some h => upd_handle h (set_h_current_req (Some req)) end);;
        mret (Some req)
    end.

Definition request_submit (req : Z) : dns unit :=
  ASSERT_VALID_REQUEST req;;
  q ← get_req req;
  match rq_ns q with
  | Some ns =>
    i ← REQ_HEAD (rq_trans_id q);
    evdns_request_insert req (Inflight i);;
    modify (λ s, set_db_inflight (db_inflight s + 1) s);;
    upd_ns ns (λ n, set_ns_inflight (ns_inflight n + 1) n);;
    evdns_request_transmit req;;
    mret tt
  | None =>
    evdns_request_insert req Waiting;;
    modify (λ s, set_db_nwaiting (db_nwaiting s + 1) s)
  end.

(** *** Searching *)

Definition string_num_dots (s : bytes) : Z := Z.of_nat (length (filter (λ c, c = 46) s)).

(** The name with the [n]-th domain behind it; [None] if it cannot be made. *)
Definition search_make_new (st : search_state) (n : Z) (base_name : bytes) : dns (option bytes) :=
  match last base_name with
  | None => mret None
  | Some c =>
    match (if n <? 0 then None else ss_domains st !! Z.to_nat n) with
    | None => stuck
    | Some postfix =>
      ok ← ask e_malloc;
      mret (if (ok : bool) then Some (base_name ++ (if c =? 46 then [] else [46]) ++ postfix) else None)
    end
  end.

Definition search_try_next (handle : Z) : dns Z :=
  hd ← get_handle handle;
  match h_current_req hd with
  | None => stuck
  | Some req =>
    q ← get_req req;
    match h_search_state hd with
    | None => mret 1
    | Some sp =>
      upd_handle handle (λ hd, set_h_search_index (h_search_index hd + 1) hd);;
      st ← get_search sp;
      match h_search_origname hd with
      | None => stuck
      | Some origname =>
        newreq ← (if ss_num_domains st <=? h_search_index hd + 1 then
                    if string_num_dots origname <? ss_ndots st then
                      newreq ← request_new None (rq_type q) origname (rq_callback q);
                      (match newreq with None => mret tt | Some _ => search_request_finished handle end);;
                      mret newreq
                    else mret None
                  else
                    new_name ← search_make_new st (h_search_index hd + 1) origname;
                    match new_name with
                    | None => mret None
                    | Some new_name => request_new None (rq_type q) new_name (rq_callback q)
                    end);
        match newreq with
        | None => mret 1
        | Some newreq =>
          head ← inflight_list req;
          request_finished req head false;;
          upd_handle handle (set_h_current_req (Some newreq));;
          upd_req newreq (set_rq_handle (Some handle));;
          request_submit newreq;;
          mret 0
        end
      end
    end
  end.

Definition search_request_new (handle type : Z) (name : bytes) (flags : Z) (callback : evdns_callback) : dns (option Z) :=
  assert_ ((type =? TYPE_A) || (type =? TYPE_AAAA));;
  hd ← get_handle handle;
  assert_ (bool_decide (h_current_req hd = None));;
  global ← gets db_search;
  st ← (match global with Some sp => st ← get_search sp; mret (Some (sp, st)) | None => mret None end);
  match st with
  | Some (sp, st) =>
    if negb (flags &? 1) && negb (ss_num_domains st =? 0) then
      '(req, index) ← (if ss_ndots st <=? string_num_dots name then
                         req ← request_new (Some handle) type name callback; mret (req, -1)
                       else
                         new_name ← search_make_new st 0 name;
                         match new_name with
                         | None => mret (None, 0)
                         | Some new_name => req ← request_new (Some handle) type new_name callback; mret (req, 0)
                         end);
      match req with
      | None => mret None
      | Some req =>
        upd_handle handle (set_h_search_index index);;
        assert_ (bool_decide (h_search_origname hd = None));;
        ok ← ask e_malloc;
        if negb ok then modify (λ s, set_db_requests (delete req (db_requests s)) s);; mret None
        else
          upd_handle handle (λ hd, set_h_search_flags flags (set_h_search_state (Some sp) (set_h_search_origname (Some name) hd)));;
          upd_search sp (λ st, set_ss_refcount (ss_refcount st + 1) st);;
          request_submit req;;
          mret (Some req)
      end
    else
      req ← request_new (Some handle) type name callback;
      match req with None => mret None | Some req => request_submit req;; mret (Some req) end
  | None =>
    req ← request_new (Some handle) type name callback;
    match req with None => mret None | Some req => request_submit req;; mret (Some req) end
  end.

(** *** The user's calls *)

Definition new_handle : dns (option Z) :=
  ok ← ask e_malloc;
  if negb ok then mret None
  else
    h ← new_addr;
    modify (λ s, set_db_handles (<[h := mk_handle None false 0 None None 0]> (db_handles s)) s);;
    mret (Some h).

(** The handle, or NULL if it got no request. *)
Definition handle_or_null (h : Z) : dns (option Z) :=
  hd ← get_handle h;
  match h_current_req hd with None => free_handle h;; mret None | Some _ => mret (Some h) end.

Definition resolve (type : Z) (name : bytes) (flags : Z) (callback : evdns_callback) : dns (option Z) :=
  h ← new_handle;
  match h with
  | None => mret None
  | Some h =>
    (if flags &? 1 then
       req ← request_new (Some h) type name callback;
       match req with None => mret tt | Some req => request_submit req end
     else search_request_new h type name flags callback;; mret tt);;
    handle_or_null h
  end.
Definition evdns_base_resolve_ipv4 : bytes → Z → evdns_callback → dns (option Z) := resolve TYPE_A.
Definition evdns_base_resolve_ipv6 : bytes → Z → evdns_callback → dns (option Z) := resolve TYPE_AAAA.

(** [a] is the address in the order of the machine. *)
Definition evdns_base_resolve_reverse (a : Z) (callback : evdns_callback) : dns (option Z) :=
  h ← new_handle;
  match h with
  | None => mret None
  | Some h =>
    req ← request_new (Some h) TYPE_PTR (inaddr_arpa a) callback;
    (match req with None => mret tt | Some req => request_submit req end);;
    handle_or_null h
  end.

(** *** Probes *)

Definition nameserver_send_probe (ns : Z) : dns unit :=
  h ← new_handle;
  match h with
  | None => mret tt
  | Some h =>
    req ← request_new (Some h) TYPE_A (bytes_of_string "google.com") (ProbeCb ns);
    match req with
    | None => free_handle h
    | Some req =>
      upd_ns ns (set_ns_probe (Some h));;
      trans_id ← transaction_id_pick;
      request_trans_id_set req trans_id;;
      upd_req req (set_rq_ns (Some ns));;
      request_submit req
    end
  end.
Definition nameserver_prod_callback (ns : Z) : dns unit := upd_ns ns (set_ns_timer None);; nameserver_send_probe ns.

Definition nameserver_probe_callback (result ns : Z) : dns unit :=
  if result =? DNS_ERR_CANCEL then mret tt
  else
    upd_ns ns (set_ns_probe None);;
    if (result =? DNS_ERR_NONE) || (result =? DNS_ERR_NOTEXIST) then nameserver_up ns else nameserver_probe_failed ns.

(** ** Replies *)

(** The error that the flags and the reply say. *)
Definition reply_error (flags : Z) (rep : option reply) : Z :=
  if flags &? 0x0200 then DNS_ERR_TRUNCATED
  else if flags &? 0x000f then
    let error_code := u16 (Z.land flags 0x000f - 1) in
    if 4 <? error_code then DNS_ERR_UNKNOWN
    else default DNS_ERR_UNKNOWN
      ([DNS_ERR_FORMAT; DNS_ERR_SERVERFAILED; DNS_ERR_NOTEXIST; DNS_ERR_NOTIMPL; DNS_ERR_REFUSED] !! Z.to_nat error_code)
  else match rep with Some r => if rp_have_answer r then DNS_ERR_UNKNOWN else DNS_ERR_NODATA | None => DNS_ERR_UNKNOWN end.

(** A good reply came: the request is no probe any more, and the server is up. *)
Definition server_is_up (req : Z) : dns unit :=
  q ← get_req req;
  match rq_ns q with
  | None => stuck
  | Some ns =>
    n ← get_ns ns;
    (if bool_decide (rq_handle q = ns_probe n) then upd_ns ns (set_ns_probe None) else mret tt);;
    nameserver_up ns
  end.

Definition reply_failed (req : Z) (ttl error : Z) : dns unit :=
  q ← get_req req;
  match rq_handle q with
  | None => stuck
  | Some h =>
    hd ← get_handle h;
    finished ← (if bool_decide (h_search_state hd = None) || (rq_type q =? TYPE_PTR) then mret false
                else r ← search_try_next h; mret (r =? 0));
    if (finished : bool) then mret tt
    else
      reply_schedule_callback req ttl error None;;
      head ← inflight_list req;
      request_finished req head true
  end.

Definition reply_handle (req : Z) (flags ttl : Z) (rep : option reply) : dns unit :=
  ASSERT_VALID_REQUEST req;;
  if (flags &? 0x020f) || match rep with None => true | Some r => negb (rp_have_answer r) end then
    let error := reply_error flags rep in
    q ← get_req req;
    o ← gets db_options;
    if (error =? DNS_ERR_NOTIMPL) || (error =? DNS_ERR_REFUSED) then
      if rq_reissue_count q <? o_max_reissues o then
        match rq_ns q with
        | None => stuck
        | Some ns =>
          nameserver_failed ns;;
          r ← request_reissue req;
          if r =? 0 then mret tt else reply_failed req ttl error
        end
      else reply_failed req ttl error
    else if error =? DNS_ERR_SERVERFAILED then evdns_request_timeout_callback req
    else server_is_up req;; reply_failed req ttl error
  else
    reply_schedule_callback req ttl 0 rep;;
    server_is_up req;;
    head ← inflight_list req;
    request_finished req head true.

(** [dup] is whether a canonical name can be copied. *)
Definition reply_parse (host_name_max : Z) (dup : bytes → bool) (packet : bytes) : dns Z :=
  match get_header packet with
  | Stuck => stuck
  | Bad => mret (-1)
  | Parsed (trans_id, flags, questions, answers, authority, _, j) =>
    found ← request_find_from_trans_id trans_id;
    match found with
    | None => mret (-1)
    | Some req =>
      if negb (flags &? 0x8000) then mret (-1)
      else if (flags &? 0x020f) && negb (Z.land flags 0x020f =? DNS_ERR_NOTEXIST) then reply_handle req flags 0 None;; mret (-1)
      else
        q ← get_req req;
        o ← gets db_options;
        let '(cname, res) := parse_answer host_name_max dup (rq_type q) packet (o_randomize_case o) (rq_request q)
                               questions answers authority j (rq_put_cname q) in
        upd_req req (set_rq_put_cname cname);;
        match res with
        | Stuck => stuck
        | Bad => reply_handle req flags 0 None;; mret (-1)
        | Parsed (ttl, rep) => reply_handle req flags ttl (Some rep);; mret 0
        end
    end
  end.

(** A packet that came from the address of the nameserver. *)
Definition nameserver_packet (host_name_max : Z) (dup : bytes → bool) (ns : Z) (packet : bytes) : dns unit :=
  upd_ns ns (set_ns_timedout 0);; reply_parse host_name_max dup packet;; mret tt.

(** [recvfrom] until it would block; the packets and whether they came from the
    address of the nameserver, and whether the last call failed for good. *)
Fixpoint nameserver_read (host_name_max : Z) (dup : bytes → bool) (ns : Z) (packets : list (bool * bytes)) (failed : bool) : dns unit :=
  match packets with
  | [] => if failed then nameserver_failed ns else mret tt
  | (from_ns, packet) :: packets =>
    if negb from_ns then mret tt
    else nameserver_packet host_name_max dup ns packet;; nameserver_read host_name_max dup ns packets failed
  end.

Definition nameserver_ready_write (ns : Z) : dns unit :=
  upd_ns ns (set_ns_choked false);;
  tried ← evdns_transmit;
  if (tried : bool) then mret tt else nameserver_write_waiting ns false.

(** ** Callbacks

    The callback runs and then its handle is freed.  What a user's callback does
    besides is a step of its own. *)
Definition reply_run_callback (d : deferred_reply_callback) : dns unit :=
  assert_ ((d_request_type d =? TYPE_A) || (d_request_type d =? TYPE_PTR) || (d_request_type d =? TYPE_AAAA));;
  (match d_callback d with
   | UserCb _ => mret tt
   | ProbeCb ns => nameserver_probe_callback (match d_reply d with Some _ => DNS_ERR_NONE | None => d_err d end) ns
   end);;
  match d_handle d with
  | None => mret tt
  | Some h => hd ← get_handle h; if h_pending_cb hd then free_handle h else mret tt
  end.

(** The next one of the callbacks that wait. *)
Definition run_deferred : dns unit :=
  ds ← gets db_deferred;
  match ds with
  | [] => mret tt
  | d :: ds => modify (set_db_deferred ds);; reply_run_callback d
  end.

(** ** Nameservers come and go *)

Definition evdns_base_resume : dns unit := evdns_requests_pump_waiting_queue.

(** The new nameserver is put behind the head; [listens] says that its event was
    added. *)
Definition nameserver_insert (listens : bool) : dns Z :=
  ns ← new_addr;
  modify (λ s, set_db_servers (<[ns := mk_ns 0 0 None listens None true false false 0]> (db_servers s)) s);;
  modify (λ s, set_db_ring (match db_ring s with [] => [ns] | x :: l => x :: ns :: l end) s);;
  modify (λ s, set_db_good (db_good s + 1) s);;
  mret ns.

(** A request in flight goes to the front of the waiting list. *)
Definition suspend_request (req : Z) : dns unit :=
  upd_req req (λ q, set_rq_transmit_me false (set_rq_trans_id 0 (set_rq_timeout false (set_rq_ns None
                      (set_rq_reissue_count 0 (set_rq_tx_count 0 q))))));;
  modify (λ s, set_db_nwaiting (db_nwaiting s + 1) s);;
  ASSERT_VALID_REQUEST req;;
  modify (λ s, set_db_waiting (req :: db_waiting s) s).

Definition free_server (ns : Z) : dns unit :=
  n ← get_ns ns;
  (match ns_probe n with
   | None => mret tt
   | Some h => evdns_cancel_request h;; upd_ns ns (set_ns_probe None)
   end);;
  modify (λ s, set_db_servers (delete ns (db_servers s)) s).

Definition evdns_base_clear_nameservers_and_suspend : dns unit :=
  ring ← gets db_ring;
  match ring with
  | [] => mret tt
  | _ =>
    for_each free_server ring;;
    modify (λ s, set_db_good 0 (set_db_ring [] s));;
    heads ← gets db_heads;
    for_each suspend_request (mjoin heads);;
    modify (λ s, set_db_inflight 0 (set_db_heads (replicate (length heads) []) s))
  end.

(** ** The base *)

(** The requests of the old lists, one after the other, go to the new lists. *)
Fixpoint move_requests (l : list Z) (new_heads : list (list Z)) : dns (list (list Z)) :=
  match l with
  | [] => mret new_heads
  | req :: l =>
    ASSERT_VALID_REQUEST req;;
    q ← get_req req;
    let i := Z.to_nat (rq_trans_id q mod Z.of_nat (length new_heads)) in
    ASSERT_VALID_REQUEST req;;
    match new_heads !! i with
    | None => stuck
    | Some h => move_requests l (<[i := h ++ [req]]> new_heads)
    end
  end.

Definition evdns_base_set_max_requests_inflight (maxinflight : Z) : dns Z :=
  let maxinflight := if maxinflight <? 1 then 1 else maxinflight in
  let n_heads := (maxinflight + 4) ÷ 5 in
  assert_ (0 <? n_heads);;
  ok ← ask e_malloc;
  if negb ok then mret (-1)
  else
    old_heads ← gets db_heads;
    new_heads ← move_requests (mjoin old_heads) (replicate (Z.to_nat n_heads) []);
    modify (λ s, set_db_options (set_o_max_requests_inflight maxinflight (db_options s)) (set_db_heads new_heads s));;
    mret 0.

(** Without EVDNS_BASE_INITIALIZE_NAMESERVERS; [next] is the first address.  The
    result of allocating the lists is ignored. *)
Definition evdns_base_new (flags next : Z) : option evdns_base :=
  snd <$> evdns_base_set_max_requests_inflight 64
    (mk_db ∅ ∅ ∅ ∅ [] [] [] 0 0 0 None [] next 0 (mk_options 0 1 3 3 true (mk_timeval 10 0) (flags &? 0x8000))).
End client.
