(* ===== verification/DnsClientInv.v ===== *)
(** * The DNS client: the invariant of its queues and nameservers

    Rules for programs, the invariant [core], choosing nameservers, nameservers
    that fail, and transmitting. *)

From stdpp Require Import gmap.
From S2P Require Import Prelude Clib Util TimeVal DnsPacket DnsNames DnsPacketProps DnsClient.

(** ** Running a program *)

(** [m] is not stuck from [s], and ends in a state that satisfies [Q]. *)
Definition wp {A} (m : dns A) (Q : A → evdns_base → Prop) (s : evdns_base) : Prop :=
  ∃ a s', m s = Some (a, s') ∧ Q a s'.

Section rules.
Context {A B : Type}.
Implicit Types (m : dns A) (Q : A → evdns_base → Prop) (s : evdns_base).

Lemma wp_ret (x : A) Q s : Q x s → wp (mret x) Q s.
Proof. intros. by exists x, s. Qed.

Lemma wp_bind m (f : A → dns B) (Q : B → evdns_base → Prop) s : wp m (λ a, wp (f a) Q) s → wp (m ≫= f) Q s.
Proof. intros (a & s1 & E & b & s2 & E2 & HQ). exists b, s2. unfold mbind, dns_bind. by rewrite E. Qed.

Lemma wp_mono m (P Q : A → evdns_base → Prop) s : wp m P s → (∀ a s', P a s' → Q a s') → wp m Q s.
Proof. intros (a & s' & E & HP) H. exists a, s'. auto. Qed.

Lemma wp_gets (f : evdns_base → A) Q s : Q (f s) s → wp (gets f) Q s.
Proof. intros. by exists (f s), s. Qed.

Lemma wp_ask (f : nat → A) Q s : (∀ t, Q (f t) (set_db_tick (S (db_tick s)) s)) → wp (ask f) Q s.
Proof. intros H. exists (f (db_tick s)), (set_db_tick (S (db_tick s)) s). auto. Qed.
End rules.

Lemma wp_modify f (Q : unit → evdns_base → Prop) s : Q tt (f s) → wp (modify f) Q s.
Proof. intros. by exists tt, (f s). Qed.

Lemma wp_assert b (Q : unit → evdns_base → Prop) s : b = true → Q tt s → wp (assert_ b) Q s.
Proof. intros -> ?. by exists tt, s. Qed.

Lemma wp_get {A} (f : evdns_base → gmap Z A) p x Q s : f s !! p = Some x → Q x s → wp (from_map f p) Q s.
Proof. intros E HQ. exists x, s. unfold from_map. by rewrite E. Qed.

Lemma wp_upd_req p f r (Q : unit → evdns_base → Prop) s : db_requests s !! p = Some r →
  Q tt (set_db_requests (<[p := f r]> (db_requests s)) s) → wp (upd_req p f) Q s.
Proof. intros E HQ. apply wp_bind. eapply wp_get; [exact E|]. by apply wp_modify. Qed.

Lemma wp_upd_ns p f r (Q : unit → evdns_base → Prop) s : db_servers s !! p = Some r →
  Q tt (set_db_servers (<[p := f r]> (db_servers s)) s) → wp (upd_ns p f) Q s.
Proof. intros E HQ. apply wp_bind. eapply wp_get; [exact E|]. by apply wp_modify. Qed.

Lemma wp_upd_handle p f r (Q : unit → evdns_base → Prop) s : db_handles s !! p = Some r →
  Q tt (set_db_handles (<[p := f r]> (db_handles s)) s) → wp (upd_handle p f) Q s.
Proof. intros E HQ. apply wp_bind. eapply wp_get; [exact E|]. by apply wp_modify. Qed.

(** A loop over a list, with an invariant. *)
Lemma wp_for_each {A} (f : A → dns unit) (I : evdns_base → Prop) l s :
  (∀ x s, x ∈ l → I s → wp (f x) (λ _, I) s) → I s → wp (for_each f l) (λ _, I) s.
Proof.
  revert s. induction l as [|x l IH]; intros s Hf HI; [by apply wp_ret|]. cbn. apply wp_bind.
  eapply wp_mono; [apply Hf; [apply list_elem_of_here|done]|]. cbn. intros _ s' HI'. apply IH; [|done].
  intros y s'' Hy. apply Hf. by apply list_elem_of_further.
Qed.

(** ** The invariant of the queues *)

Definition inflight (s : evdns_base) : list Z := mjoin (db_heads s).
Definition queued (s : evdns_base) : list Z := inflight s ++ db_waiting s.

(** What the invariant says of requests, nameservers and handles. *)
Definition ns_of (s : evdns_base) (p : Z) : option Z := db_requests s !! p ≫= rq_ns.
Definition id_of (s : evdns_base) (p : Z) : option Z := rq_trans_id <$> db_requests s !! p.
Definition handle_of (s : evdns_base) (p : Z) : option Z := db_requests s !! p ≫= rq_handle.
Definition packet_of (s : evdns_base) (p : Z) : option bytes := rq_request <$> db_requests s !! p.
Definition timer_of (s : evdns_base) (p : Z) : option bool := rq_timeout <$> db_requests s !! p.
Definition state_of (s : evdns_base) (ns : Z) : option bool := ns_state <$> db_servers s !! ns.
Definition count_of (s : evdns_base) (ns : Z) : option Z := ns_inflight <$> db_servers s !! ns.
Definition current_of (s : evdns_base) (h : Z) : option Z := db_handles s !! h ≫= h_current_req.

(** The requests in flight at a nameserver. *)
Definition load (s : evdns_base) (ns : Z) : Z := Z.of_nat (length (filter (λ p, ns_of s p = Some ns) (inflight s))).
(** The list for a transaction id. *)
Definition bucket (s : evdns_base) (id : Z) : nat := Z.to_nat (id mod Z.of_nat (length (db_heads s))).

Record core (s : evdns_base) : Prop := {
  c_heads : db_heads s ≠ [];
  c_nodup : NoDup (queued s);
  c_inflight : ∀ i l p, db_heads s !! i = Some l → p ∈ l → ∃ id ns,
    id_of s p = Some id ∧ bucket s id = i ∧ 0 <= id < 65535 ∧ ns_of s p = Some ns ∧ is_Some (state_of s ns);
  c_waiting : ∀ p, p ∈ db_waiting s → ns_of s p = None;
  c_ids : NoDup (id_of s <$> inflight s);
  c_valid : ∀ p, p ∈ queued s → ∃ h, handle_of s p = Some h ∧ current_of s h = Some p;
  c_ninflight : db_inflight s = Z.of_nat (length (inflight s));
  c_nwaiting : db_nwaiting s = Z.of_nat (length (db_waiting s));
  c_ring : NoDup (db_ring s);
  c_ring_servers : ∀ ns, ns ∈ db_ring s ↔ is_Some (state_of s ns);
  c_good : db_good s = Z.of_nat (length (filter (λ ns, state_of s ns = Some true) (db_ring s)));
  c_load : ∀ ns k, count_of s ns = Some k → k = load s ns;
  c_packets : ∀ p b, packet_of s p = Some b → Forall is_byte b ∧ (2 <= length b)%nat;
  c_timers : ∀ p, timer_of s p = Some true → p ∈ inflight s
}.

(** What the functions for queues and nameservers leave as it is. *)
Record frame (s s' : evdns_base) : Prop := {
  f_handles : db_handles s' = db_handles s;
  f_deferred : db_deferred s' = db_deferred s;
  f_search : db_search s' = db_search s;
  f_searches : db_searches s' = db_searches s;
  f_options : db_options s' = db_options s;
  f_next : db_next s' = db_next s;
  f_requests : ∀ p, (λ q, (rq_callback q, rq_handle q, rq_type q)) <$> db_requests s' !! p =
    (λ q, (rq_callback q, rq_handle q, rq_type q)) <$> db_requests s !! p;
  f_probes : ∀ ns, ns_probe <$> db_servers s' !! ns = ns_probe <$> db_servers s !! ns;
  f_lowers : ∀ ns, state_of s ns = Some false → state_of s' ns = Some false
}.

#[export] Instance frame_preorder : PreOrder frame.
Proof.
  split.
  - intros s. by split.
  - intros s1 s2 s3 [?????????] [?????????]. split; try congruence; intros x; first [solve [eauto]|etrans; eauto].
Qed.

(** States with the same queues, where requests may have moved to other
    nameservers. *)
Lemma core_moved s s' : core s → db_heads s' = db_heads s → db_waiting s' = db_waiting s →
  db_inflight s' = db_inflight s → db_nwaiting s' = db_nwaiting s → db_ring s' ≡ₚ db_ring s →
  db_good s' = Z.of_nat (length (filter (λ ns, state_of s' ns = Some true) (db_ring s))) →
  (∀ p, p ∈ inflight s → ∃ ns, ns_of s' p = Some ns ∧ is_Some (state_of s ns)) → (∀ p, p ∈ db_waiting s → ns_of s' p = None) →
  (∀ ns k, count_of s' ns = Some k → k = load s' ns) →
  (∀ p, id_of s' p = id_of s p) → (∀ p, handle_of s' p = handle_of s p) →
  (∀ p, packet_of s' p = packet_of s p) → (∀ ns, is_Some (state_of s' ns) ↔ is_Some (state_of s ns)) →
  (∀ h, current_of s' h = current_of s h) → (∀ p, p ∉ inflight s → timer_of s' p = timer_of s p) → core s'.
Proof.
  intros [C1 C2 C3 C4 C5 C6 C7 C8 C9 C10 C11 C12 C13 C14] Eh Ew Ei En Er Eg Hns Hwt Hld Hid Hh Hp Hs Hcur Htm.
  assert (Eq : queued s' = queued s) by (unfold queued, inflight; congruence).
  assert (Ein : inflight s' = inflight s) by (unfold inflight; congruence).
  split.
  - congruence.
  - by rewrite Eq.
  - intros i l p Hl Hpl. rewrite Eh in Hl. destruct (C3 i l p Hl Hpl) as (id & _ & H1 & H2 & H3 & _).
    destruct (Hns p) as (ns & H4 & H5); [apply list_elem_of_join; eauto using list_elem_of_lookup_2|].
    exists id, ns. rewrite Hid, Hs. unfold bucket in *. by rewrite Eh.
  - intros p. rewrite Ew. apply Hwt.
  - rewrite Ein. rewrite (list_fmap_ext (id_of s') (id_of s) (inflight s)); [done|]. intros; apply Hid.
  - intros p. rewrite Eq. intros Hq. destruct (C6 p Hq) as (h & H1 & H2). exists h. by rewrite Hh, Hcur.
  - by rewrite Ei, Ein.
  - by rewrite En, Ew.
  - by rewrite Er.
  - intros ns. rewrite Er, Hs. apply C10.
  - by rewrite Eg, Er.
  - done.
  - intros p b. rewrite Hp. apply C13.
  - intros p Ht. rewrite Ein. destruct (decide (p ∈ inflight s)) as [|Hn]; [done|]. rewrite (Htm p Hn) in Ht. by apply C14.
Qed.

(** States that agree in what the invariant is about. *)
Lemma core_transfer s s' : core s → db_heads s' = db_heads s → db_waiting s' = db_waiting s →
  db_inflight s' = db_inflight s → db_nwaiting s' = db_nwaiting s → db_good s' = db_good s → db_ring s' ≡ₚ db_ring s →
  (∀ p, ns_of s' p = ns_of s p) → (∀ p, id_of s' p = id_of s p) → (∀ p, handle_of s' p = handle_of s p) →
  (∀ p, packet_of s' p = packet_of s p) → (∀ ns, state_of s' ns = state_of s ns) → (∀ ns, count_of s' ns = count_of s ns) →
  (∀ h, current_of s' h = current_of s h) → (∀ p, p ∉ inflight s → timer_of s' p = timer_of s p) → core s'.
Proof.
  intros Hc Eh Ew Ei En Eg Er Hns Hid Hh Hp Hs Hct Hcur Htm. apply (core_moved s); try done.
  - rewrite Eg, (c_good s Hc). do 2 f_equal. apply list_filter_iff. intros ns. by rewrite Hs.
  - intros p Hin. apply list_elem_of_join in Hin as (l & Hpl & [i Hi]%list_elem_of_lookup).
    destruct (c_inflight s Hc i l p Hi Hpl) as (_ & ns & _ & _ & _ & H4 & H5). exists ns. by rewrite Hns.
  - intros p Hw. rewrite Hns. by apply (c_waiting s Hc).
  - intros ns k. rewrite Hct. intros Hk. rewrite (c_load s Hc ns k Hk). unfold load, inflight. rewrite Eh. do 2 f_equal.
    apply list_filter_iff. intros p. by rewrite Hns.
  - intros ns. by rewrite Hs.
Qed.

(** ** Updates that the invariant does not see *)

Definition lists (s s' : evdns_base) : Prop :=
  db_heads s' = db_heads s ∧ db_waiting s' = db_waiting s ∧ db_inflight s' = db_inflight s ∧ ∀ p, id_of s' p = id_of s p.
#[export] Instance lists_preorder : PreOrder lists.
Proof.
  split; [by intros s|]. intros s1 s2 s3 (? & ? & ? & E1) (? & ? & ? & E2). do 3 (split; [congruence|]). intros p. by rewrite E2, E1.
Qed.

Definition good_step (s s' : evdns_base) : Prop := core s' ∧ frame s s' ∧ lists s s'.

Lemma good_trans s1 s2 s3 : good_step s1 s2 → good_step s2 s3 → good_step s1 s3.
Proof. intros (_ & ? & ?) (? & ? & ?). split; [done|]. split; by etrans. Qed.

Lemma good_refl s : core s → good_step s s.
Proof. by split. Qed.
#[export] Hint Resolve good_refl : ev.

Ltac by_lookup x y :=
  destruct (decide (x = y)) as [->|?]; [rewrite ?lookup_insert_eq|rewrite ?lookup_insert_ne by done].

Definition same_req (q q' : request) : Prop :=
  rq_ns q' = rq_ns q ∧ rq_trans_id q' = rq_trans_id q ∧ rq_handle q' = rq_handle q ∧ rq_request q' = rq_request q ∧
  rq_callback q' = rq_callback q ∧ rq_type q' = rq_type q.
Definition same_ns (n n' : nameserver) : Prop :=
  ns_state n' = ns_state n ∧ ns_inflight n' = ns_inflight n ∧ ns_probe n' = ns_probe n.

Lemma upd_req_good s p q q' : core s → p ∈ inflight s → db_requests s !! p = Some q → same_req q q' →
  good_step s (set_db_requests (<[p := q']> (db_requests s)) s).
Proof.
  intros Hc Hin Hq (E1 & E2 & E3 & E4 & E5 & E6). split.
  - apply (core_transfer s); try done; intros x; unfold ns_of, id_of, handle_of, packet_of, timer_of; cbn;
      by_lookup p x; rewrite ?Hq; cbn; congruence.
  - split; [split; try done; intros x; cbn; by_lookup p x; rewrite ?Hq; cbn; congruence|].
    do 3 (split; [done|]). intros x. unfold id_of. cbn. by_lookup p x; rewrite ?Hq; cbn; congruence.
Qed.

Lemma upd_ns_good s ns n n' : core s → db_servers s !! ns = Some n → same_ns n n' →
  good_step s (set_db_servers (<[ns := n']> (db_servers s)) s).
Proof.
  intros Hc Hn (E1 & E2 & E3). split.
  - apply (core_transfer s); try done; intros x; unfold state_of, count_of; cbn; by_lookup ns x; rewrite ?Hn; cbn; congruence.
  - split; [|done]. split; try done; intros x; unfold state_of; cbn; by_lookup ns x; rewrite ?Hn; cbn; congruence.
Qed.

Lemma tick_good s t : core s → good_step s (set_db_tick t s).
Proof. intros Hc. split; [by apply (core_transfer s)|]. by split; [split|]. Qed.

Lemma wp_upd_ns_good ns f s : core s → is_Some (db_servers s !! ns) → (∀ n, same_ns n (f n)) →
  wp (upd_ns ns f) (λ _, good_step s) s.
Proof. intros Hc [n Hn] Hf. eapply wp_upd_ns; [exact Hn|]. by eapply upd_ns_good. Qed.

Lemma wp_ask_good {A} (f : nat → A) s (Q : A → evdns_base → Prop) : core s →
  (∀ t s', good_step s s' → db_tick s' = S (db_tick s) → Q (f t) s') → wp (ask f) Q s.
Proof. intros Hc HQ. apply wp_ask. intros t. apply HQ; [by apply tick_good|done]. Qed.

(** Requests and nameservers do not come and go. *)
Lemma frame_req s s' p : frame s s' → is_Some (db_requests s !! p) → is_Some (db_requests s' !! p).
Proof. intros [_ _ _ _ _ _ H _ _] [q Hq]. specialize (H p). rewrite Hq in H. destruct (db_requests s' !! p); [eauto|done]. Qed.
Lemma frame_ns s s' ns : frame s s' → is_Some (db_servers s !! ns) → is_Some (db_servers s' !! ns).
Proof. intros [_ _ _ _ _ _ _ H _] [q Hq]. specialize (H ns). rewrite Hq in H. destruct (db_servers s' !! ns); [eauto|done]. Qed.
#[export] Hint Resolve frame_req frame_ns : ev.

Lemma in_inflight s p : p ∈ inflight s → ∃ i l, db_heads s !! i = Some l ∧ p ∈ l.
Proof. unfold inflight. intros (l & Hp & Hl)%list_elem_of_join. apply list_elem_of_lookup in Hl as [i Hi]. eauto. Qed.

Lemma in_inflight_2 s i l p : db_heads s !! i = Some l → p ∈ l → p ∈ inflight s.
Proof. intros Hi Hp. apply list_elem_of_join. exists l. split; [done|]. by eapply list_elem_of_lookup_2. Qed.

(** What a request in flight is. *)
Lemma inflight_inv s p : core s → p ∈ inflight s → ∃ q ns n,
  db_requests s !! p = Some q ∧ rq_ns q = Some ns ∧ db_servers s !! ns = Some n ∧ 0 <= rq_trans_id q < 65535 ∧
  ∃ l, db_heads s !! bucket s (rq_trans_id q) = Some l ∧ p ∈ l.
Proof.
  intros Hc (i & l & Hi & Hp)%in_inflight. destruct (c_inflight s Hc i l p Hi Hp) as (id & ns & H1 & H2 & H3 & H4 & H5).
  unfold id_of, ns_of, state_of in *. destruct (db_requests s !! p) as [q|]; [|done]. cbn in *. injection H1 as <-.
  destruct (db_servers s !! ns) as [n|] eqn:En; [|by destruct H5]. exists q, ns, n.
  do 4 (split; [done|]). rewrite H2. eauto.
Qed.

Lemma wp_upd_req_good p f s : core s → p ∈ inflight s → (∀ q, same_req q (f q)) →
  wp (upd_req p f) (λ _, good_step s) s.
Proof. intros Hc Hin Hf. destruct (inflight_inv s p Hc Hin) as (q & _ & _ & Hq & _). eapply wp_upd_req; [exact Hq|]. by eapply upd_req_good. Qed.

Lemma queued_valid s p : core s → p ∈ queued s → ∃ q h hd,
  db_requests s !! p = Some q ∧ rq_handle q = Some h ∧ db_handles s !! h = Some hd ∧ h_current_req hd = Some p.
Proof.
  intros Hc Hp. destruct (c_valid s Hc p Hp) as (h & H1 & H2). unfold handle_of, current_of in *.
  destruct (db_requests s !! p) as [q|]; [|done]. destruct (db_handles s !! h) as [hd|] eqn:Eh; [|done]. exists q, h, hd. done.
Qed.

Lemma wp_valid s p Q : (∃ q h hd, db_requests s !! p = Some q ∧ rq_handle q = Some h ∧ db_handles s !! h = Some hd ∧ h_current_req hd = Some p) →
  Q tt s → wp (ASSERT_VALID_REQUEST p) Q s.
Proof.
  intros (q & h & hd & H1 & H2 & H3 & H4) HQ. apply wp_bind. eapply wp_get; [exact H1|]. rewrite H2. apply wp_bind.
  eapply wp_get; [exact H3|]. apply wp_assert; [|done]. by apply bool_decide_true.
Qed.

(** ** Choosing a nameserver *)

Lemma ring_good s r : core s → r ≡ₚ db_ring s → good_step s (set_db_ring r s).
Proof. intros Hc Hr. split; [by apply (core_transfer s)|]. by split; [split|]. Qed.

Lemma wp_server_head x l s Q : db_ring s = x :: l → Q x s → wp server_head Q s.
Proof. intros E HQ. apply wp_bind, wp_gets. rewrite E. by apply wp_ret. Qed.

Lemma wp_next_server r s Q : Q tt (set_db_ring (rotate r) s) → wp next_server Q (set_db_ring r s).
Proof. intros HQ. by apply wp_modify. Qed.

Lemma filter_none {A} (P : A → Prop) `{∀ x, Decision (P x)} (l : list A) : (∀ x, x ∈ l → ¬ P x) → filter P l = [].
Proof.
  induction l as [|x l IH]; intros Hn; [done|]. rewrite filter_cons_False by (apply Hn; apply list_elem_of_here).
  apply IH. intros y Hy. apply Hn. by apply list_elem_of_further.
Qed.

Lemma filter_in_iff {A} (P Q : A → Prop) `{∀ x, Decision (P x), ∀ x, Decision (Q x)} (l : list A) :
  (∀ x, x ∈ l → P x ↔ Q x) → filter P l = filter Q l.
Proof.
  induction l as [|x l IH]; intros Hpq; [done|]. rewrite !filter_cons, IH by (intros y Hy; apply Hpq; by apply list_elem_of_further).
  pose proof (Hpq x (list_elem_of_here _ _)). repeat case_decide; naive_solver.
Qed.

(** The servers before [x] are down, and one is not. *)
Lemma wp_pick_loop s r0 : core s → db_ring s ≡ₚ r0 → ∀ fuel pre x l started_at,
  r0 = pre ++ x :: l → (length l < fuel)%nat → (∀ y, y ∈ pre → state_of s y ≠ Some true) → db_good s ≠ 0 →
  head r0 = Some started_at →
  wp (pick_loop fuel started_at)
    (λ a s', ∃ ns r, a = Some ns ∧ state_of s ns = Some true ∧ s' = set_db_ring r s ∧ r ≡ₚ db_ring s)
    (set_db_ring (x :: l ++ pre) s).
Proof.
  intros Hc Hr0. assert (Hnd : NoDup r0) by (rewrite <- Hr0; apply Hc).
  induction fuel as [|fuel IH]; intros pre x l started_at E Hf Hpre Hg Hst; [lia|]. cbn [pick_loop].
  apply wp_bind. eapply wp_server_head; [done|].
  assert (Hx : x ∈ db_ring s) by (rewrite Hr0, E; set_solver). apply (c_ring_servers s Hc) in Hx as Hsx.
  unfold state_of in Hsx. destruct (db_servers s !! x) as [n|] eqn:En; [|by destruct Hsx].
  apply wp_bind. eapply wp_get; [exact En|].
  assert (Hperm : l ++ pre ++ [x] ≡ₚ db_ring s).
  { rewrite Hr0, E. rewrite (Permutation_app_comm pre (x :: l)). cbn. rewrite app_assoc. symmetry. apply Permutation_cons_append. }
  assert (Hsx' : state_of s x = Some (ns_state n)) by (unfold state_of; by rewrite En).
  destruct (ns_state n) eqn:Est; apply wp_bind, wp_next_server; cbn [rotate]; rewrite <- app_assoc.
  - apply wp_ret. eauto 10.
  - destruct l as [|y l].
    + exfalso. apply Hg. rewrite (c_good s Hc). rewrite filter_none; [done|]. intros y. rewrite Hr0, E.
      intros [Hy|Hy%list_elem_of_singleton]%elem_of_app; [by apply Hpre|]. subst y. congruence.
    + cbn [app]. apply wp_bind. eapply wp_server_head; [done|]. rewrite bool_decide_false.
      2:{ intros ->. clear IH. destruct pre as [|z pre]; rewrite E in Hst, Hnd; cbn in Hst; injection Hst as ->; apply NoDup_cons in Hnd as [Hn _]; set_solver. }
      apply (IH (pre ++ [x]) y l started_at); [by rewrite <- app_assoc|cbn in Hf; lia| |done|done].
      intros z [Hz|Hz%list_elem_of_singleton]%elem_of_app; [by apply Hpre|]. subst z. congruence.
Qed.

(** A nameserver is chosen if there is one, a good one if there is one. *)
Lemma wp_nameserver_pick s : core s →
  wp nameserver_pick (λ a s', (∃ r, s' = set_db_ring r s ∧ r ≡ₚ db_ring s) ∧
    match a with
    | None => db_ring s = []
    | Some ns => ns ∈ db_ring s ∧ (db_good s ≠ 0 → state_of s ns = Some true)
    end) s.
Proof.
  intros Hc. unfold nameserver_pick. apply wp_bind, wp_gets. destruct (db_ring s) as [|x l] eqn:Er.
  { apply wp_ret. split; [|done]. exists []. split; [|done]. rewrite <- Er. by destruct s. }
  assert (Es : s = set_db_ring (x :: l) s) by (rewrite <- Er; by destruct s).
  apply wp_bind, wp_gets. destruct (Z.eqb_spec (db_good s) 0) as [Hg|Hg].
  - apply wp_bind, wp_modify. rewrite Er. cbn [rotate].
    destruct (l ++ [x]) as [|y l'] eqn:El; [by destruct l|]. apply wp_bind. eapply wp_server_head; [done|]. apply wp_ret.
    assert (Hp : y :: l' ≡ₚ x :: l) by (rewrite <- El; symmetry; apply Permutation_cons_append).
    split; [by eauto|]. split; [|done]. rewrite <- Hp. set_solver.
  - pose proof (wp_pick_loop s (x :: l) Hc) as Hw. rewrite Er in Hw.
    specialize (Hw ltac:(done) (length (x :: l)) [] x l x ltac:(done)). rewrite app_nil_r, <- Es in Hw.
    eapply wp_mono; [apply Hw; [cbn; lia|by intros y ?%elem_of_nil|done|done]|].
    cbn. intros a s' (ns & r & -> & Hst & -> & Hr). split; [by eauto|]. split; [|done].
    rewrite <- Er. apply (c_ring_servers s Hc). rewrite Hst. eauto.
Qed.

Lemma length_filter_split {A} `{EqDecision A} (P : A → Prop) `{∀ x, Decision (P x)} (p : A) l : NoDup l → p ∈ l →
  length (filter P l) = ((if decide (P p) then 1 else 0) + length (filter P (filter (.≠ p) l)))%nat.
Proof.
  intros Hnd Hp. rewrite (Permutation_length (filter_Permutation P _ _ (filter_ne_perm p l Hnd Hp))), filter_cons.
  by destruct (decide (P p)).
Qed.

Lemma load_upd s p q q' ns : NoDup (inflight s) → p ∈ inflight s → db_requests s !! p = Some q →
  load (set_db_requests (<[p := q']> (db_requests s)) s) ns =
  load s ns - (if bool_decide (rq_ns q = Some ns) then 1 else 0) + (if bool_decide (rq_ns q' = Some ns) then 1 else 0).
Proof.
  intros Hnd Hp Hq. unfold load. change (inflight (set_db_requests _ s)) with (inflight s).
  rewrite !(length_filter_split _ p (inflight s) Hnd Hp). set (rest := filter (.≠ p) (inflight s)).
  rewrite (filter_in_iff (λ x, ns_of (set_db_requests (<[p := q']> (db_requests s)) s) x = Some ns) (λ x, ns_of s x = Some ns) rest).
  2:{ intros x Hx%elem_of_filter_ne. unfold ns_of. cbn. rewrite lookup_insert_ne by (intros ->; naive_solver). done. }
  assert (H1 : ns_of (set_db_requests (<[p := q']> (db_requests s)) s) p = rq_ns q') by (unfold ns_of; cbn; by rewrite lookup_insert_eq).
  assert (H2 : ns_of s p = rq_ns q) by (unfold ns_of; by rewrite Hq).
  rewrite H1, H2. repeat case_decide; repeat case_bool_decide; try done; lia.
Qed.

Lemma nodup_inflight s : core s → NoDup (inflight s).
Proof. intros Hc. pose proof (c_nodup s Hc) as H. unfold queued in H. by apply NoDup_app in H as [? _]. Qed.
#[export] Hint Resolve nodup_inflight : ev.

(** A request in flight moves from one nameserver to another. *)
Lemma swap_good s req q old o ns n : core s → req ∈ inflight s → db_requests s !! req = Some q → rq_ns q = Some old →
  db_servers s !! old = Some o → db_servers s !! ns = Some n → ns ≠ old →
  good_step s (set_db_requests (<[req := set_rq_ns (Some ns) q]> (db_requests s))
    (set_db_servers (<[ns := set_ns_inflight (ns_inflight n + 1) n]>
      (<[old := set_ns_inflight (ns_inflight o - 1) o]> (db_servers s))) s)).
Proof.
  intros Hc Hin Hq Hqn Ho Hn Hne. set (s' := set_db_requests _ _).
  assert (Hload : ∀ x, load s' x = load s x - (if bool_decide (old = x) then 1 else 0) + (if bool_decide (ns = x) then 1 else 0)).
  { intros x. pose proof (load_upd s req q (set_rq_ns (Some ns) q) x (nodup_inflight s Hc) Hin Hq) as E. rewrite Hqn in E. cbn in E.
    change (load s' x) with (load (set_db_requests (<[req := set_rq_ns (Some ns) q]> (db_requests s)) s) x). rewrite E.
    repeat case_bool_decide; simplify_eq; lia. }
  assert (Hold := c_load s Hc old _ ltac:(unfold count_of; by rewrite Ho)). assert (Hnew := c_load s Hc ns _ ltac:(unfold count_of; by rewrite Hn)).
  split; [|split].
  - assert (Hst : ∀ x, state_of s' x = state_of s x)
      by (intros x; unfold state_of; cbn; by_lookup ns x; [by rewrite Hn|]; by_lookup old x; [by rewrite Ho|done]).
    apply (core_moved s); try done.
    + rewrite (c_good s Hc : db_good s' = _). do 2 f_equal. apply list_filter_iff. intros x. by rewrite Hst.
    + intros p Hp. unfold ns_of. cbn. by_lookup req p; [exists ns; split; [done|]; unfold state_of; rewrite Hn; eauto|].
      destruct (inflight_inv s p Hc Hp) as (qp & nsp & np & E1 & E2 & E3 & _). exists nsp. rewrite E1. split; [done|]. unfold state_of. rewrite E3. eauto.
    + intros p Hp. unfold ns_of. cbn. rewrite lookup_insert_ne; [by apply (c_waiting s Hc)|]. intros ->.
      pose proof (c_nodup s Hc) as Hnd. unfold queued in Hnd. apply NoDup_app in Hnd as (_ & Hd & _). by apply (Hd p).
    + intros x k. rewrite Hload. unfold count_of. cbn. by_lookup ns x.
      * cbn. intros [= <-]. rewrite bool_decide_false, bool_decide_true by done. lia.
      * by_lookup old x; cbn.
        -- intros [= <-]. rewrite bool_decide_true, bool_decide_false by done. lia.
        -- intros Hk. rewrite !bool_decide_false by done. rewrite (c_load s Hc x k Hk). lia.
    + intros p. unfold id_of. cbn. by_lookup req p; rewrite ?Hq; done.
    + intros p. unfold handle_of. cbn. by_lookup req p; rewrite ?Hq; done.
    + intros p. unfold packet_of. cbn. by_lookup req p; rewrite ?Hq; done.
    + intros x. by rewrite Hst.
    + intros p _. unfold timer_of. cbn. by_lookup req p; rewrite ?Hq; done.
  - split; try done.
    + intros p. cbn. by_lookup req p; rewrite ?Hq; done.
    + intros x. cbn. by_lookup ns x; [by rewrite Hn|]. by_lookup old x; [by rewrite Ho|done].
    + intros x. unfold state_of. cbn. by_lookup ns x; [by rewrite Hn|]. by_lookup old x; [by rewrite Ho|done].
  - do 3 (split; [done|]). intros p. unfold id_of. cbn. by_lookup req p; rewrite ?Hq; done.
Qed.

Lemma load_pos s req q ns : core s → req ∈ inflight s → db_requests s !! req = Some q → rq_ns q = Some ns → 0 < load s ns.
Proof.
  intros Hc Hin Hq Hn. unfold load. rewrite (length_filter_split _ req (inflight s) (nodup_inflight s Hc) Hin).
  rewrite decide_True by (unfold ns_of; by rewrite Hq). lia.
Qed.

Lemma wp_request_swap_ns s req ns : core s → req ∈ inflight s → (∀ x, ns = Some x → x ∈ db_ring s) →
  wp (request_swap_ns req ns) (λ _, good_step s) s.
Proof.
  intros Hc Hin Hns. destruct (inflight_inv s req Hc Hin) as (q & old & o & Hq & Hqn & Ho & _).
  unfold request_swap_ns. apply wp_bind. eapply wp_get; [exact Hq|]. destruct ns as [ns|]; [|by apply wp_ret, good_refl].
  case_bool_decide as E; [by apply wp_ret, good_refl|]. rewrite Hqn in *.
  apply wp_bind. eapply wp_get; [exact Ho|].
  apply wp_bind, wp_assert. { apply Z.ltb_lt. rewrite (c_load s Hc old (ns_inflight o)) by (unfold count_of; by rewrite Ho). by eapply load_pos. }
  destruct (proj1 (c_ring_servers s Hc ns) (Hns ns eq_refl)) as [b Hb]. unfold state_of in Hb.
  destruct (db_servers s !! ns) as [n|] eqn:Hn; [|done].
  apply wp_bind. eapply wp_upd_ns; [exact Ho|]. apply wp_bind. eapply wp_upd_ns; [cbn; rewrite lookup_insert_ne by congruence; exact Hn|].
  eapply wp_upd_req; [exact Hq|]. exact (swap_good s req q old o ns n Hc Hin Hq Hqn Ho Hn ltac:(congruence)).
Qed.

(** ** Nameservers that fail *)

Lemma good_core s s' : good_step s s' → core s'.
Proof. by intros [? _]. Qed.
Lemma good_frame s s' : good_step s s' → frame s s'.
Proof. by intros (_ & ? & _). Qed.
Lemma good_inflight s s' : good_step s s' → inflight s' = inflight s.
Proof. intros (_ & _ & E & _). unfold inflight. by rewrite E. Qed.
Lemma good_queued s s' : good_step s s' → queued s' = queued s.
Proof. intros (_ & _ & E & E' & _). unfold queued, inflight. by rewrite E, E'. Qed.
Lemma good_ring s s' ns : core s → good_step s s' → ns ∈ db_ring s → ns ∈ db_ring s'.
Proof.
  intros Hc (Hc' & Hf & _) Hns. apply (c_ring_servers s Hc) in Hns as [b Hb]. apply (c_ring_servers s' Hc').
  assert (Hs : is_Some (db_servers s !! ns)) by (unfold state_of in Hb; destruct (db_servers s !! ns); [eauto|done]).
  unfold state_of. destruct (frame_ns s s' ns Hf Hs) as [n ->]. eauto.
Qed.
#[export] Hint Resolve good_core good_frame : ev.

(** One step and then the rest, from the state in between. *)
Lemma wp_then {A B} (m : dns A) (f : A → dns B) (P : A → evdns_base → Prop) s :
  wp m (λ a s', good_step s s' ∧ P a s') s → (∀ a s', good_step s s' → P a s' → wp (f a) (λ _, good_step s') s') →
  wp (m ≫= f) (λ _, good_step s) s.
Proof.
  intros Hm Hf. apply wp_bind. eapply wp_mono; [exact Hm|]. cbn. intros a s' [Hg HP]. eapply wp_mono; [by apply Hf|].
  cbn. intros _ s'' Hg'. by eapply good_trans.
Qed.

Lemma wp_good {A} (m : dns A) s : wp m (λ _, good_step s) s → wp m (λ _ s', good_step s s' ∧ True) s.
Proof. intros H. eapply wp_mono; [exact H|]. auto. Qed.

Lemma ring_server s ns : core s → ns ∈ db_ring s → ∃ n, db_servers s !! ns = Some n.
Proof. intros Hc Hns. apply (c_ring_servers s Hc) in Hns as [b Hb]. unfold state_of in Hb. destruct (db_servers s !! ns); [eauto|done]. Qed.
Lemma server_ring s ns : core s → is_Some (db_servers s !! ns) → ns ∈ db_ring s.
Proof. intros Hc [n Hn]. apply (c_ring_servers s Hc). unfold state_of. rewrite Hn. eauto. Qed.
#[export] Hint Resolve ring_server server_ring : ev.

Lemma good_server s s' ns : good_step s s' → is_Some (db_servers s !! ns) → is_Some (db_servers s' !! ns).
Proof. intros (_ & Hf & _). by apply frame_ns. Qed.
Lemma good_req s s' p : good_step s s' → is_Some (db_requests s !! p) → is_Some (db_requests s' !! p).
Proof. intros (_ & Hf & _). by apply frame_req. Qed.

(** A nameserver goes up or down. *)
Lemma core_state s ns n n' g : core s → db_servers s !! ns = Some n → ns_inflight n' = ns_inflight n →
  g = db_good s - (if ns_state n then 1 else 0) + (if ns_state n' then 1 else 0) →
  core (set_db_good g (set_db_servers (<[ns := n']> (db_servers s)) s)).
Proof.
  intros Hc Hn E1 ->. set (s' := set_db_good _ _). apply (core_moved s); try done.
  - assert (Hring : ns ∈ db_ring s) by eauto with ev. cbn [db_good s' set_db_good]. rewrite (c_good s Hc).
    rewrite !(length_filter_split _ ns (db_ring s) (c_ring s Hc) Hring).
    rewrite (filter_in_iff (λ x, state_of s' x = Some true) (λ x, state_of s x = Some true)).
    2:{ intros x Hx%elem_of_filter_ne. unfold state_of. cbn. rewrite lookup_insert_ne by naive_solver. done. }
    assert (H1 : state_of s' ns = Some (ns_state n')) by (unfold state_of; cbn; by rewrite lookup_insert_eq).
    assert (H2 : state_of s ns = Some (ns_state n)) by (unfold state_of; by rewrite Hn). rewrite H1, H2.
    destruct (ns_state n), (ns_state n'); repeat case_decide; try done; lia.
  - intros p Hp. destruct (inflight_inv s p Hc Hp) as (q & x & nx & Eq & Eqn & Ex & _). exists x. unfold ns_of, state_of. cbn. rewrite Eq, Ex. eauto.
  - intros p Hp. by apply (c_waiting s Hc).
  - intros x k. unfold count_of. cbn. by_lookup ns x; cbn; [|by apply (c_load s Hc)]. intros [= <-]. rewrite E1.
    change (load s' x) with (load s x). apply (c_load s Hc). unfold count_of. by rewrite Hn.
  - intros x. unfold state_of. cbn. by_lookup ns x; [rewrite Hn; cbn; naive_solver|done].
Qed.

Lemma state_good s ns n n' g : core s → db_servers s !! ns = Some n → ns_inflight n' = ns_inflight n → ns_probe n' = ns_probe n →
  ns_state n' = false → g = db_good s - (if ns_state n then 1 else 0) →
  good_step s (set_db_good g (set_db_servers (<[ns := n']> (db_servers s)) s)).
Proof.
  intros Hc Hn E1 E2 E3 ->. split; [apply (core_state s ns n); [done..|rewrite E3; lia]|]. split; [|done].
  split; try done; intros x; unfold state_of; cbn; by_lookup ns x; rewrite ?Hn; cbn; congruence.
Qed.

Lemma wp_add_ns_timer `{DnsEnv} s ns timeout : core s → is_Some (db_servers s !! ns) → wp (add_ns_timer ns timeout) (λ _, good_step s) s.
Proof.
  intros Hc Hns. unfold add_ns_timer. apply wp_bind, wp_ask_good; [done|]. intros t s1 Hg _. destruct (e_timer_add t).
  - eapply wp_mono; [apply wp_upd_ns_good; [by eauto with ev|by eapply good_server|done]|]. cbn. intros _ s2 Hg2. by eapply good_trans.
  - by apply wp_ret.
Qed.

Lemma wp_pick_good s : core s → wp nameserver_pick (λ a s', good_step s s' ∧ (∀ x, a = Some x → x ∈ db_ring s')) s.
Proof.
  intros Hc. eapply wp_mono; [by apply wp_nameserver_pick|]. cbn. intros a s' [(r & -> & Hr) Ha]. split; [by apply ring_good|].
  intros x ->. destruct Ha as [Hx _]. change (x ∈ r). by rewrite Hr.
Qed.

Lemma wp_nameserver_failed `{DnsEnv} s ns : core s → is_Some (db_servers s !! ns) → wp (nameserver_failed ns) (λ _, good_step s) s.
Proof.
  intros Hc [n Hn]. unfold nameserver_failed. apply wp_bind. eapply wp_get; [exact Hn|].
  destruct (ns_state n) eqn:Est; cbn [negb]; [|by apply wp_ret, good_refl].
  apply wp_bind, wp_modify. apply wp_bind, wp_gets. cbn [db_good set_db_good].
  apply wp_bind, wp_assert.
  { apply Z.leb_le. rewrite (c_good s Hc). rewrite (length_filter_split _ ns (db_ring s) (c_ring s Hc)) by eauto with ev.
    rewrite decide_True by (unfold state_of; rewrite Hn; cbn; congruence). lia. }
  apply wp_bind. eapply wp_upd_ns; [exact Hn|]. set (n' := set_ns_failed_times 1 (set_ns_state false n)).
  pose proof (state_good s ns n n' (db_good s - 1) Hc Hn eq_refl eq_refl eq_refl ltac:(rewrite Est; lia)) as Hg1.
  change (set_db_servers _ _) with (set_db_good (db_good s - 1) (set_db_servers (<[ns := n']> (db_servers s)) s)).
  set (s1 := set_db_good _ _) in *. eapply wp_mono; [|intros ? s2 Hg2; exact (good_trans _ _ _ Hg1 Hg2)].
  apply wp_bind, wp_gets. eapply wp_then; [apply wp_good, wp_add_ns_timer; [by eauto with ev|by eapply good_server; eauto]|].
  intros _ s2 Hg2 _. destruct (_ =? 0); [apply wp_ret, good_refl; by eauto with ev|].
  apply wp_bind, wp_gets. apply (wp_for_each _ (good_step s2)); [|by eauto with ev].
  intros req s3 Hreq Hg3. fold (inflight s2) in Hreq. rewrite <- (good_inflight _ _ Hg3) in Hreq.
  assert (Hc3 := good_core _ _ Hg3). destruct (inflight_inv s3 req Hc3 Hreq) as (q & x & nx & Eq & _).
  eapply wp_mono; [|intros ? s4 Hg4; exact (good_trans _ _ _ Hg3 Hg4)].
  apply wp_bind. eapply wp_get; [exact Eq|]. destruct (_ && _); [|by apply wp_ret, good_refl].
  eapply wp_then; [by apply wp_pick_good|]. intros picked s4 Hg4 Hp. apply wp_request_swap_ns; [by eauto with ev| |done].
  by rewrite (good_inflight _ _ Hg4).
Qed.

(** ** Transmitting *)

Lemma good_in s s' p : good_step s s' → p ∈ inflight s → p ∈ inflight s'.
Proof. intros Hg. by rewrite (good_inflight _ _ Hg). Qed.
#[export] Hint Resolve good_in good_server : ev.

Lemma in_queued s p : p ∈ inflight s → p ∈ queued s.
Proof. intros. apply elem_of_app. by left. Qed.
#[export] Hint Resolve in_queued : ev.

Lemma wp_valid_inflight s p Q : core s → p ∈ inflight s → Q tt s → wp (ASSERT_VALID_REQUEST p) Q s.
Proof. intros. apply wp_valid; [|done]. apply queued_valid; eauto with ev. Qed.

(** The rest runs from a state that the steps before lead to. *)
Lemma wp_after {A} (m : dns A) s s' : good_step s s' → wp m (λ _, good_step s') s' → wp m (λ _, good_step s) s'.
Proof. intros Hg Hw. eapply wp_mono; [exact Hw|]. cbn. intros _ s2. by apply good_trans. Qed.

Lemma wp_get_in s p (Q : request → evdns_base → Prop) : core s → p ∈ inflight s →
  (∀ q ns n, db_requests s !! p = Some q → rq_ns q = Some ns → db_servers s !! ns = Some n → 0 <= rq_trans_id q < 65535 → Q q s) → wp (get_req p) Q s.
Proof. intros Hc Hp HQ. destruct (inflight_inv s p Hc Hp) as (q & ns & n & Eq & En & Es & Hid & _). eapply wp_get; eauto. Qed.

Section transmit.
Context `{DnsEnv}.

Lemma wp_write_waiting s ns w : core s → is_Some (db_servers s !! ns) → wp (nameserver_write_waiting ns w) (λ _, good_step s) s.
Proof.
  intros Hc Hns. unfold nameserver_write_waiting. destruct Hns as [n Hn]. apply wp_bind. eapply wp_get; [exact Hn|].
  destruct (Bool.eqb _ _); [by apply wp_ret, good_refl|]. apply wp_bind, wp_ask_good; [done|]. intros t s1 Hg _.
  apply wp_after; [done|]. apply wp_upd_ns_good; [eauto with ev..|done].
Qed.

Lemma wp_transmit_to s req ns : core s → req ∈ inflight s → is_Some (db_servers s !! ns) →
  wp (evdns_request_transmit_to req ns) (λ _, good_step s) s.
Proof.
  intros Hc Hin [n Hn]. unfold evdns_request_transmit_to. apply wp_bind, wp_valid_inflight; [done..|].
  apply wp_bind. eapply wp_get; [exact Hn|]. apply wp_bind, wp_gets.
  apply (wp_then _ _ (λ _ _, True)).
  { apply wp_good. destruct (_ && _); [|by apply wp_ret, good_refl]. apply wp_bind, wp_ask_good; [done|]. intros t s1 Hg _.
    apply wp_after; [done|]. apply (wp_then _ _ (λ _ _, True)); [apply wp_good|intros; apply wp_ret, good_refl; eauto with ev].
    destruct (e_event_add t); [apply wp_upd_ns_good; [eauto with ev..|done]|apply wp_ret, good_refl; eauto with ev]. }
  intros added s1 Hg1 _. destruct (negb added); [apply wp_ret, good_refl; eauto with ev|].
  apply wp_bind, wp_ask_good; [eauto with ev|]. intros t s2 Hg2 _. apply wp_after; [done|].
  assert (Hc2 : core s2) by eauto with ev. assert (Hin2 : req ∈ inflight s2) by eauto with ev.
  destruct (e_send t); try by apply wp_ret, good_refl.
  apply wp_bind, wp_get_in; [done..|]. intros q ns' n' Eq -> Es _.
  apply (wp_then _ _ (λ _ _, True)); [apply wp_good, wp_nameserver_failed; eauto|intros; apply wp_ret, good_refl; eauto with ev].
Qed.

Lemma wp_transmit s req : core s → req ∈ inflight s → wp (evdns_request_transmit req) (λ _, good_step s) s.
Proof.
  intros Hc Hin. unfold evdns_request_transmit. apply wp_bind, wp_valid_inflight; [done..|].
  apply (wp_then _ _ (λ _ _, True)); [by apply wp_good, wp_upd_req_good|]. intros _ s1 Hg1 _.
  assert (Hc1 : core s1) by eauto with ev. assert (Hin1 : req ∈ inflight s1) by eauto with ev.
  apply wp_bind, wp_get_in; [done..|]. intros q ns n Eq En Es Hid.
  apply wp_bind, wp_assert; [apply negb_true_iff, Z.eqb_neq; lia|]. rewrite En. apply wp_bind. eapply wp_get; [exact Es|].
  destruct (ns_choked n); [by apply wp_ret, good_refl|].
  apply (wp_then _ _ (λ _ _, True)); [apply wp_good, wp_transmit_to; eauto|]. intros r s2 Hg2 _.
  assert (Hc2 : core s2) by eauto with ev. assert (Hin2 : req ∈ inflight s2) by eauto with ev.
  destruct (r =? 1).
  - apply wp_bind, wp_get_in; [done..|]. intros q2 ns2 n2 Eq2 -> Es2 _.
    apply (wp_then _ _ (λ _ _, True)); [apply wp_good, wp_upd_ns_good; [eauto..|done]|]. intros _ s3 Hg3 _.
    apply (wp_then _ _ (λ _ _, True)); [apply wp_good, wp_write_waiting; eauto with ev|intros; apply wp_ret, good_refl; eauto with ev].
  - apply wp_bind, wp_ask_good; [done|]. intros t s3 Hg3 _. apply wp_after; [done|].
    apply (wp_then _ _ (λ _ _, True)); [apply wp_good, wp_upd_req_good; [eauto with ev..|intros q'; by destruct (e_timer_add t)]|intros; apply wp_ret, good_refl; eauto with ev].
Qed.

Lemma wp_transmit_each l : ∀ s b, core s → (∀ p, p ∈ l → p ∈ inflight s) → wp (transmit_each l b) (λ _, good_step s) s.
Proof.
  induction l as [|req l IH]; intros s b Hc Hl; [by apply wp_ret, good_refl|]. cbn [transmit_each].
  apply wp_bind, wp_get_in; [done|apply Hl, list_elem_of_here|]. intros q ns n Eq En Es _. destruct (rq_transmit_me q).
  - apply (wp_then _ _ (λ _ _, True)); [apply wp_good, wp_transmit; [done|apply Hl, list_elem_of_here]|]. intros _ s1 Hg1 _.
    apply IH; [eauto with ev|]. intros p Hp. eapply good_in; [done|]. apply Hl. by apply list_elem_of_further.
  - apply IH; [done|]. intros p Hp. apply Hl. by apply list_elem_of_further.
Qed.

Lemma wp_evdns_transmit s : core s → wp evdns_transmit (λ _, good_step s) s.
Proof. intros Hc. apply wp_bind, wp_gets, wp_transmit_each; done. Qed.
End transmit.
