(* ===== verification/DnsClientQueues.v ===== *)
(** * The DNS client: its lists of requests

    Choosing ids, requests that enter and leave the lists, starting the requests
    that wait, and finishing a request. *)

From stdpp Require Import gmap.
From S2P Require Import Prelude Clib Util TimeVal DnsPacket DnsNames DnsPacketProps DnsClient DnsClientInv.

(** ** Transaction ids *)

(** What is assumed of the environment: random ids are 16 bits, each id is drawn again
    at some time (before the model, whose bound may depend on the time, stops trying), and
    there is memory for the record of a scheduled callback.  (Without that memory the
    code frees the handle while the user still has it.) *)
Class DnsEnvOk `{DnsEnv} : Prop := {
  rng_range : ∀ t, 0 <= e_rng t < 65536;
  rng_fair : ∀ t id, 0 <= id < 65536 → ∃ k, (k < e_rng_fuel t)%nat ∧ e_rng (t + k) = id;
  deferred_ok : ∀ t, e_deferred t = true
}.

(** Every request in flight is on the list of its id. *)
Definition placed (s : evdns_base) : Prop :=
  db_heads s ≠ [] ∧ ∀ i l p, db_heads s !! i = Some l → p ∈ l → ∃ id, id_of s p = Some id ∧ bucket s id = i.

Lemma core_placed s : core s → placed s.
Proof. intros Hc. split; [apply Hc|]. intros i l p Hi Hp. destruct (c_inflight s Hc i l p Hi Hp) as (id & ns & ? & ? & _). eauto. Qed.
#[export] Hint Resolve core_placed : ev.

Lemma bucket_lt s id : db_heads s ≠ [] → (bucket s id < length (db_heads s))%nat.
Proof.
  intros Hne. unfold bucket. assert (0 < Z.of_nat (length (db_heads s))) by (destruct (db_heads s); cbn; [done|lia]).
  pose proof (Z.mod_pos_bound id (Z.of_nat (length (db_heads s)))). lia.
Qed.

Lemma wp_find_trans_id l id s : (∀ p, p ∈ l → is_Some (db_requests s !! p)) →
  wp (find_trans_id l id) (λ a s', s' = s ∧ match a with Some p => p ∈ l ∧ id_of s p = Some id | None => ∀ p, p ∈ l → id_of s p ≠ Some id end) s.
Proof.
  induction l as [|p l IH]; intros Hl; cbn [find_trans_id].
  { apply wp_ret. split; [done|]. by intros p ?%elem_of_nil. }
  destruct (Hl p (list_elem_of_here _ _)) as [q Hq]. apply wp_bind. eapply wp_get; [exact Hq|]. destruct (Z.eqb_spec (rq_trans_id q) id) as [<-|Hne].
  - apply wp_ret. split; [done|]. split; [apply list_elem_of_here|]. unfold id_of. by rewrite Hq.
  - eapply wp_mono; [apply IH; intros; apply Hl; by apply list_elem_of_further|]. cbn. intros [p'|] s' [-> Ha]; (split; [done|]).
    + destruct Ha. split; [by apply list_elem_of_further|done].
    + intros p' [->|Hp']%elem_of_cons; [|by apply Ha]. unfold id_of. rewrite Hq. cbn. congruence.
Qed.

(** Looking an id up finds the request in flight that has it. *)
Lemma wp_find s id : placed s →
  wp (request_find_from_trans_id id) (λ a s', s' = s ∧
    match a with Some p => p ∈ inflight s ∧ id_of s p = Some id | None => ∀ p, p ∈ inflight s → id_of s p ≠ Some id end) s.
Proof.
  intros [Hne Hpl]. unfold request_find_from_trans_id, REQ_HEAD. apply wp_bind, wp_bind, wp_gets, wp_ret, wp_bind, wp_gets. fold (bucket s id).
  destruct (lookup_lt_is_Some_2 (db_heads s) (bucket s id) (bucket_lt s id Hne)) as [l Hl]. rewrite Hl.
  eapply wp_mono; [apply wp_find_trans_id|].
  { intros p Hp. destruct (Hpl _ _ _ Hl Hp) as (id' & Hid & _). unfold id_of in Hid. destruct (db_requests s !! p); [eauto|done]. }
  cbn. intros [p|] s' [-> Ha]; (split; [done|]).
  - destruct Ha. split; [by eapply in_inflight_2|done].
  - intros p (i & l' & Hi & Hp)%in_inflight Hid. destruct (Hpl _ _ _ Hi Hp) as (id' & Hid' & <-). rewrite Hid in Hid'. injection Hid' as <-.
    rewrite Hl in Hi. injection Hi as <-. by apply (Ha p).
Qed.

Section ids.
Context `{DnsEnvOk}.

Lemma wp_id_loop s0 : placed s0 → ∀ fuel t,
  (∃ k, (k < fuel)%nat ∧ e_rng (t + k) ≠ 65535 ∧ ∀ p, p ∈ inflight s0 → id_of s0 p ≠ Some (e_rng (t + k))) →
  wp (transaction_id_loop fuel) (λ id s', (∃ t, s' = set_db_tick t s0) ∧ 0 <= id < 65535 ∧ ∀ p, p ∈ inflight s0 → id_of s0 p ≠ Some id) (set_db_tick t s0).
Proof.
  intros Hpl. induction fuel as [|fuel IH]; intros t (k & Hk & Hne & Hfree); [lia|]. cbn [transaction_id_loop].
  assert (Hnext : k ≠ 0%nat → ∃ k', (k' < fuel)%nat ∧ e_rng (S t + k') ≠ 65535 ∧ ∀ p, p ∈ inflight s0 → id_of s0 p ≠ Some (e_rng (S t + k'))).
  { intros Hk0. exists (k - 1)%nat. replace (S t + (k - 1))%nat with (t + k)%nat by lia. split; [lia|done]. }
  apply wp_bind. exists (e_rng t), (set_db_tick (S t) s0). split; [done|]. pose proof (rng_range t) as Hr.
  destruct (Z.eqb_spec (e_rng t) 65535) as [He|He].
  { apply IH, Hnext. intros ->. by rewrite Nat.add_0_r in Hne. }
  apply wp_bind. eapply wp_mono; [by apply wp_find|]. cbn. intros [p|] s' [-> Ha].
  - apply IH, Hnext. intros ->. rewrite Nat.add_0_r in Hfree. destruct Ha as [Hp Hid]. by apply (Hfree p).
  - apply wp_ret. split; [eauto|]. split; [lia|done].
Qed.

(** There is a number that is not used. *)
Lemma free_number (used : list Z) (n : Z) : Z.of_nat (length used) < n → ∃ v, 0 <= v < n ∧ v ∉ used.
Proof.
  intros Hl. destruct (decide (Forall (.∈ used) (seqZ 0 n))) as [Hall|Hn].
  - exfalso. rewrite Forall_forall in Hall. pose proof (submseteq_length _ _ (NoDup_submseteq (seqZ 0 n) used (NoDup_seqZ 0 n) Hall)) as Hle.
    rewrite length_seqZ in Hle. lia.
  - apply not_Forall_Exists in Hn; [|intros x; apply _]. apply Exists_exists in Hn as (v & Hv%elem_of_seqZ & Hu). exists v. split; [lia|done].
Qed.

(** An id is chosen that no request in flight has. *)
Lemma wp_transaction_id_pick s : placed s → Z.of_nat (length (inflight s)) < 65535 →
  wp transaction_id_pick (λ id s', (∃ t, s' = set_db_tick t s) ∧ 0 <= id < 65535 ∧ ∀ p, p ∈ inflight s → id_of s p ≠ Some id) s.
Proof.
  intros Hpl Hlen. destruct (free_number ((λ p, default 0 (id_of s p)) <$> inflight s) 65535) as (v & Hv & Hn); [by rewrite length_fmap|].
  destruct (rng_fair (db_tick s) v) as (k & Hk & Ek); [lia|]. assert (Es : set_db_tick (db_tick s) s = s) by (by destruct s).
  pose proof (wp_id_loop s Hpl (e_rng_fuel (db_tick s)) (db_tick s)) as Hw. rewrite Es in Hw. apply Hw. exists k. rewrite Ek. split; [done|]. split; [lia|].
  intros p Hp Hid. apply Hn. apply list_elem_of_fmap. exists p. by rewrite Hid.
Qed.
End ids.

(** ** Requests enter and leave the lists *)

Lemma join_filter x (hs : list (list Z)) : mjoin (filter (.≠ x) <$> hs) = filter (.≠ x) (mjoin hs).
Proof. induction hs as [|h hs IH]; [done|]. rewrite fmap_cons. cbn [mjoin list_join]. rewrite filter_app. f_equal. exact IH. Qed.

Lemma filter_lists_id x (hs : list (list Z)) : x ∉ mjoin hs → filter (.≠ x) <$> hs = hs.
Proof.
  intros Hx. rewrite <- (list_fmap_id hs) at 2. apply list_fmap_ext. intros i h Hi. cbn. apply filter_ne_notin. intros Hh.
  apply Hx, list_elem_of_join. exists h. split; [done|]. by eapply list_elem_of_lookup_2.
Qed.

Lemma filter_one_list x (hs : list (list Z)) i l : NoDup (mjoin hs) → hs !! i = Some l → x ∈ l → <[i := filter (.≠ x) l]> hs = filter (.≠ x) <$> hs.
Proof.
  revert i. induction hs as [|h hs IH]; intros [|i] Hnd Hi Hx; [done..| |]; cbn in *; apply NoDup_app in Hnd as (_ & Hd & Hnd).
  - injection Hi as ->. f_equal. symmetry. apply filter_lists_id. by apply Hd.
  - f_equal; [|by apply IH]. symmetry. apply filter_ne_notin. intros Hh. apply (Hd x Hh), list_elem_of_join. exists l. split; [done|]. by eapply list_elem_of_lookup_2.
Qed.

(** The request [req] gets on the list of its id, perhaps from the waiting list. *)
Lemma core_enter s s' req q ns h l : core s → req ∉ inflight s →
  db_heads s !! bucket s (rq_trans_id q) = Some l → db_heads s' = <[bucket s (rq_trans_id q) := l ++ [req]]> (db_heads s) →
  db_waiting s' = filter (.≠ req) (db_waiting s) → db_nwaiting s' = Z.of_nat (length (db_waiting s')) → db_inflight s' = db_inflight s + 1 →
  db_ring s' ≡ₚ db_ring s → db_good s' = db_good s →
  db_requests s' !! req = Some q → (∀ p, p ≠ req → db_requests s' !! p = db_requests s !! p) →
  rq_ns q = Some ns → 0 <= rq_trans_id q < 65535 → (∀ p, p ∈ inflight s → id_of s p ≠ Some (rq_trans_id q)) →
  rq_handle q = Some h → current_of s h = Some req → (∀ h, current_of s' h = current_of s h) →
  Forall is_byte (rq_request q) ∧ (2 <= length (rq_request q))%nat →
  (∀ x, state_of s' x = state_of s x) → is_Some (state_of s ns) →
  (∀ x, count_of s' x = (λ k, k + (if bool_decide (ns = x) then 1 else 0)) <$> count_of s x) → core s'.
Proof.
  intros Hc Hnin Hl Eh Ew Enw Ei Er Eg Hq Hother Hns Hid Hfree Hh Hcur Hcurs Hpk Hst Hsome Hct.
  assert (Hin : inflight s' ≡ₚ req :: inflight s) by (unfold inflight; rewrite Eh; by apply join_snoc).
  assert (Hsame : ∀ p, p ∈ inflight s → p ≠ req) by (intros p Hp ->; done).
  assert (Hb : ∀ id, bucket s' id = bucket s id) by (intros id; unfold bucket; by rewrite Eh, length_insert).
  assert (Hlen : (bucket s (rq_trans_id q) < length (db_heads s))%nat) by (apply bucket_lt, Hc).
  assert (Hsub : ∀ p, p ∈ queued s' → p = req ∨ (p ≠ req ∧ p ∈ queued s)).
  { intros p. unfold queued. rewrite !elem_of_app, Hin, Ew, elem_of_cons, elem_of_filter_ne. destruct (decide (p = req)); naive_solver. }
  split.
  - rewrite Eh. intros E. apply (f_equal length) in E. rewrite length_insert in E. cbn in E. lia.
  - unfold queued. rewrite Hin, Ew. cbn. apply NoDup_cons. rewrite elem_of_app, elem_of_filter_ne. split; [naive_solver|].
    pose proof (c_nodup s Hc) as Hnd. unfold queued in Hnd. apply NoDup_app in Hnd as (H1 & H2 & H3).
    apply NoDup_app. split; [done|]. split; [|by apply NoDup_filter_ne]. intros p Hp. rewrite elem_of_filter_ne. naive_solver.
  - intros i l' p Hi Hp. rewrite Hb || setoid_rewrite Hb. destruct (decide (p = req)) as [->|Hne].
    + exists (rq_trans_id q), ns. unfold id_of, ns_of. rewrite Hq, Hst. split; [done|]. split; [|done]. rewrite Eh in Hi.
      destruct (decide (bucket s (rq_trans_id q) = i)) as [|Hi']; [done|]. rewrite list_lookup_insert_ne in Hi by done.
      exfalso. apply Hnin. by eapply in_inflight_2.
    + assert (∃ l0, db_heads s !! i = Some l0 ∧ p ∈ l0) as (l0 & Hl0 & Hp0).
      { rewrite Eh in Hi. apply list_lookup_insert_Some in Hi as [(<- & <- & _)|[_ Hi]]; [|eauto]. exists l. split; [done|]. set_solver. }
      destruct (c_inflight s Hc i l0 p Hl0 Hp0) as (id & x & H1 & H2 & H3 & H4 & H5). exists id, x.
      unfold id_of, ns_of in *. rewrite Hother, Hst by done. done.
  - intros p. rewrite Ew, elem_of_filter_ne. intros [Hne Hp]. unfold ns_of. rewrite Hother by done. by apply (c_waiting s Hc).
  - rewrite Hin. cbn. apply NoDup_cons. assert (E : id_of s' <$> inflight s = id_of s <$> inflight s).
    { apply list_fmap_ext. intros i p Hp. unfold id_of. rewrite Hother; [done|]. apply Hsame. by eapply list_elem_of_lookup_2. }
    rewrite E. split; [|apply Hc]. intros (p & Hp & Hpin)%list_elem_of_fmap. unfold id_of at 1 in Hp. rewrite Hq in Hp. by apply (Hfree p).
  - intros p [->|[Hne Hp]]%Hsub; [exists h; unfold handle_of; rewrite Hq, Hcurs; done|].
    destruct (c_valid s Hc p Hp) as (h' & H1 & H2). exists h'. unfold handle_of. rewrite Hother, Hcurs by done. done.
  - rewrite Ei, Hin, (c_ninflight s Hc). cbn. lia.
  - done.
  - rewrite Er. apply Hc.
  - intros x. rewrite Er, Hst. apply Hc.
  - rewrite Eg, (c_good s Hc), Er. do 2 f_equal. apply list_filter_iff. intros x. by rewrite Hst.
  - intros x k. rewrite Hct. destruct (count_of s x) as [k0|] eqn:Ek; cbn; [|done]. intros [= <-]. rewrite (c_load s Hc x k0 Ek).
    unfold load. rewrite Hin, filter_cons. rewrite (filter_in_iff (λ p, ns_of s' p = Some x) (λ p, ns_of s p = Some x) (inflight s)).
    2:{ intros p Hp. unfold ns_of. by rewrite Hother by auto. }
    assert (Hreq : ns_of s' req = Some ns) by (unfold ns_of; by rewrite Hq). rewrite Hreq.
    case_decide; case_bool_decide; try congruence; cbn; lia.
  - intros p b. unfold packet_of. destruct (decide (p = req)) as [->|Hne]; [rewrite Hq; cbn; by intros [= <-]|].
    rewrite Hother by done. apply (c_packets s Hc).
  - intros p. unfold timer_of. rewrite Hin. destruct (decide (p = req)) as [->|Hne]; [set_solver|]. rewrite Hother by done.
    intros Ht. apply (c_timers s Hc) in Ht. set_solver.
Qed.

(** The request [req] leaves its list. *)
Lemma core_leave s s' req : core s → req ∈ queued s →
  db_heads s' = filter (.≠ req) <$> db_heads s → db_waiting s' = filter (.≠ req) (db_waiting s) →
  db_inflight s' = Z.of_nat (length (inflight s')) → db_nwaiting s' = Z.of_nat (length (db_waiting s')) →
  db_ring s' ≡ₚ db_ring s → db_good s' = db_good s →
  db_requests s' !! req = None → (∀ p, p ≠ req → db_requests s' !! p = db_requests s !! p) →
  (∀ h p, current_of s h = Some p → p ≠ req → current_of s' h = Some p) →
  (∀ x, state_of s' x = state_of s x) →
  (∀ x, count_of s' x = (λ k, k - (if bool_decide (ns_of s req = Some x) then 1 else 0)) <$> count_of s x) → core s'.
Proof.
  intros Hc Hreq Eh Ew Ei En Er Eg Hq Hother Hcur Hst Hct.
  assert (Hin : inflight s' = filter (.≠ req) (inflight s)) by (unfold inflight; by rewrite Eh, join_filter).
  assert (Hqs : queued s' = filter (.≠ req) (queued s)) by (unfold queued; by rewrite Hin, Ew, filter_app).
  assert (Hb : ∀ id, bucket s' id = bucket s id) by (intros id; unfold bucket; by rewrite Eh, length_fmap).
  split.
  - rewrite Eh. intros E. apply (c_heads s Hc). by apply fmap_nil_inv in E.
  - rewrite Hqs. apply NoDup_filter_ne, Hc.
  - intros i l p Hi Hp. rewrite Eh, list_lookup_fmap in Hi. destruct (db_heads s !! i) as [l0|] eqn:El; [|done]. injection Hi as <-.
    apply elem_of_filter_ne in Hp as [Hne Hp]. destruct (c_inflight s Hc i l0 p El Hp) as (id & x & H1 & H2 & H3). exists id, x.
    unfold id_of, ns_of in *. rewrite Hother, Hst, Hb by done. done.
  - intros p. rewrite Ew, elem_of_filter_ne. intros [Hne Hp]. unfold ns_of. rewrite Hother by done. by apply (c_waiting s Hc).
  - rewrite Hin. assert (E : id_of s' <$> filter (.≠ req) (inflight s) = id_of s <$> filter (.≠ req) (inflight s)).
    { apply list_fmap_ext. intros i p Hp. unfold id_of. rewrite Hother; [done|]. apply list_elem_of_lookup_2, elem_of_filter_ne in Hp. naive_solver. }
    rewrite E. eapply sublist_NoDup; [apply (c_ids s Hc)|]. apply fmap_sublist, sublist_filter.
  - intros p. rewrite Hqs, elem_of_filter_ne. intros [Hne Hp]. destruct (c_valid s Hc p Hp) as (h & H1 & H2). exists h.
    unfold handle_of. rewrite Hother by done. split; [done|]. by apply Hcur.
  - done.
  - done.
  - rewrite Er. apply Hc.
  - intros x. rewrite Er, Hst. apply Hc.
  - rewrite Eg, (c_good s Hc), Er. do 2 f_equal. apply list_filter_iff. intros x. by rewrite Hst.
  - intros x k. rewrite Hct. destruct (count_of s x) as [k0|] eqn:Ek; cbn; [|done]. intros [= <-]. rewrite (c_load s Hc x k0 Ek).
    unfold load. rewrite Hin. rewrite (filter_in_iff (λ p, ns_of s' p = Some x) (λ p, ns_of s p = Some x) (filter _ _)).
    2:{ intros p [Hp _]%elem_of_filter_ne. unfold ns_of. by rewrite Hother by auto. }
    unfold queued in Hreq. apply elem_of_app in Hreq as [Hreq|Hreq].
    + rewrite (length_filter_split _ req (inflight s) (nodup_inflight s Hc) Hreq). case_decide; case_bool_decide; try done; lia.
    + rewrite bool_decide_false by (rewrite (c_waiting s Hc req Hreq); done). rewrite filter_ne_notin; [lia|]. intros Hi.
      pose proof (c_nodup s Hc) as Hnd. unfold queued in Hnd. apply NoDup_app in Hnd as (_ & Hd & _). by apply (Hd req).
  - intros p b. unfold packet_of. destruct (decide (p = req)) as [->|Hne]; [by rewrite Hq|]. rewrite Hother by done. apply (c_packets s Hc).
  - intros p. unfold timer_of. destruct (decide (p = req)) as [->|Hne]; [by rewrite Hq|]. rewrite Hother by done. intros Ht.
    rewrite Hin. apply elem_of_filter_ne. split; [done|by apply (c_timers s Hc)].
Qed.

(** ** Starting the requests that wait *)

(** The requests that are queued stay queued. *)
Definition pump_step (s s' : evdns_base) : Prop :=
  core s' ∧ frame s s' ∧ queued s' ≡ₚ queued s ∧ ∀ p, p ∈ inflight s → p ∈ inflight s'.

Lemma pump_trans s1 s2 s3 : pump_step s1 s2 → pump_step s2 s3 → pump_step s1 s3.
Proof. intros (_ & ? & E1 & ?) (? & ? & E2 & ?). split; [done|]. split; [by etrans|]. split; [by rewrite E2|auto]. Qed.

Lemma good_pump s s' : good_step s s' → pump_step s s'.
Proof.
  intros Hg. split; [by eapply good_core|]. split; [by eapply good_frame|].
  rewrite (good_queued _ _ Hg), (good_inflight _ _ Hg). done.
Qed.

Lemma queued_nodup s : core s → NoDup (inflight s) ∧ (∀ p, p ∈ inflight s → p ∉ db_waiting s) ∧ NoDup (db_waiting s).
Proof. intros Hc. apply NoDup_app. apply Hc. Qed.

Lemma wp_get_list_in i l s (Q : list Z → evdns_base → Prop) : db_heads s !! i = Some l → Q l s → wp (get_list (Inflight i)) Q s.
Proof. intros E HQ. unfold get_list. apply wp_bind, wp_gets. rewrite E. by apply wp_ret. Qed.

Lemma wp_REQ_HEAD s id (Q : nat → evdns_base → Prop) : Q (bucket s id) s → wp (REQ_HEAD id) Q s.
Proof. intros HQ. unfold REQ_HEAD. apply wp_bind, wp_gets. by apply wp_ret. Qed.

Lemma be16_bytes x : Forall is_byte (be16 x).
Proof. repeat constructor; apply wrap_range; lia. Qed.

(** The id is put in the packet. *)
Lemma wp_trans_id_set s p q id (Q : unit → evdns_base → Prop) : db_requests s !! p = Some q → (2 <= length (rq_request q))%nat → Forall is_byte (rq_request q) →
  (∀ b, Forall is_byte b → (2 <= length b)%nat → Q tt (set_db_requests (<[p := set_rq_request b (set_rq_trans_id id q)]> (db_requests s)) s)) →
  wp (request_trans_id_set p id) Q s.
Proof.
  intros Hq Hl Hb HQ. unfold request_trans_id_set. apply wp_bind. eapply wp_get; [exact Hq|].
  unfold put_at. cbn [Z.ltb Z.compare]. change (Z.to_nat 0) with 0%nat. rewrite memcpy_at_ok by (cbn; lia). eapply wp_upd_req; [exact Hq|]. rewrite take_0, app_nil_l. apply HQ.
  - apply Forall_app. split; [apply be16_bytes|by apply Forall_drop].
  - rewrite length_app, length_drop. change (length (be16 id)) with 2%nat. lia.
Qed.

Lemma alter_at {A} (f : A → A) (l : list A) i x : l !! i = Some x → alter f i l = <[i := f x]> l.
Proof.
  intros Hx. apply list_eq. intros j. destruct (decide (i = j)) as [<-|Hj].
  - by rewrite list_lookup_alter_eq, Hx, list_lookup_insert_eq by (by eapply lookup_lt_Some).
  - by rewrite list_lookup_alter_ne, list_lookup_insert_ne.
Qed.

Lemma alter_key {A} (f : A → A) (m : gmap Z A) i x : m !! i = Some x → alter f i m = <[i := f x]> m.
Proof.
  intros Hx. apply map_eq. intros j. destruct (decide (i = j)) as [<-|Hj].
  - by rewrite lookup_alter_eq, Hx, lookup_insert_eq.
  - by rewrite lookup_alter_ne, lookup_insert_ne.
Qed.

Section pump.
Context `{DnsEnvOk}.

(** The state when a request that waited has been put in flight. *)
Definition started (s : evdns_base) (req ns id : Z) (b : bytes) (r : list Z) (t : nat) : evdns_base :=
  let i := bucket s id in
  let upd q := set_rq_request b (set_rq_trans_id id (set_rq_ns (Some ns) q)) in
  mk_db (alter upd req (db_requests s)) (alter (λ n, set_ns_inflight (ns_inflight n + 1) n) ns (db_servers s)) (db_handles s) (db_searches s)
    (alter (λ l, l ++ [req]) i (db_heads s)) (filter (.≠ req) (db_waiting s)) r (db_good s) (db_inflight s + 1) (db_nwaiting s - 1)
    (db_search s) (db_deferred s) (db_next s) t (db_options s).

Lemma core_started s req ns id b r t : core s → req ∈ db_waiting s → ns ∈ db_ring s → r ≡ₚ db_ring s → 0 <= id < 65535 →
  (∀ p, p ∈ inflight s → id_of s p ≠ Some id) → Forall is_byte b → (2 <= length b)%nat → pump_step s (started s req ns id b r t).
Proof.
  intros Hc Hw Hns Hr Hid Hfree Hb Hbl. destruct (queued_nodup s Hc) as (Hnd1 & Hd & Hnd2).
  assert (Hnin : req ∉ inflight s) by (intros Hi; by apply (Hd req)).
  destruct (queued_valid s req Hc) as (q & h & hd & Eq & Eh & Ehd & Ecur); [apply elem_of_app; by right|].
  destruct (ring_server s ns Hc Hns) as [n Hn].
  destruct (lookup_lt_is_Some_2 (db_heads s) (bucket s id)) as [l Hl]; [apply bucket_lt, Hc|].
  pose proof (alter_at (λ l, l ++ [req]) (db_heads s) (bucket s id) l Hl) as Eheads. cbn beta in Eheads.
  set (q' := set_rq_request b (set_rq_trans_id id (set_rq_ns (Some ns) q))).
  assert (Eq' : db_requests (started s req ns id b r t) !! req = Some q') by (cbn; by rewrite lookup_alter_eq, Eq).
  assert (Hcount : length (db_waiting s) = S (length (filter (.≠ req) (db_waiting s)))) by (rewrite (Permutation_length (filter_ne_perm req _ Hnd2 Hw)); done).
  split; [|split; [|split]].
  - apply (core_enter s _ req q' ns h l); try done.
    + cbn. rewrite (c_nwaiting s Hc). rewrite Hcount. lia.
    + intros p Hp. cbn. by rewrite lookup_alter_ne.
    + unfold current_of. by rewrite Ehd.
    + intros x. unfold state_of. cbn. destruct (decide (ns = x)) as [<-|]; [by rewrite lookup_alter_eq, Hn|by rewrite lookup_alter_ne].
    + unfold state_of. rewrite Hn. eauto.
    + intros x. unfold count_of. cbn. destruct (decide (ns = x)) as [<-|].
      * rewrite lookup_alter_eq, Hn, bool_decide_true by done. done.
      * rewrite lookup_alter_ne, bool_decide_false by done. destruct (db_servers s !! x); cbn; [|done]. f_equal. lia.
  - split; try done; intros x; cbn.
    + destruct (decide (req = x)) as [<-|]; [by rewrite lookup_alter_eq, Eq|by rewrite lookup_alter_ne].
    + destruct (decide (ns = x)) as [<-|]; [by rewrite lookup_alter_eq, Hn|by rewrite lookup_alter_ne].
    + unfold state_of. cbn. destruct (decide (ns = x)) as [<-|]; [by rewrite lookup_alter_eq, Hn|by rewrite lookup_alter_ne].
  - unfold queued, inflight. cbn [started db_heads db_waiting]. rewrite Eheads, (join_snoc (db_heads s) _ l req Hl).
    rewrite (filter_ne_perm req (db_waiting s) Hnd2 Hw) at 2. cbn. apply Permutation_middle.
  - intros p Hp. unfold inflight. cbn [started db_heads]. rewrite Eheads, (join_snoc (db_heads s) _ l req Hl). by apply list_elem_of_further.
Qed.

(** One request is moved from the waiting list to the lists of those in flight. *)
Lemma wp_start s req rest ns n r (k : dns unit) (Q : unit → evdns_base → Prop) : core s → db_waiting s = req :: rest → ns ∈ db_ring s → r ≡ₚ db_ring s →
  db_servers s !! ns = Some n → Z.of_nat (length (inflight s)) < 65535 →
  (∀ s', pump_step s s' → req ∈ inflight s' → db_waiting s' = rest → wp k Q s') →
  wp (upd_req req (set_rq_ns (Some ns));;
      upd_ns ns (λ n, set_ns_inflight (ns_inflight n + 1) n);;
      evdns_request_remove req Waiting;;
      modify (λ s, set_db_inflight (db_inflight s + 1) (set_db_nwaiting (db_nwaiting s - 1) s));;
      trans_id ← transaction_id_pick;
      request_trans_id_set req trans_id;;
      i ← REQ_HEAD trans_id;
      evdns_request_insert req (Inflight i);; k) Q (set_db_ring r s).
Proof.
  intros Hc Hw Hns Hr Hn Hlen Hk. assert (Hreq : req ∈ db_waiting s) by (rewrite Hw; apply list_elem_of_here).
  destruct (queued_nodup s Hc) as (_ & Hd & Hnd2).
  assert (Hnin : req ∉ inflight s) by (intros Hi; by apply (Hd req)).
  destruct (queued_valid s req Hc) as (q & h & hd & Eq & Eh & Ehd & Ecur); [apply elem_of_app; by right|].
  destruct (c_packets s Hc req (rq_request q)) as [Hpb Hpl]; [unfold packet_of; by rewrite Eq|].
  apply wp_bind. eapply wp_upd_req; [exact Eq|]. apply wp_bind. eapply wp_upd_ns; [exact Hn|].
  apply wp_bind. unfold evdns_request_remove. apply wp_bind, wp_valid.
  { eexists _, h, hd. split; [cbn; by rewrite lookup_insert_eq|]. done. }
  apply wp_bind. unfold get_list. apply wp_gets. cbn [db_waiting set_db_servers set_db_requests set_db_ring].
  rewrite (unlink_in req (db_waiting s)) by done. unfold set_list. apply wp_modify. apply wp_bind, wp_modify.
  apply wp_bind. eapply wp_mono; [apply wp_transaction_id_pick; [|done]|].
  { destruct (core_placed s Hc) as [P1 P2]. split; [done|]. intros i l p Hi Hp. destruct (P2 i l p Hi Hp) as (id & Hid & Hb). exists id.
    unfold id_of. cbn. rewrite lookup_insert_ne by (intros <-; apply Hnin; by eapply in_inflight_2). done. }
  cbn beta. intros id s1 ((t & ->) & Hid & Hfree).
  apply wp_bind. eapply wp_trans_id_set; [cbn; by rewrite lookup_insert_eq|done..|]. intros b Hb Hbl.
  apply wp_bind, wp_REQ_HEAD. destruct (lookup_lt_is_Some_2 (db_heads s) (bucket s id)) as [l Hl]; [apply bucket_lt, Hc|].
  apply wp_bind. unfold evdns_request_insert. apply wp_bind, wp_valid.
  { eexists _, h, hd. split; [cbn; by rewrite lookup_insert_eq|]. done. }
  apply wp_bind. eapply wp_get_list_in; [exact Hl|]. apply wp_modify.
  assert (Hst : pump_step s (started s req ns id b r t)).
  { apply core_started; try done. intros p Hp. specialize (Hfree p Hp). unfold id_of in *. cbn in Hfree.
    rewrite lookup_insert_ne in Hfree by (intros <-; done). done. }
  match goal with |- wp k Q ?x => assert (Es : x = started s req ns id b r t) end.
  { unfold started. rewrite (alter_key _ _ _ _ Eq), (alter_key _ _ _ _ Hn), (alter_at _ _ _ _ Hl). cbn. by rewrite insert_insert_eq. }
  rewrite Es. apply Hk; [done| |].
  - eapply in_inflight_2; [cbn; rewrite list_lookup_alter_eq, Hl; reflexivity|set_solver].
  - cbn. rewrite Hw. rewrite filter_cons_False by naive_solver. apply filter_ne_notin. rewrite Hw in Hnd2. by apply NoDup_cons in Hnd2 as [? _].
Qed.

Lemma wp_pump_loop fuel : ∀ s, core s → o_max_requests_inflight (db_options s) <= 65535 → (length (db_waiting s) <= fuel)%nat →
  wp (pump_loop fuel) (λ _, pump_step s) s.
Proof.
  induction fuel as [|fuel IH]; intros s Hc Hmax Hf; cbn [pump_loop]; apply wp_bind, wp_gets, wp_bind, wp_gets, wp_bind, wp_gets;
    (destruct (negb _) eqn:Eg; [by apply wp_ret, good_pump, good_refl|]); apply negb_false_iff, andb_true_iff in Eg as [Hlt%Z.ltb_lt Hnw%negb_true_iff%Z.eqb_neq];
    rewrite (c_nwaiting s Hc) in Hnw; rewrite (c_ninflight s Hc) in Hlt.
  { destruct (db_waiting s); cbn in *; lia. }
  apply wp_bind, wp_gets. destruct (db_waiting s) as [|req rest] eqn:Ew; [done|].
  apply wp_bind. eapply wp_mono; [by apply wp_nameserver_pick|]. cbn beta. intros [ns|] s1 [(r & -> & Hr) Hns].
  - destruct Hns as [Hns _]. destruct (ring_server s ns Hc Hns) as [n Hn]. eapply wp_start; [done..|lia|]. intros s2 Hp2 Hin2 Hw2.
    assert (Hc2 : core s2) by apply Hp2. eapply wp_mono; [|intros ? s' Hs'; exact (pump_trans _ _ _ Hp2 Hs')].
    apply wp_bind. eapply wp_mono; [by apply wp_transmit|]. cbn beta. intros _ s3 Hg3. assert (Hc3 : core s3) by eauto with ev.
    apply wp_bind. eapply wp_mono; [by apply wp_evdns_transmit|]. cbn beta. intros _ s4 Hg4.
    assert (Hg : good_step s2 s4) by (by eapply good_trans).
    eapply wp_mono; [apply IH|intros ? s' Hs'; exact (pump_trans _ _ _ (good_pump _ _ Hg) Hs')]; [eauto with ev| |].
    + assert (E : db_options s4 = db_options s) by (rewrite (f_options _ _ (good_frame _ _ Hg)); apply Hp2). by rewrite E.
    + destruct Hg as (_ & _ & _ & -> & _). rewrite Hw2. cbn in Hf. lia.
  - apply wp_bind. assert (Hreq : req ∈ db_waiting s) by (rewrite Ew; apply list_elem_of_here).
    destruct (queued_valid s req Hc) as (q & h & hd & Eq & _); [apply elem_of_app; by right|].
    eapply wp_upd_req; [exact Eq|]. assert (Eqn : rq_ns q = None) by (pose proof (c_waiting s Hc req Hreq) as E; unfold ns_of in E; by rewrite Eq in E).
    replace (set_rq_ns None q) with q by (destruct q; cbn in *; by subst). cbn. rewrite insert_id by done.
    apply wp_ret, good_pump. assert (Hg := ring_good s r Hc Hr). done.
Qed.

Lemma wp_pump s : core s → o_max_requests_inflight (db_options s) <= 65535 → wp evdns_requests_pump_waiting_queue (λ _, pump_step s) s.
Proof. intros Hc Hm. apply wp_bind, wp_gets. by apply wp_pump_loop. Qed.
End pump.

(** ** Finishing a request *)

(** The state when a request is off its list and freed, before others are
    started. *)
Definition less (o : evdns_options) (n : nameserver) : nameserver :=
  let n := set_ns_inflight (ns_inflight n - 1) n in
  if (ns_inflight n =? 0) && o_disable_when_inactive o then set_ns_event false (set_ns_timer None n) else n.
Definition finished (s : evdns_base) (req h : Z) (q : request) (hd : evdns_request) : evdns_base :=
  mk_db (delete req (db_requests s))
    (match rq_ns q with Some ns => alter (less (db_options s)) ns (db_servers s) | None => db_servers s end)
    (if h_pending_cb hd then <[h := set_h_current_req None (set_h_search_origname None hd)]> (db_handles s) else delete h (db_handles s))
    (db_searches s) (filter (.≠ req) <$> db_heads s) (filter (.≠ req) (db_waiting s)) (db_ring s) (db_good s)
    (match rq_ns q with Some _ => db_inflight s - 1 | None => db_inflight s end)
    (match rq_ns q with Some _ => db_nwaiting s | None => db_nwaiting s - 1 end)
    (db_search s) (db_deferred s) (db_next s) (db_tick s) (db_options s).

Lemma less_same o n : ns_state (less o n) = ns_state n ∧ ns_inflight (less o n) = ns_inflight n - 1 ∧ ns_probe (less o n) = ns_probe n.
Proof. unfold less. by destruct (_ && _). Qed.

(** A queued request is on the list that its nameserver field says. *)
Lemma queued_where s req q : core s → req ∈ queued s → db_requests s !! req = Some q →
  (rq_ns q = None ∧ req ∈ db_waiting s ∧ req ∉ inflight s) ∨
  (∃ ns n l, rq_ns q = Some ns ∧ db_servers s !! ns = Some n ∧ req ∈ inflight s ∧ (req ∉ db_waiting s) ∧
     db_heads s !! bucket s (rq_trans_id q) = Some l ∧ req ∈ l).
Proof.
  intros Hc Hreq Eq. destruct (queued_nodup s Hc) as (_ & Hd & _). apply elem_of_app in Hreq as [Hin|Hw].
  - right. destruct (inflight_inv s req Hc Hin) as (q' & ns & n & Eq' & En & Es & _ & l & Hl & Hp). simplify_eq. exists ns, n, l. naive_solver.
  - left. pose proof (c_waiting s Hc req Hw) as E. unfold ns_of in E. rewrite Eq in E. split; [done|]. split; [done|]. intros Hi. by apply (Hd req).
Qed.

Lemma core_finished s req h q hd : core s → req ∈ queued s → db_requests s !! req = Some q → rq_handle q = Some h →
  db_handles s !! h = Some hd → h_current_req hd = Some req → core (finished s req h q hd).
Proof.
  intros Hc Hreq Eq Eh Ehd Ecur. pose proof (queued_where s req q Hc Hreq Eq) as Hcase. destruct (queued_nodup s Hc) as (Hnd1 & Hd & Hnd2).
  apply (core_leave s _ req); try done.
  - cbn. rewrite (c_ninflight s Hc). unfold inflight. cbn. rewrite join_filter. fold (inflight s).
    destruct Hcase as [(-> & Hw & Hn)|(ns & n & l & -> & _ & Hin & _)].
    + by rewrite filter_ne_notin.
    + rewrite (Permutation_length (filter_ne_perm req _ Hnd1 Hin)). cbn. lia.
  - cbn. rewrite (c_nwaiting s Hc). destruct Hcase as [(-> & Hw & Hn)|(ns & n & l & -> & _ & Hin & Hn & _)].
    + rewrite (Permutation_length (filter_ne_perm req _ Hnd2 Hw)) at 1. cbn. lia.
    + by rewrite filter_ne_notin.
  - cbn. apply lookup_delete_eq.
  - intros p Hp. cbn. by rewrite lookup_delete_ne.
  - intros h' p Hcur Hne. unfold current_of in *. cbn. assert (h' ≠ h) by (intros ->; rewrite Ehd in Hcur; cbn in Hcur; congruence).
    destruct (h_pending_cb hd); [by rewrite lookup_insert_ne|by rewrite lookup_delete_ne].
  - intros x. unfold state_of. cbn. destruct (rq_ns q) as [ns|]; [|done]. destruct (decide (ns = x)) as [<-|]; [|by rewrite lookup_alter_ne].
    rewrite lookup_alter_eq. destruct (db_servers s !! ns); cbn; [|done]. by destruct (less_same (db_options s) n) as [-> _].
  - intros x. unfold count_of, ns_of. cbn. rewrite Eq. cbn. destruct (rq_ns q) as [ns|].
    + destruct (decide (ns = x)) as [<-|].
      * rewrite lookup_alter_eq, bool_decide_true by done. destruct (db_servers s !! ns) as [n|]; cbn; [|done]. by destruct (less_same (db_options s) n) as (_ & -> & _).
      * rewrite lookup_alter_ne, bool_decide_false by congruence. destruct (db_servers s !! x); cbn; [|done]. f_equal. lia.
    + rewrite bool_decide_false by done. destruct (db_servers s !! x); cbn; [|done]. f_equal. lia.
Qed.

Section finish.
Context `{DnsEnvOk}.

Lemma wp_finish_handle s req h hd (k : dns unit) (Q : unit → evdns_base → Prop) : db_handles s !! h = Some hd → h_current_req hd = Some req → h_search_state hd = None →
  wp k Q (set_db_handles (if h_pending_cb hd then <[h := set_h_current_req None (set_h_search_origname None hd)]> (db_handles s) else delete h (db_handles s)) s) →
  wp (finish_handle req h true;; k) Q s.
Proof.
  intros Eh Ec Es Hk. apply wp_bind. unfold finish_handle. apply wp_bind. eapply wp_get; [exact Eh|]. apply wp_bind, wp_assert; [by apply bool_decide_true|].
  apply wp_bind. unfold search_request_finished. apply wp_bind. eapply wp_get; [exact Eh|]. rewrite Es. apply wp_bind, wp_ret.
  eapply wp_upd_handle; [exact Eh|]. apply wp_bind. eapply wp_upd_handle; [cbn; apply lookup_insert_eq|].
  apply wp_bind. eapply wp_get; [cbn; apply lookup_insert_eq|]. cbn [h_pending_cb set_h_current_req set_h_search_origname db_handles set_db_handles].
  rewrite insert_insert_eq. destruct (h_pending_cb hd).
  - by apply wp_ret.
  - apply wp_modify. cbn. by rewrite delete_insert_eq.
Qed.

Lemma finished_pump s req h q hd : core (finished s req h q hd) → o_max_requests_inflight (db_options s) <= 65535 →
  wp evdns_requests_pump_waiting_queue (λ _, pump_step (finished s req h q hd)) (finished s req h q hd).
Proof. intros. by apply wp_pump. Qed.

Lemma wp_request_finished s req head h q hd : core s → req ∈ queued s → o_max_requests_inflight (db_options s) <= 65535 →
  db_requests s !! req = Some q → rq_handle q = Some h → db_handles s !! h = Some hd → h_current_req hd = Some req → h_search_state hd = None →
  head = match rq_ns q with Some _ => Inflight (bucket s (rq_trans_id q)) | None => Waiting end →
  wp (request_finished req head true) (λ _, pump_step (finished s req h q hd)) s.
Proof.
  intros Hc Hreq Hmax Eq Eh Ehd Ecur Ess ->. pose proof (core_finished s req h q hd Hc Hreq Eq Eh Ehd Ecur) as Hfin.
  assert (Hvalid : ∃ q h hd, db_requests s !! req = Some q ∧ rq_handle q = Some h ∧ db_handles s !! h = Some hd ∧ h_current_req hd = Some req) by eauto 10.
  destruct (queued_nodup s Hc) as (Hnd1 & Hd & Hnd2).
  unfold request_finished. apply wp_bind, wp_valid; [done|]. apply wp_bind. unfold evdns_request_remove. apply wp_bind, wp_valid; [done|].
  destruct (queued_where s req q Hc Hreq Eq) as [(Ens & Hw & Hn)|(ns & n & l & Ens & Es & Hin & Hn & Hl & Hrl)]; rewrite Ens.
  - apply wp_bind, wp_gets. rewrite unlink_in by done. apply wp_modify. apply wp_bind. eapply wp_get; [exact Eq|]. rewrite Ens, Eh.
    apply wp_bind, wp_modify, wp_bind, wp_ret. eapply wp_finish_handle; [exact Ehd|done..|]. apply wp_bind, wp_modify.
    match goal with |- wp _ _ ?x => replace x with (finished s req h q hd) end; [by apply finished_pump|].
    unfold finished. rewrite Ens. cbn. by rewrite filter_lists_id.
  - apply wp_bind. eapply wp_get_list_in; [exact Hl|]. rewrite unlink_in by done.
    apply wp_modify. apply wp_bind. eapply wp_get; [exact Eq|]. rewrite Ens, Eh.
    apply wp_bind, wp_bind. eapply wp_upd_req; [exact Eq|]. apply wp_bind, wp_modify. eapply wp_upd_ns; [exact Es|].
    apply wp_bind, wp_bind. eapply wp_get; [cbn; apply lookup_insert_eq|]. apply wp_bind, wp_gets.
    match goal with |- wp (if ?b then ?m else ?m') ?Q ?st => assert (Hif : wp (if b then m else m') (λ _ s', s' = set_db_servers (<[ns := less (db_options s) n]> (db_servers s)) st) st) end.
    { unfold less. cbn. destruct (_ && _).
      - eapply wp_upd_ns; [cbn; apply lookup_insert_eq|]. cbn. by rewrite insert_insert_eq.
      - by apply wp_ret. }
    eapply wp_mono; [exact Hif|]. cbn beta. intros _ s1 ->.
    eapply wp_finish_handle; [exact Ehd|done..|]. apply wp_bind, wp_modify.
    match goal with |- wp _ _ ?x => replace x with (finished s req h q hd) end; [by apply finished_pump|].
    unfold finished. rewrite Ens, (alter_key _ _ _ _ Es). cbn. rewrite delete_insert_eq. rewrite (filter_one_list req (db_heads s) _ l), filter_ne_notin by done. done.
Qed.
End finish.
