(* ===== verification/DnsClientHandles.v ===== *)
(** * The DNS client: handles, callbacks and probes

    The invariant of handles, scheduled callbacks and probes; cancelling,
    timeouts, replies and callbacks keep it. *)

From stdpp Require Import gmap.
From S2P Require Import Prelude Clib Util TimeVal DnsPacket DnsNames DnsPacketProps DnsClient DnsClientInv DnsClientQueues.

(** ** Handles, callbacks and probes *)

Definition known_type (type : Z) : Prop := type = TYPE_A ∨ type = TYPE_PTR ∨ type = TYPE_AAAA.
(** What a scheduled callback will say. *)
Definition result_of (d : deferred_reply_callback) : Z := match d_reply d with Some _ => DNS_ERR_NONE | None => d_err d end.
Definition waits_for (s : evdns_base) (h : Z) : Prop := Some h ∈ d_handle <$> db_deferred s.

(** The callback of each handle, and the handle whose callback is running. *)
Record ghost := mk_ghost { g_cb :> Z → evdns_callback; g_run : option Z }.

(** The handles in [X] are about to be
    finished: their callback is scheduled but their request is still queued.  The
    probe [y] is being cancelled. *)
Record outer (cb : ghost) (X : list Z) (y : option Z) (s : evdns_base) : Prop := {
  o_handle : ∀ h hd, db_handles s !! h = Some hd → h_search_state hd = None ∧ (h_current_req hd = None → h_pending_cb hd = true) ∧
    ∀ p, h_current_req hd = Some p → p ∈ queued s ∧ handle_of s p = Some h ∧ (h_pending_cb hd = true → h ∈ X);
  o_request : ∀ p q, db_requests s !! p = Some q → p ∈ queued s ∧ (∃ h, rq_handle q = Some h ∧ rq_callback q = cb h) ∧ known_type (rq_type q);
  o_deferred : ∀ d, d ∈ db_deferred s → ∃ h hd, d_handle d = Some h ∧ db_handles s !! h = Some hd ∧ h_pending_cb hd = true ∧
    d_callback d = cb h ∧ known_type (d_request_type d);
  o_called : ∀ h hd, db_handles s !! h = Some hd → h_pending_cb hd = true → g_run cb ≠ Some h → waits_for s h;
  o_run : ∀ h, g_run cb = Some h → ¬ waits_for s h ∧ ∃ hd, db_handles s !! h = Some hd ∧ h_pending_cb hd = true ∧ h_current_req hd = None;
  o_once : NoDup (d_handle <$> db_deferred s);
  o_cb : ∀ h ns, is_Some (db_handles s !! h) → cb h = ProbeCb ns → is_Some (db_servers s !! ns);
  o_probe : ∀ ns n h, db_servers s !! ns = Some n → ns_probe n = Some h → cb h = ProbeCb ns ∧ is_Some (db_handles s !! h) ∧
    (y ≠ Some h → ∀ d, d ∈ db_deferred s → d_handle d = Some h → result_of d ≠ DNS_ERR_CANCEL);
  o_search : db_search s = None;
  o_max : o_max_requests_inflight (db_options s) <= 65535;
  o_fresh : (∀ p, is_Some (db_requests s !! p) → p < db_next s) ∧ (∀ p, is_Some (db_handles s !! p) → p < db_next s) ∧
    (∀ p, is_Some (db_servers s !! p) → p < db_next s)
}.

(** What stays: the options, the nameservers, and the handles in [P]. *)
Record evolve (P : Z → Prop) (s s' : evdns_base) : Prop := {
  e_options : db_options s' = db_options s;
  e_servers : ∀ ns, is_Some (db_servers s !! ns) → is_Some (db_servers s' !! ns);
  e_handles : ∀ h, P h → db_handles s' !! h = db_handles s !! h;
  e_probes : ∀ ns n' h, db_servers s' !! ns = Some n' → ns_probe n' = Some h → ∃ n, db_servers s !! ns = Some n ∧ ns_probe n = Some h;
  e_inflight : ∀ h req, P h → current_of s h = Some req → req ∈ inflight s → req ∈ inflight s'
}.

#[export] Instance evolve_preorder P : PreOrder (evolve P).
Proof.
  split; [split; eauto|]. intros s1 s2 s3 [? ? E1 P1 I1] [? ? E2 P2 I2]. split; [congruence|auto|..].
  - intros h Hh. by rewrite E2, E1.
  - intros ns n h Hn Hp. destruct (P2 ns n h Hn Hp) as (n' & Hn' & Hp'). eauto.
  - intros h req Hh Hcur Hin. apply (I2 h); [done| |by eapply I1]. unfold current_of in *. by rewrite E1.
Qed.

Lemma evolve_weaken (P Q : Z → Prop) s s' : evolve P s s' → (∀ h, Q h → P h) → evolve Q s s'.
Proof. intros [] HQ. split; eauto. Qed.

Definition ok (cb : ghost) (X : list Z) (y : option Z) (s : evdns_base) : Prop := core s ∧ outer cb X y s.

Lemma frame_requests s s' p q' : frame s s' → db_requests s' !! p = Some q' → ∃ q, db_requests s !! p = Some q ∧
  rq_callback q' = rq_callback q ∧ rq_handle q' = rq_handle q ∧ rq_type q' = rq_type q.
Proof. intros Hf Hq. pose proof (f_requests _ _ Hf p) as E. rewrite Hq in E. destruct (db_requests s !! p) as [q|]; [|done]. exists q. naive_solver. Qed.

Lemma frame_handle_of s s' p : frame s s' → handle_of s' p = handle_of s p.
Proof.
  intros Hf. unfold handle_of. pose proof (f_requests _ _ Hf p) as E. destruct (db_requests s !! p), (db_requests s' !! p); try done. cbn in *. congruence.
Qed.

Lemma frame_probe s s' ns n' : frame s s' → db_servers s' !! ns = Some n' → ∃ n, db_servers s !! ns = Some n ∧ ns_probe n = ns_probe n'.
Proof. intros Hf Hn. pose proof (f_probes _ _ Hf ns) as E. rewrite Hn in E. destruct (db_servers s !! ns) as [n|]; [|done]. exists n. cbn in E. naive_solver. Qed.

(** The invariant does not see what the functions for queues do. *)
Lemma outer_frame cb X y s s' : outer cb X y s → frame s s' → queued s' ≡ₚ queued s → outer cb X y s'.
Proof.
  intros [O1 O2 O3 O4 OR O5 O6 O7 O8 O9 (O10 & O11 & O12)] Hf Hq. destruct (Hf) as [E1 E2 E3 E4 E5 E6 _ _ _]. split; unfold waits_for in *; rewrite ?E1, ?E2, ?E3, ?E5, ?E6; try done.
  - intros h hd Hh. destruct (O1 h hd Hh) as (? & ? & Hc). split; [done|]. split; [done|]. intros p Hp. rewrite Hq, (frame_handle_of _ _ _ Hf). auto.
  - intros p q' Hp. destruct (frame_requests _ _ _ _ Hf Hp) as (q & Eq & -> & -> & ->). rewrite Hq. eauto.
  - intros h ns Hh Hcb. eapply frame_ns; eauto.
  - intros ns n' h Hn Hp. destruct (frame_probe _ _ _ _ Hf Hn) as (n & En & Ep). apply (O7 ns n h En). congruence.
  - split; [|split; [done|]]; intros p [z Hz].
    + destruct (frame_requests _ _ _ _ Hf Hz) as (q & Eq & _). eauto.
    + destruct (frame_probe _ _ _ _ Hf Hz) as (n & En & _). eauto.
Qed.

Lemma outer_pump cb X y s s' : outer cb X y s → pump_step s s' → outer cb X y s'.
Proof. intros Ho (_ & Hf & Hq & _). by eapply outer_frame. Qed.

Lemma pump_evolve P s s' : pump_step s s' → evolve P s s'.
Proof.
  intros (_ & Hf & _ & Hi). split; [apply Hf|intros ns; by apply frame_ns|..|by auto].
  - intros h _. by rewrite (f_handles _ _ Hf).
  - intros ns n' h Hn Hp. destruct (frame_probe _ _ _ _ Hf Hn) as (n & En & Ep). exists n. by rewrite Ep.
Qed.

Lemma ok_pump cb X y s s' : ok cb X y s → pump_step s s' → ok cb X y s'.
Proof. intros [_ Ho] Hp. split; [apply Hp|by eapply outer_pump]. Qed.

Lemma ok_good cb X y s s' : ok cb X y s → good_step s s' → ok cb X y s'.
Proof. intros Hok Hg. eapply ok_pump; [done|by apply good_pump]. Qed.

Lemma good_evolve P s s' : good_step s s' → evolve P s s'.
Proof. intros. by apply pump_evolve, good_pump. Qed.
#[export] Hint Resolve ok_pump ok_good pump_evolve good_evolve : ev.

(** A step that only the queues see, and then the rest. *)
Lemma wp_good_ok {A} (m : dns A) cb X y P s : ok cb X y s → wp m (λ _, good_step s) s → wp m (λ _ s', ok cb X y s' ∧ evolve P s s') s.
Proof. intros Hok Hw. eapply wp_mono; [exact Hw|]. cbn. eauto with ev. Qed.

Lemma wp_seq {A B} (m : dns A) (f : A → dns B) cb X y cb' X' y' P s : wp m (λ _ s', ok cb X y s' ∧ evolve P s s') s →
  (∀ a s', ok cb X y s' → evolve P s s' → wp (f a) (λ _ s'', ok cb' X' y' s'' ∧ evolve P s' s'') s') →
  wp (m ≫= f) (λ _ s', ok cb' X' y' s' ∧ evolve P s s') s.
Proof.
  intros Hm Hf. apply wp_bind. eapply wp_mono; [exact Hm|]. cbn. intros a s1 [Hok He]. eapply wp_mono; [by apply Hf|]. cbn.
  intros _ s2 [Hok2 He2]. split; [done|]. by etrans.
Qed.

Lemma wp_evolve {A} (m : dns A) cb X y P s s' : evolve P s s' →
  wp m (λ _ s'', ok cb X y s'' ∧ evolve P s' s'') s' → wp m (λ _ s'', ok cb X y s'' ∧ evolve P s s'') s'.
Proof. intros He Hw. eapply wp_mono; [exact Hw|]. cbn. intros _ s'' [? He']. split; [done|]. by etrans. Qed.

(** ** Scheduling a callback *)

Definition scheduled (s : evdns_base) (h : Z) (hd : evdns_request) (d : deferred_reply_callback) (t : nat) : evdns_base :=
  set_db_tick t (set_db_deferred (db_deferred s ++ [d]) (set_db_handles (<[h := set_h_pending_cb true hd]> (db_handles s)) s)).

Lemma core_scheduled s h hd d t : core s → db_handles s !! h = Some hd → core (scheduled s h hd d t).
Proof.
  intros Hc Hh. apply (core_transfer s); try done. intros h'. unfold current_of. cbn. by_lookup h h'; [by rewrite Hh|done].
Qed.

Lemma outer_scheduled cb X y s h hd p d t : outer cb X y s → db_handles s !! h = Some hd → h_current_req hd = Some p → h_pending_cb hd = false →
  d_handle d = Some h → d_callback d = cb h → known_type (d_request_type d) →
  (result_of d = DNS_ERR_CANCEL → ∀ ns n, db_servers s !! ns = Some n → ns_probe n = Some h → y = Some h) →
  outer cb (h :: X) y (scheduled s h hd d t).
Proof.
  intros [O1 O2 O3 O4 OR O5 O6 O7 O8 O9 (O10 & O11 & O12)] Hh Hcur Hpend Hd1 Hd2 Hd3 Hcan.
  assert (Hsome : ∀ x, is_Some (<[h := set_h_pending_cb true hd]> (db_handles s) !! x) ↔ is_Some (db_handles s !! x)).
  { intros x. by_lookup h x; [rewrite Hh; naive_solver|done]. }
  split; unfold waits_for in *; cbn; try done.
  - intros h' hd'. by_lookup h h'.
    + intros [= <-]. cbn. destruct (O1 h' hd Hh) as (E1 & _ & E2). split; [done|]. split; [congruence|]. intros p' Hp'. destruct (E2 p' Hp') as (? & ? & _). do 2 (split; [done|]). intros _. apply list_elem_of_here.
    + intros Hh'. destruct (O1 h' hd' Hh') as (E1 & E1' & E2). split; [done|]. split; [done|]. intros p' Hp'. destruct (E2 p' Hp') as (? & ? & ?). do 2 (split; [done|]). intros. apply list_elem_of_further; auto.
  - intros d' [Hd'|Hd'%list_elem_of_singleton]%elem_of_app.
    + destruct (O3 d' Hd') as (h' & hd' & E1 & E2 & E3 & E4). exists h'. by_lookup h h'; [|by exists hd']. exfalso. congruence.
    + subst d'. exists h, (set_h_pending_cb true hd). by rewrite lookup_insert_eq.
  - intros h' hd'. rewrite fmap_app. cbn. rewrite Hd1. by_lookup h h'; [intros; set_solver|]. intros Hh' Hp' Hr. apply elem_of_app. left. by eapply O4.
  - intros h' Hr. destruct (OR h' Hr) as (Hw & hd' & E1 & E2 & E3). assert (h ≠ h') by (intros <-; congruence). rewrite fmap_app. cbn. rewrite Hd1. split; [set_solver|].
    exists hd'. by rewrite lookup_insert_ne.
  - rewrite fmap_app. cbn. rewrite Hd1. apply NoDup_app. split; [done|]. split; [|apply NoDup_singleton].
    intros x (d' & -> & Hd')%list_elem_of_fmap Hx%list_elem_of_singleton. destruct (O3 d' Hd') as (h' & hd' & E1 & E2 & E3 & _). rewrite E1 in Hx. exfalso. congruence.
  - intros h' ns. rewrite Hsome. apply O6.
  - intros ns n h' Hn Hp. rewrite Hsome. destruct (O7 ns n h' Hn Hp) as (E1 & E2 & E3). split; [done|]. split; [done|]. intros Hy d' [Hd'|Hd'%list_elem_of_singleton]%elem_of_app; [by apply E3|].
    subst d'. rewrite Hd1. intros [= <-] Hres. apply Hy. by eapply Hcan.
  - split; [done|]. split; [|done]. intros x. rewrite Hsome. apply O11.
Qed.

(** ** A request that is finished *)

Lemma elem_finished s req h q hd p : p ∈ queued (finished s req h q hd) ↔ p ≠ req ∧ p ∈ queued s.
Proof.
  unfold queued, inflight. cbn. rewrite join_filter, !elem_of_app, !elem_of_filter_ne. naive_solver.
Qed.

Lemma finished_server s req h q hd ns n' : db_servers (finished s req h q hd) !! ns = Some n' → ∃ n, db_servers s !! ns = Some n ∧ ns_probe n' = ns_probe n.
Proof.
  cbn. destruct (rq_ns q) as [x|]; [|by eauto]. destruct (decide (x = ns)) as [<-|Hne]; [|rewrite lookup_alter_ne by done; by eauto].
  rewrite lookup_alter_eq. destruct (db_servers s !! x) as [n|]; [|done]. intros [= <-]. exists n. split; [done|]. apply less_same.
Qed.

Lemma finished_servers s req h q hd ns : is_Some (db_servers s !! ns) → is_Some (db_servers (finished s req h q hd) !! ns).
Proof.
  intros [n Hn]. cbn. destruct (rq_ns q) as [x|]; [|by eauto]. destruct (decide (x = ns)) as [<-|Hne]; [|rewrite lookup_alter_ne by done; by eauto].
  rewrite lookup_alter_eq, Hn. by eauto.
Qed.

Lemma outer_finished cb X y s req h q hd : outer cb (h :: X) y s → db_requests s !! req = Some q → rq_handle q = Some h →
  db_handles s !! h = Some hd → h_current_req hd = Some req → h_pending_cb hd = true → outer cb X y (finished s req h q hd).
Proof.
  intros [O1 O2 O3 O4 OR O5 O6 O7 O8 O9 (O10 & O11 & O12)] Eq Eh Ehd Ecur Epend.
  assert (Hhs : db_handles (finished s req h q hd) = <[h := set_h_current_req None (set_h_search_origname None hd)]> (db_handles s)) by (cbn; by rewrite Epend).
  assert (Hsome : ∀ x, is_Some (db_handles (finished s req h q hd) !! x) ↔ is_Some (db_handles s !! x)).
  { intros x. rewrite Hhs. by_lookup h x; [rewrite Ehd; naive_solver|done]. }
  split; unfold waits_for in *; rewrite ?Hhs; try done.
  - intros h' hd'. by_lookup h h'; [intros [= <-]; cbn; split; [by apply O1 in Ehd as [? _]|done]|]. intros Hh'.
    destruct (O1 h' hd' Hh') as (E1 & E2 & E3). split; [done|]. split; [done|]. intros p Hp. destruct (E3 p Hp) as (Ep & Eph & HX).
    assert (p ≠ req) by (intros ->; unfold handle_of in Eph; rewrite Eq in Eph; cbn in Eph; congruence).
    split; [by apply elem_finished|]. split; [unfold handle_of; cbn; by rewrite lookup_delete_ne|]. intros Hpend. apply HX in Hpend. set_solver.
  - intros p q' Hp. cbn in Hp. apply lookup_delete_Some in Hp as [Hne Hp]. rewrite elem_finished. destruct (O2 p q' Hp) as (? & ? & ?). done.
  - intros d Hd. destruct (O3 d Hd) as (h' & hd' & E1 & E2 & E3 & E4). exists h'. by_lookup h h'; [|by exists hd'].
    exists (set_h_current_req None (set_h_search_origname None hd)). done.
  - intros h' hd'. by_lookup h h'; [intros _ _; by eapply O4|]. apply O4.
  - intros h' Hr. destruct (OR h' Hr) as (Hw & hd' & E1 & E2 & E3). split; [done|]. exists hd'. rewrite lookup_insert_ne by (intros <-; congruence). done.
  - intros h' ns Hh' Hcb. apply finished_servers. rewrite <- Hhs, Hsome in Hh'. by eapply O6.
  - intros ns n' h' (n & Hn & ->)%finished_server Hp. rewrite <- Hhs, Hsome. by eapply O7.
  - split; [|split].
    + intros p [z Hz]. cbn in Hz. apply lookup_delete_Some in Hz as [_ Hz]. eapply O10. eauto.
    + intros p. rewrite <- Hhs, Hsome. apply O11.
    + intros p [z Hz]. apply finished_server in Hz as (n & Hn & _). eapply O12. eauto.
Qed.

(** A handle that has a request. *)
Record active (s : evdns_base) (h req : Z) (pending : bool) (q : request) (hd : evdns_request) : Prop := {
  a_request : db_requests s !! req = Some q;
  a_handle : rq_handle q = Some h;
  a_lookup : db_handles s !! h = Some hd;
  a_current : h_current_req hd = Some req;
  a_pending : h_pending_cb hd = pending
}.

Lemma handle_active cb X y s h hd req : outer cb X y s → db_handles s !! h = Some hd → h_current_req hd = Some req →
  ∃ q, active s h req (h_pending_cb hd) q hd.
Proof.
  intros Ho Hh Hcur. destruct (o_handle _ _ _ _ Ho h hd Hh) as (_ & _ & H). destruct (H req Hcur) as (_ & Hq & _).
  unfold handle_of in Hq. destruct (db_requests s !! req) as [q|] eqn:Eq; [|done]. exists q. by split.
Qed.

(** A request in flight has a handle that waits for it. *)
Lemma queued_has_handle cb y s req : ok cb [] y s → req ∈ queued s → ∃ h q hd, active s h req false q hd.
Proof.
  intros [Hc Ho] Hreq. destruct (queued_valid s req Hc Hreq) as (q & h & hd & E1 & E2 & E3 & E4). exists h, q, hd. split; try done.
  destruct (o_handle _ _ _ _ Ho h hd E3) as (_ & _ & H). destruct (H req E4) as (_ & _ & Hp). destruct (h_pending_cb hd); [|done].
  specialize (Hp eq_refl). by apply elem_of_nil in Hp.
Qed.

Section handles.
Context `{DnsEnvOk}.
Implicit Types (cb : ghost) (calls : Z → evdns_callback) (X : list Z) (y : option Z).

Lemma active_queued cb X y s h req b q hd : outer cb X y s → active s h req b q hd → req ∈ queued s.
Proof. intros Ho [Hq _ _ _ _]. by apply (o_request _ _ _ _ Ho req q). Qed.

Lemma wp_schedule cb X y s h req q hd ttl err rep : ok cb X y s → active s h req false q hd →
  (rep = None → err = DNS_ERR_CANCEL → ∀ ns n, db_servers s !! ns = Some n → ns_probe n = Some h → y = Some h) →
  wp (reply_schedule_callback req ttl err rep)
    (λ _ s', (ok cb (h :: X) y s' ∧ evolve (.≠ h) s s') ∧ active s' h req true q (set_h_pending_cb true hd) ∧ db_servers s' = db_servers s ∧ inflight s' = inflight s) s.
Proof.
  intros [Hc Ho] Ha Hcan. destruct (Ha) as [A1 A2 A3 A4 A5]. unfold reply_schedule_callback. apply wp_bind, wp_ask. intros t. rewrite deferred_ok. cbn [negb].
  apply wp_bind. eapply wp_get; [exact A1|]. rewrite A2. apply wp_bind. eapply wp_upd_handle; [exact A3|]. apply wp_modify.
  destruct (o_request _ _ _ _ Ho req q A1) as (_ & (h' & Eh & Ecb) & Hty). assert (h' = h) as -> by congruence.
  set (d := mk_deferred (Some h) (rq_type q) (rq_callback q) ttl err rep).
  assert (Hok : ok cb (h :: X) y (scheduled s h hd d (S (db_tick s)))).
  { split; [by apply core_scheduled|]. eapply outer_scheduled; try done. unfold result_of. cbn. destruct rep; [done|]. by apply Hcan. }
  split; [split; [exact Hok|]|].
  - split; [done|done| |by eauto|done]. intros x Hx. cbn. by rewrite lookup_insert_ne.
  - split; [|done]. split; try done. cbn. by rewrite lookup_insert_eq.
Qed.

(** No nameserver goes up. *)
Definition lowers (s s' : evdns_base) : Prop := ∀ ns, state_of s ns = Some false → state_of s' ns = Some false.

Lemma wp_finish cb X y s h req q hd : ok cb (h :: X) y s → active s h req true q hd →
  wp (request_finished req (match rq_ns q with Some _ => Inflight (bucket s (rq_trans_id q)) | None => Waiting end) true)
    (λ _ s', (ok cb X y s' ∧ evolve (.≠ h) s s') ∧ lowers s s') s.
Proof.
  intros [Hc Ho] Ha. assert (Hq := active_queued _ _ _ _ _ _ _ _ _ Ho Ha). destruct Ha as [A1 A2 A3 A4 A5].
  eapply wp_mono; [eapply wp_request_finished; try done; [apply Ho|by eapply (o_handle _ _ _ _ Ho)]|]. cbn beta. intros _ s' Hp.
  assert (Hfin : ok cb X y (finished s req h q hd)) by (split; [by apply core_finished|by apply outer_finished]).
  split; [split|].
  - by eapply ok_pump.
  - etrans; [|by apply pump_evolve]. split; [done|intros ns; apply finished_servers|..].
    + intros x Hx. cbn. rewrite A5. by rewrite lookup_insert_ne.
    + intros ns n' x (n & Hn & ->)%finished_server Hx. eauto.
    + intros x p Hx Hcur Hin. unfold inflight. cbn. rewrite join_filter. apply elem_of_filter_ne. split; [|done]. intros ->.
      unfold current_of in Hcur. destruct (db_handles s !! x) as [hx|] eqn:Ex; [|done]. destruct (o_handle _ _ _ _ Ho x hx Ex) as (_ & _ & Hx').
      destruct (Hx' req Hcur) as (_ & Hx2 & _). unfold handle_of in Hx2. rewrite A1 in Hx2. cbn in Hx2. congruence.
  - intros ns Hns. apply (f_lowers _ _ (proj1 (proj2 Hp))). unfold state_of in *. destruct (db_servers s !! ns) as [n|] eqn:En; [|done].
    cbn. destruct (rq_ns q) as [x|]; [|by rewrite En]. destruct (decide (x = ns)) as [<-|]; [|by rewrite lookup_alter_ne, En by done].
    rewrite lookup_alter_eq, En. cbn. by destruct (less_same (db_options s) n) as [-> _].
Qed.

Lemma wp_finish_inflight cb X y s h req q hd : ok cb (h :: X) y s → active s h req true q hd → req ∈ inflight s →
  wp (head ← inflight_list req; request_finished req head true) (λ _ s', ok cb X y s' ∧ evolve (.≠ h) s s') s.
Proof.
  intros Hok Ha Hin. destruct (inflight_inv s req (proj1 Hok) Hin) as (q' & ns & n & Eq & En & _). assert (q' = q) as -> by (destruct Ha; congruence).
  apply wp_bind. unfold inflight_list. apply wp_bind. eapply wp_get; [exact Eq|]. apply wp_bind, wp_REQ_HEAD, wp_ret.
  pose proof (wp_finish cb X y s h req q hd Hok Ha) as Hw. rewrite En in Hw. eapply wp_mono; [exact Hw|]. by intros _ s' [? _].
Qed.

(** A request is cancelled: its callback is scheduled. *)
Lemma wp_cancel cb X y s h : ok cb X y s → is_Some (db_handles s !! h) →
  (∀ ns n, db_servers s !! ns = Some n → ns_probe n = Some h → y = Some h) →
  wp (evdns_cancel_request h) (λ _ s', (ok cb X y s' ∧ evolve (.≠ h) s s') ∧ lowers s s') s.
Proof.
  intros Hok [hd Hh] Hy. destruct (Hok) as [Hc Ho]. unfold evdns_cancel_request. apply wp_bind. eapply wp_get; [exact Hh|].
  assert (Hsame : (ok cb X y s ∧ evolve (.≠ h) s s) ∧ lowers s s) by (split; [done|by intros ns]).
  destruct (h_current_req hd) as [req|] eqn:Ecur; [|by apply wp_ret]. destruct (h_pending_cb hd) eqn:Epend; [by apply wp_ret|].
  destruct (handle_active cb X y s h hd req Ho Hh Ecur) as [q Ha]. rewrite Epend in Ha.
  assert (Hq := active_queued _ _ _ _ _ _ _ _ _ Ho Ha). apply wp_bind, wp_valid; [by apply queued_valid|].
  apply wp_bind. eapply wp_mono; [apply (wp_schedule cb X y s h req q hd); [done..|by intros _ _]|]. cbn beta. intros _ s1 ((Hok1 & He1) & Ha1 & Es1 & _).
  apply wp_bind. eapply wp_get; [apply Ha1|]. eapply (wp_mono _ (λ _ s2, (ok cb X y s2 ∧ evolve (.≠ h) s1 s2) ∧ lowers s1 s2)).
  2:{ intros _ s2 [[? He2] Hl]. split; [split; [done|by etrans]|]. intros ns Hns. apply Hl. unfold state_of. by rewrite Es1. }
  pose proof (wp_finish cb X y s1 h req q _ Hok1 Ha1) as Hw. destruct (rq_ns q) as [ns|] eqn:En; [|done].
  unfold inflight_list. apply wp_bind, wp_bind. eapply wp_get; [apply Ha1|]. by apply wp_bind, wp_REQ_HEAD, wp_ret.
Qed.

(** ** Nameservers go up and down *)

Lemma ok_weaken cb X s y : ok cb X None s → ok cb X y s.
Proof. intros [Hc []]. split; [done|]. split; try done. naive_solver. Qed.

Lemma outer_ns cb X y s ns n n' g : outer cb X y s → db_servers s !! ns = Some n → ns_probe n' = ns_probe n →
  outer cb X y (set_db_good g (set_db_servers (<[ns := n']> (db_servers s)) s)).
Proof.
  intros [O1 O2 O3 O4 OR O5 O6 O7 O8 O9 (O10 & O11 & O12)] Hn Ep.
  assert (Hsome : ∀ x, is_Some (<[ns := n']> (db_servers s) !! x) ↔ is_Some (db_servers s !! x)) by (intros x; by_lookup ns x; [rewrite Hn; naive_solver|done]).
  split; try done; cbn.
  - intros h x Hh Hcb. rewrite Hsome. by eapply O6.
  - intros x nx h. by_lookup ns x; [intros [= <-]; rewrite Ep; by apply O7|apply O7].
  - do 2 (split; [done|]). intros x. rewrite Hsome. apply O12.
Qed.

(** The probe of a nameserver is forgotten. *)
Lemma ok_no_probe cb X y s ns n : ok cb X y s → db_servers s !! ns = Some n → (∀ h, y = Some h → cb h = ProbeCb ns) →
  ok cb X None (set_db_servers (<[ns := set_ns_probe None n]> (db_servers s)) s).
Proof.
  intros [Hc [O1 O2 O3 O4 OR O5 O6 O7 O8 O9 (O10 & O11 & O12)]] Hn Hy.
  assert (Hsome : ∀ x, is_Some (<[ns := set_ns_probe None n]> (db_servers s) !! x) ↔ is_Some (db_servers s !! x)) by (intros x; by_lookup ns x; [rewrite Hn; naive_solver|done]).
  split.
  - apply (core_transfer s); try done; intros x; unfold state_of, count_of; cbn; by_lookup ns x; by rewrite ?Hn.
  - split; try done; cbn.
    + intros h x Hh Hcb. rewrite Hsome. by eapply O6.
    + intros x nx h. by_lookup ns x; [by intros [= <-]|]. intros Hx Hp. destruct (O7 x nx h Hx Hp) as (E1 & E2 & E3). split; [done|]. split; [done|].
      intros _. apply E3. intros Ey. apply Hy in Ey. congruence.
    + do 2 (split; [done|]). intros x. rewrite Hsome. apply O12.
Qed.

Lemma evolve_ns P s ns n n' g : db_servers s !! ns = Some n → (∀ h, ns_probe n' = Some h → ns_probe n = Some h) →
  evolve P s (set_db_good g (set_db_servers (<[ns := n']> (db_servers s)) s)).
Proof.
  intros Hn Hp. split; try done; cbn.
  - intros x Hx. by_lookup ns x; eauto.
  - intros x nx h. by_lookup ns x; [intros [= <-]|]; eauto.
Qed.

Lemma wp_no_probe cb X y s ns : ok cb X y s → is_Some (db_servers s !! ns) → (∀ h, y = Some h → cb h = ProbeCb ns) →
  wp (upd_ns ns (set_ns_probe None)) (λ _ s', ok cb X None s' ∧ evolve (λ _, True) s s') s.
Proof.
  intros Hok [n Hn] Hy. eapply wp_upd_ns; [exact Hn|]. split; [by eapply ok_no_probe|]. by apply (evolve_ns _ s ns n _ (db_good s)).
Qed.

Lemma wp_ns_good cb X y s ns f P : ok cb X y s → is_Some (db_servers s !! ns) → (∀ n, same_ns n (f n)) →
  wp (upd_ns ns f) (λ _ s', ok cb X y s' ∧ evolve P s s') s.
Proof. intros Hok Hns Hf. apply wp_good_ok; [done|]. apply wp_upd_ns_good; [apply Hok|done..]. Qed.

Lemma wp_nameserver_up cb X s ns n : ok cb X None s → db_servers s !! ns = Some n →
  wp (nameserver_up ns) (λ _ s', ok cb X None s' ∧ evolve (λ h, ns_probe n ≠ Some h) s s') s.
Proof.
  intros Hok Hn. unfold nameserver_up. apply wp_bind. eapply wp_get; [exact Hn|]. destruct (ns_state n) eqn:Est; [by apply wp_ret|].
  apply wp_bind. eapply wp_upd_ns; [exact Hn|]. set (s1 := set_db_servers _ s).
  assert (Hg1 : good_step s s1) by (eapply upd_ns_good; [apply Hok|done..]). assert (Hok1 : ok cb X None s1) by eauto with ev.
  assert (Hns1 : is_Some (db_servers s1 !! ns)) by (cbn; rewrite lookup_insert_eq; eauto).
  eapply wp_evolve; [by apply good_evolve|].
  assert (Hdown : state_of s1 ns = Some false) by (unfold state_of; cbn; by rewrite lookup_insert_eq, <- Est).
  apply wp_bind. eapply (wp_mono _ (λ _ s2, (ok cb X None s2 ∧ evolve (λ h, ns_probe n ≠ Some h) s1 s2) ∧ state_of s2 ns = Some false)).
  { destruct (ns_probe n) as [h|] eqn:Ep; [|by apply wp_ret].
    destruct (o_probe _ _ _ _ (proj2 Hok) ns n h Hn Ep) as (Ecb & Hh & _).
    apply wp_bind. eapply wp_mono; [apply (wp_cancel cb X (Some h)); [by apply ok_weaken|done|done]|].
    cbn beta. intros _ s2 [[Hok2 He2] Hl2]. assert (Hd2 := Hl2 ns Hdown). unfold state_of in Hd2. destruct (db_servers s2 !! ns) as [n2|] eqn:En2; [|done].
    eapply wp_upd_ns; [exact En2|]. split; [split|].
    - apply (ok_no_probe cb X (Some h)); [done..|by intros ? [= <-]].
    - etrans; [eapply evolve_weaken; [exact He2|]; intros h' Hh' ->; by apply Hh'|]. by apply (evolve_ns _ s2 ns n2 _ (db_good s2)).
    - unfold state_of. cbn. rewrite lookup_insert_eq. done. }
  cbn beta. intros _ s2 [[Hok2 He2] Hd2]. eapply wp_evolve; [exact He2|]. unfold state_of in Hd2. destruct (db_servers s2 !! ns) as [n2|] eqn:En2; [|done].
  apply wp_bind. eapply wp_upd_ns; [exact En2|]. apply wp_modify. split.
  - split; [|by apply (outer_ns _ _ _ _ _ n2); [apply Hok2|..]]. apply (core_state s2 ns n2); [apply Hok2|done..|]. injection Hd2 as ->. cbn. lia.
  - by apply (evolve_ns _ s2 ns n2).
Qed.

(** ** Timeouts and replies *)

Lemma wp_probe_failed cb X y s ns P : ok cb X y s → is_Some (db_servers s !! ns) →
  wp (nameserver_probe_failed ns) (λ _ s', ok cb X y s' ∧ evolve P s s') s.
Proof.
  intros Hok Hns. apply wp_good_ok; [done|]. destruct Hok as [Hc _]. unfold nameserver_probe_failed.
  apply (wp_then _ _ (λ _ _, True)); [by apply wp_good, wp_upd_ns_good|]. intros _ s1 Hg1 _.
  destruct (good_server _ _ _ Hg1 Hns) as [n Hn]. apply wp_bind. eapply wp_get; [exact Hn|].
  destruct (ns_state n); [apply wp_ret, good_refl; eauto with ev|]. apply wp_bind, wp_gets.
  apply (wp_then _ _ (λ _ _, True)); [apply wp_good, wp_upd_ns_good; [eauto with ev..|done]|]. intros _ s2 Hg2 _.
  apply wp_add_ns_timer; eauto with ev.
Qed.

(** The callback is scheduled with a result that is not [DNS_ERR_CANCEL], and the
    request is finished. *)
Lemma wp_conclude cb s req ttl err rep : ok cb [] None s → req ∈ inflight s → err ≠ DNS_ERR_CANCEL →
  wp (reply_schedule_callback req ttl err rep;; head ← inflight_list req; request_finished req head true)
    (λ _ s', ok cb [] None s' ∧ evolve (λ _, False) s s') s.
Proof.
  intros Hok Hin Herr. destruct (queued_has_handle cb None s req Hok) as (h & q & hd & Ha); [by apply in_queued|].
  apply wp_bind. eapply wp_mono; [eapply (wp_schedule cb [] None s h req q hd); [done..|]; by intros _ ?|]. cbn beta.
  intros _ s1 ((Hok1 & He1) & Ha1 & _ & Hi1). eapply wp_mono; [eapply wp_finish_inflight; [exact Hok1|exact Ha1|by rewrite Hi1]|].
  cbn beta. intros _ s2 [? He2]. split; [done|]. etrans; (eapply evolve_weaken; [|by intros ? []]); [exact He1|exact He2].
Qed.

Lemma wp_reassoc {A B} (m1 : dns A) (m2 : dns B) (m3 : B → dns unit) (k : dns unit) (Q : unit → evdns_base → Prop) s :
  wp ((m1;; b ← m2; m3 b);; k) Q s → wp (m1;; b ← m2; m3 b;; k) Q s.
Proof.
  intros (a & s' & E & HQ). exists a, s'. split; [|done]. unfold mbind, dns_bind in *.
  destruct (m1 s) as [[? s1]|]; [|done]. destruct (m2 s1) as [[b s2]|]; done.
Qed.

Lemma wp_timeout cb s req : ok cb [] None s → req ∈ inflight s →
  wp (evdns_request_timeout_callback req) (λ _ s', ok cb [] None s' ∧ evolve (λ _, False) s s') s.
Proof.
  intros Hok Hin. destruct (Hok) as [Hc _]. unfold evdns_request_timeout_callback. apply wp_bind, wp_get_in; [done..|]. intros q ns n Eq En Es _.
  apply wp_bind, wp_gets. destruct (_ <=? _).
  - rewrite En. apply wp_reassoc. eapply wp_seq; [by apply wp_conclude|]. intros _ s1 Hok1 He1. apply wp_good_ok; [done|].
    apply wp_nameserver_failed; [apply Hok1|]. eapply e_servers; eauto.
  - apply wp_good_ok; [done|]. apply (wp_then _ _ (λ _ _, True)); [by apply wp_good, wp_upd_req_good|]. intros _ s1 Hg1 _.
    eapply wp_then; [apply wp_pick_good; eauto with ev|]. intros picked s2 Hg2 Hp.
    assert (Hin2 : req ∈ inflight s2) by eauto with ev. assert (Hc2 : core s2) by eauto with ev.
    apply (wp_then _ _ (λ _ _, True)); [by apply wp_good, wp_request_swap_ns|]. intros _ s3 Hg3 _.
    assert (Hin3 : req ∈ inflight s3) by eauto with ev. assert (Hc3 : core s3) by eauto with ev.
    apply (wp_then _ _ (λ _ _, True)); [by apply wp_good, wp_transmit|]. intros _ s4 Hg4 _.
    assert (Hin4 : req ∈ inflight s4) by eauto with ev. assert (Hc4 : core s4) by eauto with ev.
    apply wp_bind, wp_get_in; [done..|]. intros q4 ns4 n4 Eq4 -> Es4 _.
    apply (wp_then _ _ (λ _ _, True)); [apply wp_good, wp_upd_ns_good; [done|eauto|done]|]. intros _ s5 Hg5 _.
    assert (Hc5 : core s5) by eauto with ev. assert (Hs5 : is_Some (db_servers s5 !! ns4)) by (eapply good_server; eauto). destruct Hs5 as [n5 Hn5].
    apply wp_bind. eapply wp_get; [exact Hn5|]. destruct (_ <? _); [|by apply wp_ret, good_refl].
    apply (wp_then _ _ (λ _ _, True)); [apply wp_good, wp_upd_ns_good; [done|eauto|done]|]. intros _ s6 Hg6 _.
    apply wp_nameserver_failed; [eauto with ev|]. eapply good_server; eauto.
Qed.

Lemma reply_error_not_cancel flags rep : reply_error flags rep ≠ DNS_ERR_CANCEL.
Proof.
  unfold reply_error. destruct (flags &? 512); [done|]. destruct (flags &? 15).
  - destruct (_ <? _); [done|]. destruct (Z.to_nat _) as [|[|[|[|[|k]]]]]; done.
  - destruct rep as [r|]; [by destruct (rp_have_answer r)|done].
Qed.

Lemma wp_reply_failed cb s req ttl err : ok cb [] None s → req ∈ inflight s → err ≠ DNS_ERR_CANCEL →
  wp (reply_failed req ttl err) (λ _ s', ok cb [] None s' ∧ evolve (λ _, False) s s') s.
Proof.
  intros Hok Hin Herr. destruct (queued_has_handle cb None s req Hok) as (h & q & hd & [A1 A2 A3 A4 A5]); [by apply in_queued|].
  unfold reply_failed. apply wp_bind. eapply wp_get; [exact A1|]. rewrite A2. apply wp_bind. eapply wp_get; [exact A3|].
  destruct (o_handle _ _ _ _ (proj2 Hok) h hd A3) as [Ess _]. rewrite bool_decide_true by done. cbn [orb]. apply wp_bind, wp_ret. by apply wp_conclude.
Qed.

Lemma wp_request_reissue s req : core s → req ∈ inflight s → wp (request_reissue req) (λ _, good_step s) s.
Proof.
  intros Hc Hin. unfold request_reissue. apply wp_bind, wp_valid_inflight; [done..|]. apply wp_bind, wp_get_in; [done..|]. intros q ns n Eq En Es _.
  eapply wp_then; [by apply wp_pick_good|]. intros picked s1 Hg1 Hp.
  assert (Hin1 : req ∈ inflight s1) by eauto with ev. assert (Hc1 : core s1) by eauto with ev.
  apply (wp_then _ _ (λ _ _, True)); [by apply wp_good, wp_request_swap_ns|]. intros _ s2 Hg2 _.
  assert (Hin2 : req ∈ inflight s2) by eauto with ev. assert (Hc2 : core s2) by eauto with ev.
  apply wp_bind, wp_get_in; [done..|]. intros q2 ns2 n2 Eq2 En2 Es2 _. case_bool_decide; [by apply wp_ret, good_refl|].
  apply (wp_then _ _ (λ _ _, True)); [by apply wp_good, wp_upd_req_good|intros; apply wp_ret, good_refl; eauto with ev].
Qed.

(** The nameserver of a request is up; the handle of the request is not touched. *)
Lemma wp_server_is_up cb X s h req q : ok cb X None s → req ∈ inflight s → db_requests s !! req = Some q → rq_handle q = Some h →
  wp (server_is_up req) (λ _ s', ok cb X None s' ∧ evolve (.= h) s s') s.
Proof.
  intros Hok Hin Eq Eh. unfold server_is_up. apply wp_bind, wp_get_in; [apply Hok|done|]. intros q' ns n Eq' En Es _. assert (q' = q) as -> by congruence.
  rewrite En, Eh. apply wp_bind. eapply wp_get; [exact Es|]. case_bool_decide as Ep.
  - apply wp_bind. eapply wp_upd_ns; [exact Es|]. pose proof (ok_no_probe cb X None s ns n Hok Es ltac:(done)) as Hok1.
    eapply wp_evolve; [by apply (evolve_ns _ s ns n _ (db_good s))|].
    eapply wp_mono; [eapply wp_nameserver_up; [exact Hok1|cbn; apply lookup_insert_eq]|]. cbn beta. intros _ s' [? He]. split; [done|].
    by eapply evolve_weaken.
  - apply wp_bind, wp_ret. eapply wp_mono; [by eapply wp_nameserver_up|]. cbn beta. intros _ s' [? He]. split; [done|].
    eapply evolve_weaken; [exact He|]. intros ? ->. congruence.
Qed.

Lemma handle_current s h hd req : db_handles s !! h = Some hd → h_current_req hd = Some req → current_of s h = Some req.
Proof. intros E ?. unfold current_of. by rewrite E. Qed.

Lemma wp_reply_handle cb s req flags ttl rep : ok cb [] None s → req ∈ inflight s →
  wp (reply_handle req flags ttl rep) (λ _ s', ok cb [] None s' ∧ evolve (λ _, False) s s') s.
Proof.
  intros Hok Hin. destruct (Hok) as [Hc _]. pose proof (reply_error_not_cancel flags rep) as Herr.
  destruct (queued_has_handle cb None s req Hok) as (h & q & hd & Ha); [by apply in_queued|]. destruct (Ha) as [A1 A2 A3 A4 A5].
  unfold reply_handle. apply wp_bind, wp_valid_inflight; [done..|]. destruct (_ || _).
  - apply wp_bind. eapply wp_get; [exact A1|]. apply wp_bind, wp_gets. destruct (_ || _).
    + destruct (_ <? _); [|by apply wp_reply_failed]. destruct (inflight_inv s req Hc Hin) as (q' & ns & n & Eq & En & Es & _).
      assert (q' = q) as -> by congruence. rewrite En.
      apply wp_bind. eapply wp_mono; [apply wp_nameserver_failed; eauto|]. cbn beta. intros _ s1 Hg1.
      apply wp_bind. eapply wp_mono; [apply wp_request_reissue; eauto with ev|]. cbn beta. intros r s2 Hg2.
      assert (Hg : good_step s s2) by (by eapply good_trans). destruct (r =? 0); [apply wp_ret; split; [by eapply ok_good|by apply good_evolve]|].
      eapply wp_evolve; [by apply good_evolve|]. apply wp_reply_failed; [by eapply ok_good|by eapply good_in|done].
    + destruct (_ =? _); [by apply wp_timeout|].
      apply wp_bind. eapply wp_mono; [by eapply wp_server_is_up|]. cbn beta. intros _ s1 [Hok1 He1].
      eapply wp_evolve; [eapply evolve_weaken; [exact He1|by intros ? []]|]. apply wp_reply_failed; [done| |done].
      eapply (e_inflight _ _ _ He1 h); [done|by eapply handle_current|done].
  - apply wp_bind. eapply wp_mono; [eapply (wp_schedule cb [] None s h req q hd); [done..|by intros _ ?]|]. cbn beta.
    intros _ s1 ((Hok1 & He1) & Ha1 & _ & Hi1). assert (Hin1 : req ∈ inflight s1) by (by rewrite Hi1).
    eapply wp_evolve; [eapply evolve_weaken; [exact He1|by intros ? []]|].
    apply wp_bind. eapply wp_mono; [eapply wp_server_is_up; [exact Hok1|done|apply Ha1|done]|]. cbn beta. intros _ s2 [Hok2 He2].
    eapply wp_evolve; [eapply evolve_weaken; [exact He2|by intros ? []]|].
    assert (Eh2 : db_handles s2 !! h = Some (set_h_pending_cb true hd)) by (rewrite (e_handles _ _ _ He2 h eq_refl); apply Ha1).
    destruct (handle_active cb [h] None s2 h _ req (proj2 Hok2) Eh2 A4) as [q2 Ha2].
    eapply wp_mono; [eapply wp_finish_inflight; [exact Hok2|exact Ha2|]|].
    + eapply (e_inflight _ _ _ He2 h); [done|eapply handle_current; [apply Ha1|done]|done].
    + cbn beta. intros _ s3 [? He3]. split; [done|]. eapply evolve_weaken; [exact He3|by intros ? []].
Qed.

Lemma wp_reply_parse cb s hmax dup packet : ok cb [] None s → Forall is_byte packet → 0 <= hmax →
  wp (reply_parse hmax dup packet) (λ _ s', ok cb [] None s' ∧ evolve (λ _, False) s s') s.
Proof.
  intros Hok Hb Hh. destruct (Hok) as [Hc _]. unfold reply_parse. pose proof (get_header_safe packet Hb) as Hsafe.
  destruct (get_header packet) as [[[[[[[id flags] qd] an] au] ad] j]| |]; [|by apply wp_ret|done]. cbn in Hsafe.
  apply wp_bind. eapply wp_mono; [apply wp_find; eauto with ev|]. cbn beta. intros [req|] s' [-> Hf]; [|by apply wp_ret]. destruct Hf as [Hin _].
  assert (Hend : ∀ flags ttl rep x s, ok cb [] None s → req ∈ inflight s →
    wp (reply_handle req flags ttl rep;; mret x) (λ (_ : Z) s', ok cb [] None s' ∧ evolve (λ _, False) s s') s).
  { intros. eapply wp_seq; [by apply wp_reply_handle|]. intros _ s1 Hok1 He1. by apply wp_ret. }
  destruct (negb _); [by apply wp_ret|]. destruct (_ && _); [by apply Hend|].
  apply wp_bind, wp_get_in; [done..|]. intros q ns n Eq En Es _. apply wp_bind, wp_gets.
  destruct (c_packets s Hc req (rq_request q)) as [Hpk _]; [unfold packet_of; by rewrite Eq|].
  pose proof (parse_answer_safe packet Hb hmax dup (rq_type q) (o_randomize_case (db_options s)) (rq_request q) qd an au j (rq_put_cname q) Hpk Hh Hsafe) as Hs.
  destruct (parse_answer _ _ _ _ _ _ _ _ _ _ _) as [cname res]. cbn in Hs.
  apply wp_bind. eapply wp_mono; [by apply (wp_upd_req_good req _ s)|]. cbn beta. intros _ s1 Hg1. eapply wp_evolve; [by apply good_evolve|].
  assert (Hok1 : ok cb [] None s1) by (by eapply ok_good). assert (Hin1 : req ∈ inflight s1) by eauto with ev.
  destruct res as [[ttl rep]| |]; [by apply Hend..|done].
Qed.

Lemma wp_read cb hmax dup ns packets failed : 0 <= hmax → Forall (λ '(_, p), Forall is_byte p) packets → ∀ s, ok cb [] None s → is_Some (db_servers s !! ns) →
  wp (nameserver_read hmax dup ns packets failed) (λ _ s', ok cb [] None s' ∧ evolve (λ _, False) s s') s.
Proof.
  intros Hh Hp. induction Hp as [|[from packet] packets Hb Hp IH]; intros s Hok Hns; cbn [nameserver_read].
  - destruct failed; [|by apply wp_ret]. apply wp_good_ok; [done|]. apply wp_nameserver_failed; [apply Hok|done].
  - destruct (negb from); [by apply wp_ret|]. unfold nameserver_packet.
    eapply wp_seq.
    + eapply wp_seq; [by apply wp_ns_good|]. intros _ s1 Hok1 He1. eapply wp_seq; [by apply wp_reply_parse|]. intros ? s2 Hok2 He2. by apply wp_ret.
    + intros _ s1 Hok1 He1. apply IH; [done|]. by eapply e_servers.
Qed.

(** ** Scheduled callbacks run *)

Lemma core_deferred s ds : core s → core (set_db_deferred ds s).
Proof. intros Hc. by apply (core_transfer s). Qed.

(** The callback at the front starts. *)
Lemma ok_start_callback calls s d ds h : ok (mk_ghost calls None) [] None s → db_deferred s = d :: ds → d_handle d = Some h →
  ok (mk_ghost calls (Some h)) [] None (set_db_deferred ds s).
Proof.
  intros [Hc [O1 O2 O3 O4 OR O5 O6 O7 O8 O9 O10]] Ed Eh. split; [by apply core_deferred|].
  rewrite Ed in O5. cbn in O5. apply NoDup_cons in O5 as [Hn O5]. rewrite Eh in Hn.
  destruct (O3 d) as (h' & hd & E1 & E2 & E3 & _); [rewrite Ed; apply list_elem_of_here|]. assert (h' = h) as -> by congruence.
  split; unfold waits_for in *; cbn in *; try done.
  - intros d' Hd'. apply O3. rewrite Ed. by apply list_elem_of_further.
  - intros h' hd' Hh Hp Hne. specialize (O4 h' hd' Hh Hp ltac:(done)). rewrite Ed in O4. cbn in O4. apply elem_of_cons in O4 as [E|?]; [congruence|done].
  - intros ? [= <-]. split; [done|]. exists hd. do 2 (split; [done|]). destruct (h_current_req hd) as [p|] eqn:Ec; [|done].
    destruct (O1 h hd E2) as (_ & _ & Hx). destruct (Hx p Ec) as (_ & _ & Hx'). specialize (Hx' E3). by apply elem_of_nil in Hx'.
  - intros ns n x Hn' Hp. destruct (O7 ns n x Hn' Hp) as (? & ? & Hx). split; [done|]. split; [done|]. intros ? d' Hd'. apply Hx; [done|]. rewrite Ed. by apply list_elem_of_further.
Qed.

(** The callback is done and its handle is freed. *)
Lemma ok_free_handle calls s h : ok (mk_ghost calls (Some h)) [] None s → (∀ ns n, db_servers s !! ns = Some n → ns_probe n ≠ Some h) →
  ok (mk_ghost calls None) [] None (set_db_handles (delete h (db_handles s)) s).
Proof.
  intros [Hc [O1 O2 O3 O4 OR O5 O6 O7 O8 O9 (O10 & O11 & O12)]] Hprobe. destruct (OR h eq_refl) as (Hw & hd & E1 & E2 & E3).
  assert (Hsome : ∀ x, is_Some (delete h (db_handles s) !! x) → x ≠ h ∧ is_Some (db_handles s !! x)) by (intros x [z Hz]; apply lookup_delete_Some in Hz as [? ?]; eauto).
  split.
  - split; try apply Hc. intros p Hp. destruct (c_valid s Hc p Hp) as (x & Hx1 & Hx2). exists x. split; [done|]. unfold current_of in *. cbn.
    rewrite lookup_delete_ne; [done|]. intros <-. rewrite E1 in Hx2. cbn in Hx2. congruence.
  - split; unfold waits_for in *; cbn in *; try done.
    + intros x hx [_ Hx]%lookup_delete_Some. by apply O1.
    + intros d Hd. destruct (O3 d Hd) as (x & hx & F1 & F2 & F3). exists x, hx. rewrite lookup_delete_ne; [done|]. intros <-. apply Hw. apply list_elem_of_fmap. by exists d.
    + intros x hx [Hne Hx]%lookup_delete_Some Hp _. apply (O4 x hx Hx Hp). congruence.
    + intros x ns [_ Hx]%Hsome. by apply O6.
    + intros ns n x Hn Hp. destruct (O7 ns n x Hn Hp) as (F1 & Hx & F3). destruct Hx as [hx Hx]. split; [done|]. split; [|done]. rewrite lookup_delete_ne; [eauto|]. intros <-. by eapply Hprobe.
    + split; [done|]. split; [|done]. intros x [_ Hx]%Hsome. by apply O11.
Qed.

Lemma wp_run_deferred calls s : ok (mk_ghost calls None) [] None s → wp run_deferred (λ _ s', ok (mk_ghost calls None) [] None s') s.
Proof.
  intros Hok. unfold run_deferred. apply wp_bind, wp_gets. destruct (db_deferred s) as [|d ds] eqn:Ed; [by apply wp_ret|].
  destruct (o_deferred _ _ _ _ (proj2 Hok) d) as (h & hd & E1 & E2 & E3 & E4 & E5); [rewrite Ed; apply list_elem_of_here|].
  apply wp_bind, wp_modify. unfold reply_run_callback. apply wp_bind, wp_assert; [by destruct E5 as [-> | [-> | ->]]|].
  pose proof (ok_start_callback calls s d ds h Hok Ed E1) as Hok1. set (s1 := set_db_deferred ds s) in *.
  assert (Hcb : wp (match d_callback d with UserCb _ => mret () | ProbeCb ns => nameserver_probe_callback (result_of d) ns end)
    (λ _ s2, (ok (mk_ghost calls (Some h)) [] None s2 ∧ evolve (λ _, True) s1 s2) ∧ ∀ ns n, db_servers s2 !! ns = Some n → ns_probe n ≠ Some h) s1).
  { pose proof (o_probe _ _ _ _ (proj2 Hok)) as Hprobe. rewrite E4. cbn [g_cb]. destruct (calls h) as [id|ns] eqn:Ecb.
    - apply wp_ret. split; [done|]. intros ns n Hn Hp. destruct (Hprobe ns n h Hn Hp) as [E _]. cbn in E. congruence.
    - unfold nameserver_probe_callback. destruct (Z.eqb_spec (result_of d) DNS_ERR_CANCEL) as [Hc|Hc].
      + apply wp_ret. split; [done|]. intros x n Hn Hp. destruct (Hprobe x n h Hn Hp) as (_ & _ & Hx).
        apply (Hx ltac:(done) d); [rewrite Ed; apply list_elem_of_here|done|done].
      + assert (Hns : is_Some (db_servers s1 !! ns)) by (apply (o_cb _ _ _ _ (proj2 Hok) h); eauto). destruct Hns as [n Hn].
        apply wp_bind. eapply wp_upd_ns; [exact Hn|]. set (s2 := set_db_servers _ s1).
        assert (Hok2 : ok (mk_ghost calls (Some h)) [] None s2) by (eapply (ok_no_probe _ _ None); [done..|by intros]).
        assert (Hno : ∀ x nx, db_servers s2 !! x = Some nx → ns_probe nx ≠ Some h).
        { intros x nx. cbn. by_lookup ns x; [by intros [= <-]|]. intros Hx Hp. destruct (Hprobe x nx h Hx Hp) as [E _]. cbn in E. congruence. }
        assert (He2 : evolve (λ _, True) s1 s2) by (by apply (evolve_ns _ s1 ns n _ (db_good s1))).
        assert (Hn2 : db_servers s2 !! ns = Some (set_ns_probe None n)) by (cbn; apply lookup_insert_eq).
        eapply (wp_mono _ (λ _ s3, ok (mk_ghost calls (Some h)) [] None s3 ∧ evolve (λ _, True) s2 s3)).
        * destruct (_ || _); [|by apply wp_probe_failed; eauto]. eapply wp_mono; [by eapply wp_nameserver_up|]. cbn beta. intros _ s3 [? He3]. split; [done|]. by eapply evolve_weaken.
        * intros _ s3 [Hok3 He3]. split; [split; [done|by etrans]|]. intros x nx Hx Hp. destruct (e_probes _ _ _ He3 x nx h Hx Hp) as (n' & Hn' & Hp'). by eapply Hno. }
  apply wp_bind. eapply wp_mono; [exact Hcb|]. cbn beta. intros _ s2 [[Hok2 He2] Hno]. rewrite E1. apply wp_bind.
  assert (Eh2 : db_handles s2 !! h = Some hd) by (by rewrite (e_handles _ _ _ He2 h I)). eapply wp_get; [exact Eh2|]. rewrite E3. apply wp_modify. by apply ok_free_handle.
Qed.
End handles.
