(* ===== verification/DnsClientRuns.v ===== *)
(** * The DNS client: every run

    New requests and probes, adding nameservers and resizing the lists, the events
    of the environment and the calls of the user, and that no sequence of them
    gets stuck. *)

From stdpp Require Import gmap.
From S2P Require Import Prelude Clib Util TimeVal DnsPacket DnsNames DnsPacketProps DnsClient DnsClientInv DnsClientQueues DnsClientHandles.

Section runs.
Context `{DnsEnvOk}.
Implicit Types (calls : Z → evdns_callback).

(** ** New requests *)

(** A state that differs in requests that are not queued and in handles that are
    free. *)
Lemma core_agree s s' : core s → db_heads s' = db_heads s → db_waiting s' = db_waiting s → db_inflight s' = db_inflight s → db_nwaiting s' = db_nwaiting s →
  db_ring s' ≡ₚ db_ring s → db_good s' = db_good s → (∀ x, state_of s' x = state_of s x) → (∀ x, count_of s' x = count_of s x) →
  (∀ p, p ∈ queued s → db_requests s' !! p = db_requests s !! p) →
  (∀ h p, p ∈ queued s → current_of s h = Some p → current_of s' h = Some p) →
  (∀ p q, p ∉ queued s → db_requests s' !! p = Some q → (Forall is_byte (rq_request q) ∧ (2 <= length (rq_request q))%nat) ∧ rq_timeout q = false) → core s'.
Proof.
  intros [C1 C2 C3 C4 C5 C6 C7 C8 C9 C10 C11 C12 C13 C14] Eh Ew Ei En Er Eg Hst Hct Hreq Hcur Hnew.
  assert (Ein : inflight s' = inflight s) by (unfold inflight; congruence). assert (Eq : queued s' = queued s) by (unfold queued; congruence).
  assert (Hin : ∀ p, p ∈ inflight s → db_requests s' !! p = db_requests s !! p) by (intros; apply Hreq; eauto with ev).
  split; rewrite ?Eh, ?Ew, ?Ein, ?Eq, ?Er; try done; try congruence.
  - intros i l p Hl Hp. destruct (C3 i l p Hl Hp) as (id & ns & H1 & H2 & H3). exists id, ns. unfold id_of, ns_of, bucket in *.
    rewrite Hin, Eh, Hst by (by eapply in_inflight_2). done.
  - intros p Hp. unfold ns_of. rewrite Hreq by (apply elem_of_app; by right). by apply C4.
  - rewrite (list_fmap_ext (id_of s') (id_of s)); [done|]. intros i p Hp. unfold id_of. rewrite Hin; [done|]. by eapply list_elem_of_lookup_2.
  - intros p Hp. destruct (C6 p Hp) as (h & H1 & H2). exists h. unfold handle_of in *. rewrite Hreq by done. auto.
  - intros x. rewrite Er, Hst. apply C10.
  - rewrite Eg, C11. do 2 f_equal. apply list_filter_iff. intros x. by rewrite Hst.
  - intros x k. rewrite Hct. intros Hk. rewrite (C12 x k Hk). unfold load. rewrite Ein. do 2 f_equal. apply filter_in_iff. intros p Hp. unfold ns_of. by rewrite Hin.
  - intros p b. unfold packet_of. destruct (db_requests s' !! p) as [q|] eqn:E; [|done]. cbn. intros [= <-].
    destruct (decide (p ∈ queued s)) as [Hp|Hp]; [|by apply (Hnew p q)]. rewrite Hreq in E by done. apply (C13 p). unfold packet_of. by rewrite E.
  - intros p. unfold timer_of. destruct (db_requests s' !! p) as [q|] eqn:E; [|done]. cbn. intros [= Ht].
    destruct (decide (p ∈ queued s)) as [Hp|Hp]; [|destruct (Hnew p q Hp E); congruence]. rewrite Hreq in E by done. apply C14. unfold timer_of. rewrite E. cbn. congruence.
Qed.

(** A request is put at the end of the waiting list. *)
Lemma core_wait s req q h : core s → req ∉ queued s → db_requests s !! req = Some q → rq_ns q = None → rq_handle q = Some h → current_of s h = Some req →
  core (set_db_nwaiting (db_nwaiting s + 1) (set_db_waiting (db_waiting s ++ [req]) s)).
Proof.
  intros [C1 C2 C3 C4 C5 C6 C7 C8 C9 C10 C11 C12 C13 C14] Hn Eq Ens Eh Hcur.
  assert (Hq : queued (set_db_nwaiting (db_nwaiting s + 1) (set_db_waiting (db_waiting s ++ [req]) s)) = queued s ++ [req]) by (unfold queued; cbn; by rewrite app_assoc).
  split; try done.
  - rewrite Hq. apply NoDup_app. split; [done|]. split; [|apply NoDup_singleton]. intros x Hx ->%list_elem_of_singleton. done.
  - cbn. intros p [Hp|Hp%list_elem_of_singleton]%elem_of_app; [by apply C4|]. subst p. unfold ns_of. cbn. by rewrite Eq.
  - rewrite Hq. intros p [Hp|Hp%list_elem_of_singleton]%elem_of_app; [by apply C6|]. subst p. exists h. unfold handle_of. cbn. rewrite Eq. done.
  - cbn. rewrite length_app, C8. cbn. lia.
Qed.

(** What is to be known of a request that is submitted. *)
Definition submittable (s : evdns_base) (q : request) : Prop :=
  match rq_ns q with
  | None => True
  | Some ns => ns ∈ db_ring s ∧ 0 <= rq_trans_id q < 65535 ∧ ∀ p, p ∈ inflight s → id_of s p ≠ Some (rq_trans_id q)
  end.

Lemma wp_submit s req q h hd : core s → req ∉ queued s → active s h req false q hd → submittable s q →
  wp (request_submit req) (λ _ s', core s' ∧ frame s s' ∧ queued s' ≡ₚ req :: queued s) s.
Proof.
  intros Hc Hn [A1 A2 A3 A4 A5] Hsub. unfold request_submit.
  assert (Hvalid : ∃ q h hd, db_requests s !! req = Some q ∧ rq_handle q = Some h ∧ db_handles s !! h = Some hd ∧ h_current_req hd = Some req) by eauto 10.
  apply wp_bind, wp_valid; [done|]. apply wp_bind. eapply wp_get; [exact A1|]. unfold submittable in Hsub.
  assert (Hcur : current_of s h = Some req) by (by eapply handle_current).
  destruct (rq_ns q) as [ns|] eqn:Ens.
  - destruct Hsub as (Hns & Hid & Hfree). destruct (ring_server s ns Hc Hns) as [n Hsn].
    assert (Hnin : req ∉ inflight s) by eauto with ev. assert (Hnw : req ∉ db_waiting s) by (intros Hw; apply Hn, elem_of_app; by right).
    destruct (lookup_lt_is_Some_2 (db_heads s) (bucket s (rq_trans_id q))) as [l Hl]; [apply bucket_lt, Hc|].
    apply wp_bind, wp_REQ_HEAD. apply wp_bind. unfold evdns_request_insert. apply wp_bind, wp_valid; [done|]. apply wp_bind. eapply wp_get_list_in; [exact Hl|].
    apply wp_modify. apply wp_bind, wp_modify. apply wp_bind. eapply wp_upd_ns; [exact Hsn|].
    match goal with |- wp _ _ ?x => set (s1 := x) end.
    assert (Hc1 : core s1).
    { apply (core_enter s s1 req q ns h l); try done.
      - cbn. by rewrite filter_ne_notin.
      - apply Hc.
      - destruct (c_packets s Hc req (rq_request q)); [unfold packet_of; by rewrite A1|done].
      - intros x. unfold state_of. cbn. by_lookup ns x; [by rewrite Hsn|done].
      - unfold state_of. rewrite Hsn. eauto.
      - intros x. unfold count_of. cbn. by_lookup ns x; [by rewrite Hsn, bool_decide_true|]. rewrite bool_decide_false by done.
        destruct (db_servers s !! x); cbn; [|done]. f_equal. lia. }
    assert (Hin1 : inflight s1 ≡ₚ req :: inflight s) by (by apply join_snoc).
    assert (Hf1 : frame s s1).
    { split; try done; intros x; unfold state_of; cbn; by_lookup ns x; by rewrite ?Hsn. }
    apply wp_bind. eapply wp_mono; [apply wp_transmit; [done|rewrite Hin1; apply list_elem_of_here]|]. cbn beta. intros _ s2 Hg2. apply wp_ret.
    split; [eauto with ev|]. split; [etrans; [exact Hf1|eauto with ev]|]. rewrite (good_queued _ _ Hg2). unfold queued. by rewrite Hin1.
  - apply wp_bind. unfold evdns_request_insert. apply wp_bind, wp_valid; [done|]. apply wp_bind, wp_gets. apply wp_modify, wp_modify.
    split; [exact (core_wait s req q h Hc Hn A1 Ens A2 Hcur)|]. split; [by split|]. unfold queued. cbn. rewrite app_assoc. symmetry. apply Permutation_cons_append.
Qed.

(** ** The user's calls and probes *)

Lemma randomize_bytes bits name : Forall is_byte name → Forall is_byte (randomize bits name) ∧ len (randomize bits name) = len name.
Proof.
  intros Hb. unfold randomize. split; [|unfold len; by rewrite length_imap].
  apply Forall_lookup. intros i c. rewrite list_lookup_imap. destruct (name !! i) as [x|] eqn:E; [|done]. cbn. intros [= <-].
  rewrite Forall_lookup in Hb. specialize (Hb i x E). destruct (EVUTIL_ISALPHA_ x); [|done].
  pose proof (byte_cases (λ x, (0 <=? Z.lor x 32) && (Z.lor x 32 <? 256) && (0 <=? Z.land x (Z.lnot 32)) && (Z.land x (Z.lnot 32) <? 256)) eq_refl x Hb) as Hall. cbn beta in Hall.
  unfold is_byte. destruct (bits i); lia.
Qed.

(** The state when a request has been made for the handle [h]. *)
Definition created (s : evdns_base) (h : Z) (hd : evdns_request) (q : request) (r : list Z) (t : nat) : evdns_base :=
  set_db_tick t (set_db_ring r (set_db_next (db_next s + 1) (set_db_handles (<[h := set_h_current_req (Some (db_next s)) hd]> (db_handles s))
    (set_db_requests (<[db_next s := q]> (db_requests s)) s)))).

Definition fresh_request (s : evdns_base) (h type : Z) (c : evdns_callback) (q : request) : Prop :=
  rq_type q = type ∧ rq_callback q = c ∧ rq_handle q = Some h ∧ rq_timeout q = false ∧
  (Forall is_byte (rq_request q) ∧ (2 <= length (rq_request q))%nat) ∧ submittable s q.

Lemma wp_request_new s h hd type name c : core s → o_max_requests_inflight (db_options s) <= 65535 → Forall is_byte name → db_handles s !! h = Some hd →
  wp (request_new (Some h) type name c)
    (λ a s', match a with
             | None => ∃ t, s' = set_db_tick t s
             | Some req => req = db_next s ∧ ∃ q r t, s' = created s h hd q r t ∧ r ≡ₚ db_ring s ∧ fresh_request s h type c q
             end) s.
Proof.
  intros Hc Hmax Hb Hh. unfold request_new. apply wp_bind, wp_gets, wp_bind, wp_gets. set (now := _ <? _).
  apply wp_bind. eapply (wp_mono _ (λ id s', (∃ t, s' = set_db_tick t s) ∧ (now = true → 0 <= id < 65535 ∧ ∀ p, p ∈ inflight s → id_of s p ≠ Some id))).
  { destruct now eqn:En; [|apply wp_ret; split; [exists (db_tick s); by destruct s|done]]. apply Z.ltb_lt in En. rewrite (c_ninflight s Hc) in En.
    eapply wp_mono; [apply wp_transaction_id_pick; [eauto with ev|lia]|]. cbn beta. intros id s' [Ht Hid]. done. }
  intros id s1 [[t1 ->] Hid]. apply wp_bind, wp_ask. intros t2. destruct (negb _); [apply wp_ret; eauto|]. destruct (_ <=? _); [apply wp_ret; eauto|].
  apply wp_bind. eapply (wp_mono _ (λ name' s', (∃ t, s' = set_db_tick t s) ∧ Forall is_byte name' ∧ len name' = len name)).
  { destruct (o_randomize_case _); [|apply wp_ret; eauto]. apply wp_bind, wp_ask. intros t3. apply wp_ret. split; [eauto|by apply randomize_bytes]. }
  intros name' s1 ([t3 ->] & Hb' & Hlen).
  destruct (request_build_safe name' id type CLASS_INET (replicate (Z.to_nat (evdns_request_len (len name'))) 0)) as (rlen & buf & -> & Hbuf & Hr); [|done|].
  { pose proof (len_nonneg name'). split; [unfold len at 1, evdns_request_len; rewrite length_replicate; lia|]. by apply Forall_replicate. }
  destruct (Z.ltb_spec rlen 0); [apply wp_ret; eauto|].
  apply wp_bind. eapply (wp_mono _ (λ a s', ∃ t r, s' = set_db_tick t (set_db_ring r s) ∧ r ≡ₚ db_ring s ∧ ∀ ns, a = Some ns → now = true ∧ ns ∈ db_ring s)).
  { destruct now; [|apply wp_ret; exists t3, (db_ring s); split; [by destruct s|done]].
    assert (Hct : core (set_db_tick t3 s)) by (by apply (core_transfer s)).
    eapply wp_mono; [by apply wp_nameserver_pick|]. cbn beta. intros a s' [(r & -> & Hr') Ha]. exists t3, r. split; [done|]. split; [done|]. intros ns ->. by destruct Ha. }
  intros picked s1 (t4 & r & -> & Hr' & Hp). apply wp_bind. exists (db_next s). eexists. split; [done|].
  apply wp_bind, wp_modify. apply wp_bind. eapply wp_upd_handle; [exact Hh|]. apply wp_ret. split; [done|].
  eexists _, r, t4. split; [reflexivity|]. split; [done|]. do 4 (split; [done|]). split; [split|].
  - cbn. apply Forall_take, Hbuf.
  - cbn. rewrite length_take. unfold len in Hr. lia.
  - unfold submittable. cbn. destruct picked as [ns|]; [|done]. destruct (Hp ns eq_refl) as [Hn Hin]. split; [done|]. by apply Hid.
Qed.

(** The handle [h] with its request [req] is new in [s2], and the request has been
    queued in [s3]. *)
Lemma ok_new calls s s2 s3 h req q hd c : ok (mk_ghost calls None) [] None s →
  db_next s <= h < db_next s2 → db_next s <= req < db_next s2 →
  db_handles s2 = <[h := hd]> (db_handles s) → h_search_state hd = None → h_pending_cb hd = false → h_current_req hd = Some req →
  db_requests s2 = <[req := q]> (db_requests s) → rq_handle q = Some h → rq_callback q = c → known_type (rq_type q) →
  db_deferred s2 = db_deferred s → db_search s2 = db_search s → db_options s2 = db_options s → queued s2 = queued s →
  (∀ ns, is_Some (db_servers s !! ns) ↔ is_Some (db_servers s2 !! ns)) →
  (∀ ns n2 x, db_servers s2 !! ns = Some n2 → ns_probe n2 = Some x →
     (∃ n, db_servers s !! ns = Some n ∧ ns_probe n = Some x) ∨ (x = h ∧ c = ProbeCb ns)) →
  (∀ ns, c = ProbeCb ns → is_Some (db_servers s !! ns)) →
  core s3 → frame s2 s3 → queued s3 ≡ₚ req :: queued s2 → ∃ calls', ok (mk_ghost calls' None) [] None s3.
Proof.
  intros [Hc [O1 O2 O3 O4 OR O5 O6 O7 O8 O9 (O10 & O11 & O12)]] Hh Hreq Ehs Ess Epend Ecur Ers Eqh Eqc Eqt Ed Esr Eo Eq2 Hsv Hpr Hcp Hc3 Hf Hq.
  assert (Hhs : db_handles s !! h = None) by (destruct (db_handles s !! h) eqn:E; [|done]; specialize (O11 h ltac:(eauto)); lia).
  assert (Hrs : db_requests s !! req = None) by (destruct (db_requests s !! req) eqn:E; [|done]; specialize (O10 req ltac:(eauto)); lia).
  set (calls' := λ x, if decide (x = h) then c else calls x).
  assert (Hcb : ∀ x, is_Some (db_handles s !! x) → calls' x = calls x) by (intros x [z Hz]; unfold calls'; rewrite decide_False; [done|congruence]).
  assert (Hcbh : calls' h = c) by (unfold calls'; by rewrite decide_True).
  assert (Hdef : ∀ d, d ∈ db_deferred s → d_handle d ≠ Some h) by (intros d Hd E; destruct (O3 d Hd) as (x & hx & F1 & F2 & _); congruence).
  assert (Hadd : ∀ x z, <[h := hd]> (db_handles s) !! x = Some z → (x = h ∧ z = hd) ∨ (x ≠ h ∧ db_handles s !! x = Some z)).
  { intros x z. by_lookup h x; [intros [= <-]; by left|by right]. }
  exists calls'. split; [done|]. apply (outer_frame _ _ _ (set_db_waiting (db_waiting s2 ++ [req]) s2)); [|by destruct Hf|].
  2:{ rewrite Hq. unfold queued. cbn. rewrite app_assoc. apply Permutation_cons_append. }
  assert (Hqs : queued (set_db_waiting (db_waiting s2 ++ [req]) s2) = queued s ++ [req]) by (rewrite <- Eq2; unfold queued; cbn; by rewrite app_assoc).
  split; unfold waits_for in *; cbn in *; rewrite ?Ehs, ?Ed, ?Esr, ?Eo; try done.
  - intros x hx [[-> ->]|[Hne Hx]]%Hadd; rewrite ?Hqs.
    + split; [done|]. split; [congruence|]. intros p Hp. assert (p = req) as -> by congruence. unfold handle_of. cbn. rewrite Ers, lookup_insert_eq. split; [apply elem_of_app; right; apply list_elem_of_here|]. split; [done|congruence].
    + destruct (O1 x hx Hx) as (F1 & F2 & F3). split; [done|]. split; [done|]. intros p Hp. destruct (F3 p Hp) as (F4 & F5 & F6).
      assert (p ≠ req) by (intros ->; unfold handle_of in F5; by rewrite Hrs in F5). unfold handle_of in *. cbn. rewrite Ers, lookup_insert_ne by done. split; [apply elem_of_app; by left|done].
  - intros p q'. rewrite Ers, Hqs. by_lookup req p.
    + intros [= <-]. split; [apply elem_of_app; right; apply list_elem_of_here|]. split; [|done]. exists h. rewrite Hcbh. done.
    + intros Hp. destruct (O2 p q' Hp) as (F1 & (x & F2 & F3) & F4). split; [apply elem_of_app; by left|]. split; [|done]. exists x. split; [done|]. rewrite F3. symmetry. apply Hcb.
      destruct (c_valid s Hc p F1) as (x' & F5 & F6). unfold handle_of, current_of in *. rewrite Hp in F5. cbn in F5. assert (x' = x) as -> by congruence. destruct (db_handles s !! x); [eauto|done].
  - intros d Hd. destruct (O3 d Hd) as (x & hx & F1 & F2 & F3 & F4 & F5). exists x, hx. rewrite lookup_insert_ne by congruence. rewrite Hcb by eauto. done.
  - intros x hx [[-> ->]|[Hne Hx]]%Hadd; [congruence|]. by apply O4.
  - intros x ns Hx. destruct Hx as [z Hx]. apply Hadd in Hx as [[-> ->]|[Hne Hx]]; [rewrite Hcbh; intros Hn; apply Hsv; by apply Hcp|].
    rewrite Hcb by eauto. intros Hn. apply Hsv. eapply O6; eauto.
  - intros ns n x Hn Hp. destruct (Hpr ns n x Hn Hp) as [(n0 & Hn0 & Hp0)|[-> ->]].
    + destruct (O7 ns n0 x Hn0 Hp0) as (F1 & F2 & F3). rewrite Hcb by done. split; [done|]. split; [|done]. rewrite lookup_insert_ne; [done|]. intros <-. rewrite Hhs in F2. by destruct F2.
    + split; [done|]. rewrite lookup_insert_eq. split; [eauto|]. intros _ d Hd E. by destruct (Hdef d Hd).
  - split; [|split].
    + intros p. rewrite Ers. by_lookup req p; [lia|]. intros Hp. apply O10 in Hp. lia.
    + intros p Hp. destruct Hp as [z Hx]. apply Hadd in Hx as [[-> ->]|[Hne Hx]]; [lia|]. specialize (O11 p ltac:(eauto)). lia.
    + intros p Hp. apply Hsv, O12 in Hp. lia.
Qed.

Definition new_hd : evdns_request := mk_handle None false 0 None None 0.
(** The state when a handle has been made. *)
Definition with_handle (s : evdns_base) (t : nat) : evdns_base :=
  set_db_handles (<[db_next s := new_hd]> (db_handles s)) (set_db_next (db_next s + 1) (set_db_tick t s)).

Lemma fresh_handle calls s : ok (mk_ghost calls None) [] None s → db_handles s !! db_next s = None.
Proof. intros [_ Ho]. destruct (o_fresh _ _ _ _ Ho) as (_ & Hf & _). destruct (db_handles s !! db_next s) eqn:E; [|done]. specialize (Hf (db_next s) ltac:(eauto)). lia. Qed.

Lemma fresh_queued calls s p : ok (mk_ghost calls None) [] None s → db_next s <= p → p ∉ queued s.
Proof.
  intros [Hc Ho] Hp Hq. destruct (queued_valid s p Hc Hq) as (q & h & hd & Eq & _). destruct (o_fresh _ _ _ _ Ho) as (Hf & _). specialize (Hf p ltac:(eauto)). lia.
Qed.

Lemma core_with_handle calls s t : ok (mk_ghost calls None) [] None s → core (with_handle s t).
Proof.
  intros Hok. assert (Hn := fresh_handle calls s Hok). destruct (Hok) as [Hc Ho]. apply (core_agree s); try done.
  - intros h p _. unfold current_of. cbn. destruct (decide (db_next s = h)) as [<-|]; [by rewrite Hn|by rewrite lookup_insert_ne].
  - intros p q Hp Eq. cbn in Eq. by destruct (o_request _ _ _ _ Ho p q Eq).
Qed.

Lemma core_created calls s t q r t' : ok (mk_ghost calls None) [] None s → r ≡ₚ db_ring s → Forall is_byte (rq_request q) ∧ (2 <= length (rq_request q))%nat →
  rq_timeout q = false → core (created (with_handle s t) (db_next s) new_hd q r t').
Proof.
  intros Hok Hr Hb Ht. assert (Hn := fresh_handle calls s Hok). destruct (Hok) as [Hc Ho]. apply (core_agree s); try done.
  - intros p Hp. cbn. rewrite lookup_insert_ne; [done|]. intros <-. by apply (fresh_queued calls s (db_next s + 1) Hok ltac:(lia)).
  - intros h p _. unfold current_of. cbn. rewrite insert_insert_eq. destruct (decide (db_next s = h)) as [<-|]; [by rewrite Hn|by rewrite lookup_insert_ne].
  - intros p q' Hp. cbn. destruct (decide (db_next s + 1 = p)) as [<-|]; [rewrite lookup_insert_eq; by intros [= <-]|rewrite lookup_insert_ne by done]. intros Eq. by destruct (o_request _ _ _ _ Ho p q' Eq).
Qed.

(** A request for a new handle is made, and submitting it leads to a good state. *)
Lemma wp_new_submit calls s t type name id : ok (mk_ghost calls None) [] None s → known_type type → Forall is_byte name →
  wp (request_new (Some (db_next s)) type name (UserCb id))
    (λ a s', match a with
             | None => ∃ t', s' = with_handle s t'
             | Some req => wp (request_submit req) (λ _ s'', (∃ calls', ok (mk_ghost calls' None) [] None s'') ∧ current_of s'' (db_next s) = Some req) s'
             end) (with_handle s t).
Proof.
  intros Hok Hty Hb. assert (Hc0 := core_with_handle calls s t Hok). assert (Hn := fresh_handle calls s Hok).
  eapply wp_mono; [apply wp_request_new; [done|apply Hok|done|cbn; apply lookup_insert_eq]|]. cbn beta. intros [req|] s' Ha.
  2:{ destruct Ha as [t' ->]. by exists t'. }
  destruct Ha as (-> & q & r & t' & -> & Hr & Hq). destruct Hq as (Q1 & Q2 & Q3 & Q4 & Q5 & Q6).
  assert (Hc1 := core_created calls s t q r t' Hok Hr Q5 Q4). set (s1 := created _ _ _ _ _ _) in *.
  assert (Ehs : db_handles s1 = <[db_next s := set_h_current_req (Some (db_next s + 1)) new_hd]> (db_handles s)) by (cbn; by rewrite insert_insert_eq).
  assert (Ers : db_requests s1 !! (db_next s + 1) = Some q) by (cbn; apply lookup_insert_eq).
  eapply wp_mono; [apply (wp_submit s1 (db_next s + 1) q (db_next s) (set_h_current_req (Some (db_next s + 1)) new_hd))|].
  - done.
  - apply (fresh_queued calls s _ Hok). lia.
  - split; try done. rewrite Ehs. apply lookup_insert_eq.
  - unfold submittable in *. destruct (rq_ns q) as [ns|]; [|done]. destruct Q6 as (F1 & F2 & F3). split; [change (ns ∈ r); by rewrite Hr|]. split; [done|].
    intros p Hp. unfold id_of. cbn. rewrite lookup_insert_ne; [by apply F3|]. intros <-. apply (fresh_queued calls s (db_next s + 1) Hok ltac:(lia)). by apply in_queued.
  - cbn beta. intros _ s3 (Hc3 & Hf3 & Hq3). split.
    + apply (ok_new calls s s1 s3 (db_next s) (db_next s + 1) q (set_h_current_req (Some (db_next s + 1)) new_hd) (UserCb id)); try done; cbn; try lia; eauto. by rewrite Q1.
    + unfold current_of. rewrite (f_handles _ _ Hf3), Ehs, lookup_insert_eq. done.
Qed.

(** The invariant of the client, between two events. *)
Definition inv (s : evdns_base) : Prop := ∃ calls, ok (mk_ghost calls None) [] None s.

(** Time passes and an address is skipped. *)
Lemma inv_bump s t k : inv s → 0 <= k → inv (set_db_next (db_next s + k) (set_db_tick t s)).
Proof.
  intros [calls [Hc [O1 O2 O3 O4 OR O5 O6 O7 O8 O9 (O10 & O11 & O12)]]] Hk. exists calls. split; [by apply (core_transfer s)|].
  split; try done. cbn. split; [|split]; intros p Hp; [apply O10 in Hp|apply O11 in Hp|apply O12 in Hp]; lia.
Qed.

Lemma inv_freed s t calls : ok (mk_ghost calls None) [] None s → inv (set_db_handles (delete (db_next s) (db_handles (with_handle s t))) (with_handle s t)).
Proof.
  intros Hok. cbn. rewrite delete_insert_eq, delete_id by (by eapply fresh_handle).
  pose proof (inv_bump s t 1 (ex_intro _ calls Hok) ltac:(lia)) as Hi. by destruct s.
Qed.

Lemma wp_new_handle s (Q : option Z → evdns_base → Prop) : (∀ t, Q None (set_db_tick t s)) → (∀ t, Q (Some (db_next s)) (with_handle s t)) → wp new_handle Q s.
Proof.
  intros H1 H2. unfold new_handle. apply wp_bind, wp_ask. intros t. destruct (negb _); [apply wp_ret, H1|].
  apply wp_bind. eexists _, _. split; [done|]. apply wp_bind, wp_modify, wp_ret, H2.
Qed.

Lemma inv_tick s t : inv s → inv (set_db_tick t s).
Proof. intros Hi. pose proof (inv_bump s t 0 Hi ltac:(lia)) as Hi'. rewrite Z.add_0_r in Hi'. by destruct s. Qed.

(** A request was made and submitted, or the handle stays without one. *)
Definition made (s s' : evdns_base) : Prop := (∃ t, s' = with_handle s t) ∨ (inv s' ∧ is_Some (current_of s' (db_next s))).

Lemma wp_handle_or_null calls s s' : ok (mk_ghost calls None) [] None s → made s s' → wp (handle_or_null (db_next s)) (λ _, inv) s'.
Proof.
  intros Hok Hm. unfold handle_or_null. apply wp_bind. destruct Hm as [[t ->]|[Hi [p Hp]]].
  - eapply wp_get; [cbn; apply lookup_insert_eq|]. apply wp_bind, wp_modify, wp_ret. by eapply inv_freed.
  - unfold current_of in Hp. destruct (db_handles s' !! db_next s) as [hd|] eqn:E; [|done]. eapply wp_get; [exact E|]. cbn in Hp. rewrite Hp. by apply wp_ret.
Qed.

Lemma wp_make calls s t type name id : ok (mk_ghost calls None) [] None s → known_type type → Forall is_byte name →
  wp (req ← request_new (Some (db_next s)) type name (UserCb id); match req with None => mret tt | Some req => request_submit req end) (λ _, made s) (with_handle s t).
Proof.
  intros Hok Hty Hb. apply wp_bind. eapply wp_mono; [by eapply wp_new_submit|]. cbn beta. intros [req|] s' Ha; [|apply wp_ret; by left].
  eapply wp_mono; [exact Ha|]. cbn beta. intros _ s'' [Hi Hcur]. right. split; [done|]. rewrite Hcur. eauto.
Qed.

Lemma wp_make_opt calls s t type name id : ok (mk_ghost calls None) [] None s → known_type type → Forall is_byte name →
  wp (req ← request_new (Some (db_next s)) type name (UserCb id); match req with None => mret None | Some req => request_submit req;; mret (Some req) end)
    (λ _, made s) (with_handle s t).
Proof.
  intros Hok Hty Hb. apply wp_bind. eapply wp_mono; [by eapply wp_new_submit|]. cbn beta. intros [req|] s' Ha; [|apply wp_ret; by left].
  apply wp_bind. eapply wp_mono; [exact Ha|]. cbn beta. intros _ s'' [Hi Hcur]. apply wp_ret. right. split; [done|]. rewrite Hcur. eauto.
Qed.

Lemma wp_resolve s type name flags id : inv s → type = TYPE_A ∨ type = TYPE_AAAA → Forall is_byte name →
  wp (resolve type name flags (UserCb id)) (λ _, inv) s.
Proof.
  intros [calls Hok] Hty Hb. assert (Hk : known_type type) by (unfold known_type; naive_solver). unfold resolve. apply wp_bind, wp_new_handle.
  { intros t. apply wp_ret, inv_tick. by exists calls. }
  intros t. apply wp_bind. eapply (wp_mono _ (λ _, made s)); [|intros _ s'; by eapply wp_handle_or_null].
  destruct (flags &? 1); [by eapply wp_make|]. apply wp_bind. unfold search_request_new.
  apply wp_bind, wp_assert; [by destruct Hty as [-> | ->]|]. apply wp_bind. eapply wp_get; [cbn; apply lookup_insert_eq|].
  apply wp_bind, wp_assert; [done|]. apply wp_bind, wp_gets. assert (Hs : db_search (with_handle s t) = None) by (cbn; by destruct Hok as [_ []]). rewrite Hs.
  apply wp_bind, wp_ret. eapply wp_mono; [by eapply wp_make_opt|]. cbn beta. intros _ s' Hm. by apply wp_ret.
Qed.

Lemma print_d_bytes n : 0 <= n → Forall is_byte (print_d n).
Proof. intros Hn. apply Forall_forall. intros c Hc. apply print_d_chars in Hc; [|done]. unfold is_byte. lia. Qed.

Lemma snprintf_bytes n text : Forall is_byte text → Forall is_byte (default [] (fst (evutil_snprintf n text))).
Proof. intros Hb. unfold evutil_snprintf, evutil_vsnprintf, snprintf. destruct (n =? 0); [constructor|]. cbn. by apply Forall_take. Qed.

Lemma inaddr_bytes a : Forall is_byte (inaddr_arpa a).
Proof.
  unfold inaddr_arpa. apply snprintf_bytes.
  assert (Hd : ∀ k, Forall is_byte (print_d (u8 (Z.land (Z.shiftr a k) 255)))) by (intros k; apply print_d_bytes, wrap_range; lia).
  repeat (apply Forall_app; split); try apply Hd; apply Forall_forall; intros c Hc; apply list_elem_of_In in Hc; vm_compute in Hc; unfold is_byte; intuition lia.
Qed.

Lemma wp_reverse s a id : inv s → wp (evdns_base_resolve_reverse a (UserCb id)) (λ _, inv) s.
Proof.
  intros [calls Hok]. unfold evdns_base_resolve_reverse. apply wp_bind, wp_new_handle.
  { intros t. apply wp_ret, inv_tick. by exists calls. }
  intros t. pose proof (wp_make calls s t TYPE_PTR (inaddr_arpa a) id Hok ltac:(unfold known_type; naive_solver) (inaddr_bytes a)) as Hw.
  apply wp_bind. destruct Hw as (x & s' & E & Hm). unfold mbind, dns_bind in E. destruct (request_new _ _ _ _ _) as [[req s1]|] eqn:Er; [|done].
  exists req, s1. split; [done|]. apply wp_bind. exists x, s'. split; [done|]. by eapply wp_handle_or_null.
Qed.

(** A nameserver that is down is probed. *)
Lemma wp_send_probe s ns : inv s → is_Some (db_servers s !! ns) → Z.of_nat (length (inflight s)) < 65535 → wp (nameserver_send_probe ns) (λ _, inv) s.
Proof.
  intros [calls Hok] Hns Hlen. unfold nameserver_send_probe. apply wp_bind, wp_new_handle.
  { intros t. apply wp_ret, inv_tick. by exists calls. }
  intros t. assert (Hc0 := core_with_handle calls s t Hok). set (h := db_next s) in *.
  apply wp_bind. eapply wp_mono; [apply wp_request_new; [done|apply Hok| |cbn; apply lookup_insert_eq]|].
  { apply Forall_forall. intros c Hc. apply list_elem_of_In in Hc. vm_compute in Hc. unfold is_byte. intuition lia. }
  cbn beta. intros [req|] s' Ha; [|destruct Ha as [t' ->]; apply wp_modify; by apply (inv_freed s t' calls)].
  destruct Ha as (-> & q & r & t' & -> & Hr & Hq). destruct Hq as (Q1 & Q2 & Q3 & Q4 & Q5 & Q6).
  assert (Hc1 := core_created calls s t q r t' Hok Hr Q5 Q4). set (s1 := created _ _ _ _ _ _) in *. set (req := db_next (with_handle s t)) in *.
  assert (Hreq : req ∉ queued s) by (apply (fresh_queued calls s req Hok); unfold req; cbn; lia). destruct Hns as [n Hn].
  apply wp_bind. eapply wp_upd_ns; [exact Hn|].
  apply wp_bind. eapply wp_mono; [apply wp_transaction_id_pick; [by apply (core_placed s1)|done]|]. cbn beta. intros id s2 ((t2 & ->) & Hid & Hfree).
  apply wp_bind. eapply wp_trans_id_set; [cbn; apply lookup_insert_eq|apply Q5..|]. intros b Hb Hbl.
  apply wp_bind. eapply wp_upd_req; [cbn; apply lookup_insert_eq|].
  set (q4 := set_rq_ns (Some ns) _). match goal with |- wp _ _ ?x => set (s4 := x) end.
  assert (Ers : db_requests s4 = <[req := q4]> (db_requests s)) by (cbn; by rewrite !insert_insert_eq).
  assert (Ehs : db_handles s4 = <[h := set_h_current_req (Some req) new_hd]> (db_handles s)) by (cbn; by rewrite insert_insert_eq).
  assert (Hc4 : core s4).
  { apply (core_agree s); try done; try apply Hok.
    - intros x. unfold state_of. cbn. by_lookup ns x; [by rewrite Hn|done].
    - intros x. unfold count_of. cbn. by_lookup ns x; [by rewrite Hn|done].
    - intros p Hp. rewrite Ers, lookup_insert_ne; [done|]. by intros <-.
    - intros x p _. unfold current_of. rewrite Ehs. destruct (decide (h = x)) as [<-|]; [unfold h; by rewrite (fresh_handle calls s Hok)|by rewrite lookup_insert_ne].
    - intros p q' Hp. rewrite Ers. destruct (decide (req = p)) as [<-|]; [rewrite lookup_insert_eq; by intros [= <-]|rewrite lookup_insert_ne by done].
      intros Eq. by destruct (o_request _ _ _ _ (proj2 Hok) p q' Eq). }
  eapply wp_mono; [apply (wp_submit s4 req q4 h (set_h_current_req (Some req) new_hd)); [done|done|..]|].
  - split; try done; [rewrite Ers; apply lookup_insert_eq|rewrite Ehs; apply lookup_insert_eq].
  - cbn. split; [change (ns ∈ r); rewrite Hr; apply (server_ring s); [apply Hok|eauto]|]. split; [done|]. intros p Hp. specialize (Hfree p Hp). unfold id_of in *.
    rewrite Ers. cbn in Hfree. assert (req ≠ p) by (intros <-; apply Hreq; by apply in_queued). rewrite lookup_insert_ne in Hfree by done. by rewrite lookup_insert_ne.
  - cbn beta. intros _ s5 (Hc5 & Hf5 & Hq5).
    apply (ok_new calls s s4 s5 h req q4 (set_h_current_req (Some req) new_hd) (ProbeCb ns)); try done; cbn; try (unfold h, req; cbn; lia).
    + rewrite Q1. by left.
    + intros x. by_lookup ns x; [rewrite Hn; naive_solver|done].
    + intros x nx z. by_lookup ns x; [intros [= <-]; cbn; intros [= <-]; by right|]. eauto.
    + intros x [= <-]. eauto.
Qed.

(** ** Nameservers are added, and the lists are resized *)

Lemma wp_nameserver_insert s listens : inv s → wp (nameserver_insert listens) (λ _, inv) s.
Proof.
  intros [calls [Hc [O1 O2 O3 O4 OR O5 O6 O7 O8 O9 (O10 & O11 & O12)]]]. unfold nameserver_insert. apply wp_bind. eexists _, _. split; [done|].
  apply wp_bind, wp_modify, wp_bind, wp_modify, wp_bind, wp_modify, wp_ret. set (ns := db_next s) in *. set (n := mk_ns _ _ _ _ _ _ _ _ _).
  assert (Hns : db_servers s !! ns = None) by (destruct (db_servers s !! ns) eqn:E; [|done]; specialize (O12 ns ltac:(eauto)); lia).
  assert (Hring : ns ∉ db_ring s) by (intros Hr; destruct (ring_server s ns Hc Hr); congruence).
  match goal with |- inv ?x => set (s' := x) end.
  assert (Er : db_ring s' ≡ₚ ns :: db_ring s) by (cbn; destruct (db_ring s); [done|apply Permutation_swap]).
  assert (Hst : ∀ x, state_of s' x = if decide (x = ns) then Some true else state_of s x).
  { intros x. unfold state_of. cbn. case_decide as Hx; [subst x; by rewrite lookup_insert_eq|by rewrite lookup_insert_ne]. }
  assert (Hsome : ∀ x, is_Some (db_servers s !! x) → is_Some (db_servers s' !! x)) by (intros x Hx; cbn; by_lookup ns x; eauto).
  exists calls. split.
  - destruct Hc as [C1 C2 C3 C4 C5 C6 C7 C8 C9 C10 C11 C12 C13 C14]. split; try done.
    + intros i l p Hl Hp. destruct (C3 i l p Hl Hp) as (id & x & H1 & H2 & H3 & H4 & H5). exists id, x. rewrite Hst. do 4 (split; [done|]). case_decide; eauto.
    + rewrite Er. by apply NoDup_cons.
    + intros x. rewrite Er, Hst, elem_of_cons, C10. case_decide; naive_solver.
    + cbn [s' db_good set_db_good]. rewrite Er. cbn [set_db_ring set_db_servers set_db_next db_good]. rewrite C11, filter_cons_True by (rewrite Hst; by rewrite decide_True).
      cbn. rewrite (filter_in_iff (λ x, state_of s' x = Some true) (λ x, state_of s x = Some true)); [lia|]. intros x Hx. rewrite Hst. rewrite decide_False; [done|]. by intros ->.
    + intros x k. unfold count_of. cbn. by_lookup ns x; [|apply C12]. cbn. intros [= <-]. symmetry. unfold load. rewrite filter_none; [done|].
      intros p Hp Hnp. destruct (in_inflight s p Hp) as (i & l & Hi & Hpl). destruct (C3 i l p Hi Hpl) as (id & y' & _ & _ & _ & H4 & H5).
      unfold ns_of in *. cbn in Hnp. rewrite H4 in Hnp. injection Hnp as ->. unfold state_of in H5. rewrite Hns in H5. by destruct H5.
  - split; try done; cbn.
    + intros x z Hx Hcb. apply Hsome. by eapply O6.
    + intros x nx z. by_lookup ns x; [by intros [= <-]|apply O7].
    + split; [|split]; intros p; [intros Hp%O10; lia|intros Hp%O11; lia|]. by_lookup ns p; [lia|]. intros Hp%O12. lia.
Qed.

(** The requests of a list are on the new lists. *)
Lemma wp_move_requests s l : core s → (∀ p, p ∈ l → p ∈ inflight s) → ∀ new, new ≠ [] →
  wp (move_requests l new) (λ new' s', s' = s ∧ length new' = length new ∧ mjoin new' ≡ₚ mjoin new ++ l ∧
    ∀ i b p, new' !! i = Some b → p ∈ b → (∃ b0, new !! i = Some b0 ∧ p ∈ b0) ∨
      ∃ q, db_requests s !! p = Some q ∧ i = Z.to_nat (rq_trans_id q mod Z.of_nat (length new))) s.
Proof.
  intros Hc. induction l as [|req l IH]; intros Hl new Hne; cbn [move_requests].
  { apply wp_ret. rewrite app_nil_r. do 3 (split; [done|]). eauto. }
  assert (Hin : req ∈ inflight s) by apply Hl, list_elem_of_here.
  apply wp_bind, wp_valid_inflight; [done..|]. apply wp_bind, wp_get_in; [done..|]. intros q ns n Eq _ _ Hid. apply wp_bind, wp_valid_inflight; [done..|].
  set (i := Z.to_nat _). assert (Hi : (i < length new)%nat).
  { assert (0 < Z.of_nat (length new)) by (destruct new; cbn; [done|lia]). pose proof (Z.mod_pos_bound (rq_trans_id q) (Z.of_nat (length new))). unfold i. lia. }
  destruct (lookup_lt_is_Some_2 new i Hi) as [b Hb]. rewrite Hb.
  eapply wp_mono; [apply IH|].
  - intros p Hp. apply Hl. by apply list_elem_of_further.
  - intros E. apply (f_equal length) in E. rewrite length_insert in E. cbn in E. lia.
  - cbn beta. intros new' s' (-> & Hlen & Hperm & Hplace). rewrite length_insert in *. split; [done|]. split; [done|]. split.
    + rewrite Hperm, (join_snoc new i b req Hb). cbn. apply Permutation_middle.
    + intros j b' p Hj Hp. destruct (Hplace j b' p Hj Hp) as [(b0 & Hb0 & Hp0)|?]; [|by right].
      apply list_lookup_insert_Some in Hb0 as [(<- & <- & _)|[_ Hb0]]; [|left; eauto].
      apply elem_of_app in Hp0 as [Hp0|Hp0%list_elem_of_singleton]; [left; eauto|]. subst p. right. exists q. done.
Qed.

Lemma wp_set_max s m : inv s → m <= 65535 → wp (evdns_base_set_max_requests_inflight m) (λ _, inv) s.
Proof.
  intros [calls [Hc Ho]] Hm. unfold evdns_base_set_max_requests_inflight. set (m' := if _ <? _ then _ else _).
  assert (Hm' : 1 <= m' <= 65535) by (unfold m'; destruct (Z.ltb_spec m 1); lia).
  assert (Hn : 1 <= (m' + 4) ÷ 5) by (rewrite Z.quot_div_nonneg by lia; apply Z.div_le_lower_bound; lia).
  apply wp_bind, wp_assert; [by apply Z.ltb_lt; lia|]. apply wp_bind, wp_ask. intros t. destruct (negb _); [apply wp_ret, inv_tick; by exists calls|].
  apply wp_bind, wp_gets. set (s1 := set_db_tick _ s). assert (Hc1 : core s1) by (by apply (core_transfer s)).
  apply wp_bind. eapply wp_mono; [apply (wp_move_requests s1); [done|done|]|].
  { intros E. apply (f_equal length) in E. rewrite length_replicate in E. cbn in E. lia. }
  cbn beta. intros new s' (-> & Hlen & Hperm & Hplace). rewrite length_replicate in *. apply wp_bind, wp_modify, wp_ret.
  assert (Hj : mjoin (replicate (Z.to_nat ((m' + 4) ÷ 5)) ([] : list Z)) = []) by (generalize (Z.to_nat ((m' + 4) ÷ 5)); intros k; by induction k). rewrite Hj in Hperm. cbn in Hperm.
  match goal with |- inv ?x => set (s2 := x) end.
  assert (Hin : inflight s2 ≡ₚ inflight s) by done. assert (Hq : queued s2 ≡ₚ queued s) by (unfold queued; by rewrite Hin).
  exists calls. split.
  - destruct Hc as [C1 C2 C3 C4 C5 C6 C7 C8 C9 C10 C11 C12 C13 C14]. split; try done.
    + intros E. cbn in E. rewrite E in Hlen. cbn in Hlen. lia.
    + by rewrite Hq.
    + intros i l p Hl Hp. cbn in Hl. assert (Hpin : p ∈ inflight s) by (rewrite <- Hin; by eapply in_inflight_2).
      destruct (in_inflight s p Hpin) as (i0 & l0 & Hi0 & Hp0). destruct (C3 i0 l0 p Hi0 Hp0) as (id & ns & H1 & _ & H3 & H4 & H5). exists id, ns. split; [done|]. split; [|done].
      destruct (Hplace i l p Hl Hp) as [(b0 & Hb0 & Hp1)|(q & Eq & ->)].
      * apply lookup_replicate in Hb0 as [-> _]. by apply elem_of_nil in Hp1.
      * unfold id_of in H1. unfold s1 in Eq. cbn in Eq. rewrite Eq in H1. injection H1 as <-. unfold bucket. cbn. by rewrite Hlen.
    + by rewrite Hin.
    + intros p. rewrite Hq. apply C6.
    + rewrite Hin. apply C7.
    + intros x k Hk. rewrite (C12 x k Hk). unfold load. by rewrite Hin.
    + intros p. rewrite Hin. apply C14.
  - destruct Ho as [O1 O2 O3 O4 OR O5 O6 O7 O8 O9 O10]. split; try done; [|intros p q; rewrite Hq; apply O2|cbn; lia].
    intros h hd Hh. destruct (O1 h hd Hh) as (? & ? & Hx). split; [done|]. split; [done|]. intros p Hp. rewrite Hq. by apply Hx.
Qed.

(** ** Runs *)

(** What happens to a base: calls of the user, events of sockets and timers, and
    the loop that runs a scheduled callback. *)
Inductive dns_event :=
  | Resolve (ipv6 : bool) (name : bytes) (flags id : Z)
  | Reverse (addr id : Z)
  | Cancel (h : Z)
  | Readable (ns : Z) (packets : list (bool * bytes)) (failed : bool)
  | Writable (ns : Z)
  | RequestTimeout (req : Z)
  | ProbeTimer (ns : Z)
  | RunCallback
  | AddServer (listens : bool)
  | Resume
  | SetMaxInflight (m : Z).

Definition dns_handle (hmax : Z) (dup : bytes → bool) (e : dns_event) : dns unit :=
  match e with
  | Resolve ipv6 name flags id => (if ipv6 then evdns_base_resolve_ipv6 else evdns_base_resolve_ipv4) name flags (UserCb id);; mret tt
  | Reverse addr id => evdns_base_resolve_reverse addr (UserCb id);; mret tt
  | Cancel h => evdns_cancel_request h
  | Readable ns packets failed => nameserver_read hmax dup ns packets failed
  | Writable ns => nameserver_ready_write ns
  | RequestTimeout req => evdns_request_timeout_callback req
  | ProbeTimer ns => nameserver_prod_callback ns
  | RunCallback => run_deferred
  | AddServer listens => nameserver_insert listens;; mret tt
  | Resume => evdns_base_resume
  | SetMaxInflight m => evdns_base_set_max_requests_inflight m;; mret tt
  end.

(** A handle that the user was given and whose callback has not run yet. *)
Definition user_handle (s : evdns_base) (h : Z) : Prop :=
  (∃ p q id, db_requests s !! p = Some q ∧ rq_handle q = Some h ∧ rq_callback q = UserCb id) ∨
  (∃ d id, d ∈ db_deferred s ∧ d_handle d = Some h ∧ d_callback d = UserCb id).

(** Which events can happen: names and packets are bytes, the user cancels only
    what he has, only timers that are pending go off, only nameservers that exist
    are heard of, and probes are sent only while there are ids left. *)
Definition dns_enabled (s : evdns_base) (e : dns_event) : Prop :=
  match e with
  | Resolve _ name _ _ => Forall is_byte name
  | Cancel h => user_handle s h
  | Readable ns packets _ => is_Some (db_servers s !! ns) ∧ Forall (λ '(_, p), Forall is_byte p) packets
  | Writable ns => is_Some (db_servers s !! ns)
  | RequestTimeout req => timer_of s req = Some true
  | ProbeTimer ns => (∃ n, db_servers s !! ns = Some n ∧ is_Some (ns_timer n)) ∧ Z.of_nat (length (inflight s)) < 65535
  | SetMaxInflight m => m <= 65535
  | _ => True
  end.

Lemma user_not_probe calls s h : ok (mk_ghost calls None) [] None s → user_handle s h →
  is_Some (db_handles s !! h) ∧ ∀ ns n, db_servers s !! ns = Some n → ns_probe n ≠ Some h.
Proof.
  intros [Hc Ho] Hu. assert (is_Some (db_handles s !! h) ∧ ∃ id, calls h = UserCb id) as [Hh [id Hid]].
  { destruct Hu as [(p & q & id & E1 & E2 & E3)|(d & id & E1 & E2 & E3)].
    - destruct (o_request _ _ _ _ Ho p q E1) as (Hq & (x & F1 & F2) & _). assert (x = h) as -> by congruence. cbn in F2.
      destruct (queued_valid s p Hc Hq) as (q' & x & hd & G1 & G2 & G3 & _). assert (x = h) as -> by congruence. rewrite G3. split; [eauto|]. exists id. congruence.
    - destruct (o_deferred _ _ _ _ Ho d E1) as (x & hd & F1 & F2 & _ & F3 & _). assert (x = h) as -> by congruence. cbn in F3. rewrite F2. split; [eauto|]. exists id. congruence. }
  split; [done|]. intros ns n Hn Hp. destruct (o_probe _ _ _ _ Ho ns n h Hn Hp) as [E _]. cbn in E. congruence.
Qed.

Lemma wp_unit {A} (m : dns A) (Q : evdns_base → Prop) s : wp m (λ _, Q) s → wp (m;; mret tt) (λ _, Q) s.
Proof. intros Hw. apply wp_bind. eapply wp_mono; [exact Hw|]. cbn. intros. by apply wp_ret. Qed.

Lemma wp_inv {A} (m : dns A) calls P s : wp m (λ _ s', ok (mk_ghost calls None) [] None s' ∧ evolve P s s') s → wp m (λ _, inv) s.
Proof. intros Hw. eapply wp_mono; [exact Hw|]. cbn. intros _ s' [? _]. by exists calls. Qed.

(** No event gets stuck, and each keeps the invariant. *)
Lemma wp_event hmax dup s e : 0 <= hmax → inv s → dns_enabled s e → wp (dns_handle hmax dup e) (λ _, inv) s.
Proof.
  intros Hh Hi He. assert (Hi' := Hi). destruct Hi as [calls Hok]. destruct e; cbn [dns_handle dns_enabled] in *.
  - apply wp_unit. destruct ipv6; apply wp_resolve; auto.
  - by apply wp_unit, wp_reverse.
  - destruct (user_not_probe calls s h Hok He) as [Hs Hp]. eapply wp_mono; [apply (wp_cancel _ [] None s h Hok Hs); intros ns n Hn Hx; by destruct (Hp ns n Hn)|].
    cbn beta. intros _ s' [[? _] _]. by exists calls.
  - eapply wp_inv, wp_read; naive_solver.
  - destruct He as [n Hn]. eapply (wp_inv _ calls (λ _, True)), wp_good_ok; [done|]. destruct Hok as [Hc _]. unfold nameserver_ready_write.
    apply (wp_then _ _ (λ _ _, True)); [apply wp_good, wp_upd_ns_good; eauto; done|]. intros _ s1 Hg1 _.
    apply (wp_then _ _ (λ _ _, True)); [apply wp_good, wp_evdns_transmit; eauto with ev|]. intros tried s2 Hg2 _.
    destruct tried; [apply wp_ret, good_refl; eauto with ev|]. apply wp_write_waiting; eauto with ev.
  - eapply wp_inv, wp_timeout; [done|]. by apply (c_timers s (proj1 Hok)).
  - destruct He as [(n & Hn & _) Hlen]. unfold nameserver_prod_callback. apply wp_bind. eapply wp_upd_ns; [exact Hn|].
    pose proof (upd_ns_good s ns n (set_ns_timer None n) (proj1 Hok) Hn ltac:(done)) as Hg.
    apply wp_send_probe; [exists calls; by eapply ok_good|cbn; rewrite lookup_insert_eq; eauto|done].
  - eapply wp_mono; [by apply wp_run_deferred|]. cbn beta. intros _ s' ?. by exists calls.
  - by apply wp_unit, wp_nameserver_insert.
  - eapply (wp_inv _ calls (λ _, True)). eapply wp_mono; [apply wp_pump; apply Hok|]. cbn beta. intros _ s' Hp. split; [by eapply ok_pump|by apply pump_evolve].
  - by apply wp_unit, wp_set_max.
Qed.

(** States that a base can get into. *)
Inductive dns_reachable (hmax : Z) (dup : bytes → bool) (s0 : evdns_base) : evdns_base → Prop :=
  | reach_start : dns_reachable hmax dup s0 s0
  | reach_step s e s' : dns_reachable hmax dup s0 s → dns_enabled s e → dns_handle hmax dup e s = Some (tt, s') → dns_reachable hmax dup s0 s'.

Lemma inv_reachable hmax dup s0 s : 0 <= hmax → inv s0 → dns_reachable hmax dup s0 s → inv s.
Proof.
  intros Hh Hi Hr. induction Hr as [|s e s' Hr IH He E]; [done|]. destruct (wp_event hmax dup s e Hh IH He) as (x & s1 & E1 & H1). congruence.
Qed.

Definition base_at (flags next : Z) : evdns_base :=
  mk_db ∅ ∅ ∅ ∅ (replicate 13 []) [] [] 0 0 0 None [] next 1 (mk_options 64 1 3 3 true (mk_timeval 10 0) (flags &? 0x8000)).

Lemma base_new_at flags next : e_malloc 0 = true → evdns_base_new flags next = Some (base_at flags next).
Proof.
  intros Hm. unfold evdns_base_new, evdns_base_set_max_requests_inflight, mbind, dns_bind, assert_, ask, gets.
  change (0 <? _) with true. cbv beta iota. cbn [db_tick]. rewrite Hm. reflexivity.
Qed.

Lemma inv_new flags next : inv (base_at flags next).
Proof.
  exists (λ _, UserCb 0). assert (Hq : queued (base_at flags next) = []) by done. assert (Hin : inflight (base_at flags next) = []) by done. split.
  - split; rewrite ?Hq, ?Hin; try done; try (by constructor); try (by intros x ?%elem_of_nil).
    + intros i l p Hl Hp. cbn in Hl. apply (lookup_replicate 13) in Hl as [-> _]. by apply elem_of_nil in Hp.
    + intros ns. unfold state_of. cbn. rewrite lookup_empty. split; [by intros ?%elem_of_nil|by intros [? ?]].
  - split; cbn; try done; try (by constructor); try (by intros x ?%elem_of_nil); try (intros *; rewrite lookup_empty; done).
    split; [|split]; intros p; rewrite lookup_empty; by intros [? ?].
Qed.
End runs.

Lemma NoDup_fmap_same {A B} (f : A → B) l x y : NoDup (f <$> l) → x ∈ l → y ∈ l → f x = f y → x = y.
Proof.
  intros Hnd [i Hi]%list_elem_of_lookup [j Hj]%list_elem_of_lookup E. assert (i = j) as ->; [|congruence].
  apply (NoDup_lookup _ _ _ (f x) Hnd); rewrite list_lookup_fmap, ?Hi, ?Hj; cbn; congruence.
Qed.

Lemma filter_once {A B} `{EqDecision B} (f : A → B) l x : NoDup (f <$> l) → x ∈ f <$> l → length (filter (λ a, f a = x) l) = 1%nat.
Proof.
  induction l as [|a l IH]; [cbn; by intros _ ?%elem_of_nil|]. rewrite fmap_cons. intros [Hn Hnd]%NoDup_cons [->|Hx]%elem_of_cons; rewrite filter_cons.
  - rewrite decide_True by done. cbn [length]. rewrite filter_none; [done|]. intros b Hb E. apply Hn. apply list_elem_of_fmap. by exists b.
  - rewrite decide_False by congruence. by apply IH.
Qed.

(** C6. The DNS client without search domains never goes wrong: from a new base,
    whatever sequence of these events: resolving and cancelling, adding nameservers and
    resuming them, resizing the lists, packets with arbitrary bytes, write events,
    timeouts, probes and scheduled callbacks, and however sending, adding events and
    timers, and allocating requests, handles, nameservers and lists fail, the next event
    runs to its end without a failed assertion or an access to a freed request, handle or
    nameserver.  In every state the transaction ids in flight are distinct and
    looking one up finds its request; the counters of requests in flight, waiting,
    and at each nameserver and of good nameservers are exact; a pending timer
    belongs to a request in flight; and each handle has either a queued request
    and no callback scheduled, or no request and exactly one scheduled callback.
    Not among the events are setting search domains, clearing the nameservers and freeing the
    base, and there is memory to schedule callbacks: there the code does go wrong.  The random
    generator draws every transaction id again at some time; the user cancels requests
    whose callback has not run; at most 65535 requests may be in flight, and a probe is sent
    only while an id is free. *)
Theorem dns_client_safe `{DnsEnvOk} hmax dup flags next s0 s :
  0 <= hmax → e_malloc 0 = true → evdns_base_new flags next = Some s0 → dns_reachable hmax dup s0 s →
  (∀ e, dns_enabled s e → ∃ s', dns_handle hmax dup e s = Some (tt, s')) ∧
  NoDup (inflight s ++ db_waiting s) ∧
  (∀ p, p ∈ inflight s → ∃ id, id_of s p = Some id ∧ request_find_from_trans_id id s = Some (Some p, s)) ∧
  (db_inflight s = Z.of_nat (length (inflight s)) ∧ db_nwaiting s = Z.of_nat (length (db_waiting s)) ∧
   db_good s = Z.of_nat (length (filter (λ ns, state_of s ns = Some true) (db_ring s))) ∧
   ∀ ns n, db_servers s !! ns = Some n → ns_inflight n = load s ns) ∧
  (∀ req, timer_of s req = Some true → req ∈ inflight s) ∧
  (∀ h hd, db_handles s !! h = Some hd →
     match h_current_req hd with
     | Some p => p ∈ inflight s ++ db_waiting s ∧ Some h ∉ d_handle <$> db_deferred s
     | None => length (filter (λ d, d_handle d = Some h) (db_deferred s)) = 1%nat
     end).
Proof.
  intros Hh Hm E Hr. rewrite (base_new_at flags next Hm) in E. injection E as <-.
  pose proof (inv_reachable hmax dup _ s Hh (inv_new flags next) Hr) as Hi. assert (Hi' := Hi). destruct Hi as [calls [Hc Ho]].
  split; [|split; [|split; [|split; [|split]]]].
  - intros e He. destruct (wp_event hmax dup s e Hh Hi' He) as ([] & s' & E' & _). eauto.
  - apply Hc.
  - intros p Hp. destruct (inflight_inv s p Hc Hp) as (q & ns & n & Eq & _). exists (rq_trans_id q).
    assert (Hid : id_of s p = Some (rq_trans_id q)) by (unfold id_of; by rewrite Eq). split; [done|].
    destruct (wp_find s (rq_trans_id q) (core_placed s Hc)) as (a & s' & -> & -> & Ha). destruct a as [p'|]; [|by destruct (Ha p Hp)].
    destruct Ha as [Hp' Hid']. do 3 f_equal. apply (NoDup_fmap_same (id_of s) (inflight s)); [apply Hc|done..|congruence].
  - split_and!; [apply Hc..|]. intros ns n Hn. apply (c_load s Hc). unfold count_of. by rewrite Hn.
  - apply Hc.
  - intros h hd Hhd. destruct (o_handle _ _ _ _ Ho h hd Hhd) as (_ & Hnone & Hsome). destruct (h_current_req hd) as [p|].
    + destruct (Hsome p eq_refl) as (Hp & _ & Hpend). split; [done|]. intros (d & Ed & Hd)%list_elem_of_fmap.
      destruct (o_deferred _ _ _ _ Ho d Hd) as (x & hx & F1 & F2 & F3 & _). assert (x = h) as -> by congruence. rewrite Hhd in F2. injection F2 as <-.
      specialize (Hpend F3). by apply elem_of_nil in Hpend.
    + apply filter_once; [apply Ho|]. by apply (o_called _ _ _ _ Ho h hd Hhd (Hnone eq_refl)).
Qed.
