(* ===== verification/DnsExamples.v ===== *)
(** * Concrete DNS packets and requests

    Applications of the theorems on packets and on the client to small inputs, and
    what the code makes of some odd ones. *)

From stdpp Require Import gmap.
From S2P Require Import Prelude Clib Util TimeVal DnsPacket DnsNames DnsPacketProps DnsResponse DnsClient DnsClientInv DnsClientQueues DnsClientHandles DnsClientRuns.

Lemma bytes_by (bs : bytes) : forallb (λ c, (0 <=? c) && (c <? 256)) bs = true → Forall is_byte bs.
Proof. intros H. rewrite List.forallb_forall in H. apply Forall_forall. intros c Hc%list_elem_of_In. specialize (H c Hc). unfold is_byte. lia. Qed.

(** ** Names *)

(** The labels of www.example.org. *)
Definition www : list bytes := bytes_of_string <$> ["www"; "example"; "org"].

Lemma label_ok_by (l : bytes) :
  (1 <=? len l) && (len l <=? 63) && forallb (λ c, (1 <=? c) && (c <=? 255) && negb (c =? 46)) l = true → label_ok l.
Proof.
  intros [[H1%Z.leb_le H2%Z.leb_le]%andb_true_iff H3]%andb_true_iff. rewrite List.forallb_forall in H3.
  assert (Hc : ∀ c, c ∈ l → 1 <= c <= 255 ∧ c ≠ 46).
  { intros c Hc%list_elem_of_In. specialize (H3 c Hc). lia. }
  split; [done|]. split; [|intros Hd; by destruct (Hc _ Hd)].
  apply Forall_forall. intros c Hi. apply Hc in Hi. unfold is_byte. lia.
Qed.

Lemma name_ok_by ls : forallb (λ l, (1 <=? len l) && (len l <=? 63) && forallb (λ c, (1 <=? c) && (c <=? 255) && negb (c =? 46)) l) ls = true →
  ls ≠ [] → len (dotted ls) <= 255 → name_ok ls.
Proof.
  intros H Hne Hl. rewrite List.forallb_forall in H. repeat split; [|done..].
  apply Forall_forall. intros l Hi. apply label_ok_by, H. by apply list_elem_of_In.
Qed.

Lemma www_ok : name_ok www.
Proof. by apply name_ok_by. Qed.

Lemma dns_name_one_byte_overflow_witness :
  dnsname_to_labels (λ _, true) (replicate 16 0) (len []) (dotted www) None = None.
Proof.
  apply (dns_name_one_byte_overflow (λ _, true) www [] (replicate 16 0) 7); [apply www_ok|done|by vm_compute|by vm_compute].
Defined.

(** A dot alone is written as two zeros, the second of which belongs to nothing. *)
Example dot_is_two_zeros : dnsname_to_labels (λ _, true) (replicate 4 9) 0 [46] None = Some (2, [0; 0; 9; 9], None).
Proof. reflexivity. Qed.

(** A name that ends in a dot is written like the one without. *)
Example final_dot : dnsname_to_labels (λ _, true) (replicate 5 9) 0 [97; 46] None = Some (3, [1; 97; 0; 9; 9], None).
Proof. reflexivity. Qed.

(** The second name is a pointer to a part of the first one. *)
Example compressed :
  (r ← dnsname_to_labels (λ _, true) (replicate 20 9) 0 (dotted www) (Some []);
   let '(j, buf, table) := r in dnsname_to_labels (λ _, true) (take 19 buf) j (dotted (drop 1 www)) table ≫= λ '(j, buf, _), Some (j, drop 17 buf)) =
  Some (19, [0xc0; 4]).
Proof. reflexivity. Qed.

(** ** Queries *)

Definition query_buf : bytes := replicate (Z.to_nat (evdns_request_len (len (dotted www)))) 0.
Definition query : bytes := match evdns_request_data_build (dotted www) 7 TYPE_A CLASS_INET query_buf with Some (r, b) => take (Z.to_nat r) b | None => [] end.

Lemma dns_query_roundtrip_witness : ∃ r buf', evdns_request_data_build (dotted www) 7 TYPE_A CLASS_INET query_buf = Some (r, buf') ∧ 0 <= r <= len query_buf ∧
  request_parse true true (λ _, true) (take (Z.to_nat r) buf') =
  Parsed (call_user (mk_sreq 7 0 0 0 [] [] [] None 0x0100 [mk_question TYPE_A CLASS_INET (dotted www)])).
Proof. apply (dns_query_roundtrip www 7 TYPE_A CLASS_INET query_buf); [apply www_ok|done..]. Defined.

(** A query with an opcode that the server does not implement is given to the user
    all the same: the bits of the opcode are masked off before they are tested. *)
Example opcode_ignored : request_parse true true (λ _, true) ([0; 7; 0x28; 0] ++ drop 4 query) =
  Parsed (call_user (mk_sreq 7 0 0 0 [] [] [] None 0 [mk_question TYPE_A CLASS_INET (dotted www)])).
Proof. reflexivity. Qed.

(** ** Answers *)

(** A pointer that points to itself, at the place of the first name. *)
Definition loop_packet : bytes := [0; 7; 0x81; 0x80; 0; 1; 0; 1; 0; 0; 0; 0; 0xc0; 12; 0; 1; 0; 1].

Lemma loop_packet_bytes : Forall is_byte loop_packet ∧ Forall is_byte query.
Proof. split; apply Forall_forall; intros c Hc; apply list_elem_of_In in Hc; vm_compute in Hc; unfold is_byte; intuition lia. Qed.

Lemma dns_parsers_safe_witness :
  safe (name_parse loop_packet 12 256) (λ '(name, idx'), len name < 256 ∧ 12 < idx' <= len loop_packet) ∧
  safe (snd (parse_answer 64 (λ _, true) TYPE_A loop_packet false query 1 1 0 12 None)) (λ '(_, r), reply_ok (width_of TYPE_A) r) ∧
  safe (request_parse true true (λ _, true) loop_packet) (λ _, True).
Proof. apply (dns_parsers_safe loop_packet query 64 (λ _, true) (λ _, true) true true TYPE_A false 1 1 0 None 12 256); [apply loop_packet_bytes..|done|done|done]. Defined.

Example loop_is_bad : name_parse loop_packet 12 256 = Bad.
Proof. reflexivity. Qed.

(** Two addresses for the name and one for its domain. *)
Definition items : list server_reply_item :=
  [mk_item (dotted www) TYPE_A CLASS_INET 60 false 8 (Some [10; 0; 0; 1; 10; 0; 0; 2]);
   mk_item (dotted (drop 1 www)) TYPE_A CLASS_INET 30 false 4 (Some [10; 0; 0; 3])].

Lemma items_ok : Forall (address_item 4 TYPE_A) items.
Proof.
  constructor; [|constructor; [|constructor]]; (split; [|done..|]).
  - exists www. split; [apply www_ok|done].
  - by exists 2, [10; 0; 0; 1; 10; 0; 0; 2].
  - exists (drop 1 www). split; [by apply name_ok_by|done].
  - by exists 1, [10; 0; 0; 3].
Qed.


(** A record whose name ends where the array of 1500 bytes ends: the zero is
    stored behind it. *)
Definition long_item : server_reply_item := mk_item [97] TYPE_A CLASS_INET 60 false 1467 (Some (replicate 1467 1)).
Definition short_item : server_reply_item := mk_item [120] TYPE_A CLASS_INET 60 false 4 (Some [10; 0; 0; 1]).
Example response_overflow :
  evdns_server_request_format_response (λ _, true) true (replicate 1500 9)
    (mk_sreq 7 2 0 0 [long_item; short_item] [] [] None 0 [mk_question TYPE_A CLASS_INET [97]]) 0 = None.
Proof. vm_compute. reflexivity. Qed.

(** A name that has a label of more than 63 characters: the response has 512
    bytes, of which the last ones are what was in the array before. *)
Definition bad_name_item : server_reply_item := mk_item (replicate 64 97) TYPE_A CLASS_INET 60 false 4 (Some [10; 0; 0; 1]).
Example response_leak :
  (drop 19 <$> (evdns_server_request_format_response (λ _, true) true (replicate 1500 9)
    (mk_sreq 7 1 0 0 [bad_name_item] [] [] None 0 [mk_question TYPE_A CLASS_INET [97]]) 0 ≫= λ r, sr_response (snd r))) =
  Some (replicate 493 9).
Proof. vm_compute. reflexivity. Qed.

(** ** The client *)

(** An environment in which everything works; the ids count up. *)
#[local] Instance nice : DnsEnv :=
  {| e_rng t := Z.of_nat t mod 65536; e_rng_fuel _ := Z.to_nat 65536; e_send _ := SendOk; e_event_add _ := true; e_timer_add _ := true;
     e_malloc _ := true; e_deferred _ := true; e_case _ _ := false |}.

#[local] Instance nice_ok : DnsEnvOk.
Proof.
  split; [|intros t v Hv|done]; cbn [e_rng nice e_rng_fuel].
  - intros t. apply Z.mod_pos_bound. lia.
  - exists (Z.to_nat ((v - Z.of_nat t) mod 65536)). pose proof (Z.mod_pos_bound (v - Z.of_nat t) 65536 ltac:(lia)). split; [lia|].
    rewrite Nat2Z.inj_add, Z2Nat.id by lia. rewrite Zplus_mod_idemp_r. replace (Z.of_nat t + (v - Z.of_nat t)) with v by lia.
    by rewrite Z.mod_small by lia.
Qed.

Definition options : evdns_options := mk_options 64 1 3 3 false (mk_timeval 10 0) false.
Definition base0 : evdns_base := mk_db ∅ ∅ ∅ ∅ (replicate 4 []) [] [] 0 0 0 None [] 100 0 options.

(** What is in a state, without the packets. *)
Definition summary (s : evdns_base) : list (list Z) * list Z * list Z * Z * Z * list (Z * Z) :=
  (db_heads s, db_waiting s, db_ring s, db_good s, db_inflight s, (λ d, (default 0 (d_handle d), d_err d)) <$> db_deferred s).

(** Without a nameserver the request waits; when one is added, it is sent. *)
Example waits_for_a_server :
  summary ∘ snd <$> (evdns_base_resolve_ipv4 (dotted www) 0 (UserCb 1)) base0 =
  Some (replicate 4 [], [101], [], 0, 0, []) ∧
  summary ∘ snd <$> (evdns_base_resolve_ipv4 (dotted www) 0 (UserCb 1);; nameserver_insert true;; evdns_base_resume) base0 =
  Some ([[]; []; []; [101]], [], [102], 1, 1, []).
Proof. split; vm_compute; reflexivity. Qed.

(** A reply to the request: its callback is scheduled with the address, and its
    handle is freed when the callback has run. *)
Definition reply_packet (id : Z) : bytes :=
  [0; id; 0x81; 0x80; 0; 1; 0; 1; 0; 0; 0; 0] ++ drop 12 query ++ [0xc0; 12; 0; 1; 0; 1; 0; 0; 0; 60; 0; 4; 10; 0; 0; 1].
Definition session : dns unit :=
  ns ← nameserver_insert true; evdns_base_resolve_ipv4 (dotted www) 0 (UserCb 1);; nameserver_read 64 (λ _, true) ns [(true, reply_packet 1)] false.
Example answered :
  summary ∘ snd <$> session base0 = Some (replicate 4 [], [], [100], 1, 0, [(101, 0)]) ∧
  (λ s, rp_addresses <$> (head (db_deferred s) ≫= d_reply)) ∘ snd <$> session base0 = Some (Some [10; 0; 0; 1]) ∧
  db_handles ∘ snd <$> (session;; run_deferred) base0 = Some ∅.
Proof. split_and!; vm_compute; reflexivity. Qed.

(** Both nameservers are down and being probed, and two requests wait, when the
    nameservers are removed: the probe of the second one is cancelled while the
    first one, already freed, is still in the ring, and it is read. *)
Definition small_base : evdns_base :=
  mk_db ∅ ∅ ∅ ∅ (replicate 4 []) [] [] 0 0 0 None [] 100 0 (mk_options 2 1 3 3 false (mk_timeval 10 0) false).
Example clear_uses_freed_server :
  let setup := a ← nameserver_insert true; b ← nameserver_insert true;
               nameserver_read 64 (λ _, true) a [] true;; nameserver_read 64 (λ _, true) b [] true;;
               nameserver_prod_callback a;; nameserver_prod_callback b;;
               evdns_base_resolve_ipv4 [97] 0 (UserCb 1);; evdns_base_resolve_ipv4 [98] 0 (UserCb 2) in
  summary ∘ snd <$> setup small_base = Some ([[]; [103]; []; [105]], [107; 109], [100; 101], 0, 2, []) ∧
  (setup;; evdns_base_clear_nameservers_and_suspend) small_base = None.
Proof. split; vm_compute; reflexivity. Qed.

(** A nameserver is added, a name is looked up, and its reply comes: the callback is
    scheduled. *)
Definition run (es : list dns_event) (s : evdns_base) : evdns_base :=
  foldl (λ s e, from_option snd s (dns_handle 64 (λ _, true) e s)) s es.
Definition base1 : evdns_base := default base0 (evdns_base_new 0 100).
Definition run1 : evdns_base := run [AddServer true] base1.
Definition run2 : evdns_base := run [Resolve false (dotted www) 0 1] run1.
Definition run3 : evdns_base := run [Readable 100 [(true, reply_packet 2)] false] run2.
Example run3_answered : summary run2 = ([[]; []; [102]] ++ replicate 10 [], [], [100], 1, 1, []) ∧ summary run3 = (replicate 13 [], [], [100], 1, 0, [(101, 0)]).
Proof. split; vm_compute; reflexivity. Qed.

Lemma dns_client_safe_witness :
  (∀ e, dns_enabled run3 e → ∃ s', dns_handle 64 (λ _, true) e run3 = Some (tt, s')) ∧
  NoDup (inflight run3 ++ db_waiting run3) ∧
  (∀ p, p ∈ inflight run3 → ∃ id, id_of run3 p = Some id ∧ request_find_from_trans_id id run3 = Some (Some p, run3)) ∧
  (db_inflight run3 = Z.of_nat (length (inflight run3)) ∧ db_nwaiting run3 = Z.of_nat (length (db_waiting run3)) ∧
   db_good run3 = Z.of_nat (length (filter (λ ns, state_of run3 ns = Some true) (db_ring run3))) ∧
   ∀ ns n, db_servers run3 !! ns = Some n → ns_inflight n = load run3 ns) ∧
  (∀ req, timer_of run3 req = Some true → req ∈ inflight run3) ∧
  (∀ h hd, db_handles run3 !! h = Some hd →
     match h_current_req hd with
     | Some p => p ∈ inflight run3 ++ db_waiting run3 ∧ Some h ∉ d_handle <$> db_deferred run3
     | None => length (filter (λ d, d_handle d = Some h) (db_deferred run3)) = 1%nat
     end).
Proof.
  apply (dns_client_safe 64 (λ _, true) 0 100 base1 run3); [lia|done|vm_compute; reflexivity|].
  apply (reach_step _ _ _ run2 (Readable 100 [(true, reply_packet 2)] false)); [|split; [vm_compute; eauto|]|vm_compute; reflexivity].
  - apply (reach_step _ _ _ run1 (Resolve false (dotted www) 0 1)); [|apply bytes_by; reflexivity|vm_compute; reflexivity].
    apply (reach_step _ _ _ base1 (AddServer true)); [apply reach_start|done|vm_compute; reflexivity].
  - constructor; [|constructor]. apply bytes_by. reflexivity.
Defined.
