(* ===== verification/HashTable.v ===== *)
(** * Hash tables (ht-internal.h)

    The macros for hash tables with chained elements, without cached hash values
    (HT_NO_CACHE_HASH_VALUES, as event.c and evutil.c use them).  An element is the
    address of an object; [val] is what is stored there.  A location in a table,
    which is a pointer to a pointer in C, is a bucket and a position in its chain. *)

From stdpp Require Import gmap.
From S2P Require Import Prelude.

Record ht := mk_ht {
  hth_table : option (list (list Z));
  hth_table_length : Z;
  hth_n_entries : Z;
  hth_load_limit : Z;
  hth_prime_idx : Z
}.

Definition HT_INIT : ht := mk_ht None 0 0 0 (-1).

Definition PRIMES : list Z :=
  [53; 97; 193; 389; 769; 1543; 3079; 6151; 12289; 24593; 49157; 98317; 196613; 393241; 786433; 1572869;
   3145739; 6291469; 12582917; 25165843; 50331653; 100663319; 201326611; 402653189; 805306457; 1610612741].
Definition N_PRIMES : Z := Z.of_nat (length PRIMES).

Definition set_hth_table (t : list (list Z)) (head : ht) : ht :=
  mk_ht (Some t) (hth_table_length head) (hth_n_entries head) (hth_load_limit head) (hth_prime_idx head).
Definition set_hth_n_entries (n : Z) (head : ht) : ht :=
  mk_ht (hth_table head) (hth_table_length head) n (hth_load_limit head) (hth_prime_idx head).

(** ** Hash functions *)

Definition ht_improve_hash_ (h : Z) : Z :=
  let h := u32 (h + u32 (Z.lnot (u32 (Z.shiftl h 9)))) in
  let h := Z.lxor h (Z.lor (Z.shiftr h 14) (u32 (Z.shiftl h 18))) in
  let h := u32 (h + u32 (Z.shiftl h 4)) in
  Z.lxor h (Z.lor (Z.shiftr h 10) (u32 (Z.shiftl h 22))).

(** The bytes of the string without the one that ends it. *)
Definition ht_string_hash_ (s : list Z) : Z :=
  let h := foldl (λ h c, Z.lxor (u32 (1000003 * h)) c) (u32 (Z.shiftl (default 0 (s !! 0%nat)) 7)) s in
  Z.lxor h (u32 (Z.of_nat (length s))).

(** ** Operations *)

Section ops.
(** The contents of the elements, their hash function and the comparison; [load] is
    the limit for a table of a length. *)
Context {A : Type} (hashfn : A → Z) (eqfn : A → A → bool) (load : Z → Z) (val : Z → A).

Definition HT_EMPTY (head : ht) : bool := hth_n_entries head =? 0.
Definition HT_SIZE (head : ht) : Z := hth_n_entries head.

(** [HT_BUCKET_], as the index; [None] if the table has no buckets. *)
Definition HT_BUCKET_ (head : ht) (a : A) : option nat :=
  if hth_table_length head =? 0 then None else Some (Z.to_nat (hashfn a mod hth_table_length head)).

(** The position of the first element that is equal to [a], or the end. *)
Fixpoint find_in (a : A) (l : list Z) : nat :=
  match l with
  | [] => 0
  | p :: l => if eqfn (val p) a then 0 else S (find_in a l)
  end.

(** [Some None] is NULL. *)
Definition HT_FIND_P_ (head : ht) (a : A) : option (option (nat * nat)) :=
  match hth_table head with
  | None => Some None
  | Some t => b ← HT_BUCKET_ head a; l ← t !! b; Some (Some (b, find_in a l))
  end.

(** What is at a location. *)
Definition deref (head : ht) (p : nat * nat) : option (option Z) :=
  t ← hth_table head; l ← t !! fst p; Some (l !! snd p).

Definition HT_FIND (head : ht) (a : A) : option (option Z) :=
  p ← HT_FIND_P_ head a;
  match p with None => Some None | Some p => deref head p end.

(** The prime for a table of more than [size] elements. *)
Fixpoint prime_loop (fuel : nat) (prime_idx size : Z) : option (Z * Z * Z) :=
  match fuel with
  | O => None
  | S fuel =>
    let prime_idx := prime_idx + 1 in
    new_len ← PRIMES !! Z.to_nat prime_idx;
    let new_load_limit := load new_len in
    if (new_load_limit <=? size) && (prime_idx <? N_PRIMES) then prime_loop fuel prime_idx size
    else Some (prime_idx, new_len, new_load_limit)
  end.

(** An element is put in front of its chain in the new table. *)
Definition push (new_len : Z) (t : list (list Z)) (p : Z) : option (list (list Z)) :=
  let b2 := Z.to_nat (hashfn (val p) mod new_len) in
  l ← t !! b2; Some (<[b2 := p :: l]> t).

Fixpoint push_all (new_len : Z) (ps : list Z) (t : list (list Z)) : option (list (list Z)) :=
  match ps with
  | [] => Some t
  | p :: ps => t ← push new_len t p; push_all new_len ps t
  end.

(** The chains of a table that was made longer, from the first [n] buckets on:
    elements that belong elsewhere are moved. *)
Fixpoint move_buckets (new_len : Z) (b : nat) (n : nat) (t : list (list Z)) : option (list (list Z)) :=
  match n with
  | O => Some t
  | S n =>
    l ← t !! b;
    let here p := bool_decide (Z.to_nat (hashfn (val p) mod new_len) = b) in
    t ← push_all new_len (filter (λ p, here p = false) l) (<[b := filter (λ p, here p = true) l]> t);
    move_buckets new_len (S b) n t
  end.

(** The result and the table; [malloc] and [realloc] say whether they succeed. *)
Definition HT_GROW (malloc realloc : bool) (head : ht) (size : Z) : option (Z * ht) :=
  if hth_prime_idx head =? N_PRIMES - 1 then Some (0, head)
  else if size <? hth_load_limit head then Some (0, head)
  else
    '(prime_idx, new_len, new_load_limit) ← prime_loop (S (Z.to_nat N_PRIMES)) (hth_prime_idx head) size;
    let old := default [] (hth_table head) in
    let n := Z.to_nat (hth_table_length head) in
    if negb (Nat.eqb (length old) n) then None
    else if malloc then
      t ← push_all new_len (mjoin old) (replicate (Z.to_nat new_len) []);
      Some (0, mk_ht (Some t) new_len (hth_n_entries head) new_load_limit prime_idx)
    else if realloc then
      t ← move_buckets new_len 0 n (old ++ replicate (Z.to_nat new_len - n) []);
      Some (0, mk_ht (Some t) new_len (hth_n_entries head) new_load_limit prime_idx)
    else Some (-1, head).

Definition grow_if_full (malloc realloc : bool) (head : ht) : option ht :=
  if bool_decide (hth_table head = None) || (hth_load_limit head <=? hth_n_entries head)
  then snd <$> HT_GROW malloc realloc head (hth_n_entries head + 1) else Some head.

Definition HT_INSERT (malloc realloc : bool) (head : ht) (elm : Z) : option ht :=
  head ← grow_if_full malloc realloc head;
  b ← HT_BUCKET_ head (val elm);
  t ← hth_table head;
  l ← t !! b;
  Some (set_hth_table (<[b := elm :: l]> t) (set_hth_n_entries (hth_n_entries head + 1) head)).

(** A location is given a new chain from there on. *)
Definition store (head : ht) (p : nat * nat) (tail : list Z) : option ht :=
  t ← hth_table head; l ← t !! fst p; Some (set_hth_table (<[fst p := take (snd p) l ++ tail]> t) head).
Definition rest (head : ht) (p : nat * nat) : option (list Z) :=
  t ← hth_table head; l ← t !! fst p; Some (drop (S (snd p)) l).

(** The element that was replaced and the table.  Replacing an element by itself
    counts it again; when there is nothing to replace, what follows the element is
    [next], which is what its field pointed to before. *)
Definition HT_REPLACE (malloc realloc : bool) (head : ht) (elm : Z) (next : list Z) : option (option Z * ht) :=
  head ← grow_if_full malloc realloc head;
  p ← HT_FIND_P_ head (val elm);
  p ← p;
  r ← deref head p;
  tail ← rest head p;
  match r with
  | Some r =>
    head ← store head p (elm :: tail);
    if bool_decide (r = elm) then Some (None, set_hth_n_entries (hth_n_entries head + 1) head) else Some (Some r, head)
  | None => head ← store head p (elm :: next); Some (None, set_hth_n_entries (hth_n_entries head + 1) head)
  end.

(** The element that has the key of [a], or [newent], which is put in at the end of the
    chain; [newent] has the key of [a]. *)
Definition HT_FIND_OR_INSERT_ (malloc realloc : bool) (head : ht) (a : A) (newent : Z) : option (Z * ht) :=
  head ← grow_if_full malloc realloc head;
  p ← HT_FIND_P_ head a;
  p ← p;
  r ← deref head p;
  match r with
  | Some r => Some (r, head)
  | None => head ← store head p [newent]; Some (newent, set_hth_n_entries (hth_n_entries head + 1) head)
  end.

Definition HT_REMOVE (head : ht) (a : A) : option (option Z * ht) :=
  p ← HT_FIND_P_ head a;
  match p with
  | None => Some (None, head)
  | Some p =>
    r ← deref head p;
    match r with
    | None => Some (None, head)
    | Some r => tail ← rest head p; head ← store head p tail; Some (Some r, set_hth_n_entries (hth_n_entries head - 1) head)
    end
  end.

(** [fn] says whether the element is removed. *)
Definition HT_FOREACH_FN (head : ht) (fn : Z → bool) : ht :=
  match hth_table head with
  | None => head
  | Some t =>
    let t' := (λ l, filter (λ p, fn p = false) l) <$> t in
    set_hth_table t' (set_hth_n_entries (hth_n_entries head - Z.of_nat (length (filter (λ p, fn p = true) (mjoin t)))) head)
  end.

(** ** Iteration *)

(** The first location at bucket [b] or later that has an element. *)
Fixpoint next_bucket (n : nat) (t : list (list Z)) (b : nat) : option (option (nat * nat)) :=
  match n with
  | O => Some None
  | S n => l ← t !! b; match l with [] => next_bucket n t (S b) | _ => Some (Some (b, 0%nat)) end
  end.
Definition from_bucket (head : ht) (b : nat) : option (option (nat * nat)) :=
  next_bucket (Z.to_nat (hth_table_length head) - b) (default [] (hth_table head)) b.

Definition HT_START (head : ht) : option (option (nat * nat)) := from_bucket head 0.

Definition HT_NEXT (head : ht) (elm : nat * nat) : option (option (nat * nat)) :=
  r ← deref head elm;
  r ← r;
  tail ← rest head elm;
  match tail with
  | _ :: _ => Some (Some (fst elm, S (snd elm)))
  | [] => b ← HT_BUCKET_ head (val r); from_bucket head (S b)
  end.

(** The table without the element, and the next location. *)
Definition HT_NEXT_RMV (head : ht) (elm : nat * nat) : option (ht * option (nat * nat)) :=
  r ← deref head elm;
  r ← r;
  b ← HT_BUCKET_ head (val r);
  tail ← rest head elm;
  head ← store head elm tail;
  let head := set_hth_n_entries (hth_n_entries head - 1) head in
  match tail with
  | _ :: _ => Some (head, Some elm)
  | [] => next ← from_bucket head (S b); Some (head, next)
  end.

(** [HT_FOREACH], as the elements that the loop visits. *)
Fixpoint HT_FOREACH (fuel : nat) (head : ht) (x : option (nat * nat)) : option (list Z) :=
  match x with
  | None => Some []
  | Some x =>
    match fuel with
    | O => None
    | S fuel => r ← deref head x; r ← r; next ← HT_NEXT head x; cons r <$> HT_FOREACH fuel head next
    end
  end.

Definition HT_CLEAR (_ : ht) : ht := HT_INIT.

(** ** The check of the representation *)

Fixpoint rep_chain (n i : Z) (l : list Z) : option Z :=
  match l with
  | [] => None
  | p :: l => if negb (hashfn (val p) mod n =? i) then Some (10000 + i) else rep_chain n i l
  end.
Fixpoint rep_buckets (n i : Z) (t : list (list Z)) : option Z :=
  match t with
  | [] => None
  | l :: t => match rep_chain n i l with Some r => Some r | None => rep_buckets n (i + 1) t end
  end.

Definition HT_REP_IS_BAD_ (head : ht) : option Z :=
  if hth_table_length head =? 0 then
    Some (if bool_decide (hth_table head = None) && (hth_n_entries head =? 0) && (hth_load_limit head =? 0) && (hth_prime_idx head =? -1) then 0 else 1)
  else
    match hth_table head with
    | None => Some 2
    | Some t =>
      if (hth_prime_idx head <? 0) || (hth_load_limit head =? 0) then Some 2
      else if hth_load_limit head <? hth_n_entries head then Some 3
      else
        prime ← PRIMES !! Z.to_nat (hth_prime_idx head);
        if negb (hth_table_length head =? prime) then Some 4
        else if negb (hth_load_limit head =? load (hth_table_length head)) then Some 5
        else if negb (Z.of_nat (length t) =? hth_table_length head) then None
        else match rep_buckets (hth_table_length head) 0 t with
             | Some r => Some r
             | None => Some (if Z.of_nat (length (mjoin t)) =? hth_n_entries head then 0 else 6)
             end
    end.

(** ** Sequences of operations *)

(** Every operation that may have to allocate says whether it can; an element that
    replaces another one has NULL as its link. *)
Inductive ht_op :=
| op_find (a : A) | op_insert (p : Z) (malloc realloc : bool) | op_replace (p : Z) (malloc realloc : bool)
| op_find_or_insert (a : A) (p : Z) (malloc realloc : bool) | op_remove (a : A).

Definition apply_op (head : ht) (o : ht_op) : option (option Z * ht) :=
  match o with
  | op_find a => r ← HT_FIND head a; Some (r, head)
  | op_insert p malloc realloc => head ← HT_INSERT malloc realloc head p; Some (None, head)
  | op_replace p malloc realloc => HT_REPLACE malloc realloc head p []
  | op_find_or_insert a p malloc realloc => '(r, head) ← HT_FIND_OR_INSERT_ malloc realloc head a p; Some (Some r, head)
  | op_remove a => HT_REMOVE head a
  end.

Fixpoint apply_ops (head : ht) (ops : list ht_op) : option (list (option Z) * ht) :=
  match ops with
  | [] => Some ([], head)
  | o :: ops => '(r, head) ← apply_op head o; '(rs, head) ← apply_ops head ops; Some (r :: rs, head)
  end.
End ops.
