(* ===== verification/HashTableProps.v ===== *)
(** * Hash tables are finite maps *)

From stdpp Require Import gmap.
From S2P Require Import Prelude HashTable.

Section props.
Context {A K : Type} `{Countable K} (hashfn : A → Z) (eqfn : A → A → bool) (load : Z → Z) (val : Z → A) (key : A → K).
(** Elements are compared by their keys, equal keys have equal hashes, and a table
    has room for less elements than it has buckets. *)
Context (eq_key : ∀ a b, eqfn a b = bool_decide (key a = key b)) (hash_key : ∀ a b, key a = key b → hashfn a = hashfn b).

Definition keyof (p : Z) : K := key (val p).
Definition elements (head : ht) : list Z := mjoin (default [] (hth_table head)).
Definition in_place (n : Z) (t : list (list Z)) : Prop :=
  ∀ i l p, t !! i = Some l → p ∈ l → Z.to_nat (hashfn (val p) mod n) = i.

(** A table is empty, or has buckets with elements that have different keys, each
    in the bucket of its hash. *)
Record ht_ok (head : ht) : Prop := {
  ht_table : match hth_table head with
             | None => hth_table_length head = 0 ∧ hth_load_limit head = 0 ∧ hth_prime_idx head = -1
             | Some t => Z.of_nat (length t) = hth_table_length head ∧ 0 < hth_table_length head ∧ 0 <= hth_prime_idx head < N_PRIMES ∧
                         PRIMES !! Z.to_nat (hth_prime_idx head) = Some (hth_table_length head) ∧ hth_load_limit head = load (hth_table_length head) ∧
                         in_place (hth_table_length head) t
             end;
  ht_keys : NoDup (keyof <$> elements head);
  ht_count : hth_n_entries head = Z.of_nat (length (elements head))
}.

Definition content (head : ht) : gmap K Z := list_to_map ((λ p, (keyof p, p)) <$> elements head).

Lemma keys_pairs (l : list Z) : ((λ p, (keyof p, p)) <$> l).*1 = keyof <$> l.
Proof. by rewrite <- list_fmap_compose. Qed.

Lemma content_lookup head k p : NoDup (keyof <$> elements head) → content head !! k = Some p ↔ p ∈ elements head ∧ keyof p = k.
Proof.
  clear load. intros Hnd. unfold content. rewrite <- elem_of_list_to_map by (by rewrite keys_pairs). rewrite list_elem_of_fmap. naive_solver.
Qed.

Lemma content_none head k : content head !! k = None ↔ ∀ p, p ∈ elements head → keyof p ≠ k.
Proof.
  clear load. unfold content. rewrite <- not_elem_of_list_to_map, keys_pairs, list_elem_of_fmap. naive_solver.
Qed.

Lemma content_perm l l' : NoDup (keyof <$> l) → l ≡ₚ l' →
  (list_to_map ((λ p, (keyof p, p)) <$> l) : gmap K Z) = list_to_map ((λ p, (keyof p, p)) <$> l').
Proof. intros Hnd Hp. apply list_to_map_proper; [by rewrite keys_pairs|]. by rewrite Hp. Qed.

(** ** Finding *)

Lemma find_in_spec a l : match l !! find_in eqfn val a l with
  | Some p => p ∈ l ∧ keyof p = key a ∧ (∀ q, q ∈ take (find_in eqfn val a l) l → keyof q ≠ key a)
  | None => find_in eqfn val a l = length l ∧ ∀ q, q ∈ l → keyof q ≠ key a
  end.
Proof.
  induction l as [|p l IH]; cbn; [split; [done|by intros q ?%elem_of_nil]|]. rewrite eq_key. case_bool_decide as E; cbn.
  - split; [apply list_elem_of_here|]. split; [done|by intros q ?%elem_of_nil].
  - destruct (l !! find_in eqfn val a l) as [q|].
    + destruct IH as (H1 & H2 & H3). split; [by apply list_elem_of_further|]. split; [done|]. intros q' [->|Hq]%elem_of_cons; auto.
    + destruct IH as [H1 H2]. split; [congruence|]. intros q [->|Hq]%elem_of_cons; auto.
Qed.

Lemma bucket_some head t a : ht_ok head → hth_table head = Some t →
  ∃ l, HT_BUCKET_ hashfn head a = Some (Z.to_nat (hashfn a mod hth_table_length head)) ∧ t !! Z.to_nat (hashfn a mod hth_table_length head) = Some l.
Proof.
  intros [Ht _ _] Et. rewrite Et in Ht. destruct Ht as (Hlen & Hpos & _). unfold HT_BUCKET_. destruct (Z.eqb_spec (hth_table_length head) 0); [lia|].
  pose proof (Z.mod_pos_bound (hashfn a) (hth_table_length head) Hpos). destruct (lookup_lt_is_Some_2 t (Z.to_nat (hashfn a mod hth_table_length head))) as [l Hl]; [lia|].
  by exists l.
Qed.

(** An element with the key of [a] can only be in the bucket of [a]. *)
Lemma elements_bucket head t a p : ht_ok head → hth_table head = Some t → p ∈ elements head → keyof p = key a →
  ∃ l, t !! Z.to_nat (hashfn a mod hth_table_length head) = Some l ∧ p ∈ l.
Proof.
  intros [Ht _ _] Et Hp Hk. rewrite Et in Ht. destruct Ht as (_ & _ & _ & _ & _ & Hpl). unfold elements in Hp. rewrite Et in Hp. cbn in Hp.
  apply list_elem_of_join in Hp as (l & Hpl' & Hl). apply list_elem_of_lookup in Hl as [i Hi]. exists l.
  rewrite <- (hash_key (val p) a Hk), (Hpl i l p Hi Hpl'). done.
Qed.

Lemma in_elements head t i l p : hth_table head = Some t → t !! i = Some l → p ∈ l → p ∈ elements head.
Proof. intros Et Hi Hp. unfold elements. rewrite Et. apply list_elem_of_join. exists l. split; [done|]. by eapply list_elem_of_lookup_2. Qed.

(** Looking an element up finds what the map has. *)
Lemma find_ok head a : ht_ok head → HT_FIND hashfn eqfn val head a = Some (content head !! key a).
Proof.
  intros Hok. unfold HT_FIND, HT_FIND_P_. destruct (hth_table head) as [t|] eqn:Et.
  - destruct (bucket_some head t a Hok Et) as (l & -> & Hl). cbn [mbind option_bind]. rewrite Hl. cbn [mbind option_bind]. unfold deref. rewrite Et. cbn [mbind option_bind fst snd]. rewrite Hl.
    cbn [mbind option_bind]. f_equal. pose proof (find_in_spec a l) as Hs. destruct (l !! find_in eqfn val a l) as [p|] eqn:Ep.
    + destruct Hs as (H1 & H2 & _). symmetry. apply content_lookup; [apply Hok|]. split; [by eapply in_elements|done].
    + destruct Hs as [_ Hs]. symmetry. apply content_none. intros p Hp Hk. destruct (elements_bucket head t a p Hok Et Hp Hk) as (l' & Hl' & Hp').
      rewrite Hl in Hl'. injection Hl' as <-. by apply (Hs p).
  - cbn. f_equal. symmetry. apply content_none. intros p. unfold elements. rewrite Et. cbn. by intros ?%elem_of_nil.
Qed.

(** ** Growing *)

Lemma elem_join (t : list (list Z)) p : p ∈ mjoin t ↔ ∃ i l, t !! i = Some l ∧ p ∈ l.
Proof.
  rewrite list_elem_of_join. split.
  - intros (l & Hp & [i Hi]%list_elem_of_lookup). eauto.
  - intros (i & l & Hi & Hp). exists l. split; [done|]. by eapply list_elem_of_lookup_2.
Qed.

Lemma push_all_ok n ps : 0 < n → ∀ t, Z.of_nat (length t) = n → ∃ t', push_all hashfn val n ps t = Some t' ∧ length t' = length t ∧ mjoin t' ≡ₚ ps ++ mjoin t ∧
  ∀ i l' p, t' !! i = Some l' → p ∈ l' → (∃ l, t !! i = Some l ∧ p ∈ l) ∨ Z.to_nat (hashfn (val p) mod n) = i.
Proof.
  intros Hn. induction ps as [|q ps IH]; intros t Hl; cbn [push_all].
  { exists t. do 3 (split; [done|]). eauto. }
  unfold push at 1. set (b := Z.to_nat (hashfn (val q) mod n)). pose proof (Z.mod_pos_bound (hashfn (val q)) n Hn).
  destruct (lookup_lt_is_Some_2 t b) as [l Hb]; [unfold b; lia|]. rewrite Hb. cbn [mbind option_bind].
  destruct (IH (<[b := q :: l]> t)) as (t' & E & Hlen & Hperm & Hin); [by rewrite length_insert|]. exists t'. split; [exact E|]. split; [by rewrite Hlen, length_insert|]. split.
  - rewrite Hperm. cbn. rewrite (Permutation_app_inv_r l (mjoin (<[b := q :: l]> t)) (q :: mjoin t)); [by rewrite Permutation_middle|].
    rewrite (join_insert t b l (q :: l) Hb). cbn. symmetry. apply Permutation_middle.
  - intros i l' p Hi Hp. destruct (Hin i l' p Hi Hp) as [(l0 & Hl0 & Hp0)|?]; [|by right].
    apply list_lookup_insert_Some in Hl0 as [(<- & <- & _)|[_ Hl0]]; [|left; eauto]. apply elem_of_cons in Hp0 as [->|Hp0]; [by right|left; eauto].
Qed.

Lemma filter_split (P : Z → bool) l : l ≡ₚ filter (λ p, P p = false) l ++ filter (λ p, P p = true) l.
Proof.
  induction l as [|p l IH]; [done|]. destruct (P p) eqn:E.
  - rewrite filter_cons_False, filter_cons_True by congruence. rewrite <- Permutation_middle. by rewrite <- IH.
  - rewrite filter_cons_True, filter_cons_False by congruence. cbn. by rewrite <- IH.
Qed.

Lemma move_buckets_ok n k : 0 < n → ∀ b t, Z.of_nat (length t) = n → (b + k <= length t)%nat →
  (∀ i l p, t !! i = Some l → p ∈ l → (i < b ∨ b + k <= i)%nat → Z.to_nat (hashfn (val p) mod n) = i) →
  ∃ t', move_buckets hashfn val n b k t = Some t' ∧ length t' = length t ∧ mjoin t' ≡ₚ mjoin t ∧ in_place n t'.
Proof.
  intros Hn. induction k as [|k IH]; intros b t Hl Hb Hin; cbn [move_buckets].
  { exists t. do 3 (split; [done|]). intros i l p Hi Hp. apply (Hin i l p Hi Hp). lia. }
  destruct (lookup_lt_is_Some_2 t b) as [l Hlb]; [lia|]. rewrite Hlb. cbn [mbind option_bind].
  set (here := λ p, bool_decide (Z.to_nat (hashfn (val p) mod n) = b)). set (kept := filter (λ p, here p = true) l).
  destruct (push_all_ok n (filter (λ p, here p = false) l) Hn (<[b := kept]> t)) as (t1 & E1 & Hl1 & Hp1 & Hin1); [by rewrite length_insert|].
  rewrite length_insert in Hl1. unfold kept, here in E1. rewrite E1. cbn [mbind option_bind].
  destruct (IH (S b) t1) as (t' & -> & Hl' & Hp' & Hin'); [lia|lia| |].
  - intros i l' p Hi Hp Hrange. destruct (Hin1 i l' p Hi Hp) as [(l0 & Hl0 & Hp0)|?]; [|done].
    apply list_lookup_insert_Some in Hl0 as [(<- & <- & _)|[Hne Hl0]].
    + unfold kept in Hp0. apply list_elem_of_filter in Hp0 as [Hh _]. unfold here in Hh. by apply bool_decide_eq_true in Hh.
    + apply (Hin i l0 p Hl0 Hp0). lia.
  - exists t'. split; [done|]. split; [congruence|]. split; [|done]. rewrite Hp', Hp1.
    apply (Permutation_app_inv_r l). rewrite <- app_assoc, (join_insert t b l kept Hlb), app_assoc, (Permutation_app_comm _ (mjoin t)), <- app_assoc.
    apply Permutation_app_head. symmetry. apply filter_split.
Qed.

(** The largest table has room for [max_entries] elements. *)
Definition max_entries : Z := load 1610612741.

Lemma primes_pos i n : PRIMES !! i = Some n → 0 < n.
Proof.
  intros Hi. assert (Hall : Forall (λ n, 0 < n) PRIMES) by (by repeat constructor). by eapply (Forall_lookup_1 _ _ i n Hall).
Qed.

Lemma prime_loop_ok k : ∀ idx size fuel, idx = 25 - Z.of_nat k → (0 < k <= 26)%nat → size < max_entries → (k < fuel)%nat →
  ∃ idx' n, prime_loop load fuel idx size = Some (idx', n, load n) ∧ idx < idx' < N_PRIMES ∧ PRIMES !! Z.to_nat idx' = Some n.
Proof.
  induction k as [|k IH]; intros idx size fuel Hidx Hk Hsize Hf; [lia|]. destruct fuel as [|fuel]; [lia|]. cbn [prime_loop].
  destruct (lookup_lt_is_Some_2 PRIMES (Z.to_nat (idx + 1))) as [n Hn]; [change (length PRIMES) with 26%nat; lia|]. rewrite Hn. cbn [mbind option_bind].
  change N_PRIMES with 26. destruct (Z.leb_spec (load n) size) as [Hle|Hgt]; cbn [andb].
  - assert (k ≠ 0%nat). { intros ->. replace (idx + 1) with 25 in Hn by lia. assert (n = 1610612741) as -> by (vm_compute in Hn; congruence). unfold max_entries in Hsize. lia. }
    destruct (Z.ltb_spec (idx + 1) 26); [|lia]. destruct (IH (idx + 1) size fuel) as (idx' & n' & -> & Hi & Hn'); [lia..|]. exists idx', n'. split; [done|]. change N_PRIMES with 26 in Hi. split; [lia|done].
  - exists (idx + 1), n. split; [done|]. split; [lia|done].
Qed.

Lemma primes_increase i j n m : PRIMES !! i = Some n → PRIMES !! j = Some m → (i < j)%nat → n < m.
Proof.
  intros Hi Hj Hlt. assert (Hall : forallb (λ i, forallb (λ j, (j <=? i)%nat || (default 0 (PRIMES !! i) <? default 0 (PRIMES !! j))) (seq 0 26)) (seq 0 26) = true)
    by (vm_compute; done).
  rewrite forallb_forall in Hall. assert (j < 26)%nat by (apply lookup_lt_Some in Hj; exact Hj).
  specialize (Hall i ltac:(apply in_seq; lia)). rewrite forallb_forall in Hall. specialize (Hall j ltac:(apply in_seq; lia)).
  rewrite Hi, Hj in Hall. cbn in Hall. apply orb_true_iff in Hall as [?%Nat.leb_le|?%Z.ltb_lt]; lia.
Qed.

Lemma join_replicate_nil n : mjoin (replicate n ([] : list Z)) = [].
Proof. by induction n. Qed.

Definition has_table (head : ht) : Prop := is_Some (hth_table head).

(** The old chains put into a fresh table. *)
Lemma fresh_table_ok n (old : list (list Z)) : 0 < n → ∃ t, push_all hashfn val n (mjoin old) (replicate (Z.to_nat n) []) = Some t ∧
  length t = Z.to_nat n ∧ mjoin t ≡ₚ mjoin old ∧ in_place n t.
Proof.
  intros Hpos. destruct (push_all_ok n (mjoin old) Hpos (replicate (Z.to_nat n) [])) as (t' & -> & Hl' & Hp' & Hin'); [rewrite length_replicate; lia|].
  rewrite length_replicate in Hl'. rewrite join_replicate_nil, app_nil_r in Hp'. exists t'. do 3 (split; [done|]).
  intros i l p Hi Hp. destruct (Hin' i l p Hi Hp) as [(l0 & Hl0 & Hp0)|?]; [|done]. apply lookup_replicate in Hl0 as [-> _]. by apply elem_of_nil in Hp0.
Qed.

(** The old table made longer. *)
Lemma longer_table_ok n (old : list (list Z)) : 0 < n → Z.of_nat (length old) <= n →
  ∃ t, move_buckets hashfn val n 0 (length old) (old ++ replicate (Z.to_nat n - length old) []) = Some t ∧ length t = Z.to_nat n ∧ mjoin t ≡ₚ mjoin old ∧ in_place n t.
Proof.
  intros Hpos Hle. assert (Hlen : length (old ++ replicate (Z.to_nat n - length old) []) = Z.to_nat n) by (rewrite length_app, length_replicate; lia).
  destruct (move_buckets_ok n (length old) Hpos 0 (old ++ replicate (Z.to_nat n - length old) [])) as (t & -> & Hl & Hp & Hin); [lia|rewrite Hlen; lia| |].
  - intros i l p Hi Hp [?|Hge]; [lia|]. rewrite lookup_app_r in Hi by lia. apply lookup_replicate in Hi as [-> _]. by apply elem_of_nil in Hp.
  - exists t. split; [done|]. split; [congruence|]. split; [|done]. by rewrite Hp, join_app, join_replicate_nil, app_nil_r.
Qed.

Lemma new_table_ok head idx n t : ht_ok head → 0 <= idx < N_PRIMES → PRIMES !! Z.to_nat idx = Some n → length t = Z.to_nat n →
  mjoin t ≡ₚ elements head → in_place n t → ht_ok (mk_ht (Some t) n (hth_n_entries head) (load n) idx).
Proof.
  intros [_ Hk Hc] Hidx Hn Hl Hp Hin. pose proof (primes_pos _ _ Hn). split; cbn.
  - split; [lia|]. done.
  - unfold elements. cbn. by rewrite Hp.
  - unfold elements. cbn. by rewrite Hp.
Qed.

(** Growing keeps the elements; a table of [size] elements exists afterwards when
    there was one, or when one allocation succeeds. *)
Lemma grow_ok malloc realloc head size : ht_ok head → 0 <= size < max_entries → ∃ r head', HT_GROW hashfn load val malloc realloc head size = Some (r, head') ∧
  ht_ok head' ∧ elements head' ≡ₚ elements head ∧ hth_n_entries head' = hth_n_entries head ∧
  (has_table head ∨ malloc || realloc = true → has_table head').
Proof.
  intros Hok Hsize. destruct (Hok) as [Ht Hkeys Hcount]. unfold HT_GROW. change (N_PRIMES - 1) with 25.
  destruct (Z.eqb_spec (hth_prime_idx head) 25) as [E25|Hne].
  { exists 0, head. do 4 (split; [done|]). intros _. unfold has_table. destruct (hth_table head); [eauto|]. lia. }
  destruct (Z.ltb_spec size (hth_load_limit head)) as [Hlt|Hge].
  { exists 0, head. do 4 (split; [done|]). intros _. unfold has_table. destruct (hth_table head); [eauto|]. lia. }
  assert (Hidx : -1 <= hth_prime_idx head < 25 ∧ length (default [] (hth_table head)) = Z.to_nat (hth_table_length head) ∧ 0 <= hth_table_length head).
  { destruct (hth_table head) as [t|]; cbn; [change N_PRIMES with 26 in Ht; lia|lia]. }
  destruct Hidx as (Hidx & Hold & Hlen0).
  destruct (prime_loop_ok (Z.to_nat (25 - hth_prime_idx head)) (hth_prime_idx head) size (S (Z.to_nat N_PRIMES))) as (idx' & n & -> & Hidx' & Hn);
    [lia|lia|lia|change (Z.to_nat N_PRIMES) with 26%nat; lia|].
  cbn [mbind option_bind]. rewrite Hold, Nat.eqb_refl. cbn [negb]. assert (Hpos := primes_pos _ _ Hn).
  destruct malloc; [|destruct realloc].
  - destruct (fresh_table_ok n (default [] (hth_table head)) Hpos) as (t & -> & Hl & Hp & Hin). eexists _, _. split; [done|].
    split; [apply new_table_ok; [done|lia|done..]|]. split; [done|]. split; [done|]. intros _. unfold has_table. cbn. eauto.
  - assert (hth_table_length head <= n).
    { destruct (hth_table head) as [t|]; [|lia]. destruct Ht as (_ & _ & ? & Hold' & _). apply Z.lt_le_incl. eapply (primes_increase _ _ _ _ Hold' Hn). lia. }
    destruct (longer_table_ok n (default [] (hth_table head)) Hpos ltac:(lia)) as (t & E & Hl & Hp & Hin). rewrite Hold in E. rewrite E. eexists _, _. split; [done|].
    split; [apply new_table_ok; [done|lia|done..]|]. split; [done|]. split; [done|]. intros _. unfold has_table. cbn. eauto.
  - exists (-1), head. do 4 (split; [done|]). intros [?|?]; done.
Qed.

(** ** Inserting, removing and replacing *)

Lemma grow_if_full_ok malloc realloc head : ht_ok head → hth_n_entries head + 1 < max_entries → has_table head ∨ malloc || realloc = true →
  ∃ head' t, grow_if_full hashfn load val malloc realloc head = Some head' ∧ ht_ok head' ∧ hth_table head' = Some t ∧ elements head' ≡ₚ elements head.
Proof.
  intros Hok Hmax Hmem. unfold grow_if_full. destruct (bool_decide _ || _) eqn:E.
  - destruct (grow_ok malloc realloc head (hth_n_entries head + 1) Hok) as (r & head' & -> & Hok' & Hp & _ & Hh); [destruct Hok; lia|].
    destruct (Hh Hmem) as [t Ht]. exists head', t. done.
  - apply orb_false_iff in E as [E _]. apply bool_decide_eq_false in E. destruct (hth_table head) as [t|] eqn:Et; [|done]. by exists head, t.
Qed.

(** A chain is replaced by another one. *)
Lemma set_bucket_ok head t b l l' c : ht_ok head → hth_table head = Some t → t !! b = Some l →
  (∀ p, p ∈ l' → Z.to_nat (hashfn (val p) mod hth_table_length head) = b) →
  NoDup (keyof <$> mjoin (<[b := l']> t)) → c = Z.of_nat (length (mjoin (<[b := l']> t))) →
  ht_ok (set_hth_n_entries c (set_hth_table (<[b := l']> t) head)).
Proof.
  intros [Ht _ _] Et Hb Hl' Hnd Hc. rewrite Et in Ht. destruct Ht as (? & ? & ? & ? & ? & Hin). split; cbn; [|done..].
  rewrite length_insert. do 5 (split; [done|]). intros i l0 p Hi Hp. apply list_lookup_insert_Some in Hi as [(<- & <- & _)|[_ Hi]]; eauto.
Qed.

Lemma content_cons head head' p : ht_ok head' → elements head' ≡ₚ p :: elements head → content head' = <[keyof p := p]> (content head).
Proof. intros [_ Hnd _] Hp. unfold content. by rewrite (content_perm _ _ Hnd Hp). Qed.

Lemma content_same head head' : ht_ok head → elements head' ≡ₚ elements head → content head' = content head.
Proof. intros [_ Hnd _] Hp. symmetry. by apply content_perm. Qed.

Lemma nodup_cons_perm (l l' : list Z) p : l' ≡ₚ p :: l → NoDup (keyof <$> l) → (∀ q, q ∈ l → keyof q ≠ keyof p) → NoDup (keyof <$> l').
Proof. intros -> Hnd Hnew. cbn. constructor; [|done]. rewrite list_elem_of_fmap. intros (q & Hq & Hin). by apply (Hnew q). Qed.

(** A new element in the chain of its hash. *)
Lemma added_ok head t l l' p : let b := Z.to_nat (hashfn (val p) mod hth_table_length head) in
  ht_ok head → hth_table head = Some t → t !! b = Some l → l' ≡ₚ p :: l → content head !! keyof p = None →
  let head' := set_hth_n_entries (hth_n_entries head + 1) (set_hth_table (<[b := l']> t) head) in
  ht_ok head' ∧ content head' = <[keyof p := p]> (content head) ∧ has_table head'.
Proof.
  intros b Hok Et Hl Hl' Hnew head'. assert (Heh : mjoin t = elements head) by (unfold elements; by rewrite Et).
  assert (Hperm : elements head' ≡ₚ p :: elements head).
  { rewrite <- Heh. apply (Permutation_app_inv_r l). change (elements head') with (mjoin (<[b := l']> t)). rewrite (join_insert t b l l' Hl), Hl'. symmetry. apply Permutation_middle. }
  assert (Hok' : ht_ok head').
  { eapply set_bucket_ok; [done|done|exact Hl| | |].
    - intros q. rewrite Hl'. intros [->|Hq]%elem_of_cons; [done|]. destruct Hok as [Ht _ _]. rewrite Et in Ht. by eapply Ht.
    - eapply nodup_cons_perm; [exact Hperm|apply Hok|by apply content_none].
    - change (mjoin _) with (elements head'). rewrite Hperm, (ht_count _ Hok). cbn. lia. }
  split; [done|]. split; [by apply content_cons|]. unfold has_table. cbn. eauto.
Qed.

Lemma insert_ok malloc realloc head p : ht_ok head → content head !! keyof p = None → hth_n_entries head + 1 < max_entries → has_table head ∨ malloc || realloc = true →
  ∃ head', HT_INSERT hashfn load val malloc realloc head p = Some head' ∧ ht_ok head' ∧ content head' = <[keyof p := p]> (content head) ∧ has_table head'.
Proof.
  intros Hok Hnew Hmax Hmem. unfold HT_INSERT. destruct (grow_if_full_ok malloc realloc head Hok Hmax Hmem) as (h & t & -> & Hokh & Et & Hp). cbn [mbind option_bind].
  destruct (bucket_some h t (val p) Hokh Et) as (l & -> & Hl). cbn [mbind option_bind]. rewrite Et. cbn [mbind option_bind]. rewrite Hl. cbn [mbind option_bind].
  rewrite <- (content_same head h Hok Hp) in *. eexists. split; [done|]. by apply (added_ok h t l (p :: l) p).
Qed.

(** Where an element is found: a chain and what it has before and after. *)
Lemma find_p_ok head t a : ht_ok head → hth_table head = Some t →
  ∃ b k l, HT_FIND_P_ hashfn eqfn val head a = Some (Some (b, k)) ∧ b = Z.to_nat (hashfn a mod hth_table_length head) ∧ t !! b = Some l ∧
    deref head (b, k) = Some (content head !! key a) ∧ l !! k = content head !! key a ∧
    (content head !! key a = None → k = length l).
Proof.
  intros Hok Et. pose proof (find_ok head a Hok) as Hf. unfold HT_FIND, HT_FIND_P_ in *. rewrite Et in *. destruct (bucket_some head t a Hok Et) as (l & Hb & Hl). rewrite Hb in *.
  cbn [mbind option_bind] in *. rewrite Hl in *. cbn [mbind option_bind] in *. eexists _, _, l. split; [done|]. split; [done|]. split; [done|]. split; [done|].
  unfold deref in Hf. rewrite Et in Hf. cbn [mbind option_bind fst snd] in Hf. rewrite Hl in Hf. cbn in Hf. injection Hf as Hf. split; [done|].
  intros Hn. rewrite Hn in Hf. pose proof (find_in_spec a l) as Hs. rewrite Hf in Hs. apply Hs.
Qed.

(** An element of a chain is replaced by the elements [x]. *)
Lemma swap_perm (t : list (list Z)) b l k r x : t !! b = Some l → l !! k = Some r → r :: mjoin (<[b := take k l ++ x ++ drop (S k) l]> t) ≡ₚ x ++ mjoin t.
Proof.
  intros Hb Hk. apply (Permutation_app_inv_r (take k l ++ drop (S k) l)). cbn. rewrite Permutation_middle, (Permutation_middle (take k l)), (take_drop_middle l k r Hk).
  rewrite (join_insert t b l _ Hb), (app_assoc (take k l) x), (Permutation_app_comm (take k l) x), !app_assoc, (Permutation_app_comm x (mjoin t)). done.
Qed.

(** The keys of what is left when [r] is taken away. *)
Lemma keys_without l l' r : NoDup (keyof <$> l) → l ≡ₚ r :: l' → NoDup (keyof <$> l') ∧ ∀ q, q ∈ l' → keyof q ≠ keyof r.
Proof.
  intros Hnd Hp. rewrite Hp in Hnd. cbn in Hnd. apply NoDup_cons in Hnd as [Hnot Hnd]. split; [done|]. intros q Hq E. apply Hnot. rewrite <- E. by apply list_elem_of_fmap_2.
Qed.

Lemma elem_around (l x : list Z) k q : q ∈ take k l ++ x ++ drop (S k) l → q ∈ x ∨ q ∈ l.
Proof.
  rewrite !elem_of_app. intros [Hq|[?|Hq]]; [right|by left|right].
  - rewrite <- (take_drop k l). apply elem_of_app. by left.
  - rewrite <- (take_drop (S k) l). apply elem_of_app. by right.
Qed.

Definition without (head : ht) (t : list (list Z)) (b k : nat) (l : list Z) : ht :=
  set_hth_n_entries (hth_n_entries head - 1) (set_hth_table (<[b := take k l ++ [] ++ drop (S k) l]> t) head).

Lemma without_ok head t b k l r : ht_ok head → hth_table head = Some t → t !! b = Some l → l !! k = Some r →
  ht_ok (without head t b k l) ∧ elements head ≡ₚ r :: elements (without head t b k l) ∧ content (without head t b k l) = delete (keyof r) (content head).
Proof.
  intros Hok Et Hb Hk. assert (Heh : mjoin t = elements head) by (unfold elements; by rewrite Et).
  assert (Hperm : elements head ≡ₚ r :: elements (without head t b k l)) by (rewrite <- Heh; symmetry; exact (swap_perm t b l k r [] Hb Hk)).
  destruct (keys_without _ _ _ (ht_keys _ Hok) Hperm) as [Hnd Hne]. split_and!; [|done|].
  - eapply set_bucket_ok; [done|done|exact Hb| |exact Hnd|].
    + intros q [[]%elem_of_nil|Hq]%elem_around. destruct Hok as [Ht _ _]. rewrite Et in Ht. by eapply Ht.
    + rewrite (ht_count _ Hok), Hperm. cbn. unfold elements. cbn. lia.
  - rewrite (content_cons (without head t b k l) head r Hok Hperm), delete_insert_id; [done|]. by apply content_none.
Qed.

Lemma remove_ok head a : ht_ok head →
  ∃ head', HT_REMOVE hashfn eqfn val head a = Some (content head !! key a, head') ∧ ht_ok head' ∧ content head' = delete (key a) (content head) ∧
    (has_table head → has_table head').
Proof.
  intros Hok. destruct (hth_table head) as [t|] eqn:Et.
  2: { exists head. assert (content head = ∅) as -> by (unfold content, elements; by rewrite Et). split; [unfold HT_REMOVE, HT_FIND_P_; by rewrite Et|]. rewrite delete_empty. done. }
  destruct (find_p_ok head t a Hok Et) as (b & k & l & Hfp & Hb & Hl & Hd & Hk & _). unfold HT_REMOVE. rewrite Hfp. cbn [mbind option_bind]. rewrite Hd. cbn [mbind option_bind].
  destruct (content head !! key a) as [r|] eqn:Ec; [|exists head; rewrite (delete_id _ _ Ec); done].
  unfold rest, store. rewrite Et. cbn [mbind option_bind fst snd]. rewrite Hl. cbn [mbind option_bind]. apply content_lookup in Ec as [_ Hkr]; [|apply Hok].
  destruct (without_ok head t b k l r Hok Et Hl Hk) as (Hok' & _ & Hc). exists (without head t b k l). split; [done|]. split; [done|]. split; [by rewrite Hc, Hkr|].
  intros _. unfold has_table. cbn. eauto.
Qed.

(** An element that is not in the table takes the place of the one with its key. *)
Lemma replaced_ok head t b k l r p : ht_ok head → hth_table head = Some t → t !! b = Some l → l !! k = Some r → keyof r = keyof p →
  Z.to_nat (hashfn (val p) mod hth_table_length head) = b → let head' := set_hth_table (<[b := take k l ++ [p] ++ drop (S k) l]> t) head in
  ht_ok head' ∧ content head' = <[keyof p := p]> (content head).
Proof.
  intros Hok Et Hb Hk Hkey Hp head'. assert (Heh : mjoin t = elements head) by (unfold elements; by rewrite Et).
  destruct (without_ok head t b k l r Hok Et Hb Hk) as (Hok0 & Hperm & Hc). assert (Hnew : elements head' ≡ₚ p :: elements (without head t b k l)).
  { apply (Permutation_cons_inv (a := r)). rewrite (swap_perm t b l k r [p] Hb Hk : r :: elements head' ≡ₚ _), Heh, Hperm. apply Permutation_swap. }
  assert (Hok' : ht_ok head').
  { change head' with (set_hth_n_entries (hth_n_entries head) head'). eapply set_bucket_ok; [done|done|exact Hb| | |].
    - intros q [->%list_elem_of_singleton|Hq]%elem_around; [done|]. destruct Hok as [Ht _ _]. rewrite Et in Ht. by eapply Ht.
    - eapply nodup_cons_perm; [exact Hnew|apply Hok0|]. rewrite <- Hkey. by eapply keys_without; [apply Hok|].
    - change (mjoin _) with (elements head'). rewrite Hnew, (ht_count _ Hok), Hperm. done. }
  split; [done|]. rewrite (content_cons _ _ _ Hok' Hnew), Hc, Hkey. apply insert_delete_eq.
Qed.

(** The element that is put in has NULL as its link. *)
Lemma replace_ok malloc realloc head p : ht_ok head → p ∉ elements head → hth_n_entries head + 1 < max_entries → has_table head ∨ malloc || realloc = true →
  ∃ head', HT_REPLACE hashfn eqfn load val malloc realloc head p [] = Some (content head !! keyof p, head') ∧ ht_ok head' ∧
    content head' = <[keyof p := p]> (content head) ∧ has_table head'.
Proof.
  intros Hok Hfresh Hmax Hmem. unfold HT_REPLACE. destruct (grow_if_full_ok malloc realloc head Hok Hmax Hmem) as (h & t & -> & Hokh & Et & Hp). cbn [mbind option_bind].
  rewrite <- (content_same head h Hok Hp). rewrite <- Hp in Hfresh. clear head Hok Hp Hmax Hmem.
  destruct (find_p_ok h t (val p) Hokh Et) as (b & k & l & -> & Hb & Hl & Hd & Hk & Hend). cbn [mbind option_bind]. rewrite Hd. cbn [mbind option_bind].
  change (key (val p)) with (keyof p) in *. unfold rest, store. rewrite Et. cbn [mbind option_bind fst snd]. rewrite Hl. cbn [mbind option_bind].
  destruct (content h !! keyof p) as [r|] eqn:Ec.
  - apply content_lookup in Ec as [Hr Hkr]; [|apply Hokh]. rewrite bool_decide_eq_false_2 by (intros ->; done).
    destruct (replaced_ok h t b k l r p Hokh Et Hl Hk Hkr (eq_sym Hb)) as [Hok' Hc]. eexists. split; [done|]. split; [done|]. split; [done|]. unfold has_table. cbn. eauto.
  - eexists. split; [done|]. rewrite (Hend eq_refl), firstn_all. subst b. apply (added_ok h t l (l ++ [p]) p); [done..| |done]. symmetry. apply Permutation_cons_append.
Qed.

Lemma find_or_insert_ok malloc realloc head a p : ht_ok head → keyof p = key a → hth_n_entries head + 1 < max_entries → has_table head ∨ malloc || realloc = true →
  ∃ head', HT_FIND_OR_INSERT_ hashfn eqfn load val malloc realloc head a p = Some (default p (content head !! key a), head') ∧ ht_ok head' ∧
    content head' = <[key a := default p (content head !! key a)]> (content head) ∧ has_table head'.
Proof.
  intros Hok Hkey Hmax Hmem. unfold HT_FIND_OR_INSERT_. destruct (grow_if_full_ok malloc realloc head Hok Hmax Hmem) as (h & t & -> & Hokh & Et & Hp). cbn [mbind option_bind].
  rewrite <- (content_same head h Hok Hp). clear head Hok Hp Hmax Hmem.
  destruct (find_p_ok h t a Hokh Et) as (b & k & l & -> & Hb & Hl & Hd & Hk & Hend). cbn [mbind option_bind]. rewrite Hd. cbn [mbind option_bind].
  destruct (content h !! key a) as [r|] eqn:Ec.
  - exists h. split; [done|]. split; [done|]. cbn. rewrite insert_id by done. split; [done|]. by exists t.
  - unfold store. rewrite Et. cbn [mbind option_bind fst snd]. rewrite Hl. cbn [mbind option_bind default]. eexists. split; [done|]. rewrite (Hend eq_refl), firstn_all.
    rewrite (hash_key a (val p) (eq_sym Hkey)) in Hb. subst b. rewrite <- Hkey in *. apply (added_ok h t l (l ++ [p]) p); [done..| |done]. symmetry. apply Permutation_cons_append.
Qed.

(** ** Iteration *)

Lemma next_bucket_ok (t : list (list Z)) n : ∀ b, (b + n = length t)%nat →
  ∃ o, next_bucket n t b = Some o ∧ match o with
  | None => mjoin (drop b t) = []
  | Some (b', k) => k = 0%nat ∧ (b <= b')%nat ∧ mjoin (drop b t) = mjoin (drop b' t) ∧ mjoin (take b t) = mjoin (take b' t) ∧ ∃ p l, t !! b' = Some (p :: l)
  end.
Proof.
  induction n as [|n IH]; intros b Hb; cbn [next_bucket].
  { exists None. split; [done|]. by rewrite drop_ge by lia. }
  destruct (lookup_lt_is_Some_2 t b) as [l Hl]; [lia|]. rewrite Hl. cbn [mbind option_bind]. destruct l as [|p l].
  - destruct (IH (S b)) as (o & -> & Ho); [lia|]. exists o. split; [done|]. assert (Hd : mjoin (drop b t) = mjoin (drop (S b) t)) by (by rewrite (drop_S _ _ _ Hl)).
    assert (Htk : mjoin (take (S b) t) = mjoin (take b t)) by (rewrite (take_S_r _ _ _ Hl), join_app; cbn; by rewrite app_nil_r).
    destruct o as [[b' k]|]; [|by rewrite Hd]. rewrite Hd, <- Htk. destruct Ho as (? & ? & ?). split_and!; [done|lia|naive_solver..].
  - exists (Some (b, 0%nat)). split; [done|]. split_and!; [done..|]. eauto.
Qed.

Lemma from_bucket_ok head t b : ht_ok head → hth_table head = Some t → (b <= length t)%nat →
  ∃ o, from_bucket head b = Some o ∧ match o with
  | None => mjoin (drop b t) = []
  | Some (b', k) => k = 0%nat ∧ (b <= b')%nat ∧ mjoin (drop b t) = mjoin (drop b' t) ∧ mjoin (take b t) = mjoin (take b' t) ∧ ∃ p l, t !! b' = Some (p :: l)
  end.
Proof.
  intros [Ht _ _] Et Hb. rewrite Et in Ht. destruct Ht as (Hlen & _). unfold from_bucket. rewrite Et. cbn. apply next_bucket_ok. lia.
Qed.

Lemma bucket_of head t b l p : ht_ok head → hth_table head = Some t → t !! b = Some l → p ∈ l → HT_BUCKET_ hashfn head (val p) = Some b.
Proof.
  intros Hok Et Hb Hp. destruct (bucket_some head t (val p) Hok Et) as (_ & -> & _). f_equal. destruct Hok as [Ht _ _]. rewrite Et in Ht. by eapply Ht.
Qed.

(** The loop from a location visits the rest of the chain and the chains after it. *)
Lemma foreach_from head t : ht_ok head → hth_table head = Some t → ∀ fuel b k l, t !! b = Some l → (k < length l)%nat →
  (length (drop k l ++ mjoin (drop (S b) t)) <= fuel)%nat →
  HT_FOREACH hashfn val fuel head (Some (b, k)) = Some (drop k l ++ mjoin (drop (S b) t)).
Proof.
  intros Hok Et. induction fuel as [|fuel IH]; intros b k l Hb Hk Hf; [rewrite length_app, length_drop in Hf; lia|]. cbn [HT_FOREACH].
  destruct (lookup_lt_is_Some_2 l k Hk) as [r Hr]. assert (Hd : deref head (b, k) = Some (Some r)) by (unfold deref; rewrite Et; cbn; by rewrite Hb; cbn; rewrite Hr).
  unfold HT_NEXT. rewrite Hd. cbn [mbind option_bind]. unfold rest. rewrite Et. cbn [mbind option_bind fst snd]. rewrite Hb. cbn [mbind option_bind].
  rewrite (drop_S _ _ _ Hr) in *. cbn in Hf. destruct (drop (S k) l) as [|q tl] eqn:Etl.
  - rewrite (bucket_of head t b l r Hok Et Hb) by (by eapply list_elem_of_lookup_2). cbn [mbind option_bind].
    destruct (from_bucket_ok head t (S b) Hok Et) as (o & -> & Ho); [apply lookup_lt_Some in Hb; lia|]. cbn [mbind option_bind app]. destruct o as [[b' k']|].
    + destruct Ho as (-> & _ & Hj & _ & p & l' & Hb'). rewrite Hj, (drop_S _ _ _ Hb') in *. cbn [mjoin list_join] in *.
      rewrite (IH b' 0%nat (p :: l') Hb'); [done|cbn; lia|]. by apply le_S_n in Hf.
    + rewrite Ho. by destruct fuel.
  - cbn [mbind option_bind]. rewrite (IH b (S k) l Hb); [by rewrite Etl| |rewrite Etl; by apply le_S_n in Hf]. apply (f_equal length) in Etl. rewrite length_drop in Etl. cbn in Etl. lia.
Qed.

(** A loop over the table visits every element once. *)
Lemma foreach_ok head : ht_ok head → (x ← HT_START head; HT_FOREACH hashfn val (length (elements head)) head x) = Some (elements head).
Proof.
  intros Hok. unfold HT_START, elements. destruct (hth_table head) as [t|] eqn:Et.
  - destruct (from_bucket_ok head t 0 Hok Et) as (o & -> & Ho); [lia|]. cbn [mbind option_bind]. destruct o as [[b k]|].
    + destruct Ho as (-> & _ & Hj & _ & p & l & Hb). rewrite drop_0 in Hj. change (default [] (Some t)) with t. rewrite Hj, (drop_S _ _ _ Hb). cbn [mjoin list_join].
      rewrite (foreach_from head t Hok Et _ b 0 (p :: l) Hb); [done|cbn; lia|done].
    + rewrite drop_0 in Ho. change (default [] (Some t)) with t. by rewrite Ho.
  - destruct Hok as [Ht _ _]. rewrite Et in Ht. destruct Ht as [Ht _]. unfold from_bucket. rewrite Ht, Et. done.
Qed.

(** A location is that of the first element, or there is none. *)
Definition at_first (head : ht) (x : option (nat * nat)) : Prop :=
  match x with
  | None => elements head = []
  | Some (b, k) => k = 0%nat ∧ ∃ t p l, hth_table head = Some t ∧ mjoin (take b t) = [] ∧ t !! b = Some (p :: l)
  end.

Lemma at_first_from head t b : ht_ok head → hth_table head = Some t → (b <= length t)%nat → mjoin (take b t) = [] → ∃ x, from_bucket head b = Some x ∧ at_first head x.
Proof.
  intros Hok Et Hb Hempty. destruct (from_bucket_ok head t b Hok Et Hb) as (x & -> & Hx). exists x. split; [done|]. destruct x as [[b' k]|]; cbn.
  - destruct Hx as (-> & _ & _ & Htake & p & l & Hl). split; [done|]. exists t, p, l. by rewrite <- Htake.
  - unfold elements. rewrite Et. cbn. rewrite <- (take_drop b t), join_app. by rewrite Hempty, Hx.
Qed.

Lemma start_ok head : ht_ok head → ∃ x, HT_START head = Some x ∧ at_first head x.
Proof.
  intros Hok. unfold HT_START. destruct (hth_table head) as [t|] eqn:Et; [apply (at_first_from head t 0 Hok Et); [lia|done]|].
  destruct Hok as [Ht _ _]. rewrite Et in Ht. destruct Ht as [Ht _]. unfold from_bucket. rewrite Ht. exists None. split; [done|]. cbn. unfold elements. by rewrite Et.
Qed.

(** Removing the first element gives the location of the next one. *)
Lemma next_rmv_ok head b k : ht_ok head → at_first head (Some (b, k)) →
  ∃ p head' x, deref head (b, k) = Some (Some p) ∧ HT_NEXT_RMV hashfn val head (b, k) = Some (head', x) ∧ ht_ok head' ∧ elements head = p :: elements head' ∧ at_first head' x.
Proof.
  intros Hok (-> & t & p & l & Et & Hpre & Hb). assert (Hd : deref head (b, 0%nat) = Some (Some p)) by (unfold deref; rewrite Et; cbn; by rewrite Hb).
  destruct (without_ok head t b 0 (p :: l) p Hok Et Hb eq_refl) as (Hok' & _ & _). set (head' := without head t b 0 (p :: l)) in *.
  assert (Hel : elements head = p :: elements head').
  { change (elements head') with (mjoin (<[b := l]> t)). unfold elements. rewrite Et. change (default [] (Some t)) with t. rewrite <- (take_drop_middle t b (p :: l) Hb) at 1.
    rewrite (insert_take_drop t b l) by (by eapply lookup_lt_Some). rewrite !join_app, Hpre. done. }
  assert (Hb' : (b < length t)%nat) by (by eapply lookup_lt_Some).
  assert (Htake : take b (<[b := l]> t) = take b t) by (by rewrite take_insert_ge).
  unfold HT_NEXT_RMV. rewrite Hd. cbn [mbind option_bind]. rewrite (bucket_of head t b (p :: l) p Hok Et Hb) by (apply list_elem_of_here).
  unfold rest, store. rewrite Et. cbn [mbind option_bind fst snd]. rewrite Hb. cbn [mbind option_bind drop take app]. change (set_hth_n_entries _ _) with head'.
  destruct l as [|q l].
  - destruct (at_first_from head' (<[b := []]> t) (S b) Hok') as (x & -> & Hx); [done|rewrite length_insert; lia| |].
    { rewrite (take_S_r _ _ []) by (by rewrite list_lookup_insert_eq). rewrite join_app, Htake, Hpre. done. }
    exists p, head', x. done.
  - exists p, head', (Some (b, 0%nat)). do 4 (split; [done|]). cbn. split; [done|]. exists (<[b := q :: l]> t), q, l. split; [done|]. rewrite Htake. split; [done|].
    by rewrite list_lookup_insert_eq.
Qed.

(** ** Removing by a function, and the check of the representation *)

Lemma join_filter_chains (P : Z → Prop) `{∀ p, Decision (P p)} (t : list (list Z)) : mjoin (filter P <$> t) = filter P (mjoin t).
Proof. induction t as [|l t IH]; [done|]. change (mjoin (l :: t)) with (l ++ mjoin t). rewrite filter_app, <- IH. done. Qed.

Lemma foreach_fn_ok head fn : ht_ok head → ht_ok (HT_FOREACH_FN head fn) ∧ elements (HT_FOREACH_FN head fn) = filter (λ p, fn p = false) (elements head).
Proof.
  intros Hok. unfold HT_FOREACH_FN. destruct (hth_table head) as [t|] eqn:Et; [|split; [done|]; unfold elements; by rewrite Et].
  assert (Heh : mjoin t = elements head) by (unfold elements; by rewrite Et).
  set (head' := set_hth_table _ _). assert (Hel : elements head' = filter (λ p, fn p = false) (elements head)) by (rewrite <- Heh; apply join_filter_chains).
  split; [|done]. destruct Hok as [Ht Hk Hc]. rewrite Et in Ht. destruct Ht as (Hlen & ? & ? & ? & ? & Hin). split.
  - cbn. rewrite length_fmap. do 5 (split; [done|]). intros i l p Hi Hp. rewrite list_lookup_fmap in Hi. apply fmap_Some in Hi as (l0 & Hl0 & ->). apply list_elem_of_filter in Hp as [_ Hp]. by eapply Hin.
  - rewrite Hel. eapply sublist_NoDup; [exact Hk|]. apply fmap_sublist. apply sublist_filter.
  - rewrite Hel. cbn. rewrite Hc, Heh, (filter_split fn (elements head)) at 1. rewrite length_app. lia.
Qed.

Lemma rep_chain_none n i l : (∀ p, p ∈ l → hashfn (val p) mod n = i) → rep_chain hashfn val n i l = None.
Proof.
  induction l as [|p l IH]; intros Hl; [done|]. cbn. rewrite (Hl p) by (apply list_elem_of_here). rewrite Z.eqb_refl. cbn. apply IH. intros q Hq. apply Hl. by apply list_elem_of_further.
Qed.

Lemma rep_buckets_none n t : 0 < n → ∀ i, 0 <= i → (∀ j l p, t !! j = Some l → p ∈ l → hashfn (val p) mod n = i + Z.of_nat j) → rep_buckets hashfn val n i t = None.
Proof.
  intros Hn. induction t as [|l t IH]; intros i Hi Hin; [done|]. cbn. rewrite rep_chain_none by (intros p Hp; rewrite (Hin 0%nat l p eq_refl Hp); lia).
  apply IH; [lia|]. intros j l' p Hj Hp. rewrite (Hin (S j) l' p Hj Hp). lia.
Qed.

(** The check accepts a good table that is not overfull. *)
Lemma rep_ok head : ht_ok head → 0 <= hth_n_entries head <= hth_load_limit head → (has_table head → 0 < hth_load_limit head) → HT_REP_IS_BAD_ hashfn load val head = Some 0.
Proof.
  intros [Ht Hk Hc] Hn Hpos. unfold HT_REP_IS_BAD_, has_table in *. destruct (hth_table head) as [t|] eqn:Et.
  - destruct Ht as (Hlen & Hp & Hidx & Hprime & Hload & Hin). specialize (Hpos ltac:(eauto)). rewrite (proj2 (Z.eqb_neq _ _)) by lia.
    rewrite (proj2 (Z.ltb_ge (hth_prime_idx head) 0)), (proj2 (Z.eqb_neq (hth_load_limit head) 0)), (proj2 (Z.ltb_ge (hth_load_limit head) _)) by lia. cbn [orb]. rewrite Hprime. cbn [mbind option_bind].
    rewrite Z.eqb_refl, <- Hload, Z.eqb_refl, Hlen, Z.eqb_refl. cbn [negb]. rewrite rep_buckets_none; [|done|lia|].
    + rewrite Hc. unfold elements. rewrite Et. cbn. by rewrite Z.eqb_refl.
    + intros j l p Hj Hpl. pose proof (Hin j l p Hj Hpl). pose proof (Z.mod_pos_bound (hashfn (val p)) (hth_table_length head) Hp). lia.
  - destruct Ht as (-> & Hl & ->). rewrite Hl in *. assert (hth_n_entries head = 0) as -> by lia. done.
Qed.

(** ** Sequences of operations *)

(** The same operations on a map, and what they are allowed to do: an element is only
    inserted when its key is new, and only replaces others when it is not in the
    table itself. *)
Definition spec_op (m : gmap K Z) (o : ht_op (A := A)) : option Z * gmap K Z :=
  match o with
  | op_find a => (m !! key a, m)
  | op_insert p _ _ => (None, <[keyof p := p]> m)
  | op_replace p _ _ => (m !! keyof p, <[keyof p := p]> m)
  | op_find_or_insert a p _ _ => (Some (default p (m !! key a)), <[key a := default p (m !! key a)]> m)
  | op_remove a => (m !! key a, delete (key a) m)
  end.
Fixpoint spec_ops (m : gmap K Z) (ops : list (ht_op (A := A))) : list (option Z) * gmap K Z :=
  match ops with
  | [] => ([], m)
  | o :: ops => let '(r, m) := spec_op m o in let '(rs, m) := spec_ops m ops in (r :: rs, m)
  end.

Definition op_allowed (m : gmap K Z) (o : ht_op (A := A)) : Prop :=
  match o with
  | op_insert p malloc realloc => m !! keyof p = None ∧ malloc || realloc = true
  | op_replace p malloc realloc => m !! keyof p ≠ Some p ∧ malloc || realloc = true
  | op_find_or_insert a p malloc realloc => keyof p = key a ∧ malloc || realloc = true
  | _ => True
  end.
Fixpoint ops_allowed (m : gmap K Z) (ops : list (ht_op (A := A))) : Prop :=
  match ops with
  | [] => True
  | o :: ops => op_allowed m o ∧ ops_allowed (snd (spec_op m o)) ops
  end.

Lemma content_size head : ht_ok head → Z.of_nat (size (content head)) = hth_n_entries head.
Proof.
  intros Hok. rewrite (ht_count _ Hok). f_equal. unfold content. rewrite map_size_list_to_map by (rewrite keys_pairs; apply Hok). by rewrite length_fmap.
Qed.

Lemma apply_op_ok head o : ht_ok head → Z.of_nat (size (content head)) + 1 < max_entries → op_allowed (content head) o →
  ∃ head', apply_op hashfn eqfn load val head o = Some (fst (spec_op (content head) o), head') ∧ ht_ok head' ∧ content head' = snd (spec_op (content head) o).
Proof.
  intros Hok Hsize Ha. rewrite (content_size head Hok) in Hsize. destruct o as [a|p malloc realloc|p malloc realloc|a p malloc realloc|a]; cbn in *.
  - rewrite (find_ok head a Hok). by exists head.
  - destruct Ha as [Hnew Hmem]. destruct (insert_ok malloc realloc head p Hok Hnew Hsize (or_intror Hmem)) as (head' & -> & Hok' & Hc & _). by exists head'.
  - destruct Ha as [Hnew Hmem]. destruct (replace_ok malloc realloc head p Hok) as (head' & -> & Hok' & Hc & _); [|done|by right|by exists head'].
    intros Hin. apply Hnew. apply content_lookup; [apply Hok|done].
  - destruct Ha as [Hkey Hmem]. destruct (find_or_insert_ok malloc realloc head a p Hok Hkey Hsize (or_intror Hmem)) as (head' & -> & Hok' & Hc & _). by exists head'.
  - destruct (remove_ok head a Hok) as (head' & -> & Hok' & Hc & _). by exists head'.
Qed.

Lemma spec_op_size m o : (size (snd (spec_op m o)) <= S (size m))%nat.
Proof.
  assert (Hins : ∀ (k : K) (p : Z), (size (<[k := p]> m) <= S (size m))%nat) by (intros k p; rewrite map_size_insert; destruct (m !! k); cbn; lia).
  destruct o; cbn; [lia|apply Hins..|]. rewrite map_size_delete. destruct (m !! _); cbn; lia.
Qed.

Lemma apply_ops_ok ops : ∀ head, ht_ok head → Z.of_nat (size (content head) + length ops) < max_entries → ops_allowed (content head) ops →
  ∃ head', apply_ops hashfn eqfn load val head ops = Some (fst (spec_ops (content head) ops), head') ∧ ht_ok head' ∧ content head' = snd (spec_ops (content head) ops).
Proof.
  induction ops as [|o ops IH]; intros head Hok Hsize Ha; cbn [apply_ops spec_ops]; [by exists head|]. cbn in Ha. cbn [length] in Hsize. destruct Ha as [Ha Hrest].
  destruct (apply_op_ok head o Hok) as (h1 & -> & Hok1 & Hc1); [lia|done|]. cbn [mbind option_bind]. pose proof (spec_op_size (content head) o) as Hs. rewrite <- Hc1 in *.
  destruct (IH h1 Hok1) as (h2 & -> & Hok2 & Hc2); [lia|done|]. cbn [mbind option_bind]. destruct (spec_op (content head) o) as [r m]. cbn in Hc1. subst m.
  destruct (spec_ops (content h1) ops) as [rs m']. exists h2. done.
Qed.

Lemma ht_init_ok : ht_ok HT_INIT ∧ content HT_INIT = ∅.
Proof. split; [|done]. split; cbn; [done|constructor|done]. Qed.

(** C34. A hash table is a finite map from keys to elements: any sequence of lookups,
    insertions of new keys, replacements, lookups that insert and removals, starting with an empty
    table, whichever of the two ways of growing the allocator allows each time,
    gives the results that a map gives; afterwards iterating over the table visits
    every element of the map once. *)
Theorem hash_table_is_map ops : ops_allowed ∅ ops → Z.of_nat (length ops) < max_entries →
  ∃ head, apply_ops hashfn eqfn load val HT_INIT ops = Some (fst (spec_ops ∅ ops), head) ∧
    (∀ a, HT_FIND hashfn eqfn val head a = Some (snd (spec_ops ∅ ops) !! key a)) ∧
    HT_SIZE head = Z.of_nat (size (snd (spec_ops ∅ ops))) ∧
    ∃ l, (x ← HT_START head; HT_FOREACH hashfn val (length l) head x) = Some l ∧ NoDup l ∧ ∀ p, p ∈ l ↔ snd (spec_ops ∅ ops) !! keyof p = Some p.
Proof.
  intros Ha Hsize. destruct ht_init_ok as [Hok0 Hc0]. destruct (apply_ops_ok ops HT_INIT Hok0) as (head & E & Hok & Hc); rewrite ?Hc0; [by rewrite map_size_empty|done|].
  rewrite Hc0 in *. exists head. split; [done|]. rewrite <- Hc. split; [intros a; by apply find_ok|]. split; [symmetry; by apply content_size|].
  exists (elements head). split; [by apply foreach_ok|]. split; [exact (NoDup_fmap_1 _ _ (ht_keys _ Hok))|]. intros p. rewrite content_lookup by (apply Hok). naive_solver.
Qed.
End props.

(** Objects may change as long as the elements keep their keys. *)
Lemma ht_ok_val {A K} `{Countable K} (hashfn : A → Z) load (key : A → K) (hash_key : ∀ a b, key a = key b → hashfn a = hashfn b) val val' head :
  (∀ p, p ∈ elements head → key (val' p) = key (val p)) → ht_ok hashfn load val key head → ht_ok hashfn load val' key head ∧ content val' key head = content val key head.
Proof.
  intros Hval [Ht Hk Hc]. assert (Hmap : keyof val' key <$> elements head = keyof val key <$> elements head) by (apply list_fmap_ext; intros i p Hp; apply Hval; by eapply list_elem_of_lookup_2).
  split.
  - split; [|by rewrite Hmap|done]. destruct (hth_table head) as [t|] eqn:Et; [|done]. destruct Ht as (? & ? & ? & ? & ? & Hin). do 5 (split; [done|]).
    intros i l p Hi Hp. rewrite (hash_key (val' p) (val p)); [by eapply Hin|]. apply Hval. by eapply in_elements.
  - unfold content. f_equal. apply list_fmap_ext. intros i p Hp. unfold keyof. f_equal. apply Hval. by eapply list_elem_of_lookup_2.
Qed.
