(* ===== verification/DebugMap.v ===== *)
(** * The map of debug mode (event.c)

    In debug mode a hash table, keyed by the address of an event, records which events
    were set up and which of them are added.  The state is the two flags, the
    table and the entries that are allocated. *)

From stdpp Require Import gmap.
From S2P Require Import Prelude HashTable.

Record event_debug_entry := mk_event_debug_entry { ptr : Z; added : bool }.

(** The address is cut to an unsigned int. *)
Definition hash_debug_entry (e : event_debug_entry) : Z := Z.shiftr (u32 (ptr e)) 6.
Definition eq_debug_entry (a b : event_debug_entry) : bool := ptr a =? ptr b.
(** (unsigned)(0.5 * len). *)
Definition debug_load (len : Z) : Z := len / 2.

Record debug_state := mk_debug_state {
  event_debug_mode_on_ : bool;
  event_debug_mode_too_late : bool;
  global_debug_map : ht;
  debug_entries : gmap Z event_debug_entry
}.

Definition debug_init : debug_state := mk_debug_state false false HT_INIT ∅.

(** What is at an address; nothing reads an entry that is not allocated. *)
Definition entry_at (entries : gmap Z event_debug_entry) (p : Z) : event_debug_entry := default (mk_event_debug_entry 0 false) (entries !! p).

(** The program goes on, it ends with event_err or event_errx, or what it does is not defined. *)
Inductive outcome (S : Type) := running (s : S) | ended (eval : Z) | undefined.
Arguments running {S}. Arguments ended {S}. Arguments undefined {S}.

Definition EVENT_ERR_ABORT_ : Z := 0xdeaddead - 2 ^ 32.

Definition or_undefined {S} (o : option S) (f : S → outcome debug_state) : outcome debug_state :=
  match o with Some x => f x | None => undefined end.

(** How the allocations of a call turn out: that of an entry, and those of the table. *)
Record memory := mk_memory { mem_entry : bool; mem_malloc : bool; mem_realloc : bool }.

Section ops.
(** The address of a new entry, given the ones in use. *)
Context (alloc : gset Z → Z).

Definition find_entry (st : debug_state) (ev : Z) : option (option Z) :=
  HT_FIND hash_debug_entry eq_debug_entry (entry_at (debug_entries st)) (global_debug_map st) (mk_event_debug_entry ev false).
Definition too_late (st : debug_state) : debug_state :=
  mk_debug_state (event_debug_mode_on_ st) true (global_debug_map st) (debug_entries st).
Definition set_debug_map (m : ht) (st : debug_state) : debug_state :=
  mk_debug_state (event_debug_mode_on_ st) (event_debug_mode_too_late st) m (debug_entries st).
Definition set_debug_entries (es : gmap Z event_debug_entry) (st : debug_state) : debug_state :=
  mk_debug_state (event_debug_mode_on_ st) (event_debug_mode_too_late st) (global_debug_map st) es.

(** [dent->added = b]. *)
Definition set_added (st : debug_state) (dent : Z) (b : bool) : option debug_state :=
  e ← debug_entries st !! dent;
  Some (set_debug_entries (<[dent := mk_event_debug_entry (ptr e) b]> (debug_entries st)) st).

Definition event_debug_note_setup_ (mem : memory) (st : debug_state) (ev : Z) : outcome debug_state :=
  if negb (event_debug_mode_on_ st) then running (too_late st)
  else
    or_undefined (find_entry st ev) (λ dent,
    match dent with
    | Some dent => or_undefined (set_added st dent false) (λ st, running (too_late st))
    | None =>
      if negb (mem_entry mem) then ended 1
      else
        let dent := alloc (dom (debug_entries st)) in
        let st := set_debug_entries (<[dent := mk_event_debug_entry ev false]> (debug_entries st)) st in
        or_undefined (HT_INSERT hash_debug_entry debug_load (entry_at (debug_entries st)) (mem_malloc mem) (mem_realloc mem) (global_debug_map st) dent) (λ m,
        running (too_late (set_debug_map m st)))
    end).

Definition event_debug_note_teardown_ (st : debug_state) (ev : Z) : outcome debug_state :=
  if negb (event_debug_mode_on_ st) then running (too_late st)
  else
    or_undefined (HT_REMOVE hash_debug_entry eq_debug_entry (entry_at (debug_entries st)) (global_debug_map st) (mk_event_debug_entry ev false)) (λ '(dent, m),
    let st := set_debug_map m st in
    running (too_late match dent with Some dent => set_debug_entries (delete dent (debug_entries st)) st | None => st end)).

(** [event_debug_note_add_] and [event_debug_note_del_]. *)
Definition note_added (b : bool) (st : debug_state) (ev : Z) : outcome debug_state :=
  if negb (event_debug_mode_on_ st) then running (too_late st)
  else
    or_undefined (find_entry st ev) (λ dent,
    match dent with
    | Some dent => or_undefined (set_added st dent b) (λ st, running (too_late st))
    | None => ended EVENT_ERR_ABORT_
    end).
Definition event_debug_note_add_ := note_added true.
Definition event_debug_note_del_ := note_added false.

Definition event_debug_assert_is_setup_ (st : debug_state) (ev : Z) : outcome debug_state :=
  if negb (event_debug_mode_on_ st) then running st
  else or_undefined (find_entry st ev) (λ dent, match dent with Some _ => running st | None => ended EVENT_ERR_ABORT_ end).

Definition event_debug_assert_not_added_ (st : debug_state) (ev : Z) : outcome debug_state :=
  if negb (event_debug_mode_on_ st) then running st
  else
    or_undefined (find_entry st ev) (λ dent,
    match dent with
    | Some dent => or_undefined (debug_entries st !! dent) (λ e, if added e then ended EVENT_ERR_ABORT_ else running st)
    | None => running st
    end).

Definition event_enable_debug_mode (st : debug_state) : outcome debug_state :=
  if event_debug_mode_on_ st then ended 1
  else if event_debug_mode_too_late st then ended 1
  else running (mk_debug_state true (event_debug_mode_too_late st) HT_INIT (debug_entries st)).

(** The loop of [event_disable_debug_mode]: every element is removed and freed. *)
Fixpoint remove_all (fuel : nat) (st : debug_state) (ent : option (nat * nat)) : option debug_state :=
  match ent with
  | None => Some st
  | Some ent =>
    match fuel with
    | O => None
    | S fuel =>
      victim ← deref (global_debug_map st) ent;
      victim ← victim;
      '(m, next) ← HT_NEXT_RMV hash_debug_entry (entry_at (debug_entries st)) (global_debug_map st) ent;
      _ ← debug_entries st !! victim;
      remove_all fuel (set_debug_entries (delete victim (debug_entries st)) (set_debug_map m st)) next
    end
  end.

Definition event_disable_debug_mode (st : debug_state) : outcome debug_state :=
  or_undefined (ent ← HT_START (global_debug_map st); remove_all (Z.to_nat (HT_SIZE (global_debug_map st))) st ent) (λ st,
  running (mk_debug_state false (event_debug_mode_too_late st) (HT_CLEAR (global_debug_map st)) (debug_entries st))).

(** ** Calls *)

Inductive debug_op :=
| enable | disable | note_setup (mem : memory) (ev : Z) | note_teardown (ev : Z) | note_add (ev : Z) | note_del (ev : Z)
| assert_is_setup (ev : Z) | assert_not_added (ev : Z).

Definition debug_step (st : debug_state) (o : debug_op) : outcome debug_state :=
  match o with
  | enable => event_enable_debug_mode st
  | disable => event_disable_debug_mode st
  | note_setup mem ev => event_debug_note_setup_ mem st ev
  | note_teardown ev => event_debug_note_teardown_ st ev
  | note_add ev => event_debug_note_add_ st ev
  | note_del ev => event_debug_note_del_ st ev
  | assert_is_setup ev => event_debug_assert_is_setup_ st ev
  | assert_not_added ev => event_debug_assert_not_added_ st ev
  end.

Fixpoint debug_run (st : debug_state) (ops : list debug_op) : outcome debug_state :=
  match ops with
  | [] => running st
  | o :: ops => match debug_step st o with running st => debug_run st ops | r => r end
  end.
End ops.
