(* ===== verification/DebugMapProps.v ===== *)
(** * Debug mode follows its specification *)

From stdpp Require Import gmap.
From S2P Require Import Prelude HashTable HashTableProps DebugMap.

(** ** The specification

    Which events are set up, and whether they are added; the calls that the
    documentation forbids end the program. *)

Record debug_spec := mk_debug_spec { spec_on : bool; spec_too_late : bool; spec_events : gmap Z bool }.
Definition debug_spec_init : debug_spec := mk_debug_spec false false ∅.

Definition spec_note (s : debug_spec) (f : gmap Z bool → outcome (gmap Z bool)) : outcome debug_spec :=
  if spec_on s then
    match f (spec_events s) with
    | running m => running (mk_debug_spec true true m)
    | ended c => ended c
    | undefined => undefined
    end
  else running (mk_debug_spec false true (spec_events s)).
Definition spec_check (s : debug_spec) (ok : bool) : outcome debug_spec :=
  if spec_on s && negb ok then ended EVENT_ERR_ABORT_ else running s.

Definition spec_step (s : debug_spec) (o : debug_op) : outcome debug_spec :=
  match o with
  | enable => if spec_on s || spec_too_late s then ended 1 else running (mk_debug_spec true false ∅)
  | disable => running (mk_debug_spec false (spec_too_late s) ∅)
  | note_setup mem ev => spec_note s (λ m, if bool_decide (m !! ev = None) && negb (mem_entry mem) then ended 1 else running (<[ev := false]> m))
  | note_teardown ev => spec_note s (λ m, running (delete ev m))
  | note_add ev => spec_note s (λ m, if bool_decide (m !! ev = None) then ended EVENT_ERR_ABORT_ else running (<[ev := true]> m))
  | note_del ev => spec_note s (λ m, if bool_decide (m !! ev = None) then ended EVENT_ERR_ABORT_ else running (<[ev := false]> m))
  | assert_is_setup ev => spec_check s (negb (bool_decide (spec_events s !! ev = None)))
  | assert_not_added ev => spec_check s (negb (bool_decide (spec_events s !! ev = Some true)))
  end.
Fixpoint spec_run (s : debug_spec) (ops : list debug_op) : outcome debug_spec :=
  match ops with
  | [] => running s
  | o :: ops => match spec_step s o with running s => spec_run s ops | r => r end
  end.

(** ** The relation between the state and the specification *)

Notation entry_ok es := (ht_ok hash_debug_entry debug_load (entry_at es) ptr).
Notation entry_map es := (content (entry_at es) ptr).

Record sim (st : debug_state) (s : debug_spec) : Prop := {
  sim_on : event_debug_mode_on_ st = spec_on s;
  sim_late : event_debug_mode_too_late st = spec_too_late s;
  sim_table : entry_ok (debug_entries st) (global_debug_map st);
  sim_entries : ∀ p, p ∈ elements (global_debug_map st) ↔ is_Some (debug_entries st !! p);
  sim_events : ∀ ev, spec_events s !! ev = (p ← entry_map (debug_entries st) (global_debug_map st) !! ev; added <$> debug_entries st !! p);
  sim_off : event_debug_mode_on_ st = false → debug_entries st = ∅
}.

Definition sim_outcome (r : outcome debug_state) (r' : outcome debug_spec) : Prop :=
  match r, r' with
  | running st, running s => sim st s
  | ended c, ended c' => c = c'
  | _, _ => False
  end.

Lemma eq_ptr a b : eq_debug_entry a b = bool_decide (ptr a = ptr b).
Proof. unfold eq_debug_entry. destruct (Z.eqb_spec (ptr a) (ptr b)); by case_bool_decide. Qed.
Lemma hash_ptr a b : ptr a = ptr b → hash_debug_entry a = hash_debug_entry b.
Proof. unfold hash_debug_entry. by intros ->. Qed.

Lemma find_entry_ok st s ev : sim st s → find_entry st ev = Some (entry_map (debug_entries st) (global_debug_map st) !! ev).
Proof. intros Hs. unfold find_entry. by rewrite (find_ok _ _ debug_load _ ptr eq_ptr hash_ptr _ _ (sim_table _ _ Hs)). Qed.

(** An event is in the specification when it has an entry. *)
Lemma found st s ev : sim st s →
  match entry_map (debug_entries st) (global_debug_map st) !! ev with
  | Some p => ∃ e, debug_entries st !! p = Some e ∧ ptr e = ev ∧ spec_events s !! ev = Some (added e)
  | None => spec_events s !! ev = None
  end.
Proof.
  intros Hs. pose proof (sim_events _ _ Hs ev) as He. destruct (entry_map _ _ !! ev) as [p|] eqn:Ec; cbn in He; [|done].
  apply content_lookup in Ec as [Hp Hk]; [|apply (sim_table _ _ Hs)]. apply (sim_entries _ _ Hs) in Hp as [e Hp]. exists e. rewrite Hp in He. split; [done|]. split; [|done].
  unfold keyof, entry_at in Hk. by rewrite Hp in Hk.
Qed.

Lemma elem_content es m p : entry_ok es m → p ∈ elements m ↔ entry_map es m !! ptr (entry_at es p) = Some p.
Proof. intros Hok. rewrite content_lookup by (apply Hok). unfold keyof. naive_solver. Qed.

Lemma entry_at_some es p e : es !! p = Some e → entry_at es p = e.
Proof. unfold entry_at. by intros ->. Qed.

(** The number of entries is that of the events. *)
Lemma sim_size st s : sim st s → hth_n_entries (global_debug_map st) = Z.of_nat (size (spec_events s)).
Proof.
  intros Hs. rewrite <- (content_size _ _ _ _ _ (sim_table _ _ Hs)), <- !size_dom. do 2 f_equal. apply set_eq. intros ev. rewrite !elem_of_dom. pose proof (found st s ev Hs) as Hf.
  destruct (entry_map _ _ !! ev) as [p|]; [destruct Hf as (e & _ & _ & ->)|rewrite Hf]; split; intros [? ?]; try done; eauto.
Qed.

(** ** The operations *)

Lemma set_added_ok st s p e b : sim st s → event_debug_mode_on_ st = true → entry_map (debug_entries st) (global_debug_map st) !! ptr e = Some p → debug_entries st !! p = Some e →
  ∃ st', set_added st p b = Some st' ∧ sim (too_late st') (mk_debug_spec true true (<[ptr e := b]> (spec_events s))).
Proof.
  intros Hs Hon Hc He. unfold set_added. rewrite He. cbn [mbind option_bind]. eexists. split; [done|].
  set (es' := <[p := mk_event_debug_entry (ptr e) b]> (debug_entries st)). destruct (ht_ok_val hash_debug_entry debug_load ptr hash_ptr (entry_at (debug_entries st)) (entry_at es') (global_debug_map st)) as [Hok' Hc'];
    [|apply Hs|].
  { intros q _. unfold es', entry_at. destruct (decide (q = p)) as [->|]; [by rewrite lookup_insert_eq, He|by rewrite lookup_insert_ne]. }
  split; cbn; try done.
  - intros q. rewrite (sim_entries _ _ Hs q). unfold es'. rewrite lookup_insert_is_Some. destruct (decide (p = q)) as [->|]; [rewrite He|]; naive_solver.
  - intros ev. rewrite Hc'. destruct (decide (ev = ptr e)) as [->|Hne]; [rewrite lookup_insert_eq, Hc; cbn; unfold es'; by rewrite lookup_insert_eq|].
    rewrite lookup_insert_ne, (sim_events _ _ Hs ev) by done. destruct (entry_map _ _ !! ev) as [q|] eqn:Eq; cbn; [|done]. unfold es'. rewrite lookup_insert_ne; [done|].
    intros <-. apply content_lookup in Eq as [_ Hk]; [|apply Hs]. apply Hne. rewrite <- Hk. unfold keyof. by rewrite (entry_at_some _ _ _ He).
  - by rewrite Hon.
Qed.

(** The flag is off: only that it is too late is noted. *)
Lemma note_off st s f : sim st s → event_debug_mode_on_ st = false → sim_outcome (running (too_late st)) (spec_note s f).
Proof. intros Hs Hoff. unfold spec_note. rewrite <- (sim_on _ _ Hs), Hoff. destruct Hs. split; cbn; try done; by rewrite Hoff. Qed.

Lemma note_added_ok st s ev b : sim st s →
  sim_outcome (note_added b st ev) (spec_note s (λ m, if bool_decide (m !! ev = None) then ended EVENT_ERR_ABORT_ else running (<[ev := b]> m))).
Proof.
  intros Hs. unfold note_added. destruct (event_debug_mode_on_ st) eqn:Hon; cbn [negb]; [|by apply note_off]. rewrite (find_entry_ok st s ev Hs). cbn [or_undefined].
  unfold spec_note. rewrite <- (sim_on _ _ Hs), Hon. pose proof (found st s ev Hs) as Hf. destruct (entry_map _ _ !! ev) as [p|] eqn:Ec.
  - destruct Hf as (e & He & <- & Hsp). rewrite Hsp, bool_decide_eq_false_2 by done. destruct (set_added_ok st s p e b Hs Hon Ec He) as (st' & -> & Hs'). done.
  - rewrite Hf, bool_decide_eq_true_2 by done. done.
Qed.

(** An entry that is no longer in the table is freed. *)
Lemma free_entry_ok es m p : entry_ok es m → p ∉ elements m → entry_ok (delete p es) m ∧ entry_map (delete p es) m = entry_map es m.
Proof.
  intros Hok Hp. apply ht_ok_val; [exact hash_ptr| |done]. intros q Hq. unfold entry_at. rewrite lookup_delete_ne; [done|]. by intros ->.
Qed.

Lemma note_teardown_ok st s ev : sim st s → sim_outcome (event_debug_note_teardown_ st ev) (spec_step s (note_teardown ev)).
Proof.
  intros Hs. unfold event_debug_note_teardown_. destruct (event_debug_mode_on_ st) eqn:Hon; cbn [negb spec_step]; [|by apply note_off].
  set (c := entry_map (debug_entries st) (global_debug_map st)).
  destruct (remove_ok hash_debug_entry eq_debug_entry debug_load (entry_at (debug_entries st)) ptr eq_ptr hash_ptr (global_debug_map st) (mk_event_debug_entry ev false) (sim_table _ _ Hs)) as (m & -> & Hok & Hcm & _).
  cbn [ptr] in *. fold c in Hcm. fold c. cbn [or_undefined]. unfold spec_note. rewrite <- (sim_on _ _ Hs), Hon. cbn [sim_outcome].
  assert (Hin : ∀ q, q ∈ elements m ↔ q ∈ elements (global_debug_map st) ∧ ptr (entry_at (debug_entries st) q) ≠ ev).
  { intros q. rewrite (elem_content _ _ _ Hok), (elem_content _ _ _ (sim_table _ _ Hs)), Hcm. fold c. rewrite lookup_delete_Some. naive_solver. }
  pose proof (found st s ev Hs) as Hf. fold c in Hf. pose proof (sim_events _ _ Hs) as Hev. fold c in Hev. destruct (c !! ev) as [p|] eqn:Ec.
  - destruct Hf as (e & He & Hptr & _). assert (Hnot : p ∉ elements m) by (rewrite Hin, (entry_at_some _ _ _ He); naive_solver).
    destruct (free_entry_ok _ _ p Hok Hnot) as [Hok' Hc']. split; cbn; try done.
    + intros q. rewrite Hin, (sim_entries _ _ Hs q), lookup_delete_is_Some. split; [|intros [Hne [e' He']]; split; [eauto|]].
      * intros [[e' He'] Hne]. split; [|eauto]. intros <-. apply Hne. by rewrite (entry_at_some _ _ _ He).
      * intros Hq. apply Hne. assert (Hcq : c !! ptr (entry_at (debug_entries st) q) = Some q) by (apply (elem_content _ _ q (sim_table _ _ Hs)); apply (sim_entries _ _ Hs); eauto).
        rewrite Hq in Hcq. congruence.
    + intros ev'. rewrite Hc', Hcm. destruct (decide (ev' = ev)) as [->|Hne]; [by rewrite !lookup_delete_eq|]. rewrite !lookup_delete_ne, Hev by done.
      destruct (c !! ev') as [q|] eqn:Eq; cbn; [|done]. rewrite lookup_delete_ne; [done|]. intros <-. apply content_lookup in Eq as [_ Hk]; [|apply Hs]. apply Hne. rewrite <- Hk. unfold keyof.
      by rewrite (entry_at_some _ _ _ He).
    + by rewrite Hon.
  - assert (Hcc : entry_map (debug_entries st) m = c) by (rewrite Hcm; by apply delete_id). split; cbn; try done.
    + intros q. rewrite Hin, (sim_entries _ _ Hs q). split; [by intros [? _]|]. intros Hq. split; [done|]. intros Hptr.
      apply (sim_entries _ _ Hs), (elem_content _ _ q (sim_table _ _ Hs)) in Hq. fold c in Hq. congruence.
    + intros ev'. rewrite Hcc, delete_id by done. apply Hev.
    + by rewrite Hon.
Qed.

Lemma assert_ok st s o : sim st s → match o with assert_is_setup _ | assert_not_added _ => True | _ => False end → sim_outcome (debug_step (λ _, 0) st o) (spec_step s o).
Proof.
  intros Hs Ho. destruct o as [| | | | | |ev|ev]; try done; cbn [debug_step spec_step]; unfold event_debug_assert_is_setup_, event_debug_assert_not_added_, spec_check;
    rewrite <- (sim_on _ _ Hs); (destruct (event_debug_mode_on_ st) eqn:Hon; [|done]); cbn [negb andb]; rewrite (find_entry_ok st s ev Hs); cbn [or_undefined];
    pose proof (found st s ev Hs) as Hf; (destruct (entry_map _ _ !! ev) as [p|]; [destruct Hf as (e & He & _ & Hsp)|rename Hf into Hsp]); rewrite Hsp; cbn; try done.
  rewrite He. cbn. by destruct (added e).
Qed.

(** Taking the entries away one after the other leaves none. *)
Lemma remove_all_ok n : ∀ st ent, entry_ok (debug_entries st) (global_debug_map st) → (∀ p, p ∈ elements (global_debug_map st) ↔ is_Some (debug_entries st !! p)) →
  at_first (global_debug_map st) ent → length (elements (global_debug_map st)) = n →
  ∃ st', remove_all n st ent = Some st' ∧ debug_entries st' = ∅ ∧ event_debug_mode_too_late st' = event_debug_mode_too_late st.
Proof.
  induction n as [|n IH]; intros st ent Hok Hes Hat Hn.
  - destruct ent as [[b k]|]; [destruct (next_rmv_ok _ _ _ _ _ _ _ Hok Hat) as (p & m & x & _ & _ & _ & Hel & _); by rewrite Hel in Hn|]. exists st. split; [done|]. split; [|done].
    apply map_eq. intros p. rewrite lookup_empty. destruct (debug_entries st !! p) eqn:Ep; [|done]. assert (Hp : p ∈ elements (global_debug_map st)) by (apply Hes; eauto).
    apply nil_length_inv in Hn. rewrite Hn in Hp. by apply elem_of_nil in Hp.
  - destruct ent as [[b k]|]; [|cbn in Hat; by rewrite Hat in Hn]. cbn [remove_all].
    destruct (next_rmv_ok _ _ _ _ _ _ _ Hok Hat) as (p & m & x & -> & -> & Hokm & Hel & Hat'). cbn [mbind option_bind].
    destruct (proj1 (Hes p)) as [e He]; [rewrite Hel; apply list_elem_of_here|]. rewrite He. cbn [mbind option_bind].
    assert (Hnot : p ∉ elements m). { pose proof (NoDup_fmap_1 _ _ (ht_keys _ _ _ _ _ Hok)) as Hnd. rewrite Hel in Hnd. by apply NoDup_cons in Hnd as [? _]. }
    destruct (free_entry_ok _ _ p Hokm Hnot) as [Hok' _]. eapply (IH (set_debug_entries (delete p (debug_entries st)) (set_debug_map m st))); cbn; [done| |done|rewrite Hel in Hn; by injection Hn].
    intros q. rewrite lookup_delete_is_Some, <- Hes, Hel, elem_of_cons. split; [|naive_solver]. intros Hq. split; [|by right]. by intros <-.
Qed.

Lemma sim_empty on late : sim (mk_debug_state on late HT_INIT ∅) (mk_debug_spec on late ∅).
Proof.
  destruct (ht_init_ok hash_debug_entry debug_load (entry_at ∅) ptr) as [Hi _]. split; cbn; try done. intros p. rewrite lookup_empty. split; [by intros ?%elem_of_nil|by intros [? ?]].
Qed.

Lemma debug_disable_ok st s : sim st s → sim_outcome (event_disable_debug_mode st) (spec_step s disable).
Proof.
  intros Hs. unfold event_disable_debug_mode. destruct (start_ok _ _ _ _ _ (sim_table _ _ Hs)) as (ent & -> & Hat). cbn [mbind option_bind]. unfold HT_SIZE. rewrite (ht_count _ _ _ _ _ (sim_table _ _ Hs)), Nat2Z.id.
  destruct (remove_all_ok _ st ent (sim_table _ _ Hs) (sim_entries _ _ Hs) Hat eq_refl) as (st' & -> & Hes & Hlate). cbn. rewrite <- (sim_late _ _ Hs), Hlate, Hes. apply sim_empty.
Qed.

Lemma debug_enable_ok st s : sim st s → sim_outcome (event_enable_debug_mode st) (spec_step s enable).
Proof.
  intros Hs. unfold event_enable_debug_mode. cbn [spec_step]. rewrite <- (sim_on _ _ Hs), <- (sim_late _ _ Hs). destruct (event_debug_mode_on_ st) eqn:Hon; [done|].
  destruct (event_debug_mode_too_late st) eqn:Hl; [done|]. cbn. rewrite (sim_off _ _ Hs Hon). apply sim_empty.
Qed.

Section alloc.
Context (alloc : gset Z → Z) (alloc_fresh : ∀ X, alloc X ∉ X).

Lemma insert_entry_ok st s ev mem : sim st s → event_debug_mode_on_ st = true → spec_events s !! ev = None → entry_map (debug_entries st) (global_debug_map st) !! ev = None →
  Z.of_nat (size (spec_events s)) + 1 < 805306370 → mem_malloc mem || mem_realloc mem = true →
  let dent := alloc (dom (debug_entries st)) in let es := <[dent := mk_event_debug_entry ev false]> (debug_entries st) in
  ∃ m, HT_INSERT hash_debug_entry debug_load (entry_at es) (mem_malloc mem) (mem_realloc mem) (global_debug_map st) dent = Some m ∧
    sim (mk_debug_state true true m es) (mk_debug_spec true true (<[ev := false]> (spec_events s))).
Proof.
  intros Hs Hon Hsp Hc Hsize Hmem dent es. assert (Hfr : debug_entries st !! dent = None) by (apply not_elem_of_dom; apply alloc_fresh).
  assert (Hsame : ∀ q, q ≠ dent → entry_at es q = entry_at (debug_entries st) q) by (intros q Hq; unfold es, entry_at; by rewrite lookup_insert_ne).
  destruct (ht_ok_val hash_debug_entry debug_load ptr hash_ptr (entry_at (debug_entries st)) (entry_at es) (global_debug_map st)) as [Hok1 Hc1]; [|apply Hs|].
  { intros q Hq. rewrite Hsame; [done|]. intros ->. apply (sim_entries _ _ Hs) in Hq as [? Hq]. congruence. }
  assert (Hkey : keyof (entry_at es) ptr dent = ev) by (unfold keyof, es, entry_at; by rewrite lookup_insert_eq).
  destruct (insert_ok hash_debug_entry debug_load (entry_at es) ptr (mem_malloc mem) (mem_realloc mem) (global_debug_map st) dent Hok1) as (m & -> & Hok & Hcm & _);
    [by rewrite Hkey, Hc1|rewrite (sim_size _ _ Hs); exact Hsize|by right|]. rewrite Hkey, Hc1 in Hcm. exists m. split; [done|]. split; cbn; try done.
  - intros q. rewrite (elem_content es m q Hok), Hcm. assert (Hes : is_Some (es !! q) ↔ dent = q ∨ dent ≠ q ∧ is_Some (debug_entries st !! q)) by apply lookup_insert_is_Some.
    rewrite Hes. destruct (decide (dent = q)) as [<-|Hne].
    + rewrite (Hkey : ptr (entry_at es dent) = ev), lookup_insert_eq. naive_solver.
    + rewrite Hsame by done. rewrite <- (sim_entries _ _ Hs q), (elem_content _ _ q (sim_table _ _ Hs)). rewrite lookup_insert_Some. split; [|intros [?|[_ Hq]]; [done|]].
      * intros [[_ ?]|[_ ?]]; [done|by right].
      * right. split; [|done]. intros E. rewrite <- E in Hq. congruence.
  - intros ev'. rewrite Hcm. destruct (decide (ev' = ev)) as [->|Hne]; [rewrite !lookup_insert_eq; cbn; unfold es; by rewrite lookup_insert_eq|].
    rewrite !lookup_insert_ne, (sim_events _ _ Hs ev') by done. destruct (entry_map _ _ !! ev') as [q|] eqn:Eq; cbn; [|done]. unfold es. rewrite lookup_insert_ne; [done|].
    intros <-. apply content_lookup in Eq as [Hin _]; [|apply Hs]. apply (sim_entries _ _ Hs) in Hin as [? ?]. congruence.
Qed.

Lemma note_setup_ok st s ev mem : sim st s → Z.of_nat (size (spec_events s)) + 1 < 805306370 → mem_malloc mem || mem_realloc mem = true →
  sim_outcome (event_debug_note_setup_ alloc mem st ev) (spec_step s (note_setup mem ev)).
Proof.
  intros Hs Hsize Hmem. unfold event_debug_note_setup_. destruct (event_debug_mode_on_ st) eqn:Hon; cbn [negb spec_step]; [|by apply note_off].
  rewrite (find_entry_ok st s ev Hs). cbn [or_undefined]. unfold spec_note. rewrite <- (sim_on _ _ Hs), Hon. pose proof (found st s ev Hs) as Hf. destruct (entry_map _ _ !! ev) as [p|] eqn:Ec.
  - destruct Hf as (e & He & <- & Hsp). rewrite Hsp, bool_decide_eq_false_2 by done. destruct (set_added_ok st s p e false Hs Hon Ec He) as (st' & -> & Hs'). done.
  - rewrite Hf, bool_decide_eq_true_2 by done. destruct (mem_entry mem); [|done]. cbn [negb andb].
    destruct (insert_entry_ok st s ev mem Hs Hon Hf Ec Hsize Hmem) as (m & E & Hs'). cbn. unfold set_debug_entries. cbn. rewrite E. cbn. unfold too_late, set_debug_map. cbn. by rewrite Hon.
Qed.

(** The table can be allocated when an entry is inserted. *)
Definition table_allocated (o : debug_op) : Prop :=
  match o with note_setup mem _ => mem_malloc mem || mem_realloc mem = true | _ => True end.

Lemma debug_step_ok st s o : sim st s → Z.of_nat (size (spec_events s)) + 1 < 805306370 → table_allocated o → sim_outcome (debug_step alloc st o) (spec_step s o).
Proof.
  intros Hs Hsize Ho. destruct o; [by apply debug_enable_ok|by apply debug_disable_ok|by apply note_setup_ok|by apply note_teardown_ok|by apply note_added_ok|by apply note_added_ok|..].
  - exact (assert_ok st s (assert_is_setup ev) Hs I).
  - exact (assert_ok st s (assert_not_added ev) Hs I).
Qed.

Lemma spec_step_size s o s' : spec_step s o = running s' → (size (spec_events s') <= S (size (spec_events s)))%nat.
Proof.
  assert (Hins : ∀ (m : gmap Z bool) ev b, (size (<[ev := b]> m) <= S (size m))%nat) by (intros m ev b; rewrite map_size_insert; destruct (m !! ev); cbn; lia).
  assert (Hdel : ∀ (m : gmap Z bool) ev, (size (delete ev m) <= S (size m))%nat) by (intros m ev; rewrite map_size_delete; destruct (m !! ev); cbn; lia).
  destruct o; cbn; unfold spec_note, spec_check; intros E; repeat case_match; simplify_eq; cbn; rewrite ?map_size_empty; auto; lia.
Qed.

Lemma debug_run_ok ops : ∀ st s, sim st s → Forall table_allocated ops → Z.of_nat (size (spec_events s) + length ops) < 805306370 →
  sim_outcome (debug_run alloc st ops) (spec_run s ops).
Proof.
  induction ops as [|o ops IH]; intros st s Hs Hmem Hsize; cbn [debug_run spec_run]; [done|]. apply Forall_cons in Hmem as [Ho Hmem]. cbn [length] in Hsize.
  pose proof (debug_step_ok st s o Hs ltac:(lia) Ho) as Hstep. pose proof (spec_step_size s o) as Hsz. destruct (debug_step alloc st o), (spec_step s o) as [s'| |]; try done.
  apply IH; [done..|]. specialize (Hsz s' eq_refl). lia.
Qed.

(** C35. Debug mode follows its specification: for any sequence of calls (turning it
    on and off, noting that events are set up, added, deleted or torn down, and the
    checks that other functions make) the program that keeps its records in the hash
    table ends exactly when, and with the same code as, the specification with the
    plain map of events does, and never does anything undefined; otherwise the
    table has an entry for exactly the events of the map, with the same flag, and
    the allocated entries are exactly those in the table.  The array of the table
    is taken to be allocated whenever an entry is inserted ([table_allocated]:
    malloc or realloc succeeds; without it HT_INSERT divides by zero) while the
    entries themselves may lack memory, and there are fewer calls than the limit
    of the largest table. *)
Theorem debug_mode_refines ops : Forall table_allocated ops → Z.of_nat (length ops) < 805306370 →
  match spec_run debug_spec_init ops with
  | running s => ∃ st, debug_run alloc debug_init ops = running st ∧ event_debug_mode_on_ st = spec_on s ∧
      (∀ ev, ∃ dent, find_entry st ev = Some dent ∧ spec_events s !! ev = (p ← dent; added <$> debug_entries st !! p)) ∧
      (∀ p, is_Some (debug_entries st !! p) → ∃ ev, find_entry st ev = Some (Some p))
  | ended c => debug_run alloc debug_init ops = ended c
  | undefined => False
  end.
Proof.
  intros Hmem Hsize. pose proof (debug_run_ok ops debug_init debug_spec_init (sim_empty false false) Hmem Hsize) as Hrun.
  destruct (debug_run alloc debug_init ops) as [st|c|], (spec_run debug_spec_init ops) as [s|c'|]; cbn in Hrun; try done; [|by subst].
  exists st. split; [done|]. split; [apply Hrun|]. split.
  - intros ev. rewrite (find_entry_ok st s ev Hrun). eexists. split; [done|]. apply Hrun.
  - intros p Hp%(sim_entries _ _ Hrun). exists (ptr (entry_at (debug_entries st) p)). rewrite (find_entry_ok st s _ Hrun). f_equal. by apply (elem_content _ _ _ (sim_table _ _ Hrun)).
Qed.
End alloc.

(** * Hash tables and debug mode on concrete calls *)

(** Elements are numbers whose last two digits are their keys. *)
Definition digits (p : Z) : Z := p mod 100.
Definition small_hash (a : Z) : Z := a mod 2 ^ 32.
Definition half (n : Z) : Z := n / 2.

Lemma digits_eq a b : (a =? b) = bool_decide (id a = id b).
Proof. unfold id. destruct (Z.eqb_spec a b); by case_bool_decide. Qed.
Lemma small_hash_id a b : id a = id b → small_hash a = small_hash b.
Proof. unfold id. by intros ->. Qed.

(** Keys 1 and 54 share a bucket of the first table. *)
Definition demo_ops : list (ht_op (A := Z)) :=
  [op_insert 101 true true; op_insert 154 false true; op_find 1; op_replace 201 false false; op_replace 302 true false; op_remove 54; op_remove 54; op_find 1; op_find_or_insert 1 401 true true; op_find_or_insert 7 507 true true].

Lemma hash_table_is_map_witness :
  ∃ head, apply_ops small_hash Z.eqb half digits HT_INIT (take 3 demo_ops ++ drop 5 demo_ops) = Some (fst (spec_ops digits id ∅ (take 3 demo_ops ++ drop 5 demo_ops)), head) ∧
    (∀ a, HT_FIND small_hash Z.eqb digits head a = Some (snd (spec_ops digits id ∅ (take 3 demo_ops ++ drop 5 demo_ops)) !! id a)) ∧
    HT_SIZE head = Z.of_nat (size (snd (spec_ops digits id ∅ (take 3 demo_ops ++ drop 5 demo_ops)))) ∧
    ∃ l, (x ← HT_START head; HT_FOREACH small_hash digits (length l) head x) = Some l ∧ NoDup l ∧
      ∀ p, p ∈ l ↔ snd (spec_ops digits id ∅ (take 3 demo_ops ++ drop 5 demo_ops)) !! keyof digits id p = Some p.
Proof.
  refine (hash_table_is_map small_hash Z.eqb half digits id digits_eq small_hash_id (take 3 demo_ops ++ drop 5 demo_ops) _ _).
  - vm_compute. split_and!; done.
  - vm_compute. done.
Defined.

(** The results of all the operations: the lookup finds the first element, which is
    then replaced and comes back; a removed element is gone. *)
Example demo_results : fst <$> apply_ops small_hash Z.eqb half digits HT_INIT demo_ops = Some [None; None; Some 101; Some 101; None; Some 154; None; Some 201; Some 201; Some 507].
Proof. vm_compute. reflexivity. Qed.

(** Growing a table by realloc and by malloc keeps what is in it. *)
Example demo_grow : ∃ h, foldl (λ h p, h ← h; HT_INSERT small_hash half digits (Z.even p) true h p) (Some HT_INIT) (seqZ 1 60) = Some h ∧
  hth_table_length h = 193 ∧ HT_FIND small_hash Z.eqb digits h 59 = Some (Some 59) ∧ HT_REP_IS_BAD_ small_hash half digits h = Some 0.
Proof. eexists. split; [vm_compute; reflexivity|]. vm_compute. done. Qed.

(** ** What goes wrong *)

(** The first insertion divides by 0 when no table can be allocated. *)
Example insert_without_table : HT_INSERT small_hash half digits false false HT_INIT 1 = None.
Proof. vm_compute. reflexivity. Qed.

(** An element that replaces itself is counted twice. *)
Example replace_by_itself : ∃ h1 h2, HT_INSERT small_hash half digits true true HT_INIT 1 = Some h1 ∧ HT_REPLACE small_hash Z.eqb half digits true true h1 1 [] = Some (None, h2) ∧
  HT_SIZE h2 = 2 ∧ elements h2 = [1] ∧ HT_REP_IS_BAD_ small_hash half digits h2 = Some 6.
Proof. eexists _, _. split; [vm_compute; reflexivity|]. split; [vm_compute; reflexivity|]. vm_compute. done. Qed.

(** When the element that is put in still points to others, they become part of the
    chain without being counted. *)
Example replace_with_old_link : ∃ h, HT_REPLACE small_hash Z.eqb half digits true true HT_INIT 1 [7; 8] = Some (None, h) ∧ HT_SIZE h = 1 ∧ elements h = [1; 7; 8].
Proof. eexists. split; [vm_compute; reflexivity|]. vm_compute. done. Qed.

(** The loop that chooses the prime does not stop at the last one. *)
Example prime_out_of_range : prime_loop half 40 20 805306370 = None ∧ PRIMES !! 26%nat = None.
Proof. vm_compute. done. Qed.

(** ** Debug mode *)

Definition all_memory : memory := mk_memory true true true.
Definition debug_calls : list debug_op :=
  [enable; note_setup all_memory 4096; assert_is_setup 4096; note_add 4096; note_setup all_memory 8192; note_del 4096; assert_not_added 4096; note_teardown 4096].

Lemma debug_mode_refines_witness :
  match spec_run debug_spec_init debug_calls with
  | running s => ∃ st, debug_run fresh debug_init debug_calls = running st ∧ event_debug_mode_on_ st = spec_on s ∧
      (∀ ev, ∃ dent, find_entry st ev = Some dent ∧ spec_events s !! ev = (p ← dent; added <$> debug_entries st !! p)) ∧
      (∀ p, is_Some (debug_entries st !! p) → ∃ ev, find_entry st ev = Some (Some p))
  | ended c => debug_run fresh debug_init debug_calls = ended c
  | undefined => False
  end.
Proof.
  apply (debug_mode_refines fresh (λ X, is_fresh X) debug_calls); [|vm_compute; reflexivity]. repeat constructor.
Defined.

(** Using an event after it was torn down, and tearing one down that is added, abort. *)
Example torn_down_event : debug_run fresh debug_init (debug_calls ++ [note_add 4096]) = ended EVENT_ERR_ABORT_.
Proof. vm_compute. reflexivity. Qed.
Example added_event : debug_run fresh debug_init (take 4 debug_calls ++ [assert_not_added 4096]) = ended EVENT_ERR_ABORT_.
Proof. vm_compute. reflexivity. Qed.
Example enabled_too_late : debug_run fresh debug_init [note_setup all_memory 4096; enable] = ended 1.
Proof. vm_compute. reflexivity. Qed.
