(* ===== verification/FdBackends.v ===== *)
(** * The poll and select backends (poll.c, select.c)

    [poll] keeps an array of descriptors and, in the data that evmap.c keeps for each
    descriptor, its place in that array; [select] keeps a set of bits for reading and
    one for writing.  A [None] is an assertion that fails, an access outside of an
    array or of memory that was not written, or an overflow of an int.  The system
    calls are parameters. *)

From stdpp Require Import gmap.
From S2P Require Import Prelude TimeVal EvMap RateLim.

(** ** poll.c *)

Definition EINTR : Z := 4.

Definition POLLIN : Z := 1.
Definition POLLOUT : Z := 4.
Definition POLLERR : Z := 8.
Definition POLLHUP : Z := 16.
Definition POLLNVAL : Z := 32.

Record pollfd := mk_pollfd { pfd_fd : Z; pfd_events : Z; pfd_revents : Z }.

(** The arrays have entries that were never written.  [pollidx] is the [idxplus1] of
    each descriptor that has an entry in the map of evmap.c. *)
Record pollop := mk_pollop {
  event_count : Z;
  nfds : Z;
  realloc_copy : bool;
  event_set : list (option pollfd);
  event_set_copy : list (option pollfd);
  pollidx : gmap Z Z
}.

Definition set_event_set (l : list (option pollfd)) (p : pollop) : pollop :=
  mk_pollop (event_count p) (nfds p) (realloc_copy p) l (event_set_copy p) (pollidx p).
Definition set_nfds (n : Z) (p : pollop) : pollop :=
  mk_pollop (event_count p) n (realloc_copy p) (event_set p) (event_set_copy p) (pollidx p).
Definition set_idxplus1 (fd idx : Z) (p : pollop) : pollop :=
  mk_pollop (event_count p) (nfds p) (realloc_copy p) (event_set p) (event_set_copy p) (<[fd := idx]> (pollidx p)).
Definition set_copy (l : list (option pollfd)) (r : bool) (p : pollop) : pollop :=
  mk_pollop (event_count p) (nfds p) r (event_set p) l (pollidx p).

Definition poll_init (mm_calloc : bool) : option pollop := if mm_calloc then Some (mk_pollop 0 0 false [] [] ∅) else None.

(** An entry that was written. *)
Definition entry (l : list (option pollfd)) (i : Z) : option pollfd := if i <? 0 then None else mjoin (l !! Z.to_nat i).
Definition set_entry (l : list (option pollfd)) (i : Z) (e : pollfd) : option (list (option pollfd)) :=
  if (i <? 0) || (Z.of_nat (length l) <=? i) then None else Some (<[Z.to_nat i := Some e]> l).

(** Room for one more; [Some None] is a failed allocation. *)
Definition poll_room (mm_realloc : bool) (pop : pollop) : option (option pollop) :=
  if event_count pop <=? nfds pop + 1 then
    let tmp_event_count := if event_count pop <? 32 then 32 else event_count pop * 2 in
    if INT_MAX <? tmp_event_count then None
    else if negb mm_realloc then Some None
    else Some (Some (mk_pollop tmp_event_count (nfds pop) true (resize (Z.to_nat tmp_event_count) None (event_set pop)) (event_set_copy pop) (pollidx pop)))
  else Some (Some pop).

(** The map has an entry for the descriptor, which starts with 0. *)
Definition idxplus1 (pop : pollop) (fd : Z) : Z := default 0 (pollidx pop !! fd).

Definition poll_add (mm_realloc : bool) (pop : pollop) (fd events : Z) : option (pollop * Z) :=
  ASSERT (Z.land events EV_SIGNAL =? 0);;
  if negb (events &? Z.lor EV_READ EV_WRITE) then Some (pop, 0)
  else
    room ← poll_room mm_realloc pop;
    match room with
    | None => Some (pop, -1)
    | Some pop =>
      let i := idxplus1 pop fd - 1 in
      '(i, pop) ← (if 0 <=? i then Some (i, pop)
                   else
                     let i := nfds pop in
                     l ← set_entry (event_set pop) i (mk_pollfd fd 0 0);
                     Some (i, set_idxplus1 fd (i + 1) (set_event_set l (set_nfds (nfds pop + 1) pop))));
      pfd ← entry (event_set pop) i;
      let ev := pfd_events pfd in
      let ev := if events &? EV_WRITE then Z.lor ev POLLOUT else ev in
      let ev := if events &? EV_READ then Z.lor ev POLLIN else ev in
      l ← set_entry (event_set pop) i (mk_pollfd (pfd_fd pfd) ev 0);
      Some (set_event_set l pop, 0)
    end.

Definition poll_del (pop : pollop) (fd events : Z) : option (pollop * Z) :=
  ASSERT (Z.land events EV_SIGNAL =? 0);;
  if negb (events &? Z.lor EV_READ EV_WRITE) then Some (pop, 0)
  else
    let i := idxplus1 pop fd - 1 in
    if i <? 0 then Some (pop, -1)
    else
      pfd ← entry (event_set pop) i;
      let ev := pfd_events pfd in
      let ev := if events &? EV_READ then Z.land ev (Z.lnot POLLIN) else ev in
      let ev := if events &? EV_WRITE then Z.land ev (Z.lnot POLLOUT) else ev in
      l ← set_entry (event_set pop) i (mk_pollfd (pfd_fd pfd) ev (pfd_revents pfd));
      let pop := set_event_set l pop in
      if negb (ev =? 0) then Some (pop, 0)
      else
        let pop := set_nfds (nfds pop - 1) (set_idxplus1 fd 0 pop) in
        if i =? nfds pop then Some (pop, 0)
        else
          last ← entry (event_set pop) (nfds pop);
          l ← set_entry (event_set pop) i last;
          idx ← pollidx pop !! pfd_fd last;
          ASSERT (idx =? nfds pop + 1);;
          Some (set_idxplus1 (pfd_fd last) (i + 1) (set_event_set l pop), 0).

(** The events that are reported for an entry. *)
Definition poll_result (revents : Z) : Z :=
  let what := if revents &? Z.lor POLLHUP (Z.lor POLLERR POLLNVAL) then Z.lor revents (Z.lor POLLIN POLLOUT) else revents in
  let res := if what &? POLLIN then EV_READ else 0 in
  if what &? POLLOUT then Z.lor res EV_WRITE else res.

(** The loop over the entries from a random one on, and the calls of [evmap_io_active_]. *)
Fixpoint poll_loop (n : nat) (l : list (option pollfd)) (i nfds : Z) : option (list (Z * Z)) :=
  match n with
  | O => Some []
  | S n =>
    let i := if i + 1 =? nfds then 0 else i + 1 in
    e ← entry l i;
    rest ← poll_loop n l i nfds;
    if pfd_revents e =? 0 then Some rest
    else if poll_result (pfd_revents e) =? 0 then Some rest
    else Some ((pfd_fd e, poll_result (pfd_revents e)) :: rest)
  end.

(** poll(2): the error, or the [revents] of the entries. *)
Definition poll_call := list pollfd → Z → Z + list Z.

Definition write_revents (l : list (option pollfd)) (rs : list Z) : list (option pollfd) :=
  imap (λ i e, match rs !! i, e with Some r, Some e => Some (mk_pollfd (pfd_fd e) (pfd_events e) r) | _, _ => e end) l.

(** The state, the new seed, the calls of [evmap_io_active_] and the result.  [locked]
    says whether the base has a lock, [mm_realloc] whether the copy can be enlarged. *)
Definition poll_dispatch (poll : poll_call) (fuel : nat) (locked mm_realloc : bool) (pop : pollop) (seed : Z) (tv : option timeval)
    : option (pollop * Z * list (Z * Z) * Z) :=
  let n := nfds pop in
  copied ← (if locked then
              if realloc_copy pop && negb mm_realloc then Some None
              else
                let copy := if realloc_copy pop then resize (Z.to_nat (event_count pop)) None (event_set_copy pop) else event_set_copy pop in
                if (Z.of_nat (length copy) <? n) || (Z.of_nat (length (event_set pop)) <? n) then None
                else Some (Some (set_copy (take (Z.to_nat n) (event_set pop) ++ drop (Z.to_nat n) copy) false pop))
            else Some (Some pop));
  match copied with
  | None => Some (pop, seed, [], -1)
  | Some pop =>
    let set := if locked then event_set_copy pop else event_set pop in
    let msec := match tv with
                | None => -1
                | Some tv => let msec := evutil_tv_to_msec_ tv in if (msec <? 0) || (INT_MAX <? msec) then INT_MAX else msec
                end in
    fds ← mapM id (take (Z.to_nat n) set);
    match poll fds msec with
    | inl errno => Some (pop, seed, [], if errno =? EINTR then 0 else -1)
    | inr rs =>
      let set := write_revents set rs in
      let pop := if locked then set_copy set (realloc_copy pop) pop else set_event_set set pop in
      if bool_decide (filter (λ r, r ≠ 0) rs = []) || (n =? 0) then Some (pop, seed, [], 0)
      else
        '(i, seed) ← evutil_weakrand_range_ fuel seed n;
        act ← poll_loop (Z.to_nat n) set i n;
        Some (pop, seed, act, 0)
    end
  end.

(** ** select.c *)

(** A set of bits; bits behind the size that was set to 0 may not have been written. *)
Abbreviation fd_set := (list (option bool)).

Record selectop := mk_selectop {
  event_fds : Z;
  event_fdsz : Z;
  resize_out_sets : bool;
  event_readset_in : fd_set;
  event_writeset_in : fd_set;
  event_readset_out : fd_set;
  event_writeset_out : fd_set
}.

(** Bytes for [n] descriptors, with 64 bits in an fd_mask. *)
Definition SELECT_ALLOC_SIZE (n : Z) : Z := (n + 63) / 64 * 8.

Definition bits (bytes : Z) : nat := Z.to_nat (8 * bytes).
(** mm_realloc to [fdsz] bytes, and setting the bytes from [old] on to 0. *)
Definition realloc_set (fdsz : Z) (s : fd_set) : fd_set := resize (bits fdsz) None s.
Definition clear_from (old fdsz : Z) (s : fd_set) : fd_set := take (bits old) s ++ replicate (bits fdsz - bits old) (Some false) ++ drop (bits fdsz) s.

(** [mem1] and [mem2] say whether the two allocations succeed. *)
Definition select_resize (mem1 mem2 : bool) (sop : selectop) (fdsz : Z) : selectop * Z :=
  if negb mem1 then (sop, -1)
  else
    let readset_in := realloc_set fdsz (event_readset_in sop) in
    if negb mem2 then
      (mk_selectop (event_fds sop) (event_fdsz sop) (resize_out_sets sop) readset_in (event_writeset_in sop) (event_readset_out sop) (event_writeset_out sop), -1)
    else
      let writeset_in := realloc_set fdsz (event_writeset_in sop) in
      (mk_selectop (event_fds sop) fdsz true (clear_from (event_fdsz sop) fdsz readset_in) (clear_from (event_fdsz sop) fdsz writeset_in)
         (event_readset_out sop) (event_writeset_out sop), 0).

(** [None] is NULL. *)
Definition select_init (mm_calloc mem1 mem2 : bool) : option selectop :=
  if negb mm_calloc then None
  else
    let '(sop, r) := select_resize mem1 mem2 (mk_selectop 0 0 false [] [] [] []) (SELECT_ALLOC_SIZE (32 + 1)) in
    if r =? 0 then Some sop else None.

Fixpoint fdsz_loop (fuel : nat) (fdsz size : Z) : option Z :=
  if fdsz <? size then
    match fuel with
    | O => None
    | S fuel => if INT_MAX <? fdsz * 2 then None else fdsz_loop fuel (fdsz * 2) size
    end
  else Some fdsz.

(** FD_SET and FD_CLR. *)
Definition put_bit (b : bool) (fd : Z) (s : fd_set) : option fd_set :=
  if (fd <? 0) || (Z.of_nat (length s) <=? fd) then None else Some (<[Z.to_nat fd := Some b]> s).
Definition FD_ISSET (fd : Z) (s : fd_set) : option bool := if fd <? 0 then None else mjoin (s !! Z.to_nat fd).

Definition put_in_sets (b : bool) (sop : selectop) (fd events : Z) : option selectop :=
  r ← (if events &? EV_READ then put_bit b fd (event_readset_in sop) else Some (event_readset_in sop));
  w ← (if events &? EV_WRITE then put_bit b fd (event_writeset_in sop) else Some (event_writeset_in sop));
  Some (mk_selectop (event_fds sop) (event_fdsz sop) (resize_out_sets sop) r w (event_readset_out sop) (event_writeset_out sop)).

Definition set_event_fds (fd : Z) (sop : selectop) : selectop :=
  mk_selectop fd (event_fdsz sop) (resize_out_sets sop) (event_readset_in sop) (event_writeset_in sop) (event_readset_out sop) (event_writeset_out sop).

Definition select_add (mem1 mem2 : bool) (sop : selectop) (fd events : Z) : option (selectop * Z) :=
  ASSERT (Z.land events EV_SIGNAL =? 0);;
  if event_fds sop <? fd then
    let fdsz := if event_fdsz sop <? 8 then 8 else event_fdsz sop in
    fdsz ← (if INT_MAX <? fd + 1 then None else fdsz_loop 32 fdsz (SELECT_ALLOC_SIZE (fd + 1)));
    let '(sop, r) := if fdsz =? event_fdsz sop then (sop, 0) else select_resize mem1 mem2 sop fdsz in
    if negb (r =? 0) then Some (sop, -1)
    else sop ← put_in_sets true (set_event_fds fd sop) fd events; Some (sop, 0)
  else sop ← put_in_sets true sop fd events; Some (sop, 0).

Definition select_del (sop : selectop) (fd events : Z) : option (selectop * Z) :=
  ASSERT (Z.land events EV_SIGNAL =? 0);;
  if event_fds sop <? fd then Some (sop, 0)
  else sop ← put_in_sets false sop fd events; Some (sop, 0).

Fixpoint select_loop (n : nat) (r w : fd_set) (i nfds : Z) : option (list (Z * Z)) :=
  match n with
  | O => Some []
  | S n =>
    let i := if nfds <=? i + 1 then 0 else i + 1 in
    br ← FD_ISSET i r;
    bw ← FD_ISSET i w;
    let res := if (br : bool) then EV_READ else 0 in
    let res := if (bw : bool) then Z.lor res EV_WRITE else res in
    rest ← select_loop n r w i nfds;
    if res =? 0 then Some rest else Some ((i, res) :: rest)
  end.

(** select(2): the error, or the descriptors that are ready for reading and writing. *)
Definition select_call := Z → fd_set → fd_set → option timeval → Z + (fd_set * fd_set).

(** The new [event_readset_out] and [event_writeset_out], and whether they could be had;
    [mem1] and [mem2] say whether the two allocations succeed. *)
Definition resize_out (mem1 mem2 : bool) (sop : selectop) : bool * selectop :=
  let set_out r w rs := mk_selectop (event_fds sop) (event_fdsz sop) rs (event_readset_in sop) (event_writeset_in sop) r w in
  if resize_out_sets sop then
    if negb mem1 then (false, sop)
    else
      let r := realloc_set (event_fdsz sop) (event_readset_out sop) in
      if negb mem2 then (false, set_out r (event_writeset_out sop) true)
      else (true, set_out r (realloc_set (event_fdsz sop) (event_writeset_out sop)) false)
  else (true, sop).

(** memcpy of the size of the sets; both have to have it. *)
Definition copy_set (fdsz : Z) (dst src : fd_set) : option fd_set :=
  if (length dst <? bits fdsz)%nat || (length src <? bits fdsz)%nat then None else Some (take (bits fdsz) src ++ drop (bits fdsz) dst).

Definition select_dispatch (select : select_call) (fuel : nat) (mem1 mem2 : bool) (sop : selectop) (seed : Z) (tv : option timeval)
    : option (selectop * Z * list (Z * Z) * Z) :=
  let '(ok, sop) := resize_out mem1 mem2 sop in
  if negb ok then Some (sop, seed, [], -1)
  else
    r ← copy_set (event_fdsz sop) (event_readset_out sop) (event_readset_in sop);
    w ← copy_set (event_fdsz sop) (event_writeset_out sop) (event_writeset_in sop);
    let set_out r w := mk_selectop (event_fds sop) (event_fdsz sop) (resize_out_sets sop) (event_readset_in sop) (event_writeset_in sop) r w in
    let n := event_fds sop + 1 in
    match select n r w tv with
    | inl errno => Some (set_out r w, seed, [], if errno =? EINTR then 0 else -1)
    | inr (r, w) =>
      '(i, seed) ← evutil_weakrand_range_ fuel seed n;
      act ← select_loop (Z.to_nat n) r w i n;
      Some (set_out r w, seed, act, 0)
    end.
