(* ===== verification/FdBackendProps.v ===== *)
(** * The poll and select backends watch what they are told to *)

From stdpp Require Import gmap.
From S2P Require Import Prelude TimeVal EvMap RateLim RateLimProps FdBackends.

(** ** The specification: a map from descriptors to the events that are watched *)

Definition EV_RW : Z := 6.
Definition watch_add (m : gmap Z Z) (fd events : Z) : gmap Z Z :=
  if Z.land events EV_RW =? 0 then m else <[fd := Z.lor (default 0 (m !! fd)) (Z.land events EV_RW)]> m.
Definition watch_del (m : gmap Z Z) (fd events : Z) : gmap Z Z :=
  let left := Z.land (default 0 (m !! fd)) (Z.lnot (Z.land events EV_RW)) in
  if left =? 0 then delete fd m else <[fd := left]> m.

(** What is reported of the descriptors, when it is not nothing. *)
Definition reported (m : gmap Z Z) (what : Z → Z → Z) : gmap Z Z :=
  map_imap (λ fd ev, if what fd ev =? 0 then None else Some (what fd ev)) m.

(** What is reported when the descriptors are ready for [ready]. *)
Definition watch_active (m : gmap Z Z) (ready : Z → Z) : gmap Z Z := reported m (λ fd ev, Z.land ev (ready fd)).

Definition rw_mask (ev : Z) : Prop := ev = EV_READ ∨ ev = EV_WRITE ∨ ev = Z.lor EV_READ EV_WRITE.
Definition masks_ok (m : gmap Z Z) : Prop := map_Forall (λ _ ev, rw_mask ev) m.

Lemma land_rw x : Z.land x EV_RW = Z.lor (if x &? EV_READ then EV_READ else 0) (if x &? EV_WRITE then EV_WRITE else 0).
Proof.
  change EV_RW with (Z.lor (2 ^ 1) (2 ^ 2)). rewrite Z.land_lor_distr_r, !land_flag by lia. done.
Qed.

Lemma no_rw x : x &? Z.lor EV_READ EV_WRITE = negb (Z.land x EV_RW =? 0).
Proof. rewrite flag_orb, land_rw. by destruct (x &? EV_READ), (x &? EV_WRITE). Qed.

Lemma masks_add m fd events : masks_ok m → masks_ok (watch_add m fd events).
Proof.
  intros Hm. unfold watch_add. destruct (Z.eqb_spec (Z.land events EV_RW) 0) as [|Hne]; [done|]. apply map_Forall_insert_2; [|done].
  rewrite land_rw in *. unfold rw_mask. destruct (m !! fd) as [ev|] eqn:E; cbn [default from_option id].
  - destruct (Hm fd ev E) as [->|[->| ->]]; destruct (events &? EV_READ), (events &? EV_WRITE); cbn in *; try done; auto.
  - destruct (events &? EV_READ), (events &? EV_WRITE); cbn in *; try done; auto.
Qed.

Lemma masks_del m fd events : masks_ok m → masks_ok (watch_del m fd events).
Proof.
  intros Hm. unfold watch_del. destruct (Z.eqb_spec (Z.land (default 0 (m !! fd)) (Z.lnot (Z.land events EV_RW))) 0) as [|Hne]; [by apply map_Forall_delete|].
  apply map_Forall_insert_2; [|done]. rewrite land_rw in *. unfold rw_mask. destruct (m !! fd) as [ev|] eqn:E; cbn [default from_option id] in *; [|done].
  destruct (Hm fd ev E) as [->|[->| ->]]; destruct (events &? EV_READ), (events &? EV_WRITE); cbn in *; try done; auto.
Qed.

(** ** Going around from a random place *)

Fixpoint spin {X} (g : nat → list X) (k : nat) (i n : Z) : list X :=
  match k with
  | O => []
  | S k => let i := if n <=? i + 1 then 0 else i + 1 in g (Z.to_nat i) ++ spin g k i n
  end.

Lemma spin_up {X} (g : nat → list X) n k : ∀ i, -1 <= i → i + Z.of_nat k < n → spin g k i n = mjoin (g <$> seq (Z.to_nat (i + 1)) k).
Proof.
  induction k as [|k IH]; intros i Hi Hk; [done|]. cbn [spin seq fmap list_fmap]. destruct (Z.leb_spec n (i + 1)); [lia|]. rewrite (IH (i + 1)) by lia.
  by replace (Z.to_nat (i + 1 + 1)) with (S (Z.to_nat (i + 1))) by lia.
Qed.

Lemma spin_app {X} (g : nat → list X) n k k' : ∀ i, 0 <= i → i + Z.of_nat k < n → spin g (k + k') i n = spin g k i n ++ spin g k' (i + Z.of_nat k) n.
Proof.
  induction k as [|k IH]; intros i Hi Hk; [cbn; by rewrite Z.add_0_r|]. cbn [Nat.add spin]. destruct (Z.leb_spec n (i + 1)); [lia|]. rewrite (IH (i + 1)) by lia.
  rewrite <- app_assoc. do 3 f_equal. lia.
Qed.

(** Every place is visited once. *)
Lemma spin_perm {X} (g : nat → list X) n i : 0 <= i < n → spin g (Z.to_nat n) i n ≡ₚ mjoin (g <$> seq 0 (Z.to_nat n)).
Proof.
  intros Hi. set (a := Z.to_nat (n - 1 - i)). replace (Z.to_nat n) with (a + S (Z.to_nat i))%nat at 1 by lia. rewrite spin_app by lia.
  rewrite (spin_up g n a i) by lia. assert (Hlast : spin g (S (Z.to_nat i)) (i + Z.of_nat a) n = mjoin (g <$> seq 0 (S (Z.to_nat i)))).
  { cbn [spin seq fmap list_fmap]. destruct (Z.leb_spec n (i + Z.of_nat a + 1)); [|lia]. rewrite (spin_up g n (Z.to_nat i) 0) by lia. done. }
  rewrite Hlast, Permutation_app_comm, <- join_app, <- fmap_app. replace (Z.to_nat n) with (S (Z.to_nat i) + a)%nat by lia. rewrite seq_app.
  by replace (Z.to_nat (i + 1)) with (0 + S (Z.to_nat i))%nat by lia.
Qed.

(** ** poll *)

Definition to_poll (ev : Z) : Z := Z.lor (if ev &? EV_READ then POLLIN else 0) (if ev &? EV_WRITE then POLLOUT else 0).

(** The used part of the array is [l], which has one entry for each descriptor that is
    watched, and the places of the descriptors are those in the array. *)
Record poll_sim (pop : pollop) (l : list pollfd) (m : gmap Z Z) : Prop := {
  ps_len : Z.of_nat (length (event_set pop)) = event_count pop;
  ps_nfds : nfds pop = Z.of_nat (length l);
  ps_live : take (length l) (event_set pop) = Some <$> l;
  ps_idx : ∀ i e, l !! i = Some e → pollidx pop !! pfd_fd e = Some (Z.of_nat i + 1);
  ps_map : ∀ fd, match m !! fd with
           | Some ev => ∃ i e, l !! i = Some e ∧ pfd_fd e = fd ∧ pfd_events e = to_poll ev
           | None => idxplus1 pop fd = 0
           end;
  ps_copy : realloc_copy pop = false → length (event_set_copy pop) = length (event_set pop);
  ps_masks : masks_ok m
}.

Lemma ps_room pop l m : poll_sim pop l m → (length l <= length (event_set pop))%nat.
Proof. intros Hs. pose proof (f_equal length (ps_live _ _ _ Hs)) as Hl. rewrite length_take, length_fmap in Hl. lia. Qed.

Lemma ps_entry pop l m i e : poll_sim pop l m → l !! i = Some e → entry (event_set pop) (Z.of_nat i) = Some e ∧ (i < length (event_set pop))%nat.
Proof.
  intros Hs Hi. pose proof (ps_room _ _ _ Hs). pose proof (lookup_lt_Some _ _ _ Hi). split; [|lia]. unfold entry. destruct (Z.ltb_spec (Z.of_nat i) 0); [lia|]. rewrite Nat2Z.id.
  rewrite <- (lookup_take_lt _ (length l)) by done. rewrite (ps_live _ _ _ Hs), list_lookup_fmap, Hi. done.
Qed.

Lemma set_entry_ok (s : list (option pollfd)) i e : (i < length s)%nat → set_entry s (Z.of_nat i) e = Some (<[i := Some e]> s).
Proof.
  intros Hi. unfold set_entry. destruct (Z.ltb_spec (Z.of_nat i) 0), (Z.leb_spec (Z.of_nat (length s)) (Z.of_nat i)); try lia. cbn. by rewrite Nat2Z.id.
Qed.

Lemma entry_set (s : list (option pollfd)) i e : (i < length s)%nat → entry (<[i := Some e]> s) (Z.of_nat i) = Some e.
Proof. intros Hi. unfold entry. destruct (Z.ltb_spec (Z.of_nat i) 0); [lia|]. rewrite Nat2Z.id. by rewrite list_lookup_insert_eq. Qed.

(** A watched descriptor has the place that its data says, another one none. *)
Lemma ps_place pop l m fd : poll_sim pop l m →
  match m !! fd with
  | Some ev => ∃ i e, idxplus1 pop fd = Z.of_nat i + 1 ∧ l !! i = Some e ∧ pfd_fd e = fd ∧ pfd_events e = to_poll ev ∧ rw_mask ev
  | None => idxplus1 pop fd = 0
  end.
Proof.
  intros Hs. pose proof (ps_map _ _ _ Hs fd) as Hm. destruct (m !! fd) as [ev|] eqn:E; [|done]. destruct Hm as (i & e & Hi & <- & He). exists i, e.
  split; [unfold idxplus1; by rewrite (ps_idx _ _ _ Hs i e Hi)|]. do 3 (split; [done|]). exact (ps_masks _ _ _ Hs _ _ E).
Qed.

(** The events of an entry are changed. *)
Lemma sim_update pop l m i e ev rev : poll_sim pop l m → l !! i = Some e → rw_mask ev →
  poll_sim (set_event_set (<[i := Some (mk_pollfd (pfd_fd e) (to_poll ev) rev)]> (event_set pop)) pop) (<[i := mk_pollfd (pfd_fd e) (to_poll ev) rev]> l) (<[pfd_fd e := ev]> m).
Proof.
  intros Hs Hi Hev. pose proof (ps_room _ _ _ Hs). pose proof (lookup_lt_Some _ _ _ Hi). destruct Hs as [Hlen Hn Hlive Hidx Hmap Hcopy Hmasks]. split; cbn.
  - by rewrite length_insert.
  - by rewrite length_insert.
  - rewrite length_insert, list_fmap_insert, take_insert_lt, Hlive by lia. done.
  - intros j e' Hj. apply list_lookup_insert_Some in Hj as [(<- & <- & _)|[_ Hj]]; [exact (Hidx i e Hi)|exact (Hidx j e' Hj)].
  - intros fd. destruct (decide (fd = pfd_fd e)) as [->|Hne].
    + rewrite lookup_insert_eq. exists i, (mk_pollfd (pfd_fd e) (to_poll ev) rev). split; [by rewrite list_lookup_insert_eq|done].
    + rewrite lookup_insert_ne by done. specialize (Hmap fd). destruct (m !! fd); [|done]. destruct Hmap as (j & e' & Hj & <- & He'). exists j, e'.
      split; [|done]. rewrite list_lookup_insert_ne; [done|]. intros <-. congruence.
  - intros Hr. rewrite length_insert. by apply Hcopy.
  - by apply map_Forall_insert_2.
Qed.

(** A descriptor is put behind the used part. *)
Lemma sim_append pop l m fd ev rev : poll_sim pop l m → m !! fd = None → rw_mask ev → nfds pop < event_count pop →
  let e := mk_pollfd fd (to_poll ev) rev in
  poll_sim (set_idxplus1 fd (nfds pop + 1) (set_event_set (<[length l := Some e]> (event_set pop)) (set_nfds (nfds pop + 1) pop))) (l ++ [e]) (<[fd := ev]> m).
Proof.
  intros Hs Hfd Hev Hroom e. pose proof (ps_place _ _ _ fd Hs) as Hpl. rewrite Hfd in Hpl. destruct Hs as [Hlen Hn Hlive Hidx Hmap Hcopy Hmasks]. split; cbn.
  - by rewrite length_insert.
  - rewrite length_app. cbn. lia.
  - rewrite length_app, fmap_app. cbn. rewrite Nat.add_1_r, (take_S_r _ _ (Some e)) by (apply list_lookup_insert_eq; lia). by rewrite take_insert_ge, Hlive by lia.
  - intros i e' Hi. apply lookup_app_Some in Hi as [Hi|[Hge Hi]].
    + rewrite lookup_insert_ne; [by apply Hidx|]. intros ->. unfold idxplus1 in Hpl. rewrite (Hidx i e' Hi) in Hpl. cbn in Hpl. lia.
    + apply list_lookup_singleton_Some in Hi as [Hi <-]. rewrite lookup_insert_eq. f_equal. lia.
  - intros fd'. unfold idxplus1. cbn. destruct (decide (fd' = fd)) as [->|Hne].
    + rewrite lookup_insert_eq. exists (length l), e. by rewrite lookup_app_r, Nat.sub_diag by lia.
    + rewrite !lookup_insert_ne by done. specialize (Hmap fd'). destruct (m !! fd'); [|exact Hmap]. destruct Hmap as (j & e' & Hj & ?). exists j, e'. split; [|done].
      by apply lookup_app_l_Some.
  - intros Hr. rewrite length_insert. by apply Hcopy.
  - by apply map_Forall_insert_2.
Qed.

(** Distinct places have distinct descriptors. *)
Lemma ps_inj pop l m i j e e' : poll_sim pop l m → l !! i = Some e → l !! j = Some e' → pfd_fd e = pfd_fd e' → i = j.
Proof. intros Hs Hi Hj E. pose proof (ps_idx _ _ _ Hs i e Hi) as H1. rewrite E, (ps_idx _ _ _ Hs j e' Hj) in H1. injection H1. lia. Qed.

(** The last entry is given up. *)
Lemma sim_remove_last pop l e m junk : poll_sim pop (l ++ [e]) m →
  poll_sim (set_nfds (nfds pop - 1) (set_idxplus1 (pfd_fd e) 0 (set_event_set (<[length l := junk]> (event_set pop)) pop))) l (delete (pfd_fd e) m).
Proof.
  intros Hs. assert (He : (l ++ [e]) !! length l = Some e) by (by rewrite lookup_app_r, Nat.sub_diag by lia).
  assert (Hpre : ∀ i e', l !! i = Some e' → (l ++ [e]) !! i = Some e' ∧ pfd_fd e' ≠ pfd_fd e).
  { intros i e' Hi. assert (Hi' : (l ++ [e]) !! i = Some e') by (by apply lookup_app_l_Some). split; [done|]. intros E. pose proof (ps_inj _ _ _ _ _ _ _ Hs Hi' He E). apply lookup_lt_Some in Hi. lia. }
  destruct Hs as [Hlen Hn Hlive Hidx Hmap Hcopy Hmasks]. split; cbn.
  - by rewrite length_insert.
  - rewrite Hn, length_app. cbn. lia.
  - rewrite take_insert_ge by lia. apply (f_equal (take (length l))) in Hlive. rewrite take_take, length_app, Nat.min_l, fmap_app, take_app_le in Hlive by (rewrite ?length_fmap; cbn; lia).
    rewrite Hlive. by rewrite take_ge by (by rewrite length_fmap).
  - intros i e' Hi. destruct (Hpre i e' Hi) as [Hi' Hne]. rewrite lookup_insert_ne by done. by apply Hidx.
  - intros fd. unfold idxplus1. cbn. destruct (decide (fd = pfd_fd e)) as [->|Hne]; [by rewrite lookup_delete_eq, lookup_insert_eq|].
    rewrite lookup_delete_ne, lookup_insert_ne by done. specialize (Hmap fd). destruct (m !! fd); [|exact Hmap]. destruct Hmap as (j & e' & Hj & <- & He'). exists j, e'. split; [|done].
    apply lookup_app_Some in Hj as [Hj|[_ Hj]]; [done|]. apply list_lookup_singleton_Some in Hj as [_ <-]. done.
  - intros Hr. rewrite length_insert. by apply Hcopy.
  - by apply map_Forall_delete.
Qed.

(** The last entry is moved to the place of another one, which is given up. *)
Lemma sim_remove_middle pop l last i e m junk : poll_sim pop (l ++ [last]) m → l !! i = Some e →
  poll_sim (set_idxplus1 (pfd_fd last) (Z.of_nat i + 1) (set_event_set (<[i := Some last]> (<[i := junk]> (event_set pop)))
    (set_nfds (nfds pop - 1) (set_idxplus1 (pfd_fd e) 0 (set_event_set (<[i := junk]> (event_set pop)) pop))))) (<[i := last]> l) (delete (pfd_fd e) m).
Proof.
  intros Hs Hi. assert (Hlt := lookup_lt_Some _ _ _ Hi). assert (Hl : (l ++ [last]) !! length l = Some last) by (by rewrite lookup_app_r, Nat.sub_diag by lia).
  assert (Hi' : (l ++ [last]) !! i = Some e) by (by apply lookup_app_l_Some).
  assert (Hpre : ∀ j e', (l ++ [last]) !! j = Some e' → j ≠ i → pfd_fd e' ≠ pfd_fd e) by (intros j e' Hj Hne E; by apply Hne, (ps_inj _ _ _ _ _ _ _ Hs Hj Hi')).
  assert (Hlast : ∀ j e', l !! j = Some e' → pfd_fd e' ≠ pfd_fd last).
  { intros j e' Hj E. assert (Hj' : (l ++ [last]) !! j = Some e') by (by apply lookup_app_l_Some). pose proof (ps_inj _ _ _ _ _ _ _ Hs Hj' Hl E). apply lookup_lt_Some in Hj. lia. }
  destruct Hs as [Hlen Hn Hlive Hidx Hmap Hcopy Hmasks]. split; cbn.
  - by rewrite !length_insert.
  - rewrite Hn, length_app, length_insert. cbn. lia.
  - rewrite list_insert_insert_eq, length_insert, list_fmap_insert, take_insert_lt by done. f_equal. apply (f_equal (take (length l))) in Hlive.
    rewrite take_take, length_app, Nat.min_l, fmap_app, take_app_le in Hlive by (rewrite ?length_fmap; cbn; lia). rewrite Hlive. by rewrite take_ge by (by rewrite length_fmap).
  - intros j e' Hj. apply list_lookup_insert_Some in Hj as [(<- & <- & _)|[Hne Hj]]; [by rewrite lookup_insert_eq|]. assert (Hj' : (l ++ [last]) !! j = Some e') by (by apply lookup_app_l_Some).
    rewrite !lookup_insert_ne; [by apply Hidx|apply not_eq_sym, (Hpre j e' Hj'); lia|apply not_eq_sym, (Hlast j e' Hj)].
  - intros fd. unfold idxplus1. cbn. destruct (decide (fd = pfd_fd e)) as [->|Hne].
    { rewrite lookup_delete_eq, lookup_insert_ne by (apply not_eq_sym, (Hlast i e Hi)). by rewrite lookup_insert_eq. }
    rewrite lookup_delete_ne by done. specialize (Hmap fd). destruct (m !! fd) as [ev|].
    + destruct Hmap as (j & e' & Hj & <- & He'). destruct (decide (j = length l)) as [->|Hjl].
      * rewrite Hl in Hj. injection Hj as <-. exists i, last. by rewrite list_lookup_insert_eq.
      * exists j, e'. split; [|done]. rewrite list_lookup_insert_ne by (intros <-; congruence). apply lookup_app_Some in Hj as [Hj|[Hge Hj]]; [done|].
        apply list_lookup_singleton_Some in Hj as [Hj _]. lia.
    + rewrite !lookup_insert_ne; [exact Hmap|done|]. intros <-. unfold idxplus1 in Hmap. rewrite (Hidx _ _ Hl) in Hmap. cbn in Hmap. lia.
  - intros Hr. rewrite !length_insert. by apply Hcopy.
  - by apply map_Forall_delete.
Qed.

Definition old_mask_ok (ev : Z) : Prop := ev = 0 ∨ rw_mask ev.

(** The bits of poll follow the events. *)
Lemma to_poll_add ev events : old_mask_ok ev → Z.land events EV_RW ≠ 0 →
  (if events &? EV_READ then Z.lor (if events &? EV_WRITE then Z.lor (to_poll ev) POLLOUT else to_poll ev) POLLIN
   else if events &? EV_WRITE then Z.lor (to_poll ev) POLLOUT else to_poll ev)
  = to_poll (Z.lor ev (Z.land events EV_RW)) ∧ rw_mask (Z.lor ev (Z.land events EV_RW)).
Proof.
  intros Hev Hne. rewrite land_rw in *. unfold rw_mask. destruct Hev as [->|[->|[->| ->]]]; destruct (events &? EV_READ), (events &? EV_WRITE); cbn in *; try done; auto.
Qed.

Lemma to_poll_del ev events : rw_mask ev →
  let left := Z.land ev (Z.lnot (Z.land events EV_RW)) in
  (if events &? EV_WRITE then Z.land (if events &? EV_READ then Z.land (to_poll ev) (Z.lnot POLLIN) else to_poll ev) (Z.lnot POLLOUT)
   else if events &? EV_READ then Z.land (to_poll ev) (Z.lnot POLLIN) else to_poll ev)
  = to_poll left ∧ old_mask_ok left ∧ (to_poll left =? 0) = (left =? 0).
Proof.
  intros Hev. rewrite land_rw. unfold old_mask_ok, rw_mask. destruct Hev as [->|[->| ->]]; destruct (events &? EV_READ), (events &? EV_WRITE); cbn; try done; auto 6.
Qed.

Lemma poll_room_ok mem pop l m : poll_sim pop l m → nfds pop < 2 ^ 29 →
  ∃ o, poll_room mem pop = Some o ∧ match o with
  | None => mem = false
  | Some pop' => poll_sim pop' l m ∧ nfds pop' < event_count pop' ∧ nfds pop' = nfds pop ∧ pollidx pop' = pollidx pop
  end.
Proof.
  intros Hs Hn. unfold poll_room. pose proof (ps_room _ _ _ Hs) as Hr. destruct (Hs) as [Hlen Hnf Hlive Hidx Hmap Hcopy Hmasks]. destruct (Z.leb_spec (event_count pop) (nfds pop + 1)) as [Hle|Hgt].
  2: { eexists. split; [done|]. split; [done|]. split; [lia|done]. }
  set (c := if event_count pop <? 32 then 32 else event_count pop * 2). assert (Hc : 2 * event_count pop <= c + c ∧ nfds pop < c ∧ event_count pop <= c <= 2 ^ 30) by (unfold c; destruct (Z.ltb_spec (event_count pop) 32); lia).
  destruct (Z.ltb_spec INT_MAX c) as [Hover|_]; [lia|]. destruct mem; [|by exists None]. eexists. split; [done|]. cbn. split; [|split; [lia|done]]. split; cbn; try done.
  - rewrite length_resize. lia.
  - rewrite take_resize_le by lia. rewrite resize_le by lia. done.
Qed.

Lemma poll_add_ok mem pop l m fd events : poll_sim pop l m → Z.land events EV_SIGNAL = 0 → nfds pop < 2 ^ 29 →
  ∃ pop' r l', poll_add mem pop fd events = Some (pop', r) ∧ nfds pop' <= nfds pop + 1 ∧
    ((r = 0 ∧ poll_sim pop' l' (watch_add m fd events)) ∨ (r = -1 ∧ mem = false ∧ poll_sim pop' l' m)).
Proof.
  intros Hs Hsig Hn. unfold poll_add. rewrite Hsig. cbn [evassert Z.eqb mbind option_bind]. rewrite no_rw. unfold watch_add.
  destruct (Z.eqb_spec (Z.land events EV_RW) 0) as [Hz|Hnz]; cbn [negb]; [exists pop, 0, l; split; [done|]; split; [lia|by left]|].
  destruct (poll_room_ok mem pop l m Hs Hn) as ([p|] & -> & Hp); cbn [mbind option_bind]; [|exists pop, (-1), l; split; [done|]; split; [lia|by right]].
  destruct Hp as (Hsp & Hroom & Hnp & _). pose proof (ps_place _ _ _ fd Hsp) as Hpl. destruct (m !! fd) as [ev|] eqn:Em; cbn [default from_option id].
  - destruct Hpl as (i & e & -> & Hi & <- & He & Hev). replace (Z.of_nat i + 1 - 1) with (Z.of_nat i) by lia. destruct (Z.leb_spec 0 (Z.of_nat i)); [|lia]. cbn [mbind option_bind].
    destruct (ps_entry _ _ _ _ _ Hsp Hi) as [-> Hlt]. cbn [mbind option_bind]. rewrite set_entry_ok by done. cbn [mbind option_bind]. rewrite He.
    destruct (to_poll_add ev events (or_intror Hev) Hnz) as [-> Hm']. eexists _, _, _. split; [done|]. split; [cbn; lia|]. left. split; [done|]. exact (sim_update p l m i e _ 0 Hsp Hi Hm').
  - assert (Hlt : (length l < length (event_set p))%nat) by (pose proof (ps_len _ _ _ Hsp); pose proof (ps_nfds _ _ _ Hsp); lia).
    rewrite Hpl. change (0 <=? 0 - 1) with false. cbv iota. rewrite (ps_nfds _ _ _ Hsp), set_entry_ok by done.
    cbn [mbind option_bind event_set set_idxplus1 set_event_set set_nfds]. rewrite entry_set by done. cbn [mbind option_bind pfd_events pfd_fd]. rewrite set_entry_ok by (by rewrite length_insert).
    cbn [mbind option_bind]. rewrite list_insert_insert_eq. destruct (to_poll_add 0 events (or_introl eq_refl) Hnz) as [Hbits Hm']. change (to_poll 0) with 0 in Hbits. rewrite Hbits.
    eexists _, _, _. split; [done|]. split; [cbn; pose proof (ps_nfds _ _ _ Hsp); lia|]. left. split; [done|].
    pose proof (sim_append p l m fd _ 0 Hsp Em Hm' Hroom) as Hf. rewrite (ps_nfds _ _ _ Hsp) in Hf. exact Hf.
Qed.

Lemma poll_del_ok pop l m fd events : poll_sim pop l m → Z.land events EV_SIGNAL = 0 →
  ∃ pop' r l', poll_del pop fd events = Some (pop', r) ∧ nfds pop' <= nfds pop ∧ poll_sim pop' l' (watch_del m fd events).
Proof.
  intros Hs Hsig. unfold poll_del. rewrite Hsig. cbn [evassert Z.eqb mbind option_bind]. rewrite no_rw. unfold watch_del. pose proof (ps_place _ _ _ fd Hs) as Hpl.
  destruct (m !! fd) as [ev|] eqn:Em; cbn [default from_option id].
  2: { rewrite Z.land_0_l, delete_id by done. cbn [Z.eqb]. rewrite Hpl. destruct (negb _); eexists _, _, l; (split; [done|]); split; (done || lia). }
  destruct Hpl as (i & e & -> & Hi & <- & He & Hev). replace (Z.of_nat i + 1 - 1) with (Z.of_nat i) by lia. destruct (to_poll_del ev events Hev) as (Hbits & Hleft & Hzero).
  destruct (Z.eqb_spec (Z.land events EV_RW) 0) as [Hz|Hnz]; cbn [negb].
  { rewrite Hz in *. rewrite Z.land_m1_r in *. destruct (Z.eqb_spec ev 0) as [->|_]; [by destruct Hev as [?|[?|?]]|]. rewrite insert_id by done. exists pop, 0, l. split; [done|]. split; [lia|done]. }
  destruct (Z.ltb_spec (Z.of_nat i) 0); [lia|]. destruct (ps_entry _ _ _ _ _ Hs Hi) as [-> Hlt]. cbn [mbind option_bind]. rewrite set_entry_ok by done. cbn [mbind option_bind]. rewrite He, Hbits, Hzero.
  destruct (Z.eqb_spec (Z.land ev (Z.lnot (Z.land events EV_RW))) 0) as [E0|Hne]; cbn [negb].
  2: { eexists _, _, _. split; [done|]. split; [cbn; lia|]. apply sim_update; [done..|]. by destruct Hleft. }
  destruct l as [|last l' _] using rev_ind; [done|]. cbn [nfds set_nfds set_idxplus1 set_event_set]. pose proof (ps_nfds _ _ _ Hs) as Hn. rewrite length_app in Hn. cbn in Hn.
  destruct (Z.eqb_spec (Z.of_nat i) (nfds pop - 1)) as [Elast|Hmid].
  - assert (i = length l') as -> by lia. rewrite lookup_app_r, Nat.sub_diag in Hi by lia. injection Hi as ->. eexists _, _, _. split; [done|]. split; [cbn; lia|]. by apply sim_remove_last.
  - assert (Hil : l' !! i = Some e) by (apply lookup_app_Some in Hi as [?|[Hge Hi]]; [done|]; apply list_lookup_singleton_Some in Hi as [Hi _]; lia).
    assert (Hlast : (l' ++ [last]) !! length l' = Some last) by (by rewrite lookup_app_r, Nat.sub_diag by lia).
    destruct (ps_entry _ _ _ _ _ Hs Hlast) as [Hent Hlt']. replace (nfds pop - 1) with (Z.of_nat (length l')) in * by lia. cbn [event_set pollidx set_nfds set_idxplus1 set_event_set].
    assert (Hent' : ∀ x, entry (<[i := x]> (event_set pop)) (Z.of_nat (length l')) = Some last).
    { intros x. unfold entry in *. destruct (Z.of_nat (length l') <? 0); [done|]. rewrite Nat2Z.id in *. rewrite list_lookup_insert_ne by lia. done. }
    rewrite Hent'. cbn [mbind option_bind]. rewrite set_entry_ok by (by rewrite length_insert). cbn [mbind option_bind].
    assert (Hne : pfd_fd e ≠ pfd_fd last) by (intros E; pose proof (ps_inj _ _ _ _ _ _ _ Hs Hi Hlast E); lia).
    rewrite lookup_insert_ne, (ps_idx _ _ _ Hs _ _ Hlast) by done. cbn [mbind option_bind]. rewrite Z.eqb_refl. cbn [evassert mbind option_bind].
    eexists _, _, _. split; [done|]. split; [cbn; lia|]. pose proof (sim_remove_middle pop l' last i e m (Some (mk_pollfd (pfd_fd e) (to_poll (Z.land ev (Z.lnot (Z.land events EV_RW)))) (pfd_revents e))) Hs Hil) as Hf.
    replace (nfds pop - 1) with (Z.of_nat (length l')) in Hf by lia. exact Hf.
Qed.

(** ** Reporting *)

Definition report (p : Z * Z) : list (Z * Z) := if snd p =? 0 then [] else [p].

Lemma report_filter ks : mjoin (report <$> ks) = filter (λ p, snd p ≠ 0) ks.
Proof.
  induction ks as [|[fd r] ks IH]; [done|]. change (mjoin (report <$> (fd, r) :: ks)) with (report (fd, r) ++ mjoin (report <$> ks)). rewrite IH. unfold report. cbn [snd].
  destruct (Z.eqb_spec r 0); [by rewrite filter_cons_False by naive_solver|by rewrite filter_cons_True].
Qed.

Lemma report_perm ks (m : gmap Z Z) : NoDup ks.*1 → (∀ fd r, r ≠ 0 → (fd, r) ∈ ks ↔ m !! fd = Some r) → map_Forall (λ _ r, r ≠ 0) m →
  mjoin (report <$> ks) ≡ₚ map_to_list m.
Proof.
  intros Hnd Hin Hnz. rewrite report_filter. apply NoDup_Permutation; [|apply NoDup_map_to_list|].
  - apply NoDup_filter. by apply NoDup_fmap_1 in Hnd.
  - intros [fd r]. rewrite list_elem_of_filter, elem_of_map_to_list. cbn. split; [intros [Hr ?]; by apply Hin|]. intros Hm. pose proof (Hnz fd r Hm). split; [done|]. by apply Hin.
Qed.

Lemma reported_nonzero m what : map_Forall (λ _ r, r ≠ 0) (reported m what).
Proof. intros fd r. unfold reported. rewrite map_lookup_imap. destruct (m !! fd) as [ev|]; cbn; [|done]. destruct (Z.eqb_spec (what fd ev) 0); [done|]. by intros [= <-]. Qed.

Lemma reported_lookup m what fd r : r ≠ 0 → reported m what !! fd = Some r ↔ ∃ ev, m !! fd = Some ev ∧ r = what fd ev.
Proof. intros Hr. unfold reported. rewrite map_lookup_imap. destruct (m !! fd) as [ev|]; cbn; [|naive_solver]. destruct (Z.eqb_spec (what fd ev) 0); naive_solver. Qed.

(** The conditions that poll(2) reports whether they were asked for or not. *)
Definition POLLFAIL : Z := Z.lor POLLHUP (Z.lor POLLERR POLLNVAL).

(** A kernel that answers, of the conditions of each descriptor, those that were asked
    for and those that are always reported. *)
Definition answered (status : Z → Z) (e : pollfd) : pollfd :=
  mk_pollfd (pfd_fd e) (pfd_events e) (Z.land (status (pfd_fd e)) (Z.lor (pfd_events e) POLLFAIL)).
Definition poll_answers (status : Z → Z) : poll_call := λ fds _, inr ((λ e, pfd_revents (answered status e)) <$> fds).

(** The events that the conditions stand for: a descriptor that failed can be read from
    and written to without waiting. *)
Definition status_events (s : Z) : Z :=
  if s &? POLLFAIL then EV_RW else Z.lor (if s &? POLLIN then EV_READ else 0) (if s &? POLLOUT then EV_WRITE else 0).

(** What poll reports: everything for a descriptor that failed, otherwise what was asked
    for. *)
Definition poll_what (status : Z → Z) (fd ev : Z) : Z := if status fd &? POLLFAIL then EV_RW else Z.land ev (status_events (status fd)).
Definition poll_active (m : gmap Z Z) (status : Z → Z) : gmap Z Z := reported m (poll_what status).

Lemma poll_result_table : Forall (λ x, Forall (λ ev, poll_result (Z.land x (Z.lor (to_poll ev) POLLFAIL)) = poll_what (λ _, x) 0 ev) [EV_READ; EV_WRITE; EV_RW]) (seqZ 0 64).
Proof. apply (bool_decide_unpack _). vm_compute. exact I. Qed.

(** Only the six bits of these conditions matter. *)
Lemma poll_result_ready status e ev : rw_mask ev → pfd_events e = to_poll ev → poll_result (pfd_revents (answered status e)) = poll_what status (pfd_fd e) ev.
Proof.
  intros Hev He. cbn [answered pfd_revents]. rewrite He. set (s := status (pfd_fd e)). assert (Hx : 0 <= Z.land s 63 < 64) by (change 63 with (Z.ones 6); rewrite Z.land_ones by lia; apply Z.mod_pos_bound; lia).
  assert (Hsub : ∀ k, Z.land 63 k = k → Z.land s k = Z.land (Z.land s 63) k) by (intros k Hk; by rewrite <- Z.land_assoc, Hk).
  assert (Hw : poll_what status (pfd_fd e) ev = poll_what (λ _, Z.land s 63) 0 ev).
  { unfold poll_what, status_events, flag. fold s. by rewrite (Hsub POLLFAIL), (Hsub POLLIN), (Hsub POLLOUT). }
  rewrite Hw, Hsub by (by destruct Hev as [->|[->| ->]]). pose proof (proj1 (Forall_forall _ _) poll_result_table (Z.land s 63)) as Hall.
  specialize (Hall (proj2 (elem_of_seqZ _ _ _) Hx)). rewrite Forall_forall in Hall. apply Hall. destruct Hev as [->|[->| ->]]; set_solver.
Qed.

Lemma poll_loop_spin (set : list (option pollfd)) l k : ∀ i n, n = Z.of_nat (length l) → (∀ j e, l !! j = Some e → entry set (Z.of_nat j) = Some e) → -1 <= i < n → 0 < n →
  poll_loop k set i n = Some (spin (λ j, match l !! j with Some e => report (pfd_fd e, poll_result (pfd_revents e)) | None => [] end) k i n).
Proof.
  induction k as [|k IH]; intros i n Hn Hset Hi Hpos; [done|]. cbn [poll_loop spin]. set (i' := if i + 1 =? n then 0 else i + 1).
  assert (Hi' : (if n <=? i + 1 then 0 else i + 1) = i' ∧ 0 <= i' < n) by (unfold i'; destruct (Z.eqb_spec (i + 1) n), (Z.leb_spec n (i + 1)); lia). destruct Hi' as [-> Hi'].
  destruct (lookup_lt_is_Some_2 l (Z.to_nat i')) as [e He]; [lia|]. rewrite He. pose proof (Hset _ _ He) as Hent. rewrite Z2Nat.id in Hent by lia. rewrite Hent. cbn [mbind option_bind].
  rewrite (IH i' n Hn Hset) by lia. cbn [mbind option_bind]. unfold report. cbn [snd]. destruct (Z.eqb_spec (pfd_revents e) 0) as [->|_]; [done|]. by destruct (poll_result (pfd_revents e) =? 0).
Qed.

Lemma mapM_live {X} (l : list X) : mapM id (Some <$> l) = Some l.
Proof. induction l as [|x l IH]; [done|]. cbn. change (mapM id (Some <$> l) ≫= _) with (mapM id (Some <$> l) ≫= λ k, Some (x :: k)). by rewrite IH. Qed.

(** The answers of the kernel are written to the used part. *)
Lemma write_revents_live status (set : list (option pollfd)) l : take (length l) set = Some <$> l →
  let rs := (λ e, pfd_revents (answered status e)) <$> l in
  take (length l) (write_revents set rs) = Some <$> (answered status <$> l) ∧ length (write_revents set rs) = length set.
Proof.
  intros Hlive rs. split; [|by unfold write_revents; rewrite length_imap]. apply list_eq. intros j. rewrite !list_lookup_fmap. destruct (decide (j < length l)%nat) as [Hj|Hj].
  - rewrite lookup_take_lt by done. unfold write_revents. rewrite list_lookup_imap. destruct (lookup_lt_is_Some_2 l j Hj) as [e He]. rewrite He.
    assert (Hs : set !! j = Some (Some e)) by (rewrite <- (lookup_take_lt _ (length l)), Hlive, list_lookup_fmap, He by done; done). rewrite Hs. cbn. unfold rs. by rewrite list_lookup_fmap, He.
  - rewrite lookup_take_ge by lia. by rewrite (lookup_ge_None_2 l) by lia.
Qed.

Lemma live_entries (set : list (option pollfd)) l : take (length l) set = Some <$> l → ∀ j e, l !! j = Some e → entry set (Z.of_nat j) = Some e.
Proof.
  intros Hlive j e Hj. unfold entry. destruct (Z.ltb_spec (Z.of_nat j) 0); [lia|]. rewrite Nat2Z.id. rewrite <- (lookup_take_lt _ (length l)) by (by eapply lookup_lt_Some).
  by rewrite Hlive, list_lookup_fmap, Hj.
Qed.

Lemma sim_fds_nodup pop l m : poll_sim pop l m → NoDup (pfd_fd <$> l).
Proof.
  intros Hs. apply NoDup_alt. intros i j fd Hi Hj. rewrite list_lookup_fmap in Hi, Hj. apply fmap_Some in Hi as (e & Hi & ->). apply fmap_Some in Hj as (e' & Hj & E).
  by eapply ps_inj.
Qed.

(** What is reported of the descriptors that are watched. *)
Lemma poll_reports pop l m status : poll_sim pop l m →
  mjoin (report <$> ((λ e, (pfd_fd e, poll_result (pfd_revents (answered status e)))) <$> l)) ≡ₚ map_to_list (poll_active m status).
Proof.
  intros Hs. apply report_perm; [|intros fd r Hr|apply reported_nonzero].
  - rewrite <- list_fmap_compose. exact (sim_fds_nodup _ _ _ Hs).
  - unfold poll_active. rewrite reported_lookup by done. rewrite list_elem_of_fmap. split.
    + intros (e & [= -> ->] & He). apply list_elem_of_lookup in He as [i Hi]. pose proof (ps_place _ _ _ (pfd_fd e) Hs) as Hp. destruct (m !! pfd_fd e) as [ev|].
      * destruct Hp as (j & e' & _ & Hj & E & He' & Hev). assert (i = j) as -> by (by eapply ps_inj). rewrite Hi in Hj. injection Hj as <-. exists ev. split; [done|]. by apply poll_result_ready.
      * exfalso. unfold idxplus1 in Hp. rewrite (ps_idx _ _ _ Hs i e Hi) in Hp. cbn in Hp. lia.
    + intros (ev & Em & ->). pose proof (ps_place _ _ _ fd Hs) as Hp. rewrite Em in Hp. destruct Hp as (i & e & _ & Hi & <- & He & Hev). exists e.
      split; [f_equal; symmetry; by apply poll_result_ready|]. by eapply list_elem_of_lookup_2.
Qed.

Lemma sim_answered pop l m status set : poll_sim pop l m → length set = length (event_set pop) → take (length l) set = Some <$> (answered status <$> l) →
  poll_sim (set_event_set set pop) (answered status <$> l) m.
Proof.
  intros [Hlen Hn Hlive Hidx Hmap Hcopy Hmasks] Hset Hl. split; cbn; try done.
  - by rewrite Hset.
  - by rewrite length_fmap.
  - by rewrite length_fmap.
  - intros i e Hi. rewrite list_lookup_fmap in Hi. apply fmap_Some in Hi as (e0 & Hi & ->). exact (Hidx i e0 Hi).
  - intros fd. specialize (Hmap fd). destruct (m !! fd); [|done]. destruct Hmap as (i & e & Hi & ? & ?). exists i, (answered status e). by rewrite list_lookup_fmap, Hi.
  - intros Hr. rewrite Hset. by apply Hcopy.
Qed.

(** The array that poll works on has the used part in front. *)
Lemma copy_live pop l m : poll_sim pop l m →
  let copy := if realloc_copy pop then resize (Z.to_nat (event_count pop)) None (event_set_copy pop) else event_set_copy pop in
  length copy = length (event_set pop) ∧ take (length l) (take (Z.to_nat (nfds pop)) (event_set pop) ++ drop (Z.to_nat (nfds pop)) copy) = Some <$> l ∧
  length (take (Z.to_nat (nfds pop)) (event_set pop) ++ drop (Z.to_nat (nfds pop)) copy) = length (event_set pop).
Proof.
  intros Hs copy. pose proof (ps_room _ _ _ Hs) as Hroom. assert (Hc : length copy = length (event_set pop)).
  { unfold copy. destruct (realloc_copy pop) eqn:Er; [rewrite length_resize, <- (ps_len _ _ _ Hs); lia|by apply (ps_copy _ _ _ Hs)]. }
  split; [done|]. rewrite (ps_nfds _ _ _ Hs), Nat2Z.id. split; [|rewrite length_app, length_take, length_drop; lia].
  rewrite take_app_le, take_take, Nat.min_id by (rewrite length_take; lia). apply Hs.
Qed.

Lemma fmap_seq_lookup {X Y} (f : X → list Y) l : (λ j, match l !! j with Some e => f e | None => [] end) <$> seq 0 (length l) = f <$> l.
Proof.
  apply list_eq. intros j. rewrite !list_lookup_fmap. destruct (decide (j < length l)%nat) as [Hj|Hj].
  - destruct (lookup_lt_is_Some_2 l j Hj) as [e He]. rewrite lookup_seq_lt by done. cbn. by rewrite He.
  - rewrite lookup_seq_ge by lia. by rewrite lookup_ge_None_2 by lia.
Qed.

Lemma poll_reports_any status set l seed fuel n i seed' : n = Z.of_nat (length l) → take (length l) set = Some <$> (answered status <$> l) →
  evutil_weakrand_range_ fuel seed n = Some (i, seed') →
  ∃ act, poll_loop (Z.to_nat n) set i n = Some act ∧ act ≡ₚ mjoin (report <$> ((λ e, (pfd_fd e, poll_result (pfd_revents (answered status e)))) <$> l)).
Proof.
  intros Hn Hlive Hrand. pose proof (weakrand_range_ok _ _ _ _ _ Hrand) as Hi.
  rewrite <- (length_fmap (answered status) l) in Hlive. rewrite (poll_loop_spin set (answered status <$> l) (Z.to_nat n) i n); [|by rewrite length_fmap|by apply live_entries|lia|lia].
  eexists. split; [done|]. rewrite spin_perm by lia. subst n. rewrite Nat2Z.id, <- (length_fmap (answered status) l) at 1. rewrite fmap_seq_lookup, <- !list_fmap_compose. done.
Qed.

Lemma no_answers status l : filter (λ r, r ≠ 0) ((λ e, pfd_revents (answered status e)) <$> l) = [] ∨ l = [] →
  mjoin (report <$> ((λ e, (pfd_fd e, poll_result (pfd_revents (answered status e)))) <$> l)) = [].
Proof.
  intros [Hf| ->]; [|done]. rewrite report_filter. apply elem_of_nil_inv. intros p [Hp Hin]%list_elem_of_filter. apply list_elem_of_fmap in Hin as (e & -> & He).
  assert (Hz : pfd_revents (answered status e) = 0).
  { apply dec_stable. intros Hne. eapply (filter_nil_not_elem_of _ _ _ Hf Hne). by apply (list_elem_of_fmap_2 (λ e, pfd_revents (answered status e))). }
  cbn [snd] in Hp. rewrite Hz in Hp. done.
Qed.

(** The end of a dispatch: nothing to report, or the loop. *)
Lemma poll_finish status fuel pop l m seed set (p : pollop) : poll_sim pop l m → take (length l) set = Some <$> (answered status <$> l) →
  (nfds pop ≠ 0 → is_Some (evutil_weakrand_range_ fuel seed (nfds pop))) → let rs := (λ e, pfd_revents (answered status e)) <$> l in
  ∃ seed' act, (if bool_decide (filter (λ r, r ≠ 0) rs = []) || (nfds pop =? 0) then Some (p, seed, [], 0)
      else '(i, seed) ← evutil_weakrand_range_ fuel seed (nfds pop); act ← poll_loop (Z.to_nat (nfds pop)) set i (nfds pop); Some (p, seed, act, 0)) = Some (p, seed', act, 0) ∧
    act ≡ₚ map_to_list (poll_active m status).
Proof.
  intros Hs Hw Hrand rs. pose proof (poll_reports pop l m status Hs) as Hrep. pose proof (ps_nfds _ _ _ Hs) as Hn. destruct (bool_decide _ || _) eqn:Enone.
  - eexists _, _. split; [done|]. rewrite <- Hrep, no_answers; [done|]. apply orb_true_iff in Enone as [?%bool_decide_eq_true|?%Z.eqb_eq]; [by left|right]. apply length_zero_iff_nil. lia.
  - apply orb_false_iff in Enone as [_ Hnz]. apply Z.eqb_neq in Hnz. destruct (Hrand Hnz) as [[i seed'] Hr]. rewrite Hr. cbn [mbind option_bind].
    destruct (poll_reports_any status set l seed fuel (nfds pop) i seed' Hn Hw Hr) as (act & -> & Hact). cbn [mbind option_bind]. eexists _, _. split; [done|]. by rewrite Hact.
Qed.

Lemma sim_set_copy pop l m c : poll_sim pop l m → length c = length (event_set pop) → poll_sim (set_copy c false pop) l m.
Proof. intros [] Hc. by split. Qed.

(** A dispatch reports every descriptor that is watched and has a condition, once. *)
Lemma poll_dispatch_ok status fuel locked pop l m seed tv : poll_sim pop l m →
  (nfds pop ≠ 0 → is_Some (evutil_weakrand_range_ fuel seed (nfds pop))) →
  ∃ pop' l' seed' act, poll_dispatch (poll_answers status) fuel locked true pop seed tv = Some (pop', seed', act, 0) ∧
    poll_sim pop' l' m ∧ nfds pop' = nfds pop ∧ act ≡ₚ map_to_list (poll_active m status).
Proof.
  intros Hs Hrand. unfold poll_dispatch. destruct (copy_live _ _ _ Hs) as (Hclen & Hctake & Hclen'). set (copy := if realloc_copy pop then _ else _) in *.
  set (cp := take (Z.to_nat (nfds pop)) (event_set pop) ++ drop (Z.to_nat (nfds pop)) copy) in *. pose proof (ps_room _ _ _ Hs) as Hroom. pose proof (ps_nfds _ _ _ Hs) as Hn.
  assert (HtakeN : ∀ set, take (length l) set = Some <$> l → mapM id (take (Z.to_nat (nfds pop)) set) = Some l) by (intros set Hset; rewrite Hn, Nat2Z.id, Hset; apply mapM_live).
  destruct locked.
  - rewrite andb_false_r. rewrite (proj2 (Z.ltb_ge (Z.of_nat (length copy)) (nfds pop))), (proj2 (Z.ltb_ge (Z.of_nat (length (event_set pop))) (nfds pop))) by lia. cbn [orb mbind option_bind].
    cbn [event_set_copy set_copy nfds]. rewrite (HtakeN cp Hctake). cbn [mbind option_bind poll_answers]. destruct (write_revents_live status cp l Hctake) as [Hw Hwl].
    destruct (poll_finish status fuel pop l m seed _ (set_copy (write_revents cp ((λ e, pfd_revents (answered status e)) <$> l)) false (set_copy cp false pop)) Hs Hw Hrand) as (seed' & act & E & Hact).
    exists (set_copy (write_revents cp ((λ e, pfd_revents (answered status e)) <$> l)) false (set_copy cp false pop)), l, seed', act. split; [exact E|]. split; [|done].
    apply sim_set_copy; [by apply sim_set_copy|exact (eq_trans Hwl Hclen')].
  - cbn [mbind option_bind]. rewrite (HtakeN _ (ps_live _ _ _ Hs)). cbn [mbind option_bind poll_answers]. destruct (write_revents_live status _ l (ps_live _ _ _ Hs)) as [Hw Hwl].
    destruct (poll_finish status fuel pop l m seed _ (set_event_set (write_revents (event_set pop) ((λ e, pfd_revents (answered status e)) <$> l)) pop) Hs Hw Hrand) as (seed' & act & E & Hact).
    eexists _, (answered status <$> l), seed', act. split; [exact E|]. split; [by apply sim_answered|done].
Qed.
