(* ===== verification/SelectProps.v ===== *)
(** * The select backend, and that it does the same as poll *)

From stdpp Require Import gmap.
From S2P Require Import Prelude TimeVal EvMap RateLim RateLimProps FdBackends FdBackendProps.

(** The events that are watched on a descriptor. *)
Definition mask (m : gmap Z Z) (fd : Z) : Z := default 0 (m !! fd).

(** The first [8 * event_fdsz] bits of a set are those of the descriptors that are
    watched for [bit]. *)
Definition set_bits (m : gmap Z Z) (bit fdsz : Z) (s : fd_set) : Prop :=
  (bits fdsz <= length s)%nat ∧ ∀ fd, 0 <= fd < 8 * fdsz → s !! Z.to_nat fd = Some (Some (mask m fd &? bit)).

Record select_sim (sop : selectop) (m : gmap Z Z) : Prop := {
  ss_fds : 0 <= event_fds sop < 8 * event_fdsz sop;
  ss_int : event_fds sop < 2 ^ 30;
  ss_size : 8 <= event_fdsz sop <= 2 ^ 28;
  ss_read : set_bits m EV_READ (event_fdsz sop) (event_readset_in sop);
  ss_write : set_bits m EV_WRITE (event_fdsz sop) (event_writeset_in sop);
  ss_max : ∀ fd ev, m !! fd = Some ev → 0 <= fd <= event_fds sop;
  ss_out : resize_out_sets sop = false → (bits (event_fdsz sop) <= length (event_readset_out sop))%nat ∧ (bits (event_fdsz sop) <= length (event_writeset_out sop))%nat;
  ss_masks : masks_ok m
}.

Lemma mask_add m fd events fd' : mask (watch_add m fd events) fd' = if decide (fd' = fd) then Z.lor (mask m fd) (Z.land events EV_RW) else mask m fd'.
Proof.
  unfold watch_add, mask. destruct (Z.eqb_spec (Z.land events EV_RW) 0) as [->|_].
  - rewrite Z.lor_0_r. by case_decide; subst.
  - case_decide; subst; [by rewrite lookup_insert_eq|by rewrite lookup_insert_ne].
Qed.

Lemma mask_del m fd events fd' : mask (watch_del m fd events) fd' = if decide (fd' = fd) then Z.land (mask m fd) (Z.lnot (Z.land events EV_RW)) else mask m fd'.
Proof.
  unfold watch_del, mask. destruct (Z.eqb_spec (Z.land (default 0 (m !! fd)) (Z.lnot (Z.land events EV_RW))) 0) as [->|_].
  - case_decide; subst; [by rewrite lookup_delete_eq|by rewrite lookup_delete_ne].
  - case_decide; subst; [by rewrite lookup_insert_eq|by rewrite lookup_insert_ne].
Qed.

(** ** Resizing *)

Lemma clear_from_bits m bit old fdsz s : 0 <= old <= fdsz → set_bits m bit old s → (∀ fd, 8 * old <= fd → mask m fd = 0) → set_bits m bit fdsz (clear_from old fdsz (realloc_set fdsz s)).
Proof.
  intros Hle [Hlen Hbits] Hzero. unfold clear_from, realloc_set. assert (Hb : (bits old <= bits fdsz)%nat) by (unfold bits; lia).
  assert (Htk : length (take (bits old) (resize (bits fdsz) None s)) = bits old) by (rewrite length_take, length_resize; lia). split.
  - rewrite !length_app, Htk, length_replicate. lia.
  - intros fd Hfd. destruct (decide (fd < 8 * old)) as [Hlt|Hge].
    + rewrite lookup_app_l by (rewrite Htk; unfold bits; lia). rewrite lookup_take_lt by (unfold bits; lia). rewrite lookup_resize by (unfold bits in *; lia). apply Hbits; lia.
    + rewrite lookup_app_r by (rewrite Htk; unfold bits; lia). rewrite Htk, lookup_app_l by (rewrite length_replicate; unfold bits; lia).
      rewrite lookup_replicate_2 by (unfold bits; lia). by rewrite (Hzero fd) by lia.
Qed.

Lemma realloc_bits m bit old fdsz s : 0 <= old <= fdsz → set_bits m bit old s → set_bits m bit old (realloc_set fdsz s).
Proof.
  intros Hle [Hlen Hbits]. unfold realloc_set. split; [rewrite length_resize; unfold bits; lia|]. intros fd Hfd. rewrite lookup_resize by (unfold bits in *; lia). by apply Hbits.
Qed.

(** Room for descriptors up to [8 * fdsz]: it is there, or memory is missing. *)
Lemma select_resize_ok mem1 mem2 sop m fdsz : select_sim sop m → event_fdsz sop <= fdsz <= 2 ^ 28 →
  ∃ sop' r, select_resize mem1 mem2 sop fdsz = (sop', r) ∧ select_sim sop' m ∧ event_fds sop' = event_fds sop ∧
    ((r = 0 ∧ event_fdsz sop' = fdsz) ∨ (r = -1 ∧ mem1 && mem2 = false)).
Proof.
  intros [Hfds Hint Hsize Hr Hw Hmax Hout Hm] Hle. unfold select_resize. destruct mem1; cbn [negb]; [|by eexists _, _; split; [done|]; split; [by split|]; split; [done|]; right].
  destruct mem2; cbn [negb]; eexists _, _; (split; [done|]); cbn; (split; [|split; [done|auto]]).
  - assert (Hz : ∀ fd, 8 * event_fdsz sop <= fd → mask m fd = 0) by (intros fd Hfd; unfold mask; destruct (m !! fd) eqn:E; [apply Hmax in E; lia|done]).
    split; cbn; [lia|done|lia|by apply clear_from_bits; [lia|..]|by apply clear_from_bits; [lia|..]|done|done|done].
  - split; cbn; [done|done|done|apply realloc_bits; [lia|done]|done..].
Qed.

Lemma fdsz_loop_ok fuel : ∀ fdsz size, 0 < fdsz <= 2 ^ 28 → size <= 2 ^ 27 → size <= fdsz * 2 ^ Z.of_nat fuel →
  ∃ n, fdsz_loop fuel fdsz size = Some n ∧ fdsz <= n <= 2 ^ 28 ∧ size <= n.
Proof.
  induction fuel as [|fuel IH]; intros fdsz size Hf Hs Hlt; cbn [fdsz_loop]; destruct (Z.ltb_spec fdsz size) as [Hl|Hge]; try (exists fdsz; split; [done|lia]).
  - cbn in Hlt. lia.
  - destruct (Z.ltb_spec INT_MAX (fdsz * 2)); [lia|]. rewrite Nat2Z.inj_succ, Z.pow_succ_r in Hlt by lia.
    destruct (IH (fdsz * 2) size) as (n & -> & ? & ?); [lia|done|lia|]. exists n. split; [done|]. lia.
Qed.

(** ** The bits of a descriptor *)

Lemma put_bit_ok fd b m m' bit fdsz s : 0 <= fd < 8 * fdsz → set_bits m bit fdsz s → (∀ fd', fd' ≠ fd → mask m' fd' &? bit = (mask m fd' &? bit)) → mask m' fd &? bit = b →
  ∃ s', put_bit b fd s = Some s' ∧ set_bits m' bit fdsz s'.
Proof.
  intros Hfd [Hlen Hbits] Hoth Hb. assert (Hlt : fd < Z.of_nat (length s)) by (unfold bits in Hlen; lia). unfold put_bit.
  destruct (Z.ltb_spec fd 0), (Z.leb_spec (Z.of_nat (length s)) fd); try lia. eexists. split; [done|]. split; [by rewrite length_insert|].
  intros fd' Hfd'. destruct (decide (fd' = fd)) as [->|Hne]; [rewrite list_lookup_insert_eq by lia; by rewrite Hb|]. rewrite list_lookup_insert_ne by lia. rewrite Hbits by done. by rewrite Hoth.
Qed.

Lemma keep_bits m m' bit fdsz s : set_bits m bit fdsz s → (∀ fd, mask m' fd &? bit = (mask m fd &? bit)) → set_bits m' bit fdsz s.
Proof. intros [Hlen Hbits] Hm. split; [done|]. intros fd Hfd. by rewrite Hbits, Hm. Qed.

(** The events of one descriptor are all set or all cleared. *)
Lemma put_in_sets_ok b sop m m' fd events : select_sim sop m → 0 <= fd <= event_fds sop → masks_ok m' →
  (∀ fd', fd' ≠ fd → m' !! fd' = m !! fd') →
  (∀ k, k = 1 ∨ k = 2 → mask m' fd &? 2 ^ k = if events &? 2 ^ k then b else mask m fd &? 2 ^ k) →
  ∃ sop', put_in_sets b sop fd events = Some sop' ∧ select_sim sop' m'.
Proof.
  intros [Hfds Hint Hsize Hr Hw Hmax Hout Hm] Hfd Hm' Hoth Hb. assert (Hmo : ∀ fd' bit, fd' ≠ fd → mask m' fd' &? bit = (mask m fd' &? bit)) by (intros fd' bit Hne; unfold mask; by rewrite Hoth).
  assert (Hset : ∀ k s, k = 1 ∨ k = 2 → set_bits m (2 ^ k) (event_fdsz sop) s →
    ∃ s', (if events &? 2 ^ k then put_bit b fd s else Some s) = Some s' ∧ set_bits m' (2 ^ k) (event_fdsz sop) s').
  { intros k s Hk Hs. specialize (Hb k Hk). destruct (events &? 2 ^ k); [apply (put_bit_ok fd b m m'); [lia|done|by intros; apply Hmo|done]|].
    exists s. split; [done|]. apply (keep_bits m); [done|]. intros fd'. destruct (decide (fd' = fd)) as [->|]; [done|by apply Hmo]. }
  destruct (Hset 1 _ (or_introl eq_refl) Hr) as (r & Er & Hr'). destruct (Hset 2 _ (or_intror eq_refl) Hw) as (w & Ew & Hw'). unfold put_in_sets.
  change EV_READ with (2 ^ 1). change EV_WRITE with (2 ^ 2). rewrite Er. cbn [mbind option_bind]. rewrite Ew. cbn [mbind option_bind]. eexists. split; [done|].
  split; cbn; try done. intros fd' ev E. destruct (decide (fd' = fd)) as [->|Hne]; [done|]. rewrite Hoth in E by done. by eapply Hmax.
Qed.

Lemma add_bit m fd events k : k = 1 ∨ k = 2 → mask (watch_add m fd events) fd &? 2 ^ k = if events &? 2 ^ k then true else mask m fd &? 2 ^ k.
Proof.
  intros Hk. rewrite mask_add, decide_True by done. rewrite flag_lor, land_rw. destruct Hk as [->| ->]; [change (2 ^ 1) with EV_READ|change (2 ^ 2) with EV_WRITE];
    destruct (events &? EV_READ), (events &? EV_WRITE); cbn; rewrite ?orb_true_r, ?orb_false_r; done.
Qed.
Lemma del_bit m fd events k : k = 1 ∨ k = 2 → mask (watch_del m fd events) fd &? 2 ^ k = if events &? 2 ^ k then false else mask m fd &? 2 ^ k.
Proof.
  intros Hk. rewrite mask_del, decide_True by done. rewrite flag_land_lnot, land_rw by lia. destruct Hk as [->| ->]; [change (2 ^ 1) with EV_READ|change (2 ^ 2) with EV_WRITE];
    destruct (events &? EV_READ), (events &? EV_WRITE); cbn; rewrite ?andb_true_r, ?andb_false_r; done.
Qed.

Lemma watch_add_ne m fd events fd' : fd' ≠ fd → watch_add m fd events !! fd' = m !! fd'.
Proof. intros Hne. unfold watch_add. destruct (_ =? 0); [done|]. by rewrite lookup_insert_ne. Qed.
Lemma watch_del_ne m fd events fd' : fd' ≠ fd → watch_del m fd events !! fd' = m !! fd'.
Proof. intros Hne. unfold watch_del. destruct (_ =? 0); [by rewrite lookup_delete_ne|by rewrite lookup_insert_ne]. Qed.

Lemma set_event_fds_ok sop m fd : select_sim sop m → event_fds sop <= fd < 8 * event_fdsz sop → fd < 2 ^ 30 → select_sim (set_event_fds fd sop) m.
Proof. intros [] Hfd Hlt. split; cbn; try done; [lia|]. intros fd' ev E. apply ss_max0 in E. lia. Qed.

Lemma select_add_ok mem1 mem2 sop m fd events : select_sim sop m → Z.land events EV_SIGNAL = 0 → 0 <= fd < 2 ^ 30 - 64 →
  ∃ sop' r, select_add mem1 mem2 sop fd events = Some (sop', r) ∧
    ((r = 0 ∧ select_sim sop' (watch_add m fd events)) ∨ (r = -1 ∧ mem1 && mem2 = false ∧ select_sim sop' m)).
Proof.
  intros Hs Hsig Hfd. unfold select_add. rewrite Hsig. cbn [evassert Z.eqb mbind option_bind].
  assert (Hput : ∀ s, select_sim s m → 0 <= fd <= event_fds s → ∃ s', put_in_sets true s fd events = Some s' ∧ select_sim s' (watch_add m fd events)).
  { intros s Hss Hf. apply (put_in_sets_ok true s m); [done|done|apply masks_add, Hs|intros; by apply watch_add_ne|intros; by apply add_bit]. }
  destruct (Z.ltb_spec (event_fds sop) fd) as [Hgrow|Hin].
  2: { destruct (Hput sop Hs ltac:(lia)) as (s' & -> & Hs'). cbn [mbind option_bind]. eexists _, _. split; [done|]. by left. }
  pose proof (ss_size _ _ Hs) as Hsz. destruct (Z.ltb_spec (event_fdsz sop) 8); [lia|]. destruct (Z.ltb_spec INT_MAX (fd + 1)); [lia|].
  assert (Hneed : fd + 1 <= 8 * SELECT_ALLOC_SIZE (fd + 1) <= 2 ^ 30) by (unfold SELECT_ALLOC_SIZE; pose proof (Z.div_mod (fd + 1 + 63) 64 ltac:(lia)); pose proof (Z.mod_pos_bound (fd + 1 + 63) 64 ltac:(lia)); lia).
  destruct (fdsz_loop_ok 32 (event_fdsz sop) (SELECT_ALLOC_SIZE (fd + 1))) as (n & -> & Hn & Hsn); [lia|lia|change (2 ^ Z.of_nat 32) with 4294967296; lia|].
  cbn [mbind option_bind]. assert (Hroom : fd < 8 * n) by lia.
  assert (Hres : ∃ s' r, (if n =? event_fdsz sop then (sop, 0) else select_resize mem1 mem2 sop n) = (s', r) ∧ select_sim s' m ∧ event_fds s' = event_fds sop ∧
    ((r = 0 ∧ event_fdsz s' = n) ∨ (r = -1 ∧ mem1 && mem2 = false))).
  { destruct (Z.eqb_spec n (event_fdsz sop)) as [E|_]; [eexists _, _; split; [done|]; split; [done|]; split; [done|by left]|]. by apply select_resize_ok. }
  destruct Hres as (s' & r & -> & Hs' & Hf & Hr). destruct Hr as [[-> Hz]|[-> Hmem]]; cbn [Z.eqb negb]; [|eexists _, _; split; [done|by right]].
  destruct (Hput (set_event_fds fd s')) as (s2 & -> & Hs2); [apply set_event_fds_ok; [done|lia..]|cbn; lia|]. cbn [mbind option_bind]. eexists _, _. split; [done|]. by left.
Qed.

Lemma select_del_ok sop m fd events : select_sim sop m → Z.land events EV_SIGNAL = 0 → 0 <= fd →
  ∃ sop', select_del sop fd events = Some (sop', 0) ∧ select_sim sop' (watch_del m fd events).
Proof.
  intros Hs Hsig Hfd. unfold select_del. rewrite Hsig. cbn [evassert Z.eqb mbind option_bind]. destruct (Z.ltb_spec (event_fds sop) fd) as [Hgt|Hle].
  - exists sop. split; [done|]. assert (m !! fd = None) as Hnone by (destruct (m !! fd) eqn:E; [apply (ss_max _ _ Hs) in E; lia|done]).
    assert (watch_del m fd events = m) as ->; [|done]. unfold watch_del. rewrite Hnone. cbn. by rewrite delete_id.
  - destruct (put_in_sets_ok false sop m (watch_del m fd events) fd events Hs) as (s' & -> & Hs'); [lia|apply masks_del, Hs|intros; by apply watch_del_ne|intros; by apply del_bit|].
    by exists s'.
Qed.

(** ** Reporting *)

(** A kernel that keeps the bits of the descriptors that are ready. *)
Definition answer (ready : Z → Z) (bit : Z) (s : fd_set) : fd_set := imap (λ i b, (λ b, b && (ready (Z.of_nat i) &? bit)) <$> b) s.
Definition select_ready (ready : Z → Z) : select_call := λ _ r w _, inr (answer ready EV_READ r, answer ready EV_WRITE w).

Lemma answer_bit m ready bit fdsz s fd : set_bits m bit fdsz s → 0 <= fd < 8 * fdsz → FD_ISSET fd (answer ready bit s) = Some ((mask m fd &? bit) && (ready fd &? bit)).
Proof.
  intros [_ Hbits] Hfd. unfold FD_ISSET, answer. destruct (Z.ltb_spec fd 0); [lia|]. rewrite list_lookup_imap, Hbits by done. cbn. by rewrite Z2Nat.id by lia.
Qed.

Lemma ready_bits ev ready : ev = 0 ∨ rw_mask ev →
  (if (ev &? EV_WRITE) && (ready &? EV_WRITE) then Z.lor (if (ev &? EV_READ) && (ready &? EV_READ) then EV_READ else 0) EV_WRITE else if (ev &? EV_READ) && (ready &? EV_READ) then EV_READ else 0) = Z.land ev ready.
Proof.
  intros Hev. assert (Z.land ev ready = Z.land ev (Z.land ready EV_RW)) as ->.
  { rewrite (Z.land_comm ready), Z.land_assoc. f_equal. by destruct Hev as [->|[->|[->| ->]]]. }
  rewrite land_rw. destruct Hev as [->|[->|[->| ->]]]; destruct (ready &? EV_READ), (ready &? EV_WRITE); done.
Qed.

Lemma mask_cases m fd : masks_ok m → mask m fd = 0 ∨ rw_mask (mask m fd).
Proof. intros Hm. unfold mask. destruct (m !! fd) as [ev|] eqn:E; [right; by apply (Hm fd)|by left]. Qed.

Lemma select_loop_spin m ready r w n : masks_ok m → 0 < n → (∀ fd, 0 <= fd < n → FD_ISSET fd r = Some ((mask m fd &? EV_READ) && (ready fd &? EV_READ)) ∧ FD_ISSET fd w = Some ((mask m fd &? EV_WRITE) && (ready fd &? EV_WRITE))) →
  ∀ k i, -1 <= i < n → select_loop k r w i n = Some (spin (λ j, report (Z.of_nat j, Z.land (mask m (Z.of_nat j)) (ready (Z.of_nat j)))) k i n).
Proof.
  intros Hm Hn Hset. induction k as [|k IH]; intros i Hi; [done|]. cbn [select_loop spin]. set (i' := if n <=? i + 1 then 0 else i + 1).
  assert (Hi' : 0 <= i' < n) by (unfold i'; destruct (Z.leb_spec n (i + 1)); lia). destruct (Hset i' Hi') as [-> ->]. cbn [mbind option_bind]. rewrite (IH i') by lia. cbn [mbind option_bind].
  rewrite (ready_bits _ _ (mask_cases m i' Hm)), Z2Nat.id by lia. unfold report. cbn [snd]. by destruct (_ =? 0).
Qed.

Lemma select_reports m ready n : masks_ok m → (∀ fd ev, m !! fd = Some ev → 0 <= fd < Z.of_nat n) →
  mjoin (report <$> ((λ j, (Z.of_nat j, Z.land (mask m (Z.of_nat j)) (ready (Z.of_nat j)))) <$> seq 0 n)) ≡ₚ map_to_list (watch_active m ready).
Proof.
  intros Hm Hmax. apply report_perm; [|intros fd r Hr|apply reported_nonzero].
  - rewrite <- list_fmap_compose. unfold compose. cbn. apply NoDup_fmap; [apply _|apply NoDup_seq].
  - unfold watch_active. rewrite reported_lookup by done. rewrite list_elem_of_fmap. unfold mask. split.
    + intros (j & [= -> ->] & _). destruct (m !! Z.of_nat j) as [ev|]; [by exists ev|]. cbn in Hr. by rewrite Z.land_0_l in Hr.
    + intros (ev & Em & ->). pose proof (Hmax _ _ Em). exists (Z.to_nat fd). rewrite Z2Nat.id, Em by lia. split; [done|]. apply elem_of_seq. lia.
Qed.

Lemma copy_set_ok m bit fdsz dst src : set_bits m bit fdsz src → (bits fdsz <= length dst)%nat → ∃ s, copy_set fdsz dst src = Some s ∧ set_bits m bit fdsz s.
Proof.
  intros [Hlen Hbits] Hdst. unfold copy_set. rewrite (proj2 (Nat.ltb_ge (length dst) _)), (proj2 (Nat.ltb_ge (length src) _)) by done. eexists. split; [done|]. split.
  - rewrite length_app, length_take, length_drop. lia.
  - intros fd Hfd. rewrite lookup_app_l by (rewrite length_take; unfold bits in *; lia). rewrite lookup_take_lt by (unfold bits; lia). by apply Hbits.
Qed.

Lemma resize_out_ok sop m : select_sim sop m → ∃ sop', resize_out true true sop = (true, sop') ∧ select_sim sop' m ∧ event_fds sop' = event_fds sop ∧
  (bits (event_fdsz sop') <= length (event_readset_out sop'))%nat ∧ (bits (event_fdsz sop') <= length (event_writeset_out sop'))%nat.
Proof.
  intros Hs. unfold resize_out. destruct (resize_out_sets sop) eqn:Er; cbn [negb].
  - eexists. split; [done|]. cbn. unfold realloc_set. rewrite !length_resize. split; [|done]. destruct Hs. split; cbn; try done. intros _. unfold realloc_set. by rewrite !length_resize.
  - exists sop. split; [done|]. split; [done|]. split; [done|]. by apply (ss_out _ _ Hs).
Qed.

Lemma select_dispatch_ok ready fuel sop m seed tv : select_sim sop m → is_Some (evutil_weakrand_range_ fuel seed (event_fds sop + 1)) →
  ∃ sop' seed' act, select_dispatch (select_ready ready) fuel true true sop seed tv = Some (sop', seed', act, 0) ∧ select_sim sop' m ∧
    event_fds sop' = event_fds sop ∧ act ≡ₚ map_to_list (watch_active m ready).
Proof.
  intros Hs [[i seed'] Hrand]. unfold select_dispatch. destruct (resize_out_ok sop m Hs) as (s & -> & Hs1 & Hf & Hr & Hw). cbn [negb].
  destruct (copy_set_ok m EV_READ _ _ _ (ss_read _ _ Hs1) Hr) as (r & -> & Hr'). cbn [mbind option_bind]. destruct (copy_set_ok m EV_WRITE _ _ _ (ss_write _ _ Hs1) Hw) as (w & -> & Hw').
  cbn [mbind option_bind select_ready]. rewrite Hf, Hrand. cbn [mbind option_bind]. pose proof (ss_fds _ _ Hs1) as Hfds. rewrite Hf in Hfds. pose proof (weakrand_range_ok _ _ _ _ _ Hrand) as Hi.
  rewrite (select_loop_spin m ready (answer ready EV_READ r) (answer ready EV_WRITE w) (event_fds sop + 1) (ss_masks _ _ Hs)); [|lia| |lia].
  2: { intros fd Hfd. split; eapply answer_bit; try done; lia. }
  cbn [mbind option_bind]. eexists _, _, _. split; [done|]. split; [|split; [done|]].
  - destruct Hs1. split; cbn; try done; rewrite <- ?Hf; try done. intros _. unfold answer. rewrite !length_imap. by split; [apply Hr'|apply Hw'].
  - rewrite spin_perm by lia. pose proof (select_reports m ready (Z.to_nat (event_fds sop + 1)) (ss_masks _ _ Hs)) as Hrep. rewrite <- list_fmap_compose in Hrep. apply Hrep.
    intros fd ev E. pose proof (ss_max _ _ Hs _ _ E). lia.
Qed.

(** ** Both backends after the same calls *)

Inductive fd_call := call_add (fd events : Z) | call_del (fd events : Z).

(** evmap.c calls the backends without EV_SIGNAL, for descriptors that are not
    negative. *)
Definition call_ok (c : fd_call) : Prop :=
  match c with call_add fd events | call_del fd events => 0 <= fd < 2 ^ 30 - 64 ∧ Z.land events EV_SIGNAL = 0 end.

Fixpoint poll_calls (pop : pollop) (cs : list fd_call) : option pollop :=
  match cs with
  | [] => Some pop
  | call_add fd events :: cs => '(pop, _) ← poll_add true pop fd events; poll_calls pop cs
  | call_del fd events :: cs => '(pop, _) ← poll_del pop fd events; poll_calls pop cs
  end.
Fixpoint select_calls (sop : selectop) (cs : list fd_call) : option selectop :=
  match cs with
  | [] => Some sop
  | call_add fd events :: cs => '(sop, _) ← select_add true true sop fd events; select_calls sop cs
  | call_del fd events :: cs => '(sop, _) ← select_del sop fd events; select_calls sop cs
  end.
Fixpoint watch_calls (m : gmap Z Z) (cs : list fd_call) : gmap Z Z :=
  match cs with
  | [] => m
  | call_add fd events :: cs => watch_calls (watch_add m fd events) cs
  | call_del fd events :: cs => watch_calls (watch_del m fd events) cs
  end.

Lemma poll_calls_ok cs : ∀ pop l m, poll_sim pop l m → Forall call_ok cs → nfds pop + Z.of_nat (length cs) <= 2 ^ 29 →
  ∃ pop' l', poll_calls pop cs = Some pop' ∧ poll_sim pop' l' (watch_calls m cs) ∧ nfds pop' <= 2 ^ 29.
Proof.
  induction cs as [|c cs IH]; intros pop l m Hs Hc Hn; [exists pop, l; cbn in Hn; split; [done|]; split; [done|lia]|]. apply Forall_cons in Hc as [Hc Hcs]. cbn [length] in Hn. destruct c as [fd events|fd events]; destruct Hc as [_ Hsig]; cbn [poll_calls watch_calls].
  - destruct (poll_add_ok true pop l m fd events Hs Hsig ltac:(lia)) as (pop' & r & l' & -> & Hn' & [[_ Hs']|(_ & ? & _)]); [|done]. cbn [mbind option_bind]. apply (IH pop' l'); [done..|lia].
  - destruct (poll_del_ok pop l m fd events Hs Hsig) as (pop' & r & l' & -> & Hn' & Hs'). cbn [mbind option_bind]. apply (IH pop' l'); [done..|lia].
Qed.

Lemma select_calls_ok cs : ∀ sop m, select_sim sop m → Forall call_ok cs → ∃ sop', select_calls sop cs = Some sop' ∧ select_sim sop' (watch_calls m cs).
Proof.
  induction cs as [|c cs IH]; intros sop m Hs Hc; [by exists sop|]. apply Forall_cons in Hc as [Hc Hcs]. destruct c as [fd events|fd events]; destruct Hc as [Hfd Hsig]; cbn [select_calls watch_calls].
  - destruct (select_add_ok true true sop m fd events Hs Hsig Hfd) as (sop' & r & -> & [[_ Hs']|(_ & ? & _)]); [|done]. cbn [mbind option_bind]. by apply IH.
  - destruct (select_del_ok sop m fd events Hs Hsig ltac:(lia)) as (sop' & -> & Hs'). cbn [mbind option_bind]. by apply IH.
Qed.

Lemma poll_init_sim : ∃ pop, poll_init true = Some pop ∧ poll_sim pop [] ∅ ∧ nfds pop = 0.
Proof. eexists. split; [done|]. split; [|done]. by split. Qed.

Lemma select_init_sim : ∃ sop, select_init true true true = Some sop ∧ select_sim sop ∅.
Proof.
  assert (Hempty : ∀ bit, set_bits ∅ bit 8 (clear_from 0 8 (realloc_set 8 []))).
  { intros bit. apply clear_from_bits; [lia| |by intros]. split; [done|]. intros fd Hfd. lia. }
  exists (mk_selectop 0 8 true (clear_from 0 8 (realloc_set 8 [])) (clear_from 0 8 (realloc_set 8 [])) [] []). split; [reflexivity|]. split; cbn; try done; try apply Hempty; lia.
Qed.

(** Of what was reported, what was asked for; evmap.c hands only this on to the events. *)
Definition asked_for (m : gmap Z Z) (act : list (Z * Z)) : list (Z * Z) :=
  mjoin (report <$> ((λ p, (fst p, Z.land (mask m (fst p)) (snd p))) <$> act)).

Lemma asked_for_what status fd ev : rw_mask ev → Z.land ev (poll_what status fd ev) = Z.land ev (status_events (status fd)).
Proof.
  intros Hev. unfold poll_what, status_events. destruct (status fd &? POLLFAIL); [done|]. rewrite Z.land_assoc. by destruct Hev as [->|[->| ->]].
Qed.

Lemma asked_for_poll m status : masks_ok m → asked_for m (map_to_list (poll_active m status)) ≡ₚ map_to_list (watch_active m (λ fd, status_events (status fd))).
Proof.
  intros Hm. unfold asked_for. apply report_perm; [|intros fd r Hr|apply reported_nonzero].
  - rewrite <- list_fmap_compose. exact (NoDup_fst_map_to_list _).
  - unfold watch_active. rewrite reported_lookup by done. rewrite list_elem_of_fmap. unfold mask. split.
    + intros ([fd' r'] & [= -> ->] & Hin%elem_of_map_to_list). cbn [fst snd] in *. pose proof (reported_nonzero _ _ _ _ Hin). apply reported_lookup in Hin as (ev & Em & ->); [|done].
      rewrite Em in *. exists ev. split; [done|]. cbn [default from_option id]. by apply asked_for_what, (Hm fd').
    + intros (ev & Em & ->). exists (fd, poll_what status fd ev). cbn [fst snd]. rewrite Em. cbn [default from_option id]. rewrite asked_for_what by (by apply (Hm fd)). split; [done|].
      apply elem_of_map_to_list, reported_lookup; [|by exists ev]. intros E. apply Hr. rewrite <- asked_for_what, E by (by apply (Hm fd)). apply Z.land_0_r.
Qed.


(** * The poll and select backends on concrete calls *)

Definition fd_demo : list fd_call :=
  [call_add 3 EV_READ; call_add 5 (Z.lor EV_READ EV_WRITE); call_add 70 EV_WRITE; call_add 7 EV_CLOSED; call_del 3 EV_READ; call_del 5 EV_WRITE; call_add 9 (Z.lor EV_ET EV_READ)].


(** The entry of descriptor 70 was moved to the place of descriptor 3. *)
Example poll_array : (λ pop, (omap id (take 3 (event_set pop)), nfds pop)) <$> (pop ← poll_init true; poll_calls pop fd_demo)
  = Some ([mk_pollfd 70 POLLOUT 0; mk_pollfd 5 POLLIN 0; mk_pollfd 9 POLLIN 0], 3).
Proof. vm_compute. reflexivity. Qed.

(** Everything is ready: both report the three descriptors, select in the order of
    the numbers, both from a random one on. *)
Definition all_ready : Z → Z := λ _, Z.lor EV_READ EV_WRITE.
Example poll_reported : (λ x, (snd (fst x), snd x)) <$> (pop ← poll_init true; pop ← poll_calls pop fd_demo; poll_dispatch (poll_answers (λ _, Z.lor POLLIN POLLOUT)) 10 true true pop 1 None)
  = Some ([(9, EV_READ); (70, EV_WRITE); (5, EV_READ)], 0).
Proof. vm_compute. reflexivity. Qed.
Example select_reported : (λ x, (snd (fst x), snd x)) <$> (sop ← select_init true true true; sop ← select_calls sop fd_demo; select_dispatch (select_ready all_ready) 10 true true sop 1 None)
  = Some ([(70, EV_WRITE); (5, EV_READ); (9, EV_READ)], 0).
Proof. vm_compute. reflexivity. Qed.

(** A descriptor that was hung up is reported for reading and for writing, also when
    only one of them was asked for. *)
Example poll_hangup : (λ x, snd (fst x)) <$> (pop ← poll_init true; pop ← poll_calls pop [call_add 3 EV_READ]; poll_dispatch (λ _ _, inr [POLLHUP]) 10 false true pop 1 None)
  = Some [(3, Z.lor EV_READ EV_WRITE)].
Proof. vm_compute. reflexivity. Qed.

(** Interrupted calls report nothing, other errors are returned. *)
Example poll_errors : (λ e, snd <$> (pop ← poll_init true; poll_dispatch (λ _ _, inl e) 10 false true pop 1 None)) <$> [EINTR; 9] = [Some 0; Some (-1)].
Proof. vm_compute. reflexivity. Qed.

(** Without memory nothing changes for the descriptors that are watched. *)
Example select_no_memory : (λ x, (event_fdsz (fst x), snd x)) <$> (sop ← select_init true true true; select_add true false sop 100 EV_READ) = Some (8, -1).
Proof. vm_compute. reflexivity. Qed.
