(* ===== verification/Listener.v ===== *)
(** * Connection listeners (listener.c)

    A listener is an event on a listening socket; its callback is given each connection
    that is accepted.  The world is the listener (or that it was freed), whether its
    event is pending, and what became of the descriptors: those that the library has
    accepted and not passed on yet, and, in order, those that it has accepted, that
    it has given to a callback and that it has closed.  The code of the callbacks is a parameter: what they call, which
    may depend on how often callbacks were called before.  A [None] is a use of the
    listener after it was freed, a failed assertion or an overflow of the count of
    references. *)

From stdpp Require Import gmap.
From S2P Require Import Prelude.

Definition LEV_OPT_LEAVE_SOCKETS_BLOCKING : Z := 1.
Definition LEV_OPT_CLOSE_ON_FREE : Z := 2.
Definition LEV_OPT_CLOSE_ON_EXEC : Z := 4.
Definition LEV_OPT_REUSEABLE : Z := 8.
Definition LEV_OPT_THREADSAFE : Z := 16.
Definition LEV_OPT_DISABLED : Z := 32.
Definition LEV_OPT_DEFERRED_ACCEPT : Z := 64.
Definition LEV_OPT_REUSEABLE_PORT : Z := 128.
Definition EVUTIL_SOCK_NONBLOCK : Z := 2048.
Definition EVUTIL_SOCK_CLOEXEC : Z := 524288.
Definition SOCK_STREAM : Z := 1.

Record evconnlistener := mk_evconnlistener {
  lev_cb : option Z;
  lev_errorcb : option Z;
  lev_user_data : Z;
  lev_flags : Z;
  lev_refcnt : Z;
  lev_accept4_flags : Z;
  lev_enabled : bool;
  lev_fd : Z
}.

Record world := mk_world {
  w_lev : option evconnlistener;
  w_added : bool;
  w_owned : list Z;
  w_given : list Z;
  w_closed : list Z;
  w_accepted : list Z;
  w_calls : nat;
  w_adds : list bool
}.

Definition set_lev (l : option evconnlistener) (w : world) : world :=
  mk_world l (w_added w) (w_owned w) (w_given w) (w_closed w) (w_accepted w) (w_calls w) (w_adds w).
Definition upd_lev (f : evconnlistener → evconnlistener) (w : world) : option world := l ← w_lev w; Some (set_lev (Some (f l)) w).
Definition set_cb_ (cb : option Z) (data : Z) (l : evconnlistener) : evconnlistener :=
  mk_evconnlistener cb (lev_errorcb l) data (lev_flags l) (lev_refcnt l) (lev_accept4_flags l) (lev_enabled l) (lev_fd l).
Definition set_errorcb (cb : option Z) (l : evconnlistener) : evconnlistener :=
  mk_evconnlistener (lev_cb l) cb (lev_user_data l) (lev_flags l) (lev_refcnt l) (lev_accept4_flags l) (lev_enabled l) (lev_fd l).
Definition set_refcnt (n : Z) (l : evconnlistener) : evconnlistener :=
  mk_evconnlistener (lev_cb l) (lev_errorcb l) (lev_user_data l) (lev_flags l) n (lev_accept4_flags l) (lev_enabled l) (lev_fd l).
Definition set_enabled (b : bool) (l : evconnlistener) : evconnlistener :=
  mk_evconnlistener (lev_cb l) (lev_errorcb l) (lev_user_data l) (lev_flags l) (lev_refcnt l) (lev_accept4_flags l) b (lev_fd l).

(** event_add and event_del of the event of the listener; the answers of event_add are
    a part of the world. *)
Definition event_add (w : world) : world * Z :=
  match w_adds w with
  | false :: adds => (mk_world (w_lev w) (w_added w) (w_owned w) (w_given w) (w_closed w) (w_accepted w) (w_calls w) adds, -1)
  | _ => (mk_world (w_lev w) true (w_owned w) (w_given w) (w_closed w) (w_accepted w) (w_calls w) (tail (w_adds w)), 0)
  end.
Definition event_del (w : world) : world := mk_world (w_lev w) false (w_owned w) (w_given w) (w_closed w) (w_accepted w) (w_calls w) (w_adds w).

(** evutil_closesocket, and passing a descriptor to a callback. *)
Definition closesocket (fd : Z) (w : world) : world :=
  mk_world (w_lev w) (w_added w) (filter (.≠ fd) (w_owned w)) (w_given w) (w_closed w ++ [fd]) (w_accepted w) (w_calls w) (w_adds w).
Definition accept (fd : Z) (w : world) : world :=
  mk_world (w_lev w) (w_added w) (fd :: w_owned w) (w_given w) (w_closed w) (w_accepted w ++ [fd]) (w_calls w) (w_adds w).
Definition give (fd : Z) (w : world) : world :=
  mk_world (w_lev w) (w_added w) (filter (.≠ fd) (w_owned w)) (w_given w ++ [fd]) (w_closed w) (w_accepted w) (S (w_calls w)) (w_adds w).
Definition call_error (w : world) : world :=
  mk_world (w_lev w) (w_added w) (w_owned w) (w_given w) (w_closed w) (w_accepted w) (S (w_calls w)) (w_adds w).

Definition event_listener_enable (w : world) : world * Z := event_add w.
Definition event_listener_disable (w : world) : world * Z := (event_del w, 0).

(** The event is deleted; the socket is closed when that was asked for. *)
Definition event_listener_destroy (l : evconnlistener) (w : world) : world :=
  let w := event_del w in
  if lev_flags l &? LEV_OPT_CLOSE_ON_FREE then closesocket (lev_fd l) w else w.

(** Whether the listener was freed. *)
Definition listener_decref_and_unlock (w : world) : option (world * bool) :=
  l ← w_lev w;
  let refcnt := lev_refcnt l - 1 in
  let w := set_lev (Some (set_refcnt refcnt l)) w in
  if refcnt =? 0 then Some (set_lev None (event_listener_destroy l w), true) else Some (w, false).

Definition incref (w : world) : option world :=
  l ← w_lev w;
  if 32767 <? lev_refcnt l + 1 then None else Some (set_lev (Some (set_refcnt (lev_refcnt l + 1) l)) w).

Definition evconnlistener_enable (w : world) : option (world * Z) :=
  w ← upd_lev (set_enabled true) w;
  l ← w_lev w;
  Some (match lev_cb l with Some _ => event_listener_enable w | None => (w, 0) end).

Definition evconnlistener_disable (w : world) : option (world * Z) :=
  w ← upd_lev (set_enabled false) w;
  Some (event_listener_disable w).

Definition evconnlistener_set_cb (cb : option Z) (arg : Z) (w : world) : option world :=
  l ← w_lev w;
  let enable := lev_enabled l && negb (bool_decide (is_Some (lev_cb l))) in
  w ← upd_lev (set_cb_ cb arg) w;
  if enable then fst <$> evconnlistener_enable w else Some w.

Definition evconnlistener_set_error_cb (errorcb : option Z) (w : world) : option world := upd_lev (set_errorcb errorcb) w.

Definition evconnlistener_free (w : world) : option world :=
  l ← w_lev w;
  w ← upd_lev (λ l, set_errorcb None (set_cb_ None (lev_user_data l) l)) w;
  fst <$> listener_decref_and_unlock w.

Definition evconnlistener_get_fd (w : world) : option Z := lev_fd <$> w_lev w.

(** ** Creating *)

(** The flags for accept4. *)
Definition accept_flags (flags : Z) : Z :=
  let f := if negb (flags &? LEV_OPT_LEAVE_SOCKETS_BLOCKING) then EVUTIL_SOCK_NONBLOCK else 0 in
  if flags &? LEV_OPT_CLOSE_ON_EXEC then Z.lor f EVUTIL_SOCK_CLOEXEC else f.

(** [listen] answers whether the call of that name succeeds, [mm_calloc] whether there
    is memory; [None] is NULL. *)
Definition evconnlistener_new (listen : Z → bool) (mm_calloc : bool) (adds : list bool) (cb : option Z) (ptr flags backlog fd : Z) : option world :=
  let listening := if 0 <? backlog then listen backlog else if backlog <? 0 then listen 128 else true in
  if negb listening then None
  else if negb mm_calloc then None
  else
    let w := mk_world (Some (mk_evconnlistener cb None ptr flags 1 (accept_flags flags) false fd)) false [] [] [] [] 0 adds in
    if negb (flags &? LEV_OPT_DISABLED) then fst <$> evconnlistener_enable w else Some w.

(** The system calls for the socket: its descriptor or -1, and whether each option can
    be set and the address bound. *)
Record bind_calls := mk_bind_calls {
  sys_socket : Z → Z; set_keepalive : bool; set_reuseable : bool; set_reuseable_port : bool; set_deferred : bool; sys_bind : bool
}.

(** The listener, and the descriptors that were closed. *)
Definition evconnlistener_new_bind (sys : bind_calls) (listen : Z → bool) (mm_calloc : bool) (adds : list bool) (cb : option Z) (ptr flags backlog : Z) (has_sa : bool)
    : option world * list Z :=
  if backlog =? 0 then (None, [])
  else
    let socktype := Z.lor SOCK_STREAM EVUTIL_SOCK_NONBLOCK in
    let socktype := if flags &? LEV_OPT_CLOSE_ON_EXEC then Z.lor socktype EVUTIL_SOCK_CLOEXEC else socktype in
    let fd := sys_socket sys socktype in
    if fd =? -1 then (None, [])
    else if negb (set_keepalive sys) then (None, [fd])
    else if (flags &? LEV_OPT_REUSEABLE) && negb (set_reuseable sys) then (None, [fd])
    else if (flags &? LEV_OPT_REUSEABLE_PORT) && negb (set_reuseable_port sys) then (None, [fd])
    else if (flags &? LEV_OPT_DEFERRED_ACCEPT) && negb (set_deferred sys) then (None, [fd])
    else if has_sa && negb (sys_bind sys) then (None, [fd])
    else match evconnlistener_new listen mm_calloc adds cb ptr flags backlog fd with
         | Some w => (Some w, [])
         | None => (None, [fd])
         end.

(** ** The callbacks and the loop that accepts *)

Inductive lev_call := lev_do_free | lev_do_enable | lev_do_disable | lev_do_set_cb (cb : option Z) (arg : Z) | lev_do_set_error_cb (cb : option Z).

Definition lev_step (w : world) (c : lev_call) : option world :=
  match c with
  | lev_do_free => evconnlistener_free w
  | lev_do_enable => fst <$> evconnlistener_enable w
  | lev_do_disable => fst <$> evconnlistener_disable w
  | lev_do_set_cb cb arg => evconnlistener_set_cb cb arg w
  | lev_do_set_error_cb cb => evconnlistener_set_error_cb cb w
  end.

Fixpoint lev_steps (w : world) (cs : list lev_call) : option world :=
  match cs with
  | [] => Some w
  | c :: cs => w ← lev_step w c; lev_steps w cs
  end.

Section callbacks.
(** What the callback of a name does in the given call. *)
Context (code : Z → nat → list lev_call).

(** The result of accepting: a descriptor and the length of the address.  The loop
    goes on until accept fails; [None] in the result is that the function has returned. *)
Fixpoint accept_loop (w : world) (acc : list (Z * Z)) : option (world * bool) :=
  match acc with
  | [] => Some (w, true)
  | (new_fd, socklen) :: acc =>
    l ← w_lev w;
    let w := accept new_fd w in
    if socklen =? 0 then accept_loop (closesocket new_fd w) acc
    else
      match lev_cb l with
      | None => Some (closesocket new_fd w, false)
      | Some cb =>
        w ← incref w;
        let script := code cb (w_calls w) in
        w ← lev_steps (give new_fd w) script;
        l ← w_lev w;
        if lev_refcnt l =? 1 then
          '(w, freed) ← listener_decref_and_unlock w;
          ASSERT freed;;
          Some (closesocket new_fd w, false)
        else
          w ← upd_lev (set_refcnt (lev_refcnt l - 1)) w;
          accept_loop w acc
      end
  end.

(** EINTR, EAGAIN and ECONNABORTED. *)
Definition EVUTIL_ERR_ACCEPT_RETRIABLE (e : Z) : bool := (e =? 4) || (e =? 11) || (e =? 103).

(** [acc] are the connections that are waiting, [err] is the error after them. *)
Definition listener_read_cb (w : world) (acc : list (Z * Z)) (err : Z) : option world :=
  '(w, go_on) ← accept_loop w acc;
  if negb go_on then Some w
  else
    l ← w_lev w;
    if EVUTIL_ERR_ACCEPT_RETRIABLE err then Some w
    else
      match lev_errorcb l with
      | Some cb =>
        w ← incref w;
        let script := code cb (w_calls w) in
        w ← lev_steps (call_error w) script;
        fst <$> listener_decref_and_unlock w
      | None => Some w
      end.

(** ** Runs

    The program calls the functions while it has the listener, and connections arrive
    while its event is pending. *)

Inductive lev_event := lev_called (c : lev_call) | lev_readable (acc : list (Z * Z)) (err : Z).

Definition lev_event_step (w : world) (e : lev_event) : option world :=
  match e with
  | lev_called c => if w_lev w is Some _ then lev_step w c else Some w
  | lev_readable acc err => if w_added w then listener_read_cb w acc err else Some w
  end.

Fixpoint lev_run (w : world) (es : list lev_event) : option world :=
  match es with
  | [] => Some w
  | e :: es => w ← lev_event_step w e; lev_run w es
  end.
End callbacks.
