(* ===== verification/ListenerProps.v ===== *)
(** * What becomes of accepted connections *)

From stdpp Require Import gmap.
From S2P Require Import Prelude Listener.

Definition is_free (c : lev_call) : bool := match c with lev_do_free => true | _ => false end.
Fixpoint frees (cs : list lev_call) : Z :=
  match cs with [] => 0 | c :: cs => (if is_free c then 1 else 0) + frees cs end.

Lemma frees_nonneg cs : 0 <= frees cs.
Proof. induction cs as [|c cs IH]; cbn; [lia|]. destruct (is_free c); lia. Qed.

(** Only the listener and its event differ. *)
Record same_fds (w w' : world) : Prop := {
  same_owned : w_owned w' = w_owned w;
  same_given : w_given w' = w_given w;
  same_closed : w_closed w' = w_closed w;
  same_accepted : w_accepted w' = w_accepted w
}.
#[export] Instance same_fds_preorder : PreOrder same_fds.
Proof. split; [by split|]. intros w1 w2 w3 [] []. split; congruence. Qed.

Section listener.
Context (flags fd : Z).

(** The listener exists, with [n] references and its own flags and socket. *)
Definition alive (n : Z) (w : world) : Prop :=
  ∃ l, w_lev w = Some l ∧ lev_refcnt l = n ∧ lev_flags l = flags ∧ lev_fd l = fd.

Lemma upd_alive f n m w : alive n w → (∀ l, lev_refcnt l = n → lev_refcnt (f l) = m ∧ lev_flags (f l) = lev_flags l ∧ lev_fd (f l) = lev_fd l) →
  ∃ w', upd_lev f w = Some w' ∧ alive m w' ∧ same_fds w w' ∧ w_calls w' = w_calls w ∧ w_added w' = w_added w ∧ w_lev w' = f <$> w_lev w.
Proof.
  intros (l & El & Hn & Hf & Hfd) Hl. unfold upd_lev. rewrite El. cbn. eexists. split; [done|]. destruct (Hl l Hn) as (? & ? & ?). split_and!; try done.
  exists (f l). split_and!; [done|done|congruence|congruence].
Qed.

Lemma event_add_ok n w : alive n w → alive n (fst (event_add w)) ∧ same_fds w (fst (event_add w)) ∧ w_calls (fst (event_add w)) = w_calls w.
Proof. intros Ha. unfold event_add. destruct (w_adds w) as [|[] ?]; split_and!; done. Qed.

(** ** Calls while the listener has references *)

Lemma enable_alive n w : alive n w → ∃ w' r, evconnlistener_enable w = Some (w', r) ∧ alive n w' ∧ same_fds w w' ∧ w_calls w' = w_calls w.
Proof.
  intros Ha. unfold evconnlistener_enable. destruct (upd_alive (set_enabled true) n n w Ha) as (w1 & -> & Ha1 & Hs1 & Hc1 & _ & _); [done|]. cbn [mbind option_bind].
  destruct (Ha1) as (l & -> & _). cbn [mbind option_bind]. destruct (lev_cb l).
  - destruct (event_add_ok n w1 Ha1) as (Ha2 & Hs2 & Hc2). unfold event_listener_enable. destruct (event_add w1) as [w2 r]. eexists _, _. split; [done|]. split; [done|]. split; [by etransitivity|cbn in *; congruence].
  - eexists _, _. split; [done|]. split; [done|]. split; [done|done].
Qed.

Lemma decref_alive n w : alive n w → n ≠ 1 → ∃ w', listener_decref_and_unlock w = Some (w', false) ∧ alive (n - 1) w' ∧ same_fds w w' ∧ w_calls w' = w_calls w.
Proof.
  intros (l & El & Hn & Hf & Hfd) Hne. unfold listener_decref_and_unlock. rewrite El. cbn [mbind option_bind]. destruct (Z.eqb_spec (lev_refcnt l - 1) 0); [lia|]. eexists. split; [done|].
  split; [|done]. exists (set_refcnt (lev_refcnt l - 1) l). split_and!; [done|cbn; lia|done|done].
Qed.

(** A call keeps the listener unless it frees the last reference. *)
Lemma lev_step_alive n w c : alive n w → (is_free c = true → n ≠ 1) →
  ∃ w', lev_step w c = Some w' ∧ alive (n - (if is_free c then 1 else 0)) w' ∧ same_fds w w' ∧ w_calls w' = w_calls w.
Proof.
  intros Ha Hn. destruct c as [| | |cb arg|cb]; cbn [lev_step is_free].
  - unfold evconnlistener_free. destruct (Ha) as (l & El & _). rewrite El. cbn [mbind option_bind].
    destruct (upd_alive (λ l, set_errorcb None (set_cb_ None (lev_user_data l) l)) n n w Ha) as (w1 & -> & Ha1 & Hs1 & Hc1 & _); [done|]. cbn [mbind option_bind].
    destruct (decref_alive n w1 Ha1 (Hn eq_refl)) as (w2 & -> & Ha2 & Hs2 & Hc2). exists w2. split; [done|]. split; [done|]. split; [by etransitivity|congruence].
  - destruct (enable_alive n w Ha) as (w' & r & -> & ? & ? & ?). exists w'. rewrite Z.sub_0_r. done.
  - unfold evconnlistener_disable. destruct (upd_alive (set_enabled false) n n w Ha) as (w1 & -> & Ha1 & Hs1 & Hc1 & _); [done|]. cbn. eexists. split; [done|]. rewrite Z.sub_0_r.
    split; [done|]. split; [|done]. destruct Hs1. by split.
  - unfold evconnlistener_set_cb. destruct (Ha) as (l & El & _). rewrite El. cbn [mbind option_bind]. rewrite Z.sub_0_r.
    destruct (upd_alive (set_cb_ cb arg) n n w Ha) as (w1 & -> & Ha1 & Hs1 & Hc1 & _); [done|]. cbn [mbind option_bind]. destruct (_ && _).
    + destruct (enable_alive n w1 Ha1) as (w' & r & -> & ? & ? & ?). exists w'. split; [done|]. split; [done|]. split; [by etransitivity|congruence].
    + exists w1. done.
  - unfold evconnlistener_set_error_cb. rewrite Z.sub_0_r. destruct (upd_alive (set_errorcb cb) n n w Ha) as (w1 & -> & Ha1 & Hs1 & Hc1 & _); [done|]. exists w1. done.
Qed.

Lemma lev_steps_alive cs : ∀ n w, alive n w → frees cs < n → ∃ w', lev_steps w cs = Some w' ∧ alive (n - frees cs) w' ∧ same_fds w w' ∧ w_calls w' = w_calls w.
Proof.
  induction cs as [|c cs IH]; intros n w Ha Hn; cbn [lev_steps frees] in *; [exists w; by rewrite Z.sub_0_r|]. pose proof (frees_nonneg cs) as Hnn.
  destruct (lev_step_alive n w c Ha) as (w1 & -> & Ha1 & Hs1 & Hc1); [destruct (is_free c); [lia|done]|]. cbn [mbind option_bind].
  destruct (IH _ w1 Ha1) as (w2 & -> & Ha2 & Hs2 & Hc2); [lia|]. exists w2. split; [done|]. split; [|split; [by etransitivity|congruence]].
  by replace (n - ((if is_free c then 1 else 0) + frees cs)) with (n - (if is_free c then 1 else 0) - frees cs) by lia.
Qed.

(** The last reference is given up. *)
Definition close_listening : list Z := if flags &? LEV_OPT_CLOSE_ON_FREE then [fd] else [].

Lemma decref_last w : alive 1 w → ∃ w', listener_decref_and_unlock w = Some (w', true) ∧ w_lev w' = None ∧ w_added w' = false ∧
  w_owned w' = (if flags &? LEV_OPT_CLOSE_ON_FREE then filter (.≠ fd) (w_owned w) else w_owned w) ∧ w_given w' = w_given w ∧ w_closed w' = w_closed w ++ close_listening ∧ w_accepted w' = w_accepted w.
Proof.
  intros (l & El & Hn & Hf & Hfd). unfold listener_decref_and_unlock. rewrite El. cbn [mbind option_bind]. rewrite Hn. cbn [Z.sub Z.eqb Z.add Z.opp Z.pos_sub]. eexists. split; [done|].
  unfold event_listener_destroy, close_listening. rewrite Hf, Hfd. destruct (flags &? LEV_OPT_CLOSE_ON_FREE); cbn; rewrite ?app_nil_r; done.
Qed.

(** ** The balance of descriptors *)

(** What was closed and what was given away is what was accepted, and [extra]. *)
Definition balanced (extra : list Z) (w : world) : Prop := w_closed w ++ w_given w ≡ₚ w_accepted w ++ extra.

Lemma same_balanced extra w w' : same_fds w w' → balanced extra w → balanced extra w'.
Proof. intros [_ Hg Hc Ha]. unfold balanced. by rewrite Hg, Hc, Ha. Qed.

Section code.
Context (code : Z → nat → list lev_call) (code_ok : ∀ cb k, frees (code cb k) <= 1).

(** Between events: the listener has one reference, or was freed; a callback that freed
    it was given a descriptor that was closed as well. *)
Definition lev_inv (w : world) : Prop :=
  w_owned w = [] ∧
  ((alive 1 w ∧ balanced [] w) ∨
   (w_lev w = None ∧ w_added w = false ∧ ∃ stolen, balanced (close_listening ++ stolen) w ∧
     (stolen = [] ∨ ∃ x, stolen = [x] ∧ last (w_given w) = Some x ∧ ∃ cb k, frees (code cb k) = 1))).

Lemma alive_accept n x w : alive n w → alive n (accept x w).
Proof. done. Qed.

Lemma filter_own x (l : list Z) : l = [] → filter (.≠ x) (x :: l) = [].
Proof. intros ->. by rewrite filter_cons_False by naive_solver. Qed.

Lemma close_new w x : w_owned w = [] → balanced [] w → w_owned (closesocket x (accept x w)) = [] ∧ balanced [] (closesocket x (accept x w)).
Proof.
  intros Ho Hb. split; [by apply filter_own|]. unfold balanced in *. cbn [w_closed w_given w_accepted closesocket accept]. rewrite app_nil_r in *.
  rewrite <- (app_assoc (w_closed w) [x]), (Permutation_app_comm [x]), app_assoc, Hb. done.
Qed.

Lemma give_new w x : w_owned w = [] → balanced [] w → w_owned (give x (accept x w)) = [] ∧ balanced [] (give x (accept x w)) ∧ last (w_given (give x (accept x w))) = Some x.
Proof.
  intros Ho Hb. split_and!; [by apply filter_own| |apply last_snoc]. unfold balanced in *. cbn [w_closed w_given w_accepted give accept]. rewrite app_nil_r in *.
  by rewrite app_assoc, Hb.
Qed.

Lemma lev_incref_ok w : alive 1 w → ∃ w', incref w = Some w' ∧ alive 2 w' ∧ same_fds w w' ∧ w_calls w' = w_calls w.
Proof.
  intros (l & El & Hn & Hf & Hfd). unfold incref. rewrite El. cbn [mbind option_bind]. rewrite Hn. cbn. eexists. split; [done|]. split; [|done]. exists (set_refcnt 2 l). done.
Qed.

(** A call of the callback that frees the listener: the descriptor is closed too. *)
Lemma free_in_callback w x : w_owned w = [] → alive 1 w → balanced [] w → last (w_given w) = Some x → (∃ cb k, frees (code cb k) = 1) →
  ∃ w', listener_decref_and_unlock w = Some (w', true) ∧ lev_inv (closesocket x w').
Proof.
  intros Ho Ha Hb Hl Hc. destruct (decref_last w Ha) as (w' & E & Hlev & Hadd & Hown & Hg & Hcl & Hacc). exists w'. split; [done|]. rewrite Ho in Hown. split.
  - cbn. rewrite Hown. by destruct (flags &? _).
  - right. split; [done|]. split; [done|]. exists [x]. split; [|right; exists x; cbn; rewrite Hg; done]. unfold balanced in *. cbn. rewrite Hcl, Hg, Hacc. rewrite app_nil_r in Hb. rewrite <- Hb.
    rewrite <- !app_assoc. rewrite (Permutation_app_comm (w_given w)), <- app_assoc. done.
Qed.

Lemma accept_loop_ok acc : ∀ w, w_owned w = [] → alive 1 w → balanced [] w →
  ∃ w' go, accept_loop code w acc = Some (w', go) ∧ lev_inv w' ∧ (go = true → alive 1 w').
Proof.
  induction acc as [|[x len] acc IH]; intros w Ho Ha Hb; cbn [accept_loop].
  { exists w, true. split; [done|]. split; [split; [done|by left]|done]. }
  destruct (Ha) as (l & El & _). rewrite El. cbn [mbind option_bind]. destruct (close_new w x Ho Hb) as [Hco Hcb]. destruct (len =? 0); [by apply IH|].
  destruct (lev_cb l) as [cb|]; [|eexists _, _; split; [done|]; split; [split; [done|by left]|done]].
  destruct (lev_incref_ok (accept x w) (alive_accept 1 x w Ha)) as (w1 & E1 & Ha1 & Hs1 & Hc1). rewrite E1. cbn [mbind option_bind].
  destruct (give_new w x Ho Hb) as (Hgo & Hgb & Hgl). assert (Hs2 : same_fds (give x (accept x w)) (give x w1)) by (destruct Hs1 as [Ho1 Hg1 Hc1' Hac1]; split; unfold give; cbn [w_owned w_given w_closed w_accepted]; rewrite ?Ho1, ?Hg1, ?Hc1', ?Hac1; done).
  assert (Hfr := code_ok cb (w_calls w1)). destruct (lev_steps_alive (code cb (w_calls w1)) 2 (give x w1) Ha1 ltac:(lia)) as (w2 & -> & Ha2 & Hs3 & _). cbn [mbind option_bind].
  assert (Hs : same_fds (give x (accept x w)) w2) by (by etransitivity). apply (same_balanced _ _ _ Hs) in Hgb. rewrite <- (same_owned _ _ Hs) in Hgo. rewrite <- (same_given _ _ Hs) in Hgl.
  destruct (Ha2) as (l2 & El2 & Hn2 & _). rewrite El2. cbn [mbind option_bind]. rewrite Hn2. destruct (Z.eqb_spec (2 - frees (code cb (w_calls w1))) 1) as [E|Hne].
  - rewrite E in Ha2. destruct (free_in_callback w2 x Hgo Ha2 Hgb Hgl) as (w3 & -> & Hinv); [exists cb, (w_calls w1); lia|]. cbn. eexists _, _. done.
  - pose proof (frees_nonneg (code cb (w_calls w1))). assert (Hz : frees (code cb (w_calls w1)) = 0) by lia. rewrite Hz in *.
    destruct (upd_alive (set_refcnt (2 - 0 - 1)) (2 - 0) 1 w2 Ha2) as (w3 & -> & Ha3 & Hs4 & _); [done|]. cbn [mbind option_bind]. apply IH; [by rewrite (same_owned _ _ Hs4)|done|by eapply same_balanced].
Qed.

Lemma read_cb_ok w acc err : w_owned w = [] → alive 1 w → balanced [] w → ∃ w', listener_read_cb code w acc err = Some w' ∧ lev_inv w'.
Proof.
  intros Ho Ha Hb. unfold listener_read_cb. destruct (accept_loop_ok acc w Ho Ha Hb) as (w1 & go & -> & Hinv & Hgo). cbn [mbind option_bind]. destruct go; cbn [negb]; [|by exists w1].
  specialize (Hgo eq_refl). destruct (Hgo) as (l & El & _). rewrite El. cbn [mbind option_bind]. destruct (EVUTIL_ERR_ACCEPT_RETRIABLE err); [by exists w1|]. destruct (lev_errorcb l) as [cb|]; [|by exists w1].
  destruct Hinv as [Ho1 [[_ Hb1]|[? _]]]; [|congruence]. destruct (lev_incref_ok w1 Hgo) as (w2 & -> & Ha2 & Hs2 & _). cbn [mbind option_bind].
  assert (Hfr := code_ok cb (w_calls w2)). destruct (lev_steps_alive (code cb (w_calls w2)) 2 (call_error w2) Ha2 ltac:(lia)) as (w3 & -> & Ha3 & Hs3 & _). cbn [mbind option_bind].
  assert (Hs : same_fds w1 w3) by (transitivity (call_error w2); [destruct Hs2; by split|done]). apply (same_balanced _ _ _ Hs) in Hb1. rewrite <- (same_owned _ _ Hs) in Ho1.
  destruct (Z.eq_dec (2 - frees (code cb (w_calls w2))) 1) as [E|Hne].
  - rewrite E in Ha3. destruct (decref_last w3 Ha3) as (w4 & -> & Hlev & Hadd & Hown & Hg & Hcl & Hacc). exists w4. split; [done|]. split; [rewrite Hown, Ho1; by destruct (flags &? _)|]. right.
    split; [done|]. split; [done|]. exists []. split; [|by left]. unfold balanced in *. rewrite Hcl, Hg, Hacc, app_nil_r in *. rewrite <- Hb1, <- !app_assoc. by rewrite (Permutation_app_comm (w_given w3)).
  - destruct (decref_alive _ w3 Ha3 Hne) as (w4 & -> & Ha4 & Hs4 & _). exists w4. split; [done|]. split; [by rewrite (same_owned _ _ Hs4)|]. left. split; [|by eapply same_balanced].
    pose proof (frees_nonneg (code cb (w_calls w2))). by replace 1 with (2 - frees (code cb (w_calls w2)) - 1) by lia.
Qed.

Lemma outer_call_ok w c : lev_inv w → ∃ w', lev_event_step code w (lev_called c) = Some w' ∧ lev_inv w'.
Proof.
  intros Hi. cbn [lev_event_step]. destruct (Hi) as [Ho [[Ha Hb]|(El & _)]]; [|rewrite El; by exists w]. destruct (Ha) as (l & El & _). rewrite El.
  destruct (is_free c) eqn:Ef; [destruct c; try done; cbn [lev_step]|].
  - unfold evconnlistener_free. rewrite El. cbn [mbind option_bind].
    destruct (upd_alive (λ l, set_errorcb None (set_cb_ None (lev_user_data l) l)) 1 1 w Ha) as (w1 & -> & Ha1 & Hs1 & _); [done|]. cbn [mbind option_bind].
    destruct (decref_last w1 Ha1) as (w2 & -> & Hlev & Hadd & Hown & Hg & Hcl & Hacc). exists w2. split; [done|]. apply (same_balanced _ _ _ Hs1) in Hb.
    split; [rewrite Hown, (same_owned _ _ Hs1), Ho; by destruct (flags &? _)|]. right. split; [done|]. split; [done|]. exists []. split; [|by left].
    unfold balanced in *. rewrite Hcl, Hg, Hacc, app_nil_r in *. rewrite <- Hb, <- !app_assoc. by rewrite (Permutation_app_comm (w_given w1)).
  - destruct (lev_step_alive 1 w c Ha) as (w' & -> & Ha' & Hs & _); [congruence|]. rewrite Ef, Z.sub_0_r in Ha'. exists w'. split; [done|]. split; [by rewrite (same_owned _ _ Hs)|].
    left. split; [done|]. by eapply same_balanced.
Qed.

Lemma lev_event_ok w e : lev_inv w → ∃ w', lev_event_step code w e = Some w' ∧ lev_inv w'.
Proof.
  intros Hi. destruct e as [c|acc err]; [by apply outer_call_ok|]. cbn [lev_event_step]. destruct (w_added w) eqn:Ea; [|by exists w].
  destruct Hi as [Ho [[Ha Hb]|(_ & ? & _)]]; [|congruence]. by apply read_cb_ok.
Qed.

Lemma lev_run_ok es : ∀ w, lev_inv w → ∃ w', lev_run code w es = Some w' ∧ lev_inv w'.
Proof.
  induction es as [|e es IH]; intros w Hi; [by exists w|]. cbn [lev_run]. destruct (lev_event_ok w e Hi) as (w1 & -> & Hi1). cbn [mbind option_bind]. by apply IH.
Qed.

Lemma evconnlistener_new_ok listen mem adds cb ptr backlog w : evconnlistener_new listen mem adds cb ptr flags backlog fd = Some w → lev_inv w.
Proof.
  unfold evconnlistener_new. destruct (if 0 <? backlog then _ else _); cbn [negb]; [|done]. destruct mem; cbn [negb]; [|done].
  set (w0 := mk_world _ _ _ _ _ _ _ _). assert (Ha : alive 1 w0) by (eexists; split; [done|]; done). destruct (flags &? LEV_OPT_DISABLED); cbn [negb].
  - intros [= <-]. split; [done|]. left. split; [exact Ha|unfold balanced; cbn; done].
  - destruct (enable_alive 1 w0 Ha) as (w1 & r & -> & Ha1 & Hs & _). intros [= <-]. split; [by rewrite (same_owned _ _ Hs)|]. left. split; [done|]. apply (same_balanced _ w0 _ Hs). unfold balanced. cbn. done.
Qed.
End code.
End listener.

(** C32. Whatever a program and the callbacks of a listener do (each callback may also
    enable, disable, change or free the listener, once), and whatever connections
    arrive, the listener is never used after it was freed, its event is not pending
    then, and no accepted descriptor is lost: each one was given to a callback or closed
    by the library, exactly once, as long as the listener exists.  When it was freed,
    the listening socket was closed if that was asked for; and if a callback freed it, the
    descriptor that this callback had been given was closed by the library although it
    belongs to the callback. *)
Theorem listener_accounts code listen mem adds cb ptr flags backlog fd w0 es :
  (∀ cb k, frees (code cb k) <= 1) → evconnlistener_new listen mem adds cb ptr flags backlog fd = Some w0 →
  ∃ w, lev_run code w0 es = Some w ∧ w_owned w = [] ∧
    match w_lev w with
    | Some _ => w_closed w ++ w_given w ≡ₚ w_accepted w
    | None => w_added w = false ∧ ∃ stolen,
        w_closed w ++ w_given w ≡ₚ w_accepted w ++ (if flags &? LEV_OPT_CLOSE_ON_FREE then [fd] else []) ++ stolen ∧
        (stolen = [] ∨ ∃ x, stolen = [x] ∧ last (w_given w) = Some x ∧ ∃ cb k, frees (code cb k) = 1)
    end.
Proof.
  intros Hcode Hnew. destruct (lev_run_ok flags fd code Hcode es w0) as (w & E & Ho & Hi); [by eapply evconnlistener_new_ok|]. exists w. split; [done|]. split; [done|].
  destruct Hi as [[(l & El & _) Hb]|(El & Ha & Hb)]; rewrite El; [|done]. unfold balanced in Hb. by rewrite app_nil_r in Hb.
Qed.

(** A descriptor that is given to a callback that frees the listener is closed. *)
Theorem free_in_callback_closes code l w x len acc err cb :
  w_lev w = Some l → lev_refcnt l = 1 → lev_cb l = Some cb → len ≠ 0 → code cb (w_calls w) = [lev_do_free] →
  ∃ w', listener_read_cb code w ((x, len) :: acc) err = Some w' ∧ x ∈ w_given w' ∧ x ∈ w_closed w' ∧ w_lev w' = None.
Proof.
  intros El Hn Hcb Hlen Hcode. destruct w as [lev added owned given closed accepted calls adds], l as [cb' ecb data flags refcnt aflags enabled fd]. cbn in *. subst.
  unfold listener_read_cb. cbn. rewrite (proj2 (Z.eqb_neq len 0) Hlen). cbn. change (32767 <? 1 + 1) with false. cbn. rewrite Hcode. cbn. eexists. split; [done|]. unfold event_listener_destroy. cbn. destruct (flags &? LEV_OPT_CLOSE_ON_FREE); cbn; (split; [set_solver|]); (split; [set_solver|done]).
Qed.

(** * Listeners: runs and what goes wrong *)

(** Callback 1 does nothing, 2 disables the listener, 3 frees it, 4 takes the callback
    away. *)
Definition demo_code (cb : Z) (k : nat) : list lev_call :=
  if cb =? 2 then [lev_do_disable] else if cb =? 3 then [lev_do_free] else if cb =? 4 then [lev_do_set_cb None 0] else [].

Lemma demo_code_ok cb k : frees (demo_code cb k) <= 1.
Proof. unfold demo_code. destruct (cb =? 2), (cb =? 3), (cb =? 4); cbn; lia. Qed.

Definition demo_listener (cb : option Z) : option world := evconnlistener_new (λ _, true) true [] cb 0 LEV_OPT_CLOSE_ON_FREE (-1) 3.
Definition two_connections : list lev_event := [lev_readable [(10, 16); (11, 16)] 11].

Lemma listener_accounts_witness : ∃ w0, demo_listener (Some 3) = Some w0 ∧
  ∃ w, lev_run demo_code w0 two_connections = Some w ∧ w_owned w = [] ∧
    match w_lev w with
    | Some _ => w_closed w ++ w_given w ≡ₚ w_accepted w
    | None => w_added w = false ∧ ∃ stolen,
        w_closed w ++ w_given w ≡ₚ w_accepted w ++ (if LEV_OPT_CLOSE_ON_FREE &? LEV_OPT_CLOSE_ON_FREE then [3] else []) ++ stolen ∧
        (stolen = [] ∨ ∃ x, stolen = [x] ∧ last (w_given w) = Some x ∧ ∃ cb k, frees (demo_code cb k) = 1)
    end.
Proof.
  eexists. split; [reflexivity|]. apply (listener_accounts demo_code (λ _, true) true [] (Some 3) 0 LEV_OPT_CLOSE_ON_FREE (-1) 3); [apply demo_code_ok|reflexivity].
Defined.

Definition outcome (cb : option Z) (es : list lev_event) : option (list Z * list Z * bool) :=
  w ← demo_listener cb; w ← lev_run demo_code w es; Some (w_given w, w_closed w, w_added w).

Example plain_run : outcome (Some 1) two_connections = Some ([10; 11], [], true).
Proof. vm_compute. reflexivity. Qed.

(** A callback that disables the listener is called again at once for the next
    connection. *)
Example called_after_disable : outcome (Some 2) two_connections = Some ([10; 11], [], false).
Proof. vm_compute. reflexivity. Qed.

(** A callback that frees the listener loses the descriptor that it was given. *)
Example given_and_closed : outcome (Some 3) two_connections = Some ([10], [3; 10], false).
Proof. vm_compute. reflexivity. Qed.

(** Without a callback the listener is not treated as disabled: connections are
    accepted and closed. *)
Example no_callback : outcome (Some 4) [lev_readable [(10, 16); (11, 16)] 11; lev_readable [(12, 16)] 11] = Some ([10], [11; 12], true).
Proof. vm_compute. reflexivity. Qed.

(** No callback from the start: the event is not added until there is one. *)
Example callback_later : outcome None [lev_readable [(10, 16)] 11; lev_called (lev_do_set_cb (Some 1) 0); lev_readable [(11, 16)] 11] = Some ([11], [], true).
Proof. vm_compute. reflexivity. Qed.

(** An address without length is closed, an error that is not retriable goes to the
    error callback. *)
Example no_address : outcome (Some 1) [lev_readable [(10, 0); (11, 16)] 11] = Some ([11], [10], true).
Proof. vm_compute. reflexivity. Qed.

(** Binding fails after the socket was made: it is closed. *)
Example bind_fails : evconnlistener_new_bind (mk_bind_calls (λ _, 7) true true true true false) (λ _, true) true [] (Some 1) 0 LEV_OPT_REUSEABLE (-1) true = (None, [7]).
Proof. vm_compute. reflexivity. Qed.
