(* ===== verification/DnsConfig.v ===== *)
(** * Configuration of the resolver and hosts files (evdns.c)

    The options, resolv.conf files and search domains of a base, and the table of hosts
    with the lookup of names in it.  [cf_allocs] counts the allocations; [mem] says
    which of them succeed.  A [None] is a NULL pointer that is followed or a failed
    assertion. *)

From stdpp Require Import gmap.
From Stdlib Require Import QArith Qround.
From S2P Require Import Prelude TimeVal Clib Util Inet Addrinfo.
Open Scope Z_scope.

Definition DNS_OPTION_SEARCH : Z := 1.
Definition DNS_OPTION_NAMESERVERS : Z := 2.
Definition DNS_OPTION_MISC : Z := 4.
Definition DNS_OPTION_HOSTSFILE : Z := 8.
Definition DNS_OPTIONS_ALL : Z := 15.
Definition sizeof_storage : Z := 128.

Record hosts_entry := mk_hosts_entry { he_hostname : bytes; he_addr : sockaddr; he_addrlen : Z }.

(** The search domains, the first one first. *)
Record search_conf := mk_search_conf { sc_ndots : Z; sc_num_domains : Z; sc_domains : list bytes }.

(** The servers are the ring of nameservers from [server_head] on, each with the length
    of its address. *)
Record dns_conf := mk_dns_conf {
  cf_search : option search_conf;
  cf_timeout : timeval;
  cf_allow_skew : timeval;
  cf_max_nameserver_timeout : Z;
  cf_max_requests_inflight : Z;
  cf_max_retransmits : Z;
  cf_randomize_case : Z;
  cf_outgoing_address : option (sockaddr * Z);
  cf_probe_initial_timeout : timeval;
  cf_servers : list (sockaddr * Z);
  cf_good_nameservers : Z;
  cf_hostsdb : list hosts_entry;
  cf_allocs : nat
}.

Definition set_search (v : option search_conf) (c : dns_conf) : dns_conf :=
  mk_dns_conf v (cf_timeout c) (cf_allow_skew c) (cf_max_nameserver_timeout c) (cf_max_requests_inflight c) (cf_max_retransmits c) (cf_randomize_case c)
    (cf_outgoing_address c) (cf_probe_initial_timeout c) (cf_servers c) (cf_good_nameservers c) (cf_hostsdb c) (cf_allocs c).
Definition set_timeout (v : timeval) (c : dns_conf) : dns_conf :=
  mk_dns_conf (cf_search c) v (cf_allow_skew c) (cf_max_nameserver_timeout c) (cf_max_requests_inflight c) (cf_max_retransmits c) (cf_randomize_case c)
    (cf_outgoing_address c) (cf_probe_initial_timeout c) (cf_servers c) (cf_good_nameservers c) (cf_hostsdb c) (cf_allocs c).
Definition set_allow_skew (v : timeval) (c : dns_conf) : dns_conf :=
  mk_dns_conf (cf_search c) (cf_timeout c) v (cf_max_nameserver_timeout c) (cf_max_requests_inflight c) (cf_max_retransmits c) (cf_randomize_case c)
    (cf_outgoing_address c) (cf_probe_initial_timeout c) (cf_servers c) (cf_good_nameservers c) (cf_hostsdb c) (cf_allocs c).
Definition set_max_nameserver_timeout (v : Z) (c : dns_conf) : dns_conf :=
  mk_dns_conf (cf_search c) (cf_timeout c) (cf_allow_skew c) v (cf_max_requests_inflight c) (cf_max_retransmits c) (cf_randomize_case c)
    (cf_outgoing_address c) (cf_probe_initial_timeout c) (cf_servers c) (cf_good_nameservers c) (cf_hostsdb c) (cf_allocs c).
Definition set_max_requests_inflight (v : Z) (c : dns_conf) : dns_conf :=
  mk_dns_conf (cf_search c) (cf_timeout c) (cf_allow_skew c) (cf_max_nameserver_timeout c) v (cf_max_retransmits c) (cf_randomize_case c)
    (cf_outgoing_address c) (cf_probe_initial_timeout c) (cf_servers c) (cf_good_nameservers c) (cf_hostsdb c) (cf_allocs c).
Definition set_max_retransmits (v : Z) (c : dns_conf) : dns_conf :=
  mk_dns_conf (cf_search c) (cf_timeout c) (cf_allow_skew c) (cf_max_nameserver_timeout c) (cf_max_requests_inflight c) v (cf_randomize_case c)
    (cf_outgoing_address c) (cf_probe_initial_timeout c) (cf_servers c) (cf_good_nameservers c) (cf_hostsdb c) (cf_allocs c).
Definition set_randomize_case (v : Z) (c : dns_conf) : dns_conf :=
  mk_dns_conf (cf_search c) (cf_timeout c) (cf_allow_skew c) (cf_max_nameserver_timeout c) (cf_max_requests_inflight c) (cf_max_retransmits c) v
    (cf_outgoing_address c) (cf_probe_initial_timeout c) (cf_servers c) (cf_good_nameservers c) (cf_hostsdb c) (cf_allocs c).
Definition set_outgoing_address (v : option (sockaddr * Z)) (c : dns_conf) : dns_conf :=
  mk_dns_conf (cf_search c) (cf_timeout c) (cf_allow_skew c) (cf_max_nameserver_timeout c) (cf_max_requests_inflight c) (cf_max_retransmits c) (cf_randomize_case c)
    v (cf_probe_initial_timeout c) (cf_servers c) (cf_good_nameservers c) (cf_hostsdb c) (cf_allocs c).
Definition set_probe_initial_timeout (v : timeval) (c : dns_conf) : dns_conf :=
  mk_dns_conf (cf_search c) (cf_timeout c) (cf_allow_skew c) (cf_max_nameserver_timeout c) (cf_max_requests_inflight c) (cf_max_retransmits c) (cf_randomize_case c)
    (cf_outgoing_address c) v (cf_servers c) (cf_good_nameservers c) (cf_hostsdb c) (cf_allocs c).
Definition set_servers (v : list (sockaddr * Z)) (c : dns_conf) : dns_conf :=
  mk_dns_conf (cf_search c) (cf_timeout c) (cf_allow_skew c) (cf_max_nameserver_timeout c) (cf_max_requests_inflight c) (cf_max_retransmits c) (cf_randomize_case c)
    (cf_outgoing_address c) (cf_probe_initial_timeout c) v (cf_good_nameservers c) (cf_hostsdb c) (cf_allocs c).
Definition set_good_nameservers (v : Z) (c : dns_conf) : dns_conf :=
  mk_dns_conf (cf_search c) (cf_timeout c) (cf_allow_skew c) (cf_max_nameserver_timeout c) (cf_max_requests_inflight c) (cf_max_retransmits c) (cf_randomize_case c)
    (cf_outgoing_address c) (cf_probe_initial_timeout c) (cf_servers c) v (cf_hostsdb c) (cf_allocs c).
Definition set_hostsdb (v : list hosts_entry) (c : dns_conf) : dns_conf :=
  mk_dns_conf (cf_search c) (cf_timeout c) (cf_allow_skew c) (cf_max_nameserver_timeout c) (cf_max_requests_inflight c) (cf_max_retransmits c) (cf_randomize_case c)
    (cf_outgoing_address c) (cf_probe_initial_timeout c) (cf_servers c) (cf_good_nameservers c) v (cf_allocs c).
Definition count_alloc (c : dns_conf) : dns_conf :=
  mk_dns_conf (cf_search c) (cf_timeout c) (cf_allow_skew c) (cf_max_nameserver_timeout c) (cf_max_requests_inflight c) (cf_max_retransmits c) (cf_randomize_case c)
    (cf_outgoing_address c) (cf_probe_initial_timeout c) (cf_servers c) (cf_good_nameservers c) (cf_hostsdb c) (S (cf_allocs c)).

(** The values of [evdns_base_new]. *)
Definition dns_conf_new : dns_conf :=
  mk_dns_conf None (mk_timeval 5 0) (mk_timeval 3 0) 3 64 3 1 None (mk_timeval 10 0) [] 0 [] 0.

(** ** Results *)

(** A value; a text whose number cannot be converted to an int, which is undefined
    behaviour; or a NULL pointer that is followed or a failed assertion. *)
Inductive cres (A : Type) := COk (a : A) | CUndef (text : bytes) | CFault.
Arguments COk {_} a.
Arguments CUndef {_} text.
Arguments CFault {_}.
#[export] Instance cres_bind : MBind cres := λ A B f m, match m with COk a => f a | CUndef s => CUndef s | CFault => CFault end.
#[export] Instance cres_fmap : FMap cres := λ A B f m, match m with COk a => COk (f a) | CUndef s => CUndef s | CFault => CFault end.
Definition lift {A} (m : option A) : cres A := match m with Some a => COk a | None => CFault end.

(** ** Words of a line *)

(** strtok_r with the delimiters of the parsers: the next word and the rest. *)
Definition is_blank (c : Z) : bool := (c =? 32) || (c =? 9).
Definition strtok_r (s : bytes) : option (bytes * bytes) :=
  let s := snd (span is_blank s) in
  match s with
  | [] => None
  | _ => let '(tok, rest) := span (λ c, negb (is_blank c)) s in Some (tok, drop 1 rest)
  end.

(** ** Numbers *)

(** The conversion to int of a long. *)
Definition strtoint (str : bytes) : Z :=
  let '(r, rest) := strtol 10 str in
  match rest with [] => i32 r | _ => -1 end.

Definition strtoint_clipped (str : bytes) (min max : Z) : Z :=
  let r := strtoint str in
  if r =? -1 then r else if r <? min then min else if max <? r then max else r.

(** A double, a finite one by its value. *)
Inductive double := d_finite (q : Q) | d_infinite (negative : bool) | d_nan.

Section config.
Context (mem : nat → bool).
(** strtod, with its value and what follows the number; the rounding of an exact result
    to a double; the name of the host, or that it cannot be found. *)
Context (strtod : bytes → double * bytes) (rd : Q → Q) (gethostname : option bytes).
(** Whether a socket can be made, bound and its event added, for the nameserver with
    this allocation; whether events are added only while there are requests. *)
Context (os_socket os_bind os_event_add : nat → bool) (disable_when_inactive : bool).

(** The allocation with the next number. *)
Definition allocate (c : dns_conf) : bool * dns_conf := (mem (cf_allocs c), count_alloc c).

(** [COk None] is -1.  The difference of a double and its integral part is a double; the
    product is rounded. *)
Definition evdns_strtotimeval (str : bytes) : cres (option timeval) :=
  match strtod str with
  | (_, _ :: _) => COk None
  | (d_infinite true, []) => COk None
  | (d_infinite false, []) => CUndef str
  | (d_nan, []) => CUndef str
  | (d_finite d, []) =>
    if negb (Qle_bool 0 d) then COk None
    else if INT_MAX <? Qfloor d then CUndef str
    else
      let sec := Qfloor d in
      let usec := Qfloor (rd ((d - inject_Z sec) * inject_Z 1000000)) in
      if (sec =? 0) && (usec <? 1000) then COk None else COk (Some (mk_timeval sec usec))
  end.

(** ** Search domains *)

Definition search_state_new (c : dns_conf) : option search_conf * dns_conf :=
  let '(ok, c) := allocate c in (if ok then Some (mk_search_conf 1 0 []) else None, c).

Definition search_postfix_clear (c : dns_conf) : dns_conf := let '(s, c) := search_state_new c in set_search s c.

(** A state is made when there is none. *)
Definition ensure_search (c : dns_conf) : dns_conf :=
  match cf_search c with Some _ => c | None => let '(s, c) := search_state_new c in set_search s c end.

Fixpoint skip_dots (s : bytes) : bytes := match s with c :: s' => if c =? 46 then skip_dots s' else s | [] => [] end.

(** The number grows before there is memory for the domain. *)
Definition search_postfix_add (domain : bytes) (c : dns_conf) : dns_conf :=
  let domain := skip_dots domain in
  let c := ensure_search c in
  match cf_search c with
  | None => c
  | Some s =>
    let '(ok, c) := allocate c in
    set_search (Some (mk_search_conf (sc_ndots s) (sc_num_domains s + 1) (if ok then domain :: sc_domains s else sc_domains s))) c
  end.

Definition search_reverse (c : dns_conf) : option dns_conf :=
  s ← cf_search c;
  Some (set_search (Some (mk_search_conf (sc_ndots s) (sc_num_domains s) (rev (sc_domains s)))) c).

Definition search_set_from_hostname (c : dns_conf) : dns_conf :=
  let c := search_postfix_clear c in
  match gethostname with
  | None => c
  | Some h => match strchr 46 h with None => c | Some i => search_postfix_add (drop i h) c end
  end.

Definition evdns_base_search_clear := search_postfix_clear.
Definition evdns_base_search_add := search_postfix_add.
Definition evdns_base_search_ndots_set (ndots : Z) (c : dns_conf) : dns_conf :=
  let c := ensure_search c in
  match cf_search c with None => c | Some s => set_search (Some (mk_search_conf ndots (sc_num_domains s) (sc_domains s))) c end.

(** ** Nameservers *)

Definition sockaddr_getport (sa : sockaddr) : Z :=
  match sa with SaIn s => ntohs (sin_port s) | SaIn6 s => ntohs (sin6_port s) | SaOther _ => 0 end.
Definition sockaddr_setport (port : Z) (sa : sockaddr) : sockaddr :=
  match sa with
  | SaIn s => SaIn (mk_sin (htons port) (sin_addr s))
  | SaIn6 s => SaIn6 (mk_sin6 (htons port) (sin6_flowinfo s) (sin6_addr s) (sin6_scope_id s))
  | SaOther f => SaOther f
  end.

(** The result, and the base with the nameserver behind the head of the ring. *)
Definition evdns_nameserver_add_impl_ (address : sockaddr) (addrlen : Z) (c : dns_conf) : dns_conf * Z :=
  if existsb (λ s, evutil_sockaddr_cmp (fst s) address true =? 0) (cf_servers c) then (c, 3)
  else if sizeof_storage <? addrlen then (c, 2)
  else
    let k := cf_allocs c in
    let '(ok, c) := allocate c in
    if negb ok then (c, -1)
    else if negb (os_socket k) then (c, 1)
    else if match cf_outgoing_address c with
            | Some _ => negb (evutil_sockaddr_is_loopback_ address) && negb (os_bind k)
            | None => false
            end then (c, 2)
    else if negb disable_when_inactive && negb (os_event_add k) then (c, 2)
    else
      let ns := (address, addrlen) in
      let c := set_servers (match cf_servers c with [] => [ns] | x :: l => x :: ns :: l end) c in
      (set_good_nameservers (cf_good_nameservers c + 1) c, 0).

Definition evdns_base_nameserver_add (address : Z) (c : dns_conf) : dns_conf * Z :=
  evdns_nameserver_add_impl_ (SaIn (mk_sin (htons 53) address)) sizeof_sin c.

Definition evdns_base_nameserver_sockaddr_add (sa : sockaddr) (len : Z) (c : dns_conf) : dns_conf * Z :=
  evdns_nameserver_add_impl_ sa len c.

Definition evdns_base_nameserver_ip_add (ip : bytes) (c : dns_conf) : option (dns_conf * Z) :=
  '(r, out) ← evutil_parse_sockaddr_port ip sizeof_storage;
  if negb (r =? 0) then Some (c, 4)
  else
    '(sa, len) ← out;
    let sa := if sockaddr_getport sa =? 0 then sockaddr_setport 53 sa else sa in
    Some (evdns_nameserver_add_impl_ sa len c).

(** What [evdns_base_clear_nameservers_and_suspend] does to the ring and the counter. *)
Definition clear_servers (c : dns_conf) : dns_conf :=
  match cf_servers c with [] => c | _ => set_good_nameservers 0 (set_servers [] c) end.

(** The walk along the ring stops before it comes back to the head; the result and the
    address that is stored. *)
Fixpoint nameserver_at (idx : nat) (l : list (sockaddr * Z)) : option (sockaddr * Z) :=
  match l, idx with
  | [], _ => None
  | s :: _, O => Some s
  | _ :: l, S idx => nameserver_at idx l
  end.
Definition evdns_base_get_nameserver_addr (idx len : Z) (c : dns_conf) : Z * option sockaddr :=
  match nameserver_at (Z.to_nat idx) (cf_servers c) with
  | None => (-1, None)
  | Some (sa, addrlen) => (addrlen, if len <? addrlen then None else Some sa)
  end.

(** ** Options *)

Definition str_matches_option (s1 optionname : bytes) : bool :=
  let optlen := length optionname in
  let slen := length s1 in
  if (slen =? optlen)%nat || (slen =? optlen - 1)%nat then strncmp_eq s1 optionname slen
  else if (optlen <? slen)%nat then strncmp_eq s1 optionname optlen
  else false.

Abbreviation opt s := (bytes_of_string s).

Definition evdns_base_set_option_impl (option val : bytes) (flags : Z) (c : dns_conf) : cres (dns_conf * Z) :=
  let misc := flags &? DNS_OPTION_MISC in
  let fail := COk (c, -1) in
  let skip := COk (c, 0) in
  if str_matches_option option (opt "ndots:") then
    let ndots := strtoint val in
    if ndots =? -1 then fail
    else if negb (flags &? DNS_OPTION_SEARCH) then skip
    else
      let c := ensure_search c in
      match cf_search c with
      | None => COk (c, -1)
      | Some s => COk (set_search (Some (mk_search_conf ndots (sc_num_domains s) (sc_domains s))) c, 0)
      end
  else if str_matches_option option (opt "timeout:") then
    tv ← evdns_strtotimeval val;
    match tv with None => fail | Some tv => if negb misc then skip else COk (set_timeout tv c, 0) end
  else if str_matches_option option (opt "getaddrinfo-allow-skew:") then
    tv ← evdns_strtotimeval val;
    match tv with None => fail | Some tv => if negb misc then skip else COk (set_allow_skew tv c, 0) end
  else if str_matches_option option (opt "max-timeouts:") then
    let maxtimeout := strtoint_clipped val 1 255 in
    if maxtimeout =? -1 then fail else if negb misc then skip else COk (set_max_nameserver_timeout maxtimeout c, 0)
  else if str_matches_option option (opt "max-inflight:") then
    let maxinflight := strtoint_clipped val 1 65000 in
    if maxinflight =? -1 then fail
    else if negb misc then skip
    else let '(ok, c) := allocate c in COk (if ok then set_max_requests_inflight maxinflight c else c, 0)
  else if str_matches_option option (opt "attempts:") then
    let retries := strtoint val in
    if retries =? -1 then fail
    else
      let retries := if 255 <? retries then 255 else retries in
      if negb misc then skip else COk (set_max_retransmits retries c, 0)
  else if str_matches_option option (opt "randomize-case:") then
    let randcase := strtoint val in
    if negb misc then skip else COk (set_randomize_case randcase c, 0)
  else if str_matches_option option (opt "bind-to:") then
    if negb (flags &? DNS_OPTION_NAMESERVERS) then skip
    else
      '(r, out) ← lift (evutil_parse_sockaddr_port val sizeof_storage);
      if negb (r =? 0) then fail else COk (set_outgoing_address out c, 0)
  else if str_matches_option option (opt "initial-probe-timeout:") then
    tv ← evdns_strtotimeval val;
    match tv with
    | None => fail
    | Some tv =>
      let tv := if 3600 <? tv_sec tv then mk_timeval 3600 (tv_usec tv) else tv in
      if negb misc then skip else COk (set_probe_initial_timeout tv c, 0)
    end
  else skip.

Definition evdns_base_set_option (option val : bytes) (c : dns_conf) : cres (dns_conf * Z) :=
  evdns_base_set_option_impl option val DNS_OPTIONS_ALL c.

(** ** resolv.conf *)

(** Every word that is left is a domain, or an option. *)
Fixpoint search_words (fuel : nat) (s : bytes) (c : dns_conf) : option dns_conf :=
  match fuel with
  | O => None
  | S fuel => match strtok_r s with None => Some c | Some (domain, s) => search_words fuel s (search_postfix_add domain c) end
  end.
Fixpoint option_words (fuel : nat) (s : bytes) (flags : Z) (c : dns_conf) : cres dns_conf :=
  match fuel with
  | O => CFault
  | S fuel =>
    match strtok_r s with
    | None => COk c
    | Some (option, s) =>
      let val := match strchr 58 option with Some i => drop (S i) option | None => [] end in
      '(c, _) ← evdns_base_set_option_impl option val flags c;
      option_words fuel s flags c
    end
  end.

Definition resolv_conf_parse_line (start : bytes) (flags : Z) (c : dns_conf) : cres dns_conf :=
  match strtok_r start with
  | None => COk c
  | Some (first_token, s) =>
    if bool_decide (first_token = opt "nameserver") && (flags &? DNS_OPTION_NAMESERVERS) then
      match strtok_r s with Some (nameserver, _) => lift (fst <$> evdns_base_nameserver_ip_add nameserver c) | None => COk c end
    else if bool_decide (first_token = opt "domain") && (flags &? DNS_OPTION_SEARCH) then
      match strtok_r s with Some (domain, _) => COk (search_postfix_add domain (search_postfix_clear c)) | None => COk c end
    else if bool_decide (first_token = opt "search") && (flags &? DNS_OPTION_SEARCH) then
      lift (c ← search_words (S (length s)) s (search_postfix_clear c); search_reverse c)
    else if bool_decide (first_token = opt "options") then option_words (S (length s)) s flags c
    else COk c
  end.

(** The lines of a file, the last one without a newline. *)
Fixpoint lines (fuel : nat) (s : bytes) : list bytes :=
  match fuel with
  | O => []
  | S fuel => match strchr 10 s with Some i => take i s :: lines fuel (drop (S i) s) | None => [s] end
  end.
Definition file_lines (s : bytes) : list bytes := lines (S (length s)) s.

Fixpoint resolv_conf_lines (ls : list bytes) (flags : Z) (c : dns_conf) : cres dns_conf :=
  match ls with
  | [] => COk c
  | l :: ls => c ← resolv_conf_parse_line l flags c; resolv_conf_lines ls flags c
  end.

(** ** The hosts file *)

(** The names of a line; a [#] starts a comment. *)
Fixpoint hosts_words (fuel : nat) (s : bytes) (sa : sockaddr) (socklen : Z) (c : dns_conf) : option (dns_conf * Z) :=
  match fuel with
  | O => None
  | S fuel =>
    match strtok_r s with
    | None => Some (c, 0)
    | Some (hostname, s) =>
      let hash := strchr 35 hostname in
      if bool_decide (hash = Some O) then Some (c, 0)
      else
        let hostname := match hash with Some i => take i hostname | None => hostname end in
        let '(ok, c) := allocate c in
        if negb ok then Some (c, -1)
        else
          ASSERT (socklen <=? sizeof_sin6);;
          let c := set_hostsdb (cf_hostsdb c ++ [mk_hosts_entry hostname sa socklen]) c in
          match hash with Some _ => Some (c, 0) | None => hosts_words fuel s sa socklen c end
    end
  end.

Definition evdns_base_parse_hosts_line (line : bytes) (c : dns_conf) : option (dns_conf * Z) :=
  match strtok_r line with
  | None => Some (c, 0)
  | Some (addr, s) =>
    if char_at addr 0 =? 35 then Some (c, 0)
    else
      '(r, out) ← evutil_parse_sockaddr_port addr sizeof_storage;
      if r <? 0 then Some (c, -1)
      else
        '(sa, socklen) ← out;
        if sizeof_sin6 <? socklen then Some (c, -1)
        else if negb (sockaddr_getport sa =? 0) then Some (c, -1)
        else hosts_words (S (length s)) s sa socklen c
  end.

Fixpoint hosts_lines (ls : list bytes) (c : dns_conf) : option dns_conf :=
  match ls with
  | [] => Some c
  | l :: ls => '(c, _) ← evdns_base_parse_hosts_line l c; hosts_lines ls c
  end.

(** [file] is what reading gives: an error, or the bytes (up to the first NUL); [None]
    is that there is no name. *)
Definition evdns_base_load_hosts_impl (file : option (Z + bytes)) (c : dns_conf) : option (dns_conf * Z) :=
  match file with
  | Some (inr str) => c ← hosts_lines (file_lines (c_text str)) c; Some (c, 0)
  | _ =>
    c ← hosts_lines [opt "127.0.0.1   localhost"; opt "::1   localhost"] c;
    Some (c, match file with None => 0 | _ => -1 end)
  end.

Definition evdns_base_clear_host_addresses (c : dns_conf) : dns_conf := set_hostsdb [] c.

(** The result of the whole parser; [hosts] and [file] are what reading the two files
    gives. *)
Definition evdns_resolv_set_defaults (flags : Z) (c : dns_conf) : option dns_conf :=
  let c := if flags &? DNS_OPTION_SEARCH then search_set_from_hostname c else c in
  if flags &? DNS_OPTION_NAMESERVERS then fst <$> evdns_base_nameserver_ip_add (opt "127.0.0.1") c else Some c.

Definition evdns_base_resolv_conf_parse_impl (hosts file : Z + bytes) (flags : Z) (c : dns_conf) : cres (dns_conf * Z) :=
  c ← lift (if flags &? DNS_OPTION_HOSTSFILE then
              let '(ok, c) := allocate c in fst <$> evdns_base_load_hosts_impl (if ok then Some hosts else None) c
            else Some c);
  match file with
  | inl err => if err =? -1 then c ← lift (evdns_resolv_set_defaults flags c); COk (c, 1) else COk (c, 2)
  | inr resolv =>
    c ← resolv_conf_lines (file_lines (c_text resolv)) flags c;
    '(c, err) ← lift (if bool_decide (cf_servers c = []) && (flags &? DNS_OPTION_NAMESERVERS)
                      then '(c, _) ← evdns_base_nameserver_ip_add (opt "127.0.0.1") c; Some (c, 6) else Some (c, 0));
    let none := match cf_search c with None => true | Some s => sc_num_domains s =? 0 end in
    COk (if (flags &? DNS_OPTION_SEARCH) && none then search_set_from_hostname c else c, err)
  end.

(** ** Looking names up in the table *)

(** The first entry from here on, and those after it. *)
Fixpoint find_hosts_entry (hostname : bytes) (l : list hosts_entry) : option (hosts_entry * list hosts_entry) :=
  match l with
  | [] => None
  | e :: l => if evutil_ascii_strcasecmp (he_hostname e) hostname =? 0 then Some (e, l) else find_hosts_entry hostname l
  end.

(** The number of entries and the answers; [None] is that memory is missing.  The port
    is set in the first element that is made for an entry. *)
Fixpoint fromhosts_loop (fuel : nat) (nodename : bytes) (l : list hosts_entry) (hints : hints_t) (port : Z) (n_found : Z) (ai : list evutil_addrinfo) (k : nat)
    : option (option (Z * list evutil_addrinfo)) :=
  match fuel with
  | O => None
  | S fuel =>
    match find_hosts_entry nodename l with
    | None => Some (Some (n_found, ai))
    | Some (e, l) =>
      let f := h_family hints in
      if ((sa_family (he_addr e) =? AF_INET) && (f =? PF_INET6)) || ((sa_family (he_addr e) =? AF_INET6) && (f =? PF_INET))
      then fromhosts_loop fuel nodename l hints port (n_found + 1) ai k
      else
        match evutil_new_addrinfo_ mem k (he_addr e) (he_addrlen e) hints with
        | None => Some None
        | Some new =>
          let new := match new with
                     | a :: rest => mk_ai (ai_flags a) (ai_family a) (ai_socktype a) (ai_protocol a) (sockaddr_setport port (ai_addr a)) (ai_addrlen a) :: rest
                     | [] => []
                     end in
          fromhosts_loop fuel nodename l hints port (n_found + 1) (evutil_addrinfo_append_ ai new) (k + 2)
        end
    end
  end.

(** The result, the answers, and whether the lock of the base is released. *)
Definition evdns_getaddrinfo_fromhosts (nodename : bytes) (hints : hints_t) (port : Z) (c : dns_conf) : option (Z * list evutil_addrinfo * bool) :=
  r ← fromhosts_loop (S (length (cf_hostsdb c))) nodename (cf_hostsdb c) hints port 0 [] (cf_allocs c);
  Some match r with
       | None => (-1, [], false)
       | Some (n_found, ai) => if negb (n_found =? 0) then (0, ai, true) else (-1, [], true)
       end.
End config.
