(* ===== verification/DnsConfigProps.v ===== *)
(** * What configuration files do *)

From stdpp Require Import gmap.
From Stdlib Require Import QArith Qround Qabs Qpower Lqa.
From S2P Require Import Prelude TimeVal Clib Util Inet InetProps Addrinfo DnsConfig.
Open Scope Z_scope.

(** ** Words *)

Lemma span_all p (s : bytes) : Forall (λ c, p c = true) s → span p s = (s, []).
Proof. induction 1 as [|c s Hc _ IH]; [done|]. cbn [span]. by rewrite Hc, IH. Qed.

(** A word between blanks is the next one. *)
Lemma strtok_word bl tok rest : Forall (λ c, is_blank c = true) bl → tok ≠ [] → Forall (λ c, is_blank c = false) tok →
  (rest = [] ∨ ∃ c r, rest = c :: r ∧ is_blank c = true) → strtok_r (bl ++ tok ++ rest) = Some (tok, drop 1 rest).
Proof.
  intros Hbl Hne Htok Hrest. unfold strtok_r. destruct tok as [|t tok]; [done|]. rewrite (span_stop is_blank bl); [|done|].
  2: { intros c s' [= <- _]. by inversion Htok. }
  cbn [snd app]. rewrite app_comm_cons. rewrite (span_stop (λ c, negb (is_blank c)) (t :: tok) rest); [done| |].
  - eapply Forall_impl; [exact Htok|]. intros c ->. done.
  - intros c' s' ->. destruct Hrest as [?|(c & r & [= -> ->] & Hc)]; [done|]. by rewrite Hc.
Qed.

Lemma strtok_blanks bl : Forall (λ c, is_blank c = true) bl → strtok_r bl = None.
Proof. intros Hbl. unfold strtok_r. by rewrite span_all. Qed.

Lemma strtok_shorter s tok rest : strtok_r s = Some (tok, rest) → (length rest < length s)%nat.
Proof.
  unfold strtok_r. destruct (span is_blank s) as [b u] eqn:E. pose proof (span_split is_blank s) as Hs. rewrite E in Hs. cbn [fst snd] in *. destruct u as [|x u]; [done|].
  destruct (span (λ c, negb (is_blank c)) (x :: u)) as [t r] eqn:E2. pose proof (span_split (λ c, negb (is_blank c)) (x :: u)) as Hs2. rewrite E2 in Hs2. cbn [fst snd] in *.
  intros [= <- <-]. rewrite <- Hs, length_app, <- Hs2, length_app, length_drop. destruct t as [|y t]; [|cbn; lia]. destruct r; [done|]. cbn. lia.
Qed.

(** ** The options stay in range *)

(** At least a millisecond. *)
Definition tv_ok (tv : timeval) : Prop := 0 <= tv_sec tv <= INT_MAX ∧ 0 <= tv_usec tv < 1000000 ∧ 1000 <= tv_sec tv * 1000000 + tv_usec tv.

(** No two nameservers have the same address and port. *)
Definition other_server (a b : sockaddr * Z) : Prop := evutil_sockaddr_cmp (fst a) (fst b) true ≠ 0.
Definition distinct (l : list (sockaddr * Z)) : Prop := ForallOrdPairs other_server l.

Record conf_ok (c : dns_conf) : Prop := {
  ok_timeout : tv_ok (cf_timeout c);
  ok_skew : tv_ok (cf_allow_skew c);
  ok_probe : tv_ok (cf_probe_initial_timeout c) ∧ tv_sec (cf_probe_initial_timeout c) <= 3600;
  ok_timeouts : 1 <= cf_max_nameserver_timeout c <= 255;
  ok_inflight : 1 <= cf_max_requests_inflight c <= 65000;
  ok_retransmits : cf_max_retransmits c <= 255;
  ok_servers : distinct (cf_servers c) ∧ cf_good_nameservers c = Z.of_nat (length (cf_servers c));
  ok_domains : match cf_search c with Some s => sc_num_domains s = Z.of_nat (length (sc_domains s)) | None => True end
}.

Lemma clipped_range s lo hi : lo <= hi → strtoint_clipped s lo hi = -1 ∨ lo <= strtoint_clipped s lo hi <= hi.
Proof.
  intros Hle. unfold strtoint_clipped. destruct (Z.eqb_spec (strtoint s) (-1)); [by left|right]. destruct (Z.ltb_spec (strtoint s) lo); [lia|]. destruct (Z.ltb_spec hi (strtoint s)); lia.
Qed.

Lemma parse_sockaddr_total s n : ∃ r out, evutil_parse_sockaddr_port s n = Some (r, out) ∧ (r = -1 ∧ out = None ∨ r = 0 ∧ ∃ sa len, out = Some (sa, len) ∧ len <= sizeof_sin6).
Proof.
  unfold evutil_parse_sockaddr_port. destruct (split_sockaddr s) as [[[v6 a] p]|]; [|by eexists _, _; split; [done|left]]. destruct (parse_port p) as [port|]; [|by eexists _, _; split; [done|left]].
  destruct (inet_pton_safe (if v6 then AF_INET6 else AF_INET) a) as (r & x & -> & Hx & Hn & _). cbn [mbind option_bind]. destruct (Z.eqb_spec r 1) as [->|Hr]; cbn [negb]; [|by eexists _, _; split; [done|left]].
  destruct (Hx eq_refl) as (y & -> & _ & Hv). destruct y as [y|y|y]; [| |done].
  - destruct (n <? sizeof_sin); eexists _, _; (split; [done|]); [by left|right]. split; [done|]. eexists _, _. by split; [done|].
  - destruct (n <? sizeof_sin6); eexists _, _; (split; [done|]); [by left|right]. split; [done|]. eexists _, _. by split; [done|].
Qed.

(** *** Doubles *)

(** The finite values of a double: 53 bits and an exponent. *)
Definition is_double (x : Q) : Prop := ∃ m e, Z.abs m < 2 ^ 53 ∧ -1074 <= e <= 971 ∧ (x == inject_Z m * Qpower 2 e)%Q.
(** No double is nearer to a number in their range than its rounding. *)
Definition rounds_to_nearest (rd : Q → Q) : Prop :=
  ∀ x y, (Qabs x <= Qpower 2 1023)%Q → is_double y → (Qabs (rd x - x) <= Qabs (y - x))%Q.

(** A double is an integer, or a fraction with a power of two below. *)
Lemma double_cases d : is_double d → (∃ z, d == inject_Z z)%Q ∨ ∃ m k, Z.abs m < 2 ^ 53 ∧ (d == m # 2 ^ k)%Q.
Proof.
  intros (m & e & Hm & _ & Ed). setoid_rewrite Ed. clear d Ed. destruct e as [|p|p].
  - left. exists m. cbn. ring.
  - left. exists (m * 2 ^ Z.pos p). rewrite inject_Z_mult. apply Qmult_comp; [reflexivity|]. rewrite Zpower_Qpower by lia. reflexivity.
  - right. exists m, p. split; [done|]. rewrite (Qpower_decomp_neg_pos p 2 1). unfold Qeq, Qmult, inject_Z. cbn [Qnum Qden].
    rewrite (Z.pow_1_l (Z.pos p)) by lia. lia.
Qed.

(** The fraction of a double is not nearer to 1 than half a unit in the last place. *)
Lemma double_fraction d : is_double d → (0 <= d)%Q → (0 <= d - inject_Z (Qfloor d) <= 1 - (1 # 2 ^ 53))%Q.
Proof.
  intros [(z & Ed)|(m & k & Hm & Ed)]%double_cases; rewrite (Qfloor_comp _ _ Ed), Ed; intros H0; clear d Ed.
  { rewrite Qfloor_Z. setoid_rewrite Qplus_opp_r. split; [apply Qle_refl|]. unfold Qle. cbn. lia. }
  set (P := (2 ^ k)%positive) in *.
  assert (Hm0 : 0 <= m) by (unfold Qle in H0; cbn in H0; lia). assert (Ef : (m # P) - inject_Z (Qfloor (m # P)) == (m mod Z.pos P # P)).
  { cbn [Qfloor]. unfold Qeq, Qminus, Qplus, Qopp, inject_Z. cbn [Qnum Qden]. pose proof (Z.div_mod m (Z.pos P)). nia. }
  rewrite Ef. pose proof (Z.mod_pos_bound m (Z.pos P) ltac:(lia)) as Hr. assert (Hr2 : m mod Z.pos P < 2 ^ 53) by (pose proof (Z.mod_le m (Z.pos P)); lia).
  split; [unfold Qle; cbn [Qnum Qden]; lia|]. change (1 - (1 # 2 ^ 53))%Q with (2 ^ 53 - 1 # 2 ^ 53)%Q. unfold Qle. cbn [Qnum Qden]. change (Z.pos (2 ^ 53)) with (2 ^ 53).
  generalize (m mod Z.pos P), Hr, Hr2. intros r Hr' Hr2'. destruct (Z.le_gt_cases (Z.pos P) (2 ^ 53)); nia.
Qed.

Lemma rounded_micros rd f : rounds_to_nearest rd → (0 <= f <= 1 - (1 # 2 ^ 53))%Q → 0 <= Qfloor (rd (f * inject_Z 1000000)%Q) < 1000000.
Proof.
  intros Hrd [H0 H1]. change (1 # 2 ^ 53)%Q with (1 # 9007199254740992)%Q in H1. set (x := (f * inject_Z 1000000)%Q). assert (Hx : (0 <= x <= 1000000 - (1000000 # 9007199254740992))%Q) by (unfold x; change (inject_Z 1000000) with 1000000%Q; lra).
  assert (Hrange : (Qabs x <= Qpower 2 1023)%Q) by (rewrite Qabs_pos by apply Hx; eapply Qle_trans; [apply Hx|by vm_compute]).
  assert (Hz : (Qabs (rd x - x) <= x)%Q). { eapply Qle_trans; [apply (Hrd x 0%Q); [exact Hrange|by exists 0, 0]|]. rewrite Qabs_neg by lra. lra. }
  apply Qabs_Qle_condition in Hz. assert (Hy : (Qabs (rd x - x) <= Qabs ((8589934591999999 # 8589934592) - x))%Q) by (apply Hrd; [exact Hrange|by exists 8589934591999999, (-33)]).
  assert (Hlt : (rd x < 1000000)%Q). { revert Hy. apply (Qabs_case _ (λ y, (Qabs (rd x - x) <= y)%Q → (rd x < 1000000)%Q)); intros Hs Hy; apply Qabs_Qle_condition in Hy; lra. }
  split; [change 0 with (Qfloor 0); apply Qfloor_resp_le; lra|]. rewrite Zlt_Qlt. eapply Qle_lt_trans; [apply Qfloor_le|exact Hlt].
Qed.

Section config.
Context (mem : nat → bool) (strtod : bytes → double * bytes) (rd : Q → Q) (gethostname : option bytes) (os_socket os_bind os_event_add : nat → bool) (disable_when_inactive : bool).
Context (mem_ok : ∀ k, mem k = true) (strtod_double : ∀ s q r, strtod s = (d_finite q, r) → is_double q) (rd_nearest : rounds_to_nearest rd).

(** A text whose value is not negative and has no integral part that is an int. *)
Definition no_int (s : bytes) : Prop :=
  match strtod s with (d_finite d, []) => INT_MAX < Qfloor d | (d_infinite false, []) => True | (d_nan, []) => True | _ => False end.

(** The result is as told, or the text of a number is undefined behaviour. *)
Definition good {A} (P : A → Prop) (m : cres A) : Prop := match m with COk a => P a | CUndef s => no_int s | CFault => False end.

Lemma good_bind {A B} (P : A → Prop) (P' : B → Prop) m (f : A → cres B) : good P m → (∀ a, P a → good P' (f a)) → good P' (m ≫= f).
Proof. destruct m; cbn; auto. Qed.
Lemma good_lift {A} (P : A → Prop) m a : m = Some a → P a → good P (lift m).
Proof. by intros ->. Qed.

Abbreviation ok_fst := (λ p : dns_conf * Z, conf_ok (fst p)).
Abbreviation nameserver_ip_add := (evdns_base_nameserver_ip_add mem os_socket os_bind os_event_add disable_when_inactive).
Abbreviation set_option_impl := (evdns_base_set_option_impl mem strtod rd).

Lemma strtotimeval_ok s : good (λ o, match o with Some tv => tv_ok tv | None => True end) (evdns_strtotimeval strtod rd s).
Proof.
  unfold evdns_strtotimeval. pose proof (strtod_double s) as Hd. destruct (strtod s) as [d rest] eqn:Es. destruct rest; [|by destruct d as [| []|]].
  destruct d as [d|[]|]; [|done|unfold good, no_int; by rewrite Es|unfold good, no_int; by rewrite Es]. destruct (Qle_bool 0 d) eqn:Ed; cbn [negb]; [|done].
  destruct (Z.ltb_spec INT_MAX (Qfloor d)); [unfold good, no_int; by rewrite Es|]. apply Qle_bool_iff in Ed. assert (H0 : 0 <= Qfloor d) by (change 0 with (Qfloor 0); by apply Qfloor_resp_le).
  pose proof (rounded_micros rd _ rd_nearest (double_fraction d (Hd d [] eq_refl) Ed)) as Hu. set (u := Qfloor (rd _)) in *.
  destruct ((Qfloor d =? 0) && (u <? 1000)) eqn:E; [done|]. unfold good, tv_ok. cbn [tv_sec tv_usec]. split; [lia|]. split; [done|].
  apply andb_false_iff in E as [?%Z.eqb_neq|?%Z.ltb_ge]; lia.
Qed.

(** *** Search domains *)

Lemma search_clear_ok c : conf_ok c → conf_ok (search_postfix_clear mem c) ∧ cf_search (search_postfix_clear mem c) = Some (mk_search_conf 1 0 []) ∧ cf_servers (search_postfix_clear mem c) = cf_servers c.
Proof. intros []. unfold search_postfix_clear, search_state_new, allocate. rewrite mem_ok. split; [|done]. by split. Qed.

Lemma ensure_search_ok c : conf_ok c → conf_ok (ensure_search mem c) ∧ ∃ s, cf_search (ensure_search mem c) = Some s ∧ sc_domains s = match cf_search c with Some s => sc_domains s | None => [] end ∧
  cf_servers (ensure_search mem c) = cf_servers c.
Proof.
  intros Hc. unfold ensure_search. destruct (cf_search c) as [s|] eqn:Es; [split; [done|]; by exists s|]. destruct Hc. unfold search_state_new, allocate. rewrite mem_ok. split; [by split|]. by eexists.
Qed.

Lemma search_add_ok d c : conf_ok c → conf_ok (search_postfix_add mem d c) ∧ cf_servers (search_postfix_add mem d c) = cf_servers c ∧
  ∃ s, cf_search (search_postfix_add mem d c) = Some s ∧ sc_domains s = skip_dots d :: match cf_search c with Some s => sc_domains s | None => [] end.
Proof.
  intros Hc. unfold search_postfix_add. destruct (ensure_search_ok c Hc) as (Hc1 & s & Es & Hd & Hsv). rewrite Es. unfold allocate. rewrite mem_ok.
  pose proof (ok_domains _ Hc1) as Hn. rewrite Es in Hn. split; [|split; [done|]; eexists; split; [done|]; cbn; by rewrite Hd]. destruct Hc1. split; cbn; try done. rewrite Hn. lia.
Qed.

Lemma search_reverse_ok c : conf_ok c → is_Some (cf_search c) → ∃ c', search_reverse c = Some c' ∧ conf_ok c'.
Proof.
  intros Hc [s Es]. unfold search_reverse. rewrite Es. cbn [mbind option_bind]. eexists. split; [done|]. pose proof (ok_domains _ Hc) as Hn. rewrite Es in Hn. destruct Hc. split; cbn; try done.
  by rewrite length_rev.
Qed.

Lemma search_words_ok fuel : ∀ s c, (length s < fuel)%nat → conf_ok c → is_Some (cf_search c) → ∃ c', search_words mem fuel s c = Some c' ∧ conf_ok c' ∧ is_Some (cf_search c').
Proof.
  induction fuel as [|fuel IH]; intros s c Hl Hc Hs; [lia|]. cbn [search_words]. destruct (strtok_r s) as [[d r]|] eqn:E; [|by exists c]. apply strtok_shorter in E.
  destruct (search_add_ok d c Hc) as (Hc1 & _ & s1 & Es & _). apply IH; [lia|done|by exists s1].
Qed.

Lemma from_hostname_ok c : conf_ok c → conf_ok (search_set_from_hostname mem gethostname c).
Proof.
  intros Hc. unfold search_set_from_hostname. destruct (search_clear_ok c Hc) as (Hc1 & _). destruct gethostname as [h|]; [|done]. destruct (strchr 46 h); [|done]. by apply search_add_ok.
Qed.

(** *** Nameservers *)

Lemma memcmp_sym a : ∀ b, memcmp a b = 0 → memcmp b a = 0.
Proof. induction a as [|x a IH]; intros [|y b]; cbn; try done. rewrite (Z.eqb_sym y x). destruct (Z.eqb_spec x y); [apply IH|lia]. Qed.

Lemma sockaddr_cmp_sym a b : evutil_sockaddr_cmp a b true = 0 → evutil_sockaddr_cmp b a true = 0.
Proof.
  unfold evutil_sockaddr_cmp. destruct (Z.eqb_spec (sa_family a - sa_family b) 0) as [E|E]; cbn [negb]; [|lia]. rewrite (proj2 (Z.eqb_eq (sa_family b - sa_family a) 0)) by lia. cbn [negb].
  destruct a as [a|a|a], b as [b|b|b]; try done.
  - destruct (Z.ltb_spec (sin_addr a) (sin_addr b)); [done|]. destruct (Z.ltb_spec (sin_addr b) (sin_addr a)); [done|]. lia.
  - destruct (Z.eqb_spec (memcmp (sin6_addr a) (sin6_addr b)) 0) as [Em|Em]; cbn [negb]; [|done]. rewrite (memcmp_sym _ _ Em). cbn [Z.eqb negb]. lia.
Qed.

(** The new one is behind the head. *)
Lemma distinct_insert ns l : distinct l → Forall (λ s, other_server s ns) l → distinct (match l with [] => [ns] | x :: l => x :: ns :: l end).
Proof.
  intros Hl Hn. destruct Hl as [|x l Hx Hl]; [by repeat constructor|]. inversion Hn as [|? ? Hxn Hn']; subst. constructor; [by constructor|]. constructor; [|done].
  eapply Forall_impl; [exact Hn'|]. intros s Hs E. by apply Hs, sockaddr_cmp_sym.
Qed.

Lemma nameserver_add_impl_ok sa len c : conf_ok c → ok_fst (evdns_nameserver_add_impl_ mem os_socket os_bind os_event_add disable_when_inactive sa len c).
Proof.
  intros Hc. unfold evdns_nameserver_add_impl_. destruct (existsb _ _) eqn:Ex; [done|]. destruct (_ <? len); [done|]. unfold allocate. rewrite mem_ok. cbn [negb].
  assert (Hc1 : conf_ok (count_alloc c)) by (destruct Hc; by split). destruct (negb (os_socket _)); [done|]. match goal with |- context [if ?b then (_, 2) else _] => destruct b; [done|] end. destruct (_ && _); [done|].
  destruct Hc as [? ? ? ? ? ? [Hd Hg] ?]. split; try done. cbn [fst cf_servers set_servers set_good_nameservers cf_good_nameservers count_alloc]. split.
  - apply distinct_insert; [done|]. apply Forall_forall. intros s Hs E. apply not_true_iff_false in Ex. apply Ex, existsb_exists. exists s. split; [by apply list_elem_of_In|]. cbn in E. by rewrite E.
  - rewrite Hg. destruct (cf_servers c); cbn [length]; lia.
Qed.

Lemma nameserver_add_ok ip c : conf_ok c → ∃ p, nameserver_ip_add ip c = Some p ∧ ok_fst p.
Proof.
  intros Hc. unfold evdns_base_nameserver_ip_add. destruct (parse_sockaddr_total ip sizeof_storage) as (r & out & -> & [[-> _]|[-> (sa & len & -> & _)]]); cbn [mbind option_bind Z.eqb negb]; eexists; (split; [done|]); [done|].
  by apply nameserver_add_impl_ok.
Qed.

(** *** Options *)

Ltac option_case := match goal with
  | |- context [if str_matches_option ?o ?n then _ else _] => destruct (str_matches_option o n)
  end.
Ltac option_guard := match goal with
  | |- context [if negb (?f &? ?m) then _ else _] => destruct (f &? m); cbn [negb]
  end.

(** A time option; what it sets is in range. *)
Lemma timed_option v c (f : timeval → cres (dns_conf * Z)) : conf_ok c → (∀ tv, tv_ok tv → good ok_fst (f tv)) →
  good ok_fst (tv ← evdns_strtotimeval strtod rd v; match tv with None => COk (c, -1) | Some tv => f tv end).
Proof. intros Hc Hf. eapply good_bind; [apply strtotimeval_ok|]. intros [tv|] Htv; [by apply Hf|done]. Qed.

Lemma set_option_ok o v flags c : conf_ok c → good ok_fst (set_option_impl o v flags c).
Proof.
  intros Hc. unfold evdns_base_set_option_impl.
  option_case.
  { destruct (strtoint v =? -1); [done|]. option_guard; [|done]. destruct (ensure_search_ok c Hc) as (Hc1 & s & Es & _). rewrite Es.
    pose proof (ok_domains _ Hc1) as Hn. rewrite Es in Hn. destruct Hc1. by split. }
  option_case; [|option_case].
  1,2: apply timed_option; [done|]; intros tv Htv; option_guard; [|done]; destruct Hc; by split.
  option_case.
  { destruct (clipped_range v 1 255 ltac:(lia)) as [E|E]; [by rewrite E|]. rewrite (proj2 (Z.eqb_neq _ _)) by lia. option_guard; [|done]. destruct Hc. by split. }
  option_case.
  { destruct (clipped_range v 1 65000 ltac:(lia)) as [E|E]; [by rewrite E|]. rewrite (proj2 (Z.eqb_neq _ _)) by lia. option_guard; [|done]. unfold allocate. rewrite mem_ok. destruct Hc. by split. }
  option_case.
  { destruct (strtoint v =? -1); [done|]. option_guard; [|done]. destruct Hc. split; cbn; try done. destruct (Z.ltb_spec 255 (strtoint v)); lia. }
  option_case.
  { option_guard; [|done]. destruct Hc. by split. }
  option_case.
  { option_guard; [|done]. destruct (parse_sockaddr_total v sizeof_storage) as (r & out & -> & [[-> _]|[-> _]]); cbn; [done|]. destruct Hc. by split. }
  option_case; [|done]. apply timed_option; [done|]. intros tv Htv. option_guard; [|done].
  destruct Hc. split; cbn; try done. unfold tv_ok in *. destruct (Z.ltb_spec 3600 (tv_sec tv)); cbn [tv_sec tv_usec]; lia.
Qed.

Lemma option_words_ok fuel : ∀ s flags c, (length s < fuel)%nat → conf_ok c → good conf_ok (option_words mem strtod rd fuel s flags c).
Proof.
  induction fuel as [|fuel IH]; intros s flags c Hl Hc; [lia|]. cbn [option_words]. destruct (strtok_r s) as [[o r]|] eqn:E; [|done]. apply strtok_shorter in E.
  eapply good_bind; [by apply set_option_ok|]. intros [c1 x] Hc1. apply IH; [lia|done].
Qed.

(** *** Lines and files *)

Lemma resolv_line_ok l flags c : conf_ok c → good conf_ok (resolv_conf_parse_line mem strtod rd os_socket os_bind os_event_add disable_when_inactive l flags c).
Proof.
  intros Hc. unfold resolv_conf_parse_line. destruct (strtok_r l) as [[t s]|]; [|done]. destruct (_ && _).
  { destruct (strtok_r s) as [[ip ?]|]; [|done]. destruct (nameserver_add_ok ip c Hc) as (p & -> & Hp). exact Hp. }
  destruct (search_clear_ok c Hc) as (Hc1 & Es & _). destruct (_ && _).
  { destruct (strtok_r s) as [[d ?]|]; [|done]. by apply search_add_ok. }
  destruct (_ && _).
  { destruct (search_words_ok (S (length s)) s (search_postfix_clear mem c)) as (c2 & -> & Hc2 & Hs2); [lia|done|by eexists|]. cbn [mbind option_bind].
    destruct (search_reverse_ok c2 Hc2 Hs2) as (c3 & -> & Hc3). exact Hc3. }
  destruct (bool_decide _); [|done]. apply option_words_ok; [lia|done].
Qed.

Lemma resolv_lines_ok ls flags : ∀ c, conf_ok c → good conf_ok (resolv_conf_lines mem strtod rd os_socket os_bind os_event_add disable_when_inactive ls flags c).
Proof.
  induction ls as [|l ls IH]; intros c Hc; [done|]. cbn [resolv_conf_lines]. eapply good_bind; [by apply resolv_line_ok|]. intros c1 Hc1. by apply IH.
Qed.

Lemma hosts_words_ok fuel sa len : len <= sizeof_sin6 → ∀ s c, (length s < fuel)%nat → conf_ok c → ∃ c' r, hosts_words mem fuel s sa len c = Some (c', r) ∧ conf_ok c'.
Proof.
  intros Hlen. induction fuel as [|fuel IH]; intros s c Hl Hc; [lia|]. cbn [hosts_words]. destruct (strtok_r s) as [[h s']|] eqn:E; [|by eexists _, _]. apply strtok_shorter in E.
  destruct (bool_decide _); [by eexists _, _|]. unfold allocate. rewrite mem_ok. cbn [negb]. rewrite (evassert_true _ (proj2 (Z.leb_le _ _) Hlen)). cbn [mbind option_bind].
  assert (Hc1 : ∀ e, conf_ok (set_hostsdb (cf_hostsdb (count_alloc c) ++ [e]) (count_alloc c))) by (intros e; destruct Hc; by split). destruct (strchr 35 h); [by eexists _, _|]. apply IH; [lia|done].
Qed.

Lemma hosts_line_ok l c : conf_ok c → ∃ c' r, evdns_base_parse_hosts_line mem l c = Some (c', r) ∧ conf_ok c'.
Proof.
  intros Hc. unfold evdns_base_parse_hosts_line. destruct (strtok_r l) as [[a s]|]; [|by eexists _, _]. destruct (_ =? 35); [by eexists _, _|].
  destruct (parse_sockaddr_total a sizeof_storage) as (r & out & -> & [[-> _]|[-> (sa & len & -> & Hlen)]]); cbn [mbind option_bind Z.ltb Z.compare]; [by eexists _, _|].
  rewrite (proj2 (Z.ltb_ge _ _) Hlen). destruct (negb _); [by eexists _, _|]. by apply hosts_words_ok; [done|lia|].
Qed.

Lemma hosts_lines_ok ls : ∀ c, conf_ok c → ∃ c', hosts_lines mem ls c = Some c' ∧ conf_ok c'.
Proof.
  induction ls as [|l ls IH]; intros c Hc; [by exists c|]. cbn [hosts_lines]. destruct (hosts_line_ok l c Hc) as (c1 & r & -> & Hc1). cbn [mbind option_bind]. by apply IH.
Qed.

Lemma load_hosts_ok f c : conf_ok c → ∃ c' r, evdns_base_load_hosts_impl mem f c = Some (c', r) ∧ conf_ok c'.
Proof.
  intros Hc. unfold evdns_base_load_hosts_impl. destruct f as [[e|str]|];
    match goal with |- context [hosts_lines mem ?ls c] => destruct (hosts_lines_ok ls c Hc) as (c1 & -> & Hc1) end; cbn [mbind option_bind]; by eexists _, _.
Qed.

Lemma resolv_conf_parse_ok hosts file flags c : conf_ok c →
  good ok_fst (evdns_base_resolv_conf_parse_impl mem strtod rd gethostname os_socket os_bind os_event_add disable_when_inactive hosts file flags c).
Proof.
  intros Hc. unfold evdns_base_resolv_conf_parse_impl. eapply (good_bind conf_ok).
  { destruct (flags &? DNS_OPTION_HOSTSFILE); [|done]. unfold allocate. rewrite mem_ok. destruct (load_hosts_ok (Some hosts) (count_alloc c)) as (c1 & r & -> & Hc1); [destruct Hc; by split|]. exact Hc1. }
  intros c1 Hc1. destruct file as [err|resolv].
  - destruct (err =? -1); [|done]. eapply (good_bind conf_ok); [|done]. unfold evdns_resolv_set_defaults.
    set (c2 := if flags &? DNS_OPTION_SEARCH then _ else _). assert (Hc2 : conf_ok c2) by (unfold c2; destruct (flags &? _); [by apply from_hostname_ok|done]).
    destruct (flags &? DNS_OPTION_NAMESERVERS); [|exact Hc2]. match goal with |- context [nameserver_ip_add ?ip c2] => destruct (nameserver_add_ok ip c2 Hc2) as (p & -> & Hp) end. exact Hp.
  - eapply good_bind; [by apply resolv_lines_ok|]. intros c2 Hc2. eapply (good_bind ok_fst).
    { destruct (_ && _); [|done]. match goal with |- context [nameserver_ip_add ?ip c2] => destruct (nameserver_add_ok ip c2 Hc2) as ([c3 r] & -> & Hp) end. exact Hp. }
    intros [c3 r] Hc3. cbn. destruct (_ && _); [by apply from_hostname_ok|done].
Qed.
End config.
