(* ===== verification/DnsHosts.v ===== *)
(** * Configuration calls stay in range; names are found where the hosts file has them *)

From stdpp Require Import gmap.
From Stdlib Require Import QArith Qround Qabs.
From S2P Require Import Prelude TimeVal Clib Util Inet InetProps Addrinfo DnsConfig DnsConfigProps.
Open Scope Z_scope.

(** ** Any sequence of calls *)

Inductive conf_call :=
| call_set_option (option val : bytes) | call_search_clear | call_search_add (domain : bytes) | call_search_ndots (ndots : Z)
| call_nameserver (address : Z) | call_nameserver_ip (ip : bytes) | call_nameserver_sockaddr (sa : sockaddr) (len : Z) | call_clear_nameservers
| call_load_hosts (file : option (Z + bytes)) | call_clear_hosts | call_resolv_conf (hosts file : Z + bytes) (flags : Z).

Section calls.
Context (mem : nat → bool) (strtod : bytes → double * bytes) (rd : Q → Q) (gethostname : option bytes) (os_socket os_bind os_event_add : nat → bool) (disable_when_inactive : bool).

Definition conf_step (c : dns_conf) (call : conf_call) : cres dns_conf :=
  match call with
  | call_set_option o v => fst <$> evdns_base_set_option mem strtod rd o v c
  | call_search_clear => COk (evdns_base_search_clear mem c)
  | call_search_add d => COk (evdns_base_search_add mem d c)
  | call_search_ndots n => COk (evdns_base_search_ndots_set mem n c)
  | call_nameserver a => COk (fst (evdns_base_nameserver_add mem os_socket os_bind os_event_add disable_when_inactive a c))
  | call_nameserver_ip ip => lift (fst <$> evdns_base_nameserver_ip_add mem os_socket os_bind os_event_add disable_when_inactive ip c)
  | call_nameserver_sockaddr sa len => COk (fst (evdns_base_nameserver_sockaddr_add mem os_socket os_bind os_event_add disable_when_inactive sa len c))
  | call_clear_nameservers => COk (clear_servers c)
  | call_load_hosts f => lift (fst <$> evdns_base_load_hosts_impl mem f c)
  | call_clear_hosts => COk (evdns_base_clear_host_addresses c)
  | call_resolv_conf h f flags => fst <$> evdns_base_resolv_conf_parse_impl mem strtod rd gethostname os_socket os_bind os_event_add disable_when_inactive h f flags c
  end.
Fixpoint conf_run (c : dns_conf) (calls : list conf_call) : cres dns_conf :=
  match calls with
  | [] => COk c
  | x :: calls => c ← conf_step c x; conf_run c calls
  end.

Context (mem_ok : ∀ k, mem k = true) (strtod_double : ∀ s q r, strtod s = (d_finite q, r) → is_double q) (rd_nearest : rounds_to_nearest rd).
Abbreviation good := (good strtod).

Lemma good_fst (m : cres (dns_conf * Z)) : good (λ p, conf_ok (fst p)) m → good conf_ok (fst <$> m).
Proof. by destruct m. Qed.

Lemma conf_step_ok c x : conf_ok c → good conf_ok (conf_step c x).
Proof.
  intros Hc. destruct x as [o v| |d|n|a|ip|sa len| |f| |h f flags]; cbn [conf_step].
  - apply good_fst. by apply set_option_ok.
  - by apply search_clear_ok.
  - by apply search_add_ok.
  - cbn. unfold evdns_base_search_ndots_set. destruct (ensure_search_ok mem mem_ok c Hc) as (Hc1 & s & Es & _). rewrite Es. pose proof (ok_domains _ Hc1) as Hn. rewrite Es in Hn. destruct Hc1. by split.
  - by apply nameserver_add_impl_ok.
  - destruct (nameserver_add_ok mem os_socket os_bind os_event_add disable_when_inactive mem_ok ip c Hc) as (p & -> & Hp). exact Hp.
  - by apply nameserver_add_impl_ok.
  - unfold clear_servers. destruct (cf_servers c); [done|]. destruct Hc. split; try done. split; [constructor|done].
  - destruct (load_hosts_ok mem mem_ok f c Hc) as (c' & r & -> & Hc'). exact Hc'.
  - destruct Hc. by split.
  - apply good_fst. by apply resolv_conf_parse_ok.
Qed.

Lemma conf_new_ok : conf_ok dns_conf_new.
Proof. by split; try done; split; [constructor|]. Qed.

(** C30. Whatever the bytes of resolv.conf and hosts files and the texts of options are,
    no sequence of configuration calls on a new base follows a NULL pointer or fails an
    assertion while there is memory.  When they return, the options that the code bounds are
    within their bounds: timeouts are at
    least a millisecond with less than a million microseconds, the initial probe at most an
    hour (and a fraction), nameservers are given up after 1 to 255 timeouts, 1 to 65000
    requests are in flight, there are at most 255 retransmissions (the number may be
    negative, which the code does not check); no two nameservers have
    the same address and port and all are counted, and the number of search domains is that of the
    list.  The only way not to return is a text of a time that is a number with no int as
    its integral part, whose conversion is undefined.  What is taken from the floating-point
    arithmetic is that finite results of strtod are doubles and that products are rounded
    to the nearest double. *)
Theorem dns_config_in_range calls :
  match conf_run dns_conf_new calls with COk c => conf_ok c | CUndef s => no_int strtod s | CFault => False end.
Proof.
  change (good conf_ok (conf_run dns_conf_new calls)). generalize dns_conf_new, conf_new_ok. induction calls as [|x calls IH]; intros c Hc; [done|]. cbn [conf_run].
  eapply good_bind; [by apply conf_step_ok|exact IH].
Qed.
End calls.

(** ** The lines of a hosts file *)

(** Blanks, an address, names each after some blanks, and a rest that is blank or a
    comment after blanks; or a line without an address. *)
Inductive hosts_line := line_entry (pre addr : bytes) (names : list (bytes * bytes)) (tail : bytes) | line_other (text : bytes).

Fixpoint words_text (names : list (bytes * bytes)) (tail : bytes) : bytes :=
  match names with [] => tail | (sep, n) :: names => sep ++ n ++ words_text names tail end.
Definition line_text (l : hosts_line) : bytes :=
  match l with line_entry pre addr names tail => pre ++ addr ++ words_text names tail | line_other text => text end.
Fixpoint file_text (ls : list bytes) : bytes :=
  match ls with [] => [] | [l] => l | l :: ls => l ++ 10 :: file_text ls end.

Definition blanks (s : bytes) : Prop := Forall (λ c, is_blank c = true) s.
Definition word_ok (s : bytes) : Prop := s ≠ [] ∧ Forall (λ c, is_blank c = false ∧ c ≠ 35) s.
Definition line_tail_ok (s : bytes) : Prop := blanks s ∨ ∃ b c, s = b ++ 35 :: c ∧ b ≠ [] ∧ blanks b.

(** An address is what the parser of addresses takes as one without a port. *)
Definition line_ok (l : hosts_line) : Prop :=
  match l with
  | line_entry pre addr names tail =>
    blanks pre ∧ word_ok addr ∧ (∃ sa len, evutil_parse_sockaddr_port addr sizeof_storage = Some (0, Some (sa, len)) ∧ sockaddr_getport sa = 0) ∧
    Forall (λ p, fst p ≠ [] ∧ blanks (fst p) ∧ word_ok (snd p)) names ∧ line_tail_ok tail
  | line_other text => blanks text ∨ ∃ b c, text = b ++ 35 :: c ∧ blanks b
  end.

Definition line_entries (l : hosts_line) : list hosts_entry :=
  match l with
  | line_entry _ addr names _ =>
    match evutil_parse_sockaddr_port addr sizeof_storage with
    | Some (_, Some (sa, len)) => (λ p, mk_hosts_entry (snd p) sa len) <$> names
    | _ => []
    end
  | line_other _ => []
  end.

Lemma starts_blank names tail : Forall (λ p, fst p ≠ [] ∧ blanks (fst p) ∧ word_ok (snd p)) names → line_tail_ok tail →
  words_text names tail = [] ∨ ∃ c r, words_text names tail = c :: r ∧ is_blank c = true.
Proof.
  intros Hn Ht. destruct Hn as [|[sep n] names (Hne & Hb & _) _]; cbn [words_text fst] in *.
  - destruct Ht as [Hb|(b & c & -> & Hne & Hb)].
    + destruct Hb as [|x s Hx _]; [by left|right]. eauto.
    + destruct Hb as [|x s Hx _]; [done|right]. cbn. eauto.
  - destruct Hb as [|x s Hx _]; [done|right]. cbn. eauto.
Qed.

Lemma word_not_blank n : word_ok n → Forall (λ c, is_blank c = false) n.
Proof. intros [_ Hn]. eapply Forall_impl; [exact Hn|]. naive_solver. Qed.
Lemma word_no_hash n : word_ok n → strchr 35 n = None.
Proof. intros [_ Hn]. apply strchr_none. intros Hin. rewrite Forall_forall in Hn. by destruct (Hn 35 Hin). Qed.

Lemma strtok_sharp s tok r : strtok_r (s ++ 35 :: r) = tok → blanks s → ∃ t r', tok = Some (35 :: t, r').
Proof.
  intros <- Hs. unfold strtok_r. rewrite (span_stop is_blank s); [|done|by intros c s' [= <- _]]. cbn [snd span]. change (negb (is_blank 35)) with true. cbv iota.
  destruct (span (λ c, negb (is_blank c)) r) as [t r']. by eexists _, _.
Qed.

Lemma drop_blank b r : b ≠ [] → blanks b → ∃ b', drop 1 (b ++ r) = b' ++ r ∧ blanks b'.
Proof. intros Hne Hb. destruct Hb as [|x b _ Hb]; [done|]. cbn. rewrite drop_0. by exists b. Qed.

Section hosts.
Context (mem : nat → bool) (mem_ok : ∀ k, mem k = true).

(** After the address and one blank, each name is an entry. *)
Lemma hosts_words_text sa sl : sl <= sizeof_sin6 → ∀ names tail fuel c, Forall (λ p, fst p ≠ [] ∧ blanks (fst p) ∧ word_ok (snd p)) names → line_tail_ok tail →
  (length (drop 1 (words_text names tail)) < fuel)%nat →
  ∃ c', hosts_words mem fuel (drop 1 (words_text names tail)) sa sl c = Some (c', 0) ∧ cf_hostsdb c' = cf_hostsdb c ++ ((λ p, mk_hosts_entry (snd p) sa sl) <$> names).
Proof.
  intros Hsl names. induction names as [|[sep n] names IH]; intros tail fuel c Hn Ht Hf; destruct fuel as [|fuel]; try lia; cbn [words_text] in *.
  - exists c. split; [|by rewrite app_nil_r]. cbn [hosts_words]. destruct Ht as [Hb|(b & r & -> & Hne & Hb)].
    + by rewrite strtok_blanks by (by apply Forall_drop).
    + destruct (drop_blank b (35 :: r) Hne Hb) as (b' & -> & Hb'). destruct (strtok_sharp b' _ r eq_refl Hb') as (t & r' & ->). done.
  - inversion Hn as [|? ? (Hne & Hb & Hw) Hns]; subst. cbn [fst snd] in *. destruct (drop_blank sep (n ++ words_text names tail) Hne Hb) as (b' & E & Hb'). rewrite E in *. cbn [hosts_words].
    assert (Es : strtok_r (b' ++ n ++ words_text names tail) = Some (n, drop 1 (words_text names tail))) by (apply strtok_word; [done|apply Hw|by apply word_not_blank|by apply starts_blank]).
    rewrite Es, word_no_hash by done. apply strtok_shorter in Es. unfold allocate. rewrite mem_ok. cbn [negb bool_decide]. rewrite (evassert_true _ (proj2 (Z.leb_le _ _) Hsl)). cbn [mbind option_bind].
    destruct (IH tail fuel (set_hostsdb (cf_hostsdb (count_alloc c) ++ [mk_hosts_entry n sa sl]) (count_alloc c)) Hns Ht) as (c' & Er & Ec'); [lia|]. exists c'. split; [exact Er|]. rewrite Ec'. cbn. by rewrite <- app_assoc.
Qed.

Lemma char_at_word n : word_ok n → (char_at n 0 =? 35) = false.
Proof. intros [Hne Hn]. destruct Hn as [|x n [_ Hx] _]; [done|]. cbn. by apply Z.eqb_neq. Qed.

Lemma hosts_line_text l c : line_ok l → ∃ c' r, evdns_base_parse_hosts_line mem (line_text l) c = Some (c', r) ∧ cf_hostsdb c' = cf_hostsdb c ++ line_entries l.
Proof.
  destruct l as [pre addr names tail|text]; cbn [line_ok line_text line_entries]; unfold evdns_base_parse_hosts_line.
  - intros (Hp & Ha & (sa & sl & Epa & Eport) & Hn & Ht). rewrite strtok_word; [|done|apply Ha|by apply word_not_blank|by apply starts_blank]. rewrite char_at_word, Epa by done.
    destruct (parse_sockaddr_total addr sizeof_storage) as (r & out & Epa' & Hout). rewrite Epa in Epa'. injection Epa' as <- <-. destruct Hout as [[? ?]|(_ & sa' & sl' & [= <- <-] & Hsl)]; [done|].
    cbn [mbind option_bind Z.ltb Z.compare]. rewrite (proj2 (Z.ltb_ge _ _) Hsl), Eport. cbn [Z.eqb negb].
    destruct (hosts_words_text sa sl Hsl names tail _ c Hn Ht (Nat.lt_succ_diag_r _)) as (c' & -> & Hc'). by eexists _, _.
  - intros [Hb|(b & r & -> & Hb)].
    + rewrite strtok_blanks by done. eexists _, _. by rewrite app_nil_r.
    + destruct (strtok_sharp b _ r eq_refl Hb) as (t & r' & ->). cbn. eexists _, _. by rewrite app_nil_r.
Qed.

Lemma hosts_lines_text ls : ∀ c, Forall line_ok ls → ∃ c', hosts_lines mem (line_text <$> ls) c = Some c' ∧ cf_hostsdb c' = cf_hostsdb c ++ (ls ≫= line_entries).
Proof.
  induction ls as [|l ls IH]; intros c Hls; [exists c; by rewrite app_nil_r|]. inversion Hls as [|? ? Hl Hls']; subst. cbn [fmap list_fmap hosts_lines].
  destruct (hosts_line_text l c Hl) as (c1 & r & -> & E1). cbn [mbind option_bind]. destruct (IH c1 Hls') as (c' & -> & E'). exists c'. split; [done|]. rewrite E', E1. cbn. by rewrite <- app_assoc.
Qed.

(** *** The lines of a file *)

Lemma lines_text ls : ∀ fuel, ls ≠ [] → Forall (λ l, 10 ∉ l) ls → (length (file_text ls) < fuel)%nat → lines fuel (file_text ls) = ls.
Proof.
  induction ls as [|l ls IH]; intros fuel Hne Hls Hf; [done|]. inversion Hls as [|? ? Hl Hls']; subst. destruct fuel as [|fuel]; [lia|]. destruct ls as [|l2 ls].
  - cbn [file_text lines]. by rewrite strchr_none.
  - change (file_text (l :: l2 :: ls)) with (l ++ 10 :: file_text (l2 :: ls)) in *. cbn [lines]. rewrite strchr_app by done. rewrite take_app_length. f_equal.
    replace (drop (S (length l)) (l ++ 10 :: file_text (l2 :: ls))) with (file_text (l2 :: ls)) by (rewrite drop_app_ge by lia; by replace (S (length l) - length l)%nat with 1%nat by lia).
    apply IH; [done|done|]. rewrite length_app in Hf. cbn [length] in Hf. lia.
Qed.

Lemma file_no_nul ls : Forall (λ l, (0 : Z) ∉ l) ls → 0 ∉ file_text ls.
Proof.
  induction 1 as [|l ls Hl Hls IH]; [apply not_elem_of_nil|]. destruct ls as [|l2 ls]; [done|]. change (file_text (l :: l2 :: ls)) with (l ++ 10 :: file_text (l2 :: ls)).
  rewrite not_elem_of_app, not_elem_of_cons. done.
Qed.

Lemma load_hosts_text ls c : ls ≠ [] → Forall line_ok ls → Forall (λ l, (10 ∉ line_text l) ∧ (0 ∉ line_text l)) ls →
  ∃ c', evdns_base_load_hosts_impl mem (Some (inr (file_text (line_text <$> ls)))) c = Some (c', 0) ∧ cf_hostsdb c' = cf_hostsdb c ++ (ls ≫= line_entries).
Proof.
  intros Hne Hls Ht. cbn [evdns_base_load_hosts_impl]. assert (H0 : 0 ∉ file_text (line_text <$> ls)) by (apply file_no_nul, Forall_fmap; eapply Forall_impl; [exact Ht|]; by intros l [_ ?]).
  rewrite c_text_id by done. unfold file_lines. rewrite lines_text; [| |apply Forall_fmap; eapply Forall_impl; [exact Ht|]; by intros l [? _]|lia].
  2: { destruct ls; [done|by cbn]. }
  destruct (hosts_lines_text ls c Hls) as (c' & -> & E'). by exists c'.
Qed.

(** *** Lookup *)

Definition named (name : bytes) (e : hosts_entry) : bool := evutil_ascii_strcasecmp (he_hostname e) name =? 0.
Definition family_wanted (h : hints_t) (e : hosts_entry) : bool :=
  negb (((sa_family (he_addr e) =? AF_INET) && (h_family h =? PF_INET6)) || ((sa_family (he_addr e) =? AF_INET6) && (h_family h =? PF_INET))).
(** The answers for an entry: one of the type asked for, or one for TCP and one for UDP;
    the port of the latter is not set. *)
Definition entry_answers (h : hints_t) (port : Z) (e : hosts_entry) : list evutil_addrinfo :=
  let answer type protocol addr := mk_ai EVUTIL_AI_LIBEVENT_ALLOCATED (sa_family (he_addr e)) type protocol addr (he_addrlen e) in
  let addr := sockaddr_setport port (he_addr e) in
  if bool_decide (h_socktype h = 0 ∧ h_protocol h = 0)
  then [answer SOCK_STREAM IPPROTO_TCP addr; answer SOCK_DGRAM IPPROTO_UDP (he_addr e)]
  else [answer (h_socktype h) (h_protocol h) addr].
Definition hosts_answers (name : bytes) (h : hints_t) (port : Z) (db : list hosts_entry) : list evutil_addrinfo :=
  filter (λ e, family_wanted h e = true) (filter (λ e, named name e = true) db) ≫= entry_answers h port.

Lemma find_entry_spec name l : match find_hosts_entry name l with
  | Some (e, r) => (∃ pre, l = pre ++ e :: r ∧ Forall (λ e, named name e = false) pre) ∧ named name e = true
  | None => Forall (λ e, named name e = false) l
  end.
Proof.
  induction l as [|e l IH]; [by constructor|]. cbn [find_hosts_entry]. change (evutil_ascii_strcasecmp (he_hostname e) name =? 0) with (named name e). destruct (named name e) eqn:E; [split; [by exists []|done]|].
  destruct (find_hosts_entry name l) as [[e' r]|]; [|by constructor]. destruct IH as ((pre & -> & Hpre) & He). split; [|done]. exists (e :: pre). split; [done|by constructor].
Qed.

Lemma filter_all_false {A} (p : A → bool) l : Forall (λ x, p x = false) l → filter (λ x, p x = true) l = [].
Proof. induction 1 as [|x l Hx _ IH]; [done|]. rewrite filter_cons_False by (by rewrite Hx). done. Qed.

Lemma new_entry k h port e : ∃ a r, evutil_new_addrinfo_ mem k (he_addr e) (he_addrlen e) h = Some (a :: r) ∧
  mk_ai (ai_flags a) (ai_family a) (ai_socktype a) (ai_protocol a) (sockaddr_setport port (ai_addr a)) (ai_addrlen a) :: r = entry_answers h port e.
Proof.
  unfold evutil_new_addrinfo_, new_one, entry_answers. rewrite !mem_ok. cbn [mbind option_bind]. cbv zeta.
  destruct (Z.eqb_spec (h_socktype h) 0) as [H1|H1], (Z.eqb_spec (h_protocol h) 0) as [H2|H2]; cbn [andb];
    first [rewrite bool_decide_eq_true_2 by done|rewrite bool_decide_eq_false_2 by tauto]; eexists _, _; split; reflexivity.
Qed.

Lemma fromhosts_spec name h port fuel : ∀ l n ai k, (length l < fuel)%nat →
  fromhosts_loop mem fuel name l h port n ai k =
  Some (Some (n + Z.of_nat (length (filter (λ e, named name e = true) l)), ai ++ hosts_answers name h port l)).
Proof.
  induction fuel as [|fuel IH]; intros l n ai k Hf; [lia|]. cbn [fromhosts_loop]. pose proof (find_entry_spec name l) as Hs. unfold hosts_answers. destruct (find_hosts_entry name l) as [[e r]|].
  - destruct Hs as ((pre & -> & Hpre) & He). rewrite length_app in Hf. cbn [length] in Hf. rewrite !filter_app, (filter_all_false _ pre Hpre), !filter_cons_True by done. cbn [app length]. destruct (family_wanted h e) eqn:Ef.
    + rewrite filter_cons_True by done. unfold family_wanted in Ef. apply negb_true_iff in Ef. rewrite Ef. destruct (new_entry k h port e) as (a & rs & -> & Ea). rewrite Ea.
      rewrite IH by lia. unfold evutil_addrinfo_append_, hosts_answers. cbn [mbind list_bind]. rewrite <- app_assoc. do 3 f_equal. lia.
    + rewrite filter_cons_False by (by rewrite Ef). unfold family_wanted in Ef. apply negb_false_iff in Ef. rewrite Ef, IH by lia. unfold hosts_answers. do 3 f_equal. lia.
  - rewrite (filter_all_false _ l Hs), filter_nil. cbn. rewrite app_nil_r. do 3 f_equal. lia.
Qed.

(** C31. A hosts file whose lines are made of blanks, an address, names and comments is read so
    that a name is found exactly where the file has it: after loading the file in a base,
    while there is memory,
    asking for a name in any case gives, in the order of the file, every address the file
    (after what the base had) gives that name and the hints allow; an empty answer is a
    success when the name has addresses of the other family
    only, and a name that is nowhere is an error.  Each address is answered once with the
    port asked for, for the type and protocol of the hints; with neither of them it is
    answered for TCP with the port and for UDP with the port of the file, which is 0. *)
Theorem hosts_file_lookup ls c name h port : ls ≠ [] → Forall line_ok ls → Forall (λ l, (10 ∉ line_text l) ∧ (0 ∉ line_text l)) ls →
  ∃ c', evdns_base_load_hosts_impl mem (Some (inr (file_text (line_text <$> ls)))) c = Some (c', 0) ∧
  let db := cf_hostsdb c ++ (ls ≫= line_entries) in
  evdns_getaddrinfo_fromhosts mem name h port c' =
  Some (if existsb (named name) db then (0, hosts_answers name h port db, true) else (-1, [], true)).
Proof.
  intros Hne Hls Ht. destruct (load_hosts_text ls c Hne Hls Ht) as (c' & E & Edb). exists c'. split; [done|]. unfold evdns_getaddrinfo_fromhosts. rewrite fromhosts_spec by lia. cbn [mbind option_bind]. rewrite Edb.
  set (db := cf_hostsdb c ++ (ls ≫= line_entries)). cbn zeta. f_equal. destruct (existsb (named name) db) eqn:Ex.
  - apply existsb_exists in Ex as (e & Hin & He). assert (Hin' : e ∈ filter (λ e, named name e = true) db) by (apply list_elem_of_filter; split; [done|by apply list_elem_of_In]).
    destruct (filter _ db) as [|x fl]; [by apply not_elem_of_nil in Hin'|]. rewrite (proj2 (Z.eqb_neq _ _)) by (cbn; lia). done.
  - assert (Hf : Forall (λ e, named name e = false) db). { apply Forall_forall. intros e He. apply not_true_iff_false. intros Hs. apply not_true_iff_false in Ex. apply Ex, existsb_exists. exists e. split; [by apply list_elem_of_In|done]. }
    by rewrite (filter_all_false _ db Hf).
Qed.
End hosts.

(** * Concrete files and calls *)

(** A strtod that reads numbers in base ten, with or without a part after the dot, to 20
    binary places. *)
Definition decimal (s : bytes) : double * bytes :=
  let '(n, r) := strtol 10 s in
  let n := i32 n in
  if char_at r 0 =? 46 then
    let r' := drop 1 r in
    let '(f, r'') := strtol 10 r' in
    let scale := 10 ^ Z.of_nat (length r' - length r'') in
    if (0 <=? f) && (f <? scale) then (d_finite (n * 2 ^ 20 + f * 2 ^ 20 / scale # 2 ^ 20), r'') else (d_finite (n * 2 ^ 20 # 2 ^ 20), r)
  else (d_finite (n * 2 ^ 20 # 2 ^ 20), r).
Definition each_time (_ : nat) : bool := true.
Definition exact (q : Q) : Q := q.

Lemma decimal_double s q r : decimal s = (d_finite q, r) → is_double q.
Proof.
  assert (Hn : ∀ n x, 0 <= x < 2 ^ 20 → is_double (i32 n * 2 ^ 20 + x # 2 ^ 20)).
  { intros n x Hx. exists (i32 n * 2 ^ 20 + x), (-20). split; [|split; [lia|]]; cycle 1. { assert (E : (Qpower 2 (-20) == 1 # 1048576)%Q) by reflexivity. rewrite E. unfold Qeq, Qmult, inject_Z. cbn [Qnum Qden]. lia. }
    unfold swrap. pose proof (Z.mod_pos_bound (n + 2 ^ (32 - 1)) (2 ^ 32)). lia. }
  assert (Hn0 : ∀ n, is_double (i32 n * 2 ^ 20 # 2 ^ 20)) by (intros n; replace (i32 n * 2 ^ 20) with (i32 n * 2 ^ 20 + 0) by lia; by apply Hn).
  unfold decimal. destruct (strtol 10 s) as [n t]. destruct (char_at t 0 =? 46); [|by intros [= <- _]]. cbv zeta. destruct (strtol 10 (drop 1 t)) as [f u].
  destruct (_ && _) eqn:E; [|by intros [= <- _]]. apply andb_true_iff in E as [?%Z.leb_le ?%Z.ltb_lt]. intros [= <- _]. apply Hn. split; [apply Z.div_pos; lia|]. apply Z.div_lt_upper_bound; nia.
Qed.

Lemma exact_nearest : rounds_to_nearest exact.
Proof. intros x y _ _. unfold exact. assert (E : (x - x == 0)%Q) by ring. rewrite E. apply Qabs_nonneg. Qed.

Abbreviation txt s := (bytes_of_string s).

(** ** Calls *)

Definition resolv_file : bytes :=
  file_text [txt "# a comment"; txt "nameserver 10.0.0.1"; txt "nameserver	[::1]:5353"; txt "options timeout:2.5 attempts:300 max-timeouts:0 ndots:2"; txt "search one.example .two.example"; txt "bogus"].
Definition example_calls : list conf_call :=
  [call_resolv_conf (inl (-1)) (inr resolv_file) DNS_OPTIONS_ALL; call_set_option (txt "initial-probe-timeout:") (txt "4000.25"); call_search_add (txt "three.example")].

(** The numbers are clipped, the first search domain of the file comes first, and the search
    line has set ndots back to 1. *)
Example example_calls_result :
  (λ c, (cf_timeout c, cf_max_retransmits c, cf_max_nameserver_timeout c, cf_probe_initial_timeout c, length (cf_servers c), length (cf_hostsdb c), cf_search c)) <$>
    conf_run each_time decimal exact None each_time each_time each_time false dns_conf_new example_calls =
  COk (mk_timeval 2 500000, 255, 1, mk_timeval 3600 250000, 2%nat, 2%nat, Some (mk_search_conf 1 3 [txt "three.example"; txt "one.example"; txt "two.example"])).
Proof. vm_compute. reflexivity. Qed.

Lemma dns_config_in_range_witness :
  match conf_run each_time decimal exact None each_time each_time each_time false dns_conf_new example_calls with COk c => conf_ok c | CUndef s => no_int decimal s | CFault => False end.
Proof. apply (dns_config_in_range each_time decimal exact None each_time each_time each_time false); [reflexivity|exact decimal_double|exact exact_nearest]. Defined.

(** Times that are accepted or refused, and one whose number is no int. *)
Example timeout_too_large : conf_run each_time decimal exact None each_time each_time each_time false dns_conf_new
  [call_set_option (txt "timeout:") (txt "2147483647.5"); call_set_option (txt "timeout:") (txt "-1"); call_set_option (txt "timeout:") (txt "0.0001")] =
  COk (set_timeout (mk_timeval 2147483647 500000) dns_conf_new).
Proof. vm_compute. reflexivity. Qed.
Example timeout_undefined : evdns_strtotimeval (λ s, (d_finite (inject_Z 2147483648), [])) exact (txt "2147483648") = CUndef (txt "2147483648").
Proof. vm_compute. reflexivity. Qed.

(** A negative number of attempts is accepted, and a text that is no number turns
    randomizing the case on. *)
Example attempts_negative : (λ p : dns_conf * Z, (cf_max_retransmits (fst p), snd p)) <$> evdns_base_set_option each_time decimal exact (txt "attempts:") (txt "-5") dns_conf_new = COk (-5, 0).
Proof. vm_compute. reflexivity. Qed.
Example randomize_no_number : (λ p : dns_conf * Z, (cf_randomize_case (fst p), snd p)) <$> evdns_base_set_option each_time decimal exact (txt "randomize-case:") (txt "no") dns_conf_new = COk (-1, 0).
Proof. vm_compute. reflexivity. Qed.

(** Without memory for the state, a line with search domains follows a NULL pointer. *)
Example search_without_memory : resolv_conf_parse_line (λ _, false) decimal exact each_time each_time each_time false (txt "search example") DNS_OPTIONS_ALL dns_conf_new = CFault.
Proof. vm_compute. reflexivity. Qed.

(** ** Hosts *)

Definition example_hosts : list hosts_line :=
  [line_other (txt "# hosts"); line_entry (txt " ") (txt "10.1.2.3") [(txt "  ", txt "alpha"); (txt " ", txt "alpha.example")] (txt " # the first");
   line_other []; line_entry [] (txt "::5") [(txt "	", txt "Alpha")] (txt " "); line_entry [] (txt "10.1.2.4") [(txt " ", txt "beta"); (txt " ", txt "alpha")] []].

Ltac decided := apply (bool_decide_unpack _); vm_compute; exact I.

Lemma example_hosts_ok : Forall line_ok example_hosts ∧ Forall (λ l, (10 ∉ line_text l) ∧ (0 ∉ line_text l)) example_hosts.
Proof.
  split; [|decided].
  unfold example_hosts. repeat (apply List.Forall_cons); [| | | | |apply List.Forall_nil].
  - right. exists [], (txt " hosts"). split; [reflexivity|decided].
  - split; [decided|]. split; [decided|]. split; [eexists _, _; split; vm_compute; reflexivity|].
    split; [decided|]. right. exists (txt " "), (txt " the first"). split; [reflexivity|decided].
  - left. apply List.Forall_nil.
  - split; [apply List.Forall_nil|]. split; [decided|]. split; [eexists _, _; split; vm_compute; reflexivity|].
    split; [decided|]. left. decided.
  - split; [apply List.Forall_nil|]. split; [decided|]. split; [eexists _, _; split; vm_compute; reflexivity|].
    split; [decided|]. left. apply List.Forall_nil.
Qed.

(** The two IPv4 addresses of a name, in the order of the file. *)
Example example_hosts_ip4 : (λ r, ai_addr <$> r) (hosts_answers (txt "ALPHA") (mk_hints 0 PF_INET SOCK_STREAM IPPROTO_TCP) 80 (example_hosts ≫= line_entries)) =
  [SaIn (mk_sin (htons 80) (htonl 0x0a010203)); SaIn (mk_sin (htons 80) (htonl 0x0a010204))].
Proof. vm_compute. reflexivity. Qed.

Lemma hosts_file_lookup_witness : ∃ c', evdns_base_load_hosts_impl each_time (Some (inr (file_text (line_text <$> example_hosts)))) dns_conf_new = Some (c', 0) ∧
  let db := cf_hostsdb dns_conf_new ++ (example_hosts ≫= line_entries) in
  evdns_getaddrinfo_fromhosts each_time (txt "ALPHA") (mk_hints 0 PF_INET SOCK_STREAM IPPROTO_TCP) 80 c' =
  Some (if existsb (named (txt "ALPHA")) db then (0, hosts_answers (txt "ALPHA") (mk_hints 0 PF_INET SOCK_STREAM IPPROTO_TCP) 80 db, true) else (-1, [], true)).
Proof. apply (hosts_file_lookup each_time ltac:(reflexivity)); [discriminate|apply example_hosts_ok|apply example_hosts_ok]. Defined.

(** With neither a type nor a protocol, the answer for UDP has port 0. *)
Example udp_without_port : (λ r, (ai_socktype r, ai_addr r)) <$> hosts_answers (txt "beta") (mk_hints 0 PF_UNSPEC 0 0) 80 (example_hosts ≫= line_entries) =
  [(SOCK_STREAM, SaIn (mk_sin (htons 80) (htonl 0x0a010204))); (SOCK_DGRAM, SaIn (mk_sin 0 (htonl 0x0a010204)))].
Proof. vm_compute. reflexivity. Qed.

(** When memory is missing the answer is an error, and the lock of the base is kept. *)
Example fromhosts_keeps_lock c' : evdns_base_load_hosts_impl each_time None dns_conf_new = Some (c', 0) →
  evdns_getaddrinfo_fromhosts (λ _, false) (txt "localhost") (mk_hints 0 PF_UNSPEC SOCK_STREAM IPPROTO_TCP) 80 c' = Some (-1, [], false).
Proof. vm_compute. by intros [= <-]. Qed.
